(* ===== verification/_CoqProject ===== *)
-Q . S2P
Prelude.v
Bytes.v
Block.v
Ata.v
Ext2Types.v
Ext2Core.v
Ext2Alloc.v
Ext2File.v
Ext2WriteSpec.v
Ext2Dir.v
Ext2Conf.v
Ext2TruncSpec.v
Ext2Mount.v
Ext2Theorems.v
Kmalloc.v
Ring.v
Pipe.v
Console.v
Keyboard.v
Mouse.v
Rtc.v
CString.v
Strto.v
Vsprintf.v
Vfs.v
Initrd.v
Namespace.v
NetCsum.v
Net.v
Dns.v
Tcp.v
NetRx.v
Rtl8139.v
TcpStream.v
TcpSend.v
NetWait.v
Paging.v
PagingClone.v
PagingInit.v
VMem.v
Elf.v
Wsurf.v
Vga.v
Fb.v
Task.v
TaskOps.v
Fd.v
TaskLife.v
Trap.v
Idt.v
TaskTheorems.v
Syscall.v
SysCalls.v
SysMem.v
SysSafe.v
SysNoFault.v
SysTheorems.v
SysFiles.v
SysOpen.v
SysHeap.v
Stdio.v
UStrtol.v
Malloc.v
MallocTheorems.v
ULibc.v
Shell.v
UTools.v
Browser.v
BrowserTheorems.v
Gfx.v
BrowserUrl.v
BrowserNav.v
BrowserDraw.v
Wm.v
WmTheorems.v
Sym.v
Hw.v
