(* ===== verification/Prelude.v ===== *)
(** * A verification development for the NOS kernel

    NOS is a small 32-bit x86 kernel in C with an ext2 file system, a
    TCP/IP stack, demand-free paging, pipes, consoles and a windowing
    protocol, and the programs that run on it: a shell, filters, a browser and
    a window manager, over a small C library.  This library models the parts
    that carry its logic as executable Rocq functions on explicit state and
    proves what each part promises to the others.

    ** The program and the files that model it

    A component's file has a module for its code and, where the theory is
    long, modules for the proofs behind it; names in brackets are modules,
    and the file is named where it is not called like its first module.

    - Memory.  kernel/kmalloc.c, the first-fit heap: [Kmalloc].
      kernel/paging.c, the frame bitset, page tables and directories in a
      store keyed by pointer, so that sharing is visible: [Paging], with the
      theory of the bitset in [PagingFrames] (same file), of copying and
      freeing address spaces in [PagingClone] and of the boot mapping in
      [PagingInit].  [VMem] is memory behind a page directory.
    - Tasks.  kernel/task.c, the task structures and queues in a store keyed
      by pointer: [Task], with the theory of the linked queues [TaskQueue]
      and of one operation [TaskSpec] (same file), [TaskOps] with the pipe
      references [TaskRefs], of whole histories in [TaskLife] and
      [TaskTheorems].  The register save and restore of
      kernel/interrupt.S: [Trap]; kernel/gdt.c, idt.c and isr.c: [Idt].
    - System calls.  kernel/syscall.c: the descriptor table of a task [Fd],
      the handlers [Syscall] and [SysCalls], which end in the dispatcher.
      What they need of user memory is in [SysMem], the rules for handlers
      that do not fault in [SysSafe], each handler in [SysNoFault] and the
      theorem in [SysTheorems], with [SysDemo], a running system for the
      examples; files through descriptors [SysFiles]; opening [SysOpen] and
      starting programs [SysExec] (SysOpen.v); growing memory [SysHeap] and
      sleeping and waiting [SysSleep] (SysHeap.v).
    - Programs.  kernel/elf.c, from the bytes of the file to the address
      space and stack of the new process: [Elf], [ElfSpec], [ElfTheorems]
      (Elf.v).
    - Block devices and ext2.  kernel/block.c: [Block], with the class of
      devices that may fail.  drivers/ata.c over ports: [Ata], its requests
      [AtaSpec] and the disk they implement [AtaDisk] (Ata.v).
      kernel/ext2.c: structures Ext2Types.v, primitives, allocators and the
      volume invariant Ext2Core.v, files Ext2File.v, directories Ext2Dir.v,
      mounting and a volume for the examples Ext2Mount.v, the VFS requests
      Ext2Theorems.v; proofs also in Ext2Alloc.v, Ext2WriteSpec.v,
      Ext2Conf.v and Ext2TruncSpec.v.
    - Names.  kernel/vfs.c: [Vfs], generic in the nodes behind it;
      kernel/initrd.c: [Initrd]; both file systems plugged together as
      kmain does: [Namespace].
    - Communication.  kernel/pipe.c and kernel/mutex.c: [Pipe];
      kernel/console.c: [Console]; both on the rings of [Ring].
    - Network.  include/net.h and kernel/net.c: checksums [NetCsum], frames
      and ARP [Net], DNS [Dns] and [DnsSpec] (Dns.v), the receive path and
      the blocking calls [NetRx], [NetWait]; kernel/tcp.c: [Tcp], [TcpSpec]
      and [TcpStream] (TcpStream.v), [TcpSend]; drivers/rtl8139.c:
      [Rtl8139], and its start in [Hw].
    - Interrupt lines.  kernel/pic.c, kernel/pit.c, kernel/pci.c and
      rtl8139_init over ports: [Hw], with a machine that has the chips, and
      [HwSpec] (Hw.v).
    - Display and windows.  kernel/vga.c: [Vga]; kernel/fb.c: [Fb];
      kernel/wsurf.c: [Wsurf], [WsurfSpec], [WsurfInv] (Wsurf.v).
    - Input and time.  drivers/keyboard.c: [Keyboard]; drivers/mouse.c:
      [Mouse]; drivers/rtc.c: [Rtc].
    - Library routines.  kernel/string.c: [CString], [Strto];
      kernel/vsprintf.c: [Vsprintf]; the symbol table of kernel/kernel.c:
      [Sym].
    - The C library of the programs.  user/libc/stdio.c: [Stdio],
      [StdioSpec], [StdioText] (Stdio.v); user/libc/stdlib.c: the allocator
      on the bytes of its heap [Malloc], [MallocSpec], [MallocInv]
      (Malloc.v), [MallocAlloc], [MallocTheorems] (MallocTheorems.v),
      strtol [UStrtol]; user/libc/libc.c: [ULibc].
    - Programs.  user/sh.c: [Shell], [ShellSpec] (Shell.v); user/grep.c,
      wc.c, cat.c and upper.c: [UTools]; drawing, user/gfx.h: [Gfx].
    - The browser, user/browser.c.  Characters, tags and layout
      [BrowserText], [Browser] (Browser.v), [BrowserSpec], [BrowserTheorems]
      (BrowserTheorems.v); addresses and responses [BrowserUrl],
      [BrowserUrlSpec] (BrowserUrl.v); requests, history and input
      [BrowserNav], [BrowserNavSpec] (BrowserNav.v); pixels [BrowserDraw].
    - The window manager, user/wm.c: [Wm], [WmSpec], [WmInv] (Wm.v),
      [WmTheorems], [WmDraw] (WmTheorems.v).

    Components meet at classes.  A block device promises [BlockEnvOk], and
    the ATA driver over drives that behave as the standard says is an
    instance; the network stack uses a card through [Nic], and the RTL8139
    driver is one; the shell, the browser and the window manager use the
    kernel through [KernelOk], [NetOk] and [DeskOk], each with a small
    concrete instance for the examples.

    [Prelude] (this file) has machine integers, the state monad with its
    weakest preconditions and the lemmas on indexed lists; [Bytes] has
    little-endian fields and bitmaps.

    ** How code becomes definitions

    C integers are [Z] with [u8], [u16], [u32] or [s32] written where the
    arithmetic can wrap.  A function that changes state is a function from
    state to result and state ([ST], or with panic as [None] where the code
    can panic); early returns are branches.  Code outside the repository, and
    hardware, is a parameter: the block device and its faults, the contents
    of the receive ring, the clock registers, the bytes of a fresh buffer, the
    drives and chips behind ports, and for a program the kernel it runs on.
    Sections that run with interrupts masked are single steps, and step
    relations interleave them ([Pipe], [Console], [TcpStream], [TcpSend],
    [WsurfInv], [TaskLife]).  Blocking loops take a schedule: arrivals and
    timer ticks for the network ([NetRx], [NetWait]); for system calls a list
    of turns, each with what the other tasks do to the system meanwhile
    ([Syscall]).  A call returns, still waits when the schedule ends, or
    faults; theorems about a call say which.

    Fuel appears where C loops are not structural, and is always a bound that
    the theorems show to suffice: path components (the length of the path),
    block maps (the blocks of the range), heap walks (the blocks of the
    chain), the pages of a range, the polls of a schedule, the characters of
    a page for its layout, of a path for its normal form and of the nm output
    for the symbols, the capacity of the page buffer for a response, and the
    blocks of the free list for malloc.  Polling loops with a limit have the
    limit as fuel.

    ** What the theorems show

    - ext2: writing then reading returns the bytes and touches no other file;
      every history of requests under any device faults keeps the volume
      invariant; mounting establishes it for any device contents; allocation
      and truncation are exact; faults give correct prefixes.
    - Memory: the heap refines an abstract block chain; address spaces are
      copied into fresh frames and freed exactly; boot maps the kernel and
      nothing for user mode; user pointers are checked exactly; a program is
      loaded completely and into memory nobody else has.
    - Tasks: in every history of the system the queues are well formed,
      scheduling is round robin, a pid is alive from its birth to its death,
      the last exit statuses are reported, and pipes exist exactly while one
      of their ends is held.
    - System calls: no register contents make a call that takes pointers
      fault or reach memory the program may not access; what is written to a
      file is what is read; opening honours its flags; a program starts with
      its image, arguments and descriptors; sbrk gives zeroed private
      memory; sleep and wait return when they should and not before.
    - Communication: pipes and TCP streams deliver bytes in order without
      loss or duplication, consoles and window events refine bounded queues,
      mutexes exclude, and acknowledged data has been received.
    - Network input: no packet makes the receive path read outside its
      buffer; DNS parsing agrees with the message grammar; the blocking calls
      return.
    - Display and windows: at a task's death no page of the shared pixel
      pool is left in its directory; the adapter shows the framebuffer exactly
      while a task owns it; the screen shows the last lines printed.
    - Interrupt lines: the controllers let through the lines asked for and
      raise the vectors whose gates are installed; the start of the network
      card changes one line and one gate; the timer has the divisor of its
      rate.
    - The disk: a request of the ATA driver returns or stores the sectors it
      names or reports an error, so ext2's theorems hold above it.
    - Programs: formatted output stays in its buffer and prints what the
      conversions say; malloc hands out blocks that do not overlap through
      any history; the shell leaves no descriptor behind; grep's matcher
      accepts the language of its pattern; every page has a layout inside its
      arrays, and no page, server or click breaks the browser's state; links
      stay on their site; the desktop keeps its stacking and draws inside its
      buffer; addresses resolve to the symbol that encloses them.
    - Text, time and devices: printing and parsing numbers are inverse, path
      resolution is a walk, dates are days of the Gregorian calendar, the
      keyboard delivers what was typed.

    Some theorems record what the code does against its intent; they are
    about the size-0 and end-of-heap cases of kmalloc, segment headers that
    pass elf_exec's checks outside the user window, two window surfaces
    that share a page, sleeps long enough to wrap, disk errors that stick, a
    precision that does not bound the reads of a string, the layout of rules
    and lists, and a timer rate that divides by zero.

    ** Not modelled

    The kernel log: mprintf's output is left out of every operation; of
    kernel/kernel.c only the symbol table is modelled.  Of the serial port only
    sending, and of the mouse everything but the set-up of its controller.
    kernel/main.c and boot/ are initialisation.  Of the programs, the set-up in
    main and loops over file arguments are system calls in a row; user/wget.c
    is a front end to the same requests as the browser's; the other programs
    under user/ are tests.  TLS is a third-party library, a parameter of the
    browser. *)

From Stdlib Require Export ZArith Lia.
From stdpp Require Export base tactics list list_numbers gmap.

#[global] Open Scope Z_scope.
#[global] Set Default Goal Selector "!".

(** ** Machine integers *)

(** Unsigned integers of the i686 target are kept as [Z], with the wrap-around
    written out at the points where C's arithmetic wraps. *)
Definition u8 (x : Z) : Z := x mod 256.
Definition u16 (x : Z) : Z := x mod 65536.
Definition u32 (x : Z) : Z := x mod 4294967296.

(** Conversion of a 32-bit pattern to a signed [int]. *)
Definition s32 (x : Z) : Z :=
  let y := u32 x in if y <? 2147483648 then y else y - 4294967296.

Lemma u8_small x : 0 ≤ x < 256 → u8 x = x.
Proof. apply Z.mod_small. Qed.

Lemma u16_small x : 0 ≤ x < 65536 → u16 x = x.
Proof. apply Z.mod_small. Qed.

Lemma u32_small x : 0 ≤ x < 4294967296 → u32 x = x.
Proof. apply Z.mod_small. Qed.

Lemma u8_range x : 0 ≤ u8 x < 256.
Proof. by apply Z.mod_pos_bound. Qed.

Lemma u16_range x : 0 ≤ u16 x < 65536.
Proof. by apply Z.mod_pos_bound. Qed.

Lemma u32_range x : 0 ≤ u32 x < 4294967296.
Proof. by apply Z.mod_pos_bound. Qed.

(** ** Tactics *)

(** [lia] with the equations of [/] and [mod] in the context. *)
Ltac zdm := Z.div_mod_to_equations; lia.

(** Turn the boolean tests of the code into propositions. *)
Ltac boolp :=
  repeat match goal with
  | H : (_ && _)%bool = true |- _ => apply andb_prop in H as [? ?]
  | H : (_ || _)%bool = false |- _ => apply orb_false_elim in H as [? ?]
  | H : negb _ = true |- _ => apply negb_true_iff in H
  | H : negb _ = false |- _ => apply negb_false_iff in H
  | H : (_ =? _)%Z = true |- _ => apply Z.eqb_eq in H
  | H : (_ =? _)%Z = false |- _ => apply Z.eqb_neq in H
  | H : (_ <? _)%Z = true |- _ => apply Z.ltb_lt in H
  | H : (_ <? _)%Z = false |- _ => apply Z.ltb_ge in H
  | H : (_ <=? _)%Z = true |- _ => apply Z.leb_le in H
  | H : (_ <=? _)%Z = false |- _ => apply Z.leb_gt in H
  | H : (_ >? _)%Z = true |- _ => apply Z.gtb_lt in H
  | H : (_ >? _)%Z = false |- _ => rewrite Z.gtb_ltb in H; apply Z.ltb_ge in H
  | H : (_ >=? _)%Z = true |- _ => apply Z.geb_le in H
  | H : (_ >=? _)%Z = false |- _ => rewrite Z.geb_leb in H; apply Z.leb_gt in H
  end.

(** Case analysis on the innermost boolean test of the goal. *)
Ltac case_if :=
  match goal with
  | |- context [if ?b then _ else _] =>
      lazymatch type of b with
      | bool => let E := fresh "E" in destruct b eqn:E; boolp
      end
  end.

(** Remove the wrap-around of machine arithmetic that cannot wrap. *)
Ltac wrap_simpl :=
  repeat match goal with
  | |- context [u32 ?x] => rewrite (u32_small x) by lia
  | |- context [u16 ?x] => rewrite (u16_small x) by lia
  | |- context [u8 ?x] => rewrite (u8_small x) by lia
  end.

Lemma s32_id x : -2147483648 ≤ x < 2147483648 → s32 x = x.
Proof. intros. unfold s32, u32. repeat case_if; zdm. Qed.

(** Disjoint bits add up. *)
Lemma lor_add a b n : 0 ≤ n → 0 ≤ b < 2 ^ n → Z.lor (a * 2 ^ n) b = a * 2 ^ n + b.
Proof.
  intros Hn Hb.
  assert (Z.land (a * 2 ^ n) b = 0) as Hd.
  { apply Z.bits_inj'. intros k Hk. rewrite Z.land_spec, Z.bits_0. destruct (decide (k < n)).
    - by rewrite Z.mul_pow2_bits_low by lia.
    - rewrite <- (Z.mod_small b (2 ^ n)) by lia. by rewrite Z.mod_pow2_bits_high, andb_false_r by lia. }
  by rewrite <- Z.lxor_lor, <- Z.add_nocarry_lxor.
Qed.

(** ** A state monad *)

(** Stateful C functions are state-passing functions; early returns are the
    branches of [if].  [stdpp]'s [x ← c; k] is the sequencing notation. *)
Definition ST (S A : Type) : Type := S → A * S.

#[global] Instance ST_ret {S} : MRet (ST S) := λ A x s, (x, s).
#[global] Instance ST_bind {S} : MBind (ST S) :=
  λ A B f c s, let '(a, s') := c s in f a s'.

Definition gets {S A} (f : S → A) : ST S A := λ s, (f s, s).
Definition modify {S} (f : S → S) : ST S unit := λ s, (tt, f s).

(** Weakest preconditions of state-passing code. *)
Definition wp {S A} (c : ST S A) (s : S) (Q : A → S → Prop) : Prop :=
  Q (c s).1 (c s).2.

Section wp.
Context {S : Type}.

Lemma wp_ret {A} (x : A) (s : S) Q : Q x s → wp (mret x) s Q.
Proof. done. Qed.

Lemma wp_bind {A B} (c : ST S A) (k : A → ST S B) s Q :
  wp c s (λ a s', wp (k a) s' Q) → wp (c ≫= k) s Q.
Proof. unfold wp, mbind, ST_bind. by destruct (c s). Qed.

Lemma wp_bind_inv {A B} (c : ST S A) (k : A → ST S B) s Q :
  wp (c ≫= k) s Q → wp c s (λ a s', wp (k a) s' Q).
Proof. unfold wp, mbind, ST_bind. by destruct (c s). Qed.

Lemma wp_mono {A} (c : ST S A) s (P Q : A → S → Prop) :
  wp c s P → (∀ a s', P a s' → Q a s') → wp c s Q.
Proof. unfold wp. auto. Qed.

Lemma wp_and {A} (c : ST S A) s (P Q : A → S → Prop) :
  wp c s P → wp c s Q → wp c s (λ a s', P a s' ∧ Q a s').
Proof. unfold wp. auto. Qed.

Lemma wp_gets {A} (f : S → A) s (Q : A → S → Prop) : Q (f s) s → wp (gets f) s Q.
Proof. done. Qed.

Lemma wp_modify (f : S → S) s (Q : unit → S → Prop) :
  Q tt (f s) → wp (modify f) s Q.
Proof. done. Qed.

Lemma wp_run {A} (c : ST S A) s Q a s' : wp c s Q → c s = (a, s') → Q a s'.
Proof. unfold wp. intros H E. by rewrite E in H. Qed.

Lemma run_wp {A} (c : ST S A) s (Q : A → S → Prop) :
  (∀ a s', c s = (a, s') → Q a s') → wp c s Q.
Proof. unfold wp. intros H. apply H. by destruct (c s). Qed.
End wp.

(** ** Lists indexed by machine integers *)

(** [bget l i] is [l[i]] and [bset l i v] is [l[i] = v] inside the bounds;
    the theorems of each component show that the code stays inside them. *)
Definition bget (l : list Z) (i : Z) : Z := default 0 (l !! Z.to_nat i).
Definition bset (l : list Z) (i v : Z) : list Z := <[Z.to_nat i := v]> l.

(** [memcpy(l + off, src, length src)]. *)
Definition splice {A} (l : list A) (off : Z) (src : list A) : list A :=
  list_inserts (Z.to_nat off) src l.

(** The [n] bytes at [l + off]. *)
Definition slice {A} (l : list A) (off n : Z) : list A :=
  take (Z.to_nat n) (drop (Z.to_nat off) l).

Definition zlength {A} (l : list A) : Z := Z.of_nat (length l).

(** [memset(ptr, v, n)] on a fresh buffer. *)
Definition memset_buf (v n : Z) : list Z := replicate (Z.to_nat n) v.

Definition is_byte (b : Z) : Prop := 0 ≤ b < 256.
Definition bytes_ok (l : list Z) : Prop := Forall is_byte l.

#[global] Instance is_byte_dec b : Decision (is_byte b).
Proof. unfold is_byte. apply _. Defined.
#[global] Instance bytes_ok_dec l : Decision (bytes_ok l).
Proof. unfold bytes_ok. apply _. Defined.

Create HintDb nos.

Lemma zlength_app {A} (l k : list A) : zlength (l ++ k) = zlength l + zlength k.
Proof. unfold zlength. rewrite length_app. lia. Qed.

Lemma zlength_cons {A} (x : A) l : zlength (x :: l) = 1 + zlength l.
Proof. unfold zlength. simpl length. lia. Qed.

Lemma zlength_nonneg {A} (l : list A) : 0 ≤ zlength l.
Proof. unfold zlength. lia. Qed.

(** ** Generic lemmas on indexed lists *)

Section lists.
Implicit Types l k : list Z.

Lemma bget_lookup l i x : l !! Z.to_nat i = Some x → bget l i = x.
Proof. unfold bget. by intros ->. Qed.

Lemma length_bset l i v : length (bset l i v) = length l.
Proof. apply length_insert. Qed.

Lemma bget_bset_eq l i v :
  0 ≤ i < zlength l → bget (bset l i v) i = v.
Proof.
  intros Hi. unfold bget, bset, zlength in *.
  rewrite list_lookup_insert_eq; [done | lia].
Qed.

Lemma bget_bset_ne l i j v :
  0 ≤ i → 0 ≤ j → i ≠ j → bget (bset l i v) j = bget l j.
Proof.
  intros. unfold bget, bset. rewrite list_lookup_insert_ne; [done | lia].
Qed.

Lemma bytes_ok_bget l i : bytes_ok l → is_byte (bget l i).
Proof.
  intros H. unfold bget. destruct (l !! Z.to_nat i) as [x|] eqn:E; simpl.
  - by eapply Forall_lookup_1 in H.
  - unfold is_byte; lia.
Qed.

Lemma bytes_ok_bset l i v : bytes_ok l → is_byte v → bytes_ok (bset l i v).
Proof. intros. by apply Forall_insert. Qed.

Lemma bytes_ok_app l k : bytes_ok (l ++ k) ↔ bytes_ok l ∧ bytes_ok k.
Proof. apply Forall_app. Qed.

Lemma bytes_ok_take l n : bytes_ok l → bytes_ok (take n l).
Proof. apply Forall_take. Qed.

Lemma bytes_ok_drop l n : bytes_ok l → bytes_ok (drop n l).
Proof. apply Forall_drop. Qed.

Lemma bytes_ok_replicate n v : is_byte v → bytes_ok (replicate n v).
Proof. intros. by apply Forall_replicate. Qed.
End lists.

Section splice.
Context {A : Type}.
Implicit Types l k : list A.

Lemma length_splice l off k : length (splice l off k) = length l.
Proof. apply length_inserts. Qed.

Lemma splice_lookup_inside l off k (i : nat) :
  0 ≤ off → off + zlength k ≤ zlength l →
  (Z.to_nat off ≤ i < Z.to_nat off + length k)%nat →
  splice l off k !! i = k !! (i - Z.to_nat off)%nat.
Proof.
  intros. unfold splice, zlength in *.
  apply list_lookup_inserts; lia.
Qed.

Lemma splice_lookup_outside l off k (i : nat) :
  (i < Z.to_nat off ∨ Z.to_nat off + length k ≤ i)%nat →
  splice l off k !! i = l !! i.
Proof.
  intros [?|?]; unfold splice.
  - apply list_lookup_inserts_lt; lia.
  - apply list_lookup_inserts_ge; lia.
Qed.

Lemma length_slice l off n :
  0 ≤ off → 0 ≤ n → off + n ≤ zlength l → length (slice l off n) = Z.to_nat n.
Proof.
  unfold slice, zlength. intros. rewrite length_take, length_drop. lia.
Qed.

Lemma slice_lookup l off n (i : nat) :
  (i < Z.to_nat n)%nat → slice l off n !! i = l !! (Z.to_nat off + i)%nat.
Proof.
  intros. unfold slice. rewrite lookup_take.
  rewrite decide_True by lia. by rewrite lookup_drop.
Qed.

(** Reading back the spliced bytes. *)
Lemma slice_splice_eq l off k :
  0 ≤ off → off + zlength k ≤ zlength l →
  slice (splice l off k) off (zlength k) = k.
Proof.
  intros Ho Hk. apply list_eq_same_length with (n := length k); [done| |].
  - unfold zlength in *.
    rewrite length_slice; unfold zlength; rewrite ?length_splice; lia.
  - intros i x y Hi Hx Hy.
    rewrite slice_lookup in Hx by (unfold zlength; lia).
    rewrite splice_lookup_inside in Hx by lia.
    replace (Z.to_nat off + i - Z.to_nat off)%nat with i in Hx by lia.
    congruence.
Qed.

(** Reading a range disjoint from the spliced one. *)
Lemma slice_splice_ne l off k off' n :
  0 ≤ off → 0 ≤ off' → off' + n ≤ off ∨ off + zlength k ≤ off' →
  slice (splice l off k) off' n = slice l off' n.
Proof.
  intros ?? Hd. apply list_eq. intros i.
  destruct (decide (i < Z.to_nat n)%nat) as [Hi|Hi].
  - rewrite !slice_lookup by done.
    apply splice_lookup_outside. unfold zlength in Hd. lia.
  - unfold slice. rewrite !lookup_take, !decide_False by lia. done.
Qed.

Lemma slice_all l n : n = zlength l → slice l 0 n = l.
Proof. intros ->. unfold slice, zlength. rewrite Nat2Z.id. apply take_ge. simpl. lia. Qed.

Lemma splice_all l k : length k = length l → splice l 0 k = k.
Proof.
  intros Hl. apply list_eq_same_length with (n := length l).
  - done.
  - by rewrite length_splice.
  - intros i x y Hi Hx Hy.
    rewrite splice_lookup_inside in Hx by (unfold zlength; lia).
    replace (i - Z.to_nat 0)%nat with i in Hx by lia. congruence.
Qed.

Lemma Forall_splice (P : A → Prop) l off k :
  Forall P l → Forall P k → Forall P (splice l off k).
Proof.
  intros Hl Hk. apply Forall_lookup_2. intros i x Hi.
  destruct (decide (Z.to_nat off ≤ i < Z.to_nat off + length k)%nat) as [?|Hn].
  - destruct (decide (i < length l)%nat).
    + unfold splice in Hi. rewrite list_lookup_inserts in Hi by lia.
      by eapply Forall_lookup_1 in Hk.
    + apply lookup_lt_Some in Hi. rewrite length_splice in Hi. lia.
  - rewrite splice_lookup_outside in Hi by lia.
    by eapply Forall_lookup_1 in Hl.
Qed.
End splice.
