(* ===== verification/Bytes.v ===== *)
(** * Byte buffers: little-endian fields and bitmaps

    The kernel overlays packed little-endian structures on byte buffers and
    keeps one bit per block, inode or frame in byte arrays.  This file has
    the field codec ([enc_fields]/[dec_fields]) with its round trips, and the
    bit operations [bm[i/8] & (1 << (i%8))], [|=], [&= ~]. *)

From S2P Require Import Prelude.

(** ** Little-endian fields *)

(** [n] bytes of [v], least significant first. *)
Fixpoint le_enc (n : nat) (v : Z) : list Z :=
  match n with
  | O => []
  | S n' => v mod 256 :: le_enc n' (v / 256)
  end.

Fixpoint le_dec (l : list Z) : Z :=
  match l with
  | [] => 0
  | b :: l' => b + 256 * le_dec l'
  end.

(** A packed structure is a list of field widths. *)
Fixpoint enc_fields (ws : list nat) (vs : list Z) : list Z :=
  match ws, vs with
  | w :: ws', v :: vs' => le_enc w v ++ enc_fields ws' vs'
  | _, _ => []
  end.

Fixpoint dec_fields (ws : list nat) (l : list Z) : list Z :=
  match ws with
  | [] => []
  | w :: ws' => le_dec (take w l) :: dec_fields ws' (drop w l)
  end.

(** The value fits its field. *)
Definition fits (w : nat) (v : Z) : Prop := 0 ≤ v < 256 ^ Z.of_nat w.

#[global] Instance fits_dec w v : Decision (fits w v).
Proof. unfold fits. apply _. Defined.

Definition bytes_size (ws : list nat) : nat := foldr Nat.add 0%nat ws.

(** [rd32 l off] is [*(uint32_t * )(l + off)], [wr32] the store. *)
Definition rd32 (l : list Z) (off : Z) : Z := le_dec (slice l off 4).
Definition rd16 (l : list Z) (off : Z) : Z := le_dec (slice l off 2).
Definition wr32 (l : list Z) (off v : Z) : list Z := splice l off (le_enc 4 v).
Definition wr16 (l : list Z) (off v : Z) : list Z := splice l off (le_enc 2 v).

(** ** Bitmaps *)

(** [bm[i / 8] & (1 << (i % 8))], as the test the code makes of it. *)
Definition bm_test (bm : list Z) (i : Z) : bool :=
  negb (Z.land (bget bm (i / 8)) (Z.shiftl 1 (i mod 8)) =? 0).

(** [bm[i / 8] |= (1 << (i % 8))]. *)
Definition bm_set (bm : list Z) (i : Z) : list Z :=
  bset bm (i / 8) (u8 (Z.lor (bget bm (i / 8)) (Z.shiftl 1 (i mod 8)))).

(** [bm[i / 8] &= ~(1 << (i % 8))]. *)
Definition bm_clear (bm : list Z) (i : Z) : list Z :=
  bset bm (i / 8) (u8 (Z.land (bget bm (i / 8)) (Z.lnot (Z.shiftl 1 (i mod 8))))).

(** The scan loops of the allocators: the first clear bit among [i ..
    i + fuel - 1]. *)
Fixpoint first_clear (fuel : nat) (bm : list Z) (i : Z) : option Z :=
  match fuel with
  | O => None
  | S f => if bm_test bm i then first_clear f bm (i + 1) else Some i
  end.

(** The number of clear bits among [i .. i + n - 1]. *)
Fixpoint count_clear (n : nat) (bm : list Z) (i : Z) : Z :=
  match n with
  | O => 0
  | S n' => (if bm_test bm i then 0 else 1) + count_clear n' bm (i + 1)
  end.

(** ** Codec lemmas *)

Lemma length_le_enc n v : length (le_enc n v) = n.
Proof. revert v; induction n; intros v; simpl; auto. Qed.

Lemma le_enc_bytes n v : bytes_ok (le_enc n v).
Proof.
  revert v; induction n as [|n IH]; intros v; simpl; [constructor|].
  constructor; [|apply IH]. unfold is_byte. by apply Z.mod_pos_bound.
Qed.

Lemma le_dec_enc n v : fits n v → le_dec (le_enc n v) = v.
Proof.
  unfold fits. revert v; induction n as [|n IH]; intros v Hv.
  - simpl in *. change (256 ^ Z.of_nat 0) with 1 in Hv. lia.
  - simpl. rewrite Nat2Z.inj_succ, Z.pow_succ_r in Hv by lia.
    rewrite IH.
    + pose proof (Z.div_mod v 256). lia.
    + split; [apply Z.div_pos; lia|]. apply Z.div_lt_upper_bound; lia.
Qed.

Lemma le_dec_range l : bytes_ok l → fits (length l) (le_dec l).
Proof.
  unfold fits. induction 1 as [|b l Hb Hl IH].
  - simpl. change (256 ^ Z.of_nat 0) with 1. lia.
  - cbn [length le_dec]. rewrite Nat2Z.inj_succ, Z.pow_succ_r by lia.
    unfold is_byte in Hb. lia.
Qed.

Lemma le_enc_dec l : bytes_ok l → le_enc (length l) (le_dec l) = l.
Proof.
  induction 1 as [|b l Hb Hl IH]; [done|]. cbn [length le_dec le_enc].
  unfold is_byte in Hb.
  rewrite (Z.mul_comm 256), Z.mod_add, Z.div_add by lia.
  rewrite Z.mod_small, (Z.div_small b), Z.add_0_l, IH by lia. done.
Qed.

Lemma length_enc_fields ws vs :
  length ws = length vs → length (enc_fields ws vs) = bytes_size ws.
Proof.
  revert vs; induction ws as [|w ws IH]; intros [|v vs] H; simplify_eq/=; [done|].
  rewrite length_app, length_le_enc, IH; done.
Qed.

Lemma enc_fields_bytes ws vs : bytes_ok (enc_fields ws vs).
Proof.
  revert vs; induction ws as [|w ws IH]; intros [|v vs]; simpl; try constructor.
  apply bytes_ok_app. split; [apply le_enc_bytes | apply IH].
Qed.

(** Decoding what was encoded gives the fields back, whatever follows. *)
Lemma dec_enc_fields ws vs rest :
  Forall2 fits ws vs → dec_fields ws (enc_fields ws vs ++ rest) = vs.
Proof.
  induction 1 as [|w v ws vs Hf H IH]; [done|]. simpl.
  rewrite <- app_assoc.
  rewrite take_app_length', drop_app_length' by by rewrite length_le_enc.
  by rewrite le_dec_enc, IH.
Qed.

Lemma length_dec_fields ws l : length (dec_fields ws l) = length ws.
Proof. revert l; induction ws; intros; simpl; auto. Qed.

(** Decoded fields always fit their width. *)
Lemma dec_fields_fits ws l :
  bytes_ok l → (bytes_size ws ≤ length l)%nat → Forall2 fits ws (dec_fields ws l).
Proof.
  revert l; induction ws as [|w ws IH]; intros l Hb Hl; simpl in *; constructor.
  - pose proof (le_dec_range (take w l) (bytes_ok_take _ _ Hb)) as H.
    rewrite length_take in H. by rewrite Nat.min_l in H by lia.
  - apply IH; [by apply bytes_ok_drop|]. rewrite length_drop. lia.
Qed.

(** Encoding what was decoded gives the bytes back. *)
Lemma enc_dec_fields ws l :
  bytes_ok l → (bytes_size ws ≤ length l)%nat →
  enc_fields ws (dec_fields ws l) = take (bytes_size ws) l.
Proof.
  revert l; induction ws as [|w ws IH]; intros l Hb Hl; simpl in *; [done|].
  rewrite IH; [|by apply bytes_ok_drop|rewrite length_drop; lia].
  assert (length (take w l) = w) as Hw by (rewrite length_take; lia).
  rewrite <- Hw at 1. rewrite le_enc_dec by by apply bytes_ok_take.
  rewrite take_take_drop. done.
Qed.

(** ** Bitmap lemmas *)

Lemma land_pow2_testbit x k :
  0 ≤ k → negb (Z.land x (Z.shiftl 1 k) =? 0) = Z.testbit x k.
Proof.
  intros Hk. rewrite Z.shiftl_1_l. apply eq_true_iff_eq.
  rewrite negb_true_iff, Z.eqb_neq. split.
  - intros H. apply not_false_is_true. intros Hf. apply H.
    apply Z.bits_inj'. intros n Hn. rewrite Z.land_spec, Z.bits_0.
    destruct (decide (n = k)) as [->|]; [by rewrite Hf|].
    rewrite Z.pow2_bits_false by done. apply andb_false_r.
  - intros Ht H. apply (f_equal (λ y, Z.testbit y k)) in H.
    rewrite Z.land_spec, Z.bits_0, Z.pow2_bits_true, Ht in H by done. done.
Qed.

Lemma bm_test_testbit bm i : bm_test bm i = Z.testbit (bget bm (i / 8)) (i mod 8).
Proof. apply land_pow2_testbit. by apply Z.mod_pos_bound. Qed.

Lemma u8_testbit x k : 0 ≤ k < 8 → Z.testbit (u8 x) k = Z.testbit x k.
Proof. intros. unfold u8. apply (Z.mod_pow2_bits_low x 8 k). lia. Qed.

Section bitmap.
Context (bm : list Z) (i : Z) (Hi : 0 ≤ i < 8 * zlength bm).

Local Lemma i_div : 0 ≤ i / 8 < zlength bm.
Proof. zdm. Qed.

Lemma bm_test_set_eq : bm_test (bm_set bm i) i = true.
Proof.
  pose proof i_div. rewrite bm_test_testbit. unfold bm_set.
  rewrite bget_bset_eq by done.
  pose proof (Z.mod_pos_bound i 8 ltac:(lia)).
  rewrite u8_testbit, Z.lor_spec, Z.shiftl_1_l, Z.pow2_bits_true by lia.
  apply orb_true_r.
Qed.

Lemma bm_test_clear_eq : bm_test (bm_clear bm i) i = false.
Proof.
  pose proof i_div. rewrite bm_test_testbit. unfold bm_clear.
  rewrite bget_bset_eq by done.
  pose proof (Z.mod_pos_bound i 8 ltac:(lia)).
  rewrite u8_testbit, Z.land_spec, Z.lnot_spec, Z.shiftl_1_l, Z.pow2_bits_true by lia.
  apply andb_false_r.
Qed.

Lemma bm_test_set_ne j : 0 ≤ j → j ≠ i → bm_test (bm_set bm i) j = bm_test bm j.
Proof.
  intros Hj Hne. pose proof i_div. rewrite !bm_test_testbit. unfold bm_set.
  destruct (decide (i / 8 = j / 8)) as [E|E].
  - rewrite <- E, bget_bset_eq by done.
    pose proof (Z.mod_pos_bound j 8 ltac:(lia)).
    rewrite u8_testbit, Z.lor_spec, Z.shiftl_1_l, Z.pow2_bits_false
      by first [lia | zdm].
    apply orb_false_r.
  - rewrite bget_bset_ne; [done | lia | zdm | done].
Qed.

Lemma bm_test_clear_ne j : 0 ≤ j → j ≠ i → bm_test (bm_clear bm i) j = bm_test bm j.
Proof.
  intros Hj Hne. pose proof i_div. rewrite !bm_test_testbit. unfold bm_clear.
  destruct (decide (i / 8 = j / 8)) as [E|E].
  - rewrite <- E, bget_bset_eq by done.
    pose proof (Z.mod_pos_bound j 8 ltac:(lia)).
    rewrite u8_testbit, Z.land_spec, Z.lnot_spec, Z.shiftl_1_l, Z.pow2_bits_false
      by first [lia | zdm].
    apply andb_true_r.
  - rewrite bget_bset_ne; [done | lia | zdm | done].
Qed.
End bitmap.

Lemma length_bm_set bm i : length (bm_set bm i) = length bm.
Proof. apply length_bset. Qed.

Lemma length_bm_clear bm i : length (bm_clear bm i) = length bm.
Proof. apply length_bset. Qed.

Lemma bm_set_bytes bm i : bytes_ok bm → bytes_ok (bm_set bm i).
Proof. intros. apply bytes_ok_bset; [done|]. apply u8_range. Qed.

Lemma bm_clear_bytes bm i : bytes_ok bm → bytes_ok (bm_clear bm i).
Proof. intros. apply bytes_ok_bset; [done|]. apply u8_range. Qed.

(** Clearing a bit that was clear before it was set restores the bitmap. *)
Lemma bm_clear_set bm i :
  bytes_ok bm → 0 ≤ i < 8 * zlength bm → bm_test bm i = false →
  bm_clear (bm_set bm i) i = bm.
Proof.
  intros Hb Hi Ht. pose proof (i_div bm i Hi).
  unfold bm_clear, bm_set. rewrite bget_bset_eq by done.
  unfold bset. rewrite list_insert_insert_eq.
  apply list_insert_id.
  destruct (lookup_lt_is_Some_2 bm (Z.to_nat (i / 8))) as [x Hx].
  { unfold zlength in *. lia. }
  rewrite Hx. f_equal. rewrite (bget_lookup _ _ _ Hx).
  pose proof (Forall_lookup_1 _ _ _ _ Hb Hx) as Hxb. unfold is_byte in Hxb.
  rewrite bm_test_testbit, (bget_lookup _ _ _ Hx) in Ht.
  rewrite <- (u8_small x) at 1 by done.
  unfold u8. apply Z.bits_inj'. intros n Hn.
  change 256 with (2 ^ 8).
  destruct (decide (n < 8)) as [Hn8|Hn8].
  - rewrite !Z.mod_pow2_bits_low by lia.
    rewrite Z.land_spec, Z.lnot_spec by done.
    rewrite Z.mod_pow2_bits_low, Z.lor_spec by lia.
    rewrite Z.shiftl_1_l, Z.pow2_bits_eqb by zdm.
    destruct (Z.eqb_spec (i mod 8) n) as [<-|]; simpl; [by rewrite Ht, andb_false_r|].
    by rewrite orb_false_r, andb_true_r.
  - rewrite !Z.mod_pow2_bits_high; [done|lia..].
Qed.

(** ** The allocator scan *)

Lemma first_clear_Some fuel bm i j :
  first_clear fuel bm i = Some j →
  i ≤ j < i + Z.of_nat fuel ∧ bm_test bm j = false ∧
  (∀ k, i ≤ k < j → bm_test bm k = true).
Proof.
  revert i; induction fuel as [|f IH]; intros i H; simplify_eq/=.
  destruct (bm_test bm i) eqn:E.
  - apply IH in H as (? & ? & Hk). split; [lia|]. split; [done|].
    intros k ?. destruct (decide (k = i)) as [->|]; [done|]. apply Hk; lia.
  - simplify_eq. split; [lia|]. split; [done|]. lia.
Qed.

Lemma first_clear_None fuel bm i :
  first_clear fuel bm i = None ↔
  ∀ k, i ≤ k < i + Z.of_nat fuel → bm_test bm k = true.
Proof.
  revert i; induction fuel as [|f IH]; intros i; simpl.
  - split; [intros _ k; lia | done].
  - destruct (bm_test bm i) eqn:E.
    + rewrite IH. split; intros H k ?.
      * destruct (decide (k = i)) as [->|]; [done|]. apply H; lia.
      * apply H; lia.
    + split; [done|]. intros H. rewrite H in E by lia. done.
Qed.

Lemma count_clear_ext n bm bm' i :
  (∀ j, i ≤ j < i + Z.of_nat n → bm_test bm j = bm_test bm' j) →
  count_clear n bm i = count_clear n bm' i.
Proof.
  revert i; induction n as [|n IH]; intros i H; [done|]. simpl.
  rewrite (H i) by lia. f_equal. apply IH. intros; apply H; lia.
Qed.

Lemma count_clear_bounds n bm i : 0 ≤ count_clear n bm i ≤ Z.of_nat n.
Proof.
  revert i; induction n as [|n IH]; intros i; simpl; [lia|].
  specialize (IH (i + 1)). destruct (bm_test bm i); lia.
Qed.

Lemma count_clear_zero n bm i :
  count_clear n bm i = 0 → ∀ k, i ≤ k < i + Z.of_nat n → bm_test bm k = true.
Proof.
  revert i; induction n as [|n IH]; intros i H k Hk; [lia|]. simpl in H.
  pose proof (count_clear_bounds n bm (i + 1)).
  destruct (bm_test bm i) eqn:E; [|lia].
  destruct (decide (k = i)) as [->|]; [done|]. apply (IH (i + 1)); lia.
Qed.

(** Setting one clear bit of the range takes one from the count. *)
Lemma count_clear_set n bm i j :
  0 ≤ i ≤ j → j < i + Z.of_nat n → i + Z.of_nat n ≤ 8 * zlength bm →
  bm_test bm j = false →
  count_clear n (bm_set bm j) i = count_clear n bm i - 1.
Proof.
  revert i; induction n as [|n IH]; intros i Hij Hj Hl Ht; [simpl in *; lia|].
  cbn [count_clear].
  destruct (decide (i = j)) as [->|Hne].
  - rewrite bm_test_set_eq, Ht by lia.
    rewrite (count_clear_ext n (bm_set bm j) bm); [lia|].
    intros k ?. apply bm_test_set_ne; lia.
  - rewrite bm_test_set_ne, IH by (lia || done). lia.
Qed.

Lemma count_clear_clear n bm i j :
  0 ≤ i ≤ j → j < i + Z.of_nat n → i + Z.of_nat n ≤ 8 * zlength bm →
  bm_test bm j = true →
  count_clear n (bm_clear bm j) i = count_clear n bm i + 1.
Proof.
  revert i; induction n as [|n IH]; intros i Hij Hj Hl Ht; [simpl in *; lia|].
  cbn [count_clear].
  destruct (decide (i = j)) as [->|Hne].
  - rewrite bm_test_clear_eq, Ht by lia.
    rewrite (count_clear_ext n (bm_clear bm j) bm); [lia|].
    intros k ?. apply bm_test_clear_ne; lia.
  - rewrite bm_test_clear_ne, IH by (lia || done). lia.
Qed.

(** ** Indexing into updated buffers *)

Lemma bget_splice l off k i :
  0 ≤ off → off + zlength k ≤ zlength l → 0 ≤ i →
  bget (splice l off k) i =
    if decide (off ≤ i < off + zlength k) then bget k (i - off) else bget l i.
Proof.
  unfold zlength. intros. unfold bget. case_decide.
  - rewrite splice_lookup_inside by (unfold zlength; lia). do 2 f_equal. lia.
  - rewrite splice_lookup_outside by (unfold zlength; lia). done.
Qed.

Lemma bget_slice l off n i :
  0 ≤ off → 0 ≤ i < n → bget (slice l off n) i = bget l (off + i).
Proof.
  intros. unfold bget. rewrite slice_lookup by lia. do 2 f_equal. lia.
Qed.

Lemma bget_memset n i : bget (memset_buf 0 n) i = 0.
Proof.
  unfold bget, memset_buf. destruct (replicate _ _ !! _) as [v|] eqn:E; [|done].
  by apply lookup_replicate in E as [-> _].
Qed.

Lemma rd32_wr32_eq l off v :
  0 ≤ off → off + 4 ≤ zlength l → fits 4 v → rd32 (wr32 l off v) off = v.
Proof.
  intros. unfold rd32, wr32. change 4 with (Z.of_nat 4) at 1.
  rewrite <- (length_le_enc 4 v) at 1. fold (zlength (le_enc 4 v)).
  rewrite slice_splice_eq by (unfold zlength in *; rewrite ?length_le_enc; lia).
  by apply le_dec_enc.
Qed.

Lemma rd32_wr32_ne l off off' v :
  0 ≤ off → 0 ≤ off' → off + 4 ≤ off' ∨ off' + 4 ≤ off → off + 4 ≤ zlength l →
  rd32 (wr32 l off v) off' = rd32 l off'.
Proof.
  intros. unfold rd32, wr32. rewrite slice_splice_ne; [done|..];
    unfold zlength in *; rewrite ?length_le_enc; lia.
Qed.

Lemma rd32_range l off : bytes_ok l → 0 ≤ rd32 l off < 4294967296.
Proof.
  intros Hl. unfold rd32.
  assert (bytes_ok (slice l off 4)) as Hs by (by apply bytes_ok_take, bytes_ok_drop).
  pose proof (le_dec_range _ Hs) as [? Hu]. split; [done|]. eapply Z.lt_le_trans; [exact Hu|].
  change 4294967296 with (256 ^ 4). apply Z.pow_le_mono_r; [lia|].
  unfold slice. rewrite length_take. lia.
Qed.

Lemma rd32_memset n off : 0 ≤ n → rd32 (memset_buf 0 n) off = 0.
Proof.
  intros. unfold rd32, slice, memset_buf. rewrite drop_replicate, take_replicate.
  generalize (Z.to_nat 4 `min` (Z.to_nat n - Z.to_nat off))%nat. intros k.
  induction k as [|k IH]; [done|]. simpl. by rewrite IH.
Qed.

(** Fields of a message built by concatenation. *)
Lemma slice_at {A} (pre mid post : list A) off n :
  off = zlength pre → n = zlength mid → slice (pre ++ mid ++ post) off n = mid.
Proof.
  intros -> ->. unfold slice, zlength. rewrite !Nat2Z.id, drop_app_length. apply take_app_length.
Qed.

Lemma rd16_at pre v post off : off = zlength pre → fits 2 v → rd16 (pre ++ le_enc 2 v ++ post) off = v.
Proof. intros Ho Hv. unfold rd16. rewrite slice_at; [by apply le_dec_enc|done|by unfold zlength; rewrite length_le_enc]. Qed.

Lemma rd32_at pre v post off : off = zlength pre → fits 4 v → rd32 (pre ++ le_enc 4 v ++ post) off = v.
Proof. intros Ho Hv. unfold rd32. rewrite slice_at; [by apply le_dec_enc|done|by unfold zlength; rewrite length_le_enc]. Qed.

Lemma bget_at_app pre v post off : off = zlength pre → bget (pre ++ v :: post) off = v.
Proof.
  intros ->. unfold bget, zlength. rewrite Nat2Z.id, lookup_app_r, Nat.sub_diag by lia. done.
Qed.

(** A decidable fact about all bytes, by evaluation. *)
Lemma byte_forall (P : Z → bool) : forallb P (seqZ 0 256) = true → ∀ b, is_byte b → P b = true.
Proof.
  intros Hp b Hb. rewrite forallb_forall in Hp. apply Hp, list_elem_of_In, elem_of_seqZ. unfold is_byte in Hb. lia.
Qed.

(** A buffer up to the end of the bytes just stored. *)
Lemma take_splice {A} (l k : list A) off :
  0 ≤ off → off + zlength k ≤ zlength l →
  take (Z.to_nat off + length k) (splice l off k) = take (Z.to_nat off) l ++ k.
Proof.
  intros Ho Hk. apply list_eq. intros i. rewrite lookup_take. unfold zlength in Hk.
  destruct (decide (i < Z.to_nat off + length k)%nat) as [Hi|Hi].
  - destruct (decide (i < Z.to_nat off)%nat).
    + rewrite splice_lookup_outside, lookup_app_l by (rewrite ?length_take; lia).
      by rewrite lookup_take, decide_True by lia.
    + rewrite splice_lookup_inside, lookup_app_r, length_take by (rewrite ?length_take; unfold zlength; lia).
      f_equal. lia.
  - rewrite lookup_ge_None_2; [done|]. rewrite length_app, length_take. lia.
Qed.

(** Masking the low bits of a 32-bit value rounds it down. *)
Lemma align_down k x :
  0 ≤ k ≤ 32 → 0 ≤ x < 4294967296 → Z.land x (Z.shiftl (Z.ones (32 - k)) k) = x - x mod 2 ^ k.
Proof.
  intros Hk Hx. pose proof (Z.pow_pos_nonneg 2 k ltac:(lia) ltac:(lia)).
  replace (x - x mod 2 ^ k) with (Z.shiftl (Z.shiftr x k) k)
    by (rewrite Z.shiftl_mul_pow2, Z.shiftr_div_pow2 by lia; pose proof (Z.div_mod x (2 ^ k) ltac:(lia)); lia).
  apply Z.bits_inj'. intros n Hn. rewrite Z.land_spec, !Z.shiftl_spec by lia. destruct (decide (n < k)).
  { rewrite (Z.testbit_neg_r _ (n - k)), (Z.testbit_neg_r (Z.shiftr x k)) by lia. apply andb_false_r. }
  rewrite Z.shiftr_spec by lia. replace (n - k + k) with n by lia. rewrite Z.testbit_ones_nonneg by lia.
  destruct (Z.ltb_spec (n - k) (32 - k)); [by rewrite andb_true_r|].
  assert (Z.testbit x n = false) as ->; [|done].
  rewrite <- (Z.mod_small x (2 ^ 32)) by (change (2 ^ 32) with 4294967296; lia). apply Z.mod_pow2_bits_high. lia.
Qed.
