(* ===== verification/Block.v ===== *)
(** * The block layer (kernel/block.c, include/block.h)

    The registry of block devices, the range check every request passes, and
    the interface [BlockEnv] through which a file system sees a device: the
    driver's [read] and [write] callbacks, which may fail at any call, and
    the kernel heap its scratch buffers come from.  [BlockEnvOk] states what
    a driver promises; [ramdisk] is a device that keeps the promise and has a
    programmable schedule of faults (a failed write is torn). *)

From S2P Require Import Prelude Bytes.

Definition BLOCK_SECTOR_SIZE : Z := 512.
Definition BLOCK_MAX_DEVICES : Z := 4.

(** ** The device registry *)

Module Registry.

(** [struct block_device]; pointers are addresses, 0 is NULL. *)
Record block_device := {
  name : Z;
  sector_count : Z;
  read : Z;
  write : Z;
  impl : Z;
}.

(** [static struct block_device *devices[4]; static uint32_t ndevices;] *)
Record registry := {
  devices : list (option block_device);
  ndevices : Z;
}.

Definition init : registry :=
  {| devices := replicate (Z.to_nat BLOCK_MAX_DEVICES) None; ndevices := 0 |}.

Definition block_register (dev : option block_device) (r : registry) : Z * registry :=
  match dev with
  | None => (-1, r)
  | Some d =>
      if (name d =? 0) || (sector_count d =? 0) || (read d =? 0) ||
         (write d =? 0) || (ndevices r =? BLOCK_MAX_DEVICES)
      then (-1, r)
      else (0, {| devices := <[Z.to_nat (ndevices r) := Some d]> (devices r);
                  ndevices := u32 (ndevices r + 1) |})
  end.

Definition block_count (r : registry) : Z := ndevices r.

Definition block_get (index : Z) (r : registry) : option block_device :=
  if index <? ndevices r then mjoin (devices r !! Z.to_nat index) else None.

End Registry.

(** [block_range_ok] for a non-NULL device of [sectors] sectors. *)
Definition block_range_ok (sectors lba count : Z) : bool :=
  negb (count =? 0) && (lba <? sectors) && (count <=? u32 (sectors - lba)).

(** ** The device interface *)

(** What kernel/ext2.c sees of the world outside: [dev->sector_count], the
    driver callbacks [dev->read]/[dev->write] ([None]/[false] is a negative
    return value) and whether a [kmalloc] of the given size succeeded. *)
Class BlockEnv (E : Type) := {
  dev_sectors : E → Z;
  dev_read : Z → Z → ST E (option (list Z));
  dev_write : Z → Z → list Z → ST E bool;
  heap_alloc : Z → ST E bool;
}.

Definition block_read {E} `{BlockEnv E} (lba count : Z) : ST E (option (list Z)) :=
  λ e, if block_range_ok (dev_sectors e) lba count
       then dev_read lba count e else (None, e).

Definition block_write {E} `{BlockEnv E} (lba count : Z) (buffer : list Z) : ST E bool :=
  λ e, if block_range_ok (dev_sectors e) lba count
       then dev_write lba count buffer e else (false, e).

(** The bytes of [n] sectors from [lba]. *)
Fixpoint sectors_at (disk : Z → list Z) (lba : Z) (n : nat) : list Z :=
  match n with
  | O => []
  | S n' => disk lba ++ sectors_at disk (lba + 1) n'
  end.

(** What the driver promises for requests inside the device, the only ones
    block_read and block_write pass on.  [dev_disk] is the contents of the
    medium: a read never changes it and returns it; a write changes at most the
    addressed sectors, and stores the buffer when it reports success.
    [reliable] states of the environment are those in which requests inside
    the device succeed. *)
Class BlockEnvOk (E : Type) `{BlockEnv E} := {
  dev_disk : E → Z → list Z;
  reliable : E → Prop;
  dev_sectors_range e : 0 ≤ dev_sectors e < 4294967296;
  dev_disk_ok e s : length (dev_disk e s) = 512%nat ∧ bytes_ok (dev_disk e s);
  dev_read_spec e lba n r e' :
    0 ≤ lba → lba + n ≤ dev_sectors e → dev_read lba n e = (r, e') →
    dev_sectors e' = dev_sectors e ∧ (∀ s, dev_disk e' s = dev_disk e s) ∧
    (∀ bs, r = Some bs → bs = sectors_at (dev_disk e) lba (Z.to_nat n));
  dev_write_spec e lba n bs ok e' :
    0 ≤ lba → lba + n ≤ dev_sectors e → bytes_ok bs → zlength bs = 512 * n →
    dev_write lba n bs e = (ok, e') →
    dev_sectors e' = dev_sectors e ∧
    (∀ s, ¬ (lba ≤ s < lba + n) → dev_disk e' s = dev_disk e s) ∧
    (ok = true → ∀ i, 0 ≤ i < n → dev_disk e' (lba + i) = slice bs (512 * i) 512);
  heap_alloc_spec e sz ok e' :
    heap_alloc sz e = (ok, e') →
    dev_sectors e' = dev_sectors e ∧ (∀ s, dev_disk e' s = dev_disk e s);
  reliable_read e lba n :
    reliable e → 0 ≤ lba → lba + n ≤ dev_sectors e →
    (dev_read lba n e).1 ≠ None ∧ reliable (dev_read lba n e).2;
  reliable_write e lba n bs :
    reliable e → 0 ≤ lba → lba + n ≤ dev_sectors e →
    (dev_write lba n bs e).1 = true ∧ reliable (dev_write lba n bs e).2;
  reliable_alloc e sz :
    reliable e → (heap_alloc sz e).1 = true ∧ reliable (heap_alloc sz e).2;
}.

(** ** A RAM disk with a fault schedule *)

Module RamDisk.

(** [io] and [mem] are consumed one entry per device request and per
    allocation; [true] makes that request fail, and an exhausted schedule
    means no further faults. *)
Record ramdisk := {
  sectors : Z;
  store : gmap Z (list Z);
  io : list bool;
  mem : list bool;
}.

Definition sector_norm (l : list Z) : list Z :=
  take 512 ((u8 <$> l) ++ replicate 512 0).

Definition contents (d : ramdisk) (s : Z) : list Z :=
  sector_norm (default [] (store d !! s)).

Definition pop (l : list bool) : bool * list bool :=
  match l with [] => (false, []) | b :: l' => (b, l') end.

(** Store [n] sectors of [bs] from [lba]. *)
Fixpoint put_sectors (st : gmap Z (list Z)) (lba : Z) (n : nat) (bs : list Z)
  : gmap Z (list Z) :=
  match n with
  | O => st
  | S n' => put_sectors (<[lba := take 512 bs]> st) (lba + 1) n' (drop 512 bs)
  end.

Definition rd_read (lba n : Z) : ST ramdisk (option (list Z)) := λ d,
  let '(bad, io') := pop (io d) in
  (if bad then None else Some (sectors_at (contents d) lba (Z.to_nat n)),
   {| sectors := sectors d; store := store d; io := io'; mem := mem d |}).

(** A failing write stops after the first sector. *)
Definition rd_write (lba n : Z) (bs : list Z) : ST ramdisk bool := λ d,
  let '(bad, io') := pop (io d) in
  (negb bad,
   {| sectors := sectors d;
      store := put_sectors (store d) lba
                 (Z.to_nat (if bad then Z.min 1 n else n)) bs;
      io := io'; mem := mem d |}).

Definition rd_alloc (sz : Z) : ST ramdisk bool := λ d,
  let '(bad, mem') := pop (mem d) in
  (negb bad,
   {| sectors := sectors d; store := store d; io := io d; mem := mem' |}).

#[global] Instance ramdisk_env : BlockEnv ramdisk := {|
  dev_sectors := λ d, u32 (sectors d);
  dev_read := rd_read;
  dev_write := rd_write;
  heap_alloc := rd_alloc;
|}.

End RamDisk.

(** ** Lemmas on the registry and the range check *)

Section range.
Context (sectors lba count : Z).
Context (Hs : 0 ≤ sectors < 4294967296) (Hl : 0 ≤ lba) (Hc : 0 ≤ count).

Lemma block_range_ok_spec :
  block_range_ok sectors lba count = true ↔ 0 < count ∧ lba + count ≤ sectors.
Proof.
  unfold block_range_ok. rewrite !andb_true_iff, negb_true_iff, Z.eqb_neq.
  rewrite Z.ltb_lt, Z.leb_le. split.
  - intros [[? ?] Hle]. rewrite u32_small in Hle by lia. lia.
  - intros [? ?]. rewrite u32_small by lia. lia.
Qed.
End range.

Lemma length_sectors_at disk lba n :
  (∀ s, length (disk s) = 512%nat) →
  length (sectors_at disk lba n) = (512 * n)%nat.
Proof.
  intros Hd. revert lba; induction n as [|n IH]; intros lba; [done|].
  cbn [sectors_at]. rewrite length_app, IH, Hd. lia.
Qed.

Lemma sectors_at_ext disk disk' lba n :
  (∀ i, lba ≤ i < lba + Z.of_nat n → disk i = disk' i) →
  sectors_at disk lba n = sectors_at disk' lba n.
Proof.
  revert lba; induction n as [|n IH]; intros lba H; [done|]. cbn [sectors_at].
  rewrite H by lia. f_equal. apply IH. intros; apply H; lia.
Qed.

(** ** The RAM disk keeps the driver's promise *)

Module RamDiskOk.
Import RamDisk.

Lemma length_sector_norm l : length (sector_norm l) = 512%nat.
Proof. unfold sector_norm. rewrite length_take, length_app, length_replicate. lia. Qed.

Lemma sector_norm_bytes l : bytes_ok (sector_norm l).
Proof.
  unfold sector_norm. apply bytes_ok_take, bytes_ok_app. split.
  - apply Forall_fmap, Forall_true. intros x. apply u8_range.
  - apply bytes_ok_replicate. unfold is_byte; lia.
Qed.

Lemma sector_norm_id l : length l = 512%nat → bytes_ok l → sector_norm l = l.
Proof.
  intros Hl Hb. unfold sector_norm.
  replace (u8 <$> l) with l.
  - by rewrite take_app_length'.
  - clear Hl. induction Hb as [|x l Hx Hl IH]; [done|]. simpl.
    rewrite u8_small by done. by f_equal.
Qed.

Lemma put_sectors_outside st lba n bs s :
  ¬ (lba ≤ s < lba + Z.of_nat n) → put_sectors st lba n bs !! s = st !! s.
Proof.
  revert st lba bs; induction n as [|n IH]; intros st lba bs Hs; [done|].
  cbn [put_sectors]. rewrite IH by lia. apply lookup_insert_ne. lia.
Qed.

Lemma put_sectors_inside st lba n bs i :
  0 ≤ i < Z.of_nat n →
  put_sectors st lba n bs !! (lba + i) = Some (slice bs (512 * i) 512).
Proof.
  revert st lba bs i; induction n as [|n IH]; intros st lba bs i Hi; [lia|].
  cbn [put_sectors]. destruct (decide (i = 0)) as [->|Hne].
  - rewrite put_sectors_outside by lia.
    replace (lba + 0) with lba by lia. rewrite lookup_insert_eq. done.
  - replace (lba + i) with (lba + 1 + (i - 1)) by lia. rewrite IH by lia.
    f_equal. unfold slice. rewrite drop_drop. do 2 f_equal. lia.
Qed.

#[global] Program Instance ramdisk_ok : BlockEnvOk ramdisk := {|
  dev_disk := contents;
  reliable := λ d, io d = [] ∧ mem d = [];
|}.
Next Obligation. intros d. apply u32_range. Qed.
Next Obligation.
  intros d s. split; [apply length_sector_norm | apply sector_norm_bytes].
Qed.
Next Obligation.
  intros d lba n r d' _ _ H. simpl in H. unfold rd_read in H.
  destruct (pop (io d)) as [bad io']. simplify_eq/=.
  split; [done|]. split; [done|]. intros bs Hbs. by destruct bad; simplify_eq.
Qed.
Next Obligation.
  intros d lba n bs ok d' _ _ Hb Hl H. simpl in H. unfold rd_write in H.
  destruct (pop (io d)) as [bad io']. simplify_eq/=. split; [done|]. split.
  - intros s Hs. unfold contents; simpl. rewrite put_sectors_outside; [done|].
    destruct bad; lia.
  - intros Hok i Hi. destruct bad; [done|]. unfold contents; simpl.
    rewrite put_sectors_inside by lia. simpl. apply sector_norm_id.
    + rewrite length_slice; lia.
    + by apply bytes_ok_take, bytes_ok_drop.
Qed.
Next Obligation.
  intros d sz ok d' H. simpl in H. unfold rd_alloc in H.
  destruct (pop (mem d)) as [bad mem']. by simplify_eq/=.
Qed.
Next Obligation.
  intros d lba n [Hio Hm] ? ?. simpl. unfold rd_read. rewrite Hio. done.
Qed.
Next Obligation.
  intros d lba n bs [Hio Hm] ? ?. simpl. unfold rd_write. rewrite Hio. done.
Qed.
Next Obligation.
  intros d sz [Hio Hm]. simpl. unfold rd_alloc. rewrite Hm. done.
Qed.

End RamDiskOk.
