(* ===== verification/Ata.v ===== *)
(** * The ATA driver (drivers/ata.c)

    Programmed I/O with the drives of a channel.  The ports are operations of
    the class [Ports]; what the drives do at them, as the ATA standard
    describes it for 28-bit PIO commands, is the class [AtaBus]. *)

From Stdlib Require Import FunctionalExtensionality.
From S2P Require Import Prelude Bytes Block.

Module Ata.

(** ** Ports *)

Class Ports (P : Type) := {
  inb : Z → ST P Z;
  outb : Z → Z → ST P unit;
  inw : Z → ST P Z;
  outw : Z → Z → ST P unit;
}.

Definition ATA_REG_DATA : Z := 0.
Definition ATA_REG_SECCOUNT : Z := 2.
Definition ATA_REG_LBA0 : Z := 3.
Definition ATA_REG_LBA1 : Z := 4.
Definition ATA_REG_LBA2 : Z := 5.
Definition ATA_REG_HDDEVSEL : Z := 6.
Definition ATA_REG_COMMAND : Z := 7.
Definition ATA_REG_STATUS : Z := 7.

Definition ATA_STATUS_ERR : Z := 0x01.
Definition ATA_STATUS_DRQ : Z := 0x08.
Definition ATA_STATUS_DF : Z := 0x20.
Definition ATA_STATUS_BSY : Z := 0x80.

Definition ATA_CMD_READ_PIO : Z := 0x20.
Definition ATA_CMD_WRITE_PIO : Z := 0x30.
Definition ATA_CMD_CACHE_FLUSH : Z := 0xE7.
Definition ATA_CMD_IDENTIFY : Z := 0xEC.

Definition ATA_IDENTIFY_LBA : Z := Z.shiftl 1 9.
Definition ATA_LBA28_SECTORS : Z := 0x10000000.
Definition ATA_POLL_LIMIT : Z := 1000000.

Record ata_channel := mk_channel { io : Z; ctrl : Z }.

Definition channels : list ata_channel := [mk_channel 0x1F0 0x3F6; mk_channel 0x170 0x376].

(** A flag of the status register. *)
Definition flag (status bit : Z) : bool := negb (Z.land status bit =? 0).

Section driver.
Context {P : Type} `{Ports P} (channel : ata_channel).

Definition ata_delay : ST P unit :=
  _ ← inb (ctrl channel);
  _ ← inb (ctrl channel);
  _ ← inb (ctrl channel);
  _ ← inb (ctrl channel);
  mret tt.

(** The polling loop with [n] rounds left. *)
Fixpoint wait_loop (n : nat) (require_drq : bool) : ST P Z :=
  match n with
  | O => mret (-1)
  | S n' =>
      status ← inb (io channel + ATA_REG_STATUS);
      if status =? 0 then mret (-1) else
      if negb (flag status ATA_STATUS_BSY) then
        if flag status (Z.lor ATA_STATUS_ERR ATA_STATUS_DF) then mret (-1) else
        if negb require_drq || flag status ATA_STATUS_DRQ then mret 0 else wait_loop n' require_drq
      else wait_loop n' require_drq
  end.

Definition ata_wait (require_drq : bool) : ST P Z := wait_loop (Z.to_nat ATA_POLL_LIMIT) require_drq.

(** [slave] is 0 or 1. *)
Definition ata_select (slave lba : Z) : ST P unit :=
  _ ← outb (io channel + ATA_REG_HDDEVSEL)
        (u8 (Z.lor 0xE0 (Z.lor (Z.shiftl slave 4) (Z.land (Z.shiftr lba 24) 0x0F))));
  ata_delay.

Definition ata_prepare (slave lba command : Z) : ST P Z :=
  _ ← ata_select slave lba;
  r ← ata_wait false;
  if r <? 0 then mret (-1) else
  _ ← outb (io channel + ATA_REG_SECCOUNT) 1;
  _ ← outb (io channel + ATA_REG_LBA0) (Z.land lba 0xFF);
  _ ← outb (io channel + ATA_REG_LBA1) (Z.land (Z.shiftr lba 8) 0xFF);
  _ ← outb (io channel + ATA_REG_LBA2) (Z.land (Z.shiftr lba 16) 0xFF);
  _ ← outb (io channel + ATA_REG_COMMAND) command;
  ata_wait true.

(** The bytes of [n] words from the data register. *)
Fixpoint read_words (n : nat) : ST P (list Z) :=
  match n with
  | O => mret []
  | S n' =>
      word ← inw (io channel + ATA_REG_DATA);
      l ← read_words n';
      mret (Z.land word 0xFF :: Z.shiftr word 8 :: l)
  end.

(** [n] words of [buffer] from [offset] on to the data register. *)
Fixpoint write_words (n : nat) (buffer : list Z) (offset : Z) : ST P unit :=
  match n with
  | O => mret tt
  | S n' =>
      _ ← outw (io channel + ATA_REG_DATA) (u16 (Z.lor (bget buffer offset) (Z.shiftl (bget buffer (offset + 1)) 8)));
      write_words n' buffer (offset + 2)
  end.

(** The loop of ata_read_blocks over the [n] sectors from [lba] on; [None]
    is -1. *)
Fixpoint read_sectors (n : nat) (slave lba : Z) : ST P (option (list Z)) :=
  match n with
  | O => mret (Some [])
  | S n' =>
      r ← ata_prepare slave lba ATA_CMD_READ_PIO;
      if r <? 0 then mret None else
      l ← read_words 256;
      _ ← ata_delay;
      rest ← read_sectors n' slave (u32 (lba + 1));
      mret (app l <$> rest)
  end.

(** The loop of ata_write_blocks; [offset] is the position in the buffer. *)
Fixpoint write_sectors (n : nat) (slave lba : Z) (buffer : list Z) (offset : Z) : ST P Z :=
  match n with
  | O => mret 0
  | S n' =>
      r ← ata_prepare slave lba ATA_CMD_WRITE_PIO;
      if r <? 0 then mret (-1) else
      _ ← write_words 256 buffer offset;
      _ ← ata_delay;
      r ← ata_wait false;
      if r <? 0 then mret (-1) else
      write_sectors n' slave (u32 (lba + 1)) buffer (offset + BLOCK_SECTOR_SIZE)
  end.

(** Writing the cache back. *)
Definition ata_flush (slave : Z) : ST P Z :=
  _ ← ata_select slave 0;
  _ ← outb (io channel + ATA_REG_COMMAND) ATA_CMD_CACHE_FLUSH;
  r ← ata_wait false;
  mret (if r <? 0 then -1 else 0).

(** *** Identification *)

(** [for (...; i < LIMIT && (status & BSY); i++) status = inb(STATUS);]. *)
Fixpoint busy_loop (n : nat) (status : Z) : ST P Z :=
  match n with
  | O => mret status
  | S n' =>
      if flag status ATA_STATUS_BSY
      then status ← inb (io channel + ATA_REG_STATUS); busy_loop n' status
      else mret status
  end.

Fixpoint identify_words (n : nat) : ST P (list Z) :=
  match n with
  | O => mret []
  | S n' => w ← inw (io channel + ATA_REG_DATA); l ← identify_words n'; mret (w :: l)
  end.

(** The model name: twenty words with the high byte first, trailing blanks
    removed. *)
Fixpoint strip (l : list Z) : list Z :=
  match l with
  | [] => []
  | c :: l' => match strip l' with [] => if c =? 32 then [] else [c] | r => c :: r end
  end.

Definition model_name (identify : list Z) : list Z :=
  strip (concat ((λ w, [Z.shiftr w 8; Z.land w 0xFF]) <$> slice identify 27 20)).

(** The number of sectors and the model; [None] is -1. *)
Definition ata_identify (slave : Z) : ST P (option (Z * list Z)) :=
  _ ← outb (io channel + ATA_REG_HDDEVSEL) (Z.lor 0xA0 (Z.shiftl slave 4));
  _ ← ata_delay;
  _ ← outb (io channel + ATA_REG_SECCOUNT) 0;
  _ ← outb (io channel + ATA_REG_LBA0) 0;
  _ ← outb (io channel + ATA_REG_LBA1) 0;
  _ ← outb (io channel + ATA_REG_LBA2) 0;
  _ ← outb (io channel + ATA_REG_COMMAND) ATA_CMD_IDENTIFY;
  status ← inb (io channel + ATA_REG_STATUS);
  if status =? 0 then mret None else
  status ← busy_loop (Z.to_nat ATA_POLL_LIMIT) status;
  if flag status ATA_STATUS_BSY then mret None else
  b1 ← inb (io channel + ATA_REG_LBA1);
  if negb (b1 =? 0) then mret None else
  b2 ← inb (io channel + ATA_REG_LBA2);
  if negb (b2 =? 0) then mret None else
  r ← ata_wait true;
  if r <? 0 then mret None else
  identify ← identify_words 256;
  if Z.land (bget identify 49) ATA_IDENTIFY_LBA =? 0 then mret None else
  let sectors := Z.lor (bget identify 60) (Z.shiftl (bget identify 61) 16) in
  if sectors =? 0 then mret None else
  mret (Some (if sectors >? ATA_LBA28_SECTORS then ATA_LBA28_SECTORS else sectors, model_name identify)).
End driver.

(** ** The block device of a drive *)

(** The driver's view of one drive: its channel with the mutex, its place on
    the channel and its size; [heap] says whether later allocations fail. *)
Record disk (P : Type) := mk_disk { bus : P; lock : bool; slave : Z; sector_count : Z; heap : list bool }.
Arguments mk_disk {P}.
Arguments bus {P}.
Arguments lock {P}.
Arguments slave {P}.
Arguments sector_count {P}.
Arguments heap {P}.

Section blocks.
Context {P : Type} `{Ports P} (channel : ata_channel).

Definition on_bus {A} (c : ST P A) : ST (disk P) A := λ d,
  let '(a, p) := c (bus d) in (a, mk_disk p (lock d) (slave d) (sector_count d) (heap d)).
Definition set_lock (v : bool) : ST (disk P) unit := λ d, (tt, mk_disk (bus d) v (slave d) (sector_count d) (heap d)).

Definition ata_read_blocks (lba count : Z) : ST (disk P) (option (list Z)) :=
  _ ← set_lock true;
  dev ← gets slave;
  r ← on_bus (read_sectors channel (Z.to_nat count) dev lba);
  _ ← set_lock false;
  mret r.

Definition ata_write_blocks (lba count : Z) (buffer : list Z) : ST (disk P) Z :=
  _ ← set_lock true;
  dev ← gets slave;
  result ← on_bus (write_sectors channel (Z.to_nat count) dev lba buffer 0);
  result ← (if result =? 0 then on_bus (ata_flush channel dev) else mret result);
  _ ← set_lock false;
  mret result.
End blocks.

(** ** Probing *)

(** Where the names and the callbacks are. *)
Record addresses := mk_addresses { device_names : Z → Z; p_read : Z; p_write : Z; ata_devices : Z → Z }.

Section init.
Context {P : Type} `{Ports P} (a : addresses).

(** The state: the ports and the registry of block devices. *)
Definition probe (channel slave : Z) : ST (P * Registry.registry) unit := λ '(p, r),
  match channels !! Z.to_nat channel with
  | None => (tt, (p, r))
  | Some ch =>
      let index := channel * 2 + slave in
      let '(id, p) := ata_identify ch slave p in
      match id with
      | None => (tt, (p, r))
      | Some (sectors, _) =>
          (tt, (p, (Registry.block_register
                      (Some {| Registry.name := device_names a index; Registry.sector_count := sectors;
                               Registry.read := p_read a; Registry.write := p_write a; Registry.impl := ata_devices a index |}) r).2))
      end
  end.

Definition reset_channel (channel : Z) : ST (P * Registry.registry) unit := λ '(p, r),
  match channels !! Z.to_nat channel with
  | None => (tt, (p, r))
  | Some ch => let '(_, p) := outb (ctrl ch) 0x02 p in (tt, (p, r))
  end.

Definition ata_init : ST (P * Registry.registry) unit :=
  _ ← reset_channel 0; _ ← probe 0 0; _ ← probe 0 1;
  _ ← reset_channel 1; _ ← probe 1 0; probe 1 1.
End init.

(** ** The drives *)

(** Sixteen-bit words, low byte first. *)
Fixpoint words_of (l : list Z) : list Z :=
  match l with
  | a :: b :: l' => Z.lor a (Z.shiftl b 8) :: words_of l'
  | _ => []
  end.
Definition bytes_of (ws : list Z) : list Z := concat ((λ w, [Z.land w 0xFF; Z.shiftr w 8]) <$> ws).

(** What a drive is doing: nothing; giving out the words of a sector; taking
    those of sector [lba]; stopped by an error. *)
Inductive phase := Idle | Reading (words : list Z) | Writing (lba : Z) (words : list Z) | Failed.

(** The registers of the channel and its two drives. *)
Record drives := mk_drives {
  r_sel : Z;
  r_count : Z;
  r_lba0 : Z;
  r_lba1 : Z;
  r_lba2 : Z;
  phases : Z → phase;
  media : Z → Z → list Z;
}.

Definition upd {A} (f : Z → A) (k : Z) (v : A) : Z → A := λ x, if decide (x = k) then v else f x.

Definition set_sel (v : Z) (d : drives) : drives := mk_drives v (r_count d) (r_lba0 d) (r_lba1 d) (r_lba2 d) (phases d) (media d).
Definition set_count (v : Z) (d : drives) : drives := mk_drives (r_sel d) v (r_lba0 d) (r_lba1 d) (r_lba2 d) (phases d) (media d).
Definition set_lba0 (v : Z) (d : drives) : drives := mk_drives (r_sel d) (r_count d) v (r_lba1 d) (r_lba2 d) (phases d) (media d).
Definition set_lba1 (v : Z) (d : drives) : drives := mk_drives (r_sel d) (r_count d) (r_lba0 d) v (r_lba2 d) (phases d) (media d).
Definition set_lba2 (v : Z) (d : drives) : drives := mk_drives (r_sel d) (r_count d) (r_lba0 d) (r_lba1 d) v (phases d) (media d).
Definition set_phase (ph : phase) (d : drives) (u : Z) : drives :=
  mk_drives (r_sel d) (r_count d) (r_lba0 d) (r_lba1 d) (r_lba2 d) (upd (phases d) u ph) (media d).
Definition set_media (u lba : Z) (l : list Z) (d : drives) : drives :=
  mk_drives (r_sel d) (r_count d) (r_lba0 d) (r_lba1 d) (r_lba2 d) (phases d) (upd (media d) u (upd (media d u) lba l)).

(** The selected drive, its phase, and the sector the registers name in LBA
    mode. *)
Definition selected (d : drives) : Z := Z.land (Z.shiftr (r_sel d) 4) 1.
Definition current (d : drives) : phase := phases d (selected d).
Definition address (d : drives) : Z := r_lba0 d + 256 * r_lba1 d + 65536 * r_lba2 d + 16777216 * Z.land (r_sel d) 0x0F.
Definition lba_mode (d : drives) : bool := Z.testbit (r_sel d) 6.

Definition settled (ph : phase) : Prop := ph = Idle ∨ ph = Failed.
Definition data_phase (ph : phase) : bool := match ph with Reading _ | Writing _ _ => true | _ => false end.
Definition failed (ph : phase) : bool := match ph with Failed => true | _ => false end.
(** No transfer is under way: the host may write the registers. *)
Definition quiet (d : drives) : Prop := ∀ u, settled (phases d u).

Definition sector_ok (l : list Z) : Prop := length l = 512%nat ∧ bytes_ok l.

(** What the drives promise.  They answer within the polling limit; [healthy]
    drives do not fail. *)
Class AtaBus (P : Type) `{Ports P} (ch : ata_channel) := {
  view : P → drives;
  busy : P → nat;
  healthy : P → Prop;
  law_media p u s : sector_ok (media (view p) u s);
  law_busy p : (busy p < Z.to_nat ATA_POLL_LIMIT)%nat;
  law_healthy p u : healthy p → phases (view p) u ≠ Failed;
  law_ctrl p : let p' := (inb (ctrl ch) p).2 in view p' = view p ∧ (healthy p → healthy p');
  law_status p :
    let '(v, p') := inb (io ch + ATA_REG_STATUS) p in
    view p' = view p ∧ (healthy p → healthy p') ∧ v ≠ 0 ∧
    (busy p = 0%nat → busy p' = 0%nat ∧ flag v ATA_STATUS_BSY = false ∧
       flag v (Z.lor ATA_STATUS_ERR ATA_STATUS_DF) = failed (current (view p)) ∧
       flag v ATA_STATUS_DRQ = data_phase (current (view p))) ∧
    (busy p ≠ 0%nat → (busy p' < busy p)%nat ∧ flag v ATA_STATUS_BSY = true);
  law_sel p v : quiet (view p) → 0 ≤ v < 256 →
    let p' := (outb (io ch + ATA_REG_HDDEVSEL) v p).2 in view p' = set_sel v (view p) ∧ (healthy p → healthy p');
  law_count p v : quiet (view p) → 0 ≤ v < 256 →
    let p' := (outb (io ch + ATA_REG_SECCOUNT) v p).2 in view p' = set_count v (view p) ∧ (healthy p → healthy p');
  law_lba0 p v : quiet (view p) → 0 ≤ v < 256 →
    let p' := (outb (io ch + ATA_REG_LBA0) v p).2 in view p' = set_lba0 v (view p) ∧ (healthy p → healthy p');
  law_lba1 p v : quiet (view p) → 0 ≤ v < 256 →
    let p' := (outb (io ch + ATA_REG_LBA1) v p).2 in view p' = set_lba1 v (view p) ∧ (healthy p → healthy p');
  law_lba2 p v : quiet (view p) → 0 ≤ v < 256 →
    let p' := (outb (io ch + ATA_REG_LBA2) v p).2 in view p' = set_lba2 v (view p) ∧ (healthy p → healthy p');
  law_command p c ph :
    quiet (view p) → lba_mode (view p) = true →
    c = ATA_CMD_READ_PIO ∧ r_count (view p) = 1 ∧ ph = Reading (words_of (media (view p) (selected (view p)) (address (view p)))) ∨
    c = ATA_CMD_WRITE_PIO ∧ r_count (view p) = 1 ∧ ph = Writing (address (view p)) [] ∨
    c = ATA_CMD_CACHE_FLUSH ∧ ph = Idle →
    let p' := (outb (io ch + ATA_REG_COMMAND) c p).2 in
    (view p' = set_phase ph (view p) (selected (view p)) ∨ view p' = set_phase Failed (view p) (selected (view p))) ∧
    (healthy p → healthy p');
  law_inw p w ws :
    current (view p) = Reading (w :: ws) →
    let '(v, p') := inw (io ch + ATA_REG_DATA) p in
    v = w ∧ view p' = set_phase (match ws with [] => Idle | _ => Reading ws end) (view p) (selected (view p)) ∧ (healthy p → healthy p');
  (** the last word of a sector starts the write, which may be torn *)
  law_outw p lba ws v :
    current (view p) = Writing lba ws → 0 ≤ v < 65536 →
    let p' := (outw (io ch + ATA_REG_DATA) v p).2 in
    (healthy p → healthy p') ∧
    if decide (length ws < 255)%nat then view p' = set_phase (Writing lba (ws ++ [v])) (view p) (selected (view p))
    else view p' = set_media (selected (view p)) lba (bytes_of (ws ++ [v])) (set_phase Idle (view p) (selected (view p))) ∨
         ∃ l, view p' = set_media (selected (view p)) lba l (set_phase Failed (view p) (selected (view p)));
}.
End Ata.

(** * The ATA driver keeps the promise of a block device

    Against drives that follow the ATA protocol, ata_read_blocks and
    ata_write_blocks read and write the addressed sectors of the addressed
    drive, report every error, and release the channel. *)

Module AtaSpec.
Import Ata.

(** ** Words and registers *)

Lemma words_bytes n l : length l = (2 * n)%nat → bytes_ok l → bytes_of (words_of l) = l.
Proof.
  revert l. induction n as [|n IH]; intros l Hl Hb; [by destruct l|]. destruct l as [|a [|b l]]; [done|cbn in Hl; lia|].
  apply Forall_cons in Hb as [Ha Hb]. apply Forall_cons in Hb as [Hb Hk]. unfold is_byte in *. cbn [words_of bytes_of fmap list_fmap concat app].
  change (concat ((λ w, [Z.land w 255; Z.shiftr w 8]) <$> words_of l)) with (bytes_of (words_of l)). rewrite IH by (done || cbn in Hl; lia).
  rewrite Z.lor_comm, Z.shiftl_mul_pow2 by lia. rewrite lor_add by lia. change 0xFF with (Z.ones 8). rewrite Z.land_ones, Z.shiftr_div_pow2 by lia.
  change (2 ^ 8) with 256. f_equal; [zdm|f_equal; zdm].
Qed.

Lemma length_words n l : length l = (2 * n)%nat → length (words_of l) = n.
Proof.
  revert l. induction n as [|n IH]; intros l Hl; [by destruct l|]. destruct l as [|a [|b l]]; [done|cbn in Hl; lia|]. cbn. rewrite IH; [done|cbn in Hl; lia].
Qed.

Definition sel_value (slave lba : Z) : Z := u8 (Z.lor 0xE0 (Z.lor (Z.shiftl slave 4) (Z.land (Z.shiftr lba 24) 0x0F))).

Lemma sel_value_spec slave lba d :
  slave = 0 ∨ slave = 1 →
  let d' := set_sel (sel_value slave lba) d in
  0 ≤ sel_value slave lba < 256 ∧ selected d' = slave ∧ lba_mode d' = true ∧ Z.land (r_sel d') 0x0F = Z.shiftr lba 24 mod 16.
Proof.
  intros Hs. cbv zeta. unfold sel_value, selected, lba_mode, set_sel. cbn [r_sel].
  change 0x0F with (Z.ones 4). rewrite (Z.land_ones (Z.shiftr lba 24)) by lia. change (2 ^ 4) with 16.
  assert (0 ≤ Z.shiftr lba 24 mod 16 < 16) as Hx by (by apply Z.mod_pos_bound). set (x := Z.shiftr lba 24 mod 16) in *. clearbody x.
  assert (forallb (λ x, forallb (λ slave, let v := u8 (Z.lor 0xE0 (Z.lor (Z.shiftl slave 4) x)) in
    (v <? 256) && (Z.land (Z.shiftr v 4) 1 =? slave) && Z.testbit v 6 && (Z.land v (Z.ones 4) =? x)) [0; 1]) (seqZ 0 16) = true) as Hall by (by vm_compute).
  rewrite forallb_forall in Hall. specialize (Hall x ltac:(apply list_elem_of_In, elem_of_seqZ; lia)). rewrite forallb_forall in Hall.
  assert (In slave [0; 1]) as Hin by (destruct Hs as [-> | ->]; [by left|right; by left]).
  specialize (Hall slave Hin). cbv zeta in Hall. boolp. split_and!; try done; apply u8_range.
Qed.

Lemma address_parts lba :
  Z.land lba 0xFF + 256 * Z.land (Z.shiftr lba 8) 0xFF + 65536 * Z.land (Z.shiftr lba 16) 0xFF + 16777216 * (Z.shiftr lba 24 mod 16)
  = lba mod ATA_LBA28_SECTORS.
Proof.
  change 0xFF with (Z.ones 8). rewrite !Z.land_ones, !Z.shiftr_div_pow2 by lia. unfold ATA_LBA28_SECTORS.
  change (2 ^ 8) with 256. change (2 ^ 16) with 65536. change (2 ^ 24) with 16777216. zdm.
Qed.

Lemma low_byte x : 0 ≤ Z.land x 0xFF < 256.
Proof. change 0xFF with (Z.ones 8). rewrite Z.land_ones by lia. by apply Z.mod_pos_bound. Qed.

Section bus.
Context {P : Type} {HP : Ports P} {ch : ata_channel} {HB : AtaBus P ch}.
Implicit Types p : P.

Definition keeps (p p' : P) : Prop := healthy p → healthy p'.

Lemma wp_delay p : wp (ata_delay ch) p (λ _ p', view p' = view p ∧ keeps p p').
Proof.
  unfold ata_delay. assert (∀ p Q, (∀ v p', view p' = view p → keeps p p' → Q v p') → wp (inb (ctrl ch)) p Q) as Hc.
  { intros q Q HQ. destruct (law_ctrl q) as [H1 H2]. by apply HQ. }
  repeat (apply wp_bind, Hc; intros ? ? ? ?). apply wp_ret. split; [congruence|unfold keeps in *; auto].
Qed.

(** Polling reports the phase of the selected drive. *)
Lemma wp_wait_loop n drq p :
  wp (wait_loop ch n drq) p (λ r p',
    view p' = view p ∧ keeps p p' ∧ (r = 0 ∨ r = -1) ∧
    (r = 0 → failed (current (view p)) = false ∧ (drq = true → data_phase (current (view p)) = true)) ∧
    ((busy p < n)%nat → failed (current (view p)) = false → (drq = true → data_phase (current (view p)) = true) → r = 0)).
Proof.
  revert p. induction n as [|n IH]; intros p; cbn [wait_loop].
  { apply wp_ret. split_and!; [done|by intros ?|by right|done|lia]. }
  apply wp_bind. pose proof (law_status p) as Hl. unfold wp at 1. destruct (inb _ p) as [v p1]. cbn [fst snd].
  destruct Hl as (Hv & Hk & Hn0 & H0 & H1). destruct (Z.eqb_spec v 0); [done|]. destruct (decide (busy p = 0%nat)) as [Hb|Hb].
  - destruct (H0 Hb) as (Hb1 & HB1 & HE & HD). rewrite HB1, HE, HD. cbn [negb]. destruct (failed (current (view p))) eqn:Ef.
    { apply wp_ret. split_and!; [done|done|by right|done|done]. }
    destruct (negb drq || data_phase (current (view p))) eqn:Ed.
    { apply wp_ret. split_and!; [done|done|by left| |done]. intros _. split; [done|]. intros ->. done. }
    eapply wp_mono; [apply IH|]. cbv beta. rewrite Hv. intros r p2 (K1 & K2 & K3 & K4 & K5). split_and!; [done|unfold keeps in *; auto|done|by rewrite Ef in K4|].
    intros _ _ Hd. destruct drq; [|done]. rewrite Hd in Ed by done. done.
  - destruct (H1 Hb) as [Hlt HBy]. rewrite HBy. cbn [negb]. eapply wp_mono; [apply IH|]. cbv beta. rewrite Hv.
    intros r p2 (K1 & K2 & K3 & K4 & K5). split_and!; [done|unfold keeps in *; auto|done|done|]. intros Hn. apply K5. lia.
Qed.

Lemma wp_wait drq p :
  wp (ata_wait ch drq) p (λ r p',
    view p' = view p ∧ keeps p p' ∧
    (r = 0 ∧ failed (current (view p)) = false ∧ (drq = true → data_phase (current (view p)) = true) ∨
     r = -1 ∧ (failed (current (view p)) = true ∨ drq = true ∧ data_phase (current (view p)) = false))).
Proof.
  eapply wp_mono; [apply wp_wait_loop|]. cbv beta. intros r p' (K1 & K2 & K3 & K4 & K5). split_and!; [done|done|].
  specialize (K5 (law_busy p)). destruct K3 as [->| ->]; [left; split; [done|by apply K4]|right; split; [done|]].
  destruct (failed (current (view p))); [by left|right]. destruct drq; [|by specialize (K5 eq_refl ltac:(done))].
  split; [done|]. destruct (data_phase (current (view p))); [|done]. by specialize (K5 eq_refl ltac:(done)).
Qed.

Lemma wp_select slave lba p :
  quiet (view p) → slave = 0 ∨ slave = 1 →
  wp (ata_select ch slave lba) p (λ _ p', view p' = set_sel (sel_value slave lba) (view p) ∧ keeps p p').
Proof.
  intros Hq Hs. unfold ata_select. fold (sel_value slave lba). destruct (sel_value_spec slave lba (view p) Hs) as (Hr & _).
  destruct (law_sel p _ Hq Hr) as [H1 H2]. apply wp_bind. unfold wp at 1. eapply wp_mono; [apply wp_delay|]. cbv beta.
  intros _ p' [K1 K2]. split; [congruence|unfold keeps in *; auto].
Qed.

(** ** One command *)

(** A transfer has begun on drive [slave]. *)
Record transfer (p p' : P) (slave : Z) (ph : phase) : Prop := {
  tr_selected : selected (view p') = slave;
  tr_phase : current (view p') = ph;
  tr_others u : u ≠ slave → settled (phases (view p') u);
  tr_media : media (view p') = media (view p);
  tr_keeps : keeps p p';
}.

(** Nothing has begun. *)
Record ended (p p' : P) : Prop := {
  en_quiet : quiet (view p');
  en_media : media (view p') = media (view p);
  en_keeps : keeps p p';
}.

Lemma wp_prepare slave lba c ph p :
  quiet (view p) → slave = 0 ∨ slave = 1 →
  c = ATA_CMD_READ_PIO ∧ ph = Reading (words_of (media (view p) slave (lba mod ATA_LBA28_SECTORS))) ∨
  c = ATA_CMD_WRITE_PIO ∧ ph = Writing (lba mod ATA_LBA28_SECTORS) [] →
  wp (ata_prepare ch slave lba c) p (λ r p', r = 0 ∧ transfer p p' slave ph ∨ r = -1 ∧ ended p p' ∧ ¬ healthy p).
Proof.
  intros Hq Hs Hc. destruct (sel_value_spec slave lba (view p) Hs) as (Hr & Hsel & Hmode & Hhi).
  unfold ata_prepare. apply wp_bind. eapply wp_mono; [by apply wp_select|]. cbv beta. intros _ p1 [V1 K1].
  apply wp_bind. eapply wp_mono; [apply wp_wait|]. cbv beta. intros r p2 (V2 & K2 & Hr2). rewrite V1 in V2.
  assert (quiet (view p2)) as Q2 by (rewrite V2; exact Hq).
  assert (phases (view p) = phases (view p2)) as Hph by (by rewrite V2). assert (media (view p2) = media (view p)) as M2 by (by rewrite V2).
  destruct Hr2 as [(-> & Hf & _)|(-> & [Hf|[[=] _]])].
  2: { apply wp_ret. right. split; [done|]. split; [constructor; [done|done|unfold keeps in *; auto]|].
       intros Hh. rewrite V1 in Hf. unfold current in Hf. cbn [phases set_sel] in Hf. rewrite Hsel in Hf. pose proof (law_healthy p slave Hh) as Hnf.
       by destruct (phases (view p) slave). }
  cbn [Z.ltb Z.compare].
  destruct (law_count p2 1 Q2 ltac:(lia)) as [V3 K3]. apply wp_bind. unfold wp at 1. set (p3 := (outb _ 1 p2).2) in *.
  assert (quiet (view p3)) as Q3 by (rewrite V3; exact Q2).
  destruct (law_lba0 p3 (Z.land lba 0xFF) Q3 (low_byte _)) as [V4 K4]. apply wp_bind. unfold wp at 1. set (p4 := (outb _ _ p3).2) in *.
  assert (quiet (view p4)) as Q4 by (rewrite V4; exact Q3).
  destruct (law_lba1 p4 (Z.land (Z.shiftr lba 8) 0xFF) Q4 (low_byte _)) as [V5 K5]. apply wp_bind. unfold wp at 1. set (p5 := (outb _ _ p4).2) in *.
  assert (quiet (view p5)) as Q5 by (rewrite V5; exact Q4).
  destruct (law_lba2 p5 (Z.land (Z.shiftr lba 16) 0xFF) Q5 (low_byte _)) as [V6 K6]. apply wp_bind. unfold wp at 1. set (p6 := (outb _ _ p5).2) in *.
  assert (quiet (view p6)) as Q6 by (rewrite V6; exact Q5).
  set (d := set_lba2 (Z.land (Z.shiftr lba 16) 0xFF) (set_lba1 (Z.land (Z.shiftr lba 8) 0xFF) (set_lba0 (Z.land lba 0xFF)
    (set_count 1 (set_sel (sel_value slave lba) (view p)))))).
  assert (view p6 = d) as Vd by (unfold d; congruence). clear V3 V4 V5 V6.
  assert (selected d = slave) as Sd by exact Hsel. assert (address d = lba mod ATA_LBA28_SECTORS) as Ad.
  { unfold address, d. cbn [r_lba0 r_lba1 r_lba2 r_sel set_lba2 set_lba1 set_lba0 set_count set_sel] in *. rewrite Hhi. apply address_parts. }
  destruct (law_command p6 c ph Q6) as [Vc K7].
  { rewrite Vd. exact Hmode. }
  { rewrite Vd, Sd, Ad. destruct Hc as [[-> ->]|[-> ->]]; [by left|right; by left]. }
  rewrite Vd, Sd in Vc. apply wp_bind. unfold wp at 1. set (p7 := (outb _ c p6).2) in *.
  assert (keeps p p7) as K by (unfold keeps in *; auto 10).
  assert (∀ x u, u ≠ slave → settled (phases (set_phase x d slave) u)) as Ho by (intros x u Hu; cbn; unfold upd; rewrite decide_False by done; apply Hq).
  assert (∀ x, current (set_phase x d slave) = x) as Hcur by (intros x; unfold current, selected; cbn; unfold upd; by rewrite decide_True).
  eapply wp_mono; [apply wp_wait|]. cbv beta. intros r p8 (V8 & K8 & Hr8). assert (keeps p p8) as Kk by (unfold keeps in *; auto). destruct Vc as [Vc|Vc]; rewrite Vc in V8, Hr8; rewrite Hcur in Hr8.
  - left. assert (r = 0) as -> by (destruct Hr8 as [[-> _]|[-> [Hx|[_ Hx]]]]; [done|..]; destruct Hc as [[_ ->]|[_ ->]]; done).
    split; [done|]. constructor; rewrite ?V8; [done|by apply Hcur|by apply Ho|done|done].
  - right. destruct Hr8 as [[_ [[=] _]]|[-> _]]. split; [done|]. split.
    + constructor; [|by rewrite V8|done]. intros u. rewrite V8. destruct (decide (u = slave)) as [->|Hu]; [right|by apply Ho].
      cbn. unfold upd. by rewrite decide_True.
    + intros Hh. apply (law_healthy p7 slave (K Hh)). rewrite Vc. cbn. unfold upd. by rewrite decide_True.
Qed.

(** ** One sector *)

Lemma transfer_step p p1 slave ph ph' p2 :
  transfer p p1 slave ph → view p2 = set_phase ph' (view p1) slave → keeps p1 p2 → transfer p p2 slave ph'.
Proof.
  intros [S1 C1 O1 M1 K1] V K2. constructor; rewrite ?V.
  - exact S1.
  - unfold current. change (selected (set_phase ph' (view p1) slave)) with (selected (view p1)). rewrite S1. cbn. unfold upd. by rewrite decide_True.
  - intros u Hu. cbn. unfold upd. rewrite decide_False by done. by apply O1.
  - exact M1.
  - unfold keeps in *. auto.
Qed.

Lemma transfer_ended p p' slave ph : transfer p p' slave ph → settled ph → ended p p'.
Proof.
  intros [S C O M K] Hp. constructor; [|done|done]. intros u. destruct (decide (u = slave)) as [->|]; [|by apply O].
  unfold current in C. rewrite S in C. by rewrite C.
Qed.

Lemma wp_read_words p p0 slave w ws :
  transfer p0 p slave (Reading (w :: ws)) →
  wp (read_words ch (S (length ws))) p (λ l p', l = bytes_of (w :: ws) ∧ transfer p0 p' slave Idle).
Proof.
  revert p w. induction ws as [|w2 ws IH]; intros p w Ht; cbn [read_words]; apply wp_bind; pose proof (law_inw p w _ (tr_phase _ _ _ _ Ht)) as Hl;
    unfold wp at 1; destruct (inw _ p) as [v p1]; cbn [fst snd]; destruct Hl as (-> & V & K); rewrite (tr_selected _ _ _ _ Ht) in V; apply wp_bind.
  - apply wp_ret, wp_ret. split; [done|]. by eapply transfer_step.
  - eapply wp_mono; [apply IH; by eapply transfer_step|]. cbv beta. intros l p2 [-> Ht2]. by apply wp_ret.
Qed.

(** What a sector write does: it ends well, or with an error and the sector
    in any state. *)
Record written (p p' : P) (slave lba : Z) (r : option (list Z)) : Prop := {
  wr_quiet : quiet (view p');
  wr_selected : selected (view p') = slave;
  wr_media u s : (u, s) ≠ (slave, lba) → media (view p') u s = media (view p) u s;
  wr_ok l : r = Some l → media (view p') slave lba = l ∧ current (view p') = Idle;
  wr_bad : r = None → current (view p') = Failed;
  wr_keeps : keeps p p';
}.

Fixpoint buffer_words (n : nat) (buffer : list Z) (offset : Z) : list Z :=
  match n with
  | O => []
  | S n' => u16 (Z.lor (bget buffer offset) (Z.shiftl (bget buffer (offset + 1)) 8)) :: buffer_words n' buffer (offset + 2)
  end.

Lemma wp_write_words n p p0 slave lba ws buffer offset :
  transfer p0 p slave (Writing lba ws) → (length ws + S n = 256)%nat →
  wp (write_words ch (S n) buffer offset) p (λ _ p', ∃ r, written p0 p' slave lba r ∧ ∀ l, r = Some l → l = bytes_of (ws ++ buffer_words (S n) buffer offset)).
Proof.
  revert p ws offset. induction n as [|n IH]; intros p ws offset Ht Hn; cbn [write_words]; apply wp_bind; unfold wp at 1;
    destruct (law_outw p lba ws (u16 (Z.lor (bget buffer offset) (Z.shiftl (bget buffer (offset + 1)) 8))) (tr_phase _ _ _ _ Ht) (u16_range _)) as [K Hv];
    rewrite (tr_selected _ _ _ _ Ht) in Hv; set (v := u16 _) in *; set (p1 := (outw _ v p).2) in *.
  - rewrite decide_False in Hv by lia. apply wp_ret.
    assert (∀ l ph, settled ph → view p1 = set_media slave lba l (set_phase ph (view p) slave) →
      quiet (view p1) ∧ selected (view p1) = slave ∧ (∀ u s, (u, s) ≠ (slave, lba) → media (view p1) u s = media (view p0) u s) ∧
      media (view p1) slave lba = l ∧ current (view p1) = ph ∧ keeps p0 p1) as Hw.
    { intros l ph Hp V. destruct Ht as [S1 C1 O1 M1 K1]. rewrite V. split_and!.
      - intros u. cbn. unfold upd. destruct (decide (u = slave)); [done|by apply O1].
      - exact S1.
      - intros u s Hne. cbn. unfold upd. destruct (decide (u = slave)) as [->|]; [|by rewrite M1]. rewrite decide_False by congruence. by rewrite M1.
      - cbn. unfold upd. by rewrite !decide_True.
      - unfold current. change (selected _) with (selected (view p)). rewrite S1. cbn. unfold upd. by rewrite decide_True.
      - unfold keeps in *. auto. }
    destruct Hv as [V|[l V]].
    + destruct (Hw _ Idle ltac:(by left) V) as (W1 & W2 & W3 & W4 & W5 & W6). exists (Some (bytes_of (ws ++ [v]))). split; [|by intros l [= <-]].
      constructor; try done. by intros l [= <-].
    + destruct (Hw _ Failed ltac:(by right) V) as (W1 & W2 & W3 & W4 & W5 & W6). exists None. split; [by constructor|done].
  - rewrite decide_True in Hv by lia. eapply wp_mono; [apply (IH p1 (ws ++ [v])); [by eapply transfer_step|rewrite length_app; cbn; lia]|].
    cbv beta. intros _ p2 (r & Hw & Hr). exists r. split; [done|]. intros l Hl. rewrite (Hr l Hl), <- app_assoc. done.
Qed.

Lemma buffer_words_slice n buffer offset :
  bytes_ok buffer → 0 ≤ offset → offset + 2 * Z.of_nat n ≤ zlength buffer →
  buffer_words n buffer offset = words_of (slice buffer offset (2 * Z.of_nat n)).
Proof.
  intros Hb. revert offset. induction n as [|n IH]; intros offset Ho Hl; [done|]. cbn [buffer_words].
  rewrite IH by lia. unfold zlength in Hl. set (k := Z.to_nat offset).
  destruct (lookup_lt_is_Some_2 buffer k ltac:(lia)) as [a Ha]. destruct (lookup_lt_is_Some_2 buffer (S k) ltac:(lia)) as [b Hbb].
  unfold slice. replace (Z.to_nat (2 * Z.of_nat (S n))) with (S (S (Z.to_nat (2 * Z.of_nat n)))) by lia.
  fold k. rewrite (drop_S buffer a k) by done. rewrite (drop_S buffer b (S k)) by done. cbn [take words_of].
  replace (Z.to_nat (offset + 2)) with (S (S k)) by lia. f_equal. unfold bget. replace (Z.to_nat (offset + 1)) with (S k) by lia. fold k. rewrite Ha, Hbb. cbn.
  assert (is_byte a ∧ is_byte b) as [Hba Hbv] by (split; by eapply Forall_lookup_1 in Hb). unfold is_byte in *.
  rewrite u16_small; [done|]. rewrite Z.lor_comm, Z.shiftl_mul_pow2, lor_add by lia. change (2 ^ 8) with 256. lia.
Qed.

(** ** Many sectors *)

Lemma ended_trans p1 p2 p3 : ended p1 p2 → ended p2 p3 → ended p1 p3.
Proof. intros [Q1 M1 K1] [Q2 M2 K2]. constructor; [done|congruence|unfold keeps in *; auto]. Qed.

Lemma ended_view p1 p2 p3 : ended p1 p2 → view p3 = view p2 → keeps p2 p3 → ended p1 p3.
Proof. intros [Q1 M1 K1] V K2. constructor; rewrite ?V; [done|done|unfold keeps in *; auto]. Qed.

Lemma lba_in_range lba n : 0 ≤ lba → lba + n ≤ ATA_LBA28_SECTORS → 0 < n → lba mod ATA_LBA28_SECTORS = lba ∧ u32 (lba + 1) = lba + 1.
Proof. unfold ATA_LBA28_SECTORS. intros. split; [apply Z.mod_small; lia|apply u32_small; lia]. Qed.

Lemma wp_read_sectors n slave lba p :
  quiet (view p) → slave = 0 ∨ slave = 1 →
  wp (read_sectors ch n slave lba) p (λ r p',
    ended p p' ∧ (healthy p → r ≠ None) ∧
    (0 ≤ lba → n = 0%nat ∨ lba + Z.of_nat n ≤ ATA_LBA28_SECTORS → ∀ l, r = Some l → l = sectors_at (media (view p) slave) lba n)).
Proof.
  intros Hq Hs. revert lba p Hq. induction n as [|n IH]; intros lba p Hq; cbn [read_sectors].
  { apply wp_ret. split; [constructor; [done|done|by intros ?]|]. split; [done|]. intros _ _ l [= <-]. done. }
  apply wp_bind. eapply wp_mono; [eapply wp_prepare; [done|done|by left]|]. cbv beta. intros r p1 [[-> Ht]|(-> & He & Hh)].
  2: { apply wp_ret. split_and!; [done|done|done]. }
  cbn [Z.ltb Z.compare]. destruct (law_media p slave (lba mod ATA_LBA28_SECTORS)) as [Hlen Hby]. pose proof (length_words 256 _ Hlen) as Hlw.
  destruct (words_of (media (view p) slave (lba mod ATA_LBA28_SECTORS))) as [|w ws] eqn:Ew; [done|]. cbn in Hlw. injection Hlw as Hlw.
  apply wp_bind. rewrite <- Hlw. eapply wp_mono; [by apply wp_read_words|]. cbv beta. intros l p2 [-> Ht2].
  assert (ended p p2) as He2 by (eapply transfer_ended; [done|by left]). rewrite <- Ew, (words_bytes 256) by done.
  apply wp_bind. eapply wp_mono; [apply wp_delay|]. cbv beta. intros _ p3 [V3 K3]. assert (ended p p3) as He3 by (by eapply ended_view).
  apply wp_bind. eapply wp_mono; [apply IH, He3|]. cbv beta. intros r p4 (He4 & Hh4 & Hr4). apply wp_ret. split_and!.
  - by eapply ended_trans.
  - intros Hh. specialize (Hh4 (en_keeps _ _ He3 Hh)). by destruct r.
  - intros Hl0 [[=]|Hl1] l Hl. destruct r as [k|]; [|done]. cbn in Hl. injection Hl as <-.
    destruct (lba_in_range lba (Z.of_nat (S n)) Hl0 Hl1 ltac:(lia)) as [Em Eu]. rewrite Em, Eu in *. cbn [sectors_at]. f_equal.
    rewrite <- (en_media _ _ He3). apply Hr4; [lia|right; lia|done].
Qed.

Lemma wp_write_sectors n slave lba buffer offset p :
  quiet (view p) → slave = 0 ∨ slave = 1 →
  wp (write_sectors ch n slave lba buffer offset) p (λ r p',
    quiet (view p') ∧ keeps p p' ∧ (r = 0 ∨ r = -1) ∧ (healthy p → r = 0) ∧
    (0 ≤ lba → lba + Z.of_nat n ≤ ATA_LBA28_SECTORS →
      (∀ u s, ¬ (u = slave ∧ lba ≤ s < lba + Z.of_nat n) → media (view p') u s = media (view p) u s) ∧
      (bytes_ok buffer → 0 ≤ offset → offset + 512 * Z.of_nat n ≤ zlength buffer → r = 0 →
       ∀ i, 0 ≤ i < Z.of_nat n → media (view p') slave (lba + i) = slice buffer (offset + 512 * i) 512))).
Proof.
  intros Hq Hs. revert lba offset p Hq. induction n as [|n IH]; intros lba offset p Hq; cbn [write_sectors].
  { apply wp_ret. split_and!; [done|by intros ?|by left|done|]. intros _ _. split; [done|]. intros _ _ _ _ i Hi. lia. }
  apply wp_bind. eapply wp_mono; [eapply wp_prepare; [done|done|by right]|]. cbv beta. intros r p1 [[-> Ht]|(-> & He & Hh)].
  2: { apply wp_ret. destruct He as [E1 E2 E3]. split_and!; [done|done|by right|done|]. intros _ _. split; [by rewrite E2|done]. }
  cbn [Z.ltb Z.compare]. apply wp_bind. eapply wp_mono; [apply (wp_write_words 255); [done|done]|]. cbv beta. intros _ p2 (r & Hw & Hr).
  apply wp_bind. eapply wp_mono; [apply wp_delay|]. cbv beta. intros _ p3 [V3 K3].
  apply wp_bind. eapply wp_mono; [apply wp_wait|]. cbv beta. intros r4 p4 (V4 & K4 & Hr4). rewrite V3 in V4, Hr4. pose proof Hw as [W1 W2 W3 W4 W5 W6].
  assert (keeps p p4) as Kp by (unfold keeps in *; auto).
  destruct r as [l|].
  - destruct (W4 l eq_refl) as [Wl Wi]. specialize (Hr l eq_refl). cbn [app] in Hr.
    assert (r4 = 0) as -> by (destruct Hr4 as [[-> _]|[-> [Hf|[[=] _]]]]; [done|by rewrite Wi in Hf]). cbn [Z.ltb Z.compare].
    eapply wp_mono; [apply IH; by rewrite V4|]. cbv beta. intros r p5 (Q5 & K5 & R5 & H5 & M5). split_and!; [done|unfold keeps in *; auto|done|auto|].
    intros Hl0 Hl1. destruct (lba_in_range lba (Z.of_nat (S n)) Hl0 Hl1 ltac:(lia)) as [Em Eu]. rewrite Em, Eu in *.
    destruct (M5 ltac:(lia) ltac:(lia)) as [Mo Mi]. split.
    + intros u s Hn. rewrite Mo, V4 by lia. apply W3. intros [= -> ->]. lia.
    + intros Hb Ho Hlen Hr0 i Hi. destruct (decide (i = 0)) as [->|].
      * rewrite Z.add_0_r, Mo, V4, Wl, Hr by lia. rewrite buffer_words_slice by (done || lia). rewrite Z.mul_0_r, Z.add_0_r.
        apply (words_bytes 256); [unfold slice; rewrite length_take, length_drop; unfold zlength in Hlen; lia|by apply bytes_ok_take, bytes_ok_drop].
      * replace (lba + i) with (lba + 1 + (i - 1)) by lia. unfold BLOCK_SECTOR_SIZE in Mi. rewrite Mi by (done || lia). f_equal. lia.
  - assert (r4 = -1) as -> by (destruct Hr4 as [(-> & Hf & _)|[-> _]]; [by rewrite (W5 eq_refl) in Hf|done]). cbn [Z.ltb Z.compare].
    apply wp_ret. split_and!; [by rewrite V4|done|by right| |].
    + intros Hh. exfalso. apply (law_healthy p2 slave (W6 Hh)). specialize (W5 eq_refl). unfold current in W5. by rewrite W2 in W5.
    + intros Hl0 Hl1. destruct (lba_in_range lba (Z.of_nat (S n)) Hl0 Hl1 ltac:(lia)) as [Em _]. rewrite Em in *. split; [|done].
      intros u s Hn. rewrite V4. apply W3. intros [= -> ->]. lia.
Qed.

Lemma wp_flush slave p :
  quiet (view p) → slave = 0 ∨ slave = 1 →
  wp (ata_flush ch slave) p (λ r p', ended p p' ∧ (r = 0 ∨ r = -1) ∧ (healthy p → r = 0)).
Proof.
  intros Hq Hs. destruct (sel_value_spec slave 0 (view p) Hs) as (Hr & Hsel & Hmode & _). unfold ata_flush. apply wp_bind.
  eapply wp_mono; [by apply wp_select|]. cbv beta. intros _ p1 [V1 K1]. assert (quiet (view p1)) as Q1 by (rewrite V1; exact Hq).
  destruct (law_command p1 ATA_CMD_CACHE_FLUSH Idle Q1) as [Vc Kc]; [by rewrite V1|right; by right|].
  apply wp_bind. unfold wp at 1. set (p2 := (outb _ _ p1).2) in *. rewrite V1, Hsel in Vc.
  assert (∀ ph, settled ph → view p2 = set_phase ph (set_sel (sel_value slave 0) (view p)) slave → ended p p2 ∧ current (view p2) = ph) as He.
  { intros ph Hp V. split; [constructor; rewrite ?V|].
    - intros u. cbn. unfold upd. destruct (decide (u = slave)); [done|apply Hq].
    - done.
    - unfold keeps in *. auto.
    - rewrite V. unfold current. change (selected _) with (selected (set_sel (sel_value slave 0) (view p))). rewrite Hsel. cbn. unfold upd. by rewrite decide_True. }
  apply wp_bind. eapply wp_mono; [apply wp_wait|]. cbv beta. intros r p3 (V3 & K3 & Hr3). apply wp_ret.
  destruct Vc as [V|V]; [destruct (He Idle ltac:(by left) V) as [En Hc]|destruct (He Failed ltac:(by right) V) as [En Hc]]; rewrite Hc in Hr3.
  - destruct Hr3 as [[-> _]|[-> [[=]|[[=] _]]]]. cbn. split_and!; [by eapply ended_view|by left|done].
  - destruct Hr3 as [[-> [[=] _]]|[-> _]]. cbn. split_and!; [by eapply ended_view|by right|]. intros Hh. exfalso.
    apply (law_healthy p2 slave (en_keeps _ _ En Hh)). rewrite V. cbn. unfold upd. by rewrite decide_True.
Qed.
End bus.
End AtaSpec.

(** * ATA drives as block devices

    The driver discharges the interface the file system is proved against;
    what an error does to a drive; a simulated pair of drives. *)

Module AtaDisk.
Import Ata AtaSpec.

Section disk.
Context {P : Type} {HP : Ports P} {ch : ata_channel} {HB : AtaBus P ch}.
Implicit Types d : disk P.

(** A drive the driver has identified, between two requests. *)
Record attached d : Prop := {
  at_quiet : quiet (view (bus d));
  at_slave : slave d = 0 ∨ slave d = 1;
  at_size : 0 ≤ sector_count d ≤ ATA_LBA28_SECTORS;
}.

Definition contents d : Z → list Z := media (view (bus d)) (slave d).

(** The place and size of the drive are fixed. *)
Record same_drive d d' : Prop := {
  sd_slave : slave d' = slave d;
  sd_size : sector_count d' = sector_count d;
  sd_heap : heap d' = heap d;
  sd_lock : lock d' = false;
  sd_attached : attached d';
  sd_healthy : healthy (bus d) → healthy (bus d');
}.

Lemma wp_on_bus {A} (c : ST P A) d Q :
  wp c (bus d) (λ a p, Q a (mk_disk p (lock d) (slave d) (sector_count d) (heap d))) → wp (on_bus c) d Q.
Proof. unfold wp, on_bus. by destruct (c (bus d)). Qed.

Lemma wp_read_blocks lba n d :
  attached d →
  wp (ata_read_blocks ch lba n) d (λ r d',
    same_drive d d' ∧ media (view (bus d')) = media (view (bus d)) ∧ (healthy (bus d) → r ≠ None) ∧
    (0 ≤ lba → lba + n ≤ ATA_LBA28_SECTORS → ∀ l, r = Some l → l = sectors_at (contents d) lba (Z.to_nat n))).
Proof.
  intros [Hq Hs Hz]. unfold ata_read_blocks. apply wp_bind. unfold wp at 1. cbn [set_lock fst snd]. apply wp_bind, wp_gets.
  cbn [slave]. apply wp_bind, wp_on_bus. cbn [bus lock slave sector_count heap]. eapply wp_mono; [by apply wp_read_sectors|]. cbv beta.
  intros r p ([E1 E2 E3] & Hh & Hr). apply wp_bind. unfold wp at 1. cbn [set_lock fst snd bus slave sector_count heap]. apply wp_ret.
  split_and!; [by constructor|done|done|]. intros Hl Hn l El. apply Hr; [done|lia|done].
Qed.

Lemma wp_write_blocks lba n buffer d :
  attached d →
  wp (ata_write_blocks ch lba n buffer) d (λ r d',
    same_drive d d' ∧ (r = 0 ∨ r = -1) ∧ (healthy (bus d) → r = 0) ∧
    (0 ≤ lba → 0 ≤ n → lba + n ≤ ATA_LBA28_SECTORS →
      (∀ u s, ¬ (u = slave d ∧ lba ≤ s < lba + n) → media (view (bus d')) u s = media (view (bus d)) u s) ∧
      (bytes_ok buffer → 512 * n ≤ zlength buffer → r = 0 → ∀ i, 0 ≤ i < n → contents d' (lba + i) = slice buffer (512 * i) 512))).
Proof.
  intros [Hq Hs Hz]. unfold ata_write_blocks. apply wp_bind. unfold wp at 1. cbn [set_lock fst snd]. apply wp_bind, wp_gets.
  cbn [slave]. apply wp_bind, wp_on_bus. cbn [bus lock slave sector_count heap]. eapply wp_mono; [by apply wp_write_sectors|]. cbv beta.
  intros r p (Q1 & K1 & R1 & H1 & M1). apply wp_bind.
  assert (∀ r' p', quiet (view p') → keeps (bus d) p' → media (view p') = media (view p) → (r' = 0 → r = 0) → (r' = 0 ∨ r' = -1) →
    (healthy (bus d) → r' = 0) →
    wp (_ ← set_lock false; mret r') (mk_disk p' true (slave d) (sector_count d) (heap d)) (λ r d',
      same_drive d d' ∧ (r = 0 ∨ r = -1) ∧ (healthy (bus d) → r = 0) ∧
      (0 ≤ lba → 0 ≤ n → lba + n ≤ ATA_LBA28_SECTORS →
        (∀ u s, ¬ (u = slave d ∧ lba ≤ s < lba + n) → media (view (bus d')) u s = media (view (bus d)) u s) ∧
        (bytes_ok buffer → 512 * n ≤ zlength buffer → r = 0 → ∀ i, 0 ≤ i < n → contents d' (lba + i) = slice buffer (512 * i) 512)))) as Hend.
  { intros r' p' Q2 K2 M2 Hr R2 H2. apply wp_bind. unfold wp at 1. cbn [set_lock fst snd bus slave sector_count heap]. apply wp_ret.
    split_and!; [by constructor|done|done|]. intros Hl Hn Hln. cbn [bus]. unfold contents. cbn [bus slave]. rewrite M2.
    destruct (M1 Hl ltac:(lia)) as [Mo Mi]. split; [intros u s Hus; apply Mo; lia|].
    intros Hb Hlen Hr0 i Hi. specialize (Mi Hb ltac:(lia) ltac:(lia) (Hr Hr0) i ltac:(lia)). by rewrite Z.add_0_l in Mi. }
  destruct R1 as [->| ->]; cbn [Z.eqb].
  - apply wp_on_bus. cbn [bus lock slave sector_count heap]. eapply wp_mono; [by apply wp_flush|]. cbv beta. intros r p2 ([Q2 M2 K2] & R2 & H2).
    apply Hend; [done|unfold keeps in *; auto|done|done|done|auto].
  - apply wp_ret, Hend; auto.
Qed.

(** ** The interface *)

(** The states of the world in which the drive is attached. *)
Record ata_env := mk_env { e_disk : disk P; e_attached : attached e_disk }.

Definition run {A} (c : ST (disk P) A) (Hc : ∀ d, attached d → attached (c d).2) : ST ata_env A := λ e,
  ((c (e_disk e)).1, mk_env (c (e_disk e)).2 (Hc _ (e_attached e))).

Definition pop_heap : ST (disk P) bool := λ d,
  let '(bad, l) := RamDisk.pop (heap d) in (negb bad, mk_disk (bus d) (lock d) (slave d) (sector_count d) l).

Lemma read_attached lba n d : attached d → attached (ata_read_blocks ch lba n d).2.
Proof. intros Hd. destruct (wp_read_blocks lba n d Hd) as [Hs _]. apply Hs. Qed.

Definition write_ok (lba n : Z) (buffer : list Z) : ST (disk P) bool := r ← ata_write_blocks ch lba n buffer; mret (negb (r <? 0)).

Lemma write_attached lba n buffer d : attached d → attached (write_ok lba n buffer d).2.
Proof.
  intros Hd. destruct (wp_write_blocks lba n buffer d Hd) as [Hs _]. unfold write_ok, mbind, ST_bind.
  destruct (ata_write_blocks ch lba n buffer d). apply Hs.
Qed.

Lemma heap_attached d : attached d → attached (pop_heap d).2.
Proof. intros []. unfold pop_heap. destruct (RamDisk.pop (heap d)). by constructor. Qed.

#[global] Instance ata_block_env : BlockEnv ata_env := {|
  dev_sectors := λ e, sector_count (e_disk e);
  dev_read := λ lba n, run (ata_read_blocks ch lba n) (read_attached lba n);
  dev_write := λ lba n bs, run (write_ok lba n bs) (write_attached lba n bs);
  heap_alloc := λ sz, run pop_heap heap_attached;
|}.

#[global] Program Instance ata_block_ok : BlockEnvOk ata_env := {|
  dev_disk := λ e, contents (e_disk e);
  reliable := λ e, healthy (bus (e_disk e)) ∧ heap (e_disk e) = [];
|}.
Next Obligation. intros [d Hd]. cbn. destruct Hd as [_ _ Hz]. unfold ATA_LBA28_SECTORS in Hz. lia. Qed.
Next Obligation. intros [d Hd] s. apply law_media. Qed.
Next Obligation.
  intros [d Hd] lba n r e' Hl Hn Hx. cbn in Hx, Hn. unfold run in Hx. injection Hx as <- <-. cbn. destruct (wp_read_blocks lba n d Hd) as (Hs & Hm & _ & Hr).
  split_and!; [apply Hs|intros s; unfold contents; by rewrite Hm, (sd_slave _ _ Hs)|]. intros bs Hbs. apply Hr; [done|destruct Hd; lia|done].
Qed.
Next Obligation.
  intros [d Hd] lba n bs ok e' Hl Hn Hb Hlen Hx. cbn in Hx, Hn. unfold run in Hx. injection Hx as <- <-. cbn. destruct (wp_write_blocks lba n bs d Hd) as (Hs & R & _ & Hm).
  unfold write_ok, mbind, ST_bind. destruct (ata_write_blocks ch lba n bs d) as [r d']. cbn in *. pose proof (zlength_nonneg bs).
  destruct (Hm Hl ltac:(lia)) as [Mo Mi]; [destruct Hd; lia|]. split_and!; [apply Hs| |].
  - intros s Hns. unfold contents. rewrite (sd_slave _ _ Hs). apply Mo. lia.
  - intros Hok i Hi. apply Mi; [done|lia| |done]. by destruct R as [->| ->].
Qed.
Next Obligation. intros [d Hd] sz ok e' Hx. cbn in Hx. unfold run in Hx. injection Hx as <- <-. cbn. unfold pop_heap. by destruct (RamDisk.pop (heap d)). Qed.
Next Obligation.
  intros [d Hd] lba n [Hh Hp] Hl Hn. cbn in *. destruct (wp_read_blocks lba n d Hd) as (Hs & _ & Hr & _).
  split; [by apply Hr|]. split; [by apply Hs|by rewrite (sd_heap _ _ Hs)].
Qed.
Next Obligation.
  intros [d Hd] lba n bs [Hh Hp] Hl Hn. cbn in *. destruct (wp_write_blocks lba n bs d Hd) as (Hs & _ & Hr & _).
  unfold write_ok, mbind, ST_bind. destruct (ata_write_blocks ch lba n bs d) as [r d']. cbn in *. rewrite Hr by done.
  split; [done|]. split; [by apply Hs|by rewrite (sd_heap _ _ Hs)].
Qed.
Next Obligation. intros [d Hd] sz [Hh Hp]. cbn in *. unfold pop_heap. by rewrite Hp. Qed.

(** ** The theorems *)

(** C4: Requests to an attached drive.  A read changes no sector of either
    drive and returns the sectors asked for or an error; a write changes at
    most the sectors it addresses, of its own drive, and stores the buffer
    when it reports success; both succeed on drives that do not fail, end
    with no transfer under way and release the mutex of the channel. *)
Theorem ata_requests lba n buffer d :
  attached d → 0 ≤ lba → 0 ≤ n → lba + n ≤ sector_count d → bytes_ok buffer → zlength buffer = 512 * n →
  (let '(r, d') := ata_read_blocks ch lba n d in
   same_drive d d' ∧ media (view (bus d')) = media (view (bus d)) ∧ (healthy (bus d) → r ≠ None) ∧
   ∀ l, r = Some l → l = sectors_at (contents d) lba (Z.to_nat n)) ∧
  (let '(r, d') := ata_write_blocks ch lba n buffer d in
   same_drive d d' ∧ (r = 0 ∨ r = -1) ∧ (healthy (bus d) → r = 0) ∧
   (∀ u s, ¬ (u = slave d ∧ lba ≤ s < lba + n) → media (view (bus d')) u s = media (view (bus d)) u s) ∧
   (r = 0 → ∀ i, 0 ≤ i < n → contents d' (lba + i) = slice buffer (512 * i) 512)).
Proof.
  intros Hd Hl Hn Hln Hb Hlen. assert (lba + n ≤ ATA_LBA28_SECTORS) as H28 by (destruct Hd; lia). split.
  - destruct (wp_read_blocks lba n d Hd) as (H1 & H2 & H3 & H4). destruct (ata_read_blocks ch lba n d) as [r d']. cbn in *. split_and!; auto.
  - destruct (wp_write_blocks lba n buffer d Hd) as (H1 & H2 & H3 & H4). destruct (ata_write_blocks ch lba n buffer d) as [r d']. cbn in *.
    destruct (H4 Hl Hn H28) as [Ho Hi]. split_and!; auto. apply Hi; [done|lia].
Qed.

(** An error sticks.  The standard keeps the error flag set until the next
    command, and the driver issues no command while it is set: once a drive
    has reported an error, every later request fails. *)
Theorem error_sticks slave lba c p :
  quiet (view p) → slave = 0 ∨ slave = 1 → phases (view p) slave = Failed →
  wp (ata_prepare ch slave lba c) p (λ r p', r = -1 ∧ quiet (view p') ∧ phases (view p') slave = Failed).
Proof.
  intros Hq Hs Hf. destruct (sel_value_spec slave lba (view p) Hs) as (_ & Hsel & _ & _). unfold ata_prepare. apply wp_bind.
  eapply wp_mono; [by apply wp_select|]. cbv beta. intros _ p1 [V1 _]. apply wp_bind. eapply wp_mono; [apply wp_wait|]. cbv beta.
  intros r p2 (V2 & _ & Hr). rewrite V1 in V2, Hr. unfold current in Hr. rewrite Hsel in Hr. cbn [phases set_sel] in Hr. rewrite Hf in Hr.
  destruct Hr as [(_ & [=] & _)|[-> _]]. apply wp_ret. split_and!; [done|by rewrite V2|by rewrite V2].
Qed.
End disk.

(** ** Simulated drives *)

(** Two drives on the first channel, busy for one poll after each command;
    [faults] says which of the next commands and sector writes fail. *)
Record sim := mk_sim { s_drives : drives; s_busy : bool; faults : list bool }.

Definition norm (l : list Z) : list Z := if decide (length l = 512%nat ∧ bytes_ok l) then l else replicate 512 0.

Definition sim_view (s : sim) : drives :=
  let d := s_drives s in mk_drives (r_sel d) (r_count d) (r_lba0 d) (r_lba1 d) (r_lba2 d) (phases d) (λ u k, norm (media d u k)).

Definition hda : ata_channel := mk_channel 0x1F0 0x3F6.

Definition with_drives (d : drives) (s : sim) : sim := mk_sim d (s_busy s) (faults s).

Definition sim_status (s : sim) : Z :=
  if s_busy s then ATA_STATUS_BSY else
  match current (s_drives s) with Failed => Z.lor 0x40 ATA_STATUS_ERR | Idle => 0x40 | _ => Z.lor 0x40 ATA_STATUS_DRQ end.

Definition sim_command (c : Z) (s : sim) : sim :=
  let d := s_drives s in
  let u := selected d in
  let '(bad, fl) := RamDisk.pop (faults s) in
  let ph := if bad then Failed
            else if c =? ATA_CMD_READ_PIO then Reading (words_of (norm (media d u (address d))))
            else if c =? ATA_CMD_WRITE_PIO then Writing (address d) [] else Idle in
  mk_sim (set_phase ph d u) true fl.

Definition sim_outb (port v : Z) : ST sim unit := λ s,
  (tt, if port =? 0x1F6 then with_drives (set_sel v (s_drives s)) s
       else if port =? 0x1F2 then with_drives (set_count v (s_drives s)) s
       else if port =? 0x1F3 then with_drives (set_lba0 v (s_drives s)) s
       else if port =? 0x1F4 then with_drives (set_lba1 v (s_drives s)) s
       else if port =? 0x1F5 then with_drives (set_lba2 v (s_drives s)) s
       else if port =? 0x1F7 then sim_command v s else s).

Definition sim_inb (port : Z) : ST sim Z := λ s,
  if port =? 0x1F7 then (sim_status s, mk_sim (s_drives s) false (faults s)) else (0, s).

Definition sim_inw (port : Z) : ST sim Z := λ s,
  match current (s_drives s) with
  | Reading (w :: ws) =>
      (w, with_drives (set_phase (match ws with [] => Idle | _ => Reading ws end) (s_drives s) (selected (s_drives s))) s)
  | _ => (0, s)
  end.

Definition sim_outw (port v : Z) : ST sim unit := λ s,
  let d := s_drives s in
  let u := selected d in
  (tt, match current d with
       | Writing lba ws =>
           if decide (length ws < 255)%nat then with_drives (set_phase (Writing lba (ws ++ [v])) d u) s
           else let l := bytes_of (ws ++ [v]) in
                let '(bad, fl) := RamDisk.pop (faults s) in
                if negb bad && bool_decide (length l = 512%nat ∧ bytes_ok l)
                then mk_sim (set_media u lba l (set_phase Idle d u)) true fl
                else mk_sim (set_media u lba l (set_phase Failed d u)) true fl
       | _ => s
       end).

#[global] Instance sim_ports : Ports sim := {| inb := sim_inb; outb := sim_outb; inw := sim_inw; outw := sim_outw |}.

Lemma norm_ok l : sector_ok (norm l).
Proof. unfold norm, sector_ok. case_decide; [done|]. split; [by rewrite length_replicate|]. apply bytes_ok_replicate. unfold is_byte. lia. Qed.

Lemma norm_id l : length l = 512%nat ∧ bytes_ok l → norm l = l.
Proof. intros Hl. unfold norm. by rewrite decide_True. Qed.

Lemma sim_media u lba l d s fl b :
  sim_view (mk_sim (set_media u lba l d) b fl) = set_media u lba (norm l) (sim_view (mk_sim d b s)).
Proof.
  unfold sim_view, set_media. cbn. f_equal. apply functional_extensionality. intros x. unfold upd.
  destruct (decide (x = u)) as [->|]; [|done]. apply functional_extensionality. intros y. by destruct (decide (y = lba)).
Qed.

(** A phase of a drive that works: the words taken so far fit a sector. *)
Definition phase_ok (ph : phase) : Prop :=
  match ph with
  | Failed => False
  | Writing _ ws => (length ws ≤ 255)%nat ∧ Forall (λ w, 0 ≤ w < 65536) ws
  | _ => True
  end.

Lemma bytes_of_ok ws : Forall (λ w, 0 ≤ w < 65536) ws → length (bytes_of ws) = (2 * length ws)%nat ∧ bytes_ok (bytes_of ws).
Proof.
  induction 1 as [|w ws Hw _ [IH1 IH2]]; [by split; [|constructor]|]. cbn [bytes_of fmap list_fmap concat app length].
  change (concat ((λ w, [Z.land w 255; Z.shiftr w 8]) <$> ws)) with (bytes_of ws). split; [rewrite IH1; cbn; lia|].
  apply Forall_cons. split; [apply low_byte|]. apply Forall_cons. split; [|done]. unfold is_byte. rewrite Z.shiftr_div_pow2 by lia. change (2 ^ 8) with 256. zdm.
Qed.

Lemma phases_ok_upd (f : Z → phase) u ph : phase_ok ph → (∀ x, phase_ok (f x)) → ∀ x, phase_ok (upd f u ph x).
Proof. intros Hp Hf x. unfold upd. by destruct (decide (x = u)). Qed.

#[global] Program Instance sim_bus : AtaBus sim hda := {|
  view := sim_view;
  busy := λ s, if s_busy s then 1%nat else 0%nat;
  healthy := λ s, faults s = [] ∧ ∀ u, phase_ok (phases (s_drives s) u);
|}.
Next Obligation. intros s u k. apply norm_ok. Qed.
Next Obligation. intros s. apply Nat.le_lt_trans with 1%nat; [destruct (s_busy s); cbv; auto|]. change 1%nat with (Z.to_nat 1). apply Z2Nat.inj_lt; unfold ATA_POLL_LIMIT; lia. Qed.
Next Obligation. intros s u [_ Hh] Hf. specialize (Hh u). cbn in Hf. by rewrite Hf in Hh. Qed.
Next Obligation. done. Qed.
Next Obligation.
  intros s. cbn. unfold sim_inb. cbn. unfold sim_status, current. change (selected (sim_view s)) with (selected (s_drives s)). cbn [phases sim_view].
  destruct (s_busy s); cbn; [|destruct (phases (s_drives s) (selected (s_drives s)));
    (split; [done|]; split; [done|]; split; [done|]; split; [intros _; by split_and!|intros Hb; by destruct Hb])].
  split; [done|]. split; [done|]. split; [done|]. split; [done|]. intros _. split; [apply Nat.lt_0_1|done].
Qed.
Next Obligation. done. Qed.
Next Obligation. done. Qed.
Next Obligation. done. Qed.
Next Obligation. done. Qed.
Next Obligation. done. Qed.
Next Obligation.
  intros s c ph _ _ Hc. change (outb (io hda + ATA_REG_COMMAND) c s).2 with (sim_command c s). unfold sim_command. assert (∀ x b fl, sim_view (mk_sim (set_phase x (s_drives s) (selected (s_drives s))) b fl) =
    set_phase x (sim_view s) (selected (sim_view s))) as Hv by done.
  destruct (faults s) as [|[|] fl] eqn:Ef; cbn [RamDisk.pop]; rewrite Hv.
  - split.
    + left. destruct Hc as [(-> & _ & ->)|[(-> & _ & ->)|(-> & ->)]]; done.
    + intros [_ Hh]. split; [done|]. apply phases_ok_upd; [|done].
      destruct Hc as [(-> & _ & ->)|[(-> & _ & ->)|(-> & ->)]]; cbn; split_and?; done || lia.
  - split; [by right|intros [[=] _]].
  - split; [|intros [[=] _]]. left. destruct Hc as [(-> & _ & ->)|[(-> & _ & ->)|(-> & ->)]]; done.
Qed.
Next Obligation.
  intros s w ws Hc. change (inw (io hda + ATA_REG_DATA) s) with (sim_inw (io hda + ATA_REG_DATA) s). unfold sim_inw. change (current (sim_view s)) with (current (s_drives s)) in Hc. rewrite Hc. split_and!; [done|done|].
  intros [Hf Hh]. split; [done|]. apply phases_ok_upd; [by destruct ws|done].
Qed.
Next Obligation.
  intros s lba ws v Hc Hv. change (outw (io hda + ATA_REG_DATA) v s) with (sim_outw (io hda + ATA_REG_DATA) v s). unfold sim_outw. change (current (sim_view s)) with (current (s_drives s)) in Hc. rewrite Hc. cbn [snd].
  change (selected (sim_view s)) with (selected (s_drives s)). set (u := selected (s_drives s)).
  assert ((∀ x, phase_ok (phases (s_drives s) x)) → (length ws ≤ 255)%nat ∧ Forall (λ w, 0 ≤ w < 65536) (ws ++ [v])) as Hok.
  { intros Hh. specialize (Hh u). unfold current in Hc. fold u in Hc. rewrite Hc in Hh. destruct Hh. split; [done|].
    apply Forall_app. split; [done|]. apply Forall_singleton. lia. }
  destruct (decide (length ws < 255)%nat) as [Hl|Hl].
  - split; [|done]. intros [Hf Hh]. split; [done|]. apply phases_ok_upd; [|done]. split; [rewrite length_app; cbn; lia|by apply Hok].
  - destruct (RamDisk.pop (faults s)) as [bad fl] eqn:Ep.
    destruct (negb bad && bool_decide (length (bytes_of (ws ++ [v])) = 512%nat ∧ bytes_ok (bytes_of (ws ++ [v])))) eqn:Eb.
    + apply andb_prop in Eb as [_ Eb%bool_decide_eq_true]. split.
      * intros [Hf Hh]. rewrite Hf in Ep. injection Ep as <- <-. split; [done|]. by apply phases_ok_upd.
      * left. rewrite (sim_media _ _ _ _ fl), norm_id by done. done.
    + split; [|right; exists (norm (bytes_of (ws ++ [v]))); rewrite (sim_media _ _ _ _ fl); done].
      intros [Hf Hh]. exfalso. rewrite Hf in Ep. injection Ep as <- <-. destruct (Hok Hh) as [H1 H2].
      destruct (bytes_of_ok _ H2) as [H3 H4]. rewrite length_app in H3. cbn [negb andb length] in *. apply bool_decide_eq_false in Eb. apply Eb. split; [lia|done].
Qed.

(** A slave of eight sectors, all zero, that works. *)
Definition blank : disk sim :=
  mk_disk (mk_sim (mk_drives 0xA0 0 0 0 0 (λ _, Idle) (λ _ _, replicate 512 0)) true []) false 1 8 [].

Lemma blank_attached : attached (HB := sim_bus) blank.
Proof. constructor; [intros u; by left|by right|cbn; unfold ATA_LBA28_SECTORS; lia]. Qed.

Example blank_write_read :
  let '(r, d) := ata_write_blocks hda 5 2 (replicate 1024 171) blank in
  r = 0 ∧ (ata_read_blocks hda 4 3 d).1 = Some (replicate 512 0 ++ replicate 1024 171).
Proof. by vm_compute. Qed.

Lemma ata_requests_witness :
  (let '(r, d') := ata_read_blocks hda 2 1 blank in
   same_drive (HB := sim_bus) blank d' ∧ media (view (bus d')) = media (view (bus blank)) ∧ (healthy (bus blank) → r ≠ None) ∧
   ∀ l, r = Some l → l = sectors_at (contents blank) 2 (Z.to_nat 1)) ∧
  (let '(r, d') := ata_write_blocks hda 2 1 (replicate 512 7) blank in
   same_drive (HB := sim_bus) blank d' ∧ (r = 0 ∨ r = -1) ∧ (healthy (bus blank) → r = 0) ∧
   (∀ u s, ¬ (u = slave blank ∧ 2 ≤ s < 2 + 1) → media (view (bus d')) u s = media (view (bus blank)) u s) ∧
   (r = 0 → ∀ i, 0 ≤ i < 1 → contents d' (2 + i) = slice (replicate 512 7) (512 * i) 512)).
Proof.
  apply (ata_requests 2 1 (replicate 512 7) blank blank_attached); [lia|lia|cbn; lia| |reflexivity].
  apply bytes_ok_replicate. unfold is_byte. lia.
Defined.
End AtaDisk.
