(* ===== verification/Ext2Types.v ===== *)
(** * On-disk structures of ext2 and the mount context (kernel/ext2.c, 23-144)

    The packed little-endian structures are records of field values; the
    bytes the kernel overlays them on are given by the field widths, so
    [*(struct ext2_inode * )buf] is [decode_inode buf] and the [memcpy] of a
    structure into a buffer is a splice of its [encode].  The mount context
    keeps every field the driver uses; the node cache holds the one [fs_node]
    of each inode. *)

From S2P Require Import Prelude Bytes.

Definition EXT2_MAGIC : Z := 0xEF53.
Definition EXT2_REV_OLD : Z := 0.
Definition EXT2_ROOT_INO : Z := 2.
Definition EXT2_FIRST_NORMAL_INO : Z := 11.
Definition EXT2_S_IFREG : Z := 0x8000.
Definition EXT2_S_IFDIR : Z := 0x4000.
Definition EXT2_S_IFMT : Z := 0xF000.
Definition EXT2_MAX_FILE_BLOCKS : Z := 268.

(** Node types of include/vfs.h. *)
Definition FS_FILE : Z := 1.
Definition FS_DIRECTORY : Z := 2.

(** ** [struct ext2_superblock] *)

Record ext2_superblock := mk_sb {
  s_inodes_count : Z;
  s_blocks_count : Z;
  s_r_blocks_count : Z;
  s_free_blocks_count : Z;
  s_free_inodes_count : Z;
  s_first_data_block : Z;
  s_log_block_size : Z;
  s_log_frag_size : Z;
  s_blocks_per_group : Z;
  s_frags_per_group : Z;
  s_inodes_per_group : Z;
  s_mtime : Z;
  s_wtime : Z;
  s_mnt_count : Z;
  s_max_mnt_count : Z;
  s_magic : Z;
  s_state : Z;
  s_errors : Z;
  s_minor_rev_level : Z;
  s_lastcheck : Z;
  s_checkinterval : Z;
  s_creator_os : Z;
  s_rev_level : Z;
  s_def_resuid : Z;
  s_def_resgid : Z;
  s_first_ino : Z;
  s_inode_size : Z;
  s_block_group_nr : Z;
  s_feature_compat : Z;
  s_feature_incompat : Z;
  s_feature_ro_compat : Z;
}.

Definition sb_widths : list nat :=
  ([ 4; 4; 4; 4; 4; 4; 4; 4; 4; 4; 4; 4; 4; 2; 2; 2;
     2; 2; 2; 4; 4; 4; 4; 2; 2; 4; 2; 2; 4; 4; 4 ])%nat.

Definition sb_to_list (s : ext2_superblock) : list Z :=
  [
    s_inodes_count s; s_blocks_count s; s_r_blocks_count s;
    s_free_blocks_count s; s_free_inodes_count s; s_first_data_block s;
    s_log_block_size s; s_log_frag_size s; s_blocks_per_group s;
    s_frags_per_group s; s_inodes_per_group s; s_mtime s;
    s_wtime s; s_mnt_count s; s_max_mnt_count s;
    s_magic s; s_state s; s_errors s;
    s_minor_rev_level s; s_lastcheck s; s_checkinterval s;
    s_creator_os s; s_rev_level s; s_def_resuid s;
    s_def_resgid s; s_first_ino s; s_inode_size s;
    s_block_group_nr s; s_feature_compat s; s_feature_incompat s;
    s_feature_ro_compat s
  ].

Definition sb_of_list (l : list Z) : ext2_superblock :=
  let f (i : Z) := bget l i in
  mk_sb (f 0) (f 1) (f 2) (f 3) (f 4) (f 5) (f 6) (f 7)
    (f 8) (f 9) (f 10) (f 11) (f 12) (f 13) (f 14) (f 15)
    (f 16) (f 17) (f 18) (f 19) (f 20) (f 21) (f 22) (f 23)
    (f 24) (f 25) (f 26) (f 27) (f 28) (f 29) (f 30).

(** sizeof(struct ext2_superblock) = 104. *)
Definition encode_sb (s : ext2_superblock) : list Z := enc_fields sb_widths (sb_to_list s).
Definition decode_sb (buf : list Z) : ext2_superblock := sb_of_list (dec_fields sb_widths buf).

(** The assignments [m->sb.s_free_blocks_count = v] and
    [m->sb.s_free_inodes_count = v]. *)
Definition set_s_free_blocks_count (v : Z) (s : ext2_superblock) : ext2_superblock :=
  {|
    s_inodes_count := s_inodes_count s;
    s_blocks_count := s_blocks_count s;
    s_r_blocks_count := s_r_blocks_count s;
    s_free_blocks_count := v;
    s_free_inodes_count := s_free_inodes_count s;
    s_first_data_block := s_first_data_block s;
    s_log_block_size := s_log_block_size s;
    s_log_frag_size := s_log_frag_size s;
    s_blocks_per_group := s_blocks_per_group s;
    s_frags_per_group := s_frags_per_group s;
    s_inodes_per_group := s_inodes_per_group s;
    s_mtime := s_mtime s;
    s_wtime := s_wtime s;
    s_mnt_count := s_mnt_count s;
    s_max_mnt_count := s_max_mnt_count s;
    s_magic := s_magic s;
    s_state := s_state s;
    s_errors := s_errors s;
    s_minor_rev_level := s_minor_rev_level s;
    s_lastcheck := s_lastcheck s;
    s_checkinterval := s_checkinterval s;
    s_creator_os := s_creator_os s;
    s_rev_level := s_rev_level s;
    s_def_resuid := s_def_resuid s;
    s_def_resgid := s_def_resgid s;
    s_first_ino := s_first_ino s;
    s_inode_size := s_inode_size s;
    s_block_group_nr := s_block_group_nr s;
    s_feature_compat := s_feature_compat s;
    s_feature_incompat := s_feature_incompat s;
    s_feature_ro_compat := s_feature_ro_compat s
  |}.

Definition set_s_free_inodes_count (v : Z) (s : ext2_superblock) : ext2_superblock :=
  {|
    s_inodes_count := s_inodes_count s;
    s_blocks_count := s_blocks_count s;
    s_r_blocks_count := s_r_blocks_count s;
    s_free_blocks_count := s_free_blocks_count s;
    s_free_inodes_count := v;
    s_first_data_block := s_first_data_block s;
    s_log_block_size := s_log_block_size s;
    s_log_frag_size := s_log_frag_size s;
    s_blocks_per_group := s_blocks_per_group s;
    s_frags_per_group := s_frags_per_group s;
    s_inodes_per_group := s_inodes_per_group s;
    s_mtime := s_mtime s;
    s_wtime := s_wtime s;
    s_mnt_count := s_mnt_count s;
    s_max_mnt_count := s_max_mnt_count s;
    s_magic := s_magic s;
    s_state := s_state s;
    s_errors := s_errors s;
    s_minor_rev_level := s_minor_rev_level s;
    s_lastcheck := s_lastcheck s;
    s_checkinterval := s_checkinterval s;
    s_creator_os := s_creator_os s;
    s_rev_level := s_rev_level s;
    s_def_resuid := s_def_resuid s;
    s_def_resgid := s_def_resgid s;
    s_first_ino := s_first_ino s;
    s_inode_size := s_inode_size s;
    s_block_group_nr := s_block_group_nr s;
    s_feature_compat := s_feature_compat s;
    s_feature_incompat := s_feature_incompat s;
    s_feature_ro_compat := s_feature_ro_compat s
  |}.

(** ** [struct ext2_group_desc] *)

Record ext2_group_desc := mk_gd {
  bg_block_bitmap : Z;
  bg_inode_bitmap : Z;
  bg_inode_table : Z;
  bg_free_blocks_count : Z;
  bg_free_inodes_count : Z;
  bg_used_dirs_count : Z;
  bg_pad : Z;
  bg_reserved0 : Z;
  bg_reserved1 : Z;
  bg_reserved2 : Z;
}.

Definition gd_widths : list nat := ([ 4; 4; 4; 2; 2; 2; 2; 4; 4; 4 ])%nat.

Definition gd_to_list (g : ext2_group_desc) : list Z :=
  [
    bg_block_bitmap g; bg_inode_bitmap g; bg_inode_table g;
    bg_free_blocks_count g; bg_free_inodes_count g; bg_used_dirs_count g;
    bg_pad g; bg_reserved0 g; bg_reserved1 g;
    bg_reserved2 g
  ].

Definition gd_of_list (l : list Z) : ext2_group_desc :=
  let f (i : Z) := bget l i in
  mk_gd (f 0) (f 1) (f 2) (f 3) (f 4) (f 5) (f 6) (f 7) (f 8) (f 9).

(** sizeof(struct ext2_group_desc) = 32. *)
Definition encode_gd (g : ext2_group_desc) : list Z := enc_fields gd_widths (gd_to_list g).
Definition decode_gd (buf : list Z) : ext2_group_desc := gd_of_list (dec_fields gd_widths buf).

Definition set_bg_free_blocks_count (v : Z) (g : ext2_group_desc) : ext2_group_desc :=
  {|
    bg_block_bitmap := bg_block_bitmap g;
    bg_inode_bitmap := bg_inode_bitmap g;
    bg_inode_table := bg_inode_table g;
    bg_free_blocks_count := v;
    bg_free_inodes_count := bg_free_inodes_count g;
    bg_used_dirs_count := bg_used_dirs_count g;
    bg_pad := bg_pad g;
    bg_reserved0 := bg_reserved0 g;
    bg_reserved1 := bg_reserved1 g;
    bg_reserved2 := bg_reserved2 g
  |}.

Definition set_bg_free_inodes_count (v : Z) (g : ext2_group_desc) : ext2_group_desc :=
  {|
    bg_block_bitmap := bg_block_bitmap g;
    bg_inode_bitmap := bg_inode_bitmap g;
    bg_inode_table := bg_inode_table g;
    bg_free_blocks_count := bg_free_blocks_count g;
    bg_free_inodes_count := v;
    bg_used_dirs_count := bg_used_dirs_count g;
    bg_pad := bg_pad g;
    bg_reserved0 := bg_reserved0 g;
    bg_reserved1 := bg_reserved1 g;
    bg_reserved2 := bg_reserved2 g
  |}.

Definition set_bg_used_dirs_count (v : Z) (g : ext2_group_desc) : ext2_group_desc :=
  {|
    bg_block_bitmap := bg_block_bitmap g;
    bg_inode_bitmap := bg_inode_bitmap g;
    bg_inode_table := bg_inode_table g;
    bg_free_blocks_count := bg_free_blocks_count g;
    bg_free_inodes_count := bg_free_inodes_count g;
    bg_used_dirs_count := v;
    bg_pad := bg_pad g;
    bg_reserved0 := bg_reserved0 g;
    bg_reserved1 := bg_reserved1 g;
    bg_reserved2 := bg_reserved2 g
  |}.

(** ** [struct ext2_inode]: 0-11 of [i_block] direct, 12 singly-indirect *)

Record ext2_inode := mk_inode {
  i_mode : Z;
  i_uid : Z;
  i_size : Z;
  i_atime : Z;
  i_ctime : Z;
  i_mtime : Z;
  i_dtime : Z;
  i_gid : Z;
  i_links_count : Z;
  i_blocks : Z;
  i_flags : Z;
  i_osd1 : Z;
  i_block : list Z;
  i_generation : Z;
  i_file_acl : Z;
  i_dir_acl : Z;
  i_faddr : Z;
  i_osd2 : list Z;
}.

Definition inode_widths : list nat :=
  ([ 2; 2; 4; 4; 4; 4; 4; 2; 2; 4; 4; 4 ] ++ replicate 15 4 ++ [ 4; 4; 4; 4 ] ++ replicate 12 1)%nat.

Definition inode_to_list (n : ext2_inode) : list Z :=
  [
    i_mode n; i_uid n; i_size n; i_atime n;
    i_ctime n; i_mtime n; i_dtime n; i_gid n;
    i_links_count n; i_blocks n; i_flags n; i_osd1 n
  ] ++ i_block n ++
  [ i_generation n; i_file_acl n; i_dir_acl n; i_faddr n ] ++ i_osd2 n.

Definition inode_of_list (l : list Z) : ext2_inode :=
  let f (i : Z) := bget l i in
  mk_inode (f 0) (f 1) (f 2) (f 3) (f 4) (f 5)
    (f 6) (f 7) (f 8) (f 9) (f 10) (f 11)
    (take 15 (drop 12 l)) (f 27) (f 28) (f 29) (f 30) (take 12 (drop 31 l)).

(** sizeof(struct ext2_inode) = 128. *)
Definition encode_inode (n : ext2_inode) : list Z := enc_fields inode_widths (inode_to_list n).
Definition decode_inode (buf : list Z) : ext2_inode := inode_of_list (dec_fields inode_widths buf).

Definition set_i_size (v : Z) (n : ext2_inode) : ext2_inode :=
  {|
    i_mode := i_mode n;
    i_uid := i_uid n;
    i_size := v;
    i_atime := i_atime n;
    i_ctime := i_ctime n;
    i_mtime := i_mtime n;
    i_dtime := i_dtime n;
    i_gid := i_gid n;
    i_links_count := i_links_count n;
    i_blocks := i_blocks n;
    i_flags := i_flags n;
    i_osd1 := i_osd1 n;
    i_block := i_block n;
    i_generation := i_generation n;
    i_file_acl := i_file_acl n;
    i_dir_acl := i_dir_acl n;
    i_faddr := i_faddr n;
    i_osd2 := i_osd2 n
  |}.

Definition set_i_blocks (v : Z) (n : ext2_inode) : ext2_inode :=
  {|
    i_mode := i_mode n;
    i_uid := i_uid n;
    i_size := i_size n;
    i_atime := i_atime n;
    i_ctime := i_ctime n;
    i_mtime := i_mtime n;
    i_dtime := i_dtime n;
    i_gid := i_gid n;
    i_links_count := i_links_count n;
    i_blocks := v;
    i_flags := i_flags n;
    i_osd1 := i_osd1 n;
    i_block := i_block n;
    i_generation := i_generation n;
    i_file_acl := i_file_acl n;
    i_dir_acl := i_dir_acl n;
    i_faddr := i_faddr n;
    i_osd2 := i_osd2 n
  |}.

Definition set_i_links_count (v : Z) (n : ext2_inode) : ext2_inode :=
  {|
    i_mode := i_mode n;
    i_uid := i_uid n;
    i_size := i_size n;
    i_atime := i_atime n;
    i_ctime := i_ctime n;
    i_mtime := i_mtime n;
    i_dtime := i_dtime n;
    i_gid := i_gid n;
    i_links_count := v;
    i_blocks := i_blocks n;
    i_flags := i_flags n;
    i_osd1 := i_osd1 n;
    i_block := i_block n;
    i_generation := i_generation n;
    i_file_acl := i_file_acl n;
    i_dir_acl := i_dir_acl n;
    i_faddr := i_faddr n;
    i_osd2 := i_osd2 n
  |}.

Definition set_i_block (v : list Z) (n : ext2_inode) : ext2_inode :=
  {|
    i_mode := i_mode n;
    i_uid := i_uid n;
    i_size := i_size n;
    i_atime := i_atime n;
    i_ctime := i_ctime n;
    i_mtime := i_mtime n;
    i_dtime := i_dtime n;
    i_gid := i_gid n;
    i_links_count := i_links_count n;
    i_blocks := i_blocks n;
    i_flags := i_flags n;
    i_osd1 := i_osd1 n;
    i_block := v;
    i_generation := i_generation n;
    i_file_acl := i_file_acl n;
    i_dir_acl := i_dir_acl n;
    i_faddr := i_faddr n;
    i_osd2 := i_osd2 n
  |}.

(** A freshly initialised inode with the given mode, link count, size, sector
    count and first block (the field stores of ext2_create and ext2_mkdir). *)
Definition fresh_inode (mode links size blocks blk0 : Z) : ext2_inode :=
  mk_inode mode 0 size 0 0 0 0 0 links blocks 0 0 (bset (replicate 15 0) 0 blk0)
    0 0 0 0 (replicate 12 0).

(** ** [struct ext2_mount] *)

(** The fields of [struct fs_node] the driver sets; an [fs_node] of ext2 is
    owned by the node cache, so its inode number identifies it. *)
Record ext2_node := {
  n_name : list Z;
  n_flags : Z;
  n_inode : Z;
  n_length : Z;
}.

Record ext2_mount := {
  m_sb : ext2_superblock;
  m_gd : ext2_group_desc;
  m_block_size : Z;
  m_sectors_per_block : Z;
  m_inode_size : Z;
  m_inode_table_block : Z;
  m_inode_table_blocks : Z;
  m_first_data_block : Z;
  m_alloc_start_bit : Z;
  m_sb_block : Z;
  m_gd_block : Z;
  m_locked : bool;
  m_root_node : Z;
  m_node_cache : gmap Z ext2_node;
  m_node_cache_size : Z;
}.

Definition set_m_sb (v : ext2_superblock) (m : ext2_mount) : ext2_mount :=
  {|
    m_sb := v;
    m_gd := m_gd m;
    m_block_size := m_block_size m;
    m_sectors_per_block := m_sectors_per_block m;
    m_inode_size := m_inode_size m;
    m_inode_table_block := m_inode_table_block m;
    m_inode_table_blocks := m_inode_table_blocks m;
    m_first_data_block := m_first_data_block m;
    m_alloc_start_bit := m_alloc_start_bit m;
    m_sb_block := m_sb_block m;
    m_gd_block := m_gd_block m;
    m_locked := m_locked m;
    m_root_node := m_root_node m;
    m_node_cache := m_node_cache m;
    m_node_cache_size := m_node_cache_size m
  |}.

Definition set_m_gd (v : ext2_group_desc) (m : ext2_mount) : ext2_mount :=
  {|
    m_sb := m_sb m;
    m_gd := v;
    m_block_size := m_block_size m;
    m_sectors_per_block := m_sectors_per_block m;
    m_inode_size := m_inode_size m;
    m_inode_table_block := m_inode_table_block m;
    m_inode_table_blocks := m_inode_table_blocks m;
    m_first_data_block := m_first_data_block m;
    m_alloc_start_bit := m_alloc_start_bit m;
    m_sb_block := m_sb_block m;
    m_gd_block := m_gd_block m;
    m_locked := m_locked m;
    m_root_node := m_root_node m;
    m_node_cache := m_node_cache m;
    m_node_cache_size := m_node_cache_size m
  |}.

Definition set_m_locked (v : bool) (m : ext2_mount) : ext2_mount :=
  {|
    m_sb := m_sb m;
    m_gd := m_gd m;
    m_block_size := m_block_size m;
    m_sectors_per_block := m_sectors_per_block m;
    m_inode_size := m_inode_size m;
    m_inode_table_block := m_inode_table_block m;
    m_inode_table_blocks := m_inode_table_blocks m;
    m_first_data_block := m_first_data_block m;
    m_alloc_start_bit := m_alloc_start_bit m;
    m_sb_block := m_sb_block m;
    m_gd_block := m_gd_block m;
    m_locked := v;
    m_root_node := m_root_node m;
    m_node_cache := m_node_cache m;
    m_node_cache_size := m_node_cache_size m
  |}.

Definition set_m_root_node (v : Z) (m : ext2_mount) : ext2_mount :=
  {|
    m_sb := m_sb m;
    m_gd := m_gd m;
    m_block_size := m_block_size m;
    m_sectors_per_block := m_sectors_per_block m;
    m_inode_size := m_inode_size m;
    m_inode_table_block := m_inode_table_block m;
    m_inode_table_blocks := m_inode_table_blocks m;
    m_first_data_block := m_first_data_block m;
    m_alloc_start_bit := m_alloc_start_bit m;
    m_sb_block := m_sb_block m;
    m_gd_block := m_gd_block m;
    m_locked := m_locked m;
    m_root_node := v;
    m_node_cache := m_node_cache m;
    m_node_cache_size := m_node_cache_size m
  |}.

Definition set_m_node_cache (v : gmap Z ext2_node) (m : ext2_mount) : ext2_mount :=
  {|
    m_sb := m_sb m;
    m_gd := m_gd m;
    m_block_size := m_block_size m;
    m_sectors_per_block := m_sectors_per_block m;
    m_inode_size := m_inode_size m;
    m_inode_table_block := m_inode_table_block m;
    m_inode_table_blocks := m_inode_table_blocks m;
    m_first_data_block := m_first_data_block m;
    m_alloc_start_bit := m_alloc_start_bit m;
    m_sb_block := m_sb_block m;
    m_gd_block := m_gd_block m;
    m_locked := m_locked m;
    m_root_node := m_root_node m;
    m_node_cache := v;
    m_node_cache_size := m_node_cache_size m
  |}.

(** ** Well-formed structures and the codec round trips *)

Definition sb_ok (s : ext2_superblock) : Prop := Forall2 fits sb_widths (sb_to_list s).
Definition gd_ok (g : ext2_group_desc) : Prop := Forall2 fits gd_widths (gd_to_list g).
Definition inode_ok (n : ext2_inode) : Prop :=
  length (i_block n) = 15%nat ∧ length (i_osd2 n) = 12%nat ∧
  Forall2 fits inode_widths (inode_to_list n).

#[global] Instance inode_ok_dec n : Decision (inode_ok n).
Proof. unfold inode_ok. apply _. Defined.

Lemma sb_of_to_list s : sb_of_list (sb_to_list s) = s.
Proof. by destruct s. Qed.

Lemma gd_of_to_list g : gd_of_list (gd_to_list g) = g.
Proof. by destruct g. Qed.

Lemma inode_of_to_list n :
  length (i_block n) = 15%nat → length (i_osd2 n) = 12%nat →
  inode_of_list (inode_to_list n) = n.
Proof.
  destruct n as [? ? ? ? ? ? ? ? ? ? ? ? bl ? ? ? ? osd]; simpl. intros Hb Ho.
  do 15 (destruct bl as [|? bl]; [done|]). destruct bl; [|done].
  do 12 (destruct osd as [|? osd]; [done|]). by destruct osd.
Qed.

Lemma inode_to_of_list l :
  length l = 43%nat → inode_to_list (inode_of_list l) = l.
Proof.
  intros Hl. do 43 (destruct l as [|? l]; [done|]). by destruct l.
Qed.

Lemma decode_encode_sb s rest : sb_ok s → decode_sb (encode_sb s ++ rest) = s.
Proof.
  intros Hs. unfold decode_sb, encode_sb. rewrite dec_enc_fields by done.
  apply sb_of_to_list.
Qed.

Lemma decode_encode_gd g rest : gd_ok g → decode_gd (encode_gd g ++ rest) = g.
Proof.
  intros Hs. unfold decode_gd, encode_gd. rewrite dec_enc_fields by done.
  apply gd_of_to_list.
Qed.

Lemma decode_encode_inode n rest : inode_ok n → decode_inode (encode_inode n ++ rest) = n.
Proof.
  intros (? & ? & Hf). unfold decode_inode, encode_inode. rewrite dec_enc_fields by done.
  by apply inode_of_to_list.
Qed.

Lemma length_encode_sb s : length (encode_sb s) = 104%nat.
Proof. unfold encode_sb. by rewrite length_enc_fields. Qed.

Lemma length_encode_gd g : length (encode_gd g) = 32%nat.
Proof. unfold encode_gd. by rewrite length_enc_fields. Qed.

Lemma length_encode_inode n : inode_ok n → length (encode_inode n) = 128%nat.
Proof.
  intros (Hb & Ho & Hf). unfold encode_inode. rewrite length_enc_fields; [done|].
  by apply Forall2_length in Hf.
Qed.

(** Whatever bytes the disk holds, a decoded structure is well formed. *)
Lemma decode_inode_ok buf :
  bytes_ok buf → (128 ≤ length buf)%nat → inode_ok (decode_inode buf).
Proof.
  intros Hb Hl. unfold decode_inode, inode_ok.
  pose proof (length_dec_fields inode_widths buf) as H43.
  pose proof (dec_fields_fits inode_widths buf Hb Hl) as Hf.
  revert H43 Hf. generalize (dec_fields inode_widths buf). intros l H43 Hf.
  rewrite inode_to_of_list by done.
  split; [|split; [|done]]; unfold inode_of_list; cbn [i_block i_osd2];
    rewrite length_take, length_drop, H43; done.
Qed.

Lemma sb_to_of_list l : length l = 31%nat → sb_to_list (sb_of_list l) = l.
Proof. intros Hl. do 31 (destruct l as [|? l]; [done|]). by destruct l. Qed.

Lemma gd_to_of_list l : length l = 10%nat → gd_to_list (gd_of_list l) = l.
Proof. intros Hl. do 10 (destruct l as [|? l]; [done|]). by destruct l. Qed.

Lemma decode_sb_ok buf : bytes_ok buf → (104 ≤ length buf)%nat → sb_ok (decode_sb buf).
Proof.
  intros Hb Hl. unfold decode_sb, sb_ok.
  rewrite sb_to_of_list by apply length_dec_fields. by apply dec_fields_fits.
Qed.

Lemma decode_gd_ok buf : bytes_ok buf → (32 ≤ length buf)%nat → gd_ok (decode_gd buf).
Proof.
  intros Hb Hl. unfold decode_gd, gd_ok.
  rewrite gd_to_of_list by apply length_dec_fields. by apply dec_fields_fits.
Qed.

(** ** Well-formedness of updated inodes *)

Section inode_fields.
Context (n : ext2_inode) (Hn : inode_ok n).

Lemma inode_ok_field i (w : nat) v :
  inode_widths !! i = Some w → inode_to_list n !! i = Some v → fits w v.
Proof using Hn. destruct Hn as (_ & _ & Hf). by apply Forall2_lookup_lr. Qed.

Lemma inode_ok_size : 0 ≤ i_size n < 4294967296.
Proof using Hn. by apply (inode_ok_field 2 4). Qed.

Lemma inode_ok_links : 0 ≤ i_links_count n < 65536.
Proof using Hn. by apply (inode_ok_field 8 2). Qed.

Lemma inode_ok_blocks : 0 ≤ i_blocks n < 4294967296.
Proof using Hn. by apply (inode_ok_field 9 4). Qed.

Lemma inode_ok_block k : 0 ≤ bget (i_block n) k < 4294967296.
Proof using Hn.
  destruct Hn as (Hl & _ & Hf). unfold bget.
  destruct (i_block n !! Z.to_nat k) as [v|] eqn:Ek; simpl; [|lia].
  assert (Z.to_nat k < 15)%nat by (rewrite <- Hl; by eapply lookup_lt_Some).
  apply (inode_ok_field (12 + Z.to_nat k) 4 v).
  - unfold inode_widths. rewrite lookup_app_r by (simpl; lia).
    rewrite lookup_app_l by (rewrite length_replicate; simpl; lia).
    apply lookup_replicate_2. simpl. lia.
  - unfold inode_to_list. rewrite lookup_app_r by (simpl; lia).
    rewrite lookup_app_l by (simpl; lia). rewrite <- Ek. f_equal. simpl. lia.
Qed.

(** Replacing one 4-byte (or 2-byte) field. *)
Lemma set_i_size_ok v : fits 4 v → inode_ok (set_i_size v n).
Proof using Hn.
  intros Hv. destruct Hn as (? & ? & Hf). split_and!; [done..|].
  change (inode_to_list (set_i_size v n)) with (<[2%nat:=v]> (inode_to_list n)).
  change inode_widths with (<[2%nat:=4%nat]> inode_widths). by apply Forall2_insert.
Qed.

Lemma set_i_blocks_ok v : fits 4 v → inode_ok (set_i_blocks v n).
Proof using Hn.
  intros Hv. destruct Hn as (? & ? & Hf). split_and!; [done..|].
  change (inode_to_list (set_i_blocks v n)) with (<[9%nat:=v]> (inode_to_list n)).
  change inode_widths with (<[9%nat:=4%nat]> inode_widths). by apply Forall2_insert.
Qed.

Lemma set_i_links_count_ok v : fits 2 v → inode_ok (set_i_links_count v n).
Proof using Hn.
  intros Hv. destruct Hn as (? & ? & Hf). split_and!; [done..|].
  change (inode_to_list (set_i_links_count v n)) with (<[8%nat:=v]> (inode_to_list n)).
  change inode_widths with (<[8%nat:=2%nat]> inode_widths). by apply Forall2_insert.
Qed.

(** Replacing the pointer array. *)
Lemma set_i_block_ok l :
  length l = 15%nat → Forall (fits 4) l → inode_ok (set_i_block l n).
Proof using Hn.
  intros Hl Hf. destruct Hn as (Hb & ? & Hi). split_and!; [done..|].
  unfold inode_to_list, inode_widths in *.
  apply Forall2_app_inv in Hi as [H1 H2]; [|done].
  apply Forall2_app_inv in H2 as [_ H3]; [|by rewrite length_replicate].
  apply Forall2_app; [exact H1|]. apply Forall2_app; [|exact H3]. change (i_block (set_i_block l n)) with l.
  apply Forall2_same_length_lookup_2; [by rewrite length_replicate, Hl|].
  intros i w v [-> _]%lookup_replicate Hv. by eapply Forall_lookup_1 in Hf.
Qed.

Lemma i_block_fits : Forall (fits 4) (i_block n).
Proof using Hn.
  apply Forall_lookup_2. intros i v Hi.
  pose proof (inode_ok_block (Z.of_nat i)) as Hb. unfold bget in Hb.
  by rewrite Nat2Z.id, Hi in Hb.
Qed.

Lemma set_ptr_ok k v : fits 4 v → inode_ok (set_i_block (bset (i_block n) k v) n).
Proof using Hn.
  intros Hv. apply set_i_block_ok; [by rewrite length_bset; apply Hn|].
  apply Forall_insert; [apply i_block_fits | done].
Qed.
End inode_fields.
