(* ===== verification/Ext2Core.v ===== *)
(** * ext2: block and inode I/O, and the allocators (kernel/ext2.c, 163-450)

    The state of a mounted file system is the mount context and the
    environment (device and heap).  Operations are state-passing functions;
    [true]/[Some] stands for a non-negative return value, [false]/[None] for
    -1.  Scratch buffers are local byte lists: the code reads none of them
    before filling it. *)

From S2P Require Import Prelude Bytes Block Ext2Types.

Record fsys (E : Type) := mk_fsys { mnt : ext2_mount; env : E }.
Arguments mk_fsys {E}.
Arguments mnt {E}.
Arguments env {E}.

(** ** Block range validation *)

Definition ext2_blk_in_range_raw (s : ext2_superblock) (blk : Z) : bool :=
  (blk >=? s_first_data_block s) && (blk <? s_blocks_count s).

Definition ext2_blk_in_range (m : ext2_mount) (blk : Z) : bool :=
  ext2_blk_in_range_raw (m_sb m) blk.

Definition ext2_data_blk_ok (m : ext2_mount) (blk : Z) : bool :=
  (blk =? 0) || ((blk >=? m_first_data_block m) && (blk <? s_blocks_count (m_sb m))).

Definition ext2_inode_pointers_ok (m : ext2_mount) (n : ext2_inode) : bool :=
  forallb (λ i, ext2_data_blk_ok m (bget (i_block n) i)) (seqZ 0 12) &&
  ext2_data_blk_ok m (bget (i_block n) 12) &&
  negb (negb (bget (i_block n) 13 =? 0) || negb (bget (i_block n) 14 =? 0)).

(** [m->sb.s_free_blocks_count += d; m->gd.bg_free_blocks_count += d] at the
    widths of the two fields; likewise for inodes. *)
Definition bump_free_blocks (d : Z) (m : ext2_mount) : ext2_mount :=
  set_m_gd (set_bg_free_blocks_count (u16 (bg_free_blocks_count (m_gd m) + d)) (m_gd m))
    (set_m_sb (set_s_free_blocks_count (u32 (s_free_blocks_count (m_sb m) + d)) (m_sb m)) m).

Definition bump_free_inodes (d : Z) (m : ext2_mount) : ext2_mount :=
  set_m_gd (set_bg_free_inodes_count (u16 (bg_free_inodes_count (m_gd m) + d)) (m_gd m))
    (set_m_sb (set_s_free_inodes_count (u32 (s_free_inodes_count (m_sb m) + d)) (m_sb m)) m).

Section ext2.
Context {E : Type} `{BlockEnv E}.
Local Abbreviation M := (ST (fsys E)).

(** Run a request of the block layer or the heap. *)
Definition on_env {A} (c : ST E A) : M A :=
  λ s, let '(a, e') := c (env s) in (a, mk_fsys (mnt s) e').

Definition on_mnt (f : ext2_mount → ext2_mount) : M unit :=
  modify (λ s, mk_fsys (f (mnt s)) (env s)).

(** [kmalloc(size)], [false] when it returned NULL. *)
Definition kmalloc (size : Z) : M bool := on_env (heap_alloc size).

Definition mutex_lock : M unit := on_mnt (set_m_locked true).
Definition mutex_unlock : M unit := on_mnt (set_m_locked false).

(** ** Block I/O helpers *)

Definition ext2_read_block (blk : Z) : M (option (list Z)) :=
  m ← gets mnt;
  if negb (ext2_blk_in_range m blk) then mret None else
  on_env (block_read (u32 (blk * m_sectors_per_block m)) (m_sectors_per_block m)).

Definition ext2_write_block (blk : Z) (buf : list Z) : M bool :=
  m ← gets mnt;
  if negb (ext2_blk_in_range m blk) then mret false else
  on_env (block_write (u32 (blk * m_sectors_per_block m)) (m_sectors_per_block m) buf).

(** ** Superblock / group descriptor persistence *)

Definition ext2_write_superblock : M bool :=
  m ← gets mnt;
  ok ← kmalloc (m_block_size m);
  if negb ok then mret false else
  r ← ext2_read_block (m_sb_block m);
  match r with
  | None => mret false
  | Some buf => ext2_write_block (m_sb_block m) (splice buf 0 (encode_sb (m_sb m)))
  end.

Definition ext2_write_group_desc : M bool :=
  m ← gets mnt;
  ok ← kmalloc (m_block_size m);
  if negb ok then mret false else
  r ← ext2_read_block (m_gd_block m);
  match r with
  | None => mret false
  | Some buf => ext2_write_block (m_gd_block m) (splice buf 0 (encode_gd (m_gd m)))
  end.

(** ** Inode I/O *)

(** The block and the offset in it of inode [ino] ([None]: out of range). *)
Definition inode_pos (m : ext2_mount) (ino : Z) : option (Z * Z) :=
  if (ino <? 1) || (ino >? s_inodes_count (m_sb m)) then None else
  let idx := u32 (ino - 1) in
  let off := u32 (idx * m_inode_size m) in
  let blk := u32 (m_inode_table_block m + off / m_block_size m) in
  let in_block := off mod m_block_size m in
  if blk >=? u32 (m_inode_table_block m + m_inode_table_blocks m) then None
  else Some (blk, in_block).

Definition ext2_read_inode (ino : Z) : M (option ext2_inode) :=
  m ← gets mnt;
  match inode_pos m ino with
  | None => mret None
  | Some (blk, in_block) =>
      ok ← kmalloc (m_block_size m);
      if negb ok then mret None else
      r ← ext2_read_block blk;
      match r with
      | None => mret None
      | Some buf => mret (Some (decode_inode (slice buf in_block 128)))
      end
  end.

Definition ext2_write_inode (ino : Z) (n : ext2_inode) : M bool :=
  m ← gets mnt;
  match inode_pos m ino with
  | None => mret false
  | Some (blk, in_block) =>
      ok ← kmalloc (m_block_size m);
      if negb ok then mret false else
      r ← ext2_read_block blk;
      match r with
      | None => mret false
      | Some buf => ext2_write_block blk (splice buf in_block (encode_inode n))
      end
  end.

(** ** Block / inode allocation *)

(** [!(ext2_write_superblock(m) < 0 || ext2_write_group_desc(m) < 0)]. *)
Definition flush_counts : M bool :=
  ok ← ext2_write_superblock;
  if negb ok then mret false else ext2_write_group_desc.

Definition add_free_blocks (d : Z) : M unit := on_mnt (bump_free_blocks d).
Definition add_free_inodes (d : Z) : M unit := on_mnt (bump_free_inodes d).

(** The update phase of ext2_alloc_block, once bit [i] of the bitmap [bm]
    was found clear: mark it, zero the block, count down; undo on failure. *)
Definition alloc_block_commit (m : ext2_mount) (bm : list Z) (i blk : Z) : M Z :=
  let bm1 := bm_set bm i in
  wr ← ext2_write_block (bg_block_bitmap (m_gd m)) bm1;
  if negb wr then mret 0 else
  zok ← kmalloc (m_block_size m);
  if negb zok then
    _ ← ext2_write_block (bg_block_bitmap (m_gd m)) (bm_clear bm1 i);
    mret 0
  else
  zr ← ext2_write_block blk (memset_buf 0 (m_block_size m));
  if negb zr then
    _ ← ext2_write_block (bg_block_bitmap (m_gd m)) (bm_clear bm1 i);
    mret 0
  else
  _ ← add_free_blocks (-1);
  fl ← flush_counts;
  if negb fl then
    _ ← add_free_blocks 1;
    _ ← ext2_write_superblock;
    _ ← ext2_write_group_desc;
    _ ← ext2_write_block (bg_block_bitmap (m_gd m)) (bm_clear bm1 i);
    mret 0
  else mret blk.

Definition ext2_alloc_block : M Z :=
  m ← gets mnt;
  if (s_free_blocks_count (m_sb m) =? 0) || (bg_free_blocks_count (m_gd m) =? 0)
  then mret 0 else
  ok ← kmalloc (m_block_size m);
  if negb ok then mret 0 else
  r ← ext2_read_block (bg_block_bitmap (m_gd m));
  match r with
  | None => mret 0
  | Some bm =>
      let total := u32 (s_blocks_count (m_sb m) - s_first_data_block (m_sb m)) in
      match first_clear (Z.to_nat (total - m_alloc_start_bit m)) bm (m_alloc_start_bit m) with
      | None => mret 0
      | Some i =>
          let blk := u32 (i + s_first_data_block (m_sb m)) in
          if negb (ext2_data_blk_ok m blk) || (blk >=? s_blocks_count (m_sb m))
          then mret 0 else
          alloc_block_commit m bm i blk
      end
  end.

Definition ext2_free_block (blk : Z) : M unit :=
  m ← gets mnt;
  if (blk =? 0) || negb (ext2_data_blk_ok m blk) then mret tt else
  let bit := u32 (blk - s_first_data_block (m_sb m)) in
  ok ← kmalloc (m_block_size m);
  if negb ok then mret tt else
  r ← ext2_read_block (bg_block_bitmap (m_gd m));
  match r with
  | None => mret tt
  | Some bm =>
      if bm_test bm bit then
        wr ← ext2_write_block (bg_block_bitmap (m_gd m)) (bm_clear bm bit);
        if negb wr then mret tt else
        _ ← add_free_blocks 1;
        fl ← flush_counts;
        if negb fl then
          _ ← add_free_blocks (-1);
          _ ← ext2_write_superblock;
          _ ← ext2_write_group_desc;
          mret tt
        else mret tt
      else mret tt
  end.

(** The update phase of ext2_alloc_inode. *)
Definition alloc_inode_commit (m : ext2_mount) (bm : list Z) (i : Z) : M Z :=
  let bm1 := bm_set bm i in
  wr ← ext2_write_block (bg_inode_bitmap (m_gd m)) bm1;
  if negb wr then mret 0 else
  _ ← add_free_inodes (-1);
  fl ← flush_counts;
  if negb fl then
    _ ← add_free_inodes 1;
    _ ← ext2_write_superblock;
    _ ← ext2_write_group_desc;
    _ ← ext2_write_block (bg_inode_bitmap (m_gd m)) (bm_clear bm1 i);
    mret 0
  else mret (u32 (i + 1)).

Definition ext2_alloc_inode : M Z :=
  m ← gets mnt;
  if (s_free_inodes_count (m_sb m) =? 0) || (bg_free_inodes_count (m_gd m) =? 0)
  then mret 0 else
  ok ← kmalloc (m_block_size m);
  if negb ok then mret 0 else
  r ← ext2_read_block (bg_inode_bitmap (m_gd m));
  match r with
  | None => mret 0
  | Some bm =>
      let total := s_inodes_count (m_sb m) in
      match first_clear (Z.to_nat (total - (EXT2_FIRST_NORMAL_INO - 1))) bm
              (EXT2_FIRST_NORMAL_INO - 1) with
      | None => mret 0
      | Some i =>
          alloc_inode_commit m bm i
      end
  end.

Definition ext2_free_inode (ino : Z) : M unit :=
  m ← gets mnt;
  if (ino <? 1) || (ino >? s_inodes_count (m_sb m)) then mret tt else
  let bit := u32 (ino - 1) in
  ok ← kmalloc (m_block_size m);
  if negb ok then mret tt else
  r ← ext2_read_block (bg_inode_bitmap (m_gd m));
  match r with
  | None => mret tt
  | Some bm =>
      if bm_test bm bit then
        wr ← ext2_write_block (bg_inode_bitmap (m_gd m)) (bm_clear bm bit);
        if negb wr then mret tt else
        _ ← add_free_inodes 1;
        fl ← flush_counts;
        if negb fl then
          _ ← add_free_inodes (-1);
          _ ← ext2_write_superblock;
          _ ← ext2_write_group_desc;
          mret tt
        else mret tt
      else mret tt
  end.
End ext2.

(** * ext2: the invariant of a mounted volume and its frame conditions

    [mount_ok] is the geometry ext2_mount establishes and every operation
    keeps; [fs_ok] adds that the volume fits the device.  [frame P s s'] says
    that an operation kept the invariant and the geometry and changed at most
    the blocks in [P], whatever faults the device had.  The specifications of
    the block, superblock, descriptor and inode I/O follow. *)

(** ** Geometry *)

(** The fields no operation changes after mount. *)
Record geom := mk_geom {
  g_inodes : Z; g_blocks : Z; g_first : Z;
  g_bb : Z; g_ib : Z; g_it : Z; g_itb : Z;
  g_bs : Z; g_spb : Z; g_isz : Z; g_itblk : Z;
  g_fdb : Z; g_asb : Z; g_sbb : Z; g_gdb : Z; g_ncs : Z;
}.

Definition geom_of (m : ext2_mount) : geom := {|
  g_inodes := s_inodes_count (m_sb m);
  g_blocks := s_blocks_count (m_sb m);
  g_first := s_first_data_block (m_sb m);
  g_bb := bg_block_bitmap (m_gd m);
  g_ib := bg_inode_bitmap (m_gd m);
  g_it := bg_inode_table (m_gd m);
  g_itb := m_inode_table_blocks m;
  g_bs := m_block_size m;
  g_spb := m_sectors_per_block m;
  g_isz := m_inode_size m;
  g_itblk := m_inode_table_block m;
  g_fdb := m_first_data_block m;
  g_asb := m_alloc_start_bit m;
  g_sbb := m_sb_block m;
  g_gdb := m_gd_block m;
  g_ncs := m_node_cache_size m;
|}.

(** What the checks of ext2_mount guarantee. *)
Record geom_ok (g : geom) : Prop := {
  go_bs : g_bs g = 1024;
  go_spb : g_spb g = 2;
  go_isz : g_isz g = 128;
  go_first : g_first g = 1;
  go_sbb : g_sbb g = 1;
  go_gdb : g_gdb g = 2;
  go_blocks : 7 ≤ g_blocks g ≤ 8193;
  go_inodes : 11 ≤ g_inodes g ≤ 8192;
  go_ncs : g_ncs g = g_inodes g;
  go_itblk : g_itblk g = g_it g;
  go_itb : g_inodes g * 128 ≤ g_itb g * 1024;
  go_itb0 : 0 < g_itb g;
  go_bb : 3 ≤ g_bb g < g_fdb g;
  go_ib : 3 ≤ g_ib g < g_fdb g;
  go_it : 3 ≤ g_it g;
  go_it_end : g_it g + g_itb g ≤ g_fdb g;
  go_bb_ib : g_bb g ≠ g_ib g;
  go_bb_it : ¬ (g_it g ≤ g_bb g < g_it g + g_itb g);
  go_ib_it : ¬ (g_it g ≤ g_ib g < g_it g + g_itb g);
  go_fdb : g_fdb g ≤ g_blocks g;
  go_asb : g_asb g = g_fdb g - 1;
}.

Definition mount_ok (m : ext2_mount) : Prop :=
  geom_ok (geom_of m) ∧ sb_ok (m_sb m) ∧ gd_ok (m_gd m).

(** Data blocks of the volume. *)
Definition is_data (g : geom) (b : Z) : Prop := g_fdb g ≤ b < g_blocks g.

Lemma data_blk_ok_spec m b :
  ext2_data_blk_ok m b = true ↔ b = 0 ∨ is_data (geom_of m) b.
Proof.
  unfold ext2_data_blk_ok, is_data. simpl.
  rewrite orb_true_iff, andb_true_iff, Z.eqb_eq, Z.geb_le, Z.ltb_lt. lia.
Qed.

(** The data-block test depends on the geometry only. *)
Lemma data_blk_ok_geom m m' b :
  geom_of m' = geom_of m → ext2_data_blk_ok m' b = ext2_data_blk_ok m b.
Proof.
  intros H. apply eq_true_iff_eq. rewrite !data_blk_ok_spec, H. done.
Qed.

Lemma inode_pointers_geom m m' n :
  geom_of m' = geom_of m → ext2_inode_pointers_ok m' n = ext2_inode_pointers_ok m n.
Proof.
  intros Hg. unfold ext2_inode_pointers_ok. rewrite (data_blk_ok_geom m m') by done.
  do 2 f_equal. generalize (seqZ 0 12). intros l. induction l as [|x l IH]; [done|].
  cbn [forallb]. by rewrite IH, (data_blk_ok_geom m m').
Qed.

Section inv.
Context {E : Type} `{BlockEnvOk E}.
Implicit Types s : fsys E.

(** Block [b] of the medium: two sectors. *)
Definition blk (e : E) (b : Z) : list Z :=
  dev_disk e (2 * b) ++ dev_disk e (2 * b + 1).

Lemma length_blk e b : length (blk e b) = 1024%nat.
Proof.
  unfold blk. rewrite length_app.
  by rewrite (proj1 (dev_disk_ok _ _)), (proj1 (dev_disk_ok _ _)).
Qed.

Lemma zlength_blk e b : zlength (blk e b) = 1024.
Proof. unfold zlength. by rewrite length_blk. Qed.

Lemma blk_bytes e b : bytes_ok (blk e b).
Proof. apply bytes_ok_app. split; apply dev_disk_ok. Qed.

Definition fs_ok s : Prop :=
  mount_ok (mnt s) ∧ 2 * s_blocks_count (m_sb (mnt s)) ≤ dev_sectors (env s).

(** The invariant and the geometry are kept, and only blocks in [P] may
    have changed. *)
Record frame (P : Z → Prop) s s' : Prop := {
  fr_ok : fs_ok s';
  fr_geom : geom_of (mnt s') = geom_of (mnt s);
  fr_lock : m_locked (mnt s') = m_locked (mnt s);
  fr_blk b : ¬ P b → blk (env s') b = blk (env s) b;
  fr_rel : reliable (env s) → reliable (env s');
}.

Lemma frame_refl P s : fs_ok s → frame P s s.
Proof. by constructor. Qed.

Lemma frame_trans (P Q R : Z → Prop) s1 s2 s3 :
  frame P s1 s2 → frame Q s2 s3 → (∀ b, P b ∨ Q b → R b) → frame R s1 s3.
Proof.
  intros [? G1 L1 B1 R1] [? G2 L2 B2 R2] HR. constructor; auto; try congruence.
  intros b Hb. rewrite B2, B1 by naive_solver. done.
Qed.

Lemma frame_mono (P Q : Z → Prop) s s' :
  frame P s s' → (∀ b, P b → Q b) → frame Q s s'.
Proof. intros [] HQ. constructor; auto. Qed.

(** [frame] for changes of the mount context alone. *)
Lemma frame_mnt P s m' :
  fs_ok s → geom_of m' = geom_of (mnt s) → m_locked m' = m_locked (mnt s) →
  sb_ok (m_sb m') → gd_ok (m_gd m') → frame P s (mk_fsys m' (env s)).
Proof.
  intros [(Hg & ? & ?) Hd] Hgeo ? ? ?. constructor; simpl; auto.
  split; cbn [mnt env]; [split; [by rewrite Hgeo | done]|].
  replace (s_blocks_count (m_sb m')) with (s_blocks_count (m_sb (mnt s))); [done|].
  by apply (f_equal g_blocks) in Hgeo.
Qed.

(** ** Requests to the environment *)

Lemma wp_on_env {A} (c : ST E A) s Q :
  (∀ a e', c (env s) = (a, e') → Q a (mk_fsys (mnt s) e')) → wp (on_env c) s Q.
Proof.
  intros HQ. unfold wp, on_env. destruct (c (env s)) as [a e'] eqn:Hc. simpl. by apply HQ.
Qed.

Lemma wp_kmalloc sz s :
  fs_ok s →
  wp (kmalloc sz) s (λ ok s', frame (λ _, False) s s' ∧ mnt s' = mnt s ∧
                              (reliable (env s) → ok = true)).
Proof.
  intros [Hm Hd]. apply wp_on_env. intros ok e' Hc.
  destruct (heap_alloc_spec _ _ _ _ Hc) as [Hs Hk].
  pose proof (reliable_alloc (env s) sz) as Hr. rewrite Hc in Hr; simpl in Hr.
  split; [|split; [done | intros Hre; apply (Hr Hre)]]. constructor; simpl; auto.
  - split; simpl; [done | by rewrite Hs].
  - intros b _. unfold blk. by rewrite !Hk.
  - intros Hre. apply (Hr Hre).
Qed.

(** ** Block I/O *)

Definition in_vol (g : geom) (b : Z) : Prop := 1 ≤ b < g_blocks g.

Lemma blk_in_range_spec m b :
  mount_ok m → ext2_blk_in_range m b = true ↔ in_vol (geom_of m) b.
Proof.
  intros [Hg _]. unfold ext2_blk_in_range, ext2_blk_in_range_raw, in_vol.
  rewrite andb_true_iff, Z.geb_le, Z.ltb_lt. pose proof (go_first _ Hg). simpl in *. lia.
Qed.

(** The request for a block of the volume passes the block layer's check. *)
Lemma vol_range_ok s b :
  fs_ok s → in_vol (geom_of (mnt s)) b →
  u32 (b * m_sectors_per_block (mnt s)) = 2 * b ∧
  m_sectors_per_block (mnt s) = 2 ∧
  block_range_ok (dev_sectors (env s)) (2 * b) 2 = true.
Proof.
  intros [[Hg _] Hd] Hb. unfold in_vol in Hb. simpl in Hb.
  pose proof (go_spb _ Hg) as Hspb. pose proof (go_blocks _ Hg) as Hbl. simpl in *.
  rewrite Hspb. split; [|split; [done|]].
  - rewrite u32_small; lia.
  - apply block_range_ok_spec; [apply dev_sectors_range | lia..].
Qed.

Lemma wp_read_block b s :
  fs_ok s →
  wp (ext2_read_block b) s (λ r s',
    frame (λ _, False) s s' ∧ mnt s' = mnt s ∧
    (∀ buf, r = Some buf → in_vol (geom_of (mnt s)) b ∧ buf = blk (env s) b) ∧
    (reliable (env s) → in_vol (geom_of (mnt s)) b → r ≠ None)).
Proof.
  intros Hs. apply wp_bind, wp_gets.
  destruct (ext2_blk_in_range (mnt s) b) eqn:Er; simpl.
  2:{ apply wp_ret. split; [by apply frame_refl|]. split; [done|]. split; [done|].
      intros _ Hb. apply (blk_in_range_spec _ b (proj1 Hs)) in Hb. congruence. }
  apply blk_in_range_spec in Er; [|apply Hs].
  destruct (vol_range_ok s b Hs Er) as (-> & -> & Hok).
  apply wp_on_env. intros r e' Hc. unfold block_read in Hc. rewrite Hok in Hc.
  apply block_range_ok_spec in Hok; [|apply dev_sectors_range | unfold in_vol in Er; lia..].
  apply dev_read_spec in Hc as Hd; [|unfold in_vol in Er; lia|lia]. destruct Hd as (Hsec & Hk & Hr).
  pose proof (reliable_read (env s) (2 * b) 2) as Hrel. rewrite Hc in Hrel.
  unfold in_vol in Er.
  split; [|split; [done|split]].
  - constructor; simpl; auto.
    + destruct Hs as [? ?]. split; simpl; [done | by rewrite Hsec].
    + intros b' _. unfold blk. by rewrite !Hk.
    + intros Hr0. apply Hrel; [done | lia..].
  - intros buf ->. split; [done|]. rewrite (Hr buf eq_refl). unfold blk.
    change (Z.to_nat 2) with 2%nat. cbn [sectors_at]. by rewrite app_nil_r.
  - intros Hr0 _. apply Hrel; [done | lia..].
Qed.

Lemma wp_write_block b buf s :
  fs_ok s → bytes_ok buf → length buf = 1024%nat →
  wp (ext2_write_block b buf) s (λ ok s',
    frame (λ x, x = b) s s' ∧ mnt s' = mnt s ∧
    (ok = true → in_vol (geom_of (mnt s)) b ∧ blk (env s') b = buf) ∧
    (reliable (env s) → in_vol (geom_of (mnt s)) b → ok = true)).
Proof.
  intros Hs Hbuf Hlen. apply wp_bind, wp_gets.
  destruct (ext2_blk_in_range (mnt s) b) eqn:Er; simpl.
  2:{ apply wp_ret. split; [by apply frame_refl|]. split; [done|]. split; [done|].
      intros _ Hb. apply (blk_in_range_spec _ b (proj1 Hs)) in Hb. congruence. }
  apply blk_in_range_spec in Er; [|apply Hs].
  destruct (vol_range_ok s b Hs Er) as (-> & -> & Hok).
  apply wp_on_env. intros ok e' Hc. unfold block_write in Hc. rewrite Hok in Hc.
  apply block_range_ok_spec in Hok; [|apply dev_sectors_range | unfold in_vol in Er; lia..].
  apply dev_write_spec in Hc as Hw; [|unfold in_vol in Er; lia|lia|done|unfold zlength; lia].
  destruct Hw as (Hsec & Hout & Hin).
  pose proof (reliable_write (env s) (2 * b) 2 buf) as Hrel. rewrite Hc in Hrel.
  unfold in_vol in Er.
  split; [|split; [done|split]].
  - constructor; simpl; auto.
    + destruct Hs as [? ?]. split; simpl; [done | by rewrite Hsec].
    + intros b' Hb'. unfold blk. by rewrite !Hout by lia.
    + intros Hr0. apply Hrel; [done | lia..].
  - intros ->. split; [done|]. unfold blk; simpl.
    rewrite <- (Z.add_0_r (2 * b)) at 1. rewrite !Hin by (done || lia).
    unfold slice. change (Z.to_nat 512) with 512%nat.
    change (Z.to_nat (512 * 0)) with 0%nat. change (Z.to_nat (512 * 1)) with 512%nat.
    rewrite (take_ge (drop 512 buf)) by (rewrite length_drop; lia).
    apply take_drop.
  - intros Hr0 _. apply Hrel; [done | lia..].
Qed.
End inv.

(** Composition of frames, with the union of the written blocks. *)
Lemma frame_app {E} `{BlockEnvOk E} P Q (s1 s2 s3 : fsys E) :
  frame P s1 s2 → frame Q s2 s3 → frame (λ b, P b ∨ Q b) s1 s3.
Proof. intros F1 F2. eapply frame_trans; [exact F1 | exact F2 | done]. Qed.

Lemma frame_same {E} `{BlockEnvOk E} (s s' : fsys E) b :
  frame (λ _, False) s s' → blk (env s') b = blk (env s) b.
Proof. intros F. apply (fr_blk _ _ _ F). by intros []. Qed.

Ltac frame_build :=
  match goal with
  | F : frame _ ?s ?s' |- frame _ ?s ?s' => exact F
  | F : frame _ ?m ?s' |- frame _ _ ?s' => eapply frame_app; [|exact F]; frame_build
  end.

(** Prove a frame from the frames of the calls in the context. *)
Ltac frame_tac :=
  eapply frame_mono; [frame_build | cbn beta;
    first [clear; intros ? ?; cbn beta in *; tauto | idtac]].

(** Find the invariant, or that the device stayed reliable, from frames. *)
Ltac frame_fact :=
  match goal with
  | |- fs_ok ?s => assumption
  | F : frame _ _ ?s |- fs_ok ?s => exact (fr_ok _ _ _ F)
  | |- reliable _ => assumption
  | F : frame _ _ ?s |- reliable (env ?s) => apply (fr_rel _ _ _ F); frame_fact
  end.

(** Inclusion of one set of blocks in another. *)
Ltac in_frame := intros ?b ?Hb; cbn beta in *; intuition auto.

(** Step over a call whose specification is [spec]. *)
Ltac wp_call spec :=
  apply wp_bind; eapply wp_mono; [apply spec; first [frame_fact | solve [eauto] | idtac]|].
