(* ===== verification/Ext2Alloc.v ===== *)
(** * ext2: specifications of metadata I/O and of the allocators

    Under every fault schedule: superblock, descriptor and inode writes touch
    one block; the block allocator touches only the two counters' blocks, the
    bitmap and blocks it found free; a block it returns is a data block that
    was free, is marked and zeroed, and the counters follow. *)

From S2P Require Import Prelude Bytes Block Ext2Types Ext2Core.

Section meta.
Context {E : Type} `{BlockEnvOk E}.
Implicit Types s : fsys E.

(** The read-modify-write of one block that the superblock, descriptor and
    inode writers share. *)
Lemma wp_rmw sz b off data s :
  fs_ok s → bytes_ok data →
  wp (ok ← kmalloc sz;
      if negb ok then mret false else
      r ← ext2_read_block b;
      match r with
      | None => mret false
      | Some buf => ext2_write_block b (splice buf off data)
      end) s (λ ok s',
    frame (λ x, x = b) s s' ∧ mnt s' = mnt s ∧
    (ok = true → in_vol (geom_of (mnt s)) b ∧
                 blk (env s') b = splice (blk (env s) b) off data) ∧
    (reliable (env s) → in_vol (geom_of (mnt s)) b → ok = true)).
Proof.
  intros Hs Hd. wp_call wp_kmalloc. intros ok s1 (F1 & M1 & R1).
  destruct ok; simpl; [|apply wp_ret; split; [frame_tac|]; naive_solver].
  wp_call wp_read_block. intros r s2 (F2 & M2 & B2 & R2).
  destruct r as [buf|].
  2:{ apply wp_ret. split; [frame_tac|]. split; [congruence|]. split; [done|].
      intros Hr Hv. exfalso. apply R2; [by apply F1 | by rewrite M1 | done]. }
  destruct (B2 buf eq_refl) as [Hv ->]. eapply wp_mono.
  { apply wp_write_block; [apply F2 | |].
    - by apply Forall_splice; [apply blk_bytes|].
    - by rewrite length_splice, length_blk. }
  intros ok s3 (F3 & M3 & B3 & R3).
  split; [frame_tac|]. split; [congruence|]. split.
  - intros Hok. split; [by rewrite <- M1|].
    by rewrite (proj2 (B3 Hok)), (frame_same _ _ _ F1).
  - intros Hr Hv'. apply R3; [by apply F2, F1 | congruence].
Qed.

Lemma wp_write_superblock s :
  fs_ok s →
  wp ext2_write_superblock s (λ ok s',
    frame (λ x, x = 1) s s' ∧ mnt s' = mnt s ∧
    (ok = true → blk (env s') 1 = splice (blk (env s) 1) 0 (encode_sb (m_sb (mnt s)))) ∧
    (reliable (env s) → ok = true)).
Proof.
  intros Hs. pose proof (proj1 (proj1 Hs)) as Hg. apply wp_bind, wp_gets.
  replace (m_sb_block (mnt s)) with 1 by (symmetry; apply (go_sbb _ Hg)).
  eapply wp_mono; [apply wp_rmw; [done | apply enc_fields_bytes]|].
  intros ok s' (F & M & B & R). split_and!; [done..| |].
  - intros Hok. by apply B.
  - intros Hr. apply R; [done|]. pose proof (go_blocks _ Hg). unfold in_vol. lia.
Qed.

Lemma wp_write_group_desc s :
  fs_ok s →
  wp ext2_write_group_desc s (λ ok s',
    frame (λ x, x = 2) s s' ∧ mnt s' = mnt s ∧
    (ok = true → blk (env s') 2 = splice (blk (env s) 2) 0 (encode_gd (m_gd (mnt s)))) ∧
    (reliable (env s) → ok = true)).
Proof.
  intros Hs. pose proof (proj1 (proj1 Hs)) as Hg. apply wp_bind, wp_gets.
  replace (m_gd_block (mnt s)) with 2 by (symmetry; apply (go_gdb _ Hg)).
  eapply wp_mono; [apply wp_rmw; [done | apply enc_fields_bytes]|].
  intros ok s' (F & M & B & R). split_and!; [done..| |].
  - intros Hok. by apply B.
  - intros Hr. apply R; [done|]. pose proof (go_blocks _ Hg). unfold in_vol. lia.
Qed.

(** The superblock and descriptor on disk mirror the mount context. *)
Definition counts_synced s : Prop :=
  (∃ rest, blk (env s) 1 = encode_sb (m_sb (mnt s)) ++ rest) ∧
  (∃ rest, blk (env s) 2 = encode_gd (m_gd (mnt s)) ++ rest).

Lemma splice_front (l k : list Z) :
  (length k ≤ length l)%nat → ∃ rest, splice l 0 k = k ++ rest.
Proof.
  intros Hl. exists (drop (length k) (splice l 0 k)).
  rewrite <- (take_drop (length k) (splice l 0 k)) at 1. f_equal.
  pose proof (slice_splice_eq l 0 k) as Hs. unfold slice, zlength in Hs.
  rewrite Nat2Z.id in Hs. apply Hs; lia.
Qed.

Lemma wp_flush_counts s :
  fs_ok s →
  wp flush_counts s (λ ok s',
    frame (λ x, x = 1 ∨ x = 2) s s' ∧ mnt s' = mnt s ∧
    (ok = true → counts_synced s') ∧ (reliable (env s) → ok = true)).
Proof.
  intros Hs. unfold flush_counts. wp_call wp_write_superblock.
  intros ok s1 (F1 & M1 & B1 & R1).
  destruct ok; simpl; [|apply wp_ret; split; [frame_tac|]; naive_solver].
  eapply wp_mono; [apply wp_write_group_desc; apply F1|].
  intros ok s2 (F2 & M2 & B2 & R2). split_and!; [frame_tac | congruence | |].
  - intros Hok. split.
    + rewrite (fr_blk _ _ _ F2), (B1 eq_refl), M2, M1 by done.
      apply splice_front. rewrite length_blk, length_encode_sb. lia.
    + rewrite (B2 Hok), M2.
      apply splice_front. rewrite length_blk, length_encode_gd. lia.
  - intros Hr. apply R2. by apply F1.
Qed.

(** ** Inodes *)

Section inode_pos.
Context (m : ext2_mount) (Hm : geom_ok (geom_of m)).

(** Every inode number of the volume has a slot in the inode table, and
    no other number has one. *)
Lemma inode_pos_spec ino :
  1 ≤ ino ≤ s_inodes_count (m_sb m) →
  inode_pos m ino = Some (bg_inode_table (m_gd m) + (ino - 1) / 8, (ino - 1) mod 8 * 128).
Proof using Hm.
  intros Hi. unfold inode_pos.
  pose proof (go_bs _ Hm) as Ebs. pose proof (go_isz _ Hm) as Eisz.
  pose proof (go_itblk _ Hm) as Eit. pose proof (go_itb _ Hm).
  pose proof (go_inodes _ Hm). pose proof (go_it _ Hm).
  pose proof (go_it_end _ Hm). pose proof (go_fdb _ Hm). pose proof (go_blocks _ Hm).
  simpl in *.
  replace (ino <? 1) with false by (symmetry; apply Z.ltb_ge; lia).
  replace (ino >? s_inodes_count (m_sb m)) with false
    by (symmetry; rewrite Z.gtb_ltb; apply Z.ltb_ge; lia). simpl.
  rewrite Ebs, Eisz, Eit.
  assert ((ino - 1) * 128 / 1024 = (ino - 1) / 8) as Hdiv by zdm.
  assert ((ino - 1) * 128 mod 1024 = (ino - 1) mod 8 * 128) as Hmod by zdm.
  rewrite (u32_small (ino - 1)), (u32_small ((ino - 1) * 128)), Hdiv, Hmod by lia.
  assert (0 ≤ (ino - 1) / 8 < m_inode_table_blocks m) by zdm.
  rewrite !u32_small by lia.
  replace (_ >=? _) with false; [done|].
  symmetry. rewrite Z.geb_leb. apply Z.leb_gt. lia.
Qed.

Lemma inode_pos_None ino :
  ¬ (1 ≤ ino ≤ s_inodes_count (m_sb m)) → inode_pos m ino = None.
Proof using.
  intros Hi. unfold inode_pos. case_if; [done|]. lia.
Qed.

Lemma inode_pos_inj i j p :
  inode_pos m i = Some p → inode_pos m j = Some p → i = j.
Proof using Hm.
  intros Hi Hj.
  destruct (decide (1 ≤ i ≤ s_inodes_count (m_sb m))) as [?|N];
    [|by rewrite inode_pos_None in Hi].
  destruct (decide (1 ≤ j ≤ s_inodes_count (m_sb m))) as [?|N];
    [|by rewrite inode_pos_None in Hj].
  rewrite inode_pos_spec in Hi, Hj by lia. simplify_eq. zdm.
Qed.
End inode_pos.

(** The inode the disk holds for [ino]. *)
Definition disk_inode s (ino : Z) : ext2_inode :=
  let g := geom_of (mnt s) in
  decode_inode (slice (blk (env s) (g_it g + (ino - 1) / 8)) ((ino - 1) mod 8 * 128) 128).

Definition valid_ino (g : geom) (ino : Z) : Prop := 1 ≤ ino ≤ g_inodes g.

Lemma disk_inode_ok s ino : inode_ok (disk_inode s ino).
Proof.
  unfold disk_inode. apply decode_inode_ok.
  - apply bytes_ok_take, bytes_ok_drop, blk_bytes.
  - rewrite length_slice; rewrite ?zlength_blk; zdm.
Qed.

(** The block of an inode-table slot is in the volume, in the table. *)
Lemma inode_blk_vol g ino :
  geom_ok g → valid_ino g ino →
  in_vol g (g_it g + (ino - 1) / 8) ∧
  g_it g ≤ g_it g + (ino - 1) / 8 < g_it g + g_itb g.
Proof. intros [] Hi. unfold in_vol, valid_ino in *. split; zdm. Qed.

Lemma wp_read_inode ino s :
  fs_ok s →
  wp (ext2_read_inode ino) s (λ r s',
    frame (λ _, False) s s' ∧ mnt s' = mnt s ∧
    (∀ n, r = Some n → valid_ino (geom_of (mnt s)) ino ∧ n = disk_inode s ino) ∧
    (reliable (env s) → valid_ino (geom_of (mnt s)) ino → r ≠ None)).
Proof.
  intros Hs. pose proof (proj1 (proj1 Hs)) as Hg. apply wp_bind, wp_gets.
  destruct (decide (valid_ino (geom_of (mnt s)) ino)) as [Hi|Hi].
  2:{ rewrite inode_pos_None by done. apply wp_ret.
      split; [by apply frame_refl|]. naive_solver. }
  rewrite inode_pos_spec by done.
  wp_call wp_kmalloc. intros ok s1 (F1 & M1 & R1).
  destruct ok; simpl; [|apply wp_ret; split; [frame_tac|]; naive_solver].
  wp_call wp_read_block. intros r s2 (F2 & M2 & B2 & R2).
  destruct r as [buf|]; apply wp_ret; split_and!; try (frame_tac || congruence || done).
  - intros n [= <-]. split; [done|]. rewrite (proj2 (B2 buf eq_refl)).
    by rewrite (frame_same _ _ _ F1).
  - intros Hr _. exfalso. apply R2; [by apply F1| |done]. rewrite M1.
    by apply (inode_blk_vol (geom_of (mnt s))).
Qed.

Lemma wp_write_inode ino n s :
  fs_ok s → inode_ok n →
  wp (ext2_write_inode ino n) s (λ ok s',
    frame (λ b, valid_ino (geom_of (mnt s)) ino ∧
                b = g_it (geom_of (mnt s)) + (ino - 1) / 8) s s' ∧
    mnt s' = mnt s ∧
    (ok = true → valid_ino (geom_of (mnt s)) ino ∧ disk_inode s' ino = n ∧
       ∀ j, valid_ino (geom_of (mnt s)) j → j ≠ ino → disk_inode s' j = disk_inode s j) ∧
    (reliable (env s) → valid_ino (geom_of (mnt s)) ino → ok = true)).
Proof.
  intros Hs Hn. pose proof (proj1 (proj1 Hs)) as Hg. apply wp_bind, wp_gets.
  destruct (decide (valid_ino (geom_of (mnt s)) ino)) as [Hi|Hi].
  2:{ rewrite inode_pos_None by done. apply wp_ret.
      split; [by apply frame_refl|]. naive_solver. }
  rewrite inode_pos_spec by done. destruct (inode_blk_vol _ _ Hg Hi) as [Hv Ht].
  eapply wp_mono; [apply wp_rmw; [done | apply enc_fields_bytes]|].
  intros ok s' (F & M & B & R). simpl in *.
  assert (zlength (encode_inode n) = 128) as Hl
    by (unfold zlength; by rewrite length_encode_inode).
  split_and!; [|done| |].
  - eapply frame_mono; [exact F|]. simpl. by intros b ->.
  - intros Hok. destruct (B Hok) as [_ HB]. split; [done|].
    unfold disk_inode. rewrite M. simpl. split.
    + rewrite HB, <- Hl, slice_splice_eq by (rewrite ?zlength_blk, ?Hl; zdm).
      rewrite <- (app_nil_r (encode_inode n)). by apply decode_encode_inode.
    + intros j Hj Hne.
      destruct (decide ((j - 1) / 8 = (ino - 1) / 8)) as [Eq|Ne].
      * rewrite Eq, HB, slice_splice_ne by (rewrite ?Hl; zdm). done.
      * rewrite (fr_blk _ _ _ F) by lia. done.
  - intros Hr _. by apply R.
Qed.
End meta.

(** ** The counters *)

Lemma set_free_blocks_sb_ok v sb :
  sb_ok sb → fits 4 v → sb_ok (set_s_free_blocks_count v sb).
Proof.
  unfold sb_ok. intros Hf Hv.
  change (sb_to_list (set_s_free_blocks_count v sb)) with (<[3%nat:=v]> (sb_to_list sb)).
  change sb_widths with (<[3%nat:=4%nat]> sb_widths). by apply Forall2_insert.
Qed.

Lemma set_free_inodes_sb_ok v sb :
  sb_ok sb → fits 4 v → sb_ok (set_s_free_inodes_count v sb).
Proof.
  unfold sb_ok. intros Hf Hv.
  change (sb_to_list (set_s_free_inodes_count v sb)) with (<[4%nat:=v]> (sb_to_list sb)).
  change sb_widths with (<[4%nat:=4%nat]> sb_widths). by apply Forall2_insert.
Qed.

Lemma set_gd_ok g fb fi ud :
  gd_ok g → fits 2 fb → fits 2 fi → fits 2 ud →
  gd_ok (set_bg_free_blocks_count fb g) ∧ gd_ok (set_bg_free_inodes_count fi g) ∧
  gd_ok (set_bg_used_dirs_count ud g).
Proof.
  unfold gd_ok. intros Hf ? ? ?.
  change (gd_to_list (set_bg_free_blocks_count fb g)) with (<[3%nat:=fb]> (gd_to_list g)).
  change (gd_to_list (set_bg_free_inodes_count fi g)) with (<[4%nat:=fi]> (gd_to_list g)).
  change (gd_to_list (set_bg_used_dirs_count ud g)) with (<[5%nat:=ud]> (gd_to_list g)).
  split_and!.
  - change gd_widths with (<[3%nat:=2%nat]> gd_widths). by apply Forall2_insert.
  - change gd_widths with (<[4%nat:=2%nat]> gd_widths). by apply Forall2_insert.
  - change gd_widths with (<[5%nat:=2%nat]> gd_widths). by apply Forall2_insert.
Qed.

Lemma fits_u32 x : fits 4 (u32 x).
Proof. apply u32_range. Qed.

Lemma fits_u16 x : fits 2 (u16 x).
Proof. apply u16_range. Qed.

#[export] Hint Resolve fits_u32 fits_u16 : nos.

Lemma bump_free_blocks_ok d m :
  sb_ok (m_sb m) → gd_ok (m_gd m) →
  sb_ok (m_sb (bump_free_blocks d m)) ∧ gd_ok (m_gd (bump_free_blocks d m)).
Proof.
  intros Hs Hg. split; simpl.
  - apply set_free_blocks_sb_ok; auto with nos.
  - by apply (set_gd_ok _ _ (u16 0) (u16 0)); auto with nos.
Qed.

Lemma bump_free_inodes_ok d m :
  sb_ok (m_sb m) → gd_ok (m_gd m) →
  sb_ok (m_sb (bump_free_inodes d m)) ∧ gd_ok (m_gd (bump_free_inodes d m)).
Proof.
  intros Hs Hg. split; simpl.
  - apply set_free_inodes_sb_ok; auto with nos.
  - by apply (set_gd_ok _ (u16 0) _ (u16 0)); auto with nos.
Qed.

Lemma sb_ok_free_blocks sb : sb_ok sb → 0 ≤ s_free_blocks_count sb < 4294967296.
Proof.
  unfold sb_ok. intros Hf. by apply (Forall2_lookup_lr _ _ _ 3%nat 4%nat _ Hf).
Qed.

Lemma sb_ok_free_inodes sb : sb_ok sb → 0 ≤ s_free_inodes_count sb < 4294967296.
Proof.
  unfold sb_ok. intros Hf. by apply (Forall2_lookup_lr _ _ _ 4%nat 4%nat _ Hf).
Qed.

Lemma gd_ok_free g :
  gd_ok g → 0 ≤ bg_free_blocks_count g < 65536 ∧ 0 ≤ bg_free_inodes_count g < 65536.
Proof.
  unfold gd_ok. intros Hf. split.
  - by apply (Forall2_lookup_lr _ _ _ 3%nat 2%nat _ Hf).
  - by apply (Forall2_lookup_lr _ _ _ 4%nat 2%nat _ Hf).
Qed.

Lemma u32_undo x d : 0 ≤ x < 4294967296 → u32 (u32 (x + d) + - d) = x.
Proof.
  intros. unfold u32. rewrite Zplus_mod_idemp_l. rewrite Z.mod_small; lia.
Qed.

Lemma u16_undo x d : 0 ≤ x < 65536 → u16 (u16 (x + d) + - d) = x.
Proof.
  intros. unfold u16. rewrite Zplus_mod_idemp_l. rewrite Z.mod_small; lia.
Qed.

(** Undoing a change of the counters restores the mount context. *)
Lemma bump_free_blocks_undo d m :
  sb_ok (m_sb m) → gd_ok (m_gd m) → bump_free_blocks (- d) (bump_free_blocks d m) = m.
Proof.
  intros Hs%sb_ok_free_blocks [Hg _]%gd_ok_free. unfold bump_free_blocks.
  cbn [m_gd m_sb set_m_gd set_m_sb set_bg_free_blocks_count set_s_free_blocks_count
       bg_free_blocks_count s_free_blocks_count].
  rewrite u32_undo, u16_undo by done. by destruct m as [[] []].
Qed.

Lemma bump_free_inodes_undo d m :
  sb_ok (m_sb m) → gd_ok (m_gd m) → bump_free_inodes (- d) (bump_free_inodes d m) = m.
Proof.
  intros Hs%sb_ok_free_inodes [_ Hg]%gd_ok_free. unfold bump_free_inodes.
  cbn [m_gd m_sb set_m_gd set_m_sb set_bg_free_inodes_count set_s_free_inodes_count
       bg_free_inodes_count s_free_inodes_count].
  rewrite u32_undo, u16_undo by done. by destruct m as [[] []].
Qed.

Section alloc.
Context {E : Type} `{BlockEnvOk E}.
Implicit Types s : fsys E.

Lemma wp_add_free_blocks d s :
  fs_ok s →
  wp (add_free_blocks d) s (λ _ s',
    frame (λ _, False) s s' ∧ mnt s' = bump_free_blocks d (mnt s) ∧ env s' = env s).
Proof.
  intros Hs. apply wp_modify. split; [|done].
  destruct (bump_free_blocks_ok d (mnt s)); [apply Hs..|]. by apply frame_mnt.
Qed.

Lemma wp_add_free_inodes d s :
  fs_ok s →
  wp (add_free_inodes d) s (λ _ s',
    frame (λ _, False) s s' ∧ mnt s' = bump_free_inodes d (mnt s) ∧ env s' = env s).
Proof.
  intros Hs. apply wp_modify. split; [|done].
  destruct (bump_free_inodes_ok d (mnt s)); [apply Hs..|]. by apply frame_mnt.
Qed.

(** The block bitmap on disk. *)
Definition bbitmap s : list Z := blk (env s) (g_bb (geom_of (mnt s))).
Definition ibitmap s : list Z := blk (env s) (g_ib (geom_of (mnt s))).

(** Block [b] is marked in use. *)
Definition blk_used s (b : Z) : bool := bm_test (bbitmap s) (b - 1).

(** The effect of a successful allocation of block [r]. *)
Record alloc_done s s' (r : Z) : Prop := {
  ad_data : is_data (geom_of (mnt s)) r;
  ad_free : blk_used s r = false;
  ad_bm : bbitmap s' = bm_set (bbitmap s) (r - 1);
  ad_zero : blk (env s') r = memset_buf 0 1024;
  ad_mnt : mnt s' = bump_free_blocks (-1) (mnt s);
  ad_count : 0 < s_free_blocks_count (m_sb (mnt s)) ∧ 0 < bg_free_blocks_count (m_gd (mnt s));
  ad_synced : counts_synced s';
  ad_frame : frame (λ b, b = 1 ∨ b = 2 ∨ b = g_bb (geom_of (mnt s)) ∨ b = r) s s';
}.

(** Why an allocation may fail on a reliable device: no free block. *)
Definition no_free_block s : Prop :=
  s_free_blocks_count (m_sb (mnt s)) = 0 ∨ bg_free_blocks_count (m_gd (mnt s)) = 0 ∨
  ∀ b, is_data (geom_of (mnt s)) b → blk_used s b = true.

Record alloc_failed s s' : Prop := {
  af_mnt : mnt s' = mnt s;
  af_frame : frame (λ b, b = 1 ∨ b = 2 ∨ b = g_bb (geom_of (mnt s)) ∨
                         (is_data (geom_of (mnt s)) b ∧ blk_used s b = false)) s s';
  af_reliable : reliable (env s) →
                no_free_block s ∧ ∀ b, blk (env s') b = blk (env s) b;
}.

(** The bits the scan covers are those of the data blocks. *)
Lemma scan_total s :
  fs_ok s →
  u32 (s_blocks_count (m_sb (mnt s)) - s_first_data_block (m_sb (mnt s))) =
    g_blocks (geom_of (mnt s)) - 1 ∧
  m_alloc_start_bit (mnt s) = g_fdb (geom_of (mnt s)) - 1 ∧
  (3 < g_fdb (geom_of (mnt s)) ≤ g_blocks (geom_of (mnt s)) ∧ g_blocks (geom_of (mnt s)) ≤ 8193) ∧
  s_first_data_block (m_sb (mnt s)) = 1.
Proof.
  intros [[Hg _] _]. pose proof (go_first _ Hg) as Hf. pose proof (go_blocks _ Hg).
  pose proof (go_fdb _ Hg). pose proof (go_bb _ Hg). pose proof (go_asb _ Hg).
  simpl in *. rewrite Hf. rewrite u32_small; lia.
Qed.

Lemma scan_found s i :
  fs_ok s →
  first_clear (Z.to_nat (g_blocks (geom_of (mnt s)) - 1 - (g_fdb (geom_of (mnt s)) - 1)))
    (bbitmap s) (g_fdb (geom_of (mnt s)) - 1) = Some i →
  u32 (i + 1) = i + 1 ∧ is_data (geom_of (mnt s)) (i + 1) ∧
  blk_used s (i + 1) = false ∧ 0 ≤ i < 8192.
Proof.
  intros Hs Hf. destruct (scan_total s Hs) as (_ & _ & ? & _).
  apply first_clear_Some in Hf as (? & ? & _). unfold is_data, blk_used.
  rewrite u32_small by lia. replace (i + 1 - 1) with i by lia. split_and!; [lia..|done|lia|lia].
Qed.

Lemma scan_none s :
  fs_ok s →
  first_clear (Z.to_nat (g_blocks (geom_of (mnt s)) - 1 - (g_fdb (geom_of (mnt s)) - 1)))
    (bbitmap s) (g_fdb (geom_of (mnt s)) - 1) = None → no_free_block s.
Proof.
  intros Hs Hf. destruct (scan_total s Hs) as (_ & _ & ? & _).
  right; right. intros b Hb. unfold is_data, blk_used in *.
  apply (proj1 (first_clear_None _ _ _) Hf). lia.
Qed.

Lemma alloc_failed_fault P s s' :
  mnt s' = mnt s → frame P s s' →
  (∀ b, P b → b = 1 ∨ b = 2 ∨ b = g_bb (geom_of (mnt s)) ∨
              (is_data (geom_of (mnt s)) b ∧ blk_used s b = false)) →
  (reliable (env s) → False) → alloc_failed s s'.
Proof.
  intros Hm F HP Hr. constructor; [done | by eapply frame_mono | by intros ?%Hr].
Qed.

Lemma alloc_failed_full s s' :
  mnt s' = mnt s → frame (λ _, False) s s' → no_free_block s → alloc_failed s s'.
Proof.
  intros Hm F Hn. constructor; [done | by eapply frame_mono; [exact F|] |].
  split; [done|]. intros b. by apply frame_same.
Qed.

Lemma bb_vol s : fs_ok s → in_vol (geom_of (mnt s)) (g_bb (geom_of (mnt s))).
Proof.
  intros [[Hg _] _]. pose proof (go_bb _ Hg). pose proof (go_fdb _ Hg). unfold in_vol. lia.
Qed.

Lemma ib_vol s : fs_ok s → in_vol (geom_of (mnt s)) (g_ib (geom_of (mnt s))).
Proof.
  intros [[Hg _] _]. pose proof (go_ib _ Hg). pose proof (go_fdb _ Hg). unfold in_vol. lia.
Qed.

Lemma data_vol s b : fs_ok s → is_data (geom_of (mnt s)) b → in_vol (geom_of (mnt s)) b.
Proof.
  intros [[Hg _] _]. pose proof (go_bb _ Hg). unfold in_vol, is_data. lia.
Qed.

Lemma wp_alloc_block_commit s i :
  fs_ok s → is_data (geom_of (mnt s)) (i + 1) → blk_used s (i + 1) = false → 0 ≤ i ->
  0 < s_free_blocks_count (m_sb (mnt s)) → 0 < bg_free_blocks_count (m_gd (mnt s)) →
  wp (alloc_block_commit (mnt s) (bbitmap s) i (i + 1)) s (λ r s',
    r = 0 ∧ alloc_failed s s' ∨ alloc_done s s' r).
Proof.
  intros Hs Hd Hu Hi Hc1 Hc2. pose proof (proj1 (proj1 Hs)) as Hg.
  assert (m_block_size (mnt s) = 1024) as Hbs by apply (go_bs _ Hg).
  assert (bytes_ok (bm_set (bbitmap s) i) ∧ length (bm_set (bbitmap s) i) = 1024%nat)
    as [Hb1 Hl1].
  { split; [apply bm_set_bytes, blk_bytes | rewrite length_bm_set; apply length_blk]. }
  assert (bytes_ok (bm_clear (bm_set (bbitmap s) i) i) ∧
          length (bm_clear (bm_set (bbitmap s) i) i) = 1024%nat) as [Hb2 Hl2].
  { split; [by apply bm_clear_bytes | by rewrite length_bm_clear]. }
  set (bm1 := bm_set (bbitmap s) i) in *.
  assert (∀ b, b = i + 1 → is_data (geom_of (mnt s)) b ∧ blk_used s b = false)
    as Hr1 by (intros b ->; done).
  pose proof (bb_vol s Hs) as Hbbv. pose proof (data_vol s _ Hs Hd) as Hdv.
  pose proof (go_bb _ Hg) as Hbb.
  unfold alloc_block_commit. fold bm1. rewrite Hbs.
  change (bg_block_bitmap (m_gd (mnt s))) with (g_bb (geom_of (mnt s))).
  set (bb := g_bb (geom_of (mnt s))) in *.
  wp_call wp_write_block. intros ok s1 (F1 & M1 & B1 & R1).
  destruct ok; simpl.
  2:{ apply wp_ret. left. split; [done|]. eapply alloc_failed_fault; [done|exact F1| |].
      - in_frame.
      - intros Hr. discriminate (R1 Hr Hbbv). }
  wp_call wp_kmalloc. intros zok s2 (F2 & M2 & R2).
  destruct zok; simpl.
  2:{ wp_call wp_write_block. intros ? s3 (F3 & M3 & _).
      apply wp_ret. left. split; [done|].
      eapply alloc_failed_fault; [congruence|frame_build| |].
      - in_frame.
      - intros Hr. discriminate (R2 ltac:(frame_fact)). }
  wp_call wp_write_block.
  { apply bytes_ok_replicate. unfold is_byte; lia. }
  intros zr s3 (F3 & M3 & B3 & R3). destruct zr; simpl.
  2:{ wp_call wp_write_block. intros ? s4 (F4 & M4 & _).
      apply wp_ret. left. split; [done|].
      eapply alloc_failed_fault; [congruence|frame_build| |].
      - in_frame.
      - intros Hr. rewrite M2, M1 in R3.
        discriminate (R3 ltac:(frame_fact) Hdv). }
  wp_call wp_add_free_blocks. intros ? s4 (F4 & M4 & E4).
  wp_call wp_flush_counts. intros fl s5 (F5 & M5 & B5 & R5).
  destruct fl; simpl.
  - apply wp_ret. right. constructor; try done.
    + unfold bbitmap. rewrite (fr_geom _ _ _ F5), (fr_geom _ _ _ F4), M3, M2, M1. fold bb.
      rewrite (fr_blk _ _ _ F5), E4, (fr_blk _ _ _ F3), (frame_same _ _ _ F2)
        by (unfold is_data in *; lia).
      replace (i + 1 - 1) with i by lia. by apply B1.
    + rewrite (fr_blk _ _ _ F5), E4 by (unfold in_vol, is_data in *; lia). by apply B3.
    + congruence.
    + by apply B5.
    + eapply frame_mono; [frame_build|]. in_frame.
  - wp_call wp_add_free_blocks. intros ? s6 (F6 & M6 & E6).
    wp_call wp_write_superblock. intros ? s7 (F7 & M7 & _).
    wp_call wp_write_group_desc. intros ? s8 (F8 & M8 & _).
    wp_call wp_write_block. intros ? s9 (F9 & M9 & _).
    apply wp_ret. left. split; [done|].
    eapply alloc_failed_fault; [|frame_build|in_frame|].
    + rewrite M9, M8, M7, M6, M5, M4. change 1 with (- (-1)).
      rewrite bump_free_blocks_undo by (apply F3). congruence.
    + intros Hr. discriminate (R5 ltac:(frame_fact)).
Qed.

Lemma data_guard s b :
  is_data (geom_of (mnt s)) b →
  negb (ext2_data_blk_ok (mnt s) b) || (b >=? s_blocks_count (m_sb (mnt s))) = false.
Proof.
  intros Hd. rewrite (proj2 (data_blk_ok_spec _ _)) by (by right). simpl.
  unfold is_data in Hd. simpl in Hd. rewrite Z.geb_leb. apply Z.leb_gt. lia.
Qed.

(** The outcome of an allocation does not depend on the fault-free reads
    that precede it. *)
Lemma alloc_lift s s2 :
  frame (λ _, False) s s2 → mnt s2 = mnt s →
  ∀ r s', r = 0 ∧ alloc_failed s2 s' ∨ alloc_done s2 s' r →
          r = 0 ∧ alloc_failed s s' ∨ alloc_done s s' r.
Proof.
  intros F M2.
  assert (bbitmap s2 = bbitmap s) as Hbm
    by (unfold bbitmap; rewrite M2; by apply frame_same).
  intros r s' [[-> [Am Af Ar]] | [Dd Df Db Dz Dm Dc Ds Dfr]]; [left; split; [done|] | right].
  - unfold blk_used in *. rewrite Hbm, M2 in *. constructor; [congruence| |].
    + eapply frame_mono; [frame_build|]. in_frame.
    + intros Hr. destruct (Ar ltac:(frame_fact)) as [Hn Hb]. split.
      * unfold no_free_block, blk_used in *. by rewrite Hbm, M2 in Hn.
      * intros b. by rewrite Hb, (frame_same _ _ _ F).
  - unfold blk_used in *. rewrite Hbm, M2 in *. constructor; try done.
    eapply frame_mono; [frame_build|]. in_frame.
Qed.

(** ext2_alloc_block: the whole behaviour, on every branch. *)
Lemma wp_alloc_block s :
  fs_ok s →
  wp ext2_alloc_block s (λ r s', r = 0 ∧ alloc_failed s s' ∨ alloc_done s s' r).
Proof.
  intros Hs. destruct (scan_total s Hs) as (Ht & Ha & _ & Hf).
  pose proof (sb_ok_free_blocks _ (proj1 (proj2 (proj1 Hs)))).
  pose proof (proj1 (gd_ok_free _ (proj2 (proj2 (proj1 Hs))))).
  pose proof (bb_vol s Hs) as Hbbv.
  apply wp_bind, wp_gets. rewrite Ht, Ha, Hf. case_if.
  { apply wp_ret. left. split; [done|].
    apply alloc_failed_full; [done | by apply frame_refl | unfold no_free_block; lia]. }
  wp_call wp_kmalloc. intros ok s1 (F1 & M1 & R1). destruct ok; simpl.
  2:{ apply wp_ret. left. split; [done|].
      eapply alloc_failed_fault; [done | exact F1 | in_frame |].
      intros Hr. discriminate (R1 Hr). }
  wp_call wp_read_block. intros r s2 (F2 & M2 & B2 & R2).
  assert (frame (λ _, False) s s2) as F by (eapply frame_trans; [exact F1|exact F2|tauto]).
  destruct r as [bm|].
  2:{ apply wp_ret. left. split; [done|].
      eapply alloc_failed_fault; [congruence | exact F | in_frame |].
      intros Hr. rewrite M1 in R2. by apply (R2 ltac:(frame_fact)). }
  destruct (B2 bm eq_refl) as [_ ->]. rewrite M1 in M2.
  rewrite (frame_same _ _ _ F1). change (blk (env s) _) with (bbitmap s).
  pose proof (alloc_lift s s2 F M2) as Hlift.
  destruct (first_clear _ _ _) as [i|] eqn:Efc.
  - destruct (scan_found s i Hs Efc) as (Hu & Hd & Hfree & Hi). rewrite Hu, data_guard by done.
    rewrite <- M2. replace (bbitmap s) with (bbitmap s2)
      by (unfold bbitmap; rewrite M2; by apply frame_same).
    eapply wp_mono; [apply wp_alloc_block_commit | exact Hlift].
    all: rewrite ?M2; try (frame_fact || done || lia).
    unfold blk_used, bbitmap in *. rewrite M2, (frame_same _ _ _ F). done.
  - apply wp_ret. left. split; [done|].
    apply alloc_failed_full; [done | done | by apply scan_none].
Qed.

(** The effect of a successful release of block [b]. *)
Record free_done s s' (b : Z) : Prop := {
  fd_data : is_data (geom_of (mnt s)) b;
  fd_used : blk_used s b = true;
  fd_bm : bbitmap s' = bm_clear (bbitmap s) (b - 1);
  fd_mnt : mnt s' = bump_free_blocks 1 (mnt s);
  fd_synced : counts_synced s';
}.

Definition nothing_done s s' : Prop :=
  mnt s' = mnt s ∧ ∀ b, blk (env s') b = blk (env s) b.

(** ext2_free_block: on a reliable device it frees a used data block, and
    does nothing for any other number (a double free included); whatever
    the faults it touches only the bitmap and the counters' blocks. *)
Lemma wp_free_block b s :
  fs_ok s → 0 ≤ b →
  wp (ext2_free_block b) s (λ _ s',
    frame (λ x, x = 1 ∨ x = 2 ∨ x = g_bb (geom_of (mnt s))) s s' ∧
    (mnt s' = mnt s ∨ free_done s s' b) ∧
    (reliable (env s) →
       free_done s s' b ∨
       nothing_done s s' ∧ ¬ (is_data (geom_of (mnt s)) b ∧ blk_used s b = true))).
Proof.
  intros Hs Hb0. pose proof (proj1 (proj1 Hs)) as Hg. pose proof (bb_vol s Hs) as Hbbv.
  destruct (scan_total s Hs) as (_ & _ & _ & Hf).
  apply wp_bind, wp_gets. rewrite Hf. case_if.
  { apply wp_ret. split; [by apply frame_refl|]. split; [by left|]. intros _. right.
    split; [done|]. intros [Hd _]. apply orb_true_iff in E0 as [->%Z.eqb_eq|Hn].
    - unfold is_data in Hd. pose proof (go_bb _ Hg). lia.
    - rewrite (proj2 (data_blk_ok_spec _ _)) in Hn by (by right). done. }
  pose proof (proj1 (data_blk_ok_spec _ _) H2) as [->|Hd]; [done|].
  pose proof (go_bb _ Hg) as Hbb. pose proof (go_blocks _ Hg) as Hbl.
  unfold is_data in Hd. rewrite u32_small by lia.
  wp_call wp_kmalloc. intros ok s1 (F1 & M1 & R1). destruct ok; simpl.
  2:{ apply wp_ret. split; [frame_tac|]. split; [by left|].
      intros Hr. discriminate (R1 Hr). }
  wp_call wp_read_block. intros r s2 (F2 & M2 & B2 & R2).
  destruct r as [bm|].
  2:{ apply wp_ret. split; [frame_tac|]. split; [left; congruence|].
      intros Hr. rewrite M1 in R2. by destruct (R2 ltac:(frame_fact) Hbbv). }
  destruct (B2 bm eq_refl) as [_ ->]. rewrite (frame_same _ _ _ F1).
  change (bg_block_bitmap (m_gd (mnt s))) with (g_bb (geom_of (mnt s))).
  change (blk (env s) _) with (bbitmap s).
  destruct (bm_test _ _) eqn:Et.
  2:{ apply wp_ret. split; [frame_tac|]. split; [left; congruence|]. intros Hr. right.
      split; [split; [congruence|]|].
      - intros x. by rewrite (frame_same _ _ _ F2), (frame_same _ _ _ F1).
      - intros [_ Hu]. unfold blk_used in Hu. congruence. }
  wp_call wp_write_block.
  { apply bm_clear_bytes, blk_bytes. } { rewrite length_bm_clear. apply length_blk. }
  intros wr s3 (F3 & M3 & B3 & R3). destruct wr; simpl.
  2:{ apply wp_ret. split; [frame_tac|]. split; [left; congruence|].
      intros Hr. rewrite M2, M1 in R3. discriminate (R3 ltac:(frame_fact) Hbbv). }
  wp_call wp_add_free_blocks. intros ? s4 (F4 & M4 & E4).
  wp_call wp_flush_counts. intros fl s5 (F5 & M5 & B5 & R5). destruct fl; simpl.
  - apply wp_ret. split; [frame_tac|].
    assert (free_done s s5 b); [|split; [by right | intros _; by left]].
    constructor; try done.
    + unfold bbitmap. rewrite (fr_geom _ _ _ F5), (fr_geom _ _ _ F4), M3, M2, M1.
      rewrite (fr_blk _ _ _ F5), E4 by lia. by apply B3.
    + congruence.
    + by apply B5.
  - wp_call wp_add_free_blocks. intros ? s6 (F6 & M6 & E6).
    wp_call wp_write_superblock. intros ? s7 (F7 & M7 & _).
    wp_call wp_write_group_desc. intros ? s8 (F8 & M8 & _).
    apply wp_ret. split; [frame_tac|]. split.
    + left. rewrite M8, M7, M6, M5, M4. change (-1) with (- (1)).
      rewrite bump_free_blocks_undo by apply F3. congruence.
    + intros Hr. discriminate (R5 ltac:(frame_fact)).
Qed.

(** ** Inodes *)

Definition ino_used s (ino : Z) : bool := bm_test (ibitmap s) (ino - 1).

(** The effect of a successful allocation of inode [r]. *)
Record ialloc_done s s' (r : Z) : Prop := {
  id_ino : 11 ≤ r ≤ g_inodes (geom_of (mnt s));
  id_free : ino_used s r = false;
  id_bm : ibitmap s' = bm_set (ibitmap s) (r - 1);
  id_mnt : mnt s' = bump_free_inodes (-1) (mnt s);
  id_count : 0 < s_free_inodes_count (m_sb (mnt s)) ∧ 0 < bg_free_inodes_count (m_gd (mnt s));
  id_synced : counts_synced s';
}.

Definition no_free_inode s : Prop :=
  s_free_inodes_count (m_sb (mnt s)) = 0 ∨ bg_free_inodes_count (m_gd (mnt s)) = 0 ∨
  ∀ i, 11 ≤ i ≤ g_inodes (geom_of (mnt s)) → ino_used s i = true.

Definition ialloc_post s (r : Z) s' : Prop :=
  frame (λ x, x = 1 ∨ x = 2 ∨ x = g_ib (geom_of (mnt s))) s s' ∧
  (r = 0 ∧ mnt s' = mnt s ∧ (reliable (env s) → no_free_inode s ∧ nothing_done s s') ∨
   ialloc_done s s' r).

Lemma wp_alloc_inode_commit s i :
  fs_ok s → 10 ≤ i < g_inodes (geom_of (mnt s)) → ino_used s (i + 1) = false →
  0 < s_free_inodes_count (m_sb (mnt s)) → 0 < bg_free_inodes_count (m_gd (mnt s)) →
  wp (alloc_inode_commit (mnt s) (ibitmap s) i) s (ialloc_post s).
Proof.
  intros Hs Hi Hu Hc1 Hc2. pose proof (proj1 (proj1 Hs)) as Hg.
  pose proof (ib_vol s Hs) as Hibv. pose proof (go_ib _ Hg) as Hib.
  pose proof (go_inodes _ Hg) as Hin. unfold ialloc_post.
  unfold alloc_inode_commit. rewrite u32_small by lia.
  change (bg_inode_bitmap (m_gd (mnt s))) with (g_ib (geom_of (mnt s))).
  wp_call wp_write_block.
  { apply bm_set_bytes, blk_bytes. } { rewrite length_bm_set; apply length_blk. }
  intros ok s1 (F1 & M1 & B1 & R1). destruct ok; simpl.
  2:{ apply wp_ret. split; [frame_tac|]. left. split_and!; [done..|].
      intros Hr. discriminate (R1 Hr Hibv). }
  wp_call wp_add_free_inodes. intros ? s2 (F2 & M2 & E2).
  wp_call wp_flush_counts. intros fl s3 (F3 & M3 & B3 & R3). destruct fl; simpl.
  - apply wp_ret. split; [frame_tac|]. right. constructor; try done; [lia|..].
    + unfold ibitmap. rewrite (fr_geom _ _ _ F3), (fr_geom _ _ _ F2), M1.
      rewrite (fr_blk _ _ _ F3), E2 by lia.
      replace (i + 1 - 1) with i by lia. by apply B1.
    + congruence.
    + by apply B3.
  - wp_call wp_add_free_inodes. intros ? s4 (F4 & M4 & E4).
    wp_call wp_write_superblock. intros ? s5 (F5 & M5 & _).
    wp_call wp_write_group_desc. intros ? s6 (F6 & M6 & _).
    wp_call wp_write_block.
    { apply bm_clear_bytes, bm_set_bytes, blk_bytes. }
    { rewrite length_bm_clear, length_bm_set; apply length_blk. }
    intros ? s7 (F7 & M7 & _). apply wp_ret. split; [frame_tac|]. left. split; [done|]. split.
    + rewrite M7, M6, M5, M4, M3, M2. change 1 with (- (-1)).
      rewrite bump_free_inodes_undo by apply F1. congruence.
    + intros Hr. discriminate (R3 ltac:(frame_fact)).
Qed.

Lemma wp_alloc_inode s : fs_ok s → wp ext2_alloc_inode s (ialloc_post s).
Proof.
  intros Hs. pose proof (proj1 (proj1 Hs)) as Hg.
  pose proof (sb_ok_free_inodes _ (proj1 (proj2 (proj1 Hs)))).
  pose proof (proj2 (gd_ok_free _ (proj2 (proj2 (proj1 Hs))))).
  pose proof (ib_vol s Hs) as Hibv.
  apply wp_bind, wp_gets. case_if.
  { apply wp_ret. split; [by apply frame_refl|]. left. split_and!; [done..|].
    intros _. split; [unfold no_free_inode; lia | done]. }
  wp_call wp_kmalloc. intros ok s1 (F1 & M1 & R1). destruct ok; simpl.
  2:{ apply wp_ret. split; [frame_tac|]. left. split_and!; [done..|].
      intros Hr. discriminate (R1 Hr). }
  wp_call wp_read_block. intros r s2 (F2 & M2 & B2 & R2).
  assert (frame (λ _, False) s s2) as F by (eapply frame_trans; [exact F1|exact F2|tauto]).
  rewrite M1 in *. destruct r as [bm|].
  2:{ apply wp_ret. split; [frame_tac|]. left. split_and!; [done..|].
      intros Hr. by destruct (R2 ltac:(frame_fact) Hibv). }
  destruct (B2 bm eq_refl) as [_ ->].
  rewrite (frame_same _ _ _ F1). change (blk (env s) _) with (ibitmap s).
  change (EXT2_FIRST_NORMAL_INO - 1) with 10.
  assert (ibitmap s2 = ibitmap s) as Hib by (unfold ibitmap; rewrite M2; by apply frame_same).
  destruct (first_clear _ _ _) as [i|] eqn:Efc.
  - apply first_clear_Some in Efc as (Hi1 & Hi2 & _).
    rewrite <- M2, <- Hib. eapply wp_mono; [apply wp_alloc_inode_commit|].
    all: unfold ino_used; rewrite ?M2, ?Hib; simpl in *;
      try (frame_fact || lia || by replace (i + 1 - 1) with i by lia).
    intros r s' [F3 Hp]. split; [rewrite M2 in F3; frame_tac|].
    destruct Hp as [(-> & Hm & Hr) | [D1 D2 D3 D4 D5 D6]]; [left | right].
    + split; [done|]. split; [congruence|]. intros Hr0.
      destruct (Hr ltac:(frame_fact)) as [Hn [_ Hb]].
      unfold no_free_inode, ino_used in *. rewrite Hib, M2 in Hn. split; [done|].
      split; [congruence|]. intros b. by rewrite Hb, (frame_same _ _ _ F).
    + unfold ino_used in *. rewrite Hib, M2 in *. by constructor.
  - apply wp_ret. split; [frame_tac|]. left. split_and!; [done..|].
    intros _. split; [|split; [done|intros b; by apply frame_same]].
    right; right. intros i Hi. pose proof (go_inodes _ Hg). simpl in *.
    apply (proj1 (first_clear_None _ _ _) Efc). lia.
Qed.

Record ifree_done s s' (ino : Z) : Prop := {
  if_ino : valid_ino (geom_of (mnt s)) ino;
  if_used : ino_used s ino = true;
  if_bm : ibitmap s' = bm_clear (ibitmap s) (ino - 1);
  if_mnt : mnt s' = bump_free_inodes 1 (mnt s);
  if_synced : counts_synced s';
}.

Lemma wp_free_inode ino s :
  fs_ok s →
  wp (ext2_free_inode ino) s (λ _ s',
    frame (λ x, x = 1 ∨ x = 2 ∨ x = g_ib (geom_of (mnt s))) s s' ∧
    (mnt s' = mnt s ∨ ifree_done s s' ino) ∧
    (reliable (env s) →
       ifree_done s s' ino ∨
       nothing_done s s' ∧ ¬ (valid_ino (geom_of (mnt s)) ino ∧ ino_used s ino = true))).
Proof.
  intros Hs. pose proof (proj1 (proj1 Hs)) as Hg. pose proof (ib_vol s Hs) as Hibv.
  apply wp_bind, wp_gets. case_if.
  { apply wp_ret. split; [by apply frame_refl|]. split; [by left|]. intros _. right.
    split; [done|]. intros [Hd _]. unfold valid_ino in Hd. simpl in Hd. lia. }
  pose proof (go_ib _ Hg) as Hib. pose proof (go_inodes _ Hg) as Hin. simpl in Hin.
  rewrite u32_small by lia.
  wp_call wp_kmalloc. intros ok s1 (F1 & M1 & R1). destruct ok; simpl.
  2:{ apply wp_ret. split; [frame_tac|]. split; [by left|].
      intros Hr. discriminate (R1 Hr). }
  wp_call wp_read_block. intros r s2 (F2 & M2 & B2 & R2). destruct r as [bm|].
  2:{ apply wp_ret. split; [frame_tac|]. split; [left; congruence|].
      intros Hr. rewrite M1 in R2. by destruct (R2 ltac:(frame_fact) Hibv). }
  destruct (B2 bm eq_refl) as [_ ->]. rewrite (frame_same _ _ _ F1).
  change (bg_inode_bitmap (m_gd (mnt s))) with (g_ib (geom_of (mnt s))).
  change (blk (env s) _) with (ibitmap s).
  destruct (bm_test _ _) eqn:Et.
  2:{ apply wp_ret. split; [frame_tac|]. split; [left; congruence|]. intros Hr. right.
      split; [split; [congruence|]|].
      - intros x. by rewrite (frame_same _ _ _ F2), (frame_same _ _ _ F1).
      - intros [_ Hu]. unfold ino_used in Hu. congruence. }
  wp_call wp_write_block.
  { apply bm_clear_bytes, blk_bytes. } { rewrite length_bm_clear. apply length_blk. }
  intros wr s3 (F3 & M3 & B3 & R3). destruct wr; simpl.
  2:{ apply wp_ret. split; [frame_tac|]. split; [left; congruence|].
      intros Hr. rewrite M2, M1 in R3. discriminate (R3 ltac:(frame_fact) Hibv). }
  wp_call wp_add_free_inodes. intros ? s4 (F4 & M4 & E4).
  wp_call wp_flush_counts. intros fl s5 (F5 & M5 & B5 & R5). destruct fl; simpl.
  - apply wp_ret. split; [frame_tac|].
    assert (ifree_done s s5 ino); [|split; [by right | intros _; by left]].
    constructor; try done.
    + unfold ibitmap. rewrite (fr_geom _ _ _ F5), (fr_geom _ _ _ F4), M3, M2, M1.
      rewrite (fr_blk _ _ _ F5), E4 by lia. by apply B3.
    + congruence.
    + by apply B5.
  - wp_call wp_add_free_inodes. intros ? s6 (F6 & M6 & E6).
    wp_call wp_write_superblock. intros ? s7 (F7 & M7 & _).
    wp_call wp_write_group_desc. intros ? s8 (F8 & M8 & _).
    apply wp_ret. split; [frame_tac|]. split.
    + left. rewrite M8, M7, M6, M5, M4. change (-1) with (- (1)).
      rewrite bump_free_inodes_undo by apply F3. congruence.
    + intros Hr. discriminate (R5 ltac:(frame_fact)).
Qed.
End alloc.
