(* ===== verification/Ext2File.v ===== *)
(** * ext2: file data (kernel/ext2.c, 468-641 and 908-1034)

    Reading and writing file data through direct and singly-indirect blocks,
    truncation, and the VFS callbacks of regular files.  A node argument
    [node] is the inode number of a cached node. *)

From S2P Require Import Prelude Bytes Block Ext2Types Ext2Core Ext2Alloc.

Section ext2.
Context {E : Type} `{BlockEnv E}.
Local Abbreviation M := (ST (fsys E)).

(** ** File data read *)

(** The physical block of file block [bi] and the indirect block once
    loaded; [None] is the [break] of the loop. *)
Definition read_phys (n : ext2_inode) (bi : Z) (ind : option (list Z))
  : M (option (Z * option (list Z))) :=
  m ← gets mnt;
  let bs := m_block_size m in
  let ptrs_per_block := bs / 4 in
  if bi <? 12 then mret (Some (bget (i_block n) bi, ind))
  else if bi <? 12 + ptrs_per_block then
    if bget (i_block n) 12 =? 0 then mret (Some (0, ind)) else
    if negb (ext2_data_blk_ok m (bget (i_block n) 12)) then mret None else
    match ind with
    | Some b => mret (Some (rd32 b ((bi - 12) * 4), ind))
    | None =>
        ok ← kmalloc bs;
        if negb ok then mret None else
        r ← ext2_read_block (bget (i_block n) 12);
        match r with
        | None => mret None
        | Some b => mret (Some (rd32 b ((bi - 12) * 4), Some b))
        end
    end
  else mret None.

(** The [while (got < size)] loop; [out] is [buf[0 .. got)].  [fuel] bounds
    the number of blocks the range [offset, offset + size) can touch. *)
Fixpoint read_loop (fuel : nat) (n : ext2_inode) (offset size : Z)
    (ind : option (list Z)) (out : list Z) : M (list Z) :=
  match fuel with
  | O => mret out
  | S fuel' =>
      let got := zlength out in
      if got <? size then
        m ← gets mnt;
        let bs := m_block_size m in
        let foff := u32 (offset + got) in
        let bi := foff / bs in
        let in_blk := foff mod bs in
        let chunk := Z.min (u32 (bs - in_blk)) (u32 (size - got)) in
        p ← read_phys n bi ind;
        match p with
        | None => mret out
        | Some (phys, ind') =>
            if phys =? 0 then
              read_loop fuel' n offset size ind' (out ++ memset_buf 0 chunk)
            else if negb (ext2_data_blk_ok m phys) then mret out else
            r ← ext2_read_block phys;
            match r with
            | None => mret out
            | Some blk => read_loop fuel' n offset size ind' (out ++ slice blk in_blk chunk)
            end
        end
      else mret out
  end.

(** The bytes delivered; the C function returns their number. *)
Definition ext2_read_data (n : ext2_inode) (offset size : Z) : M (list Z) :=
  if offset >=? i_size n then mret [] else
  let size := if size >? u32 (i_size n - offset) then u32 (i_size n - offset) else size in
  m ← gets mnt;
  let bs := m_block_size m in
  ok ← kmalloc bs;
  if negb ok then mret [] else
  read_loop (Z.to_nat (size / bs + 2)) n offset size None [].

(** ** File data write *)

(** Local variables of ext2_write_data: the inode being updated, the bytes
    written so far, the indirect block once its contents are valid
    ([indirect_loaded]) and [dirty_indirect].  The buffer is allocated
    before it is loaded; an allocated, never loaded buffer is never read
    nor flushed, so only [w_ibuf] (allocated) is kept of it. *)
Record wstate := mk_wstate {
  w_in : ext2_inode;
  w_wrote : Z;
  w_ibuf : bool;
  w_ind : option (list Z);
  w_dirty : bool;
}.

(** [in->i_block[k] = blk; in->i_blocks += bs / 512]. *)
Definition link_block (m : ext2_mount) (n : ext2_inode) (k blk : Z) : ext2_inode :=
  set_i_blocks (u32 (i_blocks n + m_block_size m / 512))
    (set_i_block (bset (i_block n) k blk) n).

(** Allocate the indirect buffer, link a fresh indirect block if the inode
    has none, validate it and load it once; [None] is a [break], with the
    state it leaves behind. *)
Definition write_indirect (w : wstate) : M (wstate * bool) :=
  m ← gets mnt;
  let bs := m_block_size m in
  ok ← (if w_ibuf w then mret true else kmalloc bs);
  if negb ok then mret (w, false) else
  let w := mk_wstate (w_in w) (w_wrote w) true (w_ind w) (w_dirty w) in
  w2 ← (if bget (i_block (w_in w)) 12 =? 0 then
          blk ← ext2_alloc_block;
          if blk =? 0 then mret (w, false) else
          mret (mk_wstate (link_block m (w_in w) 12 blk) (w_wrote w) true
                  (Some (memset_buf 0 bs)) (w_dirty w), true)
        else mret (w, true));
  let '(w, ok2) := w2 in
  if negb ok2 then mret (w, false) else
  if negb (ext2_data_blk_ok m (bget (i_block (w_in w)) 12)) then mret (w, false) else
  match w_ind w with
  | Some _ => mret (w, true)
  | None =>
      r ← ext2_read_block (bget (i_block (w_in w)) 12);
      match r with
      | None => mret (w, false)
      | Some b => mret (mk_wstate (w_in w) (w_wrote w) true (Some b) (w_dirty w), true)
      end
  end.

(** The physical block for file block [bi], allocating it if it is a hole. *)
Definition write_phys (bi : Z) (w : wstate) : M (wstate * option Z) :=
  m ← gets mnt;
  let bs := m_block_size m in
  let ptrs_per_block := bs / 4 in
  if bi <? 12 then
    let phys := bget (i_block (w_in w)) bi in
    if phys =? 0 then
      phys ← ext2_alloc_block;
      if phys =? 0 then mret (w, None) else
      mret (mk_wstate (link_block m (w_in w) bi phys) (w_wrote w) (w_ibuf w)
              (w_ind w) (w_dirty w), Some phys)
    else mret (w, Some phys)
  else if bi <? 12 + ptrs_per_block then
    r ← write_indirect w;
    let '(w, ok) := r in
    if negb ok then mret (w, None) else
    let ents := default [] (w_ind w) in
    let phys := rd32 ents ((bi - 12) * 4) in
    if phys =? 0 then
      phys ← ext2_alloc_block;
      if phys =? 0 then mret (w, None) else
      mret (mk_wstate (set_i_blocks (u32 (i_blocks (w_in w) + bs / 512)) (w_in w))
              (w_wrote w) true (Some (wr32 ents ((bi - 12) * 4) phys)) true, Some phys)
    else mret (w, Some phys)
  else mret (w, None).

(** The [while (wrote < size)] loop. *)
Fixpoint write_loop (fuel : nat) (offset size : Z) (buf : list Z) (w : wstate)
  : M wstate :=
  match fuel with
  | O => mret w
  | S fuel' =>
      if w_wrote w <? size then
        m ← gets mnt;
        let bs := m_block_size m in
        let foff := u32 (offset + w_wrote w) in
        let bi := foff / bs in
        let in_blk := foff mod bs in
        let chunk := Z.min (u32 (bs - in_blk)) (u32 (size - w_wrote w)) in
        p ← write_phys bi w;
        match p with
        | (w, None) => mret w
        | (w, Some phys) =>
            if negb (ext2_data_blk_ok m phys) then mret w else
            r ← ext2_read_block phys;
            match r with
            | None => mret w
            | Some blk =>
                ok ← ext2_write_block phys
                       (splice blk in_blk (slice buf (w_wrote w) chunk));
                if negb ok then mret w else
                write_loop fuel' offset size buf
                  (mk_wstate (w_in w) (u32 (w_wrote w + chunk)) (w_ibuf w)
                     (w_ind w) (w_dirty w))
            end
        end
      else mret w
  end.

(** Returns the bytes written and the inode as the caller sees it. *)
Definition ext2_write_data (ino : Z) (n : ext2_inode) (offset size : Z) (buf : list Z)
  : M (Z * ext2_inode) :=
  m ← gets mnt;
  let bs := m_block_size m in
  if offset >? u32 (0xFFFFFFFF - size) then mret (0, n) else
  let endo := u32 (offset + size) in
  let max_size := u32 (EXT2_MAX_FILE_BLOCKS * bs) in
  if endo >? max_size then mret (0, n) else
  ok ← kmalloc bs;
  if negb ok then mret (0, n) else
  w ← write_loop (Z.to_nat (size / bs + 2)) offset size buf
        (mk_wstate n 0 false None false);
  lost ← (if w_ibuf w && w_dirty w then
            if negb (ext2_data_blk_ok m (bget (i_block (w_in w)) 12)) then mret true else
            fl ← ext2_write_block (bget (i_block (w_in w)) 12) (default [] (w_ind w));
            mret (negb fl)
          else mret false);
  if (lost : bool) then mret (0, w_in w) else
  if w_wrote w =? 0 then mret (0, w_in w) else
  let n1 := if u32 (offset + w_wrote w) >? i_size (w_in w)
            then set_i_size (u32 (offset + w_wrote w)) (w_in w) else w_in w in
  wr ← ext2_write_inode ino n1;
  if negb wr then mret (0, n1) else mret (w_wrote w, n1).

(** ** VFS callbacks of regular files *)

(** [node->length = len] on a cached node. *)
Definition set_node_length (node len : Z) : M unit :=
  on_mnt (λ m, set_m_node_cache
    (alter (λ f, {| n_name := n_name f; n_flags := n_flags f;
                    n_inode := n_inode f; n_length := len |}) node (m_node_cache m)) m).

Definition ext2_read_file (node offset size : Z) : M (list Z) :=
  _ ← mutex_lock;
  r ← ext2_read_inode node;
  match r with
  | None => _ ← mutex_unlock; mret []
  | Some n =>
      m ← gets mnt;
      if negb (ext2_inode_pointers_ok m n) then _ ← mutex_unlock; mret [] else
      got ← ext2_read_data n offset size;
      _ ← mutex_unlock;
      mret got
  end.

Definition ext2_write_file (node offset size : Z) (buffer : list Z) : M Z :=
  _ ← mutex_lock;
  r ← ext2_read_inode node;
  match r with
  | None => _ ← mutex_unlock; mret 0
  | Some n =>
      m ← gets mnt;
      if negb (ext2_inode_pointers_ok m n) then _ ← mutex_unlock; mret 0 else
      r ← ext2_write_data node n offset size buffer;
      let '(wrote, n') := r in
      _ ← set_node_length node (i_size n');
      _ ← mutex_unlock;
      mret wrote
  end.

(** [for (...) if (blk[i]) ext2_free_block(m, blk[i])]. *)
Fixpoint free_blocks (bs : list Z) : M unit :=
  match bs with
  | [] => mret tt
  | b :: bs' =>
      _ ← (if b =? 0 then mret tt else ext2_free_block b);
      free_blocks bs'
  end.

(** [if (child && ext2_data_blk_ok(m, child)) ext2_free_block(m, child)]. *)
Fixpoint free_children (m : ext2_mount) (bs : list Z) : M unit :=
  match bs with
  | [] => mret tt
  | b :: bs' =>
      _ ← (if negb (b =? 0) && ext2_data_blk_ok m b then ext2_free_block b else mret tt);
      free_children m bs'
  end.

(** The pointers an indirect block holds. *)
Definition block_ptrs (m : ext2_mount) (ind : list Z) : list Z :=
  (λ i, rd32 ind (i * 4)) <$> seqZ 0 (m_block_size m / 4).

(** Read and validate the indirect block of [n]; [None] fails the
    truncation before anything changed. *)
Definition load_children (n : ext2_inode) : M (option (list Z)) :=
  m ← gets mnt;
  if bget (i_block n) 12 =? 0 then mret (Some []) else
  ok ← kmalloc (m_block_size m);
  if negb ok then mret None else
  r ← ext2_read_block (bget (i_block n) 12);
  match r with
  | None => mret None
  | Some ind =>
      if forallb (λ c, negb (negb (c =? 0) && negb (ext2_data_blk_ok m c)))
           (block_ptrs m ind)
      then mret (Some (block_ptrs m ind)) else mret None
  end.

(** The inode with its first thirteen pointers, size and sector count zeroed. *)
Definition clear_pointers (n : ext2_inode) : ext2_inode :=
  set_i_blocks 0 (set_i_size 0
    (set_i_block (replicate 13 0 ++ drop 13 (i_block n)) n)).

Definition ext2_truncate (node : Z) : M Z :=
  _ ← mutex_lock;
  r ← ext2_read_inode node;
  match r with
  | None => _ ← mutex_unlock; mret (-1)
  | Some n =>
      m ← gets mnt;
      if negb (ext2_inode_pointers_ok m n) then _ ← mutex_unlock; mret (-1) else
      c ← load_children n;
      match c with
      | None => _ ← mutex_unlock; mret (-1)
      | Some children =>
          let old_blocks := take 12 (i_block n) in
          let old_indirect := bget (i_block n) 12 in
          wr ← ext2_write_inode node (clear_pointers n);
          if negb wr then _ ← mutex_unlock; mret (-1) else
          _ ← set_node_length node 0;
          _ ← free_blocks old_blocks;
          _ ← (if old_indirect =? 0 then mret tt else
                 _ ← free_children m children;
                 ext2_free_block old_indirect);
          _ ← mutex_unlock;
          mret 0
      end
  end.
End ext2.

(** * ext2: file contents as a function of the block map

    The block map of a file has 269 slots: twelve direct pointers, the
    pointer to the indirect block (slot 12) and its 256 entries.  [content]
    is the byte the map gives at an offset.  ext2_read_data delivers a prefix
    of it whatever the faults, and all of it on a reliable device;
    ext2_write_data changes exactly the bytes it reports as written. *)

(** ** Block maps *)

Definition slots (n : ext2_inode) (ind : list Z) (j : Z) : Z :=
  if j <? 13 then bget (i_block n) j
  else if bget (i_block n) 12 =? 0 then 0 else rd32 ind ((j - 13) * 4).

(** The slot of file block [bi]. *)
Definition fidx (bi : Z) : Z := if bi <? 12 then bi else bi + 1.

Definition fupd (f : Z → Z) (j v : Z) : Z → Z := λ i, if decide (i = j) then v else f i.

Lemma fidx_inj i j : fidx i = fidx j → i = j.
Proof. unfold fidx. destruct (Z.ltb_spec i 12), (Z.ltb_spec j 12); lia. Qed.

Section map.
Context {E : Type} `{BlockEnvOk E}.
Implicit Types s : fsys E.

(** The byte at offset [k] of a file with block map [f]. *)
Definition content s (f : Z → Z) (k : Z) : Z :=
  let p := f (fidx (k / 1024)) in
  if p =? 0 then 0 else bget (blk (env s) p) (k mod 1024).

Definition fbytes s (f : Z → Z) (off len : Z) : list Z := content s f <$> seqZ off len.

(** The block map of inode [n], with its indirect block as on disk. *)
Definition file_map s (n : ext2_inode) : Z → Z :=
  slots n (blk (env s) (bget (i_block n) 12)).

Lemma fbytes_app s f off n1 n2 :
  0 ≤ n1 → 0 ≤ n2 → fbytes s f off (n1 + n2) = fbytes s f off n1 ++ fbytes s f (off + n1) n2.
Proof. intros. unfold fbytes. by rewrite seqZ_app, fmap_app. Qed.

Lemma zlength_fbytes s f off n : 0 ≤ n → zlength (fbytes s f off n) = n.
Proof. intros. unfold fbytes, zlength. rewrite length_fmap, length_seqZ. lia. Qed.

Lemma fbytes_lookup s f off n (i : nat) :
  Z.of_nat i < n → fbytes s f off n !! i = Some (content s f (off + Z.of_nat i)).
Proof.
  intros Hi. unfold fbytes. rewrite list_lookup_fmap, lookup_seqZ_lt by lia. done.
Qed.

(** A chunk of one block. *)
Lemma fbytes_chunk s f k n :
  0 ≤ k → 0 ≤ n → k mod 1024 + n ≤ 1024 →
  fbytes s f k n =
    let p := f (fidx (k / 1024)) in
    if p =? 0 then memset_buf 0 n else slice (blk (env s) p) (k mod 1024) n.
Proof.
  intros Hk Hn Hb. cbv zeta.
  apply (list_eq_same_length _ _ (Z.to_nat n)).
  - case_if; [apply length_replicate|]. apply length_slice; rewrite ?zlength_blk; zdm.
  - unfold fbytes. by rewrite length_fmap, length_seqZ.
  - intros i x y Hi Hx Hy. rewrite fbytes_lookup in Hx by lia. simplify_eq.
    unfold content in *.
    assert ((k + Z.of_nat i) / 1024 = k / 1024) as Hd by zdm.
    assert ((k + Z.of_nat i) mod 1024 = k mod 1024 + Z.of_nat i) as Hm by zdm.
    rewrite Hd, Hm in *. destruct (f _ =? 0).
    + unfold memset_buf in Hy. by apply lookup_replicate in Hy as [-> _].
    + rewrite slice_lookup in Hy by zdm. apply bget_lookup.
      rewrite <- Hy. f_equal. zdm.
Qed.

(** Contents depend only on the blocks the map names. *)
Lemma content_frame s s' f k :
  (f (fidx (k / 1024)) ≠ 0 →
   blk (env s') (f (fidx (k / 1024))) = blk (env s) (f (fidx (k / 1024)))) →
  content s' f k = content s f k.
Proof.
  intros Hb. unfold content. destruct (Z.eqb_spec (f (fidx (k / 1024))) 0); [done|].
  by rewrite Hb.
Qed.

(** ** Reading *)

Definition ind_loaded s (n : ext2_inode) (ind : option (list Z)) : Prop :=
  ind = None ∨ ind = Some (blk (env s) (bget (i_block n) 12)).

Lemma wp_read_phys n bi ind s :
  fs_ok s → 0 ≤ bi → ind_loaded s n ind →
  wp (read_phys n bi ind) s (λ r s',
    frame (λ _, False) s s' ∧ mnt s' = mnt s ∧
    (∀ p ind', r = Some (p, ind') →
       p = file_map s n (fidx bi) ∧ ind_loaded s n ind') ∧
    (reliable (env s) → bi < 268 → ext2_data_blk_ok (mnt s) (bget (i_block n) 12) = true →
     r ≠ None)).
Proof.
  intros Hs Hbi Hi. pose proof (proj1 (proj1 Hs)) as Hg. unfold file_map, slots, fidx.
  apply wp_bind, wp_gets.
  replace (m_block_size (mnt s)) with 1024 by (symmetry; apply (go_bs _ Hg)). cbv zeta.
  change (12 + 1024 / 4) with 268.
  destruct (Z.ltb_spec bi 12) as [Hlt|Hge].
  { apply wp_ret. split_and!; [by apply frame_refl | done | | done].
    intros p ind' [= <- <-]. by destruct (Z.ltb_spec bi 13); [|lia]. }
  destruct (Z.ltb_spec (bi + 1) 13); [lia|].
  destruct (Z.ltb_spec bi 268) as [Hlt|Hge2].
  2:{ apply wp_ret. split_and!; [by apply frame_refl | done | done | lia]. }
  replace (bi + 1 - 13) with (bi - 12) by lia.
  destruct (Z.eqb_spec (bget (i_block n) 12) 0) as [E0|E0].
  { apply wp_ret. split_and!; [by apply frame_refl | done | | done].
    by intros p ind' [= <- <-]. }
  destruct (ext2_data_blk_ok (mnt s) (bget (i_block n) 12)) eqn:Ed; simpl.
  2:{ apply wp_ret. split_and!; [by apply frame_refl | done.. ]. }
  destruct ind as [b|].
  { destruct Hi as [|[= ->]]; [done|]. apply wp_ret.
    split_and!; [by apply frame_refl | done | | done].
    intros p ind' [= <- <-]. split; [done|]. by right. }
  wp_call wp_kmalloc. intros ok s1 (F1 & M1 & R1). destruct ok; simpl.
  2:{ apply wp_ret. split_and!; [done..|]. intros Hr. discriminate (R1 Hr). }
  wp_call wp_read_block. intros r s2 (F2 & M2 & B2 & R2).
  destruct r as [b|]; apply wp_ret.
  - rewrite (proj2 (B2 b eq_refl)), (frame_same _ _ _ F1).
    split_and!; [frame_tac | congruence | | done].
    intros p ind' [= <- <-]. split; [done|]. by right.
  - split_and!; [frame_tac | congruence | done |]. intros Hr _ _ _.
    apply data_blk_ok_spec in Ed as [|Hd]; [done|].
    apply (R2 ltac:(frame_fact)); [|done]. rewrite M1. by apply data_vol.
Qed.

(** Every pointer of the map of [n] passes the range check. *)
Definition ptrs_ok s (n : ext2_inode) : Prop :=
  ∀ j, 0 ≤ j < 269 → ext2_data_blk_ok (mnt s) (file_map s n j) = true.

Lemma frame_ind_loaded s s' n ind :
  frame (λ _, False) s s' → ind_loaded s n ind → ind_loaded s' n ind.
Proof. intros F. unfold ind_loaded. by rewrite (frame_same _ _ _ F). Qed.

Lemma fbytes_same s s' f off n :
  frame (λ _, False) s s' → fbytes s' f off n = fbytes s f off n.
Proof.
  intros F. unfold fbytes. apply list_fmap_ext. intros i x _. apply content_frame.
  intros _. by apply frame_same.
Qed.

Lemma file_map_same s s' n :
  frame (λ _, False) s s' → file_map s' n = file_map s n.
Proof. intros F. unfold file_map. by rewrite (frame_same _ _ _ F). Qed.

(** ext2_read_data's loop: it extends the bytes delivered by right ones. *)
Lemma wp_read_loop fuel n off size ind out s :
  fs_ok s → 0 ≤ off → off + size < 4294967296 →
  ind_loaded s n ind →
  out = fbytes s (file_map s n) off (zlength out) → zlength out ≤ size →
  (zlength out < size →
   (off + size + 1023) / 1024 - (off + zlength out) / 1024 ≤ Z.of_nat fuel) →
  wp (read_loop fuel n off size ind out) s (λ r s',
    frame (λ _, False) s s' ∧ mnt s' = mnt s ∧
    r = fbytes s (file_map s n) off (zlength r) ∧ zlength r ≤ size ∧
    (reliable (env s) → ptrs_ok s n → off + size ≤ 268 * 1024 → zlength r = size)).
Proof.
  revert ind out s. induction fuel as [|fuel IH];
    intros ind out s Hs Hoff Hsz Hind Hout Hle Hfuel.
  { assert (size = zlength out).
    { destruct (decide (zlength out < size)) as [Hlt|]; [|lia].
      specialize (Hfuel Hlt). zdm. }
    apply wp_ret. split_and!; [by apply frame_refl|done..]. }
  assert (0 ≤ zlength out) as Hl0 by (unfold zlength; lia).
  pose proof (proj1 (proj1 Hs)) as Hg. cbn [read_loop].
  destruct (Z.ltb_spec (zlength out) size) as [Hlt|Hge]; [specialize (Hfuel Hlt)|].
  2:{ apply wp_ret. split_and!; [by apply frame_refl|done|done|done|lia]. }
  apply wp_bind, wp_gets.
  replace (m_block_size (mnt s)) with 1024 by (symmetry; apply (go_bs _ Hg)). cbv zeta.
  set (k := off + zlength out) in *. rewrite (u32_small k) by lia.
  rewrite (u32_small (1024 - k mod 1024)), (u32_small (size - zlength out)) by zdm.
  set (c := Z.min (1024 - k mod 1024) (size - zlength out)).
  assert (0 < c ≤ 1024 - k mod 1024 ∧ c ≤ size - zlength out) as [Hc1 Hc2] by zdm.
  wp_call wp_read_phys; [zdm|]. intros r s1 (F1 & M1 & B1 & R1).
  assert (ptrs_ok s n → off + size ≤ 268 * 1024 →
          k / 1024 < 268 ∧ ext2_data_blk_ok (mnt s) (bget (i_block n) 12) = true ∧
          ext2_data_blk_ok (mnt s) (file_map s n (fidx (k / 1024))) = true) as Hptr.
  { intros Hp Hm. split; [zdm|]. split; [apply (Hp 12); lia|].
    apply Hp. unfold fidx. case_if; zdm. }
  destruct r as [[p ind']|].
  2:{ apply wp_ret. split_and!; [done..|]. intros Hr Hp Hm.
      destruct (Hptr Hp Hm) as (? & ? & _). by destruct (R1 Hr). }
  destruct (B1 p ind' eq_refl) as [Hpe Hind'].
  assert (∀ s2 data, frame (λ _, False) s s2 → mnt s2 = mnt s →
      data = fbytes s (file_map s n) k c →
      wp (read_loop fuel n off size ind' (out ++ data)) s2 (λ r s',
        frame (λ _, False) s s' ∧ mnt s' = mnt s ∧
        r = fbytes s (file_map s n) off (zlength r) ∧ zlength r ≤ size ∧
        (reliable (env s) → ptrs_ok s n → off + size ≤ 268 * 1024 → zlength r = size)))
    as Hnext.
  { intros s2 data F2 M2 Hdata.
    assert (zlength (out ++ data) = zlength out + c) as Hlen.
    { unfold zlength at 1. rewrite length_app, Nat2Z.inj_add. fold (zlength out) (zlength data).
      rewrite Hdata, zlength_fbytes by lia. done. }
    eapply wp_mono; [apply (IH ind' (out ++ data) s2)|]; rewrite ?Hlen; try (frame_fact || lia).
    - by apply (frame_ind_loaded s s2).
    - rewrite (fbytes_same _ _ _ _ _ F2), (file_map_same _ _ _ F2), fbytes_app by lia.
      rewrite <- Hout. fold k. by rewrite <- Hdata.
    - intros ?. subst k c. zdm.
    - intros r s' (F3 & M3 & Hr & Hrl & Hrel).
      rewrite (fbytes_same _ _ _ _ _ F2), (file_map_same _ _ _ F2) in Hr.
      split_and!; [frame_tac | congruence | done | done |].
      intros Hr0 Hp Hm. apply Hrel; [frame_fact | | done].
      unfold ptrs_ok. by rewrite (file_map_same _ _ _ F2), M2. }
  pose proof (fbytes_chunk s (file_map s n) k c ltac:(lia) ltac:(lia) ltac:(lia)) as Hch.
  cbv zeta in Hch. rewrite <- Hpe in *.
  destruct (p =? 0) eqn:Ep0; [by apply Hnext|].
  destruct (ext2_data_blk_ok (mnt s) p) eqn:Epd; simpl.
  2:{ apply wp_ret. split_and!; [done..|]. intros Hr Hp Hm.
      by destruct (Hptr Hp Hm) as (_ & _ & ?). }
  wp_call wp_read_block. intros r s2 (F2 & M2 & B2 & R2).
  assert (frame (λ _, False) s s2) as F12 by frame_tac.
  destruct r as [b|].
  - apply Hnext; [done | congruence |].
    rewrite (proj2 (B2 b eq_refl)), (frame_same _ _ _ F1). done.
  - apply wp_ret. split_and!; [done | congruence | done | done |]. intros Hr Hp Hm.
    apply Z.eqb_neq in Ep0. apply data_blk_ok_spec in Epd as [|Hd]; [done|].
    destruct (R2 ltac:(frame_fact)); [|done]. rewrite M1. by apply data_vol.
Qed.

(** ext2_read_data: a prefix of the requested bytes of the file, all of
    them on a reliable device. *)
Lemma wp_read_data n off size s :
  fs_ok s → inode_ok n → 0 ≤ off < 4294967296 → 0 ≤ size < 4294967296 →
  wp (ext2_read_data n off size) s (λ r s',
    frame (λ _, False) s s' ∧ mnt s' = mnt s ∧
    r = fbytes s (file_map s n) off (zlength r) ∧
    zlength r ≤ Z.max 0 (Z.min size (i_size n - off)) ∧
    (reliable (env s) → ptrs_ok s n → i_size n ≤ 268 * 1024 →
     zlength r = Z.max 0 (Z.min size (i_size n - off)))).
Proof.
  intros Hs Hn Hoff Hsz. unfold ext2_read_data.
  assert (0 ≤ i_size n < 4294967296) as Hi by apply (inode_ok_size n Hn).
  destruct (Z.geb_spec off (i_size n)).
  { apply wp_ret. unfold zlength. split_and!; [by apply frame_refl|done|done| |]; simpl; lia. }
  rewrite (u32_small (i_size n - off)) by lia.
  replace (if size >? i_size n - off then i_size n - off else size)
    with (Z.max 0 (Z.min size (i_size n - off))) by (case_if; lia).
  set (sz := Z.max 0 _). apply wp_bind, wp_gets.
  pose proof (proj1 (proj1 Hs)) as Hg.
  replace (m_block_size (mnt s)) with 1024 by (symmetry; apply (go_bs _ Hg)). cbv zeta.
  wp_call wp_kmalloc. intros ok s1 (F1 & M1 & R1). destruct ok; simpl.
  2:{ apply wp_ret. unfold zlength. split_and!; [done..|simpl; lia|].
      intros Hr. discriminate (R1 Hr). }
  eapply wp_mono; [apply wp_read_loop; try (frame_fact || lia)|].
  - by left.
  - done.
  - change (zlength []) with 0. lia.
  - intros _. change (zlength []) with 0. zdm.
  - intros r s2 (F2 & M2 & Hr & Hl & Hrel).
    rewrite (fbytes_same _ _ _ _ _ F1), (file_map_same _ _ _ F1) in Hr.
    split_and!; [frame_tac | congruence | done | done |].
    intros Hr0 Hp Hm. apply Hrel; [frame_fact| |lia].
    unfold ptrs_ok. by rewrite (file_map_same _ _ _ F1), M1.
Qed.
End map.
