(* ===== verification/Ext2WriteSpec.v ===== *)
(** * ext2: what writing file data does on a reliable device

    The proof tracks the block map of the file (with the indirect block as
    it is in memory), that the map names distinct data blocks in use, and the
    contents it denotes.  An allocation changes the map and not the contents;
    a data write changes the contents of its range and not the map. *)

From S2P Require Import Prelude Bytes Block Ext2Types Ext2Core Ext2Alloc.
From S2P Require Import Ext2File.

Section write.
Context {E : Type} `{BlockEnvOk E}.
Implicit Types s : fsys E.

Definition feq (f g : Z → Z) : Prop := ∀ j, 0 ≤ j < 269 → f j = g j.

(** A block map names data blocks that are in use, each in one slot. *)
Definition map_ok s (f : Z → Z) : Prop :=
  (∀ j, 0 ≤ j < 269 → f j ≠ 0 → is_data (geom_of (mnt s)) (f j) ∧ blk_used s (f j) = true) ∧
  (∀ i j, 0 ≤ i < 269 → 0 ≤ j < 269 → f i ≠ 0 → f i = f j → i = j).

Lemma fidx_range k : 0 ≤ k < 274432 → 0 ≤ fidx (k / 1024) < 269 ∧ fidx (k / 1024) ≠ 12.
Proof. intros. unfold fidx. case_if; zdm. Qed.

Lemma map_ok_feq s f g : feq f g → map_ok s f → map_ok s g.
Proof.
  intros Hfg [H1 H2]. split.
  - intros j Hj. rewrite <- Hfg by done. by apply H1.
  - intros i j Hi Hj. rewrite <- !Hfg by done. by apply H2.
Qed.

Lemma content_feq s f g k : 0 ≤ k < 274432 → feq f g → content s f k = content s g k.
Proof.
  intros Hk Hfg. unfold content. by rewrite Hfg by (by apply fidx_range).
Qed.

Lemma map_ok_state s s' f :
  geom_of (mnt s') = geom_of (mnt s) →
  (∀ b, is_data (geom_of (mnt s)) b → blk_used s b = true → blk_used s' b = true) →
  map_ok s f → map_ok s' f.
Proof.
  intros Hg Hu [H1 H2]. split; [|done]. intros j Hj Hn. rewrite Hg.
  destruct (H1 j Hj Hn). auto.
Qed.

(** ** Allocation *)

Lemma alloc_used s s' r b :
  fs_ok s → alloc_done s s' r → is_data (geom_of (mnt s)) b →
  blk_used s' b = true ↔ blk_used s b = true ∨ b = r.
Proof.
  intros Hs A Hb. pose proof (proj1 (proj1 Hs)) as Hg.
  pose proof (go_bb _ Hg). pose proof (go_blocks _ Hg).
  pose proof (ad_data _ _ _ A) as Hr. unfold is_data in *.
  unfold blk_used. rewrite (ad_bm _ _ _ A).
  assert (zlength (bbitmap s) = 1024) as Hl by apply zlength_blk.
  destruct (decide (b = r)) as [->|Hne].
  - rewrite bm_test_set_eq by (rewrite ?Hl; lia). tauto.
  - rewrite bm_test_set_ne by (rewrite ?Hl; lia). tauto.
Qed.

Lemma alloc_blk s s' r b :
  fs_ok s → alloc_done s s' r → is_data (geom_of (mnt s)) b → blk_used s b = true →
  blk (env s') b = blk (env s) b.
Proof.
  intros Hs A Hb Hu. pose proof (go_bb _ (proj1 (proj1 Hs))).
  apply (fr_blk _ _ _ (ad_frame _ _ _ A)). pose proof (ad_free _ _ _ A).
  unfold is_data in Hb. intros [?|[?|[?|?]]]; [lia..|]. congruence.
Qed.

Lemma alloc_map s s' r f j :
  fs_ok s → alloc_done s s' r → map_ok s f → 0 ≤ j < 269 → f j = 0 →
  map_ok s' (fupd f j r) ∧
  ∀ k, 0 ≤ k < 274432 → content s' (fupd f j r) k = content s f k.
Proof.
  intros Hs A [H1 H2] Hj Hfj.
  assert (r ≠ 0) as Hr0.
  { pose proof (ad_data _ _ _ A) as Hd. pose proof (go_bb _ (proj1 (proj1 Hs))).
    unfold is_data in Hd. lia. }
  split; [split|].
  - intros i Hi. unfold fupd. rewrite (fr_geom _ _ _ (ad_frame _ _ _ A)). case_decide.
    + intros _. pose proof (ad_data _ _ _ A) as Hd. split; [done|].
      apply (alloc_used s s' r); auto.
    + intros Hn. destruct (H1 i Hi Hn) as [Hd Hu]. split; [done|].
      apply (alloc_used s s' r); auto.
  - intros i i' Hi Hi'. unfold fupd. repeat case_decide; subst; try done.
    + intros _ ->. destruct (H1 i' Hi') as [_ Hu]; [done|].
      rewrite (ad_free _ _ _ A) in Hu. done.
    + intros Hn Heq. destruct (H1 i Hi Hn) as [_ Hu].
      rewrite Heq, (ad_free _ _ _ A) in Hu. done.
    + intros Hn Heq. by apply H2.
  - intros k Hk. destruct (fidx_range k Hk) as [Hx _].
    unfold content, fupd. case_decide as Hxj.
    + rewrite Hxj, Hfj. destruct (r =? 0); [done|].
      rewrite (ad_zero _ _ _ A). apply bget_memset.
    + destruct (Z.eqb_spec (f (fidx (k / 1024))) 0) as [|Hn]; [done|].
      destruct (H1 _ Hx Hn). by rewrite (alloc_blk s s' r).
Qed.

(** The allocator on a reliable device. *)
Lemma wp_alloc_reliable s :
  fs_ok s → reliable (env s) →
  wp ext2_alloc_block s (λ r s',
    r = 0 ∧ no_free_block s ∧ mnt s' = mnt s ∧ frame (λ _, False) s s' ∨
    r ≠ 0 ∧ alloc_done s s' r).
Proof.
  intros Hs Hr. eapply wp_mono; [by apply wp_alloc_block|]. cbn beta.
  intros r s' [[-> A]|A]; [left|right].
  - destruct (af_reliable _ _ A Hr) as [Hn Hb]. split_and!; [done..|apply A|].
    destruct (af_frame _ _ A). by constructor.
  - split; [|done]. pose proof (ad_data _ _ _ A) as Hd.
    pose proof (go_bb _ (proj1 (proj1 Hs))). unfold is_data in Hd. lia.
Qed.

(** ** The write in progress *)

(** The block map with the indirect block as the write has it in memory. *)
Definition wmap s (w : wstate) : Z → Z :=
  slots (w_in w) (default (blk (env s) (bget (i_block (w_in w)) 12)) (w_ind w)).

Record winv s (w : wstate) : Prop := {
  wi_inode : inode_ok (w_in w);
  wi_map : map_ok s (wmap s w);
  wi_buf b : w_ind w = Some b →
    w_ibuf w = true ∧ bytes_ok b ∧ length b = 1024%nat ∧ bget (i_block (w_in w)) 12 ≠ 0;
  wi_clean b : w_dirty w = false → w_ind w = Some b →
    blk (env s) (bget (i_block (w_in w)) 12) = b;
  wi_dirty : w_dirty w = true → w_ind w ≠ None;
  wi_tail k : 13 ≤ k → bget (i_block (w_in w)) k = 0;
}.

(** Blocks a write to the file with map [f0] may touch in [s0]. *)
Definition touch s0 (f0 : Z → Z) (b : Z) : Prop :=
  b = 1 ∨ b = 2 ∨ b = g_bb (geom_of (mnt s0)) ∨
  is_data (geom_of (mnt s0)) b ∧
    (blk_used s0 b = false ∨ ∃ j, 0 ≤ j < 269 ∧ f0 j = b).

Record wrel s0 (f0 : Z → Z) s (w : wstate) : Prop := {
  wr_inv : winv s w;
  wr_rel : reliable (env s);
  wr_frame : frame (touch s0 f0) s0 s;
  wr_used b : is_data (geom_of (mnt s0)) b → blk_used s0 b = true → blk_used s b = true;
  wr_grow j : 0 ≤ j < 269 →
    wmap s w j = f0 j ∨ f0 j = 0 ∧ blk_used s0 (wmap s w j) = false;
}.

(** A step that keeps the contents and the progress of the write. *)
Definition wkeep s0 f0 s w s' w' : Prop :=
  wrel s0 f0 s' w' ∧ w_wrote w' = w_wrote w ∧ i_size (w_in w') = i_size (w_in w) ∧
  ∀ k, 0 ≤ k < 274432 → content s' (wmap s' w') k = content s (wmap s w) k.

Lemma wkeep_trans s0 f0 s1 w1 s2 w2 s3 w3 :
  wkeep s0 f0 s1 w1 s2 w2 → wkeep s0 f0 s2 w2 s3 w3 → wkeep s0 f0 s1 w1 s3 w3.
Proof.
  intros (_ & H1 & H2 & H3) (H4 & H5 & H6 & H7). split_and!; [done|congruence..|].
  intros k Hk. by rewrite H7, H3.
Qed.

(** Reads and heap requests. *)
Lemma wkeep_same s0 f0 s w s' :
  wrel s0 f0 s w → frame (λ _, False) s s' → mnt s' = mnt s → wkeep s0 f0 s w s' w.
Proof.
  intros [[I1 I2 I3 I4 I5 I6] R F U G] F' M.
  assert (wmap s' w = wmap s w) as Hw by (unfold wmap; by rewrite (frame_same _ _ _ F')).
  assert (∀ b, blk_used s' b = blk_used s b) as Hu.
  { intros b. unfold blk_used, bbitmap. by rewrite M, (frame_same _ _ _ F'). }
  split_and!; [|done..|].
  - constructor; [constructor| | | |]; rewrite ?Hw; auto.
    + apply (map_ok_state s); [by rewrite M | intros b; by rewrite Hu | done].
    + intros b. rewrite (frame_same _ _ _ F'). apply I4.
    + frame_fact.
    + frame_tac.
    + intros b. rewrite Hu. apply U.
  - intros k Hk. rewrite Hw. apply content_frame. intros _. by apply frame_same.
Qed.

(** An allocation linked into slot [j]. *)
Lemma wkeep_alloc s0 f0 s w s' w' j r :
  wrel s0 f0 s w → alloc_done s s' r → 0 ≤ j < 269 → wmap s w j = 0 →
  feq (wmap s' w') (fupd (wmap s w) j r) →
  inode_ok (w_in w') → (∀ k, 13 ≤ k → bget (i_block (w_in w')) k = 0) →
  w_wrote w' = w_wrote w → i_size (w_in w') = i_size (w_in w) →
  (∀ b, w_ind w' = Some b →
    w_ibuf w' = true ∧ bytes_ok b ∧ length b = 1024%nat ∧
    bget (i_block (w_in w')) 12 ≠ 0 ∧
    (w_dirty w' = false → blk (env s') (bget (i_block (w_in w')) 12) = b)) →
  (w_dirty w' = true → w_ind w' ≠ None) →
  wkeep s0 f0 s w s' w'.
Proof.
  intros [Iv R F U G] A Hj Hz Hf Hi Ht Hwr Hsz Hbuf Hd.
  assert (fs_ok s) as Hs by apply F.
  assert (geom_of (mnt s) = geom_of (mnt s0)) as Hg by apply F.
  destruct (alloc_map s s' r (wmap s w) j Hs A (wi_map _ _ Iv) Hj Hz) as [Hm Hc].
  assert (feq (fupd (wmap s w) j r) (wmap s' w')) as Hf' by (intros x Hx; by rewrite Hf).
  pose proof (ad_data _ _ _ A) as Hrd. rewrite Hg in Hrd.
  assert (blk_used s0 r = false) as Hr0.
  { destruct (blk_used s0 r) eqn:Eu; [|done].
    pose proof (ad_free _ _ _ A) as Hfr. by rewrite (U r Hrd Eu) in Hfr. }
  split_and!; [|done..|].
  - constructor.
    + constructor; try done.
      * by apply (map_ok_feq _ _ _ Hf').
      * intros b Hb. by destruct (Hbuf b Hb) as (? & ? & ? & ? & _).
      * intros b Hb1 Hb2. by apply (Hbuf b Hb2).
    + apply A. done.
    + eapply frame_trans; [exact F | apply A |]. intros b.
      rewrite Hg. unfold touch. intros [?|[?|[?|[?| ->]]]]; auto 6.
    + intros b Hb Hu. apply (alloc_used s s' r); [done|done|by rewrite Hg|]. left. auto.
    + intros x Hx. rewrite Hf by done. unfold fupd. case_decide as Hxj; [|by apply G].
      subst x. right. split; [|done]. destruct (G j Hx) as [<-|[]]; done.
  - intros k Hk. rewrite (content_feq _ _ _ k Hk Hf). by apply Hc.
Qed.

Lemma no_free_same s s' :
  no_free_block s → frame (λ _, False) s s' → mnt s' = mnt s → no_free_block s'.
Proof.
  unfold no_free_block, blk_used, bbitmap. intros Hn F M.
  by rewrite M, (frame_same _ _ _ F).
Qed.

(** ** Linking a block *)

Lemma alloc_fits s s' r : fs_ok s → alloc_done s s' r → r ≠ 0 ∧ fits 4 r.
Proof.
  intros Hs A. pose proof (ad_data _ _ _ A) as Hd. pose proof (proj1 (proj1 Hs)) as Hg.
  pose proof (go_bb _ Hg). pose proof (go_blocks _ Hg). unfold is_data, fits in *.
  change (256 ^ Z.of_nat 4) with 4294967296. lia.
Qed.

Lemma link_block_ok m n k r : inode_ok n → fits 4 r → inode_ok (link_block m n k r).
Proof.
  intros Hn Hr. unfold link_block. apply set_i_blocks_ok; [|apply u32_range].
  by apply set_ptr_ok.
Qed.

Lemma link_block_ptr m n k r j :
  inode_ok n → 0 ≤ k < 15 → 0 ≤ j →
  bget (i_block (link_block m n k r)) j = if decide (j = k) then r else bget (i_block n) j.
Proof.
  intros (Hl & _) Hk Hj. unfold link_block. simpl. case_decide.
  - subst. apply bget_bset_eq; unfold zlength; lia.
  - apply bget_bset_ne; lia.
Qed.

Lemma slots_link m n k r ind ind' :
  inode_ok n → 0 ≤ k < 13 →
  (∀ j, 13 ≤ j < 269 → slots n ind j = slots (link_block m n k r) ind' j) →
  feq (slots (link_block m n k r) ind') (fupd (slots n ind) k r).
Proof.
  intros Hn Hk Ht j Hj. destruct (decide (13 ≤ j)).
  - rewrite <- Ht by lia. unfold fupd. case_decide; [lia|done].
  - unfold slots, fupd. destruct (Z.ltb_spec j 13); [|lia].
    rewrite link_block_ptr by (done || lia). done.
Qed.

Lemma slots_no_ind n ind j : bget (i_block n) 12 = 0 → 13 ≤ j → slots n ind j = 0.
Proof.
  intros Hz Hj. unfold slots. destruct (Z.ltb_spec j 13); [lia|]. by rewrite Hz.
Qed.

(** The disk copy of the indirect block survives an allocation. *)
Lemma alloc_indirect s s' r w :
  fs_ok s → winv s w → alloc_done s s' r → bget (i_block (w_in w)) 12 ≠ 0 →
  blk (env s') (bget (i_block (w_in w)) 12) = blk (env s) (bget (i_block (w_in w)) 12).
Proof.
  intros Hs Iv A Hn. destruct (proj1 (wi_map _ _ Iv) 12 ltac:(lia) Hn).
  by apply (alloc_blk s s' r).
Qed.

Lemma wrel_ibuf s0 f0 s w :
  wrel s0 f0 s w →
  wkeep s0 f0 s w s (mk_wstate (w_in w) (w_wrote w) true (w_ind w) (w_dirty w)).
Proof.
  intros [[I1 I2 I3 I4 I5 I6] R F U G]. split_and!; [|done..].
  constructor; try done. constructor; try done. intros b Hb. by destruct (I3 b Hb).
Qed.

(** The slots a direct link leaves alone. *)
Lemma slots_direct_tail s s' w m k r :
  fs_ok s → winv s w → alloc_done s s' r → 0 ≤ k < 12 →
  ∀ j, 13 ≤ j < 269 →
    wmap s w j =
    slots (link_block m (w_in w) k r)
      (default (blk (env s') (bget (i_block (link_block m (w_in w) k r)) 12)) (w_ind w)) j.
Proof.
  intros Hs Iv A Hk j Hj. unfold wmap.
  assert (bget (i_block (link_block m (w_in w) k r)) 12 = bget (i_block (w_in w)) 12) as Hp.
  { rewrite link_block_ptr by (apply Iv || lia). by case_decide; [lia|]. }
  destruct (decide (bget (i_block (w_in w)) 12 = 0)) as [Hz|Hz].
  - rewrite !slots_no_ind; [done|congruence|lia|done|lia].
  - unfold slots. rewrite !Hp. destruct (Z.ltb_spec j 13); [lia|].
    rewrite (proj2 (Z.eqb_neq _ _) Hz). rewrite (alloc_indirect s s' r) by done. done.
Qed.

Lemma winv_no_ind s w : winv s w → bget (i_block (w_in w)) 12 = 0 → w_ind w = None ∧ w_dirty w = false.
Proof.
  intros Iv Hz. destruct (w_ind w) as [b|] eqn:Eb.
  - by destruct (wi_buf _ _ Iv b Eb) as (_ & _ & _ & ?).
  - split; [done|]. destruct (w_dirty w) eqn:Ed; [|done]. by destruct (wi_dirty _ _ Iv Ed).
Qed.

(** Link a fresh block in a direct slot. *)
Lemma wkeep_direct s0 f0 s w s' m k r :
  wrel s0 f0 s w → alloc_done s s' r → 0 ≤ k < 12 → bget (i_block (w_in w)) k = 0 →
  let w' := mk_wstate (link_block m (w_in w) k r) (w_wrote w) (w_ibuf w) (w_ind w) (w_dirty w) in
  wkeep s0 f0 s w s' w' ∧ wmap s' w' k = r.
Proof.
  intros W A Hk Hz w'. pose proof (wr_inv _ _ _ _ W) as Iv.
  assert (fs_ok s) as Hs by apply W. destruct (alloc_fits s s' r Hs A) as [Hr0 Hrf].
  assert (∀ j, 0 ≤ j → bget (i_block (w_in w')) j =
               if decide (j = k) then r else bget (i_block (w_in w)) j) as Hp.
  { intros j Hj. apply link_block_ptr; [apply Iv|lia..]. }
  split.
  2:{ unfold wmap, slots. destruct (Z.ltb_spec k 13); [|lia]. rewrite Hp by lia.
      by rewrite decide_True. }
  eapply (wkeep_alloc s0 f0 s w s' w' k r); try done.
  - lia.
  - unfold wmap, slots. by destruct (Z.ltb_spec k 13); [|lia].
  - apply slots_link; [apply Iv|lia|].
    exact (slots_direct_tail s s' w m k r Hs Iv A Hk).
  - by apply link_block_ok; [apply Iv|].
  - intros j Hj. rewrite Hp by lia. rewrite decide_False by lia. by apply (wi_tail _ _ Iv).
  - intros b Hb. destruct (wi_buf _ _ Iv b Hb) as (? & ? & ? & Hn).
    rewrite Hp by lia. rewrite decide_False by lia. split_and!; try done.
    intros Hd. rewrite (alloc_indirect s s' r) by done. by apply (wi_clean _ _ Iv).
  - apply (wi_dirty _ _ Iv).
Qed.

(** Link a fresh, empty indirect block. *)
Lemma wkeep_indirect s0 f0 s w s' m r :
  wrel s0 f0 s w → alloc_done s s' r → bget (i_block (w_in w)) 12 = 0 →
  wkeep s0 f0 s w s'
    (mk_wstate (link_block m (w_in w) 12 r) (w_wrote w) true
       (Some (memset_buf 0 1024)) (w_dirty w)).
Proof.
  intros W A Hz. pose proof (wr_inv _ _ _ _ W) as Iv.
  assert (fs_ok s) as Hs by apply W. destruct (alloc_fits s s' r Hs A) as [Hr0 Hrf].
  set (w' := mk_wstate _ _ _ _ _).
  assert (∀ j, 0 ≤ j → bget (i_block (w_in w')) j =
               if decide (j = 12) then r else bget (i_block (w_in w)) j) as Hp.
  { intros j Hj. apply link_block_ptr; [apply Iv|lia..]. }
  destruct (winv_no_ind s w Iv Hz) as [Hi Hd].
  eapply (wkeep_alloc s0 f0 s w s' w' 12 r); try done.
  - apply slots_link; [apply Iv|lia|]. intros j Hj.
    rewrite slots_no_ind by (done || lia). unfold slots.
    destruct (Z.ltb_spec j 13); [lia|]. destruct (_ =? 0); [done|].
    simpl. by rewrite rd32_memset.
  - by apply link_block_ok; [apply Iv|].
  - intros j Hj. rewrite Hp by lia. rewrite decide_False by lia. by apply (wi_tail _ _ Iv).
  - intros b [= <-]. rewrite Hp, decide_True by lia.
    split_and!; try done.
    + apply bytes_ok_replicate. unfold is_byte; lia.
    + intros _. apply (ad_zero _ _ _ A).
Qed.

(** Link a fresh block in an entry of the indirect block. *)
Lemma wkeep_entry s0 f0 s w s' ents e r v :
  wrel s0 f0 s w → alloc_done s s' r → w_ind w = Some ents → 0 ≤ e < 256 →
  rd32 ents (e * 4) = 0 → 
  let w' := mk_wstate (set_i_blocks (u32 v) (w_in w)) (w_wrote w) true
              (Some (wr32 ents (e * 4) r)) true in
  wkeep s0 f0 s w s' w' ∧ wmap s' w' (e + 13) = r.
Proof.
  intros W A Hi He Hz w'. pose proof (wr_inv _ _ _ _ W) as Iv.
  assert (fs_ok s) as Hs by apply W. destruct (alloc_fits s s' r Hs A) as [Hr0 Hrf].
  destruct (wi_buf _ _ Iv ents Hi) as (Hb & Hby & Hl & Hn).
  assert (zlength ents = 1024) as Hzl by (unfold zlength; lia).
  assert (feq (wmap s' w') (fupd (wmap s w) (e + 13) r)) as Hf.
  { intros j Hj. unfold wmap, fupd, slots. rewrite Hi. simpl.
    destruct (Z.ltb_spec j 13); [case_decide; [lia|done]|].
    rewrite (proj2 (Z.eqb_neq _ _) Hn). case_decide.
    - subst j. replace (e + 13 - 13) with e by lia. apply rd32_wr32_eq; [lia..|done].
    - apply rd32_wr32_ne; lia. }
  split; [|rewrite Hf by lia; unfold fupd; by rewrite decide_True].
  eapply (wkeep_alloc s0 f0 s w s' w' (e + 13) r); try done.
  - lia.
  - unfold wmap, slots. destruct (Z.ltb_spec (e + 13) 13); [lia|].
    rewrite (proj2 (Z.eqb_neq _ _) Hn), Hi. simpl.
    by replace (e + 13 - 13) with e by lia.
  - apply set_i_blocks_ok; [apply Iv | apply u32_range].
  - intros j Hj. by apply (wi_tail _ _ Iv).
  - intros b [= <-]. split_and!; try done.
    + apply Forall_splice; [done | apply le_enc_bytes].
    + unfold wr32. by rewrite length_splice.
Qed.

(** Load the indirect block. *)
Lemma wkeep_load s0 f0 s w :
  wrel s0 f0 s w → w_ind w = None → bget (i_block (w_in w)) 12 ≠ 0 →
  wkeep s0 f0 s w s
    (mk_wstate (w_in w) (w_wrote w) true
       (Some (blk (env s) (bget (i_block (w_in w)) 12))) (w_dirty w)).
Proof.
  intros [[I1 I2 I3 I4 I5 I6] R F U G] Hi Hn.
  set (w' := mk_wstate _ _ _ _ _).
  assert (wmap s w' = wmap s w) as Hw by (unfold wmap; by rewrite Hi).
  split_and!; [|done..|by rewrite Hw].
  constructor; rewrite ?Hw; try done. constructor; rewrite ?Hw; try done.
  - intros b [= <-]. split_and!; [done|apply blk_bytes|apply length_blk|done].
  - by intros b _ [= <-].
Qed.

(** ** The write loop *)

Lemma wrel_fs s0 f0 s w : wrel s0 f0 s w → fs_ok s.
Proof. intros W. apply W. Qed.

Lemma wrel_bs s0 f0 s w : wrel s0 f0 s w → m_block_size (mnt s) = 1024.
Proof. intros W. apply (go_bs _ (proj1 (proj1 (wrel_fs _ _ _ _ W)))). Qed.

Lemma wp_write_indirect s0 f0 s w :
  wrel s0 f0 s w →
  wp (write_indirect w) s (λ r s',
    wkeep s0 f0 s w s' r.1 ∧ (r.2 = true → w_ind r.1 ≠ None) ∧
    (r.2 = false → no_free_block s')).
Proof.
  intros W. pose proof (wrel_fs _ _ _ _ W) as Hs. apply wp_bind, wp_gets.
  rewrite (wrel_bs _ _ _ _ W).
  apply wp_bind. eapply (wp_mono _ _ (λ ok s', ok = true ∧ frame (λ _, False) s s' ∧ mnt s' = mnt s)).
  { destruct (w_ibuf w); [apply wp_ret; split_and!; [done|by apply frame_refl|done]|].
    eapply wp_mono; [by apply wp_kmalloc|]. intros ok s' (F & M & R).
    split_and!; [apply R, (wr_rel _ _ _ _ W) | done..]. }
  intros ok s1 (-> & F1 & M1). simpl.
  pose proof (wkeep_same _ _ _ _ _ W F1 M1) as K1.
  pose proof (wkeep_trans _ _ _ _ _ _ _ _ K1 (wrel_ibuf _ _ _ _ (proj1 K1))) as K2.
  set (w2 := mk_wstate _ _ _ _ _) in *.
  apply wp_bind. eapply (wp_mono _ _ (λ r s',
    wkeep s0 f0 s w s' r.1 ∧ w_ibuf r.1 = true ∧
    (r.2 = true → bget (i_block (w_in r.1)) 12 ≠ 0) ∧ (r.2 = false → no_free_block s'))).
  { destruct (Z.eqb_spec (bget (i_block (w_in w)) 12) 0) as [Hz|Hz];
      [|apply wp_ret; cbn [fst snd]; split_and!; [done..]].
    wp_call wp_alloc_reliable. { apply (wr_rel _ _ _ _ (proj1 K1)). }
    intros r s2 [(-> & Hn & M2 & F2)|[Hr A]].
    - apply wp_ret. simpl. split_and!; [|done..|intros _; by eapply no_free_same].
      eapply wkeep_trans; [exact K2|]. by apply (wkeep_same _ _ _ _ _ (proj1 K2)).
    - rewrite (proj2 (Z.eqb_neq _ _) Hr). apply wp_ret. cbn [fst snd].
      pose proof (wkeep_indirect s0 f0 s1 w2 s2 (mnt s) r (proj1 K2) A Hz) as K3.
      split_and!; [by eapply wkeep_trans | done | | done].
      intros _. by apply (wi_buf _ _ (wr_inv _ _ _ _ (proj1 K3)) _ eq_refl). }
  intros [w3 ok] s2 (K3 & Hb & Hnz & Hnf). cbn [fst snd] in *.
  destruct ok; simpl; [|apply wp_ret; cbn [fst snd]; by split_and!].
  assert (is_data (geom_of (mnt s)) (bget (i_block (w_in w3)) 12)) as Hd.
  { pose proof (proj1 (wi_map _ _ (wr_inv _ _ _ _ (proj1 K3))) 12 ltac:(lia) (Hnz eq_refl)) as [Hd _].
    rewrite (fr_geom _ _ _ (wr_frame _ _ _ _ (proj1 K3))) in Hd.
    by rewrite (fr_geom _ _ _ (wr_frame _ _ _ _ W)). }
  rewrite (proj2 (data_blk_ok_spec _ _)) by (by right). simpl.
  destruct (w_ind w3) as [b|] eqn:Ei.
  { apply wp_ret. cbn [fst snd]. split_and!; [done| |done]. intros _. by rewrite Ei. }
  wp_call wp_read_block; [apply (wrel_fs _ _ _ _ (proj1 K3))|].
  intros r s3 (F3 & M3 & B3 & R3).
  pose proof (wkeep_same _ _ _ _ _ (proj1 K3) F3 M3) as K4.
  destruct r as [b|].
  - apply wp_ret. cbn [fst snd]. split_and!; [|done..].
    rewrite (proj2 (B3 b eq_refl)), <- (frame_same _ _ _ F3).
    eapply wkeep_trans; [exact K3|]. eapply wkeep_trans; [exact K4|].
    apply wkeep_load; [apply K4|done|by apply Hnz].
  - exfalso. apply R3; [apply (wr_rel _ _ _ _ (proj1 K3)) | | done].
    pose proof (wrel_fs _ _ _ _ (proj1 K3)) as Hs2.
    apply data_vol; [done|]. rewrite (fr_geom _ _ _ (wr_frame _ _ _ _ (proj1 K3))).
    by rewrite <- (fr_geom _ _ _ (wr_frame _ _ _ _ W)).
Qed.

Lemma wp_write_phys s0 f0 s w bi :
  wrel s0 f0 s w → 0 ≤ bi < 268 →
  wp (write_phys bi w) s (λ r s',
    wkeep s0 f0 s w s' r.1 ∧
    (∀ p, r.2 = Some p → wmap s' r.1 (fidx bi) = p ∧ p ≠ 0) ∧
    (r.2 = None → no_free_block s')).
Proof.
  intros W Hbi. pose proof (wrel_fs _ _ _ _ W) as Hs. apply wp_bind, wp_gets.
  rewrite (wrel_bs _ _ _ _ W). cbv zeta. change (12 + 1024 / 4) with 268.
  assert (wkeep s0 f0 s w s w) as K0 by (by apply (wkeep_same _ _ _ _ _ W), eq_refl; apply frame_refl).
  unfold fidx. destruct (Z.ltb_spec bi 12) as [Hlt|Hge].
  - destruct (Z.eqb_spec (bget (i_block (w_in w)) bi) 0) as [Hz|Hz].
    2:{ apply wp_ret. cbn [fst snd]. split_and!; [done| |done]. intros p [= <-].
        split; [|done]. unfold wmap, slots. by destruct (Z.ltb_spec bi 13); [|lia]. }
    wp_call wp_alloc_reliable. { apply (wr_rel _ _ _ _ W). }
    intros r s1 [(-> & Hn & M1 & F1)|[Hr A]].
    + apply wp_ret. cbn [fst snd]. split_and!; [by apply wkeep_same|done|].
      intros _. by eapply no_free_same.
    + rewrite (proj2 (Z.eqb_neq _ _) Hr). apply wp_ret. cbn [fst snd].
      destruct (wkeep_direct s0 f0 s w s1 (mnt s) bi r W A ltac:(lia) Hz) as [K Hw].
      split_and!; [done| |done]. by intros p [= <-].
  - destruct (Z.ltb_spec bi 268); [|lia].
    apply wp_bind. eapply wp_mono; [by apply wp_write_indirect|].
    intros [w1 ok] s1 (K1 & Hi & Hnf). cbn [fst snd] in *.
    destruct ok; simpl; [|apply wp_ret; cbn [fst snd]; by split_and!; [..|intros _; apply Hnf]].
    destruct (w_ind w1) as [ents|] eqn:Ei; [|by destruct (Hi eq_refl)]. simpl.
    destruct (wi_buf _ _ (wr_inv _ _ _ _ (proj1 K1)) ents Ei) as (_ & _ & _ & Hn12).
    destruct (Z.eqb_spec (rd32 ents ((bi - 12) * 4)) 0) as [Hz|Hz].
    2:{ apply wp_ret. cbn [fst snd]. split_and!; [done| |done]. intros p [= <-].
        split; [|done]. unfold wmap, slots. destruct (Z.ltb_spec (bi + 1) 13); [lia|].
        rewrite (proj2 (Z.eqb_neq _ _) Hn12), Ei. simpl. do 2 f_equal. lia. }
    wp_call wp_alloc_reliable; [apply (wrel_fs _ _ _ _ (proj1 K1)) | apply (wr_rel _ _ _ _ (proj1 K1))|].
    intros r s2 [(-> & Hn & M2 & F2)|[Hr A]].
    + apply wp_ret. cbn [fst snd]. split_and!; [|done|intros _; by eapply no_free_same].
      eapply wkeep_trans; [exact K1|]. by apply (wkeep_same _ _ _ _ _ (proj1 K1)).
    + rewrite (proj2 (Z.eqb_neq _ _) Hr). apply wp_ret. cbn [fst snd].
      destruct (wkeep_entry s0 f0 s1 w1 s2 ents (bi - 12) r (i_blocks (w_in w1) + 2)
                  (proj1 K1) A Ei ltac:(lia) Hz) as [K2 Hw].
      split_and!; [by eapply wkeep_trans| |done]. intros p [= <-].
      split; [|done]. by replace (bi + 1) with (bi - 12 + 13) by lia.
Qed.

(** Writing a block other than the indirect block and the bitmap leaves the
    map alone. *)
Lemma wrel_data s0 f0 s w s' j :
  wrel s0 f0 s w → 0 ≤ j < 269 → j ≠ 12 ∨ w_dirty w = true → wmap s w j ≠ 0 →
  frame (λ x, x = wmap s w j) s s' → mnt s' = mnt s →
  wrel s0 f0 s' w ∧ wmap s' w = wmap s w.
Proof.
  intros [Iv R F U G] Hj H12 Hp F' M.
  destruct (proj1 (wi_map _ _ Iv) j Hj Hp) as [Hd Hu].
  assert (fs_ok s) as Hs by apply F. pose proof (go_bb _ (proj1 (proj1 Hs))) as Hbb.
  assert (geom_of (mnt s) = geom_of (mnt s0)) as Hg by apply F.
  assert (∀ b, blk_used s' b = blk_used s b) as Hus.
  { intros b. unfold blk_used, bbitmap. rewrite M, (fr_blk _ _ _ F'); [done|].
    unfold is_data in Hd. lia. }
  assert (w_dirty w = false → bget (i_block (w_in w)) 12 ≠ 0 →
          blk (env s') (bget (i_block (w_in w)) 12) =
          blk (env s) (bget (i_block (w_in w)) 12)) as H12b.
  { intros Hdt Hn. apply (fr_blk _ _ _ F'). intros Heq. destruct H12 as [H12|]; [|congruence].
    apply H12. symmetry. apply (proj2 (wi_map _ _ Iv) 12 j); done || lia. }
  assert (wmap s' w = wmap s w) as Hw.
  { unfold wmap. destruct (w_dirty w) eqn:Edt.
    { pose proof (wi_dirty _ _ Iv Edt). by destruct (w_ind w). }
    destruct (decide (bget (i_block (w_in w)) 12 = 0)) as [Hz|Hn].
    - by rewrite (proj1 (winv_no_ind s w Iv Hz)), Hz; unfold slots; rewrite Hz.
    - by rewrite H12b. }
  split; [|done]. destruct Iv as [I1 I2 I3 I4 I5 I6].
  constructor; rewrite ?Hw; try done.
  - constructor; rewrite ?Hw; try done.
    + apply (map_ok_state s); [by rewrite M | intros b; by rewrite Hus | done].
    + intros b Hdt Hb. destruct (I3 b Hb) as (_ & _ & _ & ?).
      rewrite H12b by done. by apply I4.
  - frame_fact.
  - eapply frame_trans; [exact F | exact F' |]. cbn beta. intros b [?| ->]; [done|].
    unfold touch. rewrite <- Hg. right; right; right. split; [done|].
    destruct (G j Hj) as [Hf|[_ Hf]]; [right|by left]. by exists j.
  - intros b. rewrite Hus. apply U.
Qed.

Lemma content_write s s' f bi o data :
  map_ok s f → 0 ≤ bi < 268 → f (fidx bi) ≠ 0 →
  frame (λ x, x = f (fidx bi)) s s' →
  blk (env s') (f (fidx bi)) = splice (blk (env s) (f (fidx bi))) o data →
  0 ≤ o → o + zlength data ≤ 1024 →
  ∀ k, 0 ≤ k < 274432 →
    content s' f k =
      if decide (bi * 1024 + o ≤ k < bi * 1024 + o + zlength data)
      then bget data (k - (bi * 1024 + o)) else content s f k.
Proof.
  intros [_ Hinj] Hbi Hp F Hb Ho Hl k Hk. destruct (fidx_range k Hk) as [Hx _].
  assert (0 ≤ fidx bi < 269) as Hy by (unfold fidx; case_if; lia).
  destruct (decide (k / 1024 = bi)) as [Heq|Hne].
  - unfold content. rewrite Heq, (proj2 (Z.eqb_neq _ _) Hp), Hb.
    rewrite bget_splice by (rewrite ?zlength_blk; zdm).
    repeat case_decide; try zdm. f_equal. zdm.
  - rewrite decide_False by zdm. apply content_frame. intros Hn.
    apply (fr_blk _ _ _ F). intros Hc. apply Hne, fidx_inj. by apply Hinj.
Qed.

Lemma wrel_wrote s0 f0 s w v :
  wrel s0 f0 s w → wrel s0 f0 s (mk_wstate (w_in w) v (w_ibuf w) (w_ind w) (w_dirty w)).
Proof. intros [[] ? ? ? ?]. constructor; [|done..]. by constructor. Qed.

(** The contents after [n] bytes of [buf] went to offset [off]. *)
Definition written s0 (f0 : Z → Z) (off n : Z) (buf : list Z) (k : Z) : Z :=
  if decide (off ≤ k < off + n) then bget buf (k - off) else content s0 f0 k.

Record wloop_post s0 f0 off size buf s' w' (lo sz : Z) : Prop := {
  wl_rel : wrel s0 f0 s' w';
  wl_wrote : lo ≤ w_wrote w' ≤ size;
  wl_size : i_size (w_in w') = sz;
  wl_content k : 0 ≤ k < 274432 →
    content s' (wmap s' w') k = written s0 f0 off (w_wrote w') buf k;
  wl_full : w_wrote w' < size → no_free_block s';
}.

(** Read-modify-write of a block in the volume, then [K]. *)
Lemma wp_rmw_then {A} p o data (x : A) (K : ST (fsys E) A) s Q :
  fs_ok s → reliable (env s) → in_vol (geom_of (mnt s)) p → bytes_ok data →
  (∀ s', frame (λ b, b = p) s s' → mnt s' = mnt s →
         blk (env s') p = splice (blk (env s) p) o data → wp K s' Q) →
  wp (r ← ext2_read_block p;
      match r with
      | None => mret x
      | Some b => ok ← ext2_write_block p (splice b o data); if negb ok then mret x else K
      end) s Q.
Proof.
  intros Hs Hr Hv Hd HK. wp_call wp_read_block. intros r s1 (F1 & M1 & B1 & R1).
  destruct r as [b|]; [|by destruct (R1 Hr Hv)]. destruct (B1 b eq_refl) as [_ ->].
  wp_call wp_write_block.
  { by apply Forall_splice; [apply blk_bytes|]. } { by rewrite length_splice, length_blk. }
  intros ok s2 (F2 & M2 & B2 & R2). rewrite M1 in R2, B2.
  rewrite (R2 ltac:(frame_fact) Hv) in *. apply HK; [|congruence|by apply B2].
  frame_tac.
Qed.

Lemma wp_write_loop s0 f0 fuel off size buf w s :
  wrel s0 f0 s w → 0 ≤ off → off + size ≤ 274432 → size ≤ zlength buf → bytes_ok buf →
  0 ≤ w_wrote w ≤ size →
  (∀ k, 0 ≤ k < 274432 →
    content s (wmap s w) k = written s0 f0 off (w_wrote w) buf k) →
  (w_wrote w < size →
   (off + size + 1023) / 1024 - (off + w_wrote w) / 1024 ≤ Z.of_nat fuel) →
  wp (write_loop fuel off size buf w) s (λ w' s',
    wloop_post s0 f0 off size buf s' w' (w_wrote w) (i_size (w_in w))).
Proof.
  revert w s. induction fuel as [|fuel IH]; intros w s W Hoff Hcap Hbuf Hby Hw Hc Hfuel.
  { assert (size = w_wrote w).
    { destruct (decide (w_wrote w < size)) as [Hlt|]; [|lia]. specialize (Hfuel Hlt). zdm. }
    apply wp_ret. constructor; [done|lia|done|done|lia]. }
  cbn [write_loop]. destruct (Z.ltb_spec (w_wrote w) size) as [Hlt|Hge].
  2:{ apply wp_ret. constructor; [done|lia|done|done|lia]. }
  specialize (Hfuel Hlt). apply wp_bind, wp_gets.
  rewrite (wrel_bs _ _ _ _ W). cbv zeta.
  set (k := off + w_wrote w) in *. rewrite (u32_small k) by lia.
  rewrite (u32_small (1024 - k mod 1024)), (u32_small (size - w_wrote w)) by zdm.
  set (c := Z.min (1024 - k mod 1024) (size - w_wrote w)).
  assert (0 < c ≤ 1024 - k mod 1024 ∧ c ≤ size - w_wrote w) as [Hc1 Hc2] by zdm.
  assert (0 ≤ k / 1024 < 268) as Hbi by zdm.
  apply wp_bind. eapply wp_mono; [by apply wp_write_phys|].
  intros [w1 r] s1 ((W1 & Hw1 & Hz1 & K1) & Hp & Hn). cbn [fst snd] in *.
  assert (∀ k, 0 ≤ k < 274432 →
    content s1 (wmap s1 w1) k = written s0 f0 off (w_wrote w1) buf k) as Hc'.
  { intros x Hx. by rewrite K1, Hc, Hw1. }
  destruct r as [p|]; [|apply wp_ret; constructor; auto with lia].
  destruct (Hp p eq_refl) as [Hpe Hp0]. pose proof (wrel_fs _ _ _ _ W1) as Hs1.
  assert (0 ≤ fidx (k / 1024) < 269 ∧ fidx (k / 1024) ≠ 12) as [Hj H12]
    by (apply fidx_range; lia).
  destruct (proj1 (wi_map _ _ (wr_inv _ _ _ _ W1)) (fidx (k / 1024)) Hj) as [Hd _];
    [by rewrite Hpe|]. rewrite Hpe in Hd.
  assert (geom_of (mnt s1) = geom_of (mnt s)) as Hg.
  { by rewrite (fr_geom _ _ _ (wr_frame _ _ _ _ W1)), (fr_geom _ _ _ (wr_frame _ _ _ _ W)). }
  rewrite (proj2 (data_blk_ok_spec _ _)) by (rewrite <- Hg; by right). simpl.
  apply wp_rmw_then; [done | apply (wr_rel _ _ _ _ W1) | by apply data_vol
    | by apply bytes_ok_take, bytes_ok_drop |].
  intros s2 F2 M2 B2. rewrite <- Hpe in F2, B2.
  destruct (wrel_data s0 f0 s1 w1 s2 _ W1 Hj (or_introl H12) ltac:(congruence) F2 M2) as [W2 Hm2].
  assert (zlength (slice buf (w_wrote w1) c) = c) as Hlc.
  { unfold zlength. rewrite length_slice; lia. }
  rewrite Hw1 in *. rewrite (u32_small (w_wrote w + c)) by lia.
  set (w2 := mk_wstate _ _ _ _ _).
  eapply wp_mono; [apply (IH w2 s2)|]; try done; subst w2; cbn [w_wrote w_in].
  - by apply wrel_wrote.
  - lia.
  - intros x Hx. change (wmap s2 _) with (wmap s2 w1). rewrite Hm2.
    rewrite (content_write s1 s2 _ (k / 1024) (k mod 1024) (slice buf (w_wrote w) c));
      [|apply (wi_map _ _ (wr_inv _ _ _ _ W1))|done|congruence|done|done|zdm|lia|done].
    rewrite Hlc, Hc' by done. unfold written.
    replace (k / 1024 * 1024 + k mod 1024) with k by zdm.
    repeat case_decide; try lia. rewrite bget_slice by lia. f_equal. lia.
  - intros ?. subst k c. zdm.
  - intros w' s' [P1 P2 P3 P4 P5]. constructor; [done|lia|congruence|done|done].
Qed.

(** ** Finishing the write *)

(** A file: its map names distinct data blocks in use, no doubly indirect
    pointers, and the size within the capacity of the map. *)
Record file_ok s (n : ext2_inode) : Prop := {
  fo_inode : inode_ok n;
  fo_map : map_ok s (file_map s n);
  fo_tail k : 13 ≤ k → bget (i_block n) k = 0;
  fo_size : i_size n ≤ 274432;
}.

Lemma file_map_slot s n j : 0 ≤ j < 13 → file_map s n j = bget (i_block n) j.
Proof. intros. unfold file_map, slots. by destruct (Z.ltb_spec j 13); [|lia]. Qed.

Lemma file_ok_ptrs s n : file_ok s n → ptrs_ok s n.
Proof.
  intros [_ [Hm _] _ _] j Hj. apply data_blk_ok_spec.
  destruct (decide (file_map s n j = 0)); [by left|]. right. by apply Hm.
Qed.

Lemma file_ok_pointers s n : file_ok s n → ext2_inode_pointers_ok (mnt s) n = true.
Proof.
  intros Hf. pose proof (file_ok_ptrs _ _ Hf) as Hp. unfold ext2_inode_pointers_ok.
  rewrite (fo_tail _ _ Hf 13), (fo_tail _ _ Hf 14) by lia. cbn [Z.eqb negb orb]. rewrite andb_true_r.
  apply andb_true_intro. split.
  - apply forallb_forall. intros j [Hj1 Hj2]%list_elem_of_In%elem_of_seqZ.
    rewrite <- (file_map_slot s) by lia. apply Hp. lia.
  - rewrite <- (file_map_slot s) by lia. apply Hp. lia.
Qed.

(** Changes outside the data blocks and the bitmap leave files alone. *)
Lemma file_frame P s s' :
  fs_ok s → frame P s s' → mnt s' = mnt s →
  (∀ b, P b → ¬ is_data (geom_of (mnt s)) b ∧ b ≠ g_bb (geom_of (mnt s))) →
  (∀ b, blk_used s' b = blk_used s b) ∧
  ∀ f, map_ok s f → map_ok s' f ∧
    (∀ j, 0 ≤ j < 269 → f j ≠ 0 → blk (env s') (f j) = blk (env s) (f j)) ∧
    ∀ k, 0 ≤ k < 274432 → content s' f k = content s f k.
Proof.
  intros Hs F M HP.
  assert (∀ b, blk_used s' b = blk_used s b) as Hu.
  { intros b. unfold blk_used, bbitmap. rewrite M, (fr_blk _ _ _ F); [done|].
    intros HPb. by destruct (HP _ HPb). }
  split; [done|]. intros f Hf.
  assert (∀ j, 0 ≤ j < 269 → f j ≠ 0 → blk (env s') (f j) = blk (env s) (f j)) as Hb.
  { intros j Hj Hn. apply (fr_blk _ _ _ F). intros HPb.
    destruct (proj1 Hf j Hj Hn). by destruct (HP _ HPb). }
  split_and!; [|done|].
  - apply (map_ok_state s); [by rewrite M | intros b; by rewrite Hu | done].
  - intros k Hk. apply content_frame. intros Hn. apply Hb; [by apply fidx_range|done].
Qed.

Lemma file_map_frame s s' n :
  (bget (i_block n) 12 ≠ 0 →
   blk (env s') (bget (i_block n) 12) = blk (env s) (bget (i_block n) 12)) →
  feq (file_map s' n) (file_map s n).
Proof.
  intros Hb j Hj. unfold file_map, slots. destruct (j <? 13); [done|].
  destruct (Z.eqb_spec (bget (i_block n) 12) 0); [done|]. by rewrite Hb.
Qed.

(** The flush of the indirect block after the loop. *)
Lemma wp_flush_indirect s0 f0 s w m :
  wrel s0 f0 s w → geom_of m = geom_of (mnt s) →
  wp (if w_ibuf w && w_dirty w then
        if negb (ext2_data_blk_ok m (bget (i_block (w_in w)) 12)) then mret true else
        fl ← ext2_write_block (bget (i_block (w_in w)) 12) (default [] (w_ind w));
        mret (negb fl)
      else mret false) s (λ lost s',
    lost = false ∧ wrel s0 f0 s' w ∧ mnt s' = mnt s ∧ wmap s' w = wmap s w ∧
    feq (file_map s' (w_in w)) (wmap s w) ∧
    (∀ b, blk_used s' b = blk_used s b) ∧
    ∀ k, 0 ≤ k < 274432 → content s' (wmap s w) k = content s (wmap s w) k).
Proof.
  intros W Hg. pose proof (wr_inv _ _ _ _ W) as Iv.
  destruct (w_dirty w) eqn:Ed.
  - destruct (w_ind w) as [b|] eqn:Ei; [|by destruct (wi_dirty _ _ Iv Ed)].
    destruct (wi_buf _ _ Iv b Ei) as (Hib & Hby & Hl & Hn). rewrite Hib. simpl.
    destruct (proj1 (wi_map _ _ Iv) 12 ltac:(lia) Hn) as [Hd _].
    change (wmap s w 12) with (bget (i_block (w_in w)) 12) in Hd.
    rewrite (proj2 (data_blk_ok_spec _ _)) by (rewrite Hg; by right). simpl.
    wp_call wp_write_block; [by eapply wrel_fs|].
    intros fl s1 (F1 & M1 & B1 & R1).
    rewrite (R1 (wr_rel _ _ _ _ W) (data_vol _ _ (wrel_fs _ _ _ _ W) Hd)) in *.
    destruct (wrel_data s0 f0 s w s1 12 W ltac:(lia) (or_intror Ed) Hn F1 M1) as [W1 Hw].
    apply wp_ret. split_and!; [done..| | |].
    + unfold file_map, wmap. rewrite (proj2 (B1 eq_refl)), Ei. done.
    + intros x. unfold blk_used, bbitmap. rewrite M1, (fr_blk _ _ _ F1); [done|].
      pose proof (go_bb _ (proj1 (proj1 (wrel_fs _ _ _ _ W)))). unfold is_data in Hd. lia.
    + intros k Hk. destruct (fidx_range k Hk) as [Hx Hx12]. apply content_frame. intros Hn'.
      apply (fr_blk _ _ _ F1). intros Heq. apply Hx12. symmetry.
      apply (proj2 (wi_map _ _ Iv) 12); [lia|done|done|by symmetry].
  - rewrite andb_false_r. apply wp_ret. split_and!; [done..| |done|done].
    unfold file_map, wmap. destruct (w_ind w) as [b|] eqn:Ei; [|done].
    rewrite (wi_clean _ _ Iv b Ed Ei). done.
Qed.

Definition ino_blk (g : geom) (ino : Z) : Z := g_it g + (ino - 1) / 8.

Lemma ino_blk_meta g ino :
  geom_ok g → valid_ino g ino →
  ¬ is_data g (ino_blk g ino) ∧ ino_blk g ino ≠ g_bb g ∧ ino_blk g ino ≠ g_ib g ∧
  3 ≤ ino_blk g ino < g_fdb g.
Proof.
  intros Hg Hi. destruct (inode_blk_vol g ino Hg Hi) as [_ Ht]. fold (ino_blk g ino) in Ht.
  pose proof (go_it_end _ Hg). pose proof (go_bb_it _ Hg). pose proof (go_ib_it _ Hg).
  pose proof (go_it _ Hg). unfold is_data. lia.
Qed.

(** What a call of ext2_write_data that reported [wrote] bytes did. *)
Record write_post s (ino : Z) (n : ext2_inode) (off size : Z) (buf : list Z)
    (wrote : Z) (n' : ext2_inode) s' : Prop := {
  wp_count : 0 ≤ wrote ≤ size;
  wp_full : wrote < size → no_free_block s';
  wp_frame : frame (λ b, touch s (file_map s n) b ∨ b = ino_blk (geom_of (mnt s)) ino) s s';
  wp_used b : is_data (geom_of (mnt s)) b → blk_used s b = true → blk_used s' b = true;
  wp_others j : valid_ino (geom_of (mnt s)) j → j ≠ ino → disk_inode s' j = disk_inode s j;
  wp_some : 0 < wrote →
    disk_inode s' ino = n' ∧ file_ok s' n' ∧ i_size n' = Z.max (i_size n) (off + wrote) ∧
    ∀ k, 0 ≤ k < 274432 →
      content s' (file_map s' n') k = written s (file_map s n) off wrote buf k;
  wp_none : wrote = 0 →
    disk_inode s' ino = disk_inode s ino ∧ i_size n' = i_size n ∧ file_ok s' n ∧
    ∀ k, 0 ≤ k < 274432 →
      content s' (file_map s' n) k = content s (file_map s n) k;
}.

(** Blocks the write may touch hold no inodes. *)
Lemma touch_inode s f s' :
  fs_ok s → frame (touch s f) s s' →
  ∀ j, valid_ino (geom_of (mnt s)) j → disk_inode s' j = disk_inode s j.
Proof.
  intros Hs F j Hj. unfold disk_inode. rewrite (fr_geom _ _ _ F). fold (ino_blk (geom_of (mnt s)) j).
  rewrite (fr_blk _ _ _ F); [done|].
  destruct (ino_blk_meta _ j (proj1 (proj1 Hs)) Hj) as (? & ? & ? & ?).
  unfold touch. intros [?|[?|[?|[? _]]]]; [lia|lia|done|done].
Qed.

(** Without progress the old inode still denotes the old contents. *)
Lemma no_progress_slots s n s' w :
  wrel s (file_map s n) s' w → feq (file_map s' (w_in w)) (wmap s' w) →
  ∀ x, 0 ≤ x < 269 →
    file_map s' n x = 0 ∧ file_map s n x = 0 ∨ file_map s' n x = wmap s' w x.
Proof.
  intros [Iv R F U G] Hfeq x Hx. destruct (decide (x < 13)).
  - rewrite !file_map_slot by lia. destruct (G x Hx) as [Hg|[Hg _]];
      rewrite file_map_slot in Hg by lia; [by right|by left].
  - destruct (decide (bget (i_block n) 12 = 0)) as [Hz|Hz].
    + left. unfold file_map. by rewrite !slots_no_ind by (done || lia).
    + right. rewrite <- Hfeq by done.
      assert (bget (i_block (w_in w)) 12 = bget (i_block n) 12) as H12.
      { destruct (G 12 ltac:(lia)) as [Hg|[Hg _]]; rewrite file_map_slot in Hg by lia; done. }
      unfold file_map, slots. rewrite H12. destruct (x <? 13) eqn:E13; [boolp; lia|done].
Qed.

Lemma no_progress s n off buf s' w :
  file_ok s n → wrel s (file_map s n) s' w → feq (file_map s' (w_in w)) (wmap s' w) →
  (∀ k, 0 ≤ k < 274432 → content s' (wmap s' w) k = written s (file_map s n) off 0 buf k) →
  file_ok s' n ∧
  ∀ k, 0 ≤ k < 274432 → content s' (file_map s' n) k = content s (file_map s n) k.
Proof.
  intros Hf W Hfeq Hc. pose proof (no_progress_slots s n s' w W Hfeq) as Hsl.
  destruct (wi_map _ _ (wr_inv _ _ _ _ W)) as [Hm1 Hm2]. split.
  - constructor; [apply Hf| |apply Hf|apply Hf]. split.
    + intros j Hj Hn. destruct (Hsl j Hj) as [[? _]|Hj']; [done|].
      rewrite Hj' in *. by apply Hm1.
    + intros i j Hi Hj Hn Heq. destruct (Hsl i Hi) as [[? _]|Hi']; [done|].
      destruct (Hsl j Hj) as [[? _]|Hj']; [congruence|].
      rewrite Hi', Hj' in *. by apply Hm2.
  - intros k Hk. destruct (fidx_range k Hk) as [Hx _].
    specialize (Hc k Hk). unfold written in Hc. rewrite decide_False in Hc by lia.
    unfold content in *. destruct (Hsl _ Hx) as [[-> ->]| ->]; done.
Qed.

Lemma winv_start s n :
  file_ok s n → reliable (env s) → fs_ok s →
  wrel s (file_map s n) s (mk_wstate n 0 false None false).
Proof.
  intros [I1 I2 I3 I4] Hr Hs. constructor; [by constructor|done|by apply frame_refl|done|].
  intros j Hj. by left.
Qed.

Lemma grown_inode n x :
  inode_ok n → 0 ≤ x < 4294967296 →
  let n1 := if x >? i_size n then set_i_size x n else n in
  i_block n1 = i_block n ∧ i_size n1 = Z.max (i_size n) x ∧ inode_ok n1.
Proof.
  intros Hn Hx n1. subst n1. case_if.
  - split_and!; [done|simpl; lia|]. by apply set_i_size_ok.
  - split_and!; [done|lia|done].
Qed.

(** Writing the inode at the end of a write that made progress. *)
Lemma write_inode_post s n off size buf s' w ino n1 s'' :
  fs_ok s → file_ok s n → valid_ino (geom_of (mnt s)) ino → 0 ≤ off →
  off + size ≤ 274432 → 0 < w_wrote w →
  wloop_post s (file_map s n) off size buf s' w 0 (i_size n) →
  feq (file_map s' (w_in w)) (wmap s' w) →
  n1 = (if u32 (off + w_wrote w) >? i_size (w_in w)
        then set_i_size (u32 (off + w_wrote w)) (w_in w) else w_in w) →
  frame (λ b, b = ino_blk (geom_of (mnt s)) ino) s' s'' → mnt s'' = mnt s' →
  disk_inode s'' ino = n1 →
  (∀ j, valid_ino (geom_of (mnt s)) j → j ≠ ino → disk_inode s'' j = disk_inode s' j) →
  write_post s ino n off size buf (w_wrote w) n1 s''.
Proof.
  intros Hs Hf Hi Hoff Hcap Hpos [W Hw Hsz Hc Hfull] Hfeq Hn1 F M Hd Ho.
  pose proof (wr_inv _ _ _ _ W) as Iv. rewrite (u32_small (off + w_wrote w)) in Hn1 by lia.
  assert (fs_ok s') as Hs' by apply W.
  assert (geom_of (mnt s') = geom_of (mnt s)) as Hg by apply W.
  destruct (ino_blk_meta _ ino (proj1 (proj1 Hs)) Hi) as (Hm1 & Hm2 & _ & Hm3).
  destruct (file_frame _ s' s'' Hs' F M) as [Hu Hff].
  { cbn beta. intros b ->. by rewrite Hg. }
  destruct (Hff _ (wi_map _ _ Iv)) as (Hmap & Hblk & Hcont).
  assert (i_block n1 = i_block (w_in w) ∧ i_size n1 = Z.max (i_size n) (off + w_wrote w) ∧
          inode_ok n1) as (Hb & Hz & Hok).
  { rewrite Hn1, <- Hsz. apply grown_inode; [apply Iv|lia]. }
  assert (feq (file_map s'' n1) (wmap s' w)) as Hfm.
  { intros j Hj. rewrite <- Hfeq by done. unfold file_map, slots. rewrite Hb.
    destruct (j <? 13); [done|]. destruct (Z.eqb_spec (bget (i_block (w_in w)) 12) 0) as [|Hn]; [done|].
    specialize (Hblk 12 ltac:(lia) Hn).
    change (wmap s' w 12) with (bget (i_block (w_in w)) 12) in Hblk. by rewrite <- Hblk. }
  assert (feq (wmap s' w) (file_map s'' n1)) as Hfm' by (intros j Hj; by rewrite Hfm).
  constructor; try lia.
  - intros Hlt. specialize (Hfull Hlt). unfold no_free_block in *. rewrite M.
    setoid_rewrite Hu. done.
  - eapply frame_trans; [apply W | exact F |]. done.
  - intros b Hdb Hub. rewrite Hu. by apply (wr_used _ _ _ _ W).
  - intros j Hj Hne. rewrite Ho by done. by apply (touch_inode s (file_map s n)); [|apply W|].
  - intros _. split_and!; [done| |done|].
    + constructor; [done|by apply (map_ok_feq _ _ _ Hfm')| |].
      * intros k Hk. rewrite Hb. by apply (wi_tail _ _ Iv).
      * rewrite Hz. pose proof (fo_size _ _ Hf). lia.
    + intros k Hk. rewrite (content_feq _ _ _ k Hk Hfm), Hcont, Hc by done. done.
Qed.

(** ext2_write_data on a reliable device. *)
Lemma wp_write_data ino n off size buf s :
  fs_ok s → reliable (env s) → file_ok s n → valid_ino (geom_of (mnt s)) ino →
  0 ≤ off → 0 ≤ size → off + size ≤ 274432 → size ≤ zlength buf → bytes_ok buf →
  wp (ext2_write_data ino n off size buf) s (λ r s',
    write_post s ino n off size buf r.1 r.2 s').
Proof.
  intros Hs Hr Hf Hi Hoff Hsz Hcap Hbuf Hby. apply wp_bind, wp_gets.
  pose proof (winv_start s n Hf Hr Hs) as W0. rewrite (wrel_bs _ _ _ _ W0). cbv zeta.
  change (u32 (EXT2_MAX_FILE_BLOCKS * 1024)) with 274432.
  rewrite (u32_small (0xFFFFFFFF - size)), (u32_small (off + size)) by lia.
  assert (0 ≤ size / 1024) by zdm.
  destruct (off >? _) eqn:E1; [boolp; lia|]. destruct (_ >? 274432) eqn:E2; [boolp; lia|].
  wp_call wp_kmalloc. intros ok s1 (F1 & M1 & R1). rewrite (R1 Hr). cbn [negb].
  destruct (wkeep_same _ _ _ _ _ W0 F1 M1) as (W1 & _ & _ & K1).
  apply wp_bind. eapply wp_mono; [apply (wp_write_loop s (file_map s n)); try done|].
  { intros k Hk. rewrite K1 by done. unfold written. simpl. by rewrite decide_False by lia. }
  { intros _. simpl. rewrite Z2Nat.id by lia. zdm. }
  cbn [w_wrote w_in]. intros w s2 P2.
  pose proof (wl_rel _ _ _ _ _ _ _ _ _ P2) as W2.
  apply wp_bind. eapply wp_mono; [apply (wp_flush_indirect s (file_map s n)); [done|]|].
  { symmetry. apply W2. }
  intros lost s3 (-> & W3 & M3 & Hw & Hfeq & Hu & Hc). cbn [negb].
  assert (wloop_post s (file_map s n) off size buf s3 w 0 (i_size n)) as P3.
  { destruct P2 as [_ P21 P22 P23 P24]. constructor; try done.
    - intros k Hk. rewrite Hw, Hc, P23 by done. done.
    - intros Hlt. specialize (P24 Hlt). unfold no_free_block in *. rewrite M3.
      setoid_rewrite Hu. done. }
  rewrite <- Hw in Hfeq. destruct (Z.eqb_spec (w_wrote w) 0) as [Hz|Hz].
  - apply wp_ret. cbn [fst snd]. constructor; try lia.
    + intros Hlt. apply P3. lia.
    + eapply frame_mono; [apply W3|]. auto.
    + apply W3.
    + intros j Hj _. by apply (touch_inode s (file_map s n)); [|apply W3|].
    + intros _. split; [by apply (touch_inode s (file_map s n)); [|apply W3|]|].
      split; [apply (wl_size _ _ _ _ _ _ _ _ _ P3)|].
      apply (no_progress s n off buf s3 w Hf W3 Hfeq).
      intros k Hk. rewrite <- Hz. by apply (wl_content _ _ _ _ _ _ _ _ _ P3).
  - set (n1 := if _ >? _ then _ else _).
    assert (inode_ok n1) as Hn1.
    { apply grown_inode; [apply (wr_inv _ _ _ _ W3) | apply u32_range]. }
    assert (geom_of (mnt s3) = geom_of (mnt s)) as Hg by apply W3.
    apply wp_bind. eapply wp_mono; [apply wp_write_inode; [by eapply wrel_fs|done]|].
    intros wr s4 (F4 & M4 & B4 & R4). rewrite Hg in *.
    rewrite (R4 (wr_rel _ _ _ _ W3) Hi) in *. apply wp_ret. cbn [fst snd].
    destruct (B4 eq_refl) as (_ & Hd & Ho).
    pose proof (wl_wrote _ _ _ _ _ _ _ _ _ P3).
    apply (write_inode_post s n off size buf s3 w ino n1 s4); try done; [lia|].
    eapply frame_mono; [exact F4|]. by intros b [_ ->].
Qed.

(** A file as seen after reads and heap requests. *)
Lemma file_ok_same s s' n :
  frame (λ _, False) s s' → geom_of (mnt s') = geom_of (mnt s) → file_ok s n → file_ok s' n.
Proof.
  intros F Hg [H1 H2 H3 H4]. constructor; try done. rewrite (file_map_same _ _ _ F).
  apply (map_ok_state s); [done| |done]. intros b Hb Hu.
  unfold blk_used, bbitmap in *. by rewrite Hg, (frame_same _ _ _ F).
Qed.

Lemma write_post_pre s s1 ino n off size buf wrote n' s' :
  frame (λ _, False) s s1 → mnt s1 = mnt s →
  write_post s1 ino n off size buf wrote n' s' → write_post s ino n off size buf wrote n' s'.
Proof.
  intros F M [P1 P2 P3 P4 P5 P6 P7].
  assert (file_map s1 n = file_map s n) as Hfm by (by apply file_map_same).
  assert (∀ b, blk_used s1 b = blk_used s b) as Hu.
  { intros b. unfold blk_used, bbitmap. by rewrite M, (frame_same _ _ _ F). }
  assert (∀ f k, content s1 f k = content s f k) as Hct.
  { intros f k. apply content_frame. intros _. by apply frame_same. }
  assert (∀ j, disk_inode s1 j = disk_inode s j) as Hdi.
  { intros j. unfold disk_inode. by rewrite M, (frame_same _ _ _ F). }
  rewrite Hfm, M in *. constructor; try done.
  - eapply frame_trans; [exact F|exact P3|]. intros b [[]|Hb]. unfold touch in *.
    rewrite M, Hu in Hb. done.
  - intros b. rewrite <- Hu. apply P4.
  - intros j. rewrite <- Hdi. apply P5.
  - intros Hw. destruct (P6 Hw) as (? & ? & ? & Hc). split_and!; try done.
    intros k Hk. rewrite Hc by done. unfold written. by rewrite Hct.
  - intros Hw. destruct (P7 Hw) as (? & ? & ? & Hc). split_and!; [by rewrite <- Hdi|done|done|].
    intros k Hk. rewrite Hc by done. apply Hct.
Qed.
End write.
