(* ===== verification/Ext2Dir.v ===== *)
(** * ext2: directories (kernel/ext2.c, 452-466, 643-906 and 1036-1263)

    Record validation, lookup and insertion in directory blocks, the node
    cache, and the VFS callbacks of directories: readdir, finddir, create and
    mkdir.  A C string argument is the list of its bytes before the NUL. *)

From S2P Require Import Prelude Bytes Block Ext2Types Ext2Core Ext2File.

(** ** Directory records *)

(** [struct ext2_dirent] at [buf + off]. *)
Definition de_inode (buf : list Z) (off : Z) : Z := rd32 buf off.
Definition de_rec_len (buf : list Z) (off : Z) : Z := rd16 buf (off + 4).
Definition de_name_len (buf : list Z) (off : Z) : Z := rd16 buf (off + 6).
Definition de_name (buf : list Z) (off n : Z) : list Z := slice buf (off + 8) n.

(** Storing a record header and its name at [buf + off]. *)
Definition put_dirent (buf : list Z) (off inode rec_len : Z) (name : list Z) : list Z :=
  splice (wr16 (wr16 (wr32 buf off inode) (off + 4) rec_len) (off + 6) (zlength name))
    (off + 8) name.

Definition ext2_dirent_ok (buf : list Z) (off limit : Z) : bool :=
  if de_rec_len buf off <? 8 then false else
  if negb (Z.land (de_rec_len buf off) 3 =? 0) then false else
  if u32 (off + de_rec_len buf off) >? limit then false else
  if de_name_len buf off >? de_rec_len buf off - 8 then false else
  if de_name_len buf off >? 255 then false else true.

(** [(8 + n + 3) & ~3u]: the 4-byte aligned size of a record. *)
Definition rec_size (n : Z) : Z := Z.land (u32 (8 + n + 3)) (Z.lnot 3).

(** ** Scans of one directory block *)

(** The entry named [name], if the walk of the block meets it.  [fuel]
    bounds the number of records: each takes at least 8 bytes. *)
Fixpoint lookup_scan (fuel : nat) (buf : list Z) (off limit : Z) (name : list Z)
  : option Z :=
  match fuel with
  | O => None
  | S fuel' =>
      if off + 8 <=? limit then
        if negb (ext2_dirent_ok buf off limit) then None else
        if negb (de_inode buf off =? 0) && (de_name_len buf off =? zlength name) &&
           bool_decide (de_name buf off (zlength name) = name)
        then Some (de_inode buf off)
        else lookup_scan fuel' buf (off + de_rec_len buf off) limit name
      else None
  end.

(** Counting live entries up to [index]: the entry found, or the count
    reached at the end of the block. *)
Fixpoint readdir_scan (fuel : nat) (buf : list Z) (off limit cur index : Z)
  : Z + (list Z * Z) :=
  match fuel with
  | O => inl cur
  | S fuel' =>
      if off + 8 <=? limit then
        if negb (ext2_dirent_ok buf off limit) then inl cur else
        if negb (de_inode buf off =? 0) then
          if cur =? index then
            let nl := Z.min (de_name_len buf off) 127 in
            inr (de_name buf off nl, de_inode buf off)
          else readdir_scan fuel' buf (off + de_rec_len buf off) limit (u32 (cur + 1)) index
        else readdir_scan fuel' buf (off + de_rec_len buf off) limit cur index
      else inl cur
  end.

(** Splitting the last record of the block to append an entry. *)
Fixpoint add_scan (fuel : nat) (buf : list Z) (off limit need child : Z) (name : list Z)
  : option (list Z) :=
  match fuel with
  | O => None
  | S fuel' =>
      if off + 8 <=? limit then
        if negb (ext2_dirent_ok buf off limit) then None else
        let actual := rec_size (de_name_len buf off) in
        let old := de_rec_len buf off in
        if (off + old >=? limit) && (old >=? u32 (actual + need)) then
          Some (put_dirent (wr16 buf (off + 4) actual) (off + actual) child (old - actual) name)
        else add_scan fuel' buf (off + old) limit need child name
      else None
  end.

Definition dir_fuel (limit : Z) : nat := Z.to_nat (limit / 8 + 1).

(** The valid part of directory block [b]: [None] is the [break] when the
    block lies beyond the directory's size. *)
Definition dir_limit (bs b dir_size : Z) : option Z :=
  if u32 (b * bs + bs) >? dir_size then
    if dir_size <=? u32 (b * bs) then None else Some (dir_size - u32 (b * bs))
  else Some bs.

Section ext2.
Context {E : Type} `{BlockEnv E}.
Local Abbreviation M := (ST (fsys E)).

(** ** Lookup *)

(** [for (b = 12 - k; b < 12; b++)] of ext2_dir_lookup. *)
Fixpoint lookup_blocks (k : nat) (dir : ext2_inode) (name : list Z) : M Z :=
  match k with
  | O => mret 0
  | S k' =>
      let b := 12 - Z.of_nat k in
      m ← gets mnt;
      let blk := bget (i_block dir) b in
      if blk =? 0 then lookup_blocks k' dir name else
      if negb (ext2_data_blk_ok m blk) then mret 0 else
      r ← ext2_read_block blk;
      match r with
      | None => mret 0
      | Some buf =>
          match dir_limit (m_block_size m) b (i_size dir) with
          | None => mret 0
          | Some limit =>
              match lookup_scan (dir_fuel limit) buf 0 limit name with
              | Some ino => mret ino
              | None => lookup_blocks k' dir name
              end
          end
      end
  end.

Definition ext2_dir_lookup (dir : ext2_inode) (name : list Z) : M Z :=
  m ← gets mnt;
  ok ← kmalloc (m_block_size m);
  if negb ok then mret 0 else lookup_blocks 12 dir name.

(** ** Insertion *)

(** Link a fresh block holding only the new entry at index [b]; on failure
    the inode's fields are restored and the block is freed. *)
Definition add_fresh_block (dir_ino : Z) (dir : ext2_inode) (b child : Z) (name : list Z)
  : M (bool * ext2_inode) :=
  m ← gets mnt;
  let bs := m_block_size m in
  nblk ← ext2_alloc_block;
  if nblk =? 0 then mret (false, dir) else
  let dir1 := set_i_size (u32 ((b + 1) * bs)) (link_block m dir b nblk) in
  let buf := put_dirent (memset_buf 0 bs) 0 child bs name in
  w ← ext2_write_block nblk buf;
  wi ← (if negb w then mret false else ext2_write_inode dir_ino dir1);
  if negb wi then
    _ ← ext2_free_block nblk;
    mret (false, set_i_size (i_size dir) (set_i_blocks (i_blocks dir)
                   (set_i_block (bset (i_block dir1) b 0) dir1)))
  else mret (true, dir1).

Fixpoint add_blocks (k : nat) (dir_ino : Z) (dir : ext2_inode) (need child : Z)
    (name : list Z) : M (bool * ext2_inode) :=
  match k with
  | O => mret (false, dir)
  | S k' =>
      let b := 12 - Z.of_nat k in
      m ← gets mnt;
      let blk := bget (i_block dir) b in
      if blk =? 0 then add_fresh_block dir_ino dir b child name else
      if negb (ext2_data_blk_ok m blk) then mret (false, dir) else
      r ← ext2_read_block blk;
      match r with
      | None => mret (false, dir)
      | Some buf =>
          match dir_limit (m_block_size m) b (i_size dir) with
          | None => mret (false, dir)
          | Some limit =>
              match add_scan (dir_fuel limit) buf 0 limit need child name with
              | Some buf' => w ← ext2_write_block blk buf'; mret (w, dir)
              | None => add_blocks k' dir_ino dir need child name
              end
          end
      end
  end.

(** Returns success and the directory inode as the caller sees it. *)
Definition ext2_dir_add (dir_ino : Z) (dir : ext2_inode) (child : Z) (name : list Z)
  : M (bool * ext2_inode) :=
  m ← gets mnt;
  if zlength name >? 255 then mret (false, dir) else
  ok ← kmalloc (m_block_size m);
  if negb ok then mret (false, dir) else
  add_blocks 12 dir_ino dir (rec_size (zlength name)) child name.

(** ** Inode cache *)

Definition sizeof_fs_node : Z := 188.

(** Get or create the cached node of [ino]; a node is its inode number. *)
Definition ext2_get_node (ino : Z) (name : list Z) (mode size : Z) : M (option Z) :=
  m ← gets mnt;
  if (ino <? 1) || (ino >? m_node_cache_size m) then mret None else
  match m_node_cache m !! ino with
  | Some _ => _ ← set_node_length ino size; mret (Some ino)
  | None =>
      ok ← kmalloc sizeof_fs_node;
      if negb ok then mret None else
      let fn := {| n_name := take 127 name;
                   n_flags := if Z.land mode EXT2_S_IFMT =? EXT2_S_IFDIR
                              then FS_DIRECTORY else FS_FILE;
                   n_inode := ino; n_length := size |} in
      _ ← on_mnt (λ m, set_m_node_cache (<[ino := fn]> (m_node_cache m)) m);
      mret (Some ino)
  end.

(** ** VFS callbacks of directories *)

Fixpoint readdir_blocks (k : nat) (din : ext2_inode) (cur index : Z)
  : M (option (list Z * Z)) :=
  match k with
  | O => mret None
  | S k' =>
      let b := 12 - Z.of_nat k in
      m ← gets mnt;
      let blk := bget (i_block din) b in
      if blk =? 0 then readdir_blocks k' din cur index else
      if negb (ext2_data_blk_ok m blk) then mret None else
      r ← ext2_read_block blk;
      match r with
      | None => mret None
      | Some buf =>
          match dir_limit (m_block_size m) b (i_size din) with
          | None => mret None
          | Some limit =>
              match readdir_scan (dir_fuel limit) buf 0 limit cur index with
              | inr de => mret (Some de)
              | inl cur' => readdir_blocks k' din cur' index
              end
          end
      end
  end.

(** [None] is -1; otherwise the entry copied into the caller's [dirent]. *)
Definition ext2_readdir (node index : Z) : M (option (list Z * Z)) :=
  _ ← mutex_lock;
  r ← ext2_read_inode node;
  match r with
  | None => _ ← mutex_unlock; mret None
  | Some din =>
      m ← gets mnt;
      if negb (ext2_inode_pointers_ok m din) then _ ← mutex_unlock; mret None else
      ok ← kmalloc (m_block_size m);
      if negb ok then _ ← mutex_unlock; mret None else
      de ← readdir_blocks 12 din 0 index;
      _ ← mutex_unlock;
      mret de
  end.

Definition ext2_finddir (node : Z) (name : list Z) : M (option Z) :=
  _ ← mutex_lock;
  r ← ext2_read_inode node;
  match r with
  | None => _ ← mutex_unlock; mret None
  | Some din =>
      m ← gets mnt;
      if negb (ext2_inode_pointers_ok m din) then _ ← mutex_unlock; mret None else
      ino ← ext2_dir_lookup din name;
      if ino =? 0 then _ ← mutex_unlock; mret None else
      r2 ← ext2_read_inode ino;
      match r2 with
      | None => _ ← mutex_unlock; mret None
      | Some n =>
          let fmt := Z.land (i_mode n) EXT2_S_IFMT in
          if negb (fmt =? EXT2_S_IFDIR) && negb (fmt =? EXT2_S_IFREG) then
            _ ← mutex_unlock; mret None
          else
            fn ← ext2_get_node ino name (i_mode n) (i_size n);
            _ ← mutex_unlock;
            mret fn
      end
  end.

(** [EXT2_S_IFREG | 0644] and [EXT2_S_IFDIR | 0755] (octal). *)
Definition MODE_FILE : Z := Z.lor EXT2_S_IFREG 420.
Definition MODE_DIR : Z := Z.lor EXT2_S_IFDIR 493.

Definition ext2_create (dir : Z) (name : list Z) : M (option Z) :=
  _ ← mutex_lock;
  r ← ext2_read_inode dir;
  match r with
  | None => _ ← mutex_unlock; mret None
  | Some din =>
      m ← gets mnt;
      if negb (ext2_inode_pointers_ok m din) then _ ← mutex_unlock; mret None else
      ex ← ext2_dir_lookup din name;
      if negb (ex =? 0) then _ ← mutex_unlock; mret None else
      ino ← ext2_alloc_inode;
      if ino =? 0 then _ ← mutex_unlock; mret None else
      wr ← ext2_write_inode ino (fresh_inode MODE_FILE 1 0 0 0);
      if negb wr then _ ← ext2_free_inode ino; _ ← mutex_unlock; mret None else
      r2 ← ext2_dir_add dir din ino name;
      let '(added, _) := r2 in
      if negb added then _ ← ext2_free_inode ino; _ ← mutex_unlock; mret None else
      fn ← ext2_get_node ino name MODE_FILE 0;
      _ ← mutex_unlock;
      mret fn
  end.

(** The block of a new directory: "." and ".." *)
Definition mkdir_block (bs ino parent : Z) : list Z :=
  put_dirent (put_dirent (memset_buf 0 bs) 0 ino 12 [46]) 12 parent (bs - 12) [46; 46].

Definition set_used_dirs (v : Z) : M unit :=
  on_mnt (λ m, set_m_gd (set_bg_used_dirs_count v (m_gd m)) m).

(** Free the child's block and inode, release the lock, fail. *)
Definition mkdir_undo (blk ino : Z) : M Z :=
  _ ← ext2_free_block blk;
  _ ← ext2_free_inode ino;
  _ ← mutex_unlock;
  mret (-1).

Definition ext2_mkdir (dir : Z) (name : list Z) : M Z :=
  let fail := _ ← mutex_unlock; mret (-1) in
  _ ← mutex_lock;
  r ← ext2_read_inode dir;
  match r with
  | None => fail
  | Some din =>
      m ← gets mnt;
      if negb (ext2_inode_pointers_ok m din) then fail else
      if negb (Z.land (i_mode din) EXT2_S_IFMT =? EXT2_S_IFDIR) then fail else
      if (zlength name =? 0) || (zlength name >? 255) then fail else
      if bool_decide (name = [46]) || bool_decide (name = [46; 46]) then fail else
      ex ← ext2_dir_lookup din name;
      if negb (ex =? 0) then fail else
      if i_links_count din =? 0xFFFF then fail else
      if bg_used_dirs_count (m_gd m) >=? s_inodes_count (m_sb m) then fail else
      ino ← ext2_alloc_inode;
      if ino =? 0 then fail else
      blk ← ext2_alloc_block;
      if blk =? 0 then _ ← ext2_free_inode ino; fail else
      let bs := m_block_size m in
      dok ← kmalloc bs;
      if negb dok then mkdir_undo blk ino else
      w1 ← ext2_write_block blk (mkdir_block bs ino dir);
      if negb w1 then mkdir_undo blk ino else
      w2 ← ext2_write_inode ino (fresh_inode MODE_DIR 2 bs 2 blk);
      if negb w2 then mkdir_undo blk ino else
      let old_parent_links := i_links_count din in
      let din1 := set_i_links_count (u16 (old_parent_links + 1)) din in
      w3 ← ext2_write_inode dir din1;
      if negb w3 then mkdir_undo blk ino else
      m1 ← gets mnt;
      let old_used_dirs := bg_used_dirs_count (m_gd m1) in
      _ ← set_used_dirs (u16 (old_used_dirs + 1));
      w4 ← ext2_write_group_desc;
      if negb w4 then
        _ ← set_used_dirs old_used_dirs;
        _ ← ext2_write_inode dir (set_i_links_count old_parent_links din1);
        mkdir_undo blk ino
      else
      r2 ← ext2_dir_add dir din1 ino name;
      let '(added, din2) := r2 in
      if negb added then
        _ ← set_used_dirs old_used_dirs;
        _ ← ext2_write_group_desc;
        _ ← ext2_write_inode dir (set_i_links_count old_parent_links din2);
        mkdir_undo blk ino
      else
      _ ← ext2_get_node ino name MODE_DIR bs;
      _ ← mutex_unlock;
      mret 0
  end.
End ext2.

(** * ext2: directory blocks

    Adding an entry to a directory block makes it findable and leaves the
    lookup of every other name alone; scans of a block do not depend on the
    fuel once it covers the block. *)

(** ** Record sizes *)

Lemma land_lnot3 x : Z.land x (Z.lnot 3) = x / 4 * 4.
Proof.
  change 3 with (Z.ones 2). rewrite <- Z.ldiff_land, Z.ldiff_ones_r by lia.
  rewrite Z.shiftr_div_pow2, Z.shiftl_mul_pow2 by lia. done.
Qed.

Lemma land3 x : (Z.land x 3 =? 0) = (x mod 4 =? 0).
Proof. change 3 with (Z.ones 2). by rewrite Z.land_ones by lia. Qed.

Lemma rec_size_eq n : 0 ≤ n < 65536 → rec_size n = (n + 11) / 4 * 4.
Proof.
  intros. unfold rec_size. rewrite u32_small by lia. rewrite land_lnot3. do 2 f_equal. lia.
Qed.

(** ** Reading back a stored record *)

Lemma slice_wr16_ne l o v x n :
  0 ≤ o → 0 ≤ x → 0 ≤ n → o + 2 ≤ zlength l → x + n ≤ o ∨ o + 2 ≤ x →
  slice (wr16 l o v) x n = slice l x n.
Proof.
  intros. unfold wr16. apply slice_splice_ne; unfold zlength in *; rewrite ?length_le_enc; lia.
Qed.

Lemma slice_wr32_ne l o v x n :
  0 ≤ o → 0 ≤ x → 0 ≤ n → o + 4 ≤ zlength l → x + n ≤ o ∨ o + 4 ≤ x →
  slice (wr32 l o v) x n = slice l x n.
Proof.
  intros. unfold wr32. apply slice_splice_ne; unfold zlength in *; rewrite ?length_le_enc; lia.
Qed.

Lemma rd16_wr16_eq l o v : 0 ≤ o → o + 2 ≤ zlength l → fits 2 v → rd16 (wr16 l o v) o = v.
Proof.
  intros. unfold rd16, wr16. change 2 with (Z.of_nat 2) at 1.
  rewrite <- (length_le_enc 2 v) at 1. fold (zlength (le_enc 2 v)).
  rewrite slice_splice_eq by (unfold zlength in *; rewrite ?length_le_enc; lia).
  by apply le_dec_enc.
Qed.

Lemma zlength_wr16 l o v : zlength (wr16 l o v) = zlength l.
Proof. unfold zlength, wr16. by rewrite length_splice. Qed.

Lemma zlength_wr32 l o v : zlength (wr32 l o v) = zlength l.
Proof. unfold zlength, wr32. by rewrite length_splice. Qed.

Section put.
Context (b : list Z) (o ino rl : Z) (name : list Z).
Context (Ho : 0 ≤ o) (Hlen : o + 8 + zlength name ≤ zlength b).

Lemma put_dirent_before x n :
  0 ≤ x → 0 ≤ n → x + n ≤ o → slice (put_dirent b o ino rl name) x n = slice b x n.
Proof using Ho Hlen.
  intros. unfold put_dirent.
  assert (0 ≤ zlength name) by (unfold zlength; lia).
  rewrite slice_splice_ne by (rewrite ?zlength_wr16, ?zlength_wr32; lia).
  rewrite !slice_wr16_ne, slice_wr32_ne by (rewrite ?zlength_wr16, ?zlength_wr32; lia). done.
Qed.

Lemma put_dirent_rec :
  fits 4 ino → fits 2 rl → zlength name < 65536 →
  let b' := put_dirent b o ino rl name in
  de_inode b' o = ino ∧ de_rec_len b' o = rl ∧ de_name_len b' o = zlength name ∧
  de_name b' o (zlength name) = name.
Proof using Ho Hlen.
  intros Hi Hr Hn b'. assert (0 ≤ zlength name) by (unfold zlength; lia).
  unfold b', put_dirent, de_inode, de_rec_len, de_name_len, de_name.
  split_and!.
  - unfold rd32. rewrite slice_splice_ne, !slice_wr16_ne by (rewrite ?zlength_wr16, ?zlength_wr32; lia).
    fold (rd32 (wr32 b o ino) o). by apply rd32_wr32_eq; [lia..|].
  - unfold rd16. rewrite slice_splice_ne, slice_wr16_ne by (rewrite ?zlength_wr16, ?zlength_wr32; lia).
    fold (rd16 (wr16 (wr32 b o ino) (o + 4) rl) (o + 4)).
    apply rd16_wr16_eq; [lia|rewrite zlength_wr32; lia|done].
  - unfold rd16. rewrite slice_splice_ne by (rewrite ?zlength_wr16, ?zlength_wr32; lia).
    apply rd16_wr16_eq; [lia|rewrite zlength_wr16, zlength_wr32; lia|].
    unfold fits. change (256 ^ Z.of_nat 2) with 65536. lia.
  - apply slice_splice_eq; [lia|rewrite ?zlength_wr16, ?zlength_wr32; lia].
Qed.
End put.

(** ** The entries of a directory block *)

(** The live entries, inode and name, in the order of the walk. *)
Fixpoint dir_entries (fuel : nat) (buf : list Z) (off limit : Z) : list (Z * list Z) :=
  match fuel with
  | O => []
  | S fuel' =>
      if off + 8 <=? limit then
        if negb (ext2_dirent_ok buf off limit) then [] else
        (if de_inode buf off =? 0 then []
         else [(de_inode buf off, de_name buf off (de_name_len buf off))]) ++
        dir_entries fuel' buf (off + de_rec_len buf off) limit
      else []
  end.

(** The first entry with a given name. *)
Fixpoint find_entry (name : list Z) (l : list (Z * list Z)) : option Z :=
  match l with
  | [] => None
  | (ino, n) :: l' => if decide (n = name) then Some ino else find_entry name l'
  end.

Lemma find_entry_app name l1 l2 :
  find_entry name (l1 ++ l2) =
    match find_entry name l1 with Some i => Some i | None => find_entry name l2 end.
Proof.
  induction l1 as [|[i n] l1 IH]; simpl; [done|]. by case_decide.
Qed.

Lemma rd16_range l off : bytes_ok l → 0 ≤ rd16 l off < 65536.
Proof.
  intros Hl. unfold rd16.
  assert (bytes_ok (slice l off 2)) as Hs by (by apply bytes_ok_take, bytes_ok_drop).
  pose proof (le_dec_range _ Hs) as [? Hu]. split; [done|]. eapply Z.lt_le_trans; [exact Hu|].
  change 65536 with (256 ^ 2). apply Z.pow_le_mono_r; [lia|].
  unfold slice. rewrite length_take. lia.
Qed.

Section scans.
Context (limit : Z) (Hlim : limit ≤ 1024).

(** What a record that passed the check satisfies. *)
Lemma dirent_ok_spec buf off :
  bytes_ok buf → 0 ≤ off → off + 8 ≤ limit →
  ext2_dirent_ok buf off limit = true ↔
  8 ≤ de_rec_len buf off ∧ de_rec_len buf off mod 4 = 0 ∧
  off + de_rec_len buf off ≤ limit ∧
  0 ≤ de_name_len buf off ≤ de_rec_len buf off - 8 ∧ de_name_len buf off ≤ 255.
Proof using Hlim.
  intros Hb Ho Hl. pose proof (rd16_range buf (off + 4) Hb) as Hr.
  pose proof (rd16_range buf (off + 6) Hb) as Hn.
  fold (de_rec_len buf off) in Hr. fold (de_name_len buf off) in Hn.
  unfold ext2_dirent_ok. rewrite land3, u32_small by lia.
  destruct (Z.ltb_spec (de_rec_len buf off) 8); [split; [done|lia]|].
  destruct (Z.eqb_spec (de_rec_len buf off mod 4) 0); simpl; [|split; [done|lia]].
  destruct (_ >? limit) eqn:E1; boolp; [split; [done|lia]|].
  destruct (de_name_len buf off >? de_rec_len buf off - 8) eqn:E2; boolp; [split; [done|lia]|].
  destruct (_ >? 255) eqn:E3; boolp; split; (done || lia).
Qed.

Context (buf : list Z) (Hbuf : bytes_ok buf) (Hlen : zlength buf = 1024).

(** Lookup finds the first entry of that name. *)
Lemma lookup_scan_entries fuel off name :
  0 ≤ off → lookup_scan fuel buf off limit name = find_entry name (dir_entries fuel buf off limit).
Proof using Hlim Hbuf Hlen.
  revert off. induction fuel as [|fuel IH]; intros off Ho; cbn [lookup_scan dir_entries]; [done|].
  destruct (Z.leb_spec (off + 8) limit); [|done].
  destruct (ext2_dirent_ok buf off limit) eqn:Eok; cbn [negb]; [|done].
  apply dirent_ok_spec in Eok as (H1 & H2 & H3 & H4 & H5); [|done..].
  rewrite find_entry_app, <- IH by lia.
  destruct (de_inode buf off =? 0); cbn [negb andb find_entry]; [done|].
  assert (length (de_name buf off (de_name_len buf off)) = Z.to_nat (de_name_len buf off)) as Hdl.
  { apply length_slice; lia. }
  case_decide as Hn.
  - assert (zlength name = de_name_len buf off) as Hz by (unfold zlength; subst; lia).
    rewrite Hz, Z.eqb_refl, bool_decide_eq_true_2 by done. done.
  - destruct (Z.eqb_spec (de_name_len buf off) (zlength name)) as [Hz|]; [|done].
    rewrite bool_decide_eq_false_2; [done|]. by rewrite <- Hz.
Qed.

(** readdir delivers the entry of that index, or counts the entries. *)
Lemma readdir_scan_entries fuel off cur index :
  0 ≤ off → 0 ≤ cur ≤ index → index < 4294967296 - 1 →
  readdir_scan fuel buf off limit cur index =
    match dir_entries fuel buf off limit !! Z.to_nat (index - cur) with
    | Some (ino, name) => inr (take 127 name, ino)
    | None => inl (cur + zlength (dir_entries fuel buf off limit))
    end.
Proof using Hlim Hbuf Hlen.
  revert off cur. induction fuel as [|fuel IH]; intros off cur Ho Hc Hi;
    cbn [readdir_scan dir_entries]; [by rewrite lookup_nil, Z.add_0_r|].
  destruct (Z.leb_spec (off + 8) limit); [|by rewrite lookup_nil, Z.add_0_r].
  destruct (ext2_dirent_ok buf off limit) eqn:Eok; cbn [negb];
    [|by rewrite lookup_nil, Z.add_0_r].
  apply dirent_ok_spec in Eok as (H1 & H2 & H3 & H4 & H5); [|done..].
  destruct (de_inode buf off =? 0); cbn [negb app]; [by apply IH; lia|].
  destruct (Z.eqb_spec cur index) as [->|Hne].
  - rewrite Z.sub_diag. simpl. do 2 f_equal. unfold de_name, slice.
    rewrite take_take. f_equal. lia.
  - rewrite u32_small, IH by lia.
    replace (Z.to_nat (index - cur)) with (S (Z.to_nat (index - (cur + 1)))) by lia.
    simpl. destruct (_ !! _) as [[i n]|]; [done|]. f_equal. unfold zlength. simpl. lia.
Qed.
End scans.

(** ** Insertion *)

Section add.
Context (limit : Z) (Hlim : limit ≤ 1024).
Context (buf : list Z) (Hbuf : bytes_ok buf) (Hlen : zlength buf = 1024).
Context (child : Z) (name : list Z).
Context (Hchild : 0 < child < 4294967296) (Hbn : bytes_ok name) (Hname : zlength name ≤ 255).

Local Abbreviation need := (rec_size (zlength name)).

(** Two buffers that agree on a whole record have the same record there. *)
Lemma dirent_agree b1 b2 off :
  (∀ x n, 0 ≤ x → 0 ≤ n → x + n ≤ off + 8 → slice b1 x n = slice b2 x n) →
  0 ≤ off →
  de_inode b1 off = de_inode b2 off ∧ de_rec_len b1 off = de_rec_len b2 off ∧
  de_name_len b1 off = de_name_len b2 off ∧
  ext2_dirent_ok b1 off limit = ext2_dirent_ok b2 off limit.
Proof using.
  intros Ha Ho.
  assert (de_inode b1 off = de_inode b2 off) as H1.
  { unfold de_inode, rd32. by rewrite Ha by lia. }
  assert (de_rec_len b1 off = de_rec_len b2 off) as H2.
  { unfold de_rec_len, rd16. by rewrite Ha by lia. }
  assert (de_name_len b1 off = de_name_len b2 off) as H3.
  { unfold de_name_len, rd16. by rewrite Ha by lia. }
  split_and!; try done. unfold ext2_dirent_ok. by rewrite H2, H3.
Qed.

(** The split of the last record at [off]. *)
Definition split_record (off : Z) : list Z :=
  put_dirent (wr16 buf (off + 4) (rec_size (de_name_len buf off)))
    (off + rec_size (de_name_len buf off)) child
    (de_rec_len buf off - rec_size (de_name_len buf off)) name.

Section split.
Context (off : Z) (Ho : 0 ≤ off) (H8 : off + 8 ≤ limit).
Context (Hok : ext2_dirent_ok buf off limit = true).
Context (Hlast : limit ≤ off + de_rec_len buf off).
Context (Hroom : rec_size (de_name_len buf off) + need ≤ de_rec_len buf off).

Local Lemma facts :
  8 ≤ de_rec_len buf off ∧ de_rec_len buf off mod 4 = 0 ∧
  off + de_rec_len buf off = limit ∧ 0 ≤ de_name_len buf off ≤ 255 ∧
  rec_size (de_name_len buf off) = (de_name_len buf off + 11) / 4 * 4 ∧
  need = (zlength name + 11) / 4 * 4 ∧ 0 ≤ zlength name.
Proof using Hlim Hbuf Hlen Hname Ho H8 Hok Hlast.
  apply (dirent_ok_spec limit Hlim) in Hok as (H1 & H2 & H3 & H4 & H5); [|done..].
  assert (0 ≤ zlength name) by (unfold zlength; lia).
  split_and!; try lia; apply rec_size_eq; lia.
Qed.

Lemma split_before x n :
  0 ≤ x → 0 ≤ n → x + n ≤ off + 4 → slice (split_record off) x n = slice buf x n.
Proof using Hlim Hbuf Hlen Hname Ho H8 Hok Hlast Hroom.
  intros. destruct facts as (F1 & F2 & F3 & F4 & F5 & F6 & F7). unfold split_record.
  rewrite put_dirent_before by (rewrite ?zlength_wr16; zdm).
  apply slice_wr16_ne; lia.
Qed.

(** The record that was split keeps its entry and shrinks. *)
Lemma split_first :
  let b := split_record off in
  de_inode b off = de_inode buf off ∧ de_rec_len b off = rec_size (de_name_len buf off) ∧
  de_name_len b off = de_name_len buf off ∧
  de_name b off (de_name_len buf off) = de_name buf off (de_name_len buf off) ∧
  ext2_dirent_ok b off limit = true.
Proof using Hlim Hbuf Hlen Hname Ho H8 Hok Hlast Hroom.
  destruct facts as (F1 & F2 & F3 & F4 & F5 & F6 & F7). intros b.
  assert (de_inode b off = de_inode buf off) as E1.
  { unfold de_inode, rd32. by rewrite split_before by lia. }
  assert (de_rec_len b off = rec_size (de_name_len buf off)) as E2.
  { unfold de_rec_len, b, split_record, rd16.
    rewrite put_dirent_before by (rewrite ?zlength_wr16; zdm).
    apply rd16_wr16_eq; [lia|lia|]. unfold fits. change (256 ^ Z.of_nat 2) with 65536. zdm. }
  assert (de_name_len b off = de_name_len buf off) as E3.
  { unfold de_name_len at 1, b, split_record, rd16.
    rewrite put_dirent_before, slice_wr16_ne by (rewrite ?zlength_wr16; zdm). done. }
  split_and!; [done..| |].
  - unfold de_name, b, split_record.
    rewrite put_dirent_before, slice_wr16_ne by (rewrite ?zlength_wr16; zdm). done.
  - unfold ext2_dirent_ok. rewrite E2, E3, land3, u32_small by zdm.
    rewrite F5. replace (_ <? 8) with false by (symmetry; apply Z.ltb_ge; zdm).
    rewrite Z.mod_mul by lia. cbn [Z.eqb negb].
    repeat case_if; [zdm..|done].
Qed.

(** The new record follows and is the last one of the block. *)
Lemma split_second fuel :
  (2 ≤ fuel)%nat →
  dir_entries fuel (split_record off) (off + rec_size (de_name_len buf off)) limit =
  [(child, name)].
Proof using All.
  intros Hf. destruct facts as (F1 & F2 & F3 & F4 & F5 & F6 & F7).
  set (o := off + rec_size (de_name_len buf off)).
  set (rl := de_rec_len buf off - rec_size (de_name_len buf off)).
  destruct (put_dirent_rec (wr16 buf (off + 4) (rec_size (de_name_len buf off)))
              o child rl name) as (E1 & E2 & E3 & E4).
  { subst o. zdm. } { rewrite zlength_wr16, Hlen. subst o. zdm. }
  { unfold fits. change (256 ^ Z.of_nat 4) with 4294967296. lia. }
  { unfold fits. change (256 ^ Z.of_nat 2) with 65536. subst rl. zdm. } { lia. }
  fold rl o in E1, E2, E3, E4. change (put_dirent _ o child rl name) with (split_record off) in *.
  destruct fuel as [|[|fuel]]; [lia|lia|]. cbn [dir_entries].
  assert (ext2_dirent_ok (split_record off) o limit = true) as Hok2.
  { unfold ext2_dirent_ok. rewrite E2, E3, land3, u32_small by (subst o rl; zdm).
    replace (rl <? 8) with false by (symmetry; apply Z.ltb_ge; subst rl; zdm).
    replace (rl mod 4) with 0 by (subst rl; zdm). cbn [Z.eqb negb].
    repeat case_if; [subst o rl; zdm..|done]. }
  rewrite Hok2, E1, E2, E3, E4. cbn [negb].
  destruct (Z.leb_spec (o + 8) limit); [|subst o; zdm].
  destruct (Z.eqb_spec child 0); [lia|].
  destruct (Z.leb_spec (o + rl + 8) limit); [subst o rl; zdm|]. done.
Qed.
End split.

(** Adding an entry appends it to the entries of the block. *)
Lemma add_scan_entries fuel off buf' :
  0 ≤ off → limit - off < 8 * Z.of_nat fuel →
  add_scan fuel buf off limit need child name = Some buf' →
  (∀ x n, 0 ≤ x → 0 ≤ n → x + n ≤ off + 4 → slice buf' x n = slice buf x n) ∧
  dir_entries fuel buf' off limit = dir_entries fuel buf off limit ++ [(child, name)].
Proof using All.
  revert off. induction fuel as [|fuel IH]; intros off Ho Hfuel; cbn [add_scan]; [done|].
  destruct (Z.leb_spec (off + 8) limit) as [H8|]; [|done].
  destruct (ext2_dirent_ok buf off limit) eqn:Hok; cbn [negb]; [|done].
  pose proof Hok as (G1 & G2 & G3 & G4 & G5)%(dirent_ok_spec limit Hlim); [|done..].
  assert (0 ≤ zlength name) by (unfold zlength; lia).
  rewrite (u32_small (_ + need)) by (rewrite !rec_size_eq by lia; zdm).
  destruct (_ && _) eqn:Esplit.
  - boolp. assert (limit ≤ off + de_rec_len buf off) as Hlast by lia.
    assert (rec_size (de_name_len buf off) + need ≤ de_rec_len buf off) as Hroom by lia.
    intros [= <-]. change (put_dirent _ _ _ _ _) with (split_record off).
    split; [intros; by apply split_before|].
    destruct (split_first off Ho H8 Hok Hlast Hroom) as (E1 & E2 & E3 & E4 & E5).
    assert (8 ≤ rec_size (de_name_len buf off) ∧ 8 ≤ need) as [? ?]
      by (rewrite !rec_size_eq by lia; zdm).
    cbn [dir_entries]. rewrite E1, E2, E3, E4, E5, Hok. cbn [negb].
    destruct (Z.leb_spec (off + 8) limit); [|lia].
    rewrite (split_second off Ho H8 Hok Hlast Hroom fuel) by lia.
    replace (dir_entries fuel buf (off + de_rec_len buf off) limit) with ([] : list (Z * list Z));
      [by rewrite app_nil_r|].
    destruct fuel; cbn [dir_entries]; [done|].
    by destruct (Z.leb_spec (off + de_rec_len buf off + 8) limit); [lia|].
  - intros Hadd. destruct (IH (off + de_rec_len buf off)) as [Ha He]; [lia|lia|done|].
    split; [intros; apply Ha; lia|].
    destruct (dirent_agree buf' buf off) as (E1 & E2 & E3 & E4); [intros; apply Ha; lia|done|].
    cbn [dir_entries]. rewrite E1, E2, E3, E4, Hok, He. cbn [negb].
    destruct (Z.leb_spec (off + 8) limit); [|lia].
    unfold de_name. rewrite Ha by lia. by rewrite app_assoc.
Qed.
End add.
