(* ===== verification/Ext2Conf.v ===== *)
(** * ext2: confinement under every fault schedule

    A small program logic: [kp g P l c l' R] says that from any state with
    the invariant, geometry [g] and lock state [l], whatever faults the
    device and the heap have, [c] keeps invariant and geometry, changes only
    blocks in [P], leaves the lock as [l'], and returns a value in [R].  Every
    VFS callback is shown to release the volume's mutex on all its paths and
    to write only the blocks of its own job. *)

From S2P Require Import Prelude Bytes Block Ext2Types Ext2Core Ext2Alloc.
From S2P Require Import Ext2File Ext2WriteSpec Ext2Dir.

Section kp.
Context {E : Type} `{BlockEnvOk E}.
Implicit Types s : fsys E.

Definition kp (g : geom) (P : Z → Prop) {A} (l : bool) (c : ST (fsys E) A) (l' : bool)
    (R : A → Prop) : Prop :=
  ∀ s, fs_ok s → geom_of (mnt s) = g → m_locked (mnt s) = l →
    wp c s (λ x s', fs_ok s' ∧ geom_of (mnt s') = g ∧ m_locked (mnt s') = l' ∧
                    (∀ b, ¬ P b → blk (env s') b = blk (env s) b) ∧ R x).

Definition any {A} (_ : A) : Prop := True.
Definition buf_ok (b : list Z) : Prop := bytes_ok b ∧ length b = 1024%nat.
Definition opt_ok {A} (R : A → Prop) (o : option A) : Prop := ∀ x, o = Some x → R x.

Section rules.
Context (g : geom) (P : Z → Prop).

Lemma kp_ret {A} l (x : A) (R : A → Prop) : R x → kp g P l (mret x) l R.
Proof. intros Hx s Hs Hg Hl. by apply wp_ret. Qed.

Lemma kp_bind {A B} l1 l2 l3 (c : ST (fsys E) A) (k : A → ST (fsys E) B) R R' :
  kp g P l1 c l2 R → (∀ x, R x → kp g P l2 (k x) l3 R') → kp g P l1 (c ≫= k) l3 R'.
Proof.
  intros Hc Hk s Hs Hg Hl. apply wp_bind. eapply wp_mono; [by apply Hc|].
  intros x s1 (Hs1 & Hg1 & Hl1 & Hb1 & Hx). eapply wp_mono; [by apply (Hk x Hx)|].
  intros y s2 (Hs2 & Hg2 & Hl2 & Hb2 & Hy). split_and!; [done..| |done].
  intros b Hb. by rewrite Hb2, Hb1.
Qed.

(** A call with a specification in terms of [frame]. *)
Lemma kp_frame {A} l (c : ST (fsys E) A) (R : A → Prop) :
  (∀ s, fs_ok s → geom_of (mnt s) = g → wp c s (λ x s', frame P s s' ∧ R x)) →
  kp g P l c l R.
Proof.
  intros Hc s Hs Hg Hl. eapply wp_mono; [by apply Hc|]. intros x s' [F Hx].
  split_and!; [apply F | by rewrite (fr_geom _ _ _ F) | by rewrite (fr_lock _ _ _ F)
              | apply F | done].
Qed.

Lemma kp_get {A} l l' (k : ext2_mount → ST (fsys E) A) R :
  (∀ m, mount_ok m → geom_of m = g → kp g P l (k m) l' R) →
  kp g P l (gets mnt ≫= k) l' R.
Proof.
  intros Hk s Hs Hg Hl. apply wp_bind, wp_gets. by apply (Hk (mnt s)); [apply Hs|..].
Qed.

Lemma kp_mnt l l' f :
  (∀ m, mount_ok m → geom_of m = g → m_locked m = l →
     geom_of (f m) = g ∧ m_locked (f m) = l' ∧ sb_ok (m_sb (f m)) ∧ gd_ok (m_gd (f m))) →
  kp g P l (on_mnt f) l' any.
Proof.
  intros Hf s Hs Hg Hl. apply wp_modify. cbn [mnt env].
  destruct (Hf (mnt s)) as (H1 & H2 & H3 & H4); [apply Hs|done..|].
  destruct Hs as [[Hgo ?] Hd]. split_and!; [|done..].
  split; cbn [mnt env]; [split; [congruence|done]|].
  replace (s_blocks_count (m_sb (f (mnt s)))) with (s_blocks_count (m_sb (mnt s))); [done|].
  rewrite <- Hg in H1. by apply (f_equal g_blocks) in H1.
Qed.

Lemma kp_lock l : kp g P l mutex_lock true any.
Proof. apply kp_mnt. intros m [? []] ? ?. by split_and!. Qed.

Lemma kp_unlock l : kp g P l mutex_unlock false any.
Proof. apply kp_mnt. intros m [? []] ? ?. by split_and!. Qed.

Lemma kp_kmalloc l sz : kp g P l (kmalloc sz) l any.
Proof.
  apply kp_frame. intros s Hs Hg. eapply wp_mono; [by apply wp_kmalloc|].
  intros ok s' (F & _). split; [by eapply frame_mono|done].
Qed.

Lemma kp_read_block l b : kp g P l (ext2_read_block b) l (opt_ok buf_ok).
Proof.
  apply kp_frame. intros s Hs Hg. eapply wp_mono; [by apply wp_read_block|].
  intros r s' (F & _ & B & _). split; [by eapply frame_mono|].
  intros buf Hb. destruct (B buf Hb) as [_ ->]. split; [apply blk_bytes|apply length_blk].
Qed.

Lemma kp_write_block l b buf :
  (in_vol g b → P b) → buf_ok buf → kp g P l (ext2_write_block b buf) l any.
Proof.
  intros Hb [? ?]. apply kp_frame. intros s Hs Hg.
  destruct (decide (in_vol g b)) as [Hv|Hv].
  - eapply wp_mono; [by apply wp_write_block|].
    intros r s' (F & _). split; [|done]. eapply frame_mono; [exact F|]. intros x ->. auto.
  - apply wp_bind, wp_gets. destruct (ext2_blk_in_range (mnt s) b) eqn:Er; simpl.
    + apply blk_in_range_spec in Er; [congruence|apply Hs].
    + apply wp_ret. split; [by apply frame_refl|done].
Qed.

Lemma kp_read_inode l ino :
  kp g P l (ext2_read_inode ino) l (opt_ok (λ n, inode_ok n ∧ valid_ino g ino)).
Proof.
  apply kp_frame. intros s Hs Hg. eapply wp_mono; [by apply wp_read_inode|].
  intros r s' (F & _ & B & _). split; [by eapply frame_mono|].
  intros n Hn. destruct (B n Hn) as [? ->]. rewrite <- Hg. split; [apply disk_inode_ok|done].
Qed.

Lemma kp_write_inode l ino n :
  (valid_ino g ino → P (ino_blk g ino)) → inode_ok n →
  kp g P l (ext2_write_inode ino n) l any.
Proof.
  intros HP Hn. apply kp_frame. intros s Hs Hg. eapply wp_mono; [by apply wp_write_inode|].
  intros r s' (F & _). split; [|done]. eapply frame_mono; [exact F|]. rewrite Hg.
  intros b [Hv ->]. by apply HP.
Qed.

Lemma kp_write_group_desc l : P 2 → kp g P l ext2_write_group_desc l any.
Proof.
  intros H2. apply kp_frame. intros s Hs Hg. eapply wp_mono; [by apply wp_write_group_desc|].
  intros r s' (F & _). split; [|done]. eapply frame_mono; [exact F|]. by intros b ->.
Qed.

Lemma kp_alloc_block l :
  P 1 → P 2 → P (g_bb g) → (∀ b, is_data g b → P b) →
  kp g P l ext2_alloc_block l (λ r, r = 0 ∨ is_data g r).
Proof.
  intros H1 H2 Hb Hd. apply kp_frame. intros s Hs <-. eapply wp_mono; [by apply wp_alloc_block|].
  cbn beta. intros r s' [[-> A]|A].
  - split; [|by left]. eapply frame_mono; [apply A|]. cbn beta.
    intros b [->|[->|[->|[? _]]]]; auto.
  - pose proof (ad_data _ _ _ A). split; [|by right]. eapply frame_mono; [apply A|]. cbn beta.
    intros b [->|[->|[->| ->]]]; auto.
Qed.

Lemma kp_free_block l b :
  P 1 → P 2 → P (g_bb g) → 0 ≤ b → kp g P l (ext2_free_block b) l any.
Proof.
  intros H1 H2 Hb Hb0. apply kp_frame. intros s Hs <-. eapply wp_mono; [by apply wp_free_block|].
  cbn beta. intros r s' [F _]. split; [|done]. eapply frame_mono; [exact F|]. cbn beta.
  intros x [->|[->| ->]]; auto.
Qed.

Lemma kp_alloc_inode l :
  P 1 → P 2 → P (g_ib g) → kp g P l ext2_alloc_inode l (λ r, r = 0 ∨ valid_ino g r).
Proof.
  intros H1 H2 Hb. apply kp_frame. intros s Hs <-. eapply wp_mono; [by apply wp_alloc_inode|].
  cbn beta. intros r s' [F Hr]. split.
  - eapply frame_mono; [exact F|]. cbn beta. intros x [->|[->| ->]]; auto.
  - destruct Hr as [(-> & _)|A]; [by left|right].
    pose proof (id_ino _ _ _ A). unfold valid_ino. lia.
Qed.

Lemma kp_free_inode l ino :
  P 1 → P 2 → P (g_ib g) → kp g P l (ext2_free_inode ino) l any.
Proof.
  intros H1 H2 Hb. apply kp_frame. intros s Hs <-. eapply wp_mono; [by apply wp_free_inode|].
  cbn beta. intros r s' [F _]. split; [|done]. eapply frame_mono; [exact F|]. cbn beta.
  intros x [->|[->| ->]]; auto.
Qed.
End rules.

Lemma kp_mono g (P Q : Z → Prop) {A} l l' (c : ST (fsys E) A) (R R' : A → Prop) :
  kp g P l c l' R → (∀ b, P b → Q b) → (∀ x, R x → R' x) → kp g Q l c l' R'.
Proof.
  intros Hc HP HR s Hs Hg Hl. eapply wp_mono; [by apply Hc|].
  intros x s' (? & ? & ? & Hb & ?). split_and!; auto.
Qed.
End kp.

Lemma any_intro {A} (x : A) : any x.
Proof. done. Qed.

#[export] Hint Resolve any_intro : nos.

(** ** Symbolic execution *)

Ltac kp_call :=
  first
  [ apply kp_lock | apply kp_unlock | apply kp_kmalloc | apply kp_read_block
  | apply kp_read_inode
  | apply kp_alloc_block; auto with nos | apply kp_free_block; auto with nos
  | apply kp_alloc_inode; auto with nos | apply kp_free_inode; auto with nos
  | apply kp_write_group_desc; auto with nos
  | apply kp_write_block | apply kp_write_inode
  | solve [eauto with nos] ].

Ltac kp_step :=
  cbv zeta;
  lazymatch goal with
  | |- kp _ _ _ (mret _) _ _ => apply kp_ret
  | |- kp _ _ _ (gets mnt ≫= _) _ _ => apply kp_get; intros ?m ?Hm ?Hg
  | |- kp _ _ _ (_ ≫= _) _ _ => eapply kp_bind; [kp_call|intros ?x ?Hx; cbn beta in *]
  | |- kp _ _ _ (if negb ?b then _ else _) _ _ => destruct b eqn:?; cbn [negb]
  | |- kp _ _ _ (if ?b then _ else _) _ _ => destruct b eqn:?
  | |- kp _ _ _ (match ?x with Some _ => _ | None => _ end) _ _ => destruct x eqn:?
  end.

(** ** Reading, for any set of writable blocks *)

Section readers.
Context {E : Type} `{BlockEnvOk E} (g : geom) (P : Z → Prop) (l : bool).

Lemma kp_read_phys n bi ind :
  kp (E:=E) g P l (read_phys n bi ind) l any.
Proof. unfold read_phys. repeat (kp_step || done). Qed.

Lemma kp_read_loop fuel n off size ind out :
  kp (E:=E) g P l (read_loop fuel n off size ind out) l any.
Proof.
  revert ind out. induction fuel as [|fuel IH]; intros ind out; cbn [read_loop];
    [by apply kp_ret|].
  kp_step; [|by kp_step]. kp_step. cbv zeta.
  eapply kp_bind; [apply kp_read_phys|]. intros [[p ind']|] _; [|by kp_step].
  kp_step; [apply IH|]. kp_step; [|by kp_step]. kp_step. kp_step; [apply IH|by kp_step].
Qed.

Lemma kp_read_data n off size :
  kp (E:=E) g P l (ext2_read_data n off size) l any.
Proof.
  unfold ext2_read_data. kp_step; [by kp_step|]. kp_step. kp_step.
  kp_step; [apply kp_read_loop|by kp_step].
Qed.

Lemma kp_lookup_blocks k dir name :
  kp (E:=E) g P l (lookup_blocks k dir name) l any.
Proof.
  induction k as [|k IH]; cbn [lookup_blocks]; [by apply kp_ret|].
  repeat (kp_step || exact IH || done).
Qed.

Lemma kp_dir_lookup dir name :
  kp (E:=E) g P l (ext2_dir_lookup dir name) l any.
Proof. unfold ext2_dir_lookup. kp_step. kp_step. kp_step; [apply kp_lookup_blocks|by kp_step]. Qed.

Lemma kp_readdir_blocks k din cur index :
  kp (E:=E) g P l (readdir_blocks k din cur index) l any.
Proof.
  revert cur. induction k as [|k IH]; intros cur; cbn [readdir_blocks]; [by apply kp_ret|].
  repeat (kp_step || done || apply IH). destruct (readdir_scan _ _ _ _ _ _); [apply IH|by kp_step].
Qed.
End readers.

#[export] Hint Resolve kp_read_data kp_dir_lookup kp_readdir_blocks : nos.

(** ** Writing *)

(** Blocks that allocating and writing file data may touch. *)
Definition data_meta (g : geom) (b : Z) : Prop :=
  b = 1 ∨ b = 2 ∨ b = g_bb g ∨ is_data g b.

Lemma data_meta_1 g : data_meta g 1.
Proof. by left. Qed.
Lemma data_meta_2 g : data_meta g 2.
Proof. by right; left. Qed.
Lemma data_meta_bb g : data_meta g (g_bb g).
Proof. by right; right; left. Qed.
Lemma data_meta_data g b : is_data g b → data_meta g b.
Proof. by right; right; right. Qed.

#[export] Hint Resolve data_meta_1 data_meta_2 data_meta_bb data_meta_data : nos.

(** A block that passed the range check of file data. *)
Lemma checked_data g m b :
  geom_of m = g → ext2_data_blk_ok m b = true → in_vol g b → is_data g b.
Proof.
  intros <- [->|Hd]%data_blk_ok_spec Hv; [|done]. unfold in_vol in Hv. lia.
Qed.

Lemma data_fits g m r : mount_ok m → geom_of m = g → is_data g r → fits 4 r.
Proof.
  intros [Hg _] <- Hd. pose proof (go_bb _ Hg). pose proof (go_blocks _ Hg).
  unfold is_data, fits in *. change (256 ^ Z.of_nat 4) with 4294967296. lia.
Qed.

Lemma wshape_buf b : buf_ok b → ∀ b', Some b = Some b' → buf_ok b'.
Proof. by intros ? b' [= <-]. Qed.

Lemma zero_buf_ok : buf_ok (memset_buf 0 1024).
Proof. split; [|done]. apply bytes_ok_replicate. unfold is_byte. lia. Qed.

Section writers.
Context {E : Type} `{BlockEnvOk E} (g : geom) (P : Z → Prop) (l : bool).
Context (HP : ∀ b, data_meta g b → P b).

(** The state of a write keeps its shape. *)
Record wshape (w : wstate) : Prop := {
  ws_inode : inode_ok (w_in w);
  ws_ind b : w_ind w = Some b → buf_ok b;
  ws_dirty : w_dirty w = true → w_ind w ≠ None;
}.

Lemma kp_alloc : kp (E:=E) g P l ext2_alloc_block l (λ r, r = 0 ∨ is_data g r).
Proof using HP. apply kp_alloc_block; auto with nos. Qed.

Lemma kp_free b : 0 ≤ b → kp (E:=E) g P l (ext2_free_block b) l any.
Proof using HP. intros. apply kp_free_block; auto with nos. Qed.

Lemma kp_write_data_block m b buf :
  geom_of m = g → ext2_data_blk_ok m b = true → buf_ok buf →
  kp (E:=E) g P l (ext2_write_block b buf) l any.
Proof using HP.
  intros Hm Hb Hbuf. apply kp_write_block; [|done]. intros Hv.
  by apply HP, data_meta_data, (checked_data g m).
Qed.

Lemma kp_write_indirect w :
  wshape w →
  kp (E:=E) g P l (write_indirect w) l (λ r, wshape r.1 ∧ (r.2 = true → w_ind r.1 ≠ None)).
Proof using HP.
  intros W. pose proof W as [W1 W2 W3]. unfold write_indirect. kp_step.
  replace (m_block_size m) with 1024 by (symmetry; rewrite <- Hg in *; apply (go_bs _ (proj1 Hm))).
  eapply (kp_bind _ _ _ _ _ _ _ any); [destruct (w_ibuf w); [by kp_step | apply kp_kmalloc]|].
  intros ok _. kp_step; [|by kp_step].
  eapply (kp_bind _ _ _ _ _ _ _ (λ r, wshape r.1)).
  { cbn [w_in]. kp_step; [|by kp_step].
    eapply kp_bind; [apply kp_alloc|]. intros blk Hb. kp_step; [by kp_step|].
    apply Z.eqb_neq in Heqb1. destruct Hb as [|Hb]; [done|].
    kp_step. cbn [fst]. constructor; cbn [w_in w_ind w_dirty]; [|apply wshape_buf, zero_buf_ok|done].
    by apply link_block_ok; [|eapply data_fits]. }
  intros [w2 ok2] V. cbn [fst] in *. pose proof V as [V1 V2 V3]. kp_step; [|by kp_step]. kp_step; [|by kp_step].
  kp_step; [kp_step; cbn [fst snd]; split; [done|congruence]|].
  kp_step. kp_step; kp_step; cbn [fst snd]; (split; [|done]); [|done].
  subst. constructor; cbn; [done|apply wshape_buf; by apply Hx|done].
Qed.

Lemma kp_write_phys bi w :
  wshape w → kp (E:=E) g P l (write_phys bi w) l (λ r, wshape r.1).
Proof using HP.
  intros W. pose proof W as [W1 W2 W3]. unfold write_phys. kp_step. kp_step.
  - kp_step; [|by kp_step]. eapply kp_bind; [apply kp_alloc|]. intros r Hr.
    kp_step; [by kp_step|]. apply Z.eqb_neq in Heqb1. destruct Hr as [|Hr]; [done|].
    kp_step. constructor; cbn; [|done..]. by apply link_block_ok; [|eapply data_fits].
  - kp_step; [|by kp_step].
    eapply kp_bind; [by apply kp_write_indirect|]. intros [w1 ok] [V Hi].
    cbn [fst snd] in *. pose proof V as [V1 V2 V3]. kp_step; [|by kp_step].
    destruct (w_ind w1) as [ents|] eqn:Ei; [|by destruct (Hi eq_refl)]. cbn [default].
    kp_step; [|by kp_step]. eapply kp_bind; [apply kp_alloc|]. intros r Hr.
    kp_step; [by kp_step|]. kp_step. destruct (V2 ents eq_refl) as [Hb1 Hb2].
    constructor; cbn [w_in w_ind w_dirty]; [|apply wshape_buf; split|done].
    + apply set_i_blocks_ok; [done|apply u32_range].
    + apply Forall_splice; [done|apply le_enc_bytes].
    + unfold wr32. by rewrite length_splice.
Qed.

Lemma kp_write_loop fuel off size buf w :
  wshape w → bytes_ok buf →
  kp (E:=E) g P l (write_loop fuel off size buf w) l wshape.
Proof using HP.
  intros Hw Hbuf. revert w Hw. induction fuel as [|fuel IH]; intros w Hw; cbn [write_loop];
    [by apply kp_ret|].
  kp_step; [|by kp_step]. kp_step. cbv zeta.
  eapply kp_bind; [by apply kp_write_phys|]. intros [w1 [p|]] W1; [|by kp_step].
  cbn [fst] in W1. kp_step; [|by kp_step]. kp_step. kp_step; [|by kp_step].
  destruct (Hx l0 eq_refl) as [Hb1 Hb2].
  eapply kp_bind; [eapply kp_write_data_block; [exact Hg|done|]|].
  { split; [|by rewrite length_splice].
    apply Forall_splice; [done|]. by apply bytes_ok_take, bytes_ok_drop. }
  intros ok _. kp_step; [|by kp_step]. apply IH. by destruct W1.
Qed.

Lemma kp_write_data ino n off size buf :
  P (ino_blk g ino) → inode_ok n → bytes_ok buf →
  kp (E:=E) g P l (ext2_write_data ino n off size buf) l (λ r, inode_ok r.2).
Proof using HP.
  intros Hi Hn Hbuf. unfold ext2_write_data. kp_step. kp_step; [by kp_step|].
  kp_step; [by kp_step|]. kp_step. kp_step; [|by kp_step].
  eapply kp_bind; [by apply kp_write_loop|]. intros w [V1 V2 V3].
  eapply (kp_bind _ _ _ _ _ _ _ any).
  { destruct (w_ibuf w); [|by apply kp_ret]. destruct (w_dirty w) eqn:Ed; [|by apply kp_ret].
    cbn [andb]. kp_step; [|by kp_step].
    eapply kp_bind; [eapply kp_write_data_block; [exact Hg|done|]|by intros; kp_step].
    destruct (w_ind w) as [b|]; [by apply V2|by destruct V3]. }
  intros lost _. kp_step; [by kp_step|]. kp_step; [by kp_step|].
  assert (inode_ok (if u32 (off + w_wrote w) >? i_size (w_in w)
                    then set_i_size (u32 (off + w_wrote w)) (w_in w) else w_in w)).
  { apply grown_inode; [done|apply u32_range]. }
  kp_step; [done..|]. kp_step; by kp_step.
Qed.
End writers.

(** ** Nodes, truncation and directories *)

Section callbacks.
Context {E : Type} `{BlockEnvOk E} (g : geom).

Lemma kp_set_node_length P l node len : kp (E:=E) g P l (set_node_length node len) l any.
Proof. apply kp_mnt. intros m [? []] ? ?. by split_and!. Qed.

Lemma kp_get_node P l ino name mode size :
  kp (E:=E) g P l (ext2_get_node ino name mode size) l any.
Proof.
  unfold ext2_get_node. kp_step. kp_step; [by kp_step|]. kp_step.
  - eapply kp_bind; [apply kp_set_node_length|]. intros ? _. by kp_step.
  - kp_step. kp_step; [|by kp_step].
    eapply kp_bind; [apply kp_mnt|intros ? _; by kp_step]. intros m' [? []] ? ?. by split_and!.
Qed.

Lemma kp_set_used_dirs P l v : fits 2 v → kp (E:=E) g P l (set_used_dirs v) l any.
Proof.
  intros Hv. apply kp_mnt. intros m [? []] ? ?. split_and!; try done.
  by apply (set_gd_ok _ (u16 0) (u16 0)); auto with nos.
Qed.

Lemma kp_free_blocks (P : Z → Prop) l bs :
  P 1 → P 2 → P (g_bb g) → Forall (λ b, 0 ≤ b) bs → kp (E:=E) g P l (free_blocks bs) l any.
Proof.
  intros H1 H2 Hb. induction 1 as [|b bs Hb0 _ IH]; cbn [free_blocks]; [by apply kp_ret|].
  eapply (kp_bind _ _ _ _ _ _ _ any); [|intros ? _; exact IH].
  kp_step; [by kp_step|]. by apply kp_free_block.
Qed.

Lemma kp_free_children (P : Z → Prop) l m bs :
  P 1 → P 2 → P (g_bb g) → Forall (λ b, 0 ≤ b) bs →
  kp (E:=E) g P l (free_children m bs) l any.
Proof.
  intros H1 H2 Hb. induction 1 as [|b bs Hb0 _ IH]; cbn [free_children]; [by apply kp_ret|].
  eapply (kp_bind _ _ _ _ _ _ _ any); [|intros ? _; exact IH].
  kp_step; [by apply kp_free_block|by kp_step].
Qed.

Lemma kp_load_children P l n :
  kp (E:=E) g P l (load_children n) l (opt_ok (Forall (λ b, 0 ≤ b))).
Proof.
  unfold load_children. kp_step. kp_step; [kp_step; by intros x [= <-]|].
  kp_step. kp_step; [|by kp_step]. kp_step. kp_step; [|by kp_step].
  kp_step; [|by kp_step]. kp_step. intros ? [= <-]. apply Forall_fmap, Forall_forall.
  intros i _. cbn. apply rd32_range. by apply (Hx0 l0).
Qed.

Lemma clear_pointers_ok n : inode_ok n → inode_ok (clear_pointers n).
Proof.
  intros Hn. unfold clear_pointers. apply set_i_blocks_ok; [|by unfold fits].
  apply set_i_size_ok; [|by unfold fits]. apply set_i_block_ok; [done| |].
  - rewrite length_app, length_replicate, length_drop. destruct Hn as (-> & _). done.
  - apply Forall_app. split; [by repeat constructor|]. apply Forall_drop. by apply i_block_fits.
Qed.

Lemma i_block_nonneg n k : inode_ok n → Forall (λ b, 0 ≤ b) (take k (i_block n)).
Proof.
  intros Hn. apply Forall_take. eapply Forall_impl; [by apply i_block_fits|]. by intros x [? _].
Qed.

(** ext2_read_file, ext2_readdir and ext2_finddir write nothing. *)
Lemma kp_read_file P node off size :
  kp (E:=E) g P false (ext2_read_file node off size) false any.
Proof.
  unfold ext2_read_file. kp_step. kp_step. kp_step; [|by kp_step; kp_step].
  kp_step. kp_step; [|by kp_step; kp_step].
  eapply kp_bind; [apply kp_read_data|]. intros got _. kp_step. by kp_step.
Qed.

Lemma kp_readdir P node index : kp (E:=E) g P false (ext2_readdir node index) false any.
Proof.
  unfold ext2_readdir. kp_step. kp_step. kp_step; [|by kp_step; kp_step].
  kp_step. kp_step; [|by kp_step; kp_step]. kp_step. kp_step; [|by kp_step; kp_step].
  eapply kp_bind; [apply kp_readdir_blocks|]. intros got _. kp_step. by kp_step.
Qed.

Lemma kp_finddir P node name : kp (E:=E) g P false (ext2_finddir node name) false any.
Proof.
  unfold ext2_finddir. kp_step. kp_step. kp_step; [|by kp_step; kp_step].
  kp_step. kp_step; [|by kp_step; kp_step].
  eapply kp_bind; [apply kp_dir_lookup|]. intros ino _. kp_step; [by kp_step; kp_step|].
  kp_step. kp_step; [|by kp_step; kp_step]. kp_step; [by kp_step; kp_step|].
  eapply kp_bind; [apply kp_get_node|]. intros fn _. kp_step. by kp_step.
Qed.

(** ext2_write_file writes data blocks, the block bitmap, the counters and
    the block of its own inode. *)
Lemma kp_write_file node off size buf :
  bytes_ok buf →
  kp (E:=E) g (λ b, data_meta g b ∨ valid_ino g node ∧ b = ino_blk g node) false
    (ext2_write_file node off size buf) false any.
Proof.
  intros Hbuf. unfold ext2_write_file. kp_step. kp_step. kp_step; [|by kp_step; kp_step].
  kp_step. kp_step; [|by kp_step; kp_step]. destruct (Hx0 e eq_refl) as [Hn Hv].
  eapply kp_bind; [apply kp_write_data; auto|]. intros [wrote n'] _.
  eapply kp_bind; [apply kp_set_node_length|]. intros ? _. kp_step. by kp_step.
Qed.

(** ext2_truncate writes no data block. *)
Lemma kp_truncate node :
  kp (E:=E) g (λ b, b = 1 ∨ b = 2 ∨ b = g_bb g ∨ valid_ino g node ∧ b = ino_blk g node) false
    (ext2_truncate node) false any.
Proof.
  unfold ext2_truncate. kp_step. kp_step. kp_step; [|by kp_step; kp_step].
  kp_step. kp_step; [|by kp_step; kp_step]. destruct (Hx0 e eq_refl) as [Hn _].
  eapply kp_bind; [apply kp_load_children|]. intros [children|] Hc; [|by kp_step; kp_step].
  specialize (Hc children eq_refl).
  eapply kp_bind; [apply kp_write_inode; [by auto 6|by apply clear_pointers_ok]|].
  intros wr _. kp_step; [|by kp_step; kp_step].
  eapply kp_bind; [apply kp_set_node_length|]. intros ? _.
  eapply kp_bind; [apply kp_free_blocks; auto; by apply i_block_nonneg|]. intros ? _.
  eapply (kp_bind _ _ _ _ _ _ _ any); [|intros ? _; kp_step; by kp_step].
  kp_step; [by kp_step|]. eapply kp_bind; [apply kp_free_children; auto|]. intros ? _.
  apply kp_free_block; auto. by apply inode_ok_block.
Qed.

(** ** Namespace operations *)

Lemma put_dirent_ok buf off ino rl name :
  buf_ok buf → bytes_ok name → buf_ok (put_dirent buf off ino rl name).
Proof.
  intros [Hb Hl] Hn. unfold put_dirent, wr16, wr32. split.
  - repeat (apply Forall_splice; [|done || apply le_enc_bytes]). done.
  - by rewrite !length_splice.
Qed.

Lemma add_scan_ok fuel buf off limit need child name buf' :
  buf_ok buf → bytes_ok name →
  add_scan fuel buf off limit need child name = Some buf' → buf_ok buf'.
Proof.
  intros Hb Hn. revert off. induction fuel as [|fuel IH]; intros off; cbn [add_scan]; [done|].
  repeat case_if; try done; [|by apply IH]. intros [= <-]. apply put_dirent_ok; [|done].
  destruct Hb as [Hb Hl]. split; unfold wr16; [|by rewrite length_splice].
  apply Forall_splice; [done|apply le_enc_bytes].
Qed.

Lemma fresh_inode_ok mode links size blocks blk :
  fits 2 mode → fits 2 links → fits 4 size → fits 4 blocks → fits 4 blk →
  inode_ok (fresh_inode mode links size blocks blk).
Proof.
  intros. split_and!; [done..|].
  unfold fresh_inode, inode_to_list, inode_widths; simpl.
  repeat (apply Forall2_cons; split; [first [done | by unfold fits] |]). done.
Qed.

Section names.
Context (P : Z → Prop) (HP : ∀ b, in_vol g b → P b) (Hgo : geom_ok g).

Local Lemma P_meta b : data_meta g b → P b.
Proof using HP Hgo.
  intros Hb. apply HP. pose proof (go_bb _ Hgo). pose proof (go_blocks _ Hgo).
  pose proof (go_fdb _ Hgo). unfold data_meta, is_data, in_vol in *. lia.
Qed.

Local Lemma P_ib : P (g_ib g).
Proof using HP Hgo.
  apply HP. pose proof (go_ib _ Hgo). pose proof (go_fdb _ Hgo). unfold in_vol. lia.
Qed.

Local Lemma P_ino ino : valid_ino g ino → P (ino_blk g ino).
Proof using HP Hgo. intros Hi. apply HP. by apply inode_blk_vol. Qed.

Local Hint Resolve P_meta P_ib P_ino : nos.

Lemma kp_add_fresh_block l dir_ino dir b child name :
  inode_ok dir → bytes_ok name →
  kp (E:=E) g P l (add_fresh_block dir_ino dir b child name) l (λ r, inode_ok r.2).
Proof using HP Hgo.
  intros Hd Hn. unfold add_fresh_block. kp_step.
  assert (m_block_size m = 1024) as Hbs by (rewrite <- Hg in Hgo; apply (go_bs _ Hgo)).
  rewrite Hbs. eapply kp_bind; [apply kp_alloc; auto with nos|]. intros r Hr.
  kp_step; [by kp_step|]. apply Z.eqb_neq in Heqb0. destruct Hr as [|Hr]; [done|].
  assert (fits 4 r) as Hrf by (by eapply data_fits).
  assert (inode_ok (set_i_size (u32 ((b + 1) * 1024)) (link_block m dir b r))) as Hd1.
  { apply set_i_size_ok; [by apply link_block_ok|apply u32_range]. }
  set (d1 := set_i_size _ (link_block _ _ _ _)) in *.
  eapply kp_bind.
  { apply kp_write_block; [by auto|]. apply put_dirent_ok; [apply zero_buf_ok|done]. }
  intros w _. eapply (kp_bind _ _ _ _ _ _ _ any).
  { kp_step; [|by kp_step]. apply kp_write_inode; auto with nos. }
  intros wi _. kp_step; [by kp_step|].
  eapply kp_bind; [apply kp_free; auto with nos; apply Hrf|]. intros ? _. kp_step. cbn [snd].
  apply set_i_size_ok; [|by apply inode_ok_size].
  apply set_i_blocks_ok; [|by apply inode_ok_blocks]. apply set_ptr_ok; [done|by unfold fits].
Qed.

Lemma kp_add_blocks l k dir_ino dir need child name :
  inode_ok dir → bytes_ok name →
  kp (E:=E) g P l (add_blocks k dir_ino dir need child name) l (λ r, inode_ok r.2).
Proof using HP Hgo.
  intros Hd Hn. induction k as [|k IH]; cbn [add_blocks]; [by apply kp_ret|].
  kp_step. kp_step; [by apply kp_add_fresh_block|]. kp_step; [|by kp_step].
  kp_step. kp_step; [|by kp_step]. kp_step; [|by kp_step]. kp_step; [|exact IH].
  eapply kp_bind; [|intros w _; by kp_step].
  apply kp_write_block; [by auto|]. eapply add_scan_ok; [|done..]. by apply (Hx l0).
Qed.

Lemma kp_dir_add l dir_ino dir child name :
  inode_ok dir → bytes_ok name →
  kp (E:=E) g P l (ext2_dir_add dir_ino dir child name) l (λ r, inode_ok r.2).
Proof using HP Hgo.
  intros Hd Hn. unfold ext2_dir_add. kp_step. kp_step; [by kp_step|]. kp_step.
  kp_step; [by apply kp_add_blocks|by kp_step].
Qed.

Lemma kp_create dir name :
  bytes_ok name → kp (E:=E) g P false (ext2_create dir name) false any.
Proof using HP Hgo.
  intros Hn. unfold ext2_create.
  kp_step. kp_step. kp_step; [|by kp_step; kp_step]. kp_step.
  kp_step; [|by kp_step; kp_step]. destruct (Hx0 e eq_refl) as [Hdi _].
  eapply kp_bind; [apply kp_dir_lookup|]. intros ex _. kp_step; [|by kp_step; kp_step].
  kp_step. kp_step; [by kp_step; kp_step|].
  eapply kp_bind; [apply kp_write_inode; [by auto with nos|by apply fresh_inode_ok]|].
  intros wr _. kp_step; [|do 2 kp_step; by kp_step].
  eapply kp_bind; [by apply kp_dir_add|]. intros [added d'] _.
  kp_step; [|do 2 kp_step; by kp_step].
  eapply kp_bind; [apply kp_get_node|]. intros fn _. kp_step. by kp_step.
Qed.

Lemma kp_mkdir_undo blk ino :
  0 ≤ blk → kp (E:=E) g P true (mkdir_undo blk ino) false any.
Proof using HP Hgo. intros Hb. unfold mkdir_undo. do 3 kp_step. by kp_step. Qed.

Lemma kp_fail : kp (E:=E) g P true (_ ← mutex_unlock; mret (-1)) false any.
Proof using. kp_step. by kp_step. Qed.

Lemma mkdir_block_ok ino parent : buf_ok (mkdir_block 1024 ino parent).
Proof using.
  apply put_dirent_ok; [apply put_dirent_ok; [apply zero_buf_ok|]|];
    repeat constructor; unfold is_byte; lia.
Qed.

Lemma kp_mkdir dir name :
  bytes_ok name → kp (E:=E) g P false (ext2_mkdir dir name) false any.
Proof using HP Hgo.
  intros Hn. unfold ext2_mkdir. kp_step. kp_step. kp_step; [|apply kp_fail]. kp_step.
  do 4 (kp_step; try apply kp_fail). destruct (Hx0 e eq_refl) as [Hdi Hdv].
  assert (m_block_size m = 1024) as -> by (rewrite <- Hg in Hgo; apply (go_bs _ Hgo)).
  eapply kp_bind; [apply kp_dir_lookup|]. intros ex _.
  do 3 (kp_step; try apply kp_fail).
  kp_step. kp_step; [apply kp_fail|].
  eapply kp_bind; [apply kp_alloc; auto with nos|]. intros blk Hb.
  kp_step; [kp_step; apply kp_fail|].
  assert (is_data g blk) by (destruct Hb as [->|]; done).
  assert (fits 4 blk) as Hbf by (by eapply data_fits).
  pose proof (kp_mkdir_undo blk x1 (proj1 Hbf)) as Hundo.
  kp_step. kp_step; [|exact Hundo].
  eapply kp_bind; [apply kp_write_block; [by auto|apply mkdir_block_ok]|].
  intros w1 _. kp_step; [|exact Hundo].
  eapply kp_bind; [apply kp_write_inode; [by auto with nos|by apply fresh_inode_ok]|].
  intros w2 _. kp_step; [|exact Hundo].
  assert (∀ d v, inode_ok d → inode_ok (set_i_links_count (u16 v) d)) as Hlk.
  { intros. apply set_i_links_count_ok; [done|apply u16_range]. }
  eapply kp_bind; [apply kp_write_inode; [by auto with nos|by apply Hlk]|].
  intros w3 _. kp_step; [|exact Hundo]. kp_step.
  eapply kp_bind; [apply kp_set_used_dirs, fits_u16|]. intros ? _. kp_step.
  assert (∀ d, inode_ok d → inode_ok (set_i_links_count (i_links_count e) d)) as Hlk2.
  { intros. apply set_i_links_count_ok; [done|by apply inode_ok_links]. }
  assert (fits 2 (bg_used_dirs_count (m_gd m0))) as Hud.
  { destruct Hm0 as (_ & _ & Hgd). by apply (Forall2_lookup_lr _ _ _ 5%nat 2%nat _ Hgd). }
  kp_step.
  2:{ eapply kp_bind; [by apply kp_set_used_dirs|]. intros ? _.
      eapply kp_bind; [apply kp_write_inode; [by auto with nos|by auto]|].
      intros ? _. exact Hundo. }
  eapply kp_bind; [apply kp_dir_add; by auto|]. intros [added d'] Hd'. cbn [snd] in Hd'.
  kp_step.
  - eapply kp_bind; [apply kp_get_node|]. intros fn _. kp_step. by kp_step.
  - eapply kp_bind; [by apply kp_set_used_dirs|]. intros ? _. kp_step.
    eapply kp_bind; [apply kp_write_inode; [by auto with nos|by auto]|].
    intros ? _. exact Hundo.
Qed.
End names.
End callbacks.
