(* ===== verification/Ext2TruncSpec.v ===== *)
(** * ext2: truncation and the accounting of free blocks

    [counts_ok] says that the free-block counters equal the number of clear
    bits of the bitmap; the allocator and ext2_free_block keep it.
    ext2_truncate releases exactly the blocks of its file. *)

From S2P Require Import Prelude Bytes Block Ext2Types Ext2Core Ext2Alloc.
From S2P Require Import Ext2File Ext2WriteSpec Ext2Dir Ext2Conf.

Section accounting.
Context {E : Type} `{BlockEnvOk E}.
Implicit Types s : fsys E.

(** The number of data blocks marked free. *)
Definition free_data s : Z :=
  let g := geom_of (mnt s) in
  count_clear (Z.to_nat (g_blocks g - g_fdb g)) (bbitmap s) (g_fdb g - 1).

(** Both free-block counters are the number of free data blocks. *)
Definition counts_ok s : Prop :=
  s_free_blocks_count (m_sb (mnt s)) = free_data s ∧
  bg_free_blocks_count (m_gd (mnt s)) = free_data s.

Lemma free_data_range s : fs_ok s → 0 ≤ free_data s ≤ 8190.
Proof.
  intros Hs. pose proof (proj1 (proj1 Hs)) as Hg. unfold free_data.
  pose proof (go_bb _ Hg). pose proof (go_blocks _ Hg). pose proof (go_fdb _ Hg).
  pose proof (count_clear_bounds (Z.to_nat (g_blocks (geom_of (mnt s)) - g_fdb (geom_of (mnt s))))
    (bbitmap s) (g_fdb (geom_of (mnt s)) - 1)). lia.
Qed.

Lemma alloc_counts s s' r : fs_ok s → alloc_done s s' r → counts_ok s → counts_ok s'.
Proof.
  intros Hs A [H1 H2]. pose proof (proj1 (proj1 Hs)) as Hg.
  pose proof (go_bb _ Hg). pose proof (go_blocks _ Hg). pose proof (go_fdb _ Hg).
  pose proof (ad_data _ _ _ A) as Hd. pose proof (ad_free _ _ _ A) as Hf.
  pose proof (free_data_range s Hs). pose proof (ad_count _ _ _ A) as [Hc1 Hc2].
  assert (free_data s' = free_data s - 1) as Hfd.
  { unfold free_data. rewrite (fr_geom _ _ _ (ad_frame _ _ _ A)), (ad_bm _ _ _ A).
    unfold is_data in Hd. apply count_clear_set; [lia|lia| |done].
    unfold bbitmap. rewrite zlength_blk. lia. }
  unfold counts_ok. rewrite Hfd, (ad_mnt _ _ _ A). cbn. rewrite H1, H2 in *.
  rewrite u32_small, u16_small; lia.
Qed.

Lemma free_counts s s' b :
  fs_ok s → frame (λ x, x = 1 ∨ x = 2 ∨ x = g_bb (geom_of (mnt s))) s s' →
  free_done s s' b → counts_ok s → counts_ok s'.
Proof.
  intros Hs F D [H1 H2]. pose proof (proj1 (proj1 Hs)) as Hg.
  pose proof (go_bb _ Hg). pose proof (go_blocks _ Hg). pose proof (go_fdb _ Hg).
  pose proof (fd_data _ _ _ D) as Hd. pose proof (fd_used _ _ _ D) as Hu.
  pose proof (free_data_range s Hs).
  assert (free_data s' = free_data s + 1) as Hfd.
  { unfold free_data. rewrite (fr_geom _ _ _ F), (fd_bm _ _ _ D).
    unfold is_data in Hd. apply count_clear_clear; [lia|lia| |done].
    unfold bbitmap. rewrite zlength_blk. lia. }
  unfold counts_ok. rewrite Hfd, (fd_mnt _ _ _ D). cbn. rewrite H1, H2.
  rewrite u32_small, u16_small; lia.
Qed.

(** With exact counters, an allocation on a reliable device fails only when
    every data block is in use. *)
Lemma no_free_exact s :
  fs_ok s → counts_ok s → no_free_block s →
  ∀ b, is_data (geom_of (mnt s)) b → blk_used s b = true.
Proof.
  intros Hs [H1 H2] [Hz|[Hz|Hz]] b Hb; [..|by apply Hz].
  all: rewrite Hz in *; unfold blk_used, free_data, is_data in *.
  1: symmetry in H1; apply (count_clear_zero _ _ _ H1); lia.
  symmetry in H2. apply (count_clear_zero _ _ _ H2). lia.
Qed.

(** ** Releasing a list of blocks *)

Lemma free_used s s' b x :
  fs_ok s → free_done s s' b → is_data (geom_of (mnt s)) x →
  blk_used s' x = true ↔ blk_used s x = true ∧ x ≠ b.
Proof.
  intros Hs D Hx. pose proof (proj1 (proj1 Hs)) as Hg.
  pose proof (go_bb _ Hg). pose proof (go_blocks _ Hg).
  pose proof (fd_data _ _ _ D) as Hd. unfold is_data in *.
  unfold blk_used. rewrite (fd_bm _ _ _ D).
  assert (zlength (bbitmap s) = 1024) as Hl by apply zlength_blk.
  destruct (decide (x = b)) as [->|Hne].
  - rewrite bm_test_clear_eq by (rewrite ?Hl; lia). split; [done|by intros [_ ?]].
  - rewrite bm_test_clear_ne by (rewrite ?Hl; lia). tauto.
Qed.

(** After releasing the non-zero blocks of [bs]. *)
Record released s s' (bs : list Z) : Prop := {
  re_frame : frame (λ x, x = 1 ∨ x = 2 ∨ x = g_bb (geom_of (mnt s))) s s';
  re_used x : is_data (geom_of (mnt s)) x →
    blk_used s' x = true ↔ blk_used s x = true ∧ x ∉ bs;
  re_counts : counts_ok s → counts_ok s';
}.

Lemma released_nil s s' :
  frame (λ _, False) s s' → mnt s' = mnt s → released s s' [].
Proof.
  intros F M. assert (∀ x, blk_used s' x = blk_used s x) as Hu.
  { intros x. unfold blk_used, bbitmap. by rewrite M, (frame_same _ _ _ F). }
  constructor.
  - by eapply frame_mono; [exact F|].
  - intros x _. rewrite Hu, elem_of_nil. tauto.
  - unfold counts_ok, free_data, bbitmap. by rewrite M, (frame_same _ _ _ F).
Qed.

Lemma released_trans s1 s2 s3 l1 l2 :
  released s1 s2 l1 → released s2 s3 l2 → released s1 s3 (l1 ++ l2).
Proof.
  intros [F1 U1 C1] [F2 U2 C2]. pose proof (fr_geom _ _ _ F1) as Hg. constructor.
  - eapply frame_trans; [exact F1|exact F2|]. rewrite Hg. in_frame.
  - intros x Hx. rewrite U2, U1, elem_of_app by (by rewrite ?Hg). tauto.
  - auto.
Qed.

(** A used data block, or zero: what ext2_free_block does with it. *)
Lemma wp_free_one b s :
  fs_ok s → reliable (env s) → is_data (geom_of (mnt s)) b → blk_used s b = true →
  wp (ext2_free_block b) s (λ _ s', released s s' [b]).
Proof.
  intros Hs Hr Hd Hu. pose proof (go_bb _ (proj1 (proj1 Hs))).
  eapply wp_mono; [apply wp_free_block; [done|unfold is_data in Hd; lia]|].
  intros ? s' (F & _ & Hp). destruct (Hp Hr) as [D|[_ []]]; [|done]. constructor; [done| |].
  - intros x Hx. rewrite (free_used s s' b) by done. rewrite list_elem_of_singleton. tauto.
  - intros Hc. by apply (free_counts s s' b).
Qed.

(** Lists of pointers: zeros, and distinct data blocks in use. *)
Definition live_list s (bs : list Z) : Prop :=
  (∀ b, b ∈ bs → b ≠ 0 → is_data (geom_of (mnt s)) b ∧ blk_used s b = true) ∧
  (∀ i j b, bs !! i = Some b → bs !! j = Some b → b ≠ 0 → i = j).

Lemma live_cons s s' b bs :
  live_list s (b :: bs) → released s s' (if decide (b = 0) then [] else [b]) →
  live_list s' bs.
Proof.
  intros [L1 L2] [F U C]. split.
  - intros x Hx Hn. destruct (L1 x) as [Hd Hu]; [by right|done|].
    rewrite (fr_geom _ _ _ F). split; [done|]. apply U; [done|]. split; [done|].
    case_decide; [apply not_elem_of_nil|]. rewrite list_elem_of_singleton. intros ->.
    apply list_elem_of_lookup in Hx as [i Hi]. by specialize (L2 0%nat (S i) b eq_refl Hi Hn).
  - intros i j x Hi Hj Hn. specialize (L2 (S i) (S j) x Hi Hj Hn). lia.
Qed.

Lemma released_ext s s' l1 l2 :
  (∀ x, is_data (geom_of (mnt s)) x → x ∈ l1 ↔ x ∈ l2) → released s s' l1 → released s s' l2.
Proof.
  intros Hl [F U C]. constructor; [done| |done]. intros x Hx. by rewrite U, Hl.
Qed.

Lemma wp_free_list s bs (step : Z → ST (fsys E) unit) (loop : list Z → ST (fsys E) unit) :
  loop [] = mret tt →
  (∀ b bs, loop (b :: bs) = (_ ← step b; loop bs)) →
  (∀ s', geom_of (mnt s') = geom_of (mnt s) → step 0 s' = (tt, s')) →
  (∀ b s', geom_of (mnt s') = geom_of (mnt s) → b ≠ 0 → is_data (geom_of (mnt s)) b →
           step b s' = ext2_free_block b s') →
  fs_ok s → reliable (env s) → live_list s bs →
  wp (loop bs) s (λ _ s', released s s' bs).
Proof.
  intros Hnil Hcons Hzero Hb Hs Hr Hl.
  enough (∀ s1, geom_of (mnt s1) = geom_of (mnt s) → fs_ok s1 → reliable (env s1) →
    live_list s1 bs → wp (loop bs) s1 (λ _ s', released s1 s' bs)) as Hgen by (by apply Hgen).
  clear Hs Hr Hl. induction bs as [|b bs IH]; intros s1 Hg Hs Hr Hl.
  { rewrite Hnil. apply wp_ret, released_nil; [by apply frame_refl|done]. }
  rewrite Hcons. apply wp_bind.
  assert (wp (step b) s1 (λ _ s', released s1 s' (if decide (b = 0) then [] else [b]))) as Hw.
  { case_decide as Hz.
    - subst. unfold wp. rewrite Hzero by done. apply released_nil; [by apply frame_refl|done].
    - destruct (proj1 Hl b) as [Hd Hu]; [by left|done|]. rewrite Hg in Hd.
      unfold wp. rewrite Hb by done. apply wp_free_one; [done|done|by rewrite Hg|done]. }
  eapply wp_mono; [exact Hw|]. intros ? s2 R. pose proof (re_frame _ _ _ R) as F.
  eapply wp_mono.
  { apply IH; [by rewrite (fr_geom _ _ _ F)|apply F|by apply F|by apply (live_cons s1 s2 b)]. }
  intros ? s3 R'. eapply released_ext; [|exact (released_trans _ _ _ _ _ R R')].
  intros x Hx. case_decide; [|done]. simpl. rewrite elem_of_cons. split; [by right|].
  intros [->|?]; [|done]. pose proof (go_bb _ (proj1 (proj1 Hs))). unfold is_data in Hx. lia.
Qed.

Lemma live_app s s' l1 l2 :
  live_list s (l1 ++ l2) → released s s' l1 → live_list s' l2.
Proof.
  intros [L1 L2] [F U C]. split.
  - intros x Hx Hn. destruct (L1 x) as [Hd Hu]; [apply elem_of_app; by right|done|].
    rewrite (fr_geom _ _ _ F). split; [done|]. apply U; [done|]. split; [done|].
    intros [i Hi]%list_elem_of_lookup. apply list_elem_of_lookup in Hx as [j Hj].
    pose proof (lookup_lt_Some _ _ _ Hi).
    specialize (L2 i (length l1 + j)%nat x). rewrite lookup_app_l in L2 by done.
    rewrite lookup_app_r in L2 by lia. replace (length l1 + j - length l1)%nat with j in L2 by lia.
    specialize (L2 Hi Hj Hn). lia.
  - intros i j x Hi Hj Hn. specialize (L2 (length l1 + i)%nat (length l1 + j)%nat x).
    rewrite !lookup_app_r in L2 by lia.
    replace (length l1 + j - length l1)%nat with j in L2 by lia.
    replace (length l1 + i - length l1)%nat with i in L2 by lia.
    specialize (L2 Hi Hj Hn). lia.
Qed.

Lemma live_prefix s l1 l2 : live_list s (l1 ++ l2) → live_list s l1.
Proof.
  intros [L1 L2]. split.
  - intros b Hb. apply L1, elem_of_app. by left.
  - intros i j b Hi Hj. apply L2; by apply lookup_app_l_Some.
Qed.

Lemma live_fmap s f idx :
  map_ok s f → NoDup idx → (∀ j, j ∈ idx → 0 ≤ j < 269) → live_list s (f <$> idx).
Proof.
  intros [M1 M2] Hnd Hr. split.
  - intros b (j & -> & Hj)%list_elem_of_fmap Hn. by apply M1; [apply Hr|].
  - intros i j b Hi Hj Hn. rewrite list_lookup_fmap in Hi, Hj.
    destruct (idx !! i) as [x|] eqn:Hx; [|done]. destruct (idx !! j) as [y|] eqn:Hy; [|done].
    injection Hi as <-. injection Hj as Heq.
    assert (x = y) as ->.
    { apply M2; [apply Hr; by eapply list_elem_of_lookup_2|
                 apply Hr; by eapply list_elem_of_lookup_2|done|by symmetry]. }
    by eapply NoDup_lookup.
Qed.

(** ** Truncation *)

Definition trunc_order : list Z := seqZ 0 12 ++ seqZ 13 256 ++ [12].

Lemma trunc_order_ok : NoDup trunc_order ∧ ∀ j, j ∈ trunc_order ↔ 0 ≤ j < 269.
Proof.
  split.
  - by apply (bool_decide_unpack _); vm_compute.
  - intros j. unfold trunc_order. rewrite !elem_of_app, !elem_of_seqZ, list_elem_of_singleton. lia.
Qed.

Lemma direct_blocks s n : inode_ok n → take 12 (i_block n) = file_map s n <$> seqZ 0 12.
Proof.
  intros (Hl & _). apply list_eq. intros i. rewrite list_lookup_fmap.
  destruct (decide (i < 12)%nat) as [Hi|Hi].
  - rewrite lookup_take_lt, lookup_seqZ_lt by lia. simpl.
    rewrite file_map_slot by lia. destruct (lookup_lt_is_Some_2 (i_block n) i) as [x Hx]; [lia|].
    rewrite Hx. f_equal. symmetry. apply bget_lookup. rewrite <- Hx. f_equal. lia.
  - rewrite lookup_take_ge, lookup_seqZ_ge by lia. done.
Qed.

Lemma child_blocks s n m :
  m_block_size m = 1024 → bget (i_block n) 12 ≠ 0 →
  block_ptrs m (blk (env s) (bget (i_block n) 12)) = file_map s n <$> seqZ 13 256.
Proof.
  intros Hbs Hn. unfold block_ptrs. rewrite Hbs. change (1024 / 4) with 256.
  apply list_eq. intros i. rewrite !list_lookup_fmap. destruct (decide (i < 256)%nat).
  - rewrite !lookup_seqZ_lt by lia. simpl. f_equal. unfold file_map, slots.
    destruct (Z.ltb_spec (13 + Z.of_nat i) 13); [lia|].
    rewrite (proj2 (Z.eqb_neq _ _) Hn). f_equal. lia.
  - by rewrite !lookup_seqZ_ge by lia.
Qed.

(** The whole map is zero from slot 13 on when there is no indirect block. *)
Lemma wp_load_children n s :
  fs_ok s → reliable (env s) → file_ok s n →
  wp (load_children n) s (λ r s',
    frame (λ _, False) s s' ∧ mnt s' = mnt s ∧
    r = Some (if bget (i_block n) 12 =? 0 then [] else file_map s n <$> seqZ 13 256)).
Proof.
  intros Hs Hr Hf. pose proof (go_bs _ (proj1 (proj1 Hs))) as Hbs.
  apply wp_bind, wp_gets. destruct (Z.eqb_spec (bget (i_block n) 12) 0) as [Hz|Hz].
  { apply wp_ret. split_and!; [by apply frame_refl|done|done]. }
  wp_call wp_kmalloc. intros ok s1 (F1 & M1 & R1). rewrite (R1 Hr). cbn [negb].
  wp_call wp_read_block. intros r s2 (F2 & M2 & B2 & R2).
  pose proof (file_ok_ptrs _ _ Hf) as Hp.
  destruct r as [ind|].
  2:{ exfalso. apply (R2 ltac:(frame_fact)); [|done]. rewrite M1. apply data_vol; [done|].
      rewrite <- (file_map_slot s) by lia. apply (fo_map _ _ Hf); [lia|].
      by rewrite file_map_slot by lia. }
  rewrite (proj2 (B2 ind eq_refl)), (frame_same _ _ _ F1), (child_blocks s) by done.
  rewrite (proj2 (forallb_forall _ _)).
  - apply wp_ret. split_and!; [frame_tac|congruence|done].
  - intros x (j & -> & Hj%elem_of_seqZ)%list_elem_of_In%list_elem_of_fmap.
    rewrite Hp by lia. by rewrite andb_false_r.
Qed.

Lemma wp_free_blocks bs s :
  fs_ok s → reliable (env s) → live_list s bs →
  wp (free_blocks bs) s (λ _ s', released s s' bs).
Proof.
  intros. eapply (wp_free_list s bs (λ b, if b =? 0 then mret tt else ext2_free_block b)); try done.
  intros b s' _ Hb _. by rewrite (proj2 (Z.eqb_neq _ _) Hb).
Qed.

Lemma wp_free_children m bs s :
  geom_of m = geom_of (mnt s) → fs_ok s → reliable (env s) → live_list s bs →
  wp (free_children m bs) s (λ _ s', released s s' bs).
Proof.
  intros Hm **.
  eapply (wp_free_list s bs (λ b, if negb (b =? 0) && ext2_data_blk_ok m b
                                  then ext2_free_block b else mret tt)); try done.
  intros b s' _ Hb Hd. rewrite (proj2 (Z.eqb_neq _ _) Hb), (proj2 (data_blk_ok_spec m b)); [done|].
  right. by rewrite Hm.
Qed.

(** The release phase of ext2_truncate, for a file with map [f]. *)
Lemma wp_release_all m f s :
  geom_of m = geom_of (mnt s) → fs_ok s → reliable (env s) → map_ok s f →
  (f 12 = 0 → ∀ j, 13 ≤ j < 269 → f j = 0) →
  wp (_ ← free_blocks (f <$> seqZ 0 12);
      if f 12 =? 0 then mret tt else
        _ ← free_children m (if f 12 =? 0 then [] else f <$> seqZ 13 256);
        ext2_free_block (f 12)) s (λ _ s', released s s' (f <$> trunc_order)).
Proof.
  intros Hm Hs Hr Hf H12. destruct trunc_order_ok as [Hnd Hin].
  pose proof (live_fmap s f trunc_order Hf Hnd (λ j, proj1 (Hin j))) as Hl.
  assert (f <$> trunc_order = (f <$> seqZ 0 12) ++ (f <$> seqZ 13 256) ++ [f 12]) as Hsplit.
  { unfold trunc_order. by rewrite !fmap_app. }
  rewrite Hsplit in *. apply wp_bind. eapply wp_mono.
  { apply wp_free_blocks; [done|done|by eapply live_prefix]. }
  intros ? s1 R1. pose proof (re_frame _ _ _ R1) as F1. destruct (Z.eqb_spec (f 12) 0) as [Hz|Hz].
  - apply wp_ret. eapply released_ext; [|exact R1]. intros x Hx.
    rewrite !elem_of_app, list_elem_of_singleton. split; [by left|].
    pose proof (go_bb _ (proj1 (proj1 Hs))). unfold is_data in Hx.
    intros [?|[(j & -> & Hj%elem_of_seqZ)%list_elem_of_fmap|?]]; [done| |lia].
    rewrite (H12 Hz j) in Hx by lia. lia.
  - apply wp_bind. eapply wp_mono.
    { apply wp_free_children; [by rewrite (fr_geom _ _ _ F1)|apply F1|by apply F1|].
      eapply live_prefix, live_app; [exact Hl|exact R1]. }
    intros ? s2 R2. pose proof (re_frame _ _ _ R2) as F2.
    pose proof (live_app _ _ _ _ (live_app _ _ _ _ Hl R1) R2) as [Hl12 _].
    destruct (Hl12 (f 12)) as [Hd Hu]; [by left|done|].
    eapply wp_mono; [apply wp_free_one; [apply F2|by apply F2, F1|done|done]|].
    intros ? s3 R3. rewrite app_assoc.
    eapply released_trans; [|exact R3]. exact (released_trans _ _ _ _ _ R1 R2).
Qed.

(** The cleared inode maps no block. *)
Lemma file_map_cleared s n j : 0 ≤ j → file_map s (clear_pointers n) j = 0.
Proof.
  intros Hj. unfold file_map, slots, clear_pointers. cbn [i_block set_i_blocks set_i_size set_i_block].
  assert (∀ k, 0 ≤ k < 13 → bget (replicate 13 0 ++ drop 13 (i_block n)) k = 0) as Hz.
  { intros k Hk. unfold bget. rewrite lookup_app_l by (rewrite length_replicate; lia).
    by rewrite lookup_replicate_2 by lia. }
  rewrite (Hz 12) by lia. destruct (Z.ltb_spec j 13); [by apply Hz|done].
Qed.

(** What a successful truncation leaves. *)
Record truncated s (node : Z) s' : Prop := {
  tr_ok : fs_ok s' ∧ geom_of (mnt s') = geom_of (mnt s) ∧ m_locked (mnt s') = false;
  tr_inode : disk_inode s' node = clear_pointers (disk_inode s node);
  tr_size : i_size (disk_inode s' node) = 0 ∧ i_blocks (disk_inode s' node) = 0;
  tr_map j : 0 ≤ j → file_map s' (disk_inode s' node) j = 0;
  tr_others j : valid_ino (geom_of (mnt s)) j → j ≠ node → disk_inode s' j = disk_inode s j;
  tr_used x : is_data (geom_of (mnt s)) x →
    blk_used s' x = true ↔
    blk_used s x = true ∧ ∀ j, 0 ≤ j < 269 → file_map s (disk_inode s node) j ≠ x;
  tr_data x : is_data (geom_of (mnt s)) x → blk (env s') x = blk (env s) x;
  tr_counts : counts_ok s → counts_ok s';
}.

(** From the state [s3] with the cleared inode to the end. *)
Lemma truncated_intro s node s3 s4 s5 :
  fs_ok s → valid_ino (geom_of (mnt s)) node →
  geom_of (mnt s4) = geom_of (mnt s) → env s4 = env s3 →
  (∀ b, b ≠ ino_blk (geom_of (mnt s)) node → blk (env s3) b = blk (env s) b) →
  (counts_ok s → counts_ok s4) →
  disk_inode s4 node = clear_pointers (disk_inode s node) →
  (∀ j, valid_ino (geom_of (mnt s)) j → j ≠ node → disk_inode s4 j = disk_inode s j) →
  released s4 s5 (file_map s (disk_inode s node) <$> trunc_order) →
  truncated s node (mk_fsys (set_m_locked false (mnt s5)) (env s5)).
Proof.
  intros Hs Hv Hg He Hb Hc Hi Ho [F U C]. set (s' := mk_fsys _ (env s5)).
  pose proof (proj1 (proj1 Hs)) as Hgo. pose proof (go_bb _ Hgo) as Hbb.
  destruct (ino_blk_meta _ node Hgo Hv) as (Hm1 & Hm2 & _ & _).
  assert (∀ j, valid_ino (geom_of (mnt s)) j → disk_inode s' j = disk_inode s4 j) as Hdi.
  { intros j Hj. unfold disk_inode. change (geom_of (mnt s')) with (geom_of (mnt s5)).
    rewrite (fr_geom _ _ _ F), Hg. change (env s') with (env s5).
    rewrite (fr_blk _ _ _ F); [done|]. rewrite Hg.
    destruct (ino_blk_meta _ j Hgo Hj) as (_ & ? & _ & ?). unfold ino_blk in *. lia. }
  assert (∀ x, is_data (geom_of (mnt s)) x → blk (env s4) x = blk (env s) x) as Hd4.
  { intros x Hx. rewrite He. apply Hb. intros ->. done. }
  constructor.
  - split_and!; [apply F| |done]. by rewrite <- Hg, <- (fr_geom _ _ _ F).
  - by rewrite Hdi.
  - by rewrite Hdi, Hi.
  - intros j Hj. rewrite Hdi, Hi by done. by apply file_map_cleared.
  - intros j Hj Hne. rewrite Hdi by done. by apply Ho.
  - intros x Hx. change (blk_used s' x) with (blk_used s5 x). rewrite U by (by rewrite Hg).
    assert (blk_used s4 x = blk_used s x) as ->.
    { unfold blk_used, bbitmap. rewrite Hg, He, Hb by (by symmetry). done. }
    split; intros [H1 H2]; (split; [done|]).
    + intros j Hj Heq. apply H2. rewrite <- Heq. apply list_elem_of_fmap_2. by apply trunc_order_ok.
    + intros (j & Heq & Hj)%list_elem_of_fmap. apply (H2 j); [by apply trunc_order_ok|done].
  - intros x Hx. change (env s') with (env s5). rewrite (fr_blk _ _ _ F), Hd4; [done..|].
    rewrite Hg. unfold is_data in Hx. lia.
  - intros Hcs. exact (C (Hc Hcs)).
Qed.

Lemma wp_truncate node s :
  fs_ok s → reliable (env s) → valid_ino (geom_of (mnt s)) node →
  file_ok s (disk_inode s node) →
  wp (ext2_truncate node) s (λ r s', r = 0 ∧ truncated s node s').
Proof.
  intros Hs Hr Hv Hf. set (n := disk_inode s node) in *. unfold ext2_truncate.
  set (s0 := mk_fsys (set_m_locked true (mnt s)) (env s)).
  apply wp_bind, wp_modify. change (mk_fsys _ _) with s0.
  assert (fs_ok s0) as Hs0 by exact Hs.
  assert (file_ok s0 n) as Hf0 by (by destruct Hf; constructor).
  wp_call wp_read_inode. intros r s1 (F1 & M1 & B1 & R1).
  destruct r as [n'|]; [|by destruct (R1 Hr Hv)].
  destruct (B1 n' eq_refl) as [_ Hn']. change (disk_inode s0 node) with n in Hn'. subst n'.
  apply wp_bind, wp_gets. rewrite M1.
  rewrite (inode_pointers_geom (mnt s)), file_ok_pointers by done. cbn [negb].
  pose proof (file_ok_same _ _ _ F1 (fr_geom _ _ _ F1) Hf0) as Hf1.
  apply wp_bind. eapply wp_mono; [apply wp_load_children; [apply F1|by apply F1|done]|].
  intros r s2 (F2 & M2 & ->). rewrite (file_map_same _ _ _ F1).
  change (file_map s0 n) with (file_map s n). set (f := file_map s n).
  assert (inode_ok n) as Hn by apply disk_inode_ok.
  assert (f 12 = bget (i_block n) 12) as Hf12 by (by apply file_map_slot).
  rewrite <- Hf12, (direct_blocks s) by done. fold f.
  apply wp_bind. eapply wp_mono; [apply wp_write_inode; [apply F2|by apply clear_pointers_ok]|].
  intros wr s3 (F3 & M3 & B3 & R3). rewrite M2, M1 in B3, R3, F3.
  rewrite (R3 (fr_rel _ _ _ F2 (fr_rel _ _ _ F1 Hr)) Hv) in *. cbn [negb].
  destruct (B3 eq_refl) as (_ & Hd3 & Ho3).
  apply wp_bind, wp_modify. set (s4 := mk_fsys _ (env s3)).
  assert (m_sb (mnt s4) = m_sb (mnt s) ∧ m_gd (mnt s4) = m_gd (mnt s) ∧
          geom_of (mnt s4) = geom_of (mnt s)) as (Hsb4 & Hgd4 & Hg4).
  { change (m_sb (mnt s3) = m_sb (mnt s0) ∧ m_gd (mnt s3) = m_gd (mnt s0) ∧
            geom_of (mnt s3) = geom_of (mnt s0)). by rewrite M3, M2, M1. }
  assert (∀ b, b ≠ ino_blk (geom_of (mnt s)) node → blk (env s3) b = blk (env s) b) as Hb.
  { intros b Hb. rewrite (fr_blk _ _ _ F3) by (by intros [_ ->]).
    rewrite (frame_same _ _ _ F2). apply (frame_same _ _ _ F1). }
  destruct (ino_blk_meta _ node (proj1 (proj1 Hs)) Hv) as (Hm1 & Hm2 & _ & _).
  assert (bbitmap s4 = bbitmap s) as Hbm.
  { unfold bbitmap. rewrite Hg4. apply Hb. by symmetry. }
  assert (fs_ok s4) as Hs4 by exact (fr_ok _ _ _ F3).
  assert (map_ok s4 f) as Hmap.
  { apply (map_ok_state s); [done| |apply Hf]. intros b. unfold blk_used. by rewrite Hbm. }
  assert (reliable (env s4)) as Hr4 by (apply (fr_rel _ _ _ F3); frame_fact).
  assert (f 12 = 0 → ∀ j, 13 ≤ j < 269 → f j = 0) as Hz12.
  { intros Hz j Hj. apply slots_no_ind; [congruence|lia]. }
  pose proof (wp_bind_inv _ _ _ _ (wp_release_all (mnt s0) f s4 (eq_sym Hg4) Hs4 Hr4 Hmap Hz12)) as Hw0.
  apply wp_bind. eapply wp_mono; [exact Hw0|].
  intros ? s5 Hw. apply wp_bind. eapply wp_mono; [exact Hw|]. intros ? s6 R.
  apply wp_bind, wp_modify, wp_ret. split; [done|].
  apply (truncated_intro s node s3 s4 s6); try done.
  - unfold counts_ok, free_data. by rewrite Hbm, Hg4, Hsb4, Hgd4.
  - intros j Hj Hne. change (disk_inode s3 j = disk_inode s j). rewrite Ho3 by done.
    unfold disk_inode. rewrite M2, M1, (frame_same _ _ _ F2), (frame_same _ _ _ F1). done.
Qed.
End accounting.
