(* ===== verification/Ext2Mount.v ===== *)
(** * ext2: mount validation (kernel/ext2.c, 1265-1466)

    [ext2_mount] reads the superblock and the group descriptor, checks the
    geometry this driver supports, derives the allocation bounds, and builds
    the mount context with the root directory in its node cache. *)

From S2P Require Import Prelude Bytes Block Ext2Types Ext2Core Ext2Alloc Ext2File Ext2WriteSpec Ext2Dir Ext2Conf.

Definition INODE_SIZE : Z := 128.

(** [SPANS_OVERLAP(a, na, b, nb)]. *)
Definition spans_overlap (a na b nb : Z) : bool :=
  (a <? u32 (b + nb)) && (b <? u32 (a + na)).

(** The checks on the superblock, each a [return 0], in source order
    (1277-1319). *)
Definition mount_sb_ok (sector_count : Z) (s : ext2_superblock) : bool :=
  (s_magic s =? EXT2_MAGIC) &&
  (s_rev_level s =? EXT2_REV_OLD) &&
  (s_log_block_size s =? 0) &&
  (s_feature_compat s =? 0) &&
  (s_feature_incompat s =? 0) &&
  (s_feature_ro_compat s =? 0) &&
  negb ((s_blocks_count s =? 0) || (s_inodes_count s <? EXT2_FIRST_NORMAL_INO)) &&
  negb ((s_blocks_per_group s =? 0) || (s_inodes_per_group s =? 0)) &&
  (s_first_data_block s =? 1) &&
  (s_log_frag_size s =? s_log_block_size s) &&
  (s_frags_per_group s =? s_blocks_per_group s) &&
  negb (s_inodes_count s >? s_inodes_per_group s) &&
  negb (s_inodes_count s >? 0xFFFFFFFF / INODE_SIZE) &&
  negb (s_blocks_count s >? 0xFFFFFFFF / 2) &&
  negb (u32 (s_blocks_count s * 2) >? sector_count) &&
  negb (s_blocks_count s >? u32 (s_first_data_block s + s_blocks_per_group s)) &&
  negb (s_blocks_per_group s >? 8192) &&
  negb (s_inodes_per_group s >? 8192) &&
  negb (s_free_blocks_count s >? s_blocks_count s) &&
  negb (s_free_inodes_count s >? s_inodes_count s).

Definition gd_block_of (s : ext2_superblock) : Z := u32 (s_first_data_block s + 1).

Definition inode_table_blocks_of (s : ext2_superblock) : Z :=
  u32 (u32 (s_inodes_count s * INODE_SIZE) + 1024 - 1) / 1024.

(** The checks on the group descriptor (1327-1371). *)
Definition mount_gd_ok (s : ext2_superblock) (g : ext2_group_desc) : bool :=
  let gdb := gd_block_of s in
  let itb := inode_table_blocks_of s in
  let bb := bg_block_bitmap g in
  let ib := bg_inode_bitmap g in
  let it := bg_inode_table g in
  let fd := s_first_data_block s in
  negb ((bb =? 0) || (ib =? 0) || (it =? 0)) &&
  negb (negb (ext2_blk_in_range_raw s bb) || negb (ext2_blk_in_range_raw s ib) ||
        negb (ext2_blk_in_range_raw s it)) &&
  negb (bg_free_blocks_count g >? s_blocks_per_group s) &&
  negb (bg_free_inodes_count g >? s_inodes_per_group s) &&
  negb (bg_used_dirs_count g >? s_inodes_count s) &&
  (s_free_blocks_count s =? bg_free_blocks_count g) &&
  (s_free_inodes_count s =? bg_free_inodes_count g) &&
  negb (u32 (it + itb) >? s_blocks_count s) &&
  negb (spans_overlap fd 1 gdb 1) &&
  negb (spans_overlap fd 1 bb 1) &&
  negb (spans_overlap fd 1 ib 1) &&
  negb (spans_overlap fd 1 it itb) &&
  negb (spans_overlap gdb 1 bb 1) &&
  negb (spans_overlap gdb 1 ib 1) &&
  negb (spans_overlap gdb 1 it itb) &&
  negb (spans_overlap bb 1 ib 1) &&
  negb (spans_overlap bb 1 it itb) &&
  negb (spans_overlap ib 1 it itb).

(** First block after all metadata (1378-1384). *)
Definition first_data_of (s : ext2_superblock) (g : ext2_group_desc) : Z :=
  let f0 := u32 (bg_inode_table g + inode_table_blocks_of s) in
  let f1 := if u32 (bg_block_bitmap g + 1) >? f0 then u32 (bg_block_bitmap g + 1) else f0 in
  let f2 := if u32 (bg_inode_bitmap g + 1) >? f1 then u32 (bg_inode_bitmap g + 1) else f1 in
  if u32 (gd_block_of s + 1) >? f2 then u32 (gd_block_of s + 1) else f2.

(** The populated mount context (1397-1419). *)
Definition mount_context (s : ext2_superblock) (g : ext2_group_desc) : ext2_mount := {|
  m_sb := s;
  m_gd := g;
  m_block_size := 1024;
  m_sectors_per_block := 2;
  m_inode_size := INODE_SIZE;
  m_inode_table_block := bg_inode_table g;
  m_inode_table_blocks := inode_table_blocks_of s;
  m_first_data_block := first_data_of s g;
  m_alloc_start_bit := u32 (first_data_of s g - s_first_data_block s);
  m_sb_block := s_first_data_block s;
  m_gd_block := gd_block_of s;
  m_locked := false;
  m_root_node := 0;
  m_node_cache := ∅;
  m_node_cache_size := s_inodes_count s;
|}.

Definition sizeof_ext2_mount : Z := 192.

(** "disk" *)
Definition root_name : list Z := [100; 105; 115; 107].

Section ext2.
Context {E : Type} `{BlockEnv E}.

(** Validate the root inode and build its node (1421-1460). *)
Definition mount_root : ST (fsys E) bool :=
  r ← ext2_read_inode EXT2_ROOT_INO;
  match r with
  | None => mret false
  | Some root_in =>
      m ← gets mnt;
      if negb (Z.land (i_mode root_in) EXT2_S_IFMT =? EXT2_S_IFDIR) then mret false else
      if negb (ext2_inode_pointers_ok m root_in) then mret false else
      fn ← ext2_get_node EXT2_ROOT_INO root_name (i_mode root_in) (i_size root_in);
      match fn with
      | None => mret false
      | Some root => _ ← on_mnt (set_m_root_node root); mret true
      end
  end.

(** The mounted file system, or [None] for every [return 0]. *)
Definition ext2_mount_dev : ST E (option ext2_mount) := λ e,
  let '(r1, e1) := block_read 2 2 e in
  match r1 with
  | None => (None, e1)
  | Some sbuf =>
      let s := decode_sb sbuf in
      if negb (mount_sb_ok (dev_sectors e1) s) then (None, e1) else
      let '(r2, e2) := block_read (u32 (gd_block_of s * 2)) 2 e1 in
      match r2 with
      | None => (None, e2)
      | Some gbuf =>
          let g := decode_gd gbuf in
          if negb (mount_gd_ok s g) then (None, e2) else
          if first_data_of s g >? s_blocks_count s then (None, e2) else
          let '(ok1, e3) := heap_alloc sizeof_ext2_mount e2 in
          if negb ok1 then (None, e3) else
          let '(ok2, e4) := heap_alloc (u32 (4 * s_inodes_count s)) e3 in
          if negb ok2 then (None, e4) else
          let '(ok3, fs) := mount_root (mk_fsys (mount_context s g) e4) in
          if negb ok3 then (None, env fs) else (Some (mnt fs), env fs)
      end
  end.
End ext2.

(** * ext2: what a successful mount guarantees

    Every volume [ext2_mount_dev] accepts satisfies the geometry invariant the
    other operations rely on, whatever bytes are on the device. *)

(** ** The arithmetic of the checks *)

Section geometry.
Context (sectors : Z) (s : ext2_superblock) (g : ext2_group_desc).
Context (Hs : sb_ok s) (Hgd : gd_ok g).
Context (Hsb : mount_sb_ok sectors s = true) (Hg : mount_gd_ok s g = true).

Lemma sb_field (i w : nat) v :
  sb_widths !! i = Some w → sb_to_list s !! i = Some v → fits w v.
Proof using Hs. by apply (Forall2_lookup_lr _ _ _ _ _ _ Hs). Qed.

Lemma gd_field (i w : nat) v :
  gd_widths !! i = Some w → gd_to_list g !! i = Some v → fits w v.
Proof using Hgd. by apply (Forall2_lookup_lr _ _ _ _ _ _ Hgd). Qed.

Lemma mount_sb_facts :
  11 ≤ s_inodes_count s ≤ 8192 ∧ 1 ≤ s_blocks_count s ≤ 8193 ∧
  s_first_data_block s = 1 ∧ 2 * s_blocks_count s ≤ sectors.
Proof using Hs Hsb.
  pose proof (sb_field 0 4 _ eq_refl eq_refl) as Hf0.
  pose proof (sb_field 1 4 _ eq_refl eq_refl) as Hf1.
  pose proof (sb_field 8 4 _ eq_refl eq_refl) as Hf8.
  pose proof (sb_field 10 4 _ eq_refl eq_refl) as Hf10.
  unfold fits in *. change (256 ^ Z.of_nat 4) with 4294967296 in *.
  pose proof Hsb as Hb. clear Hsb. unfold mount_sb_ok, EXT2_FIRST_NORMAL_INO in Hb. boolp.
  assert (s_blocks_per_group s ≤ 8192 ∧ s_inodes_per_group s ≤ 8192 ∧
          s_first_data_block s = 1) as (? & ? & Hfd) by done.
  rewrite Hfd, u32_small in * by lia.
  lia.
Qed.

Lemma mount_geometry :
  first_data_of s g ≤ s_blocks_count s →
  geom_ok (geom_of (mount_context s g)).
Proof using Hs Hgd Hsb Hg.
  intros Hfd. destruct mount_sb_facts as (Hi & Hb & Hf & _).
  pose proof (gd_field 0 4 _ eq_refl eq_refl) as Hg0.
  pose proof (gd_field 1 4 _ eq_refl eq_refl) as Hg1.
  pose proof (gd_field 2 4 _ eq_refl eq_refl) as Hg2.
  unfold fits in *. change (256 ^ Z.of_nat 4) with 4294967296 in *.
  assert (inode_table_blocks_of s = (s_inodes_count s * 128 + 1023) / 1024) as Hitb.
  { unfold inode_table_blocks_of, INODE_SIZE. rewrite (u32_small (_ * 128)), u32_small by lia.
    f_equal. lia. }
  assert (gd_block_of s = 2) as Hgdb by (unfold gd_block_of; rewrite Hf; done).
  assert (s_inodes_count s * 128 ≤ inode_table_blocks_of s * 1024 ∧
          2 ≤ inode_table_blocks_of s ≤ 1024) as [Hcap Hitr] by (rewrite Hitb; zdm).
  clear Hitb. set (itb := inode_table_blocks_of s) in *.
  pose proof Hg as Hc. clear Hg. unfold mount_gd_ok in Hc. fold itb in Hc.
  rewrite Hgdb in Hc. unfold ext2_blk_in_range_raw in Hc.
  assert (bg_block_bitmap g < s_blocks_count s ∧ bg_inode_bitmap g < s_blocks_count s ∧
          bg_inode_table g < s_blocks_count s) as (? & ? & ?).
  { clear Hfd. boolp. lia. }
  assert (∀ x n, 0 ≤ x < 8193 → 1 ≤ n ≤ 1024 → u32 (x + n) = x + n) as Hu
    by (intros; rewrite u32_small; lia).
  unfold spans_overlap in Hc. rewrite Hf in Hc. rewrite !Hu in Hc by lia.
  assert (first_data_of s g = Z.max 3 (Z.max (bg_inode_bitmap g + 1)
            (Z.max (bg_block_bitmap g + 1) (bg_inode_table g + itb)))) as Hfe.
  { unfold first_data_of. rewrite Hgdb. fold itb. rewrite !Hu by lia.
    assert (∀ a b, (if a >? b then a else b) = Z.max a b) as Hmx by (intros; case_if; lia).
    rewrite !Hmx. lia. }
  rewrite Hfe in Hfd. boolp.
  constructor; cbn [geom_of mount_context g_inodes g_blocks g_first g_bb g_ib g_it g_itb g_bs
    g_spb g_isz g_itblk g_fdb g_asb g_sbb g_gdb g_ncs m_sb m_gd m_block_size
    m_sectors_per_block m_inode_size m_inode_table_block m_inode_table_blocks
    m_first_data_block m_alloc_start_bit m_sb_block m_gd_block m_node_cache_size];
    fold itb; rewrite ?Hfe; try done; try lia.
  rewrite Hf, u32_small; lia.
Qed.
End geometry.

(** ** The mount sequence *)

Section mount.
Context {E : Type} `{BlockEnvOk E}.
Implicit Types s : fsys E.

Lemma wp_get_node ino name mode size s :
  fs_ok s →
  wp (ext2_get_node ino name mode size) s (λ r s',
    frame (λ _, False) s s' ∧ m_sb (mnt s') = m_sb (mnt s) ∧ m_gd (mnt s') = m_gd (mnt s) ∧
    (∀ fn, r = Some fn → fn = ino ∧
       ∃ f, m_node_cache (mnt s') !! ino = Some f ∧ n_length f = size ∧
            (m_node_cache (mnt s) !! ino = None → n_inode f = ino)) ∧
    (reliable (env s) → valid_ino (geom_of (mnt s)) ino → r ≠ None)).
Proof.
  intros Hs. pose proof (go_ncs _ (proj1 (proj1 Hs))) as Hn. simpl in Hn.
  apply wp_bind, wp_gets. case_if.
  { apply wp_ret. split_and!; [by apply frame_refl|done..|]. unfold valid_ino. simpl. lia. }
  destruct (m_node_cache (mnt s) !! ino) as [f|] eqn:Ef.
  - apply wp_bind, wp_modify, wp_ret. cbn [mnt env].
    split_and!; [|done..| |done].
    + apply frame_mnt; [done..|apply Hs|apply Hs].
    + intros fn [= <-]. split; [done|]. eexists. cbn. rewrite lookup_alter_eq, Ef. by split_and!.
  - wp_call wp_kmalloc. intros ok s1 (F1 & M1 & R1). destruct ok; simpl.
    2:{ apply wp_ret. split_and!; [done|by rewrite M1..|done|].
        intros Hr. discriminate (R1 Hr). }
    apply wp_bind, wp_modify, wp_ret. cbn [mnt env].
    split_and!; [|cbn; congruence..| |done].
    + eapply (frame_trans _ (λ _, False)); [exact F1| |by intros b [|]].
      apply (frame_mnt (λ _, False)); [apply F1|done..|apply F1|apply F1].
    + intros fn [= <-]. split; [done|]. eexists. cbn. by rewrite lookup_insert_eq.
Qed.

Lemma wp_mount_root s :
  fs_ok s →
  wp mount_root s (λ ok s',
    frame (λ _, False) s s' ∧ m_sb (mnt s') = m_sb (mnt s) ∧ m_gd (mnt s') = m_gd (mnt s) ∧
    (ok = true → m_root_node (mnt s') = 2 ∧ is_Some (m_node_cache (mnt s') !! 2) ∧
       Z.land (i_mode (disk_inode s 2)) EXT2_S_IFMT = EXT2_S_IFDIR ∧
       ext2_inode_pointers_ok (mnt s) (disk_inode s 2) = true)).
Proof.
  intros Hs. unfold mount_root. wp_call wp_read_inode. intros r s1 (F1 & M1 & B1 & _).
  destruct r as [n|]; [|apply wp_ret; split_and!; [done|congruence..|done]].
  destruct (B1 n eq_refl) as [_ ->]. apply wp_bind, wp_gets. rewrite M1.
  destruct (_ =? EXT2_S_IFDIR) eqn:Ed; simpl; [|apply wp_ret; split_and!; [done|congruence..|done]].
  destruct (ext2_inode_pointers_ok _ _) eqn:Ep; simpl;
    [|apply wp_ret; split_and!; [done|congruence..|done]].
  wp_call wp_get_node. intros fn s2 (F2 & S2 & G2 & B2 & _).
  destruct fn as [fn|]; [|apply wp_ret; split_and!; [frame_tac|congruence..|done]].
  destruct (B2 fn eq_refl) as [-> (f & Hf & _)].
  apply wp_bind, wp_modify, wp_ret. cbn [mnt env]. split_and!; [|cbn; congruence..|].
  - eapply (frame_trans _ (λ _, False)); [exact F1| |by intros b [|]].
    eapply (frame_trans _ (λ _, False)); [exact F2| |by intros b [|]].
    apply (frame_mnt (λ _, False)); [apply F2|done..|apply F2|apply F2].
  - intros _. split_and!; [done|by exists f| |done]. by apply Z.eqb_eq.
Qed.

Lemma block_read_blk b e r e' :
  0 ≤ b → block_read (2 * b) 2 e = (r, e') →
  dev_sectors e' = dev_sectors e ∧ (∀ x, blk e' x = blk e x) ∧
  (∀ buf, r = Some buf → buf = blk e b).
Proof.
  intros Hb0. unfold block_read. destruct (block_range_ok _ _ _) eqn:Hok; [|intros [= <- <-]; done]. intros Hr.
  apply block_range_ok_spec in Hok; [|apply dev_sectors_range|lia|lia].
  apply dev_read_spec in Hr as (Hs & Hd & Hb); [|lia|lia]. split_and!; [done| |].
  - intros x. unfold blk. by rewrite !Hd.
  - intros buf ->. rewrite (Hb buf eq_refl). unfold blk.
    change (Z.to_nat 2) with 2%nat. cbn [sectors_at]. by rewrite app_nil_r.
Qed.

(** What a mounted volume satisfies. *)
Record mounted (e : E) (m : ext2_mount) (e' : E) : Prop := {
  mo_ok : fs_ok (mk_fsys m e');
  mo_free : m_locked m = false;
  mo_root : m_root_node m = 2 ∧ is_Some (m_node_cache m !! 2);
  mo_rootdir : Z.land (i_mode (disk_inode (mk_fsys m e') 2)) EXT2_S_IFMT = EXT2_S_IFDIR;
  mo_ptrs : ext2_inode_pointers_ok m (disk_inode (mk_fsys m e') 2) = true;
  mo_sb : m_sb m = decode_sb (blk e 1);
  mo_gd : m_gd m = decode_gd (blk e 2);
  mo_disk b : blk e' b = blk e b;
}.

Lemma mount_dev_mounted e m e' : ext2_mount_dev e = (Some m, e') → mounted e m e'.
Proof.
  unfold ext2_mount_dev. change 2 with (2 * 1) at 1.
  destruct (block_read (2 * 1) 2 e) as [r1 e1] eqn:E1.
  apply block_read_blk in E1 as (S1 & D1 & B1); [|lia]. destruct r1 as [sbuf|]; [|done].
  rewrite (B1 sbuf eq_refl). set (sb := decode_sb (blk e 1)).
  destruct (mount_sb_ok (dev_sectors e1) sb) eqn:Hsb; [cbn [negb]|done].
  assert (sb_ok sb) as Hsok by (apply decode_sb_ok; [apply blk_bytes|rewrite length_blk; lia]).
  destruct (mount_sb_facts _ _ Hsok Hsb) as (Hin & Hbl & Hfd & Hsec).
  assert (gd_block_of sb = 2) as Hgdb by (unfold gd_block_of; rewrite Hfd; done).
  rewrite Hgdb. change (u32 (2 * 2)) with (2 * 2).
  destruct (block_read (2 * 2) 2 e1) as [r2 e2] eqn:E2.
  apply block_read_blk in E2 as (S2 & D2 & B2); [|lia]. destruct r2 as [gbuf|]; [|done].
  rewrite (B2 gbuf eq_refl), D1. set (gd := decode_gd (blk e 2)).
  destruct (mount_gd_ok sb gd) eqn:Hgd; [cbn [negb]|done].
  assert (gd_ok gd) as Hgok by (apply decode_gd_ok; [apply blk_bytes|rewrite length_blk; lia]).
  destruct (first_data_of sb gd >? s_blocks_count sb) eqn:Hf; [done|boolp].
  pose proof (mount_geometry _ _ _ Hsok Hgok Hsb Hgd Hf) as Hgeo.
  destruct (heap_alloc sizeof_ext2_mount e2) as [ok1 e3] eqn:E3.
  apply heap_alloc_spec in E3 as [S3 D3]. destruct ok1; [cbn [negb]|done].
  destruct (heap_alloc _ e3) as [ok2 e4] eqn:E4.
  apply heap_alloc_spec in E4 as [S4 D4]. destruct ok2; [cbn [negb]|done].
  assert (fs_ok (mk_fsys (mount_context sb gd) e4)) as Hs.
  { split; [by split_and!|]. change (2 * s_blocks_count sb ≤ dev_sectors e4). lia. }
  destruct (mount_root _) as [ok3 fs] eqn:E5.
  pose proof (wp_run _ _ _ _ _ (wp_mount_root _ Hs) E5) as (F & Hms & Hmg & Hok).
  destruct ok3; [|done]. intros [= <- <-].
  destruct (Hok eq_refl) as (Hr1 & Hr2 & Hr3 & Hr4).
  assert (disk_inode fs 2 = disk_inode (mk_fsys (mount_context sb gd) e4) 2) as Hdi.
  { unfold disk_inode. by rewrite (fr_geom _ _ _ F), (frame_same _ _ _ F). }
  assert (mk_fsys (mnt fs) (env fs) = fs) as Heta by (by destruct fs).
  constructor; rewrite ?Heta; try done.
  - apply F.
  - apply (fr_lock _ _ _ F).
  - by rewrite Hdi.
  - rewrite Hdi, <- Hr4. apply inode_pointers_geom, (fr_geom _ _ _ F).
  - intros b. rewrite (frame_same _ _ _ F). cbn [env]. unfold blk. rewrite !D4, !D3.
    change (blk e2 b = blk e b). by rewrite D2, D1.
Qed.
End mount.

(** * A concrete ext2 volume

    A 64-block revision-0 volume on a RAM disk, laid out by hand: superblock
    in block 1, group descriptor in 2, bitmaps in 3 and 4, the inode table in
    5-6 and the root directory in block 7.  The witnesses of the theorems
    evaluate the file system on it. *)

Definition img_sb : ext2_superblock := {|
  s_inodes_count := 16; s_blocks_count := 64; s_r_blocks_count := 0;
  s_free_blocks_count := 56; s_free_inodes_count := 6; s_first_data_block := 1;
  s_log_block_size := 0; s_log_frag_size := 0; s_blocks_per_group := 8192;
  s_frags_per_group := 8192; s_inodes_per_group := 16; s_mtime := 0; s_wtime := 0;
  s_mnt_count := 0; s_max_mnt_count := 20; s_magic := EXT2_MAGIC; s_state := 1;
  s_errors := 1; s_minor_rev_level := 0; s_lastcheck := 0; s_checkinterval := 0;
  s_creator_os := 0; s_rev_level := 0; s_def_resuid := 0; s_def_resgid := 0;
  s_first_ino := 0; s_inode_size := 0; s_block_group_nr := 0; s_feature_compat := 0;
  s_feature_incompat := 0; s_feature_ro_compat := 0;
|}.

Definition img_gd : ext2_group_desc := {|
  bg_block_bitmap := 3; bg_inode_bitmap := 4; bg_inode_table := 5;
  bg_free_blocks_count := 56; bg_free_inodes_count := 6; bg_used_dirs_count := 1;
  bg_pad := 0; bg_reserved0 := 0; bg_reserved1 := 0; bg_reserved2 := 0;
|}.

Definition zblock : list Z := memset_buf 0 1024.

Definition img_blocks : list (Z * list Z) := [
  (1, splice zblock 0 (encode_sb img_sb));
  (2, splice zblock 0 (encode_gd img_gd));
  (3, splice zblock 0 [127]);
  (4, splice zblock 0 [255; 3]);
  (5, splice zblock 128 (encode_inode (fresh_inode MODE_DIR 2 1024 2 7)));
  (7, mkdir_block 1024 2 2)
].

Definition img_store : gmap Z (list Z) :=
  list_to_map (concat ((λ '(b, l), [(2 * b, take 512 l); (2 * b + 1, drop 512 l)]) <$> img_blocks)).

(** The volume on a device with the given fault schedules. *)
Definition img (io mem : list bool) : RamDisk.ramdisk :=
  {| RamDisk.sectors := 128; RamDisk.store := img_store;
     RamDisk.io := io; RamDisk.mem := mem |}.

(** The mounted volume. *)
Definition img_fs (io mem : list bool) : fsys RamDisk.ramdisk :=
  mk_fsys (mount_context img_sb img_gd) (img io mem).

Example img_mounts :
  match (ext2_mount_dev (img [] [])).1 with
  | Some m => (m_first_data_block m, m_alloc_start_bit m, m_root_node m)
  | None => (0, 0, 0)
  end = (7, 6, 2).
Proof. vm_compute. reflexivity. Qed.
