(* ===== verification/Ext2Theorems.v ===== *)
(** * ext2: the contract of the VFS callbacks

    The state machine of a mounted volume under arbitrary sequences of VFS
    requests and arbitrary faults, and the functional contract of reading and
    writing files on a reliable device. *)

From S2P Require Import Prelude Bytes Block Ext2Types Ext2Core Ext2Alloc Ext2File Ext2WriteSpec Ext2Dir Ext2Conf Ext2TruncSpec Ext2Mount.

(** ** Requests *)

(** The entries of ext2_dir_ops and ext2_file_ops with their arguments. *)
Inductive vfs_req :=
| ReqRead (node off size : Z)
| ReqWrite (node off size : Z) (buf : list Z)
| ReqTruncate (node : Z)
| ReqReaddir (node index : Z)
| ReqFinddir (node : Z) (name : list Z)
| ReqCreate (dir : Z) (name : list Z)
| ReqMkdir (dir : Z) (name : list Z).

(** The bytes a request carries are bytes. *)
Definition req_ok (r : vfs_req) : Prop :=
  match r with
  | ReqWrite _ _ _ buf => bytes_ok buf
  | ReqFinddir _ name | ReqCreate _ name | ReqMkdir _ name => bytes_ok name
  | _ => True
  end.

#[global] Instance req_ok_dec r : Decision (req_ok r).
Proof. destruct r; simpl; apply _. Defined.

(** The blocks a request may write. *)
Definition req_blocks (g : geom) (r : vfs_req) (b : Z) : Prop :=
  match r with
  | ReqRead _ _ _ | ReqReaddir _ _ | ReqFinddir _ _ => False
  | ReqWrite node _ _ _ => data_meta g b ∨ valid_ino g node ∧ b = ino_blk g node
  | ReqTruncate node => b = 1 ∨ b = 2 ∨ b = g_bb g ∨ valid_ino g node ∧ b = ino_blk g node
  | ReqCreate _ _ | ReqMkdir _ _ => in_vol g b
  end.

Lemma req_blocks_vol g r b : geom_ok g → req_blocks g r b → in_vol g b.
Proof.
  intros Hg. assert (∀ x, data_meta g x → in_vol g x) as Hm.
  { intros x. pose proof (go_bb _ Hg). pose proof (go_blocks _ Hg). pose proof (go_fdb _ Hg).
    unfold data_meta, is_data, in_vol. lia. }
  assert (∀ n, valid_ino g n → in_vol g (ino_blk g n)) as Hi by (intros n ?; by apply inode_blk_vol).
  destruct r; simpl; try done.
  - intros [?|[? ->]]; auto.
  - intros [->|[->|[->|[? ->]]]]; auto with nos.
Qed.

Section vfs.
Context {E : Type} `{BlockEnvOk E}.
Implicit Types s : fsys E.

(** The state after a request. *)
Definition vfs_step (r : vfs_req) s : fsys E :=
  match r with
  | ReqRead node off size => (ext2_read_file node off size s).2
  | ReqWrite node off size buf => (ext2_write_file node off size buf s).2
  | ReqTruncate node => (ext2_truncate node s).2
  | ReqReaddir node index => (ext2_readdir node index s).2
  | ReqFinddir node name => (ext2_finddir node name s).2
  | ReqCreate dir name => (ext2_create dir name s).2
  | ReqMkdir dir name => (ext2_mkdir dir name s).2
  end.

(** States reachable from [s] by requests. *)
Inductive vfs_reach s : fsys E → Prop :=
| reach_refl : vfs_reach s s
| reach_step r s' : vfs_reach s s' → req_ok r → vfs_reach s (vfs_step r s').

Lemma kp_run {A} g P l (c : ST (fsys E) A) l' R s :
  kp g P l c l' R → fs_ok s → geom_of (mnt s) = g → m_locked (mnt s) = l →
  fs_ok (c s).2 ∧ geom_of (mnt (c s).2) = g ∧ m_locked (mnt (c s).2) = l' ∧
  ∀ b, ¬ P b → blk (env (c s).2) b = blk (env s) b.
Proof.
  intros Hc Hs Hg Hl. destruct (Hc s Hs Hg Hl) as (? & ? & ? & ? & _). by split_and!.
Qed.

(** One request, on any device: the invariant and the geometry are kept, the
    mutex is free again, and only the request's blocks change. *)
Lemma vfs_step_ok r s :
  fs_ok s → m_locked (mnt s) = false → req_ok r →
  fs_ok (vfs_step r s) ∧ geom_of (mnt (vfs_step r s)) = geom_of (mnt s) ∧
  m_locked (mnt (vfs_step r s)) = false ∧
  ∀ b, ¬ req_blocks (geom_of (mnt s)) r b → blk (env (vfs_step r s)) b = blk (env s) b.
Proof.
  intros Hs Hl Hr. pose proof (proj1 (proj1 Hs)) as Hg.
  destruct r; eapply kp_run; try done; simpl in *.
  - apply kp_read_file.
  - by apply kp_write_file.
  - apply kp_truncate.
  - apply kp_readdir.
  - apply kp_finddir.
  - by apply kp_create.
  - by apply kp_mkdir.
Qed.

Lemma vfs_reach_ok s s' :
  fs_ok s → m_locked (mnt s) = false → vfs_reach s s' →
  fs_ok s' ∧ m_locked (mnt s') = false ∧ geom_of (mnt s') = geom_of (mnt s) ∧
  ∀ b, ¬ in_vol (geom_of (mnt s)) b → blk (env s') b = blk (env s) b.
Proof.
  intros Hs Hl. induction 1 as [|r s' _ IH Hr]; [done|].
  destruct IH as (Hs' & Hl' & Hg' & Hb').
  destruct (vfs_step_ok r s' Hs' Hl' Hr) as (H1 & H2 & H3 & H4).
  split_and!; [done|done|congruence|].
  intros b Hb. rewrite H4, Hb'; [done..|]. rewrite Hg'.
  intros Hr'. apply Hb. by apply (req_blocks_vol _ r); [apply (proj1 (proj1 Hs))|].
Qed.

(** ** Reading and writing on a reliable device *)

(** The state inside the lock. *)
Definition locked s (b : bool) : fsys E := mk_fsys (set_m_locked b (mnt s)) (env s).

Lemma locked_fs s b : fs_ok s → fs_ok (locked s b).
Proof. intros [[? []] ?]. by split; [split_and!|]. Qed.

Lemma wp_lock s Q : wp mutex_lock s Q ↔ Q tt (locked s true).
Proof. done. Qed.

Lemma wp_unlock s Q : wp mutex_unlock s Q ↔ Q tt (locked s false).
Proof. done. Qed.

(** ext2_read_file delivers a prefix of the file's bytes; all the bytes of
    the range that lie in the file when the device is reliable. *)
Lemma wp_read_file node off size s :
  fs_ok s → 0 ≤ off < 4294967296 → 0 ≤ size < 4294967296 →
  let n := disk_inode s node in
  wp (ext2_read_file node off size) s (λ r s',
    r = fbytes s (file_map s n) off (zlength r) ∧
    zlength r ≤ Z.max 0 (Z.min size (i_size n - off)) ∧
    (reliable (env s) → valid_ino (geom_of (mnt s)) node → file_ok s n →
     zlength r = Z.max 0 (Z.min size (i_size n - off)))).
Proof.
  intros Hs Ho Hz n. unfold ext2_read_file. apply wp_bind, wp_lock.
  wp_call wp_read_inode. intros r s1 (F1 & M1 & B1 & R1).
  destruct r as [n'|].
  2:{ apply wp_bind, wp_unlock, wp_ret. unfold zlength. split_and!; [done|simpl; lia|].
      intros Hr Hv _. by destruct (R1 Hr Hv). }
  destruct (B1 n' eq_refl) as [Hv Hn']. change (disk_inode (locked s true) node) with n in Hn'.
  subst n'. apply wp_bind, wp_gets. rewrite M1.
  destruct (ext2_inode_pointers_ok _ n) eqn:Ep; cbn [negb].
  2:{ apply wp_bind, wp_unlock, wp_ret. unfold zlength. split_and!; [done|simpl; lia|].
      intros _ _ Hf. apply file_ok_pointers in Hf.
      rewrite <- (inode_pointers_geom _ (set_m_locked true (mnt s))) in Hf by done.
      simpl in Ep. congruence. }
  wp_call wp_read_data; [apply disk_inode_ok|]. intros r s2 (F2 & M2 & Hr & Hl & Hrel).
  apply wp_bind, wp_unlock, wp_ret.
  rewrite (fbytes_same _ _ _ _ _ F1), (file_map_same _ _ _ F1) in Hr.
  split_and!; [exact Hr|done|]. intros Hre _ Hf. apply Hrel.
  - apply (fr_rel _ _ _ F1). done.
  - intros j Hj. rewrite (file_map_same _ _ _ F1), M1. by apply (file_ok_ptrs s n Hf).
  - apply Hf.
Qed.

(** What a write through the VFS reports and leaves behind. *)
Record wrote_file s (node off size : Z) (buf : list Z) (wrote : Z) s' : Prop := {
  wf_ok : fs_ok s' ∧ geom_of (mnt s') = geom_of (mnt s) ∧ m_locked (mnt s') = false ∧
          reliable (env s');
  wf_count : 0 ≤ wrote ≤ size;
  wf_full : wrote < size → no_free_block s';
  wf_file : file_ok s' (disk_inode s' node);
  wf_size : i_size (disk_inode s' node) =
    if decide (wrote = 0) then i_size (disk_inode s node)
    else Z.max (i_size (disk_inode s node)) (off + wrote);
  wf_content k : 0 ≤ k < 274432 →
    content s' (file_map s' (disk_inode s' node)) k =
    written s (file_map s (disk_inode s node)) off wrote buf k;
  wf_others j : valid_ino (geom_of (mnt s)) j → j ≠ node → disk_inode s' j = disk_inode s j;
  wf_blocks b : is_data (geom_of (mnt s)) b → blk_used s b = true →
    (∀ j, 0 ≤ j < 269 → file_map s (disk_inode s node) j ≠ b) →
    blk_used s' b = true ∧ blk (env s') b = blk (env s) b;
}.

Lemma write_post_file s node off size buf wrote n' s1 s' :
  fs_ok s → valid_ino (geom_of (mnt s)) node → reliable (env s) →
  write_post s node (disk_inode s node) off size buf wrote n' s1 →
  env s' = env s1 → geom_of (mnt s') = geom_of (mnt s) → m_locked (mnt s') = false →
  m_sb (mnt s') = m_sb (mnt s1) → m_gd (mnt s') = m_gd (mnt s1) →
  wrote_file s node off size buf wrote s'.
Proof.
  intros Hs Hv Hr [P1 P2 P3 P4 P5 P6 P7] He Hg Hl Hsb Hgd.
  assert (geom_of (mnt s') = geom_of (mnt s1)) as Hg1 by (by rewrite (fr_geom _ _ _ P3)).
  assert (frame (λ _, False) s1 (mk_fsys (set_m_locked (m_locked (mnt s1)) (mnt s')) (env s1))) as F.
  { apply frame_mnt; [apply P3|done|done|cbn; rewrite Hsb; apply P3|cbn; rewrite Hgd; apply P3]. }
  assert (∀ b, blk_used s' b = blk_used s1 b) as Hu.
  { intros b. unfold blk_used, bbitmap. by rewrite Hg1, He. }
  assert (∀ j, disk_inode s' j = disk_inode s1 j) as Hdi.
  { intros j. unfold disk_inode. by rewrite Hg1, He. }
  assert (∀ n, file_map s' n = file_map s1 n) as Hfm by (intros n; unfold file_map; by rewrite He).
  assert (∀ f k, content s' f k = content s1 f k) as Hct by (intros f k; unfold content; by rewrite He).
  assert (∀ n, file_ok s1 n → file_ok s' n) as Hfo.
  { intros n [? ? ? ?]. constructor; try done. rewrite Hfm.
    apply (map_ok_state s1); [done|intros b; by rewrite Hu|done]. }
  constructor; try done.
  - split_and!; [|done..|rewrite He; by apply (fr_rel _ _ _ P3)].
    destruct (fr_ok _ _ _ F) as [[? []] ?]. cbn in *. split; [by split_and!|].
    by rewrite He.
  - intros Hlt. specialize (P2 Hlt). unfold no_free_block in *.
    rewrite Hsb, Hgd, Hg1. by setoid_rewrite Hu.
  - rewrite Hdi. destruct (decide (wrote = 0)) as [Hz|Hz].
    + destruct (P7 Hz) as (-> & _ & ? & _). auto.
    + destruct (P6 ltac:(lia)) as (-> & ? & _ & _). auto.
  - rewrite Hdi. case_decide as Hz.
    + by destruct (P7 Hz) as (-> & _).
    + by destruct (P6 ltac:(lia)) as (-> & _ & ? & _).
  - intros k Hk. rewrite Hdi, Hfm, Hct. destruct (decide (wrote = 0)) as [Hz|Hz].
    + destruct (P7 Hz) as (-> & _ & _ & Hc). rewrite Hc by done. unfold written.
      by rewrite decide_False by lia.
    + destruct (P6 ltac:(lia)) as (-> & _ & _ & Hc). by apply Hc.
  - intros j Hj Hne. rewrite Hdi. by apply P5.
  - intros b Hb Hub Hne. rewrite Hu, He. split; [by apply P4|]. apply (fr_blk _ _ _ P3).
    destruct (ino_blk_meta _ node (proj1 (proj1 Hs)) Hv) as (Hm & _ & _ & _).
    pose proof (go_bb _ (proj1 (proj1 Hs))). unfold is_data in Hb.
    intros [[?|[?|[?|[_ [?|(j & Hj & ?)]]]]]| ->]; [lia|lia|lia|congruence|by apply (Hne j)|done].
Qed.

Lemma wrote_file_locked s b node off size buf wrote s' :
  wrote_file (locked s b) node off size buf wrote s' → wrote_file s node off size buf wrote s'.
Proof.
  intros [P1 P2 P3 P4 P5 P6 P7 P8].
  exact (Build_wrote_file s node off size buf wrote s' P1 P2 P3 P4 P5 P6 P7 P8).
Qed.

Lemma wp_write_file node off size buf s :
  fs_ok s → reliable (env s) → valid_ino (geom_of (mnt s)) node →
  file_ok s (disk_inode s node) →
  0 ≤ off → 0 ≤ size → off + size ≤ 274432 → size ≤ zlength buf → bytes_ok buf →
  wp (ext2_write_file node off size buf) s (wrote_file s node off size buf).
Proof.
  intros Hs Hr Hv Hf Ho Hz Hc Hb Hby. set (n := disk_inode s node) in *.
  unfold ext2_write_file. apply wp_bind, wp_lock.
  wp_call wp_read_inode. intros r s1 (F1 & M1 & B1 & R1).
  destruct r as [n'|]; [|by destruct (R1 Hr Hv)].
  destruct (B1 n' eq_refl) as [_ Hn']. change (disk_inode (locked s true) node) with n in Hn'.
  subst n'. apply wp_bind, wp_gets. rewrite M1.
  rewrite (inode_pointers_geom (mnt s)), file_ok_pointers by done. cbn [negb].
  assert (file_ok (locked s true) n) as Hf' by (by destruct Hf; constructor).
  apply wp_bind. eapply wp_mono.
  { apply wp_write_data; try done; [apply F1|by apply F1| |by rewrite M1].
    apply (file_ok_same (locked s true)); [done|by rewrite M1|done]. }
  intros [wrote n'] s2 P. cbn [fst snd] in P.
  apply (write_post_pre (locked s true)) in P; [|done|done].
  apply wp_bind, wp_modify, wp_bind, wp_unlock, wp_ret.
  apply (wrote_file_locked s true).
  apply (write_post_file (locked s true) node off size buf wrote n' s2); try done.
  apply (fr_geom _ _ _ (wp_frame _ _ _ _ _ _ _ _ _ P)).
Qed.
End vfs.

(** * ext2: the theorems about the file system

    The main theorems on kernel/ext2.c and their witnesses on the concrete
    volume of Ext2Image. *)

(** ** The witness volume: mounted, with one empty regular file (inode 11) *)

Definition img_m : ext2_mount :=
  default (mount_context img_sb img_gd) (ext2_mount_dev (img [] [])).1.
Definition img_mounted : fsys RamDisk.ramdisk := mk_fsys img_m (ext2_mount_dev (img [] [])).2.
Definition img_file : fsys RamDisk.ramdisk := vfs_step (ReqCreate 2 [102]) img_mounted.

Strategy 100 [img_m img_mounted img_file].

Lemma img_mount_eq : ext2_mount_dev (img [] []) = (Some img_m, (ext2_mount_dev (img [] [])).2).
Proof. vm_compute. reflexivity. Qed.

Lemma img_mounted_ok : fs_ok img_mounted ∧ m_locked (mnt img_mounted) = false.
Proof.
  destruct (mount_dev_mounted _ _ _ img_mount_eq) as [Hs Hl _ _ _ _ _ _]. by split.
Qed.

Lemma img_file_ok : fs_ok img_file ∧ m_locked (mnt img_file) = false ∧ reliable (env img_file).
Proof.
  destruct img_mounted_ok as [Hs Hl].
  destruct (vfs_step_ok (ReqCreate 2 [102]) _ Hs Hl) as (H1 & _ & H3 & _).
  { apply (bool_decide_unpack _). vm_compute. exact I. }
  split_and!; [done..|]. split; vm_compute; reflexivity.
Qed.

Lemma img_file_inode : disk_inode img_file 11 = fresh_inode MODE_FILE 1 0 0 0.
Proof. vm_compute. reflexivity. Qed.

Lemma img_valid : valid_ino (geom_of (mnt img_file)) 11.
Proof. vm_compute. split; discriminate. Qed.

Lemma bget_bset_zeros k : bget (bset (replicate 15 0) 0 0) k = 0.
Proof.
  change (bset (replicate 15 0) 0 0) with (memset_buf 0 15). apply bget_memset.
Qed.

(** A freshly created file is a well-formed, empty file. *)
Lemma file_ok_fresh {E} `{BlockEnvOk E} (s : fsys E) : file_ok s (fresh_inode MODE_FILE 1 0 0 0).
Proof.
  assert (∀ j, file_map s (fresh_inode MODE_FILE 1 0 0 0) j = 0) as Hz.
  { intros j. unfold file_map, slots. cbn [i_block fresh_inode].
    rewrite !bget_bset_zeros. by destruct (j <? 13). }
  constructor; [by apply fresh_inode_ok| |intros k _; apply bget_bset_zeros|done].
  split.
  - intros j _ []. apply Hz.
  - intros i j _ _ []. apply Hz.
Qed.

Lemma img_file_ok11 : file_ok img_file (disk_inode img_file 11).
Proof. rewrite img_file_inode. apply file_ok_fresh. Qed.

(** ** Files *)

Section files.
Context {E : Type} `{BlockEnvOk E}.
Implicit Types s : fsys E.

(** Write [size] bytes of [buf] at [off], then read [size2] bytes at
    [off2]: the bytes read are those of the file with the reported bytes
    replaced, up to the end of the file, and a short write means that the
    volume was full. *)
Definition write_read_post s (node off size : Z) (buf : list Z) (off2 size2 : Z) : Prop :=
  let n := disk_inode s node in
  let '(wrote, s1) := ext2_write_file node off size buf s in
  let '(data, s2) := ext2_read_file node off2 size2 s1 in
  let len := if decide (wrote = 0) then i_size n else Z.max (i_size n) (off + wrote) in
  0 ≤ wrote ≤ size ∧ (wrote < size → no_free_block s1) ∧
  data = written s (file_map s n) off wrote buf <$> seqZ off2 (Z.max 0 (Z.min size2 (len - off2))).

(** C1: a write through ext2_write_file followed by a read through
    ext2_read_file delivers exactly the written bytes over the old
    contents, for direct, indirect, overlapping and sparse ranges. *)
Theorem write_then_read s node off size buf off2 size2 :
  fs_ok s → reliable (env s) → valid_ino (geom_of (mnt s)) node →
  file_ok s (disk_inode s node) →
  0 ≤ off → 0 ≤ size → off + size ≤ 274432 → size ≤ zlength buf → bytes_ok buf →
  0 ≤ off2 < 4294967296 → 0 ≤ size2 < 4294967296 →
  write_read_post s node off size buf off2 size2.
Proof.
  intros Hs Hr Hv Hf Ho Hz Hc Hb Hby Ho2 Hz2. unfold write_read_post. cbv zeta.
  pose proof (wp_write_file node off size buf s Hs Hr Hv Hf Ho Hz Hc Hb Hby) as W.
  unfold wp in W. destruct (ext2_write_file node off size buf s) as [wrote s1]. cbn [fst snd] in W.
  destruct W as [(Hs1 & Hg1 & _ & Hr1) Wc Wf Wo Ws Wk _ _].
  pose proof (wp_read_file node off2 size2 s1 Hs1 Ho2 Hz2) as R. cbv zeta in R. unfold wp in R.
  destruct (ext2_read_file node off2 size2 s1) as [data s2]. cbn [fst snd] in R.
  destruct R as (Rd & _ & Rl). split_and!; [lia..|done|].
  rewrite Rl, Ws in Rd by (done || by rewrite Hg1). rewrite Rd. unfold fbytes.
  apply list_fmap_ext. intros i x (Hx & Hi)%lookup_seqZ. subst x. apply Wk.
  pose proof (fo_size _ _ Hf) as Hsz. repeat case_decide; lia.
Qed.

(** C2: a write to one file changes neither the inode nor a byte of any
    other well-formed file whose blocks are disjoint from it. *)
Theorem write_leaves_other_files s node off size buf other :
  fs_ok s → reliable (env s) → valid_ino (geom_of (mnt s)) node →
  file_ok s (disk_inode s node) →
  0 ≤ off → 0 ≤ size → off + size ≤ 274432 → size ≤ zlength buf → bytes_ok buf →
  valid_ino (geom_of (mnt s)) other → other ≠ node → file_ok s (disk_inode s other) →
  (∀ i j, 0 ≤ i < 269 → 0 ≤ j < 269 → file_map s (disk_inode s other) i ≠ 0 →
          file_map s (disk_inode s node) j ≠ file_map s (disk_inode s other) i) →
  let s1 := (ext2_write_file node off size buf s).2 in
  disk_inode s1 other = disk_inode s other ∧ file_ok s1 (disk_inode s other) ∧
  ∀ k, 0 ≤ k < 274432 →
    content s1 (file_map s1 (disk_inode s other)) k =
    content s (file_map s (disk_inode s other)) k.
Proof.
  intros Hs Hr Hv Hf Ho Hz Hc Hb Hby Hv' Hne Hf' Hdis s1.
  pose proof (wp_write_file node off size buf s Hs Hr Hv Hf Ho Hz Hc Hb Hby) as W.
  unfold wp in W. fold s1 in W. destruct W as [(Hs1 & Hg1 & _ & _) _ _ _ _ _ Wo Wb].
  set (n := disk_inode s other) in *. set (f := file_map s n) in *.
  assert (∀ j, 0 ≤ j < 269 → f j ≠ 0 →
    blk_used s1 (f j) = true ∧ blk (env s1) (f j) = blk (env s) (f j)) as Hk.
  { intros j Hj Hn. destruct (proj1 (fo_map _ _ Hf') j Hj Hn). apply Wb; [done..|].
    intros i Hi. by apply Hdis. }
  assert (feq (file_map s1 n) f) as Hfm.
  { apply file_map_frame. intros Hn. rewrite <- (file_map_slot s) in * by lia.
    by apply (Hk 12); [lia|]. }
  split; [by apply Wo|]. split.
  - destruct Hf' as [H1 [H2 H3] H4 H5]. constructor; try done.
    apply (map_ok_feq _ f); [intros j Hj; by rewrite Hfm|]. split; [|done].
    intros j Hj Hn. rewrite Hg1. split; [by apply H2|apply (proj1 (Hk j Hj Hn))].
  - intros k Hk'. rewrite (content_feq _ _ _ k Hk' Hfm). apply content_frame.
    intros Hn. by apply Hk; [apply fidx_range|].
Qed.

(** C28: under any device and allocation faults, a read delivers a prefix of
    the bytes of the file in the requested range, and changes nothing on
    the device. *)
Theorem read_prefix_under_faults s node off size :
  fs_ok s → m_locked (mnt s) = false → 0 ≤ off < 4294967296 → 0 ≤ size < 4294967296 →
  let '(data, s1) := ext2_read_file node off size s in
  data = fbytes s (file_map s (disk_inode s node)) off (zlength data) ∧
  zlength data ≤ Z.max 0 (Z.min size (i_size (disk_inode s node) - off)) ∧
  (∀ b, blk (env s1) b = blk (env s) b) ∧ m_locked (mnt s1) = false.
Proof.
  intros Hs Hl Ho Hz. pose proof (wp_read_file node off size s Hs Ho Hz) as R. cbv zeta in R.
  destruct (vfs_step_ok (ReqRead node off size) s Hs Hl I) as (_ & _ & Hl1 & Hb). simpl in *.
  unfold wp in R. destruct (ext2_read_file node off size s) as [data s1]. cbn [fst snd] in *.
  destruct R as (R1 & R2 & _). split_and!; [done|done| |done].
  intros b. apply Hb. by intros [].
Qed.

(** C27: truncation empties the file and frees exactly its blocks: other
    blocks stay allocated, no data block is written, other inodes are
    untouched and exact free-block counters stay exact. *)
Theorem truncate_frees_exactly s node :
  fs_ok s → reliable (env s) → valid_ino (geom_of (mnt s)) node →
  file_ok s (disk_inode s node) →
  let '(r, s1) := ext2_truncate node s in r = 0 ∧ truncated s node s1.
Proof.
  intros Hs Hr Hv Hf. pose proof (wp_truncate node s Hs Hr Hv Hf) as W. unfold wp in W.
  by destruct (ext2_truncate node s).
Qed.
End files.

Lemma write_then_read_witness :
  write_read_post img_file 11 12286 4 [1; 2; 3; 4] 12284 100.
Proof.
  destruct img_file_ok as (Hs & _ & Hr).
  apply (write_then_read img_file 11 12286 4 [1; 2; 3; 4] 12284 100);
    [exact Hs|exact Hr|exact img_valid|exact img_file_ok11|lia|lia|lia|done| |lia|lia].
  repeat constructor; lia.
Defined.

(** The other file of the witness: the root directory. *)
Lemma img_root_inode : disk_inode img_file 2 = fresh_inode MODE_DIR 2 1024 2 7.
Proof. vm_compute. reflexivity. Qed.

Lemma img_root_map j :
  0 ≤ j → file_map img_file (disk_inode img_file 2) j = if decide (j = 0) then 7 else 0.
Proof.
  intros Hj. rewrite img_root_inode. unfold file_map, slots.
  change (i_block (fresh_inode MODE_DIR 2 1024 2 7)) with (7 :: replicate 14 0).
  change (bget (7 :: replicate 14 0) 12) with 0. case_decide; [by subst|].
  destruct (Z.ltb_spec j 13); [|done]. unfold bget.
  replace (Z.to_nat j) with (S (Z.to_nat (j - 1))) by lia.
  apply (bget_memset 14 (j - 1)).
Qed.

Lemma img_root_ok : file_ok img_file (disk_inode img_file 2).
Proof.
  constructor.
  - rewrite img_root_inode. by apply fresh_inode_ok.
  - split.
    + intros j Hj. rewrite img_root_map by lia. case_decide; [|done]. intros _.
      split; [vm_compute; split; [discriminate|done]|]. vm_compute. reflexivity.
    + intros i j Hi Hj. rewrite !img_root_map by lia. repeat case_decide; congruence || lia.
  - intros k Hk. rewrite img_root_inode. unfold bget.
    replace (Z.to_nat k) with (S (Z.to_nat (k - 1))) by lia. apply (bget_memset 14 (k - 1)).
  - by rewrite img_root_inode.
Qed.

Lemma write_leaves_other_files_witness :
  let s1 := (ext2_write_file 11 0 3 [7; 8; 9] img_file).2 in
  disk_inode s1 2 = disk_inode img_file 2 ∧ file_ok s1 (disk_inode img_file 2) ∧
  ∀ k, 0 ≤ k < 274432 →
    content s1 (file_map s1 (disk_inode img_file 2)) k =
    content img_file (file_map img_file (disk_inode img_file 2)) k.
Proof.
  destruct img_file_ok as (Hs & _ & Hr).
  apply (write_leaves_other_files img_file 11 0 3 [7; 8; 9] 2);
    [exact Hs|exact Hr|exact img_valid|exact img_file_ok11|lia|lia|lia|done| | |lia
    |exact img_root_ok|].
  - repeat constructor; lia.
  - vm_compute. split; discriminate.
  - intros i j Hi Hj Hn. rewrite img_file_inode.
    assert (file_map img_file (fresh_inode MODE_FILE 1 0 0 0) j = 0) as ->; [|by symmetry].
    unfold file_map, slots. cbn [i_block fresh_inode]. rewrite !bget_bset_zeros. by destruct (j <? 13).
Defined.

Lemma img_m_ok : mount_ok img_m.
Proof. exact (proj1 (mo_ok _ _ _ (mount_dev_mounted _ _ _ img_mount_eq))). Qed.

Lemma img_faulty_ok : fs_ok (mk_fsys img_m (img [false; true] [])).
Proof.
  split; cbn [mnt env]; [exact img_m_ok|]. vm_compute. discriminate.
Qed.

Lemma read_prefix_under_faults_witness :
  let '(data, s1) := ext2_read_file 2 0 64 (mk_fsys img_m (img [false; true] [])) in
  data = fbytes (mk_fsys img_m (img [false; true] []))
           (file_map (mk_fsys img_m (img [false; true] []))
              (disk_inode (mk_fsys img_m (img [false; true] [])) 2)) 0 (zlength data) ∧
  zlength data ≤ Z.max 0 (Z.min 64
    (i_size (disk_inode (mk_fsys img_m (img [false; true] [])) 2) - 0)) ∧
  (∀ b, blk (env s1) b = blk (img [false; true] []) b) ∧ m_locked (mnt s1) = false.
Proof.
  apply (read_prefix_under_faults (mk_fsys img_m (img [false; true] [])) 2 0 64);
    [|reflexivity|lia|lia].
  exact img_faulty_ok.
Defined.

Lemma truncate_frees_exactly_witness :
  let '(r, s1) := ext2_truncate 2 img_file in r = 0 ∧ truncated img_file 2 s1.
Proof.
  destruct img_file_ok as (Hs & _ & Hr).
  apply (truncate_frees_exactly img_file 2); [exact Hs|exact Hr| |exact img_root_ok].
  vm_compute. split; discriminate.
Defined.

(** ** The mounted volume as a state machine *)

Section machine.
Context {E : Type} `{BlockEnvOk E}.

(** C5: whatever bytes the device holds and whatever faults occur, a volume
    ext2_mount accepts satisfies the geometry invariant, its mutex is free,
    its root node is cached and is a directory with checked pointers, the
    mount context mirrors the superblock and descriptor read, and mounting
    wrote nothing. *)
Theorem mount_establishes_invariant (e : E) m e' :
  ext2_mount_dev e = (Some m, e') → mounted e m e'.
Proof. apply mount_dev_mounted. Qed.

(** C3: from a mount on, any sequence of VFS requests under any faults keeps
    the volume invariant and the geometry, leaves the mutex free after every
    request, and never writes outside the volume. *)
Theorem reachable_states_ok (e e' : E) m s :
  ext2_mount_dev e = (Some m, e') → vfs_reach (mk_fsys m e') s →
  fs_ok s ∧ m_locked (mnt s) = false ∧ geom_of (mnt s) = geom_of m ∧
  ∀ b, ¬ in_vol (geom_of m) b → blk (env s) b = blk e b.
Proof.
  intros Hm Hr. apply mount_dev_mounted in Hm as [Hs Hl _ _ _ _ _ Hd].
  destruct (vfs_reach_ok _ _ Hs Hl Hr) as (H1 & H2 & H3 & H4). split_and!; try done.
  intros b Hb. by rewrite H4, <- Hd.
Qed.

(** one request writes only the blocks of its job, on any device: reads
    and lookups write nothing, a file write stays within data blocks, the
    block bitmap, the two counter blocks and the block of its inode, and
    truncation writes no data block; the mutex is released. *)
Theorem request_confined (s : fsys E) r :
  fs_ok s → m_locked (mnt s) = false → req_ok r →
  fs_ok (vfs_step r s) ∧ m_locked (mnt (vfs_step r s)) = false ∧
  ∀ b, ¬ req_blocks (geom_of (mnt s)) r b → blk (env (vfs_step r s)) b = blk (env s) b.
Proof.
  intros Hs Hl Hr. destruct (vfs_step_ok r s Hs Hl Hr) as (? & _ & ? & ?). by split_and!.
Qed.

(** on a reliable device with exact counters, ext2_alloc_block fails
    only when every data block is in use; otherwise it returns a data block
    that was free, now marked and zeroed, no other used block changed, and
    the counters stay exact. *)
Theorem alloc_block_exact (s : fsys E) :
  fs_ok s → reliable (env s) → counts_ok s →
  let '(r, s1) := ext2_alloc_block s in
  counts_ok s1 ∧
  (r = 0 ∧ (∀ b, is_data (geom_of (mnt s)) b → blk_used s b = true) ∨
   alloc_done s s1 r ∧
   ∀ b, is_data (geom_of (mnt s)) b → blk_used s b = true →
        b ≠ r ∧ blk_used s1 b = true ∧ blk (env s1) b = blk (env s) b).
Proof.
  intros Hs Hr Hc. pose proof (wp_alloc_reliable s Hs Hr) as W. unfold wp in W.
  destruct (ext2_alloc_block s) as [r s1]. cbn [fst snd] in W.
  destruct W as [(-> & Hn & M & F)|[Hr0 A]].
  - split; [|left; split; [done|by apply no_free_exact]].
    unfold counts_ok, free_data, bbitmap in *. by rewrite M, (frame_same _ _ _ F).
  - split; [by apply (alloc_counts s s1 r)|right]. split; [done|]. intros b Hb Hu. split_and!.
    + intros ->. pose proof (ad_free _ _ _ A). congruence.
    + apply (alloc_used s s1 r); auto.
    + by apply (alloc_blk s s1 r).
Qed.
End machine.

Lemma mount_establishes_invariant_witness :
  mounted (img [] []) img_m (ext2_mount_dev (img [] [])).2.
Proof. apply (mount_establishes_invariant (img [] []) img_m). exact img_mount_eq. Defined.

Lemma reachable_states_ok_witness :
  fs_ok img_file ∧ m_locked (mnt img_file) = false ∧ geom_of (mnt img_file) = geom_of img_m ∧
  ∀ b, ¬ in_vol (geom_of img_m) b → blk (env img_file) b = blk (img [] []) b.
Proof.
  apply (reachable_states_ok (img [] []) (ext2_mount_dev (img [] [])).2 img_m);
    [exact img_mount_eq|]. unfold img_file, img_mounted.
  apply (reach_step _ (ReqCreate 2 [102])); [apply reach_refl|repeat constructor; lia].
Defined.

Lemma request_confined_witness :
  fs_ok (vfs_step (ReqWrite 11 0 2 [1; 2]) img_file) ∧
  m_locked (mnt (vfs_step (ReqWrite 11 0 2 [1; 2]) img_file)) = false ∧
  ∀ b, ¬ req_blocks (geom_of (mnt img_file)) (ReqWrite 11 0 2 [1; 2]) b →
       blk (env (vfs_step (ReqWrite 11 0 2 [1; 2]) img_file)) b = blk (env img_file) b.
Proof.
  destruct img_file_ok as (Hs & Hl & _).
  apply (request_confined img_file (ReqWrite 11 0 2 [1; 2])); [exact Hs|exact Hl|].
  repeat constructor; lia.
Defined.

Lemma alloc_block_exact_witness :
  let '(r, s1) := ext2_alloc_block img_file in
  counts_ok s1 ∧
  (r = 0 ∧ (∀ b, is_data (geom_of (mnt img_file)) b → blk_used img_file b = true) ∨
   alloc_done img_file s1 r ∧
   ∀ b, is_data (geom_of (mnt img_file)) b → blk_used img_file b = true →
        b ≠ r ∧ blk_used s1 b = true ∧ blk (env s1) b = blk (env img_file) b).
Proof.
  destruct img_file_ok as (Hs & _ & Hr). apply (alloc_block_exact img_file); [exact Hs|exact Hr|].
  split; vm_compute; reflexivity.
Defined.

(** ** Inodes, blocks and directory entries *)

Section parts.
Context {E : Type} `{BlockEnvOk E}.

(** on a reliable device a written inode reads back field for field and
    the inodes sharing its block are unchanged; numbers outside the volume
    are refused. *)
Theorem inode_write_then_read (s : fsys E) ino n :
  fs_ok s → reliable (env s) → inode_ok n →
  let '(ok, s1) := ext2_write_inode ino n s in
  let '(r, s2) := ext2_read_inode ino s1 in
  (valid_ino (geom_of (mnt s)) ino → ok = true ∧ r = Some n) ∧
  (¬ valid_ino (geom_of (mnt s)) ino → ok = false ∧ r = None) ∧
  ∀ j, valid_ino (geom_of (mnt s)) j → j ≠ ino →
       (ext2_read_inode j s1).1 = Some (disk_inode s j).
Proof.
  intros Hs Hr Hn. pose proof (wp_write_inode ino n s Hs Hn) as W. unfold wp in W.
  destruct (ext2_write_inode ino n s) as [ok s1] eqn:Ew. cbn [fst snd] in W.
  destruct W as (F & M & B & R). assert (fs_ok s1) as Hs1 by apply F.
  assert (reliable (env s1)) as Hr1 by (by apply (fr_rel _ _ _ F)).
  assert (∀ j, valid_ino (geom_of (mnt s)) j → (ext2_read_inode j s1).1 = Some (disk_inode s1 j)) as Hrd.
  { intros j Hj. pose proof (wp_read_inode j s1 Hs1) as W2. unfold wp in W2.
    destruct (ext2_read_inode j s1) as [r s2]. cbn [fst snd] in *.
    destruct W2 as (_ & _ & B2 & R2). rewrite M in R2. destruct r as [n'|]; [|by destruct (R2 Hr1 Hj)].
    by destruct (B2 n' eq_refl) as [_ ->]. }
  destruct (ext2_read_inode ino s1) as [r s2] eqn:Er.
  destruct (decide (valid_ino (geom_of (mnt s)) ino)) as [Hv|Hv].
  - destruct (B (R Hr Hv)) as (_ & Hd & Ho). split_and!; [|done|].
    + intros _. split; [by apply R|]. specialize (Hrd ino Hv). rewrite Er in Hrd. cbn in Hrd. congruence.
    + intros j Hj Hne. rewrite Hrd by done. by rewrite Ho.
  - assert (ok = false) as ->.
    { destruct ok; [|done]. by destruct (B eq_refl). }
    split_and!; [done| |].
    + intros _. split; [done|]. destruct r as [n'|]; [|done].
      pose proof (wp_read_inode ino s1 Hs1) as W2. unfold wp in W2. rewrite Er in W2.
      destruct W2 as (_ & _ & B2 & _). destruct (B2 n' eq_refl) as [Hv' _]. by rewrite M in Hv'.
    + intros j Hj Hne. rewrite Hrd by done. unfold disk_inode. rewrite M.
      rewrite (fr_blk _ _ _ F); [done|]. by intros [? _].
Qed.

(** freeing the block just allocated restores the bitmap, both
    counters and the mount context, and freeing it again does nothing. *)
Theorem free_undoes_alloc (s s1 : fsys E) r :
  fs_ok s → reliable (env s) → ext2_alloc_block s = (r, s1) → r ≠ 0 →
  let s2 := (ext2_free_block r s1).2 in
  let s3 := (ext2_free_block r s2).2 in
  bbitmap s2 = bbitmap s ∧ mnt s2 = mnt s ∧
  mnt s3 = mnt s2 ∧ ∀ b, blk (env s3) b = blk (env s2) b.
Proof.
  intros Hs Hr Ea Hr0 s2 s3. pose proof (wp_alloc_reliable s Hs Hr) as W. unfold wp in W.
  rewrite Ea in W. cbn [fst snd] in W. destruct W as [(-> & _)|[_ A]]; [done|].
  pose proof (ad_data _ _ _ A) as Hd. pose proof (proj1 (proj1 Hs)) as Hg.
  pose proof (go_bb _ Hg). pose proof (go_blocks _ Hg).
  assert (0 ≤ r) as Hrp by (unfold is_data in Hd; lia).
  pose proof (ad_frame _ _ _ A) as F1. assert (fs_ok s1) as Hs1 by apply F1.
  assert (reliable (env s1)) as Hr1 by (by apply (fr_rel _ _ _ F1)).
  assert (geom_of (mnt s1) = geom_of (mnt s)) as Hg1 by apply F1.
  assert (blk_used s1 r = true) as Hu by (by apply (alloc_used s s1 r); auto).
  pose proof (wp_free_block r s1 Hs1 Hrp) as W. unfold wp in W. fold s2 in W.
  destruct W as (F2 & _ & Hw2). destruct (Hw2 Hr1) as [D|[_ []]]; [|by rewrite Hg1].
  assert (bbitmap s2 = bbitmap s) as Hbm.
  { rewrite (fd_bm _ _ _ D), (ad_bm _ _ _ A). unfold is_data in Hd. apply bm_clear_set.
    - apply blk_bytes.
    - unfold bbitmap. rewrite zlength_blk. lia.
    - apply A. }
  assert (fs_ok s2) as Hs2 by apply F2.
  pose proof (wp_free_block r s2 Hs2 Hrp) as W. unfold wp in W. fold s3 in W.
  destruct W as (_ & _ & Hw3). destruct (Hw3 (fr_rel _ _ _ F2 Hr1)) as [D2|[[Hm Hb] _]].
  - exfalso. pose proof (fd_used _ _ _ D2) as Hu2. unfold blk_used in Hu2. rewrite Hbm in Hu2.
    pose proof (ad_free _ _ _ A) as Hf. unfold blk_used in Hf. congruence.
  - split_and!; [done| |done|done]. rewrite (fd_mnt _ _ _ D), (ad_mnt _ _ _ A).
    change 1 with (- (-1)). apply bump_free_blocks_undo; apply Hs.
Qed.
End parts.

(** adding an entry to a directory block appends it to the block's
    entries: a lookup of the new name finds the child unless the name was
    there before, and the lookup of every other name is unchanged. *)
Theorem dir_add_then_lookup buf buf' limit child name nm :
  bytes_ok buf → zlength buf = 1024 → 0 ≤ limit ≤ 1024 →
  bytes_ok name → zlength name ≤ 255 → 0 < child < 4294967296 →
  add_scan (dir_fuel limit) buf 0 limit (rec_size (zlength name)) child name = Some buf' →
  lookup_scan (dir_fuel limit) buf' 0 limit nm =
    match lookup_scan (dir_fuel limit) buf 0 limit nm with
    | Some i => Some i
    | None => if decide (nm = name) then Some child else None
    end.
Proof.
  intros Hb Hl Hlim Hn Hnl Hc Ha.
  assert (buf_ok buf') as [Hb' Hl'].
  { eapply add_scan_ok; [|exact Hn|exact Ha]. split; [done|]. unfold zlength in Hl. lia. }
  destruct (add_scan_entries limit ltac:(lia) buf Hb Hl child name Hc Hn Hnl
              (dir_fuel limit) 0 buf' ltac:(lia)) as [_ He]; [|done|].
  { unfold dir_fuel. rewrite Z2Nat.id; zdm. }
  rewrite !lookup_scan_entries by (done || lia || (unfold zlength; lia)).
  rewrite He, find_entry_app. destruct (find_entry _ _); [done|]. simpl.
  by repeat case_decide; subst.
Qed.

(** readdir's scan of a block returns the live entry of the requested
    index, with its name cut to the 127 bytes the VFS record holds, and past
    the last entry the number of entries seen so far. *)
Theorem readdir_enumerates buf limit cur index :
  bytes_ok buf → zlength buf = 1024 → 0 ≤ limit ≤ 1024 → 0 ≤ cur ≤ index → index < 4294967295 →
  readdir_scan (dir_fuel limit) buf 0 limit cur index =
    match dir_entries (dir_fuel limit) buf 0 limit !! Z.to_nat (index - cur) with
    | Some (ino, name) => inr (take 127 name, ino)
    | None => inl (cur + zlength (dir_entries (dir_fuel limit) buf 0 limit))
    end.
Proof. intros. apply readdir_scan_entries; done || lia. Qed.

Lemma inode_write_then_read_witness :
  let '(ok, s1) := ext2_write_inode 12 (fresh_inode MODE_FILE 1 5 0 0) img_file in
  let '(r, s2) := ext2_read_inode 12 s1 in
  (valid_ino (geom_of (mnt img_file)) 12 → ok = true ∧ r = Some (fresh_inode MODE_FILE 1 5 0 0)) ∧
  (¬ valid_ino (geom_of (mnt img_file)) 12 → ok = false ∧ r = None) ∧
  ∀ j, valid_ino (geom_of (mnt img_file)) j → j ≠ 12 →
       (ext2_read_inode j s1).1 = Some (disk_inode img_file j).
Proof.
  destruct img_file_ok as (Hs & _ & Hr).
  apply (inode_write_then_read img_file 12 (fresh_inode MODE_FILE 1 5 0 0)); [exact Hs|exact Hr|].
  by apply fresh_inode_ok.
Defined.

Lemma free_undoes_alloc_witness :
  let s2 := (ext2_free_block 8 (ext2_alloc_block img_file).2).2 in
  let s3 := (ext2_free_block 8 s2).2 in
  bbitmap s2 = bbitmap img_file ∧ mnt s2 = mnt img_file ∧
  mnt s3 = mnt s2 ∧ ∀ b, blk (env s3) b = blk (env s2) b.
Proof.
  destruct img_file_ok as (Hs & _ & Hr).
  apply (free_undoes_alloc img_file (ext2_alloc_block img_file).2 8); [exact Hs|exact Hr| |lia].
  by rewrite (surjective_pairing (ext2_alloc_block img_file)) at 1.
Defined.

Definition dir_block7 : list Z := mkdir_block 1024 2 2.
Definition dir_block7' : list Z :=
  default [] (add_scan (dir_fuel 1024) dir_block7 0 1024 (rec_size 3) 11 [97; 98; 99]).

Lemma dir_block7_ok : bytes_ok dir_block7 ∧ zlength dir_block7 = 1024.
Proof. split; [|reflexivity]. apply mkdir_block_ok. Qed.

Lemma dir_add_then_lookup_witness :
  lookup_scan (dir_fuel 1024) dir_block7' 0 1024 [97; 98; 99] =
    match lookup_scan (dir_fuel 1024) dir_block7 0 1024 [97; 98; 99] with
    | Some i => Some i
    | None => if decide ([97; 98; 99] = [97; 98; 99]) then Some 11 else None
    end.
Proof.
  destruct dir_block7_ok as [H1 H2].
  apply (dir_add_then_lookup dir_block7 dir_block7' 1024 11 [97; 98; 99] [97; 98; 99]);
    [exact H1|exact H2|lia| |unfold zlength; simpl; lia|lia|vm_compute; reflexivity].
  repeat constructor; lia.
Defined.

Lemma readdir_enumerates_witness :
  readdir_scan (dir_fuel 1024) dir_block7 0 1024 0 1 =
    match dir_entries (dir_fuel 1024) dir_block7 0 1024 !! Z.to_nat (1 - 0) with
    | Some (ino, name) => inr (take 127 name, ino)
    | None => inl (0 + zlength (dir_entries (dir_fuel 1024) dir_block7 0 1024))
    end.
Proof.
  destruct dir_block7_ok as [H1 H2].
  apply (readdir_enumerates dir_block7 1024 0 1); [exact H1|exact H2|lia|lia|lia].
Defined.
