(* ===== verification/Kmalloc.v ===== *)
(** * The kernel heap (kernel/kmalloc.c)

    The heap is a chain of blocks, each an 8-byte header ([size], [status])
    followed by its payload; the first header with size 0 and status 0 is the
    end of the chain.  Memory is modelled as the 32-bit words of the address
    space, so that headers and payloads share it.  The abstract view is the
    list of blocks; kmalloc is first fit on it. *)

From S2P Require Import Prelude.

(** ** State *)

Record kheap := mk_heap { heap : Z; heap_end : Z; words : Z → Z }.

Definition poke (w : Z → Z) (a v : Z) : Z → Z := λ x, if x =? a then v else w x.

(** [alloc->size] and [alloc->status] of the header at [a]. *)
Definition hd_size (h : kheap) (a : Z) : Z := words h a.
Definition hd_status (h : kheap) (a : Z) : Z := words h (a + 4).

Definition set_size (h : kheap) (a v : Z) : kheap := mk_heap (heap h) (heap_end h) (poke (words h) a v).
Definition set_status (h : kheap) (a v : Z) : kheap :=
  mk_heap (heap h) (heap_end h) (poke (words h) (a + 4) v).

Definition SIZEOF_ALLOC : Z := 8.
Definition HEAD_TO_POINTER (a : Z) : Z := u32 (a + SIZEOF_ALLOC).
Definition POINTER_TO_HEAD (a : Z) : Z := u32 (a - SIZEOF_ALLOC).
Definition PAGE_ALIGNED (a : Z) : bool := Z.land a 0xFFF =? 0.
Definition PAGE_ALIGN (a : Z) : Z := u32 (Z.land a 0xFFFFF000 + 0x1000).

(** [(size + sizeof(struct alloc) - 1) & ~(sizeof(struct alloc) - 1)]. *)
Definition round_size (size : Z) : Z :=
  Z.land (u32 (size + SIZEOF_ALLOC - 1)) (4294967295 - (SIZEOF_ALLOC - 1)).

(** ** Operations *)

Definition heap_init (kernel_end reserved_end : Z) (mem : Z → Z) : kheap :=
  let h0 := if reserved_end >? kernel_end then reserved_end else kernel_end in
  let h1 := if negb (Z.land h0 0xFFF =? 0) then u32 (Z.land h0 0xFFFFF000 + 0x1000) else h0 in
  let he := u32 (h1 + 0x1000 * 600) in
  mk_heap h1 he (λ a, if (h1 <=? a) && (a <? he) then 0 else mem a).

(** The outcome of a walk: a pointer and the updated heap, the panic after
    the loop, or a walk that did not end within [fuel] steps. *)
Inductive walk :=
| Found (ptr : Z) (h : kheap)
| Panic
| OutOfFuel.

Fixpoint kmalloc_walk (fuel : nat) (h : kheap) (size mem : Z) : walk :=
  match fuel with
  | O => OutOfFuel
  | S fuel' =>
      if mem <? heap_end h then
        let next := kmalloc_walk fuel' h size (u32 (u32 (mem + SIZEOF_ALLOC) + hd_size h mem)) in
        if hd_status h mem =? 1 then next else
        if hd_status h mem =? 0 then
          if hd_size h mem >=? size then Found (HEAD_TO_POINTER mem) (set_status h mem 1)
          else if hd_size h mem =? 0 then
            Found (HEAD_TO_POINTER mem) (set_status (set_size h mem size) mem 1)
          else next
        else next
      else Panic
  end.

(** Each step of a walk advances by at least a header. *)
Definition walk_fuel (h : kheap) : nat := Z.to_nat ((heap_end h - heap h) / 8 + 1).

Definition kmalloc (h : kheap) (size : Z) : walk :=
  kmalloc_walk (walk_fuel h) h (round_size size) (heap h).

Definition kfree (h : kheap) (ptr : Z) : kheap :=
  if ptr =? 0 then h else set_status h (POINTER_TO_HEAD ptr) 0.

(** The branch of kmalloc_a that extends the chain at the last header. *)
Definition kmalloc_a_last (h : kheap) (size mem : Z) : Z * kheap :=
  if PAGE_ALIGNED (HEAD_TO_POINTER mem) then
    (HEAD_TO_POINTER mem, set_size (set_status h mem 1) mem size)
  else
    let addr := PAGE_ALIGN (HEAD_TO_POINTER mem) in
    let offset := u32 (addr - HEAD_TO_POINTER mem) in
    if offset >=? SIZEOF_ALLOC then
      let h1 := set_size h mem (u32 (offset - SIZEOF_ALLOC)) in
      let al := u32 (addr - SIZEOF_ALLOC) in
      (HEAD_TO_POINTER al, set_status (set_size h1 al size) al 1)
    else
      let h1 := set_size h mem (u32 (offset + 0x1000 - SIZEOF_ALLOC)) in
      let al := u32 (u32 (addr + 0x1000) - SIZEOF_ALLOC) in
      (HEAD_TO_POINTER al, set_status (set_size h1 al size) al 1).

Fixpoint kmalloc_a_walk (fuel : nat) (h : kheap) (size mem : Z) : walk :=
  match fuel with
  | O => OutOfFuel
  | S fuel' =>
      if mem <? heap_end h then
        let next := kmalloc_a_walk fuel' h size (u32 (u32 (mem + SIZEOF_ALLOC) + hd_size h mem)) in
        if hd_status h mem =? 1 then next else
        if hd_status h mem =? 0 then
          if hd_size h mem >=? size then
            if PAGE_ALIGNED (HEAD_TO_POINTER mem)
            then Found (HEAD_TO_POINTER mem) (set_status h mem 1) else next
          else if hd_size h mem =? 0 then
            let '(p, h') := kmalloc_a_last h size mem in Found p h'
          else next
        else next
      else Panic
  end.

Definition kmalloc_a (h : kheap) (size : Z) : walk :=
  kmalloc_a_walk (walk_fuel h) h (round_size size) (heap h).

(** [*phys] after kmalloc_p / kmalloc_ap, if asked for: [frame_of] gives the
    frame the kernel directory maps a page to. *)
Definition phys_of (paging_enabled : bool) (frame_of : Z → Z) (ptr : Z) : Z :=
  if paging_enabled then u32 (frame_of ptr * 0x1000 + Z.land ptr 0xFFF) else ptr.

Definition kmalloc_p (paging_enabled : bool) (frame_of : Z → Z) (h : kheap) (size : Z)
  : walk * option Z :=
  match kmalloc h size with
  | Found ptr h' => (Found ptr h', Some (phys_of paging_enabled frame_of ptr))
  | w => (w, None)
  end.

Definition kmalloc_ap (paging_enabled : bool) (frame_of : Z → Z) (h : kheap) (size : Z)
  : walk * option Z :=
  match kmalloc_a h size with
  | Found ptr h' => (Found ptr h', Some (phys_of paging_enabled frame_of ptr))
  | w => (w, None)
  end.

(** ** The abstract heap *)

(** A block: its size, and whether it is allocated. *)
Abbreviation block := (Z * bool)%type.

(** The headers from [a] on are the blocks [bs], followed by the last header
    at [e]; sizes are positive multiples of 8. *)
Inductive chain (w : Z → Z) : Z → list block → Z → Prop :=
| chain_nil a : chain w a [] a
| chain_cons a n (u : bool) bs e :
    0 < n → n mod 8 = 0 → w a = n → w (a + 4) = Z.b2z u →
    chain w (a + 8 + n) bs e → chain w a ((n, u) :: bs) e.

(** The heap [h] represents [bs]; [e] is where the chain ends. *)
Record repr (h : kheap) (bs : list block) (e : Z) : Prop := {
  rp_chain : chain (words h) (heap h) bs e;
  rp_start : 0 < heap h ∧ heap h mod 4096 = 0;
  rp_end : e ≤ heap_end h < 4294967296 - 8192 ∧ heap_end h mod 8 = 0;
  rp_zero a : e ≤ a < heap_end h → words h a = 0;
}.

(** First fit among the free blocks whose header address passes [al]: the
    index of the block taken, or the length of the list. *)
Fixpoint first_fit (al : Z → bool) (a : Z) (bs : list block) (size : Z) : nat :=
  match bs with
  | [] => O
  | (n, u) :: bs' =>
      if negb u && (n >=? size) && al a then O else S (first_fit al (a + 8 + n) bs' size)
  end.

(** The address of the header of block [i]. *)
Fixpoint block_addr (a : Z) (bs : list block) (i : nat) : Z :=
  match i, bs with
  | S i', (n, _) :: bs' => block_addr (a + 8 + n) bs' i'
  | _, _ => a
  end.

Definition any_addr (_ : Z) : bool := true.
Definition page_addr (a : Z) : bool := PAGE_ALIGNED (HEAD_TO_POINTER a).

(** What an allocation does to the blocks, if [tail] is what it appends when
    no block fits. *)
Definition ff_alloc (al : Z → bool) (a : Z) (bs : list block) (size : Z) (tail : list block)
  : list block :=
  let i := first_fit al a bs size in
  match bs !! i with
  | Some (n, _) => <[i := (n, true)]> bs
  | None => bs ++ tail
  end.

(** ** Arithmetic *)

Lemma land_fff x : Z.land x 0xFFF = x mod 4096.
Proof. change 0xFFF with (Z.ones 12). by rewrite Z.land_ones by lia. Qed.

Lemma land_high32 x k :
  0 ≤ k ≤ 32 → 0 ≤ x < 4294967296 → Z.land x (4294967296 - 2 ^ k) = x / 2 ^ k * 2 ^ k.
Proof.
  intros Hk Hx. replace (4294967296 - 2 ^ k) with (Z.ldiff (Z.ones 32) (Z.ones k)).
  - rewrite Z.ldiff_land, Z.land_assoc, Z.land_ones by lia.
    rewrite Z.mod_small by (change (2 ^ 32) with 4294967296; lia).
    rewrite <- Z.ldiff_land, Z.ldiff_ones_r, Z.shiftr_div_pow2, Z.shiftl_mul_pow2 by lia. done.
  - assert (0 < 2 ^ k) by (apply Z.pow_pos_nonneg; lia).
    assert (2 ^ 32 = 2 ^ (32 - k) * 2 ^ k) as Hs by (rewrite <- Z.pow_add_r by lia; f_equal; lia).
    rewrite Z.ldiff_ones_r, Z.shiftr_div_pow2, Z.shiftl_mul_pow2 by lia.
    rewrite Z.ones_equiv. change 4294967296 with (2 ^ 32).
    replace (Z.pred (2 ^ 32)) with ((2 ^ (32 - k) - 1) * 2 ^ k + (2 ^ k - 1)) by (rewrite Hs; lia).
    rewrite Z.div_add_l, Z.div_small by lia. rewrite Hs. lia.
Qed.

(** Rounding up to the header grid. *)
Lemma round_size_spec size :
  0 ≤ size < 4294967289 →
  round_size size mod 8 = 0 ∧ size ≤ round_size size < size + 8.
Proof.
  intros Hs. unfold round_size, SIZEOF_ALLOC. rewrite u32_small by lia.
  change (4294967295 - (8 - 1)) with (4294967296 - 2 ^ 3).
  rewrite land_high32 by lia. change (2 ^ 3) with 8. zdm.
Qed.

Lemma PAGE_ALIGN_spec x :
  0 ≤ x < 4294967296 - 4096 → PAGE_ALIGN x = (x / 4096 + 1) * 4096.
Proof.
  intros Hx. unfold PAGE_ALIGN. change 0xFFFFF000 with (4294967296 - 2 ^ 12).
  rewrite land_high32 by lia. change (2 ^ 12) with 4096. rewrite u32_small by zdm. lia.
Qed.

Lemma PAGE_ALIGNED_spec x : PAGE_ALIGNED x = true ↔ x mod 4096 = 0.
Proof. unfold PAGE_ALIGNED. rewrite land_fff. apply Z.eqb_eq. Qed.

(** ** Chains *)

Lemma chain_le w a bs e : chain w a bs e → a ≤ e.
Proof. induction 1; lia. Qed.

Lemma chain_mod w a bs e : chain w a bs e → a mod 8 = 0 → e mod 8 = 0.
Proof. induction 1 as [|a n u bs e Hn Hm _ _ _ IH]; intros Ha; [done|]. apply IH. zdm. Qed.

(** A chain depends on the words of its range only. *)
Lemma chain_ext w w' a bs e :
  chain w a bs e → (∀ x, a ≤ x < e → w' x = w x) → chain w' a bs e.
Proof.
  induction 1 as [|a n u bs e Hn Hm H1 H2 Hc IH]; intros Hw; [constructor|].
  pose proof (chain_le _ _ _ _ Hc).
  constructor; try done; [by rewrite Hw by lia..|]. apply IH. intros; apply Hw; lia.
Qed.

Lemma block_addr_bounds w a bs e i n u :
  chain w a bs e → bs !! i = Some (n, u) →
  a ≤ block_addr a bs i ∧ block_addr a bs i + 8 + n ≤ e ∧ 0 < n ∧
  w (block_addr a bs i) = n ∧ w (block_addr a bs i + 4) = Z.b2z u.
Proof.
  intros Hc. revert i. induction Hc as [|a m v bs e Hn Hm H1 H2 Hc IH]; intros i Hi; [done|].
  pose proof (chain_le _ _ _ _ Hc). destruct i as [|i]; simpl in *.
  - simplify_eq. split_and!; try done; lia.
  - destruct (IH i Hi) as (? & ? & ? & ? & ?). split_and!; try done; lia.
Qed.

(** Marking a block changes its status word only. *)
Lemma chain_mark w a bs e i n u v :
  chain w a bs e → bs !! i = Some (n, u) →
  chain (poke w (block_addr a bs i + 4) (Z.b2z v)) a (<[i := (n, v)]> bs) e.
Proof.
  intros Hc. revert i. induction Hc as [|a m x bs e Hn Hm H1 H2 Hc IH]; intros i Hi; [done|].
  destruct i as [|i]; simpl in *.
  - simplify_eq. constructor; try done.
    + unfold poke. destruct (Z.eqb_spec a (a + 4)); [lia|done].
    + unfold poke. by rewrite Z.eqb_refl.
    + apply (chain_ext w); [done|]. intros x' Hx. unfold poke.
      destruct (Z.eqb_spec x' (a + 4)); [lia|done].
  - destruct (block_addr_bounds _ _ _ _ _ _ _ Hc Hi) as (? & ? & _).
    constructor; try done; [..|by apply IH].
    all: unfold poke; case_if; [lia|done].
Qed.

Lemma chain_app w a bs e bs' e' :
  chain w a bs e → chain w e bs' e' → chain w a (bs ++ bs') e'.
Proof. induction 1; intros; simpl; [done|]. constructor; auto. Qed.

(** Where the blocks of a chain lie: in order, without overlap. *)
Lemma blocks_disjoint w a bs e i j n u m v :
  chain w a bs e → bs !! i = Some (n, u) → bs !! j = Some (m, v) → (i < j)%nat →
  block_addr a bs i + 8 + n ≤ block_addr a bs j.
Proof.
  intros Hc. revert i j. induction Hc as [|a k x bs e Hn Hm H1 H2 Hc IH]; intros i j Hi Hj Hij; [done|].
  destruct j as [|j]; [lia|]. destruct i as [|i]; simpl in *.
  - simplify_eq. apply (block_addr_bounds _ _ _ _ _ _ _ Hc Hj).
  - apply (IH i j); done || lia.
Qed.

(** ** The walks *)

Definition fits_in (al : Z → bool) (a : Z) (bs : list block) (size : Z) : option Z :=
  match bs !! first_fit al a bs size with
  | Some _ => Some (block_addr a bs (first_fit al a bs size))
  | None => None
  end.

(** The common shape of the two walks: what they do at a header. *)
Lemma walk_chain (al : Z → bool) (last : kheap → Z → Z → walk) (W : nat → kheap → Z → Z → walk) h size :
  (∀ fuel h size mem, W (S fuel) h size mem =
     if mem <? heap_end h then
       let next := W fuel h size (u32 (u32 (mem + SIZEOF_ALLOC) + hd_size h mem)) in
       if hd_status h mem =? 1 then next else
       if hd_status h mem =? 0 then
         if hd_size h mem >=? size then
           if al mem then Found (HEAD_TO_POINTER mem) (set_status h mem 1) else next
         else if hd_size h mem =? 0 then last h size mem else next
       else next
     else Panic) →
  ∀ a bs e, chain (words h) a bs e → 0 ≤ a → e ≤ heap_end h < 4294967296 - 8192 →
  (∀ x, e ≤ x < heap_end h → words h x = 0) → a mod 8 = 0 → heap_end h mod 8 = 0 →
  0 < size → ∀ fuel, (heap_end h - a) / 8 + 1 ≤ Z.of_nat fuel →
  W fuel h size a =
    match fits_in al a bs size with
    | Some b => Found (HEAD_TO_POINTER b) (set_status h b 1)
    | None => if e <? heap_end h then last h size e else Panic
    end.
Proof.
  intros HW a bs e Hc. induction Hc as [a|a n u bs e Hn Hm H1 H2 Hc IH];
    intros Ha He Hz Ham Hem Hsz fuel Hf.
  all: try pose proof (chain_le _ _ _ _ Hc).
  all: assert (0 ≤ (heap_end h - a) / 8) by (apply Z.div_pos; lia).
  all: destruct fuel as [|fuel]; [lia|]; rewrite HW; cbv zeta.
  - simpl. destruct (Z.ltb_spec a (heap_end h)) as [Hlt|]; [|done].
    assert (a + 8 ≤ heap_end h) by zdm.
    unfold hd_status, hd_size. rewrite (Hz a), (Hz (a + 4)) by lia. simpl.
    destruct (Z.geb_spec 0 size); [lia|done].
  - destruct (Z.ltb_spec a (heap_end h)); [|lia].
    unfold hd_status, hd_size, SIZEOF_ALLOC. rewrite H1, H2, !u32_small by (rewrite ?u32_small; lia).
    assert (W fuel h size (a + 8 + n) =
      match fits_in al (a + 8 + n) bs size with
      | Some b => Found (HEAD_TO_POINTER b) (set_status h b 1)
      | None => if e <? heap_end h then last h size e else Panic
      end) as Hnext by (apply IH; try done; zdm).
    unfold fits_in in *. cbn [first_fit]. destruct u; cbn [Z.b2z Z.eqb negb andb]; [exact Hnext|].
    destruct (Z.geb_spec n size) as [Hge|Hlt]; cbn [andb].
    + destruct (al a); [done|exact Hnext].
    + destruct (Z.eqb_spec n 0); [lia|exact Hnext].
Qed.

Lemma kmalloc_walk_chain h size a bs e fuel :
  chain (words h) a bs e → 0 ≤ a → e ≤ heap_end h < 4294967296 - 8192 →
  (∀ x, e ≤ x < heap_end h → words h x = 0) → a mod 8 = 0 → heap_end h mod 8 = 0 →
  0 < size → (heap_end h - a) / 8 + 1 ≤ Z.of_nat fuel →
  kmalloc_walk fuel h size a =
    match fits_in any_addr a bs size with
    | Some b => Found (HEAD_TO_POINTER b) (set_status h b 1)
    | None => if e <? heap_end h
              then Found (HEAD_TO_POINTER e) (set_status (set_size h e size) e 1) else Panic
    end.
Proof.
  intros. eapply (walk_chain any_addr
    (λ h size e, Found (HEAD_TO_POINTER e) (set_status (set_size h e size) e 1)) kmalloc_walk); done.
Qed.

Lemma kmalloc_a_walk_chain h size a bs e fuel :
  chain (words h) a bs e → 0 ≤ a → e ≤ heap_end h < 4294967296 - 8192 →
  (∀ x, e ≤ x < heap_end h → words h x = 0) → a mod 8 = 0 → heap_end h mod 8 = 0 →
  0 < size → (heap_end h - a) / 8 + 1 ≤ Z.of_nat fuel →
  kmalloc_a_walk fuel h size a =
    match fits_in page_addr a bs size with
    | Some b => Found (HEAD_TO_POINTER b) (set_status h b 1)
    | None => if e <? heap_end h
              then Found (kmalloc_a_last h size e).1 (kmalloc_a_last h size e).2 else Panic
    end.
Proof.
  intros. eapply (walk_chain page_addr
    (λ h size e, Found (kmalloc_a_last h size e).1 (kmalloc_a_last h size e).2) kmalloc_a_walk);
    try done.
  intros f' h' sz' mem. cbn [kmalloc_a_walk]. unfold page_addr.
  by destruct (kmalloc_a_last h' sz' mem).
Qed.

Lemma walk_fuel_ok h : heap h ≤ heap_end h → (heap_end h - heap h) / 8 + 1 ≤ Z.of_nat (walk_fuel h).
Proof.
  intros. unfold walk_fuel. assert (0 ≤ (heap_end h - heap h) / 8) by (apply Z.div_pos; lia). lia.
Qed.

(** ** The heap represents its blocks *)

(** Appending a block of [n] bytes at the end of the chain. *)
Lemma chain_snoc w a bs e n (u : bool) :
  chain w a bs e → 0 < n → n mod 8 = 0 →
  chain (poke (poke w e n) (e + 4) (Z.b2z u)) a (bs ++ [(n, u)]) (e + 8 + n).
Proof.
  intros Hc Hn Hm. eapply chain_app.
  - eapply chain_ext; [exact Hc|]. intros x Hx. unfold poke. repeat case_if; lia || done.
  - constructor; try done; [..|constructor].
    + unfold poke. rewrite Z.eqb_refl. destruct (Z.eqb_spec e (e + 4)); [lia|done].
    + unfold poke. by rewrite Z.eqb_refl.
Qed.

Lemma repr_addr_mod h bs e i n u :
  repr h bs e → bs !! i = Some (n, u) → block_addr (heap h) bs i mod 8 = 0.
Proof.
  intros [Hc [_ Hs] _ _]. assert (heap h mod 8 = 0) as H8 by zdm. revert H8. clear Hs.
  revert i. induction Hc as [|a m v bs e Hn Hm H1 H2 Hc IH]; intros i H8 Hi; [done|].
  destruct i as [|i]; simpl in *; [done|]. apply IH; [zdm|done].
Qed.

(** Marking block [i]. *)
Lemma repr_mark h bs e i n u v :
  repr h bs e → bs !! i = Some (n, u) →
  repr (set_status h (block_addr (heap h) bs i) (Z.b2z v)) (<[i := (n, v)]> bs) e.
Proof.
  intros [Hc Hs He Hz] Hi. destruct (block_addr_bounds _ _ _ _ _ _ _ Hc Hi) as (? & ? & ? & _).
  constructor; try done; [by eapply chain_mark|].
  intros x Hx. cbn. unfold poke. case_if; [lia|by apply Hz].
Qed.

(** Extending the chain. *)
Lemma repr_snoc h bs e n u :
  repr h bs e → 0 < n → n mod 8 = 0 → e + 8 + n ≤ heap_end h →
  repr (set_status (set_size h e n) e (Z.b2z u)) (bs ++ [(n, u)]) (e + 8 + n).
Proof.
  intros [Hc Hs [He Hm] Hz] Hn Hnm Hfit. constructor; try done.
  - by apply chain_snoc.
  - split; [|done]. cbn. lia.
  - intros x Hx. cbn in *. unfold poke. repeat case_if; try lia. apply Hz. lia.
Qed.

Lemma repr_facts h bs e :
  repr h bs e →
  0 < heap h ≤ e ∧ e ≤ heap_end h < 4294967296 - 8192 ∧ heap h mod 8 = 0 ∧ e mod 8 = 0 ∧
  heap_end h mod 8 = 0.
Proof.
  intros [Hc [Hs1 Hs2] [He Hm] Hz]. pose proof (chain_le _ _ _ _ Hc).
  assert (heap h mod 8 = 0) as H8 by zdm. pose proof (chain_mod _ _ _ _ Hc H8). split_and!; done || lia.
Qed.

(** heap_init starts with no blocks. *)
Lemma heap_init_repr kernel_end reserved_end mem :
  0 < kernel_end < 2147483648 → 0 ≤ reserved_end < 2147483648 →
  let h := heap_init kernel_end reserved_end mem in
  repr h [] (heap h) ∧ kernel_end ≤ heap h ∧ reserved_end ≤ heap h ∧
  heap_end h = heap h + 2457600.
Proof.
  intros Hk Hr h. unfold h, heap_init.
  set (h0 := if reserved_end >? kernel_end then reserved_end else kernel_end).
  assert (0 < h0 < 2147483648 ∧ kernel_end ≤ h0 ∧ reserved_end ≤ h0) as (Hh0 & ? & ?)
    by (subst h0; case_if; lia).
  set (h1 := if negb _ then _ else h0).
  assert (h0 ≤ h1 < 2147483648 + 8192 ∧ h1 mod 4096 = 0) as [Hh1 Hm].
  { subst h1. rewrite land_fff. change 0xFFFFF000 with (4294967296 - 2 ^ 12).
    rewrite land_high32 by lia. change (2 ^ 12) with 4096.
    destruct (Z.eqb_spec (h0 mod 4096) 0); simpl; [lia|]. rewrite u32_small by zdm. zdm. }
  rewrite u32_small by lia. cbn [heap heap_end]. split_and!; try lia.
  constructor; cbn [heap heap_end words]; [constructor|lia|split; [lia|zdm]|].
  intros x Hx. case_if; [done|lia].
Qed.

(** ** Theorems *)

(** Address [x] lies in the payload of block [i]. *)
Definition payload (h : kheap) (bs : list block) (i : nat) (x : Z) : Prop :=
  ∃ n u, bs !! i = Some (n, u) ∧
    block_addr (heap h) bs i + 8 ≤ x < block_addr (heap h) bs i + 8 + n.

(** The outcome of a successful allocation of [size] bytes: block [i] of the
    new list was free or is new, is large enough, and is the only change. *)
Record allocated (h : kheap) (bs : list block) (size : Z) (p : Z) (h' : kheap)
    (bs' : list block) (i : nat) : Prop := {
  al_repr : ∃ e', repr h' bs' e';
  al_heap : heap h' = heap h ∧ heap_end h' = heap_end h;
  al_free u n : bs !! i = Some (n, u) → u = false;
  al_block : ∃ n, bs' !! i = Some (n, true) ∧ size ≤ n;
  al_ptr : p = block_addr (heap h) bs' i + 8;
  al_keep j b : bs !! j = Some b → j ≠ i → bs' !! j = Some b;
}.

Lemma first_fit_spec al a bs size n u :
  bs !! first_fit al a bs size = Some (n, u) →
  u = false ∧ size ≤ n ∧ al (block_addr a bs (first_fit al a bs size)) = true.
Proof.
  revert a. induction bs as [|[m v] bs IH]; intros a; simpl; [done|].
  destruct (negb v && (m >=? size) && al a) eqn:E; simpl; [|by apply IH].
  intros [= <- <-]. boolp. destruct v; [done|]. split_and!; [done|lia|done].
Qed.

Lemma block_addr_app a bs bs' i : (i < length bs)%nat → block_addr a (bs ++ bs') i = block_addr a bs i.
Proof.
  revert a i. induction bs as [|[m v] bs IH]; intros a i Hi; simpl in *; [lia|].
  destruct i as [|i]; [by destruct bs|]. simpl. apply IH. lia.
Qed.

Lemma block_addr_end w a bs e bs' : chain w a bs e → block_addr a (bs ++ bs') (length bs) = e.
Proof. induction 1; simpl; [by destruct bs'|done]. Qed.

Lemma block_addr_mark a bs i n u v j :
  bs !! i = Some (n, u) → block_addr a (<[i := (n, v)]> bs) j = block_addr a bs j.
Proof.
  revert a i j. induction bs as [|[m x] bs IH]; intros a i j Hi; [done|].
  destruct i as [|i]; simpl in *.
  - simplify_eq. by destruct j.
  - destruct j as [|j]; [done|]. simpl. by apply IH.
Qed.

(** Taking block [i] of the chain. *)
Lemma allocated_take al h bs e size i n u :
  repr h bs e → i = first_fit al (heap h) bs size → bs !! i = Some (n, u) →
  allocated h bs size (HEAD_TO_POINTER (block_addr (heap h) bs i))
    (set_status h (block_addr (heap h) bs i) 1) (<[i := (n, true)]> bs) i.
Proof.
  intros Hr -> Hi. destruct (first_fit_spec _ _ _ _ _ _ Hi) as (-> & Hsz & _).
  pose proof (lookup_lt_Some _ _ _ Hi).
  destruct (block_addr_bounds _ _ _ _ _ _ _ (rp_chain _ _ _ Hr) Hi) as (? & ? & ? & _).
  destruct (repr_facts _ _ _ Hr) as (? & ? & _).
  constructor.
  - exists e. by apply (repr_mark h bs e _ n false true).
  - done.
  - intros u m Hu. congruence.
  - exists n. by rewrite list_lookup_insert_eq by lia.
  - unfold HEAD_TO_POINTER, SIZEOF_ALLOC. rewrite (block_addr_mark _ _ _ n false) by done.
    by rewrite u32_small by lia.
  - intros j b Hj Hne. by rewrite list_lookup_insert_ne.
Qed.

(** Appending blocks, the last of which is the one returned. *)
Lemma allocated_snoc h bs e size pad p h' e' :
  repr h bs e → repr h' (bs ++ pad ++ [(size, true)]) e' →
  heap h' = heap h → heap_end h' = heap_end h →
  p = block_addr (heap h) (bs ++ pad ++ [(size, true)]) (length bs + length pad) + 8 →
  allocated h bs size p h' (bs ++ pad ++ [(size, true)]) (length bs + length pad).
Proof.
  intros Hr Hr' H1 H2 Hp. constructor; try done.
  - by exists e'.
  - intros u n Hu%lookup_lt_Some. lia.
  - exists size. split; [|done]. rewrite lookup_app_r by lia.
    rewrite lookup_app_r by lia. by replace (_ - _ - _)%nat with 0%nat by lia.
  - intros j b Hj _. by apply lookup_app_l_Some.
Qed.

(** C24: kmalloc is first fit on the list of blocks: with a fitting free
    block, or room for one more block before heap_end, it returns within its
    walk (never the panic) a payload of at least the requested size that was
    free, changes no other block, and leaves a well-formed chain. *)
Theorem kmalloc_refines h bs e size :
  repr h bs e → 0 < size < 4294967289 →
  (fits_in any_addr (heap h) bs (round_size size) = None → e + 8 + round_size size ≤ heap_end h) →
  ∃ p h' bs' i, kmalloc h size = Found p h' ∧ allocated h bs size p h' bs' i ∧
    bs' = ff_alloc any_addr (heap h) bs (round_size size) [(round_size size, true)].
Proof.
  intros Hr Hsz Hroom. destruct (round_size_spec size ltac:(lia)) as [Hm Hle].
  destruct (repr_facts _ _ _ Hr) as (Hst & Hen & Hm1 & Hm2 & Hm3).
  unfold kmalloc.
  rewrite (kmalloc_walk_chain _ _ _ bs e);
    [|apply Hr|lia|lia|apply Hr|done|done|lia|apply walk_fuel_ok; lia].
  unfold fits_in, ff_alloc in *. set (i := first_fit _ _ _ _) in *.
  destruct (bs !! i) as [[n u]|] eqn:Ei.
  - eexists _, _, _, i. split; [done|]. split; [|done].
    destruct (allocated_take any_addr h bs e (round_size size) i n u Hr eq_refl Ei) as [? ? ? [m [? ?]] ? ?].
    constructor; try done. exists m. split; [done|lia].
  - specialize (Hroom eq_refl). destruct (Z.ltb_spec e (heap_end h)); [|lia].
    eexists _, _, _, (length bs). split; [done|]. split; [|done].
    pose proof (repr_snoc h bs e (round_size size) true Hr ltac:(lia) Hm Hroom) as Hr'.
    destruct (allocated_snoc h bs e (round_size size) [] (HEAD_TO_POINTER e) _ _ Hr Hr') as [? ? ? [m [? ?]] ? ?];
      [done|done| |].
    { simpl. rewrite Nat.add_0_r, (block_addr_end (words h) _ _ e) by apply Hr.
      unfold HEAD_TO_POINTER, SIZEOF_ALLOC. rewrite u32_small; lia. }
    simpl in *. rewrite Nat.add_0_r in *. constructor; try done. exists m. split; [done|lia].
Qed.

(** payloads of different blocks never overlap, and no store into a
    payload can damage a header: the chain is the same after it. *)
Theorem payloads_isolated h bs e i j x v :
  repr h bs e → payload h bs i x →
  (payload h bs j x → i = j) ∧
  repr (mk_heap (heap h) (heap_end h) (poke (words h) x v)) bs e.
Proof.
  intros Hr (n & u & Hi & Hx). pose proof (rp_chain _ _ _ Hr) as Hc. split.
  - intros (m & w & Hj & Hy). destruct (Nat.lt_trichotomy i j) as [Hlt|[->|Hlt]]; [|done|].
    + pose proof (blocks_disjoint _ _ _ _ _ _ _ _ _ _ Hc Hi Hj Hlt). lia.
    + pose proof (blocks_disjoint _ _ _ _ _ _ _ _ _ _ Hc Hj Hi Hlt). lia.
  - destruct (block_addr_bounds _ _ _ _ _ _ _ Hc Hi) as (_ & He & _).
    destruct Hr as [_ Hs Hend Hz]. constructor; try done; cbn [heap heap_end words].
    + clear Hs Hend Hz He. revert i Hi Hx.
      induction Hc as [|a m b bs e Hn Hm H1 H2 Hc IH]; intros i Hi Hx; [done|].
      destruct i as [|i]; simpl in *.
      * simplify_eq. constructor; try done; [unfold poke; case_if; lia || done..|].
        eapply chain_ext; [exact Hc|]. intros y Hy. unfold poke. case_if; [lia|done].
      * destruct (block_addr_bounds _ _ _ _ _ _ _ Hc Hi) as (? & _).
        constructor; try done; [unfold poke; case_if; lia || done..|]. by apply (IH i).
    + intros y Hy. unfold poke. case_if; [lia|by apply Hz].
Qed.

(** kfree of a pointer kmalloc returned marks exactly that block free. *)
Theorem kfree_releases h bs e i n u :
  repr h bs e → bs !! i = Some (n, u) →
  repr (kfree h (block_addr (heap h) bs i + 8)) (<[i := (n, false)]> bs) e.
Proof.
  intros Hr Hi. destruct (block_addr_bounds _ _ _ _ _ _ _ (rp_chain _ _ _ Hr) Hi) as (? & ? & ? & _).
  destruct (repr_facts _ _ _ Hr) as (? & ? & _). unfold kfree, POINTER_TO_HEAD, SIZEOF_ALLOC.
  destruct (Z.eqb_spec (block_addr (heap h) bs i + 8) 0); [lia|].
  rewrite u32_small by lia. replace (block_addr (heap h) bs i + 8 - 8) with (block_addr (heap h) bs i) by lia.
  by apply (repr_mark h bs e i n u false).
Qed.

(** ** Page-aligned allocation *)

(** What kmalloc_a appends when no block fits and the chain ends at [e]: the
    new block, after a free padding block if its payload would not start on a
    page boundary. *)
Definition a_tail (e size : Z) : list block :=
  if PAGE_ALIGNED (HEAD_TO_POINTER e) then [(size, true)]
  else [(PAGE_ALIGN (HEAD_TO_POINTER e) - HEAD_TO_POINTER e - 8, false); (size, true)].

(** The end of the chain after it. *)
Definition a_end (e size : Z) : Z :=
  if PAGE_ALIGNED (HEAD_TO_POINTER e) then e + 8 + size
  else PAGE_ALIGN (HEAD_TO_POINTER e) + size.

Lemma last_aligned h bs e size :
  repr h bs e → 0 < size → size mod 8 = 0 → a_end e size ≤ heap_end h →
  e mod 4096 ≠ 4080 →
  let '(p, h') := kmalloc_a_last h size e in
  repr h' (bs ++ a_tail e size) (a_end e size) ∧ heap h' = heap h ∧ heap_end h' = heap_end h ∧
  p = a_end e size - size ∧ p mod 4096 = 0.
Proof.
  intros Hr Hsz Hm Hend H8. destruct (repr_facts _ _ _ Hr) as (? & ? & ? & ? & ?).
  unfold kmalloc_a_last, a_tail, a_end in *.
  assert (HEAD_TO_POINTER e = e + 8) as Hp by (unfold HEAD_TO_POINTER, SIZEOF_ALLOC; rewrite u32_small; lia).
  rewrite Hp in *. destruct (PAGE_ALIGNED (e + 8)) eqn:Ea.
  - apply PAGE_ALIGNED_spec in Ea. split_and!; [|done|done|lia|done].
    destruct Hr as [Hc Hs [He Hm'] Hz]. constructor; try done; cbn [heap heap_end words set_size set_status] in *.
    + eapply chain_ext; [by apply (chain_snoc (words h) _ _ e size true)|].
      intros x Hx. cbn. unfold poke. cbn [Z.b2z]. repeat case_if; lia || done.
    + split; [lia|done].
    + intros x Hx. unfold poke. repeat case_if; try lia. apply Hz. lia.
  - assert ((e + 8) mod 4096 ≠ 0) as Hna by (intros Hx; apply PAGE_ALIGNED_spec in Hx; congruence).
    cbv zeta. rewrite PAGE_ALIGN_spec by lia. rewrite PAGE_ALIGN_spec in Hend by lia.
    set (addr := ((e + 8) / 4096 + 1) * 4096) in *.
    assert (16 ≤ addr - (e + 8) < 4096 ∧ addr mod 4096 = 0 ∧ addr mod 8 = 0) as (Hoff & Ham & Ham8)
      by (subst addr; zdm).
    unfold SIZEOF_ALLOC. rewrite (u32_small (addr - (e + 8))) by lia.
    destruct (Z.geb_spec (addr - (e + 8)) 8); [|lia].
    rewrite (u32_small (addr - 8)), (u32_small (addr - (e + 8) - 8)) by lia.
    unfold HEAD_TO_POINTER, SIZEOF_ALLOC. rewrite u32_small by lia.
    split_and!; [|done|done|lia|by replace (addr - 8 + 8) with addr by lia].
    assert (repr (set_status (set_size h e (addr - (e + 8) - 8)) e (Z.b2z false))
              (bs ++ [(addr - (e + 8) - 8, false)]) (addr - 8)) as Hr1.
    { replace (addr - 8) with (e + 8 + (addr - (e + 8) - 8)) by lia.
      apply repr_snoc; [done|lia|zdm|lia]. }
    assert (repr (set_size h e (addr - (e + 8) - 8)) (bs ++ [(addr - (e + 8) - 8, false)]) (addr - 8)) as Hr2.
    { destruct Hr1 as [Hc1 Hs1 He1 Hz1]. constructor; try done.
      - eapply chain_ext; [exact Hc1|]. intros x Hx. cbn. unfold poke.
        repeat case_if; try done; subst; first [lia | by rewrite (rp_zero _ _ _ Hr) by lia].
      - intros x Hx. cbn in Hx |- *. unfold poke. case_if; [lia|]. apply (rp_zero _ _ _ Hr). lia. }
    replace (addr + size) with (addr - 8 + 8 + size) by lia.
    rewrite (app_assoc bs [_] [_] : bs ++ [_; _] = _).
    apply (repr_snoc _ _ _ size true); [done|lia|done|cbn; lia].
Qed.

(** The last block of a chain ends it. *)
Lemma chain_last_addr w a bs n u e :
  chain w a (bs ++ [(n, u)]) e → block_addr a (bs ++ [(n, u)]) (length bs) + 8 + n = e.
Proof.
  revert a. induction bs as [|[m v] bs IH]; intros a Hc; simpl in *;
    inversion Hc as [|? ? ? ? ? ? ? ? ? Hc']; subst.
  - by inversion Hc'.
  - by apply IH.
Qed.

(** kmalloc_a returns a page-aligned payload of at least the requested
    size that was free, changes no other block and leaves a well-formed
    chain, unless the end of the chain is 16 bytes before a page boundary. *)
Theorem kmalloc_a_refines h bs e size :
  repr h bs e → 0 < size < 4294967289 →
  (fits_in page_addr (heap h) bs (round_size size) = None →
   a_end e (round_size size) ≤ heap_end h ∧ e mod 4096 ≠ 4080) →
  ∃ p h' bs' i, kmalloc_a h size = Found p h' ∧ allocated h bs size p h' bs' i ∧
    p mod 4096 = 0 ∧
    bs' = ff_alloc page_addr (heap h) bs (round_size size) (a_tail e (round_size size)).
Proof.
  intros Hr Hsz Hroom. destruct (round_size_spec size ltac:(lia)) as [Hm Hle].
  destruct (repr_facts _ _ _ Hr) as (Hst & Hen & Hm1 & Hm2 & Hm3).
  unfold kmalloc_a.
  rewrite (kmalloc_a_walk_chain _ _ _ bs e);
    [|apply Hr|lia|lia|apply Hr|done|done|lia|apply walk_fuel_ok; lia].
  unfold fits_in, ff_alloc in *. set (i := first_fit _ _ _ _) in *.
  destruct (bs !! i) as [[n u]|] eqn:Ei.
  - eexists _, _, _, i. split; [done|].
    destruct (allocated_take page_addr h bs e (round_size size) i n u Hr eq_refl Ei) as [? ? ? [m [? ?]] ? ?].
    destruct (first_fit_spec _ _ _ _ _ _ Ei) as (_ & _ & Hal). split_and!; [|by apply PAGE_ALIGNED_spec|done].
    constructor; try done. exists m. split; [done|lia].
  - destruct (Hroom eq_refl) as [Hend H8].
    assert (e < heap_end h) as He.
    { unfold a_end in Hend. destruct (PAGE_ALIGNED _); [lia|].
      unfold HEAD_TO_POINTER, SIZEOF_ALLOC in Hend. rewrite u32_small in Hend by lia.
      rewrite PAGE_ALIGN_spec in Hend by lia. zdm. }
    rewrite (proj2 (Z.ltb_lt _ _) He).
    pose proof (last_aligned h bs e (round_size size) Hr ltac:(lia) Hm Hend H8) as HL.
    destruct (kmalloc_a_last h (round_size size) e) as [p h'].
    destruct HL as (Hr' & Hh & Hhe & Hp & Hpa). cbn [fst snd].
    set (pad := if PAGE_ALIGNED (HEAD_TO_POINTER e) then [] else
                  [(PAGE_ALIGN (HEAD_TO_POINTER e) - HEAD_TO_POINTER e - 8, false)] : list block).
    assert (a_tail e (round_size size) = pad ++ [(round_size size, true)]) as Ht
      by (unfold a_tail, pad; by destruct (PAGE_ALIGNED _)).
    rewrite Ht in *. eexists p, h', _, (length bs + length pad)%nat. split; [done|]. split_and!; [|done|done].
    assert (p = block_addr (heap h) (bs ++ pad ++ [(round_size size, true)]) (length bs + length pad) + 8) as Hpp.
    { pose proof (rp_chain _ _ _ Hr') as Hc'. rewrite <- Hh.
      assert ((bs ++ pad ++ [(round_size size, true)]) !! (length bs + length pad)%nat =
              Some (round_size size, true)) as Hlk.
      { rewrite lookup_app_r by lia. rewrite lookup_app_r by lia.
        by replace (_ - _ - _)%nat with 0%nat by lia. }
      rewrite app_assoc in Hc', Hlk |- *. rewrite <- length_app in *.
      pose proof (chain_last_addr _ _ _ _ _ _ Hc'). lia. }
    destruct (allocated_snoc h bs e (round_size size) pad p h' _ Hr Hr' Hh Hhe Hpp) as [? ? ? [m [? ?]] ? ?].
    constructor; try done. exists m. split; [done|lia].
Qed.

(** ** Where the allocator breaks *)

Definition walk_ptr (w : walk) : Z := match w with Found p _ => p | _ => 0 end.
Definition walk_heap (h : kheap) (w : walk) : kheap := match w with Found _ h' => h' | _ => h end.

(** A fresh heap of three pages. *)
Definition small_heap : kheap := mk_heap 0x100000 0x103000 (λ _, 0).

Lemma small_heap_repr : repr small_heap [] 0x100000.
Proof. constructor; cbn [heap heap_end words small_heap]; [apply chain_nil|done|split; [lia|done]|done]. Qed.

(** the branch of kmalloc that extends the chain never compares the new
    block with heap_end: without a fitting block it returns the end of the
    chain for every size, also when the block reaches past the heap. *)
Theorem kmalloc_ignores_heap_end h bs e size :
  repr h bs e → 0 < size < 4294967289 → e < heap_end h →
  fits_in any_addr (heap h) bs (round_size size) = None →
  walk_ptr (kmalloc h size) = e + 8.
Proof.
  intros Hr Hsz Hlt Hn. destruct (round_size_spec size ltac:(lia)) as [Hm Hle].
  destruct (repr_facts _ _ _ Hr) as (Hst & Hen & Hm1 & Hm2 & Hm3). unfold kmalloc.
  rewrite (kmalloc_walk_chain _ _ _ bs e);
    [|apply Hr|lia|lia|apply Hr|done|done|lia|apply walk_fuel_ok; lia].
  rewrite Hn, (proj2 (Z.ltb_lt _ _) Hlt). simpl.
  unfold HEAD_TO_POINTER, SIZEOF_ALLOC. rewrite u32_small; lia.
Qed.

(** when the chain ends 16 bytes before a page boundary, kmalloc_a leaves
    a free padding block of size 0, which the next kmalloc takes for the end
    of the chain: it returns a block that overlaps the aligned one. *)
Theorem kmalloc_a_padding_overlap :
  let w1 := kmalloc small_heap 4072 in
  let w2 := kmalloc_a (walk_heap small_heap w1) 4096 in
  let w3 := kmalloc (walk_heap small_heap w2) 16 in
  walk_ptr w2 = 0x101000 ∧ walk_ptr w3 = 0x100FF8 ∧
  walk_ptr w2 < walk_ptr w3 + 16 ∧ walk_ptr w3 < walk_ptr w2 + 4096.
Proof. vm_compute. done. Qed.

(** a freed block of size 0 is taken for the end of the chain as well:
    kmalloc(0), kmalloc(64), kfree of the first, kmalloc(64) returns memory
    that overlaps the second block, which is still allocated. *)
Theorem kmalloc_zero_overlap :
  let w1 := kmalloc small_heap 0 in
  let w2 := kmalloc (walk_heap small_heap w1) 64 in
  let h3 := kfree (walk_heap small_heap w2) (walk_ptr w1) in
  let w4 := kmalloc h3 64 in
  walk_ptr w2 = 0x100010 ∧ walk_ptr w4 = 0x100008 ∧
  walk_ptr w2 < walk_ptr w4 + 64 ∧ walk_ptr w4 < walk_ptr w2 + 64.
Proof. vm_compute. done. Qed.

(** ** Witnesses *)

Lemma kmalloc_refines_witness :
  ∃ p h' bs' i, kmalloc small_heap 100 = Found p h' ∧ allocated small_heap [] 100 p h' bs' i ∧
    bs' = ff_alloc any_addr (heap small_heap) [] (round_size 100) [(round_size 100, true)].
Proof.
  apply (kmalloc_refines small_heap [] 0x100000 100); [exact small_heap_repr|lia|].
  intros _. vm_compute. discriminate.
Defined.

Definition one_block : kheap := walk_heap small_heap (kmalloc small_heap 100).

Lemma one_block_repr : repr one_block [(104, true)] 0x100070.
Proof. exact (repr_snoc small_heap [] 0x100000 104 true small_heap_repr ltac:(lia) eq_refl ltac:(cbn; lia)). Qed.

Lemma payloads_isolated_witness :
  (payload one_block [(104, true)] 0 0x100010 → 0%nat = 0%nat) ∧
  repr (mk_heap (heap one_block) (heap_end one_block) (poke (words one_block) 0x100010 77))
    [(104, true)] 0x100070.
Proof.
  apply (payloads_isolated one_block [(104, true)] 0x100070 0 0 0x100010 77); [exact one_block_repr|].
  exists 104, true. split; [reflexivity|]. vm_compute. split; [discriminate|reflexivity].
Defined.

Lemma kfree_releases_witness :
  repr (kfree one_block (block_addr (heap one_block) [(104, true)] 0 + 8))
    (<[0%nat := (104, false)]> [(104, true)]) 0x100070.
Proof.
  apply (kfree_releases one_block [(104, true)] 0x100070 0 104 true); [exact one_block_repr|reflexivity].
Defined.

Lemma kmalloc_a_refines_witness :
  ∃ p h' bs' i, kmalloc_a small_heap 4096 = Found p h' ∧
    allocated small_heap [] 4096 p h' bs' i ∧ p mod 4096 = 0 ∧
    bs' = ff_alloc page_addr (heap small_heap) [] (round_size 4096)
            (a_tail 0x100000 (round_size 4096)).
Proof.
  apply (kmalloc_a_refines small_heap [] 0x100000 4096); [exact small_heap_repr|lia|].
  intros _. vm_compute. split; discriminate.
Defined.

Lemma kmalloc_ignores_heap_end_witness :
  0x100008 + 1000000 > heap_end small_heap ∧
  walk_ptr (kmalloc small_heap 1000000) = 0x100000 + 8.
Proof.
  split; [vm_compute; reflexivity|].
  apply (kmalloc_ignores_heap_end small_heap [] 0x100000 1000000);
    [exact small_heap_repr|lia|reflexivity|reflexivity].
Defined.
