(* ===== verification/Ring.v ===== *)
(** * Ring buffers

    The bounded FIFO that pipes, consoles and the keyboard driver share as an
    idiom: an array of [N] slots, [head] the next write, [tail] the next read,
    one slot left empty to tell full from empty.  The abstract value is the
    list of queued bytes; every operation is characterised on it. *)

From S2P Require Import Prelude.

Record ring := mk_ring { r_buf : list Z; r_head : Z; r_tail : Z }.

Section ring.
Context (N : Z).

(** [next = (head + 1) % N; if (next == tail) full; buf[head] = x; head = next]. *)
Definition ring_push (r : ring) (x : Z) : option ring :=
  let next := u32 (r_head r + 1) mod N in
  if next =? r_tail r then None
  else Some (mk_ring (bset (r_buf r) (r_head r) (u8 x)) next (r_tail r)).

(** [if (tail != head) { x = buf[tail]; tail = (tail + 1) % N; }]. *)
Definition ring_pop (r : ring) : option (Z * ring) :=
  if r_tail r =? r_head r then None
  else Some (bget (r_buf r) (r_tail r),
             mk_ring (r_buf r) (r_head r) (u32 (r_tail r + 1) mod N)).

(** Push bytes until the ring is full; the bytes left over. *)
Fixpoint ring_fill (r : ring) (data : list Z) : ring * list Z :=
  match data with
  | [] => (r, [])
  | x :: data' => match ring_push r x with Some r' => ring_fill r' data' | None => (r, data) end
  end.

(** Pop at most [n] bytes. *)
Fixpoint ring_drain (n : nat) (r : ring) : list Z * ring :=
  match n with
  | O => ([], r)
  | S n' => match ring_pop r with
            | Some (x, r') => let '(l, r'') := ring_drain n' r' in (x :: l, r'')
            | None => ([], r)
            end
  end.

(** ** The queue a ring represents *)

Definition ring_count (r : ring) : Z := (r_head r - r_tail r) mod N.

Definition ring_items (r : ring) : list Z :=
  (λ i, bget (r_buf r) ((r_tail r + i) mod N)) <$> seqZ 0 (ring_count r).

Record ring_ok (r : ring) : Prop := {
  ro_len : zlength (r_buf r) = N;
  ro_head : 0 ≤ r_head r < N;
  ro_tail : 0 ≤ r_tail r < N;
}.

Context (HN : 2 ≤ N < 4294967295).

Lemma next_index i : 0 ≤ i < N → u32 (i + 1) mod N = (i + 1) mod N.
Proof using HN. intros. rewrite u32_small by lia. done. Qed.

Lemma length_ring_items r : ring_ok r → zlength (ring_items r) = ring_count r.
Proof using HN.
  intros [_ Hh Ht]. unfold ring_items, zlength. rewrite length_fmap, length_seqZ.
  unfold ring_count. rewrite Z2Nat.id; [done|]. apply Z.mod_pos_bound. lia.
Qed.

Lemma count_bound r : 0 ≤ ring_count r < N.
Proof using HN. apply Z.mod_pos_bound. lia. Qed.

(** One more element behind the others. *)
Lemma ring_push_spec r x :
  ring_ok r →
  match ring_push r x with
  | Some r' => ring_ok r' ∧ zlength (ring_items r) < N - 1 ∧
               ring_items r' = ring_items r ++ [u8 x]
  | None => zlength (ring_items r) = N - 1
  end.
Proof using HN.
  intros Hr. rewrite (length_ring_items r Hr). destruct Hr as [Hl Hh Ht].
  unfold ring_push. rewrite next_index by done.
  pose proof (Z.mod_pos_bound (r_head r + 1) N ltac:(lia)).
  destruct (Z.eqb_spec ((r_head r + 1) mod N) (r_tail r)) as [Hfull|Hroom].
  { unfold ring_count.
    destruct (decide (r_head r + 1 = N)) as [He|He].
    - rewrite He, Z.mod_same in Hfull by lia. rewrite Z.mod_small; lia.
    - rewrite Z.mod_small in Hfull by lia.
      replace (r_head r - r_tail r) with (N - 1 + (-1) * N) by lia.
      rewrite Z.mod_add by lia. rewrite Z.mod_small; lia. }
  set (r' := mk_ring _ _ _).
  assert (ring_count r < N - 1 ∧ ring_count r' = ring_count r + 1 ∧
          (r_tail r + ring_count r) mod N = r_head r) as (Hc1 & Hc2 & Hhd).
  { unfold ring_count, r'. cbn [r_head r_tail]. rewrite Zminus_mod_idemp_l.
    rewrite Zplus_mod_idemp_r. replace (r_tail r + (r_head r - r_tail r)) with (r_head r) by lia.
    rewrite (Z.mod_small (r_head r)) by lia.
    destruct (decide (r_tail r ≤ r_head r)).
    - rewrite (Z.mod_small (r_head r - r_tail r)) by lia.
      destruct (decide (r_head r + 1 = N)) as [He|He].
      + rewrite He, Z.mod_same in Hroom by lia. rewrite Z.mod_small by lia. lia.
      + rewrite Z.mod_small by lia. lia.
    - rewrite (Z.mod_small (r_head r + 1)) in Hroom by lia.
      replace (r_head r - r_tail r) with (r_head r - r_tail r + N + (-1) * N) by lia.
      replace (r_head r + 1 - r_tail r) with (r_head r + 1 - r_tail r + N + (-1) * N) by lia.
      rewrite !Z.mod_add, !Z.mod_small by lia. lia. }
  split_and!; [constructor; cbn; try lia; unfold zlength in *; by rewrite length_bset|done|].
  unfold ring_items. rewrite Hc2, seqZ_app, fmap_app by (unfold ring_count; lia || apply count_bound).
  f_equal.
  - apply list_fmap_ext. intros i y (-> & Hi)%lookup_seqZ. cbn.
    rewrite Z.add_0_l. apply bget_bset_ne; [lia|apply Z.mod_pos_bound; lia|]. intros Heq.
    rewrite <- Hhd in Heq. pose proof (count_bound r).
    apply (f_equal (λ z, (z - r_tail r) mod N)) in Heq.
    rewrite !Zminus_mod_idemp_l in Heq.
    replace (r_tail r + ring_count r - r_tail r) with (ring_count r) in Heq by lia.
    replace (r_tail r + Z.of_nat i - r_tail r) with (Z.of_nat i) in Heq by lia.
    rewrite !Z.mod_small in Heq by lia. lia.
  - rewrite Z.add_0_l. change (seqZ (ring_count r) 1) with [0 + ring_count r].
    cbn. rewrite Z.add_0_l, Hhd. f_equal. apply bget_bset_eq; lia.
Qed.

(** The oldest element leaves. *)
Lemma ring_pop_spec r :
  ring_ok r →
  match ring_pop r with
  | Some (x, r') => ring_ok r' ∧ ring_items r = x :: ring_items r'
  | None => ring_items r = []
  end.
Proof using HN.
  intros [Hl Hh Ht]. unfold ring_pop.
  destruct (Z.eqb_spec (r_tail r) (r_head r)) as [He|Hne].
  { unfold ring_items, ring_count. by rewrite He, Z.sub_diag. }
  rewrite next_index by done. pose proof (Z.mod_pos_bound (r_tail r + 1) N ltac:(lia)).
  set (r' := mk_ring _ _ _). split; [by constructor|].
  assert (ring_count r = Z.succ (ring_count r') ∧ 0 ≤ ring_count r') as [Hc Hc0].
  { split; [|apply count_bound]. unfold ring_count, r'. cbn [r_head r_tail].
    rewrite Zminus_mod_idemp_r.
    destruct (decide (r_tail r < r_head r)).
    - rewrite !Z.mod_small by lia. lia.
    - replace (r_head r - r_tail r) with (r_head r - r_tail r + N + (-1) * N) by lia.
      replace (r_head r - (r_tail r + 1)) with (r_head r - (r_tail r + 1) + N + (-1) * N) by lia.
      rewrite !Z.mod_add, !Z.mod_small by lia. lia. }
  unfold ring_items. rewrite Hc. rewrite seqZ_cons by lia. rewrite fmap_cons, Z.pred_succ. f_equal.
  - rewrite Z.add_0_r, Z.mod_small by lia. done.
  - rewrite <- (fmap_add_seqZ 1 0), <- list_fmap_compose. apply list_fmap_ext.
    intros i y (-> & Hi)%lookup_seqZ. cbn. f_equal. rewrite Zplus_mod_idemp_l. f_equal. lia.
Qed.

(** Filling takes as many bytes as there is room for, in order. *)
Lemma ring_fill_spec data r :
  ring_ok r →
  let '(r', rest) := ring_fill r data in
  let n := (length data - length rest)%nat in
  ring_ok r' ∧ rest = drop n data ∧ (n ≤ length data)%nat ∧
  ring_items r' = ring_items r ++ (u8 <$> take n data) ∧
  (rest ≠ [] → zlength (ring_items r') = N - 1).
Proof using HN.
  revert r. induction data as [|x data IH]; intros r Hr; cbn [ring_fill].
  { simpl. by rewrite app_nil_r. }
  pose proof (ring_push_spec r x Hr) as Hp. destruct (ring_push r x) as [r1|].
  - destruct Hp as (Hr1 & _ & Hi). specialize (IH r1 Hr1).
    destruct (ring_fill r1 data) as [r' rest]. cbv zeta in IH |- *.
    destruct IH as (H1 & H2 & H3 & H4 & H5).
    assert (length rest ≤ length data)%nat by (rewrite H2, length_drop; lia).
    replace (length (x :: data) - length rest)%nat with (S (length data - length rest)) by (simpl; lia).
    split_and!; [done|done|simpl; lia| |done].
    rewrite H4, Hi, <- app_assoc. done.
  - cbv zeta. rewrite Nat.sub_diag. simpl. rewrite app_nil_r. split_and!; [done|done|lia|done|done].
Qed.

(** Draining delivers the oldest bytes, in order. *)
Lemma ring_drain_spec n r :
  ring_ok r →
  let '(l, r') := ring_drain n r in
  ring_ok r' ∧ ring_items r = l ++ ring_items r' ∧ length l = (n `min` length (ring_items r))%nat.
Proof using HN.
  revert r. induction n as [|n IH]; intros r Hr; cbn [ring_drain]; [done|].
  pose proof (ring_pop_spec r Hr) as Hp. destruct (ring_pop r) as [[x r1]|].
  - destruct Hp as (Hr1 & Hi). specialize (IH r1 Hr1). destruct (ring_drain n r1) as [l r'].
    destruct IH as (H1 & H2 & H3). rewrite Hi, H2. split_and!; [done|done|].
    simpl. rewrite H3, H2. done.
  - rewrite Hp. done.
Qed.
End ring.

(** An empty ring. *)
Lemma ring_empty_ok N buf : 2 ≤ N → zlength buf = N → ring_ok N (mk_ring buf 0 0).
Proof. intros. constructor; simpl; lia. Qed.

Lemma ring_empty_items N buf : ring_items N (mk_ring buf 0 0) = [].
Proof. done. Qed.

(** Bytes survive the narrowing store. *)
Lemma u8_bytes l : bytes_ok l → u8 <$> l = l.
Proof. induction 1 as [|x l Hx Hl IH]; [done|]. cbn. by rewrite IH, u8_small. Qed.
