(* ===== verification/Pipe.v ===== *)
(** * Pipes and mutexes (kernel/pipe.c, kernel/mutex.c)

    The blocking calls are loops around sections that run with interrupts
    masked; one section is one step of the model, and steps of different
    tasks interleave arbitrarily. *)

From S2P Require Import Prelude Ring.

Module Pipe.

Definition PIPE_SZ : Z := 512.

Record pipe := mk_pipe { p_ring : ring; readers : Z; writers : Z }.

(** [mem]: the bytes the fresh buffer happens to hold. *)
Definition pipe_create (mem : list Z) : pipe := mk_pipe (mk_ring mem 0 0) 1 1.

Definition pipe_addref (p : pipe) (writable : bool) : pipe :=
  if writable then mk_pipe (p_ring p) (readers p) (s32 (writers p + 1))
  else mk_pipe (p_ring p) (s32 (readers p + 1)) (writers p).

(** The pipe afterwards, and whether it was freed. *)
Definition pipe_release (p : pipe) (writable : bool) : pipe * bool :=
  let p' := if writable then mk_pipe (p_ring p) (readers p) (s32 (writers p - 1))
            else mk_pipe (p_ring p) (s32 (readers p - 1)) (writers p) in
  (p', (readers p' =? 0) && (writers p' =? 0)).

(** The result of one pass of a blocking loop: return to the caller, or
    [task_switch()] and try again. *)
Inductive pass (A : Type) := Return (x : A) | Wait.
Arguments Return {A}.
Arguments Wait {A}.

(** One pass of the [for (;;)] of pipe_read: the bytes stored in the
    caller's buffer ([n] of them; none is end of file). *)
Definition pipe_read (p : pipe) (len : Z) : pass (list Z) * pipe :=
  if len =? 0 then (Return [], p) else
  let '(l, r') := ring_drain PIPE_SZ (Z.to_nat len) (p_ring p) in
  let p' := mk_pipe r' (readers p) (writers p) in
  if 0 <? zlength l then (Return l, p')
  else if writers p =? 0 then (Return [], p')
  else (Wait, p').

(** One pass of the outer loop of pipe_write with the bytes [rest] still to
    be written: [Return false] is -1, [Return true] means all is written;
    and the bytes that remain. *)
Definition pipe_write (p : pipe) (rest : list Z) : pass bool * pipe * list Z :=
  match rest with
  | [] => (Return true, p, [])
  | _ =>
      if readers p =? 0 then (Return false, p, rest) else
      let '(r', rest') := ring_fill PIPE_SZ (p_ring p) rest in
      let p' := mk_pipe r' (readers p) (writers p) in
      match rest' with
      | [] => (Return true, p', [])
      | _ => (Wait, p', rest')
      end
  end.

(** ** A pipe shared by any number of tasks *)

(** The pipe with the history of bytes accepted from writers and delivered
    to readers. *)
Record world := mk_world { w_pipe : pipe; sent : list Z; received : list Z }.

Inductive step : world → world → Prop :=
| step_read w len res p' :
    0 ≤ len → pipe_read (w_pipe w) len = (res, p') →
    step w (mk_world p' (sent w)
              (received w ++ match res with Return l => l | Wait => [] end))
| step_write w rest res p' rest' :
    pipe_write (w_pipe w) rest = (res, p', rest') →
    step w (mk_world p' (sent w ++ (u8 <$> take (length rest - length rest') rest)) (received w))
| step_addref w writable :
    step w (mk_world (pipe_addref (w_pipe w) writable) (sent w) (received w))
| step_release w writable :
    step w (mk_world (pipe_release (w_pipe w) writable).1 (sent w) (received w)).

Inductive steps : world → world → Prop :=
| steps_refl w : steps w w
| steps_step w1 w2 w3 : steps w1 w2 → step w2 w3 → steps w1 w3.

Definition items (p : pipe) : list Z := ring_items PIPE_SZ (p_ring p).

Record world_ok (w : world) : Prop := {
  wo_ring : ring_ok PIPE_SZ (p_ring (w_pipe w));
  wo_fifo : sent w = received w ++ items (w_pipe w);
}.

Lemma size_ok : 2 ≤ PIPE_SZ < 4294967295.
Proof. unfold PIPE_SZ. lia. Qed.

Lemma pipe_read_spec p len :
  ring_ok PIPE_SZ (p_ring p) → 0 ≤ len →
  let '(res, p') := pipe_read p len in
  let l := match res with Return l => l | Wait => [] end in
  ring_ok PIPE_SZ (p_ring p') ∧ items p = l ++ items p' ∧
  readers p' = readers p ∧ writers p' = writers p ∧
  zlength l = Z.min len (zlength (items p)) ∧
  (res = Wait → items p = [] ∧ writers p ≠ 0) ∧
  (res = Return [] → len = 0 ∨ items p = [] ∧ writers p = 0).
Proof.
  intros Hr Hlen. unfold pipe_read.
  destruct (Z.eqb_spec len 0) as [->|Hnz].
  { split_and!; try done; [unfold zlength; simpl; lia|by left]. }
  pose proof (ring_drain_spec PIPE_SZ size_ok (Z.to_nat len) (p_ring p) Hr) as Hd.
  destruct (ring_drain _ _ _) as [l r']. destruct Hd as (H1 & H2 & H3).
  assert (zlength l = Z.min len (zlength (items p))) as Hl by (unfold zlength, items in *; lia).
  assert ((0 <? zlength l) = false → l = [] ∧ items p = []) as He.
  { intros Hz. boolp. unfold zlength in *. destruct l; [|simpl in *; lia].
    split; [done|]. destruct (items p); [done|simpl in *; lia]. }
  destruct (0 <? zlength l) eqn:E0.
  - split_and!; try done. intros [= ->]. done.
  - destruct (He eq_refl) as [-> Hi]. destruct (Z.eqb_spec (writers p) 0).
    + split_and!; try done. by right.
    + split_and!; done.
Qed.

Lemma pipe_write_spec p rest :
  ring_ok PIPE_SZ (p_ring p) →
  let '(res, p', rest') := pipe_write p rest in
  let n := (length rest - length rest')%nat in
  ring_ok PIPE_SZ (p_ring p') ∧ rest' = drop n rest ∧
  items p' = items p ++ (u8 <$> take n rest) ∧
  readers p' = readers p ∧ writers p' = writers p ∧
  (res = Return true → rest' = []) ∧
  (res = Return false → readers p = 0 ∧ rest ≠ [] ∧ rest' = rest) ∧
  (res = Wait → zlength (items p') = PIPE_SZ - 1 ∧ rest' ≠ []).
Proof.
  intros Hr. unfold pipe_write. destruct rest as [|x rest].
  { cbv zeta. simpl. rewrite app_nil_r. by split_and!. }
  set (rs := x :: rest). destruct (Z.eqb_spec (readers p) 0) as [Hz|Hz].
  { cbv zeta. rewrite Nat.sub_diag. simpl. rewrite app_nil_r. by split_and!. }
  pose proof (ring_fill_spec PIPE_SZ size_ok rs (p_ring p) Hr) as Hf.
  destruct (ring_fill PIPE_SZ (p_ring p) rs) as [r' rest']. cbv zeta in Hf.
  destruct Hf as (H1 & H2 & H3 & H4 & H5).
  destruct rest' as [|y rest']; cbv zeta; (split_and!; try done); intros _; split; [|done].
  by apply H5.
Qed.

Lemma step_ok w w' : step w w' → world_ok w → world_ok w'.
Proof.
  intros Hst [Hr Hf]. destruct Hst as [w len res p' Hlen Hrd|w rest res p' rest' Hwr|w u|w u].
  - pose proof (pipe_read_spec (w_pipe w) len Hr Hlen) as Hs. rewrite Hrd in Hs.
    destruct Hs as (H1 & H2 & _). constructor; [done|]. cbn [sent received w_pipe].
    by rewrite Hf, H2, app_assoc.
  - pose proof (pipe_write_spec (w_pipe w) rest Hr) as Hs. rewrite Hwr in Hs.
    destruct Hs as (H1 & _ & H3 & _). constructor; [done|]. cbn [sent received w_pipe].
    by rewrite Hf, H3, app_assoc.
  - constructor; unfold pipe_addref, items; by destruct u.
  - constructor; unfold pipe_release, items; by destruct u.
Qed.

(** C33: whatever the interleaving of readers, writers, duplications and
    releases, the bytes delivered are a prefix of the bytes accepted, in
    order, and what is missing is exactly what the ring holds: nothing is
    lost, duplicated or reordered, and at most 511 bytes are in flight. *)
Theorem pipe_fifo mem w :
  zlength mem = PIPE_SZ → steps (mk_world (pipe_create mem) [] []) w →
  sent w = received w ++ items (w_pipe w) ∧ zlength (items (w_pipe w)) ≤ PIPE_SZ - 1.
Proof.
  intros Hm Hst. remember (mk_world (pipe_create mem) [] []) as w0.
  assert (world_ok w) as [Hr Hf].
  { induction Hst as [|w1 w2 w3 _ IH Hs]; [|eapply step_ok; [exact Hs|by apply IH]].
    subst. constructor; [by apply ring_empty_ok|done]. }
  split; [done|]. unfold items. rewrite (length_ring_items _ size_ok) by done.
  pose proof (count_bound PIPE_SZ size_ok (p_ring (w_pipe w))). lia.
Qed.

(** a pass of pipe_read delivers as many queued bytes as fit, oldest
    first; it reports end of file only for an empty pipe without writers
    and blocks only on an empty pipe with a writer left. *)
Theorem pipe_read_contract p len :
  ring_ok PIPE_SZ (p_ring p) → 0 < len →
  let '(res, p') := pipe_read p len in
  match res with
  | Return l => items p = l ++ items p' ∧ zlength l = Z.min len (zlength (items p)) ∧
                (l = [] ↔ items p = [] ∧ writers p = 0)
  | Wait => items p = [] ∧ writers p ≠ 0 ∧ items p' = []
  end.
Proof.
  intros Hr Hlen. pose proof (pipe_read_spec p len Hr ltac:(lia)) as Hs.
  destruct (pipe_read p len) as [[l|] p']; destruct Hs as (_ & Hi & _ & _ & Hl & Hw & He).
  - split_and!; [done..|]. split.
    + intros ->. destruct (He eq_refl) as [?|?]; [lia|done].
    + intros [H0 _]. rewrite H0 in Hi. by destruct l.
  - destruct (Hw eq_refl) as [H0 ?]. rewrite H0 in Hi. split_and!; done.
Qed.

(** Three bytes written, two of them read. *)
Definition demo0 : pipe := pipe_create (replicate 512 0).
Definition demo1 : pipe := (pipe_write demo0 [7; 8; 9]).1.2.
Definition demo2 : pipe := (pipe_read demo1 2).2.

Lemma pipe_fifo_witness :
  sent (mk_world demo2 [7; 8; 9] [7; 8]) =
    received (mk_world demo2 [7; 8; 9] [7; 8]) ++ items demo2 ∧
  zlength (items demo2) ≤ PIPE_SZ - 1.
Proof.
  apply (pipe_fifo (replicate 512 0) (mk_world demo2 [7; 8; 9] [7; 8])); [reflexivity|].
  apply (steps_step _ (mk_world demo1 [7; 8; 9] [])).
  - apply (steps_step _ (mk_world demo0 [] [])); [apply steps_refl|].
    apply (step_write (mk_world demo0 [] []) [7; 8; 9] (Return true) demo1 []).
    vm_compute. reflexivity.
  - apply (step_read (mk_world demo1 [7; 8; 9] []) 2 (Return [7; 8]) demo2); [lia|].
    vm_compute. reflexivity.
Defined.

Lemma pipe_read_contract_witness :
  let '(res, p') := pipe_read demo0 5 in
  match res with
  | Return l => items demo0 = l ++ items p' ∧
                zlength l = Z.min 5 (zlength (items demo0)) ∧
                (l = [] ↔ items demo0 = [] ∧
                          writers demo0 = 0)
  | Wait => items demo0 = [] ∧
            writers demo0 ≠ 0 ∧ items p' = []
  end.
Proof.
  apply (pipe_read_contract demo0 5); [|lia].
  by apply ring_empty_ok.
Defined.
End Pipe.

(** ** Mutexes *)

Module Mutex.

(** [struct mutex], and the tasks between a mutex_lock and the matching
    mutex_unlock (most recent first). *)
Record state := mk_state { locked : Z; holders : list nat }.

(** One pass of mutex_lock: taken, or yield and retry. *)
Definition mutex_lock (m : Z) : bool * Z := if m =? 0 then (true, 1) else (false, m).

Definition mutex_unlock (m : Z) : Z := 0.

Inductive step : state → state → Prop :=
| step_acquire s t m' :
    mutex_lock (locked s) = (true, m') → step s (mk_state m' (t :: holders s))
| step_retry s m' :
    mutex_lock (locked s) = (false, m') → step s (mk_state m' (holders s))
| step_unlock s t :
    t ∈ holders s → step s (mk_state (mutex_unlock (locked s)) (filter (λ x, x ≠ t) (holders s))).

Inductive reach : state → Prop :=
| reach_init : reach (mk_state 0 [])
| reach_step s s' : reach s → step s s' → reach s'.

(** as long as only holders unlock, at most one task is ever inside
    the critical section, and the lock word is 1 exactly while one is. *)
Theorem mutual_exclusion s :
  reach s → (locked s = 0 ∧ holders s = []) ∨ (locked s = 1 ∧ ∃ t, holders s = [t]).
Proof.
  induction 1 as [|s s' _ IH Hst]; [by left|].
  destruct Hst as [s t m' Hl|s m' Hl|s t Ht]; unfold mutex_lock in *; cbn [locked holders].
  - destruct IH as [[H0 Hh]|[H1 _]]; [|by rewrite H1 in Hl].
    rewrite H0 in Hl. injection Hl as <-. rewrite Hh. right. split; [done|by exists t].
  - destruct IH as [[H0 Hh]|[H1 Hh]]; [by rewrite H0 in Hl|].
    rewrite H1 in Hl. injection Hl as <-. by right.
  - destruct IH as [[H0 Hh]|[H1 [t' Hh]]]; [rewrite Hh in Ht; by apply not_elem_of_nil in Ht|].
    left. split; [done|]. rewrite Hh in *. apply list_elem_of_singleton in Ht as ->.
    rewrite filter_cons_False by (intros Hn; by apply Hn). done.
Qed.

Lemma mutual_exclusion_witness :
  (1 = 0 ∧ [3%nat] = []) ∨ (1 = 1 ∧ ∃ t, [3%nat] = [t]).
Proof.
  apply (mutual_exclusion (mk_state 1 [3%nat])).
  apply (reach_step (mk_state 0 [])); [apply reach_init|]. by apply (step_acquire (mk_state 0 []) 3).
Defined.
End Mutex.
