(* ===== verification/Console.v ===== *)
(** * Consoles (kernel/console.c)

    Eight consoles, each with an output and an input ring.  The ring updates
    run with interrupts masked, so one call is one atomic step.  The abstract
    specification is a table of sessions with unbounded-looking queues and an
    explicit capacity; the module refines it call by call. *)

From S2P Require Import Prelude Ring.

Module Console.

Definition NCONSOLE : Z := 8.
Definition OUT_SZ : Z := 4096.
Definition IN_SZ : Z := 256.

Record console := mk_console { used : Z; pid : Z; out : ring; inp : ring }.

Definition no_console : console := mk_console 0 0 (mk_ring [] 0 0) (mk_ring [] 0 0).

(** [consoles[cid]]. *)
Definition cons_at (cs : list console) (cid : Z) : console :=
  default no_console (cs !! Z.to_nat cid).
Definition cons_set (cs : list console) (cid : Z) (c : console) : list console :=
  <[Z.to_nat cid := c]> cs.

Definition console_valid (cs : list console) (cid : Z) : bool :=
  (cid >=? 0) && (cid <? NCONSOLE) && negb (used (cons_at cs cid) =? 0).

(** The scan of console_alloc from slot [i], [n] slots left. *)
Fixpoint console_alloc_from (cs : list console) (i : Z) (n : nat) : Z * list console :=
  match n with
  | O => (-1, cs)
  | S n' =>
      let c := cons_at cs i in
      if used c =? 0 then
        (i, cons_set cs i (mk_console 1 (-1) (mk_ring (r_buf (out c)) 0 0)
                             (mk_ring (r_buf (inp c)) 0 0)))
      else console_alloc_from cs (i + 1) n'
  end.
Definition console_alloc (cs : list console) : Z * list console :=
  console_alloc_from cs 0 (Z.to_nat NCONSOLE).

Definition console_free (cs : list console) (cid : Z) : list console :=
  if console_valid cs cid then
    let c := cons_at cs cid in cons_set cs cid (mk_console 0 (pid c) (out c) (inp c))
  else cs.

Definition console_set_pid (cs : list console) (cid p : Z) : list console :=
  if console_valid cs cid then
    let c := cons_at cs cid in cons_set cs cid (mk_console (used c) p (out c) (inp c))
  else cs.

Definition console_pid (cs : list console) (cid : Z) : Z :=
  if console_valid cs cid then pid (cons_at cs cid) else -1.

Definition console_out_write (cs : list console) (cid : Z) (buf : list Z) : Z * list console :=
  if negb (console_valid cs cid) then (-1, cs) else
  let c := cons_at cs cid in
  let '(r, rest) := ring_fill OUT_SZ (out c) buf in
  (s32 (zlength buf - zlength rest), cons_set cs cid (mk_console (used c) (pid c) r (inp c))).

Definition console_out_read (cs : list console) (cid len : Z) : Z * list Z * list console :=
  if negb (console_valid cs cid) then (-1, [], cs) else
  let c := cons_at cs cid in
  let '(l, r) := ring_drain OUT_SZ (Z.to_nat len) (out c) in
  (s32 (zlength l), l, cons_set cs cid (mk_console (used c) (pid c) r (inp c))).

Definition console_in_write (cs : list console) (cid : Z) (buf : list Z) : Z * list console :=
  if negb (console_valid cs cid) then (-1, cs) else
  let c := cons_at cs cid in
  let '(r, rest) := ring_fill IN_SZ (inp c) buf in
  (s32 (zlength buf - zlength rest), cons_set cs cid (mk_console (used c) (pid c) (out c) r)).

Definition console_in_getc (cs : list console) (cid : Z) : Z * list console :=
  if negb (console_valid cs cid) then (-1, cs) else
  let c := cons_at cs cid in
  match ring_pop IN_SZ (inp c) with
  | Some (x, r) => (x, cons_set cs cid (mk_console (used c) (pid c) (out c) r))
  | None => (-1, cs)
  end.

(** ** Calls and their replies *)

Inductive call :=
| Alloc | Free (cid : Z) | SetPid (cid p : Z) | GetPid (cid : Z)
| OutWrite (cid : Z) (buf : list Z) | OutRead (cid len : Z)
| InWrite (cid : Z) (buf : list Z) | InGetc (cid : Z).

(** The result (0 where the function returns nothing) and the bytes stored
    in the caller's buffer. *)
Definition reply : Type := Z * list Z.

Definition exec (cs : list console) (c : call) : reply * list console :=
  match c with
  | Alloc => let '(r, cs') := console_alloc cs in ((r, []), cs')
  | Free cid => ((0, []), console_free cs cid)
  | SetPid cid p => ((0, []), console_set_pid cs cid p)
  | GetPid cid => ((console_pid cs cid, []), cs)
  | OutWrite cid buf => let '(r, cs') := console_out_write cs cid buf in ((r, []), cs')
  | OutRead cid len => let '(r, l, cs') := console_out_read cs cid len in ((r, l), cs')
  | InWrite cid buf => let '(r, cs') := console_in_write cs cid buf in ((r, []), cs')
  | InGetc cid => let '(r, cs') := console_in_getc cs cid in ((r, []), cs')
  end.

Fixpoint exec_all (cs : list console) (l : list call) : list reply * list console :=
  match l with
  | [] => ([], cs)
  | c :: l' => let '(r, cs1) := exec cs c in
               let '(rs, cs2) := exec_all cs1 l' in (r :: rs, cs2)
  end.

(** ** Abstract specification: a table of sessions *)

Record session := mk_session { owner : Z; outq : list Z; inq : list Z }.
Abbreviation table := (list (option session)).

Definition sess_at (t : table) (cid : Z) : option session :=
  if 0 <=? cid then mjoin (t !! Z.to_nat cid) else None.

(** Append as much of [buf] as a queue of capacity [cap] has room for. *)
Definition enqueue (cap : Z) (q buf : list Z) : Z * list Z :=
  let n := Z.min (zlength buf) (cap - zlength q) in
  (n, q ++ (u8 <$> take (Z.to_nat n) buf)).

Definition spec (t : table) (c : call) : reply * table :=
  let on cid f := match sess_at t cid with
                  | Some s => let '(r, l, s') := f s in ((r, l), <[Z.to_nat cid := s']> t)
                  | None => ((-1, []), t) end in
  match c with
  | Alloc => match list_find (λ o, o = None) t with
             | Some (i, _) => ((Z.of_nat i, []), <[i := Some (mk_session (-1) [] [])]> t)
             | None => ((-1, []), t)
             end
  | Free cid => ((0, []), (on cid (λ s, (0, [], None))).2)
  | SetPid cid p => ((0, []), (on cid (λ s, (0, [], Some (mk_session p (outq s) (inq s))))).2)
  | GetPid cid => on cid (λ s, (owner s, [], Some s))
  | OutWrite cid buf =>
      on cid (λ s, let '(n, q) := enqueue (OUT_SZ - 1) (outq s) buf in
                   (n, [], Some (mk_session (owner s) q (inq s))))
  | OutRead cid len =>
      on cid (λ s, let l := take (Z.to_nat len) (outq s) in
                   (zlength l, l, Some (mk_session (owner s) (drop (Z.to_nat len) (outq s)) (inq s))))
  | InWrite cid buf =>
      on cid (λ s, let '(n, q) := enqueue (IN_SZ - 1) (inq s) buf in
                   (n, [], Some (mk_session (owner s) (outq s) q)))
  | InGetc cid =>
      on cid (λ s, match inq s with
                   | x :: q => (x, [], Some (mk_session (owner s) (outq s) q))
                   | [] => (-1, [], Some s)
                   end)
  end.

Fixpoint spec_all (t : table) (l : list call) : list reply * table :=
  match l with
  | [] => ([], t)
  | c :: l' => let '(r, t1) := spec t c in
               let '(rs, t2) := spec_all t1 l' in (r :: rs, t2)
  end.

(** ** Refinement *)

Record console_ok (c : console) : Prop := {
  co_out : ring_ok OUT_SZ (out c);
  co_in : ring_ok IN_SZ (inp c);
}.

Record inv (cs : list console) : Prop := {
  in_len : length cs = Z.to_nat NCONSOLE;
  in_ok : Forall console_ok cs;
}.

Definition session_of (c : console) : session :=
  mk_session (pid c) (ring_items OUT_SZ (out c)) (ring_items IN_SZ (inp c)).
Definition abs1 (c : console) : option session :=
  if used c =? 0 then None else Some (session_of c).
Definition abs (cs : list console) : table := abs1 <$> cs.

Lemma out_size : 2 ≤ OUT_SZ < 4294967295.
Proof. unfold OUT_SZ. lia. Qed.
Lemma in_size : 2 ≤ IN_SZ < 4294967295.
Proof. unfold IN_SZ. lia. Qed.

Lemma fill_enqueue N r data :
  2 ≤ N < 4294967295 → ring_ok N r →
  let '(r', rest) := ring_fill N r data in
  ring_ok N r' ∧
  enqueue (N - 1) (ring_items N r) data = (zlength data - zlength rest, ring_items N r').
Proof.
  intros HN Hr. pose proof (ring_fill_spec N HN data r Hr) as Hf.
  destruct (ring_fill N r data) as [r' rest]. cbv zeta in Hf.
  destruct Hf as (H1 & H2 & H3 & H4 & H5). split; [done|]. unfold enqueue.
  assert (length rest ≤ length data)%nat by (rewrite H2, length_drop; lia).
  assert (zlength (ring_items N r') = zlength (ring_items N r) + (zlength data - zlength rest)) as Hl.
  { rewrite H4. unfold zlength. rewrite length_app, length_fmap, length_take. lia. }
  assert (zlength (ring_items N r') ≤ N - 1).
  { rewrite (length_ring_items N HN) by done. pose proof (count_bound N HN r'). lia. }
  assert (Z.min (zlength data) (N - 1 - zlength (ring_items N r)) = zlength data - zlength rest) as ->.
  { destruct rest as [|y rest]; [unfold zlength in *; simpl in *; lia|].
    specialize (H5 ltac:(done)). unfold zlength in *. lia. }
  rewrite H4. f_equal. f_equal. f_equal. f_equal. unfold zlength. lia.
Qed.

Lemma drain_dequeue N r len :
  2 ≤ N < 4294967295 → ring_ok N r → 0 ≤ len →
  let '(l, r') := ring_drain N (Z.to_nat len) r in
  ring_ok N r' ∧ zlength l < N ∧ l = take (Z.to_nat len) (ring_items N r) ∧
  ring_items N r' = drop (Z.to_nat len) (ring_items N r).
Proof.
  intros HN Hr Hlen. pose proof (ring_drain_spec N HN (Z.to_nat len) r Hr) as Hd.
  destruct (ring_drain N (Z.to_nat len) r) as [l r']. destruct Hd as (H1 & H2 & H3).
  assert (zlength (ring_items N r) < N).
  { rewrite (length_ring_items N HN) by done. apply (count_bound N HN r). }
  assert (length l ≤ length (ring_items N r))%nat by lia.
  split_and!; [done|unfold zlength in *; lia| |].
  - rewrite H2. destruct (decide (Z.to_nat len ≤ length (ring_items N r))%nat).
    + rewrite take_app_length'; [done|lia].
    + assert (ring_items N r' = []) as ->.
      { apply length_zero_iff_nil. apply (f_equal length) in H2. rewrite length_app in H2. lia. }
      rewrite app_nil_r, take_ge by lia. done.
  - destruct (decide (Z.to_nat len ≤ length (ring_items N r))%nat).
    + rewrite H2, drop_app_length'; [done|lia].
    + assert (ring_items N r' = []) as ->.
      { apply length_zero_iff_nil. apply (f_equal length) in H2. rewrite length_app in H2. lia. }
      rewrite drop_ge by lia. done.
Qed.

(** A valid id denotes a live session of the table. *)
Lemma sess_at_abs cs cid :
  inv cs →
  sess_at (abs cs) cid =
    if console_valid cs cid then Some (session_of (cons_at cs cid)) else None.
Proof.
  intros [Hlen _]. unfold sess_at, console_valid, cons_at, abs. rewrite Z.geb_leb.
  destruct (0 <=? cid) eqn:E; [|done]. boolp. rewrite list_lookup_fmap. cbn [andb].
  destruct (cs !! Z.to_nat cid) as [c|] eqn:Hc; simpl.
  - apply lookup_lt_Some in Hc. rewrite Hlen in Hc. rewrite (proj2 (Z.ltb_lt _ _)) by lia.
    unfold abs1. simpl. by destruct (used c =? 0).
  - by rewrite andb_false_r.
Qed.

Lemma valid_slot cs cid :
  inv cs → console_valid cs cid = true →
  cs !! Z.to_nat cid = Some (cons_at cs cid) ∧ console_ok (cons_at cs cid) ∧
  used (cons_at cs cid) ≠ 0.
Proof.
  intros [Hlen Hok] Hv. unfold console_valid in Hv. boolp.
  destruct (lookup_lt_is_Some_2 cs (Z.to_nat cid)) as [c Hc]; [rewrite Hlen; lia|].
  unfold cons_at in *. rewrite Hc in *. simpl in *.
  split_and!; [done| |done]. by eapply Forall_lookup_1 in Hc.
Qed.

Lemma cons_set_inv cs cid c : inv cs → console_ok c → inv (cons_set cs cid c).
Proof.
  intros [Hlen Hok] Hc. constructor; unfold cons_set; [by rewrite length_insert|by apply Forall_insert].
Qed.

Lemma abs_cons_set cs cid c : abs (cons_set cs cid c) = <[Z.to_nat cid := abs1 c]> (abs cs).
Proof. apply list_fmap_insert. Qed.

Lemma abs1_used c : used c ≠ 0 → abs1 c = Some (session_of c).
Proof. intros Hu. unfold abs1. by rewrite (proj2 (Z.eqb_neq _ _) Hu). Qed.

(** Storing the session that is there already changes nothing. *)
Lemma abs_same cs cid :
  inv cs → console_valid cs cid = true →
  <[Z.to_nat cid := Some (session_of (cons_at cs cid))]> (abs cs) = abs cs.
Proof.
  intros Hi Hv. destruct (valid_slot _ _ Hi Hv) as (Hc & _ & Hu).
  apply list_insert_id. unfold abs. by rewrite list_lookup_fmap, Hc, <- abs1_used.
Qed.

Lemma alloc_from_spec n i cs :
  inv cs → 0 ≤ i → (Z.to_nat i + n = length cs)%nat →
  let '(r, cs') := console_alloc_from cs i n in
  inv cs' ∧
  match list_find (λ o : option session, o = None) (drop (Z.to_nat i) (abs cs)) with
  | Some (k, _) => r = i + Z.of_nat k ∧
                   abs cs' = <[Z.to_nat r := Some (mk_session (-1) [] [])]> (abs cs)
  | None => r = -1 ∧ cs' = cs
  end.
Proof.
  revert i. induction n as [|n IH]; intros i Hi Hi0 Hl; cbn [console_alloc_from].
  { split; [done|]. rewrite drop_ge; [done|]. unfold abs. rewrite length_fmap. lia. }
  destruct (lookup_lt_is_Some_2 cs (Z.to_nat i)) as [c Hc]; [lia|].
  assert (cons_at cs i = c) as -> by (unfold cons_at; by rewrite Hc).
  assert (console_ok c) as [Ho Hin] by (destruct Hi as [_ Hok]; by eapply Forall_lookup_1 in Hc).
  rewrite (drop_S (abs cs) (abs1 c)); [|unfold abs; by rewrite list_lookup_fmap, Hc].
  cbn [list_find].
  destruct (used c =? 0) eqn:Eu.
  - rewrite decide_True by (unfold abs1; by rewrite Eu). split.
    + apply cons_set_inv; [done|]. constructor; apply ring_empty_ok; [done|by apply ro_len|done|by apply ro_len].
    + split; [lia|]. by rewrite abs_cons_set.
  - rewrite decide_False by (unfold abs1; by rewrite Eu).
    specialize (IH (i + 1) Hi ltac:(lia) ltac:(lia)).
    replace (Z.to_nat (i + 1)) with (S (Z.to_nat i)) in IH by lia.
    destruct (console_alloc_from cs (i + 1) n) as [r cs']. destruct IH as [Hi' IH]. split; [done|].
    destruct (list_find _ _) as [[k ?]|]; simpl; [|done]. destruct IH. split; [lia|done].
Qed.

(** Evaluate a call on a session that is live, and one that is not. *)
Ltac on_session Hi cid :=
  unfold spec; cbv zeta; rewrite (sess_at_abs _ cid Hi);
  let Hv := fresh "Hv" in
  destruct (console_valid _ cid) eqn:Hv; cbn [negb];
  [ let Hc := fresh "Hc" in let Hok := fresh "Hok" in let Hu := fresh "Hu" in
    destruct (valid_slot _ _ Hi Hv) as (Hc & Hok & Hu)
  | split; [done|by simpl] ].

(** One call of the module is one call of the specification. *)
Lemma exec_refines cs c :
  inv cs → (∀ cid len, c = OutRead cid len → 0 ≤ len) →
  let '(r, cs') := exec cs c in inv cs' ∧ spec (abs cs) c = (r, abs cs').
Proof.
  intros Hi Hlen. destruct c as [|cid|cid p|cid|cid buf|cid len|cid buf|cid]; cbn [exec].
  - unfold console_alloc. pose proof (alloc_from_spec (Z.to_nat NCONSOLE) 0 cs Hi ltac:(lia)) as Ha.
    rewrite (in_len _ Hi) in Ha. specialize (Ha eq_refl).
    destruct (console_alloc_from _ _ _) as [r cs']. destruct Ha as [Hi' Ha]. split; [done|].
    cbn [spec]. rewrite drop_0 in Ha.
    destruct (list_find _ _) as [[k ?]|]; destruct Ha as [-> Ha]; [|by rewrite Ha].
    by rewrite Ha, Z.add_0_l, Nat2Z.id.
  - unfold console_free. on_session Hi cid. destruct Hok.
    split; [by apply cons_set_inv|]. by rewrite abs_cons_set.
  - unfold console_set_pid. on_session Hi cid. destruct Hok.
    split; [by apply cons_set_inv|]. rewrite abs_cons_set, abs1_used by done. done.
  - unfold console_pid. on_session Hi cid. split; [done|]. by rewrite abs_same.
  - unfold console_out_write. on_session Hi cid. destruct Hok as [Ho Hin].
    pose proof (fill_enqueue OUT_SZ (out (cons_at cs cid)) buf out_size Ho) as Hf.
    destruct (ring_fill _ _ _) as [r rest]. destruct Hf as [Hr Hf].
    split; [by apply cons_set_inv|]. cbn [outq session_of]. rewrite Hf, abs_cons_set, abs1_used by done.
    rewrite s32_id; [done|]. injection Hf as Hn _. pose proof (count_bound OUT_SZ out_size (out (cons_at cs cid))).
    rewrite (length_ring_items OUT_SZ out_size) in Hn by done. unfold OUT_SZ, zlength in *. lia.
  - unfold console_out_read. on_session Hi cid. destruct Hok as [Ho Hin].
    pose proof (drain_dequeue OUT_SZ (out (cons_at cs cid)) len out_size Ho (Hlen _ _ eq_refl)) as Hd.
    destruct (ring_drain _ _ _) as [l r]. destruct Hd as (Hr & Hl & -> & Hd).
    split; [by apply cons_set_inv|]. rewrite abs_cons_set, abs1_used by done. cbn [outq session_of].
    rewrite s32_id by (unfold OUT_SZ, zlength in *; lia). unfold session_of. cbn. by rewrite Hd.
  - unfold console_in_write. on_session Hi cid. destruct Hok as [Ho Hin].
    pose proof (fill_enqueue IN_SZ (inp (cons_at cs cid)) buf in_size Hin) as Hf.
    destruct (ring_fill _ _ _) as [r rest]. destruct Hf as [Hr Hf].
    split; [by apply cons_set_inv|]. cbn [inq session_of]. rewrite Hf, abs_cons_set, abs1_used by done.
    rewrite s32_id; [done|]. injection Hf as Hn _. pose proof (count_bound IN_SZ in_size (inp (cons_at cs cid))).
    rewrite (length_ring_items IN_SZ in_size) in Hn by done. unfold IN_SZ, zlength in *. lia.
  - unfold console_in_getc. on_session Hi cid. destruct Hok as [Ho Hin].
    pose proof (ring_pop_spec IN_SZ in_size (inp (cons_at cs cid)) Hin) as Hp.
    destruct (ring_pop _ _) as [[x r]|].
    + destruct Hp as [Hr Hp]. split; [by apply cons_set_inv|].
      rewrite abs_cons_set, abs1_used by done. cbn [inq session_of]. by rewrite Hp.
    + split; [done|]. cbn [inq session_of]. rewrite Hp. by rewrite abs_same.
Qed.

Definition call_ok (c : call) : bool :=
  match c with OutRead _ len => 0 <=? len | _ => true end.

Lemma exec_all_refines l cs :
  inv cs → forallb call_ok l = true →
  let '(rs, cs') := exec_all cs l in inv cs' ∧ spec_all (abs cs) l = (rs, abs cs').
Proof.
  revert cs. induction l as [|c l IH]; intros cs Hi Hl; [done|]. cbn [exec_all spec_all forallb] in *.
  apply andb_prop in Hl as [Hc Hl].
  pose proof (exec_refines cs c Hi) as He. destruct (exec cs c) as [r cs1].
  destruct He as [Hi1 ->]. { intros cid len ->. simpl in Hc. boolp. done. }
  specialize (IH cs1 Hi1 Hl). destruct (exec_all cs1 l) as [rs cs2]. destruct IH as [Hi2 ->]. done.
Qed.

(** The table as the loader leaves it: zeroed. *)
Definition boot : list console :=
  replicate (Z.to_nat NCONSOLE)
    (mk_console 0 0 (mk_ring (memset_buf 0 OUT_SZ) 0 0) (mk_ring (memset_buf 0 IN_SZ) 0 0)).

Lemma boot_inv : inv boot.
Proof.
  constructor; [apply length_replicate|]. apply Forall_replicate.
  constructor; apply ring_empty_ok; unfold OUT_SZ, IN_SZ, zlength, memset_buf; try lia;
    rewrite length_replicate; lia.
Qed.

(** C34: every history of calls from boot gives exactly the replies of the
    session table: ids are handed out lowest first and are valid until
    freed, each console's output and input are FIFO queues of 4095 and 255
    bytes that drop what does not fit and report how much did, and a call
    on one console never shows on another. *)
Theorem console_refines l rs cs :
  forallb call_ok l = true → exec_all boot l = (rs, cs) →
  spec_all (replicate (Z.to_nat NCONSOLE) None) l = (rs, abs cs).
Proof.
  intros Hl He. pose proof (exec_all_refines l boot boot_inv Hl) as Hr.
  rewrite He in Hr. destruct Hr as [_ Hr]. exact Hr.
Qed.

Definition demo : list call :=
  [Alloc; Alloc; SetPid 1 42; InWrite 1 [104; 105]; OutWrite 0 [65; 66; 67]; InGetc 1; GetPid 1;
   OutRead 0 2; Free 0; OutRead 0 1; Alloc; OutRead 0 9].

Lemma console_refines_witness :
  spec_all (replicate (Z.to_nat NCONSOLE) None) demo = ((exec_all boot demo).1, abs (exec_all boot demo).2) ∧
  (exec_all boot demo).1 = [(0, []); (1, []); (0, []); (2, []); (3, []); (104, []); (42, []);
                            (2, [65; 66]); (0, []); (-1, []); (0, []); (0, [])].
Proof.
  split; [|by vm_compute]. apply console_refines; [done|]. by destruct (exec_all boot demo).
Defined.
End Console.
