(* ===== verification/Keyboard.v ===== *)
(** * The PS/2 keyboard driver (drivers/keyboard.c)

    Scancode set 1 decoding with its modifier state, and the key buffer
    between the interrupt handler and kbd_getc. *)

From S2P Require Import Prelude Ring.

Module Keyboard.

Definition KBD_BUF_SIZE : Z := 256.
Definition SC_LSHIFT : Z := 0x2A.
Definition SC_RSHIFT : Z := 0x36.
Definition SC_CAPSLOCK : Z := 0x3A.

(** The tables as character codes; the entries past the last initialiser
    are 0. *)
Definition keymap_normal : list Z :=
  [0; 27; 49; 50; 51; 52; 53; 54; 55; 56; 57; 48; 45; 61; 8;
   9; 113; 119; 101; 114; 116; 121; 117; 105; 111; 112; 91; 93; 10;
   0;
   97; 115; 100; 102; 103; 104; 106; 107; 108; 59; 39; 96;
   0;
   92; 122; 120; 99; 118; 98; 110; 109; 44; 46; 47;
   0;
   42;
   0;
   32] ++ replicate 70 0.

Definition keymap_shift : list Z :=
  [0; 27; 33; 64; 35; 36; 37; 94; 38; 42; 40; 41; 95; 43; 8;
   9; 81; 87; 69; 82; 84; 89; 85; 73; 79; 80; 123; 125; 10;
   0;
   65; 83; 68; 70; 71; 72; 74; 75; 76; 58; 34; 126;
   0;
   124; 90; 88; 67; 86; 66; 78; 77; 60; 62; 63;
   0;
   42;
   0;
   32] ++ replicate 70 0.

Record kbd := mk_kbd {
  k_ring : ring;            (** keybuf, kbd_head, kbd_tail *)
  shift_down : bool;
  caps_on : bool;
  ext_pending : bool;
}.

(** The character a make code gives under the current modifiers. *)
Definition kbd_char (shift caps : bool) (code : Z) : Z :=
  let c := bget keymap_normal code in
  if (c >=? 97) && (c <=? 122) then
    if negb (eqb shift caps) then bget keymap_shift code else c
  else if shift then bget keymap_shift code
  else c.

(** [code]: what [inb(0x60)] returned. *)
Definition kbd_irq (k : kbd) (code : Z) : kbd :=
  if code =? 0xE0 then mk_kbd (k_ring k) (shift_down k) (caps_on k) true
  else if ext_pending k then mk_kbd (k_ring k) (shift_down k) (caps_on k) false
  else if negb (Z.land code 0x80 =? 0) then
    let make := Z.land code 0x7F in
    if (make =? SC_LSHIFT) || (make =? SC_RSHIFT)
    then mk_kbd (k_ring k) false (caps_on k) (ext_pending k)
    else k
  else if (code =? SC_LSHIFT) || (code =? SC_RSHIFT)
  then mk_kbd (k_ring k) true (caps_on k) (ext_pending k)
  else if code =? SC_CAPSLOCK
  then mk_kbd (k_ring k) (shift_down k) (negb (caps_on k)) (ext_pending k)
  else
    let c := kbd_char (shift_down k) (caps_on k) code in
    if c =? 0 then k
    else match ring_push KBD_BUF_SIZE (k_ring k) c with
         | Some r => mk_kbd r (shift_down k) (caps_on k) (ext_pending k)
         | None => k
         end.

Definition kbd_init (k : kbd) : kbd :=
  mk_kbd (mk_ring (r_buf (k_ring k)) 0 0) (shift_down k) (caps_on k) (ext_pending k).

Definition kbd_getc (k : kbd) : Z * kbd :=
  match ring_pop KBD_BUF_SIZE (k_ring k) with
  | None => (0, k)
  | Some (key, r) => (key, mk_kbd r (shift_down k) (caps_on k) (ext_pending k))
  end.

(** ** Typing and reading *)

Fixpoint kbd_feed (k : kbd) (codes : list Z) : kbd :=
  match codes with [] => k | c :: l => kbd_feed (kbd_irq k c) l end.

(** Call kbd_getc until it reports an empty buffer. *)
Fixpoint kbd_read_all (fuel : nat) (k : kbd) : list Z * kbd :=
  match fuel with
  | O => ([], k)
  | S n => let '(c, k1) := kbd_getc k in
           if c =? 0 then ([], k1) else let '(l, k2) := kbd_read_all n k1 in (c :: l, k2)
  end.

(** The first key whose character is [c]. *)
Definition key_for (map : list Z) (c : Z) : option Z :=
  (λ p, Z.of_nat p.1) <$> list_find (λ x, x = c) map.

(** The scancodes a user produces to type [c]: the key alone, or the key
    between press and release of a shift key. *)
Definition keystrokes (caps : bool) (c : Z) : option (list Z) :=
  let plain := if caps && ((97 <=? c) && (c <=? 122) || (65 <=? c) && (c <=? 90))
               then keymap_shift else keymap_normal in
  let shifted := if caps && ((97 <=? c) && (c <=? 122) || (65 <=? c) && (c <=? 90))
                 then keymap_normal else keymap_shift in
  if c =? 0 then None else
  match key_for plain c with
  | Some k => Some [k; Z.lor k 0x80]
  | None => match key_for shifted c with
            | Some k => Some [SC_LSHIFT; k; Z.lor k 0x80; Z.lor SC_LSHIFT 0x80]
            | None => None
            end
  end.

Definition typable (c : Z) : bool :=
  (32 <=? c) && (c <=? 126) || (c =? 8) || (c =? 9) || (c =? 10) || (c =? 27).

Definition type_text (caps : bool) (s : list Z) : list Z :=
  s ≫= λ c, default [] (keystrokes caps c).

(** ** Facts about the tables, by evaluation *)

Definition ascii_codes : list Z := seqZ 0 128.

(** Feeding the keystrokes of one character, without the ring: the
    characters that would be buffered, and the modifiers left. *)
Definition keystrokes_ok (caps : bool) (c : Z) : bool :=
  match keystrokes caps c with
  | Some [k; k'] =>
      negb (existsb (λ x, (k =? x)) [0xE0; SC_LSHIFT; SC_RSHIFT; SC_CAPSLOCK]) &&
      (Z.land k 0x80 =? 0) && negb (Z.land k' 0x80 =? 0) && negb (k' =? 0xE0) &&
      negb (existsb (λ x, (Z.land k' 0x7F =? x)) [SC_LSHIFT; SC_RSHIFT]) &&
      (kbd_char false caps k =? c)
  | Some [s; k; k'; s'] =>
      (s =? SC_LSHIFT) && (s' =? 0xAA) &&
      negb (existsb (λ x, (k =? x)) [0xE0; SC_LSHIFT; SC_RSHIFT; SC_CAPSLOCK]) &&
      (Z.land k 0x80 =? 0) && negb (Z.land k' 0x80 =? 0) && negb (k' =? 0xE0) &&
      negb (existsb (λ x, (Z.land k' 0x7F =? x)) [SC_LSHIFT; SC_RSHIFT]) &&
      (kbd_char true caps k =? c)
  | _ => false
  end.

Lemma keystrokes_table :
  forallb (λ c, negb (typable c) || keystrokes_ok false c && keystrokes_ok true c) ascii_codes = true.
Proof. by vm_compute. Qed.

Lemma typable_keystrokes caps c : typable c = true → keystrokes_ok caps c = true.
Proof.
  intros Ht. assert (c ∈ ascii_codes) as Hin.
  { unfold ascii_codes. apply elem_of_seqZ. unfold typable in Ht.
    repeat (apply orb_prop in Ht as [Ht|Ht]); boolp; lia. }
  pose proof keystrokes_table as Hk. rewrite forallb_forall in Hk.
  specialize (Hk c (proj1 (list_elem_of_In _ _) Hin)). rewrite Ht in Hk. simpl in Hk. boolp.
  by destruct caps.
Qed.

(** ** The driver's invariant *)

Definition keys (k : kbd) : list Z := ring_items KBD_BUF_SIZE (k_ring k).

Record kbd_ok (k : kbd) : Prop := {
  ko_ring : ring_ok KBD_BUF_SIZE (k_ring k);
  ko_chars : Forall (λ c, 0 < c < 128) (keys k);
}.

Lemma kbd_size : 2 ≤ KBD_BUF_SIZE < 4294967295.
Proof. unfold KBD_BUF_SIZE. lia. Qed.

Lemma kbd_char_range s caps code : 0 ≤ kbd_char s caps code < 128.
Proof.
  assert (∀ l, forallb (λ c, (0 <=? c) && (c <? 128)) l = true → 0 ≤ bget l code < 128) as Hl.
  { intros l Hl. unfold bget. destruct (l !! Z.to_nat code) as [x|] eqn:E; simpl; [|lia].
    rewrite forallb_forall in Hl. apply list_elem_of_lookup_2, list_elem_of_In in E.
    specialize (Hl x E). simpl in Hl. boolp. lia. }
  unfold kbd_char. repeat case_if; apply Hl; by vm_compute.
Qed.

Lemma ring_room N r x :
  2 ≤ N < 4294967295 → ring_ok N r → zlength (ring_items N r) < N - 1 →
  ∃ r', ring_push N r x = Some r' ∧ ring_ok N r' ∧ ring_items N r' = ring_items N r ++ [u8 x].
Proof.
  intros HN Hr Hl. pose proof (ring_push_spec N HN r x Hr) as Hp.
  destruct (ring_push N r x) as [r'|]; [|lia]. destruct Hp as (? & _ & ?). by eexists.
Qed.

Lemma kbd_ok_modifiers k s caps e : kbd_ok k → kbd_ok (mk_kbd (k_ring k) s caps e).
Proof. intros [Hr Hk]. by constructor. Qed.

(** The handler on an arbitrary byte: either nothing is queued, or the
    decoded character is queued behind the others. *)
Lemma kbd_irq_ok k code :
  kbd_ok k → kbd_ok (kbd_irq k code) ∧ ∃ l, keys (kbd_irq k code) = keys k ++ l ∧ (length l ≤ 1)%nat.
Proof.
  intros Hk. pose proof (kbd_char_range (shift_down k) (caps_on k) code) as Hc.
  assert (∀ k', kbd_ok k' → keys k' = keys k →
    kbd_ok k' ∧ ∃ l, keys k' = keys k ++ l ∧ (length l ≤ 1)%nat) as Hsame.
  { intros k' Hk' Hks. split; [done|]. exists []. rewrite app_nil_r. simpl. auto. }
  unfold kbd_irq. cbv zeta.
  repeat case_if; try (by apply Hsame; [apply kbd_ok_modifiers|]); try (by apply Hsame).
  destruct Hk as [Hr Hks].
  pose proof (ring_push_spec KBD_BUF_SIZE kbd_size (k_ring k)
    (kbd_char (shift_down k) (caps_on k) code) Hr) as Hp.
  destruct (ring_push _ _ _) as [r|]; [|by apply Hsame; [constructor|]].
  destruct Hp as (Hr' & _ & Hi). unfold keys. cbn [k_ring]. rewrite Hi, u8_small by lia.
  split; [|by eexists]. constructor; [done|]. unfold keys. cbn [k_ring]. rewrite Hi, u8_small by lia.
  apply Forall_app. split; [done|]. apply Forall_singleton. lia.
Qed.

(** A character key with room in the buffer. *)
Lemma kbd_irq_char k code :
  kbd_ok k → ext_pending k = false → zlength (keys k) < KBD_BUF_SIZE - 1 →
  existsb (λ x, (code =? x)) [0xE0; SC_LSHIFT; SC_RSHIFT; SC_CAPSLOCK] = false →
  Z.land code 0x80 = 0 → kbd_char (shift_down k) (caps_on k) code ≠ 0 →
  ∃ r, kbd_irq k code = mk_kbd r (shift_down k) (caps_on k) false ∧ ring_ok KBD_BUF_SIZE r ∧
       ring_items KBD_BUF_SIZE r = keys k ++ [kbd_char (shift_down k) (caps_on k) code].
Proof.
  intros [Hr _] He Hl Hex Hb Hc. simpl in Hex. boolp. unfold kbd_irq.
  destruct (ring_room KBD_BUF_SIZE (k_ring k) (kbd_char (shift_down k) (caps_on k) code)
    kbd_size Hr Hl) as (r & Hp & Hr' & Hi).
  pose proof (kbd_char_range (shift_down k) (caps_on k) code).
  rewrite u8_small in Hi by lia.
  rewrite He, Hb, Z.eqb_refl. cbn [negb].
  rewrite !(proj2 (Z.eqb_neq _ _)) by done. cbn [orb]. rewrite Hp. eexists. split_and!; [done|done|done].
Qed.

(** A key release other than shift. *)
Lemma kbd_irq_release k code :
  ext_pending k = false → code ≠ 0xE0 → Z.land code 0x80 ≠ 0 →
  existsb (λ x, (Z.land code 0x7F =? x)) [SC_LSHIFT; SC_RSHIFT] = false → kbd_irq k code = k.
Proof.
  intros He Hc Hb Hex. simpl in Hex. boolp. unfold kbd_irq. rewrite He.
  rewrite !(proj2 (Z.eqb_neq _ _)) by done. done.
Qed.

(** Typing one character. *)
Lemma type_char k c :
  kbd_ok k → ext_pending k = false → shift_down k = false →
  zlength (keys k) < KBD_BUF_SIZE - 1 → typable c = true →
  let k' := kbd_feed k (default [] (keystrokes (caps_on k) c)) in
  kbd_ok k' ∧ ext_pending k' = false ∧ shift_down k' = false ∧ caps_on k' = caps_on k ∧
  keys k' = keys k ++ [c].
Proof.
  intros Hk He Hs Hl Ht. pose proof (typable_keystrokes (caps_on k) c Ht) as Hok.
  assert (0 < c < 128) as Hc.
  { unfold typable in Ht. repeat (apply orb_prop in Ht as [Ht|Ht]); boolp; lia. }
  assert (∀ r b, ring_ok KBD_BUF_SIZE r → ring_items KBD_BUF_SIZE r = keys k ++ [c] →
    kbd_ok (mk_kbd r b (caps_on k) false)) as Hnew.
  { intros r b Hr Hi. constructor; [done|]. unfold keys. cbn [k_ring]. rewrite Hi.
    apply Forall_app. split; [apply Hk|]. by apply Forall_singleton. }
  unfold keystrokes_ok in Hok. destruct (keystrokes (caps_on k) c) as [[|k1 [|k2 [|k3 [|k4 [|]]]]]|];
    try done; cbn [from_option id kbd_feed]; boolp.
  - destruct (kbd_irq_char k k1) as (r & -> & Hr & Hi); try done; [rewrite Hs; lia|].
    rewrite Hs in Hi |- *. rewrite (kbd_irq_release _ k2) by done.
    cbv zeta. split_and!; try done; [apply Hnew; [done|]|];
      (etrans; [exact Hi|]; by f_equal; f_equal).
  - subst k1 k4. change (kbd_irq k SC_LSHIFT) with
      (if ext_pending k then mk_kbd (k_ring k) (shift_down k) (caps_on k) false
       else mk_kbd (k_ring k) true (caps_on k) (ext_pending k)). rewrite He.
    set (k1 := mk_kbd (k_ring k) true (caps_on k) false).
    assert (kbd_ok k1) by by apply kbd_ok_modifiers.
    destruct (kbd_irq_char k1 k2) as (r & -> & Hr & Hi); try done; [cbn [shift_down caps_on k1]; lia|].
    cbn [shift_down caps_on k1] in Hi |- *. rewrite (kbd_irq_release _ k3) by done.
    cbv zeta. unfold kbd_irq. simpl. split_and!; try done; [apply Hnew; [done|]|];
      (etrans; [exact Hi|]; by f_equal; f_equal).
Qed.

Lemma kbd_feed_app l1 l2 k : kbd_feed k (l1 ++ l2) = kbd_feed (kbd_feed k l1) l2.
Proof. revert k. induction l1; intros k; simpl; auto. Qed.

Lemma type_text_ok s k :
  kbd_ok k → ext_pending k = false → shift_down k = false →
  zlength (keys k) + zlength s < KBD_BUF_SIZE → forallb typable s = true →
  let k' := kbd_feed k (type_text (caps_on k) s) in kbd_ok k' ∧ keys k' = keys k ++ s.
Proof.
  revert k. induction s as [|c s IH]; intros k Hk He Hs Hl Ht; cbn [forallb type_text] in *.
  { simpl. by rewrite app_nil_r. }
  apply andb_prop in Ht as [Hc Ht]. unfold zlength in Hl. simpl in Hl.
  destruct (type_char k c) as (Hk1 & He1 & Hs1 & Hcaps & Hk2); [done|done|done|unfold zlength; lia|done|].
  unfold type_text. cbn [mbind list_bind]. rewrite kbd_feed_app.
  set (k1 := kbd_feed k (default [] (keystrokes (caps_on k) c))) in *.
  destruct (IH k1) as [H1 H2]; [done|done|done| |done|].
  { rewrite Hk2. unfold zlength. rewrite length_app. simpl. lia. }
  rewrite Hcaps in H1, H2. split; [exact H1|]. etrans; [exact H2|]. by rewrite Hk2, <- app_assoc.
Qed.

(** Reading delivers everything that was queued. *)
Lemma kbd_read_all_ok n k :
  kbd_ok k → (length (keys k) < n)%nat →
  let '(l, k') := kbd_read_all n k in l = keys k ∧ kbd_ok k' ∧ keys k' = [].
Proof.
  revert k. induction n as [|n IH]; intros k Hk Hl; [lia|]. cbn [kbd_read_all]. unfold kbd_getc.
  pose proof (ring_pop_spec KBD_BUF_SIZE kbd_size (k_ring k) (ko_ring _ Hk)) as Hp.
  destruct (ring_pop _ _) as [[x r]|]; [|by rewrite Z.eqb_refl].
  destruct Hp as [Hr Hi]. pose proof (ko_chars _ Hk) as Hc.
  unfold keys in Hc at 1. rewrite Hi in Hc. apply Forall_cons in Hc as [Hx Hc].
  rewrite (proj2 (Z.eqb_neq _ _)) by lia.
  specialize (IH (mk_kbd r (shift_down k) (caps_on k) (ext_pending k))).
  destruct (kbd_read_all n _) as [l k'] eqn:E. destruct IH as (-> & Hk' & He).
  { by constructor. } { unfold keys in *. cbn [k_ring]. rewrite Hi in Hl. simpl in Hl. lia. }
  split_and!; [|done|done]. unfold keys at 2. by rewrite Hi.
Qed.

(** typing any text of at most 255 characters the keyboard can
    produce, with caps lock on or off, whatever was typed and read before,
    makes kbd_getc deliver exactly that text and then 0. *)
Theorem type_then_read k s :
  ring_ok KBD_BUF_SIZE (k_ring k) → keys k = [] →
  ext_pending k = false → shift_down k = false →
  zlength s < KBD_BUF_SIZE → forallb typable s = true →
  (kbd_read_all 256 (kbd_feed k (type_text (caps_on k) s))).1 = s.
Proof.
  intros Hr Hk He Hs Hl Ht. destruct (type_text_ok s k) as [H1 H2]; try done.
  { constructor; [done|]. by rewrite Hk. } { rewrite Hk. unfold zlength in *. simpl. lia. }
  rewrite Hk in H2. cbn [app] in H2.
  pose proof (kbd_read_all_ok 256 _ H1) as Hra. rewrite H2 in Hra.
  specialize (Hra ltac:(unfold zlength, KBD_BUF_SIZE in *; lia)).
  destruct (kbd_read_all 256 _) as [l k']. by destruct Hra.
Qed.

Definition boot : kbd := mk_kbd (mk_ring (memset_buf 0 KBD_BUF_SIZE) 0 0) false true false.

Lemma type_then_read_witness :
  (kbd_read_all 256 (kbd_feed boot (type_text (caps_on boot) [72; 101; 108; 108; 111; 33; 10]))).1
    = [72; 101; 108; 108; 111; 33; 10].
Proof. apply type_then_read; [by apply ring_empty_ok|done|done|done|done|done]. Defined.

(** whatever bytes the controller sends, in whatever order they
    interleave with reads, the buffer indices stay inside the buffer, at
    most 255 keys are held, each is a 7-bit character, and a byte adds at
    most one key behind those already there. *)
Theorem kbd_irq_safe k codes code :
  ring_ok KBD_BUF_SIZE (k_ring k) → keys k = [] →
  let k1 := kbd_feed k codes in
  let k2 := kbd_irq (kbd_getc k1).2 code in
  ring_ok KBD_BUF_SIZE (k_ring k2) ∧ zlength (keys k2) ≤ 255 ∧
  Forall (λ c, 0 < c < 128) (keys k2) ∧
  ∃ l, keys k2 = tail (keys k1) ++ l ∧ (length l ≤ 1)%nat.
Proof.
  intros Hr Hk k1 k2. assert (kbd_ok k1) as Hk1.
  { unfold k1. assert (kbd_ok k) as Hok by (constructor; [done|by rewrite Hk]).
    clear Hr Hk k1 k2. revert k Hok. induction codes as [|c l IH]; intros k Hok; [done|].
    apply IH. by apply kbd_irq_ok. }
  assert (kbd_ok (kbd_getc k1).2 ∧ keys (kbd_getc k1).2 = tail (keys k1)) as [Hg Ht].
  { unfold kbd_getc. pose proof (ring_pop_spec KBD_BUF_SIZE kbd_size (k_ring k1) (ko_ring _ Hk1)) as Hp.
    destruct (ring_pop _ _) as [[x r]|]; simpl.
    - destruct Hp as [Hr1 Hi]. pose proof (ko_chars _ Hk1) as Hc. unfold keys in *. rewrite Hi in *.
      apply Forall_cons in Hc as [_ Hc]. by split; [constructor|].
    - split; [done|]. unfold keys in *. by rewrite Hp. }
  destruct (kbd_irq_ok _ code Hg) as [Hk2 (l & Hl & Hle)]. split_and!.
  - apply Hk2.
  - unfold keys. rewrite (length_ring_items _ kbd_size) by apply Hk2.
    pose proof (count_bound KBD_BUF_SIZE kbd_size (k_ring k2)) as Hcb. unfold KBD_BUF_SIZE in *. lia.
  - apply Hk2.
  - exists l. split; [|done]. by rewrite <- Ht.
Qed.

Lemma kbd_irq_safe_witness :
  zlength (keys (kbd_irq (kbd_getc (kbd_feed boot (replicate 300 0x1E))).2 0x30)) ≤ 255.
Proof. apply (kbd_irq_safe boot (replicate 300 0x1E) 0x30); [by apply ring_empty_ok|done]. Defined.
End Keyboard.
