(* ===== verification/Mouse.v ===== *)
(** * The PS/2 mouse driver (drivers/mouse.c)

    Packet assembly and position tracking in the interrupt handler.  The
    controller handshakes of mouse_init are port I/O and are not modelled. *)

From S2P Require Import Prelude.

Module Mouse.

Definition FB_WIDTH : Z := 1024.
Definition FB_HEIGHT : Z := 768.

Record mouse := mk_mouse {
  mx : Z; my : Z; mbuttons : Z; cycle : Z; pkt0 : Z; pkt1 : Z; pkt2 : Z }.

Definition process_packet (m : mouse) : mouse :=
  let flags := pkt0 m in
  if negb (Z.land flags 0xC0 =? 0) then m else
  let dx := pkt1 m - Z.land (Z.shiftl flags 4) 0x100 in
  let dy := pkt2 m - Z.land (Z.shiftl flags 3) 0x100 in
  let x := s32 (mx m + dx) in
  let y := s32 (my m - dy) in
  let x := if x <? 0 then 0 else x in
  let x := if x >? FB_WIDTH - 1 then FB_WIDTH - 1 else x in
  let y := if y <? 0 then 0 else y in
  let y := if y >? FB_HEIGHT - 1 then FB_HEIGHT - 1 else y in
  mk_mouse x y (Z.land flags 0x07) (cycle m) (pkt0 m) (pkt1 m) (pkt2 m).

(** [status] and [b]: what the two port reads return. *)
Definition mouse_irq (m : mouse) (status b : Z) : mouse :=
  if Z.land status 0x01 =? 0 then m else
  if cycle m =? 0 then
    if Z.land b 0x08 =? 0 then m
    else mk_mouse (mx m) (my m) (mbuttons m) 1 b (pkt1 m) (pkt2 m)
  else if cycle m =? 1 then
    mk_mouse (mx m) (my m) (mbuttons m) 2 (pkt0 m) b (pkt2 m)
  else process_packet (mk_mouse (mx m) (my m) (mbuttons m) 0 (pkt0 m) (pkt1 m) b).

Definition mouse_state (m : mouse) : Z * Z * Z := (mx m, my m, mbuttons m).

(** The state the loader leaves. *)
Definition boot : mouse := mk_mouse (FB_WIDTH / 2) (FB_HEIGHT / 2) 0 0 0 0 0.

Fixpoint mouse_feed (m : mouse) (events : list (Z * Z)) : mouse :=
  match events with [] => m | (st, b) :: l => mouse_feed (mouse_irq m st b) l end.

(** ** Specification: movements of a device *)

Record movement := mk_movement { dx : Z; dy : Z; buttons : Z }.

Definition movement_ok (p : movement) : bool :=
  (-256 <=? dx p) && (dx p <=? 255) && (-256 <=? dy p) && (dy p <=? 255) &&
  (0 <=? buttons p) && (buttons p <? 8).

(** The three bytes a PS/2 mouse sends for a movement. *)
Definition packet (p : movement) : list Z :=
  [buttons p + 8 + (if dx p <? 0 then 16 else 0) + (if dy p <? 0 then 32 else 0);
   u8 (dx p); u8 (dy p)].

Definition clamp (hi x : Z) : Z := Z.max 0 (Z.min hi x).

(** The screen position after a movement: right and up are positive. *)
Definition move (s : Z * Z * Z) (p : movement) : Z * Z * Z :=
  let '(x, y, _) := s in
  (clamp (FB_WIDTH - 1) (x + dx p), clamp (FB_HEIGHT - 1) (y - dy p), buttons p).

(** The data bytes among the interrupts: the others are spurious. *)
Definition delivered (events : list (Z * Z)) : list Z :=
  snd <$> filter (λ e, Z.land e.1 0x01 ≠ 0) events.

Record mouse_ok (m : mouse) : Prop := {
  mo_x : 0 ≤ mx m < FB_WIDTH;
  mo_y : 0 ≤ my m < FB_HEIGHT;
  mo_buttons : 0 ≤ mbuttons m < 8;
  mo_cycle : 0 ≤ cycle m < 3;
  mo_pkt : is_byte (pkt0 m) ∧ is_byte (pkt1 m) ∧ is_byte (pkt2 m);
}.

(** ** The flags byte *)

(** The sign bits are bits 4 and 5 of the flags. *)
Lemma sign_term x n i : 0 ≤ i → n = 8 - i → Z.land (Z.shiftl x n) 0x100 = if Z.testbit x i then 256 else 0.
Proof.
  intros Hi ->. apply Z.bits_inj'. intros k Hk. rewrite Z.land_spec.
  change 0x100 with (2 ^ 8). rewrite Z.pow2_bits_eqb by lia.
  destruct (Z.eqb_spec 8 k) as [<-|Hne].
  - rewrite Z.shiftl_spec by lia. replace (8 - (8 - i)) with i by lia. rewrite andb_true_r.
    by destruct (Z.testbit x i).
  - rewrite andb_false_r. destruct (Z.testbit x i); [|by rewrite Z.bits_0].
    change 256 with (2 ^ 8). rewrite Z.pow2_bits_eqb by lia. symmetry. by apply Z.eqb_neq.
Qed.

Definition flags_ok (b : Z) (sx sy : bool) : bool :=
  let f := b + 8 + (if sx then 16 else 0) + (if sy then 32 else 0) in
  negb (Z.land f 0x08 =? 0) && (Z.land f 0xC0 =? 0) && eqb (Z.testbit f 4) sx &&
  eqb (Z.testbit f 5) sy && (Z.land f 0x07 =? b).

Lemma flags_table :
  forallb (λ b, flags_ok b true true && flags_ok b true false && flags_ok b false true &&
                flags_ok b false false) (seqZ 0 8) = true.
Proof. by vm_compute. Qed.

Lemma flags_all b sx sy : 0 ≤ b < 8 → flags_ok b sx sy = true.
Proof.
  intros Hb. pose proof flags_table as Ht. rewrite forallb_forall in Ht.
  assert (b ∈ seqZ 0 8) as Hin by (apply elem_of_seqZ; lia).
  specialize (Ht b (proj1 (list_elem_of_In _ _) Hin)). simpl in Ht. boolp. by destruct sx, sy.
Qed.

(** ** Bounds *)

Lemma process_packet_ok m : mouse_ok m → mouse_ok (process_packet m).
Proof.
  intros [Hx Hy Hb Hc (H0 & H1 & H2)]. unfold process_packet. cbv zeta.
  destruct (negb (Z.land (pkt0 m) 192 =? 0)); [by constructor|].
  unfold FB_WIDTH, FB_HEIGHT in *. constructor; cbn [mx my mbuttons cycle pkt0 pkt1 pkt2].
  1,2: unfold FB_WIDTH, FB_HEIGHT; repeat case_if; lia.
  - change 0x07 with (Z.ones 3). rewrite Z.land_ones by lia. apply Z.mod_pos_bound. lia.
  - done.
  - done.
Qed.

Lemma mouse_irq_ok m st b : mouse_ok m → is_byte b → mouse_ok (mouse_irq m st b).
Proof.
  intros Hm Hb. unfold mouse_irq. destruct Hm as [Hx Hy Hbt Hc (H0 & H1 & H2)].
  repeat case_if; try apply process_packet_ok; constructor; cbn; (done || lia).
Qed.

Lemma boot_ok : mouse_ok boot.
Proof. constructor; unfold is_byte; vm_compute; repeat split; done. Qed.

(** whatever bytes arrive, in sync or not, the position that
    mouse_state reports is on the 1024x768 screen and the buttons are three
    bits. *)
Theorem mouse_on_screen events x y b :
  Forall (λ e, is_byte e.2) events → mouse_state (mouse_feed boot events) = (x, y, b) →
  0 ≤ x < FB_WIDTH ∧ 0 ≤ y < FB_HEIGHT ∧ 0 ≤ b < 8.
Proof.
  intros Hev Hs. assert (mouse_ok (mouse_feed boot events)) as Hm.
  { clear Hs. pose proof boot_ok as Hb.
    revert Hb Hev. generalize boot. induction events as [|[st c] l IH]; intros m Hm Hev; [done|].
    apply Forall_cons in Hev as [Hc Hl]. cbn [mouse_feed]. apply IH; [|done]. by apply mouse_irq_ok. }
  unfold mouse_state in Hs. simplify_eq. destruct Hm. done.
Qed.

Lemma mouse_on_screen_witness :
  0 ≤ 512 < FB_WIDTH ∧ 0 ≤ 767 < FB_HEIGHT ∧ 0 ≤ 0 < 8.
Proof.
  apply (mouse_on_screen (concat (replicate 3 [(1, 0x28); (0, 7); (1, 0); (1, 0)]))); [|by vm_compute].
  apply (bool_decide_unpack _). by vm_compute.
Defined.

(** ** Tracking *)

(** The three stages of a packet. *)
Lemma irq_first m st b :
  Z.land st 0x01 ≠ 0 → cycle m = 0 → Z.land b 0x08 ≠ 0 →
  mouse_irq m st b = mk_mouse (mx m) (my m) (mbuttons m) 1 b (pkt1 m) (pkt2 m).
Proof.
  intros Hs Hc Hb. unfold mouse_irq. by rewrite Hc, (proj2 (Z.eqb_neq _ _) Hs), (proj2 (Z.eqb_neq _ _) Hb).
Qed.

Lemma irq_second m st b :
  Z.land st 0x01 ≠ 0 → cycle m = 1 →
  mouse_irq m st b = mk_mouse (mx m) (my m) (mbuttons m) 2 (pkt0 m) b (pkt2 m).
Proof. intros Hs Hc. unfold mouse_irq. by rewrite Hc, (proj2 (Z.eqb_neq _ _) Hs). Qed.

Lemma irq_third m st b :
  Z.land st 0x01 ≠ 0 → cycle m = 2 →
  mouse_irq m st b = process_packet (mk_mouse (mx m) (my m) (mbuttons m) 0 (pkt0 m) (pkt1 m) b).
Proof. intros Hs Hc. unfold mouse_irq. by rewrite Hc, (proj2 (Z.eqb_neq _ _) Hs). Qed.

(** A whole packet, starting in sync. *)
Lemma packet_tracked m p s1 s2 s3 :
  mouse_ok m → cycle m = 0 → movement_ok p = true →
  Z.land s1 0x01 ≠ 0 → Z.land s2 0x01 ≠ 0 → Z.land s3 0x01 ≠ 0 →
  ∀ b1 b2 b3, packet p = [b1; b2; b3] →
  let m' := mouse_irq (mouse_irq (mouse_irq m s1 b1) s2 b2) s3 b3 in
  mouse_ok m' ∧ cycle m' = 0 ∧ mouse_state m' = move (mouse_state m) p.
Proof.
  intros Hm Hc Hp H1 H2 H3 b1 b2 b3 [= <- <- <-] m'. unfold movement_ok in Hp. boolp.
  set (sx := dx p <? 0) in *. set (sy := dy p <? 0) in *.
  pose proof (flags_all (buttons p) sx sy ltac:(lia)) as Hf.
  set (f := buttons p + 8 + (if sx then 16 else 0) + (if sy then 32 else 0)) in *.
  assert (is_byte f) by (unfold f, is_byte; destruct sx, sy; lia).
  unfold flags_ok in Hf. fold f in Hf. boolp.
  assert (mouse_ok m') as Hm' by (repeat apply mouse_irq_ok; first [done|apply u8_range]).
  split; [done|]. destruct Hm as [Hx Hy _ _ _]. unfold FB_WIDTH, FB_HEIGHT in *.
  unfold m'. rewrite (irq_first _ s1), (irq_second _ s2), (irq_third _ s3) by done.
  cbn [mx my mbuttons cycle pkt0 pkt1 pkt2].
  unfold process_packet. cbn [cycle mx my mbuttons pkt0 pkt1 pkt2].
  rewrite (proj2 (Z.eqb_eq (Z.land f 0xC0) 0)) by done. cbn [negb].
  rewrite (sign_term f 4 4), (sign_term f 3 5) by lia.
  assert (Z.testbit f 4 = sx) as -> by by apply eqb_prop.
  assert (Z.testbit f 5 = sy) as -> by by apply eqb_prop.
  assert (u8 (dx p) - (if sx then 256 else 0) = dx p) as ->.
  { unfold sx, u8. destruct (Z.ltb_spec (dx p) 0); zdm. }
  assert (u8 (dy p) - (if sy then 256 else 0) = dy p) as ->.
  { unfold sy, u8. destruct (Z.ltb_spec (dy p) 0); zdm. }
  split; [done|]. unfold mouse_state, move, clamp. cbn [mx my mbuttons].
  rewrite !s32_id by lia. unfold FB_WIDTH, FB_HEIGHT. 
  f_equal; [f_equal|done];
    match goal with |- context [if ?z <? 0 then _ else _] => destruct (Z.ltb_spec z 0) end; case_if; lia.
Qed.

(** Spurious interrupts change nothing. *)
Lemma mouse_feed_spurious events m :
  mouse_feed m events = mouse_feed m ((λ b, (1, b)) <$> delivered events).
Proof.
  revert m. unfold delivered. induction events as [|[st b] l IH]; intros m; [done|].
  rewrite filter_cons. cbn [mouse_feed fst]. destruct (decide (Z.land st 1 ≠ 0)) as [Hd|Hd].
  - cbn. rewrite IH. f_equal. unfold mouse_irq. by rewrite (proj2 (Z.eqb_neq _ _) Hd).
  - rewrite IH. f_equal. unfold mouse_irq. destruct (Z.eqb_spec (Z.land st 1) 0); done.
Qed.

Lemma packets_tracked ps m :
  mouse_ok m → cycle m = 0 → forallb movement_ok ps = true →
  mouse_state (mouse_feed m ((λ b, (1, b)) <$> concat (packet <$> ps))) = fold_left move ps (mouse_state m).
Proof.
  revert m. induction ps as [|p ps IH]; intros m Hm Hc Hp; [done|].
  cbn [forallb] in Hp. apply andb_prop in Hp as [Hp Hps].
  rewrite fmap_cons. cbn [concat packet app fmap list_fmap mouse_feed fold_left].
  destruct (packet_tracked m p 1 1 1 Hm Hc Hp ltac:(done) ltac:(done) ltac:(done) _ _ _ eq_refl) as (H1 & H2 & H3).
  rewrite <- H3. by apply IH.
Qed.

(** if the bytes that arrive (between any number of spurious
    interrupts) are the packets of a sequence of movements, mouse_state
    reports the position and buttons those movements lead to, clamped to
    the screen after each. *)
Theorem mouse_tracks m events ps :
  mouse_ok m → cycle m = 0 → forallb movement_ok ps = true →
  delivered events = concat (packet <$> ps) →
  mouse_state (mouse_feed m events) = fold_left move ps (mouse_state m).
Proof. intros Hm Hc Hp Hd. rewrite mouse_feed_spurious, Hd. by apply packets_tracked. Qed.

Lemma mouse_tracks_witness :
  mouse_state (mouse_feed boot [(1, 0x19); (0, 3); (1, 0xF0); (1, 5); (1, 8); (1, 255); (1, 0)])
    = (751, 379, 0).
Proof.
  rewrite (mouse_tracks boot _ [mk_movement (-16) 5 1; mk_movement 255 0 0]);
    [by vm_compute|apply boot_ok|done|done|by vm_compute].
Defined.
End Mouse.
