(* ===== verification/Rtc.v ===== *)
(** * The real-time clock (drivers/rtc.c)

    The CMOS chip is a parameter: [cmos t reg] is what the [t]-th port access
    returns when it reads [reg].  rtc_init spins, so it takes fuel; the
    theorems show how much is enough. *)

From S2P Require Import Prelude.

Module Rtc.

Definition REG_SECONDS : Z := 0x00.
Definition REG_MINUTES : Z := 0x02.
Definition REG_HOURS : Z := 0x04.
Definition REG_DAY : Z := 0x07.
Definition REG_MONTH : Z := 0x08.
Definition REG_YEAR : Z := 0x09.
Definition REG_STATUS_A : Z := 0x0A.
Definition REG_STATUS_B : Z := 0x0B.
Definition PIT_HZ : Z := 200.

Definition days_from_civil (y m d : Z) : Z :=
  let y := u32 (y - (if m <=? 2 then 1 else 0)) in
  let era := y / 400 in
  let yoe := u32 (y - u32 (era * 400)) in
  let doy := u32 (u32 (u32 (u32 (153 * (if m >? 2 then u32 (m - 3) else u32 (m + 9))) + 2) / 5 + d) - 1) in
  let doe := u32 (u32 (u32 (u32 (yoe * 365) + yoe / 4) - yoe / 100) + doy) in
  u32 (u32 (u32 (era * 146097) + doe) - 719468).

Record regs := mk_regs { sec : Z; min : Z; hour : Z; day : Z; month : Z; year : Z }.

Definition regs_differ (a b : regs) : bool :=
  negb (sec a =? sec b) || negb (min a =? min b) || negb (hour a =? hour b) ||
  negb (day a =? day b) || negb (month a =? month b) || negb (year a =? year b).

(** ** Reading the chip *)
Section cmos.
Context (cmos : nat → Z → Z).

Definition cmos_read (reg : Z) : ST nat Z := λ t, (cmos t reg, S t).

Definition update_in_progress : ST nat bool :=
  b ← cmos_read REG_STATUS_A; mret (negb (Z.land b 0x80 =? 0)).

(** [while (update_in_progress()) {}]; [false]: still spinning. *)
Fixpoint wait_update (fuel : nat) : ST nat bool :=
  match fuel with
  | O => mret false
  | S n => b ← update_in_progress; if b : bool then wait_update n else mret true
  end.

Definition read_regs : ST nat regs :=
  s ← cmos_read REG_SECONDS;
  mi ← cmos_read REG_MINUTES;
  h ← cmos_read REG_HOURS;
  d ← cmos_read REG_DAY;
  mo ← cmos_read REG_MONTH;
  y ← cmos_read REG_YEAR;
  mret (mk_regs s mi h d mo y).

(** The do-while loop of rtc_init: [wait] bounds each spin. *)
Fixpoint read_stable (fuel wait : nat) : ST nat (option regs) :=
  match fuel with
  | O => mret None
  | S n =>
      ok ← wait_update wait;
      if negb ok then mret None else
      a ← read_regs;
      ok ← wait_update wait;
      if negb ok then mret None else
      b ← read_regs;
      if regs_differ a b then read_stable n wait else mret (Some a)
  end.

Definition from_bcd (x : Z) : Z := u8 (Z.land x 0x0F + Z.shiftr x 4 * 10).

Definition decode_bcd (r : regs) (status_b : Z) : regs :=
  if Z.land status_b 0x04 =? 0 then
    mk_regs (from_bcd (sec r)) (from_bcd (min r))
      (u8 (Z.lor (Z.land (hour r) 0x0F + Z.shiftr (Z.land (hour r) 0x70) 4 * 10)
                 (Z.land (hour r) 0x80)))
      (from_bcd (day r)) (from_bcd (month r)) (from_bcd (year r))
  else r.

Definition decode_hour (h status_b : Z) : Z :=
  if Z.land status_b 0x02 =? 0 then
    let pm := Z.land h 0x80 in
    let h := Z.land h 0x7F in
    let h := if h =? 12 then 0 else h in
    if negb (pm =? 0) then u8 (h + 12) else h
  else Z.land h 0x7F.

(** From the registers to [boot_unix]; an implausible date leaves it
    alone. *)
Definition boot_time (r : regs) (status_b boot_unix : Z) : Z :=
  let r := decode_bcd r status_b in
  let h := decode_hour (hour r) status_b in
  if (month r <? 1) || (month r >? 12) || (day r <? 1) || (day r >? 31) ||
     (h >? 23) || (min r >? 59) || (sec r >? 59)
  then boot_unix
  else u32 (u32 (u32 (u32 (days_from_civil (2000 + year r) (month r) (day r) * 86400)
                      + u32 (h * 3600)) + u32 (min r * 60)) + sec r).

(** The new [boot_unix]; [None]: the fuel ran out. *)
Definition rtc_init (fuel wait : nat) (boot_unix : Z) : ST nat (option Z) :=
  r ← read_stable fuel wait;
  match r with
  | None => mret None
  | Some r => status_b ← cmos_read REG_STATUS_B; mret (Some (boot_time r status_b boot_unix))
  end.
End cmos.

Definition rtc_unix_time (boot_unix timer_ticks : Z) : Z :=
  if boot_unix =? 0 then 0 else u32 (boot_unix + timer_ticks / PIT_HZ).

(** ** The calendar *)

Definition leap (y : Z) : bool := (y mod 4 =? 0) && (negb (y mod 100 =? 0) || (y mod 400 =? 0)).

Definition month_days (y m : Z) : Z :=
  if m =? 2 then (if leap y then 29 else 28)
  else if (m =? 4) || (m =? 6) || (m =? 9) || (m =? 11) then 30 else 31.

(** Days from 1970-01-01 to the first of January [n] years later. *)
Fixpoint year_start (n : nat) : Z :=
  match n with
  | O => 0
  | S k => year_start k + (if leap (1970 + Z.of_nat k) then 366 else 365)
  end.

(** Days from the first of January to the first of month [1 + n]. *)
Fixpoint month_start (y : Z) (n : nat) : Z :=
  match n with O => 0 | S k => month_start y k + month_days y (1 + Z.of_nat k) end.

Definition calendar_days (y m d : Z) : Z :=
  year_start (Z.to_nat (y - 1970)) + month_start y (Z.to_nat (m - 1)) + (d - 1).

Definition leaps (y : Z) : Z := y / 4 - y / 100 + y / 400.

Lemma leaps_succ y : leaps y = leaps (y - 1) + (if leap y then 1 else 0).
Proof.
  unfold leaps, leap.
  destruct (Z.eqb_spec (y mod 4) 0), (Z.eqb_spec (y mod 100) 0), (Z.eqb_spec (y mod 400) 0);
    cbn [andb orb negb]; zdm.
Qed.

Lemma year_start_closed n :
  year_start n = 365 * Z.of_nat n + leaps (1969 + Z.of_nat n) - leaps 1969.
Proof.
  induction n as [|n IH]; [done|]. cbn [year_start]. rewrite IH.
  rewrite (leaps_succ (1969 + Z.of_nat (S n))).
  replace (1969 + Z.of_nat (S n)) with (1970 + Z.of_nat n) by lia.
  replace (1970 + Z.of_nat n - 1) with (1969 + Z.of_nat n) by lia.
  destruct (leap (1970 + Z.of_nat n)); lia.
Qed.

(** The year part of the algorithm, years starting in March. *)
Lemma era_years y :
  y / 400 * 146097 + ((y - y / 400 * 400) * 365 + (y - y / 400 * 400) / 4 - (y - y / 400 * 400) / 100)
    = 365 * y + leaps y.
Proof. unfold leaps. zdm. Qed.

Lemma days_from_civil_wide y m d :
  1970 ≤ y < 5000000 → 1 ≤ m ≤ 12 → 1 ≤ d ≤ 31 →
  days_from_civil y m d =
    let y' := y - (if m <=? 2 then 1 else 0) in
    365 * y' + leaps y' + ((153 * (if m >? 2 then m - 3 else m + 9) + 2) / 5 + d - 1) - 719468.
Proof.
  intros Hy Hm Hd. cbv zeta. rewrite <- era_years. unfold days_from_civil. cbv zeta.
  set (b := if m <=? 2 then 1 else 0). assert (0 ≤ b ≤ 1) by (unfold b; case_if; lia).
  rewrite (u32_small (y - b)) by lia. set (y' := y - b). assert (1969 ≤ y' < 5000000) by (unfold y'; lia).
  assert (0 ≤ y' / 400 ∧ y' / 400 * 400 ≤ y' < y' / 400 * 400 + 400) as Hera by zdm.
  rewrite (u32_small (y' / 400 * 400)) by lia. set (yoe := y' - y' / 400 * 400) in *.
  assert (0 ≤ yoe < 400) by (unfold yoe; lia). rewrite (u32_small yoe) by lia.
  set (mp := if m >? 2 then u32 (m - 3) else u32 (m + 9)).
  assert (mp = (if m >? 2 then m - 3 else m + 9) ∧ 0 ≤ mp ≤ 11) as [<- Hmp].
  { unfold mp. case_if; rewrite u32_small by lia; lia. }
  assert (0 ≤ (153 * mp + 2) / 5 ≤ 400) by zdm.
  assert (0 ≤ yoe / 4 ≤ 100 ∧ 0 ≤ yoe / 100 ≤ yoe / 4) by zdm.
  rewrite (u32_small (153 * mp)), (u32_small (153 * mp + 2)) by lia.
  rewrite (u32_small ((153 * mp + 2) / 5 + d)), (u32_small ((153 * mp + 2) / 5 + d - 1)) by lia.
  rewrite (u32_small (yoe * 365)), (u32_small (yoe * 365 + yoe / 4)) by lia.
  rewrite (u32_small (_ - yoe / 100)), (u32_small (_ + ((153 * mp + 2) / 5 + d - 1))) by lia.
  rewrite (u32_small (y' / 400 * 146097)) by lia.
  assert (365 * 1969 ≤ y' / 400 * 146097 + yoe * 365 < 2000000000) by (unfold yoe; lia).
  rewrite (u32_small (y' / 400 * 146097 + _)) by lia.
  assert (719468 ≤ 365 * y' + leaps y' + ((153 * mp + 2) / 5 + d - 1)) as Hepoch.
  { assert (477 ≤ leaps y') by (unfold leaps; zdm).
    assert (b = 0 ∨ 10 ≤ mp) as [Hb|Hb] by (unfold b, mp; repeat case_if; rewrite ?u32_small by lia; lia).
    - unfold y' in *. lia.
    - assert (306 ≤ (153 * mp + 2) / 5) by zdm. lia. }
  rewrite <- era_years in Hepoch. fold yoe in Hepoch. rewrite u32_small by lia. lia.
Qed.

(** days_from_civil counts the days of the Gregorian calendar since
    1970-01-01, for every date up to the year five million. *)
Theorem days_from_civil_correct y m d :
  1970 ≤ y < 5000000 → 1 ≤ m ≤ 12 → 1 ≤ d ≤ 31 →
  days_from_civil y m d = calendar_days y m d.
Proof.
  intros Hy Hm Hd. rewrite days_from_civil_wide by done. unfold calendar_days.
  rewrite year_start_closed. replace (1969 + Z.of_nat (Z.to_nat (y - 1970))) with (y - 1) by lia.
  replace (Z.of_nat (Z.to_nat (y - 1970))) with (y - 1970) by lia.
  change (leaps 1969) with 477. pose proof (leaps_succ y) as Hl.
  assert (m = 1 ∨ m = 2 ∨ m = 3 ∨ m = 4 ∨ m = 5 ∨ m = 6 ∨ m = 7 ∨ m = 8 ∨ m = 9 ∨ m = 10 ∨ m = 11 ∨ m = 12)
    as Hcases by lia.
  assert (month_start y 2 = if leap y then 60 else 59) as Hfeb.
  { unfold month_start, month_days. simpl. by destruct (leap y). }
  assert (∀ k, month_start y (2 + k) = month_start y 2 + month_start 1 (2 + k) - 59) as Hmar.
  { induction k as [|k IH]; [change (month_start 1 (2 + 0)) with 59; change (2 + 0)%nat with 2%nat; lia|].
    change (month_start ?z (2 + S k)) with (month_start z (2 + k) + month_days z (1 + Z.of_nat (2 + k))).
    unfold month_days. rewrite (proj2 (Z.eqb_neq (1 + Z.of_nat (2 + k)) 2)) by lia. lia. }
  destruct Hcases as [->|[->|Hcases]].
  - change (month_start y (Z.to_nat (1 - 1))) with 0. cbn -[leaps Z.mul Z.add Z.sub Z.div].
    change ((153 * (1 + 9) + 2) / 5) with 306. lia.
  - change (month_start y (Z.to_nat (2 - 1))) with 31. cbn -[leaps Z.mul Z.add Z.sub Z.div].
    change ((153 * (2 + 9) + 2) / 5) with 337. lia.
  - replace (Z.to_nat (m - 1)) with (2 + Z.to_nat (m - 3))%nat by lia. rewrite Hmar, Hfeb.
    rewrite (proj2 (Z.leb_gt m 2)), Z.sub_0_r, (proj2 (Z.gtb_lt m 2)) by lia.
    assert (month_start 1 (2 + Z.to_nat (m - 3)) = 59 + (153 * (m - 3) + 2) / 5) as ->.
    { repeat destruct Hcases as [->|Hcases]; try (subst m); by vm_compute. }
    destruct (leap y); lia.
Qed.

Lemma days_from_civil_correct_witness : days_from_civil 2024 2 29 = 19782.
Proof. rewrite days_from_civil_correct by lia. by vm_compute. Defined.

(** ** What a chip that keeps time shows *)

Record instant := mk_instant {
  i_year : Z; i_month : Z; i_day : Z; i_hour : Z; i_min : Z; i_sec : Z }.

Definition instant_ok (i : instant) : bool :=
  (2000 <=? i_year i) && (i_year i <=? 2099) && (1 <=? i_month i) && (i_month i <=? 12) &&
  (1 <=? i_day i) && (i_day i <=? month_days (i_year i) (i_month i)) &&
  (0 <=? i_hour i) && (i_hour i <=? 23) && (0 <=? i_min i) && (i_min i <=? 59) &&
  (0 <=? i_sec i) && (i_sec i <=? 59).

(** Seconds since the epoch. *)
Definition unix_time (i : instant) : Z :=
  calendar_days (i_year i) (i_month i) (i_day i) * 86400
    + i_hour i * 3600 + i_min i * 60 + i_sec i.

Definition to_bcd (x : Z) : Z := x / 10 * 16 + x mod 10.

(** The registers in the format the bits of status B select: binary or
    BCD, 24-hour or 12-hour with a PM flag. *)
Definition encode (status_b : Z) (i : instant) : regs :=
  let num x := if Z.land status_b 0x04 =? 0 then to_bcd x else x in
  let h := if Z.land status_b 0x02 =? 0
           then num (if i_hour i mod 12 =? 0 then 12 else i_hour i mod 12)
                + (if i_hour i >=? 12 then 0x80 else 0)
           else num (i_hour i) in
  mk_regs (num (i_sec i)) (num (i_min i)) h (num (i_day i)) (num (i_month i))
    (num (i_year i - 2000)).

Definition reg_of (r : regs) (reg : Z) : Z :=
  if reg =? REG_SECONDS then sec r else if reg =? REG_MINUTES then min r
  else if reg =? REG_HOURS then hour r else if reg =? REG_DAY then day r
  else if reg =? REG_MONTH then month r else year r.

Lemma bcd_table : forallb (λ x, from_bcd (to_bcd x) =? x) (seqZ 0 100) = true.
Proof. by vm_compute. Qed.

Lemma from_to_bcd x : 0 ≤ x < 100 → from_bcd (to_bcd x) = x.
Proof.
  intros Hx. pose proof bcd_table as Ht. rewrite forallb_forall in Ht.
  assert (x ∈ seqZ 0 100) as Hin by (apply elem_of_seqZ; lia).
  specialize (Ht x (proj1 (list_elem_of_In _ _) Hin)). simpl in Ht. by boolp.
Qed.

(** The hour in the four formats: [b4] and [b2] stand for the bits of
    status B. *)
Lemma hour_table :
  forallb (λ h, forallb (λ sb,
    decode_hour (hour (decode_bcd (encode sb (mk_instant 2000 1 1 h 0 0)) sb)) sb =? h) [0; 2; 4; 6])
    (seqZ 0 24) = true.
Proof. by vm_compute. Qed.

(** Only the two format bits of status B matter. *)
Definition fmt (sb : Z) : Z :=
  (if Z.land sb 0x04 =? 0 then 0 else 4) + (if Z.land sb 0x02 =? 0 then 0 else 2).

Lemma fmt_cases sb : fmt sb ∈ [0; 2; 4; 6].
Proof. unfold fmt. repeat case_if; repeat constructor. Qed.

Lemma fmt_bits sb :
  (Z.land (fmt sb) 0x04 =? 0) = (Z.land sb 0x04 =? 0) ∧ (Z.land (fmt sb) 0x02 =? 0) = (Z.land sb 0x02 =? 0).
Proof. unfold fmt. by destruct (Z.land sb 4 =? 0), (Z.land sb 2 =? 0). Qed.

Lemma decode_hour_ok sb i :
  0 ≤ i_hour i ≤ 23 → decode_hour (hour (decode_bcd (encode sb i) sb)) sb = i_hour i.
Proof.
  intros Hh. pose proof hour_table as Ht. rewrite forallb_forall in Ht.
  assert (i_hour i ∈ seqZ 0 24) as Hin by (apply elem_of_seqZ; lia).
  specialize (Ht _ (proj1 (list_elem_of_In _ _) Hin)). cbv beta in Ht. rewrite forallb_forall in Ht.
  specialize (Ht _ (proj1 (list_elem_of_In _ _) (fmt_cases sb))). boolp.
  destruct (fmt_bits sb) as [H4 H2].
  unfold decode_hour, decode_bcd, encode in *. rewrite H4, H2 in Ht.
  etrans; [|exact Ht]. cbv zeta. destruct (Z.land sb 4 =? 0); reflexivity.
Qed.

Lemma decode_bcd_ok sb i :
  instant_ok i = true →
  let r := decode_bcd (encode sb i) sb in
  sec r = i_sec i ∧ min r = i_min i ∧ day r = i_day i ∧ month r = i_month i ∧ year r = i_year i - 2000.
Proof.
  intros Hi. unfold instant_ok in Hi. boolp.
  assert (month_days (i_year i) (i_month i) ≤ 31) by (unfold month_days; repeat case_if; lia).
  unfold decode_bcd, encode. cbv zeta. destruct (Z.land sb 4 =? 0); [|done].
  cbn [sec min day month year]. rewrite !from_to_bcd by lia. done.
Qed.

Lemma month_start_bound y n : 0 ≤ month_start y n ≤ 31 * Z.of_nat n.
Proof.
  induction n as [|n IH]; cbn [month_start]; [lia|]. unfold month_days. repeat case_if; lia.
Qed.

(** The registers of a date of this century give its Unix time. *)
Lemma boot_time_ok sb i old :
  instant_ok i = true → boot_time (encode sb i) sb old = unix_time i.
Proof.
  intros Hi. destruct (decode_bcd_ok sb i Hi) as (Hs & Hmi & Hd & Hm & Hy).
  pose proof Hi as Hi'. unfold instant_ok in Hi'. boolp.
  assert (month_days (i_year i) (i_month i) ≤ 31) by (unfold month_days; repeat case_if; lia).
  unfold boot_time. rewrite decode_hour_ok by lia. rewrite Hs, Hmi, Hd, Hm, Hy.
  repeat match goal with |- context [?a >? ?b] => rewrite (Z.gtb_ltb a b) end.
  rewrite !(proj2 (Z.ltb_ge _ _)) by lia. cbn [orb].
  replace (2000 + (i_year i - 2000)) with (i_year i) by lia.
  rewrite days_from_civil_correct by lia. unfold unix_time.
  assert (0 ≤ calendar_days (i_year i) (i_month i) (i_day i) < 48000).
  { unfold calendar_days. rewrite year_start_closed.
    pose proof (month_start_bound (i_year i) (Z.to_nat (i_month i - 1))).
    change (leaps 1969) with 477. unfold leaps. zdm. }
  set (days := calendar_days (i_year i) (i_month i) (i_day i)) in *.
  rewrite (u32_small (days * 86400)), (u32_small (i_hour i * 3600)), (u32_small (i_min i * 60)) by lia.
  rewrite (u32_small (days * 86400 + _)), (u32_small (days * 86400 + _ + _)), u32_small by lia. lia.
Qed.

(** A chip that shows [i1] before its [T]-th access and [i2] from then on:
    a clock tick may fall anywhere, also between two register reads. *)
Record ticking (cmos : nat → Z → Z) (T : nat) (status_b : Z) (i1 i2 : instant) (W : nat) : Prop := {
  ti_regs : ∀ t reg, reg ≠ REG_STATUS_A → reg ≠ REG_STATUS_B →
    cmos t reg = reg_of (encode status_b (if decide (t < T)%nat then i1 else i2)) reg;
  ti_status : ∀ t, cmos t REG_STATUS_B = status_b;
  (** the update-in-progress flag never stays up for [W] accesses *)
  ti_update : ∀ t, ∃ n, (n < W)%nat ∧ Z.land (cmos (t + n)%nat REG_STATUS_A) 0x80 = 0;
}.

Section reading.
Context {cmos : nat → Z → Z} {T : nat} {status_b : Z} {i1 i2 : instant} {W : nat}.
Context (Hc : ticking cmos T status_b i1 i2 W).

Lemma wait_update_ok t : ∃ t', wait_update cmos W t = (true, t') ∧ (t < t')%nat.
Proof using Hc.
  destruct (ti_update _ _ _ _ _ _ Hc t) as (n & Hn & Hz).
  clear Hc. revert t n Hn Hz. induction W as [|w IH]; intros t n Hn Hz; [lia|].
  cbn [wait_update]. unfold mbind, ST_bind, update_in_progress, cmos_read, mbind, ST_bind, mret, ST_ret.
  destruct (Z.eqb_spec (Z.land (cmos t REG_STATUS_A) 128) 0) as [He|He]; cbn.
  - eexists. split; [done|lia].
  - destruct n as [|n]; [by rewrite Nat.add_0_r in Hz|].
    destruct (IH (S t) n) as (t' & Ht' & Hlt); [lia|by rewrite Nat.add_succ_l, <- Nat.add_succ_r|].
    exists t'. split; [exact Ht'|lia].
Qed.

(** A pass over the registers that the tick does not interrupt. *)
Lemma read_regs_before t :
  (t + 6 ≤ T)%nat → read_regs cmos t = (encode status_b i1, (6 + t)%nat).
Proof using Hc.
  intros Ht. unfold read_regs, mbind, ST_bind, cmos_read, mret, ST_ret.
  rewrite !(ti_regs _ _ _ _ _ _ Hc) by done. rewrite !decide_True by lia.
  by destruct (encode status_b i1).
Qed.

Lemma read_regs_after t :
  (T ≤ t)%nat → read_regs cmos t = (encode status_b i2, (6 + t)%nat).
Proof using Hc.
  intros Ht. unfold read_regs, mbind, ST_bind, cmos_read, mret, ST_ret.
  rewrite !(ti_regs _ _ _ _ _ _ Hc) by done. rewrite !decide_False by lia.
  by destruct (encode status_b i2).
Qed.

Lemma read_regs_time t : ∃ r, read_regs cmos t = (r, (6 + t)%nat).
Proof. unfold read_regs, mbind, ST_bind, cmos_read, mret, ST_ret. by eexists. Qed.

Lemma regs_agree a b : regs_differ a b = false → a = b.
Proof. unfold regs_differ. destruct a, b. cbn. intros H. boolp. by subst. Qed.

Lemma regs_same a : regs_differ a a = false.
Proof. unfold regs_differ. by rewrite !Z.eqb_refl. Qed.

(** Two iterations are enough, and what they agree on was never torn. *)
Lemma read_stable_ok t :
  ∃ r t', read_stable cmos 2 W t = (Some r, t') ∧ (r = encode status_b i1 ∨ r = encode status_b i2).
Proof using Hc.
  assert (∀ n t, (T ≤ t)%nat →
    ∃ t', read_stable cmos (S n) W t = (Some (encode status_b i2), t')) as Hafter.
  { intros n u Hu. cbn [read_stable]. unfold mbind, ST_bind at 1.
    destruct (wait_update_ok u) as (u1 & -> & Hu1). cbn [negb]. unfold ST_bind at 1.
    rewrite read_regs_after by lia. unfold ST_bind at 1.
    destruct (wait_update_ok (6 + u1)) as (u2 & -> & Hu2). cbn [negb]. unfold ST_bind.
    rewrite read_regs_after by lia. rewrite regs_same. by eexists. }
  cbn [read_stable]. unfold mbind, ST_bind at 1.
  destruct (wait_update_ok t) as (t1 & -> & Ht1). cbn [negb]. unfold ST_bind at 1.
  destruct (read_regs_time t1) as [a Ha]. rewrite Ha. unfold ST_bind at 1.
  destruct (wait_update_ok (6 + t1)) as (t2 & -> & Ht2). cbn [negb]. unfold ST_bind at 1.
  destruct (read_regs_time t2) as [b Hb]. rewrite Hb.
  destruct (regs_differ a b) eqn:Hd.
  - assert (T ≤ 6 + t2)%nat as HT.
    { destruct (decide (T ≤ 6 + t2)%nat) as [|Hn]; [done|].
      rewrite read_regs_before in Ha, Hb by lia. simplify_eq. by rewrite regs_same in Hd. }
    destruct (Hafter 0%nat _ HT) as [t' Ht']. eexists _, _. split; [exact Ht'|]. by right.
  - apply regs_agree in Hd as <-. eexists _, _. split; [reflexivity|].
    destruct (decide (T ≤ t2)%nat).
    + rewrite read_regs_after in Hb by lia. simplify_eq. by right.
    + rewrite read_regs_before in Ha by lia. simplify_eq. by left.
Qed.
End reading.

(** C35: rtc_init never takes a torn date.  In whatever format the chip
    keeps its registers, wherever its clock ticks from [i1] to [i2] during
    the reads, the boot loop ends within two rounds and the boot time is
    the Unix time of [i1] or that of [i2]; the wall clock then runs from it
    by the timer interrupts. *)
Theorem rtc_init_never_torn cmos T status_b i1 i2 W old t ticks :
  ticking cmos T status_b i1 i2 W → instant_ok i1 = true → instant_ok i2 = true →
  0 ≤ ticks < 10000000000 →
  ∃ boot t', rtc_init cmos 2 W old t = (Some boot, t') ∧
    (boot = unix_time i1 ∨ boot = unix_time i2) ∧
    (unix_time i1 + ticks / PIT_HZ < 4294967296 → unix_time i2 + ticks / PIT_HZ < 4294967296 →
     boot ≠ 0 → rtc_unix_time boot ticks = boot + ticks / PIT_HZ).
Proof.
  intros Hc H1 H2 Htk. destruct (read_stable_ok Hc t) as (r & t' & Hr & Hd).
  unfold rtc_init, mbind, ST_bind at 1. rewrite Hr. cbn.
  rewrite (ti_status _ _ _ _ _ _ Hc). eexists _, _. split; [done|].
  assert (∀ i, instant_ok i = true → 0 ≤ unix_time i) as Hpos.
  { intros i Hi. pose proof (boot_time_ok 0 i 0 Hi) as <-. unfold boot_time. cbv zeta. case_if; [lia|].
    apply u32_range. }
  destruct Hd as [->| ->]; rewrite boot_time_ok by done;
    (split; [by auto|]); intros B1 B2 Hnz; unfold rtc_unix_time;
    rewrite (proj2 (Z.eqb_neq _ _) Hnz), u32_small; try done; (split; [|done]);
    [pose proof (Hpos i1 H1)|pose proof (Hpos i2 H2)];
    assert (0 ≤ ticks / PIT_HZ) by (apply Z.div_pos; unfold PIT_HZ; lia); lia.
Qed.

(** New Year 2025 in BCD and 12-hour format, the tick in the middle of the
    first pass over the registers. *)
Definition demo_cmos (t : nat) (reg : Z) : Z :=
  if reg =? REG_STATUS_B then 0
  else if reg =? REG_STATUS_A then (if decide (t = 0)%nat then 0x80 else 0)
  else reg_of (encode 0 (if decide (t < 4)%nat then mk_instant 2024 12 31 23 59 59
                         else mk_instant 2025 1 1 0 0 0)) reg.

Lemma rtc_init_never_torn_witness :
  (∃ boot t', rtc_init demo_cmos 2 2 0 0%nat = (Some boot, t') ∧
    (boot = 1735689599 ∨ boot = 1735689600)) ∧
  (rtc_init demo_cmos 2 2 0 0%nat).1 = Some 1735689600.
Proof.
  split; [|by vm_compute].
  destruct (rtc_init_never_torn demo_cmos 4 0 (mk_instant 2024 12 31 23 59 59)
    (mk_instant 2025 1 1 0 0 0) 2 0 0%nat 0) as (boot & t' & Hb & Hd & _); [|by vm_compute|by vm_compute|lia|].
  - constructor.
    + intros t reg Ha Hb. unfold demo_cmos. by rewrite !(proj2 (Z.eqb_neq _ _)).
    + done.
    + intros t. exists 1%nat. split; [lia|]. unfold demo_cmos. simpl. rewrite decide_False by lia. done.
  - exists boot, t'. split; [done|]. exact Hd.
Defined.
End Rtc.
