(* ===== verification/CString.v ===== *)
(** * Memory and string routines (kernel/string.c, first part)

    Memory is one flat array of bytes, so that the copies behave on
    overlapping ranges as the code does.  The [str] loops take fuel, which
    the theorems show to be enough when the string is terminated. *)

From S2P Require Import Prelude.

Module CString.

(** ** Operations *)

(** [for (; n != 0; n--) *dp++ = *sp++]. *)
Fixpoint memcpy (mem : list Z) (dst src : Z) (n : nat) : list Z :=
  match n with
  | O => mem
  | S n' => memcpy (bset mem dst (bget mem src)) (dst + 1) (src + 1) n'
  end.

(** [if (n) do *d++ = c; while (--n)]. *)
Fixpoint memset (mem : list Z) (d c : Z) (n : nat) : list Z :=
  match n with
  | O => mem
  | S n' => memset (bset mem d (u8 c)) (d + 1) c n'
  end.

Fixpoint memcmp (mem : list Z) (p1 p2 : Z) (n : nat) : Z :=
  match n with
  | O => 0
  | S n' => if negb (bget mem p1 =? bget mem p2)
            then (if bget mem p1 <? bget mem p2 then -1 else 1)
            else memcmp mem (p1 + 1) (p2 + 1) n'
  end.

(** The loops over terminated strings; [None]: out of fuel. *)
Fixpoint strlen (fuel : nat) (mem : list Z) (str ret : Z) : option Z :=
  match fuel with
  | O => None
  | S n => if negb (bget mem (str + ret) =? 0) then strlen n mem str (u32 (ret + 1)) else Some ret
  end.

(** Copy bytes up to and including the terminator. *)
Fixpoint strcpy (fuel : nat) (mem : list Z) (s src : Z) : option (list Z) :=
  match fuel with
  | O => None
  | S n => let c := bget mem src in
           let mem' := bset mem s c in
           if c =? 0 then Some mem' else strcpy n mem' (s + 1) (src + 1)
  end.

(** The copying loop, then the padding loop. *)
Fixpoint strncpy (mem : list Z) (s s2 : Z) (n : nat) : list Z :=
  match n with
  | O => mem
  | S n' => if bget mem s2 =? 0 then memset mem s 0 n
            else strncpy (bset mem s (bget mem s2)) (s + 1) (s2 + 1) n'
  end.

Fixpoint strcmp (fuel : nat) (mem : list Z) (s1 s2 : Z) : option Z :=
  match fuel with
  | O => None
  | S n => if bget mem s1 =? bget mem s2 then
             if bget mem s1 =? 0 then Some 0 else strcmp n mem (s1 + 1) (s2 + 1)
           else Some (if bget mem s1 <? bget mem s2 then -1 else 1)
  end.

(** ** What they compute *)

(** The bytes of [mem] from [p]: a string [l] and its terminator. *)
Definition string_at (mem : list Z) (p : Z) (l : list Z) : Prop :=
  0 ≤ p ∧ p + zlength l < zlength mem ∧ slice mem p (zlength l + 1) = l ++ [0] ∧
  Forall (λ c, 0 < c < 256) l.

(** Lexicographic comparison of byte strings. *)
Fixpoint compare (l1 l2 : list Z) : Z :=
  match l1, l2 with
  | [], [] => 0
  | [], _ => -1
  | _, [] => 1
  | x :: l1', y :: l2' => if x =? y then compare l1' l2' else if x <? y then -1 else 1
  end.

Lemma bget_at mem i x : 0 ≤ i → mem !! Z.to_nat i = Some x → bget mem i = x.
Proof. intros _. apply bget_lookup. Qed.

Lemma slice_cons mem p n x l :
  0 ≤ p → slice mem p (n + 1) = x :: l → 0 ≤ n →
  bget mem p = x ∧ slice mem (p + 1) n = l ∧ p < zlength mem.
Proof.
  intros Hp Hs Hn. unfold slice in *.
  destruct (drop (Z.to_nat p) mem) as [|y k] eqn:Hd; [by rewrite take_nil in Hs|].
  replace (Z.to_nat (n + 1)) with (S (Z.to_nat n)) in Hs by lia. simpl in Hs. simplify_eq.
  assert (mem !! Z.to_nat p = Some x) as Hx.
  { rewrite <- (Nat.add_0_r (Z.to_nat p)), <- lookup_drop, Hd. done. }
  split_and!; [by apply bget_lookup| |].
  - replace (Z.to_nat (p + 1)) with (Z.to_nat p + 1)%nat by lia. rewrite <- drop_drop, Hd. done.
  - apply lookup_lt_Some in Hx. unfold zlength. lia.
Qed.

(** The first byte of a string. *)
Lemma string_at_nil mem p : string_at mem p [] → bget mem p = 0.
Proof.
  intros (Hp & _ & Hs & _). apply (slice_cons mem p 0 0 []) in Hs as [? _]; [done|done|lia].
Qed.

Lemma string_at_cons mem p x l :
  string_at mem p (x :: l) → bget mem p = x ∧ 0 < x < 256 ∧ string_at mem (p + 1) l.
Proof.
  intros (Hp & Hl & Hs & Hf). apply Forall_cons in Hf as [Hx Hf].
  replace (zlength (x :: l)) with (zlength l + 1) in Hl, Hs by (unfold zlength; simpl; lia).
  apply (slice_cons mem p (zlength l + 1) x (l ++ [0])) in Hs as (H1 & H2 & H3);
    [|done|unfold zlength; lia].
  split_and!; [done|lia|lia|]. unfold string_at. split_and!; [lia|lia|done|done].
Qed.

Lemma strlen_ok mem p l ret fuel :
  string_at mem (p + ret) l → 0 ≤ ret → ret + zlength l < 4294967296 → (length l < fuel)%nat →
  strlen fuel mem p ret = Some (ret + zlength l).
Proof.
  revert ret fuel. induction l as [|x l IH]; intros ret fuel Hs Hr Hb Hf;
    (destruct fuel as [|fuel]; [simpl in Hf; lia|]); cbn [strlen].
  - rewrite (string_at_nil _ _ Hs). simpl. f_equal. unfold zlength. simpl. lia.
  - destruct (string_at_cons _ _ _ _ Hs) as (-> & Hx & Hs').
    rewrite (proj2 (Z.eqb_neq x 0)) by lia. cbn [negb].
    unfold zlength in Hb. simpl in Hb, Hf. rewrite u32_small by lia.
    rewrite IH; [|by replace (p + (ret + 1)) with (p + ret + 1) by lia|lia|unfold zlength; lia|lia].
    f_equal. unfold zlength. simpl. lia.
Qed.

Lemma strcmp_ok mem l1 l2 p1 p2 fuel :
  string_at mem p1 l1 → string_at mem p2 l2 → (length l1 < fuel)%nat →
  strcmp fuel mem p1 p2 = Some (compare l1 l2).
Proof.
  revert l2 p1 p2 fuel. induction l1 as [|x l1 IH]; intros l2 p1 p2 fuel H1 H2 Hf;
    (destruct fuel as [|fuel]; [simpl in Hf; lia|]); cbn [strcmp].
  - rewrite (string_at_nil _ _ H1). destruct l2 as [|y l2].
    + by rewrite (string_at_nil _ _ H2).
    + destruct (string_at_cons _ _ _ _ H2) as (-> & Hy & _).
      rewrite (proj2 (Z.eqb_neq 0 y)), (proj2 (Z.ltb_lt 0 y)) by lia. done.
  - destruct (string_at_cons _ _ _ _ H1) as (-> & Hx & H1'). destruct l2 as [|y l2].
    + rewrite (string_at_nil _ _ H2), (proj2 (Z.eqb_neq x 0)), (proj2 (Z.ltb_ge x 0)) by lia. done.
    + destruct (string_at_cons _ _ _ _ H2) as (-> & Hy & H2'). simpl.
      destruct (Z.eqb_spec x y) as [->|]; [|done].
      rewrite (proj2 (Z.eqb_neq y 0)) by lia. apply IH; [done|done|simpl in Hf; lia].
Qed.

Lemma compare_eq l1 l2 : compare l1 l2 = 0 ↔ l1 = l2.
Proof.
  revert l2. induction l1 as [|x l1 IH]; intros [|y l2]; simpl; try (split; done).
  destruct (Z.eqb_spec x y) as [->|Hne].
  - rewrite IH. split; [by intros ->|by intros [= ->]].
  - split; [by destruct (x <? y)|by intros [= -> ->]].
Qed.

Lemma compare_antisym l1 l2 : compare l2 l1 = - compare l1 l2.
Proof.
  revert l2. induction l1 as [|x l1 IH]; intros [|y l2]; simpl; try done.
  rewrite (Z.eqb_sym y x). destruct (Z.eqb_spec x y); [apply IH|].
  destruct (Z.ltb_spec x y), (Z.ltb_spec y x); lia.
Qed.

(** ** Copies *)

Lemma splice_cons mem d x k :
  0 ≤ d → splice (bset mem d x) (d + 1) k = splice mem d (x :: k).
Proof.
  intros Hd. unfold splice, bset. replace (Z.to_nat (d + 1)) with (S (Z.to_nat d)) by lia.
  cbn [list_inserts]. by rewrite list_insert_inserts_lt by lia.
Qed.

Lemma slice_bset_out mem i x p n :
  0 ≤ i → 0 ≤ p → i < p ∨ p + n ≤ i → slice (bset mem i x) p n = slice mem p n.
Proof.
  intros Hi Hp Hd. apply list_eq. intros k. destruct (decide (k < Z.to_nat n)%nat) as [Hk|Hk].
  - rewrite !slice_lookup by done. unfold bset. rewrite list_lookup_insert_ne; [done|lia].
  - unfold slice. rewrite !lookup_take, !decide_False by lia. done.
Qed.

Lemma slice_S mem p n :
  0 ≤ p < zlength mem → slice mem p (Z.of_nat (S n)) = bget mem p :: slice mem (p + 1) (Z.of_nat n).
Proof.
  intros Hp. destruct (lookup_lt_is_Some_2 mem (Z.to_nat p)) as [x Hx]; [unfold zlength in Hp; lia|].
  unfold slice. rewrite !Nat2Z.id, (drop_S mem x) by done. cbn [firstn].
  rewrite (bget_lookup _ _ _ Hx). replace (Z.to_nat (p + 1)) with (S (Z.to_nat p)) by lia. done.
Qed.

(** A forward copy is right on disjoint ranges and when it moves down. *)
Lemma memcpy_ok n mem dst src :
  0 ≤ dst → 0 ≤ src → dst + Z.of_nat n ≤ zlength mem → src + Z.of_nat n ≤ zlength mem →
  dst ≤ src ∨ src + Z.of_nat n ≤ dst →
  memcpy mem dst src n = splice mem dst (slice mem src (Z.of_nat n)).
Proof.
  revert mem dst src. induction n as [|n IH]; intros mem dst src Hd Hs Hdl Hsl Ho; [done|].
  cbn [memcpy]. rewrite IH; try (unfold zlength in *; rewrite ?length_bset; lia).
  rewrite slice_bset_out, splice_cons, slice_S by (lia || (destruct Ho; lia)). done.
Qed.

Lemma memset_ok n mem d c :
  0 ≤ d → memset mem d c n = splice mem d (replicate n (u8 c)).
Proof.
  revert mem d. induction n as [|n IH]; intros mem d Hd; [done|].
  cbn [memset]. rewrite IH, splice_cons by lia. done.
Qed.

Lemma string_at_bset mem p l i x :
  string_at mem p l → 0 ≤ i → i < p ∨ p + zlength l < i → string_at (bset mem i x) p l.
Proof.
  intros (Hp & Hl & Hs & Hf) Hi Hd. unfold string_at. split_and!; [done| | |done].
  - unfold zlength in *. by rewrite length_bset.
  - rewrite slice_bset_out by lia. done.
Qed.

Lemma string_at_splice mem p l d k :
  string_at mem p l → 0 ≤ d → d + zlength k ≤ p ∨ p + zlength l < d → string_at (splice mem d k) p l.
Proof.
  intros (Hp & Hl & Hs & Hf) Hd Ho. unfold string_at. split_and!; [done| | |done].
  - unfold zlength in *. by rewrite length_splice.
  - rewrite slice_splice_ne by lia. done.
Qed.

Lemma strcpy_ok l mem dst src fuel :
  string_at mem src l → 0 ≤ dst → dst + zlength l < zlength mem →
  dst + zlength l < src ∨ src + zlength l < dst → (length l < fuel)%nat →
  strcpy fuel mem dst src = Some (splice mem dst (l ++ [0])).
Proof.
  revert mem dst src fuel. induction l as [|x l IH]; intros mem dst src fuel Hs Hd Hl Ho Hf;
    (destruct fuel as [|fuel]; [simpl in Hf; lia|]); cbn [strcpy].
  - rewrite (string_at_nil _ _ Hs). done.
  - destruct (string_at_cons _ _ _ _ Hs) as (-> & Hx & Hs').
    rewrite (proj2 (Z.eqb_neq x 0)) by lia.
    replace (zlength (x :: l)) with (zlength l + 1) in * by (unfold zlength; simpl; lia).
    rewrite IH; [cbn [app]; by rewrite splice_cons by lia| | | |lia|simpl in Hf; lia].
    + apply string_at_bset; [done|lia|lia].
    + lia.
    + unfold zlength in *. rewrite length_bset. lia.
Qed.

Lemma strncpy_ok n l mem dst src :
  string_at mem src l → 0 ≤ dst → dst + Z.of_nat n ≤ src ∨ src + zlength l < dst →
  strncpy mem dst src n = splice mem dst (take n (l ++ replicate n 0)).
Proof.
  revert l mem dst src. induction n as [|n IH]; intros l mem dst src Hs Hd Ho; [done|].
  cbn [strncpy]. destruct l as [|x l].
  - rewrite (string_at_nil _ _ Hs). simpl (0 =? 0). cbv iota. rewrite memset_ok by lia.
    change (u8 0) with 0. cbn [app]. rewrite take_ge; [done|]. rewrite length_replicate. lia.
  - destruct (string_at_cons _ _ _ _ Hs) as (-> & Hx & Hs').
    rewrite (proj2 (Z.eqb_neq x 0)) by lia.
    replace (zlength (x :: l)) with (zlength l + 1) in * by (unfold zlength; simpl; lia).
    rewrite (IH l); [|apply string_at_bset; [done|lia|lia]|lia|lia].
    rewrite splice_cons by lia. cbn [app firstn]. do 2 f_equal.
    rewrite !take_app. f_equal. rewrite !take_replicate. f_equal. lia.
Qed.

(** strcpy leaves at [dst] a terminated copy of the string at [src],
    which strlen and strcmp then report as equal to the original, in
    memory that is otherwise unchanged: with enough memory at [dst] and no
    overlap, for strings of any length. *)
Theorem strcpy_copies mem dst src l q other fuel :
  string_at mem src l → 0 ≤ dst → dst + zlength l < zlength mem →
  dst + zlength l < src ∨ src + zlength l < dst →
  zlength l < 4294967296 → (length l < fuel)%nat →
  string_at mem q other → dst + zlength l < q ∨ q + zlength other < dst →
  ∃ mem', strcpy fuel mem dst src = Some mem' ∧ string_at mem' dst l ∧
    strlen fuel mem' dst 0 = Some (zlength l) ∧ strcmp fuel mem' dst src = Some 0 ∧
    string_at mem' q other.
Proof.
  intros Hs Hd Hl Ho Hb Hf Hq Hqo. exists (splice mem dst (l ++ [0])).
  assert (zlength (l ++ [0]) = zlength l + 1) as Hla by (unfold zlength; rewrite length_app; simpl; lia).
  assert (string_at (splice mem dst (l ++ [0])) dst l) as Hn.
  { unfold string_at. split_and!; [done|unfold zlength in *; by rewrite length_splice| |apply Hs].
    rewrite <- Hla. apply slice_splice_eq; lia. }
  split_and!; [by apply strcpy_ok|done| | |apply string_at_splice; [done|done|lia]].
  - rewrite (strlen_ok _ _ l) by (rewrite ?Z.add_0_r; done || lia). done.
  - rewrite (strcmp_ok _ l l); [by rewrite (proj2 (compare_eq l l))|done| |done].
    apply string_at_splice; [done|done|lia].
Qed.

Definition demo_mem : list Z := [104; 105; 0; 9; 9; 9; 9; 111; 107; 0].

Lemma string_demo : string_at demo_mem 0 [104; 105] ∧ string_at demo_mem 7 [111; 107].
Proof. by repeat split; repeat constructor. Qed.

Lemma strcpy_copies_witness :
  strcpy 9 demo_mem 3 0 = Some [104; 105; 0; 104; 105; 0; 9; 111; 107; 0] ∧
  ∃ mem', strcpy 9 demo_mem 3 0 = Some mem' ∧ strcmp 9 mem' 3 0 = Some 0.
Proof.
  split; [done|]. destruct string_demo as [Ha Hb].
  destruct (strcpy_copies demo_mem 3 0 [104; 105] 7 [111; 107] 9) as (m & H1 & _ & _ & H2 & _);
    [done|lia|done|by right|done|simpl; lia|done|by left|].
  by exists m.
Defined.

(** strcmp is the lexicographic order of unsigned bytes: it is 0
    exactly on equal strings, and swapping its arguments negates it. *)
Theorem strcmp_orders mem p1 p2 l1 l2 fuel :
  string_at mem p1 l1 → string_at mem p2 l2 → (length l1 < fuel)%nat → (length l2 < fuel)%nat →
  ∃ r, strcmp fuel mem p1 p2 = Some r ∧ r = compare l1 l2 ∧ (r = 0 ↔ l1 = l2) ∧
       strcmp fuel mem p2 p1 = Some (- r).
Proof.
  intros H1 H2 F1 F2. exists (compare l1 l2).
  rewrite (strcmp_ok mem l1 l2), (strcmp_ok mem l2 l1), (compare_antisym l1 l2) by done.
  split_and!; [done|done|apply compare_eq|done].
Qed.

Lemma strcmp_orders_witness : strcmp 9 demo_mem 0 7 = Some (-1) ∧ strcmp 9 demo_mem 7 0 = Some 1.
Proof.
  destruct string_demo as [Ha Hb].
  destruct (strcmp_orders demo_mem 0 7 [104; 105] [111; 107] 9) as (r & H1 & -> & _ & H2);
    [done|done|simpl; lia|simpl; lia|]. done.
Defined.
End CString.
