(* ===== verification/Strto.v ===== *)
(** * Number parsing (kernel/string.c: strtol, strtoul)

    A C string is the list of its bytes before the terminator; reading at its
    length gives the terminator.  Positions are indices into it, so the end
    pointer is modelled too. *)

From S2P Require Import Prelude.

Module Strto.

Definition LONG_MIN : Z := -2147483648.
Definition LONG_MAX : Z := 2147483647.
Definition ULONG_MAX : Z := 4294967295.

(** [char] is signed. *)
Definition s8 (x : Z) : Z := if u8 x <? 128 then u8 x else u8 x - 256.
Definition chr (str : list Z) (i : Z) : Z := s8 (bget str i).

Definition isupper (c : Z) : bool := (c >=? 65) && (c <=? 90).
Definition isalpha (c : Z) : bool := (c >=? 65) && (c <=? 90) || (c >=? 97) && (c <=? 122).
Definition isspace (c : Z) : bool := (c =? 32) || (c =? 9) || (c =? 10) || (c =? 10).
Definition isdigit (c : Z) : bool := (c >=? 48) && (c <=? 57).

(** [do c = *s++; while (isspace(c));] *)
Fixpoint skip_space (fuel : nat) (str : list Z) (s : Z) : Z * Z :=
  let c := chr str s in
  match fuel with
  | S n => if isspace c then skip_space n str (s + 1) else (c, s + 1)
  | O => (c, s + 1)
  end.

(** The digit a character stands for; [None] is the [else break]. *)
Definition digit (c : Z) : option Z :=
  if isdigit c then Some (c - 48)
  else if isalpha c then Some (c - (if isupper c then 65 - 10 else 97 - 10))
  else None.

(** The conversion loop: [acc], [any] and [s] at its exit. *)
Fixpoint accumulate (fuel : nat) (str : list Z) (base cutoff cutlim : Z)
    (c s acc any : Z) : Z * Z * Z :=
  match fuel with
  | O => (acc, any, s)
  | S n =>
      match digit c with
      | None => (acc, any, s)
      | Some c =>
          if c >=? base then (acc, any, s)
          else if (any <? 0) || (acc >? cutoff) || (acc =? cutoff) && (c >? cutlim)
          then accumulate n str base cutoff cutlim (chr str s) (s + 1) acc (-1)
          else accumulate n str base cutoff cutlim (chr str s) (s + 1)
                 (u32 (u32 (acc * base) + c)) 1
      end
  end.

(** White space, sign and radix prefix, the same text in both functions:
    the sign, the radix, the current character and the position after it. *)
Definition prefix (str : list Z) (base : Z) : bool * Z * Z * Z :=
  let '(c, s) := skip_space (length str) str 0 in
  let '(neg, c, s) :=
    if c =? 45 then (true, chr str s, s + 1)
    else if c =? 43 then (false, chr str s, s + 1)
    else (false, c, s) in
  let '(c, s, base) :=
    if ((base =? 0) || (base =? 16)) && (c =? 48) && ((chr str s =? 120) || (chr str s =? 88))
    then (chr str (s + 1), s + 2, 16)
    else if ((base =? 0) || (base =? 2)) && (c =? 48) && ((chr str s =? 98) || (chr str s =? 66))
    then (chr str (s + 1), s + 2, 2)
    else (c, s, base) in
  let base := if base =? 0 then (if c =? 48 then 8 else 10) else base in
  (neg, base, c, s).

(** The value and [*endptr]. *)
Definition strtol (str : list Z) (base : Z) : Z * Z :=
  let '(neg, base, c, s) := prefix str base in
  let cutoff := if neg : bool then u32 (- u32 LONG_MIN) else LONG_MAX in
  let cutlim := cutoff mod u32 base in
  let cutoff := cutoff / u32 base in
  let '(acc, any, s) := accumulate (S (length str)) str base cutoff cutlim c s 0 0 in
  let acc := if any <? 0 then (if neg then u32 LONG_MIN else LONG_MAX)
             else if neg then u32 (- acc) else acc in
  (s32 acc, if negb (any =? 0) then s - 1 else 0).

Definition strtoul (str : list Z) (base : Z) : Z * Z :=
  let '(neg, base, c, s) := prefix str base in
  let cutoff := ULONG_MAX / u32 base in
  let cutlim := ULONG_MAX mod u32 base in
  let '(acc, any, s) := accumulate (S (length str)) str base cutoff cutlim c s 0 0 in
  let acc := if any <? 0 then ULONG_MAX else if neg : bool then u32 (- acc) else acc in
  (acc, if negb (any =? 0) then s - 1 else 0).

(** ** The numeral a string holds *)

Definition valid_digit (base d : Z) : bool :=
  match digit (s8 d) with Some v => v <? base | None => false end.
Definition dval (d : Z) : Z := default 0 (digit (s8 d)).

(** The value of a numeral, most significant digit first. *)
Definition value (base : Z) (ds : list Z) : Z := fold_left (λ a d, a * base + dval d) ds 0.

(** What may follow it: the end, or a character that is not a letter or
    digit. *)
Definition ends (rest : list Z) : bool :=
  match rest with [] => true | r :: _ => negb (isdigit (s8 r) || isalpha (s8 r)) end.

Definition sign_ok (sgn : list Z) : bool :=
  match sgn with [] => true | [c] => (c =? 45) || (c =? 43) | _ => false end.
Definition negative (sgn : list Z) : bool := match sgn with c :: _ => c =? 45 | [] => false end.

(** ** Characters *)

Lemma chr_app pre l : chr (pre ++ l) (zlength pre) = s8 (default 0 (head l)).
Proof.
  unfold chr, bget, zlength. rewrite Nat2Z.id, lookup_app_r by lia. rewrite Nat.sub_diag. by destruct l.
Qed.

Lemma chr_at str pre l : str = pre ++ l → ∀ i, i = zlength pre → chr str i = s8 (default 0 (head l)).
Proof. intros -> i ->. apply chr_app. Qed.

Lemma digit_nonneg c v : digit c = Some v → 0 ≤ v.
Proof.
  unfold digit. destruct (isdigit c) eqn:E; [intros [= <-]; unfold isdigit in E; boolp; lia|].
  destruct (isalpha c) eqn:Ea; [|done]. intros [= <-]. unfold isalpha, isupper in *.
  apply orb_prop in Ea as [Ea|Ea]; [rewrite Ea|]; boolp; [lia|]. case_if; lia.
Qed.

Lemma valid_digit_range base d :
  valid_digit base d = true → digit (s8 d) = Some (dval d) ∧ 0 ≤ dval d < base.
Proof.
  unfold valid_digit, dval. destruct (digit (s8 d)) as [v|] eqn:E; [|done].
  apply digit_nonneg in E. simpl. intros H. boolp. auto.
Qed.

Lemma ends_stops rest : ends rest = true → digit (s8 (default 0 (head rest))) = None.
Proof.
  destruct rest as [|r rest]; [done|]. simpl. intros H. boolp. unfold digit.
  by repeat match goal with H : _ = false |- _ => rewrite H; clear H end.
Qed.

(** ** The conversion loop *)

Definition vstep (base a d : Z) : Z := a * base + dval d.

Lemma vstep_mono base ds a :
  2 ≤ base → 0 ≤ a → Forall (λ d, valid_digit base d = true) ds → a ≤ fold_left (vstep base) ds a.
Proof.
  intros Hb. revert a. induction ds as [|d ds IH]; intros a Ha Hds; [done|].
  apply Forall_cons in Hds as [Hd Hds]. apply valid_digit_range in Hd as [_ Hd]. simpl.
  assert (a ≤ vstep base a d) by (unfold vstep; nia). etrans; [done|]. apply IH; [lia|done].
Qed.

(** After an overflow the loop only looks for the end. *)
Lemma accumulate_over ds str pre rest base cutoff cutlim acc fuel s c :
  str = pre ++ ds ++ rest → s = zlength pre + 1 → c = s8 (default 0 (head (ds ++ rest))) →
  Forall (λ d, valid_digit base d = true) ds → ends rest = true → (length ds < fuel)%nat →
  accumulate fuel str base cutoff cutlim c s acc (-1) = (acc, -1, s + zlength ds).
Proof.
  revert pre fuel s c. induction ds as [|d ds IH]; intros pre fuel s c Hstr Hs Hc Hds He Hf;
    (destruct fuel as [|fuel]; [simpl in Hf; lia|]); cbn [accumulate]; subst c.
  - cbn [app]. rewrite (ends_stops _ He). unfold zlength. simpl. by rewrite Z.add_0_r.
  - apply Forall_cons in Hds as [Hd Hds]. apply valid_digit_range in Hd as [Hd Hv].
    cbn [app head from_option id]. rewrite Hd, Z.geb_leb, (proj2 (Z.leb_gt base (dval d))) by lia.
    change (-1 <? 0) with true. cbn [orb]. simpl in Hf.
    assert (s = zlength (pre ++ [d])) as Hs'.
    { rewrite Hs. unfold zlength. rewrite length_app. simpl. lia. }
    rewrite (IH (pre ++ [d])); [f_equal; unfold zlength; simpl; lia| |lia| |done|done|lia].
    + by rewrite Hstr, <- app_assoc.
    + apply (chr_at str (pre ++ [d])); [by rewrite Hstr, <- app_assoc|done].
Qed.

(** The loop over the digits [ds] and its exit at [rest]: the value if it
    does not exceed [lim], the overflow mark otherwise. *)
Lemma accumulate_ok ds str pre rest base lim acc any fuel s c :
  2 ≤ base → 0 ≤ lim < 4294967296 →
  str = pre ++ ds ++ rest → s = zlength pre + 1 → c = s8 (default 0 (head (ds ++ rest))) →
  Forall (λ d, valid_digit base d = true) ds → ends rest = true → (length ds < fuel)%nat →
  (any = 0 ∨ any = 1) → 0 ≤ acc ≤ lim →
  let v := fold_left (vstep base) ds acc in
  let '(acc', any', s') := accumulate fuel str base (lim / base) (lim mod base) c s acc any in
  s' = s + zlength ds ∧
  (v ≤ lim → acc' = v ∧ any' = (if decide (ds = []) then any else 1)) ∧
  (lim < v → any' = -1).
Proof.
  intros Hb Hlim. revert pre acc any fuel s c.
  induction ds as [|d ds IH]; intros pre acc any fuel s c Hstr Hs Hc Hds He Hf Hany Hacc;
    (destruct fuel as [|fuel]; [simpl in Hf; lia|]); cbn [accumulate fold_left]; cbv zeta; subst c.
  { cbn [app]. rewrite (ends_stops _ He). unfold zlength. simpl. rewrite Z.add_0_r.
    split_and!; [done|done|lia]. }
  apply Forall_cons in Hds as [Hd Hds]. apply valid_digit_range in Hd as [Hd Hv].
  cbn [app head from_option id]. rewrite Hd, Z.geb_leb, (proj2 (Z.leb_gt base (dval d))) by lia.
  rewrite (proj2 (Z.ltb_ge any 0)) by lia. cbn [orb]. simpl in Hf.
  assert (str = (pre ++ [d]) ++ ds ++ rest) as Hstr' by (by rewrite Hstr, <- app_assoc).
  assert (s = zlength (pre ++ [d])) as Hs'.
  { rewrite Hs. unfold zlength. rewrite length_app. simpl. lia. }
  assert (chr str s = s8 (default 0 (head (ds ++ rest)))) as Hchr by (by apply (chr_at str (pre ++ [d]))).
  assert (((acc >? lim / base) || (acc =? lim / base) && (dval d >? lim mod base)) = true ↔
          lim < vstep base acc d) as Hcut.
  { unfold vstep. pose proof (Z.div_mod lim base ltac:(lia)). pose proof (Z.mod_pos_bound lim base ltac:(lia)).
    rewrite orb_true_iff, andb_true_iff, Z.gtb_lt, Z.eqb_eq, Z.gtb_lt. split; [intros []; nia|].
    intros. destruct (decide (lim / base < acc)); [by left|]. right. nia. }
  destruct ((acc >? lim / base) || _) eqn:Ec.
  - rewrite (accumulate_over ds str (pre ++ [d]) rest); try done; [|lia|lia].
    apply proj1 in Hcut. specialize (Hcut eq_refl).
    pose proof (vstep_mono base ds (vstep base acc d) Hb ltac:(lia) Hds).
    split_and!; [unfold zlength; simpl; lia|lia|done].
  - assert (vstep base acc d ≤ lim) as Hle.
    { destruct (decide (vstep base acc d ≤ lim)); [done|].
      by discriminate (proj2 Hcut ltac:(lia)). }
    assert (0 ≤ acc * base ≤ vstep base acc d) by (unfold vstep; nia).
    rewrite (u32_small (acc * base)), u32_small by (fold (vstep base acc d); lia).
    fold (vstep base acc d).
    specialize (IH (pre ++ [d]) (vstep base acc d) 1 fuel (s + 1) _ Hstr' ltac:(lia) Hchr Hds He
      ltac:(lia) ltac:(by right) ltac:(lia)). cbv zeta in IH.
    destruct (accumulate fuel _ _ _ _ _ _ _ _) as [[acc' any'] s'].
    destruct IH as (IH1 & IH2 & IH3). split_and!; [unfold zlength in *; simpl; lia| |done].
    intros Hle'. destruct (IH2 Hle') as [-> ->]. split; [done|]. by case_decide.
Qed.

(** ** White space, sign and prefix *)

Lemma skip_space_ok ws l fuel pre :
  Forall (λ c, isspace (s8 c) = true) ws → isspace (s8 (default 0 (head l))) = false →
  (length ws ≤ fuel)%nat →
  skip_space fuel (pre ++ ws ++ l) (zlength pre) =
    (s8 (default 0 (head l)), zlength (pre ++ ws) + 1).
Proof.
  revert fuel pre. induction ws as [|w ws IH]; intros fuel pre Hws Hl Hf.
  - cbn [app]. rewrite app_nil_r. destruct fuel; cbn [skip_space]; rewrite chr_app; [done|]. by rewrite Hl.
  - apply Forall_cons in Hws as [Hw Hws]. destruct fuel as [|fuel]; [simpl in Hf; lia|].
    cbn [skip_space app]. rewrite chr_app. cbn [head from_option id]. rewrite Hw.
    specialize (IH fuel (pre ++ [w]) Hws Hl ltac:(simpl in Hf; lia)).
    rewrite <- !app_assoc in IH. cbn [app] in IH.
    replace (zlength (pre ++ [w])) with (zlength pre + 1) in IH; [exact IH|].
    unfold zlength. rewrite length_app. simpl. lia.
Qed.

Lemma digit_not_space c v : digit c = Some v → isspace c = false ∧ c ≠ 45 ∧ c ≠ 43.
Proof.
  unfold digit, isspace, isdigit, isalpha. intros H.
  assert (48 ≤ c ≤ 57 ∨ 65 ≤ c ≤ 90 ∨ 97 ≤ c ≤ 122) as Hc.
  { destruct ((c >=? 48) && (c <=? 57)) eqn:E1; [boolp; lia|].
    destruct ((c >=? 65) && (c <=? 90) || (c >=? 97) && (c <=? 122)) eqn:E2; [|done].
    apply orb_prop in E2 as [E2|E2]; boolp; lia. }
  rewrite !(proj2 (Z.eqb_neq _ _)) by lia. split_and!; [done|lia|lia].
Qed.

(** No radix letter follows a leading zero of the numeral. *)
Lemma no_radix_letter base ds rest x :
  Forall (λ d, valid_digit base d = true) ds → ends rest = true →
  base ≤ default 36 (digit x) → isdigit x || isalpha x = true →
  s8 (default 0 (head (ds ++ rest))) ≠ x.
Proof.
  intros Hds He Hx Ha Heq. destruct ds as [|d ds].
  - cbn [app] in Heq. pose proof (ends_stops rest He) as Hn. rewrite Heq in Hn.
    unfold digit in Hn. destruct (isdigit x); [done|]. destruct (isalpha x); done.
  - cbn in Heq. apply Forall_cons in Hds as [Hd _]. apply valid_digit_range in Hd as [Hd Hv].
    rewrite Heq in Hd. rewrite Hd in Hx. simpl in Hx. lia.
Qed.

Lemma prefix_ok ws sgn d ds rest base str :
  str = ws ++ sgn ++ (d :: ds) ++ rest → 2 ≤ base ≤ 36 →
  Forall (λ c, isspace (s8 c) = true) ws → sign_ok sgn = true →
  Forall (λ d, valid_digit base d = true) (d :: ds) → ends rest = true →
  prefix str base = (negative sgn, base, s8 d, zlength (ws ++ sgn) + 1).
Proof.
  intros Hstr Hb Hws Hsgn Hds He. pose proof Hds as Hds'. apply Forall_cons in Hds' as [Hd Hds'].
  apply valid_digit_range in Hd as [Hd _]. destruct (digit_not_space _ _ Hd) as (Hsp & Hm & Hp).
  unfold prefix.
  assert (skip_space (length str) str 0 =
    (s8 (default 0 (head (sgn ++ (d :: ds) ++ rest))), zlength ws + 1)) as ->.
  { rewrite Hstr. change 0 with (zlength (@nil Z)).
    rewrite <- (app_nil_l (ws ++ _)), skip_space_ok; [done|done| |rewrite !length_app; lia].
    destruct sgn as [|c [|]]; [done| |done]. simpl in Hsgn |- *.
    apply orb_prop in Hsgn as [Hs|Hs]; boolp; by subst c. }
  assert ((if s8 (default 0 (head (sgn ++ (d :: ds) ++ rest))) =? 45
           then (true, chr str (zlength ws + 1), zlength ws + 1 + 1)
           else if s8 (default 0 (head (sgn ++ (d :: ds) ++ rest))) =? 43
           then (false, chr str (zlength ws + 1), zlength ws + 1 + 1)
           else (false, s8 (default 0 (head (sgn ++ (d :: ds) ++ rest))), zlength ws + 1))
          = (negative sgn, s8 d, zlength (ws ++ sgn) + 1)) as ->.
  { destruct sgn as [|c [|]]; [| |done]; simpl in Hsgn |- *.
    - rewrite !(proj2 (Z.eqb_neq _ _)) by done. by rewrite app_nil_r.
    - assert (zlength (ws ++ [c]) = zlength ws + 1) as Hz by (unfold zlength; rewrite length_app; simpl; lia).
      rewrite (chr_at str (ws ++ [c]) ((d :: ds) ++ rest)) by (rewrite ?Hstr, <- ?app_assoc; done). rewrite Hz.
      apply orb_prop in Hsgn as [Hs|Hs]; boolp; by subst c. }
  assert (zlength (ws ++ sgn ++ [d]) = zlength (ws ++ sgn) + 1) as Hz.
  { unfold zlength. rewrite !length_app. simpl. lia. }
  rewrite (chr_at str (ws ++ sgn ++ [d]) (ds ++ rest)) by (rewrite ?Hstr, <- ?app_assoc; done).
  assert (((base =? 0) || (base =? 16)) && (s8 d =? 48) &&
    ((s8 (default 0 (head (ds ++ rest))) =? 120) || (s8 (default 0 (head (ds ++ rest))) =? 88)) = false) as ->.
  { rewrite (proj2 (Z.eqb_neq base 0)) by lia. destruct (Z.eqb_spec base 16) as [->|]; [|done].
    rewrite !(proj2 (Z.eqb_neq (s8 (default 0 (head (ds ++ rest)))) _)); [by rewrite andb_false_r| |];
      by eapply no_radix_letter. }
  assert (((base =? 0) || (base =? 2)) && (s8 d =? 48) &&
    ((s8 (default 0 (head (ds ++ rest))) =? 98) || (s8 (default 0 (head (ds ++ rest))) =? 66)) = false) as ->.
  { rewrite (proj2 (Z.eqb_neq base 0)) by lia. destruct (Z.eqb_spec base 2) as [->|]; [|done].
    rewrite !(proj2 (Z.eqb_neq (s8 (default 0 (head (ds ++ rest)))) _)); [by rewrite andb_false_r| |];
      by eapply no_radix_letter. }
  rewrite (proj2 (Z.eqb_neq base 0)) by lia. done.
Qed.

(** ** The functions *)

(** [str] is white space, an optional sign, a numeral in radix [base] and a
    rest that does not continue it. *)
Record numeral (base : Z) (str ws sgn ds rest : list Z) : Prop := {
  nu_str : str = ws ++ sgn ++ ds ++ rest;
  nu_base : 2 ≤ base ≤ 36;
  nu_space : Forall (λ c, isspace (s8 c) = true) ws;
  nu_sign : sign_ok sgn = true;
  nu_digits : Forall (λ d, valid_digit base d = true) ds;
  nu_some : ds ≠ [];
  nu_ends : ends rest = true;
}.

(** The loop as both functions call it. *)
Lemma numeral_accumulate base str ws sgn ds rest lim :
  numeral base str ws sgn ds rest → 0 ≤ lim < 4294967296 →
  ∃ c s acc any,
    prefix str base = (negative sgn, base, c, s) ∧
    accumulate (S (length str)) str base (lim / base) (lim mod base) c s 0 0 =
      (acc, any, zlength (ws ++ sgn ++ ds) + 1) ∧
    0 ≤ value base ds ∧
    (value base ds ≤ lim ∧ acc = value base ds ∧ any = 1 ∨ lim < value base ds ∧ any = -1).
Proof.
  intros [Hstr Hb Hws Hsgn Hds Hne He] Hlim. destruct ds as [|d ds]; [done|].
  pose proof (prefix_ok ws sgn d ds rest base str Hstr Hb Hws Hsgn Hds He) as Hp.
  pose proof (accumulate_ok (d :: ds) str (ws ++ sgn) rest base lim 0 0 (S (length str))
    (zlength (ws ++ sgn) + 1) (s8 d) ltac:(lia) Hlim) as Ha.
  cbv zeta in Ha. destruct (accumulate _ _ _ _ _ _ _ _ _) as [[acc any] s'] eqn:E.
  destruct Ha as (Hs' & Hle & Hgt); try done.
  { by rewrite Hstr, <- app_assoc. } { rewrite Hstr, !length_app. simpl. lia. } { by left. } { lia. }
  change (fold_left (vstep base) (d :: ds) 0) with (value base (d :: ds)) in *.
  assert (zlength (ws ++ sgn ++ d :: ds) + 1 = s') as Hs.
  { rewrite Hs'. unfold zlength. rewrite !length_app. simpl. lia. }
  eexists _, _, acc, any. split_and!; [exact Hp|by rewrite Hs| |].
  - apply (vstep_mono base (d :: ds) 0); [lia|lia|done].
  - destruct (decide (value base (d :: ds) ≤ lim)) as [Hv|Hv].
    + left. by destruct (Hle Hv) as [-> ->].
    + right. split; [lia|]. apply Hgt. lia.
Qed.

Lemma numeral_strtol base str ws sgn ds rest :
  numeral base str ws sgn ds rest →
  strtol str base =
    (Z.max LONG_MIN (Z.min LONG_MAX (if negative sgn then - value base ds else value base ds)),
     zlength (ws ++ sgn ++ ds)).
Proof.
  intros Hn. set (lim := if negative sgn then 2147483648 else 2147483647).
  destruct (numeral_accumulate base str ws sgn ds rest lim Hn) as (c & s & acc & any & Hp & Ha & Hv & Hc).
  { unfold lim. case_if; lia. }
  unfold strtol. rewrite Hp. pose proof (nu_base _ _ _ _ _ _ Hn).
  change (if negative sgn then u32 (- u32 LONG_MIN) else LONG_MAX) with lim.
  rewrite (u32_small base) by lia. rewrite Ha. unfold LONG_MIN, LONG_MAX in *.
  replace (zlength (ws ++ sgn ++ ds) + 1 - 1) with (zlength (ws ++ sgn ++ ds)) by lia.
  unfold lim in *. destruct Hc as [(Hle & -> & ->)|(Hgt & ->)]; simpl; f_equal; destruct (negative sgn).
  - unfold s32, u32. rewrite Z.max_r, Z.min_r by lia. rewrite Zmod_mod. repeat case_if; zdm.
  - rewrite s32_id by lia. lia.
  - change (s32 (u32 (-2147483648))) with (-2147483648). lia.
  - change (s32 2147483647) with 2147483647. lia.
Qed.

(** strtol returns the value of the numeral, clamped to the range of
    [long], and leaves the end pointer just after its last digit. *)
Theorem strtol_value base str ws sgn ds rest :
  numeral base str ws sgn ds rest →
  strtol str base =
    (Z.max LONG_MIN (Z.min LONG_MAX (if negative sgn then - value base ds else value base ds)),
     zlength (ws ++ sgn ++ ds)).
Proof. apply numeral_strtol. Qed.

(** "  -2147483649;" overflows. *)
Lemma strtol_value_witness :
  strtol [32; 32; 45; 50; 49; 52; 55; 52; 56; 51; 54; 52; 57; 59] 10 = (-2147483648, 13).
Proof.
  rewrite (strtol_value 10 _ [32; 32] [45] [50; 49; 52; 55; 52; 56; 51; 54; 52; 57] [59]); [by vm_compute|].
  by constructor; repeat constructor.
Defined.

(** strtoul returns the value, negated modulo 2^32 after a minus sign,
    and ULONG_MAX for a numeral that is too large, whatever its sign. *)
Theorem strtoul_value base str ws sgn ds rest :
  numeral base str ws sgn ds rest →
  strtoul str base =
    (if value base ds >? ULONG_MAX then ULONG_MAX
     else u32 (if negative sgn then - value base ds else value base ds),
     zlength (ws ++ sgn ++ ds)).
Proof.
  intros Hn.
  destruct (numeral_accumulate base str ws sgn ds rest ULONG_MAX Hn) as (c & s & acc & any & Hp & Ha & Hv & Hc).
  { unfold ULONG_MAX. lia. }
  unfold strtoul. rewrite Hp. pose proof (nu_base _ _ _ _ _ _ Hn).
  rewrite (u32_small base) by lia. rewrite Ha, Z.gtb_ltb. unfold ULONG_MAX in *.
  replace (zlength (ws ++ sgn ++ ds) + 1 - 1) with (zlength (ws ++ sgn ++ ds)) by lia.
  destruct Hc as [(Hle & -> & ->)|(Hgt & ->)]; simpl; f_equal.
  - rewrite (proj2 (Z.ltb_ge _ _)) by lia. destruct (negative sgn); [done|]. by rewrite u32_small by lia.
  - by rewrite (proj2 (Z.ltb_lt _ _)) by lia.
Qed.

Lemma strtoul_value_witness : strtoul [45; 49; 97; 32] 16 = (4294967270, 3).
Proof.
  rewrite (strtoul_value 16 _ [] [45] [49; 97] [32]); [by vm_compute|]. by constructor; repeat constructor.
Defined.
End Strto.
