(* ===== verification/Vsprintf.v ===== *)
(** * Formatted output (kernel/vsprintf.c)

    The characters stored through [str] are the list the functions return;
    the variable arguments are a list of tagged values, and an argument of
    the wrong kind, which C leaves undefined, gives [None]. *)

From S2P Require Import Prelude Strto.

Module Vsprintf.
Import Strto.

Definition ZEROPAD : Z := 1.
Definition SIGN : Z := 2.
Definition PLUS : Z := 4.
Definition SPACE : Z := 8.
Definition LEFT : Z := 16.
Definition SPECIAL : Z := 32.
Definition SMALL : Z := 64.

Definition has (type f : Z) : bool := negb (Z.land type f =? 0).

Definition is_digit (c : Z) : bool := (c >=? 48) && (c <=? 57).

Fixpoint skip_atoi (fmt : list Z) (i : Z) : Z * list Z :=
  match fmt with
  | c :: l => if is_digit c then skip_atoi l (s32 (i * 10 + c - 48)) else (i, fmt)
  | [] => (i, [])
  end.

Definition digits_upper : list Z := seqZ 48 10 ++ seqZ 65 26.
Definition digits_lower : list Z := seqZ 48 10 ++ seqZ 97 26.

(** [while (num != 0) tmp[i++] = digits[do_div(num, base)]], least
    significant digit first; the division is the unsigned [divl]. *)
Fixpoint div_loop (fuel : nat) (digits : list Z) (num base : Z) : list Z :=
  match fuel with
  | O => []
  | S n => if num =? 0 then [] else bget digits (num mod base) :: div_loop n digits (num / base) base
  end.

(** [while (size-- > 0) *str++ = c]: the characters and [size] after. *)
Definition pad (size c : Z) : list Z * Z :=
  if size >? 0 then (replicate (Z.to_nat size) c, -1) else ([], size - 1).

Definition number (num base size precision type : Z) : option (list Z) :=
  let digits := if has type SMALL then digits_lower else digits_upper in
  let type := if has type LEFT then Z.land type (Z.lnot ZEROPAD) else type in
  if (base <? 2) || (base >? 36) then None else
  let c := if has type ZEROPAD then 48 else 32 in
  let '(sign, num) :=
    if has type SIGN && (num <? 0) then (45, s32 (- num))
    else (if has type PLUS then 43 else if has type SPACE then 32 else 0, num) in
  let size := if negb (sign =? 0) then size - 1 else size in
  let size := if has type SPECIAL then
                if base =? 16 then size - 2 else if base =? 8 then size - 1 else size
              else size in
  let tmp := if num =? 0 then [48] else div_loop 32 digits (u32 num) base in
  let i := zlength tmp in
  let precision := if i >? precision then i else precision in
  let size := size - precision in
  let '(lead, size) := if negb (has type (ZEROPAD + LEFT)) then pad size 32 else ([], size) in
  let sgn := if negb (sign =? 0) then [sign] else [] in
  let special := if has type SPECIAL then
                   if base =? 8 then [48]
                   else if base =? 16 then [48; bget digits 33] else []
                 else [] in
  let '(fill, size) := if negb (has type LEFT) then pad size c else ([], size) in
  let zeros := replicate (Z.to_nat (precision - i)) 48 in
  let '(trail, _) := pad size 32 in
  Some (lead ++ sgn ++ special ++ fill ++ zeros ++ rev tmp ++ trail).

(** ** Format strings *)

Inductive arg := AInt (z : Z) | AStr (s : list Z) | APtr (p : Z).

(** The [repeat:] loop over the flag characters. *)
Fixpoint parse_flags (fmt : list Z) (flags : Z) : Z * list Z :=
  match fmt with
  | c :: l => if c =? 45 then parse_flags l (Z.lor flags LEFT)
              else if c =? 43 then parse_flags l (Z.lor flags PLUS)
              else if c =? 32 then parse_flags l (Z.lor flags SPACE)
              else if c =? 35 then parse_flags l (Z.lor flags SPECIAL)
              else if c =? 48 then parse_flags l (Z.lor flags ZEROPAD)
              else (flags, fmt)
  | [] => (flags, [])
  end.

Definition head_is (fmt : list Z) (p : Z → bool) : bool :=
  match fmt with c :: _ => p c | [] => false end.

Definition next_int (args : list arg) : option (Z * list arg) :=
  match args with AInt z :: l => Some (s32 z, l) | _ => None end.

(** Field width: its value, the flags, the rest of the format. *)
Definition parse_width (fmt : list Z) (flags : Z) (args : list arg) : option (Z * Z * list Z * list arg) :=
  if head_is fmt is_digit then
    let '(w, fmt) := skip_atoi fmt 0 in Some (w, flags, fmt, args)
  else if head_is fmt (λ c, c =? 42) then
    '(w, args) ← next_int args;
    if w <? 0 then Some (s32 (- w), Z.lor flags LEFT, fmt, args) else Some (w, flags, fmt, args)
  else Some (-1, flags, fmt, args).

Definition parse_precision (fmt : list Z) (args : list arg) : option (Z * list Z * list arg) :=
  if head_is fmt (λ c, c =? 46) then
    let fmt := tail fmt in
    '(p, fmt, args) ←
      (if head_is fmt is_digit then let '(p, fmt) := skip_atoi fmt 0 in Some (p, fmt, args)
       else if head_is fmt (λ c, c =? 42) then
         '(p, args) ← next_int args; Some (p, fmt, args)
       else Some (-1, fmt, args));
    Some (if p <? 0 then 0 else p, fmt, args)
  else Some (-1, fmt, args).

(** [while (--w > 0) *str++ = ' ']. *)
Definition pad_before (w : Z) : list Z * Z :=
  if w - 1 >? 0 then (replicate (Z.to_nat (w - 1)) 32, 0) else ([], w - 1).
(** [while (len < w--) *str++ = ' ']. *)
Definition pad_to (len w : Z) : list Z * Z :=
  if len <? w then (replicate (Z.to_nat (w - len)) 32, len - 1) else ([], w - 1).

(** The conversion character [c] ([None] at the end of the format): the
    characters stored, the arguments left, and the store a [%n] makes.
    [pos] is [str - buf]. *)
Definition convert (c : option Z) (flags w p : Z) (args : list arg) (pos : Z)
  : option (list Z * list arg * list (Z * Z)) :=
  let num base w flags :=
    match args with
    | AInt z :: args | APtr z :: args => out ← number (s32 z) base w p flags; Some (out, args, [])
    | _ => None
    end in
  match c with
  | Some 99 =>
      '(z, args) ← next_int args;
      let '(l1, w) := if negb (has flags LEFT) then pad_before w else ([], w) in
      let '(l2, _) := pad_before w in
      Some (l1 ++ [u8 z] ++ l2, args, [])
  | Some 115 =>
      match args with
      | AStr s :: args =>
          let len := zlength s in
          let len := if p <? 0 then len else if len >? p then p else len in
          let '(l1, w) := if negb (has flags LEFT) then pad_to len w else ([], w) in
          let '(l2, _) := pad_to len w in
          Some (l1 ++ take (Z.to_nat len) s ++ l2, args, [])
      | _ => None
      end
  | Some 111 => num 8 w flags
  | Some 112 => if w =? -1 then num 16 8 (Z.lor flags ZEROPAD) else num 16 w flags
  | Some 120 => num 16 w (Z.lor flags SMALL)
  | Some 88 => num 16 w flags
  | Some 100 | Some 105 => num 10 w (Z.lor flags SIGN)
  | Some 117 => num 10 w flags
  | Some 110 => match args with APtr ip :: args => Some ([], args, [(ip, pos)]) | _ => None end
  | Some c => Some ((if negb (c =? 37) then [37] else []) ++ [c], args, [])
  | None => Some ([37], args, [])
  end.

(** The main loop: [out] is what is stored so far. *)
Fixpoint format (fuel : nat) (fmt : list Z) (args : list arg) (out : list Z) (stores : list (Z * Z))
  : option (list Z * list (Z * Z)) :=
  match fuel, fmt with
  | _, [] => Some (out, stores)
  | O, _ => None
  | S n, c :: l =>
      if negb (c =? 37) then format n l args (out ++ [c]) stores
      else
        let '(flags, l) := parse_flags l 0 in
        '(w, flags, l, args) ← parse_width l flags args;
        '(p, l, args) ← parse_precision l args;
        '(o, args, st) ← convert (head l) flags w p args (zlength out);
        format n (tail l) args (out ++ o) (stores ++ st)
  end.

(** The buffer's contents, the return value and the [%n] stores. *)
Definition vsprintf (fmt : list Z) (args : list arg) : option (list Z * Z * list (Z * Z)) :=
  '(out, stores) ← format (length fmt) fmt args [] [];
  Some (out ++ [0], zlength out, stores).

Definition demo_out : list Z := [45; 48; 52; 50; 124; 48; 120; 102; 102; 124; 32; 104; 105].
Example vsprintf_demo :
  (* "%04d|%#x|%3s" *)
  vsprintf [37; 48; 52; 100; 124; 37; 35; 120; 124; 37; 51; 115]
    [AInt (-42); AInt 255; AStr [104; 105]] = Some (demo_out ++ [0], 13, []).
Proof. by vm_compute. Qed.

(** The field width given as [*] is fetched, but the star is not skipped:
    "%*d" comes out as it is. *)
Example star_width_ignored :
  vsprintf [37; 42; 100] [AInt 5; AInt 7] = Some ([37; 42; 100; 0], 3, []).
Proof. by vm_compute. Qed.

(** ** The layout number() is meant to produce *)

Definition sign_chars (num type : Z) : list Z :=
  if has type SIGN && (num <? 0) then [45]
  else if has type PLUS then [43] else if has type SPACE then [32] else [].

Definition radix_chars (base type : Z) : list Z :=
  if has type SPECIAL then
    if base =? 8 then [48]
    else if base =? 16 then [48; if has type SMALL then 120 else 88] else []
  else [].

(** The digits of the magnitude, most significant first. *)
Definition digit_chars (num base type : Z) : list Z :=
  let n := if has type SIGN && (num <? 0) then s32 (- num) else num in
  if n =? 0 then [48]
  else rev (div_loop 32 (if has type SMALL then digits_lower else digits_upper) (u32 n) base).

(** Spaces before, or zeros after the sign and radix, or spaces behind fill
    the field; the precision adds zeros. *)
Definition number_ref (num base size precision type : Z) : list Z :=
  let sgn := sign_chars num type in
  let special := radix_chars base type in
  let ds := digit_chars num base type in
  let zeros := replicate (Z.to_nat (precision - zlength ds)) 48 in
  let room := Z.to_nat (size - zlength (sgn ++ special ++ zeros ++ ds)) in
  if has type LEFT then sgn ++ special ++ zeros ++ ds ++ replicate room 32
  else if has type ZEROPAD then sgn ++ special ++ replicate room 48 ++ zeros ++ ds
  else replicate room 32 ++ sgn ++ special ++ zeros ++ ds.

(** Clearing ZEROPAD leaves the other flags. *)
Lemma has_clear t f : Z.land (Z.lnot ZEROPAD) f = f → has (Z.land t (Z.lnot ZEROPAD)) f = has t f.
Proof. intros Hf. unfold has. by rewrite <- Z.land_assoc, Hf. Qed.

Lemma has_cleared t : has (Z.land t (Z.lnot ZEROPAD)) ZEROPAD = false.
Proof. unfold has. by rewrite <- Z.land_assoc, Z.land_0_r. Qed.

Lemma has_union t : has t (ZEROPAD + LEFT) = has t ZEROPAD || has t LEFT.
Proof.
  unfold has. change (ZEROPAD + LEFT) with (Z.lor ZEROPAD LEFT). rewrite Z.land_lor_distr_r.
  destruct (Z.eqb_spec (Z.land t ZEROPAD) 0) as [->|H1].
  - by rewrite Z.lor_0_l.
  - simpl. apply negb_true_iff, Z.eqb_neq. rewrite Z.lor_eq_0_iff. by intros [? _].
Qed.

Lemma pad_fst size c : (pad size c).1 = replicate (Z.to_nat size) c.
Proof.
  unfold pad. rewrite Z.gtb_ltb. destruct (Z.ltb_spec 0 size); [done|]. by replace (Z.to_nat size) with O by lia.
Qed.

Lemma pad_snd size c : (pad size c).2 < 0.
Proof. unfold pad. rewrite Z.gtb_ltb. destruct (Z.ltb_spec 0 size); simpl; lia. Qed.

Lemma pad_spent size c : size < 0 → (pad size c).1 = [].
Proof. intros. rewrite pad_fst. by replace (Z.to_nat size) with O by lia. Qed.

(** The three padding loops share one counter: only the first that runs
    pads. *)
Lemma padding room type c :
  let '(lead, size) := if negb (has type (ZEROPAD + LEFT)) then pad room 32 else ([], room) in
  let '(fill, size) := if negb (has type LEFT) then pad size c else ([], size) in
  let '(trail, _) := pad size 32 in
  (lead, fill, trail) =
    if has type LEFT then ([], [], replicate (Z.to_nat room) 32)
    else if has type ZEROPAD then ([], replicate (Z.to_nat room) c, [])
    else (replicate (Z.to_nat room) 32, [], []).
Proof.
  rewrite has_union. destruct (has type LEFT), (has type ZEROPAD); cbn [negb orb].
  - rewrite <- (pad_fst room 32). by destruct (pad room 32).
  - rewrite <- (pad_fst room 32). by destruct (pad room 32).
  - rewrite <- (pad_fst room c). pose proof (pad_snd room c). destruct (pad room c) as [l s]; simpl in *.
    pose proof (pad_spent s 32 ltac:(lia)). destruct (pad s 32); simpl in *. by subst.
  - rewrite <- (pad_fst room 32). pose proof (pad_snd room 32). destruct (pad room 32) as [l s]; simpl in *.
    pose proof (pad_spent s c ltac:(lia)). pose proof (pad_snd s c). destruct (pad s c) as [l1 s1]; simpl in *.
    pose proof (pad_spent s1 32 ltac:(lia)). destruct (pad s1 32); simpl in *. by subst.
Qed.

Lemma radix_letter type :
  bget (if has type SMALL then digits_lower else digits_upper) 33 = if has type SMALL then 120 else 88.
Proof. by destruct (has type SMALL). Qed.

Lemma rev_single {A} (b : bool) (x : A) l : rev (if b then [x] else l) = if b then [x] else rev l.
Proof. by destruct b. Qed.

Lemma sign_chars_head num type :
  let neg := has type SIGN && (num <? 0) in
  let sign := if neg then 45 else if has type PLUS then 43 else if has type SPACE then 32 else 0 in
  (if negb (sign =? 0) then [sign] else []) = sign_chars num type ∧
  (if negb (sign =? 0) then 1 else 0) = zlength (sign_chars num type).
Proof. unfold sign_chars. by destruct (has type SIGN && (num <? 0)), (has type PLUS), (has type SPACE). Qed.

(** The width left for sign and digits. *)
Lemma radix_width base type size :
  (if has type SPECIAL then
     if base =? 16 then size - 2 else if base =? 8 then size - 1 else size
   else size) = size - zlength (radix_chars base type).
Proof.
  unfold radix_chars.
  destruct (has type SPECIAL), (Z.eqb_spec base 8), (Z.eqb_spec base 16); unfold zlength; simpl; lia.
Qed.

(** number() produces that layout, for every flag combination. *)
Lemma number_equiv num base size precision type :
  2 ≤ base ≤ 36 → number num base size precision type = Some (number_ref num base size precision type).
Proof.
  intros Hb. unfold number. rewrite (proj2 (Z.ltb_ge base 2)), Z.gtb_ltb, (proj2 (Z.ltb_ge 36 base)) by lia.
  cbn [orb]. set (t := if has type LEFT then _ else type).
  assert (∀ f, Z.land (Z.lnot ZEROPAD) f = f → has t f = has type f) as Ht.
  { intros f Hf. unfold t. destruct (has type LEFT); [by apply has_clear|done]. }
  assert (has t ZEROPAD = has type ZEROPAD && negb (has type LEFT)) as Hz.
  { unfold t. destruct (has type LEFT); [by rewrite has_cleared, andb_false_r|by rewrite andb_true_r]. }
  rewrite !(Ht SIGN), !(Ht PLUS), !(Ht SPACE), !(Ht SPECIAL) by done.
  destruct (sign_chars_head num type) as [Hsg Hsl]. cbv zeta in Hsg, Hsl.
  set (digits := if has type SMALL then digits_lower else digits_upper).
  set (neg := has type SIGN && (num <? 0)) in *.
  set (n := if neg then s32 (- num) else num).
  set (sign := if neg then 45 else if has type PLUS then 43 else if has type SPACE then 32 else 0) in *.
  replace (if neg then _ else _) with (sign, n) by (unfold sign, n; by destruct neg).
  rewrite radix_width, Hsg. replace (bget digits 33) with (if has type SMALL then 120 else 88)
    by (symmetry; apply radix_letter). fold (radix_chars base type).
  replace (if n =? 0 then _ else _) with (rev (digit_chars num base type))
    by (unfold digit_chars; fold neg n digits; by rewrite rev_single, rev_involutive).
  set (ds := digit_chars num base type). set (sgn := sign_chars num type) in *.
  set (special := radix_chars base type). rewrite rev_involutive.
  replace (zlength (rev ds)) with (zlength ds) by (unfold zlength; by rewrite length_rev).
  set (prec := if zlength ds >? precision then zlength ds else precision).
  set (zeros := replicate (Z.to_nat (precision - zlength ds)) 48).
  assert (prec = zlength zeros + zlength ds ∧ Z.to_nat (prec - zlength ds) = length zeros) as [Hprec Hzn].
  { unfold prec, zeros. rewrite Z.gtb_ltb. unfold zlength. rewrite length_replicate. case_if; lia. }
  rewrite Hzn. replace (replicate (length zeros) 48) with zeros by (unfold zeros; by rewrite length_replicate).
  replace ((if negb (sign =? 0) then size - 1 else size) - zlength special - prec)
    with (size - zlength (sgn ++ special ++ zeros ++ ds));
    [|rewrite Hprec; unfold zlength in *; rewrite !length_app; destruct (sign =? 0); simpl in *; lia].
  set (room := size - zlength (sgn ++ special ++ zeros ++ ds)).
  pose proof (padding room t (if has t ZEROPAD then 48 else 32)) as Hp. rewrite (Ht LEFT) in * by done.
  destruct (if negb (has t (ZEROPAD + LEFT)) then _ else _) as [lead s1].
  destruct (if negb (has type LEFT) then _ else _) as [fill s2]. destruct (pad s2 32) as [trail s3].
  unfold number_ref. fold sgn special ds zeros room. rewrite Hz in Hp.
  destruct (has type LEFT), (has type ZEROPAD); simpl in Hp; simplify_eq; by rewrite ?app_nil_r.
Qed.

(** ** The digits *)

Lemma digits_table :
  forallb (λ v, (dval (bget digits_lower v) =? v) && valid_digit 36 (bget digits_lower v) &&
                (dval (bget digits_upper v) =? v) && valid_digit 36 (bget digits_upper v)) (seqZ 0 36) = true.
Proof. by vm_compute. Qed.

Lemma digit_char type base v :
  0 ≤ v < base → base ≤ 36 →
  let d := bget (if has type SMALL then digits_lower else digits_upper) v in
  dval d = v ∧ valid_digit base d = true.
Proof.
  intros Hv Hb d. assert (dval d = v ∧ valid_digit 36 d = true) as [Hd H36].
  { pose proof digits_table as Ht. rewrite forallb_forall in Ht.
    assert (v ∈ seqZ 0 36) as Hin by (apply elem_of_seqZ; lia).
    specialize (Ht v (proj1 (list_elem_of_In _ _) Hin)). cbv beta in Ht. boolp.
    unfold d. by destruct (has type SMALL). }
  split; [done|]. apply valid_digit_range in H36 as [Hs _]. unfold valid_digit. rewrite Hs, Hd.
  apply Z.ltb_lt. lia.
Qed.

Lemma value_snoc base l d : value base (l ++ [d]) = value base l * base + dval d.
Proof. unfold value. by rewrite fold_left_app. Qed.

Lemma value_zeros base k ds : value base (replicate k 48 ++ ds) = value base ds.
Proof. induction k as [|k IH]; [done|]. exact IH. Qed.

Lemma zeros_valid base k : 2 ≤ base → Forall (λ d, valid_digit base d = true) (replicate k 48).
Proof. intros. apply Forall_replicate. change (valid_digit base 48) with (0 <? base). apply Z.ltb_lt. lia. Qed.

Lemma div_loop_ok fuel type base num :
  2 ≤ base ≤ 36 → 0 ≤ num < base ^ Z.of_nat fuel →
  let ds := rev (div_loop fuel (if has type SMALL then digits_lower else digits_upper) num base) in
  value base ds = num ∧ Forall (λ d, valid_digit base d = true) ds.
Proof.
  intros Hb. revert num. induction fuel as [|fuel IH]; intros num Hn; cbn [div_loop].
  { assert (num = 0) as -> by (simpl in Hn; lia). by split. }
  destruct (Z.eqb_spec num 0) as [->|Hnz]; [by split|]. cbn [rev].
  assert (0 ≤ num / base < base ^ Z.of_nat fuel) as Hq.
  { replace (Z.of_nat (S fuel)) with (1 + Z.of_nat fuel) in Hn by lia.
    rewrite Z.pow_add_r, Z.pow_1_r in Hn by lia.
    split; [apply Z.div_pos; lia|]. apply Z.div_lt_upper_bound; lia. }
  destruct (IH _ Hq) as [IH1 IH2]. pose proof (Z.mod_pos_bound num base ltac:(lia)) as Hm.
  destruct (digit_char type base (num mod base) Hm ltac:(lia)) as [Hd Hv]. cbv zeta.
  rewrite value_snoc, IH1, Hd. split; [rewrite (Z.div_mod num base) at 3; lia|].
  apply Forall_app. split; [done|]. by apply Forall_singleton.
Qed.

(** The magnitude that is printed. *)
Lemma digit_chars_ok num base type :
  2 ≤ base ≤ 36 → -2147483648 ≤ num < 2147483648 → has type SIGN = true →
  let ds := digit_chars num base type in
  value base ds = Z.abs num ∧ Forall (λ d, valid_digit base d = true) ds ∧ ds ≠ [].
Proof.
  intros Hb Hn Hs. unfold digit_chars. rewrite Hs. cbn [andb]. cbv zeta.
  set (n := if num <? 0 then s32 (- num) else num).
  assert (u32 n = Z.abs num ∧ (n = 0 ↔ num = 0)) as [Hu Hz].
  { unfold n, s32, u32. destruct (Z.ltb_spec num 0); [|split; [zdm|done]].
    destruct (Z.ltb_spec (- num mod 4294967296) 2147483648); zdm. }
  destruct (Z.eqb_spec n 0) as [He|Hne].
  { apply Hz in He as ->. split_and!; [done|apply (zeros_valid base 1); lia|done]. }
  assert (Z.abs num < base ^ 32).
  { assert (2 ^ 32 ≤ base ^ 32) by (apply Z.pow_le_mono_l; lia). change (2 ^ 32) with 4294967296 in *. lia. }
  destruct (div_loop_ok 32 type base (u32 n) Hb) as [Hv Hd]; [rewrite Hu; simpl Z.of_nat; lia|].
  rewrite Hu in *. split_and!; [done|done|]. intros Hnil. rewrite Hnil in Hv. unfold value in Hv. simpl in Hv. lia.
Qed.

Lemma spaces_ok k : Forall (λ c, isspace (s8 c) = true) (replicate k 32).
Proof. by apply Forall_replicate. Qed.

Lemma spaces_end k : ends (replicate k 32) = true.
Proof. by destruct k. Qed.

(** The sign, as strtol sees it: a blank counts as white space. *)
Lemma sign_split num type :
  has type SIGN = true →
  ∃ blank sgn, sign_chars num type = blank ++ sgn ∧
    Forall (λ c, isspace (s8 c) = true) blank ∧ sign_ok sgn = true ∧ negative sgn = (num <? 0).
Proof.
  intros Hs. unfold sign_chars. rewrite Hs. cbn [andb]. destruct (num <? 0); [by exists [], [45]|].
  destruct (has type PLUS); [by exists [], [43]|]. destruct (has type SPACE); [|by exists [], []].
  exists [32], []. split_and!; [done|by repeat constructor|done|done].
Qed.

(** What number() prints is a numeral. *)
Lemma number_numeral num base size precision type :
  2 ≤ base ≤ 36 → -2147483648 ≤ num < 2147483648 → has type SIGN = true → has type SPECIAL = false →
  ∃ ws sgn ds rest, numeral base (number_ref num base size precision type) ws sgn ds rest ∧
    negative sgn = (num <? 0) ∧ value base ds = Z.abs num.
Proof.
  intros Hb Hn Hs Hsp. destruct (digit_chars_ok num base type Hb Hn Hs) as (Hv & Hds & Hne). cbv zeta in *.
  destruct (sign_split num type Hs) as (blank & sgn & Hsg & Hbl & Hok & Hneg).
  unfold number_ref, radix_chars. rewrite Hsp, Hsg. cbv zeta.
  set (ds := digit_chars num base type) in *. set (room := Z.to_nat (size - _)).
  set (zeros := replicate (Z.to_nat (precision - zlength ds)) 48). cbn [app].
  assert (Forall (λ d, valid_digit base d = true) zeros) by (apply zeros_valid; lia).
  assert (value base (zeros ++ ds) = Z.abs num) as Hvz by (unfold zeros; by rewrite value_zeros).
  assert (zeros ++ ds ≠ []) as Hnz by (by intros [_ ?]%app_eq_nil).
  destruct (has type LEFT); [|destruct (has type ZEROPAD)].
  - exists blank, sgn, (zeros ++ ds), (replicate room 32). split; [|done]. constructor; try done.
    + by rewrite <- !app_assoc.
    + by apply Forall_app.
    + apply spaces_end.
  - exists blank, sgn, (replicate room 48 ++ zeros ++ ds), []. rewrite value_zeros. split; [|done].
    constructor; try done.
    + by rewrite app_nil_r, <- !app_assoc.
    + apply Forall_app. split; [apply zeros_valid; lia|by apply Forall_app].
    + by intros [_ ?]%app_eq_nil.
  - exists (replicate room 32 ++ blank), sgn, (zeros ++ ds), []. split; [|done]. constructor; try done.
    + by rewrite app_nil_r, <- !app_assoc.
    + apply Forall_app. split; [apply spaces_ok|done].
    + by apply Forall_app.
Qed.

(** what number() prints for a signed 32-bit integer, in any radix,
    field width, precision, padding, sign and case style, strtol reads back
    as the same integer: INT_MIN included. *)
Theorem print_then_parse num base size precision type :
  2 ≤ base ≤ 36 → -2147483648 ≤ num < 2147483648 → has type SIGN = true → has type SPECIAL = false →
  ∃ s, number num base size precision type = Some s ∧ (strtol s base).1 = num.
Proof.
  intros Hb Hn Hs Hsp. rewrite number_equiv by done. eexists. split; [done|].
  destruct (number_numeral num base size precision type Hb Hn Hs Hsp) as (ws & sgn & ds & rest & Hnum & Hneg & Hv).
  rewrite (numeral_strtol _ _ _ _ _ _ Hnum). unfold LONG_MIN, LONG_MAX. simpl. rewrite Hneg, Hv.
  destruct (Z.ltb_spec num 0); lia.
Qed.

Lemma print_then_parse_witness :
  ∃ s, number (-2147483648) 10 15 12 SIGN = Some s ∧ (strtol s 10).1 = -2147483648.
Proof. apply print_then_parse; [lia|lia|done|done]. Defined.

(** ** Whole formats *)

Lemma format_literal l fmt args out stores n :
  Forall (λ c, c ≠ 37) l → (length l ≤ n)%nat →
  format n (l ++ fmt) args out stores = format (n - length l) fmt args (out ++ l) stores.
Proof.
  revert n out. induction l as [|c l IH]; intros n out Hl Hn.
  { simpl. by rewrite Nat.sub_0_r, app_nil_r. }
  apply Forall_cons in Hl as [Hc Hl]. destruct n as [|n]; [simpl in Hn; lia|]. simpl in Hn.
  cbn [app format]. rewrite (proj2 (Z.eqb_neq c 37)) by done. cbn [negb].
  rewrite IH by (done || lia). rewrite <- app_assoc. done.
Qed.

Lemma format_decimal n post z args out stores :
  -2147483648 ≤ z < 2147483648 →
  format (S n) (37 :: 100 :: post) (AInt z :: args) out stores =
    format n post args (out ++ number_ref z 10 (-1) (-1) SIGN) stores.
Proof.
  intros Hz. cbn -[number_ref number format s32]. cbn [format].
  change (negb (37 =? 37)) with false. cbv iota. cbn -[number_ref number format s32].
  rewrite s32_id by lia. rewrite number_equiv by lia. cbn [mbind option_bind]. by rewrite app_nil_r.
Qed.

(** a format with one %d between literal text prints the text and a
    decimal numeral that reads back as the argument, terminates the string
    and returns its length. *)
Theorem vsprintf_decimal pre post n :
  Forall (λ c, c ≠ 37) pre → Forall (λ c, c ≠ 37) post → -2147483648 ≤ n < 2147483648 →
  ∃ s, vsprintf (pre ++ [37; 100] ++ post) [AInt n] =
         Some (pre ++ s ++ post ++ [0], zlength (pre ++ s ++ post), []) ∧
       (strtol s 10).1 = n.
Proof.
  intros Hpre Hpost Hn. exists (number_ref n 10 (-1) (-1) SIGN). split.
  - unfold vsprintf. rewrite format_literal by (done || rewrite !length_app; lia).
    replace (length (pre ++ [37; 100]%Z ++ post) - length pre)%nat with (S (S (length post)))
      by (rewrite !length_app; simpl; lia).
    cbn [app]. rewrite format_decimal by done.
    pose proof (format_literal post [] [] ([] ++ pre ++ number_ref n 10 (-1) (-1) SIGN) []
      (S (length post)) Hpost ltac:(lia)) as Hl. rewrite app_nil_r in Hl.
    rewrite app_nil_l in *. rewrite Hl.
    destruct (S (length post) - length post)%nat; cbn -[number_ref]; by rewrite <- !app_assoc.
  - destruct (number_numeral n 10 (-1) (-1) SIGN ltac:(lia) Hn eq_refl eq_refl)
      as (ws & sgn & ds & rest & Hnum & Hneg & Hv).
    rewrite (numeral_strtol _ _ _ _ _ _ Hnum). unfold LONG_MIN, LONG_MAX. simpl. rewrite Hneg, Hv.
    destruct (Z.ltb_spec n 0); lia.
Qed.

Lemma vsprintf_decimal_witness :
  ∃ s, vsprintf ([120; 61] ++ [37; 100] ++ [10]) [AInt (-7)] =
         Some ([120; 61] ++ s ++ [10] ++ [0], zlength ([120; 61] ++ s ++ [10]), []) ∧ (strtol s 10).1 = -7.
Proof. apply vsprintf_decimal; [by repeat constructor|by repeat constructor|lia]. Defined.
End Vsprintf.
