(* ===== verification/Vfs.v ===== *)
(** * The virtual file system layer (kernel/vfs.c)

    Dispatch through a node's function pointers and path resolution.  A node
    is identified by a pointer; what it points to and what its callbacks do
    belong to the file system behind it, so the layer is parametrised by the
    pointer type, the state the callbacks share and the contents of the
    nodes. *)

From S2P Require Import Prelude.

Module Vfs.

Definition FS_FILE : Z := 1.
Definition FS_DIRECTORY : Z := 2.
Definition FS_MOUNTPOINT : Z := 8.

Record dirent := mk_dirent { d_name : list Z; d_inode : Z }.

Section vfs.
(** [S]: the state of the file systems; [P]: pointers to nodes. *)
Context {S P : Type}.

(** struct fs_ops *)
Record fs_ops := mk_ops {
  op_create : option (P → list Z → ST S (option P));
  op_mkdir : option (P → list Z → ST S Z);
  op_truncate : option (P → ST S Z);
}.

(** struct fs_node: the fields this layer looks at.  A callback that
    fills a caller's buffer returns the bytes it stored. *)
Record fs_node := mk_node {
  flags : Z;
  ops : option fs_ops;
  read : option (P → Z → Z → ST S (list Z));
  write : option (P → Z → Z → list Z → ST S Z);
  open : option (P → ST S unit);
  close : option (P → ST S unit);
  readdir : option (P → Z → ST S (option dirent));
  finddir : option (P → list Z → ST S (option P));
  ptr : option P;
}.

Context (node_at : S → P → fs_node).

Definition node (p : P) : ST S fs_node := gets (λ s, node_at s p).

Definition is_directory (n : fs_node) : bool := Z.land (flags n) 0x7 =? FS_DIRECTORY.

Definition vfs_read (p : P) (offset size : Z) : ST S (list Z) :=
  n ← node p;
  match read n with Some f => f p offset size | None => mret [] end.

Definition vfs_write (p : P) (offset size : Z) (buffer : list Z) : ST S Z :=
  n ← node p;
  match write n with Some f => f p offset size buffer | None => mret 0 end.

Definition vfs_open (p : P) (read write : bool) : ST S unit :=
  n ← node p;
  match open n with Some f => f p | None => mret tt end.

Definition vfs_close (p : P) : ST S unit :=
  n ← node p;
  match close n with Some f => f p | None => mret tt end.

(** [None] is -1. *)
Definition vfs_readdir (p : P) (index : Z) : ST S (option dirent) :=
  n ← node p;
  match readdir n with
  | Some f => if is_directory n then f p index else mret None
  | None => mret None
  end.

Definition vfs_finddir (p : P) (name : list Z) : ST S (option P) :=
  n ← node p;
  match finddir n with
  | Some f => if is_directory n then f p name else mret None
  | None => mret None
  end.

Definition vfs_follow (p : P) : ST S P :=
  n ← node p;
  match ptr n with
  | Some q => if negb (Z.land (flags n) FS_MOUNTPOINT =? 0) then mret q else mret p
  | None => mret p
  end.

Definition vfs_create (dir : option P) (name : list Z) : ST S (option P) :=
  match dir with
  | None => mret None
  | Some p =>
      n ← node p;
      match ops n with
      | Some o => match op_create o with
                  | Some f => if is_directory n then f p name else mret None
                  | None => mret None
                  end
      | None => mret None
      end
  end.

Definition vfs_truncate (file : option P) : ST S Z :=
  match file with
  | None => mret (-1)
  | Some p =>
      n ← node p;
      match ops n with
      | Some o => match op_truncate o with Some f => f p | None => mret (-1) end
      | None => mret (-1)
      end
  end.

Definition vfs_mkdir (dir : option P) (name : list Z) : ST S Z :=
  match dir with
  | None => mret (-1)
  | Some p =>
      n ← node p;
      match ops n with
      | Some o => match op_mkdir o with
                  | Some f => if is_directory n then f p name else mret (-1)
                  | None => mret (-1)
                  end
      | None => mret (-1)
      end
  end.

(** ** Path resolution *)

(** [while ( *path == '/') path++]. *)
Fixpoint skip_slashes (path : list Z) : list Z :=
  match path with c :: l => if c =? 47 then skip_slashes l else path | [] => [] end.

(** Copy a component, at most [room] characters: what was copied and the
    rest of the path. *)
Fixpoint next_comp (room : nat) (path : list Z) : list Z * list Z :=
  match path, room with
  | c :: l, Datatypes.S r =>
      if c =? 47 then ([], path) else let '(w, rest) := next_comp r l in (c :: w, rest)
  | _, _ => ([], path)
  end.

Fixpoint resolve_loop (fuel : nat) (p : P) (path : list Z) : ST S (option P) :=
  match fuel with
  | O => mret None
  | Datatypes.S n =>
      let '(comp, rest) := next_comp 127 path in
      if match rest with c :: _ => negb (c =? 47) | [] => false end then mret None else
      let path := skip_slashes rest in
      match comp with
      | [] => mret (Some p)
      | _ =>
          r ← vfs_finddir p comp;
          match r with
          | None => mret None
          | Some q =>
              q ← vfs_follow q;
              match path with [] => mret (Some q) | _ => resolve_loop n q path end
          end
      end
  end.

(** [fs_root]: the root, if mounted. *)
Definition vfs_resolve (fs_root : option P) (path : option (list Z)) : ST S (option P) :=
  match fs_root, path with
  | Some root, Some path =>
      match skip_slashes path with
      | [] => mret (Some root)
      | path => p ← vfs_follow root; resolve_loop (length path) p path
      end
  | _, _ => mret None
  end.

(** ** Specification: components and a walk *)

Fixpoint split (path : list Z) : list (list Z) :=
  match path with
  | [] => [[]]
  | c :: l => if c =? 47 then [] :: split l
              else match split l with w :: ws => (c :: w) :: ws | [] => [[c]] end
  end.

(** The non-empty names between slashes. *)
Definition components (path : list Z) : list (list Z) := filter (λ w, w ≠ []) (split path).

(** Look the names up one after the other, following mountpoints; a name
    longer than 127 bytes is not found. *)
Fixpoint walk (p : P) (names : list (list Z)) : ST S (option P) :=
  match names with
  | [] => mret (Some p)
  | w :: ws =>
      if bool_decide (127 < length w)%nat then mret None else
      r ← vfs_finddir p w;
      match r with
      | None => mret None
      | Some q => q ← vfs_follow q; walk q ws
      end
  end.

(** ** Components *)

Lemma split_not_nil path : split path ≠ [].
Proof. destruct path as [|c l]; [done|]. simpl. case_if; [done|]. by destruct (split l). Qed.

Lemma components_skip path : components (skip_slashes path) = components path.
Proof.
  unfold components. induction path as [|c l IH]; [done|]. simpl. destruct (c =? 47) eqn:E; [|simpl; by rewrite E].
  rewrite filter_cons, decide_False by (intros Hn; by apply Hn). exact IH.
Qed.

(** The name up to the next slash, and what follows. *)
Fixpoint span (path : list Z) : list Z * list Z :=
  match path with
  | c :: l => if c =? 47 then ([], path) else let '(w, rest) := span l in (c :: w, rest)
  | [] => ([], [])
  end.

Lemma components_span path :
  let '(w, rest) := span path in
  components path = (match w with [] => [] | _ => [w] end) ++ components rest ∧
  match rest with c :: _ => c = 47 | [] => True end ∧ length path = (length w + length rest)%nat.
Proof.
  assert (∀ path, let '(w, rest) := span path in
    split path = match split rest with v :: vs => (w ++ v) :: vs | [] => [w] end ∧
    match rest with c :: _ => c = 47 | [] => True end ∧ length path = (length w + length rest)%nat) as Hs.
  { clear path. induction path as [|c l IH]; [done|]. cbn [span]. destruct (Z.eqb_spec c 47) as [->|Hne].
    - split_and!; [|done|done]. simpl. done.
    - destruct (span l) as [w rest]. destruct IH as (IH & Hr & Hl). split_and!; [|done|simpl; lia].
      cbn [split]. rewrite (proj2 (Z.eqb_neq c 47)) by done. rewrite IH.
      pose proof (split_not_nil rest). by destruct (split rest). }
  specialize (Hs path). destruct (span path) as [w rest]. destruct Hs as (Hs & Hr & Hl).
  split_and!; [|done|done]. unfold components. rewrite Hs. destruct rest as [|c rest].
  - simpl. rewrite app_nil_r. by destruct w.
  - subst c. cbn [split]. change (47 =? 47) with true. cbv iota. rewrite app_nil_r.
    rewrite !filter_cons.
    destruct w; [rewrite !decide_False by (intros Hn; by apply Hn); done|].
    rewrite decide_True by done. rewrite decide_False by (intros Hn; by apply Hn). done.
Qed.

(** The bounded copy stops early only on a name that is too long. *)
Lemma next_comp_span room path :
  let '(w, rest) := span path in
  if bool_decide (room < length w)%nat
  then ∃ c l, (next_comp room path).2 = c :: l ∧ c ≠ 47
  else next_comp room path = (w, rest).
Proof.
  revert room. induction path as [|c l IH]; intros room; cbn [span]; [by destruct room|].
  destruct (Z.eqb_spec c 47) as [->|Hne].
  { rewrite bool_decide_false by (simpl; lia). by destruct room. }
  destruct room as [|room].
  { destruct (span l) as [w rest]. rewrite bool_decide_true by (simpl; lia). by exists c, l. }
  specialize (IH room). destruct (span l) as [w rest]. cbn [next_comp].
  rewrite (proj2 (Z.eqb_neq c 47)) by done.
  destruct (decide (room < length w)%nat).
  - rewrite bool_decide_true in IH |- * by (simpl; lia). destruct (next_comp room l). exact IH.
  - rewrite bool_decide_false in IH |- * by (simpl; lia). by rewrite IH.
Qed.

Lemma skip_slashes_length path : (length (skip_slashes path) ≤ length path)%nat.
Proof. induction path as [|c l IH]; simpl; [lia|]. case_if; simpl; lia. Qed.

Lemma skip_slashes_head path c l : skip_slashes path = c :: l → c ≠ 47.
Proof. induction path as [|d k IH]; simpl; [done|]. case_if; [done|]. by intros [= -> ->]. Qed.

Lemma resolve_loop_walk fuel p path s :
  (match path with c :: _ => c ≠ 47 | [] => False end) → (length path ≤ fuel)%nat →
  resolve_loop fuel p path s = walk p (components path) s.
Proof.
  revert p path s. induction fuel as [|fuel IH]; intros p path s Hh Hf.
  { by destruct path; [|simpl in Hf; lia]. }
  cbn [resolve_loop]. pose proof (components_span path) as Hc. pose proof (next_comp_span 127 path) as Hn.
  assert ((span path).1 ≠ []) as Hw.
  { destruct path as [|c l]; [done|]. cbn [span]. rewrite (proj2 (Z.eqb_neq c 47)) by done. by destruct (span l). }
  destruct (span path) as [w rest]. cbn [fst] in Hw. destruct Hc as (-> & Hr & Hl).
  destruct w as [|x w]; [done|]. cbn [app walk]. case_bool_decide as Hlong.
  { destruct Hn as (c & l & Hn & Hne). destruct (next_comp 127 path) as [w' rest']. cbn in Hn. subst.
    by rewrite (proj2 (Z.eqb_neq c 47)). }
  rewrite Hn. replace (match rest with c :: _ => negb (c =? 47) | [] => false end) with false
    by (destruct rest; [done|]; by subst).
  unfold mbind, ST_bind. destruct (vfs_finddir p (x :: w) s) as [[q|] s1]; [|done].
  destruct (vfs_follow q s1) as [q' s2]. rewrite <- (components_skip rest).
  pose proof (skip_slashes_head rest) as Hsh. pose proof (skip_slashes_length rest).
  destruct (skip_slashes rest) as [|c l] eqn:E; [done|]. apply IH; [by eapply Hsh|simpl in *; lia].
Qed.

Lemma resolve_walk root path s :
  vfs_resolve (Some root) (Some path) s =
    match components path with
    | [] => (Some root, s)
    | names => let '(p, s') := vfs_follow root s in walk p names s'
    end.
Proof.
  unfold vfs_resolve. rewrite <- (components_skip path).
  pose proof (skip_slashes_head path) as Hh. destruct (skip_slashes path) as [|c l] eqn:E; [done|].
  specialize (Hh c l eq_refl).
  assert (components (c :: l) ≠ []) as Hne.
  { pose proof (components_span (c :: l)) as Hc. cbn [span] in Hc.
    rewrite (proj2 (Z.eqb_neq c 47)) in Hc by done. destruct (span l) as [w rest]. destruct Hc as [-> _]. done. }
  unfold mbind, ST_bind. destruct (vfs_follow root s) as [p s'].
  rewrite resolve_loop_walk by done. by destruct (components (c :: l)).
Qed.

(** C37: vfs_resolve looks up exactly the non-empty names between the
    slashes of the path, from the root, following a mountpoint after each
    step; it fails at the first name that is missing or longer than 127
    bytes, with the effects of the lookups before it and no others.  Extra
    slashes never matter, and a path of slashes is the root itself. *)
Theorem resolve_is_walk root path s :
  vfs_resolve (Some root) (Some path) s =
    match components path with
    | [] => (Some root, s)
    | names => let '(p, s') := vfs_follow root s in walk p names s'
    end.
Proof. apply resolve_walk. Qed.

Lemma walk_app p names1 names2 s :
  walk p (names1 ++ names2) s =
    match walk p names1 s with
    | (Some q, s') => walk q names2 s'
    | (None, s') => (None, s')
    end.
Proof.
  revert p s. induction names1 as [|w ws IH]; intros p s; [done|]. cbn [app walk].
  case_bool_decide; [done|]. unfold mbind, ST_bind.
  destruct (vfs_finddir p w s) as [[q|] s1]; [|done]. destruct (vfs_follow q s1) as [q' s2]. apply IH.
Qed.
End vfs.
End Vfs.
