(* ===== verification/Initrd.v ===== *)
(** * The initial ramdisk (kernel/initrd.c)

    A tar archive in memory, parsed at boot into a flat list of files under
    one root that also shows the directory "dev" and, once a disk is mounted,
    "disk".  Memory is the list of bytes from the start of the archive. *)

From S2P Require Import Prelude CString Strto Vfs.

Module Initrd.
Import Vfs.

Abbreviation s8 := Strto.s8.

(** Offsets in struct tar_header. *)
Definition TAR_NAME_LEN : Z := 100.
Definition TAR_SIZE_OFF : Z := 124.

(** [for (j = 11; j > 0; j--, count *= 8) size += (in[j - 1] - '0') * count]. *)
Fixpoint getsize_loop (inp : list Z) (j : nat) (count size : Z) : Z :=
  match j with
  | O => size
  | S j' => getsize_loop inp j' (u32 (count * 8))
              (u32 (size + u32 (u32 (s8 (bget inp (Z.of_nat j')) - 48) * count)))
  end.
Definition getsize (inp : list Z) : Z := getsize_loop inp 11 1 0.

(** struct tar_header_chain: size and address; the chain is the list. *)
Record tar_header_chain := mk_header { h_size : Z; h_addr : Z }.

Fixpoint parse (fuel : nat) (mem : list Z) (addr : Z) : option (list tar_header_chain) :=
  match fuel with
  | O => None
  | S n =>
      if bget mem addr =? 0 then Some []
      else
        let size := getsize (slice mem (addr + TAR_SIZE_OFF) 12) in
        let addr' := u32 (addr + u32 (u32 (size / 512 + 1) * 512)) in
        let addr' := if negb (size mod 512 =? 0) then u32 (addr' + 512) else addr' in
        hs ← parse n mem addr';
        Some (mk_header size addr :: hs)
  end.

(** The fields of a root_nodes[] entry. *)
Record file_node := mk_file { f_name : list Z; f_length : Z; f_inode : Z }.

Record initrd := mk_initrd {
  i_mem : list Z;
  headers : list tar_header_chain;
  root_nodes : list file_node;
  nroot_nodes : Z;
  has_disk : bool;                (** ext2_mount_node is set *)
}.

(** [while (nl < 100 && filename[nl]) nl++]. *)
Fixpoint name_len (filename : list Z) (room : nat) : Z :=
  match room, filename with
  | S r, c :: l => if c =? 0 then 0 else 1 + name_len l r
  | _, _ => 0
  end.

Definition make_node (mem : list Z) (i : Z) (h : tar_header_chain) : file_node :=
  let filename := slice mem (h_addr h) TAR_NAME_LEN in
  let nl := name_len filename 100 in
  let nl := if nl >? 128 - 1 then 128 - 1 else nl in
  mk_file (take (Z.to_nat nl) filename) (h_size h) i.

Definition initrd_init (fuel : nat) (mem : list Z) : option initrd :=
  hs ← parse fuel mem 0;
  Some (mk_initrd mem hs (imap (λ i h, make_node mem (Z.of_nat i) h) hs) (zlength hs) false).

Definition initrd_set_disk_mount (r : initrd) (b : bool) : initrd :=
  mk_initrd (i_mem r) (headers r) (root_nodes r) (nroot_nodes r) b.

(** Pointers to the nodes this file owns, and to the root of the disk. *)
Inductive iptr := IRoot | IDev | IFile (i : Z) | IDisk.

#[global] Instance iptr_eq_dec : EqDecision iptr.
Proof. solve_decision. Defined.

Definition dev_name : list Z := [100; 101; 118].
Definition disk_name : list Z := [100; 105; 115; 107].

Definition is_root (p : iptr) : bool := bool_decide (p = IRoot).

Definition initrd_readdir (r : initrd) (p : iptr) (index : Z) : option dirent :=
  if is_root p && (index =? 0) then Some (mk_dirent dev_name 0)
  else if is_root p && has_disk r && (index =? 1) then Some (mk_dirent disk_name 0)
  else
    let base := if is_root p then (if has_disk r then 2 else 1) else 1 in
    if (index <? base) || (u32 (index - base) >=? nroot_nodes r) then None
    else n ← root_nodes r !! Z.to_nat (index - base); Some (mk_dirent (f_name n) (f_inode n)).

(** The search loop from slot [i]. *)
Fixpoint find_file (nodes : list file_node) (i : Z) (name : list Z) : option iptr :=
  match nodes with
  | [] => None
  | n :: l => if CString.compare name (f_name n) =? 0 then Some (IFile i) else find_file l (i + 1) name
  end.

Definition initrd_finddir (r : initrd) (p : iptr) (name : list Z) : option iptr :=
  if is_root p && (CString.compare name dev_name =? 0) then Some IDev
  else if is_root p && has_disk r && (CString.compare name disk_name =? 0) then Some IDisk
  else find_file (root_nodes r) 0 name.

(** [None] is the panic. *)
Definition initrd_get_node_by_inode (r : initrd) (inode : Z) : option tar_header_chain :=
  if inode <? nroot_nodes r then headers r !! Z.to_nat inode else None.

(** The byte count and the bytes copied. *)
Definition initrd_read (r : initrd) (inode offset size : Z) : option (Z * list Z) :=
  h ← initrd_get_node_by_inode r inode;
  if offset >? h_size h then Some (0, [])
  else
    let size := if u32 (offset + size) >? h_size h then u32 (h_size h - offset) else size in
    Some (size, slice (i_mem r) (h_addr h + 512 + offset) size).

(** ** Archives *)

(** A member: the header fields the kernel reads, the ones it does not,
    and the contents. *)
Record member := mk_member { t_name : list Z; t_meta : list Z; t_rest : list Z; t_data : list Z }.

Fixpoint octal (k : nat) (n : Z) : list Z :=
  match k with O => [] | S k' => octal k' (n / 8) ++ [48 + n mod 8] end.

Definition pad_to (n : Z) (l : list Z) : list Z := l ++ replicate (Z.to_nat (n - zlength l)) 0.

Definition header_of (m : member) : list Z :=
  pad_to 100 (t_name m) ++ t_meta m ++ octal 11 (zlength (t_data m)) ++ t_rest m.

Definition entry (m : member) : list Z :=
  header_of m ++ t_data m ++ replicate (Z.to_nat (- zlength (t_data m) mod 512)) 0.

(** The archive: its members, and the zero block that ends it. *)
Definition archive (ms : list member) (trailer : list Z) : list Z :=
  concat (entry <$> ms) ++ 0 :: trailer.

Record member_ok (m : member) : Prop := {
  mo_name : 0 < zlength (t_name m) ≤ 100;
  mo_chars : Forall (λ c, c ≠ 0) (t_name m);
  mo_meta : zlength (t_meta m) = 24;
  mo_rest : zlength (t_rest m) = 377;
  mo_data : zlength (t_data m) < 4294967296;
}.

(** ** Sizes *)

Lemma length_octal k n : length (octal k n) = k.
Proof. revert n. induction k; intros n; simpl; [done|]. rewrite length_app, IHk. simpl. lia. Qed.

Lemma s8_octal d : 0 ≤ d < 8 → s8 (48 + d) = 48 + d.
Proof. intros. unfold Strto.s8. rewrite u8_small by lia. by rewrite (proj2 (Z.ltb_lt _ _)) by lia. Qed.

Lemma getsize_loop_ok k inp n count size :
  take k inp = octal k n → 0 ≤ n < 8 ^ Z.of_nat k → u32 count = count →
  u32 size = size → getsize_loop inp k count size = u32 (size + n * count).
Proof.
  revert n count size. induction k as [|k IH]; intros n count size Hi Hn Hc Hs; cbn [getsize_loop].
  { assert (n = 0) as -> by (simpl in Hn; lia). by rewrite Z.add_0_r. }
  assert (take k inp = octal k (n / 8) ∧ bget inp (Z.of_nat k) = 48 + n mod 8) as [Ht Hb].
  { cbn [octal] in Hi. pose proof (length_octal k (n / 8)) as Hl. split.
    - apply (f_equal (take k)) in Hi. rewrite take_take, Nat.min_l in Hi by lia.
      by rewrite take_app_length' in Hi.
    - apply bget_lookup. rewrite Nat2Z.id.
      assert (take (S k) inp !! k = Some (48 + n mod 8)) as Hk.
      { rewrite Hi. rewrite lookup_app_r by lia. by rewrite Hl, Nat.sub_diag. }
      rewrite lookup_take in Hk. by case_decide. }
  pose proof (Z.mod_pos_bound n 8 ltac:(lia)).
  rewrite Hb, s8_octal by lia. replace (48 + n mod 8 - 48) with (n mod 8) by lia.
  rewrite (u32_small (n mod 8)) by lia. rewrite (IH (n / 8)); try done.
  - unfold u32. rewrite Zplus_mod_idemp_l. set (M := 4294967296).
    rewrite (Z.mod_eq (n mod 8 * count) M), (Z.mod_eq (count * 8) M) by done.
    rewrite <- (Z.mod_add (size + n * count) (- (n mod 8 * count / M) - n / 8 * (count * 8 / M)) M) by done.
    assert (n * count = n / 8 * (count * 8) + n mod 8 * count) as ->
      by (rewrite (Z.div_mod n 8) at 1 by lia; ring).
    f_equal. ring.
  - replace (Z.of_nat (S k)) with (1 + Z.of_nat k) in Hn by lia. rewrite Z.pow_add_r in Hn by lia.
    split; [apply Z.div_pos; lia|apply Z.div_lt_upper_bound; lia].
  - unfold u32. by rewrite Zmod_mod.
  - unfold u32. by rewrite Zmod_mod.
Qed.

(** ** Layout *)

Lemma zlength_replicate {A} n (x : A) : 0 ≤ n → zlength (replicate (Z.to_nat n) x) = n.
Proof. intros. unfold zlength. rewrite length_replicate. lia. Qed.

Lemma slice_mid {A} (pre l suf : list A) off n :
  0 ≤ off → 0 ≤ n → off + n ≤ zlength l →
  slice (pre ++ l ++ suf) (zlength pre + off) n = slice l off n.
Proof.
  intros. unfold slice, zlength in *.
  replace (Z.to_nat (Z.of_nat (length pre) + off)) with (length pre + Z.to_nat off)%nat by lia.
  rewrite <- drop_drop, drop_app_length, drop_app_le by lia.
  rewrite take_app_le by (rewrite length_drop; lia). done.
Qed.

Lemma zlength_header m : member_ok m → zlength (header_of m) = 512.
Proof.
  intros [Hn _ Hm Hr _]. unfold header_of, pad_to. rewrite !zlength_app, zlength_replicate by lia.
  rewrite Hm, Hr. unfold zlength at 3. rewrite length_octal. lia.
Qed.

Lemma zlength_entry m :
  member_ok m →
  zlength (entry m) =
    (zlength (t_data m) / 512 + 1) * 512 + (if zlength (t_data m) mod 512 =? 0 then 0 else 512).
Proof.
  intros Hm. unfold entry. rewrite !zlength_app, (zlength_header m Hm).
  rewrite zlength_replicate by (apply Z.mod_pos_bound; lia). case_if; zdm.
Qed.

Section at_member.
Context (pre suf : list Z) (m : member) (Hm : member_ok m).

Lemma entry_first : bget (pre ++ entry m ++ suf) (zlength pre) ≠ 0.
Proof using Hm.
  destruct Hm as [Hn Hc _ _ _]. unfold bget, zlength. rewrite Nat2Z.id, lookup_app_r by lia.
  rewrite Nat.sub_diag. unfold entry, header_of, pad_to. destruct (t_name m) as [|c l]; [unfold zlength in Hn; simpl in Hn; lia|].
  simpl. by apply Forall_cons in Hc as [? _].
Qed.

Lemma entry_size :
  getsize (slice (pre ++ entry m ++ suf) (zlength pre + TAR_SIZE_OFF) 12) = zlength (t_data m).
Proof using Hm.
  pose proof (zlength_header m Hm) as Hh. unfold TAR_SIZE_OFF, getsize.
  rewrite slice_mid by (unfold entry; rewrite ?zlength_app, ?Hh; unfold zlength; lia).
  destruct Hm as [Hn Hc Hme Hr Hd].
  rewrite (getsize_loop_ok 11 _ (zlength (t_data m))).
  - rewrite Z.add_0_l, Z.mul_1_r. apply u32_small. unfold zlength in *. lia.
  - unfold slice. rewrite take_take. change (11 `min` Z.to_nat 12)%nat with 11%nat.
    unfold entry, header_of. rewrite <- !app_assoc, (app_assoc (pad_to _ _)).
    rewrite drop_app_length'.
    + apply take_app_length'. by rewrite length_octal.
    + unfold pad_to, zlength in *. rewrite !length_app, length_replicate. lia.
  - change (8 ^ Z.of_nat 11) with 8589934592. unfold zlength in *. lia.
  - done.
  - done.
Qed.

Lemma entry_name : slice (pre ++ entry m ++ suf) (zlength pre) TAR_NAME_LEN = pad_to 100 (t_name m).
Proof using Hm.
  pose proof (zlength_header m Hm) as Hh. rewrite <- (Z.add_0_r (zlength pre)). unfold TAR_NAME_LEN.
  rewrite slice_mid by (unfold entry; rewrite ?zlength_app, ?Hh; unfold zlength; lia).
  unfold slice, entry, header_of. rewrite <- !app_assoc. cbn [drop].
  apply take_app_length'. destruct Hm as [Hn _ _ _ _]. unfold pad_to.
  rewrite length_app, length_replicate. unfold zlength in *. lia.
Qed.

Lemma entry_data off n :
  0 ≤ off → 0 ≤ n → off + n ≤ zlength (t_data m) →
  slice (pre ++ entry m ++ suf) (zlength pre + 512 + off) n = slice (t_data m) off n.
Proof using Hm.
  intros. pose proof (zlength_header m Hm) as Hh. rewrite <- Z.add_assoc.
  rewrite slice_mid by (unfold entry; rewrite ?zlength_app, ?Hh; unfold zlength in *; lia).
  unfold entry. rewrite <- Hh. by apply slice_mid.
Qed.
End at_member.

Lemma name_len_ok l k r : Forall (λ c, c ≠ 0) l → (length l ≤ r)%nat →
  name_len (l ++ replicate k 0) r = zlength l.
Proof.
  revert r. induction l as [|c l IH]; intros r Hl Hr.
  - by destruct r, k.
  - apply Forall_cons in Hl as [Hc Hl]. destruct r as [|r]; [simpl in Hr; lia|]. simpl.
    rewrite (proj2 (Z.eqb_neq c 0)) by done. rewrite IH; [unfold zlength; simpl; lia|done|simpl in Hr; lia].
Qed.

(** ** Parsing *)

(** Where the headers of an archive that starts at [a] are. *)
Fixpoint heads (a : Z) (ms : list member) : list tar_header_chain :=
  match ms with
  | [] => []
  | m :: l => mk_header (zlength (t_data m)) a :: heads (a + zlength (entry m)) l
  end.

Lemma parse_ok ms pre trailer fuel :
  Forall member_ok ms → zlength (pre ++ archive ms trailer) < 4294967296 → (length ms < fuel)%nat →
  parse fuel (pre ++ archive ms trailer) (zlength pre) = Some (heads (zlength pre) ms).
Proof.
  revert pre fuel. induction ms as [|m ms IH]; intros pre fuel Hms Hlen Hf;
    (destruct fuel as [|fuel]; [simpl in Hf; lia|]); cbn [parse].
  { assert (bget (pre ++ archive [] trailer) (zlength pre) = 0) as ->; [|done].
    apply bget_lookup. unfold zlength. by rewrite Nat2Z.id, lookup_app_r, Nat.sub_diag by lia. }
  apply Forall_cons in Hms as [Hm Hms].
  assert (archive (m :: ms) trailer = entry m ++ archive ms trailer) as Ha.
  { unfold archive. rewrite fmap_cons. cbn [concat]. by rewrite app_assoc. }
  rewrite Ha in *. rewrite (proj2 (Z.eqb_neq _ _) (entry_first pre _ m Hm)), (entry_size pre _ m Hm).
  pose proof (zlength_entry m Hm) as He. rewrite !zlength_app in Hlen.
  set (n := zlength (t_data m)) in *.
  assert (0 ≤ zlength pre ∧ 0 ≤ zlength (archive ms trailer) ∧ 0 ≤ n / 512) as (Hp & Hr & Hq).
  { split_and!; [unfold zlength; lia|unfold zlength; lia|apply Z.div_pos; unfold n, zlength; lia]. }
  assert ((if negb (n mod 512 =? 0)
           then u32 (u32 (zlength pre + u32 (u32 (n / 512 + 1) * 512)) + 512)
           else u32 (zlength pre + u32 (u32 (n / 512 + 1) * 512))) = zlength (pre ++ entry m)) as ->.
  { rewrite zlength_app, He. destruct (n mod 512 =? 0); cbn [negb];
      rewrite !(u32_small (n / 512 + 1)), !(u32_small ((n / 512 + 1) * 512)) by lia;
      rewrite ?(u32_small (zlength pre + (n / 512 + 1) * 512)) by lia; rewrite ?u32_small by lia; lia. }
  rewrite app_assoc, IH; [|done|rewrite !zlength_app; lia|simpl in Hf; lia].
  cbn [mbind option_bind heads]. by rewrite zlength_app.
Qed.

(** The place of each member in memory. *)
Lemma heads_lookup ms i m trailer a pre :
  ms !! i = Some m → a = zlength pre →
  ∃ pre' suf, heads a ms !! i = Some (mk_header (zlength (t_data m)) (zlength pre')) ∧
    pre ++ archive ms trailer = pre' ++ entry m ++ suf.
Proof.
  revert i a pre. induction ms as [|m' ms IH]; intros i a pre Hi ->; [done|].
  assert (archive (m' :: ms) trailer = entry m' ++ archive ms trailer) as Ha.
  { unfold archive. rewrite fmap_cons. cbn [concat]. by rewrite app_assoc. }
  rewrite Ha. destruct i as [|i]; simpl in Hi.
  - simplify_eq. exists pre, (archive ms trailer). done.
  - destruct (IH i _ (pre ++ entry m') Hi eq_refl) as (pre' & suf & H1 & H2).
    exists pre', suf. rewrite <- H2, app_assoc. split; [|done]. cbn [heads lookup list_lookup].
    rewrite zlength_app in H1. exact H1.
Qed.

Lemma length_heads a ms : length (heads a ms) = length ms.
Proof. revert a. induction ms; intros; simpl; auto. Qed.

Lemma make_node_ok pre suf m i :
  member_ok m →
  make_node (pre ++ entry m ++ suf) i (mk_header (zlength (t_data m)) (zlength pre)) =
    mk_file (t_name m) (zlength (t_data m)) i.
Proof.
  intros Hm. unfold make_node. cbn [h_addr h_size]. rewrite entry_name by done.
  pose proof (mo_name _ Hm). unfold pad_to.
  rewrite name_len_ok; [|apply Hm|unfold zlength in *; lia].
  rewrite Z.gtb_ltb, (proj2 (Z.ltb_ge _ _)) by lia.
  unfold zlength at 1. rewrite Nat2Z.id, take_app_length. done.
Qed.

Lemma find_file_ok nodes k name i n :
  nodes !! i = Some n → f_name n = name →
  (∀ j n', (j < i)%nat → nodes !! j = Some n' → f_name n' ≠ name) →
  find_file nodes k name = Some (IFile (k + Z.of_nat i)).
Proof.
  revert k i. induction nodes as [|n0 nodes IH]; intros k i Hi Hn Hfirst; [done|]. cbn [find_file].
  destruct i as [|i]; simpl in Hi.
  - simplify_eq. rewrite (proj2 (Z.eqb_eq _ _) (proj2 (CString.compare_eq _ _) eq_refl)). by rewrite Z.add_0_r.
  - destruct (Z.eqb_spec (CString.compare name (f_name n0)) 0) as [He|].
    { apply CString.compare_eq in He. by destruct (Hfirst 0%nat n0 ltac:(lia) eq_refl). }
    rewrite (IH (k + 1) i); [do 2 f_equal; lia|done|done|]. intros j n' Hj. apply (Hfirst (S j)). lia.
Qed.

(** What boot builds from an archive. *)
Lemma init_ok ms trailer :
  Forall member_ok ms → zlength (archive ms trailer) < 4294967296 →
  ∃ r, initrd_init (S (length ms)) (archive ms trailer) = Some r ∧
    i_mem r = archive ms trailer ∧ headers r = heads 0 ms ∧ nroot_nodes r = zlength ms ∧
    has_disk r = false ∧
    root_nodes r = imap (λ i m, mk_file (t_name m) (zlength (t_data m)) (Z.of_nat i)) ms.
Proof.
  intros Hms Hlen. unfold initrd_init.
  pose proof (parse_ok ms [] trailer (S (length ms)) Hms Hlen ltac:(lia)) as Hp.
  change (zlength (@nil Z)) with 0 in Hp. rewrite app_nil_l in Hp. rewrite Hp. cbn [mbind option_bind]. eexists. split; [done|]. cbn [i_mem headers nroot_nodes has_disk root_nodes app].
  split_and!; [done|done|unfold zlength; by rewrite length_heads|done|].
  apply list_eq. intros i. rewrite !list_lookup_imap.
  destruct (ms !! i) as [m|] eqn:Hi.
  - destruct (heads_lookup ms i m trailer 0 [] Hi eq_refl) as (pre & suf & -> & Heq). simpl. f_equal.
    cbn [app] in Heq. rewrite Heq. apply make_node_ok. by eapply Forall_lookup_1 in Hi.
  - apply lookup_ge_None in Hi. rewrite (proj2 (lookup_ge_None _ _)); [done|]. by rewrite length_heads.
Qed.

(** from a tar archive in memory, boot builds a file system in which
    the first member of each name (other than "dev") is found under the
    root and reads, at every offset and size, as the bytes of the member,
    cut at its end. *)
Theorem initrd_serves_archive ms trailer i m :
  Forall member_ok ms → zlength (archive ms trailer) < 4294967296 →
  ms !! i = Some m → (∀ j m', (j < i)%nat → ms !! j = Some m' → t_name m' ≠ t_name m) →
  t_name m ≠ dev_name →
  ∃ r, initrd_init (S (length ms)) (archive ms trailer) = Some r ∧
    initrd_finddir r IRoot (t_name m) = Some (IFile (Z.of_nat i)) ∧
    ∀ off size, 0 ≤ off → 0 ≤ size → off + size < 4294967296 →
      let n := Z.max 0 (Z.min size (zlength (t_data m) - off)) in
      initrd_read r (Z.of_nat i) off size = Some (n, slice (t_data m) off n).
Proof.
  intros Hms Hlen Hi Hfirst Hdev. destruct (init_ok ms trailer Hms Hlen) as (r & Hr & Hmem & Hh & Hn & Hd & Hnodes).
  exists r. split_and!; [done| |].
  - unfold initrd_finddir. rewrite Hd. simpl.
    destruct (Z.eqb_spec (CString.compare (t_name m) dev_name) 0) as [He%CString.compare_eq|]; [done|].
    rewrite (find_file_ok _ 0 (t_name m) i (mk_file (t_name m) (zlength (t_data m)) (Z.of_nat i))); [done| |done|].
    + by rewrite Hnodes, list_lookup_imap, Hi.
    + intros j n' Hj. rewrite Hnodes, list_lookup_imap. destruct (ms !! j) as [m'|] eqn:Hj'; [|done].
      simpl. intros [= <-]. by apply (Hfirst j).
  - intros off size Ho Hs Hb. cbv zeta. unfold initrd_read, initrd_get_node_by_inode.
    pose proof (lookup_lt_Some _ _ _ Hi). rewrite Hn, (proj2 (Z.ltb_lt _ _)) by (unfold zlength; lia).
    destruct (heads_lookup ms i m trailer 0 [] Hi eq_refl) as (pre & suf & Hl & Heq). cbn [app] in Heq.
    rewrite Hh, Nat2Z.id, Hl. cbn [mbind option_bind h_size h_addr].
    assert (member_ok m) as Hm by (by eapply Forall_lookup_1 in Hi). pose proof (mo_data _ Hm).
    rewrite !Z.gtb_ltb, (u32_small (off + size)) by lia.
    destruct (Z.ltb_spec (zlength (t_data m)) off) as [Hpast|Hin].
    { by replace (Z.max 0 _) with 0 by lia. }
    replace (if zlength (t_data m) <? off + size then _ else size)
      with (Z.max 0 (Z.min size (zlength (t_data m) - off)))
      by (case_if; rewrite ?u32_small by lia; lia).
    rewrite Hmem, Heq, entry_data by (done || lia). done.
Qed.

Definition demo_member (name data : list Z) : member :=
  mk_member name (replicate 24 7) (replicate 377 9) data.
Definition demo : list member := [demo_member [97] [1; 2; 3]; demo_member [98; 99] (replicate 600 5)].

Lemma demo_ok : Forall member_ok demo.
Proof.
  constructor; [|constructor; [|done]]; constructor; try (by vm_compute); by repeat constructor.
Qed.

Lemma initrd_serves_archive_witness :
  ∃ r, initrd_init 3 (archive demo [0; 0]) = Some r ∧
    initrd_finddir r IRoot [98; 99] = Some (IFile 1) ∧
    initrd_read r 1 599 10 = Some (1, [5]).
Proof.
  destruct (initrd_serves_archive demo [0; 0] 1 (demo_member [98; 99] (replicate 600 5)))
    as (r & H1 & H2 & H3).
  - exact demo_ok.
  - by vm_compute.
  - done.
  - intros [|j] m' Hj Hm; [|lia]. simpl in Hm. by simplify_eq.
  - done.
  - exists r. split_and!; [done|done|]. exact (H3 599 10 ltac:(lia) ltac:(lia) ltac:(lia)).
Defined.

(** The end test adds two 32-bit numbers: a size close to 2^32 passes it,
    and the copy is not cut at the end of the file. *)
Lemma initrd_read_wraps r inode h offset size :
  initrd_get_node_by_inode r inode = Some h → 0 < offset ≤ h_size h → h_size h < 4294967296 →
  4294967296 - offset ≤ size < 4294967296 →
  ∃ l, initrd_read r inode offset size = Some (size, l) ∧ h_size h - offset < size.
Proof.
  intros Hg Ho Hh Hs. unfold initrd_read. rewrite Hg. cbn [mbind option_bind]. eexists. split; [|lia].
  rewrite !Z.gtb_ltb, (proj2 (Z.ltb_ge _ _)) by lia.
  assert (u32 (offset + size) = offset + size - 4294967296) as -> by (unfold u32; zdm).
  rewrite (proj2 (Z.ltb_ge _ _)) by lia. done.
Qed.
End Initrd.
