(* ===== verification/Namespace.v ===== *)
(** * The kernel's name space (kernel/main.c, vfs.c, initrd.c, ext2.c together)

    kmain makes the ramdisk the root file system and, when a disk mounts,
    shows its root as "disk".  Here the callbacks of the two file systems are
    plugged into the VFS layer: the state is the ramdisk and the mounted
    volume, and a node pointer denotes a node of one of them. *)

From S2P Require Import Prelude Bytes Block Ext2Types Ext2Core Ext2Alloc.
From S2P Require Import Ext2File Ext2Dir Ext2Conf Ext2Theorems.
From S2P Require Import CString Vfs Initrd.
From S2P Require Import Ext2Mount Ext2Theorems.

Module Namespace.
Import Vfs Initrd.

Section namespace.
Context {E : Type} `{BlockEnvOk E}.

Record kernel := mk_kernel { ramdisk : initrd; volume : fsys E }.

(** [NMount] is the mount context, which ext2 nodes keep in [ptr]. *)
Inductive nptr := NInit (p : iptr) | NExt (ino : Z) | NMount.

Definition on_ramdisk {A} (f : initrd → A) : ST kernel A := gets (λ k, f (ramdisk k)).
Definition on_volume {A} (c : ST (fsys E) A) : ST kernel A :=
  λ k, let '(a, v) := c (volume k) in (a, mk_kernel (ramdisk k) v).

(** What initrd_finddir returns for "disk" is the root node of the
    volume. *)
Definition route (k : kernel) (p : iptr) : nptr :=
  match p with IDisk => NExt (m_root_node (mnt (volume k))) | p => NInit p end.

Definition ptr_finddir (p : nptr) (name : list Z) : ST kernel (option nptr) :=
  λ k, match p with
       | NInit q => (route k <$> initrd_finddir (ramdisk k) q name, k)
       | NExt ino => let '(r, k') := on_volume (ext2_finddir ino name) k in (NExt <$> r, k')
       | NMount => (None, k)
       end.

Definition ptr_readdir (p : nptr) (index : Z) : ST kernel (option dirent) :=
  λ k, match p with
       | NInit q => (initrd_readdir (ramdisk k) q index, k)
       | NExt ino => let '(r, k') := on_volume (ext2_readdir ino index) k in
                     ((λ d, mk_dirent d.1 d.2) <$> r, k')
       | NMount => (None, k)
       end.

Definition ptr_read (p : nptr) (off size : Z) : ST kernel (list Z) :=
  match p with
  | NInit (IFile i) => on_ramdisk (λ r, default [] (snd <$> initrd_read r i off size))
  | NExt ino => on_volume (ext2_read_file ino off size)
  | _ => mret []
  end.

Definition ptr_write (p : nptr) (off size : Z) (buf : list Z) : ST kernel Z :=
  match p with NExt ino => on_volume (ext2_write_file ino off size buf) | _ => mret 0 end.

Definition ptr_create (p : nptr) (name : list Z) : ST kernel (option nptr) :=
  match p with
  | NExt ino => r ← on_volume (ext2_create ino name); mret (NExt <$> r)
  | _ => mret None
  end.

Definition ptr_mkdir (p : nptr) (name : list Z) : ST kernel Z :=
  match p with NExt ino => on_volume (ext2_mkdir ino name) | _ => mret (-1) end.

Definition ptr_truncate (p : nptr) : ST kernel Z :=
  match p with NExt ino => on_volume (ext2_truncate ino) | _ => mret (-1) end.

(** The nodes initrd_init and ext2_get_node build. *)
Definition initrd_dir : fs_node :=
  mk_node FS_DIRECTORY None None None None None (Some ptr_readdir) (Some ptr_finddir) None.
Definition initrd_file : fs_node :=
  mk_node FS_FILE None (Some ptr_read) None None None None None None.
Definition ext2_dir : fs_node :=
  mk_node FS_DIRECTORY (Some (mk_ops (Some ptr_create) (Some ptr_mkdir) None)) None None None None
    (Some ptr_readdir) (Some ptr_finddir) (Some NMount).
Definition ext2_file : fs_node :=
  mk_node FS_FILE (Some (mk_ops None None (Some ptr_truncate))) (Some ptr_read) (Some ptr_write)
    None None None None (Some NMount).

Definition node_at (k : kernel) (p : nptr) : fs_node :=
  match p with
  | NInit IRoot | NInit IDev => initrd_dir
  | NInit (IFile _) => initrd_file
  | NExt ino =>
      match m_node_cache (mnt (volume k)) !! ino with
      | Some n => if n_flags n =? FS_DIRECTORY then ext2_dir else ext2_file
      | None => ext2_file
      end
  | _ => initrd_file
  end.

Definition resolve (path : list Z) : ST kernel (option nptr) :=
  vfs_resolve node_at (Some (NInit IRoot)) (Some path).

(** ** Lookups do not write *)

(** The kernel state keeps its invariant and no block of the device
    changes. *)
Record untouched (k k' : kernel) : Prop := {
  un_ramdisk : ramdisk k' = ramdisk k;
  un_ok : fs_ok (volume k');
  un_lock : m_locked (mnt (volume k')) = false;
  un_geom : geom_of (mnt (volume k')) = geom_of (mnt (volume k));
  un_disk : ∀ b, blk (env (volume k')) b = blk (env (volume k)) b;
}.

Definition kernel_ok (k : kernel) : Prop := fs_ok (volume k) ∧ m_locked (mnt (volume k)) = false.

Lemma untouched_refl k : kernel_ok k → untouched k k.
Proof. intros []. by constructor. Qed.

Lemma untouched_trans k1 k2 k3 : untouched k1 k2 → untouched k2 k3 → untouched k1 k3.
Proof.
  intros [] []. constructor; [congruence|done|done|congruence|]. intros b. congruence.
Qed.

Lemma untouched_kernel_ok k k' : untouched k k' → kernel_ok k'.
Proof. intros []. by split. Qed.

Lemma finddir_untouched p name k :
  kernel_ok k → untouched k (vfs_finddir node_at p name k).2.
Proof.
  intros [Hs Hl]. unfold vfs_finddir, node, gets, mbind, ST_bind.
  assert (untouched k (ptr_finddir p name k).2) as Hf.
  { destruct p as [q|ino|]; [by apply untouched_refl| |by apply untouched_refl].
    unfold ptr_finddir, on_volume.
    destruct (kp_run _ _ _ _ _ _ (volume k) (kp_finddir _ (λ _, False) ino name) Hs eq_refl Hl)
      as (H1 & H2 & H3 & H4).
    destruct (ext2_finddir ino name (volume k)) as [r v]. constructor; cbn; try done.
    intros b. by apply H4; intros []. }
  destruct (finddir (node_at k p)) as [f|] eqn:Ef; [|by apply untouched_refl].
  assert (f = ptr_finddir) as ->.
  { unfold node_at in Ef. repeat case_match; simpl in Ef; by simplify_eq. }
  destruct (is_directory (node_at k p)); [exact Hf|by apply untouched_refl].
Qed.

(** No node is a mountpoint: the volume's own root stands for "disk". *)
Lemma not_mountpoint k p : Z.land (flags (node_at k p)) FS_MOUNTPOINT = 0.
Proof. unfold node_at. by repeat case_match. Qed.

Lemma follow_id p k : vfs_follow node_at p k = (p, k).
Proof.
  unfold vfs_follow, node, gets, mbind, ST_bind. rewrite not_mountpoint. by destruct (ptr _).
Qed.

Lemma walk_untouched names p k : kernel_ok k → untouched k (walk node_at p names k).2.
Proof.
  revert p k. induction names as [|w ws IH]; intros p k Hk; [by apply untouched_refl|]. cbn [walk].
  case_bool_decide; [by apply untouched_refl|]. unfold mbind, ST_bind.
  pose proof (finddir_untouched p w k Hk) as Hf.
  destruct (vfs_finddir node_at p w k) as [[q|] k1]; [|done]. rewrite follow_id.
  eapply untouched_trans; [exact Hf|]. apply IH. by eapply untouched_kernel_ok.
Qed.

(** resolving any path, through the ramdisk and the disk and whatever
    faults the device has, changes no block of the device, leaves the
    ramdisk alone, keeps the volume's invariant and leaves its mutex
    free. *)
Theorem resolve_read_only k path :
  kernel_ok k → untouched k (resolve path k).2.
Proof.
  intros Hk. unfold resolve. rewrite resolve_walk. destruct (components path); [by apply untouched_refl|].
  rewrite follow_id. by apply walk_untouched.
Qed.

(** The names after "disk" are looked up in the volume. *)
Lemma walk_disk k names :
  has_disk (ramdisk k) = true →
  walk node_at (NInit IRoot) (disk_name :: names) k =
    walk node_at (NExt (m_root_node (mnt (volume k)))) names k.
Proof.
  intros Hd. cbn [walk]. rewrite bool_decide_false by (simpl; lia).
  assert (vfs_finddir node_at (NInit IRoot) disk_name k = (Some (NExt (m_root_node (mnt (volume k)))), k)) as Hf.
  { transitivity (route k <$> initrd_finddir (ramdisk k) IRoot disk_name, k); [reflexivity|].
    unfold initrd_finddir. by rewrite Hd. }
  unfold mbind, ST_bind. by rewrite Hf, follow_id.
Qed.
End namespace.

(** with a disk mounted, "/disk/<name>" (with any number of slashes
    anywhere) resolves to what ext2_finddir finds under the volume's root,
    in the state it leaves. *)
Theorem resolve_disk_file {E} `{BlockEnvOk E} (k : @kernel E) path name root :
  components path = [disk_name; name] → has_disk (ramdisk k) = true → (length name ≤ 127)%nat →
  m_node_cache (mnt (volume k)) !! m_root_node (mnt (volume k)) = Some root →
  n_flags root = FS_DIRECTORY →
  resolve path k =
    let '(r, v) := ext2_finddir (m_root_node (mnt (volume k))) name (volume k) in
    (NExt <$> r, mk_kernel (ramdisk k) v).
Proof.
  intros Hp Hd Hn Hr Hf. unfold resolve. rewrite resolve_walk, Hp, follow_id, (walk_disk k [name] Hd).
  cbn [walk]. rewrite bool_decide_false by lia.
  assert (vfs_finddir node_at (NExt (m_root_node (mnt (volume k)))) name k =
    ptr_finddir (NExt (m_root_node (mnt (volume k)))) name k) as Hfd.
  { unfold vfs_finddir, node, gets, mbind, ST_bind. unfold node_at. rewrite Hr, Hf. reflexivity. }
  unfold mbind, ST_bind. rewrite Hfd. unfold ptr_finddir, on_volume.
  destruct (ext2_finddir _ _ _) as [[ino|] v]; [|reflexivity].
  cbn [fmap option_fmap option_map]. by rewrite follow_id.
Qed.

(** The ramdisk of two files over the mounted volume with the file "f". *)
Definition demo_ramdisk : initrd :=
  initrd_set_disk_mount
    (default (mk_initrd [] [] [] 0 false) (initrd_init 3 (archive demo [0; 0]))) true.
Definition demo_kernel : kernel := mk_kernel demo_ramdisk img_file.

Strategy 100 [demo_ramdisk demo_kernel].

Lemma resolve_read_only_witness :
  untouched demo_kernel (resolve [47; 100; 105; 115; 107; 47; 47; 102] demo_kernel).2.
Proof. apply resolve_read_only. destruct img_file_ok as (Hs & Hl & _). by split. Defined.

Definition demo_root : ext2_node :=
  default {| n_name := []; n_flags := 0; n_inode := 0; n_length := 0 |}
    (m_node_cache (mnt (volume demo_kernel)) !! m_root_node (mnt (volume demo_kernel))).

Lemma demo_root_eq :
  m_node_cache (mnt (volume demo_kernel)) !! m_root_node (mnt (volume demo_kernel)) = Some demo_root.
Proof. vm_compute. reflexivity. Qed.

Lemma resolve_disk_file_witness :
  resolve [100; 105; 115; 107; 47; 102; 47] demo_kernel =
    (let '(r, v) := ext2_finddir (m_root_node (mnt (volume demo_kernel))) [102] (volume demo_kernel) in
     (NExt <$> r, mk_kernel (ramdisk demo_kernel) v)) ∧
  (resolve [100; 105; 115; 107; 47; 102; 47] demo_kernel).1 = Some (NExt 11).
Proof.
  split; [|vm_compute; reflexivity].
  apply (resolve_disk_file demo_kernel [100; 105; 115; 107; 47; 102; 47] [102] demo_root).
  - reflexivity.
  - vm_compute. reflexivity.
  - simpl. lia.
  - exact demo_root_eq.
  - vm_compute. reflexivity.
Defined.
End Namespace.
