(* ===== verification/NetCsum.v ===== *)
(** * Byte order and the Internet checksum (include/net.h, kernel/net.c)

    The checksum is accumulated and folded with 32-bit wrap-around; the
    theorems relate it to one's-complement arithmetic modulo 65535. *)

From S2P Require Import Prelude Bytes.

Module NetCsum.

Definition htons (v : Z) : Z := u16 (Z.lor (Z.shiftr v 8) (Z.shiftl v 8)).
Definition ntohs (v : Z) : Z := htons v.

Definition htonl (v : Z) : Z :=
  u32 (Z.lor (Z.lor (Z.lor (Z.shiftl (Z.land v 0x000000FF) 24) (Z.shiftl (Z.land v 0x0000FF00) 8))
         (Z.shiftr (Z.land v 0x00FF0000) 8)) (Z.shiftr v 24)).
Definition ntohl (v : Z) : Z := htonl v.

(** [sum] plus the 16-bit big-endian words of [data]; an odd last byte is the
    high byte of a word. *)
Fixpoint net_csum_add (sum : Z) (data : list Z) : Z :=
  match data with
  | a :: b :: l => net_csum_add (u32 (sum + Z.lor (Z.shiftl a 8) b)) l
  | [a] => u32 (sum + Z.shiftl a 8)
  | [] => sum
  end.

(** [while (sum >> 16) sum = (sum & 0xFFFF) + (sum >> 16)]. *)
Fixpoint csum_fold (fuel : nat) (sum : Z) : Z :=
  match fuel with
  | O => sum
  | S n => if Z.shiftr sum 16 =? 0 then sum
           else csum_fold n (u32 (Z.land sum 0xFFFF + Z.shiftr sum 16))
  end.

Definition net_csum_fin (sum : Z) : Z := htons (u16 (Z.lnot (csum_fold 4 sum))).

(** ** Byte order *)

Lemma lor_bytes a b : is_byte b → Z.lor (Z.shiftl a 8) b = a * 256 + b.
Proof. intros Hb. rewrite Z.shiftl_mul_pow2 by lia. by rewrite lor_add by (done || lia). Qed.

Lemma htons_val v : 0 ≤ v < 65536 → htons v = v mod 256 * 256 + v / 256.
Proof.
  intros Hv. unfold htons. rewrite Z.shiftr_div_pow2 by lia. change (2 ^ 8) with 256.
  rewrite Z.lor_comm.
  assert (is_byte (v / 256)) as Hb by (unfold is_byte; zdm).
  rewrite lor_bytes by done. unfold u16. zdm.
Qed.

(** A 16-bit field stored by the code is big-endian on the wire. *)
Lemma htons_wire v : 0 ≤ v < 65536 → le_enc 2 (htons v) = [v / 256; v mod 256].
Proof. intros Hv. rewrite htons_val by done. cbn [le_enc]. f_equal; [zdm|]. f_equal. zdm. Qed.

Lemma htons_involutive v : 0 ≤ v < 65536 → ntohs (htons v) = v.
Proof. intros Hv. unfold ntohs. rewrite htons_val by (rewrite htons_val by done; zdm). rewrite htons_val by done. zdm. Qed.

(** The byte of [v] at bit [k]. *)
Lemma land_byte v k : 0 ≤ k → Z.land v (255 * 2 ^ k) = v / 2 ^ k mod 256 * 2 ^ k.
Proof.
  intros Hk. apply Z.bits_inj'. intros n Hn. rewrite Z.land_spec. destruct (decide (n < k)).
  - rewrite !Z.mul_pow2_bits_low by lia. apply andb_false_r.
  - rewrite !Z.mul_pow2_bits by lia. change 255 with (Z.ones 8). change 256 with (2 ^ 8).
    rewrite <- Z.land_ones, Z.land_spec, Z.div_pow2_bits by lia. f_equal. f_equal. lia.
Qed.

Lemma htonl_val v :
  0 ≤ v < 4294967296 →
  htonl v = v mod 256 * 2 ^ 24 + (v / 2 ^ 8 mod 256 * 2 ^ 16 + (v / 2 ^ 16 mod 256 * 2 ^ 8 + v / 2 ^ 24)).
Proof.
  intros Hv. unfold htonl. change 0x000000FF with (255 * 2 ^ 0). change 0x0000FF00 with (255 * 2 ^ 8).
  change 0x00FF0000 with (255 * 2 ^ 16). rewrite !land_byte by lia.
  rewrite !Z.shiftl_mul_pow2, !Z.shiftr_div_pow2 by lia. rewrite <- !Z.lor_assoc.
  change (2 ^ 0) with 1. rewrite Z.div_1_r, Z.mul_1_r.
  set (b0 := v mod 256). set (b1 := v / 2 ^ 8 mod 256). set (b2 := v / 2 ^ 16 mod 256). set (b3 := v / 2 ^ 24).
  assert (0 ≤ b0 < 256 ∧ 0 ≤ b1 < 256 ∧ 0 ≤ b2 < 256 ∧ 0 ≤ b3 < 256) as (B0 & B1 & B2 & B3).
  { split_and!; try (apply Z.mod_pos_bound; lia); unfold b3; [apply Z.div_pos; lia|].
    apply Z.div_lt_upper_bound; lia. }
  replace (b1 * 2 ^ 8 * 2 ^ 8) with (b1 * 2 ^ 16) by lia.
  replace (b2 * 2 ^ 16 / 2 ^ 8) with (b2 * 2 ^ 8)
    by (replace (b2 * 2 ^ 16) with (b2 * 2 ^ 8 * 2 ^ 8) by lia; by rewrite Z.div_mul by lia).
  rewrite (lor_add b2 b3 8), (lor_add b1 _ 16), (lor_add b0 _ 24) by lia. apply u32_small. lia.
Qed.

(** The 32-bit fields too. *)
Lemma htonl_wire v :
  0 ≤ v < 4294967296 →
  le_enc 4 (htonl v) = [v / 2 ^ 24; v / 2 ^ 16 mod 256; v / 2 ^ 8 mod 256; v mod 256].
Proof.
  intros Hv. rewrite htonl_val by done.
  set (b0 := v mod 256). set (b1 := v / 2 ^ 8 mod 256). set (b2 := v / 2 ^ 16 mod 256). set (b3 := v / 2 ^ 24).
  assert (0 ≤ b0 < 256 ∧ 0 ≤ b1 < 256 ∧ 0 ≤ b2 < 256 ∧ 0 ≤ b3 < 256) as (B0 & B1 & B2 & B3).
  { split_and!; try (apply Z.mod_pos_bound; lia); unfold b3; [apply Z.div_pos; lia|].
    apply Z.div_lt_upper_bound; lia. }
  clearbody b0 b1 b2 b3. cbn [le_enc]. change (2 ^ 24) with 16777216. change (2 ^ 16) with 65536.
  change (2 ^ 8) with 256. repeat (f_equal; [zdm|]). f_equal. zdm.
Qed.

Lemma htonl_involutive v : 0 ≤ v < 4294967296 → ntohl (htonl v) = v.
Proof.
  intros Hv. unfold ntohl. rewrite (htonl_val v) by done.
  set (b0 := v mod 256). set (b1 := v / 2 ^ 8 mod 256). set (b2 := v / 2 ^ 16 mod 256). set (b3 := v / 2 ^ 24).
  assert (v = b3 * 2 ^ 24 + b2 * 2 ^ 16 + b1 * 2 ^ 8 + b0) as Hval by (unfold b0, b1, b2, b3; zdm).
  assert (0 ≤ b0 < 256 ∧ 0 ≤ b1 < 256 ∧ 0 ≤ b2 < 256 ∧ 0 ≤ b3 < 256) as (B0 & B1 & B2 & B3).
  { split_and!; try (apply Z.mod_pos_bound; lia); unfold b3; [apply Z.div_pos; lia|].
    apply Z.div_lt_upper_bound; lia. }
  rewrite Hval. clearbody b0 b1 b2 b3. clear v Hv Hval. change (2 ^ 24) with 16777216 in *.
  change (2 ^ 16) with 65536 in *. change (2 ^ 8) with 256 in *.
  rewrite htonl_val by lia. change (2 ^ 24) with 16777216. change (2 ^ 16) with 65536. change (2 ^ 8) with 256.
  zdm.
Qed.

(** ** Sums *)

(** The words of a byte string and their sum. *)
Fixpoint word_sum (data : list Z) : Z :=
  match data with
  | a :: b :: l => a * 256 + b + word_sum l
  | [a] => a * 256
  | [] => 0
  end.

Lemma list_two_ind {A} (P : list A → Prop) :
  P [] → (∀ a, P [a]) → (∀ a b l, P l → P (a :: b :: l)) → ∀ l, P l.
Proof.
  intros H0 H1 H2. fix IH 1. intros [|a [|b l]]; [exact H0|apply H1|apply H2, IH].
Qed.

Lemma word_sum_bound data : bytes_ok data → 0 ≤ word_sum data ≤ 65535 * (zlength data + 1) / 2.
Proof.
  induction data as [|a|a b l IH] using list_two_ind; intros Hd.
  - simpl. unfold zlength. simpl. zdm.
  - apply Forall_cons in Hd as [Ha _]. simpl. unfold is_byte, zlength in *. simpl. zdm.
  - apply Forall_cons in Hd as [Ha Hd]. apply Forall_cons in Hd as [Hb Hd]. specialize (IH Hd).
    cbn [word_sum]. unfold is_byte, zlength in *. simpl length in *. zdm.
Qed.

Lemma csum_add_sum data sum :
  bytes_ok data → u32 sum = sum → net_csum_add sum data = u32 (sum + word_sum data).
Proof.
  revert sum. induction data as [|a|a b l IH] using list_two_ind; intros sum Hd Hs; cbn [net_csum_add word_sum].
  - by rewrite Z.add_0_r.
  - rewrite Z.shiftl_mul_pow2 by lia. done.
  - apply Forall_cons in Hd as [Ha Hd]. apply Forall_cons in Hd as [Hb Hd].
    rewrite lor_bytes by done. rewrite IH; [|done|unfold u32; by rewrite Zmod_mod].
    unfold u32. rewrite Zplus_mod_idemp_l. f_equal. lia.
Qed.

Lemma word_sum_app l k : Nat.Even (length l) → word_sum (l ++ k) = word_sum l + word_sum k.
Proof.
  induction l as [|a|a b l IH] using list_two_ind; intros He; [done| |].
  - exfalso. simpl in He. destruct He as [n He]. lia.
  - cbn [app word_sum]. rewrite IH; [lia|]. destruct He as [n He]. exists (n - 1)%nat. simpl in He. lia.
Qed.

(** One folding round keeps the residue modulo 65535. *)
Lemma fold_round s : 0 ≤ s < 4294967296 →
  let s' := Z.land s 0xFFFF + Z.shiftr s 16 in
  s' = s mod 65536 + s / 65536 ∧ s' mod 65535 = s mod 65535 ∧ 0 ≤ s' < 131071 ∧ (s' = 0 → s = 0).
Proof.
  intros Hs s'. assert (s' = s mod 65536 + s / 65536) as He.
  { unfold s'. change 0xFFFF with (Z.ones 16). rewrite Z.land_ones, Z.shiftr_div_pow2 by lia. done. }
  rewrite He. split_and!; [done| |zdm|zdm|zdm].
  rewrite (Z.div_mod s 65536) at 3 by lia.
  replace (65536 * (s / 65536) + s mod 65536) with (s mod 65536 + s / 65536 + s / 65536 * 65535) by lia.
  by rewrite Z.mod_add by lia.
Qed.

(** Four rounds are enough: the fold ends with a 16-bit sum. *)
Lemma csum_fold_ok s :
  0 ≤ s < 4294967296 →
  0 ≤ csum_fold 4 s < 65536 ∧ csum_fold 4 s mod 65535 = s mod 65535 ∧ (csum_fold 4 s = 0 → s = 0).
Proof.
  intros Hs. cbn [csum_fold].
  assert (∀ x, 0 ≤ x → (Z.shiftr x 16 =? 0) = true ↔ x < 65536) as Hsh.
  { intros x Hx. rewrite Z.eqb_eq, Z.shiftr_div_pow2 by lia. change (2 ^ 16) with 65536. zdm. }
  destruct (Z.shiftr s 16 =? 0) eqn:E; [apply Hsh in E; [|lia]; split_and!; (done || lia)|]. clear E.
  destruct (fold_round s Hs) as (E1 & R1 & B1 & Z1). cbv zeta in *. set (s1 := Z.land s 65535 + Z.shiftr s 16) in *.
  rewrite (u32_small s1) by lia.
  destruct (Z.shiftr s1 16 =? 0) eqn:E; [apply Hsh in E; [|lia]; split_and!; [lia|lia|done|tauto]|]. clear E.
  destruct (fold_round s1 ltac:(lia)) as (E2 & R2 & B2 & Z2). cbv zeta in *.
  set (s2 := Z.land s1 65535 + Z.shiftr s1 16) in *. rewrite (u32_small s2) by lia.
  assert (s2 < 65536) as Hlt by zdm.
  rewrite (proj2 (Hsh s2 ltac:(lia)) Hlt). split_and!; [lia|lia|congruence|tauto].
Qed.

Lemma lnot16 s : 0 ≤ s < 65536 → u16 (Z.lnot s) = 65535 - s.
Proof. intros. unfold Z.lnot, u16. zdm. Qed.

(** The checksum field of a message: the bytes the code stores. *)
Lemma csum_fin_wire s :
  0 ≤ s < 4294967296 →
  let c := 65535 - csum_fold 4 s in
  le_enc 2 (net_csum_fin s) = [c / 256; c mod 256] ∧ 0 ≤ c < 65536.
Proof.
  intros Hs. destruct (csum_fold_ok s Hs) as (Hr & _). unfold net_csum_fin. rewrite lnot16 by lia. cbv zeta.
  rewrite htons_wire by lia. split; [done|lia].
Qed.

(** Storing the checksum of a message in a field of it that was zero makes
    the checksum of the whole message zero. *)
Lemma csum_stored pre post sum0 :
  bytes_ok pre → bytes_ok post → Nat.Even (length pre) → 0 ≤ sum0 →
  sum0 + 65535 * (zlength pre + zlength post + 4) < 4294967296 →
  let c := net_csum_fin (net_csum_add sum0 (pre ++ [0; 0] ++ post)) in
  net_csum_fin (net_csum_add sum0 (pre ++ le_enc 2 c ++ post)) = 0.
Proof.
  intros Hp Hq He Hs0 Hb c.
  pose proof (word_sum_bound pre Hp) as B1. pose proof (word_sum_bound post Hq) as B2.
  assert (bytes_ok (pre ++ [0; 0] ++ post)) as Hz.
  { apply Forall_app. split; [done|]. repeat constructor; unfold is_byte; try lia. done. }
  assert (sum0 + word_sum pre + word_sum post + 65535 < 4294967296 ∧ 0 ≤ zlength pre ∧ 0 ≤ zlength post) as (Hw & _ & _).
  { unfold zlength in *. zdm. }
  set (s := sum0 + word_sum pre + word_sum post).
  assert (net_csum_add sum0 (pre ++ [0; 0] ++ post) = s) as Hsum.
  { rewrite csum_add_sum by (done || apply u32_small; lia). rewrite word_sum_app by done. cbn [app word_sum].
    rewrite u32_small by (unfold s; lia). unfold s. lia. }
  unfold c. rewrite Hsum.
  destruct (csum_fin_wire s ltac:(unfold s; lia)) as [Hc Hcr]. cbv zeta in *. rewrite Hc. clear c Hc.
  set (c := 65535 - csum_fold 4 s) in *. destruct (csum_fold_ok s ltac:(unfold s; lia)) as (Hfr & Hfm & Hfz).
  assert (bytes_ok (pre ++ [c / 256; c mod 256] ++ post)) as Hok.
  { apply Forall_app. split; [done|]. repeat constructor; unfold is_byte; try zdm. done. }
  rewrite csum_add_sum by (done || apply u32_small; lia). rewrite word_sum_app by done. cbn [app word_sum].
  replace (sum0 + (word_sum pre + (c / 256 * 256 + c mod 256 + word_sum post))) with (s + c) by (unfold s; zdm).
  rewrite u32_small by (unfold s in *; lia).
  destruct (csum_fold_ok (s + c) ltac:(unfold s in *; lia)) as (Hr & Hm & Hzero).
  assert ((s + c) mod 65535 = 0) as Hmod.
  { unfold c. replace (s + (65535 - csum_fold 4 s)) with (s - csum_fold 4 s + 1 * 65535) by lia.
    rewrite Z.mod_add by lia. rewrite Zminus_mod, Hfm, Z.sub_diag. done. }
  unfold net_csum_fin. assert (csum_fold 4 (s + c) = 65535) as ->.
  { destruct (decide (csum_fold 4 (s + c) = 0)) as [H0|H0].
    { apply Hzero in H0. assert (s = 0) as Hsz by (unfold s, c in *; lia).
      unfold c in H0. rewrite Hsz in H0. done. }
    rewrite Hmod in Hm. zdm. }
  done.
Qed.
End NetCsum.
