(* ===== verification/Net.v ===== *)
(** * Network state and transmission (kernel/net.c, include/net.h)

    The state of the stack, the interface to the network card, and the send
    side of Ethernet, ARP and IPv4.  Every function here runs with interrupts
    masked, so it is one atomic state transformer; [txframe] is filled from
    its first byte to the length transmitted on every use, so a frame is the
    list of those bytes. *)

From S2P Require Import Prelude Bytes Ring NetCsum.

Module Net.
Import NetCsum.

(** ** The network card *)

(** What the stack sees of drivers/rtl8139.c: [rtl8139_present],
    [rtl8139_mac] and [rtl8139_tx], and the frames the card has been given. *)
Class Nic (D : Type) := {
  nic_present : D → bool;
  nic_mac : D → list Z;
  nic_tx : list Z → ST D Z;
  nic_wire : D → list (list Z);
}.

(** Short frames are padded to the Ethernet minimum. *)
Definition eth_pad (frame : list Z) : list Z := frame ++ replicate (60 - length frame) 0.

(** What a driver promises, on the states [nic_ok] it can be in. *)
Class NicOk (D : Type) `{Nic D} := {
  nic_ok : D → Prop;
  nic_mac_ok d : nic_ok d → length (nic_mac d) = 6%nat ∧ bytes_ok (nic_mac d);
  nic_tx_frame f d :
    nic_ok d →
    nic_ok (nic_tx f d).2 ∧ nic_present (nic_tx f d).2 = nic_present d ∧ nic_mac (nic_tx f d).2 = nic_mac d;
  nic_tx_ok f d :
    nic_ok d →
    (nic_tx f d).1 = 0 ∧ nic_wire (nic_tx f d).2 = nic_wire d ++ [eth_pad f] ∨
    (nic_tx f d).1 = -1 ∧ nic_wire (nic_tx f d).2 = nic_wire d;
}.

(** ** State *)

(** [dnsq]. *)
Record dnsq := mk_dnsq { busy : bool; done : bool; q_id : Z; q_port : Z; q_addr : Z }.

Inductive tcp_state := TS_FREE | TS_SYN_SENT | TS_ESTABLISHED | TS_LINGER.

#[global] Instance tcp_state_eq_dec : EqDecision tcp_state.
Proof. solve_decision. Defined.

(** [struct tcp_sock]; the receive ring is [rx] with [rx_head]/[rx_tail]. *)
Record tcp_sock := mk_sock {
  state : tcp_state;
  refs : Z;
  rip : Z;
  rport : Z;
  lport : Z;
  snd_nxt : Z;
  snd_una : Z;
  rcv_nxt : Z;
  peer_fin : bool;
  reset : bool;
  fin_sent : bool;
  close_ticks : Z;
  rx : ring;
}.

(** The static variables of net.c and tcp.c, with the card and the tick
    counter. *)
Record net (D : Type) := mk_net {
  nic : D;
  gw_mac : list Z;
  gw_valid : bool;
  ip_id : Z;
  dns : dnsq;
  next_id : Z;
  socks : list tcp_sock;
  next_port : Z;
  timer_ticks : Z;
}.
Arguments mk_net {D}.
Arguments nic {D}.
Arguments gw_mac {D}.
Arguments gw_valid {D}.
Arguments ip_id {D}.
Arguments dns {D}.
Arguments next_id {D}.
Arguments socks {D}.
Arguments next_port {D}.
Arguments timer_ticks {D}.

Section setters.
Context {D : Type}.
Implicit Types s : net D.

Definition set_nic (d : D) (s : net D) : net D :=
  mk_net d (gw_mac s) (gw_valid s) (ip_id s) (dns s) (next_id s) (socks s) (next_port s) (timer_ticks s).
Definition set_gw (mac : list Z) (s : net D) : net D :=
  mk_net (nic s) mac true (ip_id s) (dns s) (next_id s) (socks s) (next_port s) (timer_ticks s).
Definition set_ip_id (i : Z) (s : net D) : net D :=
  mk_net (nic s) (gw_mac s) (gw_valid s) i (dns s) (next_id s) (socks s) (next_port s) (timer_ticks s).
Definition set_dns (q : dnsq) (s : net D) : net D :=
  mk_net (nic s) (gw_mac s) (gw_valid s) (ip_id s) q (next_id s) (socks s) (next_port s) (timer_ticks s).
Definition set_next_id (i : Z) (s : net D) : net D :=
  mk_net (nic s) (gw_mac s) (gw_valid s) (ip_id s) (dns s) i (socks s) (next_port s) (timer_ticks s).
Definition set_socks (l : list tcp_sock) (s : net D) : net D :=
  mk_net (nic s) (gw_mac s) (gw_valid s) (ip_id s) (dns s) (next_id s) l (next_port s) (timer_ticks s).
Definition set_next_port (p : Z) (s : net D) : net D :=
  mk_net (nic s) (gw_mac s) (gw_valid s) (ip_id s) (dns s) (next_id s) (socks s) p (timer_ticks s).
Definition set_ticks (t : Z) (s : net D) : net D :=
  mk_net (nic s) (gw_mac s) (gw_valid s) (ip_id s) (dns s) (next_id s) (socks s) (next_port s) t.
End setters.

(** ** Addresses *)

Definition IP4 (a b c d : Z) : Z :=
  Z.lor (Z.lor (Z.lor a (Z.shiftl b 8)) (Z.shiftl c 16)) (Z.shiftl d 24).

Definition net_ip : Z := IP4 10 0 2 15.
Definition net_gateway : Z := IP4 10 0 2 2.
Definition net_dns : Z := IP4 10 0 2 3.

Definition ETH_TYPE_IP : Z := 0x0800.
Definition ETH_TYPE_ARP : Z := 0x0806.
Definition IP_PROTO_TCP : Z := 6.
Definition IP_PROTO_UDP : Z := 17.
Definition eth_bcast : list Z := replicate 6 0xFF.

Section net.
Context {D : Type} `{Nic D}.
Abbreviation M := (ST (net D)).

Definition net_up : M bool := gets (λ s, nic_present (nic s)).

Definition rtl8139_tx (frame : list Z) : M Z := λ s,
  let '(r, d) := nic_tx frame (nic s) in (r, set_nic d s).

(** [struct eth_hdr]. *)
Definition eth_hdr (dst src : list Z) (type : Z) : list Z := dst ++ src ++ le_enc 2 (htons type).

Definition eth_tx (dst_mac : list Z) (type : Z) (payload : list Z) : M unit :=
  if zlength payload >? 1500 then mret tt else
  mac ← gets (λ s, nic_mac (nic s));
  _ ← rtl8139_tx (eth_hdr dst_mac mac type ++ payload);
  mret tt.

(** [struct arp_pkt]. *)
Definition arp_pkt (op : Z) (sha : list Z) (spa : Z) (tha : list Z) (tpa : Z) : list Z :=
  le_enc 2 (htons 1) ++ le_enc 2 (htons ETH_TYPE_IP) ++ [6; 4] ++ le_enc 2 (htons op) ++
  sha ++ le_enc 4 spa ++ tha ++ le_enc 4 tpa.

Definition arp_send (op : Z) (dst_mac : list Z) (target_ip : Z) : M unit :=
  mac ← gets (λ s, nic_mac (nic s));
  eth_tx (if op =? 1 then eth_bcast else dst_mac) ETH_TYPE_ARP
    (arp_pkt op mac net_ip dst_mac target_ip).

Definition sizeof_arp_pkt : Z := 28.

(** The fields of a received [struct arp_pkt]. *)
Definition arp_htype (pkt : list Z) : Z := rd16 pkt 0.
Definition arp_ptype (pkt : list Z) : Z := rd16 pkt 2.
Definition arp_op (pkt : list Z) : Z := rd16 pkt 6.
Definition arp_sha (pkt : list Z) : list Z := slice pkt 8 6.
Definition arp_spa (pkt : list Z) : Z := rd32 pkt 14.
Definition arp_tpa (pkt : list Z) : Z := rd32 pkt 24.

Definition arp_input (pkt : list Z) : M unit :=
  if zlength pkt <? sizeof_arp_pkt then mret tt else
  if negb (arp_htype pkt =? htons 1) || negb (arp_ptype pkt =? htons ETH_TYPE_IP) then mret tt else
  if (arp_op pkt =? htons 2) && (arp_spa pkt =? net_gateway) then modify (set_gw (arp_sha pkt))
  else if (arp_op pkt =? htons 1) && (arp_tpa pkt =? net_ip) then
    arp_send 2 (arp_sha pkt) (arp_spa pkt)
  else mret tt.

(** [struct ip_hdr] around its checksum field. *)
Definition ip_hdr_pre (len id proto : Z) : list Z :=
  [0x45; 0] ++ le_enc 2 (htons (u16 (20 + len))) ++ le_enc 2 (htons id) ++ le_enc 2 (htons 0x4000) ++ [64; proto].
Definition ip_hdr_post (src dst : Z) : list Z := le_enc 4 src ++ le_enc 4 dst.

Definition ip_hdr (len id proto csum src dst : Z) : list Z :=
  ip_hdr_pre len id proto ++ le_enc 2 csum ++ ip_hdr_post src dst.

Definition net_ip_tx (dst_ip proto : Z) (seg : list Z) : M Z :=
  s ← gets id;
  let len := zlength seg in
  if negb (nic_present (nic s)) || negb (gw_valid s) || (len >? 1480) then mret (-1) else
  _ ← modify (set_ip_id (u16 (ip_id s + 1)));
  let csum := net_csum_fin (net_csum_add 0 (ip_hdr len (ip_id s) proto 0 net_ip dst_ip)) in
  rtl8139_tx (eth_hdr (gw_mac s) (nic_mac (nic s)) ETH_TYPE_IP ++
              ip_hdr len (ip_id s) proto csum net_ip dst_ip ++ seg).
End net.

(** ** Properties *)

Section spec.
Context {D : Type} `{NicOk D}.
Implicit Types s : net D.

(** The stack's own invariant: sizes and ranges. *)
Record hw_ok s : Prop := {
  ho_nic : nic_ok (nic s);
  ho_mac : length (gw_mac s) = 6%nat ∧ bytes_ok (gw_mac s);
  ho_id : 0 ≤ ip_id s < 65536;
}.

(** [s'] is [s] but for the card, whose wire has one more frame when [r = 0]. *)
Definition sent s (frame : list Z) (r : Z) s' : Prop :=
  ∃ d, s' = set_nic d s ∧ nic_ok d ∧ nic_present d = nic_present (nic s) ∧ nic_mac d = nic_mac (nic s) ∧
       (r = 0 ∧ nic_wire d = nic_wire (nic s) ++ [eth_pad frame] ∨ r = -1 ∧ nic_wire d = nic_wire (nic s)).

Lemma wp_tx frame s : nic_ok (nic s) → wp (rtl8139_tx frame) s (λ r s', sent s frame r s').
Proof.
  intros Hk. unfold wp, rtl8139_tx. destruct (nic_tx_frame frame (nic s) Hk) as (Ho & Hp & Hm).
  pose proof (nic_tx_ok frame (nic s) Hk) as Ht. destruct (nic_tx frame (nic s)) as [r d]. cbn [fst snd] in *.
  by exists d.
Qed.

(** What a receiver checks of an IPv4 header and where it finds the payload. *)
Definition ip_valid (pkt : list Z) (proto src dst : Z) (seg : list Z) : Prop :=
  bget pkt 0 = 0x45 ∧ rd16 pkt 2 = htons (20 + zlength seg) ∧ Z.land (rd16 pkt 6) (htons 0x3FFF) = 0 ∧
  bget pkt 9 = proto ∧ rd32 pkt 12 = src ∧ rd32 pkt 16 = dst ∧
  net_csum_fin (net_csum_add 0 (take 20 pkt)) = 0 ∧
  take (length seg) (drop 20 pkt) = seg.

Lemma length_ip_pre len id proto : length (ip_hdr_pre len id proto) = 10%nat.
Proof. unfold ip_hdr_pre. by rewrite !length_app, !length_le_enc. Qed.

Lemma length_ip_hdr len id proto csum src dst : length (ip_hdr len id proto csum src dst) = 20%nat.
Proof. unfold ip_hdr, ip_hdr_post. by rewrite !length_app, length_ip_pre, !length_le_enc. Qed.

Lemma ip_pre_bytes len id proto : is_byte proto → bytes_ok (ip_hdr_pre len id proto).
Proof.
  intros Hp. unfold ip_hdr_pre. rewrite !bytes_ok_app. split_and!; try apply le_enc_bytes.
  - repeat constructor; unfold is_byte; lia.
  - repeat constructor; unfold is_byte in *; lia.
Qed.

(** The header with its checksum verifies. *)
Lemma ip_hdr_csum len id proto src dst :
  is_byte proto →
  let c := net_csum_fin (net_csum_add 0 (ip_hdr len id proto 0 src dst)) in
  net_csum_fin (net_csum_add 0 (ip_hdr len id proto c src dst)) = 0.
Proof.
  intros Hp. unfold ip_hdr. change (le_enc 2 0) with [0; 0]. apply csum_stored.
  - by apply ip_pre_bytes.
  - unfold ip_hdr_post. rewrite bytes_ok_app. split; apply le_enc_bytes.
  - rewrite length_ip_pre. by exists 5%nat.
  - done.
  - unfold zlength. rewrite length_ip_pre. unfold ip_hdr_post. rewrite length_app, !length_le_enc. done.
Qed.

Lemma htons_fits v : fits 2 (htons v).
Proof. unfold fits, htons. pose proof (u16_range (Z.lor (Z.shiftr v 8) (Z.shiftl v 8))). lia. Qed.

Lemma csum_fits v : fits 2 (net_csum_fin v).
Proof. apply htons_fits. Qed.

Lemma ip_hdr_valid len id proto src dst seg tail :
  is_byte proto → fits 4 src → fits 4 dst → len = zlength seg → 0 ≤ len ≤ 1480 →
  let c := net_csum_fin (net_csum_add 0 (ip_hdr len id proto 0 src dst)) in
  ip_valid (ip_hdr len id proto c src dst ++ seg ++ tail) proto src dst seg.
Proof.
  intros Hp Hs Hd Hl Hlen c.
  assert (net_csum_fin (net_csum_add 0 (ip_hdr len id proto c src dst)) = 0) as Hc by (by apply ip_hdr_csum).
  pose proof (csum_fits (net_csum_add 0 (ip_hdr len id proto 0 src dst))) as Hcf. fold c in Hcf. clearbody c.
  pose proof (length_ip_hdr len id proto c src dst) as HL.
  unfold ip_valid. rewrite <- Hl. split_and!.
  - done.
  - unfold ip_hdr, ip_hdr_pre. rewrite <- !app_assoc. rewrite (rd16_at [69; 0]) by (done || apply htons_fits).
    by rewrite u16_small by lia.
  - unfold ip_hdr, ip_hdr_pre. rewrite <- !app_assoc.
    rewrite (app_assoc [69; 0]), (app_assoc ([69; 0] ++ _)), rd16_at; [done| |apply htons_fits].
    unfold zlength. by rewrite !length_app, !length_le_enc.
  - unfold ip_hdr, ip_hdr_pre. rewrite <- !app_assoc.
    rewrite (app_assoc [69; 0]), (app_assoc ([69; 0] ++ _)), (app_assoc (([69; 0] ++ _) ++ _)).
    change ([64; proto] ++ ?l) with ([64] ++ proto :: l). rewrite app_assoc. apply bget_at_app.
    unfold zlength. by rewrite !length_app, !length_le_enc.
  - unfold ip_hdr, ip_hdr_post. rewrite <- !app_assoc.
    rewrite (app_assoc (ip_hdr_pre _ _ _)), rd32_at; [done| |done].
    unfold zlength. by rewrite length_app, length_ip_pre, length_le_enc.
  - unfold ip_hdr, ip_hdr_post. rewrite <- !app_assoc.
    rewrite (app_assoc (ip_hdr_pre _ _ _)), (app_assoc (ip_hdr_pre _ _ _ ++ _)), rd32_at; [done| |done].
    unfold zlength. by rewrite !length_app, length_ip_pre, !length_le_enc.
  - rewrite <- HL, take_app_length. done.
  - rewrite <- HL, drop_app_length. apply take_app_length.
Qed.

Lemma length_eth_hdr dst src type :
  length dst = 6%nat → length src = 6%nat → length (eth_hdr dst src type) = 14%nat.
Proof. intros Hd Hs. unfold eth_hdr. by rewrite !length_app, Hd, Hs, length_le_enc. Qed.

(** What net_ip_tx gives the card. *)
Definition ip_frame s (dst_ip proto : Z) (seg frame : list Z) : Prop :=
  take 6 frame = gw_mac s ∧ slice frame 6 6 = nic_mac (nic s) ∧ rd16 frame 12 = htons ETH_TYPE_IP ∧
  ip_valid (drop 14 (eth_pad frame)) proto net_ip dst_ip seg.

Lemma net_ip_tx_spec dst_ip proto seg s :
  hw_ok s → is_byte proto → fits 4 dst_ip →
  wp (net_ip_tx dst_ip proto seg) s (λ r s',
    if nic_present (nic s) && gw_valid s && (zlength seg <=? 1480) then
      ∃ frame, ip_frame s dst_ip proto seg frame ∧ sent (set_ip_id (u16 (ip_id s + 1)) s) frame r s'
    else r = -1 ∧ s' = s).
Proof.
  intros [Hk [Hm Hmb] Hid] Hp Hd. unfold net_ip_tx. apply wp_bind, wp_gets. unfold id.
  rewrite Z.gtb_ltb, Z.ltb_antisym.
  destruct (nic_present (nic s)) eqn:E1; [|by apply wp_ret]. destruct (gw_valid s) eqn:E2; [|by apply wp_ret].
  destruct (Z.leb_spec (zlength seg) 1480) as [Hl|]; [|by apply wp_ret]. cbn [negb orb andb].
  apply wp_bind, wp_modify. eapply wp_mono; [by apply wp_tx|]. intros r s' Hs. eexists. split; [|exact Hs].
  destruct (nic_mac_ok (nic s) Hk) as [Hn _].
  pose proof (length_eth_hdr (gw_mac s) (nic_mac (nic s)) ETH_TYPE_IP Hm Hn) as HL.
  unfold ip_frame. split_and!.
  - unfold eth_hdr. rewrite <- !app_assoc, <- Hm. apply take_app_length.
  - unfold eth_hdr. rewrite <- !app_assoc. apply slice_at; unfold zlength; by rewrite ?Hm, ?Hn.
  - unfold eth_hdr. rewrite <- !app_assoc, app_assoc. apply rd16_at; [|apply htons_fits].
    unfold zlength. by rewrite length_app, Hm, Hn.
  - unfold eth_pad. rewrite <- !app_assoc, <- HL, drop_app_length. apply ip_hdr_valid; try done.
    unfold zlength in *. lia.
Qed.
End spec.
End Net.
