(* ===== verification/Dns.v ===== *)
(** * The DNS resolver's messages (kernel/net.c)

    Parsing of responses and building of queries.  Messages come from the
    network and names from programs, so the reads and writes are checked: a
    computation is [None] when it touches a byte outside its buffer. *)

From S2P Require Import Prelude Bytes NetCsum Net.

Module Dns.
Import NetCsum Net.

(** ** Checked memory *)

(** [p[off]]. *)
Definition rd (p : list Z) (off : Z) : option Z := if off <? 0 then None else p !! Z.to_nat off.

(** Big-endian [(p[off] << 8) | p[off + 1]], as a [uint16_t]. *)
Definition rd_be (p : list Z) (off : Z) : option Z :=
  a ← rd p off; b ← rd p (off + 1); Some (u16 (Z.lor (Z.shiftl a 8) b)).

(** [memcpy(buf + off, src, length src)]. *)
Definition wr (buf : list Z) (off : Z) (src : list Z) : option (list Z) :=
  if (off <? 0) || (zlength buf <? off + zlength src) then None else Some (splice buf off src).

(** ** Responses *)

(** Offset just past the name at [off], or 0 on malformed input. *)
Fixpoint dns_skip_name (fuel : nat) (p : list Z) (off : Z) : option Z :=
  match fuel with
  | O => Some 0
  | S fuel' =>
      if off <? zlength p then
        l ← rd p off;
        if l =? 0 then Some (u32 (off + 1))
        else if Z.land l 0xC0 =? 0xC0 then Some (u32 (off + 2))
        else dns_skip_name fuel' p (u32 (off + (1 + l)))
      else Some 0
  end.

(** Every round of the walk advances by at least one byte. *)
Definition skip_name (p : list Z) (off : Z) : option Z := dns_skip_name (S (length p)) p off.

(** The first [for] loop of dns_input: the inner [None] is its [return]. *)
Fixpoint dns_questions (n : nat) (p : list Z) (off : Z) : option (option Z) :=
  match n with
  | O => Some (Some off)
  | S n' =>
      off ← skip_name p off;
      if (off =? 0) || (u32 (off + 4) >? zlength p) then Some None
      else dns_questions n' p (u32 (off + 4))
  end.

(** The second loop: the address of the first A record. *)
Fixpoint dns_answers (n : nat) (p : list Z) (off : Z) : option (option Z) :=
  match n with
  | O => Some None
  | S n' =>
      off ← skip_name p off;
      if (off =? 0) || (u32 (off + 10) >? zlength p) then Some None else
      type ← rd_be p off;
      rdlen ← rd_be p (off + 8);
      let off := u32 (off + 10) in
      if u32 (off + rdlen) >? zlength p then Some None else
      if (type =? 1) && (rdlen =? 4) then
        if zlength p <? off + 4 then None else Some (Some (rd32 p off))
      else dns_answers n' p (u32 (off + rdlen))
  end.

Definition dns_input (p : list Z) (q : dnsq) : option dnsq :=
  if (zlength p <? 12) || negb (busy q) || done q then Some q else
  i ← rd_be p 0;
  flags ← rd_be p 2;
  qdcount ← rd_be p 4;
  ancount ← rd_be p 6;
  if negb (i =? q_id q) || (Z.land flags 0x8000 =? 0) then Some q else
  qs ← dns_questions (Z.to_nat qdcount) p 12;
  match qs with
  | None => Some q
  | Some off =>
      r ← dns_answers (Z.to_nat ancount) p off;
      match r with
      | None => Some q
      | Some addr => Some (mk_dnsq (busy q) true (q_id q) (q_port q) addr)
      end
  end.

Definition sizeof_udp_hdr : Z := 8.

Definition udp_input (seg : list Z) (q : dnsq) : option dnsq :=
  if zlength seg <? sizeof_udp_hdr then Some q else
  let dlen := ntohs (rd16 seg 4) in
  if (dlen <? sizeof_udp_hdr) || (dlen >? zlength seg) then Some q else
  if (rd16 seg 0 =? htons 53) && (rd16 seg 2 =? htons (q_port q)) then
    dns_input (slice seg sizeof_udp_hdr (dlen - sizeof_udp_hdr)) q
  else Some q.

(** ** Queries *)

Definition DNS_NAME_MAX : Z := 128.

(** [uint8_t pkt[sizeof(struct udp_hdr) + 12 + DNS_NAME_MAX + 2 + 4]]. *)
Definition sizeof_pkt : Z := 8 + 12 + DNS_NAME_MAX + 2 + 4.

Definition DOT : Z := 46.

(** The label loop: [i] runs to [nlen], [start] is the current label, [off]
    the write offset in the question.  [Some None] is [return -1]. *)
Fixpoint dns_labels (fuel : nat) (name : list Z) (i start off : Z) (pkt : list Z)
  : option (option (Z * list Z)) :=
  match fuel with
  | O => Some (Some (off, pkt))
  | S fuel' =>
      if i <=? zlength name then
        c ← rd (name ++ [0]) i;
        if (c =? DOT) || (c =? 0) then
          let label := u32 (i - start) in
          if (label =? 0) || (label >? 63) then Some None else
          pkt ← wr pkt (8 + off) [u8 label];
          pkt ← wr pkt (8 + (off + 1)) (slice name start label);
          dns_labels fuel' name (i + 1) (i + 1) (off + 1 + label) pkt
        else dns_labels fuel' name (i + 1) start off pkt
      else Some (Some (off, pkt))
  end.

(** The packet dns_send_query transmits, built in the buffer [pkt]. *)
Definition dns_query (pkt name : list Z) (i sport : Z) : option (option (list Z)) :=
  let nlen := zlength name in
  if (nlen =? 0) || (nlen >? DNS_NAME_MAX) then Some None else
  pkt ← wr pkt 8 ([u8 (Z.shiftr i 8); Z.land i 0xFF; 1; 0; 0; 1] ++ replicate 6 0);
  r ← dns_labels (S (length name)) name 0 0 12 pkt;
  match r with
  | None => Some None
  | Some (off, pkt) =>
      pkt ← wr pkt (8 + off) [0; 0; 1; 0; 1];
      let off := off + 5 in
      let total := 8 + off in
      pkt ← wr pkt 0 (le_enc 2 (htons sport) ++ le_enc 2 (htons 53) ++ le_enc 2 (htons (u16 total)) ++ [0; 0]);
      Some (Some (take (Z.to_nat total) pkt))
  end.

Section send.
Context {D : Type} `{Nic D}.

(** [pkt]: what the stack buffer happens to hold; a fault is [None]. *)
Definition dns_send_query (pkt name : list Z) (i sport : Z) : ST (net D) (option Z) :=
  match dns_query pkt name i sport with
  | None => mret None
  | Some None => mret (Some (-1))
  | Some (Some seg) => r ← net_ip_tx net_dns IP_PROTO_UDP seg; mret (Some r)
  end.
End send.

(** ** Memory safety of the response parser *)

Lemma rd_Some p off : 0 ≤ off < zlength p → ∃ b, rd p off = Some b ∧ bget p off = b.
Proof.
  intros Ho. unfold rd, bget. destruct (Z.ltb_spec off 0); [lia|].
  destruct (lookup_lt_is_Some_2 p (Z.to_nat off)) as [b Hb]; [unfold zlength in Ho; lia|].
  exists b. by rewrite Hb.
Qed.

Lemma rd_byte p off b : bytes_ok p → rd p off = Some b → is_byte b.
Proof.
  intros Hp. unfold rd. case_if; [done|]. intros Hb. by eapply Forall_lookup_1 in Hp.
Qed.

Lemma rd_be_Some p off :
  bytes_ok p → 0 ≤ off → off + 1 < zlength p → ∃ v, rd_be p off = Some v ∧ 0 ≤ v < 65536.
Proof.
  intros Hp Ho Hl. unfold rd_be.
  destruct (rd_Some p off) as (a & -> & _); [lia|]. destruct (rd_Some p (off + 1)) as (b & -> & _); [lia|].
  cbn. eexists. split; [done|apply u16_range].
Qed.

(** The walk over a name stops inside the message, one past its end at most. *)
Lemma skip_name_range fuel p off :
  bytes_ok p → 0 ≤ off → zlength p < 4294960000 →
  ∃ r, dns_skip_name fuel p off = Some r ∧ (r = 0 ∨ off < r ≤ zlength p + 1).
Proof.
  intros Hp. revert off. induction fuel as [|fuel IH]; intros off Ho Hl; cbn [dns_skip_name].
  { exists 0. auto. }
  destruct (Z.ltb_spec off (zlength p)) as [Hlt|]; [|exists 0; auto].
  destruct (rd_Some p off) as (b & Hb & _); [lia|]. rewrite Hb. cbn [mbind option_bind].
  pose proof (rd_byte _ _ _ Hp Hb) as Hbb. unfold is_byte in Hbb.
  rewrite !u32_small by lia.
  case_if; [eexists; split; [done|lia]|]. case_if; [eexists; split; [done|lia]|].
  destruct (IH (off + (1 + b))) as (r & Hr & Hc); [lia|lia|]. exists r. split; [done|]. lia.
Qed.

Lemma questions_safe n p off :
  bytes_ok p → 0 ≤ off → zlength p < 4294960000 →
  ∃ r, dns_questions n p off = Some r ∧ ∀ o, r = Some o → off ≤ o ∧ (n = 0%nat ∨ o ≤ zlength p).
Proof.
  intros Hp. revert off. induction n as [|n IH]; intros off Ho Hl; cbn [dns_questions].
  { eexists. split; [done|]. intros o [= ->]. split; [lia|by left]. }
  destruct (skip_name_range (S (length p)) p off) as (r & Hr & Hc); try done.
  unfold skip_name. rewrite Hr. cbn [mbind option_bind].
  destruct (Z.eqb_spec r 0) as [|Hr0]; [by eexists|]. cbn [orb]. rewrite u32_small by lia.
  destruct (Z.gtb_spec (r + 4) (zlength p)); [by eexists|].
  destruct (IH (r + 4)) as (x & Hx & Hb); [lia|done|]. exists x. split; [done|].
  intros o E. specialize (Hb o E). destruct Hb as [Hb1 [->|]]; [|lia]. cbn in Hx. split; [lia|right].
  simplify_eq. lia.
Qed.

Lemma answers_safe n p off :
  bytes_ok p → 0 ≤ off → zlength p < 4294890000 → is_Some (dns_answers n p off).
Proof.
  intros Hp. revert off. induction n as [|n IH]; intros off Ho Hl; cbn [dns_answers]; [done|].
  destruct (skip_name_range (S (length p)) p off) as (r & Hr & Hc); try (done || lia).
  unfold skip_name. rewrite Hr. cbn [mbind option_bind].
  destruct (Z.eqb_spec r 0) as [|Hr0]; [done|]. cbn [orb]. rewrite (u32_small (r + 10)) by lia.
  destruct (Z.gtb_spec (r + 10) (zlength p)); [done|].
  destruct (rd_be_Some p r) as (ty & -> & Hty); [done|lia|lia|]. cbn [mbind option_bind].
  destruct (rd_be_Some p (r + 8)) as (rl & -> & Hrl); [done|lia|lia|]. cbn [mbind option_bind].
  rewrite (u32_small (r + 10 + rl)) by lia.
  destruct (Z.gtb_spec (r + 10 + rl) (zlength p)); [done|].
  destruct ((ty =? 1) && (rl =? 4)) eqn:E.
  - boolp. subst. destruct (Z.ltb_spec (zlength p) (r + 10 + 4)); [lia|done].
  - apply IH; lia.
Qed.

(** Whatever bytes the network delivers, the parser stays inside the message. *)
Lemma dns_input_safe p q : bytes_ok p → zlength p < 4294890000 → is_Some (dns_input p q).
Proof.
  intros Hp Hl. unfold dns_input.
  destruct ((zlength p <? 12) || negb (busy q) || done q) eqn:E; [done|]. boolp.
  destruct (rd_be_Some p 0) as (i & -> & _); [done|lia|lia|]. cbn [mbind option_bind].
  destruct (rd_be_Some p 2) as (fl & -> & _); [done|lia|lia|]. cbn [mbind option_bind].
  destruct (rd_be_Some p 4) as (qd & -> & _); [done|lia|lia|]. cbn [mbind option_bind].
  destruct (rd_be_Some p 6) as (an & -> & _); [done|lia|lia|]. cbn [mbind option_bind].
  case_if; [done|].
  destruct (questions_safe (Z.to_nat qd) p 12) as (r & -> & Hr); [done|lia|lia|]. cbn [mbind option_bind].
  destruct r as [o|]; [|done]. destruct (Hr o eq_refl).
  destruct (answers_safe (Z.to_nat an) p o) as [a ->]; [done|lia|done|]. cbn [mbind option_bind].
  by destruct a.
Qed.
End Dns.

(** * DNS messages against their grammar

    The response parser is compared with a reference reading of well-formed
    messages, and the query builder with the encoding of the name's labels. *)

Module DnsSpec.
Import NetCsum Net Dns.

(** ** The grammar of messages *)

Definition be16 (v : Z) : list Z := [v / 256; v mod 256].

(** A name: labels, then the root label or a compression pointer. *)
Record dname := mk_name { labels : list (list Z); ending : list Z }.

Definition label_ok (l : list Z) : bool := (1 <=? zlength l) && (zlength l <=? 63).

Definition ending_ok (e : list Z) : bool :=
  match e with
  | [z] => z =? 0
  | [a; b] => (192 <=? a) && (a <? 256) && (0 <=? b) && (b <? 256)
  | _ => false
  end.

Definition enc_labels (ls : list (list Z)) : list Z := ls ≫= (λ l, zlength l :: l).
Definition enc_name (n : dname) : list Z := enc_labels (labels n) ++ ending n.
Definition name_ok (n : dname) : bool := forallb label_ok (labels n) && ending_ok (ending n).

(** A question: a name, its type and class. *)
Record question := mk_question { q_name : dname; q_rest : list Z }.
Definition enc_question (q : question) : list Z := enc_name (q_name q) ++ q_rest q.
Definition question_ok (q : question) : bool := name_ok (q_name q) && (zlength (q_rest q) =? 4).

(** A resource record: name, type, class and time to live, data. *)
Record rr := mk_rr { r_name : dname; r_type : Z; r_rest : list Z; r_data : list Z }.
Definition enc_rr (r : rr) : list Z :=
  enc_name (r_name r) ++ be16 (r_type r) ++ r_rest r ++ be16 (zlength (r_data r)) ++ r_data r.
Definition rr_ok (r : rr) : bool :=
  name_ok (r_name r) && (0 <=? r_type r) && (r_type r <? 65536) && (zlength (r_rest r) =? 6) &&
  (zlength (r_data r) <? 65536).

Record message := mk_message {
  m_id : Z; m_flags : Z; m_questions : list question; m_answers : list rr; m_counts : list Z; m_extra : list Z }.

Definition enc_message (m : message) : list Z :=
  be16 (m_id m) ++ be16 (m_flags m) ++ be16 (zlength (m_questions m)) ++ be16 (zlength (m_answers m)) ++
  m_counts m ++ (m_questions m ≫= enc_question) ++ (m_answers m ≫= enc_rr) ++ m_extra m.

Definition message_ok (m : message) : bool :=
  (0 <=? m_id m) && (m_id m <? 65536) && (0 <=? m_flags m) && (m_flags m <? 65536) &&
  (zlength (m_counts m) =? 4) && (zlength (m_questions m) <? 65536) && (zlength (m_answers m) <? 65536) &&
  forallb question_ok (m_questions m) && forallb rr_ok (m_answers m) && (zlength (enc_message m) <? 65536).

(** The first address record. *)
Fixpoint first_a (rs : list rr) : option Z :=
  match rs with
  | [] => None
  | r :: rs => if (r_type r =? 1) && (zlength (r_data r) =? 4) then Some (le_dec (r_data r)) else first_a rs
  end.

(** What a response does to the pending query. *)
Definition answer (m : message) (q : dnsq) : dnsq :=
  if busy q && negb (done q) && (m_id m =? q_id q) && Z.testbit (m_flags m) 15 then
    match first_a (m_answers m) with
    | Some a => mk_dnsq (busy q) true (q_id q) (q_port q) a
    | None => q
    end
  else q.

(** ** Reading encoded messages *)

Lemma rd_at pre b post : rd (pre ++ b :: post) (zlength pre) = Some b.
Proof.
  unfold rd, zlength. destruct (Z.ltb_spec (Z.of_nat (length pre)) 0); [lia|].
  rewrite Nat2Z.id, lookup_app_r, Nat.sub_diag by lia. done.
Qed.

Lemma rd_be_at pre v post : 0 ≤ v < 65536 → rd_be (pre ++ be16 v ++ post) (zlength pre) = Some v.
Proof.
  intros Hv. unfold rd_be, be16. cbn [app]. rewrite rd_at. cbn [mbind option_bind].
  replace (pre ++ v / 256 :: v mod 256 :: post) with ((pre ++ [v / 256]) ++ v mod 256 :: post) by (by rewrite <- app_assoc).
  replace (zlength pre + 1) with (zlength (pre ++ [v / 256])) by (rewrite zlength_app; done).
  rewrite rd_at. cbn [mbind option_bind]. rewrite lor_bytes by (unfold is_byte; zdm).
  rewrite u16_small by zdm. f_equal. zdm.
Qed.

Lemma ending_byte : ∀ b, is_byte b → (Bool.eqb (Z.land b 0xC0 =? 0xC0) (192 <=? b)) = true.
Proof. by apply byte_forall. Qed.

Lemma pointer_byte b : is_byte b → (Z.land b 0xC0 =? 0xC0) = (192 <=? b).
Proof. intros Hb. apply Bool.eqb_prop. by apply ending_byte. Qed.

Lemma skip_labels ls e pre post fuel :
  forallb label_ok ls = true → ending_ok e = true → (length ls < fuel)%nat →
  zlength (pre ++ enc_labels ls ++ e ++ post) < 4294960000 →
  dns_skip_name fuel (pre ++ enc_labels ls ++ e ++ post) (zlength pre)
  = Some (zlength pre + zlength (enc_labels ls) + zlength e).
Proof.
  revert pre fuel. induction ls as [|l ls IH]; intros pre [|fuel] Hls He Hf Hlen; try (simpl in Hf; lia); cbn [dns_skip_name].
  - cbn [enc_labels mbind list_bind app]. rewrite zlength_app in Hlen |- *. pose proof (zlength_nonneg post).
    cbn [enc_labels mbind list_bind app] in Hlen. rewrite zlength_app in Hlen |- *. pose proof (zlength_nonneg pre).
    pose proof (zlength_nonneg e). change (zlength (@nil Z)) with 0.
    destruct e as [|a [|b [|]]]; try done.
    + cbn in He. boolp. subst. rewrite zlength_cons in *. change (zlength (@nil Z)) with 0 in *.
      destruct (Z.ltb_spec (zlength pre) (zlength pre + (1 + 0 + zlength post))); [|lia].
      cbn [app]. rewrite rd_at. cbn [mbind option_bind Z.eqb]. rewrite u32_small by lia. f_equal. lia.
    + cbn [ending_ok] in He. boolp. rewrite !zlength_cons in *. change (zlength (@nil Z)) with 0 in *.
      destruct (Z.ltb_spec (zlength pre) (zlength pre + (1 + (1 + 0) + zlength post))); [|lia].
      cbn [app]. rewrite rd_at. cbn [mbind option_bind]. destruct (Z.eqb_spec a 0); [lia|].
      rewrite pointer_byte by (unfold is_byte; lia). destruct (Z.leb_spec 192 a); [|lia].
      rewrite u32_small by lia. f_equal. lia.
  - cbn [forallb] in Hls. apply andb_prop in Hls as [Hl Hls]. unfold label_ok in Hl. boolp.
    assert (enc_labels (l :: ls) = (zlength l :: l) ++ enc_labels ls) as Hc by done. rewrite Hc in *.
    set (rest := enc_labels ls ++ e ++ post) in *.
    assert (pre ++ ((zlength l :: l) ++ enc_labels ls) ++ e ++ post = (pre ++ zlength l :: l) ++ rest) as Hp
      by (unfold rest; by rewrite <- !app_assoc).
    rewrite Hp in *.
    destruct (Z.ltb_spec (zlength pre) (zlength ((pre ++ zlength l :: l) ++ rest))) as [Hlt|Hlt].
    2: { rewrite !zlength_app, zlength_cons in Hlt. pose proof (zlength_nonneg rest). lia. }
    assert (rd ((pre ++ zlength l :: l) ++ rest) (zlength pre) = Some (zlength l)) as Hrd
      by (rewrite <- app_assoc; cbn [app]; apply rd_at).
    rewrite Hrd. cbn [mbind option_bind]. destruct (Z.eqb_spec (zlength l) 0); [lia|].
    rewrite pointer_byte by (unfold is_byte; lia). destruct (Z.leb_spec 192 (zlength l)); [lia|].
    assert (zlength pre + (1 + zlength l) = zlength (pre ++ zlength l :: l)) as Hz
      by (rewrite zlength_app, zlength_cons; lia).
    assert (zlength (pre ++ zlength l :: l) ≤ zlength ((pre ++ zlength l :: l) ++ rest)) as Hle
      by (rewrite (zlength_app (pre ++ _)); pose proof (zlength_nonneg rest); lia).
    pose proof (zlength_nonneg pre). rewrite u32_small by lia.
    rewrite Hz. unfold rest in *. rewrite IH; [|done|done|simpl in Hf; lia|done].
    f_equal. rewrite !zlength_app, !zlength_cons. lia.
Qed.

Lemma length_labels ls : forallb label_ok ls = true → (length ls ≤ length (enc_labels ls))%nat.
Proof.
  induction ls as [|l ls IH]; intros Hl; [done|]. cbn [forallb] in Hl. apply andb_prop in Hl as [H1 H2].
  specialize (IH H2). change (enc_labels (l :: ls)) with ((zlength l :: l) ++ enc_labels ls).
  rewrite length_app. simpl. lia.
Qed.

Lemma skip_name_at n pre post :
  name_ok n = true → zlength (pre ++ enc_name n ++ post) < 4294960000 →
  skip_name (pre ++ enc_name n ++ post) (zlength pre) = Some (zlength pre + zlength (enc_name n)) ∧
  0 < zlength (enc_name n).
Proof.
  unfold name_ok, enc_name. intros [Hl He]%andb_prop Hlen. rewrite <- app_assoc in *. unfold skip_name.
  rewrite skip_labels; try done.
  - rewrite zlength_app. split; [f_equal; lia|]. pose proof (zlength_nonneg (enc_labels (labels n))).
    destruct (ending n); [done|]. rewrite zlength_cons. pose proof (zlength_nonneg l). lia.
  - rewrite !length_app. pose proof (length_labels _ Hl). lia.
Qed.

Lemma questions_at qs pre post :
  forallb question_ok qs = true → zlength (pre ++ (qs ≫= enc_question) ++ post) < 4294960000 →
  dns_questions (length qs) (pre ++ (qs ≫= enc_question) ++ post) (zlength pre)
  = Some (Some (zlength pre + zlength (qs ≫= enc_question))).
Proof.
  revert pre. induction qs as [|q qs IH]; intros pre Hq Hlen.
  { cbn. do 2 f_equal. change (zlength []) with 0. lia. }
  cbn [forallb] in Hq. apply andb_prop in Hq as [[Hn Hr]%andb_prop Hq]. boolp.
  assert ((q :: qs) ≫= enc_question = (enc_name (q_name q) ++ q_rest q) ++ (qs ≫= enc_question)) as Hc by done.
  rewrite Hc in *. rewrite <- !app_assoc in *. cbn [length dns_questions].
  destruct (skip_name_at (q_name q) pre (q_rest q ++ (qs ≫= enc_question) ++ post) Hn Hlen) as [Hs Hpos].
  rewrite Hs. cbn [mbind option_bind].
  pose proof (zlength_nonneg pre). pose proof (zlength_nonneg post). pose proof (zlength_nonneg (qs ≫= enc_question)).
  pose proof Hlen as Hlen2. rewrite !zlength_app in Hlen2.
  destruct (Z.eqb_spec (zlength pre + zlength (enc_name (q_name q))) 0); [lia|]. cbn [orb].
  rewrite u32_small by lia.
  match goal with |- context [?a >? ?b] => destruct (Z.gtb_spec a b) as [Hgt|_] end.
  { rewrite !zlength_app in Hgt. lia. }
  specialize (IH (pre ++ enc_name (q_name q) ++ q_rest q)). rewrite <- !app_assoc in IH.
  replace (zlength pre + zlength (enc_name (q_name q)) + 4)
    with (zlength (pre ++ enc_name (q_name q) ++ q_rest q)) by (rewrite !zlength_app; lia).
  rewrite IH by done. do 2 f_equal. rewrite !zlength_app. lia.
Qed.

Lemma rd32_data pre d post : length d = 4%nat → rd32 (pre ++ d ++ post) (zlength pre) = le_dec d.
Proof. intros Hd. unfold rd32. rewrite slice_at; [done|done|]. unfold zlength. by rewrite Hd. Qed.

Lemma answers_at rs pre post :
  forallb rr_ok rs = true → zlength (pre ++ (rs ≫= enc_rr) ++ post) < 65536 →
  dns_answers (length rs) (pre ++ (rs ≫= enc_rr) ++ post) (zlength pre) = Some (first_a rs).
Proof.
  revert pre. induction rs as [|r rs IH]; intros pre Hq Hlen; [done|].
  cbn [forallb] in Hq. apply andb_prop in Hq as [Hr Hq]. unfold rr_ok in Hr. boolp.
  assert ((r :: rs) ≫= enc_rr = enc_rr r ++ (rs ≫= enc_rr)) as Hc by done. rewrite Hc in *. clear Hc.
  set (tail := (rs ≫= enc_rr) ++ post) in *.
  set (n := enc_name (r_name r)).
  assert (∀ x, pre ++ (enc_rr r ++ x) = pre ++ n ++ be16 (r_type r) ++ r_rest r ++ be16 (zlength (r_data r)) ++ r_data r ++ x)
    as Hp by (intros x; unfold enc_rr; by rewrite <- !app_assoc).
  rewrite <- app_assoc in *. fold tail in Hlen |- *. rewrite Hp in *.
  set (p := pre ++ n ++ be16 (r_type r) ++ r_rest r ++ be16 (zlength (r_data r)) ++ r_data r ++ tail) in *.
  cbn [length dns_answers first_a].
  destruct (skip_name_at (r_name r) pre (be16 (r_type r) ++ r_rest r ++ be16 (zlength (r_data r)) ++ r_data r ++ tail))
    as [Hs Hpos]; [done|fold n p; lia|]. fold n p in Hs, Hpos. rewrite Hs. cbn [mbind option_bind].
  assert (zlength p = zlength pre + (zlength n + (2 + (6 + (2 + (zlength (r_data r) + zlength tail)))))) as HL.
  { unfold p. rewrite !zlength_app. change (zlength (be16 _)) with 2. lia. }
  pose proof (zlength_nonneg pre). pose proof (zlength_nonneg tail). pose proof (zlength_nonneg (r_data r)).
  destruct (Z.eqb_spec (zlength pre + zlength n) 0); [lia|]. cbn [orb]. rewrite (u32_small (_ + 10)) by lia.
  destruct (Z.gtb_spec (zlength pre + zlength n + 10) (zlength p)); [lia|].
  assert (rd_be p (zlength pre + zlength n) = Some (r_type r)) as ->.
  { rewrite <- zlength_app. unfold p. rewrite app_assoc. apply rd_be_at. lia. }
  cbn [mbind option_bind].
  assert (rd_be p (zlength pre + zlength n + 8) = Some (zlength (r_data r))) as ->.
  { replace (zlength pre + zlength n + 8) with (zlength (((pre ++ n) ++ be16 (r_type r)) ++ r_rest r))
      by (rewrite !zlength_app; change (zlength (be16 _)) with 2; lia).
    unfold p. rewrite !app_assoc, <- (app_assoc (((pre ++ n) ++ be16 (r_type r)) ++ r_rest r)).
    rewrite <- app_assoc. apply rd_be_at. lia. }
  cbn [mbind option_bind]. rewrite (u32_small (_ + zlength (r_data r))) by lia.
  match goal with |- context [?a >? ?b] => destruct (Z.gtb_spec a b) as [Hgt|_]; [lia|] end.
  set (front := pre ++ n ++ be16 (r_type r) ++ r_rest r ++ be16 (zlength (r_data r))).
  assert (zlength pre + zlength n + 10 = zlength front) as Hf
    by (unfold front; rewrite !zlength_app; change (zlength (be16 _)) with 2; lia).
  assert (p = front ++ r_data r ++ tail) as Hpf by (unfold p, front; by rewrite <- !app_assoc).
  rewrite Hf. destruct ((r_type r =? 1) && (zlength (r_data r) =? 4)) eqn:E.
  - boolp. destruct (Z.ltb_spec (zlength p) (zlength front + 4)); [lia|].
    rewrite Hpf, rd32_data; [done|]. unfold zlength in *. lia.
  - specialize (IH (front ++ r_data r) Hq). rewrite <- app_assoc in IH. fold tail in IH.
    rewrite (zlength_app front (r_data r)) in IH. rewrite Hpf in *. by apply IH.
Qed.

Lemma flags_bit f : (Z.land f 0x8000 =? 0) = negb (Z.testbit f 15).
Proof. rewrite <- land_pow2_testbit by lia. change (Z.shiftl 1 15) with 0x8000. by rewrite negb_involutive. Qed.

(** C36: The response parser reads well-formed messages as the grammar says: a
    response to the pending query resolves it to the first address record,
    and nothing else changes the query. *)
Theorem dns_input_answers m q : message_ok m = true → dns_input (enc_message m) q = Some (answer m q).
Proof.
  intros Hm. unfold message_ok in Hm. boolp. unfold dns_input, answer.
  set (body := m_counts m ++ (m_questions m ≫= enc_question) ++ (m_answers m ≫= enc_rr) ++ m_extra m).
  set (hd := be16 (m_id m) ++ be16 (m_flags m) ++ be16 (zlength (m_questions m)) ++ be16 (zlength (m_answers m))).
  assert (enc_message m = hd ++ body) as Hmsg by (unfold enc_message, hd, body; by rewrite <- !app_assoc).
  assert (zlength (enc_message m) = 12 + zlength (m_questions m ≫= enc_question) +
            zlength (m_answers m ≫= enc_rr) + zlength (m_extra m)) as HL.
  { rewrite Hmsg. unfold hd, body. rewrite !zlength_app. change (zlength (be16 _)) with 2. lia. }
  pose proof (zlength_nonneg (m_questions m)). pose proof (zlength_nonneg (m_answers m)).
  pose proof (zlength_nonneg (m_questions m ≫= enc_question)). pose proof (zlength_nonneg (m_answers m ≫= enc_rr)).
  pose proof (zlength_nonneg (m_extra m)).
  destruct (Z.ltb_spec (zlength (enc_message m)) 12); [lia|]. cbn [orb].
  destruct (busy q); [|done]. destruct (done q); [done|]. cbn [negb orb andb].
  assert (rd_be (enc_message m) 0 = Some (m_id m)) as -> by (apply (rd_be_at []); lia).
  assert (rd_be (enc_message m) 2 = Some (m_flags m)) as -> by (apply (rd_be_at (be16 (m_id m))); lia).
  assert (rd_be (enc_message m) 4 = Some (zlength (m_questions m))) as ->
    by (apply (rd_be_at (be16 (m_id m) ++ be16 (m_flags m))); lia).
  assert (rd_be (enc_message m) 6 = Some (zlength (m_answers m))) as ->
    by (apply (rd_be_at (be16 (m_id m) ++ be16 (m_flags m) ++ be16 (zlength (m_questions m)))); lia).
  cbn [mbind option_bind]. rewrite flags_bit.
  destruct (m_id m =? q_id q); [|done]. destruct (Z.testbit (m_flags m) 15); [|done]. cbn [negb orb andb].
  set (h := hd ++ m_counts m).
  assert (zlength h = 12) as Hh by (unfold h, hd; rewrite !zlength_app; change (zlength (be16 _)) with 2; lia).
  assert (enc_message m = h ++ (m_questions m ≫= enc_question) ++ (m_answers m ≫= enc_rr) ++ m_extra m) as He
    by (rewrite Hmsg; unfold h, body; by rewrite <- !app_assoc).
  assert (∀ A (l : list A), Z.to_nat (zlength l) = length l) as Hnat by (intros; apply Nat2Z.id).
  rewrite !Hnat, He, <- Hh, questions_at by (done || rewrite <- He; lia). cbn [mbind option_bind].
  rewrite <- zlength_app, app_assoc, answers_at; [|done|rewrite <- app_assoc, <- He; lia].
  cbn [mbind option_bind]. by destruct (first_a (m_answers m)).
Qed.

(** ** Queries *)

(** The labels of a dotted name; [cur] is the label read so far. *)
Fixpoint split_dots (name cur : list Z) : list (list Z) :=
  match name with
  | [] => [cur]
  | c :: name => if c =? DOT then cur :: split_dots name [] else split_dots name (cur ++ [c])
  end.

(** A C string: bytes, none of them the terminator. *)
Definition cstr_ok (name : list Z) : bool := forallb (λ c, (1 <=? c) && (c <? 256)) name.

Definition hostname_ok (name : list Z) : bool :=
  (1 <=? zlength name) && (zlength name <=? DNS_NAME_MAX) && forallb label_ok (split_dots name []).

(** The datagram of a query for [name]. *)
Definition enc_query (name : list Z) (i sport : Z) : list Z :=
  let q := be16 i ++ [1; 0] ++ be16 1 ++ replicate 6 0 ++
           enc_name (mk_name (split_dots name []) [0]) ++ be16 1 ++ be16 1 in
  be16 sport ++ be16 53 ++ be16 (8 + zlength q) ++ [0; 0] ++ q.

Lemma wr_ok buf off src :
  0 ≤ off → off + zlength src ≤ zlength buf →
  ∃ buf', wr buf off src = Some buf' ∧ length buf' = length buf ∧
          take (Z.to_nat off + length src) buf' = take (Z.to_nat off) buf ++ src.
Proof.
  intros Ho Hl. unfold wr. destruct (Z.ltb_spec off 0); [lia|].
  destruct (Z.ltb_spec (zlength buf) (off + zlength src)); [lia|]. eexists. split_and!; [done|apply length_splice|].
  by apply take_splice.
Qed.

Lemma rd_name name i :
  cstr_ok name = true → 0 ≤ i ≤ zlength name →
  rd (name ++ [0]) i = Some (bget (name ++ [0]) i).
Proof.
  intros Hn Hi. destruct (rd_Some (name ++ [0]) i) as (b & -> & <-); [|done].
  rewrite zlength_app. change (zlength [0]) with 1. lia.
Qed.

(** One label stored in the buffer. *)
Lemma label_stored pkt off cur :
  0 ≤ off → 8 + off + 1 + zlength cur ≤ zlength pkt → label_ok cur = true →
  ∃ pkt1 pkt2, wr pkt (8 + off) [u8 (zlength cur)] = Some pkt1 ∧ wr pkt1 (8 + (off + 1)) cur = Some pkt2 ∧
    length pkt2 = length pkt ∧
    take (Z.to_nat (8 + (off + 1 + zlength cur))) pkt2 = take (Z.to_nat (8 + off)) pkt ++ zlength cur :: cur.
Proof.
  intros Ho Hl Hc. unfold label_ok in Hc. boolp. rewrite u8_small by lia.
  destruct (wr_ok pkt (8 + off) [zlength cur]) as (p1 & H1 & L1 & T1); [lia|change (zlength [_]) with 1; lia|].
  destruct (wr_ok p1 (8 + (off + 1)) cur) as (p2 & H2 & L2 & T2); [lia|unfold zlength in *; lia|].
  exists p1, p2. split_and!; [done|done|congruence|].
  replace (Z.to_nat (8 + (off + 1 + zlength cur))) with (Z.to_nat (8 + (off + 1)) + length cur)%nat
    by (unfold zlength; lia).
  rewrite T2. simpl length in T1. replace (Z.to_nat (8 + (off + 1))) with (Z.to_nat (8 + off) + 1)%nat by lia.
  rewrite T1. by rewrite <- app_assoc.
Qed.

(** The branch of the loop that ends a label. *)
Lemma label_branch {A} pre cur rest off pkt (k : list Z → Z → option (option A)) :
  let name := pre ++ cur ++ rest in
  0 ≤ off → zlength name ≤ DNS_NAME_MAX → 8 + off + 1 + zlength cur ≤ zlength pkt →
  let label := u32 (zlength (pre ++ cur) - zlength pre) in
  let r := if (label =? 0) || (label >? 63) then Some None else
           pkt1 ← wr pkt (8 + off) [u8 label];
           pkt2 ← wr pkt1 (8 + (off + 1)) (slice name (zlength pre) label);
           k pkt2 label in
  if label_ok cur then
    ∃ pkt2, r = k pkt2 (zlength cur) ∧ length pkt2 = length pkt ∧
      take (Z.to_nat (8 + (off + 1 + zlength cur))) pkt2 = take (Z.to_nat (8 + off)) pkt ++ zlength cur :: cur
  else r = Some None.
Proof.
  intros name Ho Hmax Hl. cbv zeta. pose proof (zlength_nonneg pre). pose proof (zlength_nonneg cur).
  pose proof (zlength_nonneg rest).
  assert (u32 (zlength (pre ++ cur) - zlength pre) = zlength cur) as ->.
  { unfold name in Hmax. rewrite !zlength_app in Hmax. rewrite zlength_app. unfold DNS_NAME_MAX in Hmax.
    rewrite u32_small; lia. }
  assert (slice name (zlength pre) (zlength cur) = cur) as -> by (unfold name; by apply slice_at).
  pose proof (label_stored pkt off cur Ho Hl) as Hst. unfold label_ok in *. rewrite Z.gtb_ltb.
  destruct (Z.eqb_spec (zlength cur) 0) as [Hz|Hz]; [by rewrite Hz|].
  destruct (Z.leb_spec 1 (zlength cur)); [|lia].
  destruct (Z.ltb_spec 63 (zlength cur)), (Z.leb_spec (zlength cur) 63); try lia; [done|]. cbn [orb andb].
  destruct Hst as (p1 & p2 & -> & Hw & L2 & T2); [done|]. cbn [mbind option_bind]. rewrite Hw. by exists p2.
Qed.

Lemma labels_spec rest pre cur off pkt fuel :
  let name := pre ++ cur ++ rest in
  cstr_ok name = true → forallb (λ c, negb (c =? DOT)) cur = true →
  zlength name ≤ DNS_NAME_MAX → off = 12 + zlength pre → zlength pkt = sizeof_pkt → (length rest < fuel)%nat →
  let r := dns_labels fuel name (zlength (pre ++ cur)) (zlength pre) off pkt in
  if forallb label_ok (split_dots rest cur) then
    ∃ pkt', r = Some (Some (13 + zlength name, pkt')) ∧ zlength pkt' = sizeof_pkt ∧
      take (Z.to_nat (8 + (13 + zlength name))) pkt' =
      take (Z.to_nat (8 + off)) pkt ++ enc_labels (split_dots rest cur)
  else r = Some None.
Proof.
  revert pre cur off pkt fuel. induction rest as [|c rest IH]; intros pre cur off pkt fuel name Hc Hd Hmax Hoff Hpkt Hf r;
    (destruct fuel as [|fuel]; [simpl in Hf; lia|]);
    pose proof (zlength_nonneg pre); pose proof (zlength_nonneg cur).
  - assert (name = pre ++ cur) as Hn by (unfold name; by rewrite app_nil_r).
    assert (zlength name = zlength pre + zlength cur) as Hnl by (by rewrite Hn, zlength_app).
    assert (rd (name ++ [0]) (zlength (pre ++ cur)) = Some 0) as Hrd by (rewrite Hn; apply rd_at).
    unfold r. cbn [dns_labels split_dots]. rewrite Hrd. cbn [mbind option_bind].
    assert ((zlength (pre ++ cur) <=? zlength name) = true) as -> by (apply Z.leb_le; rewrite zlength_app; lia).
    cbn [forallb]. rewrite andb_true_r. change ((0 =? DOT) || (0 =? 0)) with true. cbv iota.
    pose proof (label_branch pre cur [] off pkt (λ pk label, dns_labels fuel name (zlength (pre ++ cur) + 1)
      (zlength (pre ++ cur) + 1) (off + 1 + label) pk)) as Hb. cbv zeta in Hb. fold name in Hb.
    specialize (Hb ltac:(lia) Hmax ltac:(rewrite Hpkt; unfold sizeof_pkt, DNS_NAME_MAX in *; lia)).
    destruct (label_ok cur); [|exact Hb]. destruct Hb as (p2 & E & L2 & T2). exists p2. split_and!.
    + etransitivity; [exact E|].
      destruct fuel; cbn [dns_labels]; [|destruct (Z.leb_spec (zlength (pre ++ cur) + 1) (zlength name)) as [Hle|_];
        [rewrite zlength_app in Hle; lia|]]; do 3 f_equal; lia.
    + unfold zlength in *. lia.
    + replace (8 + (13 + zlength name)) with (8 + (off + 1 + zlength cur)) by lia.
      rewrite T2. unfold enc_labels. cbn. by rewrite app_nil_r.
  - simpl in Hf. cbn [split_dots].
    assert (1 ≤ c < 256) as Hcr.
    { unfold cstr_ok, name in Hc. rewrite !forallb_app in Hc. cbn [forallb] in Hc. boolp. lia. }
    assert (name = (pre ++ cur) ++ c :: rest) as Hn1 by (unfold name; by rewrite <- app_assoc).
    assert (zlength name = zlength pre + zlength cur + (1 + zlength rest)) as Hnl
      by (rewrite Hn1, !zlength_app, zlength_cons; lia).
    pose proof (zlength_nonneg rest).
    assert (rd (name ++ [0]) (zlength (pre ++ cur)) = Some c) as Hrd.
    { rewrite Hn1, <- app_assoc. cbn [app]. apply rd_at. }
    unfold r. cbn [dns_labels]. rewrite Hrd. cbn [mbind option_bind].
    assert ((zlength (pre ++ cur) <=? zlength name) = true) as -> by (apply Z.leb_le; rewrite zlength_app; lia).
    destruct (Z.eqb_spec c DOT) as [->|Hdot].
    + cbn [orb forallb].
      pose proof (label_branch pre cur (DOT :: rest) off pkt (λ pk label, dns_labels fuel name (zlength (pre ++ cur) + 1)
        (zlength (pre ++ cur) + 1) (off + 1 + label) pk)) as Hb. cbv zeta in Hb. fold name in Hb.
      specialize (Hb ltac:(lia) Hmax ltac:(rewrite Hpkt; unfold sizeof_pkt, DNS_NAME_MAX in *; lia)).
      destruct (label_ok cur); [|exact Hb]. destruct Hb as (p2 & E & L2 & T2). cbn [andb].
      assert (name = (pre ++ cur ++ [DOT]) ++ [] ++ rest) as Hn2 by (rewrite Hn1; by rewrite <- !app_assoc).
      specialize (IH (pre ++ cur ++ [DOT]) [] (off + 1 + zlength cur) p2 fuel). cbv zeta in IH.
      rewrite <- Hn2, app_nil_r in IH.
      assert (zlength (pre ++ cur ++ [DOT]) = zlength (pre ++ cur) + 1) as Hl3
        by (rewrite app_assoc, (zlength_app (pre ++ cur)); done).
      rewrite Hl3 in IH. specialize (IH Hc eq_refl Hmax ltac:(rewrite zlength_app; lia)
        ltac:(unfold zlength in *; lia) ltac:(lia)).
      destruct (forallb label_ok (split_dots rest [])).
      * destruct IH as (p' & E1 & E2 & E3). exists p'. split_and!; [by etransitivity; [exact E|]|done|].
        rewrite E3, T2, <- app_assoc. done.
      * by etransitivity; [exact E|].
    + destruct (Z.eqb_spec c 0); [lia|]. cbn [orb].
      assert (name = pre ++ (cur ++ [c]) ++ rest) as Hn2 by (rewrite Hn1; by rewrite <- !app_assoc).
      specialize (IH pre (cur ++ [c]) off pkt fuel). cbv zeta in IH. rewrite <- Hn2 in IH.
      assert (zlength (pre ++ cur ++ [c]) = zlength (pre ++ cur) + 1) as Hl3
        by (rewrite app_assoc, (zlength_app (pre ++ cur)); done).
      rewrite Hl3 in IH. apply IH; try done; [|lia]. rewrite forallb_app, Hd. cbn.
      by destruct (Z.eqb_spec c DOT).
Qed.

Lemma length_split name cur : zlength (enc_labels (split_dots name cur)) = zlength name + zlength cur + 1.
Proof.
  revert cur. induction name as [|c name IH]; intros cur; cbn [split_dots].
  - cbn. rewrite app_nil_r, zlength_cons. change (zlength []) with 0. lia.
  - destruct (c =? DOT).
    + change (enc_labels (cur :: ?l)) with ((zlength cur :: cur) ++ enc_labels l).
      rewrite zlength_app, IH, !zlength_cons. change (zlength []) with 0. lia.
    + rewrite IH, zlength_app, !zlength_cons. change (zlength []) with 0. lia.
Qed.

(** Overwriting the front of a buffer. *)
Lemma take_splice_front {A} (l k : list A) n :
  (length k ≤ n)%nat → (n ≤ length l)%nat → take n (splice l 0 k) = k ++ drop (length k) (take n l).
Proof.
  intros Hk Hn. apply list_eq. intros i. rewrite lookup_take. destruct (decide (i < n)%nat).
  - destruct (decide (i < length k)%nat).
    + rewrite splice_lookup_inside, lookup_app_l by (unfold zlength; lia). f_equal. lia.
    + rewrite splice_lookup_outside, lookup_app_r, lookup_drop, lookup_take, decide_True by lia. f_equal. lia.
  - symmetry. apply lookup_ge_None_2. rewrite length_app, length_drop, length_take. lia.
Qed.

Lemma query_id i : 0 ≤ i < 65536 → [u8 (Z.shiftr i 8); Z.land i 0xFF] = be16 i.
Proof.
  intros Hi. rewrite Z.shiftr_div_pow2 by lia. change 0xFF with (Z.ones 8). rewrite Z.land_ones by lia.
  unfold be16, u8. change (2 ^ 8) with 256. f_equal. zdm.
Qed.

(** The query builder never writes outside its stack buffer and either
    refuses the name or produces the encoding of its labels. *)
Theorem dns_query_wire pkt name i sport :
  zlength pkt = sizeof_pkt → cstr_ok name = true → 0 ≤ i < 65536 → 0 ≤ sport < 65536 →
  dns_query pkt name i sport = Some (if hostname_ok name then Some (enc_query name i sport) else None).
Proof.
  intros Hp Hn Hi Hs. unfold dns_query, hostname_ok. rewrite Z.gtb_ltb. pose proof (zlength_nonneg name).
  destruct (Z.eqb_spec (zlength name) 0) as [->|]; [done|]. destruct (Z.leb_spec 1 (zlength name)); [|lia].
  destruct (Z.ltb_spec DNS_NAME_MAX (zlength name)), (Z.leb_spec (zlength name) DNS_NAME_MAX); try lia; [done|].
  cbn [orb andb]. set (hd := [u8 (Z.shiftr i 8); Z.land i 0xFF; 1; 0; 0; 1] ++ replicate 6 0).
  assert (hd = be16 i ++ [1; 0] ++ be16 1 ++ replicate 6 0) as Hhd by (rewrite <- query_id by done; done).
  destruct (wr_ok pkt 8 hd) as (p1 & -> & L1 & T1); [lia|rewrite Hp; done|]. cbn [mbind option_bind].
  pose proof (labels_spec name [] [] 12 p1 (S (length name))) as Hl. cbv zeta in Hl. cbn [app] in Hl.
  change (zlength (@nil Z)) with 0 in Hl.
  assert (zlength p1 = sizeof_pkt) as Hp1 by (unfold zlength in *; lia).
  specialize (Hl Hn eq_refl ltac:(done) eq_refl Hp1 ltac:(lia)).
  destruct (forallb label_ok (split_dots name [])); [|by rewrite Hl].
  destruct Hl as (p2 & -> & Hp2 & T2). cbn [mbind option_bind].
  unfold DNS_NAME_MAX, sizeof_pkt, DNS_NAME_MAX in *.
  destruct (wr_ok p2 (8 + (13 + zlength name)) [0; 0; 1; 0; 1]) as (p3 & -> & L3 & T3);
    [lia|rewrite Hp2; change (zlength [_; _; _; _; _]) with 5; lia|]. cbn [mbind option_bind].
  rewrite T2 in T3.
  set (uh := le_enc 2 (htons sport) ++ le_enc 2 (htons 53) ++
             le_enc 2 (htons (u16 (8 + (13 + zlength name + 5)))) ++ [0; 0]).
  assert (wr p3 0 uh = Some (splice p3 0 uh)) as ->.
  { unfold wr. destruct (Z.ltb_spec (zlength p3) (0 + zlength uh)) as [Hlt|_]; [|done].
    change (zlength uh) with 8 in Hlt. unfold zlength in *. lia. }
  cbn [mbind option_bind]. do 2 f_equal. rewrite take_splice_front by (change (length uh) with 8%nat; unfold zlength in *; lia).
  replace (Z.to_nat (8 + (13 + zlength name + 5))) with (Z.to_nat (8 + (13 + zlength name)) + length [0; 0; 1; 0; 1]%Z)%nat
    by (simpl length; lia).
  rewrite T3. change (8 + 12) with 20. change (Z.to_nat 20) with (Z.to_nat 8 + length hd)%nat. rewrite T1.
  change (length uh) with 8%nat. rewrite <- !app_assoc.
  rewrite drop_app_length' by (rewrite length_take; unfold zlength in *; lia).
  assert (uh = be16 sport ++ be16 53 ++ be16 (8 + (13 + zlength name + 5)) ++ [0; 0]) as ->.
  { unfold uh. by rewrite u16_small, !htons_wire by lia. }
  unfold enc_query, enc_name. cbn [labels ending]. rewrite Hhd, <- !app_assoc.
  set (q := be16 i ++ _). assert (zlength q = 13 + zlength name + 5) as ->; [|done].
  unfold q. rewrite !zlength_app, length_split. change (zlength (be16 _)) with 2. change (zlength [1; 0]) with 2.
  change (zlength (replicate 6 0)) with 6. change (zlength (@nil Z)) with 0. change (zlength [0; 0; 1; 0; 1]) with 5. lia.
Qed.

(** A query is read back by the parser of names: one question, its labels
    spelling the host name. *)
Fixpoint join_dots (ls : list (list Z)) : list Z :=
  match ls with
  | [] => []
  | [l] => l
  | l :: ls => l ++ [DOT] ++ join_dots ls
  end.

Lemma split_nonempty name cur : split_dots name cur ≠ [].
Proof. revert cur. induction name as [|c name IH]; intros cur; cbn [split_dots]; [done|]. by destruct (c =? DOT). Qed.

Lemma join_split name cur : join_dots (split_dots name cur) = cur ++ name.
Proof.
  revert cur. induction name as [|c name IH]; intros cur; cbn [split_dots]; [by rewrite app_nil_r|].
  destruct (Z.eqb_spec c DOT) as [->|].
  - specialize (IH []). pose proof (split_nonempty name []). destruct (split_dots name []) as [|l ls]; [done|].
    change (join_dots (cur :: l :: ls)) with (cur ++ [DOT] ++ join_dots (l :: ls)). by rewrite IH.
  - rewrite IH, <- app_assoc. done.
Qed.

(** A response with an alias before the address; names are compressed. *)
Definition demo_response : message :=
  mk_message 7 0x8180
    [mk_question (mk_name [[119; 119; 119]; [97]] [0]) [0; 1; 0; 1]]
    [mk_rr (mk_name [] [0xC0; 12]) 5 [0; 1; 0; 0; 1; 44] [1; 98; 0xC0; 16];
     mk_rr (mk_name [[98]] [0xC0; 16]) 1 [0; 1; 0; 0; 1; 44] [93; 184; 216; 34]] [0; 0; 0; 0] [].

Lemma dns_input_answers_witness :
  dns_input (enc_message demo_response) (mk_dnsq true false 7 0xC007 0) =
  Some (mk_dnsq true true 7 0xC007 (IP4 93 184 216 34)).
Proof. rewrite dns_input_answers; [reflexivity|]. vm_compute. reflexivity. Defined.

Lemma dns_query_wire_witness :
  dns_query (replicate 154 9) [97; 46; 98; 99] 7 0xC007 =
  Some (Some ([192; 7; 0; 53; 0; 30; 0; 0] ++ [0; 7; 1; 0; 0; 1; 0; 0; 0; 0; 0; 0] ++
              [1; 97; 2; 98; 99; 0] ++ [0; 1; 0; 1])).
Proof. rewrite dns_query_wire; [reflexivity|vm_compute; reflexivity|reflexivity|lia|lia]. Defined.
End DnsSpec.
