(* ===== verification/Tcp.v ===== *)
(** * TCP (kernel/tcp.c)

    The socket table, segment output and input, and the task-side operations
    up to the point where they block: a section between [irq_save] and
    [irq_restore], and the interrupt handler [tcp_input], are each one atomic
    state transformer. *)

From S2P Require Import Prelude Bytes Ring NetCsum Net.

Module Tcp.
Import NetCsum Net.

Definition TCP_FIN : Z := 0x01.
Definition TCP_SYN : Z := 0x02.
Definition TCP_RST : Z := 0x04.
Definition TCP_PSH : Z := 0x08.
Definition TCP_ACK : Z := 0x10.

Definition TCP_SOCKS : Z := 4.
Definition TCP_RXBUF : Z := 16384.
Definition TCP_MSS : Z := 1460.
Definition PIT_HZ : Z := 200.
Definition TCP_RTO_TICKS : Z := PIT_HZ / 2.
Definition TCP_SEND_TRIES : nat := 8.
Definition TCP_SYN_TRIES : nat := 4.
Definition TCP_LINGER_TICKS : Z := 2 * PIT_HZ.
Definition sizeof_tcp_hdr : Z := 20.

(** [fl & f]. *)
Definition has (fl f : Z) : bool := negb (Z.land fl f =? 0).

Definition seq_diff (a b : Z) : Z := s32 (u32 (a - b)).

Definition tcp_window (ts : tcp_sock) : Z :=
  let used := u32 (r_head (rx ts) - r_tail (rx ts) + TCP_RXBUF) mod TCP_RXBUF in
  let space := u32 (TCP_RXBUF - 1 - used) in
  if space >? 0xFFFF then 0xFFFF else u16 space.

(** ** Assignments to a socket's fields *)

Definition set_state (v : tcp_state) (t : tcp_sock) : tcp_sock :=
  mk_sock v (refs t) (rip t) (rport t) (lport t) (snd_nxt t) (snd_una t) (rcv_nxt t) (peer_fin t) (reset t)
    (fin_sent t) (close_ticks t) (rx t).
Definition set_refs (v : Z) (t : tcp_sock) : tcp_sock :=
  mk_sock (state t) v (rip t) (rport t) (lport t) (snd_nxt t) (snd_una t) (rcv_nxt t) (peer_fin t) (reset t)
    (fin_sent t) (close_ticks t) (rx t).
Definition set_snd_nxt (v : Z) (t : tcp_sock) : tcp_sock :=
  mk_sock (state t) (refs t) (rip t) (rport t) (lport t) v (snd_una t) (rcv_nxt t) (peer_fin t) (reset t)
    (fin_sent t) (close_ticks t) (rx t).
Definition set_snd_una (v : Z) (t : tcp_sock) : tcp_sock :=
  mk_sock (state t) (refs t) (rip t) (rport t) (lport t) (snd_nxt t) v (rcv_nxt t) (peer_fin t) (reset t)
    (fin_sent t) (close_ticks t) (rx t).
Definition set_rcv_nxt (v : Z) (t : tcp_sock) : tcp_sock :=
  mk_sock (state t) (refs t) (rip t) (rport t) (lport t) (snd_nxt t) (snd_una t) v (peer_fin t) (reset t)
    (fin_sent t) (close_ticks t) (rx t).
Definition set_peer_fin (t : tcp_sock) : tcp_sock :=
  mk_sock (state t) (refs t) (rip t) (rport t) (lport t) (snd_nxt t) (snd_una t) (rcv_nxt t) true (reset t)
    (fin_sent t) (close_ticks t) (rx t).
Definition set_reset (t : tcp_sock) : tcp_sock :=
  mk_sock (state t) (refs t) (rip t) (rport t) (lport t) (snd_nxt t) (snd_una t) (rcv_nxt t) (peer_fin t) true
    (fin_sent t) (close_ticks t) (rx t).
Definition set_rx (v : ring) (t : tcp_sock) : tcp_sock :=
  mk_sock (state t) (refs t) (rip t) (rport t) (lport t) (snd_nxt t) (snd_una t) (rcv_nxt t) (peer_fin t) (reset t)
    (fin_sent t) (close_ticks t) v.
(** [fin_sent = 1; state = TS_LINGER; close_ticks = timer_ticks]. *)
Definition set_lingering (ticks : Z) (t : tcp_sock) : tcp_sock :=
  mk_sock TS_LINGER (refs t) (rip t) (rport t) (lport t) (snd_nxt t) (snd_una t) (rcv_nxt t) (peer_fin t) (reset t)
    true ticks (rx t).

Definition free_sock : tcp_sock :=
  mk_sock TS_FREE 0 0 0 0 0 0 0 false false false 0 (mk_ring [] 0 0).

Definition sock_at (l : list tcp_sock) (i : nat) : tcp_sock := default free_sock (l !! i).

(** ** Segments *)

(** [struct tcp_hdr] up to the checksum field, and what follows it. *)
Definition tcp_pre (sport dport seq ack off flags win : Z) : list Z :=
  le_enc 2 (htons sport) ++ le_enc 2 (htons dport) ++ le_enc 4 (htonl seq) ++ le_enc 4 ack ++
  [off; flags] ++ le_enc 2 (htons win).

Definition tcp_post (opt data : list Z) : list Z := [0; 0] ++ opt ++ data.

Definition mss_option (with_mss : bool) : list Z :=
  if with_mss then [2; 4; u8 (Z.shiftr TCP_MSS 8); Z.land TCP_MSS 0xFF] else [].

(** The pseudo-header of the checksum. *)
Definition pseudo_hdr (dst tlen : Z) : list Z :=
  le_enc 4 net_ip ++ le_enc 4 dst ++ [0; 6; u8 (Z.shiftr tlen 8); u8 tlen].

(** The segment tcp_output assembles in [segbuf]. *)
Definition tcp_segment (ts : tcp_sock) (fl seq : Z) (data : list Z) (with_mss : bool) : list Z :=
  let hlen := 20 + (if with_mss then 4 else 0) in
  let pre := tcp_pre (lport ts) (rport ts) seq (if has fl TCP_ACK then htonl (rcv_nxt ts) else 0)
               (u8 (Z.shiftl (hlen / 4) 4)) fl (tcp_window ts) in
  let post := tcp_post (mss_option with_mss) data in
  let tlen := u32 (hlen + zlength data) in
  let sum := net_csum_add 0 (pseudo_hdr (rip ts) tlen) in
  let sum := net_csum_add sum (pre ++ le_enc 2 0 ++ post) in
  pre ++ le_enc 2 (net_csum_fin sum) ++ post.

(** The fields of a received segment. *)
Definition th_sport (seg : list Z) : Z := rd16 seg 0.
Definition th_dport (seg : list Z) : Z := rd16 seg 2.
Definition th_seq (seg : list Z) : Z := ntohl (rd32 seg 4).
Definition th_ack (seg : list Z) : Z := ntohl (rd32 seg 8).
Definition th_doff (seg : list Z) : Z := Z.shiftr (bget seg 12) 4 * 4.
Definition th_flags (seg : list Z) : Z := bget seg 13.

(** The bytes accepted, and the socket with them in its ring. *)
Definition ring_put (ts : tcp_sock) (p : list Z) : Z * tcp_sock :=
  let '(r, rest) := ring_fill TCP_RXBUF (rx ts) p in
  (zlength p - zlength rest, set_rx r ts).

(** The socket a segment belongs to: the first match. *)
Fixpoint tcp_find (l : list tcp_sock) (src sport dport : Z) : option nat :=
  match l with
  | [] => None
  | t :: l =>
      if bool_decide (state t ≠ TS_FREE) && (rip t =? src) && (htons (rport t) =? sport) && (htons (lport t) =? dport)
      then Some O
      else S <$> tcp_find l src sport dport
  end.

(** The socket after the ACK, data and FIN of a segment, and whether the
    segment calls for an ACK. *)
Definition tcp_process (ts : tcp_sock) (seq ack flags : Z) (payload : list Z) : tcp_sock * bool :=
  let ts := if has flags TCP_ACK && (0 <? seq_diff ack (snd_una ts)) && (seq_diff ack (snd_nxt ts) <=? 0)
            then set_snd_una ack ts else ts in
  let plen := zlength payload in
  let '(ts, need_ack) :=
    if 0 <? plen then
      (if seq =? rcv_nxt ts then
         let '(put, ts') := ring_put ts payload in set_rcv_nxt (u32 (rcv_nxt ts' + put)) ts'
       else ts, true)
    else (ts, false) in
  if has flags TCP_FIN then
    (if negb (peer_fin ts) && (u32 (seq + plen) =? rcv_nxt ts)
     then set_peer_fin (set_rcv_nxt (u32 (rcv_nxt ts + 1)) ts) else ts, true)
  else (ts, need_ack).

Section tcp.
Context {D : Type} `{Nic D}.
Abbreviation M := (ST (net D)).

Definition tcp_output (ts : tcp_sock) (fl seq : Z) (data : list Z) (with_mss : bool) : M Z :=
  net_ip_tx (rip ts) 6 (tcp_segment ts fl seq data with_mss).

Definition put_sock (i : nat) (ts : tcp_sock) : M unit := modify (λ s, set_socks (<[i := ts]> (socks s)) s).

Definition tcp_input (src_ip : Z) (seg : list Z) : M unit :=
  let len := zlength seg in
  if len <? sizeof_tcp_hdr then mret tt else
  let doff := th_doff seg in
  if (doff <? sizeof_tcp_hdr) || (doff >? len) then mret tt else
  let payload := drop (Z.to_nat doff) seg in
  l ← gets socks;
  match tcp_find l src_ip (th_sport seg) (th_dport seg) with
  | None => mret tt
  | Some i =>
      let ts := sock_at l i in
      let seq := th_seq seg in
      let ack := th_ack seg in
      let fl := th_flags seg in
      if has fl TCP_RST then
        let ts := set_reset ts in
        put_sock i (if decide (state ts = TS_LINGER) then set_state TS_FREE ts else ts)
      else if decide (state ts = TS_SYN_SENT) then
        if (Z.land fl (Z.lor TCP_SYN TCP_ACK) =? Z.lor TCP_SYN TCP_ACK) && (ack =? snd_nxt ts) then
          let ts := set_state TS_ESTABLISHED (set_snd_una ack (set_rcv_nxt (u32 (seq + 1)) ts)) in
          _ ← put_sock i ts;
          _ ← tcp_output ts TCP_ACK (snd_nxt ts) [] false;
          mret tt
        else mret tt
      else
        let '(ts, need_ack) := tcp_process ts seq ack fl payload in
        _ ← put_sock i ts;
        _ ← (if (need_ack : bool) then tcp_output ts TCP_ACK (snd_nxt ts) [] false else mret 0);
        if bool_decide (state ts = TS_LINGER) && peer_fin ts && (0 <=? seq_diff (snd_una ts) (snd_nxt ts))
        then put_sock i (set_state TS_FREE ts) else mret tt
  end.

(** [None] is a null pointer. *)
Definition sock_get (s : Z) : M (option nat) :=
  l ← gets socks;
  mret (if (s <? 0) || (s >=? TCP_SOCKS) then None
        else if decide (state (sock_at l (Z.to_nat s)) = TS_FREE) then None else Some (Z.to_nat s)).

(** ** Task-side operations *)

(** [if (state == TS_LINGER && ticks - close_ticks > TCP_LINGER_TICKS) state = TS_FREE]. *)
Definition reclaim (ticks : Z) (t : tcp_sock) : tcp_sock :=
  if bool_decide (state t = TS_LINGER) && (u32 (ticks - close_ticks t) >? TCP_LINGER_TICKS)
  then set_state TS_FREE t else t.

Fixpoint first_free (l : list tcp_sock) : option nat :=
  match l with
  | [] => None
  | t :: l => if decide (state t = TS_FREE) then Some O else S <$> first_free l
  end.

(** The masked section of tcp_connect: reclaim, pick a slot, set it up.  The
    slot and the initial send sequence number. *)
Definition tcp_open (ip port : Z) : M (option (nat * Z)) :=
  s ← gets id;
  let ticks := timer_ticks s in
  let l := reclaim ticks <$> socks s in
  _ ← modify (set_socks l);
  match first_free l with
  | None => mret None
  | Some idx =>
      let iss := Z.lor (u32 (Z.shiftl ticks 8)) (u32 (Z.shiftl (Z.of_nat idx) 4)) in
      let ts := mk_sock TS_SYN_SENT 1 ip port (Z.lor 0xD000 (Z.land (next_port s) 0xFFF))
                  (u32 (iss + 1)) iss 0 false false false 0 (mk_ring (r_buf (rx (sock_at l idx))) 0 0) in
      _ ← modify (set_next_port (u16 (next_port s + 1)));
      _ ← put_sock idx ts;
      mret (Some (idx, iss))
  end.

(** One pass of the [for (;;)] of tcp_recv: the return value and the bytes
    stored, or [None] for [task_switch()]. *)
Definition tcp_recv_pass (i : nat) (len : Z) : M (option (Z * list Z)) :=
  l ← gets socks;
  let ts := sock_at l i in
  let '(got, r) := ring_drain TCP_RXBUF (Z.to_nat len) (rx ts) in
  let ts := set_rx r ts in
  _ ← put_sock i ts;
  if 0 <? zlength got then
    _ ← tcp_output ts TCP_ACK (snd_nxt ts) [] false;
    mret (Some (zlength got, got))
  else if peer_fin ts then mret (Some (0, []))
  else if reset ts || bool_decide (state ts ≠ TS_ESTABLISHED) then mret (Some (-1, []))
  else mret None.

(** The masked section of tcp_send that claims sequence numbers. *)
Definition tcp_claim (i : nat) (chunk : Z) : M Z :=
  l ← gets socks;
  let ts := sock_at l i in
  _ ← put_sock i (set_snd_nxt (u32 (snd_nxt ts + chunk)) ts);
  mret (snd_nxt ts).

(** [ts->reset = 1] at the end of a failed tcp_send. *)
Definition tcp_poison (i : nat) : M unit :=
  l ← gets socks; put_sock i (set_reset (sock_at l i)).

Definition tcp_addref (s : Z) : M unit :=
  i ← sock_get s;
  match i with
  | None => mret tt
  | Some i => l ← gets socks; let ts := sock_at l i in put_sock i (set_refs (s32 (refs ts + 1)) ts)
  end.

Definition tcp_release (s : Z) : M unit :=
  i ← sock_get s;
  match i with
  | None => mret tt
  | Some i =>
      l ← gets socks;
      let ts := sock_at l i in
      let ts := set_refs (s32 (refs ts - 1)) ts in
      _ ← put_sock i ts;
      if 0 <? refs ts then mret tt else
      if bool_decide (state ts = TS_ESTABLISHED) && negb (reset ts) && negb (fin_sent ts) then
        let seq := snd_nxt ts in
        ticks ← gets timer_ticks;
        let ts := set_lingering ticks (set_snd_nxt (u32 (snd_nxt ts + 1)) ts) in
        _ ← put_sock i ts;
        _ ← tcp_output ts (Z.lor TCP_FIN TCP_ACK) seq [] false;
        mret tt
      else put_sock i (set_state TS_FREE ts)
  end.
End tcp.
End Tcp.
