(* ===== verification/NetRx.v ===== *)
(** * Reception and the blocking calls (kernel/net.c, kernel/tcp.c)

    The demultiplexer the driver calls for every frame, and the task-side
    calls that wait.  A waiting task runs [task_switch()] in a loop; what
    happens meanwhile - frames arriving, the clock ticking - is an explicit
    schedule of events, one per switch. *)

From S2P Require Import Prelude Bytes Ring NetCsum Net Dns Tcp.

Module NetRx.
Import NetCsum Net Dns Tcp.

Section rx.
Context {D : Type} `{Nic D}.
Abbreviation M := (ST (net D)).

(** The handlers return [false] where a read leaves its buffer. *)
Definition udp_rx (seg : list Z) : M bool :=
  q ← gets dns;
  match udp_input seg q with
  | None => mret false
  | Some q' => _ ← modify (set_dns q'); mret true
  end.

Definition ip_input (pkt : list Z) : M bool :=
  let len := zlength pkt in
  if len <? 20 then mret true else
  if negb (bget pkt 0 =? 0x45) || negb (rd32 pkt 16 =? net_ip) then mret true else
  if negb (Z.land (rd16 pkt 6) (htons 0x3FFF) =? 0) then mret true else
  let total := ntohs (rd16 pkt 2) in
  if (total <? 20) || (total >? len) then mret true else
  let seg := slice pkt 20 (total - 20) in
  if bget pkt 9 =? IP_PROTO_TCP then _ ← tcp_input (rd32 pkt 12) seg; mret true
  else if bget pkt 9 =? IP_PROTO_UDP then udp_rx seg
  else mret true.

Definition net_rx (frame : list Z) : M bool :=
  if zlength frame <? 14 then mret true else
  let payload := drop 14 frame in
  if rd16 frame 12 =? htons ETH_TYPE_ARP then _ ← arp_input payload; mret true
  else if rd16 frame 12 =? htons ETH_TYPE_IP then ip_input payload
  else mret true.

(** ** Waiting *)

(** What one [task_switch()] lets happen. *)
Record event := mk_event { arrivals : list (list Z); elapsed : Z }.

Fixpoint rx_all (frames : list (list Z)) (s : net D) : net D :=
  match frames with
  | [] => s
  | f :: fs => rx_all fs (net_rx f s).2
  end.

Definition happen (e : event) (s : net D) : net D :=
  let s' := rx_all (arrivals e) s in set_ticks (u32 (timer_ticks s' + elapsed e)) s'.

(** A blocking computation consumes events; [None] when the schedule ends
    before it returns. *)
Definition B (A : Type) : Type := net D → list event → option (A * net D * list event).

#[global] Instance B_ret : MRet B := λ A x s ev, Some (x, s, ev).
#[global] Instance B_bind : MBind B := λ A C f c s ev,
  match c s ev with Some (a, s', ev') => f a s' ev' | None => None end.

Definition now {A} (c : M A) : B A := λ s ev, let '(a, s') := c s in Some (a, s', ev).

(** [while (cond) task_switch();]. *)
Fixpoint wait_loop (cond : net D → bool) (ev : list event) (s : net D) : option (unit * net D * list event) :=
  if cond s then
    match ev with
    | [] => None
    | e :: ev' => wait_loop cond ev' (happen e s)
    end
  else Some (tt, s, ev).

Definition wait_while (cond : net D → bool) : B unit := λ s ev, wait_loop cond ev s.

(** [timer_ticks - start < limit]. *)
Definition in_time (start limit : Z) (s : net D) : bool := u32 (timer_ticks s - start) <? limit.

(** The attempts of net_ensure_gateway. *)
Fixpoint gateway_attempts (n : nat) : B unit :=
  match n with
  | O => mret tt
  | S n' =>
      valid ← now (gets gw_valid);
      if (valid : bool) then mret tt else
      _ ← now (arp_send 1 eth_bcast net_gateway);
      start ← now (gets timer_ticks);
      _ ← wait_while (λ s, negb (gw_valid s) && in_time start (PIT_HZ / 2) s);
      gateway_attempts n'
  end.

Definition net_ensure_gateway : B Z :=
  present ← now (gets (λ s, nic_present (nic s)));
  if negb present then mret (-1) else
  _ ← gateway_attempts 4;
  valid ← now (gets gw_valid);
  mret (if (valid : bool) then 0 else -1).

(** Claim the query slot. *)
Definition dns_claim : M unit := λ s,
  let i := next_id s in
  (tt, set_next_id (u16 (i + 1))
         (set_dns (mk_dnsq true false i (Z.lor 0xC000 (Z.land i 0xFFF)) (q_addr (dns s))) s)).

Definition dns_done : M unit := modify (λ s,
  let q := dns s in set_dns (mk_dnsq false (done q) (q_id q) (q_port q) (q_addr q)) s).

(** The attempts of dns_resolve; a fault of the query builder is [None]. *)
Fixpoint dns_attempts (n : nat) (stk name : list Z) : B (option bool) :=
  match n with
  | O => mret (Some false)
  | S n' =>
      q ← now (gets dns);
      r ← now (dns_send_query stk name (q_id q) (q_port q));
      match r with
      | None => mret None
      | Some r =>
          if r <? 0 then mret (Some false) else
          start ← now (gets timer_ticks);
          _ ← wait_while (λ s, negb (done (dns s)) && in_time start PIT_HZ s);
          found ← now (gets (λ s, done (dns s)));
          if (found : bool) then mret (Some true) else dns_attempts n' stk name
      end
  end.

(** The return value and the address stored through [ip_out].  [stk]: what
    the stack buffer of the query happens to hold. *)
Definition dns_resolve (stk name : list Z) : B (option (Z * option Z)) :=
  g ← net_ensure_gateway;
  if g <? 0 then mret (Some (-1, None)) else
  _ ← wait_while (λ s, busy (dns s));
  _ ← now dns_claim;
  found ← dns_attempts 3 stk name;
  match found with
  | None => mret None
  | Some found =>
      addr ← now (gets (λ s, q_addr (dns s)));
      _ ← now dns_done;
      mret (Some (if (found : bool) then (0, Some addr) else (-1, None)))
  end.

Definition the_sock (i : nat) (s : net D) : tcp_sock := sock_at (socks s) i.

(** The SYN attempts of tcp_connect, [attempt] counting up: whether the
    connection is established. *)
Fixpoint syn_attempts (n : nat) (attempt : Z) (i : nat) (iss : Z) : B bool :=
  match n with
  | O => mret false
  | S n' =>
      ts ← now (gets (the_sock i));
      _ ← now (tcp_output ts TCP_SYN iss [] true);
      start ← now (gets timer_ticks);
      _ ← wait_while (λ s, bool_decide (state (the_sock i s) = TS_SYN_SENT) && negb (reset (the_sock i s)) &&
                           in_time start (u32 (TCP_RTO_TICKS * (attempt + 1))) s);
      ts ← now (gets (the_sock i));
      if decide (state ts = TS_ESTABLISHED) then mret true else
      if reset ts then mret false else
      syn_attempts n' (attempt + 1) i iss
  end.

Definition tcp_connect (ip port : Z) : B Z :=
  g ← net_ensure_gateway;
  if g <? 0 then mret (-1) else
  o ← now (tcp_open ip port);
  match o with
  | None => mret (-1)
  | Some (i, iss) =>
      ok ← syn_attempts TCP_SYN_TRIES 0 i iss;
      if (ok : bool) then mret (Z.of_nat i) else
      ts ← now (gets (the_sock i));
      _ ← now (put_sock i (set_state TS_FREE ts));
      mret (-1)
  end.

(** The retransmission attempts of one chunk: whether it was acknowledged. *)
Fixpoint send_attempts (n : nat) (i : nat) (seq : Z) (data : list Z) : B bool :=
  match n with
  | O => mret false
  | S n' =>
      ts ← now (gets (the_sock i));
      r ← now (tcp_output ts (Z.lor TCP_ACK TCP_PSH) seq data false);
      if r <? 0 then mret false else
      start ← now (gets timer_ticks);
      let waiting s := negb (reset (the_sock i s)) && in_time start TCP_RTO_TICKS s in
      let acked s := 0 <=? seq_diff (snd_una (the_sock i s)) (u32 (seq + zlength data)) in
      _ ← wait_while (λ s, waiting s && negb (acked s));
      ok ← now (gets (λ s, waiting s && acked s));
      rst ← now (gets (λ s, reset (the_sock i s)));
      if (ok : bool) then mret true else if (rst : bool) then mret false else send_attempts n' i seq data
  end.

(** The [while (sent < len)] loop over the rest of the buffer. *)
Fixpoint send_chunks (fuel : nat) (i : nat) (sent : Z) (rest : list Z) : B Z :=
  match fuel with
  | O => mret sent
  | S fuel' =>
      match rest with
      | [] => mret sent
      | _ =>
          let data := take (Z.to_nat TCP_MSS) rest in
          seq ← now (tcp_claim i (zlength data));
          ok ← send_attempts TCP_SEND_TRIES i seq data;
          if (ok : bool) then send_chunks fuel' i (sent + zlength data) (drop (Z.to_nat TCP_MSS) rest)
          else _ ← now (tcp_poison i); mret (-1)
      end
  end.

Definition tcp_send (s : Z) (buf : list Z) : B Z :=
  o ← now (sock_get s);
  match o with
  | None => mret (-1)
  | Some i =>
      ts ← now (gets (the_sock i));
      if bool_decide (state ts ≠ TS_ESTABLISHED) || reset ts || fin_sent ts then mret (-1) else
      send_chunks (S (length buf)) i 0 buf
  end.

Fixpoint recv_loop (i : nat) (len : Z) (ev : list event) (s : net D) : option (Z * list Z * net D * list event) :=
  match tcp_recv_pass i len s with
  | (Some r, s') => Some (r, s', ev)
  | (None, s') => match ev with [] => None | e :: ev' => recv_loop i len ev' (happen e s') end
  end.

Definition recv_blocking (i : nat) (len : Z) : B (Z * list Z) := λ s ev, recv_loop i len ev s.

Definition tcp_recv (s : Z) (len : Z) : B (Z * list Z) :=
  o ← now (sock_get s);
  match o with
  | None => mret (-1, [])
  | Some i => if len =? 0 then mret (0, []) else recv_blocking i len
  end.
End rx.

(** ** Receiving is safe and touches the card only by sending *)

Section safe.
Context {D : Type} `{Nic D}.
Implicit Types s : net D.

Lemma run_bind {A C} (c : ST (net D) A) (k : A → ST (net D) C) s : (c ≫= k) s = k (c s).1 (c s).2.
Proof. unfold mbind, ST_bind. by destruct (c s). Qed.

(** A response changes the outcome of the pending query, not the query. *)
Definition same_query (q q' : dnsq) : Prop := busy q' = busy q ∧ q_id q' = q_id q ∧ q_port q' = q_port q.

Lemma dns_same_query p q q' : dns_input p q = Some q' → same_query q q'.
Proof.
  unfold dns_input. destruct ((zlength p <? 12) || negb (busy q) || done q); [by intros [= <-]|].
  intros (i & _ & E)%bind_Some. apply bind_Some in E as (fl & _ & E). apply bind_Some in E as (qd & _ & E).
  apply bind_Some in E as (an & _ & E). destruct (negb (i =? q_id q) || _); [by simplify_eq|].
  apply bind_Some in E as (o & _ & E). destruct o as [off|]; [|by simplify_eq].
  apply bind_Some in E as (r & _ & E). destruct r; by simplify_eq.
Qed.

Lemma udp_same_query seg q q' : udp_input seg q = Some q' → same_query q q'.
Proof.
  unfold udp_input. destruct (zlength seg <? _); [by intros [= <-]|]. destruct (_ || _); [by intros [= <-]|].
  destruct (_ && _); [apply dns_same_query|by intros [= <-]].
Qed.

(** A predicate the handlers' assignments keep, and sending keeps. *)
Section card.
Context (P : net D → Prop).
Context (HP : ∀ f s, P s → P (set_nic (nic_tx f (nic s)).2 s)).
Context (Hgw : ∀ m s, P s → P (set_gw m s)) (Hid : ∀ k s, P s → P (set_ip_id k s)).
Context (Hdns : ∀ q s, same_query (dns s) q → P s → P (set_dns q s)) (Hsocks : ∀ l s, P s → P (set_socks l s)).

Definition keeps {A} (c : ST (net D) A) : Prop := ∀ s, P s → P (c s).2.

Lemma keeps_ret {A} (x : A) : keeps (mret x).
Proof using. by intros s. Qed.

Lemma keeps_gets {A} (f : net D → A) : keeps (gets f).
Proof using. by intros s. Qed.

Lemma keeps_bind {A C} (c : ST (net D) A) (k : A → ST (net D) C) : keeps c → (∀ a, keeps (k a)) → keeps (c ≫= k).
Proof using. intros Hc Hk s Hs. rewrite run_bind. apply Hk, Hc, Hs. Qed.

Lemma keeps_modify f : (∀ s, P s → P (f s)) → keeps (modify f).
Proof using. intros Hf s Hs. by apply Hf. Qed.

Lemma keeps_tx f : keeps (rtl8139_tx f).
Proof using HP.
  intros s Hs. unfold rtl8139_tx. pose proof (HP f s Hs) as Hd. by destruct (nic_tx f (nic s)).
Qed.

(** Walk through a handler, statement by statement. *)
Ltac keep :=
  repeat first
    [ solve [apply keeps_ret | apply keeps_gets | apply keeps_modify; auto | apply keeps_tx | auto]
    | apply keeps_bind; [|intros ?] | case_match ].

Lemma keeps_eth mac type payload : keeps (eth_tx mac type payload).
Proof using HP. unfold eth_tx. keep. Qed.

Lemma keeps_arp pkt : keeps (arp_input pkt).
Proof using HP Hgw. unfold arp_input, arp_send. pose proof keeps_eth. keep. Qed.

Lemma keeps_ip_tx dst proto seg : keeps (net_ip_tx dst proto seg).
Proof using HP Hid. unfold net_ip_tx. keep. Qed.

Lemma keeps_tcp src seg : keeps (tcp_input src seg).
Proof using HP Hid Hsocks. unfold tcp_input, tcp_output, put_sock. pose proof keeps_ip_tx. keep. Qed.

Lemma keeps_udp seg : keeps (udp_rx seg).
Proof using Hdns.
  intros s Hs. unfold udp_rx. rewrite run_bind. cbn [gets fst snd].
  destruct (udp_input seg (dns s)) as [q|] eqn:E; [|done]. rewrite run_bind. cbn.
  apply Hdns; [by eapply udp_same_query|done].
Qed.

Lemma keeps_net_rx f : keeps (net_rx f).
Proof using HP Hgw Hid Hdns Hsocks.
  unfold net_rx, ip_input. pose proof keeps_arp. pose proof keeps_tcp. pose proof keeps_udp. keep.
Qed.

Lemma keeps_rx_all fs s : P s → P (rx_all fs s).
Proof using HP Hgw Hid Hdns Hsocks.
  revert s. induction fs as [|f fs IH]; intros s Hs; [done|]. apply IH, keeps_net_rx, Hs.
Qed.
End card.

(** No frame makes a handler read outside its buffer. *)
Lemma net_rx_safe f s : bytes_ok f → zlength f < 65536 → (net_rx f s).1 = true.
Proof.
  intros Hf Hl. unfold net_rx. case_if; [done|]. case_if; [by rewrite run_bind|]. case_if; [|done].
  unfold ip_input. set (pkt := drop 14 f).
  assert (bytes_ok pkt ∧ zlength pkt < 65536) as [Hp Hpl].
  { split; [by apply bytes_ok_drop|]. unfold pkt, zlength in *. rewrite length_drop. lia. }
  repeat (case_if; try (by rewrite ?run_bind)); try done. unfold udp_rx. rewrite run_bind. cbn [gets fst snd].
  set (seg := slice pkt 20 _). assert (bytes_ok seg ∧ zlength seg < 65536) as [Hs Hsl].
  { split; [by apply bytes_ok_take, bytes_ok_drop|]. unfold seg, slice, zlength in *. rewrite length_take, length_drop. lia. }
  assert (is_Some (udp_input seg (dns s))) as [q ->].
  { unfold udp_input. repeat (case_if; try done). apply dns_input_safe; [by apply bytes_ok_take, bytes_ok_drop|].
    unfold slice, zlength in *. rewrite length_take, length_drop. lia. }
  by rewrite run_bind.
Qed.
End safe.
End NetRx.
