(* ===== verification/Rtl8139.v ===== *)
(** * The RTL8139 driver (drivers/rtl8139.c)

    Transmission through the four bounce buffers and the walk over the
    receive ring.  The chip is part of the state: how long it takes to
    release a transmit slot, and what it has written into the receive ring,
    are arbitrary.  [rtl_nic] discharges the interface the stack relies on. *)

From S2P Require Import Prelude Bytes Ring NetCsum Net NetRx.

Module Rtl8139.
Import Net NetRx.

Definition RX_RING_SIZE : Z := 8192.
Definition RX_BUF_SIZE : Z := RX_RING_SIZE + 16 + 2048.
Definition TX_SLOTS : Z := 4.
Definition TX_POLL_LIMIT : Z := 100000.
Definition TX_BUF : Z := 2048.

(** The driver's static variables; [wire], the frames the chip was told to
    send; [delays], for each wait to come the polls until the chip sets OWN. *)
Record rtl := mk_rtl {
  nic_up : bool;
  mac : list Z;
  tx_bufs : list (list Z);
  tx_next : Z;
  tx_used : list bool;
  rx_off : Z;
  wire : list (list Z);
  delays : list Z;
}.

Definition rtl8139_present (d : rtl) : bool := nic_up d.
Definition rtl8139_mac (d : rtl) : list Z := mac d.

(** The poll loop: whether [own] was seen before the limit. *)
Fixpoint poll (n : nat) (own : Z → bool) (i : Z) : bool :=
  match n with
  | O => false
  | S n' => if own i then true else poll n' own (i + 1)
  end.

(** The wait for a slot the chip may still be reading. *)
Definition tx_wait (d : rtl) : bool * rtl :=
  match tx_used d !! Z.to_nat (tx_next d) with
  | Some true =>
      let own i := default 0 (head (delays d)) <=? i in
      (poll (Z.to_nat TX_POLL_LIMIT) own 0,
       mk_rtl (nic_up d) (mac d) (tx_bufs d) (tx_next d) (tx_used d) (rx_off d) (wire d) (tail (delays d)))
  | _ => (true, d)
  end.

Definition rtl8139_tx (frame : list Z) : ST rtl Z := λ d,
  let len := zlength frame in
  if negb (nic_up d) || (len >? 1514) then (-1, d) else
  let slot := Z.to_nat (tx_next d) in
  let '(ready, d) := tx_wait d in
  if negb ready then (-1, d) else
  let buf := splice (default [] (tx_bufs d !! slot)) 0 frame in
  let buf := if len <? 60 then splice buf len (memset_buf 0 (60 - len)) else buf in
  let len := if len <? 60 then 60 else len in
  (0, mk_rtl (nic_up d) (mac d) (<[slot := buf]> (tx_bufs d)) ((tx_next d + 1) mod TX_SLOTS)
        (<[slot := true]> (tx_used d)) (rx_off d) (wire d ++ [take (Z.to_nat len) buf]) (delays d)).

#[global] Instance rtl_nic : Nic rtl := {
  nic_present := rtl8139_present;
  nic_mac := rtl8139_mac;
  nic_tx := rtl8139_tx;
  nic_wire := wire;
}.

(** ** Reception *)

Definition set_rx_off (o : Z) (d : rtl) : rtl :=
  mk_rtl (nic_up d) (mac d) (tx_bufs d) (tx_next d) (tx_used d) o (wire d) (delays d).

(** The record at the read offset: status, length, and the bytes of the
    frame without its checksum. *)
Definition rx_status (buf : list Z) (off : Z) : Z := u16 (Z.lor (bget buf off) (Z.shiftl (bget buf (off + 1)) 8)).
Definition rx_len (buf : list Z) (off : Z) : Z := u16 (Z.lor (bget buf (off + 2)) (Z.shiftl (bget buf (off + 3)) 8)).

Definition rx_next (off len : Z) : Z :=
  let o := Z.land (u32 (off + 4 + len + 3)) (u32 (Z.lnot 3)) in
  if o >=? RX_RING_SIZE then u32 (o - RX_RING_SIZE) else o.

(** rx_drain: [bufs] is what the ring holds at each iteration that finds it
    not empty; [false] when a read leaves a buffer. *)
Fixpoint rx_drain (bufs : list (list Z)) : ST (net rtl) bool :=
  match bufs with
  | [] => mret true
  | buf :: bufs' =>
      off ← gets (λ s, rx_off (nic s));
      if zlength buf <? off + 4 then mret false else
      let status := rx_status buf off in
      let len := rx_len buf off in
      if (Z.land status 1 =? 0) || (len <? 8) || (len >? 1518 + 4) then
        _ ← modify (λ s, set_nic (set_rx_off 0 (nic s)) s);
        mret true
      else if zlength buf <? off + 4 + (len - 4) then mret false else
        ok ← net_rx (slice buf (off + 4) (len - 4));
        if negb ok then mret false else
        _ ← modify (λ s, set_nic (set_rx_off (rx_next (rx_off (nic s)) len) (nic s)) s);
        rx_drain bufs'
  end.

Definition ISR_ROK : Z := 0x0001.
Definition ISR_RER : Z := 0x0002.
Definition ISR_RXOVW : Z := 0x0010.
Definition ISR_FOVW : Z := 0x0040.

(** The interrupt handler, [isr] being the status register. *)
Definition rtl8139_irq (isr : Z) (bufs : list (list Z)) : ST (net rtl) bool :=
  present ← gets (λ s, nic_up (nic s));
  if negb present then mret true else
  if negb (Z.land isr (Z.lor (Z.lor (Z.lor ISR_ROK ISR_RER) ISR_RXOVW) ISR_FOVW) =? 0)
  then rx_drain bufs else mret true.

(** ** Transmission keeps the interface's promises *)

Record rtl_ok (d : rtl) : Prop := {
  ko_mac : length (mac d) = 6%nat ∧ bytes_ok (mac d);
  ko_next : 0 ≤ tx_next d < TX_SLOTS;
  ko_used : length (tx_used d) = 4%nat;
  ko_bufs : length (tx_bufs d) = 4%nat ∧ Forall (λ b, zlength b = TX_BUF) (tx_bufs d);
  ko_off : 0 ≤ rx_off d < RX_RING_SIZE ∧ rx_off d mod 4 = 0;
}.

Lemma tx_wait_same d :
  let d' := (tx_wait d).2 in
  nic_up d' = nic_up d ∧ mac d' = mac d ∧ tx_bufs d' = tx_bufs d ∧ tx_next d' = tx_next d ∧
  tx_used d' = tx_used d ∧ rx_off d' = rx_off d ∧ wire d' = wire d.
Proof. unfold tx_wait. by destruct (tx_used d !! Z.to_nat (tx_next d)) as [[]|]. Qed.

(** The slot's buffer, cut at the length given to the chip, is the padded
    frame whatever the buffer held before. *)
Lemma bounce_frame old frame :
  zlength old = TX_BUF → zlength frame ≤ 1514 →
  let len := zlength frame in
  let buf := splice old 0 frame in
  let buf := if len <? 60 then splice buf len (memset_buf 0 (60 - len)) else buf in
  take (Z.to_nat (if len <? 60 then 60 else len)) buf = eth_pad frame ∧ zlength buf = TX_BUF.
Proof.
  intros Hold Hlen. cbv zeta. unfold TX_BUF in *.
  assert (take (length frame) (splice old 0 frame) = frame) as Hf.
  { pose proof (take_splice old frame 0 ltac:(lia) ltac:(lia)) as Ht. exact Ht. }
  destruct (Z.ltb_spec (zlength frame) 60) as [Hs|Hs].
  - assert (zlength (memset_buf 0 (60 - zlength frame)) = 60 - zlength frame) as Hm
      by (unfold zlength, memset_buf in *; rewrite length_replicate; lia).
    split; [|unfold zlength in *; by rewrite !length_splice].
    pose proof (take_splice (splice old 0 frame) (memset_buf 0 (60 - zlength frame)) (zlength frame)
      ltac:(apply zlength_nonneg)) as Ht.
    rewrite Hm in Ht. specialize (Ht ltac:(unfold zlength in *; rewrite length_splice; lia)).
    replace (Z.to_nat (zlength frame)) with (length frame) in Ht by (unfold zlength; lia). rewrite Hf in Ht.
    replace (length frame + length (memset_buf 0 (60 - zlength frame)))%nat with (Z.to_nat 60) in Ht
      by (unfold zlength in *; lia).
    rewrite Ht. unfold eth_pad, memset_buf. do 2 f_equal. unfold zlength in *. lia.
  - split; [|unfold zlength in *; by rewrite length_splice].
    replace (Z.to_nat (zlength frame)) with (length frame) by (unfold zlength; lia). rewrite Hf. unfold eth_pad.
    replace (60 - length frame)%nat with O by (unfold zlength in *; lia). by rewrite app_nil_r.
Qed.

Lemma tx_spec frame d :
  rtl_ok d →
  let '(r, d') := rtl8139_tx frame d in
  rtl_ok d' ∧ nic_up d' = nic_up d ∧ mac d' = mac d ∧ rx_off d' = rx_off d ∧
  (r = 0 ∧ wire d' = wire d ++ [eth_pad frame] ∨ r = -1 ∧ wire d' = wire d).
Proof.
  intros Hd. unfold rtl8139_tx. destruct (negb (nic_up d) || (zlength frame >? 1514)) eqn:E; [by auto 10|]. boolp.
  pose proof (tx_wait_same d) as Hw. destruct (tx_wait d) as [ready d1]. cbv zeta in Hw. cbn [snd] in Hw.
  destruct Hw as (E1 & E2 & E3 & E4 & E5 & E6 & E7).
  assert (rtl_ok d1) as Hd1 by (destruct Hd; constructor; by rewrite ?E1, ?E2, ?E3, ?E4, ?E5, ?E6).
  destruct ready; cbn [negb]; [|by rewrite <- E7; auto 10].
  destruct Hd1 as [K1 K2 K3 [K4 K5] K6]. rewrite E4 in *. set (slot := Z.to_nat (tx_next d)) in *.
  assert (slot < 4)%nat as Hslot by (unfold slot, TX_SLOTS in *; lia).
  destruct (lookup_lt_is_Some_2 (tx_bufs d1) slot) as [old Ho]; [lia|]. rewrite Ho. cbn [default].
  pose proof (Forall_lookup_1 _ _ _ _ K5 Ho) as Hold. cbn in Hold.
  destruct (bounce_frame old frame Hold) as [Hfr Hbl]; [done|]. cbv zeta in Hfr, Hbl.
  split_and!; [|done|done|done|left; split; [done|]; cbn; by rewrite Hfr, E7].
  constructor; cbn; try done.
  - apply Z.mod_pos_bound. done.
  - by rewrite length_insert.
  - split; [by rewrite length_insert|]. by apply Forall_insert.
Qed.

#[global] Instance rtl_nic_ok : NicOk rtl.
Proof.
  refine {| nic_ok := rtl_ok |}.
  - intros d Hd. apply Hd.
  - intros f d Hd. pose proof (tx_spec f d Hd) as Ht. cbn. destruct (rtl8139_tx f d) as [r d']. cbn.
    by destruct Ht as (? & ? & ? & _).
  - intros f d Hd. pose proof (tx_spec f d Hd) as Ht. cbn. destruct (rtl8139_tx f d) as [r d']. cbn.
    by destruct Ht as (_ & _ & _ & _ & ?).
Defined.

(** ** The receive ring *)

Lemma align4 x : 0 ≤ x < 4294967296 → Z.land x (u32 (Z.lnot 3)) = x - x mod 4.
Proof. intros Hx. change (u32 (Z.lnot 3)) with (Z.shiftl (Z.ones (32 - 2)) 2). by rewrite align_down by lia. Qed.

(** The read offset stays inside the ring and dword aligned. *)
Lemma rx_next_ok off len :
  0 ≤ off < RX_RING_SIZE → 0 ≤ len ≤ 1522 → 0 ≤ rx_next off len < RX_RING_SIZE ∧ rx_next off len mod 4 = 0.
Proof.
  intros Ho Hl. unfold rx_next, RX_RING_SIZE in *. rewrite u32_small by lia. rewrite align4 by lia.
  destruct (Z.geb_spec (off + 4 + len + 3 - (off + 4 + len + 3) mod 4) 8192); [rewrite u32_small by zdm|]; split; zdm.
Qed.

Lemma set_rx_off_ok d o : rtl_ok d → 0 ≤ o < RX_RING_SIZE ∧ o mod 4 = 0 → rtl_ok (set_rx_off o d).
Proof. intros [] Ho. by constructor. Qed.

Lemma tx_keeps off f d : rtl_ok d ∧ rx_off d = off → rtl_ok (nic_tx f d).2 ∧ rx_off (nic_tx f d).2 = off.
Proof.
  intros [Hd He]. pose proof (tx_spec f d Hd) as Ht. cbn. destruct (rtl8139_tx f d) as [r d']. cbn.
  destruct Ht as (? & _ & _ & Hr & _). by rewrite Hr.
Qed.

Lemma rx_drain_safe bufs s :
  rtl_ok (nic s) → Forall (λ b, bytes_ok b ∧ zlength b = RX_BUF_SIZE) bufs →
  (rx_drain bufs s).1 = true ∧ rtl_ok (nic (rx_drain bufs s).2).
Proof.
  intros Hs Hb. revert s Hs. induction Hb as [|buf bufs [Hby Hlen] Hb IH]; intros s Hs; [done|].
  cbn [rx_drain]. rewrite run_bind. cbn [gets fst snd]. pose proof (ko_off _ Hs) as [Ho Ha].
  unfold RX_BUF_SIZE, RX_RING_SIZE in Hlen, Ho. rewrite Hlen.
  set (off := rx_off (nic s)) in *. destruct (Z.ltb_spec (8192 + 16 + 2048) (off + 4)); [lia|].
  destruct ((Z.land (rx_status buf off) 1 =? 0) || (rx_len buf off <? 8) || (rx_len buf off >? 1518 + 4)) eqn:E.
  { rewrite run_bind. split; [done|]. cbn. by apply set_rx_off_ok. }
  boolp. set (len := rx_len buf off) in *.
  destruct (Z.ltb_spec (8192 + 16 + 2048) (off + 4 + (len - 4))); [lia|].
  rewrite run_bind. rewrite net_rx_safe; cycle 1.
  { by apply bytes_ok_take, bytes_ok_drop. }
  { unfold slice, zlength. rewrite length_take. lia. }
  cbn [negb]. rewrite run_bind. cbn [modify fst snd]. apply IH. cbn.
  destruct (keeps_net_rx (λ s, rtl_ok (nic s) ∧ rx_off (nic s) = off) (λ f s, tx_keeps off f (nic s))
    (λ _ _ h, h) (λ _ _ h, h) (λ _ _ _ h, h) (λ _ _ h, h) (slice buf (off + 4) (len - 4)) s) as [Hk He]; [done|]. apply set_rx_off_ok; [done|]. rewrite He. apply rx_next_ok; unfold RX_RING_SIZE; lia.
Qed.


(** A card just brought up, and the stack around it. *)
Definition demo_rtl : rtl :=
  mk_rtl true [82; 84; 0; 18; 52; 86] (replicate 4 (replicate (Z.to_nat TX_BUF) 0)) 0 (replicate 4 false) 0 [] [].

Lemma demo_rtl_ok : rtl_ok demo_rtl.
Proof.
  constructor.
  - split; [done|]. by apply (bool_decide_unpack _).
  - cbn. unfold TX_SLOTS. lia.
  - done.
  - split; [done|]. by apply Forall_replicate.
  - done.
Qed.

Definition demo_net : net rtl :=
  mk_net demo_rtl [82; 85; 10; 0; 2; 2] true 7 (mk_dnsq false false 0 0 0) 1
    (replicate 4 (mk_sock TS_FREE 0 0 0 0 0 0 0 false false false 0 (mk_ring (replicate (Z.to_nat 16384) 0) 0 0))) 0 0.

(** A receive ring with one frame of ten zero bytes and its checksum. *)
Definition demo_ring : list Z := [1; 0; 14; 0] ++ replicate (Z.to_nat RX_BUF_SIZE - 4) 0.

End Rtl8139.
