(* ===== verification/TcpStream.v ===== *)
(** * TCP: segments on the wire and the stream delivered

    Every segment sent carries the fields of the socket and a checksum that
    verifies.  Whatever the network does with the peer's segments - lose,
    repeat, reorder them - and however calls and interrupts interleave, the
    bytes tcp_recv delivers are a prefix of the peer's stream, and all of it
    once end of file is reported. *)

From S2P Require Import Prelude Bytes Ring NetCsum Net Dns Tcp NetRx Rtl8139.

Module TcpSpec.
Import NetCsum Net Tcp NetRx.

(** ** Segments on the wire *)

Record sock_ok (ts : tcp_sock) : Prop := {
  so_rip : fits 4 (rip ts);
  so_rport : 0 ≤ rport ts < 65536;
  so_lport : 0 ≤ lport ts < 65536;
  so_rcv : 0 ≤ rcv_nxt ts < 4294967296;
  so_ring : ring_ok TCP_RXBUF (rx ts);
}.

Lemma ring_size : 2 ≤ TCP_RXBUF < 4294967295.
Proof. unfold TCP_RXBUF. lia. Qed.

(** The advertised window is the room left in the ring. *)
Lemma window_room ts :
  ring_ok TCP_RXBUF (rx ts) → tcp_window ts = TCP_RXBUF - 1 - zlength (ring_items TCP_RXBUF (rx ts)).
Proof.
  intros Hr. rewrite (length_ring_items _ ring_size _ Hr). destruct Hr as [_ Hh Ht]. unfold tcp_window, ring_count.
  assert (u32 (r_head (rx ts) - r_tail (rx ts) + TCP_RXBUF) mod TCP_RXBUF =
          (r_head (rx ts) - r_tail (rx ts)) mod TCP_RXBUF) as ->.
  { rewrite u32_small by (unfold TCP_RXBUF in *; lia).
    rewrite <- (Z.mul_1_l TCP_RXBUF) at 1. by rewrite Z.mod_add. }
  pose proof (Z.mod_pos_bound (r_head (rx ts) - r_tail (rx ts)) TCP_RXBUF ltac:(done)) as Hb.
  unfold TCP_RXBUF in *. rewrite u32_small by lia.
  match goal with |- context [?a >? ?b] => destruct (Z.gtb_spec a b); [lia|] end. rewrite u16_small; lia.
Qed.

Lemma length_tcp_pre a b c d e f g : length (tcp_pre a b c d e f g) = 16%nat.
Proof. unfold tcp_pre. by rewrite !length_app, !length_le_enc. Qed.

Lemma tcp_pre_bytes a b c d e f g : is_byte e → is_byte f → bytes_ok (tcp_pre a b c d e f g).
Proof.
  intros He Hf. unfold tcp_pre. rewrite !bytes_ok_app. split_and!; try apply le_enc_bytes.
  by repeat apply Forall_cons_2; [..|constructor].
Qed.

Lemma htonl_fits v : fits 4 (htonl v).
Proof. unfold fits, htonl. match goal with |- context [u32 ?x] => pose proof (u32_range x) end. lia. Qed.

Lemma length_segment ts fl seq data (with_mss : bool) :
  zlength (tcp_segment ts fl seq data with_mss) = 20 + (if with_mss then 4 else 0) + zlength data.
Proof.
  unfold tcp_segment, tcp_post. cbv zeta. rewrite !zlength_app. unfold zlength at 1 2.
  rewrite length_tcp_pre, length_le_enc.
  change (zlength [0; 0]) with 2. unfold mss_option, zlength. destruct with_mss; simpl length; lia.
Qed.

(** Where the fields of a header are. *)
Lemma tcp_pre_fields a b c d e f g rest :
  let seg := tcp_pre a b c d e f g ++ rest in
  fits 4 d →
  rd16 seg 0 = htons a ∧ rd16 seg 2 = htons b ∧ rd32 seg 4 = htonl c ∧ rd32 seg 8 = d ∧
  bget seg 12 = e ∧ bget seg 13 = f ∧ rd16 seg 14 = htons g.
Proof.
  intros seg Hd. pose proof (htons_fits a). pose proof (htons_fits b). pose proof (htonl_fits c).
  pose proof (htons_fits g).
  set (l1 := le_enc 2 (htons a)). set (l2 := le_enc 2 (htons b)). set (l3 := le_enc 4 (htonl c)).
  set (l4 := le_enc 4 d). set (l5 := le_enc 2 (htons g)).
  assert (seg = l1 ++ l2 ++ l3 ++ l4 ++ [e; f] ++ l5 ++ rest) as -> by (unfold seg, tcp_pre; by rewrite <- !app_assoc).
  assert (length l1 = 2%nat ∧ length l2 = 2%nat ∧ length l3 = 4%nat ∧ length l4 = 4%nat) as (E1 & E2 & E3 & E4)
    by (unfold l1, l2, l3, l4; by rewrite !length_le_enc).
  split_and!.
  - by apply (rd16_at []).
  - by apply (rd16_at l1).
  - rewrite app_assoc. apply rd32_at; [unfold zlength; by rewrite length_app, E1, E2|done].
  - rewrite (app_assoc l1), (app_assoc (l1 ++ l2)).
    apply rd32_at; [unfold zlength; by rewrite !length_app, E1, E2, E3|done].
  - rewrite (app_assoc l1), (app_assoc (l1 ++ l2)), (app_assoc ((l1 ++ l2) ++ l3)). cbn [app].
    apply bget_at_app. unfold zlength. by rewrite !length_app, E1, E2, E3, E4.
  - rewrite (app_assoc l1), (app_assoc (l1 ++ l2)), (app_assoc ((l1 ++ l2) ++ l3)).
    change ([e; f] ++ l5 ++ rest) with ([e] ++ f :: l5 ++ rest). rewrite (app_assoc (((l1 ++ l2) ++ l3) ++ l4)).
    apply bget_at_app. unfold zlength. by rewrite !length_app, E1, E2, E3, E4.
  - rewrite (app_assoc l1), (app_assoc (l1 ++ l2)), (app_assoc ((l1 ++ l2) ++ l3)), (app_assoc (((l1 ++ l2) ++ l3) ++ l4)).
    apply rd16_at; [|done]. unfold zlength. by rewrite !length_app, E1, E2, E3, E4.
Qed.

(** What the peer reads in a segment of [ts]. *)
Record segment_valid (ts : tcp_sock) (fl seq : Z) (data seg : list Z) : Prop := {
  sv_ports : th_sport seg = htons (lport ts) ∧ th_dport seg = htons (rport ts);
  sv_seq : th_seq seg = seq;
  sv_ack : has fl TCP_ACK = true → th_ack seg = rcv_nxt ts;
  sv_flags : th_flags seg = fl;
  sv_window : ntohs (rd16 seg 14) = TCP_RXBUF - 1 - zlength (ring_items TCP_RXBUF (rx ts));
  sv_data : sizeof_tcp_hdr ≤ th_doff seg ≤ zlength seg ∧ drop (Z.to_nat (th_doff seg)) seg = data;
  sv_csum : net_csum_fin (net_csum_add (net_csum_add 0 (pseudo_hdr (rip ts) (zlength seg))) seg) = 0;
}.

Lemma pseudo_bytes dst n : bytes_ok (pseudo_hdr dst n).
Proof.
  unfold pseudo_hdr. rewrite !bytes_ok_app. split_and!; try apply le_enc_bytes.
  repeat apply Forall_cons_2; try (unfold is_byte; lia); try apply u8_range. constructor.
Qed.

Lemma pseudo_sum dst n : 0 ≤ net_csum_add 0 (pseudo_hdr dst n) ≤ 65535 * 7.
Proof.
  pose proof (pseudo_bytes dst n) as Hb. rewrite csum_add_sum by done.
  pose proof (word_sum_bound _ Hb) as Hw.
  assert (zlength (pseudo_hdr dst n) = 12) as Hl
    by (unfold zlength, pseudo_hdr; by rewrite !length_app, !length_le_enc).
  rewrite Hl in Hw. change (65535 * (12 + 1) / 2) with 425977 in Hw. rewrite u32_small; lia.
Qed.

(** A segment's header reads back as the fields it was built from, its
    payload is the data and its checksum verifies. *)
Lemma segment_wire ts fl seq data with_mss :
  sock_ok ts → is_byte fl → 0 ≤ seq < 4294967296 → bytes_ok data → zlength data ≤ TCP_MSS →
  segment_valid ts fl seq data (tcp_segment ts fl seq data with_mss).
Proof.
  intros [Hrip Hrp Hlp Hrcv Hring] Hfl Hseq Hdata Hlen. pose proof (zlength_nonneg data) as Hl0.
  unfold tcp_segment. set (hlen := 20 + (if with_mss then 4 else 0)).
  assert (hlen = 20 + zlength (mss_option with_mss) ∧ 20 ≤ hlen ≤ 24) as [Hh Hhr]
    by (unfold hlen; destruct with_mss; done || (split; [done|lia])).
  set (ackv := if has fl TCP_ACK then htonl (rcv_nxt ts) else 0).
  set (offv := u8 (Z.shiftl (hlen / 4) 4)).
  assert (is_byte offv ∧ Z.shiftr offv 4 * 4 = hlen) as [Hoff Hdoff].
  { unfold offv, hlen. by destruct with_mss. }
  assert (fits 4 ackv) as Hackf by (unfold ackv; destruct (has fl TCP_ACK); [apply htonl_fits|done]).
  set (pre := tcp_pre (lport ts) (rport ts) seq ackv offv fl (tcp_window ts)).
  set (post := tcp_post (mss_option with_mss) data).
  rewrite (u32_small (hlen + zlength data)) by (unfold TCP_MSS in *; lia).
  set (sum0 := net_csum_add 0 (pseudo_hdr (rip ts) (hlen + zlength data))).
  set (csum := net_csum_fin (net_csum_add sum0 (pre ++ le_enc 2 0 ++ post))).
  assert (zlength (pre ++ le_enc 2 csum ++ post) = hlen + zlength data) as Hsl.
  { rewrite !zlength_app. unfold post, tcp_post. rewrite !zlength_app. unfold zlength at 1 2 3.
    unfold pre. rewrite length_tcp_pre, length_le_enc. simpl. lia. }
  destruct (tcp_pre_fields (lport ts) (rport ts) seq ackv offv fl (tcp_window ts) (le_enc 2 csum ++ post) Hackf)
    as (F1 & F2 & F3 & F4 & F5 & F6 & F7). fold pre in F1, F2, F3, F4, F5, F6, F7.
  constructor; unfold th_sport, th_dport, th_seq, th_ack, th_doff, th_flags.
  - done.
  - rewrite F3. by apply htonl_involutive.
  - intros Ha. rewrite F4. unfold ackv. rewrite Ha. by apply htonl_involutive.
  - done.
  - rewrite F7, htons_involutive; [by apply window_room|]. rewrite window_room by done.
    rewrite (length_ring_items _ ring_size) by done. pose proof (count_bound _ ring_size (rx ts)). unfold TCP_RXBUF in *. lia.
  - rewrite F5, Hdoff, Hsl. unfold sizeof_tcp_hdr. split; [lia|].
    assert (pre ++ le_enc 2 csum ++ post = (pre ++ le_enc 2 csum ++ [0; 0] ++ mss_option with_mss) ++ data) as ->
      by (unfold post, tcp_post; by rewrite <- !app_assoc).
    apply drop_app_length'. unfold pre. rewrite !length_app, length_tcp_pre, length_le_enc.
    unfold zlength in Hh. simpl. lia.
  - rewrite Hsl. fold sum0. apply csum_stored.
    + by apply tcp_pre_bytes.
    + unfold post, tcp_post. rewrite !bytes_ok_app. split_and!; [by repeat constructor| |done].
      by destruct with_mss; repeat constructor.
    + unfold pre. rewrite length_tcp_pre. by exists 8%nat.
    + apply pseudo_sum.
    + unfold pre, zlength at 1. rewrite length_tcp_pre.
      assert (zlength post = hlen - 18 + zlength data) as ->.
      { rewrite !zlength_app in Hsl. unfold zlength at 1 2 in Hsl. unfold pre in Hsl.
        rewrite length_tcp_pre, length_le_enc in Hsl. lia. }
      assert (sum0 ≤ 65535 * 7) as Hs0 by apply pseudo_sum. unfold TCP_MSS in *. lia.
Qed.
End TcpSpec.

(** * The byte stream a TCP socket delivers

    One socket seen through every atomic step that can touch the stack:
    frames from the network, the task-side calls of any task, on this socket
    and on others. *)

Module TcpStream.
Import NetCsum Net Dns Tcp NetRx TcpSpec.

(** ** What a segment does to its socket *)

Definition sock_input (ts : tcp_sock) (seg : list Z) : tcp_sock :=
  let fl := th_flags seg in
  if has fl TCP_RST then
    if decide (state ts = TS_LINGER) then set_state TS_FREE (set_reset ts) else set_reset ts
  else if decide (state ts = TS_SYN_SENT) then
    if (Z.land fl (Z.lor TCP_SYN TCP_ACK) =? Z.lor TCP_SYN TCP_ACK) && (th_ack seg =? snd_nxt ts)
    then set_state TS_ESTABLISHED (set_snd_una (th_ack seg) (set_rcv_nxt (u32 (th_seq seg + 1)) ts))
    else ts
  else
    let ts' := (tcp_process ts (th_seq seg) (th_ack seg) fl (drop (Z.to_nat (th_doff seg)) seg)).1 in
    if bool_decide (state ts' = TS_LINGER) && peer_fin ts' && (0 <=? seq_diff (snd_una ts') (snd_nxt ts'))
    then set_state TS_FREE ts' else ts'.

(** The guards of tcp_input on the header length. *)
Definition segment_ok (seg : list Z) : bool :=
  (sizeof_tcp_hdr <=? zlength seg) && (sizeof_tcp_hdr <=? th_doff seg) && (th_doff seg <=? zlength seg).

Section frame.
Context {D : Type} `{Nic D}.
Implicit Types s : net D.

(** Sending touches the card and the IP identification only. *)
Lemma ip_tx_frame dst proto seg s : ∃ d k, (net_ip_tx dst proto seg s).2 = set_nic d (set_ip_id k s).
Proof.
  unfold net_ip_tx, mbind, ST_bind, gets, modify, mret, ST_ret, id. cbv beta iota.
  destruct (negb (nic_present (nic s)) || negb (gw_valid s) || (zlength seg >? 1480)).
  - exists (nic s), (ip_id s). by destruct s.
  - unfold rtl8139_tx. match goal with |- context [nic_tx ?f ?d] => destruct (nic_tx f d) as [r d'] end.
    by exists d', (u16 (ip_id s + 1)).
Qed.

Lemma output_socks ts fl seq data m s : socks (tcp_output ts fl seq data m s).2 = socks s.
Proof. unfold tcp_output. by destruct (ip_tx_frame (rip ts) 6 (tcp_segment ts fl seq data m) s) as (d & k & ->). Qed.

Lemma insert_same_index (l : list tcp_sock) i a b : <[i := a]> (<[i := b]> l) = <[i := a]> l.
Proof. apply list_insert_insert_eq. Qed.

Lemma sock_at_id (l : list tcp_sock) i : <[i := sock_at l i]> l = l.
Proof.
  unfold sock_at. destruct (l !! i) as [t|] eqn:E; [by apply list_insert_id|].
  apply list_insert_ge. by apply lookup_ge_None_1.
Qed.

(** The socket table after a segment. *)
Lemma tcp_input_socks src seg s :
  socks (tcp_input src seg s).2 =
  if segment_ok seg then
    match tcp_find (socks s) src (th_sport seg) (th_dport seg) with
    | None => socks s
    | Some i => <[i := sock_input (sock_at (socks s) i) seg]> (socks s)
    end
  else socks s.
Proof.
  unfold tcp_input, segment_ok, sock_input. rewrite !Z.leb_antisym, Z.gtb_ltb.
  destruct (zlength seg <? sizeof_tcp_hdr); [done|]. destruct (th_doff seg <? sizeof_tcp_hdr); [done|].
  destruct (zlength seg <? th_doff seg); [done|]. cbn [negb orb andb].
  rewrite run_bind. cbn [gets fst snd].
  destruct (tcp_find _ _ _ _) as [i|] eqn:Hf; [|done]. set (ts := sock_at (socks s) i).
  destruct (has (th_flags seg) TCP_RST).
  { change (state (set_reset ts)) with (state ts). by destruct (decide (state ts = TS_LINGER)). }
  destruct (decide (state ts = TS_SYN_SENT)).
  { destruct (_ && _); [|symmetry; apply sock_at_id]. rewrite !run_bind. cbn [mret ST_ret fst snd]. by rewrite output_socks. }
  destruct (tcp_process ts _ _ _ _) as [ts' need]. rewrite !run_bind. cbn [fst snd].
  assert (∀ s1 : net D, socks ((if need then tcp_output ts' TCP_ACK (snd_nxt ts') [] false else mret 0) s1).2 = socks s1) as Ho.
  { intros s1. destruct need; [apply output_socks|done]. }
  destruct (bool_decide (state ts' = TS_LINGER) && peer_fin ts' && (0 <=? seq_diff (snd_una ts') (snd_nxt ts'))).
  - unfold put_sock at 1. cbn [modify fst snd socks set_socks]. rewrite Ho. apply insert_same_index.
  - cbn [mret ST_ret fst snd]. by rewrite Ho.
Qed.

(** The segment a frame brings to tcp_input. *)
Definition tcp_of_frame (f : list Z) : option (Z * list Z) :=
  let pkt := drop 14 f in
  let total := ntohs (rd16 pkt 2) in
  if (14 <=? zlength f) && (rd16 f 12 =? htons ETH_TYPE_IP) && (20 <=? zlength pkt) &&
     (bget pkt 0 =? 0x45) && (rd32 pkt 16 =? net_ip) && (Z.land (rd16 pkt 6) (htons 0x3FFF) =? 0) &&
     (20 <=? total) && (total <=? zlength pkt) && (bget pkt 9 =? IP_PROTO_TCP)
  then Some (rd32 pkt 12, slice pkt 20 (total - 20)) else None.

Lemma arp_socks pkt s : socks (arp_input pkt s).2 = socks s.
Proof.
  unfold arp_input. repeat (case_if; try done). unfold arp_send, eth_tx. rewrite run_bind. cbn [gets fst snd].
  case_if; [done|]. rewrite !run_bind. cbn [gets fst snd mret ST_ret]. unfold rtl8139_tx.
  by match goal with |- context [nic_tx ?f ?d] => destruct (nic_tx f d) end.
Qed.

(** A frame changes the socket table only through the segment it carries. *)
Lemma net_rx_socks f s :
  socks (net_rx f s).2 =
  match tcp_of_frame f with Some (src, seg) => socks (tcp_input src seg s).2 | None => socks s end.
Proof.
  unfold net_rx, tcp_of_frame. rewrite !(Z.leb_antisym _ 14).
  destruct (zlength f <? 14); [done|]. cbn [negb andb].
  destruct (Z.eqb_spec (rd16 f 12) (htons ETH_TYPE_ARP)) as [->|].
  { cbn [andb Z.eqb]. change (htons ETH_TYPE_ARP =? htons ETH_TYPE_IP) with false. cbn [andb].
    rewrite run_bind. cbn [mret ST_ret snd]. apply arp_socks. }
  destruct (rd16 f 12 =? htons ETH_TYPE_IP); [|done]. cbn [andb]. unfold ip_input.
  set (pkt := drop 14 f). rewrite !(Z.leb_antisym _ 20), Z.gtb_ltb, (Z.leb_antisym _ (ntohs _)).
  destruct (zlength pkt <? 20); [done|]. cbn [negb andb].
  destruct (bget pkt 0 =? 0x45); [|done]. destruct (rd32 pkt 16 =? net_ip); [|done]. cbn [negb orb andb].
  destruct (Z.land (rd16 pkt 6) (htons 0x3FFF) =? 0); [|done]. cbn [negb andb].
  destruct (ntohs (rd16 pkt 2) <? 20); [done|]. destruct (zlength pkt <? ntohs (rd16 pkt 2)); [done|]. cbn [negb orb andb].
  destruct (bget pkt 9 =? IP_PROTO_TCP); [by rewrite run_bind|].
  destruct (bget pkt 9 =? IP_PROTO_UDP); [|done]. unfold udp_rx. rewrite run_bind. cbn [gets fst snd].
  destruct (udp_input _ _); [|done]. by rewrite run_bind.
Qed.
End frame.

(** ** The receive side of one socket *)

Section stream.
Context (irs : Z) (stream : list Z).
Context (Hstream : bytes_ok stream).
(** Sequence numbers of the connection do not wrap onto themselves. *)
Context (Hlen : zlength stream + 2 < 4294967296).

Definition items (ts : tcp_sock) : list Z := ring_items TCP_RXBUF (rx ts).

(** [n] bytes of the stream have been accepted; [delivered] of them were
    handed to the program. *)
Record rx_inv (delivered : list Z) (n : nat) (ts : tcp_sock) : Prop := {
  ri_ring : ring_ok TCP_RXBUF (rx ts);
  ri_data : delivered ++ items ts = take n stream;
  ri_n : (n ≤ length stream)%nat;
  ri_fin : peer_fin ts = true → n = length stream;
  ri_syn : state ts = TS_SYN_SENT → n = 0%nat ∧ peer_fin ts = false;
  ri_nxt : state ts = TS_ESTABLISHED ∨ state ts = TS_LINGER →
    rcv_nxt ts = u32 (irs + 1 + Z.of_nat n + (if peer_fin ts then 1 else 0));
}.

(** A segment of the peer's stream: empty, or the bytes at some position,
    with the FIN only after the last. *)
Definition from_stream (seq fl : Z) (payload : list Z) : Prop :=
  payload = [] ∧ has fl TCP_FIN = false ∨
  ∃ k, seq = u32 (irs + 1 + Z.of_nat k) ∧ (k + length payload ≤ length stream)%nat ∧
       payload = take (length payload) (drop k stream) ∧
       (has fl TCP_FIN = true → (k + length payload)%nat = length stream).

Lemma u32_inj a b : 0 ≤ a < 4294967296 → 0 ≤ b < 4294967296 → u32 (irs + 1 + a) = u32 (irs + 1 + b) → a = b.
Proof using.
  unfold u32. intros Ha Hb E. apply (f_equal (λ x, (x - (irs + 1)) mod 4294967296)) in E.
  rewrite !Zminus_mod_idemp_l in E. replace (irs + 1 + a - (irs + 1)) with a in E by lia.
  replace (irs + 1 + b - (irs + 1)) with b in E by lia. by rewrite !Z.mod_small in E.
Qed.

(** In-order data enters the ring. *)
Lemma put_inv delivered n ts payload :
  rx_inv delivered n ts → peer_fin ts = false → state ts ≠ TS_SYN_SENT →
  (n + length payload ≤ length stream)%nat → payload = take (length payload) (drop n stream) →
  let '(put, ts') := ring_put ts payload in
  ∃ m, (m ≤ length payload)%nat ∧ put = Z.of_nat m ∧ rcv_nxt ts' = rcv_nxt ts ∧ state ts' = state ts ∧
    peer_fin ts' = false ∧ rx_inv delivered (n + m) (set_rcv_nxt (u32 (rcv_nxt ts + put)) ts').
Proof using Hstream.
  intros [Hr Hd Hn Hf Hs Hx] Hnf Hst Hle Hp. unfold ring_put.
  pose proof (ring_fill_spec _ ring_size payload (rx ts) Hr) as Hfill.
  destruct (ring_fill TCP_RXBUF (rx ts) payload) as [r rest]. cbv zeta in Hfill.
  destruct Hfill as (R1 & R2 & R3 & R4 & _). set (m := (length payload - length rest)%nat) in *.
  assert (length rest ≤ length payload)%nat by (rewrite R2, length_drop; lia).
  exists m. split_and!; try done; [unfold zlength; lia|].
  assert (u8 <$> take m payload = take m payload) as Hu.
  { apply u8_bytes, bytes_ok_take. rewrite Hp. by apply bytes_ok_take, bytes_ok_drop. }
  constructor; cbn.
  - done.
  - change (delivered ++ ring_items TCP_RXBUF r = take (n + m) stream). rewrite R4, Hu, app_assoc.
    change (ring_items TCP_RXBUF (rx ts)) with (items ts). rewrite Hd, Hp, take_take, Nat.min_l by lia.
    apply take_take_drop.
  - lia.
  - rewrite Hnf. done.
  - done.
  - intros Ha. rewrite (Hx Ha), Hnf. unfold u32. rewrite Zplus_mod_idemp_l. f_equal. unfold zlength. lia.
Qed.

(** The invariant does not depend on the send side. *)
Lemma rx_inv_ext delivered n ts ts' :
  rx ts' = rx ts → peer_fin ts' = peer_fin ts → state ts' = state ts → rcv_nxt ts' = rcv_nxt ts →
  rx_inv delivered n ts → rx_inv delivered n ts'.
Proof using.
  intros E1 E2 E3 E4 [? Hd ? ? ? ?]. constructor; unfold items in *; rewrite ?E1, ?E2, ?E3, ?E4; done.
Qed.

(** A socket that is freed keeps what it has received. *)
Lemma rx_inv_free delivered n ts : rx_inv delivered n ts → rx_inv delivered n (set_state TS_FREE ts).
Proof using. intros [? ? ? ? ? ?]. constructor; cbn; try done. by intros [?|?]. Qed.

Lemma rx_inv_linger delivered n ts ticks :
  rx_inv delivered n ts → state ts = TS_ESTABLISHED → rx_inv delivered n (set_lingering ticks ts).
Proof using. intros [? ? ? ? ? ?] Hs. constructor; cbn; try done. auto. Qed.

(** The data of a segment. *)
Lemma data_inv delivered n ts seq fl payload :
  rx_inv delivered n ts → state ts = TS_ESTABLISHED ∨ state ts = TS_LINGER → from_stream seq fl payload →
  payload ≠ [] → seq = rcv_nxt ts →
  let '(put, ts') := ring_put ts payload in
  ∃ m, rx_inv delivered m (set_rcv_nxt (u32 (rcv_nxt ts' + put)) ts') ∧ state ts' = state ts.
Proof using Hstream Hlen.
  intros Hi Ha Hfs Hne Heq. destruct Hfs as [[? _]|(k & Hk & Hle & Hp & _)]; [done|].
  pose proof (ri_nxt _ _ _ Hi Ha) as Hnxt. pose proof (ri_n _ _ _ Hi) as Hn.
  assert (0 < length payload)%nat by (destruct payload; [done|simpl; lia]).
  assert (Z.of_nat k = Z.of_nat n + (if peer_fin ts then 1 else 0)) as Hkn.
  { apply u32_inj; unfold zlength in Hlen; [lia|destruct (peer_fin ts); lia|]. rewrite <- Hk, Heq, Hnxt. f_equal. lia. }
  destruct (peer_fin ts) eqn:Hf.
  { pose proof (ri_fin _ _ _ Hi Hf). lia. }
  assert (k = n) as -> by lia.
  pose proof (put_inv delivered n ts payload Hi Hf ltac:(by destruct Ha as [-> | ->]) Hle Hp) as Hput.
  destruct (ring_put ts payload) as [put ts']. destruct Hput as (m & _ & _ & Hr & Hst & _ & Hi').
  exists (n + m)%nat. by rewrite Hr.
Qed.

(** The FIN of a segment. *)
Lemma fin_inv delivered n ts seq fl payload :
  rx_inv delivered n ts → state ts = TS_ESTABLISHED ∨ state ts = TS_LINGER → from_stream seq fl payload →
  has fl TCP_FIN = true → peer_fin ts = false → u32 (seq + zlength payload) = rcv_nxt ts →
  rx_inv delivered n (set_peer_fin (set_rcv_nxt (u32 (rcv_nxt ts + 1)) ts)).
Proof using Hlen.
  intros Hi Ha Hfs Hfin Hf Heq. destruct Hfs as [[_ Hc]|(k & Hk & Hle & _ & Hend)]; [congruence|].
  specialize (Hend Hfin). pose proof (ri_nxt _ _ _ Hi Ha) as Hnxt. pose proof (ri_n _ _ _ Hi) as Hn. rewrite Hf in Hnxt.
  assert (Z.of_nat (length stream) = Z.of_nat n) as Hall.
  { apply u32_inj; unfold zlength in Hlen; [lia|lia|]. replace (irs + 1 + Z.of_nat n) with (irs + 1 + Z.of_nat n + 0) by lia.
    rewrite <- Hnxt, <- Heq, Hk. unfold u32, zlength. rewrite Zplus_mod_idemp_l. f_equal. lia. }
  destruct Hi as [? ? ? ? Hsyn ?]. constructor; cbn; try done.
  - intros _. lia.
  - intros Hs. destruct Ha; congruence.
  - intros _. rewrite Hnxt. unfold u32. rewrite Zplus_mod_idemp_l. f_equal. lia.
Qed.

Lemma process_inv delivered n ts seq ack fl payload :
  rx_inv delivered n ts → state ts = TS_ESTABLISHED ∨ state ts = TS_LINGER → from_stream seq fl payload →
  ∃ m, rx_inv delivered m (tcp_process ts seq ack fl payload).1 ∧
       state (tcp_process ts seq ack fl payload).1 = state ts.
Proof using Hstream Hlen.
  intros Hi Ha Hfs. unfold tcp_process.
  set (t1 := if has fl TCP_ACK && _ && _ then _ else _).
  assert (rx_inv delivered n t1 ∧ state t1 = state ts) as [Hi1 Hs1].
  { unfold t1. destruct (has fl TCP_ACK && _ && _); [|done]. split; [by apply (rx_inv_ext _ _ ts)|done]. }
  clearbody t1. rewrite <- Hs1 in Ha |- *. clear Hi Hs1 ts.
  set (r := if 0 <? zlength payload then _ else _).
  assert (∃ m, rx_inv delivered m r.1 ∧ state r.1 = state t1) as (m & Hi2 & Hs2).
  { unfold r. destruct (Z.ltb_spec 0 (zlength payload)) as [Hpos|]; [|by exists n].
    assert (payload ≠ []) as Hne by (by intros ->). destruct (Z.eqb_spec seq (rcv_nxt t1)) as [He|]; [|by exists n].
    pose proof (data_inv delivered n t1 seq fl payload Hi1 Ha Hfs Hne He) as Hd.
    destruct (ring_put t1 payload) as [put t']. destruct Hd as (m & Hm & Hst). by exists m. }
  clearbody r. destruct r as [t2 need]. cbn [fst] in *. exists m. rewrite <- Hs2 in Ha.
  destruct (has fl TCP_FIN) eqn:Hfin; [|done]. cbn [fst].
  destruct (peer_fin t2) eqn:Hf; [done|]. cbn [negb andb].
  destruct (Z.eqb_spec (u32 (seq + zlength payload)) (rcv_nxt t2)) as [He|]; [|done].
  split; [by eapply fin_inv|done].
Qed.

(** Segments that may reach the socket: resets, the handshake with initial
    sequence number [irs], then pieces of the stream. *)
Definition peer_segment (ts : tcp_sock) (seg : list Z) : Prop :=
  has (th_flags seg) TCP_RST = true ∨
  (if decide (state ts = TS_SYN_SENT) then th_seq seg = irs
   else from_stream (th_seq seg) (th_flags seg) (drop (Z.to_nat (th_doff seg)) seg)).

Lemma sock_input_inv delivered n ts seg :
  rx_inv delivered n ts → state ts ≠ TS_FREE → peer_segment ts seg →
  ∃ m, rx_inv delivered m (sock_input ts seg).
Proof using Hstream Hlen.
  intros Hi Hs Hseg. unfold sock_input. destruct (has (th_flags seg) TCP_RST) eqn:Hrst.
  { exists n. assert (rx_inv delivered n (set_reset ts)) by (by apply (rx_inv_ext _ _ ts)).
    destruct (decide (state ts = TS_LINGER)); [by apply rx_inv_free|done]. }
  destruct Hseg as [|Hseg]; [congruence|].
  destruct (decide (state ts = TS_SYN_SENT)) as [Hsyn|Hsyn].
  - destruct (_ && _); [|by exists n]. exists 0%nat.
    destruct (ri_syn _ _ _ Hi Hsyn) as [-> Hf]. destruct Hi as [? ? ? ? ? ?]. constructor; cbn; try done.
    intros _. rewrite Hseg, Hf. f_equal. lia.
  - assert (state ts = TS_ESTABLISHED ∨ state ts = TS_LINGER) as Ha by (destruct (state ts); auto; done).
    destruct (process_inv delivered n ts _ (th_ack seg) _ _ Hi Ha Hseg) as (m & Hm & _). exists m.
    destruct (_ && _ && _); [by apply rx_inv_free|done].
Qed.
End stream.

(** ** Interleavings *)

Section world.
Context {D : Type} `{Nic D}.
Context (i : nat).

(** The stack, and the bytes tcp_recv has returned for socket [i]. *)
Record world := mk_world { stack : net D; got : list Z }.

Definition the (w : world) : tcp_sock := sock_at (socks (stack w)) i.

Inductive step (irs : Z) (stream : list Z) : world → world → Prop :=
| step_frame f s d :
    (∀ src seg, tcp_of_frame f = Some (src, seg) → segment_ok seg = true →
       tcp_find (socks s) src (th_sport seg) (th_dport seg) = Some i →
       peer_segment irs stream (sock_at (socks s) i) seg) →
    step irs stream (mk_world s d) (mk_world (net_rx f s).2 d)
| step_recv len s d r s' :
    tcp_recv_pass i len s = (r, s') → step irs stream (mk_world s d) (mk_world s' (d ++ default [] (snd <$> r)))
| step_recv_other j len s d :
    j ≠ i → step irs stream (mk_world s d) (mk_world (tcp_recv_pass j len s).2 d)
| step_claim j chunk s d : step irs stream (mk_world s d) (mk_world (tcp_claim j chunk s).2 d)
| step_poison j s d : step irs stream (mk_world s d) (mk_world (tcp_poison j s).2 d)
| step_addref h s d : step irs stream (mk_world s d) (mk_world (tcp_addref h s).2 d)
| step_release h s d : step irs stream (mk_world s d) (mk_world (tcp_release h s).2 d)
| step_open ip port s d :
    (∀ iss, (tcp_open ip port s).1 ≠ Some (i, iss)) →
    step irs stream (mk_world s d) (mk_world (tcp_open ip port s).2 d)
| step_abort j s d :
    step irs stream (mk_world s d) (mk_world (put_sock j (set_state TS_FREE (sock_at (socks s) j)) s).2 d)
| step_elsewhere s s' d : socks s' = socks s → step irs stream (mk_world s d) (mk_world s' d).

Inductive steps (irs : Z) (stream : list Z) : world → world → Prop :=
| steps_refl w : steps irs stream w w
| steps_step w1 w2 w3 : steps irs stream w1 w2 → step irs stream w2 w3 → steps irs stream w1 w3.

Section inv.
Context (irs : Z) (stream : list Z) (Hstream : bytes_ok stream) (Hlen : zlength stream + 2 < 4294967296).

Definition world_inv (w : world) : Prop :=
  (i < length (socks (stack w)))%nat ∧ ∃ n, rx_inv irs stream (got w) n (the w).

Lemma find_bound l src sp dp j :
  tcp_find l src sp dp = Some j → (j < length l)%nat ∧ state (sock_at l j) ≠ TS_FREE.
Proof using.
  revert j. induction l as [|t l IH]; intros j; [done|]. cbn [tcp_find].
  destruct (bool_decide (state t ≠ TS_FREE) && _ && _ && _) eqn:E.
  - intros [= <-]. boolp. split; [simpl; lia|]. by apply bool_decide_eq_true in H0.
  - destruct (tcp_find l src sp dp) as [k|]; [|done]. intros [= <-].
    destruct (IH k eq_refl) as [? Hs]. split; [simpl; lia|exact Hs].
Qed.

Lemma sock_at_insert (l : list tcp_sock) j ts :
  (i < length l)%nat → sock_at (<[j := ts]> l) i = if decide (j = i) then ts else sock_at l i.
Proof using.
  intros Hi. unfold sock_at. destruct (decide (j = i)) as [->|].
  - by rewrite list_lookup_insert_eq.
  - by rewrite list_lookup_insert_ne.
Qed.

(** Steps that store one socket keep the invariant when that socket does. *)
Lemma insert_inv s s' d j ts :
  world_inv (mk_world s d) → socks s' = <[j := ts]> (socks s) →
  (j = i → ∃ n, rx_inv irs stream d n ts) → world_inv (mk_world s' d).
Proof using.
  intros [Hi [n Hn]] He Hj. split; cbn in *; [by rewrite He, length_insert|]. unfold the in *. cbn in *.
  rewrite He, sock_at_insert by done. destruct (decide (j = i)); [by apply Hj|by exists n].
Qed.

Lemma same_inv s s' d : world_inv (mk_world s d) → socks s' = socks s → world_inv (mk_world s' d).
Proof using. intros [Hi Hn] He. split; cbn in *; [by rewrite He|]. unfold the in *. cbn in *. by rewrite He. Qed.

Lemma frame_inv f s d :
  (∀ src seg, tcp_of_frame f = Some (src, seg) → segment_ok seg = true →
     tcp_find (socks s) src (th_sport seg) (th_dport seg) = Some i →
     peer_segment irs stream (sock_at (socks s) i) seg) →
  world_inv (mk_world s d) → world_inv (mk_world (net_rx f s).2 d).
Proof using Hstream Hlen.
  intros Hf Hw. pose proof (net_rx_socks f s) as He.
  destruct (tcp_of_frame f) as [[src seg]|]; [|by apply (same_inv s)].
  rewrite tcp_input_socks in He. destruct (segment_ok seg) eqn:Hok; [|by apply (same_inv s)].
  destruct (tcp_find (socks s) src _ _) as [j|] eqn:Hfind; [|by apply (same_inv s)].
  apply (insert_inv s _ d j _ Hw He). intros ->. destruct (find_bound _ _ _ _ _ Hfind) as [_ Hfree].
  destruct Hw as [_ [n Hn]]. eapply sock_input_inv; [done|done|exact Hn|exact Hfree|by apply (Hf src)].
Qed.

(** The effect of one pass of tcp_recv. *)
Lemma recv_pass_effect j len s r s' :
  tcp_recv_pass j len s = (r, s') →
  let ts := sock_at (socks s) j in
  let '(data, rg) := ring_drain TCP_RXBUF (Z.to_nat len) (rx ts) in
  socks s' = <[j := set_rx rg ts]> (socks s) ∧
  (data ≠ [] → r = Some (zlength data, data)) ∧
  (data = [] → r = if peer_fin ts then Some (0, [])
                   else if reset ts || bool_decide (state ts ≠ TS_ESTABLISHED) then Some (-1, []) else None).
Proof using.
  unfold tcp_recv_pass. rewrite run_bind. cbn [gets fst snd].
  destruct (ring_drain TCP_RXBUF (Z.to_nat len) (rx (sock_at (socks s) j))) as [data rg].
  rewrite run_bind. cbn [put_sock modify fst snd]. set (ts := sock_at (socks s) j).
  change (peer_fin (set_rx rg ts)) with (peer_fin ts). change (reset (set_rx rg ts)) with (reset ts).
  change (state (set_rx rg ts)) with (state ts).
  destruct (Z.ltb_spec 0 (zlength data)) as [Hpos|Hz].
  - rewrite run_bind. cbn [mret ST_ret]. intros [= <- <-]. split_and!; [apply output_socks|done|by intros ->].
  - assert (data = []) as -> by (destruct data; [done|rewrite zlength_cons in Hz; pose proof (zlength_nonneg data); lia]).
    destruct (peer_fin ts); [by intros [= <- <-]|]. destruct (reset ts || _); by intros [= <- <-].
Qed.

Lemma recv_inv len s d r s' :
  tcp_recv_pass i len s = (r, s') → world_inv (mk_world s d) → world_inv (mk_world s' (d ++ default [] (snd <$> r))).
Proof using.
  intros E [Hi [n Hn]]. apply recv_pass_effect in E. cbv zeta in E. unfold the in Hn. cbn in Hi, Hn.
  set (ts := sock_at (socks s) i) in *.
  pose proof (ring_drain_spec _ ring_size (Z.to_nat len) (rx ts) (ri_ring _ _ _ _ _ Hn)) as Hd.
  destruct (ring_drain TCP_RXBUF (Z.to_nat len) (rx ts)) as [data rg]. destruct Hd as (R1 & R2 & _).
  destruct E as (Es & E1 & E2).
  assert (default [] (snd <$> r) = data) as ->.
  { destruct data as [|x data]; [|by rewrite E1]. rewrite E2 by done. by repeat case_match. }
  split; cbn; [by rewrite Es, length_insert|]. exists n. unfold the. cbn. rewrite Es, sock_at_insert by done.
  rewrite decide_True by done. destruct Hn as [? Hdat ? ? ? ?]. constructor; try done.
  unfold items in *. cbn. by rewrite <- app_assoc, <- R2.
Qed.

Lemma recv_other_inv j len s d : j ≠ i → world_inv (mk_world s d) → world_inv (mk_world (tcp_recv_pass j len s).2 d).
Proof using.
  intros Hj Hw. destruct (tcp_recv_pass j len s) as [r s'] eqn:E. apply recv_pass_effect in E. cbv zeta in E.
  destruct (ring_drain _ _ _) as [data rg]. by apply (insert_inv s _ d j _ Hw (proj1 E)).
Qed.

(** Updates of the send side. *)
Lemma update_inv s s' d j f :
  world_inv (mk_world s d) → socks s' = <[j := f (sock_at (socks s) j)]> (socks s) →
  (∀ n ts, rx_inv irs stream d n ts → rx_inv irs stream d n (f ts)) → world_inv (mk_world s' d).
Proof using.
  intros Hw He Hf. apply (insert_inv s s' d j _ Hw He). intros ->. destruct Hw as [_ [n Hn]]. exists n. by apply Hf.
Qed.

Lemma release_socks h s :
  socks (tcp_release h s).2 = socks s ∨
  ∃ j ts', socks (tcp_release h s).2 = <[j := ts']> (socks s) ∧
    let ts := sock_at (socks s) j in
    (∃ r, ts' = set_refs r ts) ∨ (∃ r, ts' = set_state TS_FREE (set_refs r ts)) ∨
    (state ts = TS_ESTABLISHED ∧ ∃ r k t, ts' = set_lingering t (set_snd_nxt k (set_refs r ts))).
Proof using.
  unfold tcp_release. rewrite run_bind. unfold sock_get. rewrite run_bind. cbn [gets fst snd mret ST_ret].
  destruct (_ || _); [by left|]. set (j := Z.to_nat h). destruct (decide (state (sock_at (socks s) j) = TS_FREE)); [by left|].
  right. exists j. rewrite run_bind. cbn [gets fst snd]. set (ts := sock_at (socks s) j). rewrite run_bind. cbn [put_sock modify fst snd].
  destruct (0 <? _); [eexists; split; [done|]; left; by eexists|].
  change (state (set_refs ?r ts)) with (state ts).
  destruct (bool_decide (state ts = TS_ESTABLISHED)) eqn:Es; cbn [andb].
  - apply bool_decide_eq_true in Es. destruct (negb _ && negb _).
    + rewrite run_bind. cbn [gets fst snd]. rewrite run_bind. cbn [put_sock modify fst snd]. rewrite run_bind. cbn [mret ST_ret snd].
      eexists. split; [rewrite output_socks; apply insert_same_index|]. right. right. split; [done|]. by do 3 eexists.
    + eexists. split; [apply insert_same_index|]. right. left. by eexists.
  - eexists. split; [apply insert_same_index|]. right. left. by eexists.
Qed.

Lemma release_inv h s d : world_inv (mk_world s d) → world_inv (mk_world (tcp_release h s).2 d).
Proof using.
  intros Hw. destruct (release_socks h s) as [He|(j & ts' & He & Ht)]; [by apply (same_inv s)|].
  apply (insert_inv s _ d j ts' Hw He). intros ->. destruct Hw as [_ [n Hn]]. exists n. unfold the in Hn. cbn in Hn.
  destruct Ht as [[r ->]|[[r ->]|(Hs & r & k & t & ->)]].
  - by apply (rx_inv_ext _ _ _ _ (sock_at (socks s) i)).
  - apply rx_inv_free. by apply (rx_inv_ext _ _ _ _ (sock_at (socks s) i)).
  - apply rx_inv_linger; [|done]. by apply (rx_inv_ext _ _ _ _ (sock_at (socks s) i)).
Qed.

Lemma sock_at_fmap f (l : list tcp_sock) j : (j < length l)%nat → sock_at (f <$> l) j = f (sock_at l j).
Proof using.
  intros Hj. unfold sock_at. rewrite list_lookup_fmap. by destruct (lookup_lt_is_Some_2 l j Hj) as [t ->].
Qed.

Lemma first_free_bound l j : first_free l = Some j → (j < length l)%nat.
Proof using.
  revert j. induction l as [|t l IH]; intros j; [done|]. cbn [first_free].
  destruct (decide (state t = TS_FREE)); [intros [= <-]; simpl; lia|].
  destruct (first_free l); [|done]. intros [= <-]. specialize (IH n0 eq_refl). simpl. lia.
Qed.

Lemma open_inv ip port s d :
  (∀ iss, (tcp_open ip port s).1 ≠ Some (i, iss)) →
  world_inv (mk_world s d) → world_inv (mk_world (tcp_open ip port s).2 d).
Proof using.
  unfold tcp_open. rewrite run_bind. cbn [gets id fst snd]. rewrite run_bind. cbn [modify fst snd].
  set (l := reclaim (timer_ticks s) <$> socks s). intros Hne Hw.
  assert (world_inv (mk_world (set_socks l s) d)) as Hw1.
  { destruct Hw as [Hi [n Hn]]. split; cbn in *; [by unfold l; rewrite length_fmap|]. exists n. unfold the in *. cbn in *.
    unfold l. rewrite sock_at_fmap by done. unfold reclaim. destruct (_ && _); [by apply rx_inv_free|done]. }
  destruct (first_free l) as [idx|] eqn:Ef; [|exact Hw1]. rewrite !run_bind in *. cbn [modify put_sock mret ST_ret fst snd] in *.
  eapply insert_inv; [exact Hw1|reflexivity|]. intros ->. exfalso. by eapply Hne.
Qed.

Lemma step_inv w w' : step irs stream w w' → world_inv w → world_inv w'.
Proof using Hstream Hlen.
  intros Hst Hw. destruct Hst.
  - by apply frame_inv.
  - by eapply recv_inv.
  - by apply recv_other_inv.
  - eapply (update_inv _ _ _ j (λ ts, set_snd_nxt (u32 (snd_nxt ts + chunk)) ts)); [exact Hw|done|].
    intros n ts. by apply rx_inv_ext.
  - eapply (update_inv _ _ _ j set_reset); [exact Hw|done|]. intros n ts. by apply rx_inv_ext.
  - unfold tcp_addref. rewrite run_bind. unfold sock_get. rewrite run_bind. cbn [gets fst snd mret ST_ret].
    destruct (_ || _); [done|]. destruct (decide _); [done|].
    eapply (update_inv _ _ _ (Z.to_nat h) (λ ts, set_refs (s32 (refs ts + 1)) ts)); [exact Hw|done|].
    intros n' ts. by apply rx_inv_ext.
  - by apply release_inv.
  - by apply open_inv.
  - eapply (update_inv _ _ _ j (set_state TS_FREE)); [exact Hw|done|]. intros n ts. by apply rx_inv_free.
  - by apply (same_inv s).
Qed.

Lemma steps_inv w w' : steps irs stream w w' → world_inv w → world_inv w'.
Proof using Hstream Hlen. induction 1; [done|]. intros Hw. eapply step_inv; [done|auto]. Qed.

(** The slot tcp_connect sets up satisfies the invariant with nothing received. *)
Lemma opened_inv ip port s iss s' :
  tcp_open ip port s = (Some (i, iss), s') → zlength (r_buf (rx (sock_at (socks s) i))) = TCP_RXBUF →
  world_inv (mk_world s' []).
Proof using.
  unfold tcp_open. rewrite run_bind. cbn [gets id fst snd]. rewrite run_bind. cbn [modify fst snd].
  set (l := reclaim (timer_ticks s) <$> socks s). destruct (first_free l) as [idx|] eqn:Ef; [|done].
  rewrite !run_bind. cbn [modify put_sock mret ST_ret fst snd socks set_socks set_next_port]. intros [= -> <- <-] Hb.
  pose proof (first_free_bound _ _ Ef) as Hi. split; cbn; [by rewrite length_insert|]. exists 0%nat. unfold the. cbn.
  rewrite sock_at_insert by done. rewrite decide_True by done.
  assert (zlength (r_buf (rx (sock_at l i))) = TCP_RXBUF) as Hb'.
  { unfold l in Hi |- *. rewrite length_fmap in Hi. rewrite sock_at_fmap by done. unfold reclaim. by destruct (_ && _). }
  constructor; cbn; try done.
  - lia.
  - by intros [?|?].
Qed.
End inv.

(** C23: What a program reads from a connection is the peer's stream: from the
    moment tcp_connect sets the socket up, under every interleaving of calls
    and interrupts and whatever the network loses, repeats or reorders of the
    peer's segments, the bytes returned so far are a prefix of the stream,
    nothing beyond what the ring holds is missing from it, and tcp_recv
    reports end of file only after the whole stream was returned. *)
Theorem tcp_stream_delivered irs stream ip port s0 iss s1 w :
  bytes_ok stream → zlength stream + 2 < 4294967296 →
  zlength (r_buf (rx (sock_at (socks s0) i))) = TCP_RXBUF →
  tcp_open ip port s0 = (Some (i, iss), s1) → steps irs stream (mk_world s1 []) w →
  (∃ n, got w ++ items (the w) = take n stream) ∧
  ∀ len s', 0 < len → tcp_recv_pass i len (stack w) = (Some (0, []), s') → got w = stream.
Proof.
  intros Hb Hl Hbuf Ho Hsteps. pose proof (opened_inv irs stream ip port s0 iss s1 Ho Hbuf) as H0.
  destruct (steps_inv irs stream Hb Hl _ _ Hsteps H0) as [Hi [n Hn]].
  split; [exists n; apply Hn|]. intros len s' Hlen E. apply recv_pass_effect in E. cbv zeta in E.
  change (sock_at (socks (stack w)) i) with (the w) in E.
  pose proof (ring_drain_spec _ ring_size (Z.to_nat len) (rx (the w)) (ri_ring _ _ _ _ _ Hn)) as Hd.
  destruct (ring_drain TCP_RXBUF (Z.to_nat len) (rx (the w))) as [data rg]. destruct Hd as (_ & R2 & R3).
  destruct E as (_ & E1 & E2). destruct data as [|x data]; [|by specialize (E1 ltac:(done))].
  assert (items (the w) = []) as Hit.
  { unfold items. destruct (ring_items TCP_RXBUF (rx (the w))); [done|]. simpl in R3. lia. }
  specialize (E2 eq_refl). destruct (peer_fin (the w)) eqn:Hf; [|by destruct (reset (the w) || _)].
  pose proof (ri_data _ _ _ _ _ Hn) as Hd. rewrite Hit, app_nil_r in Hd.
  rewrite Hd, (ri_fin _ _ _ _ _ Hn Hf). by apply take_ge.
Qed.
End world.

(** ** A connection that reads two of three bytes *)

Definition remote : Z := IP4 93 184 216 34.

(** A frame from the remote host, port 80, to the first local port. *)
Definition peer_frame (fl seq : Z) (data : list Z) : list Z :=
  let peer := mk_sock TS_ESTABLISHED 1 net_ip 0xD000 80 0 0 1 false false false 0 (mk_ring [] 0 0) in
  eth_hdr (Rtl8139.mac Rtl8139.demo_rtl) [82; 85; 10; 0; 2; 2] ETH_TYPE_IP ++
  ip_hdr (20 + zlength data) 1 6 0 remote net_ip ++ tcp_segment peer fl seq data false.

Definition syn_ack : list Z := peer_frame (Z.lor TCP_SYN TCP_ACK) 1000 [].
Definition hello : list Z := peer_frame TCP_ACK 1001 [104; 105; 33].

Definition demo1 : net Rtl8139.rtl := (tcp_open remote 80 Rtl8139.demo_net).2.
Definition demo2 : net Rtl8139.rtl := (net_rx syn_ack demo1).2.
Definition demo3 : net Rtl8139.rtl := (net_rx hello demo2).2.
Definition demo4 : world := mk_world (tcp_recv_pass 0 2 demo3).2 [104; 105].

Lemma demo_step1 : step 0 1000 [104; 105; 33] (mk_world demo1 []) (mk_world demo2 []).
Proof.
  apply (step_frame 0 1000 [104; 105; 33] syn_ack demo1 []). intros src seg Hf _ _.
  vm_compute in Hf. injection Hf as <- <-. right. vm_compute. reflexivity.
Qed.

Lemma demo_step2 : step 0 1000 [104; 105; 33] (mk_world demo2 []) (mk_world demo3 []).
Proof.
  apply (step_frame 0 1000 [104; 105; 33] hello demo2 []). intros src seg Hf _ _.
  vm_compute in Hf. injection Hf as <- <-. right. destruct (decide _) as [E|_]; [vm_compute in E; discriminate|].
  right. exists O. split_and!; [vm_compute; reflexivity|vm_compute; lia|vm_compute; reflexivity|vm_compute; discriminate].
Qed.

Lemma demo_step3 : step 0 1000 [104; 105; 33] (mk_world demo3 []) demo4.
Proof.
  assert ((tcp_recv_pass 0 2 demo3).1 = Some (2, [104; 105])) as E by (vm_compute; reflexivity).
  pose proof (surjective_pairing (tcp_recv_pass 0 2 demo3)) as Ep. rewrite E in Ep.
  exact (step_recv 0 1000 [104; 105; 33] 2 demo3 [] _ _ Ep).
Qed.

Lemma demo_steps : steps 0 1000 [104; 105; 33] (mk_world demo1 []) demo4.
Proof.
  exact (steps_step _ _ _ _ _ _ (steps_step _ _ _ _ _ _ (steps_step _ _ _ _ _ _ (steps_refl _ _ _ _)
    demo_step1) demo_step2) demo_step3).
Qed.

Lemma demo_open : tcp_open remote 80 Rtl8139.demo_net = (Some (O, 0), demo1).
Proof.
  assert ((tcp_open remote 80 Rtl8139.demo_net).1 = Some (O, 0)) as E by (vm_compute; reflexivity).
  pose proof (surjective_pairing (tcp_open remote 80 Rtl8139.demo_net)) as Ep. by rewrite E in Ep.
Qed.

Lemma tcp_stream_delivered_witness :
  ∃ n, got demo4 ++ items (the 0 demo4) = take n [104; 105; 33].
Proof.
  apply (tcp_stream_delivered 0 1000 [104; 105; 33] remote 80 Rtl8139.demo_net 0 demo1 demo4).
  - by apply (bool_decide_unpack _).
  - done.
  - by vm_compute.
  - exact demo_open.
  - exact demo_steps.
Defined.

(** ** Port numbers repeat

    Local ports come from a 12-bit counter that is not compared with the
    sockets in use.  Two connections to the same service opened 4096 connects
    apart get the same four-tuple, and segments of the second are given to
    the first. *)
Definition reuse1 : net Rtl8139.rtl := set_next_port 4096 demo1.
Definition reuse2 : net Rtl8139.rtl := (tcp_open remote 80 reuse1).2.

Example port_reuse_misdelivers :
  (tcp_open remote 80 reuse1).1 = Some (1%nat, 16) ∧
  lport (sock_at (socks reuse2) 1) = lport (sock_at (socks reuse2) 0) ∧
  tcp_find (socks reuse2) remote (htons 80) (htons (lport (sock_at (socks reuse2) 1))) = Some O.
Proof. vm_compute. auto. Qed.
End TcpStream.
