(* ===== verification/NetWait.v ===== *)
(** * The blocking network calls return

    A time budget logic for the waiting loops: under any schedule in which
    the clock advances at every switch, the calls of net.c and tcp.c return
    within the number of switches their timeouts allow, whatever frames
    arrive. *)

From S2P Require Import Prelude Bytes Ring NetCsum Net Dns Tcp NetRx Rtl8139 TcpStream.

Module NetWait.
Import NetCsum Net Dns Tcp NetRx.

(** The clock advances, by less than a day, at every switch. *)
Definition ticking (e : event) : Prop := 1 ≤ elapsed e ≤ 17280000.

Section within.
Context {D : Type} `{Nic D}.
Implicit Types s : net D.

(** [c] returns within [n] switches, with [Q] of its result. *)
Definition within {A} (n : nat) (c : B A) (s : net D) (Q : A → net D → Prop) : Prop :=
  ∀ ev, Forall ticking ev → (n ≤ length ev)%nat →
  ∃ a s' ev', c s ev = Some (a, s', ev') ∧ Forall ticking ev' ∧ (length ev ≤ length ev' + n)%nat ∧ Q a s'.

Lemma within_ret {A} (x : A) s (Q : A → net D → Prop) n : Q x s → within n (mret x) s Q.
Proof. intros HQ ev He Hn. exists x, s, ev. split_and!; try done. lia. Qed.

Lemma within_now {A C} (c : ST (net D) A) (k : A → B C) n s Q :
  within n (k (c s).1) (c s).2 Q → within n (now c ≫= k) s Q.
Proof. intros Hk ev He Hn. unfold mbind, B_bind, now. destruct (c s). by apply Hk. Qed.

Lemma within_bind {A C} (c : B A) (k : A → B C) n m s Q :
  within n c s (λ a s', within m (k a) s' Q) → within (n + m) (c ≫= k) s Q.
Proof.
  intros Hc ev He Hn. destruct (Hc ev He) as (a & s1 & ev1 & E1 & He1 & L1 & Hk); [lia|].
  destruct (Hk ev1 He1) as (b & s2 & ev2 & E2 & He2 & L2 & HQ); [lia|].
  exists b, s2, ev2. split_and!; try done; [|lia]. unfold mbind, B_bind. by rewrite E1.
Qed.

Lemma within_mono {A} (c : B A) n m s (Q R : A → net D → Prop) :
  within n c s Q → (n ≤ m)%nat → (∀ a s', Q a s' → R a s') → within m c s R.
Proof.
  intros Hc Hnm HQ ev He Hn. destruct (Hc ev He) as (a & s1 & ev1 & E1 & He1 & L1 & Hq); [lia|].
  exists a, s1, ev1. split_and!; try done; [lia|by apply HQ].
Qed.

Lemma happen_ticks e s : timer_ticks (happen e s) = u32 (timer_ticks s + elapsed e).
Proof.
  unfold happen. cbn [timer_ticks set_ticks]. f_equal. f_equal.
  apply (keeps_rx_all (λ s', timer_ticks s' = timer_ticks s)); done.
Qed.

(** The tick counter is a 32-bit value. *)
Definition clock_ok s : Prop := 0 ≤ timer_ticks s < 4294967296.

Lemma happen_clock e s : clock_ok (happen e s).
Proof. unfold clock_ok. rewrite happen_ticks. apply u32_range. Qed.

(** A wait with a timeout ends by the timeout, and keeps what every event
    keeps. *)
Lemma wait_timed_inv (P : net D → Prop) cond limit s (Q : unit → net D → Prop) :
  (∀ e s', P s' → P (happen e s')) → P s →
  (∀ s', cond s' = true → in_time (timer_ticks s) limit s' = true) → 0 ≤ limit ≤ 1000000 → clock_ok s →
  (∀ s', cond s' = false → clock_ok s' → P s' → Q tt s') → within (Z.to_nat limit) (wait_while cond) s Q.
Proof.
  intros HP Hps Hcond Hlim Hts HQ ev He Hn. unfold wait_while.
  assert (∀ ev s1 t, Forall ticking ev → u32 (timer_ticks s1 - timer_ticks s) = t → clock_ok s1 ∧ P s1 → limit ≤ t + zlength ev →
    ∃ s' ev', wait_loop cond ev s1 = Some (tt, s', ev') ∧ Forall ticking ev' ∧
      (zlength ev ≤ zlength ev' + Z.max 0 (limit - t)) ∧ cond s' = false ∧ clock_ok s' ∧ P s') as Hind.
  { clear ev He Hn. induction ev as [|e ev IH]; intros s1 t He Ht [Hk Hp] Hl; cbn [wait_loop].
    - destruct (cond s1) eqn:Ec; [|exists s1, []; split_and!; try done; change (zlength []) with 0; lia].
      apply Hcond in Ec. unfold in_time in Ec. boolp. change (zlength []) with 0 in Hl. lia.
    - destruct (cond s1) eqn:Ec; [|exists s1, (e :: ev); split_and!; try done; lia].
      apply Hcond in Ec. unfold in_time in Ec. boolp. apply Forall_cons in He as [He1 He]. rewrite zlength_cons in Hl |- *.
      pose proof (u32_range (timer_ticks s1 - timer_ticks s)) as Hr. unfold ticking in He1.
      assert (u32 (timer_ticks (happen e s1) - timer_ticks s) = t + elapsed e) as Ht'.
      { rewrite happen_ticks. rewrite <- Ht. unfold u32. rewrite Zminus_mod_idemp_l.
        replace (timer_ticks s1 + elapsed e - timer_ticks s) with (timer_ticks s1 - timer_ticks s + elapsed e) by lia.
        rewrite <- Zplus_mod_idemp_l. apply Z.mod_small. fold (u32 (timer_ticks s1 - timer_ticks s)). lia. }
      destruct (IH (happen e s1) (t + elapsed e) He Ht' (conj (happen_clock e s1) (HP e s1 Hp)) ltac:(lia))
        as (s' & ev' & E & He' & L & Hc' & Hk' & Hp').
      exists s', ev'. split_and!; try done. lia. }
  destruct (Hind ev s 0 He) as (s' & ev' & E & He' & L & Hc & Hk & Hp).
  { by rewrite Z.sub_diag. } { done. } { unfold zlength. lia. }
  exists tt, s', ev'. split_and!; try done; [|by apply HQ]. unfold zlength in L. lia.
Qed.

Lemma wait_timed cond limit s (Q : unit → net D → Prop) :
  (∀ s', cond s' = true → in_time (timer_ticks s) limit s' = true) → 0 ≤ limit ≤ 1000000 → clock_ok s →
  (∀ s', cond s' = false → clock_ok s' → Q tt s') → within (Z.to_nat limit) (wait_while cond) s Q.
Proof. intros H1 H2 H3 H4. apply (wait_timed_inv (λ _, True)); auto. Qed.

(** Sending leaves the clock alone. *)
Lemma clock_ip_tx dst proto seg s : clock_ok s → clock_ok (net_ip_tx dst proto seg s).2.
Proof. by apply keeps_ip_tx. Qed.

Lemma clock_arp op mac ip s : clock_ok s → clock_ok (arp_send op mac ip s).2.
Proof. intros Hs. unfold arp_send. rewrite run_bind. by apply keeps_eth. Qed.

(** ** The gateway *)

Lemma attempts_within n s :
  clock_ok s → within (100 * n) (gateway_attempts n) s (λ _ s', clock_ok s').
Proof.
  revert s. induction n as [|n IH]; intros s Hs; cbn [gateway_attempts]; [by apply within_ret|].
  apply within_now. cbn [gets fst snd]. destruct (gw_valid s); [by apply within_ret|].
  apply within_now. apply within_now. cbn [gets fst snd]. replace (100 * S n)%nat with (100 + 100 * n)%nat by lia.
  apply within_bind. change 100%nat with (Z.to_nat (PIT_HZ / 2)). apply wait_timed.
  - intros s' Hc. by apply andb_prop in Hc as [_ Hc].
  - done.
  - by apply clock_arp.
  - intros s' _ Hk. by apply IH.
Qed.

Lemma gateway_within s :
  clock_ok s →
  within 400 net_ensure_gateway s (λ r s', clock_ok s' ∧ (r = 0 ∧ gw_valid s' = true ∨ r = -1)).
Proof.
  intros Hs. unfold net_ensure_gateway. apply within_now. cbn [gets fst snd].
  destruct (negb (nic_present (nic s))); [apply within_ret; by auto|]. change 400%nat with (400 + 0)%nat. apply within_bind.
  eapply within_mono; [by apply (attempts_within 4)|done|]. intros [] s1 H1. apply within_now. cbn [gets fst snd].
  destruct (gw_valid s1) eqn:E; apply within_ret; auto.
Qed.

(** ** Connecting *)

Lemma clock_open ip port s : clock_ok s → clock_ok (tcp_open ip port s).2.
Proof.
  intros Hs. unfold tcp_open. rewrite !run_bind. cbn [gets modify fst snd].
  destruct (first_free _); [|done]. by rewrite !run_bind.
Qed.

(** The sum of the timeouts from [attempt] on. *)
Fixpoint syn_budget (n : nat) (attempt : nat) : nat :=
  match n with O => O | S n' => 100 * S attempt + syn_budget n' (S attempt) end.

Lemma syn_within n k i iss s :
  clock_ok s → (k + n ≤ 1000)%nat →
  within (syn_budget n k) (syn_attempts n (Z.of_nat k) i iss) s
    (λ ok s', clock_ok s' ∧ (ok = true → state (the_sock i s') = TS_ESTABLISHED)).
Proof.
  revert k s. induction n as [|n IH]; intros k s Hs Hk; cbn [syn_attempts syn_budget]; [by apply within_ret|].
  apply within_now. cbn [gets fst snd]. apply within_now. apply within_now. cbn [gets fst snd].
  set (s1 := (tcp_output _ _ _ _ _ s).2). assert (clock_ok s1) as H1 by (by apply clock_ip_tx).
  assert (u32 (TCP_RTO_TICKS * (Z.of_nat k + 1)) = Z.of_nat (100 * S k)) as ->.
  { unfold TCP_RTO_TICKS, PIT_HZ. change (200 / 2) with 100. rewrite u32_small; lia. }
  apply within_bind. rewrite <- (Nat2Z.id (100 * S k)) at 1. apply wait_timed.
  - intros s' Hc. by apply andb_prop in Hc as [_ Hc].
  - lia.
  - done.
  - intros s' _ Hc. apply within_now. cbn [gets fst snd].
    destruct (decide (state (the_sock i s') = TS_ESTABLISHED)); [by apply within_ret|].
    destruct (reset (the_sock i s')); [by apply within_ret|].
    replace (Z.of_nat k + 1) with (Z.of_nat (S k)) by lia. apply IH; [done|lia].
Qed.


(** ** Sending *)

Lemma send_attempts_within n i seq data s :
  clock_ok s → within (100 * n) (send_attempts n i seq data) s (λ _ s', clock_ok s').
Proof.
  revert s. induction n as [|n IH]; intros s Hs; cbn [send_attempts]; [by apply within_ret|].
  apply within_now. cbn [gets fst snd]. apply within_now.
  set (s1 := (tcp_output _ _ _ _ _ s).2). assert (clock_ok s1) as H1 by (by apply clock_ip_tx).
  destruct (_ <? 0); [by apply within_ret|]. apply within_now. cbn [gets fst snd].
  replace (100 * S n)%nat with (100 + 100 * n)%nat by lia. apply within_bind.
  change 100%nat with (Z.to_nat TCP_RTO_TICKS). apply wait_timed.
  - intros s' Hc. apply andb_prop in Hc as [Hc _]. by apply andb_prop in Hc as [_ Hc].
  - done.
  - done.
  - intros s' _ Hk. do 2 (apply within_now; cbn [gets fst snd]).
    destruct (negb (reset (the_sock i s')) && _ && _); [by apply within_ret|].
    destruct (reset (the_sock i s')); [by apply within_ret|by apply IH].
Qed.

Lemma send_chunks_within fuel i sent rest s :
  clock_ok s → (length rest < fuel)%nat →
  within (800 * length rest) (send_chunks fuel i sent rest) s (λ r s', clock_ok s' ∧ (r = -1 ∨ r = sent + zlength rest)).
Proof.
  revert sent rest s. induction fuel as [|fuel IH]; intros sent rest s Hs Hf; [lia|]. cbn [send_chunks].
  destruct rest as [|x rest]; [apply within_ret; split; [done|right; change (zlength []) with 0; lia]|].
  set (l := x :: rest) in *. set (data := take (Z.to_nat TCP_MSS) l).
  assert (1 ≤ length data ∧ length data + length (drop (Z.to_nat TCP_MSS) l) = length l)%nat as [Hd Hsum].
  { unfold data. rewrite length_take, length_drop. unfold l, TCP_MSS in *. simpl length. lia. }
  apply within_now. set (s1 := (tcp_claim i (zlength data) s).2). assert (clock_ok s1) as H1 by exact Hs.
  apply (within_mono _ (800 + 800 * length (drop (Z.to_nat TCP_MSS) l)) _ _
           (λ r s', clock_ok s' ∧ (r = -1 ∨ r = sent + zlength l))); [|lia|done].
  apply within_bind. eapply within_mono; [by apply (send_attempts_within 8)|done|]. intros ok s2 H2.
  destruct ok; [|apply within_now, within_ret; split; [exact H2|by left]].
  eapply within_mono; [apply IH; [done|unfold l in *; simpl length in *; lia]|done|].
  intros r s3 [H3 [-> | ->]]; (split; [done|]); [by left|right]. unfold zlength. lia.
Qed.

(** tcp_send returns within four seconds of ticks for every byte it is given,
    and reports either failure or that everything was sent. *)
Theorem tcp_send_returns h buf s ev :
  clock_ok s → Forall ticking ev → (800 * length buf ≤ length ev)%nat →
  ∃ r s' ev', tcp_send h buf s ev = Some (r, s', ev') ∧ (r = -1 ∨ r = zlength buf).
Proof.
  intros Hs He Hl.
  assert (within (800 * length buf) (tcp_send h buf) s (λ r _, r = -1 ∨ r = zlength buf)) as Hw.
  { unfold tcp_send. apply within_now. destruct (sock_get h s) as [o s1] eqn:E.
    assert (s1 = s) as -> by (unfold sock_get in E; rewrite run_bind in E; by injection E as _ <-). cbn [fst snd].
    destruct o as [i|]; [|apply within_ret; by left]. apply within_now. cbn [gets fst snd].
    destruct (_ || _ || _); [apply within_ret; by left|].
    eapply within_mono; [by apply send_chunks_within; [|lia]|done|]. by intros r s' [_ ?]. }
  destruct (Hw ev He Hl) as (r & s' & ev' & E & _ & _ & Hr). by exists r, s', ev'.
Qed.

(** ** Resolving *)

(** The query slot is held by this caller, with a query of valid shape. *)
Definition query_ok s : Prop :=
  clock_ok s ∧ busy (dns s) = true ∧ 0 ≤ q_id (dns s) < 65536 ∧ 0 ≤ q_port (dns s) < 65536.

Lemma query_happen e s : query_ok s → query_ok (happen e s).
Proof.
  intros Hs. assert (query_ok (rx_all (arrivals e) s)) as (_ & Hq).
  { apply keeps_rx_all; try done. intros q s' (E1 & E2 & E3) (? & Hb & Hi & Hp). unfold query_ok, clock_ok in *.
    cbn. by rewrite E1, E2, E3. }
  split; [apply happen_clock|done].
Qed.

(** One query is built without touching memory outside its buffer, and sent
    or refused. *)
Lemma query_send stk name s :
  query_ok s → zlength stk = sizeof_pkt → DnsSpec.cstr_ok name = true →
  ∃ r s', dns_send_query stk name (q_id (dns s)) (q_port (dns s)) s = (Some r, s') ∧ query_ok s'.
Proof.
  intros Hs Hk Hn. pose proof Hs as (_ & _ & Hi & Hp). unfold dns_send_query. rewrite DnsSpec.dns_query_wire by done.
  destruct (DnsSpec.hostname_ok name); [|by eexists _, _]. rewrite run_bind. eexists _, _. split; [done|].
  by apply keeps_ip_tx.
Qed.

Lemma dns_attempts_within n stk name s :
  query_ok s → zlength stk = sizeof_pkt → DnsSpec.cstr_ok name = true →
  within (200 * n) (dns_attempts n stk name) s (λ r s', query_ok s' ∧ is_Some r).
Proof.
  intros Hs Hk Hn. revert s Hs. induction n as [|n IH]; intros s Hs; cbn [dns_attempts]; [by apply within_ret|].
  apply within_now. cbn [gets fst snd]. apply within_now.
  destruct (query_send stk name s Hs Hk Hn) as (r & s1 & -> & H1). cbn [fst snd].
  destruct (r <? 0); [by apply within_ret|]. apply within_now. cbn [gets fst snd].
  replace (200 * S n)%nat with (200 + 200 * n)%nat by lia. apply within_bind.
  change 200%nat with (Z.to_nat PIT_HZ). apply (wait_timed_inv query_ok).
  - apply query_happen.
  - done.
  - intros s' Hc. by apply andb_prop in Hc as [_ Hc].
  - done.
  - apply H1.
  - intros s' _ _ Hq. apply within_now. cbn [gets fst snd]. destruct (done (dns s')); [by apply within_ret|by apply IH].
Qed.

(** With the gateway known and the query slot free, dns_resolve returns
    within three seconds of ticks whatever arrives, never writes outside its
    stack buffer whatever the name is, and releases the slot. *)
Theorem dns_resolve_returns stk name s ev :
  clock_ok s → gw_valid s = true → busy (dns s) = false → 0 ≤ next_id s < 65536 →
  zlength stk = sizeof_pkt → DnsSpec.cstr_ok name = true → Forall ticking ev → (600 ≤ length ev)%nat →
  ∃ r a s' ev', dns_resolve stk name s ev = Some (Some (r, a), s', ev') ∧ busy (dns s') = busy (dns s) ∧
    (r = 0 ∧ a = Some (q_addr (dns s')) ∨ r = -1 ∧ a = None).
Proof.
  intros Hs Hg Hb Hid Hk Hn He Hl.
  assert (within 600 (dns_resolve stk name) s (λ x s', busy (dns s') = false ∧
            ∃ r a, x = Some (r, a) ∧ (r = 0 ∧ a = Some (q_addr (dns s')) ∨ r = -1 ∧ a = None))) as Hw.
  { unfold dns_resolve. change 600%nat with (0 + 600)%nat. apply within_bind.
    assert (within 0 net_ensure_gateway s (λ r s', s' = s)) as Hgw.
    { unfold net_ensure_gateway. apply within_now. cbn [gets fst snd]. destruct (negb _); [by apply within_ret|].
      change 0%nat with (0 + 0)%nat. apply within_bind. cbn [gateway_attempts]. apply within_now. cbn [gets fst snd].
      rewrite Hg. apply within_ret. apply within_now. by apply within_ret. }
    eapply within_mono; [exact Hgw|done|]. intros g s1 ->. cbn beta.
    destruct (g <? 0); [apply within_ret; split; [done|]; exists (-1), None; by auto|].
    change 600%nat with (0 + 600)%nat. apply within_bind.
    assert (within 0 (wait_while (λ s : net D, busy (dns s))) s (λ _ s', s' = s)) as Hwt.
    { intros ev' He' _. exists tt, s, ev'. unfold wait_while. destruct ev'; cbn [wait_loop]; rewrite Hb; (split_and!; [done|done|lia|done]). }
    eapply within_mono; [exact Hwt|done|]. intros [] s1 ->. apply within_now. set (s2 := (dns_claim s).2).
    assert (query_ok s2) as H2.
    { split_and!; try done; cbn; try lia.
      - apply Z.lor_nonneg. split; [lia|]. apply Z.land_nonneg. lia.
      - assert (Z.land (next_id s) 0xFFF = next_id s mod 2 ^ 12) as -> by (by apply (Z.land_ones _ 12)).
        change 0xC000 with (12 * 2 ^ 12). pose proof (Z.mod_pos_bound (next_id s) (2 ^ 12) ltac:(lia)).
        rewrite lor_add by lia. lia. }
    change 600%nat with (200 * 3 + 0)%nat. apply within_bind.
    eapply within_mono; [by apply dns_attempts_within|done|]. intros found s3 [H3 [f ->]].
    apply within_now. cbn [gets fst snd]. apply within_now. apply within_ret. split; [done|].
    destruct f; [exists 0, (Some (q_addr (dns s3)))|exists (-1), None]; by auto. }
  destruct (Hw ev He Hl) as (x & s' & ev' & E & _ & _ & Hbusy & r & a & -> & Hr). exists r, a, s', ev'. by rewrite Hb.
Qed.
End within.

(** Quiet networks. *)
Definition quiet (n : nat) : list event := replicate n (mk_event [] 1).

Lemma quiet_ticking n : Forall ticking (quiet n).
Proof. apply Forall_replicate. unfold ticking. cbn. lia. Qed.


Lemma tcp_send_returns_witness :
  ∃ r s' ev', tcp_send 0 [71] TcpStream.demo2 (quiet 800) = Some (r, s', ev') ∧ (r = -1 ∨ r = zlength [71]).
Proof.
  apply tcp_send_returns; [vm_compute; split; [discriminate|reflexivity]|apply quiet_ticking|
    unfold quiet; rewrite length_replicate; simpl length; lia].
Defined.

Lemma dns_resolve_returns_witness :
  ∃ r a s' ev', dns_resolve (replicate 154 9) [97; 46; 98; 99] Rtl8139.demo_net (quiet 600) = Some (Some (r, a), s', ev') ∧
    busy (dns s') = busy (dns Rtl8139.demo_net) ∧ (r = 0 ∧ a = Some (q_addr (dns s')) ∨ r = -1 ∧ a = None).
Proof.
  apply dns_resolve_returns.
  - unfold clock_ok. cbn. lia.
  - done.
  - done.
  - cbn. lia.
  - vm_compute. reflexivity.
  - reflexivity.
  - apply quiet_ticking.
  - unfold quiet. rewrite length_replicate. lia.
Defined.
End NetWait.
