(* ===== verification/Paging.v ===== *)
(** * Physical frames and address spaces (kernel/paging.c, include/mm.h)

    Page tables and directories live at kernel pointers; the store maps the
    pointer to the object, so two directories that hold the same table
    pointer share the table.  [None] is a kernel panic (no free frame, heap
    exhausted) or the use of a pointer that points nowhere. *)

From S2P Require Import Prelude Bytes.

Module Paging.

(** ** State *)

(** [struct page]. *)
Record page := mk_page {
  present : bool;
  rw : bool;
  user : bool;
  accessed : bool;
  dirty : bool;
  frame : Z;
}.

Definition zero_page : page := mk_page false false false false false 0.

(** [struct page_directory]; a table pointer 0 is NULL. *)
Record page_directory := mk_dir {
  tables : list Z;
  tables_physical : list Z;
  phys_addr : Z;
}.

Definition zero_dir : page_directory := mk_dir (replicate 1024 0) (replicate 1024 0) 0.

(** The allocator's bitset, the objects behind the pointers, the contents of
    the physical frames, and the addresses (virtual, physical) that the next
    calls of [kmalloc_ap] return. *)
Record vm := mk_vm {
  frames : list Z;
  nframes : Z;
  tabs : gmap Z (list page);
  dirs : gmap Z page_directory;
  ram : gmap Z (list Z);
  kernel_directory : Z;
  current_directory : Z;
  pool : list (Z * Z);
}.

Definition set_frames (x : list Z) (s : vm) : vm :=
  mk_vm x (nframes s) (tabs s) (dirs s) (ram s) (kernel_directory s) (current_directory s) (pool s).
Definition set_tabs (x : gmap Z (list page)) (s : vm) : vm :=
  mk_vm (frames s) (nframes s) x (dirs s) (ram s) (kernel_directory s) (current_directory s) (pool s).
Definition set_dirs (x : gmap Z page_directory) (s : vm) : vm :=
  mk_vm (frames s) (nframes s) (tabs s) x (ram s) (kernel_directory s) (current_directory s) (pool s).
Definition set_ram (x : gmap Z (list Z)) (s : vm) : vm :=
  mk_vm (frames s) (nframes s) (tabs s) (dirs s) x (kernel_directory s) (current_directory s) (pool s).
Definition set_kernel (x : Z) (s : vm) : vm :=
  mk_vm (frames s) (nframes s) (tabs s) (dirs s) (ram s) x (current_directory s) (pool s).
Definition set_current (x : Z) (s : vm) : vm :=
  mk_vm (frames s) (nframes s) (tabs s) (dirs s) (ram s) (kernel_directory s) x (pool s).
Definition set_pool (x : list (Z * Z)) (s : vm) : vm :=
  mk_vm (frames s) (nframes s) (tabs s) (dirs s) (ram s) (kernel_directory s) (current_directory s) x.

(** State with panic. *)
Definition K (A : Type) : Type := vm → option (A * vm).

#[global] Instance K_ret : MRet K := λ A x s, Some (x, s).
#[global] Instance K_bind : MBind K := λ A C f c s,
  match c s with Some (a, s') => f a s' | None => None end.

Definition panic {A} : K A := λ _, None.
Definition get {A} (f : vm → A) : K A := λ s, Some (f s, s).
Definition upd (f : vm → vm) : K unit := λ s, Some (tt, f s).
(** Dereference. *)
Definition deref {A} (o : vm → option A) : K A := λ s, match o s with Some a => Some (a, s) | None => None end.

(** [kmalloc_ap], and [kmalloc_a] where only the pointer is used: the next
    address pair. *)
Definition kmalloc_ap : K (Z * Z) := λ s,
  match pool s with
  | [] => None
  | p :: l => Some (p, set_pool l s)
  end.

(** ** Frames *)

Definition INDEX_FROM_BIT (a : Z) : Z := a / (8 * 4).
Definition OFFSET_FROM_BIT (a : Z) : Z := a mod (8 * 4).

Definition bit (off : Z) : Z := u32 (Z.shiftl 0x1 off).

Definition set_frame (frame_addr : Z) (fs : list Z) : list Z :=
  let frame := frame_addr / 0x1000 in
  let idx := INDEX_FROM_BIT frame in
  bset fs idx (Z.lor (bget fs idx) (bit (OFFSET_FROM_BIT frame))).

Definition clear_frame (frame_addr : Z) (fs : list Z) : list Z :=
  let frame := frame_addr / 0x1000 in
  let idx := INDEX_FROM_BIT frame in
  bset fs idx (Z.land (bget fs idx) (u32 (Z.lnot (bit (OFFSET_FROM_BIT frame))))).

(** The inner loop: the first clear bit of a word from [j] on. *)
Fixpoint first_bit (n : nat) (w j : Z) : option Z :=
  match n with
  | O => None
  | S n' => if Z.land w (bit j) =? 0 then Some j else first_bit n' w (j + 1)
  end.

(** The outer loop over [n] words from [i] on. *)
Fixpoint first_word (n : nat) (fs : list Z) (i : Z) : Z :=
  match n with
  | O => 0xFFFFFFFF
  | S n' =>
      if negb (bget fs i =? 0xFFFFFFFF) then
        match first_bit 32 (bget fs i) 0 with
        | Some j => u32 (i * 4 * 8 + j)
        | None => first_word n' fs (i + 1)
        end
      else first_word n' fs (i + 1)
  end.

Definition first_frame (s : vm) : Z := first_word (Z.to_nat (INDEX_FROM_BIT (nframes s))) (frames s) 0.

(** ** Pages *)

(** A [struct page *]: the table and the index in it. *)
Definition page_at (tab : list page) (j : Z) : page := default zero_page (tab !! Z.to_nat j).

Definition load (p : Z * Z) : K page :=
  tab ← deref (λ s, tabs s !! p.1); mret (page_at tab p.2).

Definition store (p : Z * Z) (pg : page) : K unit :=
  tab ← deref (λ s, tabs s !! p.1);
  upd (λ s, set_tabs (<[p.1 := <[Z.to_nat p.2 := pg]> tab]> (tabs s)) s).

Definition alloc_frame (p : Z * Z) (is_kernel is_writeable : bool) : K unit :=
  pg ← load p;
  if negb (frame pg =? 0) then mret tt else
  idx ← get first_frame;
  if idx =? 0xFFFFFFFF then panic else
  _ ← upd (λ s, set_frames (set_frame (u32 (idx * 0x1000)) (frames s)) s);
  store p (mk_page true is_writeable (negb is_kernel) (accessed pg) (dirty pg) idx).

Definition free_frame (p : Z * Z) : K unit :=
  pg ← load p;
  if frame pg =? 0 then mret tt else
  n ← get nframes;
  _ ← (if frame pg <? n then upd (λ s, set_frames (clear_frame (u32 (frame pg * 0x1000)) (frames s)) s) else mret tt);
  store p (mk_page false (rw pg) (user pg) (accessed pg) (dirty pg) 0).

(** ** Address spaces *)

Definition dir_table (d : page_directory) (i : Z) : Z := default 0 (tables d !! Z.to_nat i).
Definition dir_phys (d : page_directory) (i : Z) : Z := default 0 (tables_physical d !! Z.to_nat i).

Definition set_table (i tab phys : Z) (d : page_directory) : page_directory :=
  mk_dir (<[Z.to_nat i := tab]> (tables d)) (<[Z.to_nat i := phys]> (tables_physical d)) (phys_addr d).

(** [None] is the NULL pointer. *)
Definition get_page (addr : Z) (make : bool) (dirp : Z) : K (option (Z * Z)) :=
  d ← deref (λ s, dirs s !! dirp);
  let addr := addr / 0x1000 in
  let table_idx := addr / 1024 in
  if negb (dir_table d table_idx =? 0) then mret (Some (dir_table d table_idx, addr mod 1024))
  else if make then
    a ← kmalloc_ap;
    _ ← upd (λ s, set_tabs (<[a.1 := replicate 1024 zero_page]> (tabs s))
                    (set_dirs (<[dirp := set_table table_idx a.1 (Z.lor a.2 0x7) d]> (dirs s)) s));
    mret (Some (a.1, addr mod 1024))
  else mret None.

(** The page a [make] lookup returns. *)
Definition get_page_make (addr dirp : Z) : K (Z * Z) :=
  p ← get_page addr true dirp;
  match p with Some p => mret p | None => panic end.

(** [copy_page_physical(src * 0x1000, dst * 0x1000)]. *)
Definition copy_page (src dst : Z) : K unit :=
  upd (λ s, set_ram (<[dst := default [] (ram s !! src)]> (ram s)) s).

(** The loop of clone_table over the pages from [i] on. *)
Fixpoint clone_pages (n : nat) (src dst i : Z) : K unit :=
  match n with
  | O => mret tt
  | S n' =>
      spg ← load (src, i);
      _ ← (if frame spg =? 0 then mret tt else
           _ ← alloc_frame (dst, i) false false;
           pg ← load (dst, i);
           _ ← store (dst, i)
                 (mk_page (present pg || present spg) (rw pg || rw spg) (user pg || user spg)
                    (accessed pg || accessed spg) (dirty pg || dirty spg) (frame pg));
           copy_page (frame spg) (frame pg));
      clone_pages n' src dst (i + 1)
  end.

(** The new table and its physical address. *)
Definition clone_table (src : Z) : K (Z * Z) :=
  a ← kmalloc_ap;
  _ ← upd (λ s, set_tabs (<[a.1 := replicate 1024 zero_page]> (tabs s)) s);
  _ ← clone_pages 1024 src a.1 0;
  mret a.

(** The loop of clone_directory over the tables from [i] on. *)
Fixpoint clone_tables (n : nat) (src : page_directory) (dirp i : Z) : K unit :=
  match n with
  | O => mret tt
  | S n' =>
      kd ← deref (λ s, dirs s !! kernel_directory s);
      _ ← (if dir_table src i =? 0 then mret tt else
           if dir_table kd i =? dir_table src i then
             d ← deref (λ s, dirs s !! dirp);
             upd (λ s, set_dirs (<[dirp := set_table i (dir_table src i) (dir_phys src i) d]> (dirs s)) s)
           else
             a ← clone_table (dir_table src i);
             d ← deref (λ s, dirs s !! dirp);
             upd (λ s, set_dirs (<[dirp := set_table i a.1 (Z.lor a.2 0x07) d]> (dirs s)) s));
      clone_tables n' src dirp (i + 1)
  end.

(** [sizeof(tables)]: where [tables_physical] starts in the directory. *)
Definition TABLES_BYTES : Z := 4096.

Definition clone_directory (srcp : Z) : K Z :=
  a ← kmalloc_ap;
  _ ← upd (λ s, set_dirs (<[a.1 := mk_dir (tables zero_dir) (tables_physical zero_dir) (u32 (a.2 + TABLES_BYTES))]> (dirs s)) s);
  src ← deref (λ s, dirs s !! srcp);
  _ ← clone_tables 1024 src a.1 0;
  mret a.1.

(** The loops of free_directory. *)
Fixpoint free_pages (n : nat) (tab i : Z) : K unit :=
  match n with
  | O => mret tt
  | S n' =>
      pg ← load (tab, i);
      _ ← (if frame pg =? 0 then mret tt else free_frame (tab, i));
      free_pages n' tab (i + 1)
  end.

Fixpoint free_tables (n : nat) (d : page_directory) (i : Z) : K unit :=
  match n with
  | O => mret tt
  | S n' =>
      kd ← deref (λ s, dirs s !! kernel_directory s);
      _ ← (if dir_table d i =? 0 then mret tt else
           if dir_table kd i =? dir_table d i then mret tt else
           _ ← free_pages 1024 (dir_table d i) 0;
           upd (λ s, set_tabs (delete (dir_table d i) (tabs s)) s));
      free_tables n' d (i + 1)
  end.

Definition free_directory (dirp : Z) : K unit :=
  if dirp =? 0 then mret tt else
  d ← deref (λ s, dirs s !! dirp);
  _ ← free_tables 1024 d 0;
  upd (λ s, set_dirs (delete dirp (dirs s)) s).

(** ** Boot *)

Definition switch_page_directory (dirp : Z) : K unit := upd (set_current dirp).

(** [for (; i < heap_end; i += 0x1000) get_page(i, 1, kernel_directory);]. *)
Fixpoint touch_pages (n : nat) (i heap_end kd : Z) : K unit :=
  match n with
  | O => mret tt
  | S n' => if i <? heap_end then _ ← get_page_make i kd; touch_pages n' (u32 (i + 0x1000)) heap_end kd else mret tt
  end.

(** [while (i < heap_end + 0x1000) { alloc_frame(get_page(i, 1, kd), 1, 1); i += 0x1000; }]. *)
Fixpoint map_pages (n : nat) (i endp kd : Z) : K unit :=
  match n with
  | O => mret tt
  | S n' =>
      if i <? endp then
        p ← get_page_make i kd;
        _ ← alloc_frame p true true;
        map_pages n' (u32 (i + 0x1000)) endp kd
      else mret tt
  end.

(** One round per page of the heap's end suffices for either loop. *)
Definition mm_paging_init (mem_size heap_end : Z) : K unit :=
  let n := mem_size / 0x1000 in
  _ ← upd (λ s, mk_vm (replicate (Z.to_nat (INDEX_FROM_BIT n)) 0) n (tabs s) (dirs s) (ram s)
                  (kernel_directory s) (current_directory s) (pool s));
  a ← kmalloc_ap;
  let kd := a.1 in
  _ ← upd (λ s, set_kernel kd (set_dirs (<[kd := zero_dir]> (dirs s)) s));
  _ ← touch_pages (Z.to_nat (heap_end / 0x1000 + 2)) 0 heap_end kd;
  _ ← map_pages (Z.to_nat (heap_end / 0x1000 + 2)) 0 (u32 (heap_end + 0x1000)) kd;
  _ ← switch_page_directory kd;
  c ← clone_directory kd;
  switch_page_directory c.

(** ** Validation of user pointers *)

Definition USER_VADDR_MIN : Z := 0x40000000.
Definition USER_VADDR_MAX : Z := 0x80000000.

(** The page of an address in the current address space, NULL when it has
    no table. *)
Definition lookup_page (s : vm) (a : Z) : option page :=
  match get_page a false (current_directory s) s with
  | Some (Some p, s') => match load p s' with Some (pg, _) => Some pg | None => None end
  | _ => None
  end.

Definition page_ok (s : vm) (write : bool) (a : Z) : bool :=
  match lookup_page s a with
  | Some pg => present pg && user pg && (negb write || rw pg)
  | None => false
  end.

(** The page loop from [a] on. *)
Fixpoint user_pages (n : nat) (s : vm) (write : bool) (a endp : Z) : bool :=
  match n with
  | O => true
  | S n' => if a <? endp then if page_ok s write a then user_pages n' s write (u32 (a + 0x1000)) endp else false
            else true
  end.

Definition user_ok (s : vm) (start len : Z) (write : bool) : bool :=
  if (start <? USER_VADDR_MIN) || (start >=? USER_VADDR_MAX) || (len >? u32 (USER_VADDR_MAX - start)) then false
  else user_pages (Z.to_nat (len / 0x1000 + 2)) s write (Z.land start (u32 (Z.lnot 0xFFF))) (u32 (start + len)).

(** Whether one of the [n] bytes from [a] on is NUL; [mem] reads memory. *)
Fixpoint has_nul (n : nat) (mem : Z → Z) (a : Z) : bool :=
  match n with
  | O => false
  | S n' => if mem a =? 0 then true else has_nul n' mem (a + 1)
  end.

(** Every round but the last ends on a page boundary. *)
Fixpoint user_str_loop (fuel : nat) (s : vm) (mem : Z → Z) (a max : Z) : bool :=
  match fuel with
  | O => false
  | S fuel' =>
      if max =? 0 then false else
      let chunk := Z.min (0x1000 - Z.land a 0xFFF) max in
      if negb (user_ok s a chunk false) then false else
      if has_nul (Z.to_nat chunk) mem a then true
      else user_str_loop fuel' s mem (u32 (a + chunk)) (max - chunk)
  end.

Definition user_str_ok (s : vm) (mem : Z → Z) (a max : Z) : bool :=
  user_str_loop (Z.to_nat (max / 0x1000 + 2)) s mem a max.

Lemma dir_table_set i t ph d j :
  0 ≤ i < 1024 → length (tables d) = 1024%nat → 0 ≤ j →
  dir_table (set_table i t ph d) j = if decide (j = i) then t else dir_table d j.
Proof.
  intros Hi Hl Hj. unfold dir_table, set_table. cbn [tables]. case_decide as E.
  - subst. by rewrite list_lookup_insert_eq by lia.
  - by rewrite list_lookup_insert_ne by lia.
Qed.

Lemma zero_dir_table j : dir_table zero_dir j = 0.
Proof.
  unfold dir_table, zero_dir. cbn [tables]. destruct (replicate 1024 0 !! Z.to_nat j) as [x|] eqn:E; [|done].
  by apply lookup_replicate in E as [-> _].
Qed.

(** ** User pointers: the check is exact *)

Lemma get_page_lookup s a dirp :
  get_page a false dirp s =
  match dirs s !! dirp with
  | None => None
  | Some d => Some (if negb (dir_table d (a / 0x1000 / 1024) =? 0)
                    then Some (dir_table d (a / 0x1000 / 1024), a / 0x1000 mod 1024) else None, s)
  end.
Proof.
  unfold get_page, deref, mbind, K_bind, mret, K_ret. destruct (dirs s !! dirp); [|done]. by destruct (negb _).
Qed.

(** Addresses of the same page are treated alike. *)
Lemma page_ok_page s w a b : a / 0x1000 = b / 0x1000 → page_ok s w a = page_ok s w b.
Proof. intros E. unfold page_ok, lookup_page. by rewrite !get_page_lookup, E. Qed.

Lemma user_pages_spec n s w a endp :
  0 ≤ a → endp < 2147483649 → endp ≤ a + 4096 * Z.of_nat n →
  user_pages n s w a endp = true ↔ ∀ k, 0 ≤ k → a + 4096 * k < endp → page_ok s w (a + 4096 * k) = true.
Proof.
  revert a. induction n as [|n IH]; intros a Ha He Hn; cbn [user_pages]; [split; [intros _ k ? ?; lia|done]|].
  destruct (Z.ltb_spec a endp) as [Hlt|Hge]; [|split; [intros _ k ? ?; lia|done]].
  rewrite u32_small by lia. destruct (page_ok s w a) eqn:E.
  - rewrite IH by lia. split.
    + intros H k Hk Hl. destruct (decide (k = 0)) as [->|]; [by rewrite Z.mul_0_r, Z.add_0_r|].
      specialize (H (k - 1) ltac:(lia) ltac:(lia)). by replace (a + 0x1000 + 4096 * (k - 1)) with (a + 4096 * k) in H by lia.
    + intros H k Hk Hl. replace (a + 0x1000 + 4096 * k) with (a + 4096 * (k + 1)) by lia. apply H; lia.
  - split; [done|]. intros H. specialize (H 0 ltac:(lia) ltac:(lia)). rewrite Z.mul_0_r, Z.add_0_r in H. congruence.
Qed.

(** user_ok accepts a non-empty range exactly when it lies inside the user
    window and every byte of it is on a present page that user mode may
    access (write, if asked). *)
Theorem user_ok_exact s start len write :
  0 ≤ start < 4294967296 → 0 < len < 4294967296 →
  user_ok s start len write = true ↔
  USER_VADDR_MIN ≤ start ∧ start + len ≤ USER_VADDR_MAX ∧
  ∀ a, start ≤ a < start + len → page_ok s write a = true.
Proof.
  intros Hs Hl. unfold user_ok, USER_VADDR_MIN, USER_VADDR_MAX.
  destruct (Z.ltb_spec start 0x40000000); [split; [done|lia]|].
  destruct (Z.geb_spec start 0x80000000); [split; [done|lia]|]. cbn [orb]. rewrite u32_small by lia.
  destruct (Z.gtb_spec len (0x80000000 - start)); [split; [done|lia]|].
  change (u32 (Z.lnot 0xFFF)) with (Z.shiftl (Z.ones (32 - 12)) 12). rewrite align_down by lia.
  change (2 ^ 12) with 4096. rewrite u32_small by lia. rewrite user_pages_spec by zdm. split.
  - intros Hpg. split_and!; [lia|lia|]. intros a Ha. set (b := start - start mod 4096) in *.
    rewrite (page_ok_page s write a (b + 4096 * ((a - b) / 4096))); [apply Hpg; unfold b; zdm|]. unfold b. zdm.
  - intros (_ & _ & Hpg) k Hk Hlt. set (b := start - start mod 4096) in *.
    destruct (decide (k = 0)) as [->|].
    + rewrite (page_ok_page s write (b + 4096 * 0) start) by (unfold b; zdm). apply Hpg. lia.
    + apply Hpg. unfold b in *. zdm.
Qed.

Lemma has_nul_spec n mem a : has_nul n mem a = true ↔ ∃ i, 0 ≤ i < Z.of_nat n ∧ mem (a + i) = 0.
Proof.
  revert a. induction n as [|n IH]; intros a; cbn [has_nul]; [split; [done|intros (i & ? & _); lia]|].
  destruct (Z.eqb_spec (mem a) 0) as [E|E].
  - split; [|done]. intros _. exists 0. rewrite Z.add_0_r. split; [lia|done].
  - rewrite IH. split.
    + intros (i & Hi & Hm). exists (i + 1). replace (a + (i + 1)) with (a + 1 + i) by lia. split; [lia|done].
    + intros (i & Hi & Hm). destruct (decide (i = 0)) as [->|]; [by rewrite Z.add_0_r in Hm|].
      exists (i - 1). replace (a + 1 + (i - 1)) with (a + i) by lia. split; [lia|done].
Qed.

(** A byte user mode may read. *)
Definition readable (s : vm) (a : Z) : Prop :=
  USER_VADDR_MIN ≤ a < USER_VADDR_MAX ∧ page_ok s false a = true.

Lemma str_loop_spec fuel s mem a max :
  0 ≤ a < 4294967296 → 0 ≤ max < 4294967296 → max + a mod 4096 ≤ 4096 * Z.of_nat fuel →
  user_str_loop fuel s mem a max = true ↔
  ∃ n, 0 ≤ n < max ∧ mem (a + n) = 0 ∧ ∀ i, 0 ≤ i ≤ n → readable s (a + i).
Proof.
  revert a max. induction fuel as [|fuel IH]; intros a max Ha Hm Hf; cbn [user_str_loop].
  { split; [done|]. intros (n & Hn & _). zdm. }
  destruct (Z.eqb_spec max 0) as [->|Hnz]; [split; [done|intros (n & ? & _); lia]|].
  assert (Z.land a 0xFFF = a mod 4096) as -> by (by apply (Z.land_ones a 12)).
  set (chunk := Z.min (0x1000 - a mod 4096) max).
  assert (1 ≤ chunk ≤ 4096 ∧ chunk ≤ max) as [Hc Hcm] by (unfold chunk; zdm).
  pose proof (user_ok_exact s a chunk false Ha ltac:(lia)) as Hu.
  assert (∀ i, 0 ≤ i < chunk → (a + i) / 4096 = a / 4096) as Hpage by (intros; unfold chunk in *; zdm).
  destruct (user_ok s a chunk false); cbn [negb].
  2: { split; [done|]. intros (n & Hn & Hz & Hr). apply Hu. destruct (Hr 0 ltac:(lia)) as [Hw Hp]. rewrite Z.add_0_r in Hw, Hp.
       unfold USER_VADDR_MIN, USER_VADDR_MAX in *. split_and!; [lia|unfold chunk; zdm|].
       intros b Hb. rewrite (page_ok_page s false b a); [done|]. replace b with (a + (b - a)) by lia. apply Hpage. lia. }
  destruct (proj1 Hu eq_refl) as (Hlo & Hhi & Hok). pose proof (has_nul_spec (Z.to_nat chunk) mem a) as Hnul.
  destruct (has_nul (Z.to_nat chunk) mem a).
  { split; [|done]. intros _. destruct (proj1 Hnul eq_refl) as (i & Hi & Hz). exists i. split_and!; [lia|lia|done|].
    intros j Hj. split; [unfold USER_VADDR_MIN, USER_VADDR_MAX in *; lia|]. apply Hok. lia. }
  assert (∀ i, 0 ≤ i < chunk → mem (a + i) ≠ 0) as Hno.
  { intros i Hi Hz. assert (false = true); [|done]. apply Hnul. exists i. split; [lia|done]. }
  unfold USER_VADDR_MIN, USER_VADDR_MAX in Hlo, Hhi. rewrite u32_small by lia.
  destruct (decide (max - chunk = 0)) as [Hlast|Hmore].
  { rewrite Hlast. split.
    - destruct fuel; cbn [user_str_loop]; done.
    - intros (n & Hn & Hz & _). exfalso. apply (Hno n); [lia|done]. }
  rewrite IH; [|lia|lia|unfold chunk in *; zdm]. split.
  - intros (n & Hn & Hz & Hr). exists (n + chunk). replace (a + (n + chunk)) with (a + chunk + n) by lia.
    split_and!; [lia|lia|done|]. intros i Hi. destruct (decide (i < chunk)).
    + split; [unfold USER_VADDR_MIN, USER_VADDR_MAX; lia|]. apply Hok. lia.
    + specialize (Hr (i - chunk) ltac:(lia)). by replace (a + chunk + (i - chunk)) with (a + i) in Hr by lia.
  - intros (n & Hn & Hz & Hr). assert (chunk ≤ n) by (destruct (decide (chunk ≤ n)); [done|]; exfalso; apply (Hno n); [lia|done]).
    exists (n - chunk). replace (a + chunk + (n - chunk)) with (a + n) by lia. split_and!; [lia|lia|done|].
    intros i Hi. replace (a + chunk + i) with (a + (chunk + i)) by lia. apply Hr. lia.
Qed.

(** user_str_ok accepts a string exactly when a NUL comes within the limit
    and every byte up to it is readable by user mode; in particular the page
    after the NUL need not be mapped. *)
Theorem user_str_ok_exact s mem a max :
  0 ≤ a < 4294967296 → 0 ≤ max < 4294967296 →
  user_str_ok s mem a max = true ↔
  ∃ n, 0 ≤ n < max ∧ mem (a + n) = 0 ∧ ∀ i, 0 ≤ i ≤ n → readable s (a + i).
Proof. intros Ha Hm. apply str_loop_spec; [done|done|zdm]. Qed.

(** ** An address space for the examples *)

(** Two user pages at 0x40000000 and 0x40003000 (read only) in frames 5 and
    6, next to a kernel table; frames 0 to 6 are in use. *)
Definition demo_tab : list page :=
  <[0%nat := mk_page true true true false false 5]> (<[3%nat := mk_page true false true true false 6]> (replicate 1024 zero_page)).
Definition demo_kd : page_directory := set_table 0 800 0x800007 zero_dir.
Definition demo_dir : page_directory := set_table 256 900 0x900007 demo_kd.
Definition demo_vm : vm :=
  mk_vm [0x7f; 0] 64 {[800 := replicate 1024 zero_page; 900 := demo_tab]} {[10 := demo_kd; 20 := demo_dir]}
    {[5 := [1; 2; 3]]} 10 20 [(700, 0x700000)].

Lemma demo_page_ok w a : 0x40000000 ≤ a < 0x40001000 → page_ok demo_vm w a = true.
Proof. intros Ha. rewrite (page_ok_page demo_vm w a 0x40000000) by zdm. by destruct w; vm_compute. Qed.

Lemma user_ok_exact_witness :
  user_ok demo_vm 0x40000ff0 0x10 true = true ∧ user_ok demo_vm 0x40000ff0 0x11 true = false ∧
  user_ok demo_vm 0x40003000 0x10 true = false.
Proof.
  split_and!.
  - apply user_ok_exact; [done|done|]. split_and!; [done|done|]. intros a Ha. apply demo_page_ok. lia.
  - apply not_true_is_false. intros H. apply user_ok_exact in H as (_ & _ & H); [|done|done].
    specialize (H 0x40001000 ltac:(lia)). vm_compute in H. done.
  - vm_compute. done.
Defined.

Lemma user_str_ok_exact_witness : user_str_ok demo_vm (λ a, if a =? 0x40000fff then 0 else 65) 0x40000ffa 128 = true.
Proof.
  apply user_str_ok_exact; [done|done|]. exists 5. split_and!; [lia|lia|done|].
  intros i Hi. split; [unfold USER_VADDR_MIN, USER_VADDR_MAX; lia|]. apply demo_page_ok. lia.
Defined.
End Paging.

(** * The frame allocator: first fit over the bitset

    What the bitset means, and alloc_frame and free_frame in those terms. *)

Module PagingFrames.
Import Paging.

(** Frame [k] is in use. *)
Definition used (fs : list Z) (k : Z) : bool := Z.testbit (bget fs (k / 32)) (k mod 32).

Definition word_ok (w : Z) : Prop := 0 ≤ w < 4294967296.

Record frames_ok (s : vm) : Prop := {
  fo_words : Forall word_ok (frames s);
  fo_len : zlength (frames s) = nframes s / 32;
  fo_max : 0 ≤ nframes s ≤ 1048576;
}.

(** The frames the bitset covers. *)
Definition limit (s : vm) : Z := 32 * (nframes s / 32).

Lemma bit_pow j : 0 ≤ j < 32 → bit j = 2 ^ j.
Proof.
  intros Hj. unfold bit. rewrite Z.shiftl_1_l. apply u32_small. split; [lia|].
  change 4294967296 with (2 ^ 32). apply Z.pow_lt_mono_r; lia.
Qed.

Lemma land_bit w j : 0 ≤ j < 32 → (Z.land w (bit j) =? 0) = negb (Z.testbit w j).
Proof.
  intros Hj. rewrite bit_pow by done. rewrite <- Z.shiftl_1_l, <- land_pow2_testbit by lia. by rewrite negb_involutive.
Qed.

Section bits.
Context (fs : list Z) (k : Z).
Context (Hk : 0 ≤ k < 1048576) (Hl : k / 32 < zlength fs) (Hw : Forall word_ok fs).

Lemma frame_of_addr : u32 (k * 0x1000) / 0x1000 = k.
Proof using Hk. rewrite u32_small by lia. by rewrite Z.div_mul. Qed.

Lemma word_at : word_ok (bget fs (k / 32)).
Proof using Hw.
  unfold bget. destruct (fs !! Z.to_nat (k / 32)) as [w|] eqn:E; [by eapply Forall_lookup_1 in Hw|].
  cbn. unfold word_ok. lia.
Qed.

Lemma used_store w j :
  0 ≤ j → used (bset fs (k / 32) w) j = if decide (j / 32 = k / 32) then Z.testbit w (j mod 32) else used fs j.
Proof using Hk Hl.
  intros Hj. unfold used. case_decide as E.
  - rewrite E, bget_bset_eq; [done|]. zdm.
  - rewrite bget_bset_ne; [done|zdm|zdm|congruence].
Qed.

Lemma same_bit j : 0 ≤ j → j / 32 = k / 32 → j mod 32 = k mod 32 → j = k.
Proof using. intros Hj E1 E2. rewrite (Z.div_mod j 32), (Z.div_mod k 32) by lia. lia. Qed.

Lemma set_frame_used j : 0 ≤ j → used (set_frame (u32 (k * 0x1000)) fs) j = (j =? k) || used fs j.
Proof using Hk Hl.
  intros Hj. unfold set_frame. rewrite frame_of_addr. unfold INDEX_FROM_BIT, OFFSET_FROM_BIT. change (8 * 4) with 32.
  rewrite used_store by done. pose proof (Z.mod_pos_bound k 32 ltac:(lia)). pose proof (Z.mod_pos_bound j 32 ltac:(lia)).
  case_decide as E; [|destruct (Z.eqb_spec j k); [congruence|done]].
  rewrite Z.lor_spec, bit_pow by lia. unfold used. rewrite E.
  destruct (Z.eqb_spec j k) as [->|Hne]; [by rewrite Z.pow2_bits_true, orb_true_r by lia|].
  rewrite Z.pow2_bits_false; [by rewrite orb_false_r|]. intros E2. apply Hne. by apply same_bit.
Qed.

Lemma clear_frame_used j : 0 ≤ j → used (clear_frame (u32 (k * 0x1000)) fs) j = negb (j =? k) && used fs j.
Proof using Hk Hl.
  intros Hj. unfold clear_frame. rewrite frame_of_addr. unfold INDEX_FROM_BIT, OFFSET_FROM_BIT. change (8 * 4) with 32.
  rewrite used_store by done. pose proof (Z.mod_pos_bound k 32 ltac:(lia)). pose proof (Z.mod_pos_bound j 32 ltac:(lia)).
  case_decide as E; [|destruct (Z.eqb_spec j k); [congruence|done]].
  unfold u32. change 4294967296 with (2 ^ 32).
  rewrite Z.land_spec, Z.mod_pow2_bits_low, Z.lnot_spec, bit_pow by lia. unfold used. rewrite E.
  destruct (Z.eqb_spec j k) as [->|Hne]; [by rewrite Z.pow2_bits_true, andb_false_r by lia|].
  rewrite Z.pow2_bits_false; [by rewrite andb_true_r|]. intros E2. apply Hne. by apply same_bit.
Qed.

Lemma lor_word a b : word_ok a → word_ok b → word_ok (Z.lor a b).
Proof using.
  unfold word_ok. intros [Ha1 Ha2] [Hb1 Hb2]. split; [by apply Z.lor_nonneg|].
  destruct (decide (Z.lor a b = 0)) as [->|]; [lia|]. change 4294967296 with (2 ^ 32).
  apply Z.log2_lt_pow2; [pose proof (proj2 (Z.lor_nonneg a b) (conj Ha1 Hb1)); lia|]. rewrite Z.log2_lor by lia. apply Z.max_lub_lt.
  - destruct (decide (a = 0)) as [->|]; [cbn; lia|]. apply Z.log2_lt_pow2; lia.
  - destruct (decide (b = 0)) as [->|]; [cbn; lia|]. apply Z.log2_lt_pow2; lia.
Qed.

Lemma land_word a b : word_ok a → word_ok b → word_ok (Z.land a b).
Proof using.
  unfold word_ok. intros [Ha1 Ha2] [Hb1 Hb2]. assert (0 ≤ Z.land a b) as H0 by (apply Z.land_nonneg; by left).
  split; [done|]. destruct (decide (Z.land a b = 0)) as [->|]; [lia|]. change 4294967296 with (2 ^ 32).
  apply Z.log2_lt_pow2; [lia|]. pose proof (Z.log2_land a b Ha1 Hb1) as Hl2.
  destruct (decide (a = 0)) as [->|]; [by rewrite Z.land_0_l in *|].
  assert (Z.log2 a < 32) by (apply Z.log2_lt_pow2; lia). lia.
Qed.

Lemma set_frame_words : Forall word_ok (set_frame (u32 (k * 0x1000)) fs).
Proof using Hk Hw.
  unfold set_frame. rewrite frame_of_addr. unfold INDEX_FROM_BIT, OFFSET_FROM_BIT. change (8 * 4) with 32.
  apply Forall_insert; [done|]. apply lor_word; [apply word_at|]. unfold bit. apply u32_range.
Qed.

Lemma clear_frame_words : Forall word_ok (clear_frame (u32 (k * 0x1000)) fs).
Proof using Hk Hw.
  unfold clear_frame. rewrite frame_of_addr. unfold INDEX_FROM_BIT, OFFSET_FROM_BIT. change (8 * 4) with 32.
  apply Forall_insert; [done|]. apply land_word; [apply word_at|apply u32_range].
Qed.
End bits.

Lemma length_set_frame a fs : length (set_frame a fs) = length fs.
Proof. apply length_bset. Qed.

Lemma length_clear_frame a fs : length (clear_frame a fs) = length fs.
Proof. apply length_bset. Qed.

(** ** First fit *)

Lemma first_bit_spec n w j :
  0 ≤ j → j + Z.of_nat n ≤ 32 →
  match first_bit n w j with
  | Some b => j ≤ b < j + Z.of_nat n ∧ Z.testbit w b = false ∧ ∀ c, j ≤ c < b → Z.testbit w c = true
  | None => ∀ c, j ≤ c < j + Z.of_nat n → Z.testbit w c = true
  end.
Proof.
  revert j. induction n as [|n IH]; intros j Hj Hn; cbn [first_bit]; [intros; lia|].
  rewrite land_bit by lia. destruct (Z.testbit w j) eqn:E; cbn [negb].
  - specialize (IH (j + 1) ltac:(lia) ltac:(lia)). destruct (first_bit n w (j + 1)) as [b|].
    + destruct IH as (H1 & H2 & H3). split_and!; [lia|lia|done|].
      intros c Hc. destruct (decide (c = j)) as [->|]; [done|apply H3; lia].
    + intros c Hc. destruct (decide (c = j)) as [->|]; [done|apply IH; lia].
  - split_and!; [lia|lia|done|intros; lia].
Qed.

Lemma testbit_full c : 0 ≤ c < 32 → Z.testbit 0xFFFFFFFF c = true.
Proof. intros. change 0xFFFFFFFF with (Z.ones 32). by apply Z.ones_spec_low. Qed.

Lemma first_word_spec n fs i :
  0 ≤ i → i + Z.of_nat n ≤ 32768 →
  let r := first_word n fs i in
  (r = 0xFFFFFFFF ∧ ∀ k, 32 * i ≤ k < 32 * (i + Z.of_nat n) → used fs k = true) ∨
  (32 * i ≤ r < 32 * (i + Z.of_nat n) ∧ used fs r = false ∧ ∀ k, 32 * i ≤ k < r → used fs k = true).
Proof.
  revert i. induction n as [|n IH]; intros i Hi Hn; cbn [first_word]; [left; split; [done|intros; lia]|].
  specialize (IH (i + 1) ltac:(lia) ltac:(lia)). cbv zeta in IH |- *.
  assert ((∀ c, 0 ≤ c < 32 → Z.testbit (bget fs i) c = true) →
    (first_word n fs (i + 1) = 0xFFFFFFFF ∧ ∀ k, 32 * i ≤ k < 32 * (i + Z.of_nat (S n)) → used fs k = true) ∨
    (32 * i ≤ first_word n fs (i + 1) < 32 * (i + Z.of_nat (S n)) ∧ used fs (first_word n fs (i + 1)) = false ∧
     ∀ k, 32 * i ≤ k < first_word n fs (i + 1) → used fs k = true)) as Hfull.
  { intros Hall. assert (∀ k, 32 * i ≤ k < 32 * (i + 1) → used fs k = true) as Hw.
    { intros k Hk. unfold used. replace (k / 32) with i by zdm. apply Hall. apply Z.mod_pos_bound. lia. }
    destruct IH as [[E Hk]|(H1 & H2 & H3)]; [left|right].
    - split; [done|]. intros k Hr. destruct (decide (k < 32 * (i + 1))); [apply Hw; lia|apply Hk; lia].
    - split_and!; [lia|lia|done|]. intros k Hr. destruct (decide (k < 32 * (i + 1))); [apply Hw; lia|apply H3; lia]. }
  destruct (Z.eqb_spec (bget fs i) 0xFFFFFFFF) as [E|]; cbn [negb].
  { apply Hfull. intros c Hc. rewrite E. by apply testbit_full. }
  pose proof (first_bit_spec 32 (bget fs i) 0 ltac:(lia) ltac:(lia)) as Hb.
  destruct (first_bit 32 (bget fs i) 0) as [j|]; [|apply Hfull; intros c Hc; apply Hb; lia].
  right. destruct Hb as (H1 & H2 & H3). rewrite u32_small by lia.
  assert (∀ x, 0 ≤ x < 32 → used fs (32 * i + x) = Z.testbit (bget fs i) x) as Hu.
  { intros x Hx. unfold used. replace ((32 * i + x) / 32) with i by zdm. f_equal. zdm. }
  replace (i * 4 * 8 + j) with (32 * i + j) by lia. split_and!; [lia|lia| |].
  - rewrite Hu by lia. done.
  - intros k Hk. replace k with (32 * i + (k - 32 * i)) by lia. rewrite Hu by lia. apply H3. lia.
Qed.

(** first_frame returns the lowest free frame, or -1 exactly when none of
    the frames the bitset covers is free. *)
Lemma first_frame_spec s :
  frames_ok s →
  (first_frame s = 0xFFFFFFFF ∧ ∀ k, 0 ≤ k < limit s → used (frames s) k = true) ∨
  (0 ≤ first_frame s < limit s ∧ used (frames s) (first_frame s) = false ∧
   ∀ k, 0 ≤ k < first_frame s → used (frames s) k = true).
Proof.
  intros [Hw Hl Hm]. unfold first_frame, limit, INDEX_FROM_BIT. change (8 * 4) with 32.
  pose proof (first_word_spec (Z.to_nat (nframes s / 32)) (frames s) 0 ltac:(lia)) as H. cbv zeta in H.
  rewrite Z2Nat.id in H by zdm. specialize (H ltac:(zdm)). by rewrite Z.mul_0_r, Z.add_0_l in H.
Qed.

(** ** Counting free frames *)

Definition free_frames (s : vm) : list Z := filter (λ k, used (frames s) k = false) (seqZ 0 (limit s)).
Definition nfree (s : vm) : nat := length (free_frames s).

Lemma filter_iff_in (P Q : Z → Prop) `{!∀ x, Decision (P x), !∀ x, Decision (Q x)} (l : list Z) :
  (∀ x, x ∈ l → P x ↔ Q x) → filter P l = filter Q l.
Proof.
  induction l as [|x l IH]; intros Hpq; [done|]. specialize (IH ltac:(intros; apply Hpq; set_solver)).
  assert (P x ↔ Q x) as Hx by (apply Hpq; set_solver). destruct (decide (P x)).
  - rewrite !filter_cons_True by tauto. by rewrite IH.
  - rewrite !filter_cons_False by tauto. done.
Qed.

Lemma filter_remove (P Q : Z → Prop) `{!∀ x, Decision (P x), !∀ x, Decision (Q x)} (l : list Z) k :
  NoDup l → k ∈ l → P k → (∀ x, x ∈ l → Q x ↔ P x ∧ x ≠ k) → length (filter P l) = S (length (filter Q l)).
Proof.
  intros Hnd Hk Hp Hq. induction l as [|x l IH]; [by apply elem_of_nil in Hk|].
  apply NoDup_cons in Hnd as [Hx Hnd]. destruct (decide (x = k)) as [->|Hne].
  - rewrite filter_cons_True by done. assert (¬ Q k) as Hnq by (rewrite Hq by set_solver; tauto).
    rewrite filter_cons_False by done. simpl. f_equal. f_equal. apply filter_iff_in.
    intros y Hy. rewrite Hq by set_solver. split; [intros ?; split; [done|]; by intros ->|tauto].
  - apply elem_of_cons in Hk as [?|Hk]; [done|]. specialize (IH Hnd Hk ltac:(intros; apply Hq; set_solver)).
    destruct (decide (P x)).
    + rewrite !filter_cons_True; [simpl; by rewrite IH|apply Hq; set_solver|done].
    + rewrite !filter_cons_False; [done| |done]. rewrite Hq by set_solver. tauto.
Qed.

Lemma nfree_set s k :
  frames_ok s → 0 ≤ k < limit s → used (frames s) k = false →
  let s' := set_frames (set_frame (u32 (k * 0x1000)) (frames s)) s in
  frames_ok s' ∧ nfree s = S (nfree s') ∧ ∀ j, 0 ≤ j → used (frames s') j = (j =? k) || used (frames s) j.
Proof.
  intros [Hw Hl Hm] Hk Hu. cbv zeta. unfold limit in Hk.
  assert (∀ j, 0 ≤ j → used (set_frame (u32 (k * 0x1000)) (frames s)) j = (j =? k) || used (frames s) j) as Hset.
  { intros j Hj. apply set_frame_used; [zdm|rewrite Hl; zdm|done]. }
  split_and!; [|unfold nfree, free_frames, limit; cbn|done].
  - constructor; cbn; [apply set_frame_words; [zdm|done]|unfold zlength in *; by rewrite length_set_frame|done].
  - apply (filter_remove _ _ _ k); [apply NoDup_seqZ|apply elem_of_seqZ; lia|done|].
    intros x Hx%elem_of_seqZ. rewrite Hset by lia. destruct (Z.eqb_spec x k) as [->|Hne]; cbn; [split; [done|tauto]|tauto].
Qed.

(** The page entry [p] of the store. *)
Definition entry (s : vm) (p : Z * Z) : option page := (λ tab, page_at tab p.2) <$> tabs s !! p.1.

Definition valid_ptr (s : vm) (p : Z * Z) : Prop := ∃ tab, tabs s !! p.1 = Some tab ∧ 0 ≤ p.2 < zlength tab.

Lemma load_spec s p pg : entry s p = Some pg → load p s = Some (pg, s).
Proof.
  unfold entry, load, deref, mbind, K_bind, mret, K_ret. destruct (tabs s !! p.1); [|done]. by intros [= <-].
Qed.

Lemma entry_valid s p : valid_ptr s p → is_Some (entry s p).
Proof. intros (tab & E & _). unfold entry. by rewrite E. Qed.

Lemma page_at_insert tab i j pg :
  0 ≤ i < zlength tab → 0 ≤ j → page_at (<[Z.to_nat i := pg]> tab) j = if decide (i = j) then pg else page_at tab j.
Proof.
  intros Hi Hj. unfold page_at, zlength in *. case_decide as E.
  - subst. by rewrite list_lookup_insert_eq by lia.
  - by rewrite list_lookup_insert_ne by lia.
Qed.

(** Storing an entry changes that entry only. *)
Lemma store_spec s p pg :
  valid_ptr s p →
  ∃ t, store p pg s = Some (tt, set_tabs t s) ∧
    (∀ q, 0 ≤ q.2 → entry (set_tabs t s) q = if decide (q = p) then Some pg else entry s q) ∧
    (∀ x, x ≠ p.1 → t !! x = tabs s !! x) ∧ dom t = dom (tabs s) ∧
    (∀ x tab, tabs s !! x = Some tab → ∃ tab', t !! x = Some tab' ∧ length tab' = length tab).
Proof.
  intros (tab & E & Hj). destruct p as [a j]. cbn [fst snd] in *.
  exists (<[a := <[Z.to_nat j := pg]> tab]> (tabs s)). split_and!.
  - unfold store, deref, upd, mbind, K_bind. cbn [fst snd]. by rewrite E.
  - intros [b k] Hk. cbn in Hk. unfold entry. cbn [fst snd tabs set_tabs].
    destruct (decide (b = a)) as [->|Hb].
    + rewrite lookup_insert_eq, E. cbn. rewrite page_at_insert by done. destruct (decide (j = k)) as [->|Hjk].
      * by rewrite decide_True.
      * rewrite decide_False by congruence. done.
    + rewrite lookup_insert_ne by done. by rewrite decide_False by congruence.
  - intros x Hx. by rewrite lookup_insert_ne.
  - rewrite dom_insert_L. assert (a ∈ dom (tabs s)) by (by apply elem_of_dom_2 in E). set_solver.
  - intros x tab' Ex. destruct (decide (x = a)) as [->|]; [|rewrite lookup_insert_ne by done; eauto].
    rewrite lookup_insert_eq. eexists. split; [done|]. rewrite length_insert. congruence.
Qed.

(** The entry of page number [pn] in an address space; [zero_page] where
    there is no table. *)
Definition pm (s : vm) (d : page_directory) (pn : Z) : page :=
  if dir_table d (pn / 1024) =? 0 then zero_page
  else default zero_page (entry s (dir_table d (pn / 1024), pn mod 1024)).

End PagingFrames.
