(* ===== verification/PagingClone.v ===== *)
(** * Copying and freeing address spaces

    clone_table gives the copy fresh frames with the same contents;
    free_directory gives back exactly the frames an address space owns. *)

From S2P Require Import Prelude Bytes Paging.

Module PagingClone.
Import Paging PagingFrames.

(** ** One page *)

(** What changes when frames are handed out: the bitset, some tables, the
    contents of frames that were free. *)
Record evolves (s s' : vm) : Prop := {
  ev_ok : frames_ok s';
  ev_n : nframes s' = nframes s;
  ev_dirs : dirs s' = dirs s;
  ev_kernel : kernel_directory s' = kernel_directory s;
  ev_current : current_directory s' = current_directory s;
  ev_pool : pool s' = pool s;
  ev_used k : 0 ≤ k → used (frames s) k = true → used (frames s') k = true;
  ev_ram k : 0 ≤ k → used (frames s) k = true → ram s' !! k = ram s !! k;
}.

Lemma frames_ok_same s s' : frames s' = frames s → nframes s' = nframes s → frames_ok s → frames_ok s'.
Proof. intros E1 E2 []. constructor; congruence. Qed.

Lemma evolves_refl s : frames_ok s → evolves s s.
Proof. by constructor. Qed.

Lemma evolves_trans s1 s2 s3 : evolves s1 s2 → evolves s2 s3 → evolves s1 s3.
Proof.
  intros [] []. constructor; try congruence; [auto|].
  intros k Hk Hu. rewrite ev_ram1 by auto. auto.
Qed.

Lemma alloc_frame_spec s p pg ik iw :
  frames_ok s → valid_ptr s p → entry s p = Some pg → frame pg = 0 → (0 < nfree s)%nat →
  ∃ k s', alloc_frame p ik iw s = Some (tt, s') ∧ evolves s s' ∧ nfree s = S (nfree s') ∧
    0 ≤ k < limit s ∧ used (frames s) k = false ∧ (∀ j, 0 ≤ j < k → used (frames s) j = true) ∧
    (∀ j, 0 ≤ j → used (frames s') j = (j =? k) || used (frames s) j) ∧ ram s' = ram s ∧
    (∀ q, 0 ≤ q.2 → entry s' q = if decide (q = p)
       then Some (mk_page true iw (negb ik) (accessed pg) (dirty pg) k) else entry s q) ∧
    (∀ x, x ≠ p.1 → tabs s' !! x = tabs s !! x) ∧
    (∀ x tab, tabs s !! x = Some tab → ∃ tab', tabs s' !! x = Some tab' ∧ length tab' = length tab).
Proof.
  intros Hok Hv He Hf Hn. unfold alloc_frame. unfold mbind at 1, K_bind at 1. rewrite (load_spec s p pg He).
  rewrite Hf. cbn [Z.eqb negb]. unfold get at 1, mbind at 1, K_bind at 1.
  destruct (first_frame_spec s Hok) as [[_ Hall]|(Hr & Hfree & Hlow)].
  { exfalso. unfold nfree, free_frames in Hn. destruct (filter _ _) as [|x l] eqn:E; [simpl in Hn; lia|].
    assert (x ∈ x :: l) as Hx by (by left). rewrite <- E in Hx.
    apply list_elem_of_filter in Hx as [Hx Hs%elem_of_seqZ]. rewrite Hall in Hx by lia. done. }
  set (k := first_frame s) in *. destruct Hok as [Hw Hl Hm]. unfold limit in Hr.
  destruct (Z.eqb_spec k 0xFFFFFFFF); [exfalso; zdm|].
  unfold upd at 1, mbind at 1, K_bind at 1. destruct (nfree_set s k) as (S1 & S2 & S3);
    [by constructor|unfold limit; lia|done|]. cbv zeta in S1, S2, S3. set (s1 := set_frames _ s) in *.
  destruct (store_spec s1 p (mk_page true iw (negb ik) (accessed pg) (dirty pg) k)) as (t & E & Hent & Htabs & _ & Hlen).
  { exact Hv. }
  exists k, (set_tabs t s1). split_and!; try done; try (unfold limit; lia).
  constructor; try done; [by apply (frames_ok_same s1)|]. intros j Hj Hu. cbn. rewrite S3 by done. by rewrite Hu, orb_true_r.
Qed.

(** ** clone_table *)

(** Pages of [st] from [i] on that are mapped. *)
Fixpoint need (n : nat) (st : list page) (i : Z) : nat :=
  match n with
  | O => O
  | S n' => (if frame (page_at st i) =? 0 then 0 else 1) + need n' st (i + 1)
  end.

(** The copy [p'] of page [p]: a frame that was free, with the contents and
    the attributes of the original; user mode may always access it. *)
Definition cloned (s s' : vm) (p p' : page) : Prop :=
  if frame p =? 0 then p' = zero_page
  else 0 < frame p' < limit s ∧ used (frames s) (frame p') = false ∧ used (frames s') (frame p') = true ∧
       ram s' !! frame p' = Some (default [] (ram s !! frame p)) ∧
       present p' = true ∧ rw p' = rw p ∧ user p' = true ∧ accessed p' = accessed p ∧ dirty p' = dirty p.

(** Source and destination of a copy in progress at page [i]. *)
Record cloning (s : vm) (src dst : Z) (st : list page) (i : Z) : Prop := {
  cg_ok : frames_ok s;
  cg_zero : used (frames s) 0 = true;
  cg_ne : src ≠ dst;
  cg_src : tabs s !! src = Some st;
  cg_dst : ∃ dt, tabs s !! dst = Some dt ∧ length dt = 1024%nat ∧ ∀ j, i ≤ j < 1024 → page_at dt j = zero_page;
  cg_owned j : 0 ≤ j < 1024 → frame (page_at st j) ≠ 0 → 0 ≤ frame (page_at st j) ∧ used (frames s) (frame (page_at st j)) = true;
}.

(** One round of the loop on a mapped page. *)
Lemma clone_page_spec s src dst st i :
  cloning s src dst st i → 0 ≤ i < 1024 → frame (page_at st i) ≠ 0 → (0 < nfree s)%nat →
  let body :=
    _ ← alloc_frame (dst, i) false false;
    pg ← load (dst, i);
    _ ← store (dst, i)
          (mk_page (present pg || present (page_at st i)) (rw pg || rw (page_at st i)) (user pg || user (page_at st i))
             (accessed pg || accessed (page_at st i)) (dirty pg || dirty (page_at st i)) (frame pg));
    copy_page (frame (page_at st i)) (frame pg) in
  ∃ s' k, body s = Some (tt, s') ∧ evolves s s' ∧ nfree s = S (nfree s') ∧ cloning s' src dst st (i + 1) ∧
    (∀ t, t ≠ dst → tabs s' !! t = tabs s !! t) ∧
    (∀ j, 0 ≤ j → used (frames s') j = (j =? k) || used (frames s) j) ∧
    (∀ j, 0 ≤ j → j ≠ i → entry s' (dst, j) = entry s (dst, j)) ∧
    ∃ pg', entry s' (dst, i) = Some pg' ∧ frame pg' = k ∧ cloned s s' (page_at st i) pg'.
Proof.
  intros [Hok H0 Hne Hsrc (dt & Hdt & Hlen & Hz) Hown] Hi Hf Hn body.
  assert (valid_ptr s (dst, i)) as Hv by (exists dt; split; [done|unfold zlength; cbn; lia]).
  assert (entry s (dst, i) = Some zero_page) as He by (unfold entry; cbn; rewrite Hdt; cbn; by rewrite Hz by lia).
  destruct (alloc_frame_spec s (dst, i) zero_page false false Hok Hv He eq_refl Hn)
    as (k & s1 & E1 & Hev & Hnf & Hk & Hfree & _ & Hset & Hram & Hent & Htab & Hlens).
  assert (k ≠ 0) as Hk0 by (intros E; rewrite E in Hfree; congruence).
  pose proof (Hent (dst, i) ltac:(cbn; lia)) as He1. rewrite decide_True in He1 by done.
  destruct (Hlens dst dt Hdt) as (dt1 & Hdt1 & Hl1).
  destruct (store_spec s1 (dst, i) (mk_page true (rw (page_at st i)) true (accessed (page_at st i)) (dirty (page_at st i)) k))
    as (t & E2 & Hent2 & Htab2 & _ & Hlen2); [exists dt1; split; [done|unfold zlength; cbn; lia]|].
  set (s2 := set_tabs t s1) in *. set (s3 := set_ram (<[k := default [] (ram s2 !! frame (page_at st i))]> (ram s2)) s2).
  assert (∀ j, 0 ≤ j → used (frames s3) j = (j =? k) || used (frames s) j) as Hu3 by exact Hset.
  assert (evolves s s3) as Hev3.
  { destruct Hev. constructor; try done; [by apply (frames_ok_same s1)|].
    intros j Hj Hu. unfold s3. cbn. destruct (decide (j = k)) as [->|]; [congruence|].
    rewrite lookup_insert_ne by done. by rewrite Hram. }
  assert (∀ x, x ≠ dst → tabs s3 !! x = tabs s !! x) as Ht3 by (intros x Hx; unfold s3, s2; cbn; rewrite Htab2, Htab by done; done).
  assert (∀ j, 0 ≤ j → j ≠ i → entry s3 (dst, j) = entry s (dst, j)) as Hent3.
  { intros j Hj Hji. change (entry s3 (dst, j)) with (entry s2 (dst, j)). rewrite Hent2 by (cbn; lia).
    rewrite decide_False by congruence. rewrite Hent by (cbn; lia). by rewrite decide_False by congruence. }
  exists s3, k. split_and!; try done.
  - unfold body. unfold mbind at 1, K_bind at 1. rewrite E1. unfold mbind at 1, K_bind at 1. rewrite (load_spec _ _ _ He1).
    cbn [present rw user accessed dirty frame orb]. unfold mbind at 1, K_bind at 1.
    cbn [zero_page accessed dirty orb negb]. rewrite E2. done.
  - constructor; [apply Hev3| |done| | |].
    + rewrite Hu3 by lia. by rewrite H0, orb_true_r.
    + by rewrite Ht3.
    + destruct (Hlen2 dst dt1 Hdt1) as (dt2 & Hdt2 & Hl2). exists dt2. split_and!; [done|lia|].
      intros j Hj. specialize (Hent3 j ltac:(lia) ltac:(lia)). unfold entry in Hent3. cbn in Hent3.
      rewrite Hdt2, Hdt in Hent3. cbn in Hent3. injection Hent3 as ->. apply Hz. lia.
    + intros j Hj Hfj. destruct (Hown j Hj Hfj) as [Hp Hu]. split; [done|]. rewrite Hu3 by done. by rewrite Hu, orb_true_r.
  - eexists. split_and!.
    + change (entry s3 (dst, i)) with (entry s2 (dst, i)). rewrite Hent2 by (cbn; lia). by rewrite decide_True.
    + done.
    + unfold cloned. destruct (Z.eqb_spec (frame (page_at st i)) 0); [done|]. cbn [frame present rw user accessed dirty].
      split_and!; try done; try lia.
      * rewrite Hu3 by lia. by rewrite Z.eqb_refl.
      * unfold s3. cbn. by rewrite lookup_insert_eq, Hram.
Qed.

(** A copy made before more frames were handed out is still one. *)
Lemma cloned_later s s1 s' p p' : cloned s s1 p p' → evolves s1 s' → cloned s s' p p'.
Proof.
  unfold cloned. intros H Hev. destruct (frame p =? 0); [done|]. destruct H as (H1 & H2 & H3 & H4 & H5).
  split_and!; try tauto; try lia; [apply (ev_used _ _ Hev); [lia|done]|]. by rewrite (ev_ram _ _ Hev) by (lia || done).
Qed.

(** A copy made after other frames were handed out is one from the start. *)
Lemma cloned_earlier s s1 s' p p' :
  cloned s1 s' p p' → evolves s s1 → (frame p ≠ 0 → 0 ≤ frame p ∧ used (frames s) (frame p) = true) → cloned s s' p p'.
Proof.
  unfold cloned. intros H Hev Hp. destruct (Z.eqb_spec (frame p) 0) as [|Hne]; [done|].
  destruct H as (H1 & H2 & H3 & H4 & H5). destruct (Hp Hne) as [Hp0 Hpu]. unfold limit in *. rewrite (ev_n _ _ Hev) in H1.
  split_and!; try tauto; try lia.
  - destruct (used (frames s) (frame p')) eqn:E; [|done]. rewrite (ev_used _ _ Hev) in H2 by (lia || done). done.
  - by rewrite (ev_ram _ _ Hev) in H4 by done.
Qed.

(** The result of copying pages [i] to 1023. *)
Record copied (s s' : vm) (dst : Z) (st : list page) (i : Z) : Prop := {
  cp_ev : evolves s s';
  cp_tabs t : t ≠ dst → tabs s' !! t = tabs s !! t;
  cp_before j : 0 ≤ j < i → entry s' (dst, j) = entry s (dst, j);
  cp_pages j : i ≤ j < 1024 → ∃ pg, entry s' (dst, j) = Some pg ∧ cloned s s' (page_at st j) pg;
  cp_distinct j j' pg pg' : i ≤ j < j' → j' < 1024 → entry s' (dst, j) = Some pg → entry s' (dst, j') = Some pg' →
    frame pg = frame pg' → frame pg = 0;
  cp_used k : 0 ≤ k → used (frames s') k = true →
    used (frames s) k = true ∨ ∃ j pg, i ≤ j < 1024 ∧ entry s' (dst, j) = Some pg ∧ frame pg = k;
}.

Lemma cloned_frame s s' p p' : cloned s s' p p' → frame p' ≠ 0 → used (frames s) (frame p') = false ∧ 0 < frame p'.
Proof. unfold cloned. destruct (frame p =? 0); [by intros -> |]. intros (? & ? & _) _. split; [done|lia]. Qed.

Lemma clone_pages_spec n i s src dst st :
  cloning s src dst st i → 0 ≤ i → i + Z.of_nat n = 1024 → (need n st i ≤ nfree s)%nat →
  ∃ s', clone_pages n src dst i s = Some (tt, s') ∧ copied s s' dst st i ∧ nfree s = (nfree s' + need n st i)%nat.
Proof.
  revert i s. induction n as [|n IH]; intros i s Hc Hi Hin Hn; cbn [clone_pages need] in *.
  { exists s. split_and!; [done| |lia]. constructor; try done; try (intros; lia); [apply evolves_refl, Hc|auto]. }
  assert (entry s (src, i) = Some (page_at st i)) as He by (unfold entry; cbn; by rewrite (cg_src _ _ _ _ _ Hc)).
  unfold mbind at 1, K_bind at 1. rewrite (load_spec s (src, i) _ He).
  destruct (Z.eqb_spec (frame (page_at st i)) 0) as [Hz|Hnz].
  - unfold mbind at 1, K_bind at 1, mret, K_ret.
    assert (cloning s src dst st (i + 1)) as Hc1.
    { destruct Hc as [? ? ? ? (dt & ? & ? & Hd) ?]. constructor; try done. exists dt. split_and!; try done. intros; apply Hd; lia. }
    destruct (IH (i + 1) s Hc1 ltac:(lia) ltac:(lia) ltac:(lia)) as (s' & E & [C1 C2 C3 C4 C5 C6] & Hnf).
    exists s'. split_and!; [done| |lia].
    assert (entry s' (dst, i) = Some zero_page) as Hei.
    { rewrite C3 by lia. destruct (cg_dst _ _ _ _ _ Hc) as (dt & Hd & _ & Hdz). unfold entry. cbn. rewrite Hd. cbn. by rewrite Hdz by lia. }
    constructor; try done.
    + intros j Hj. apply C3. lia.
    + intros j Hj. destruct (decide (j = i)) as [->|]; [|apply C4; lia]. exists zero_page. split; [done|].
      unfold cloned. by rewrite Hz.
    + intros j j' pg pg' Hj Hj' E1 E2 Ef. destruct (decide (j = i)) as [->|]; [|by eapply (C5 j j'); try done; lia].
      rewrite Hei in E1. by injection E1 as <-.
    + intros k Hk Hu. destruct (C6 k Hk Hu) as [?|(j & pg & Hj & ?)]; [by left|right]. exists j, pg. split; [lia|done].
  - destruct (clone_page_spec s src dst st i Hc ltac:(lia) Hnz ltac:(lia))
      as (s1 & k & E1 & Hev1 & Hn1 & Hc1 & Ht1 & Hu1 & Hb1 & pg1 & Hpg1 & Hk1 & Hcl1).
    destruct (IH (i + 1) s1 Hc1 ltac:(lia) ltac:(lia) ltac:(lia)) as (s' & E & [C1 C2 C3 C4 C5 C6] & Hnf).
    exists s'. split_and!; [|constructor|lia].
    + unfold mbind at 1, K_bind at 1. cbv zeta in E1. rewrite E1. exact E.
    + by eapply evolves_trans.
    + intros t Ht. by rewrite C2, Ht1.
    + intros j Hj. rewrite C3, Hb1 by lia. done.
    + intros j Hj. destruct (decide (j = i)) as [->|].
      * exists pg1. rewrite C3 by lia. split; [done|]. by eapply cloned_later.
      * destruct (C4 j ltac:(lia)) as (pg & Hpg & Hcl). exists pg. split; [done|]. eapply cloned_earlier; [done|done|].
        intros Hf. by apply (cg_owned _ _ _ _ _ Hc); [lia|].
    + intros j j' pg pg' Hj Hj' E3 E4 Ef. destruct (decide (j = i)) as [->|]; [|by eapply (C5 j j'); try done; lia].
      rewrite C3, Hpg1 in E3 by lia. injection E3 as <-. destruct (C4 j' ltac:(lia)) as (pg2 & Hpg2 & Hcl2).
      assert (pg2 = pg') as -> by congruence. destruct (decide (frame pg' = 0)); [congruence|].
      destruct (cloned_frame _ _ _ _ Hcl2 ltac:(done)) as [Hfr _]. rewrite <- Ef, Hk1 in Hfr.
      rewrite Hu1 in Hfr by (destruct (cloned_frame _ _ _ _ Hcl1 ltac:(congruence)); lia). by rewrite Z.eqb_refl in Hfr.
    + intros j Hj Hu. destruct (C6 j Hj Hu) as [Hu'|(x & pg & Hx & ?)].
      * rewrite Hu1 in Hu' by done. destruct (Z.eqb_spec j k) as [->|]; [|by left]. right. exists i, pg1.
        split_and!; [lia|lia| |done]. by rewrite C3 by lia.
      * right. exists x, pg. split; [lia|done].
Qed.

Lemma page_at_zeros j : page_at (replicate 1024 zero_page) j = zero_page.
Proof.
  unfold page_at. destruct (replicate 1024 zero_page !! Z.to_nat j) as [p|] eqn:E; [|done].
  by apply lookup_replicate in E as [-> _].
Qed.

(** With enough free frames clone_table succeeds, and the copy is isolated
    from the original and from everything else: each mapped page gets its own
    frame that was free before, holding the same bytes, with the same
    attributes but accessible to user mode; no existing table and no frame
    in use changes, and exactly the copy's frames become used. *)
Theorem clone_table_isolated s src st a l :
  frames_ok s → used (frames s) 0 = true → tabs s !! src = Some st →
  pool s = a :: l → tabs s !! a.1 = None → (need 1024 st 0 ≤ nfree s)%nat →
  (∀ j, 0 ≤ j < 1024 → frame (page_at st j) ≠ 0 →
     0 ≤ frame (page_at st j) ∧ used (frames s) (frame (page_at st j)) = true) →
  ∃ s', clone_table src s = Some (a, s') ∧ pool s' = l ∧ nfree s = (nfree s' + need 1024 st 0)%nat ∧
    (∀ t, t ≠ a.1 → tabs s' !! t = tabs s !! t) ∧ (∀ k, 0 ≤ k → used (frames s) k = true → ram s' !! k = ram s !! k) ∧
    (∀ j, 0 ≤ j < 1024 → ∃ pg, entry s' (a.1, j) = Some pg ∧ cloned s s' (page_at st j) pg) ∧
    (∀ j j' pg pg', 0 ≤ j < j' → j' < 1024 → entry s' (a.1, j) = Some pg → entry s' (a.1, j') = Some pg' →
       frame pg = frame pg' → frame pg = 0) ∧
    (∀ k, 0 ≤ k → used (frames s') k = true ↔
       used (frames s) k = true ∨ ∃ j pg, 0 ≤ j < 1024 ∧ entry s' (a.1, j) = Some pg ∧ frame pg = k).
Proof.
  intros Hok H0 Hsrc Hpool Hfresh Hn Hown. unfold clone_table, kmalloc_ap. unfold mbind at 1, K_bind at 1. rewrite Hpool.
  unfold mbind at 1, K_bind at 1, upd at 1.
  set (s0 := set_tabs (<[a.1 := replicate 1024 zero_page]> (tabs (set_pool l s))) (set_pool l s)).
  assert (a.1 ≠ src) as Hne by (intros E; rewrite E in Hfresh; congruence).
  assert (cloning s0 src a.1 st 0) as Hc.
  { constructor; try done; [by apply (frames_ok_same s)| |].
    - unfold s0. cbn. by rewrite lookup_insert_ne.
    - exists (replicate 1024 zero_page). unfold s0. cbn. rewrite lookup_insert_eq. split_and!; [done|done|].
      intros; apply page_at_zeros. }
  destruct (clone_pages_spec 1024 0 s0 src a.1 st Hc ltac:(lia) ltac:(done) Hn) as (s' & E & [C1 C2 C3 C4 C5 C6] & Hnf).
  exists s'. split_and!; try done.
  - unfold mbind at 1, K_bind at 1. by rewrite E.
  - by rewrite (ev_pool _ _ C1).
  - intros t Ht. rewrite C2 by done. unfold s0. cbn. by rewrite lookup_insert_ne.
  - intros k Hk Hu. by rewrite (ev_ram _ _ C1).
  - intros k Hk. split; [by apply C6|]. intros [Hu|(j & pg & Hj & Hpg & Hf)]; [by apply (ev_used _ _ C1)|].
    destruct (C4 j Hj) as (pg2 & Hpg2 & Hcl). assert (pg2 = pg) as -> by congruence. unfold cloned in Hcl.
    destruct (frame (page_at st j) =? 0); [|subst k; tauto]. subst pg. cbn in Hf. subst k.
    apply (ev_used _ _ C1); done.
Qed.

(** ** free_directory *)

(** Some page of table [t] from index [i] on maps frame [k]. *)
Definition maps (s : vm) (t i k : Z) : Prop := ∃ j pg, i ≤ j < 1024 ∧ entry s (t, j) = Some pg ∧ frame pg = k.

Record table_ok (s : vm) (t : Z) : Prop := {
  to_tab : ∃ tab, tabs s !! t = Some tab ∧ length tab = 1024%nat;
  to_frames j pg : 0 ≤ j < 1024 → entry s (t, j) = Some pg →
    frame pg = 0 ∨ 0 ≤ frame pg < limit s ∨ nframes s ≤ frame pg < 1048576;
}.

(** What freeing changes. *)
Record freed (s s' : vm) (P : Z → Prop) : Prop := {
  fr_ok : frames_ok s';
  fr_n : nframes s' = nframes s;
  fr_dirs : dirs s' = dirs s;
  fr_kernel : kernel_directory s' = kernel_directory s;
  fr_ram : ram s' = ram s;
  fr_used k : 0 ≤ k < limit s → used (frames s') k = true ↔ used (frames s) k = true ∧ ¬ P k;
}.

Lemma free_frame_spec s p pg :
  frames_ok s → valid_ptr s p → entry s p = Some pg → frame pg ≠ 0 →
  0 ≤ frame pg < limit s ∨ nframes s ≤ frame pg < 1048576 →
  ∃ s', free_frame p s = Some (tt, s') ∧ freed s s' (λ k, k = frame pg) ∧
    (∀ q, 0 ≤ q.2 → entry s' q = if decide (q = p)
       then Some (mk_page false (rw pg) (user pg) (accessed pg) (dirty pg) 0) else entry s q) ∧
    (∀ x, x ≠ p.1 → tabs s' !! x = tabs s !! x) ∧
    (∀ x tab, tabs s !! x = Some tab → ∃ tab', tabs s' !! x = Some tab' ∧ length tab' = length tab).
Proof.
  intros Hok Hv He Hf Hr. pose proof Hok as [Hw Hl Hm]. unfold free_frame. unfold mbind at 1, K_bind at 1.
  rewrite (load_spec s p pg He). destruct (Z.eqb_spec (frame pg) 0); [done|]. unfold mbind at 1, K_bind at 1, get.
  set (s1 := if frame pg <? nframes s then set_frames (clear_frame (u32 (frame pg * 0x1000)) (frames s)) s else s).
  assert (freed s s1 (λ k, k = frame pg) ∧ tabs s1 = tabs s) as [Hfr Htabs].
  { unfold s1, limit in *. destruct (Z.ltb_spec (frame pg) (nframes s)) as [Hlt|Hge].
    - assert (frame pg / 32 < zlength (frames s)) by (rewrite Hl; zdm). split; [|done]. constructor; try done.
      + constructor; cbn; [by apply clear_frame_words; [zdm|]|unfold zlength in *; by rewrite length_clear_frame|done].
      + intros k Hk. cbn. rewrite clear_frame_used by (zdm || done). destruct (Z.eqb_spec k (frame pg)) as [->|]; cbn; [split; [done|tauto]|tauto].
    - split; [|done]. constructor; try done. intros k Hk. unfold limit in Hk. split; [|tauto]. intros Hu. split; [done|]. zdm. }
  assert ((if frame pg <? nframes s then upd (λ s, set_frames (clear_frame (u32 (frame pg * 0x1000)) (frames s)) s) else mret tt) s
          = Some (tt, s1)) as E1 by (unfold s1; by destruct (frame pg <? nframes s)).
  unfold mbind at 1, K_bind at 1. rewrite E1.
  assert (valid_ptr s1 p) as Hv1 by (destruct Hv as (tab & ? & ?); exists tab; by rewrite Htabs).
  destruct (store_spec s1 p (mk_page false (rw pg) (user pg) (accessed pg) (dirty pg) 0) Hv1) as (t & E & Hent & Ht & _ & Hlen).
  exists (set_tabs t s1). split_and!; [done| | | |].
  - destruct Hfr. constructor; try done. by apply (frames_ok_same s1).
  - intros q Hq. rewrite Hent by done. case_decide; [done|]. unfold entry. by rewrite Htabs.
  - intros x Hx. cbn. rewrite Ht by done. by rewrite Htabs.
  - intros x tab Hx. apply Hlen. by rewrite Htabs.
Qed.

Lemma free_pages_spec n i s t :
  frames_ok s → table_ok s t → 0 ≤ i → i + Z.of_nat n = 1024 →
  ∃ s', free_pages n t i s = Some (tt, s') ∧ freed s s' (λ k, k ≠ 0 ∧ maps s t i k) ∧
    (∀ x, x ≠ t → tabs s' !! x = tabs s !! x).
Proof.
  revert i s. induction n as [|n IH]; intros i s Hok Ht Hi Hn; cbn [free_pages].
  { exists s. split_and!; [done| |done]. constructor; try done. intros k Hk. split; [|tauto].
    intros Hu. split; [done|]. intros (_ & j & pg & ? & _). lia. }
  pose proof Ht as [(tab & Htab & Hlen) Hfr].
  assert (valid_ptr s (t, i)) as Hv by (exists tab; split; [done|unfold zlength; cbn; lia]).
  destruct (entry_valid _ _ Hv) as [pg He]. unfold mbind at 1, K_bind at 1. rewrite (load_spec _ _ _ He).
  destruct (Z.eqb_spec (frame pg) 0) as [Hz|Hnz].
  - unfold mbind at 1, K_bind at 1, mret, K_ret. destruct (IH (i + 1) s Hok Ht ltac:(lia) ltac:(lia)) as (s' & E & [] & Hx).
    exists s'. split_and!; [done| |done]. constructor; try done. intros k Hk. rewrite fr_used0 by done.
    assert (k ≠ 0 ∧ maps s t i k ↔ k ≠ 0 ∧ maps s t (i + 1) k) as ->; [|done].
    split; (intros [Hk0 (j & pg' & Hj & Hpg & Hf)]; split; [done|]; exists j, pg'); (split; [|done]); [|lia].
    destruct (decide (j = i)) as [->|]; [|lia]. congruence.
  - destruct (free_frame_spec s (t, i) pg Hok Hv He Hnz) as (s1 & E1 & F1 & Hent & Hx1 & Hl1).
    { destruct (Hfr i pg ltac:(lia) He) as [|[|]]; [done|by left|by right]. }
    pose proof F1 as [G1 G2 G3 G4 G5 G6].
    assert (∀ j, 0 ≤ j → j ≠ i → entry s1 (t, j) = entry s (t, j)) as Hsame.
    { intros j Hj Hne. rewrite Hent by (cbn; lia). by rewrite decide_False by congruence. }
    assert (table_ok s1 t) as Ht1.
    { destruct (Hl1 t tab Htab) as (tab1 & ? & ?). constructor; [exists tab1; split; [done|lia]|].
      intros j pg' Hj Hpg. unfold limit. rewrite G2. destruct (decide (j = i)) as [->|].
      - rewrite Hent in Hpg by (cbn; lia). rewrite decide_True in Hpg by done. injection Hpg as <-. by left.
      - rewrite Hsame in Hpg by lia. by apply (Hfr j). }
    destruct (IH (i + 1) s1 G1 Ht1 ltac:(lia) ltac:(lia)) as (s' & E & [K1 K2 K3 K4 K5 K6] & Hx).
    exists s'. split_and!; [unfold mbind at 1, K_bind at 1; by rewrite E1| |intros x Hxt; by rewrite Hx, Hx1].
    constructor; try congruence. intros k Hk. rewrite K6 by (unfold limit in *; by rewrite G2). rewrite G6 by done.
    split.
    + intros [[Hu Hkf] Hno]. split; [done|]. intros [Hk0 (j & pg' & Hj & Hpg & Hf)].
      destruct (decide (j = i)) as [->|]; [congruence|]. apply Hno. split; [done|]. exists j, pg'.
      split_and!; [lia|lia| |done]. by rewrite Hsame by lia.
    + intros [Hu Hno]. split_and!; [done| |].
      * intros ->. apply Hno. split; [done|]. exists i, pg. split_and!; [lia|lia|done|done].
      * intros [Hk0 (j & pg' & Hj & Hpg & Hf)]. apply Hno. split; [done|]. exists j, pg'. rewrite Hsame in Hpg by lia.
        split; [lia|done].
Qed.

(** Table [i] of [d] is private: present and not the kernel's. *)
Definition private (kd d : page_directory) (i : Z) : Prop := dir_table d i ≠ 0 ∧ dir_table kd i ≠ dir_table d i.

(** A private table from index [i] on maps frame [k]. *)
Definition owns (s : vm) (kd d : page_directory) (i k : Z) : Prop :=
  k ≠ 0 ∧ ∃ j, i ≤ j < 1024 ∧ private kd d j ∧ maps s (dir_table d j) 0 k.

(** The private tables from [i] on exist and are distinct. *)
Record space_ok (s : vm) (kd d : page_directory) (i : Z) : Prop := {
  sp_tables j : i ≤ j < 1024 → private kd d j → table_ok s (dir_table d j);
  sp_distinct j j' : i ≤ j < j' → j' < 1024 → private kd d j → private kd d j' → dir_table d j ≠ dir_table d j';
}.

Lemma table_ok_same s s' t :
  nframes s' = nframes s → tabs s' !! t = tabs s !! t → table_ok s t → table_ok s' t.
Proof.
  intros E1 E2 [(tab & ? & ?) Hf]. constructor; [exists tab; by rewrite E2|]. intros j pg Hj He. unfold limit. rewrite E1.
  apply (Hf j); [done|]. unfold entry in *. cbn in *. by rewrite <- E2.
Qed.

Lemma maps_same s s' t i k : tabs s' !! t = tabs s !! t → maps s' t i k ↔ maps s t i k.
Proof. intros E. unfold maps, entry. cbn. by rewrite E. Qed.

Lemma free_tables_spec n i s kd d :
  frames_ok s → dirs s !! kernel_directory s = Some kd → space_ok s kd d i → 0 ≤ i → i + Z.of_nat n = 1024 →
  ∃ s', free_tables n d i s = Some (tt, s') ∧ freed s s' (owns s kd d i) ∧
    (∀ j, i ≤ j < 1024 → private kd d j → tabs s' !! dir_table d j = None) ∧
    (∀ t, (∀ j, i ≤ j < 1024 → private kd d j → dir_table d j ≠ t) → tabs s' !! t = tabs s !! t).
Proof.
  revert i s. induction n as [|n IH]; intros i s Hok Hkd Hsp Hi Hn; cbn [free_tables].
  { exists s. split_and!; [done| |intros; lia|done]. constructor; try done. intros k Hk. split; [|tauto].
    intros Hu. split; [done|]. intros (_ & j & ? & _). lia. }
  unfold mbind at 1, K_bind at 1, deref at 1. rewrite Hkd.
  set (body := if dir_table d i =? 0 then mret tt else _).
  assert (∃ s1, body s = Some (tt, s1) ∧ freed s s1 (λ k, k ≠ 0 ∧ private kd d i ∧ maps s (dir_table d i) 0 k) ∧
    (private kd d i → tabs s1 !! dir_table d i = None) ∧
    (∀ t, (private kd d i → dir_table d i ≠ t) → tabs s1 !! t = tabs s !! t)) as (s1 & E1 & F1 & Hdel & Hkeep).
  { unfold body. destruct (Z.eqb_spec (dir_table d i) 0) as [Hz|Hnz].
    { exists s. split_and!; [done| |intros [? _]; done|done]. constructor; try done. intros k Hk.
      split; [|tauto]. intros Hu. split; [done|]. intros (_ & [? _] & _). done. }
    destruct (Z.eqb_spec (dir_table kd i) (dir_table d i)) as [Hs|Hns].
    { exists s. split_and!; [done| |intros [_ ?]; done|done]. constructor; try done. intros k Hk.
      split; [|tauto]. intros Hu. split; [done|]. intros (_ & [_ ?] & _). done. }
    assert (private kd d i) as Hp by done.
    destruct (free_pages_spec 1024 0 s (dir_table d i) Hok (sp_tables _ _ _ _ Hsp i ltac:(lia) Hp) ltac:(lia) ltac:(done))
      as (s' & E & [] & Hx).
    exists (set_tabs (delete (dir_table d i) (tabs s')) s'). split_and!.
    - unfold mbind, K_bind. by rewrite E.
    - constructor; try done; [by apply (frames_ok_same s')|]. intros k Hk. rewrite fr_used0 by done. tauto.
    - intros _. cbn. by rewrite lookup_delete_eq.
    - intros t Ht. cbn. rewrite lookup_delete_ne by (by apply Ht). apply Hx. intros ->. by apply Ht. }
  clearbody body. pose proof F1 as [G1 G2 G3 G4 G5 G6].
  assert (∀ j, i + 1 ≤ j < 1024 → private kd d j → tabs s1 !! dir_table d j = tabs s !! dir_table d j) as Hlater.
  { intros j Hj Hpj. apply Hkeep. intros Hpi. apply (sp_distinct _ _ _ _ Hsp i j); (done || lia). }
  destruct (IH (i + 1) s1 G1 ltac:(by rewrite G3, G4)) as (s' & E & [K1 K2 K3 K4 K5 K6] & Hdel' & Hkeep').
  { constructor.
    - intros j Hj Hp. apply (table_ok_same s); [done|by apply Hlater|]. apply (sp_tables _ _ _ _ Hsp); [lia|done].
    - intros j j' Hj Hj' Hp Hp'. apply (sp_distinct _ _ _ _ Hsp); (done || lia). }
  { lia. } { lia. }
  exists s'. split_and!.
  - unfold mbind, K_bind. by rewrite E1.
  - constructor; try congruence. intros k Hk. rewrite K6 by (unfold limit in *; by rewrite G2). rewrite G6 by done. unfold owns. split.
    + intros [[Hu H1] H2]. split; [done|]. intros (Hk0 & j & Hj & Hp & Hm). destruct (decide (j = i)) as [->|]; [by apply H1|].
      apply H2. split; [done|]. exists j. split_and!; [lia|lia|done|]. rewrite maps_same; [done|]. apply Hlater; [lia|done].
    + intros [Hu Hno]. split_and!; [done| |].
      * intros (Hk0 & Hp & Hm). apply Hno. split; [done|]. exists i. split_and!; [lia|lia|done|done].
      * intros (Hk0 & j & Hj & Hp & Hm). apply Hno. split; [done|]. exists j. split_and!; [lia|lia|done|].
        rewrite maps_same in Hm; [done|]. by apply Hlater.
  - intros j Hj Hp. destruct (decide (j = i)) as [->|]; [|apply Hdel'; [lia|done]].
    rewrite Hkeep'; [by apply Hdel|]. intros j' Hj' Hp'. apply not_eq_sym, (sp_distinct _ _ _ _ Hsp); (done || lia).
  - intros t Ht. rewrite Hkeep'; [apply Hkeep; intros Hp; by apply Ht; [lia|]|]. intros j Hj Hp. apply Ht; [lia|done].
Qed.

(** C26: free_directory gives back exactly what the address space owns: the
    frames its private tables map, those tables and the directory itself.
    Frames of device memory, the kernel's tables and the contents of memory
    stay as they are. *)
Theorem free_directory_exact s dirp kd d :
  frames_ok s → dirp ≠ 0 → dirs s !! dirp = Some d → dirs s !! kernel_directory s = Some kd → space_ok s kd d 0 →
  ∃ s', free_directory dirp s = Some (tt, s') ∧
    (∀ k, 0 ≤ k < limit s → used (frames s') k = true ↔ used (frames s) k = true ∧ ¬ owns s kd d 0 k) ∧
    (∀ j, 0 ≤ j < 1024 → private kd d j → tabs s' !! dir_table d j = None) ∧
    (∀ t, (∀ j, 0 ≤ j < 1024 → private kd d j → dir_table d j ≠ t) → tabs s' !! t = tabs s !! t) ∧
    dirs s' = delete dirp (dirs s) ∧ ram s' = ram s.
Proof.
  intros Hok Hne Hd Hkd Hsp. unfold free_directory. destruct (Z.eqb_spec dirp 0); [done|].
  unfold mbind at 1, K_bind at 1, deref. rewrite Hd.
  destruct (free_tables_spec 1024 0 s kd d Hok Hkd Hsp ltac:(lia) ltac:(done)) as (s' & E & [] & Hdel & Hkeep).
  exists (set_dirs (delete dirp (dirs s')) s'). split_and!; try done; [unfold mbind, K_bind; by rewrite E|]. cbn. by rewrite fr_dirs0.
Qed.

(** ** Examples *)

Lemma demo_frames_ok : frames_ok demo_vm.
Proof. constructor; [repeat constructor; unfold word_ok; lia|done|cbn; lia]. Qed.

Lemma demo_tab_at j :
  0 ≤ j < 1024 →
  page_at demo_tab j = if decide (j = 0) then mk_page true true true false false 5
                       else if decide (j = 3) then mk_page true false true true false 6 else zero_page.
Proof.
  intros Hj. pose proof (page_at_zeros j) as Hz. unfold page_at in *. unfold demo_tab. repeat case_decide; subst; try done.
  by rewrite !list_lookup_insert_ne by lia.
Qed.

Lemma clone_table_isolated_witness :
  ∃ s' pg pg', clone_table 900 demo_vm = Some ((700, 0x700000), s') ∧
    entry s' (700, 0) = Some pg ∧ entry s' (700, 3) = Some pg' ∧
    frame pg ≠ 5 ∧ ram s' !! frame pg = Some [1; 2; 3] ∧ frame pg ≠ frame pg' ∧ rw pg' = false.
Proof.
  destruct (clone_table_isolated demo_vm 900 demo_tab (700, 0x700000) []) as (s' & E & _ & _ & _ & _ & Hp & Hd & _).
  - apply demo_frames_ok.
  - done.
  - done.
  - done.
  - done.
  - apply Nat.leb_le. vm_compute. done.
  - intros j Hj. rewrite demo_tab_at by done. repeat case_decide; cbn [frame]; [done|done|intros Hf; by destruct Hf].
  - destruct (Hp 0 ltac:(lia)) as (pg & H1 & (C1 & C2 & _ & C3 & _)), (Hp 3 ltac:(lia)) as (pg' & H2 & (C1' & _ & _ & _ & _ & C4 & _)).
    exists s', pg, pg'. split_and!; [exact E|exact H1|exact H2| |exact C3| |exact C4].
    + intros F. rewrite F in C2. done.
    + intros F. specialize (Hd 0 3 pg pg' ltac:(lia) ltac:(lia) H1 H2 F). lia.
Defined.

Lemma demo_private j : 0 ≤ j < 1024 → private demo_kd demo_dir j → j = 256.
Proof.
  intros Hj [Hn Hne]. unfold demo_dir in *. rewrite dir_table_set in Hn, Hne by (done || lia).
  by case_decide.
Qed.

Lemma free_directory_exact_witness :
  ∃ s', free_directory 20 demo_vm = Some (tt, s') ∧ used (frames s') 5 = false ∧ used (frames s') 4 = true ∧
    tabs s' !! 900 = None ∧ tabs s' !! 800 = tabs demo_vm !! 800 ∧ dirs s' !! 20 = None.
Proof.
  destruct (free_directory_exact demo_vm 20 demo_kd demo_dir) as (s' & E & Hu & Ht & Hk & Hd & _).
  - apply demo_frames_ok.
  - done.
  - done.
  - done.
  - constructor.
    + intros j Hj Hp. rewrite (demo_private j) by done. constructor; [by exists demo_tab|].
      intros i pg Hi He. assert (Some (page_at demo_tab i) = Some pg) as [= <-] by exact He.
      rewrite demo_tab_at by done. repeat case_decide; cbn; [right; left; done|right; left; done|by left].
    + intros j j' Hj Hj' Hp Hp'. pose proof (demo_private j ltac:(lia) Hp). pose proof (demo_private j' ltac:(lia) Hp'). lia.
  - exists s'. split; [exact E|]. clear E. split_and!.
    + apply not_true_is_false. intros H. apply (Hu 5) in H as [_ H]; [|done]. apply H. split; [done|]. exists 256.
      split_and!; [done|done|split; done|]. exists 0. eexists. split_and!; [done|done|done|done].
    + apply (Hu 4); [done|]. split; [done|]. intros (_ & j & Hj & Hp & i & pg & Hi & He & Hf). rewrite (demo_private j Hj Hp) in He.
      assert (Some (page_at demo_tab i) = Some pg) as [= <-] by exact He. rewrite demo_tab_at in Hf by done.
      by repeat case_decide.
    + apply (Ht 256); [done|]. split; done.
    + apply Hk. intros j Hj Hp. rewrite (demo_private j Hj Hp). done.
    + rewrite Hd. by rewrite lookup_delete_eq.
Defined.
End PagingClone.
