(* ===== verification/PagingInit.v ===== *)
(** * The kernel's address space after boot

    mm_paging_init maps every page up to the end of the heap to the frame of
    the same number, for the kernel only. *)

From S2P Require Import Prelude Bytes Paging PagingClone.

Module PagingInit.
Import Paging PagingFrames PagingClone.

Definition missing (d : page_directory) : nat := length (filter (λ t, t = 0) (tables d)).

(** A directory whose tables are distinct objects, and a heap that can
    provide the tables it lacks and [extra] more objects. *)
Record dir_wf (s : vm) (dirp : Z) (d : page_directory) (extra : nat) : Prop := {
  dw_dir : dirs s !! dirp = Some d;
  dw_len : length (tables d) = 1024%nat;
  dw_tab i : 0 ≤ i < 1024 → dir_table d i ≠ 0 → ∃ tab, tabs s !! dir_table d i = Some tab ∧ length tab = 1024%nat;
  dw_inj i j : 0 ≤ i < 1024 → 0 ≤ j < 1024 → i ≠ j → dir_table d i ≠ 0 → dir_table d i ≠ dir_table d j;
  dw_pool : Forall (λ a, a.1 ≠ 0 ∧ tabs s !! a.1 = None ∧ dirs s !! a.1 = None) (pool s);
  dw_nodup : NoDup (fst <$> pool s);
  dw_enough : (missing d + extra ≤ length (pool s))%nat;
}.

Lemma filter_zero_insert (l : list Z) i v :
  l !! i = Some 0 → v ≠ 0 → length (filter (λ t, t = 0) l) = S (length (filter (λ t, t = 0) (<[i := v]> l))).
Proof.
  revert i. induction l as [|x l IH]; intros [|i] Hi Hv; [done|done| |].
  - injection Hi as ->. cbn [insert list_insert]. rewrite filter_cons_True by done. by rewrite filter_cons_False.
  - cbn [insert list_insert]. change (list_insert i v l) with (<[i := v]> l). cbn in Hi. specialize (IH i Hi Hv).
    destruct (decide (x = 0)).
    + rewrite !filter_cons_True by done. simpl. by rewrite IH.
    + rewrite !filter_cons_False by done. exact IH.
Qed.

(** What creating page tables changes: nothing that existed. *)
Record grown (s s' : vm) (dirp : Z) (d d' : page_directory) : Prop := {
  gr_pm q : 0 ≤ q < 1048576 → pm s' d' q = pm s d q;
  gr_frames : frames s' = frames s;
  gr_n : nframes s' = nframes s;
  gr_ram : ram s' = ram s;
  gr_kernel : kernel_directory s' = kernel_directory s;
  gr_current : current_directory s' = current_directory s;
  gr_tabs x : is_Some (tabs s !! x) → tabs s' !! x = tabs s !! x;
  gr_dirs x : x ≠ dirp → dirs s' !! x = dirs s !! x;
}.

(** Looking a page up for mapping creates at most an empty table. *)
Lemma get_make_spec s dirp d e a :
  dir_wf s dirp d e → 0 ≤ a < 4294967296 →
  let pn := a / 0x1000 in
  ∃ p s' d', get_page_make a dirp s = Some (p, s') ∧ dir_wf s' dirp d' e ∧
    p = (dir_table d' (pn / 1024), pn mod 1024) ∧ dir_table d' (pn / 1024) ≠ 0 ∧
    grown s s' dirp d d' ∧ (∀ j, 0 ≤ j → j ≠ pn / 1024 → dir_table d' j = dir_table d j) ∧
    (dir_table d' (pn / 1024) = dir_table d (pn / 1024) ∨ tabs s !! dir_table d' (pn / 1024) = None).
Proof.
  intros Hw Ha. cbv zeta. set (pn := a / 0x1000). set (ti := pn / 1024).
  assert (0 ≤ ti < 1024) as Hti by (unfold ti, pn; zdm).
  unfold get_page_make, get_page, deref, kmalloc_ap, upd, mbind, K_bind, mret, K_ret. rewrite (dw_dir _ _ _ _ Hw).
  cbv zeta. fold pn. fold ti.
  destruct (Z.eqb_spec (dir_table d ti) 0) as [Hz|Hnz]; cbn [negb].
  2: { exists (dir_table d ti, pn mod 1024), s, d. split_and!; try done. by left. }
  destruct Hw as [Hd Hl Ht Hinj Hp Hnd He].
  assert (tables d !! Z.to_nat ti = Some 0) as Hti0.
  { unfold dir_table in Hz. destruct (lookup_lt_is_Some_2 (tables d) (Z.to_nat ti)) as [x Hx]; [lia|].
    rewrite Hx in Hz |- *. cbn in Hz. by subst. }
  destruct (pool s) as [|al l] eqn:Hpool.
  { exfalso. unfold missing in He. rewrite (filter_zero_insert _ _ 1 Hti0) in He by done. simpl in He. lia. }
  apply Forall_cons in Hp as [(Ha0 & Hat & Had) Hp]. cbn [fmap list_fmap] in Hnd. apply NoDup_cons in Hnd as [Hal Hnd].
  cbn [pool set_pool]. set (s' := set_tabs _ _). set (d' := set_table ti al.1 (Z.lor al.2 7) d).
  assert (∀ j, 0 ≤ j → dir_table d' j = if decide (j = ti) then al.1 else dir_table d j) as Hdt
    by (intros; by apply dir_table_set).
  assert (∀ j, 0 ≤ j < 1024 → dir_table d j ≠ al.1) as Hfresh.
  { intros j Hj Hx. destruct (decide (dir_table d j = 0)); [congruence|]. destruct (Ht j Hj ltac:(done)) as (? & E & _). congruence. }
  assert (∀ t, t ≠ al.1 → tabs s' !! t = tabs s !! t) as Htabs by (intros t Hne; unfold s'; cbn; by rewrite lookup_insert_ne).
  eexists _, s', d'. split_and!; try done.
  - constructor.
    + unfold s'. cbn. by rewrite lookup_insert_eq.
    + unfold d', set_table. cbn. by rewrite length_insert.
    + intros i Hi. rewrite Hdt by lia. case_decide.
      * intros _. exists (replicate 1024 zero_page). unfold s'. cbn [tabs set_tabs]. by rewrite lookup_insert_eq.
      * intros Hne. rewrite Htabs by (by apply Hfresh). by apply Ht.
    + intros i j Hi Hj Hne. rewrite !Hdt by lia. repeat case_decide; try congruence; [|intros _; by apply Hfresh|by apply Hinj].
      intros _. apply not_eq_sym. by apply Hfresh.
    + apply Forall_forall. intros b Hb. pose proof (proj1 (Forall_forall _ _) Hp b Hb) as (? & ? & ?).
      assert (b.1 ≠ al.1) by (intros E; apply Hal; rewrite <- E; by apply list_elem_of_fmap_2).
      split_and!; [done|by rewrite Htabs|]. unfold s'. cbn. rewrite lookup_insert_ne; [done|]. intros E. congruence.
    + done.
    + unfold missing in *. rewrite (filter_zero_insert _ _ al.1 Hti0) in He by done. unfold s'. cbn. cbn in He. lia.
  - rewrite Hdt by lia. by rewrite decide_True.
  - rewrite Hdt by lia. by rewrite decide_True.
  - constructor; try done.
    + intros q Hq. unfold pm. rewrite Hdt by zdm. case_decide as E.
      * rewrite E, Hz. cbn [Z.eqb]. destruct (Z.eqb_spec al.1 0); [done|]. unfold entry, s'. cbn. rewrite lookup_insert_eq. cbn.
        by rewrite page_at_zeros.
      * destruct (Z.eqb_spec (dir_table d (q / 1024)) 0); [done|]. unfold entry. cbn [fst]. rewrite Htabs; [done|]. apply Hfresh. zdm.
    + intros x [tab Hx]. apply Htabs. congruence.
    + intros x Hx. unfold s'. cbn. by rewrite lookup_insert_ne.
  - intros j Hj Hne. rewrite Hdt by done. by rewrite decide_False.
  - right. rewrite Hdt by lia. by rewrite decide_True.
Qed.

Lemma touch_spec n i heap_end s dirp d e :
  dir_wf s dirp d e → 0 ≤ i → heap_end ≤ 4294959104 →
  ∃ s' d', touch_pages n i heap_end dirp s = Some (tt, s') ∧ dir_wf s' dirp d' e ∧
    (∀ q, 0 ≤ q < 1048576 → pm s' d' q = pm s d q) ∧
    frames s' = frames s ∧ nframes s' = nframes s ∧ ram s' = ram s ∧ kernel_directory s' = kernel_directory s.
Proof.
  revert i s d. induction n as [|n IH]; intros i s d Hw Hi Hh; cbn [touch_pages]; [by exists s, d|].
  destruct (Z.ltb_spec i heap_end) as [Hlt|]; [|by exists s, d].
  destruct (get_make_spec s dirp d e i Hw ltac:(lia)) as (p & s1 & d1 & E1 & Hw1 & _ & _ & [Hpm F1 F2 F3 F4 _ _ _] & _).
  rewrite u32_small by lia. destruct (IH (i + 0x1000) s1 d1 Hw1 ltac:(lia) Hh) as (s' & d' & E & Hw' & Hpm' & G1 & G2 & G3 & G4).
  exists s', d'. split_and!; try congruence; try done; [unfold mbind, K_bind; by rewrite E1|].
  intros q Hq. rewrite Hpm' by done. by apply Hpm.
Qed.

Definition identity_page (pn : Z) : page := mk_page true true false false false pn.

(** The first [m] pages are mapped to the first [m] frames, nothing else is. *)
Record mapped (s : vm) (d : page_directory) (m : Z) : Prop := {
  mp_pages q : 0 ≤ q < 1048576 → pm s d q = if q <? m then identity_page q else zero_page;
  mp_used k : 0 ≤ k < limit s → used (frames s) k = (k <? m);
  mp_ok : frames_ok s;
}.

Lemma nfree_pos s k : 0 ≤ k < limit s → used (frames s) k = false → (0 < nfree s)%nat.
Proof.
  intros Hk Hu. unfold nfree. assert (k ∈ free_frames s) as Hin
    by (unfold free_frames; apply list_elem_of_filter; split; [done|apply elem_of_seqZ; lia]).
  destruct (free_frames s); [by apply elem_of_nil in Hin|simpl; lia].
Qed.

(** One round of the mapping loop. *)
Lemma map_step m s dirp d e :
  dir_wf s dirp d e → mapped s d m → 0 ≤ m < 1048576 → m < limit s →
  ∃ p s1 d1 s', get_page_make (4096 * m) dirp s = Some (p, s1) ∧ alloc_frame p true true s1 = Some (tt, s') ∧
    dir_wf s' dirp d1 e ∧ mapped s' d1 (m + 1) ∧ nframes s' = nframes s ∧ ram s' = ram s ∧
    kernel_directory s' = kernel_directory s.
Proof.
  intros Hw [Hp Hu Hok] Hm Hl.
  destruct (get_make_spec s dirp d e (4096 * m) Hw ltac:(lia)) as (p & s1 & d1 & E1 & Hw1 & Hpe & Hne & [Hpm F1 F2 F3 F4 _ _ _] & _).
  assert (4096 * m / 0x1000 = m) as Hdiv by (rewrite Z.mul_comm; by apply Z.div_mul). rewrite Hdiv in *. subst p.
  set (p := (dir_table d1 (m / 1024), m mod 1024)) in *.
  destruct (dw_tab _ _ _ _ Hw1 (m / 1024) ltac:(zdm) Hne) as (tab & Htab & Hlt).
  assert (valid_ptr s1 p) as Hv by (exists tab; split; [done|unfold zlength, p; cbn [snd]; zdm]).
  destruct (entry_valid _ _ Hv) as [pg He].
  assert (pg = zero_page) as ->.
  { pose proof (Hpm m Hm) as Hpm0. rewrite Hp in Hpm0 by done. rewrite Z.ltb_irrefl in Hpm0. unfold pm in Hpm0.
    destruct (Z.eqb_spec (dir_table d1 (m / 1024)) 0); [done|]. fold p in Hpm0. by rewrite He in Hpm0. }
  assert (frames_ok s1) as Hok1 by (by apply (frames_ok_same s)).
  assert (limit s1 = limit s) as Hlim by (unfold limit; by rewrite F2).
  assert (used (frames s1) m = false) as Hfm by (rewrite F1, Hu by lia; apply Z.ltb_irrefl).
  destruct (alloc_frame_spec s1 p zero_page true true Hok1 Hv He eq_refl (nfree_pos s1 m ltac:(lia) Hfm))
    as (k & s' & E2 & Hev & _ & Hk & Hfk & Hlow & Hset & Hram & Hent & Htabs & Hlens).
  assert (k = m) as ->.
  { destruct (Z.lt_trichotomy k m) as [Hlt'|[->|Hgt]]; [|done|].
    - rewrite F1, Hu in Hfk by lia. apply Z.ltb_ge in Hfk. lia.
    - rewrite (Hlow m ltac:(lia)) in Hfm. done. }
  exists p, s1, d1, s'. split_and!; try done; try (rewrite ?Hram, ?(ev_n _ _ Hev), ?(ev_kernel _ _ Hev); congruence).
  - destruct Hw1 as [W1 W2 W3 W4 W5 W6 W7]. constructor; try done.
    + by rewrite (ev_dirs _ _ Hev).
    + intros i Hi Hn. destruct (W3 i Hi Hn) as (t & Ht & Hlt'). destruct (Hlens _ _ Ht) as (t' & ? & ?). exists t'. split; [done|lia].
    + rewrite (ev_pool _ _ Hev). eapply Forall_impl; [exact W5|]. intros a (? & Ht & ?). split_and!; [done| |by rewrite (ev_dirs _ _ Hev)].
      rewrite Htabs; [done|]. intros E. rewrite E in Ht. unfold p in Ht. cbn in Ht. congruence.
    + by rewrite (ev_pool _ _ Hev).
    + by rewrite (ev_pool _ _ Hev).
  - constructor; [| |apply Hev].
    + intros q Hq. destruct (decide (q = m)) as [->|Hqm].
      * rewrite (proj2 (Z.ltb_lt m (m + 1))) by lia. unfold pm. destruct (Z.eqb_spec (dir_table d1 (m / 1024)) 0); [done|].
        fold p. rewrite Hent by (unfold p; cbn; zdm). by rewrite decide_True.
      * assert (pm s' d1 q = pm s1 d1 q) as ->.
        { unfold pm. destruct (Z.eqb_spec (dir_table d1 (q / 1024)) 0); [done|]. rewrite Hent by (cbn; zdm).
          rewrite decide_False; [done|]. unfold p. intros [= Ea Eb]. apply Hqm.
          destruct (decide (q / 1024 = m / 1024)); [zdm|]. exfalso.
          by apply (dw_inj _ _ _ _ Hw1 (q / 1024) (m / 1024) ltac:(zdm) ltac:(zdm)). }
        rewrite Hpm, Hp by done. destruct (Z.ltb_spec q m), (Z.ltb_spec q (m + 1)); (done || lia).
    + intros k Hk'. unfold limit in *. rewrite (ev_n _ _ Hev), F2 in Hk'. rewrite Hset, F1, Hu by lia.
      destruct (Z.eqb_spec k m), (Z.ltb_spec k m), (Z.ltb_spec k (m + 1)); (done || lia).
Qed.

Lemma map_spec n m endp s dirp d e :
  dir_wf s dirp d e → mapped s d m → 0 ≤ m → endp ≤ 4294963200 → (endp + 4095) / 4096 ≤ m + Z.of_nat n →
  (endp + 4095) / 4096 ≤ limit s → m ≤ (endp + 4095) / 4096 →
  ∃ s' d', map_pages n (4096 * m) endp dirp s = Some (tt, s') ∧ dir_wf s' dirp d' e ∧
    mapped s' d' ((endp + 4095) / 4096) ∧ nframes s' = nframes s ∧ ram s' = ram s ∧ kernel_directory s' = kernel_directory s.
Proof.
  set (P := (endp + 4095) / 4096). revert m s d. induction n as [|n IH]; intros m s d Hw Hm Hm0 He Hn Hl Hle; cbn [map_pages].
  { assert (m = P) as -> by lia. by exists s, d. }
  destruct (Z.ltb_spec (4096 * m) endp) as [Hlt|Hge].
  2: { assert (m = P) as -> by (unfold P in *; zdm). by exists s, d. }
  destruct (map_step m s dirp d e Hw Hm ltac:(unfold P in *; zdm) ltac:(unfold P in *; zdm))
    as (p & s1 & d1 & s2 & E1 & E2 & Hw2 & Hm2 & F1 & F2 & F3).
  rewrite u32_small by lia. replace (4096 * m + 0x1000) with (4096 * (m + 1)) by lia.
  destruct (IH (m + 1) s2 d1 Hw2 Hm2 ltac:(lia) He ltac:(lia)) as (s' & d' & E & Hw' & Hm' & G1 & G2 & G3).
  { unfold limit in *. by rewrite F1. } { unfold P in *. zdm. }
  exists s', d'. split_and!; try congruence; try done. unfold mbind, K_bind. rewrite E1, E2. exact E.
Qed.

(** Cloning the kernel's directory shares every table. *)
Lemma clone_kernel_tables n i s kd dirp d :
  dirs s !! kernel_directory s = Some kd → dirs s !! dirp = Some d → dirp ≠ kernel_directory s → length (tables d) = 1024%nat →
  0 ≤ i → i + Z.of_nat n = 1024 → (∀ j, i ≤ j < 1024 → dir_table d j = 0) →
  ∃ x d', clone_tables n kd dirp i s = Some (tt, set_dirs x s) ∧ x !! dirp = Some d' ∧
    (∀ y, y ≠ dirp → x !! y = dirs s !! y) ∧ length (tables d') = 1024%nat ∧
    (∀ j, 0 ≤ j < 1024 → dir_table d' j = if j <? i then dir_table d j else dir_table kd j).
Proof.
  revert i s d. induction n as [|n IH]; intros i s d Hk Hd Hne Hl Hi Hn Hz; cbn [clone_tables].
  { exists (dirs s), d. split_and!; [by destruct s|done|done|done|]. intros j Hj. by destruct (Z.ltb_spec j i); [|lia]. }
  unfold mbind at 1, K_bind at 1, deref at 1. rewrite Hk.
  destruct (Z.eqb_spec (dir_table kd i) 0) as [Hki|Hki].
  { unfold mbind at 1, K_bind at 1, mret at 1, K_ret at 1.
    destruct (IH (i + 1) s d Hk Hd Hne Hl ltac:(lia) ltac:(lia) ltac:(intros; apply Hz; lia)) as (x & d' & E & Hx & Hy & Hlt & Ht).
    exists x, d'. split_and!; try done. intros j Hj. rewrite Ht by done.
    destruct (Z.ltb_spec j i), (Z.ltb_spec j (i + 1)); try (done || lia). assert (j = i) as -> by lia. rewrite Hz by lia. done. }
  rewrite Z.eqb_refl. unfold deref, upd, mbind at 2, K_bind at 2. unfold mbind at 1, K_bind at 1. rewrite Hd.
  set (d1 := set_table i (dir_table kd i) (dir_phys kd i) d). set (s1 := set_dirs (<[dirp := d1]> (dirs s)) s).
  assert (∀ j, 0 ≤ j → dir_table d1 j = if decide (j = i) then dir_table kd i else dir_table d j) as Hd1
    by (intros; apply dir_table_set; (done || lia)).
  destruct (IH (i + 1) s1 d1) as (x & d' & E & Hx & Hy & Hlt & Ht).
  { unfold s1. cbn. by rewrite lookup_insert_ne. } { unfold s1. cbn. by rewrite lookup_insert_eq. } { done. }
  { unfold d1, set_table. cbn. by rewrite length_insert. } { lia. } { lia. }
  { intros j Hj. rewrite Hd1 by lia. rewrite decide_False by lia. apply Hz. lia. }
  exists x, d'. split_and!; [exact E|done| |done|].
  - intros y Hne'. rewrite Hy by done. unfold s1. cbn. by rewrite lookup_insert_ne.
  - intros j Hj. rewrite Ht by done. rewrite Hd1 by lia.
    destruct (Z.ltb_spec j i), (Z.ltb_spec j (i + 1)); try (done || lia).
    + by rewrite decide_False by lia.
    + assert (j = i) as -> by lia. by rewrite decide_True.
Qed.

(** ** Boot *)

(** A heap that can provide [n] objects. *)
Record heap_ok (s : vm) (n : nat) : Prop := {
  hp_fresh : Forall (λ a, a.1 ≠ 0 ∧ tabs s !! a.1 = None ∧ dirs s !! a.1 = None) (pool s);
  hp_nodup : NoDup (fst <$> pool s);
  hp_enough : (n ≤ length (pool s))%nat;
}.

Lemma used_zeros n k : used (replicate n 0) k = false.
Proof.
  unfold used, bget. destruct (replicate n 0 !! Z.to_nat (k / 32)) as [x|] eqn:E; [|apply Z.bits_0].
  apply lookup_replicate in E as [-> _]. apply Z.bits_0.
Qed.

(** The state mm_paging_init starts mapping from: no frame in use, an empty
    kernel directory. *)
Lemma boot_start s a l mem_size (n := mem_size / 0x1000) e :
  heap_ok s (1025 + e) → pool s = a :: l → 0 ≤ mem_size < 4294967296 →
  let s1 := set_kernel a.1 (set_dirs (<[a.1 := zero_dir]> (dirs s))
              (set_pool l (mk_vm (replicate (Z.to_nat (INDEX_FROM_BIT n)) 0) n (tabs s) (dirs s) (ram s)
                 (kernel_directory s) (current_directory s) (pool s)))) in
  dir_wf s1 a.1 zero_dir e ∧ mapped s1 zero_dir 0.
Proof.
  intros [Hf Hnd He] Hp Hm s1. rewrite Hp in *. apply Forall_cons in Hf as [(Ha0 & Hat & Had) Hf].
  cbn [fmap list_fmap] in Hnd. apply NoDup_cons in Hnd as [Hal Hnd]. split.
  - constructor.
    + unfold s1. cbn. by rewrite lookup_insert_eq.
    + done.
    + intros i _ Hne. by rewrite zero_dir_table in Hne.
    + intros i j _ _ _ Hne. by rewrite zero_dir_table in Hne.
    + apply Forall_forall. intros b Hb. pose proof (proj1 (Forall_forall _ _) Hf b Hb) as (? & ? & ?).
      split_and!; [done|done|]. unfold s1. cbn. rewrite lookup_insert_ne; [done|].
      intros E. apply Hal. rewrite E. by apply list_elem_of_fmap_2.
    + exact Hnd.
    + unfold s1. cbn [pool set_kernel set_dirs set_pool]. cbn in He. change (missing zero_dir) with 1024%nat. lia.
  - constructor.
    + intros q Hq. unfold pm. rewrite zero_dir_table. cbn [Z.eqb]. destruct (Z.ltb_spec q 0); [lia|done].
    + intros k Hk. unfold s1. cbn [frames set_kernel set_dirs set_pool]. rewrite used_zeros.
      destruct (Z.ltb_spec k 0); [lia|done].
    + constructor; unfold s1; cbn [frames nframes set_kernel set_dirs set_pool].
      * apply Forall_replicate. unfold word_ok. lia.
      * unfold zlength. rewrite length_replicate. unfold INDEX_FROM_BIT, n. zdm.
      * unfold n. zdm.
Qed.

(** Two directories with the same tables are the same address space. *)
Lemma pm_same s s' d d' q :
  tabs s' = tabs s → (∀ j, 0 ≤ j < 1024 → dir_table d' j = dir_table d j) → 0 ≤ q < 1048576 → pm s' d' q = pm s d q.
Proof. intros Ht Hd Hq. unfold pm, entry. rewrite Hd by zdm. by rewrite Ht. Qed.

Lemma clone_kernel s kp kd e :
  dir_wf s kp kd (S e) → kernel_directory s = kp →
  ∃ c d s', clone_directory kp s = Some (c, s') ∧ c ≠ kp ∧ dirs s' !! c = Some d ∧ dirs s' !! kp = Some kd ∧
    (∀ j, 0 ≤ j < 1024 → dir_table d j = dir_table kd j) ∧
    (dir_wf s' c d e ∧ (∀ x, x ≠ c → dirs s' !! x = dirs s !! x) ∧ current_directory s' = current_directory s ∧ dirs s !! c = None) ∧
    tabs s' = tabs s ∧ frames s' = frames s ∧ nframes s' = nframes s ∧ ram s' = ram s ∧ kernel_directory s' = kp.
Proof.
  intros [Hd Hl Htb Hij Hf Hnd He] Hk. destruct (pool s) as [|a l] eqn:Hp; [simpl in He; lia|].
  apply Forall_cons in Hf as [(Ha0 & _ & Had) Hf]. cbn [fmap list_fmap] in Hnd. apply NoDup_cons in Hnd as [Hal Hnd]. assert (a.1 ≠ kp) as Hne by (intros E; rewrite E in Had; congruence).
  set (d0 := mk_dir (tables zero_dir) (tables_physical zero_dir) (u32 (a.2 + TABLES_BYTES))).
  set (s1 := set_dirs (<[a.1 := d0]> (dirs s)) (set_pool l s)).
  destruct (clone_kernel_tables 1024 0 s1 kd a.1 d0) as (x & d & E & Hx & Hy & Hlt & Ht).
  { unfold s1. cbn. rewrite Hk. by rewrite lookup_insert_ne. } { unfold s1. cbn. by rewrite lookup_insert_eq. }
  { unfold s1. cbn. by rewrite Hk. } { done. } { lia. } { done. } { intros j _. apply (zero_dir_table j). }
  assert (dirs s1 !! kp = Some kd) as Hkd by (unfold s1; cbn; by rewrite lookup_insert_ne).
  assert (∀ j, 0 ≤ j < 1024 → dir_table d j = dir_table kd j) as Hsame
    by (intros j Hj; rewrite Ht by done; by destruct (Z.ltb_spec j 0); [lia|]).
  assert (∀ y, y ≠ a.1 → x !! y = dirs s !! y) as Hkeep
    by (intros y Hy'; rewrite Hy by done; unfold s1; cbn; by rewrite lookup_insert_ne).
  assert (tables d = tables kd) as Htab.
  { apply list_eq_same_length with (n := 1024%nat); [done|done|]. intros j u v Hj Hu Hv.
    specialize (Hsame (Z.of_nat j) ltac:(lia)). unfold dir_table in Hsame. rewrite Nat2Z.id, Hu, Hv in Hsame. exact Hsame. }
  exists a.1, d, (set_dirs x s1). split_and!; try done.
  - unfold clone_directory. unfold mbind at 1, K_bind at 1, kmalloc_ap at 1. rewrite Hp.
    unfold mbind at 1, K_bind at 1, upd at 1. change (set_dirs _ (set_pool l s)) with s1.
    unfold mbind at 1, K_bind at 1, deref at 1. rewrite Hkd. unfold mbind at 1, K_bind at 1. by rewrite E.
  - cbn. by rewrite Hy.
  - constructor; try done.
    + intros i Hi. rewrite Hsame by done. auto.
    + intros i j Hi Hj. rewrite !Hsame by done. auto.
    + apply Forall_forall. intros b Hb. pose proof (proj1 (Forall_forall _ _) Hf b Hb) as (? & ? & ?).
      split_and!; [done|done|]. cbn. rewrite Hkeep; [done|]. intros E'. apply Hal. rewrite <- E'. by apply list_elem_of_fmap_2.
    + unfold missing in *. rewrite Htab. cbn in He |- *. lia.
Qed.

Lemma mapped_same s s' d d' m :
  tabs s' = tabs s → frames s' = frames s → nframes s' = nframes s →
  (∀ j, 0 ≤ j < 1024 → dir_table d' j = dir_table d j) → mapped s d m → mapped s' d' m.
Proof.
  intros Et Ef En Hd [Hp Hu Hok]. constructor.
  - intros q Hq. rewrite (pm_same s s' d d') by done. auto.
  - intros k. unfold limit. rewrite En, Ef. apply Hu.
  - by apply (frames_ok_same s).
Qed.

(** An address space with no page for user mode. *)
Lemma mapped_not_user s d m w a :
  dirs s !! current_directory s = Some d → mapped s d m → 0 ≤ a < 4294967296 → page_ok s w a = false.
Proof.
  intros Hd [Hp _ _] Ha. unfold page_ok, lookup_page. rewrite get_page_lookup, Hd.
  specialize (Hp (a / 4096) ltac:(zdm)). unfold pm in Hp. change (a / 0x1000) with (a / 4096).
  destruct (Z.eqb_spec (dir_table d (a / 4096 / 1024)) 0); cbn [negb]; [done|].
  destruct (entry s _) as [pg|] eqn:E in Hp; cbn [from_option id] in Hp.
  - rewrite (load_spec _ _ _ E). rewrite Hp. destruct (a / 4096 <? m); cbn; by rewrite ?andb_false_r.
  - unfold load, deref, mbind, K_bind. unfold entry in E. cbn [fst] in *. by destruct (tabs s !! _).
Qed.

(** Boot with enough memory and heap succeeds: the pages up to one page past
    the heap's end, and no others, are mapped, each to the frame of the same
    number, for the kernel only; exactly these frames are in use; the kernel
    runs on a copy of the kernel directory that shares all its tables; and no
    address is accessible to user mode. *)
Theorem boot_identity_map s mem_size heap_end (m := (heap_end + 8191) / 4096) :
  heap_ok s 1026 → 0 ≤ mem_size < 4294967296 → 0 ≤ heap_end ≤ 4294959104 → m ≤ 32 * (mem_size / 4096 / 32) →
  ∃ s' kd d, mm_paging_init mem_size heap_end s = Some (tt, s') ∧
    dirs s' !! kernel_directory s' = Some kd ∧ dirs s' !! current_directory s' = Some d ∧
    current_directory s' ≠ kernel_directory s' ∧ (∀ j, 0 ≤ j < 1024 → dir_table d j = dir_table kd j) ∧
    mapped s' kd m ∧ mapped s' d m ∧ ∀ w a, 0 ≤ a < 4294967296 → page_ok s' w a = false.
Proof.
  intros Hh Hms Hhe Hm. destruct (pool s) as [|a l] eqn:Hp; [destruct Hh as [_ _ He]; rewrite Hp in He; simpl in He; lia|].
  destruct (boot_start s a l mem_size 1 Hh Hp Hms) as [Hw0 Hm0]. set (s1 := set_kernel _ _) in *.
  destruct (touch_spec (Z.to_nat (heap_end / 0x1000 + 2)) 0 heap_end s1 a.1 zero_dir 1 Hw0 ltac:(lia) ltac:(lia))
    as (s2 & d2 & E2 & Hw2 & Hpm2 & F1 & F2 & F3 & F4).
  assert (mapped s2 d2 0) as Hm2.
  { destruct Hm0 as [Hp0 Hu0 Hok0]. constructor; [intros q Hq; rewrite Hpm2 by done; auto| |by apply (frames_ok_same s1)].
    intros k. unfold limit. rewrite F2, F1. apply Hu0. }
  destruct (map_spec (Z.to_nat (heap_end / 0x1000 + 2)) 0 (heap_end + 0x1000) s2 a.1 d2 1 Hw2 Hm2)
    as (s3 & d3 & E3 & Hw3 & Hm3 & G1 & G2 & G3); [lia|lia|zdm| |zdm|].
  { unfold limit. rewrite F2. unfold s1. cbn [nframes set_kernel set_dirs set_pool]. unfold m in Hm. zdm. }
  replace ((heap_end + 0x1000 + 4095) / 4096) with m in Hm3 by (unfold m; f_equal; lia).
  destruct (clone_kernel (set_current a.1 s3) a.1 d3 0) as (c & d & s4 & E4 & Hc & Hd4 & Hk4 & Ht4 & _ & I1 & I2 & I3 & I4 & I5).
  { destruct Hw3. by constructor. } { cbn. rewrite G3, F4. done. }
  assert (mapped (set_current c s4) d3 m) as Hm4 by (by apply (mapped_same s3 _ d3)).
  exists (set_current c s4), d3, d. split_and!; try done.
  - unfold mm_paging_init. unfold mbind at 1, K_bind at 1, upd at 1. unfold mbind at 1, K_bind at 1, kmalloc_ap at 1.
    cbn [pool]. rewrite Hp. unfold mbind at 1, K_bind at 1, upd at 1.
    lazymatch goal with |- (_ ≫= _) ?x = _ => change x with s1 end. unfold mbind at 1, K_bind at 1. rewrite E2. rewrite u32_small by lia.
    unfold mbind at 1, K_bind at 1. rewrite Z.mul_0_r in E3. rewrite E3. unfold mbind at 1, K_bind at 1, switch_page_directory at 1, upd at 1.
    unfold mbind at 1, K_bind at 1. by rewrite E4.
  - cbn. by rewrite I5.
  - cbn. by rewrite I5.
  - by apply (mapped_same (set_current c s4) _ d3).
  - intros w b Hb. eapply mapped_not_user; [|by apply (mapped_same (set_current c s4) _ d3)|done]. done.
Qed.

(** A machine with 16 MB of memory whose heap ends at 4 MB. *)
Definition demo_boot : vm :=
  mk_vm [] 0 ∅ ∅ ∅ 0 0 ((λ i, (0x100000 + 0x3000 * i, 0x100000 + 0x3000 * i)) <$> seqZ 0 1026).

Lemma boot_identity_map_witness :
  ∃ s' d, mm_paging_init 0x1000000 0x400000 demo_boot = Some (tt, s') ∧ dirs s' !! current_directory s' = Some d ∧
    pm s' d 1024 = identity_page 1024 ∧ pm s' d 1025 = zero_page ∧ page_ok s' false 0x1000 = false.
Proof.
  destruct (boot_identity_map demo_boot 0x1000000 0x400000) as (s' & kd & d & E & _ & Hd & _ & _ & _ & [Hp _ _] & Hu).
  - constructor.
    + unfold demo_boot. cbn [pool]. apply Forall_fmap, Forall_forall. intros i Hi%elem_of_seqZ. cbn [fst tabs dirs compose].
      split_and!; [lia|done|done].
    + unfold demo_boot. cbn [pool]. rewrite <- list_fmap_compose. apply NoDup_fmap_2; [|apply NoDup_seqZ].
      intros i j. cbn. lia.
    + unfold demo_boot. cbn [pool]. rewrite length_fmap, length_seqZ. lia.
  - lia.
  - lia.
  - by apply Z.leb_le.
  - exists s', d. split; [exact E|]. clear E. split_and!; [exact Hd|by rewrite Hp|by rewrite Hp|by apply Hu].
Defined.
End PagingInit.
