(* ===== verification/VMem.v ===== *)
(** * Memory behind a page directory

    What the processor does with a virtual address: the directory and its
    tables give a frame, the frame holds the byte.  The second part follows
    the construction of a private address space: pages of the user window
    are mapped to frames nobody used, so what is written through it reaches
    no other address space. *)

From S2P Require Import Prelude Bytes Paging PagingClone PagingInit.

Module VMem.
Import Paging PagingFrames PagingClone PagingInit.

(** Frame and offset of an address; [None] is a page fault. *)
Definition translate (s : vm) (dirp a : Z) : option (Z * Z) :=
  d ← dirs s !! dirp;
  let pg := pm s d (a / 0x1000) in
  if present pg then Some (frame pg, a mod 0x1000) else None.

Definition vget (s : vm) (dirp a : Z) : option Z :=
  '(k, off) ← translate s dirp a; l ← ram s !! k; l !! Z.to_nat off.

Definition vput (dirp a b : Z) : K unit := λ s,
  '(k, off) ← translate s dirp a; l ← ram s !! k;
  Some (tt, set_ram (<[k := <[Z.to_nat off := b]> l]> (ram s)) s).

(** [memcpy] to, and [memset] of, an address of the directory. *)
Fixpoint vwrite (dirp a : Z) (l : list Z) : K unit :=
  match l with
  | [] => mret tt
  | b :: l' => _ ← vput dirp a b; vwrite dirp (u32 (a + 1)) l'
  end.

Fixpoint vfill (n : nat) (dirp a b : Z) : K unit :=
  match n with
  | O => mret tt
  | S n' => _ ← vput dirp a b; vfill n' dirp (u32 (a + 1)) b
  end.

(** A little-endian word. *)
Definition vput32 (dirp a v : Z) : K unit := vwrite dirp a (le_enc 4 v).

(** ** A private address space under construction *)

(** Page numbers of the user window. *)
Definition user_pn (q : Z) : Prop := 262144 ≤ q < 524288.
Definition user_va (a : Z) : Prop := USER_VADDR_MIN ≤ a < USER_VADDR_MAX.

(** A user page in a frame that was free in [s0]. *)
Record user_page (s0 s : vm) (pg : page) : Prop := {
  up_present : present pg = true;
  up_rw : rw pg = true;
  up_user : user pg = true;
  up_frame : 0 < frame pg < limit s;
  up_fresh : used (frames s0) (frame pg) = false;
  up_used : used (frames s) (frame pg) = true;
}.

(** The address space [d] at [dirp], begun in state [s0]: its user pages are
    in frames that were free then, no two in the same; everything that
    existed in [s0] is as it was. *)
Record space (s0 s : vm) (dirp : Z) (d : page_directory) (e : nat) : Prop := {
  vs_wf : dir_wf s dirp d e;
  vs_ok : frames_ok s;
  vs_n : nframes s = nframes s0;
  vs_zero : used (frames s0) 0 = true;
  vs_page q : user_pn q → pm s d q = zero_page ∨ user_page s0 s (pm s d q);
  vs_inj q q' : user_pn q → user_pn q' → q ≠ q' → frame (pm s d q) ≠ 0 → frame (pm s d q) ≠ frame (pm s d q');
  vs_tables j : 256 ≤ j < 512 → dir_table d j ≠ 0 → tabs s0 !! dir_table d j = None;
  vs_ram k : 0 ≤ k < limit s → ∃ l, ram s !! k = Some l ∧ length l = 4096%nat;
  vs_used k : 0 ≤ k → used (frames s0) k = true → used (frames s) k = true;
  vs_keep k : 0 ≤ k → used (frames s0) k = true → ram s !! k = ram s0 !! k;
  vs_tabs x : is_Some (tabs s0 !! x) → tabs s !! x = tabs s0 !! x;
  vs_dirs x : x ≠ dirp → dirs s !! x = dirs s0 !! x;
  vs_kernel : kernel_directory s = kernel_directory s0;
  vs_current : current_directory s = current_directory s0;
}.

Lemma user_va_pn a : user_va a → user_pn (a / 4096).
Proof. unfold user_va, user_pn, USER_VADDR_MIN, USER_VADDR_MAX. zdm. Qed.

(** [d'] has the pages of [d] and those of [P]. *)
Record remap (s : vm) (d : page_directory) (s' : vm) (d' : page_directory) (P : Z → Prop) : Prop := {
  rm_keep q : user_pn q → pm s d q ≠ zero_page → pm s' d' q = pm s d q;
  rm_new q : user_pn q → P q → pm s' d' q ≠ zero_page;
  rm_only q : user_pn q → ¬ P q → pm s' d' q = pm s d q;
  rm_ram : ram s' = ram s;
  rm_low j : 0 ≤ j < 256 → dir_table d' j = dir_table d j;
}.

Lemma user_page_not_zero s0 s pg : user_page s0 s pg → pg ≠ zero_page.
Proof. by intros [Hp _ _ _ _ _] ->. Qed.

(** One page: [alloc_frame(get_page(a, 1, dir), 0, 1)]. *)
Definition map_user_page (dirp a : Z) : K unit := p ← get_page_make a dirp; alloc_frame p false true.

Lemma alloc_frame_mapped s p pg ik iw :
  entry s p = Some pg → frame pg ≠ 0 → alloc_frame p ik iw s = Some (tt, s).
Proof.
  intros He Hf. unfold alloc_frame. unfold mbind at 1, K_bind at 1. rewrite (load_spec s p pg He).
  destruct (Z.eqb_spec (frame pg) 0); done.
Qed.

Lemma user_page_same s0 s s' pg :
  frames s' = frames s → nframes s' = nframes s → user_page s0 s pg → user_page s0 s' pg.
Proof. intros Ef En []. constructor; unfold limit in *; by rewrite ?Ef, ?En. Qed.

(** Creating a table keeps the space. *)
Lemma space_grown s0 s s1 dirp d d1 e ti :
  space s0 s dirp d e → dir_wf s1 dirp d1 e → grown s s1 dirp d d1 → 0 ≤ ti < 1024 →
  (∀ j, 0 ≤ j → j ≠ ti → dir_table d1 j = dir_table d j) →
  (dir_table d1 ti = dir_table d ti ∨ tabs s !! dir_table d1 ti = None) → space s0 s1 dirp d1 e.
Proof.
  intros [] Hw [Gp Gf Gn Gr Gk Gc Gt Gd] Hti Hj Hnew. constructor; try congruence.
  - by apply (frames_ok_same s).
  - intros q Hq. rewrite Gp by (unfold user_pn in Hq; lia). destruct (vs_page0 q Hq); [by left|right]. by apply (user_page_same _ s).
  - intros q q' Hq Hq'. rewrite !Gp by (unfold user_pn in *; lia). auto.
  - intros j Hr Hne. destruct (decide (j = ti)) as [->|Hn]; [|rewrite Hj in * by lia; by auto].
    destruct Hnew as [E|E]; [rewrite E in *; by auto|]. destruct (tabs s0 !! dir_table d1 ti) eqn:E0; [|done].
    rewrite vs_tabs0 in E by done. congruence.
  - intros k. unfold limit. rewrite Gn, Gr. apply vs_ram0.
  - intros k Hk Hu. rewrite Gf. auto.
  - intros k Hk Hu. rewrite Gr. auto.
  - intros x Hx. rewrite Gt, vs_tabs0; [done|done|]. by rewrite vs_tabs0.
  - intros x Hx. rewrite Gd by done. auto.
Qed.

(** The pointer [get_page] returns is the entry of the page. *)
Lemma pm_entry s dirp d e q :
  dir_wf s dirp d e → 0 ≤ q < 1048576 → dir_table d (q / 1024) ≠ 0 →
  let p := (dir_table d (q / 1024), q mod 1024) in entry s p = Some (pm s d q) ∧ valid_ptr s p.
Proof.
  intros Hw Hq Hne p. destruct (dw_tab _ _ _ _ Hw (q / 1024) ltac:(zdm) Hne) as (tab & Ht & Hl).
  assert (valid_ptr s p) as Hv by (exists tab; split; [done|unfold zlength, p; cbn [snd]; zdm]).
  split; [|done]. destruct (entry_valid _ _ Hv) as [pg He]. unfold pm. fold p.
  destruct (Z.eqb_spec (dir_table d (q / 1024)) 0); [done|]. by rewrite He.
Qed.

(** Filling the empty entry [q] with the fresh frame [k]. *)
Lemma space_alloc s0 s s' dirp d e q k (p := (dir_table d (q / 1024), q mod 1024)) :
  space s0 s dirp d e → user_pn q → dir_table d (q / 1024) ≠ 0 → pm s d q = zero_page → evolves s s' →
  0 ≤ k < limit s → used (frames s) k = false → (∀ j, 0 ≤ j → used (frames s') j = (j =? k) || used (frames s) j) →
  ram s' = ram s → (∀ x, x ≠ p.1 → tabs s' !! x = tabs s !! x) →
  (∀ p', 0 ≤ p'.2 → entry s' p' = if decide (p' = p) then Some (mk_page true true true false false k) else entry s p') →
  (∀ x tab, tabs s !! x = Some tab → ∃ tab', tabs s' !! x = Some tab' ∧ length tab' = length tab) →
  space s0 s' dirp d e ∧
  ∀ q', 0 ≤ q' < 1048576 → pm s' d q' = if decide (q' = q) then mk_page true true true false false k else pm s d q'.
Proof.
  intros [] Hq Hne Hz [Eok En Ed Ek Ec Ep Eu Er] Hk Hfree Hset Hram Htabs Hent Hlen.
  assert (∀ q', 0 ≤ q' < 1048576 → pm s' d q' = if decide (q' = q) then mk_page true true true false false k else pm s d q') as Hpm.
  { intros q' Hq'. unfold pm. case_decide as E.
    - subst q'. destruct (Z.eqb_spec (dir_table d (q / 1024)) 0); [done|]. fold p. rewrite Hent by (unfold p; cbn; zdm).
      by rewrite decide_True.
    - destruct (Z.eqb_spec (dir_table d (q' / 1024)) 0) as [|Hne']; [done|]. rewrite Hent by (cbn; zdm).
      rewrite decide_False; [done|]. unfold p. intros [= Ea Eb]. apply E. unfold user_pn in Hq.
      destruct (decide (q' / 1024 = q / 1024)); [zdm|]. exfalso.
      by apply (dw_inj _ _ _ _ vs_wf0 (q' / 1024) (q / 1024) ltac:(zdm) ltac:(zdm)). }
  assert (k ≠ 0) as Hk0 by (intros ->; rewrite vs_used0 in Hfree; done).
  assert (user_page s0 s' (mk_page true true true false false k)) as Hup.
  { constructor; cbn [present rw user frame]; try done.
    - unfold limit in *. rewrite En. lia.
    - apply not_true_is_false. intros Hu. apply vs_used0 in Hu; [congruence|lia].
    - rewrite Hset by lia. by rewrite Z.eqb_refl. }
  assert (∀ pg, user_page s0 s pg → user_page s0 s' pg ∧ frame pg ≠ k) as Hother.
  { intros pg []. split; [constructor; try done; [unfold limit in *; by rewrite En|apply Eu; [lia|done]]|]. intros E. rewrite E in *. congruence. }
  split; [|done]. constructor; try congruence; try done.
  - destruct vs_wf0 as [W1 W2 W3 W4 W5 W6 W7]. constructor; rewrite ?Ed, ?Ep; try done.
    + intros i Hi Hn. destruct (W3 i Hi Hn) as (t & Ht & Hl). destruct (Hlen _ _ Ht) as (t' & ? & ?). exists t'. split; [done|lia].
    + eapply Forall_impl; [exact W5|]. intros a (? & Ht & ?). split_and!; [done| |done].
      rewrite Htabs; [done|]. intros E. unfold p in E. cbn in E. rewrite E in Ht.
      destruct (W3 (q / 1024) ltac:(unfold user_pn in Hq; zdm) Hne) as (? & ? & _). congruence.
  - intros q' Hq'. rewrite Hpm by (unfold user_pn in Hq'; lia). case_decide; [by right|].
    destruct (vs_page0 q' Hq') as [|Hu]; [by left|right; by apply Hother].
  - intros q1 q2 H1 H2 Hn. rewrite !Hpm by (unfold user_pn in *; lia).
    assert (∀ q', user_pn q' → frame (pm s d q') ≠ k) as Hnk.
    { intros q' Hq'. destruct (vs_page0 q' Hq') as [->|Hu]; [done|by apply Hother]. }
    repeat case_decide; subst; cbn [frame]; try done; auto.
    intros _. by apply not_eq_sym, Hnk.
  - intros j. unfold limit. rewrite En, Hram. apply vs_ram0.
  - intros j Hj Hu. apply Eu; [done|]. by apply vs_used0.
  - intros j Hj Hu. rewrite Hram. auto.
  - intros x Hx. rewrite Htabs; [by apply vs_tabs0|]. unfold p. cbn. intros ->.
    rewrite vs_tables0 in Hx by (unfold user_pn in Hq; (done || zdm)). by destruct Hx.
  - intros x Hx. rewrite Ed. auto.
Qed.

Lemma remap_refl s d (P : Z → Prop) : (∀ q, user_pn q → P q → pm s d q ≠ zero_page) → remap s d s d P.
Proof. by constructor. Qed.

Lemma remap_trans s1 d1 s2 d2 s3 d3 P Q :
  remap s1 d1 s2 d2 P → remap s2 d2 s3 d3 Q → remap s1 d1 s3 d3 (λ q, P q ∨ Q q).
Proof.
  intros [K1 N1 O1 R1 L1] [K2 N2 O2 R2 L2]. constructor.
  - intros q Hq Hne. rewrite K2, K1; try done. by rewrite K1.
  - intros q Hq [HP|HQ]; [|by auto]. rewrite K2; [by auto|done|by auto].
  - intros q Hq Hn. rewrite O2, O1; auto.
  - congruence.
  - intros j Hj. rewrite L2, L1; done.
Qed.

Lemma remap_iff s d s' d' P Q : (∀ q, user_pn q → P q ↔ Q q) → remap s d s' d' P → remap s d s' d' Q.
Proof. intros H []. constructor; try done; intros q Hq; rewrite <- H by done; auto. Qed.

Lemma map_user_page_spec s0 s dirp d e a :
  space s0 s dirp d e → user_va a → (0 < nfree s)%nat →
  ∃ s' d', map_user_page dirp a s = Some (tt, s') ∧ space s0 s' dirp d' e ∧
    remap s d s' d' (λ q, q = a / 4096) ∧ (nfree s ≤ S (nfree s'))%nat.
Proof.
  intros Hs Ha Hn. pose proof (user_va_pn a Ha) as Hq. set (q := a / 4096) in *. unfold user_va, USER_VADDR_MIN, USER_VADDR_MAX in Ha.
  destruct (get_make_spec s dirp d e a (vs_wf _ _ _ _ _ Hs) ltac:(lia)) as (p & s1 & d1 & E1 & Hw1 & Hp & Hne & Hg & Hj & Hnew).
  fold q in Hp, Hne, Hj, Hnew. assert (space s0 s1 dirp d1 e) as Hs1 by (apply (space_grown s0 s s1 dirp d d1 e (q / 1024)); first [done|unfold q; zdm]).
  unfold user_pn in Hq. destruct (pm_entry s1 dirp d1 e q Hw1 ltac:(lia) Hne) as [He Hv]. rewrite <- Hp in He, Hv.
  assert (∀ j, 0 ≤ j < 256 → dir_table d1 j = dir_table d j) as Hlow by (intros; apply Hj; [lia|zdm]).
  assert (nfree s1 = nfree s) as Hnf by (unfold nfree, free_frames, limit; by rewrite (gr_frames _ _ _ _ _ Hg), (gr_n _ _ _ _ _ Hg)).
  unfold map_user_page, mbind, K_bind. rewrite E1. destruct (vs_page _ _ _ _ _ Hs1 q Hq) as [Hz|Hu].
  - rewrite Hz in He. destruct (alloc_frame_spec s1 p zero_page false true) as (k & s' & E2 & Hev & Hnf' & Hk & Hfr & _ & Hset & Hram & Hent & Htabs & Hlen);
      [apply Hs1|done|done|done|lia|]. rewrite Hp in Htabs, Hent.
    destruct (space_alloc s0 s1 s' dirp d1 e q k) as [Hs' Hpm]; try done.
    exists s', d1. split_and!; [done|done| |lia]. constructor.
    + intros q' Hq' Hnz. rewrite Hpm by (unfold user_pn in Hq'; lia). rewrite decide_False.
      * apply Hg. unfold user_pn in Hq'. lia.
      * intros ->. rewrite <- (gr_pm _ _ _ _ _ Hg) in Hnz by (unfold user_pn in Hq'; lia). done.
    + intros q' Hq' ->. rewrite Hpm by (unfold user_pn in Hq'; lia). by rewrite decide_True.
    + intros q' Hq' Hn'. rewrite Hpm by (unfold user_pn in Hq'; lia). rewrite decide_False by done. apply Hg. unfold user_pn in Hq'. lia.
    + rewrite Hram. apply Hg.
    + done.
  - rewrite (alloc_frame_mapped s1 p _ _ _ He) by (destruct Hu; lia). exists s1, d1. split_and!; [done|done| |lia].
    assert (∀ q', user_pn q' → pm s1 d1 q' = pm s d q') as Hpm by (intros q' Hq'; apply Hg; unfold user_pn in Hq'; lia).
    constructor; try done; [by auto| |by auto|apply Hg]. intros q' Hq' ->. by apply (user_page_not_zero s0 s1).
Qed.

(** The loop [for (; a < end; a += 0x1000)]; the fuel counts the rounds up to
    [end], and a loop that goes on beyond it has wrapped around and never
    ends. *)
Fixpoint map_user_range (n : nat) (a endp dirp : Z) : K unit :=
  match n with
  | O => if a <? endp then panic else mret tt
  | S n' => if a <? endp then _ ← map_user_page dirp a; map_user_range n' (u32 (a + 0x1000)) endp dirp else mret tt
  end.

Lemma map_user_range_spec n s0 s dirp d e q endp :
  space s0 s dirp d e → 262144 ≤ q → endp ≤ USER_VADDR_MAX →
  endp ≤ 4096 * (q + Z.of_nat n) → (Z.to_nat ((endp - 4096 * q + 4095) / 4096) ≤ nfree s)%nat →
  ∃ s' d', map_user_range n (4096 * q) endp dirp s = Some (tt, s') ∧ space s0 s' dirp d' e ∧
    remap s d s' d' (λ q', q ≤ q' ∧ 4096 * q' < endp) ∧
    (nfree s ≤ nfree s' + Z.to_nat ((endp - 4096 * q + 4095) / 4096))%nat.
Proof.
  revert q s d. unfold USER_VADDR_MAX. induction n as [|n IH]; intros q s d Hs Hq He Hn Hf; cbn [map_user_range];
    destruct (Z.ltb_spec (4096 * q) endp) as [Hlt|Hge]; try (exfalso; lia);
    try (exists s, d; split_and!; [done|done|apply remap_refl; intros; lia|lia]).
  destruct (map_user_page_spec s0 s dirp d e (4096 * q) Hs) as (s1 & d1 & E1 & Hs1 & Hr1 & Hf1);
    [unfold user_va, USER_VADDR_MIN, USER_VADDR_MAX; lia|zdm|].
  rewrite u32_small by lia. replace (4096 * q + 0x1000) with (4096 * (q + 1)) by lia.
  destruct (IH (q + 1) s1 d1 Hs1 ltac:(lia) He ltac:(lia)) as (s2 & d2 & E2 & Hs2 & Hr2 & Hf2); [zdm|].
  exists s2, d2. split_and!; [unfold mbind, K_bind; by rewrite E1|done| |zdm].
  eapply remap_iff; [|by eapply remap_trans]. intros q' _. cbv beta.
  replace (4096 * q / 4096) with q by (rewrite Z.mul_comm; by rewrite Z.div_mul). split; [intros [->|?]; lia|intros; destruct (decide (q' = q)); [by left|right; lia]].
Qed.

(** ** Writing *)

(** What a write changes: the contents of the space's own frames. *)
Record wrote (s s' : vm) : Prop := {
  wr_frames : frames s' = frames s;
  wr_n : nframes s' = nframes s;
  wr_tabs : tabs s' = tabs s;
  wr_dirs : dirs s' = dirs s;
  wr_pool : pool s' = pool s;
  wr_kernel : kernel_directory s' = kernel_directory s;
  wr_current : current_directory s' = current_directory s;
}.

Lemma wrote_trans s1 s2 s3 : wrote s1 s2 → wrote s2 s3 → wrote s1 s3.
Proof. intros [] []. constructor; congruence. Qed.

Lemma wrote_pm s s' d q : wrote s s' → pm s' d q = pm s d q.
Proof. intros []. unfold pm, entry. by rewrite wr_tabs0. Qed.

Lemma vget_page s dirp d a :
  dirs s !! dirp = Some d →
  vget s dirp a = if present (pm s d (a / 0x1000)) then l ← ram s !! frame (pm s d (a / 0x1000)); l !! Z.to_nat (a mod 0x1000) else None.
Proof. intros Hd. unfold vget, translate. rewrite Hd. cbn. by destruct (present _). Qed.

Lemma vput_spec s0 s dirp d e a b :
  space s0 s dirp d e → user_va a → pm s d (a / 4096) ≠ zero_page →
  ∃ s', vput dirp a b s = Some (tt, s') ∧ space s0 s' dirp d e ∧ wrote s s' ∧
    ∀ a', user_va a' → vget s' dirp a' = if decide (a' = a) then Some b else vget s dirp a'.
Proof.
  intros Hs Ha Hnz. pose proof (user_va_pn a Ha) as Hq. pose proof Hs as [].
  destruct (vs_page0 _ Hq) as [|[U1 U2 U3 U4 U5 U6]]; [done|]. set (k := frame (pm s d (a / 4096))) in *.
  destruct (vs_ram0 k ltac:(lia)) as (l & Hl & Hlen). pose proof (dw_dir _ _ _ _ vs_wf0) as Hd.
  set (s' := set_ram (<[k := <[Z.to_nat (a mod 4096) := b]> l]> (ram s)) s).
  assert (wrote s s') as Hwr by done. exists s'. split_and!; [|constructor; try done|done|].
  - unfold vput, translate. rewrite Hd. cbn. change (a / 0x1000) with (a / 4096). rewrite U1. cbn. fold k. by rewrite Hl.
  - by destruct vs_wf0.
  - by destruct vs_ok0.
  - intros q Hq'. destruct (vs_page0 q Hq') as [|Hu]; [by left|right]. by apply (user_page_same s0 s).
  - intros j Hj. unfold s'. cbn. destruct (decide (j = k)) as [->|]; [|rewrite lookup_insert_ne by done; by auto].
    rewrite lookup_insert_eq. eexists. split; [done|]. by rewrite length_insert.
  - intros j Hj Hu. unfold s'. cbn. rewrite lookup_insert_ne; [by auto|]. intros <-. congruence.
  - intros a' Ha'. rewrite !(vget_page _ _ d) by done. rewrite (wrote_pm s s') by done. change (a' / 0x1000) with (a' / 4096).
    pose proof (user_va_pn a' Ha') as Hq'. destruct (decide (a' / 4096 = a / 4096)) as [Eq|Nq].
    + rewrite Eq, U1. fold k. rewrite Hl. unfold s'. cbn [ram set_ram]. rewrite lookup_insert_eq. cbn [mbind option_bind].
      destruct (decide (a' = a)) as [->|Hne].
      * apply list_lookup_insert_eq. zdm.
      * apply list_lookup_insert_ne. zdm.
    + rewrite decide_False by congruence. destruct (present (pm s d (a' / 4096))); [|done].
      unfold s'. cbn [ram set_ram]. rewrite lookup_insert_ne; [done|]. unfold k.
      apply vs_inj0; [done|done|by apply not_eq_sym|]. fold k. lia.
Qed.

(** The pages behind a range are mapped. *)
Definition backed (s : vm) (d : page_directory) (a n : Z) : Prop :=
  USER_VADDR_MIN ≤ a ∧ a + n ≤ USER_VADDR_MAX ∧ ∀ a', a ≤ a' < a + n → pm s d (a' / 4096) ≠ zero_page.

Lemma vwrite_spec l s0 s dirp d e a :
  space s0 s dirp d e → backed s d a (zlength l) →
  ∃ s', vwrite dirp a l s = Some (tt, s') ∧ space s0 s' dirp d e ∧ wrote s s' ∧
    ∀ a', user_va a' → vget s' dirp a' = if decide (a ≤ a' < a + zlength l) then l !! Z.to_nat (a' - a) else vget s dirp a'.
Proof.
  revert s a. induction l as [|b l IH]; intros s a Hs (H1 & H2 & H3); cbn [vwrite].
  { exists s. split_and!; [done|done|done|]. intros a' _. rewrite decide_False; [done|]. unfold zlength. cbn. lia. }
  rewrite zlength_cons in *. pose proof (zlength_nonneg l). unfold USER_VADDR_MIN, USER_VADDR_MAX in H1, H2.
  destruct (vput_spec s0 s dirp d e a b Hs) as (s1 & E1 & Hs1 & Hw1 & Hg1);
    [unfold user_va, USER_VADDR_MIN, USER_VADDR_MAX; lia|apply H3; lia|].
  rewrite u32_small by lia. destruct (IH s1 (a + 1) Hs1) as (s2 & E2 & Hs2 & Hw2 & Hg2).
  { split_and!; [unfold USER_VADDR_MIN; lia|unfold USER_VADDR_MAX; lia|]. intros a' Ha'. rewrite (wrote_pm s s1) by done. apply H3. lia. }
  exists s2. split_and!; [unfold mbind, K_bind; by rewrite E1|done|by eapply wrote_trans|].
  intros a' Ha'. rewrite Hg2, Hg1 by done. repeat case_decide; try lia; try done.
  - replace (Z.to_nat (a' - a)) with (S (Z.to_nat (a' - (a + 1)))) by lia. done.
  - subst. by rewrite Z.sub_diag.
Qed.

Lemma vfill_write n dirp a b : vfill n dirp a b = vwrite dirp a (replicate n b).
Proof. revert a. induction n as [|n IH]; intros a; cbn; [done|]. by rewrite IH. Qed.
End VMem.
