(* ===== verification/Elf.v ===== *)
(** * The program loader (kernel/elf.c, include/elf.h)

    [elf_load] is elf_exec between reading the file and spawn_task: it
    checks the image, builds the address space and lays out the stack.  The
    file is the bytes vfs_read delivered.  In the monad of the paging model
    [None] is a panic, a kernel page fault, a read of program headers beyond
    the bytes delivered, or an endless loop. *)

From S2P Require Import Prelude Bytes Paging PagingClone PagingInit VMem.

Module Elf.
Import Paging PagingFrames VMem.

(** ** The image *)

(** struct elf32_ehdr: the fields the loader reads, at their offsets. *)
Definition sizeof_ehdr : Z := 52.
Definition e_entry (buf : list Z) : Z := rd32 buf 24.
Definition e_phoff (buf : list Z) : Z := rd32 buf 28.
Definition e_phentsize (buf : list Z) : Z := rd16 buf 42.
Definition e_phnum (buf : list Z) : Z := rd16 buf 44.

(** struct elf32_phdr. *)
Record elf32_phdr := mk_phdr {
  p_type : Z;
  p_offset : Z;
  p_vaddr : Z;
  p_paddr : Z;
  p_filesz : Z;
  p_memsz : Z;
  p_flags : Z;
  p_align : Z;
}.

Definition sizeof_phdr : Z := 32.
Definition PT_LOAD : Z := 1.

Definition read_phdr (buf : list Z) (off : Z) : elf32_phdr :=
  mk_phdr (rd32 buf off) (rd32 buf (off + 4)) (rd32 buf (off + 8)) (rd32 buf (off + 12))
          (rd32 buf (off + 16)) (rd32 buf (off + 20)) (rd32 buf (off + 24)) (rd32 buf (off + 28)).

(** [(struct elf32_phdr * )(buf + eh->e_phoff + i * eh->e_phentsize)];
    [None] when the header is not inside the buffer. *)
Definition phdr_at (buf : list Z) (i : Z) : option elf32_phdr :=
  let off := e_phoff buf + u32 (i * e_phentsize buf) in
  if off + sizeof_phdr <=? zlength buf then Some (read_phdr buf off) else None.

Definition elf_is_valid (buf : list Z) : bool :=
  (bget buf 0 =? 0x7F) && (bget buf 1 =? 69) && (bget buf 2 =? 76) && (bget buf 3 =? 70).

(** The program header table lies inside the file. *)
Definition table_in_file (buf : list Z) : bool :=
  let got := zlength buf in
  negb ((e_phoff buf >? got) || (u32 (e_phnum buf * e_phentsize buf) >? u32 (got - e_phoff buf))).

(** The check of one PT_LOAD segment. *)
Definition segment_ok (got : Z) (ph : elf32_phdr) : bool :=
  negb ((p_offset ph >? got) || (p_filesz ph >? u32 (got - p_offset ph)) || (p_filesz ph >? p_memsz ph) ||
        (p_vaddr ph <? USER_VADDR_MIN) || (p_memsz ph >? u32 (USER_VADDR_MAX - p_vaddr ph))).

(** The loop of the checks over [n] headers from [i] on. *)
Fixpoint check_segments (n : nat) (buf : list Z) (i : Z) : option bool :=
  match n with
  | O => Some true
  | S n' =>
      ph ← phdr_at buf i;
      if negb (p_type ph =? PT_LOAD) then check_segments n' buf (i + 1)
      else if segment_ok (zlength buf) ph then check_segments n' buf (i + 1)
      else Some false
  end.

(** ** Arguments *)

Definition USER_STACK_TOP : Z := 0x50000000.
Definition USER_STACK_SIZE : Z := 0x4000.
Definition EXEC_MAX_ARGS : Z := 16.
Definition EXEC_ARG_BYTES : Z := 1024.

(** The caller's memory. *)
Definition umem (s : vm) (a : Z) : Z := default 0 (vget s (current_directory s) a).

(** The bytes from [a] to the NUL, at most [n]. *)
Fixpoint cstring (n : nat) (mem : Z → Z) (a : Z) : list Z :=
  match n with
  | O => []
  | S n' => if mem a =? 0 then [] else mem a :: cstring n' mem (u32 (a + 1))
  end.

(** The collection loop from [argc] on; [argused] bytes of the argument
    buffer are taken.  [n] is the number of rounds left of EXEC_MAX_ARGS. *)
Fixpoint collect (n : nat) (s : vm) (argv argc argused : Z) : list (list Z) :=
  match n with
  | O => []
  | S n' =>
      let slot := u32 (argv + 4 * argc) in
      if negb (user_ok s slot 4 false) then [] else
      let p := le_dec [umem s slot; umem s (slot + 1); umem s (slot + 2); umem s (slot + 3)] in
      if negb (user_str_ok s (umem s) p EXEC_ARG_BYTES) then [] else
      let str := cstring (Z.to_nat EXEC_ARG_BYTES) (umem s) p in
      let len := zlength str + 1 in
      if argused + len >? EXEC_ARG_BYTES then []
      else str :: collect n' s argv (argc + 1) (argused + len)
  end.

Definition collect_args (s : vm) (argv : Z) : list (list Z) :=
  if argv =? 0 then [] else collect (Z.to_nat EXEC_MAX_ARGS) s argv 0 0.

(** ** Building the address space *)

Definition page_base (a : Z) : Z := Z.land a (u32 (Z.lnot 0xFFF)).

(** [for (a = p_vaddr & ~0xFFF; a < p_vaddr + p_memsz; a += 0x1000) ...]. *)
Definition map_segment (dirp : Z) (ph : elf32_phdr) : K unit :=
  let endp := u32 (p_vaddr ph + p_memsz ph) in
  map_user_range (Z.to_nat ((endp - page_base (p_vaddr ph)) / 0x1000 + 1)) (page_base (p_vaddr ph)) endp dirp.

Definition copy_segment (dirp : Z) (buf : list Z) (ph : elf32_phdr) : K unit :=
  _ ← vwrite dirp (p_vaddr ph) (slice buf (p_offset ph) (p_filesz ph));
  if p_memsz ph >? p_filesz ph
  then vfill (Z.to_nat (p_memsz ph - p_filesz ph)) dirp (u32 (p_vaddr ph + p_filesz ph)) 0
  else mret tt.

(** A loop over the PT_LOAD headers. *)
Fixpoint each_segment (n : nat) (buf : list Z) (i : Z) (f : elf32_phdr → K unit) : K unit :=
  match n with
  | O => mret tt
  | S n' =>
      match phdr_at buf i with
      | None => panic
      | Some ph =>
          _ ← (if negb (p_type ph =? PT_LOAD) then mret tt else f ph);
          each_segment n' buf (i + 1) f
      end
  end.

(** Push the argument strings: the pointer to each and the new stack
    pointer. *)
Fixpoint push_strings (dirp usp : Z) (args : list (list Z)) : K (list Z * Z) :=
  match args with
  | [] => mret ([], usp)
  | a :: l =>
      let usp := u32 (usp - (zlength a + 1)) in
      _ ← vwrite dirp usp (a ++ [0]);
      r ← push_strings dirp usp l;
      mret (usp :: r.1, r.2)
  end.

(** Store the words [l] from [a] on. *)
Fixpoint put_words (dirp a : Z) (l : list Z) : K unit :=
  match l with
  | [] => mret tt
  | w :: l' => _ ← vput32 dirp a w; put_words dirp (u32 (a + 4)) l'
  end.

(** The initial stack: strings, argv array, argv, argc and a return
    address; the final stack pointer. *)
Definition build_stack (dirp : Z) (args : list (list Z)) : K Z :=
  let argc := zlength args in
  r ← push_strings dirp USER_STACK_TOP args;
  let uargv := u32 (Z.land r.2 (u32 (Z.lnot 3)) - (argc + 1) * 4) in
  _ ← put_words dirp uargv r.1;
  _ ← vput32 dirp (u32 (uargv + 4 * argc)) 0;
  _ ← vput32 dirp (u32 (uargv - 4)) uargv;
  _ ← vput32 dirp (u32 (uargv - 8)) argc;
  _ ← vput32 dirp (u32 (uargv - 12)) 0;
  mret (u32 (uargv - 12)).

(** What spawn_task gets. *)
Record image := mk_image { im_entry : Z; im_dir : Z; im_esp : Z }.

(** [None] inside the monad is -1. *)
Definition elf_load (buf : list Z) (args : list (list Z)) : K (option image) :=
  if zlength buf <? sizeof_ehdr then mret None else
  if negb (elf_is_valid buf) then mret None else
  if negb (table_in_file buf) then mret None else
  let n := Z.to_nat (e_phnum buf) in
  match check_segments n buf 0 with
  | None => panic
  | Some false => mret None
  | Some true =>
      kd ← get kernel_directory;
      dir ← clone_directory kd;
      _ ← each_segment n buf 0 (map_segment dir);
      _ ← map_user_range (Z.to_nat (USER_STACK_SIZE / 0x1000)) (USER_STACK_TOP - USER_STACK_SIZE) USER_STACK_TOP dir;
      _ ← each_segment n buf 0 (copy_segment dir buf);
      _ ← vfill (Z.to_nat USER_STACK_SIZE) dir (USER_STACK_TOP - USER_STACK_SIZE) 0;
      usp ← build_stack dir args;
      mret (Some (mk_image (e_entry buf) dir usp))
  end.
End Elf.

(** * What the loader builds

    A program image that passes the checks and stays in the user window is
    loaded as a whole: every segment's bytes at its addresses, zeros behind
    them, and a stack from which [_start(argc, argv)] finds its arguments,
    all in frames nobody used before. *)

Module ElfSpec.
Import Paging PagingFrames PagingClone PagingInit VMem Elf.

(** ** Memory as a function *)

Definition mem_upd (m : Z → option Z) (a : Z) (l : list Z) : Z → option Z :=
  λ x, if decide (a ≤ x < a + zlength l) then l !! Z.to_nat (x - a) else m x.

(** The bytes [l] are at [a]. *)
Definition holds (m : Z → option Z) (a : Z) (l : list Z) : Prop :=
  ∀ i, 0 ≤ i < zlength l → m (a + i) = l !! Z.to_nat i.

Lemma holds_upd m a l : holds (mem_upd m a l) a l.
Proof. intros i Hi. unfold mem_upd. rewrite decide_True by lia. f_equal. lia. Qed.

Lemma holds_upd_ne m a l b k :
  b + zlength k ≤ a ∨ a + zlength l ≤ b → holds m b k → holds (mem_upd m a l) b k.
Proof. intros Hd H i Hi. unfold mem_upd. rewrite decide_False by lia. auto. Qed.

Lemma holds_app m a l k : holds m a (l ++ k) ↔ holds m a l ∧ holds m (a + zlength l) k.
Proof.
  unfold holds. setoid_rewrite zlength_app. pose proof (zlength_nonneg l). pose proof (zlength_nonneg k). split.
  - intros Hh. split.
    + intros i Hi. rewrite Hh by lia. apply lookup_app_l. unfold zlength in *. lia.
    + intros i Hi. rewrite <- Z.add_assoc, Hh by lia. rewrite lookup_app_r by (unfold zlength in *; lia).
      f_equal. unfold zlength in *. lia.
  - intros [H1 H2] i Hi. destruct (decide (i < zlength l)).
    + rewrite H1 by lia. symmetry. apply lookup_app_l. unfold zlength in *. lia.
    + replace (a + i) with (a + zlength l + (i - zlength l)) by lia. rewrite H2 by lia.
      rewrite lookup_app_r by (unfold zlength in *; lia). f_equal. unfold zlength in *. lia.
Qed.

(** The address space at [dirp] has memory [m]. *)
Definition agree (s : vm) (dirp : Z) (m : Z → option Z) : Prop := ∀ a, user_va a → vget s dirp a = m a.

Lemma backed_wrote s s' d a n : wrote s s' → backed s d a n → backed s' d a n.
Proof. intros Hw (H1 & H2 & H3). split_and!; [done|done|]. intros a' Ha'. rewrite (wrote_pm s s') by done. auto. Qed.

Lemma backed_sub s d a n b k : backed s d a n → a ≤ b → b + k ≤ a + n → backed s d b k.
Proof. intros (H1 & H2 & H3) Ha Hb. unfold backed, USER_VADDR_MIN, USER_VADDR_MAX in *. split_and!; [lia|lia|]. intros; apply H3; lia. Qed.

(** States and memory along a sequence of writes. *)
Record writing (s0 s : vm) (dirp : Z) (d : page_directory) (e : nat) (m : Z → option Z) (s' : vm) (m' : Z → option Z) : Prop := {
  wg_space : space s0 s' dirp d e;
  wg_wrote : wrote s s';
  wg_agree : agree s' dirp m';
}.

Lemma writing_trans s0 s1 s2 s3 dirp d e m1 m2 m3 :
  writing s0 s1 dirp d e m1 s2 m2 → writing s0 s2 dirp d e m2 s3 m3 → writing s0 s1 dirp d e m1 s3 m3.
Proof. intros [] []. constructor; [done|by eapply wrote_trans|done]. Qed.

Section writes.
Context (s0 : vm) (dirp : Z) (d : page_directory) (e : nat).

Lemma vwrite_mem l s m a :
  space s0 s dirp d e → agree s dirp m → backed s d a (zlength l) →
  ∃ s', vwrite dirp a l s = Some (tt, s') ∧ writing s0 s dirp d e m s' (mem_upd m a l).
Proof.
  intros Hs Hm Hb. destruct (vwrite_spec l s0 s dirp d e a Hs Hb) as (s' & E & Hs' & Hw & Hg).
  exists s'. split; [done|]. constructor; [done|done|]. intros x Hx. rewrite Hg by done. unfold mem_upd. case_decide; [done|by apply Hm].
Qed.

Lemma vput32_mem s m a v :
  space s0 s dirp d e → agree s dirp m → backed s d a 4 →
  ∃ s', vput32 dirp a v s = Some (tt, s') ∧ writing s0 s dirp d e m s' (mem_upd m a (le_enc 4 v)).
Proof. intros. by apply vwrite_mem. Qed.

(** ** Segments *)

Definition segment_bytes (buf : list Z) (ph : elf32_phdr) : list Z :=
  slice buf (p_offset ph) (p_filesz ph) ++ replicate (Z.to_nat (p_memsz ph - p_filesz ph)) 0.

(** The facts the checks give for a segment that starts in the window. *)
Record placed (buf : list Z) (ph : elf32_phdr) : Prop := {
  pl_lo : USER_VADDR_MIN ≤ p_vaddr ph;
  pl_hi : p_vaddr ph + p_memsz ph ≤ USER_VADDR_MAX;
  pl_off : 0 ≤ p_offset ph;
  pl_file : p_offset ph + p_filesz ph ≤ zlength buf;
  pl_size : 0 ≤ p_filesz ph ≤ p_memsz ph;
}.

Lemma length_segment_bytes buf ph : placed buf ph → zlength (segment_bytes buf ph) = p_memsz ph.
Proof.
  intros []. unfold segment_bytes. rewrite zlength_app. unfold zlength in *. rewrite length_slice by (unfold zlength; lia).
  rewrite length_replicate. lia.
Qed.

Lemma mem_upd_app m a l k x : mem_upd (mem_upd m a l) (a + zlength l) k x = mem_upd m a (l ++ k) x.
Proof.
  unfold mem_upd. rewrite zlength_app. pose proof (zlength_nonneg l). pose proof (zlength_nonneg k).
  repeat case_decide; try lia; try done.
  - rewrite lookup_app_r by (unfold zlength in *; lia). f_equal. unfold zlength in *. lia.
  - symmetry. apply lookup_app_l. unfold zlength in *. lia.
Qed.

Lemma copy_segment_mem buf ph s m :
  space s0 s dirp d e → agree s dirp m → placed buf ph → backed s d (p_vaddr ph) (p_memsz ph) →
  ∃ s', copy_segment dirp buf ph s = Some (tt, s') ∧
    writing s0 s dirp d e m s' (mem_upd m (p_vaddr ph) (segment_bytes buf ph)).
Proof.
  intros Hs Hm Hp Hb. pose proof Hp as []. unfold copy_segment. set (l := slice buf (p_offset ph) (p_filesz ph)).
  assert (zlength l = p_filesz ph) as Hl by (unfold zlength, l in *; rewrite length_slice; unfold zlength; lia).
  destruct (vwrite_mem l s m (p_vaddr ph) Hs Hm) as (s1 & E1 & [Hs1 Hw1 Hm1]); [eapply backed_sub; [done|lia|lia]|].
  unfold mbind, K_bind. rewrite E1. set (k := replicate (Z.to_nat (p_memsz ph - p_filesz ph)) 0).
  assert (zlength k = p_memsz ph - p_filesz ph) as Hk by (unfold zlength, k; rewrite length_replicate; lia).
  destruct (Z.gtb_spec (p_memsz ph) (p_filesz ph)).
  - unfold USER_VADDR_MIN, USER_VADDR_MAX in *. rewrite u32_small by lia. rewrite vfill_write. fold k.
    destruct (vwrite_mem k s1 _ (p_vaddr ph + p_filesz ph) Hs1 Hm1) as (s2 & E2 & [Hs2 Hw2 Hm2]).
    { eapply (backed_sub _ _ (p_vaddr ph)); [by eapply backed_wrote|lia|lia]. }
    exists s2. split; [done|]. constructor; [done|by eapply wrote_trans|]. intros x Hx. rewrite Hm2 by done.
    rewrite <- Hl. apply mem_upd_app.
  - exists s1. split; [done|]. constructor; [done|done|]. intros x Hx. rewrite Hm1 by done. unfold segment_bytes. fold l. fold k.
    assert (k = []) as -> by (apply nil_length_inv; unfold zlength in Hk; lia). by rewrite app_nil_r.
Qed.
End writes.

(** ** Loops over the segments *)

(** The PT_LOAD headers among the [n] from [i] on. *)
Fixpoint loads (n : nat) (buf : list Z) (i : Z) : list elf32_phdr :=
  match n with
  | O => []
  | S n' =>
      match phdr_at buf i with
      | Some ph => if p_type ph =? PT_LOAD then ph :: loads n' buf (i + 1) else loads n' buf (i + 1)
      | None => []
      end
  end.

Definition segments (buf : list Z) : list elf32_phdr := loads (Z.to_nat (e_phnum buf)) buf 0.

Fixpoint run_all (f : elf32_phdr → K unit) (l : list elf32_phdr) : K unit :=
  match l with
  | [] => mret tt
  | ph :: l' => _ ← f ph; run_all f l'
  end.

Lemma check_loads n buf i :
  check_segments n buf i = Some true →
  Forall (λ ph, segment_ok (zlength buf) ph = true) (loads n buf i) ∧
  ∀ f s, each_segment n buf i f s = run_all f (loads n buf i) s.
Proof.
  revert i. induction n as [|n IH]; intros i; cbn [check_segments each_segment loads]; [done|].
  destruct (phdr_at buf i) as [ph|]; cbn [mbind option_bind]; [|done].
  destruct (p_type ph =? PT_LOAD); cbn [negb]; [|intros H; by apply IH].
  destruct (segment_ok _ ph) eqn:Hok; [|done]. intros H. destruct (IH _ H) as [IH1 IH2].
  split; [by constructor|]. intros f s. cbn [run_all]. unfold mbind, K_bind. destruct (f ph s) as [[[] s']|]; [apply IH2|done].
Qed.

Definition wf_header (ph : elf32_phdr) : Prop :=
  0 ≤ p_offset ph < 4294967296 ∧ 0 ≤ p_vaddr ph < 4294967296 ∧ 0 ≤ p_filesz ph < 4294967296 ∧ 0 ≤ p_memsz ph < 4294967296.

Lemma segment_ok_placed buf ph :
  segment_ok (zlength buf) ph = true → wf_header ph → zlength buf < 4294967296 → p_vaddr ph < USER_VADDR_MAX → placed buf ph.
Proof.
  unfold segment_ok, USER_VADDR_MIN, USER_VADDR_MAX. intros H (H1 & H2 & H3 & H4) Hl Hv. apply negb_true_iff in H. boolp.
  rewrite u32_small in * by lia. constructor; unfold USER_VADDR_MIN, USER_VADDR_MAX; lia.
Qed.

(** Page [q] is touched by the mapping of the segment. *)
Definition touches (ph : elf32_phdr) (q : Z) : Prop := p_vaddr ph / 4096 ≤ q ∧ 4096 * q < p_vaddr ph + p_memsz ph.

Definition seg_pages (ph : elf32_phdr) : nat :=
  Z.to_nat ((p_vaddr ph + p_memsz ph - 4096 * (p_vaddr ph / 4096) + 4095) / 4096).

(** An upper bound of the frames the segments need. *)
Fixpoint total_pages (l : list elf32_phdr) : nat :=
  match l with [] => O | ph :: l' => seg_pages ph + total_pages l' end.

Lemma page_base_down a : 0 ≤ a < 4294967296 → page_base a = 4096 * (a / 4096).
Proof.
  intros Ha. unfold page_base. change (u32 (Z.lnot 0xFFF)) with (Z.shiftl (Z.ones (32 - 12)) 12).
  rewrite align_down by lia. change (2 ^ 12) with 4096. zdm.
Qed.

Section maps.
Context (s0 : vm) (dirp : Z) (e : nat).

Lemma map_segment_spec buf ph s d :
  space s0 s dirp d e → placed buf ph → (seg_pages ph ≤ nfree s)%nat →
  ∃ s' d', map_segment dirp ph s = Some (tt, s') ∧ space s0 s' dirp d' e ∧ remap s d s' d' (touches ph) ∧
    (nfree s ≤ nfree s' + seg_pages ph)%nat.
Proof.
  intros Hs [] Hn. unfold map_segment, USER_VADDR_MIN, USER_VADDR_MAX in *. rewrite u32_small by lia. rewrite page_base_down by lia.
  destruct (map_user_range_spec (Z.to_nat ((p_vaddr ph + p_memsz ph - 4096 * (p_vaddr ph / 4096)) / 0x1000 + 1))
              s0 s dirp d e (p_vaddr ph / 4096) (p_vaddr ph + p_memsz ph) Hs) as (s' & d' & H); [zdm|unfold USER_VADDR_MAX; lia|zdm|done|].
  by exists s', d'.
Qed.

Lemma map_all_spec buf l s d :
  space s0 s dirp d e → Forall (placed buf) l → (total_pages l ≤ nfree s)%nat →
  ∃ s' d', run_all (map_segment dirp) l s = Some (tt, s') ∧ space s0 s' dirp d' e ∧
    remap s d s' d' (λ q, ∃ ph, ph ∈ l ∧ touches ph q) ∧ (nfree s ≤ nfree s' + total_pages l)%nat.
Proof.
  revert s d. induction l as [|ph l IH]; intros s d Hs Hp Hn; cbn [run_all total_pages] in *.
  { exists s, d. split_and!; [done|done| |lia]. apply remap_refl. by intros q _ (ph & []%elem_of_nil & _). }
  apply Forall_cons in Hp as [Hp1 Hp2].
  destruct (map_segment_spec buf ph s d Hs Hp1) as (s1 & d1 & E1 & Hs1 & Hr1 & Hn1); [lia|].
  destruct (IH s1 d1 Hs1 Hp2) as (s2 & d2 & E2 & Hs2 & Hr2 & Hn2); [lia|].
  exists s2, d2. split_and!; [unfold mbind, K_bind; by rewrite E1|done| |lia].
  eapply remap_iff; [|by eapply remap_trans]. intros q _. cbv beta. split.
  - intros [Ht|(ph' & Hin & Ht)]; [exists ph; split; [by left|done]|exists ph'; split; [by right|done]].
  - intros (ph' & Hin & Ht). apply elem_of_cons in Hin as [->|Hin]; [by left|right; by exists ph'].
Qed.
End maps.

(** The memory after all segments. *)
Fixpoint load_mem (m : Z → option Z) (buf : list Z) (l : list elf32_phdr) : Z → option Z :=
  match l with
  | [] => m
  | ph :: l' => load_mem (mem_upd m (p_vaddr ph) (segment_bytes buf ph)) buf l'
  end.

Lemma copy_all_mem s0 dirp d e buf l s m :
  space s0 s dirp d e → agree s dirp m → Forall (placed buf) l →
  (∀ ph, ph ∈ l → backed s d (p_vaddr ph) (p_memsz ph)) →
  ∃ s', run_all (copy_segment dirp buf) l s = Some (tt, s') ∧ writing s0 s dirp d e m s' (load_mem m buf l).
Proof.
  revert s m. induction l as [|ph l IH]; intros s m Hs Hm Hp Hb; cbn [run_all load_mem]; [by exists s|].
  apply Forall_cons in Hp as [Hp1 Hp2].
  destruct (copy_segment_mem s0 dirp d e buf ph s m Hs Hm Hp1) as (s1 & E1 & Hw1); [apply Hb; by left|]. pose proof Hw1 as [].
  destruct (IH s1 _ wg_space0 wg_agree0 Hp2) as (s2 & E2 & Hw2).
  { intros ph' Hin. eapply backed_wrote; [done|]. apply Hb. by right. }
  exists s2. split; [unfold mbind, K_bind; by rewrite E1|]. by eapply writing_trans.
Qed.

(** The segments occupy different addresses. *)
Definition apart (a n b k : Z) : Prop := a + n ≤ b ∨ b + k ≤ a.

Fixpoint disjoint_segments (l : list elf32_phdr) : Prop :=
  match l with
  | [] => True
  | ph :: l' => Forall (λ ph', apart (p_vaddr ph) (p_memsz ph) (p_vaddr ph') (p_memsz ph')) l' ∧ disjoint_segments l'
  end.

Lemma load_mem_other buf l m a k :
  Forall (placed buf) l → Forall (λ ph, apart a (zlength k) (p_vaddr ph) (p_memsz ph)) l →
  holds m a k → holds (load_mem m buf l) a k.
Proof.
  revert m. induction l as [|ph l IH]; intros m Hp Ha Hh; cbn [load_mem]; [done|].
  apply Forall_cons in Hp as [Hp1 Hp2]. apply Forall_cons in Ha as [Ha1 Ha2]. apply IH; [done|done|].
  apply holds_upd_ne; [|done]. by rewrite length_segment_bytes.
Qed.

Lemma load_mem_holds buf l m :
  Forall (placed buf) l → disjoint_segments l →
  ∀ ph, ph ∈ l → holds (load_mem m buf l) (p_vaddr ph) (segment_bytes buf ph).
Proof.
  revert m. induction l as [|ph' l IH]; intros m Hp Hd ph Hin; cbn [load_mem]; [by apply elem_of_nil in Hin|].
  apply Forall_cons in Hp as [Hp1 Hp2]. destruct Hd as [Hd1 Hd2]. apply elem_of_cons in Hin as [->|Hin]; [|by apply IH].
  apply load_mem_other; [done| |apply holds_upd]. by rewrite length_segment_bytes.
Qed.

(** ** The stack *)

Fixpoint total_len (args : list (list Z)) : Z :=
  match args with [] => 0 | a :: l => zlength a + 1 + total_len l end.

Lemma total_len_nonneg args : 0 ≤ total_len args.
Proof. induction args as [|a l IH]; simpl; [lia|]. pose proof (zlength_nonneg a). lia. Qed.

Definition words (l : list Z) : list Z := concat (le_enc 4 <$> l).

Lemma words_cons w l : words (w :: l) = le_enc 4 w ++ words l.
Proof. done. Qed.

Lemma words_app l k : words (l ++ k) = words l ++ words k.
Proof. unfold words. by rewrite fmap_app, concat_app. Qed.

Lemma zlength_words l : zlength (words l) = 4 * zlength l.
Proof.
  induction l as [|w l IH]; [done|]. rewrite words_cons, zlength_app, IH, zlength_cons.
  unfold zlength at 1. rewrite length_le_enc. lia.
Qed.

Section stack.
Context (s0 : vm) (dirp : Z) (d : page_directory) (e : nat).

(** Strings pushed below [usp]. *)
Record pushed (m m' : Z → option Z) (usp : Z) (args : list (list Z)) (ptrs : list Z) : Prop := {
  ps_len : length ptrs = length args;
  ps_str i a p : args !! i = Some a → ptrs !! i = Some p →
    holds m' p (a ++ [0]) ∧ usp - total_len args ≤ p ∧ p + zlength a < usp;
  ps_out x : x < usp - total_len args ∨ usp ≤ x → m' x = m x;
}.

Lemma push_strings_mem args s m usp :
  space s0 s dirp d e → agree s dirp m → backed s d (usp - total_len args) (total_len args) →
  ∃ s' m' ptrs, push_strings dirp usp args s = Some ((ptrs, usp - total_len args), s') ∧
    writing s0 s dirp d e m s' m' ∧ pushed m m' usp args ptrs.
Proof.
  revert s m usp. induction args as [|a l IH]; intros s m usp Hs Hm Hb; cbn [push_strings total_len] in *.
  { exists s, m, []. split_and!; [by rewrite Z.sub_0_r|done|]. by constructor. }
  pose proof (zlength_nonneg a). pose proof (total_len_nonneg l). pose proof Hb as (Hb1 & Hb2 & _).
  unfold USER_VADDR_MIN, USER_VADDR_MAX in Hb1, Hb2. rewrite u32_small by lia.
  set (u := usp - (zlength a + 1)). assert (zlength (a ++ [0]) = zlength a + 1) as Hz by (rewrite zlength_app; done).
  destruct (vwrite_mem s0 dirp d e (a ++ [0]) s m u Hs Hm) as (s1 & E1 & [W1 W2 W3]); [rewrite Hz; eapply backed_sub; [done|unfold u; lia|unfold u; lia]|].
  destruct (IH s1 _ u W1 W3) as (s2 & m2 & ptrs & E2 & Hw2 & [P1 P2 P3]).
  { eapply backed_sub; [by eapply backed_wrote|unfold u; lia|unfold u; lia]. }
  exists s2, m2, (u :: ptrs). split_and!.
  - unfold mbind, K_bind. rewrite E1, E2. unfold mret, K_ret. cbn [fst snd]. do 3 f_equal. unfold u. lia.
  - eapply writing_trans; [by constructor|done].
  - constructor; [simpl; lia| |].
    + intros [|i] a' p Ha Hp; cbn in Ha, Hp.
      * injection Ha as <-. injection Hp as <-. split_and!; [|cbn; unfold u; lia|unfold u; lia].
        intros i Hi. rewrite P3 by lia. by apply holds_upd.
      * destruct (P2 i a' p Ha Hp) as (Q1 & Q2 & Q3). split_and!; [done|cbn; unfold u in *; lia|unfold u in *; lia].
    + intros x Hx. cbn in Hx. rewrite P3 by (unfold u; lia). unfold mem_upd. rewrite decide_False; [done|]. unfold u. lia.
Qed.

Lemma put_words_mem l s m a :
  space s0 s dirp d e → agree s dirp m → backed s d a (4 * zlength l) →
  ∃ s', put_words dirp a l s = Some (tt, s') ∧ writing s0 s dirp d e m s' (mem_upd m a (words l)).
Proof.
  revert s m a. induction l as [|w l IH]; intros s m a Hs Hm Hb; cbn [put_words].
  { exists s. split; [done|]. constructor; [done|done|]. intros x Hx. rewrite Hm by done. unfold mem_upd.
    rewrite decide_False; [done|]. unfold zlength. cbn. lia. }
  rewrite zlength_cons in Hb. pose proof (zlength_nonneg l). pose proof Hb as (Hb1 & Hb2 & _).
  unfold USER_VADDR_MIN, USER_VADDR_MAX in Hb1, Hb2.
  destruct (vput32_mem s0 dirp d e s m a w Hs Hm) as (s1 & E1 & [W1 W2 W3]); [eapply backed_sub; [done|lia|lia]|].
  rewrite u32_small by lia. destruct (IH s1 _ (a + 4) W1 W3) as (s2 & E2 & [V1 V2 V3]).
  { eapply (backed_sub _ _ a); [by eapply backed_wrote|lia|lia]. }
  exists s2. split; [unfold mbind, K_bind; by rewrite E1|]. constructor; [done|by eapply wrote_trans|].
  intros x Hx. rewrite V3 by done. rewrite words_cons. apply (mem_upd_app m a (le_enc 4 w)).
Qed.

(** The stack a program starts on. *)
Record stack_ok (m : Z → option Z) (esp : Z) (args : list (list Z)) : Prop := {
  st_align : esp mod 4 = 0;
  st_room : USER_STACK_TOP - 1107 ≤ esp < USER_STACK_TOP;
  st_args : ∃ ptrs, length ptrs = length args ∧
    holds m esp (words ([0; zlength args; esp + 12] ++ ptrs ++ [0])) ∧
    ∀ i a p, args !! i = Some a → ptrs !! i = Some p → holds m p (a ++ [0]) ∧ esp < p ∧ p + zlength a < USER_STACK_TOP;
  st_zero x : USER_STACK_TOP - USER_STACK_SIZE ≤ x < esp → m x = Some 0;
}.

Definition args_ok (args : list (list Z)) : Prop := zlength args ≤ EXEC_MAX_ARGS ∧ total_len args ≤ EXEC_ARG_BYTES.

Lemma build_stack_mem args s m :
  space s0 s dirp d e → agree s dirp m → args_ok args →
  backed s d (USER_STACK_TOP - USER_STACK_SIZE) USER_STACK_SIZE →
  (∀ x, USER_STACK_TOP - USER_STACK_SIZE ≤ x < USER_STACK_TOP → m x = Some 0) →
  ∃ s' m' esp, build_stack dirp args s = Some (esp, s') ∧ writing s0 s dirp d e m s' m' ∧ stack_ok m' esp args ∧
    ∀ x, x < USER_STACK_TOP - USER_STACK_SIZE ∨ USER_STACK_TOP ≤ x → m' x = m x.
Proof.
  intros Hs Hm [Ha1 Ha2] Hb Hz. unfold EXEC_MAX_ARGS, EXEC_ARG_BYTES in Ha1, Ha2. pose proof (total_len_nonneg args).
  pose proof (zlength_nonneg args). set (T := total_len args) in *. set (n := zlength args) in *.
  unfold USER_STACK_TOP, USER_STACK_SIZE in *. unfold build_stack.
  destruct (push_strings_mem args s m 0x50000000 Hs Hm) as (s1 & m1 & ptrs & E1 & Hw1 & [P1 P2 P3]);
    [eapply backed_sub; [done|fold T; lia|fold T; lia]|]. fold T in E1, P2, P3. pose proof Hw1 as [S1 X1 A1].
  unfold mbind at 1, K_bind at 1. unfold USER_STACK_TOP. rewrite E1. cbn [fst snd]. fold n.
  change (u32 (Z.lnot 3)) with (Z.shiftl (Z.ones (32 - 2)) 2). rewrite align_down by lia. change (2 ^ 2) with 4.
  set (sp := 0x50000000 - T). set (u := sp - sp mod 4 - (n + 1) * 4).
  assert (0x50000000 - 1095 ≤ u ∧ u mod 4 = 0 ∧ u + 4 * n + 4 ≤ sp ∧ sp ≤ 0x50000000)
    as (Hu1 & Hu2 & Hu3 & Hu4) by (unfold u, sp; zdm).
  rewrite !(u32_small u) by lia. rewrite !u32_small by lia. assert (zlength ptrs = n) as Hpn by (unfold n, zlength; by rewrite P1).
  assert (∀ s', wrote s s' → ∀ b k, 0x50000000 - 0x4000 ≤ b → b + k ≤ 0x50000000 → backed s' d b k) as Hbk
    by (intros s' Hw b k ? ?; eapply backed_sub; [by eapply backed_wrote|lia|lia]).
  destruct (put_words_mem ptrs s1 m1 u S1 A1) as (s2 & E2 & [S2 X2 A2]); [apply Hbk; [done|lia|lia]|].
  assert (wrote s s2) as Y2 by (by eapply wrote_trans).
  destruct (vput32_mem s0 dirp d e s2 _ (u + 4 * n) 0 S2 A2) as (s3 & E3 & [S3 X3 A3]); [apply Hbk; [done|lia|lia]|].
  assert (wrote s s3) as Y3 by (by eapply wrote_trans).
  destruct (vput32_mem s0 dirp d e s3 _ (u - 4) u S3 A3) as (s4 & E4 & [S4 X4 A4]); [apply Hbk; [done|lia|lia]|].
  assert (wrote s s4) as Y4 by (by eapply wrote_trans).
  destruct (vput32_mem s0 dirp d e s4 _ (u - 8) n S4 A4) as (s5 & E5 & [S5 X5 A5]); [apply Hbk; [done|lia|lia]|].
  assert (wrote s s5) as Y5 by (by eapply wrote_trans).
  destruct (vput32_mem s0 dirp d e s5 _ (u - 12) 0 S5 A5) as (s6 & E6 & [S6 X6 A6]); [apply Hbk; [done|lia|lia]|].
  assert (wrote s s6) as Y6 by (by eapply wrote_trans).
  set (m6 := mem_upd _ (u - 12) _) in A6.
  assert (∀ w, zlength (le_enc 4 w) = 4) as Hle by (intros w; unfold zlength; by rewrite length_le_enc).
  assert (∀ x, x < u - 12 ∨ u + 4 * n + 4 ≤ x → m6 x = m1 x) as Hout.
  { intros x Hx. unfold m6, mem_upd. rewrite !Hle, zlength_words, Hpn. by rewrite !decide_False by lia. }
  exists s6, m6, (u - 12). split_and!.
  - unfold mbind, K_bind. by rewrite E2, E3, E4, E5, E6.
  - by constructor.
  - constructor.
    + zdm.
    + unfold USER_STACK_TOP. lia.
    + exists ptrs. split_and!; [done| |].
      * replace (u - 12 + 12) with u by lia. cbn [app]. rewrite !words_cons, words_app, !holds_app, !Hle, zlength_words, Hpn.
        replace (u - 12 + 4) with (u - 8) by lia. replace (u - 8 + 4) with (u - 4) by lia. replace (u - 4 + 4) with u by lia.
        unfold m6. split_and!; repeat (apply holds_upd || (apply holds_upd_ne; [rewrite ?Hle, ?zlength_words, ?Hpn; change (zlength (words [0])) with 4; lia|])).
      * intros i a p Hi Hp. destruct (P2 i a p Hi Hp) as (Q1 & Q2 & Q3). split_and!; [|unfold sp in *; lia|unfold USER_STACK_TOP; lia].
        intros j Hj. rewrite Hout by (unfold sp in *; lia). by apply Q1.
    + intros x Hx. unfold USER_STACK_TOP, USER_STACK_SIZE in Hx. rewrite Hout, P3 by (unfold sp in *; lia). apply Hz. unfold sp in *. lia.
  - intros x Hx. rewrite Hout, P3 by (unfold sp in *; lia). done.
Qed.
End stack.
End ElfSpec.

(** * Loading a program: the theorem

    The stages of [elf_load] put together, the arguments taken from the
    caller's memory, and the images the checks let through although they do
    not keep to the user window. *)

Module ElfTheorems.
Import Paging PagingFrames PagingClone PagingInit VMem Elf ElfSpec.

(** The kernel can build address spaces: its directory leaves the user
    window empty, all frames of RAM have contents, and the heap provides the
    directory and the tables. *)
Record kernel_ready (s : vm) (kd : page_directory) (e : nat) : Prop := {
  kr_wf : dir_wf s (kernel_directory s) kd (S e);
  kr_ok : frames_ok s;
  kr_zero : used (frames s) 0 = true;
  kr_window j : 256 ≤ j < 512 → dir_table kd j = 0;
  kr_ram k : 0 ≤ k < limit s → ∃ l, ram s !! k = Some l ∧ length l = 4096%nat;
}.

(** The clone of the kernel directory is an empty private space. *)
Lemma clone_space s kd e :
  kernel_ready s kd e →
  ∃ c d s', clone_directory (kernel_directory s) s = Some (c, s') ∧ space s s' c d e ∧ dirs s !! c = None ∧
    (∀ q, user_pn q → pm s' d q = zero_page) ∧ (∀ j, 0 ≤ j < 1024 → dir_table d j = dir_table kd j) ∧ nfree s' = nfree s.
Proof.
  intros [Hw Hok Hz Hwin Hram].
  destruct (clone_kernel s (kernel_directory s) kd e Hw eq_refl)
    as (c & d & s' & E & Hc & Hd & Hkd & Hsame & (Hwf & Hdirs & Hcur & Hnew) & Ht & Hf & Hn & Hr & Hk).
  assert (∀ q, user_pn q → pm s' d q = zero_page) as Hpm.
  { intros q Hq. unfold user_pn in Hq. unfold pm. rewrite Hsame, Hwin by zdm. done. }
  exists c, d, s'. split_and!; try done.
  - constructor; try done; rewrite ?Hf, ?Hr, ?Ht; try done.
    + by apply (frames_ok_same s).
    + intros q Hq. left. by apply Hpm.
    + intros q q' Hq Hq' _. by rewrite Hpm.
    + intros j Hj. rewrite Hsame by lia. by rewrite Hwin.
    + intros k. unfold limit. rewrite Hn, ?Hr. apply Hram.
  - unfold nfree, free_frames, limit. by rewrite Hf, Hn.
Qed.

(** An image the loader accepts whose segments start below the end of the
    window. *)
Record accepted (buf : list Z) : Prop := {
  ac_bytes : bytes_ok buf;
  ac_len : sizeof_ehdr ≤ zlength buf < 4294967296;
  ac_magic : elf_is_valid buf = true;
  ac_table : table_in_file buf = true;
  ac_check : check_segments (Z.to_nat (e_phnum buf)) buf 0 = Some true;
  ac_window : Forall (λ ph, p_vaddr ph < USER_VADDR_MAX) (segments buf);
}.

Lemma loads_header n buf i : bytes_ok buf → Forall wf_header (loads n buf i).
Proof.
  intros Hb. revert i. induction n as [|n IH]; intros i; cbn [loads]; [done|].
  unfold phdr_at. case_if; [|done]. case_if; [|by apply IH]. constructor; [|by apply IH].
  unfold wf_header, read_phdr. cbn [p_offset p_vaddr p_filesz p_memsz]. pose proof (rd32_range buf). auto.
Qed.

Lemma accepted_placed buf : accepted buf → Forall (placed buf) (segments buf).
Proof.
  intros []. destruct (check_loads _ _ _ ac_check0) as [Hok _]. pose proof (loads_header (Z.to_nat (e_phnum buf)) buf 0 ac_bytes0) as Hwf.
  apply Forall_forall. intros ph Hin. rewrite Forall_forall in Hok, Hwf, ac_window0.
  apply segment_ok_placed; [by apply Hok|by apply Hwf|lia|by apply ac_window0].
Qed.

Definition stack_page (q : Z) : Prop := USER_STACK_TOP - USER_STACK_SIZE ≤ 4096 * q < USER_STACK_TOP.

(** A page of the image. *)
Definition image_page (buf : list Z) (q : Z) : Prop := (∃ ph, ph ∈ segments buf ∧ touches ph q) ∨ stack_page q.

(** Clear of the stack. *)
Definition off_stack (ph : elf32_phdr) : Prop :=
  apart (p_vaddr ph) (p_memsz ph) (USER_STACK_TOP - USER_STACK_SIZE) USER_STACK_SIZE.

(** Mapping the segments and the stack. *)
Lemma map_image s0 s dirp d e buf :
  space s0 s dirp d e → accepted buf → (∀ q, user_pn q → pm s d q = zero_page) →
  (total_pages (segments buf) + 4 ≤ nfree s)%nat →
  ∃ s1 d1 s2 d2, run_all (map_segment dirp) (segments buf) s = Some (tt, s1) ∧
    map_user_range (Z.to_nat (USER_STACK_SIZE / 0x1000)) (USER_STACK_TOP - USER_STACK_SIZE) USER_STACK_TOP dirp s1 = Some (tt, s2) ∧
    space s0 s1 dirp d1 e ∧ space s0 s2 dirp d2 e ∧ (∀ q, user_pn q → pm s2 d2 q ≠ zero_page ↔ image_page buf q) ∧
    (∀ j, 0 ≤ j < 256 → dir_table d2 j = dir_table d j).
Proof.
  intros Hs Hac Hpm Hn. pose proof (accepted_placed buf Hac) as Hpl.
  destruct (map_all_spec s0 dirp e buf (segments buf) s d Hs Hpl) as (s1 & d1 & E1 & Hs1 & [K1 N1 O1 _ L1] & Hn1); [lia|].
  destruct (map_user_range_spec (Z.to_nat (USER_STACK_SIZE / 0x1000)) s0 s1 dirp d1 e 327676 USER_STACK_TOP Hs1)
    as (s2 & d2 & E2 & Hs2 & [K2 N2 O2 _ L2] & _); [lia|done|done| |].
  { change (Z.to_nat ((USER_STACK_TOP - 4096 * 327676 + 4095) / 4096)) with 4%nat. lia. }
  exists s1, d1, s2, d2. split_and!; try done.
  - intros q Hq. unfold image_page, stack_page, USER_STACK_TOP, USER_STACK_SIZE in *.
    destruct (decide (327676 ≤ q ∧ 4096 * q < 0x50000000)) as [Hst|Hst].
    { split; [intros _; right; lia|intros _; by apply N2]. }
    rewrite O2 by done. split.
    + intros Hne. destruct (Hs1.(vs_page _ _ _ _ _) q Hq) as [|Hu]; [done|]. left.
      destruct (decide (Exists (λ ph, p_vaddr ph / 4096 ≤ q ∧ 4096 * q < p_vaddr ph + p_memsz ph) (segments buf))) as [He|He].
      * apply Exists_exists in He as (ph & ? & ?). by exists ph.
      * exfalso. apply Hne. rewrite O1; [by apply Hpm|done|]. intros (ph & Hin & Ht). apply He, Exists_exists. by exists ph.
    + intros [Hx|]; [by apply N1|lia].
  - intros j Hj. rewrite L2, L1; done.
Qed.

Lemma backed_image s d buf (ph : elf32_phdr) :
  (∀ q, user_pn q → pm s d q ≠ zero_page ↔ image_page buf q) → ph ∈ segments buf → placed buf ph →
  backed s d (p_vaddr ph) (p_memsz ph).
Proof.
  intros Hpg Hin []. unfold USER_VADDR_MIN, USER_VADDR_MAX in *. split_and!; [done|done|]. intros a Ha.
  apply Hpg; [unfold user_pn; zdm|]. left. exists ph. split; [done|]. unfold touches. zdm.
Qed.

Lemma stack_ok_ext m m' esp args :
  zlength args ≤ EXEC_MAX_ARGS → (∀ x, user_va x → m x = m' x) → stack_ok m esp args → stack_ok m' esp args.
Proof.
  unfold EXEC_MAX_ARGS, user_va, USER_VADDR_MIN, USER_VADDR_MAX. intros Hn Hm [S1 S2 (ptrs & S3 & S4 & S5) S6].
  unfold USER_STACK_TOP, USER_STACK_SIZE in *. constructor; [done|done| |].
  - exists ptrs. split_and!; [done| |].
    + intros i Hi. rewrite <- S4, Hm; [done| |done]. rewrite zlength_words, zlength_app, zlength_app in Hi.
      change (zlength [0]) with 1 in Hi. change (zlength [0; zlength args; esp + 12]) with 3 in Hi. unfold zlength in *. lia.
    + intros i a p Hi Hp. destruct (S5 i a p Hi Hp) as (Q1 & Q2 & Q3). split_and!; [|done|done].
      intros j Hj. rewrite <- Q1, Hm; [done| |done]. rewrite zlength_app in Hj. change (zlength [0]) with 1 in Hj. lia.
  - intros x Hx. rewrite <- Hm; [by apply S6|]. unfold USER_STACK_TOP, USER_STACK_SIZE in Hx. lia.
Qed.

(** ** The theorem *)

(** With enough free frames an accepted image is loaded.  The new address
    space shares the kernel's tables, its user pages are exactly those the
    segments and the stack touch, in frames that were free, and nothing that
    existed changes; segments that do not overlap hold their file bytes
    followed by zeros; and the stack holds argc, argv and the argument
    strings. *)
Theorem exec_loads_program s kd e buf args :
  kernel_ready s kd e → accepted buf → args_ok args → (total_pages (segments buf) + 4 ≤ nfree s)%nat →
  ∃ s' img d, elf_load buf args s = Some (Some img, s') ∧ im_entry img = e_entry buf ∧
    space s s' (im_dir img) d e ∧ dirs s !! im_dir img = None ∧
    (∀ j, 0 ≤ j < 256 → dir_table d j = dir_table kd j) ∧
    (∀ q, user_pn q → present (pm s' d q) = true ↔ image_page buf q) ∧
    (disjoint_segments (segments buf) → Forall off_stack (segments buf) →
       ∀ ph, ph ∈ segments buf → holds (vget s' (im_dir img)) (p_vaddr ph) (segment_bytes buf ph)) ∧
    stack_ok (vget s' (im_dir img)) (im_esp img) args.
Proof.
  intros Hk Hac Hargs Hn. pose proof (accepted_placed buf Hac) as Hpl. pose proof Hac as [Hb Hl Hmg Htb Hck _].
  destruct (clone_space s kd e Hk) as (c & d0 & s1 & E1 & Hs1 & Hnew & Hpm & Hsame & Hnf).
  destruct (map_image s s1 c d0 e buf Hs1 Hac Hpm) as (s2 & d2 & s3 & d & E2 & E3 & _ & Hs3 & Hpg & Hlow); [lia|].
  destruct (check_loads _ _ _ Hck) as [_ Hrun].
  destruct (copy_all_mem s c d e buf (segments buf) s3 (vget s3 c) Hs3) as (s4 & E4 & [Hs4 Hw4 Hm4]); [done|done| |].
  { intros ph Hin. eapply backed_image; [done|done|]. by apply (proj1 (Forall_forall _ _) Hpl). }
  assert (backed s3 d (USER_STACK_TOP - USER_STACK_SIZE) USER_STACK_SIZE) as Hbs.
  { split_and!; [done|done|]. intros a Ha. unfold USER_STACK_TOP, USER_STACK_SIZE in Ha. apply Hpg; [unfold user_pn; zdm|].
    right. unfold stack_page, USER_STACK_TOP, USER_STACK_SIZE. zdm. }
  set (zs := replicate (Z.to_nat USER_STACK_SIZE) 0). assert (zlength zs = USER_STACK_SIZE) as Hzs
    by (unfold zlength, zs; rewrite length_replicate; unfold USER_STACK_SIZE; lia).
  destruct (vwrite_mem s c d e zs s4 _ (USER_STACK_TOP - USER_STACK_SIZE) Hs4 Hm4) as (s5 & E5 & [Hs5 Hw5 Hm5]);
    [rewrite Hzs; by eapply backed_wrote|].
  destruct (build_stack_mem s c d e args s5 _ Hs5 Hm5 Hargs) as (s6 & m6 & esp & E6 & [Hs6 Hw6 Hm6] & Hst & Hout).
  { apply (backed_wrote s4); [done|]. by apply (backed_wrote s3). }
  { intros x Hx. unfold mem_upd. rewrite Hzs, decide_True by lia. apply lookup_replicate_2.
    unfold USER_STACK_TOP, USER_STACK_SIZE in *. lia. }
  assert (wrote s3 s6) as Hw36 by (eapply wrote_trans; [by eapply wrote_trans|done]).
  exists s6, (mk_image (e_entry buf) c esp), d. cbn [im_entry im_dir im_esp]. split_and!; [|reflexivity|exact Hs6|exact Hnew| | | |].
  - unfold elf_load. destruct (Z.ltb_spec (zlength buf) sizeof_ehdr); [lia|]. rewrite Hmg, Htb. cbn [negb]. rewrite Hck.
    unfold mbind at 1, K_bind at 1, get. unfold mbind at 1, K_bind at 1. rewrite E1. unfold mbind at 1, K_bind at 1.
    rewrite Hrun. fold (segments buf). rewrite E2. unfold mbind at 1, K_bind at 1. rewrite E3. unfold mbind at 1, K_bind at 1.
    rewrite Hrun. fold (segments buf). rewrite E4. unfold mbind at 1, K_bind at 1. rewrite vfill_write. fold zs. rewrite E5.
    unfold mbind at 1, K_bind at 1. by rewrite E6.
  - intros j Hj. rewrite Hlow by done. apply Hsame. lia.
  - intros q Hq. rewrite (wrote_pm s3 s6) by done. rewrite <- Hpg by done.
    destruct (vs_page _ _ _ _ _ Hs3 q Hq) as [->|Hu]; [split; [intros [=]|intros Hne; destruct (Hne eq_refl)]|].
    split; [intros _; by eapply user_page_not_zero|intros _; apply Hu].
  - intros Hdis Hoff ph Hin i Hi. pose proof (proj1 (Forall_forall _ _) Hpl ph Hin) as Hp. pose proof (length_segment_bytes buf ph Hp) as Hsl.
    pose proof (proj1 (Forall_forall _ _) Hoff ph Hin) as Ho. unfold off_stack, apart in Ho. pose proof Hp as [].
    rewrite Hm6 by (unfold user_va; lia). rewrite Hout by lia. unfold mem_upd. rewrite Hzs, decide_False by lia.
    by apply (load_mem_holds buf (segments buf)).
  - by apply (stack_ok_ext m6); [apply Hargs|intros x Hx; symmetry; apply Hm6|].
Qed.

(** ** The arguments *)

(** [str] and its NUL are at [p]. *)
Record string_in (mem : Z → Z) (p : Z) (str : list Z) : Prop := {
  si_bytes j : 0 ≤ j < zlength str → mem (p + j) = bget str j ∧ mem (p + j) ≠ 0;
  si_end : mem (p + zlength str) = 0;
}.

Lemma cstring_spec n mem a k :
  0 ≤ a → 0 ≤ k < Z.of_nat n → a + k < 4294967296 → mem (a + k) = 0 →
  string_in mem a (cstring n mem a) ∧ zlength (cstring n mem a) ≤ k.
Proof.
  revert a k. induction n as [|n IH]; intros a k Ha Hk Hr Hz; [lia|]. cbn [cstring].
  destruct (Z.eqb_spec (mem a) 0) as [E|E].
  { split; [constructor|unfold zlength; simpl; lia]; [intros j Hj; unfold zlength in Hj; simpl in Hj; lia|by rewrite Z.add_0_r]. }
  destruct (decide (k = 0)) as [->|]; [by rewrite Z.add_0_r in Hz|]. rewrite u32_small by lia.
  destruct (IH (a + 1) (k - 1) ltac:(lia) ltac:(lia) ltac:(lia)) as [[H1 H2] H3]; [by replace (a + 1 + (k - 1)) with (a + k) by lia|].
  rewrite zlength_cons. split; [|lia]. constructor; rewrite ?zlength_cons.
  - intros j Hj. destruct (decide (j = 0)) as [->|]; [by rewrite Z.add_0_r|].
    replace (a + j) with (a + 1 + (j - 1)) by lia. destruct (H1 (j - 1) ltac:(lia)) as [-> Hne]. split; [|done].
    unfold bget. by replace (Z.to_nat j) with (S (Z.to_nat (j - 1))) by lia.
  - by replace (a + (1 + zlength (cstring n mem (a + 1)))) with (a + 1 + zlength (cstring n mem (a + 1))) by lia.
Qed.

Section args.
Context (s : vm) (argv : Z).
Hypothesis bytes : ∀ a, is_byte (umem s a).

(** Argument [i] of the caller is the readable string [str]. *)
Record argument (i : Z) (str : list Z) : Prop := {
  ag_slot a : u32 (argv + 4 * i) ≤ a < u32 (argv + 4 * i) + 4 → readable s a;
  ag_string : ∃ p, p = le_dec ((λ j, umem s (u32 (argv + 4 * i) + j)) <$> [0; 1; 2; 3]) ∧ string_in (umem s) p str ∧
    ∀ j, 0 ≤ j ≤ zlength str → readable s (p + j);
}.

Lemma collect_spec n argc used :
  0 ≤ used ≤ EXEC_ARG_BYTES →
  let args := collect n s argv argc used in
  (length args ≤ n)%nat ∧ used + total_len args ≤ EXEC_ARG_BYTES ∧
  ∀ i a, args !! i = Some a → argument (argc + Z.of_nat i) a.
Proof.
  revert argc used. unfold EXEC_ARG_BYTES. induction n as [|n IH]; intros argc used Hu; cbn [collect]; [cbn; by split_and!; [lia|lia|]|].
  set (slot := u32 (argv + 4 * argc)). set (p := le_dec _).
  destruct (user_ok s slot 4 false) eqn:Hok; cbn [negb]; [|cbn; by split_and!; [lia|lia|]].
  destruct (user_str_ok s (umem s) p EXEC_ARG_BYTES) eqn:Hstr; cbn [negb]; [|cbn; by split_and!; [lia|lia|]].
  pose proof (u32_range (argv + 4 * argc)) as Hsl. fold slot in Hsl. apply user_ok_exact in Hok as (O1 & O2 & O3); [|lia|lia].
  assert (0 ≤ p < 4294967296) as Hp.
  { pose proof (le_dec_range [umem s slot; umem s (slot + 1); umem s (slot + 2); umem s (slot + 3)]) as Hr.
    apply Hr. repeat constructor; apply bytes. }
  apply user_str_ok_exact in Hstr as (k & Hk & Hz & Hr); [|done|unfold EXEC_ARG_BYTES; lia].
  unfold EXEC_ARG_BYTES in Hk. assert (p + k < 4294967296) as Hpk
    by (destruct (Hr k ltac:(lia)) as [Hw _]; unfold USER_VADDR_MAX in Hw; lia).
  destruct (cstring_spec (Z.to_nat EXEC_ARG_BYTES) (umem s) p k) as [Hcs Hlen]; [lia|unfold EXEC_ARG_BYTES; lia|done|done|].
  set (str := cstring _ _ _) in *. unfold EXEC_ARG_BYTES. pose proof (zlength_nonneg str).
  destruct (Z.gtb_spec (used + (zlength str + 1)) 1024); [cbn; by split_and!; [lia|lia|]|].
  destruct (IH (argc + 1) (used + (zlength str + 1)) ltac:(lia)) as (I1 & I2 & I3). split_and!; [simpl; lia|cbn [total_len]; lia|].
  intros [|i] a Hi; cbn in Hi.
  - injection Hi as <-. rewrite Z.add_0_r. fold slot. constructor; fold slot.
    + intros a Ha. split; [unfold USER_VADDR_MIN, USER_VADDR_MAX in *; lia|]. by apply O3.
    + exists p. split_and!; [unfold p; cbn [fmap list_fmap]; by rewrite Z.add_0_r|done|]. intros j Hj. apply Hr. lia.
  - specialize (I3 i a Hi). by replace (argc + Z.of_nat (S i)) with (argc + 1 + Z.of_nat i) by lia.
Qed.

(** What elf_exec takes from the caller: at most 16 strings of at most 1024
    bytes in all, each one the NUL-terminated string argv[i] points to, read
    only from memory user mode may read. *)
Theorem arguments_from_caller :
  let args := collect_args s argv in
  args_ok args ∧ ∀ i a, args !! i = Some a → argument (Z.of_nat i) a.
Proof.
  unfold collect_args. destruct (argv =? 0); cbv zeta; [by split; [split|]|].
  destruct (collect_spec (Z.to_nat EXEC_MAX_ARGS) 0 0) as (H1 & H2 & H3); [unfold EXEC_ARG_BYTES; lia|].
  split; [split; [unfold zlength, EXEC_MAX_ARGS in *; lia|lia]|]. intros i a Hi. by apply (H3 i).
Qed.
End args.

(** ** Outside the window *)

(** The segment check computes [USER_VADDR_MAX - p_vaddr] in 32 bits, so a
    segment that starts beyond the end of the user window passes it. *)
Theorem segment_check_wraps got ph :
  USER_VADDR_MAX < p_vaddr ph < 4294967296 → 0 ≤ p_offset ph → 0 ≤ p_filesz ph → p_offset ph + p_filesz ph ≤ got < 4294967296 →
  p_filesz ph ≤ p_memsz ph ≤ 0x80000000 → segment_ok got ph = true.
Proof.
  unfold segment_ok, USER_VADDR_MIN, USER_VADDR_MAX, u32. intros Hv Ho Hf Hg Hm. apply negb_true_iff.
  repeat (apply orb_false_intro); rewrite ?Z.gtb_ltb; apply Z.ltb_ge; zdm.
Qed.

(** ** Examples *)

(** A kernel with 64 frames, of which 7 are in use. *)
Definition demo_kernel_vm : vm :=
  mk_vm [0x7f; 0] 64 {[800 := replicate 1024 zero_page]} {[10 := demo_kd]}
    (list_to_map ((λ k, (k, replicate 4096 170)) <$> seqZ 0 64)) 10 10
    ((λ i, (0x100000 + 0x3000 * i, 0x100000 + 0x3000 * i)) <$> seqZ 0 1030).

Lemma demo_kd_table j : 0 ≤ j → dir_table demo_kd j = if decide (j = 0) then 800 else 0.
Proof. intros Hj. unfold demo_kd. rewrite dir_table_set by (done || lia). case_decide; [done|apply zero_dir_table]. Qed.

Lemma demo_kernel_ready : kernel_ready demo_kernel_vm demo_kd 0.
Proof.
  constructor.
  - constructor.
    + done.
    + done.
    + intros i Hi. rewrite demo_kd_table by lia. case_decide; [|done]. intros _. by exists (replicate 1024 zero_page).
    + intros i j Hi Hj Hne. rewrite !demo_kd_table by lia. repeat case_decide; try done. lia.
    + unfold demo_kernel_vm. cbn [pool tabs dirs]. apply Forall_fmap, Forall_forall. intros i Hi%elem_of_seqZ. cbn [fst compose].
      split_and!; [lia|rewrite lookup_singleton_ne by lia; done|rewrite lookup_singleton_ne by lia; done].
    + unfold demo_kernel_vm. cbn [pool]. rewrite <- list_fmap_compose. apply NoDup_fmap_2; [|apply NoDup_seqZ]. intros i j. cbn. lia.
    + unfold demo_kernel_vm. cbn [pool]. rewrite length_fmap, length_seqZ. change (missing demo_kd) with 1023%nat. lia.
  - constructor; [repeat constructor; unfold word_ok; lia|done|cbn; lia].
  - done.
  - intros j Hj. rewrite demo_kd_table by lia. by rewrite decide_False by lia.
  - intros k Hk. unfold demo_kernel_vm. cbn [ram]. exists (replicate 4096 170). split; [|by rewrite length_replicate].
    apply elem_of_list_to_map_1.
    + rewrite <- list_fmap_compose. apply NoDup_fmap_2; [|apply NoDup_seqZ]. intros i j. done.
    + apply list_elem_of_fmap. exists k. split; [done|]. apply elem_of_seqZ. change (limit demo_kernel_vm) with 64 in Hk. lia.
Qed.

(** An image of one segment with the bytes [data]. *)
Definition demo_elf (phentsize vaddr memsz : Z) (data : list Z) : list Z :=
  [0x7f; 69; 76; 70] ++ replicate 20 0 ++ le_enc 4 0x40000000 ++ le_enc 4 52 ++ replicate 10 0 ++
  le_enc 2 phentsize ++ le_enc 2 1 ++ replicate 6 0 ++
  words [PT_LOAD; 84; vaddr; 0; zlength data; memsz; 7; 0x1000] ++ data.

Definition demo_hello : list Z := demo_elf 32 0x40000ffe 0x10 [1; 2; 3; 4].

Lemma demo_accepted : accepted demo_hello.
Proof. constructor; [apply (bool_decide_unpack _); by vm_compute|vm_compute; split; congruence|by vm_compute|by vm_compute|by vm_compute|by apply (bool_decide_unpack _)]. Qed.

Lemma exec_loads_program_witness :
  ∃ s' img d, elf_load demo_hello [[104; 105]] demo_kernel_vm = Some (Some img, s') ∧ im_entry img = 0x40000000 ∧
    vget s' (im_dir img) 0x40001000 = Some 3 ∧ vget s' (im_dir img) 0x40001002 = Some 0 ∧
    present (pm s' d 262145) = true ∧ present (pm s' d 262146) = false ∧
    ram s' !! 6 = ram demo_kernel_vm !! 6 ∧ stack_ok (vget s' (im_dir img)) (im_esp img) [[104; 105]].
Proof.
  destruct (exec_loads_program demo_kernel_vm demo_kd 0 demo_hello [[104; 105]]) as (s' & img & d & E & He & Hs & _ & _ & Hp & Hseg & Hst).
  - apply demo_kernel_ready.
  - apply demo_accepted.
  - split; by vm_compute.
  - apply Nat.leb_le. by vm_compute.
  - exists s', img, d. split; [exact E|]. clear E.
    assert (segments demo_hello = [mk_phdr 1 84 0x40000ffe 0 4 0x10 7 0x1000]) as Hsg by (by vm_compute).
    assert (holds (vget s' (im_dir img)) 0x40000ffe ([1; 2; 3; 4] ++ replicate 12 0)) as Hh.
    { refine (Hseg _ _ (mk_phdr 1 84 0x40000ffe 0 4 0x10 7 0x1000) _); rewrite Hsg; [by cbn|apply Forall_singleton; by left|by left]. }
    assert (∀ q, image_page demo_hello q ↔ 262144 ≤ q ≤ 262145 ∨ 327676 ≤ q < 327680) as Hpg.
    { intros q. unfold image_page. rewrite Hsg. unfold touches, stack_page, USER_STACK_TOP, USER_STACK_SIZE. split.
      - intros [(ph & ->%list_elem_of_singleton & H1 & H2)|H]; [left; change (262144 ≤ q) in H1; change (4096 * q < 1073745934) in H2; lia|right; lia].
      - intros [H|H]; [left; eexists; split; [by apply list_elem_of_singleton|change (262144 ≤ q ∧ 4096 * q < 1073745934); lia]|right; lia]. }
    split_and!; [exact He|exact (Hh 2 ltac:(done))|exact (Hh 4 ltac:(done))| | |by apply (vs_keep _ _ _ _ _ Hs)|exact Hst].
    + apply Hp; [unfold user_pn; lia|]. apply Hpg. lia.
    + apply not_true_is_false. intros H. apply Hp in H; [|unfold user_pn; lia]. apply Hpg in H. lia.
Defined.

Lemma umem_bytes s : (∀ k l, ram s !! k = Some l → bytes_ok l) → ∀ a, is_byte (umem s a).
Proof.
  intros Hr a. unfold umem, vget. destruct (translate _ _ _) as [[k off]|]; cbn; [|unfold is_byte; lia].
  destruct (ram s !! k) as [l|] eqn:E; cbn; [|unfold is_byte; lia]. apply Hr in E.
  destruct (l !! Z.to_nat off) as [b|] eqn:Eb; cbn; [|unfold is_byte; lia]. by eapply Forall_lookup_1 in E.
Qed.

(** A caller with argv = 0x40000000, argv[0] = "hi", argv[1] = NULL. *)
Definition demo_caller : vm :=
  set_ram {[5 := words [0x40000008; 0] ++ [104; 105; 0] ++ replicate 4085 7]} demo_vm.

Lemma arguments_from_caller_witness :
  collect_args demo_caller 0x40000000 = [[104; 105]] ∧ args_ok (collect_args demo_caller 0x40000000) ∧
  argument demo_caller 0x40000000 0 [104; 105].
Proof.
  assert (∀ a, is_byte (umem demo_caller a)) as Hb.
  { apply umem_bytes. intros k l Hl. unfold demo_caller in Hl. cbn [ram set_ram] in Hl. apply lookup_singleton_Some in Hl as [_ <-].
    apply (bool_decide_unpack _); by vm_compute. }
  destruct (arguments_from_caller demo_caller 0x40000000 Hb) as [H1 H2].
  assert (collect_args demo_caller 0x40000000 = [[104; 105]]) as E by (by vm_compute).
  split_and!; [exact E|exact H1|]. apply (H2 0%nat). by rewrite E.
Defined.

Lemma segment_check_wraps_witness : segment_ok 100 (mk_phdr PT_LOAD 84 0x90000000 0 4 0x1000 7 0x1000) = true.
Proof. apply segment_check_wraps; by vm_compute. Defined.

(** An image whose segment ends beyond the address space passes the checks;
    no page is mapped for it, and copying the segment faults in the kernel
    (one that can load programs, as the example above shows). *)
Theorem wrapped_segment_faults :
  let buf := demo_elf 32 0xFFFFF000 0x2000 [1; 2; 3; 4] in
  elf_is_valid buf = true ∧ table_in_file buf = true ∧ check_segments (Z.to_nat (e_phnum buf)) buf 0 = Some true ∧
  elf_load buf [] demo_kernel_vm = None.
Proof.
  intros buf. split; [by vm_compute|]. split; [by vm_compute|]. split; [by vm_compute|].
  assert (match elf_load buf [] demo_kernel_vm with None => true | _ => false end = true) as H by (by vm_compute).
  destruct (elf_load buf [] demo_kernel_vm); [discriminate H|reflexivity].
Qed.

(** A table of headers smaller than a program header passes the check of the
    table, and reading the last header leaves the file. *)
Theorem short_headers_overrun (buf := take 60 (demo_elf 8 0x40000000 0x10 [])) :
  elf_is_valid buf = true ∧ table_in_file buf = true ∧ phdr_at buf 0 = None.
Proof. split_and!; by vm_compute. Qed.
End ElfTheorems.
