(* ===== verification/Wsurf.v ===== *)
(** * Window surfaces (kernel/wsurf.c, include/wsurf.h, include/syscall.h)

    A surface's pixels are pages of a static pool that are mapped into the
    client and into the display server.  The state is the table of surfaces
    and the address spaces of the paging model; [None] is a panic there. *)

From S2P Require Import Prelude Bytes Paging PagingClone PagingInit VMem Elf.

Module Wsurf.
Import Paging PagingFrames.

Definition WSURF_SLOTS : Z := 3.
Definition WSURF_MAX_W : Z := 800.
Definition WSURF_MAX_H : Z := 600.
Definition WSURF_BYTES : Z := WSURF_MAX_W * WSURF_MAX_H * 4.
Definition WEVQ : Z := 32.

Definition WEV_KEY : Z := 1.
Definition WEV_MOUSE : Z := 2.
Definition WEV_CLOSE : Z := 3.

Definition USER_WSURF_BASE : Z := 0x74000000.
Definition USER_WSRV_BASE : Z := 0x74400000.
Definition WSURF_SLOT_SPAN : Z := 0x00200000.

(** struct wev. *)
Record wev := mk_wev { ev_type : Z; ev_a : Z; ev_b : Z; ev_c : Z }.

(** struct wsurf. *)
Record wsurf := mk_wsurf {
  used : bool;
  alive : bool;
  owner : Z;
  server : Z;
  sw : Z;
  sh : Z;
  sname : list Z;
  evq : list wev;
  evh : Z;
  evt : Z;
}.

Definition wev0 : wev := mk_wev 0 0 0 0.
Definition wsurf0 : wsurf := mk_wsurf false false 0 0 0 0 (replicate 16 0) (replicate 32 wev0) 0 0.

Record ws := mk_ws { surfs : list wsurf; wvm : vm }.

(** The fields of the calling task these calls look at. *)
Record client := mk_client { c_id : Z; c_brk : Z; c_name : list Z; c_dir : Z }.

Definition surf_at (l : list wsurf) (i : Z) : wsurf := default wsurf0 (l !! Z.to_nat i).
Definition put_surf (i : Z) (x : wsurf) (s : ws) : ws := mk_ws (<[Z.to_nat i := x]> (surfs s)) (wvm s).

Definition set_alive (b : bool) (x : wsurf) : wsurf :=
  mk_wsurf (used x) b (owner x) (server x) (sw x) (sh x) (sname x) (evq x) (evh x) (evt x).
Definition set_used (b : bool) (x : wsurf) : wsurf :=
  mk_wsurf b (alive x) (owner x) (server x) (sw x) (sh x) (sname x) (evq x) (evh x) (evt x).
Definition set_server (v : Z) (x : wsurf) : wsurf :=
  mk_wsurf (used x) (alive x) (owner x) v (sw x) (sh x) (sname x) (evq x) (evh x) (evt x).
Definition set_queue (q : list wev) (h t : Z) (x : wsurf) : wsurf :=
  mk_wsurf (used x) (alive x) (owner x) (server x) (sw x) (sh x) (sname x) q h t.

(** ** Mapping *)

Definition surf_map_bytes (x : wsurf) : Z := Z.land (u32 (u32 (sw x * sh x * 4) + 0xFFF)) (u32 (Z.lnot 0xFFF)).

(** The loops over [n] pages from offset [off] on. *)
Fixpoint map_range (n : nat) (dirp va phys off bytes : Z) : K unit :=
  match n with
  | O => mret tt
  | S n' =>
      if off <? bytes then
        p ← get_page_make (u32 (va + off)) dirp;
        pg ← load p;
        _ ← store p (mk_page true true true (accessed pg) (dirty pg) (u32 (phys + off) / 0x1000));
        map_range n' dirp va phys (off + 0x1000) bytes
      else mret tt
  end.

Fixpoint unmap_range (n : nat) (dirp va off bytes : Z) : K unit :=
  match n with
  | O => mret tt
  | S n' =>
      if off <? bytes then
        r ← get_page (u32 (va + off)) false dirp;
        _ ← match r with
            | None => mret tt
            | Some p => pg ← load p; store p (mk_page false (rw pg) (user pg) (accessed pg) (dirty pg) 0)
            end;
        unmap_range n' dirp va (off + 0x1000) bytes
      else mret tt
  end.

(** The pages of the largest surface bound the rounds of either loop. *)
Definition MAX_PAGES : nat := 469.

(** [memset] on the identity-mapped pool: physical memory. *)
Definition phys_put (p v : Z) (s : vm) : vm :=
  match ram s !! (p / 0x1000) with
  | Some l => set_ram (<[p / 0x1000 := <[Z.to_nat (p mod 0x1000) := v]> l]> (ram s)) s
  | None => s
  end.

Fixpoint phys_fill (n : nat) (p v : Z) (s : vm) : vm :=
  match n with O => s | S n' => phys_fill n' (p + 1) v (phys_put p v s) end.

(** ** The calls *)

Section wsurf.
(** Where the pool is. *)
Context (pool : Z).

Definition pool_at (slot : Z) : Z := pool + slot * WSURF_BYTES.

Definition run_vm {A} (c : K A) (s : ws) : option (A * ws) :=
  match c (wvm s) with Some (a, v) => Some (a, mk_ws (surfs s) v) | None => None end.

(** The scan of wsurf_create from [i] on: [None] when the task has a
    surface, else the first free slot (-1: none). *)
Fixpoint find_slot (n : nat) (l : list wsurf) (me i slot : Z) : option Z :=
  match n with
  | O => Some slot
  | S n' =>
      let x := surf_at l i in
      if used x && (owner x =? me) && alive x then None
      else find_slot n' l me (i + 1) (if (slot <? 0) && negb (used x) then i else slot)
  end.

(** The owner's name, cut at 15 characters. *)
Definition copy_name (name : list Z) (old : list Z) : list Z := splice old 0 (take 15 name ++ [0]).

Definition wsurf_create (t : client) (w h : Z) (s : ws) : option (Z * ws) :=
  if (c_brk t =? 0) || (w <? 1) || (h <? 1) || (w >? WSURF_MAX_W) || (h >? WSURF_MAX_H) then Some (-1, s) else
  match find_slot (Z.to_nat WSURF_SLOTS) (surfs s) (c_id t) 0 (-1) with
  | None => Some (-1, s)
  | Some slot =>
      if slot <? 0 then Some (-1, s) else
      let old := surf_at (surfs s) slot in
      let x := mk_wsurf true true (c_id t) (-1) w h (copy_name (c_name t) (sname old)) (evq old) 0 0 in
      let s := put_surf slot x s in
      let s := mk_ws (surfs s) (phys_fill (Z.to_nat (w * h * 4)) (pool_at slot) 0 (wvm s)) in
      match run_vm (map_range MAX_PAGES (c_dir t) USER_WSURF_BASE (pool_at slot) 0 (surf_map_bytes x)) s with
      | Some (_, s) => Some (USER_WSURF_BASE, s)
      | None => None
      end
  end.

(** The event for the caller's surface, if any; [None] is -1. *)
Fixpoint event_scan (n : nat) (me i : Z) (s : ws) : option wev * ws :=
  match n with
  | O => (None, s)
  | S n' =>
      let x := surf_at (surfs s) i in
      if negb (used x) || negb (owner x =? me) || negb (alive x) then event_scan n' me (i + 1) s
      else if evt x =? evh x then (None, s)
      else (Some (default wev0 (evq x !! Z.to_nat (evt x))),
            put_surf i (set_queue (evq x) (evh x) ((evt x + 1) mod WEVQ) x) s)
  end.

Definition wsurf_event (t : client) (s : ws) : option wev * ws :=
  event_scan (Z.to_nat WSURF_SLOTS) (c_id t) 0 s.

Definition bad_slot (slot : Z) (s : ws) : bool :=
  (slot <? 0) || (slot >=? WSURF_SLOTS) || negb (used (surf_at (surfs s) slot)).

(** struct wsurf_info. *)
Record wsurf_info := mk_info { i_alive : bool; i_w : Z; i_h : Z; i_owner : Z; i_name : list Z }.

Definition wsurf_stat (slot : Z) (s : ws) : option wsurf_info :=
  if bad_slot slot s then None else
  let x := surf_at (surfs s) slot in
  Some (mk_info (alive x) (sw x) (sh x) (owner x) (sname x)).

Definition srv_base (slot : Z) : Z := USER_WSRV_BASE + slot * WSURF_SLOT_SPAN.

Definition wsurf_map (t : client) (slot : Z) (s : ws) : option (Z * ws) :=
  if bad_slot slot s || (c_brk t =? 0) then Some (-1, s) else
  let x := surf_at (surfs s) slot in
  if negb (server x =? -1) && negb (server x =? c_id t) then Some (-1, s) else
  let s := put_surf slot (set_server (c_id t) x) s in
  match run_vm (map_range MAX_PAGES (c_dir t) (srv_base slot) (pool_at slot) 0 (surf_map_bytes x)) s with
  | Some (_, s) => Some (srv_base slot, s)
  | None => None
  end.

(** The queue of a surface after an event is sent to it. *)
Definition enqueue (ev : wev) (x : wsurf) : wsurf :=
  let pending := (evh x - evt x + WEVQ) mod WEVQ in
  let last := (evh x + WEVQ - 1) mod WEVQ in
  if (ev_type ev =? WEV_MOUSE) && (pending >? 0) && (ev_type (default wev0 (evq x !! Z.to_nat last)) =? WEV_MOUSE)
  then set_queue (<[Z.to_nat last := ev]> (evq x)) (evh x) (evt x) x
  else if pending <? WEVQ - 1
  then set_queue (<[Z.to_nat (evh x) := ev]> (evq x)) ((evh x + 1) mod WEVQ) (evt x) x
  else x.

Definition wsurf_send (t : client) (slot : Z) (ev : wev) (s : ws) : Z * ws :=
  let x := surf_at (surfs s) slot in
  if bad_slot slot s || negb (server x =? c_id t) || negb (alive x) then (-1, s)
  else (0, put_surf slot (enqueue ev x) s).

Definition unmap_surf (dirp va : Z) (x : wsurf) (s : ws) : option ws :=
  match run_vm (unmap_range MAX_PAGES dirp va 0 (surf_map_bytes x)) s with
  | Some (_, s) => Some s
  | None => None
  end.

(** Detach the server of slot [i]. *)
Definition drop_server (i : Z) (s : ws) : ws :=
  let x := set_server (-1) (surf_at (surfs s) i) in
  put_surf i (if alive x then x else set_used false x) s.

Definition wsurf_unmap (t : client) (slot : Z) (s : ws) : option (Z * ws) :=
  let x := surf_at (surfs s) slot in
  if bad_slot slot s || negb (server x =? c_id t) then Some (-1, s) else
  s ← unmap_surf (c_dir t) (srv_base slot) x s;
  Some (0, drop_server slot s).

(** The body of the loop of wsurf_task_exit for slot [i]. *)
Definition exit_slot (task_id dirp i : Z) (s : ws) : option ws :=
  let x := surf_at (surfs s) i in
  if negb (used x) then Some s else
  s ← (if (owner x =? task_id) && alive x then
         let s := put_surf i (set_alive false x) s in
         s ← unmap_surf dirp USER_WSURF_BASE x s;
         Some (if server x =? -1 then put_surf i (set_used false (set_alive false x)) s else s)
       else Some s);
  if server x =? task_id then
    s ← unmap_surf dirp (srv_base i) x s;
    Some (drop_server i s)
  else Some s.

Fixpoint exit_slots (n : nat) (task_id dirp i : Z) (s : ws) : option ws :=
  match n with
  | O => Some s
  | S n' => s ← exit_slot task_id dirp i s; exit_slots n' task_id dirp (i + 1) s
  end.

Definition wsurf_task_exit (task_id dirp : Z) (s : ws) : option ws :=
  exit_slots (Z.to_nat WSURF_SLOTS) task_id dirp 0 s.
End wsurf.
End Wsurf.

(** * Window surfaces: events, mappings and what happens at exit *)

Module WsurfSpec.
Import Paging PagingFrames PagingClone PagingInit VMem Wsurf.

(** ** The event queue *)

(** The queue is a ring of 32 slots. *)
Record queue_ok (x : wsurf) : Prop := {
  qo_len : length (evq x) = 32%nat;
  qo_head : 0 ≤ evh x < WEVQ;
  qo_tail : 0 ≤ evt x < WEVQ;
}.

Definition pending (x : wsurf) : Z := (evh x - evt x) mod WEVQ.

Definition ev_at (x : wsurf) (i : Z) : wev := default wev0 (evq x !! Z.to_nat (i mod WEVQ)).

(** The queued events, oldest first. *)
Definition events (x : wsurf) : list wev := (λ k, ev_at x (evt x + k)) <$> seqZ 0 (pending x).

(** What the server's event does to the queue: a mouse event replaces a
    mouse event at the end, another one is appended while there is room. *)
Definition is_mouse (e : wev) : bool := ev_type e =? WEV_MOUSE.

Definition send (e : wev) (q : list wev) : list wev :=
  match last q with
  | Some l => if is_mouse e && is_mouse l then removelast q ++ [e] else if bool_decide (length q < 31)%nat then q ++ [e] else q
  | None => q ++ [e]
  end.

Lemma length_events x : length (events x) = Z.to_nat (pending x).
Proof. unfold events. by rewrite length_fmap, length_seqZ. Qed.

Lemma pending_range x : 0 ≤ pending x < WEVQ.
Proof. unfold pending, WEVQ. zdm. Qed.

(** Events that only depend on the ring between tail and head. *)
Lemma events_ext x y :
  evt x = evt y → pending x = pending y → (∀ k, 0 ≤ k < pending x → ev_at x (evt x + k) = ev_at y (evt x + k)) → events x = events y.
Proof.
  intros Et Ep H. unfold events. rewrite <- Et, <- Ep. apply list_fmap_ext. intros i k Hk. apply H.
  apply lookup_seqZ in Hk. lia.
Qed.

Lemma seqZ_snoc n : 0 ≤ n → seqZ 0 (n + 1) = seqZ 0 n ++ [n].
Proof. intros Hn. rewrite seqZ_app by lia. by rewrite Z.add_0_l. Qed.

Lemma ev_at_set x j e h t i :
  length (evq x) = 32%nat → 0 ≤ j < WEVQ →
  ev_at (set_queue (<[Z.to_nat j := e]> (evq x)) h t x) i = if decide (i mod WEVQ = j) then e else ev_at x i.
Proof.
  intros Hl Hj. unfold ev_at, WEVQ in *. cbn [evq set_queue]. case_decide as E.
  - rewrite E, list_lookup_insert_eq by lia. done.
  - rewrite list_lookup_insert_ne by zdm. done.
Qed.

Lemma events_append x e :
  queue_ok x → pending x < 31 →
  events (set_queue (<[Z.to_nat (evh x) := e]> (evq x)) ((evh x + 1) mod WEVQ) (evt x) x) = events x ++ [e].
Proof.
  intros [Hl Hh Ht] Hp. set (y := set_queue _ _ _ _).
  assert (pending y = pending x + 1) as Hpy by (unfold pending, y, WEVQ in *; cbn [evh evt set_queue]; zdm).
  unfold events. rewrite Hpy. pose proof (pending_range x). rewrite seqZ_snoc by lia. rewrite fmap_app. cbn [fmap list_fmap].
  assert (∀ k, ev_at y (evt y + k) = if decide ((evt x + k) mod WEVQ = evh x) then e else ev_at x (evt x + k)) as He
    by (intros k; by apply ev_at_set).
  f_equal.
  - apply list_fmap_ext. intros i k Hk. apply lookup_seqZ in Hk. rewrite He, decide_False; [done|].
    unfold pending, WEVQ in *. zdm.
  - rewrite He, decide_True; [done|]. unfold pending, WEVQ in *. zdm.
Qed.

Lemma events_last x : queue_ok x → 0 < pending x → events x = (λ k, ev_at x (evt x + k)) <$> seqZ 0 (pending x - 1) ++ [pending x - 1].
Proof. intros _ Hp. unfold events. rewrite <- seqZ_snoc by lia. f_equal. f_equal. lia. Qed.

Lemma events_replace x e (last := (evh x + WEVQ - 1) mod WEVQ) :
  queue_ok x → 0 < pending x →
  events (set_queue (<[Z.to_nat last := e]> (evq x)) (evh x) (evt x) x) = removelast (events x) ++ [e] ∧
  list.last (events x) = Some (default wev0 (evq x !! Z.to_nat last)).
Proof.
  intros Hq Hp. pose proof Hq as [Hl Hh Ht]. set (y := set_queue _ _ _ _).
  assert (0 ≤ last < WEVQ) as Hlast by (unfold last, WEVQ; zdm).
  assert ((evt x + (pending x - 1)) mod WEVQ = last) as Hidx by (unfold last, pending, WEVQ in *; zdm).
  assert (∀ k, ev_at y (evt y + k) = if decide ((evt x + k) mod WEVQ = last) then e else ev_at x (evt x + k)) as He
    by (intros k; by apply ev_at_set).
  rewrite (events_last x) by done. rewrite !fmap_app. cbn [fmap list_fmap]. rewrite removelast_last, last_snoc. split.
  - change (events y) with ((λ k, ev_at y (evt y + k)) <$> seqZ 0 (pending x)).
    replace (pending x) with (pending x - 1 + 1) at 1 by lia. rewrite seqZ_snoc by lia. rewrite fmap_app. cbn [fmap list_fmap]. f_equal.
    + apply list_fmap_ext. intros i k Hk. apply lookup_seqZ in Hk. rewrite He, decide_False; [done|].
      unfold last, pending, WEVQ in *. zdm.
    + rewrite He, decide_True by done. done.
  - unfold ev_at. by rewrite Hidx.
Qed.

Lemma enqueue_spec ev x :
  queue_ok x → queue_ok (enqueue ev x) ∧ events (enqueue ev x) = send ev (events x).
Proof.
  intros Hq. pose proof Hq as [Hl Hh Ht]. pose proof (pending_range x) as Hr. unfold enqueue.
  assert ((evh x - evt x + WEVQ) mod WEVQ = pending x) as -> by (unfold pending, WEVQ; zdm).
  set (ll := (evh x + WEVQ - 1) mod WEVQ). unfold WEVQ in *.
  destruct (Z.gtb_spec (pending x) 0) as [Hp|Hp]; rewrite ?andb_true_r, ?andb_false_r.
  - destruct (events_replace x ev Hq Hp) as [Hrep Hlast]. fold ll in Hrep, Hlast.
    unfold send. rewrite Hlast. fold (is_mouse ev). fold (is_mouse (default wev0 (evq x !! Z.to_nat ll))).
    destruct (is_mouse ev && is_mouse _); [split; [|done]; constructor; cbn [set_queue evq evh evt]; rewrite ?length_insert; done|].
    rewrite length_events. destruct (Z.ltb_spec (pending x) (32 - 1)).
    + rewrite bool_decide_true by lia. split; [|by apply events_append; [|lia]].
      constructor; cbn [set_queue evq evh evt]; rewrite ?length_insert; unfold WEVQ; (done || zdm).
    + rewrite bool_decide_false by lia. done.
  - assert (pending x = 0) as Hp0 by lia. cbn [andb]. destruct (Z.ltb_spec (pending x) (32 - 1)); [|lia].
    assert (events x = []) as He by (apply nil_length_inv; rewrite length_events; lia). split.
    + constructor; cbn [set_queue evq evh evt]; rewrite ?length_insert; unfold WEVQ; (done || zdm).
    + unfold WEVQ in *. fold WEVQ. rewrite (events_append x ev Hq) by lia. by rewrite He.
Qed.

Lemma dequeue_spec x (x' := set_queue (evq x) (evh x) ((evt x + 1) mod WEVQ) x) :
  queue_ok x → evt x ≠ evh x →
  queue_ok x' ∧ events x = default wev0 (evq x !! Z.to_nat (evt x)) :: events x'.
Proof.
  intros [Hl Hh Ht] Hne. split; [constructor; cbn; unfold WEVQ in *; (done || zdm)|].
  assert (pending x' = pending x - 1 ∧ 0 < pending x) as [Hp Hp0] by (unfold pending, x', WEVQ in *; cbn [set_queue evh evt]; zdm).
  unfold events. rewrite Hp. rewrite (seqZ_cons 0 (pending x)) by lia. cbn [fmap list_fmap]. f_equal.
  - unfold ev_at. by rewrite Z.add_0_r, Z.mod_small by done.
  - rewrite <- Z.sub_1_r. rewrite <- (fmap_add_seqZ 1 0). rewrite <- list_fmap_compose. apply list_fmap_ext. intros i k Hk. cbn.
    unfold ev_at, x', WEVQ. cbn [set_queue evq evt]. do 3 f_equal. zdm.
Qed.

Lemma surf_put s i j x :
  length (surfs s) = 3%nat → 0 ≤ i < 3 → 0 ≤ j → surf_at (surfs (put_surf i x s)) j = if decide (j = i) then x else surf_at (surfs s) j.
Proof.
  intros Hl Hi Hj. unfold surf_at, put_surf. cbn [surfs]. case_decide as E.
  - subst. by rewrite list_lookup_insert_eq by lia.
  - by rewrite list_lookup_insert_ne by lia.
Qed.

(** Slot [i] is the surface wsurf_event finds for task [me]. *)
Definition mine (s : ws) (me i : Z) : Prop :=
  let x := surf_at (surfs s) i in used x = true ∧ owner x = me ∧ alive x = true.

Lemma event_scan_at n me i j s :
  i ≤ j < i + Z.of_nat n → mine s me j → (∀ k, i ≤ k < j → ¬ mine s me k) →
  event_scan n me i s =
    let x := surf_at (surfs s) j in
    if evt x =? evh x then (None, s)
    else (Some (default wev0 (evq x !! Z.to_nat (evt x))), put_surf j (set_queue (evq x) (evh x) ((evt x + 1) mod WEVQ) x) s).
Proof.
  revert i. induction n as [|n IH]; intros i Hj Hm Hno; [lia|]. cbn [event_scan].
  destruct (negb (used _) || _ || _) eqn:E.
  - destruct (decide (i = j)) as [->|Hne].
    { exfalso. destruct Hm as (H1 & H2 & H3). rewrite H1, H2, Z.eqb_refl, H3 in E. done. }
    apply IH; [lia|done|]. intros k Hk. apply Hno. lia.
  - destruct (decide (i = j)) as [->|Hne]; [done|]. exfalso. apply (Hno i); [lia|].
    boolp. split_and!; [done|done|done].
Qed.

(** Events travel from the server to the client in order: wsurf_send queues
    an event, or merges it into the newest one when both are mouse events,
    or drops it when 31 events wait; wsurf_event delivers the oldest. *)
Theorem surface_events s t i :
  length (surfs s) = 3%nat → 0 ≤ i < WSURF_SLOTS → mine s (c_id t) i → (∀ k, 0 ≤ k < i → ¬ mine s (c_id t) k) →
  queue_ok (surf_at (surfs s) i) →
  (∀ srv ev, server (surf_at (surfs s) i) = c_id srv →
     ∃ s', wsurf_send srv i ev s = (0, s') ∧ queue_ok (surf_at (surfs s') i) ∧
       events (surf_at (surfs s') i) = send ev (events (surf_at (surfs s) i)) ∧
       ∀ j, 0 ≤ j → j ≠ i → surf_at (surfs s') j = surf_at (surfs s) j) ∧
  ∃ s', wsurf_event t s = (head (events (surf_at (surfs s) i)), s') ∧ queue_ok (surf_at (surfs s') i) ∧
    events (surf_at (surfs s') i) = tail (events (surf_at (surfs s) i)) ∧
    ∀ j, 0 ≤ j → j ≠ i → surf_at (surfs s') j = surf_at (surfs s) j.
Proof.
  unfold WSURF_SLOTS. intros Hl Hi Hm Hno Hq. set (x := surf_at (surfs s) i) in *. pose proof Hm as (H1 & H2 & H3). fold x in H1, H2, H3. split.
  - intros srv ev Hsrv. exists (put_surf i (enqueue ev x) s).
    destruct (enqueue_spec ev x Hq) as [E1 E2]. split_and!.
    + unfold wsurf_send, bad_slot, WSURF_SLOTS. fold x. rewrite H1, H3, Hsrv, Z.eqb_refl. cbn [negb].
      destruct (Z.ltb_spec i 0); [lia|]. destruct (Z.geb_spec i 3); [lia|done].
    + rewrite surf_put by lia. by rewrite decide_True.
    + rewrite surf_put by lia. by rewrite decide_True.
    + intros j Hj Hne. rewrite surf_put by lia. by rewrite decide_False.
  - unfold wsurf_event. rewrite (event_scan_at _ _ 0 i) by (done || lia). cbv zeta. fold x.
    destruct (Z.eqb_spec (evt x) (evh x)) as [E|E].
    + assert (events x = []) as -> by (apply nil_length_inv; rewrite length_events; unfold pending; rewrite E, Z.sub_diag; done).
      exists s. fold x. split_and!; [done|done| |done]. cbn. apply nil_length_inv. rewrite length_events. unfold pending. by rewrite E, Z.sub_diag.
    + destruct (dequeue_spec x Hq E) as [D1 D2]. eexists. split_and!; [by rewrite D2| | |].
      * rewrite surf_put by lia. by rewrite decide_True.
      * rewrite surf_put by lia. rewrite decide_True by done. by rewrite D2.
      * intros j Hj Hne. rewrite surf_put by lia. by rewrite decide_False.
Qed.

(** ** Mapping and unmapping *)

(** The pages of an address space changed by [f]; nothing else did. *)
Record repaged (s s' : vm) (dirp : Z) (d d' : page_directory) (f : Z → page → page) : Prop := {
  rp_pm q : 0 ≤ q < 1048576 → pm s' d' q = f q (pm s d q);
  rp_frames : frames s' = frames s;
  rp_n : nframes s' = nframes s;
  rp_ram : ram s' = ram s;
  rp_dirs x : x ≠ dirp → dirs s' !! x = dirs s !! x;
  rp_kernel : kernel_directory s' = kernel_directory s;
  rp_current : current_directory s' = current_directory s;
}.

Lemma repaged_trans s1 s2 s3 dirp d1 d2 d3 f g h :
  repaged s1 s2 dirp d1 d2 f → repaged s2 s3 dirp d2 d3 g → (∀ q pg, 0 ≤ q < 1048576 → h q pg = g q (f q pg)) →
  repaged s1 s3 dirp d1 d3 h.
Proof.
  intros [] [] Hh. constructor; try congruence.
  - intros q Hq. rewrite rp_pm1, rp_pm0, Hh; done.
  - intros x Hx. rewrite rp_dirs1, rp_dirs0; done.
Qed.

Lemma repaged_grown s s' dirp d d' : grown s s' dirp d d' → repaged s s' dirp d d' (λ _ pg, pg).
Proof. intros []. by constructor. Qed.

Lemma store_page s dirp d e q pg (p := (dir_table d (q / 1024), q mod 1024)) :
  dir_wf s dirp d e → 0 ≤ q < 1048576 → dir_table d (q / 1024) ≠ 0 →
  ∃ s', store p pg s = Some (tt, s') ∧ dir_wf s' dirp d e ∧ repaged s s' dirp d d (λ q' x, if decide (q' = q) then pg else x).
Proof.
  intros Hw Hq Hne. destruct (pm_entry s dirp d e q Hw Hq Hne) as [He Hv]. fold p in He, Hv.
  destruct (store_spec s p pg Hv) as (t & E & Hent & Htabs & Hdom & Hlen). exists (set_tabs t s). split_and!; [done| |].
  - destruct Hw as [W1 W2 W3 W4 W5 W6 W7]. constructor; try done.
    + intros i Hi Hn. destruct (W3 i Hi Hn) as (tab & Ht & Hl). destruct (Hlen _ _ Ht) as (tab' & ? & ?). exists tab'. split; [done|lia].
    + eapply Forall_impl; [exact W5|]. intros a (? & Ht & ?). split_and!; [done| |done]. cbn [tabs set_tabs].
      apply not_elem_of_dom. rewrite Hdom. by apply not_elem_of_dom.
  - constructor; try done. intros q' Hq'. unfold pm. case_decide as Eq.
    + subst q'. destruct (Z.eqb_spec (dir_table d (q / 1024)) 0); [done|]. fold p. rewrite Hent by (unfold p; cbn; zdm). by rewrite decide_True.
    + destruct (Z.eqb_spec (dir_table d (q' / 1024)) 0); [done|]. rewrite Hent by (cbn; zdm). rewrite decide_False; [done|].
      unfold p. intros [= Ea Eb]. apply Eq. destruct (decide (q' / 1024 = q / 1024)); [zdm|]. exfalso.
      by apply (dw_inj _ _ _ _ Hw (q' / 1024) (q / 1024) ltac:(zdm) ltac:(zdm)).
Qed.

Definition alias (phys i : Z) (pg : page) : page :=
  mk_page true true true (accessed pg) (dirty pg) (u32 (phys + 4096 * i) / 4096).
Definition unalias (pg : page) : page := mk_page false (rw pg) (user pg) (accessed pg) (dirty pg) 0.

(** Pages [q0 + i] to [q0 + m - 1]. *)
Definition on_range (q0 i m : Z) (f : Z → page → page) : Z → page → page :=
  λ q pg, if decide (q0 + i ≤ q < q0 + m) then f (q - q0) pg else pg.

Lemma map_range_spec n i m s dirp d e q0 phys :
  dir_wf s dirp d e → 0 ≤ q0 → q0 + m ≤ 1048575 → 0 ≤ i ≤ m → m - i ≤ Z.of_nat n →
  ∃ s' d', map_range n dirp (4096 * q0) phys (4096 * i) (4096 * m) s = Some (tt, s') ∧ dir_wf s' dirp d' e ∧
    repaged s s' dirp d d' (on_range q0 i m (alias phys)).
Proof.
  revert i s d. induction n as [|n IH]; intros i s d Hw H0 Hm Hi Hn; cbn [map_range].
  { exists s, d. split_and!; [done|done|]. constructor; try done. intros q Hq. unfold on_range. by rewrite decide_False by lia. }
  destruct (Z.ltb_spec (4096 * i) (4096 * m)) as [Hlt|Hge].
  2: { exists s, d. split_and!; [done|done|]. constructor; try done. intros q Hq. unfold on_range. by rewrite decide_False by lia. }
  rewrite (u32_small (4096 * q0 + 4096 * i)) by lia. destruct (get_make_spec s dirp d e (4096 * q0 + 4096 * i) Hw ltac:(lia)) as (p & s1 & d1 & E1 & Hw1 & Hp & Hne & Hg & _).
  replace ((4096 * q0 + 4096 * i) / 0x1000) with (q0 + i) in * by zdm.
  destruct (pm_entry s1 dirp d1 e (q0 + i) Hw1 ltac:(lia) Hne) as [He _]. rewrite <- Hp in He.
  destruct (store_page s1 dirp d1 e (q0 + i) (alias phys i (pm s1 d1 (q0 + i))) Hw1 ltac:(lia) Hne) as (s2 & E2 & Hw2 & Hr2). rewrite <- Hp in E2.
  destruct (IH (i + 1) s2 d1 Hw2 H0 Hm ltac:(lia) ltac:(lia)) as (s3 & d3 & E3 & Hw3 & Hr3).
  exists s3, d3. split_and!; [|done|].
  - unfold mbind at 1, K_bind at 1. rewrite E1. unfold mbind at 1, K_bind at 1. rewrite (load_spec _ _ _ He).
    unfold mbind at 1, K_bind at 1. change (mk_page _ _ _ _ _ _) with (alias phys i (pm s1 d1 (q0 + i))). rewrite E2.
    replace (4096 * i + 0x1000) with (4096 * (i + 1)) by lia. done.
  - assert (repaged s s2 dirp d d1 (λ q pg, if decide (q = q0 + i) then alias phys i pg else pg)) as Hr12.
    { destruct Hr2 as [R1 R2 R3 R4 R5 R6 R7], Hg. constructor; try congruence; [|intros x Hx; rewrite R5, gr_dirs0; done].
      intros q Hq. rewrite R1 by done. case_decide as Eq; [subst q|]; by rewrite gr_pm0. }
    eapply repaged_trans; [exact Hr12|exact Hr3|]. intros q pg Hq. unfold on_range.
    repeat case_decide; try lia; try done. subst q. by replace (q0 + i - q0) with i by lia.
Qed.

Lemma unmap_range_spec n i m s dirp d e q0 :
  dir_wf s dirp d e → 0 ≤ q0 → q0 + m ≤ 1048575 → 0 ≤ i ≤ m → m - i ≤ Z.of_nat n →
  ∃ s', unmap_range n dirp (4096 * q0) (4096 * i) (4096 * m) s = Some (tt, s') ∧ dir_wf s' dirp d e ∧
    repaged s s' dirp d d (on_range q0 i m (λ _, unalias)).
Proof.
  revert i s. induction n as [|n IH]; intros i s Hw H0 Hm Hi Hn; cbn [unmap_range].
  { exists s. split_and!; [done|done|]. constructor; try done. intros q Hq. unfold on_range. by rewrite decide_False by lia. }
  destruct (Z.ltb_spec (4096 * i) (4096 * m)) as [Hlt|Hge].
  2: { exists s. split_and!; [done|done|]. constructor; try done. intros q Hq. unfold on_range. by rewrite decide_False by lia. }
  rewrite (u32_small (4096 * q0 + 4096 * i)) by lia. unfold mbind at 1, K_bind at 1. rewrite get_page_lookup, (dw_dir _ _ _ _ Hw).
  replace ((4096 * q0 + 4096 * i) / 0x1000) with (q0 + i) by zdm. replace (4096 * i + 0x1000) with (4096 * (i + 1)) by lia.
  assert (∃ s1, (match (if negb (dir_table d ((q0 + i) / 1024) =? 0) then Some (dir_table d ((q0 + i) / 1024), (q0 + i) mod 1024) else None) with
      | None => mret tt
      | Some p => pg ← load p; store p (mk_page false (rw pg) (user pg) (accessed pg) (dirty pg) 0)
      end : K unit) s = Some (tt, s1) ∧ dir_wf s1 dirp d e ∧
      repaged s s1 dirp d d (λ q pg, if decide (q = q0 + i) then unalias pg else pg)) as (s1 & E1 & Hw1 & Hr1).
  { destruct (Z.eqb_spec (dir_table d ((q0 + i) / 1024)) 0) as [Hz|Hne]; cbn [negb].
    - exists s. split_and!; [done|done|]. constructor; try done. intros q Hq. case_decide; [|done]. subst q. unfold pm. by rewrite Hz.
    - destruct (pm_entry s dirp d e (q0 + i) Hw ltac:(lia) Hne) as [He _].
      destruct (store_page s dirp d e (q0 + i) (unalias (pm s d (q0 + i))) Hw ltac:(lia) Hne) as (s1 & E1 & Hw1 & []).
      exists s1. split_and!; [unfold mbind, K_bind; rewrite (load_spec _ _ _ He); exact E1|done|].
      constructor; try done. intros q Hq. rewrite rp_pm0 by done. case_decide; [by subst|done]. }
  destruct (IH (i + 1) s1 Hw1 H0 Hm ltac:(lia) ltac:(lia)) as (s2 & E2 & Hw2 & Hr2).
  exists s2. split_and!; [unfold mbind at 1, K_bind at 1; rewrite E1; exact E2|done|].
  eapply repaged_trans; [exact Hr1|exact Hr2|]. intros q pg Hq. unfold on_range. repeat case_decide; try lia; done.
Qed.

(** ** Surfaces *)

Definition pages (x : wsurf) : Z := (sw x * sh x * 4 + 4095) / 4096.

Definition size_ok (x : wsurf) : Prop := 1 ≤ sw x ≤ WSURF_MAX_W ∧ 1 ≤ sh x ≤ WSURF_MAX_H.

Lemma map_bytes x : size_ok x → surf_map_bytes x = 4096 * pages x ∧ 1 ≤ pages x ≤ 469.
Proof.
  unfold size_ok, surf_map_bytes, pages, WSURF_MAX_W, WSURF_MAX_H. intros [Hw Hh].
  assert (1 ≤ sw x * sh x ≤ 480000) as Hwh by nia. rewrite !u32_small by (rewrite ?u32_small by lia; lia).
  change (u32 (Z.lnot 0xFFF)) with (Z.shiftl (Z.ones (32 - 12)) 12). rewrite align_down by lia. change (2 ^ 12) with 4096. zdm.
Qed.

Lemma unmap_surf_spec s dirp d e q0 x :
  dir_wf (wvm s) dirp d e → size_ok x → 0 ≤ q0 ≤ 1000000 →
  ∃ v, unmap_surf dirp (4096 * q0) x s = Some (mk_ws (surfs s) v) ∧ dir_wf v dirp d e ∧
    repaged (wvm s) v dirp d d (on_range q0 0 (pages x) (λ _, unalias)).
Proof.
  intros Hw Hx Hq. destruct (map_bytes x Hx) as [Hb Hp]. unfold unmap_surf, run_vm. rewrite Hb.
  destruct (unmap_range_spec MAX_PAGES 0 (pages x) (wvm s) dirp d e q0 Hw) as (v & E & Hw' & Hr); [lia|lia|lia|unfold MAX_PAGES; lia|].
  rewrite Z.mul_0_r in E. rewrite E. by exists v.
Qed.

Lemma phys_fill_same n p v s :
  let s' := phys_fill n p v s in
  tabs s' = tabs s ∧ dirs s' = dirs s ∧ Paging.pool s' = Paging.pool s ∧ frames s' = frames s ∧ nframes s' = nframes s ∧
  kernel_directory s' = kernel_directory s ∧ current_directory s' = current_directory s.
Proof.
  revert p s. induction n as [|n IH]; intros p s; cbn [phys_fill]; [done|].
  destruct (IH (p + 1) (phys_put p v s)) as (-> & -> & -> & -> & -> & -> & ->). unfold phys_put. by destruct (ram s !! _).
Qed.

Definition CLIENT_PN : Z := USER_WSURF_BASE / 4096.
Definition server_pn (i : Z) : Z := srv_base i / 4096.

Section surfaces.
Context (pool : Z).

(** wsurf_create maps the pages that start with the one holding the first
    pixel. *)
Lemma create_spec s t d e w h slot :
  length (surfs s) = 3%nat → dir_wf (wvm s) (c_dir t) d e → c_brk t ≠ 0 → 1 ≤ w ≤ WSURF_MAX_W → 1 ≤ h ≤ WSURF_MAX_H →
  find_slot 3 (surfs s) (c_id t) 0 (-1) = Some slot → 0 ≤ slot →
  ∃ s' d' x, wsurf_create pool t w h s = Some (USER_WSURF_BASE, s') ∧ dir_wf (wvm s') (c_dir t) d' e ∧
    (surfs s' = surfs (put_surf slot x s) ∧ used x = true ∧ alive x = true ∧ owner x = c_id t ∧ server x = -1 ∧ size_ok x ∧
     pages x = (w * h * 4 + 4095) / 4096) ∧
    ∀ q, 0 ≤ q < 1048576 → pm (wvm s') d' q = on_range CLIENT_PN 0 ((w * h * 4 + 4095) / 4096) (alias (pool_at pool slot)) q (pm (wvm s) d q).
Proof.
  intros Hl Hw Hbrk Hsw Hsh Hfind Hslot. unfold wsurf_create, WSURF_MAX_W, WSURF_MAX_H in *.
  destruct (Z.eqb_spec (c_brk t) 0); [done|]. destruct (Z.ltb_spec w 1); [lia|]. destruct (Z.ltb_spec h 1); [lia|].
  destruct (Z.gtb_spec w 800); [lia|]. destruct (Z.gtb_spec h 600); [lia|]. cbn [orb].
  change (Z.to_nat WSURF_SLOTS) with 3%nat. rewrite Hfind. destruct (Z.ltb_spec slot 0); [lia|].
  set (x := mk_wsurf _ _ _ _ _ _ _ _ _ _). cbn [surfs wvm put_surf].
  set (v := phys_fill _ _ _ _). destruct (phys_fill_same (Z.to_nat (w * h * 4)) (pool_at pool slot) 0 (wvm s)) as (T1 & T2 & T3 & _).
  fold v in T1, T2, T3.
  assert (size_ok x) as Hx by (unfold size_ok, x, WSURF_MAX_W, WSURF_MAX_H; cbn; lia). destruct (map_bytes x Hx) as [Hb Hp].
  unfold run_vm. cbn [wvm surfs]. rewrite Hb. change (pages x) with ((w * h * 4 + 4095) / 4096) in *.
  assert (dir_wf v (c_dir t) d e) as Hv by (destruct Hw; constructor; rewrite ?T1, ?T2, ?T3; done).
  destruct (map_range_spec MAX_PAGES 0 ((w * h * 4 + 4095) / 4096) v (c_dir t) d e CLIENT_PN (pool_at pool slot) Hv)
    as (v' & d' & E & Hw' & Hr); [by unfold CLIENT_PN|change CLIENT_PN with 475136; lia|lia|unfold MAX_PAGES; lia|].
  change (4096 * CLIENT_PN) with USER_WSURF_BASE in E. rewrite Z.mul_0_r in E. rewrite E.
  eexists _, d', x. split_and!; try done. intros q Hq. cbn [wvm]. rewrite (rp_pm _ _ _ _ _ _ Hr) by done. f_equal. unfold pm, entry. by rewrite T1.
Qed.

(** The pool gives each slot 1920000 bytes, which is not a whole number of
    pages, and a mapping starts at the page of the slot's first byte.  With
    a full-size surface in slot 0, the surface created in slot 1 starts with
    the last page of slot 0's pixels: its owner can read and overwrite the
    bottom of the other client's picture. *)
Theorem second_surface_overlaps s t d e w h :
  pool mod 4096 = 0 → 0 ≤ pool → pool + 3 * WSURF_BYTES < 4294967296 → length (surfs s) = 3%nat →
  used (surf_at (surfs s) 0) = true → sw (surf_at (surfs s) 0) = WSURF_MAX_W → sh (surf_at (surfs s) 0) = WSURF_MAX_H →
  used (surf_at (surfs s) 1) = false → (∀ i, 0 ≤ i < 3 → ¬ mine s (c_id t) i) →
  dir_wf (wvm s) (c_dir t) d e → c_brk t ≠ 0 → 1 ≤ w ≤ WSURF_MAX_W → 1 ≤ h ≤ WSURF_MAX_H →
  ∃ s' d', wsurf_create pool t w h s = Some (USER_WSURF_BASE, s') ∧ dirs (wvm s') !! c_dir t = Some d' ∧
    present (pm (wvm s') d' CLIENT_PN) = true ∧ rw (pm (wvm s') d' CLIENT_PN) = true ∧ user (pm (wvm s') d' CLIENT_PN) = true ∧
    frame (pm (wvm s') d' CLIENT_PN) = (pool_at pool 0 + 4096 * 468) / 4096 ∧ pages (surf_at (surfs s) 0) = 469.
Proof.
  intros Hal Hpos Hhi Hl Hu0 Hw0 Hh0 Hu1 Hno Hw Hbrk Hsw Hsh.
  assert (find_slot 3 (surfs s) (c_id t) 0 (-1) = Some 1) as Hfind.
  { assert (∀ i, 0 ≤ i < 3 → used (surf_at (surfs s) i) && (owner (surf_at (surfs s) i) =? c_id t) && alive (surf_at (surfs s) i) = false) as Hn.
    { intros i Hi. apply not_true_is_false. intros Hx. boolp. by apply (Hno i Hi). }
    cbn [find_slot]. rewrite (Hn 0), (Hn (0 + 1)), (Hn (0 + 1 + 1)) by lia. change (0 + 1) with 1. rewrite Hu0, Hu1. done. }
  destruct (create_spec s t d e w h 1 Hl Hw Hbrk Hsw Hsh Hfind) as (s' & d' & x & E & Hw' & _ & Hpm); [lia|].
  unfold WSURF_MAX_W, WSURF_MAX_H in Hsw, Hsh. assert (1 ≤ w * h) by nia.
  assert (pm (wvm s') d' CLIENT_PN = alias (pool_at pool 1) 0 (pm (wvm s) d CLIENT_PN)) as Hpg.
  { rewrite Hpm by (by unfold CLIENT_PN). unfold on_range. rewrite decide_True by zdm. by rewrite Z.sub_diag. }
  exists s', d'. rewrite Hpg. split_and!; [done|apply Hw'|done|done|done| |].
  - cbn [frame alias]. unfold pool_at, WSURF_BYTES, WSURF_MAX_W, WSURF_MAX_H in *. rewrite u32_small by lia. zdm.
  - unfold pages. rewrite Hw0, Hh0. done.
Qed.
End surfaces.

(** ** Exit *)

(** The page windows of surfaces: the client's own and the server's, one of
    512 pages per slot. *)
Definition in_window (q : Z) : Prop := CLIENT_PN ≤ q < CLIENT_PN + 1024 + 3 * 512.

(** Slots [i] to [j - 1] have let go of task [me], whose directory is [d]. *)
Record exiting (s s' : ws) (dirp : Z) (d : page_directory) (me i j : Z) : Prop := {
  ex_len : length (surfs s') = 3%nat;
  ex_surf k : 0 ≤ k < 3 → ¬ (i ≤ k < j) → surf_at (surfs s') k = surf_at (surfs s) k;
  ex_gone k : i ≤ k < j → ¬ mine s' me k ∧ (used (surf_at (surfs s') k) = true → server (surf_at (surfs s') k) ≠ me);
  ex_zero q : 0 ≤ q < 1048576 → frame (pm (wvm s) d q) = 0 → frame (pm (wvm s') d q) = 0;
  ex_client k q : i ≤ k < j → 0 ≤ q < 1048576 → mine s me k → CLIENT_PN ≤ q < CLIENT_PN + pages (surf_at (surfs s) k) → frame (pm (wvm s') d q) = 0;
  ex_server k q : i ≤ k < j → 0 ≤ q < 1048576 → used (surf_at (surfs s) k) = true → server (surf_at (surfs s) k) = me →
    server_pn k ≤ q < server_pn k + pages (surf_at (surfs s) k) → frame (pm (wvm s') d q) = 0;
  ex_out q : 0 ≤ q < 1048576 → ¬ in_window q → pm (wvm s') d q = pm (wvm s) d q;
  ex_frames : frames (wvm s') = frames (wvm s);
  ex_ram : ram (wvm s') = ram (wvm s);
  ex_dirs x : x ≠ dirp → dirs (wvm s') !! x = dirs (wvm s) !! x;
}.

Lemma server_pn_at i : server_pn i = CLIENT_PN + 1024 + 512 * i.
Proof. unfold server_pn, srv_base, CLIENT_PN, USER_WSRV_BASE, USER_WSURF_BASE, WSURF_SLOT_SPAN. zdm. Qed.

(** The owner's half of the exit of slot [i]. *)
Lemma exit_owner_spec s dirp d e me i (x := surf_at (surfs s) i) (own := (owner x =? me) && alive x) :
  length (surfs s) = 3%nat → 0 ≤ i < 3 → dir_wf (wvm s) dirp d e → size_ok x → used x = true →
  ∃ v y, (if own then
       s ← unmap_surf dirp USER_WSURF_BASE x (put_surf i (set_alive false x) s);
       Some (if server x =? -1 then put_surf i (set_used false (set_alive false x)) s else s)
     else Some s) = Some (put_surf i y (mk_ws (surfs s) v)) ∧ dir_wf v dirp d e ∧
   repaged (wvm s) v dirp d d (if own then on_range CLIENT_PN 0 (pages x) (λ _, unalias) else λ _ pg, pg) ∧
   server y = server x ∧ owner y = owner x ∧ alive y = (if own then false else alive x) ∧ used y = negb (own && (server x =? -1)).
Proof.
  intros Hl Hi Hw Hsz Hu. destruct own.
  - destruct (unmap_surf_spec (put_surf i (set_alive false x) s) dirp d e CLIENT_PN x) as (v & E & Hv & Hr); [done|done|by vm_compute|].
    change (4096 * CLIENT_PN) with USER_WSURF_BASE in E. rewrite E. cbn [mbind option_bind surfs wvm put_surf] in *.
    destruct (server x =? -1).
    + exists v, (set_used false (set_alive false x)). split_and!; try done. unfold put_surf. cbn [surfs wvm]. by rewrite list_insert_insert_eq.
    + exists v, (set_alive false x). done.
  - exists (wvm s), x. split_and!; try done. f_equal. unfold put_surf. cbn [surfs wvm]. unfold x, surf_at.
    destruct (lookup_lt_is_Some_2 (surfs s) (Z.to_nat i)) as [z Hz]; [lia|]. rewrite Hz. cbn. rewrite list_insert_id by done. by destruct s.
Qed.

Lemma exit_slot_spec s dirp d e me i :
  length (surfs s) = 3%nat → 0 ≤ i < 3 → dir_wf (wvm s) dirp d e → me ≠ -1 →
  (used (surf_at (surfs s) i) = true → size_ok (surf_at (surfs s) i)) →
  ∃ s', exit_slot me dirp i s = Some s' ∧ dir_wf (wvm s') dirp d e ∧ exiting s s' dirp d me i (i + 1).
Proof.
  intros Hl Hi Hw Hme Hsz. unfold exit_slot. set (x := surf_at (surfs s) i) in *.
  destruct (used x) eqn:Hu; cbn [negb].
  2: { exists s. split_and!; [done|done|]. constructor; try done.
       - intros k Hk. assert (k = i) as -> by lia. fold x. unfold mine. fold x. rewrite Hu. split; [by intros (? & _)|done].
       - intros k q Hk _ (Hm & _). assert (k = i) as -> by lia. fold x in Hm. congruence.
       - intros k q Hk _ Hm. assert (k = i) as -> by lia. fold x in Hm. congruence. }
  specialize (Hsz eq_refl). destruct (map_bytes x Hsz) as [_ Hpg].
  set (own := (owner x =? me) && alive x).
  destruct (exit_owner_spec s dirp d e me i Hl Hi Hw Hsz Hu) as (v1 & y & E1 & Hw1 & Hr1 & Y1 & Y2 & Y3 & Y4).
  fold x in E1, Hr1, Y1, Y2, Y3, Y4. fold own in E1, Hr1, Y3, Y4.
  rewrite E1. cbn [mbind option_bind]. set (s1 := put_surf i y (mk_ws (surfs s) v1)).
  assert (length (surfs s1) = 3%nat) as Hl1 by (unfold s1, put_surf; cbn; by rewrite length_insert).
  assert (∀ k, 0 ≤ k → surf_at (surfs s1) k = if decide (k = i) then y else surf_at (surfs s) k) as Hs1
    by (intros k Hk; unfold s1; by rewrite surf_put).
  assert (¬ (owner y = me ∧ alive y = true)) as Hny.
  { intros [Ho Ha]. rewrite Y2 in Ho. rewrite Y3 in Ha. unfold own in Ha. rewrite Ho, Z.eqb_refl in Ha. cbn in Ha. by destruct (alive x). }
  assert (mine s me i → own = true) as Hown by (intros (_ & Ho & Ha); fold x in Ho, Ha; unfold own; rewrite Ho, Z.eqb_refl; done).
  pose proof (server_pn_at i) as Hsp. destruct Hr1 as [P1 P2 _ P4 P5 _ _].
  assert (∀ q, 0 ≤ q < 1048576 → frame (pm (wvm s) d q) = 0 → frame (pm v1 d q) = 0) as Z1
    by (intros q Hq Hz; rewrite P1 by done; destruct own; [unfold on_range; by case_decide|done]).
  assert (∀ q, 0 ≤ q < 1048576 → ¬ in_window q → pm v1 d q = pm (wvm s) d q) as O1.
  { intros q Hq Hn. rewrite P1 by done. destruct own; [|done]. unfold on_range. rewrite decide_False; [done|]. unfold in_window in Hn. lia. }
  assert (∀ q, mine s me i → CLIENT_PN ≤ q < CLIENT_PN + pages x → frame (pm v1 d q) = 0) as C1.
  { intros q Hm Hq. rewrite P1 by (change CLIENT_PN with 475136 in Hq; lia). rewrite (Hown Hm). unfold on_range. by rewrite decide_True by lia. }
  destruct (Z.eqb_spec (server x) me) as [Hsrv|Hsrv].
  - destruct (unmap_surf_spec s1 dirp d e (server_pn i) x) as (v2 & E2 & Hw2 & [Q1 Q2 _ Q4 Q5 _ _]);
      [done|done|rewrite Hsp; change CLIENT_PN with 475136; lia|].
    assert (4096 * server_pn i = srv_base i) as Hsb
      by (unfold server_pn, srv_base, USER_WSRV_BASE, WSURF_SLOT_SPAN; zdm). rewrite Hsb in E2. rewrite E2. cbn [mbind option_bind].
    assert (alive y = true ∨ alive y = false) as Hay by (destruct (alive y); auto).
    set (s2 := mk_ws (surfs s1) v2). exists (drop_server i s2). split_and!; [done|done|].
    assert (surf_at (surfs s2) i = y) as Hy2 by (unfold s2; cbn [surfs]; rewrite Hs1 by lia; by rewrite decide_True).
    assert (∀ k, 0 ≤ k → surf_at (surfs (drop_server i s2)) k =
              if decide (k = i) then (if alive y then set_server (-1) y else set_used false (set_server (-1) y)) else surf_at (surfs s) k) as Hs2.
    { intros k Hk. unfold drop_server. rewrite surf_put by done. rewrite Hy2. cbn [alive set_server]. case_decide; [done|].
      unfold s2. cbn [surfs]. rewrite Hs1 by done. by rewrite decide_False. }
    constructor; cbn [wvm drop_server put_surf s2].
    + unfold drop_server, put_surf. cbn. by rewrite length_insert.
    + intros k Hk Hn. rewrite Hs2 by lia. by rewrite decide_False by lia.
    + intros k Hk. assert (k = i) as -> by lia. unfold mine. rewrite Hs2 by lia. rewrite decide_True by done.
      destruct (alive y) eqn:Ea; cbn [used owner alive server set_server set_used]; split.
      * intros (_ & Ho & _). by apply Hny.
      * intros _. congruence.
      * by intros (? & _).
      * intros [=].
    + intros q Hq Hz. rewrite Q1 by done. unfold on_range. case_decide; [done|]. by apply Z1.
    + intros k q Hk Hr Hm Hq. assert (k = i) as -> by lia. fold x in Hq. rewrite Q1 by done.
      unfold on_range. case_decide; [done|]. by apply C1.
    + intros k q Hk Hr _ _ Hq. assert (k = i) as -> by lia. fold x in Hq. rewrite Q1 by done.
      unfold on_range. by rewrite decide_True by lia.
    + intros q Hq Hn. rewrite Q1 by done. unfold on_range. rewrite decide_False; [by apply O1|]. unfold in_window in Hn. lia.
    + rewrite Q2. exact P2.
    + rewrite Q4. exact P4.
    + intros z Hz. rewrite Q5 by done. by apply P5.
  - exists s1. split_and!; [done|done|]. constructor; try done.
    + intros k Hk Hn. rewrite Hs1 by lia. by rewrite decide_False by lia.
    + intros k Hk. assert (k = i) as -> by lia. unfold mine. rewrite Hs1 by lia. rewrite decide_True by done.
      split; [intros (_ & Ho & Ha); by apply Hny|]. intros _. congruence.
    + intros k q Hk _ Hm Hq. assert (k = i) as -> by lia. by apply C1.
    + intros k q Hk _ _ Hse. assert (k = i) as -> by lia. fold x in Hse. congruence.
Qed.

Lemma exiting_refl s dirp d me i : length (surfs s) = 3%nat → exiting s s dirp d me i i.
Proof. intros Hl. constructor; try done; intros; lia. Qed.

Lemma exiting_trans s1 s2 s3 dirp d me i j k :
  exiting s1 s2 dirp d me i j → exiting s2 s3 dirp d me j k → 0 ≤ i ≤ j → j ≤ k ≤ 3 → exiting s1 s3 dirp d me i k.
Proof.
  intros [A1 A2 A3 A4 A5 A6 A7 A8 A9 A10] [B1 B2 B3 B4 B5 B6 B7 B8 B9 B10] Hij Hjk.
  assert (∀ l, mine s1 me l → j ≤ l < k → mine s2 me l) as Hm by (intros l Hm Hl; unfold mine in *; by rewrite A2 by lia).
  constructor; try congruence.
  - intros l Hl Hn. rewrite B2, A2 by lia. done.
  - intros l Hl. destruct (decide (j ≤ l)); [apply B3; lia|]. unfold mine. rewrite B2 by lia. apply A3. lia.
  - intros q Hq Hz. by apply B4, A4.
  - intros l q Hl Hr Hmi Hq. destruct (decide (j ≤ l)) as [Hjl|]; [|apply B4; [done|]; by apply (A5 l); [lia|..]].
    apply (B5 l); [lia|done|apply Hm; [done|lia]|]. by rewrite A2 by lia.
  - intros l q Hl Hr Hu Hs Hq. destruct (decide (j ≤ l)) as [Hjl|]; [|apply B4; [done|]; by apply (A6 l); [lia|..]].
    apply (B6 l); rewrite ?A2 by lia; (done || lia).
  - intros q Hq Hn. rewrite B7, A7; done.
  - intros x Hx. rewrite B10, A10; done.
Qed.

Lemma exit_slots_spec n i s dirp d e me :
  length (surfs s) = 3%nat → 0 ≤ i → i + Z.of_nat n = 3 → dir_wf (wvm s) dirp d e → me ≠ -1 →
  (∀ k, i ≤ k < 3 → used (surf_at (surfs s) k) = true → size_ok (surf_at (surfs s) k)) →
  ∃ s', exit_slots n me dirp i s = Some s' ∧ dir_wf (wvm s') dirp d e ∧ exiting s s' dirp d me i 3.
Proof.
  revert i s. induction n as [|n IH]; intros i s Hl Hi Hn Hw Hme Hsz; cbn [exit_slots].
  { assert (i = 3) as -> by lia. exists s. split_and!; [done|done|by apply exiting_refl]. }
  destruct (exit_slot_spec s dirp d e me i Hl ltac:(lia) Hw Hme) as (s1 & E1 & Hw1 & Hx1); [apply Hsz; lia|].
  rewrite E1. cbn [mbind option_bind].
  destruct (IH (i + 1) s1 (ex_len _ _ _ _ _ _ _ Hx1) ltac:(lia) ltac:(lia) Hw1 Hme) as (s2 & E2 & Hw2 & Hx2).
  { intros k Hk. rewrite (ex_surf _ _ _ _ _ _ _ Hx1) by lia. apply Hsz. lia. }
  exists s2. split_and!; [done|done|]. eapply exiting_trans; [exact Hx1|exact Hx2|lia|lia].
Qed.

(** Every mapped page of the surface windows of task [me] belongs to its
    surface or to one it serves. *)
Definition accounted (s : ws) (d : page_directory) (me : Z) : Prop :=
  ∀ q, in_window q → frame (pm (wvm s) d q) ≠ 0 →
    ∃ i, 0 ≤ i < 3 ∧
      ((mine s me i ∧ CLIENT_PN ≤ q < CLIENT_PN + pages (surf_at (surfs s) i)) ∨
       (used (surf_at (surfs s) i) = true ∧ server (surf_at (surfs s) i) = me ∧
        server_pn i ≤ q < server_pn i + pages (surf_at (surfs s) i))).

(** The invariant of one task with directory [d]. *)
Record winv (s : ws) (dirp : Z) (d : page_directory) (e : nat) (me : Z) : Prop := {
  wi_len : length (surfs s) = 3%nat;
  wi_dir : dir_wf (wvm s) dirp d e;
  wi_size k : 0 ≤ k < 3 → used (surf_at (surfs s) k) = true → size_ok (surf_at (surfs s) k);
  wi_acc : accounted s d me;
}.
End WsurfSpec.

(** * Window surfaces: the mappings over a history of calls

    However tasks create, serve, release surfaces and exit, every page a task
    maps in the surface windows is accounted for by the table of surfaces, so
    that wsurf_task_exit unmaps all of them before the directory is freed. *)

Module WsurfInv.
Import Paging PagingFrames PagingClone PagingInit VMem Wsurf WsurfSpec.

(** The surface calls of a task. *)
Inductive call :=
| CCreate (w h : Z)
| CEvent
| CMap (slot : Z)
| CSend (slot : Z) (ev : wev)
| CUnmap (slot : Z).

(** ** What a task's calls do to an entry of the table *)

Inductive touch (a : Z) : wsurf → wsurf → Prop :=
| touch_queue x q h t : touch a x (set_queue q h t x)
| touch_create x y : used x = false → used y = true → size_ok y → touch a x y
| touch_map x : used x = true → server x = -1 ∨ server x = a → touch a x (set_server a x)
| touch_drop x (y := set_server (-1) x) :
    used x = true → server x = a → touch a x (if alive y then y else set_used false y)
| touch_die x : used x = true → owner x = a → server x ≠ -1 → touch a x (set_alive false x)
| touch_end x : used x = true → owner x = a → server x = -1 → touch a x (set_used false (set_alive false x)).

Lemma touch_size a x y : touch a x y → (used x = true → size_ok x) → used y = true → size_ok y.
Proof. intros [] Hx; try (intros; by apply Hx); try done. subst y0. destruct (alive _); intros; by apply Hx. Qed.

(** Another task's calls leave an entry that [me] owns or serves alone. *)
Lemma touch_keeps a me x y :
  touch a x y → a ≠ me → me ≠ -1 →
  (used x = true ∧ owner x = me ∧ alive x = true → used y = true ∧ owner y = me ∧ alive y = true ∧ pages y = pages x) ∧
  (used x = true ∧ server x = me → used y = true ∧ server y = me ∧ pages y = pages x).
Proof.
  intros Ht Ha Hme. destruct Ht as [x q h t|x y Hu|x Hu Hs|x y Hu Hs|x Hu Ho Hs|x Hu Ho Hs]; try subst y;
    cbn [used owner alive server set_queue set_server set_alive set_used]; split; intros Hx; destruct_and!;
    try (destruct Hs; congruence); try congruence; try (by split_and!).
  match goal with E : alive x = true |- _ => rewrite E end. by split_and!.
Qed.

Lemma touches_keep a me x y :
  rtc (touch a) x y → a ≠ me → me ≠ -1 →
  (used x = true ∧ owner x = me ∧ alive x = true → used y = true ∧ owner y = me ∧ alive y = true ∧ pages y = pages x) ∧
  (used x = true ∧ server x = me → used y = true ∧ server y = me ∧ pages y = pages x).
Proof.
  intros H Ha Hme. induction H as [x|x y z Ht _ [IH1 IH2]]; [split; [by intros (? & ? & ?)|by intros (? & ?)]|].
  destruct (touch_keeps a me x y Ht Ha Hme) as [K1 K2]. split.
  - intros Hx. destruct (K1 Hx) as (H1 & H2 & H3 & H4). destruct (IH1 (conj H1 (conj H2 H3))) as (? & ? & ? & ?). split_and!; congruence.
  - intros Hx. destruct (K2 Hx) as (H1 & H2 & H4). destruct (IH2 (conj H1 H2)) as (? & ? & ?). split_and!; congruence.
Qed.

Lemma touches_size a x y : rtc (touch a) x y → (used x = true → size_ok x) → used y = true → size_ok y.
Proof. intros H. induction H as [|x y z Ht _ IH]; [done|]. intros Hx. apply IH. by eapply touch_size. Qed.

(** The tables [s] and [s'] differ by calls of task [a]. *)
Definition touched (a : Z) (s s' : ws) : Prop :=
  length (surfs s') = 3%nat ∧ ∀ i, 0 ≤ i < 3 → rtc (touch a) (surf_at (surfs s) i) (surf_at (surfs s') i).

Lemma touched_put a s s' i y :
  length (surfs s) = 3%nat → 0 ≤ i < 3 → surfs s' = surfs (put_surf i y s) → touch a (surf_at (surfs s) i) y → touched a s s'.
Proof.
  intros Hl Hi Hs Ht. split; [rewrite Hs; unfold put_surf; cbn; by rewrite length_insert|].
  intros j Hj. rewrite Hs, surf_put by lia. case_decide; [subst; by apply rtc_once|done].
Qed.

Lemma touched_refl a s s' : length (surfs s) = 3%nat → surfs s' = surfs s → touched a s s'.
Proof. intros Hl E. split; [by rewrite E|]. intros i _. by rewrite E. Qed.

Lemma touched_trans a s1 s2 s3 : touched a s1 s2 → touched a s2 s3 → touched a s1 s3.
Proof. intros [_ H1] [L H2]. split; [done|]. intros i Hi. etrans; [by apply H1|by apply H2]. Qed.

(** Calls of another task that leave this task's pages alone keep its
    invariant. *)
Lemma winv_other s s' dirp d e e' me a :
  winv s dirp d e me → touched a s s' → a ≠ me → me ≠ -1 → dir_wf (wvm s') dirp d e' →
  (∀ q, in_window q → pm (wvm s') d q = pm (wvm s) d q) → winv s' dirp d e' me.
Proof.
  intros [Hl Hw Hsz Hacc] [Hl' Ht] Ha Hme Hw' Hpm. constructor; [done|done| |].
  - intros k Hk. eapply touches_size; [by apply Ht|]. by apply Hsz.
  - intros q Hq Hf. rewrite Hpm in Hf by done. destruct (Hacc q Hq Hf) as (i & Hi & Hcase). exists i. split; [done|].
    destruct (touches_keep a me _ _ (Ht i Hi) Ha Hme) as [K1 K2]. destruct Hcase as [[Hm Hr]|(Hu & Hs & Hr)].
    + left. destruct (K1 Hm) as (? & ? & ? & Hp). split; [done|]. by rewrite Hp.
    + right. destruct (K2 (conj Hu Hs)) as (? & ? & Hp). by rewrite Hp.
Qed.

(** ** The calls *)

Section calls.
Context (pool : Z).

Definition run_call (t : client) (c : call) (s : ws) : option ws :=
  match c with
  | CCreate w h => snd <$> wsurf_create pool t w h s
  | CEvent => Some (wsurf_event t s).2
  | CMap slot => snd <$> wsurf_map pool t slot s
  | CSend slot ev => Some (wsurf_send t slot ev s).2
  | CUnmap slot => snd <$> wsurf_unmap t slot s
  end.

Lemma find_slot_spec n l me i slot r :
  find_slot n l me i slot = Some r → (slot < 0 ∨ 0 ≤ slot < i ∧ used (surf_at l slot) = false) → 0 ≤ i →
  r < 0 ∨ 0 ≤ r < i + Z.of_nat n ∧ used (surf_at l r) = false.
Proof.
  revert i slot. induction n as [|n IH]; intros i slot; cbn [find_slot].
  { intros [= <-] [?|[? ?]] Hi; [by left|right]. split; [lia|done]. }
  destruct (_ && alive _); [done|]. intros H Hs Hi. destruct (IH _ _ H) as [?|[? ?]]; [|lia|by left|right; split; [lia|done]].
  destruct (Z.ltb_spec slot 0); cbn [andb].
  - destruct (used (surf_at l i)) eqn:E; cbn [negb]; [by left|]. right. split; [lia|done].
  - destruct Hs as [?|[? ?]]; [lia|]. right. split; [lia|done].
Qed.

Lemma bad_slot_spec slot s : bad_slot slot s = false → 0 ≤ slot < 3 ∧ used (surf_at (surfs s) slot) = true.
Proof. unfold bad_slot, WSURF_SLOTS. intros H. boolp. split; [lia|done]. Qed.

Lemma run_vm_surfs {A} (c : K A) s a s' : run_vm c s = Some (a, s') → surfs s' = surfs s.
Proof. unfold run_vm. destruct (c (wvm s)) as [[? ?]|]; [|done]. by intros [= _ <-]. Qed.

Lemma unmap_surf_surfs dirp va x s s' : unmap_surf dirp va x s = Some s' → surfs s' = surfs s.
Proof. unfold unmap_surf. destruct (run_vm _ _) as [[? s1]|] eqn:E; [|done]. intros [= <-]. by eapply run_vm_surfs. Qed.

Lemma touched_event me s n i : length (surfs s) = 3%nat → 0 ≤ i → i + Z.of_nat n ≤ 3 → touched me s (event_scan n me i s).2.
Proof.
  intros Hl. revert i. induction n as [|n IH]; intros i Hi Hn; cbn [event_scan]; [by apply touched_refl|].
  destruct (_ || negb (alive _)); [apply IH; lia|]. destruct (_ =? _); [by apply touched_refl|].
  eapply touched_put; [done| |done|apply touch_queue]. lia.
Qed.

Lemma touched_drop me s i s' :
  length (surfs s) = 3%nat → 0 ≤ i < 3 → surfs s' = surfs (drop_server i s) → used (surf_at (surfs s) i) = true →
  server (surf_at (surfs s) i) = me → touched me s s'.
Proof. intros Hl Hi E Hu Hs. eapply (touched_put me s s' i); [done|done|by rewrite E|]. by apply touch_drop. Qed.

Lemma call_touched t c s s' : length (surfs s) = 3%nat → run_call t c s = Some s' → touched (c_id t) s s'.
Proof.
  intros Hl. destruct c as [w h| |slot|slot ev|slot]; cbn [run_call].
  - unfold wsurf_create. destruct (_ || _) eqn:E0; [intros [= <-]; by apply touched_refl|].
    destruct (find_slot _ _ _ _ _) as [slot|] eqn:Ef; [|intros [= <-]; by apply touched_refl].
    destruct (Z.ltb_spec slot 0); [intros [= <-]; by apply touched_refl|].
    destruct (find_slot_spec _ _ _ _ _ _ Ef) as [?|[Hr Hu]]; [left; lia|lia|lia|]. change (0 + Z.of_nat (Z.to_nat WSURF_SLOTS)) with 3 in Hr.
    destruct (run_vm _ _) as [[[] s1]|] eqn:Er; [|done]. intros [= <-]. apply run_vm_surfs in Er. cbn [surfs] in Er.
    eapply touched_put; [done|exact Hr|exact Er|]. apply touch_create; [done|done|]. boolp. unfold size_ok, WSURF_MAX_W, WSURF_MAX_H in *. cbn. lia.
  - intros [= <-]. by apply touched_event.
  - unfold wsurf_map. destruct (_ || _) eqn:E0; [intros [= <-]; by apply touched_refl|]. boolp. destruct (bad_slot_spec slot s) as [Hr Hu]; [done|].
    destruct (_ && _) eqn:E1; [intros [= <-]; by apply touched_refl|].
    destruct (run_vm _ _) as [[[] s1]|] eqn:Er; [|done]. intros [= <-]. apply run_vm_surfs in Er.
    eapply touched_put; [done|exact Hr|exact Er|]. apply touch_map; [done|].
    apply andb_false_iff in E1 as [E1|E1]; apply negb_false_iff, Z.eqb_eq in E1; auto.
  - intros [= <-]. unfold wsurf_send. destruct (_ || _) eqn:E0; [by apply touched_refl|]. boolp.
    destruct (bad_slot_spec slot s) as [Hr Hu]; [done|]. eapply touched_put; [done|exact Hr|done|].
    unfold enqueue. destruct (_ && _); [apply touch_queue|]. destruct (_ <? _); [apply touch_queue|].
    assert (surf_at (surfs s) slot = set_queue (evq (surf_at (surfs s) slot)) (evh (surf_at (surfs s) slot)) (evt (surf_at (surfs s) slot)) (surf_at (surfs s) slot)) as Hid
      by (by destruct (surf_at (surfs s) slot)). rewrite Hid at 2. apply touch_queue.
  - unfold wsurf_unmap. destruct (_ || _) eqn:E0; [intros [= <-]; by apply touched_refl|]. boolp. destruct (bad_slot_spec slot s) as [Hr Hu]; [done|].
    destruct (unmap_surf _ _ _ _) as [s1|] eqn:Eu; [|done]. cbn. intros [= <-]. apply unmap_surf_surfs in Eu.
    apply (touched_drop _ s slot); [done|done| |done|done]. unfold drop_server, put_surf. cbn [surfs]. by rewrite Eu.
Qed.

Lemma exit_slot_touched me dirp i s s' :
  length (surfs s) = 3%nat → 0 ≤ i < 3 → me ≠ -1 → exit_slot me dirp i s = Some s' → touched me s s'.
Proof.
  intros Hl Hi Hme. unfold exit_slot. set (x := surf_at (surfs s) i). destruct (used x) eqn:Hu; cbn [negb]; [|intros [= <-]; by apply touched_refl].
  destruct (mbind (M := option) _ _) as [s2|] eqn:E; [|done]. revert E. intros E [= <-]. revert E.
  destruct ((owner x =? me) && alive x) eqn:Eo.
  - boolp. destruct (unmap_surf _ _ _ _) as [s1|] eqn:Eu; [|done]. cbn [mbind option_bind]. apply unmap_surf_surfs in Eu.
    destruct (Z.eqb_spec (server x) (-1)) as [Hs|Hs].
    + destruct (Z.eqb_spec (server x) me); [congruence|]. intros [= <-]. apply (touched_put me s _ i (set_used false (set_alive false x))); [done|done| |by apply touch_end].
      unfold put_surf. cbn [surfs]. rewrite Eu. unfold put_surf. cbn [surfs]. by rewrite list_insert_insert_eq.
    + assert (touched me s s1) as Ht1 by (eapply touched_put; [done|done|exact Eu|by apply touch_die]).
      destruct (Z.eqb_spec (server x) me) as [Hsm|]; [|by intros [= <-]].
      destruct (unmap_surf _ _ _ s1) as [s2'|] eqn:Eu2; [|done]. cbn. intros [= <-]. apply unmap_surf_surfs in Eu2.
      eapply touched_trans; [exact Ht1|]. destruct Ht1 as [Hl1 _].
      assert (surf_at (surfs s1) i = set_alive false x) as Hx1 by (rewrite Eu, surf_put by lia; by rewrite decide_True).
      apply (touched_drop me s1 i); [done|done| |by rewrite Hx1|by rewrite Hx1]. unfold drop_server, put_surf. cbn [surfs]. by rewrite Eu2.
  - cbn [mbind option_bind]. destruct (Z.eqb_spec (server x) me) as [Hsm|]; [|intros [= <-]; by apply touched_refl].
    destruct (unmap_surf _ _ _ s) as [s2'|] eqn:Eu2; [|done]. cbn. intros [= <-]. apply unmap_surf_surfs in Eu2.
    apply (touched_drop me s i); [done|done| |done|done]. unfold drop_server, put_surf. cbn [surfs]. by rewrite Eu2.
Qed.

Lemma exit_touched me dirp s s' :
  length (surfs s) = 3%nat → me ≠ -1 → wsurf_task_exit me dirp s = Some s' → touched me s s'.
Proof.
  unfold wsurf_task_exit. change (Z.to_nat WSURF_SLOTS) with 3%nat. intros Hl Hme.
  cut (∀ n i s, length (surfs s) = 3%nat → 0 ≤ i → i + Z.of_nat n ≤ 3 → exit_slots n me dirp i s = Some s' → touched me s s').
  { intros H. by apply (H 3%nat 0). }
  clear s Hl. induction n as [|n IH]; intros i s Hl Hi Hn; cbn [exit_slots]; [intros [= <-]; by apply touched_refl|].
  destruct (exit_slot me dirp i s) as [s1|] eqn:E; [|done]. cbn [mbind option_bind]. intros H.
  pose proof (exit_slot_touched me dirp i s s1 Hl ltac:(lia) Hme E) as Ht. eapply touched_trans; [exact Ht|].
  apply (IH (i + 1)); [apply Ht|lia|lia|done].
Qed.

(** ** The invariant of the calling task *)

Lemma winv_same s s' dirp d e me :
  winv s dirp d e me → touched me s s' → wvm s' = wvm s →
  (∀ i, 0 ≤ i < 3 → let x := surf_at (surfs s) i in let y := surf_at (surfs s') i in
     used y = used x ∧ owner y = owner x ∧ alive y = alive x ∧ server y = server x ∧ pages y = pages x) → winv s' dirp d e me.
Proof.
  intros [Hl Hw Hsz Hacc] [Hl' Ht] Hv Hsame. constructor; [done|by rewrite Hv| |].
  - intros k Hk. eapply touches_size; [by apply Ht|]. by apply Hsz.
  - intros q Hq. rewrite Hv. intros Hf. destruct (Hacc q Hq Hf) as (i & Hi & Hcase). exists i. split; [done|].
    destruct (Hsame i Hi) as (E1 & E2 & E3 & E4 & E5). unfold mine in *. by rewrite E1, E2, E3, E4, E5.
Qed.

Lemma winv_put s s' dirp d d' e me i y f :
  winv s dirp d e me → touched me s s' → 0 ≤ i < 3 → surfs s' = surfs (put_surf i y s) → dir_wf (wvm s') dirp d' e →
  (∀ q, 0 ≤ q < 1048576 → pm (wvm s') d' q = f q (pm (wvm s) d q)) →
  (∀ q pg, in_window q → frame (f q pg) ≠ 0 →
     (f q pg = pg ∧ (mine s me i → CLIENT_PN ≤ q < CLIENT_PN + pages (surf_at (surfs s) i) → used y = true ∧ owner y = me ∧ alive y = true ∧ pages y = pages (surf_at (surfs s) i)) ∧
      (used (surf_at (surfs s) i) = true → server (surf_at (surfs s) i) = me →
       server_pn i ≤ q < server_pn i + pages (surf_at (surfs s) i) → used y = true ∧ server y = me ∧ pages y = pages (surf_at (surfs s) i))) ∨
     (used y = true ∧ owner y = me ∧ alive y = true ∧ CLIENT_PN ≤ q < CLIENT_PN + pages y) ∨
     (used y = true ∧ server y = me ∧ server_pn i ≤ q < server_pn i + pages y)) →
  winv s' dirp d' e me.
Proof.
  intros [Hl Hw Hsz Hacc] [Hl' Ht] Hi Es Hw' Hpm Hf. constructor; [done|done| |].
  - intros k Hk. eapply touches_size; [by apply Ht|]. by apply Hsz.
  - assert (∀ k, 0 ≤ k → surf_at (surfs s') k = if decide (k = i) then y else surf_at (surfs s) k) as Hs by (intros; rewrite Es, surf_put; done).
    intros q Hq Hne. rewrite Hpm in Hne by (unfold in_window in Hq; change CLIENT_PN with 475136 in Hq; lia).
    destruct (Hf q _ Hq Hne) as [(Efq & F1 & F2)|[H|H]].
    + rewrite Efq in Hne. destruct (Hacc q Hq Hne) as (k & Hk & Hcase). exists k. split; [done|]. unfold mine. rewrite !Hs by lia.
      case_decide as Ek; [subst k|exact Hcase]. destruct Hcase as [[Hm Hr]|(Hu & Hsv & Hr)].
      * left. destruct (F1 Hm Hr) as (? & ? & ? & Hp). by rewrite Hp.
      * right. destruct (F2 Hu Hsv Hr) as (? & ? & Hp). by rewrite Hp.
    + exists i. split; [done|]. left. unfold mine. rewrite Hs by lia. rewrite decide_True by done. tauto.
    + exists i. split; [done|]. right. rewrite Hs by lia. rewrite decide_True by done. tauto.
Qed.

Lemma server_va slot : 4096 * server_pn slot = srv_base slot.
Proof. unfold server_pn, srv_base, USER_WSRV_BASE, WSURF_SLOT_SPAN. zdm. Qed.

Lemma own_map t slot s r s' d e :
  winv s (c_dir t) d e (c_id t) → touched (c_id t) s s' → wsurf_map pool t slot s = Some (r, s') →
  ∃ d', winv s' (c_dir t) d' e (c_id t).
Proof.
  intros Hi Ht. pose proof Hi as [Hl Hw Hsz _]. unfold wsurf_map. destruct (_ || _) eqn:E0; [intros [= _ <-]; by exists d|]. boolp.
  destruct (bad_slot_spec slot s) as [Hr Hu]; [done|]. destruct (_ && _); [intros [= _ <-]; by exists d|].
  set (x := surf_at (surfs s) slot) in *. set (s0 := put_surf _ _ _).
  destruct (map_bytes x (Hsz slot Hr Hu)) as [Hmb Hpg]. unfold run_vm. rewrite Hmb.
  destruct (map_range_spec MAX_PAGES 0 (pages x) (wvm s0) (c_dir t) d e (server_pn slot) (pool_at pool slot) Hw)
    as (v & d' & E' & Hw' & Hrp); [rewrite server_pn_at; change CLIENT_PN with 475136; lia..|lia|unfold MAX_PAGES; lia|].
  rewrite Z.mul_0_r, server_va in E'. rewrite E'. intros [= _ <-]. exists d'.
  apply (winv_put s _ (c_dir t) d d' e (c_id t) slot (set_server (c_id t) x) (on_range (server_pn slot) 0 (pages x) (alias (pool_at pool slot)))); try done.
  { apply (rp_pm _ _ _ _ _ _ Hrp). }
  intros q pg Hq Hne. unfold on_range in *. case_decide as Er.
  - right. right. split_and!; [done|done|change (pages (set_server (c_id t) x)) with (pages x); lia..].
  - left. split_and!; [done| |]; [by intros (? & ? & ?) _|done].
Qed.

Lemma own_unmap t slot s r s' d e :
  winv s (c_dir t) d e (c_id t) → touched (c_id t) s s' → wsurf_unmap t slot s = Some (r, s') → winv s' (c_dir t) d e (c_id t).
Proof.
  intros Hi Ht. pose proof Hi as [Hl Hw Hsz _]. unfold wsurf_unmap. destruct (_ || _) eqn:E0; [by intros [= _ <-]|]. boolp.
  destruct (bad_slot_spec slot s) as [Hr Hu]; [done|]. set (x := surf_at (surfs s) slot) in *.
  destruct (unmap_surf_spec s (c_dir t) d e (server_pn slot) x Hw (Hsz slot Hr Hu)) as (v & E & Hw' & Hrp);
    [rewrite server_pn_at; change CLIENT_PN with 475136; lia|]. rewrite server_va in E. rewrite E. cbn [mbind option_bind]. intros [= _ <-].
  apply (winv_put s _ (c_dir t) d d e (c_id t) slot (if alive x then set_server (-1) x else set_used false (set_server (-1) x))
           (on_range (server_pn slot) 0 (pages x) (λ _, unalias))); try done.
  { apply (rp_pm _ _ _ _ _ _ Hrp). }
  intros q pg Hq Hne. unfold on_range in *. case_decide as Er; [done|]. left. split_and!; [done| |intros _ _ Hq2; fold x in Hq2; lia].
  intros (_ & Ho & Ha) _. fold x in Ha, Ho. rewrite Ha. by split_and!.
Qed.

Lemma enqueue_fields ev x : let y := enqueue ev x in
  used y = used x ∧ owner y = owner x ∧ alive y = alive x ∧ server y = server x ∧ pages y = pages x.
Proof. unfold enqueue. destruct (_ && _); [done|]. by destruct (_ <? _). Qed.

Lemma put_fields s i y :
  length (surfs s) = 3%nat → 0 ≤ i < 3 →
  (let x := surf_at (surfs s) i in used y = used x ∧ owner y = owner x ∧ alive y = alive x ∧ server y = server x ∧ pages y = pages x) →
  ∀ k, 0 ≤ k < 3 → let x := surf_at (surfs s) k in let z := surf_at (surfs (put_surf i y s)) k in
    used z = used x ∧ owner z = owner x ∧ alive z = alive x ∧ server z = server x ∧ pages z = pages x.
Proof. intros Hl Hi Hy k Hk. cbv zeta. rewrite surf_put by lia. case_decide; [by subst|done]. Qed.

Lemma event_fields me s n i :
  length (surfs s) = 3%nat → 0 ≤ i → i + Z.of_nat n ≤ 3 →
  let s' := (event_scan n me i s).2 in wvm s' = wvm s ∧
  ∀ k, 0 ≤ k < 3 → let x := surf_at (surfs s) k in let y := surf_at (surfs s') k in
    used y = used x ∧ owner y = owner x ∧ alive y = alive x ∧ server y = server x ∧ pages y = pages x.
Proof.
  intros Hl. revert i. induction n as [|n IH]; intros i Hi Hn; cbn [event_scan]; [done|].
  destruct (_ || negb (alive _)); [apply IH; lia|]. destruct (_ =? _); [done|]. split; [done|]. apply put_fields; [done|lia|done].
Qed.

(** A call of the task itself keeps its invariant. *)
Lemma own_call t c s s' d e :
  winv s (c_dir t) d e (c_id t) → run_call t c s = Some s' → ∃ d', winv s' (c_dir t) d' e (c_id t).
Proof.
  intros Hi Hrun. pose proof Hi as [Hl Hw Hsz Hacc]. pose proof (call_touched t c s s' Hl Hrun) as Ht. revert Hrun.
  destruct c as [w h| |slot|slot ev|slot]; cbn [run_call].
  - destruct (wsurf_create pool t w h s) as [[r s1]|] eqn:E; [|done]. intros [= ->]. pose proof E as E'. revert E. unfold wsurf_create.
    destruct (_ || _) eqn:E0; [intros [= <- <-]; by exists d|]. destruct (find_slot _ _ _ _ _) as [slot|] eqn:Ef; [|intros [= <- <-]; by exists d].
    destruct (Z.ltb_spec slot 0); [intros [= <- <-]; by exists d|]. boolp.
    destruct (find_slot_spec _ _ _ _ _ _ Ef) as [?|[Hr Hu]]; [left; lia|lia|lia|]. change (0 + Z.of_nat (Z.to_nat WSURF_SLOTS)) with 3 in Hr.
    destruct (create_spec pool s t d e w h slot Hl Hw) as (s2 & d' & x & E2 & Hw' & (Es & U1 & U2 & U3 & U4 & U5 & U6) & Hpm); [done|lia|lia|done|done|].
    intros _. rewrite E2 in E'. injection E' as _ ->. exists d'.
    eapply (winv_put s s' (c_dir t) d d' e (c_id t) slot x); [done|done|done|exact Es|done|exact Hpm|].
    intros q pg Hq Hne. unfold on_range in *. case_decide as Er.
    + right. left. split_and!; [done|done|done|lia|lia].
    + left. split_and!; [done| |]; [intros (Hx & _); congruence|intros Hx; congruence].
  - intros [= <-]. exists d. destruct (event_fields (c_id t) s 3 0 Hl) as [Hv Hf]; [lia|lia|]. by apply (winv_same s).
  - destruct (wsurf_map pool t slot s) as [[r s1]|] eqn:E; [|done]. intros [= ->]. by eapply own_map.
  - intros [= <-]. exists d. revert Ht. unfold wsurf_send. destruct (_ || _) eqn:E0; intros Ht; [done|]. boolp.
    destruct (bad_slot_spec slot s) as [Hr Hu]; [done|]. apply (winv_same s); [done|done|done|]. apply put_fields; [done|done|apply enqueue_fields].
  - destruct (wsurf_unmap t slot s) as [[r s1]|] eqn:E; [|done]. intros [= ->]. exists d. by eapply own_unmap.
Qed.

(** ** Histories *)

(** The life of task [t], from a directory with nothing in the surface
    windows: its own calls, and calls and exits of other tasks, which work on
    other directories. *)
Inductive history (t : client) : ws → page_directory → nat → Prop :=
| history_start s d e :
    length (surfs s) = 3%nat → (∀ k, 0 ≤ k < 3 → used (surf_at (surfs s) k) = true → size_ok (surf_at (surfs s) k)) →
    dir_wf (wvm s) (c_dir t) d e → (∀ q, in_window q → frame (pm (wvm s) d q) = 0) → history t s d e
| history_own s d e c s' d' :
    history t s d e → run_call t c s = Some s' → dirs (wvm s') !! c_dir t = Some d' → history t s' d' e
| history_other s d e t' c s' e' :
    history t s d e → c_id t' ≠ c_id t → run_call t' c s = Some s' →
    dir_wf (wvm s') (c_dir t) d e' → (∀ q, in_window q → pm (wvm s') d q = pm (wvm s) d q) → history t s' d e'
| history_exit s d e a dirp s' e' :
    history t s d e → a ≠ c_id t → a ≠ -1 → wsurf_task_exit a dirp s = Some s' →
    dir_wf (wvm s') (c_dir t) d e' → (∀ q, in_window q → pm (wvm s') d q = pm (wvm s) d q) → history t s' d e'.

Lemma history_winv t s d e : c_id t ≠ -1 → history t s d e → winv s (c_dir t) d e (c_id t).
Proof.
  intros Hid. induction 1 as [s d e Hl Hsz Hw Hz|s d e c s' d' _ IH Hrun Hd|s d e t' c s' e' _ IH Hne Hrun Hw Hpm|s d e a dirp s' e' _ IH Hne Ha Hrun Hw Hpm].
  - constructor; try done. intros q Hq Hf. by rewrite Hz in Hf.
  - destruct (own_call t c s s' d e IH Hrun) as (d'' & Hi). pose proof (dw_dir _ _ _ _ (wi_dir _ _ _ _ _ Hi)) as Hd''.
    assert (d'' = d') as -> by congruence. done.
  - eapply (winv_other s); [done|by eapply call_touched; [apply IH|]|done|done|done|done].
  - eapply (winv_other s); [done|by eapply exit_touched; [apply IH|..]|done|done|done|done].
Qed.

End calls.

(** ** Examples *)

Definition demo_client : client := mk_client 3 0x60000000 [115; 104] 10.
Definition demo_surfs : ws := mk_ws (replicate 3 wsurf0) ElfTheorems.demo_kernel_vm.

Lemma demo_window q : in_window q → pm ElfTheorems.demo_kernel_vm demo_kd q = zero_page.
Proof.
  unfold in_window. change CLIENT_PN with 475136. intros Hq. unfold pm. rewrite ElfTheorems.demo_kd_table by zdm.
  by rewrite decide_False by zdm.
Qed.

Lemma demo_wf : dir_wf ElfTheorems.demo_kernel_vm 10 demo_kd 1.
Proof. exact (ElfTheorems.kr_wf _ _ _ ElfTheorems.demo_kernel_ready). Qed.


(** A full-size surface of task 3 in slot 0, served by task 5. *)
Definition demo_full : wsurf := mk_wsurf true true 3 5 800 600 (replicate 16 0) (replicate 32 wev0) 0 0.
Definition demo_one : ws := put_surf 0 demo_full demo_surfs.
Definition demo_key : wev := mk_wev WEV_KEY 65 0 0.

Lemma surface_events_witness :
  ∃ s', wsurf_send (mk_client 5 1 [] 10) 0 demo_key demo_one = (0, s') ∧ events (surf_at (surfs s') 0) = [demo_key].
Proof.
  destruct (surface_events demo_one demo_client 0) as [Hs _].
  - done.
  - done.
  - done.
  - intros k Hk. lia.
  - by constructor.
  - destruct (Hs (mk_client 5 1 [] 10) demo_key) as (s' & E & _ & He & _); [done|]. exists s'. split; [exact E|]. by rewrite He.
Defined.

Lemma second_surface_overlaps_witness :
  ∃ s' d', wsurf_create 0x200000 (mk_client 4 0x60000000 [115] 10) 10 10 demo_one = Some (USER_WSURF_BASE, s') ∧
    dirs (wvm s') !! 10 = Some d' ∧ frame (pm (wvm s') d' CLIENT_PN) = 0x200 + 468.
Proof.
  destruct (second_surface_overlaps 0x200000 demo_one (mk_client 4 0x60000000 [115] 10) demo_kd 1 10 10)
    as (s' & d' & E & Hd & _ & _ & _ & Hf & _).
  - done.
  - lia.
  - unfold WSURF_BYTES, WSURF_MAX_W, WSURF_MAX_H. lia.
  - done.
  - done.
  - done.
  - done.
  - done.
  - intros i Hi (_ & Ho & Ha). assert (i = 0 ∨ i = 1 ∨ i = 2) as [->|[->| ->]] by lia; done.
  - exact demo_wf.
  - done.
  - unfold WSURF_MAX_W. lia.
  - unfold WSURF_MAX_H. lia.
  - exists s', d'. split; [exact E|]. split; [exact Hd|]. rewrite Hf. reflexivity.
Defined.
End WsurfInv.
