(* ===== verification/Vga.v ===== *)
(** * The text screen (kernel/vga.c)

    The text buffer as a flat array of cells with a cursor, and the screen
    as the lines of text it shows. *)

From S2P Require Import Prelude.

Module Vga.

Definition VGA_WIDTH : Z := 80.
Definition VGA_HEIGHT : Z := 25.

(** [vga_mem]: the cells from 0xB8000 on; the last two are the cursor
    registers of the display. *)
Record vga := mk_vga {
  vga_mem : list Z;
  vga_row : Z;
  vga_col : Z;
  vga_current_color : Z;
  cursor_lo : Z;
  cursor_hi : Z;
}.

Definition set_vmem (m : list Z) (s : vga) : vga :=
  mk_vga m (vga_row s) (vga_col s) (vga_current_color s) (cursor_lo s) (cursor_hi s).
Definition set_pos (row col : Z) (s : vga) : vga :=
  mk_vga (vga_mem s) row col (vga_current_color s) (cursor_lo s) (cursor_hi s).

Definition make_vga_entry (c color : Z) : Z := u16 (Z.lor (u8 c) (Z.shiftl (u8 color) 8)).

Definition vga_set_cursor (x y : Z) (s : vga) : vga :=
  let pos := u16 (y * VGA_WIDTH + x) in
  mk_vga (vga_mem s) (vga_row s) (vga_col s) (vga_current_color s) (Z.land pos 0xFF) (Z.land (Z.shiftr pos 8) 0xFF).

(** [n] cells from [i] on. *)
Fixpoint fill_cells (n : nat) (i v : Z) (m : list Z) : list Z :=
  match n with O => m | S n' => fill_cells n' (i + 1) v (<[Z.to_nat i := v]> m) end.

(** memcpy of [n] cells, in order of increasing addresses. *)
Fixpoint copy_cells (n : nat) (dst src : Z) (m : list Z) : list Z :=
  match n with
  | O => m
  | S n' => copy_cells n' (dst + 1) (src + 1) (<[Z.to_nat dst := default 0 (m !! Z.to_nat src)]> m)
  end.

Definition blank (s : vga) : Z := make_vga_entry 32 (vga_current_color s).

Definition vga_clear (s : vga) : vga :=
  vga_set_cursor 0 0 (set_pos 0 0 (set_vmem (fill_cells (Z.to_nat (VGA_HEIGHT * VGA_WIDTH)) 0 (blank s) (vga_mem s)) s)).

Definition vga_init (s : vga) : vga := vga_clear s.

Definition vga_set_color (fg bg : Z) (s : vga) : vga :=
  mk_vga (vga_mem s) (vga_row s) (vga_col s) (u16 (Z.lor fg (Z.shiftl bg 4))) (cursor_lo s) (cursor_hi s).

Definition vga_putc_at (c color x y : Z) (s : vga) : vga :=
  set_vmem (<[Z.to_nat (y * VGA_WIDTH + x) := make_vga_entry c color]> (vga_mem s)) s.

Definition vga_scroll (s : vga) : vga :=
  let m := copy_cells (Z.to_nat (VGA_WIDTH * (VGA_HEIGHT - 1))) 0 VGA_WIDTH (vga_mem s) in
  let m := fill_cells (Z.to_nat VGA_WIDTH) ((VGA_HEIGHT - 1) * VGA_WIDTH) (blank s) m in
  set_pos (VGA_HEIGHT - 1) 0 (set_vmem m s).

(** [vga_row++], and the scroll at the bottom. *)
Definition next_row (s : vga) : vga :=
  let s := set_pos (vga_row s + 1) (vga_col s) s in
  if vga_row s >=? VGA_HEIGHT then vga_scroll s else s.

Definition vga_putc (c : Z) (s : vga) : vga :=
  if c =? 10 then let s := next_row s in set_pos (vga_row s) 0 s
  else if c =? 8 then
    let s := if 0 <? vga_col s then set_pos (vga_row s) (vga_col s - 1) s
             else if 0 <? vga_row s then set_pos (vga_row s - 1) (VGA_WIDTH - 1) s else s in
    vga_set_cursor (vga_col s) (vga_row s) s
  else
    let s := vga_putc_at c (vga_current_color s) (vga_col s) (vga_row s) s in
    let s := set_pos (vga_row s) (vga_col s + 1) s in
    let s := if vga_col s =? VGA_WIDTH then next_row (set_pos (vga_row s) 0 s) else s in
    vga_set_cursor (vga_col s) (vga_row s) s.

Definition vga_print (str : list Z) (s : vga) : vga := foldl (λ s c, vga_putc c s) s str.

(** ** The cells *)

Lemma fill_cells_length n i v m : length (fill_cells n i v m) = length m.
Proof. revert i m. induction n as [|n IH]; intros i m; [done|]. cbn. by rewrite IH, length_insert. Qed.

Lemma fill_cells_lookup n i v m j :
  0 ≤ i → fill_cells n i v m !! j = if decide (i ≤ Z.of_nat j < i + Z.of_nat n ∧ (j < length m)%nat) then Some v else m !! j.
Proof.
  revert i m. induction n as [|n IH]; intros i m Hi; cbn [fill_cells]; [case_decide; [lia|done]|].
  rewrite IH, length_insert by lia. repeat case_decide; try lia; try done.
  - assert (j = Z.to_nat i) as -> by lia. by rewrite list_lookup_insert_eq by lia.
  - destruct (decide (j = Z.to_nat i)) as [->|Hne]; [|by rewrite list_lookup_insert_ne by done].
    rewrite !lookup_ge_None_2; [done| |rewrite length_insert]; lia.
Qed.

Lemma copy_cells_length n d s m : length (copy_cells n d s m) = length m.
Proof. revert d s m. induction n as [|n IH]; intros d s m; [done|]. cbn. by rewrite IH, length_insert. Qed.

(** Copying down over an overlap moves the cells. *)
Lemma copy_cells_lookup n d s m j :
  0 ≤ d → d < s → s + Z.of_nat n ≤ Z.of_nat (length m) →
  copy_cells n d s m !! j = if decide (d ≤ Z.of_nat j < d + Z.of_nat n) then m !! (j + Z.to_nat (s - d))%nat else m !! j.
Proof.
  revert d s m. induction n as [|n IH]; intros d s m Hd Hs Hn; cbn [copy_cells]; [case_decide; [lia|done]|].
  rewrite IH by (rewrite ?length_insert; lia). repeat case_decide; try lia.
  - rewrite list_lookup_insert_ne by lia. f_equal. lia.
  - assert (j = Z.to_nat d) as -> by lia. rewrite list_lookup_insert_eq by lia.
    replace (Z.to_nat d + Z.to_nat (s - d))%nat with (Z.to_nat s) by lia.
    destruct (lookup_lt_is_Some_2 m (Z.to_nat s)) as [x ->]; [lia|done].
  - by rewrite list_lookup_insert_ne by lia.
Qed.

(** ** The screen *)

Definition cell (s : vga) (r c : Z) : option Z := vga_mem s !! Z.to_nat (r * VGA_WIDTH + c).

(** The cursor is on the screen, the buffer covers it. *)
Record vga_ok (s : vga) : Prop := {
  vo_mem : 2000 ≤ zlength (vga_mem s);
  vo_row : 0 ≤ vga_row s < VGA_HEIGHT;
  vo_col : 0 ≤ vga_col s < VGA_WIDTH;
}.

Definition on_screen (r c : Z) : Prop := 0 ≤ r < VGA_HEIGHT ∧ 0 ≤ c < VGA_WIDTH.

Lemma cell_scroll s r c :
  2000 ≤ zlength (vga_mem s) → on_screen r c → cell (vga_scroll s) r c = if decide (r = 24) then Some (blank s) else cell s (r + 1) c.
Proof.
  unfold on_screen, cell, vga_scroll, VGA_HEIGHT, VGA_WIDTH, zlength. cbn [vga_mem set_pos set_vmem]. intros Hm [Hr Hc].
  rewrite fill_cells_lookup by lia. rewrite copy_cells_length. case_decide as E1; case_decide as E2; try lia; [done|].
  rewrite copy_cells_lookup by lia. case_decide; [|lia]. f_equal. lia.
Qed.

Lemma scroll_beyond s j : 2000 ≤ zlength (vga_mem s) → (2000 ≤ j)%nat → vga_mem (vga_scroll s) !! j = vga_mem s !! j.
Proof.
  unfold vga_scroll, VGA_HEIGHT, VGA_WIDTH, zlength. cbn [vga_mem set_pos set_vmem]. intros Hm Hj.
  rewrite fill_cells_lookup by lia. case_decide; [lia|]. rewrite copy_cells_lookup by lia. case_decide; [lia|done].
Qed.

Lemma next_row_ok s : 2000 ≤ zlength (vga_mem s) → 0 ≤ vga_row s < VGA_HEIGHT → 0 ≤ vga_col s < VGA_WIDTH → vga_ok (next_row s).
Proof.
  intros Hm Hr Hc. unfold next_row. cbn [vga_row set_pos]. destruct (Z.geb_spec (vga_row s + 1) VGA_HEIGHT) as [Hge|Hlt].
  - constructor; cbn; [|done|done]. unfold zlength in *. rewrite fill_cells_length, copy_cells_length. done.
  - constructor; cbn; [done|lia|done].
Qed.

Lemma putc_ok c s : vga_ok s → vga_ok (vga_putc c s).
Proof.
  intros []. unfold vga_putc. destruct (Z.eqb_spec c 10); [|destruct (Z.eqb_spec c 8)].
  - destruct (next_row_ok s vo_mem0 vo_row0 vo_col0). by constructor.
  - destruct (Z.ltb_spec 0 (vga_col s)); [|destruct (Z.ltb_spec 0 (vga_row s))]; constructor; cbn; unfold VGA_WIDTH, VGA_HEIGHT in *; try done; lia.
  - cbn [vga_row vga_col set_pos vga_putc_at set_vmem]. destruct (Z.eqb_spec (vga_col s + 1) VGA_WIDTH) as [E|E].
    + edestruct next_row_ok as [A B C]; [| | |by constructor; [exact A|exact B|exact C]]; cbn; [|done|done].
      unfold zlength in *. by rewrite length_insert.
    + constructor; cbn; [unfold zlength in *; by rewrite length_insert|done|lia].
Qed.

Lemma putc_beyond c s j : vga_ok s → (2000 ≤ j)%nat → vga_mem (vga_putc c s) !! j = vga_mem s !! j.
Proof.
  intros [Hm Hr Hc] Hj. unfold vga_putc.
  assert (∀ s1, 2000 ≤ zlength (vga_mem s1) → vga_mem (next_row s1) !! j = vga_mem s1 !! j) as Hn.
  { intros s1 H1. unfold next_row. case_match; [|done]. by rewrite scroll_beyond. }
  destruct (c =? 10); [by apply Hn|destruct (c =? 8)].
  - repeat case_match; done.
  - assert (vga_mem (vga_putc_at c (vga_current_color s) (vga_col s) (vga_row s) s) !! j = vga_mem s !! j) as Hp.
    { cbn. rewrite list_lookup_insert_ne; [done|]. unfold VGA_WIDTH, VGA_HEIGHT in *. lia. }
    cbn [vga_row vga_col set_pos vga_putc_at set_vmem]. case_match; cbn; [|exact Hp]. rewrite Hn; [exact Hp|]. cbn. unfold zlength in *. by rewrite length_insert.
Qed.

(** ** Text on the screen *)

(** Lines of text: complete ones, and the one being written.  A line ends at
    a newline or when it is 80 characters long. *)
Definition wrap (st : list (list Z) * list Z) (c : Z) : list (list Z) * list Z :=
  let '(l, cur) := st in
  if c =? 10 then (l ++ [cur], [])
  else if (length cur =? 79)%nat then (l ++ [cur ++ [c]], []) else (l, cur ++ [c]).

Definition layout (text : list Z) : list (list Z) :=
  let '(l, cur) := foldl wrap ([], []) text in l ++ [cur].

(** The character in column [c] of the [r]-th of the last 25 lines. *)
Definition shown (all : list (list Z)) (r c : Z) : Z :=
  default 32 (l ← all !! (length all - 25 + Z.to_nat r)%nat; l !! Z.to_nat c).

(** The screen shows the last lines of [l ++ [cur]], with the cursor behind
    the last character. *)
Record shows (s : vga) (color : Z) (l : list (list Z)) (cur : list Z) : Prop := {
  sh_ok : vga_ok s;
  sh_color : vga_current_color s = color;
  sh_row : vga_row s = Z.min (zlength l + 1) 25 - 1;
  sh_col : vga_col s = zlength cur;
  sh_cells r c : on_screen r c → cell s r c = Some (make_vga_entry (shown (l ++ [cur]) r c) color);
}.

Lemma shown_new all r c :
  0 ≤ r < 25 → shown (all ++ [[]]) r c =
    if decide (length all < 25)%nat then shown all r c else if decide (r = 24) then 32 else shown all (r + 1) c.
Proof.
  intros Hr. unfold shown. rewrite length_app. cbn [length]. repeat case_decide.
  - replace (length all + 1 - 25 + Z.to_nat r)%nat with (Z.to_nat r) by lia. replace (length all - 25 + Z.to_nat r)%nat with (Z.to_nat r) by lia.
    destruct (decide (Z.to_nat r < length all)%nat); [by rewrite lookup_app_l by lia|].
    rewrite (lookup_ge_None_2 all) by lia. rewrite lookup_app_r by lia. by destruct (Z.to_nat r - length all)%nat.
  - rewrite lookup_app_r by lia. by replace (length all + 1 - 25 + Z.to_nat r - length all)%nat with 0%nat by lia.
  - rewrite lookup_app_l by lia. by replace (length all + 1 - 25 + Z.to_nat r)%nat with (length all - 25 + Z.to_nat (r + 1))%nat by lia.
Qed.

Lemma next_row_shows s color l cur :
  2000 ≤ zlength (vga_mem s) → vga_current_color s = color → vga_row s = Z.min (zlength l + 1) 25 - 1 →
  (∀ r c, on_screen r c → cell s r c = Some (make_vga_entry (shown (l ++ [cur]) r c) color)) →
  vga_row (next_row s) = Z.min (zlength (l ++ [cur]) + 1) 25 - 1 ∧ vga_current_color (next_row s) = color ∧
  2000 ≤ zlength (vga_mem (next_row s)) ∧
  (∀ r c, on_screen r c → cell (next_row s) r c = Some (make_vga_entry (shown ((l ++ [cur]) ++ [[]]) r c) color)).
Proof.
  intros Hm Hcol Hrow Hcells. unfold next_row. cbn [vga_row set_pos]. unfold zlength in *. rewrite length_app. cbn [length].
  destruct (Z.geb_spec (vga_row s + 1) VGA_HEIGHT) as [Hge|Hlt]; unfold VGA_HEIGHT in *.
  - split_and!; [unfold vga_scroll, VGA_HEIGHT; cbn [vga_row set_pos]; lia|done|cbn; rewrite fill_cells_length, copy_cells_length; done|].
    intros r c Hrc. rewrite cell_scroll by (done || unfold zlength; done). rewrite shown_new by apply Hrc. rewrite length_app. cbn [length].
    destruct (decide (length l + 1 < 25)%nat); [lia|]. case_decide as E; [unfold blank; cbn; by rewrite Hcol|].
    apply Hcells. unfold on_screen, VGA_HEIGHT in *. lia.
  - split_and!; [cbn [vga_row set_pos]; lia|done|done|]. intros r c Hrc. rewrite shown_new by apply Hrc. rewrite length_app. cbn [length]. case_decide; [|lia].
    by apply Hcells.
Qed.

Lemma shown_append l cur c r k :
  0 ≤ r < 25 → 0 ≤ k → shown (l ++ [cur ++ [c]]) r k =
    if decide (r = Z.min (zlength l + 1) 25 - 1 ∧ k = zlength cur) then c else shown (l ++ [cur]) r k.
Proof.
  intros Hr Hk. unfold shown, zlength. rewrite !length_app. cbn [length].
  destruct (decide (length l + 1 - 25 + Z.to_nat r = length l)%nat) as [E|E].
  - rewrite !E. rewrite !list_lookup_middle by done. cbn [mbind option_bind]. case_decide as Ek.
    + rewrite lookup_app_r by lia. by replace (Z.to_nat k - length cur)%nat with 0%nat by lia.
    + destruct (decide (Z.to_nat k < length cur)%nat); [by rewrite lookup_app_l by lia|].
      rewrite !lookup_ge_None_2; [done| |rewrite length_app; cbn]; lia.
  - case_decide as Ek; [lia|]. destruct (decide (length l + 1 - 25 + Z.to_nat r < length l)%nat) as [Hlt|Hge].
    + by rewrite !lookup_app_l by lia.
    + rewrite !lookup_ge_None_2; [done| |]; rewrite length_app; cbn; lia.
Qed.

(** One character. *)
Lemma putc_shows s color l cur c :
  c ≠ 8 → shows s color l cur → let '(l', cur') := wrap (l, cur) c in shows (vga_putc c s) color l' cur'.
Proof.
  intros Hb [[Hm Hr Hc] Hcol Hrow Hcur Hcells]. unfold wrap, vga_putc. destruct (Z.eqb_spec c 10) as [->|Hnl].
  - destruct (next_row_shows s color l cur Hm Hcol Hrow Hcells) as (A & B & C & D). constructor; [constructor; cbn|done|done|done|done]; [done| |done].
    rewrite A. unfold VGA_HEIGHT, zlength. lia.
  - destruct (Z.eqb_spec c 8); [done|].
    set (s1 := vga_putc_at c (vga_current_color s) (vga_col s) (vga_row s) s).
    assert (2000 ≤ zlength (vga_mem s1)) as Hm1 by (unfold s1, zlength in *; cbn; by rewrite length_insert).
    assert (∀ r k, on_screen r k → cell s1 r k = Some (make_vga_entry (shown (l ++ [cur ++ [c]]) r k) color)) as Hcells1.
    { intros r k Hrk. rewrite shown_append by apply Hrk. unfold cell, s1. cbn [vga_mem vga_putc_at set_vmem]. unfold on_screen, zlength, VGA_WIDTH, VGA_HEIGHT in *.
      case_decide as E.
      - destruct E as [-> ->]. rewrite Hrow, Hcur, Hcol. rewrite list_lookup_insert_eq by lia. done.
      - rewrite list_lookup_insert_ne by lia. by apply Hcells. }
    change (vga_row s1) with (vga_row s). change (vga_col s1) with (vga_col s). cbn [vga_row vga_col set_pos].
    unfold VGA_WIDTH, zlength in *. destruct (Nat.eqb_spec (length cur) 79) as [E|E].
    + destruct (Z.eqb_spec (vga_col s + 1) 80); [|lia].
      destruct (next_row_shows (set_pos (vga_row s) 0 (set_pos (vga_row s) (vga_col s + 1) s1)) color l (cur ++ [c])) as (A & B & C & D); [done|done|done|done|].
      constructor; [constructor|done|done| |]; cbn; try done.
      * rewrite A. unfold VGA_HEIGHT, zlength. lia.
      * unfold next_row. case_match; done.
      * unfold next_row. case_match; done.
    + destruct (Z.eqb_spec (vga_col s + 1) 80); [lia|].
      constructor; [constructor|done|done| |]; cbn; unfold VGA_WIDTH, zlength in *; try done; try lia. rewrite length_app. cbn. lia.
Qed.

Lemma print_shows text s color l cur :
  Forall (λ c, c ≠ 8) text → shows s color l cur →
  let '(l', cur') := foldl wrap (l, cur) text in shows (vga_print text s) color l' cur'.
Proof.
  intros Ht. revert s l cur. induction Ht as [|c text Hc _ IH]; intros s l cur Hs; [done|]. cbn [foldl vga_print].
  pose proof (putc_shows s color l cur c Hc Hs) as Hp. destruct (wrap (l, cur) c) as [l1 cur1]. by apply IH.
Qed.

Lemma clear_shows s : 2000 ≤ zlength (vga_mem s) → shows (vga_clear s) (vga_current_color s) [] [].
Proof.
  intros Hm. unfold vga_clear, VGA_HEIGHT, VGA_WIDTH, zlength in *. constructor; [constructor| | | |]; cbn [vga_mem vga_row vga_col vga_current_color vga_set_cursor set_pos set_vmem].
  1: unfold zlength; by rewrite fill_cells_length.
  1-5: done.
  - intros r c [Hr Hc]. unfold cell. cbn [vga_mem vga_set_cursor set_pos set_vmem]. unfold VGA_WIDTH, VGA_HEIGHT in *.
    rewrite fill_cells_lookup by lia. case_decide; [|lia]. unfold blank. do 2 f_equal. unfold shown. cbn.
    destruct (Z.to_nat r) as [|n]; [by destruct (Z.to_nat c)|done].
Qed.

(** Text without backspaces printed on a cleared screen appears wrapped at 80
    columns, and of a longer text the last 25 lines remain, with the cursor
    behind the last character.  Memory beyond the screen is never written,
    whatever is printed. *)
Theorem screen_shows_text s text (all := layout text) :
  2000 ≤ zlength (vga_mem s) → Forall (λ c, c ≠ 8) text →
  let s' := vga_print text (vga_clear s) in
  (∀ r c, on_screen r c → cell s' r c = Some (make_vga_entry (shown all r c) (vga_current_color s))) ∧
  vga_row s' = Z.min (zlength all) 25 - 1 ∧ on_screen (vga_row s') (vga_col s') ∧
  (∀ str j, (2000 ≤ j)%nat → vga_mem (vga_print str s') !! j = vga_mem s' !! j).
Proof.
  intros Hm Ht s'. pose proof (print_shows text _ _ [] [] Ht (clear_shows s Hm)) as Hs. unfold all, layout. fold s' in Hs.
  destruct (foldl wrap ([], []) text) as [l cur]. destruct Hs as [Hok Hcol Hrow Hcur Hcells]. split_and!; [done| | |].
  - rewrite Hrow. unfold zlength. rewrite length_app. cbn. lia.
  - split; apply Hok.
  - intros str j Hj. clear -Hok Hj. revert Hok. generalize s'. clear s'. induction str as [|c str IH]; intros s' Hok; [done|].
    cbn [vga_print foldl]. fold (vga_print str (vga_putc c s')). rewrite IH by by apply putc_ok. by apply putc_beyond.
Qed.

Lemma screen_shows_text_witness (s := mk_vga (replicate 2000 0) 0 0 15 0 0) (text := replicate 81 65 ++ [10; 66]) :
  cell (vga_print text (vga_clear s)) 1 0 = Some (make_vga_entry 65 15) ∧ cell (vga_print text (vga_clear s)) 2 0 = Some (make_vga_entry 66 15).
Proof.
  destruct (screen_shows_text s text) as (Hc & _).
  - by vm_compute.
  - apply (bool_decide_unpack _). by vm_compute.
  - split; [rewrite (Hc 1 0)|rewrite (Hc 2 0)]; [by vm_compute|split; by vm_compute|by vm_compute|split; by vm_compute].
Defined.
End Vga.
