(* ===== verification/Fb.v ===== *)
(** * The display (kernel/fb.c)

    Who may draw, and the registers that switch between the text console and
    the linear framebuffer.  [hw] is the adapter as far as the driver uses
    it: indexed register files behind ports, and the plane that holds the
    text font. *)

From S2P Require Import Prelude Vga.

Module Fb.

(** ** The adapter *)

Record adapter := mk_hw {
  bga_index : Z; bga : list Z;
  misc : Z;
  seq_index : Z; seq : list Z;
  crtc_index : Z; crtc : list Z;
  gc_index : Z; gc : list Z;
  ac_data : bool; ac_index : Z; ac : list Z; video : bool;
  font : list Z;
}.

Definition reg (l : list Z) (i : Z) : Z := default 0 (l !! Z.to_nat i).

Definition set_bga (i : Z) (l : list Z) (d : adapter) : adapter :=
  mk_hw i l (misc d) (seq_index d) (seq d) (crtc_index d) (crtc d) (gc_index d) (gc d) (ac_data d) (ac_index d) (ac d) (video d) (font d).
Definition set_misc (v : Z) (d : adapter) : adapter :=
  mk_hw (bga_index d) (bga d) v (seq_index d) (seq d) (crtc_index d) (crtc d) (gc_index d) (gc d) (ac_data d) (ac_index d) (ac d) (video d) (font d).
Definition set_seq (i : Z) (l : list Z) (d : adapter) : adapter :=
  mk_hw (bga_index d) (bga d) (misc d) i l (crtc_index d) (crtc d) (gc_index d) (gc d) (ac_data d) (ac_index d) (ac d) (video d) (font d).
Definition set_crtc (i : Z) (l : list Z) (d : adapter) : adapter :=
  mk_hw (bga_index d) (bga d) (misc d) (seq_index d) (seq d) i l (gc_index d) (gc d) (ac_data d) (ac_index d) (ac d) (video d) (font d).
Definition set_gc (i : Z) (l : list Z) (d : adapter) : adapter :=
  mk_hw (bga_index d) (bga d) (misc d) (seq_index d) (seq d) (crtc_index d) (crtc d) i l (ac_data d) (ac_index d) (ac d) (video d) (font d).
Definition set_ac (b : bool) (i : Z) (l : list Z) (v : bool) (d : adapter) : adapter :=
  mk_hw (bga_index d) (bga d) (misc d) (seq_index d) (seq d) (crtc_index d) (crtc d) (gc_index d) (gc d) b i l v (font d).
Definition set_font (l : list Z) (d : adapter) : adapter :=
  mk_hw (bga_index d) (bga d) (misc d) (seq_index d) (seq d) (crtc_index d) (crtc d) (gc_index d) (gc d) (ac_data d) (ac_index d) (ac d) (video d) l.

(** CRTC registers 0 to 7 are locked by bit 7 of register 0x11; the attribute
    controller takes index and data in turn at one port. *)
Definition outb (port v : Z) (d : adapter) : adapter :=
  if port =? 0x3C2 then set_misc v d
  else if port =? 0x3C4 then set_seq v (seq d) d
  else if port =? 0x3C5 then set_seq (seq_index d) (<[Z.to_nat (seq_index d) := v]> (seq d)) d
  else if port =? 0x3D4 then set_crtc v (crtc d) d
  else if port =? 0x3D5 then
    if (crtc_index d <? 8) && Z.testbit (reg (crtc d) 0x11) 7 then d
    else set_crtc (crtc_index d) (<[Z.to_nat (crtc_index d) := v]> (crtc d)) d
  else if port =? 0x3CE then set_gc v (gc d) d
  else if port =? 0x3CF then set_gc (gc_index d) (<[Z.to_nat (gc_index d) := v]> (gc d)) d
  else if port =? 0x3C0 then
    if ac_data d then set_ac false (ac_index d) (<[Z.to_nat (ac_index d) := v]> (ac d)) (video d) d
    else set_ac true (Z.land v 0x1F) (ac d) (Z.testbit v 5) d
  else d.

(** A word sets the index and the register. *)
Definition outw (port v : Z) (d : adapter) : adapter :=
  if port =? 0x1CE then set_bga v (bga d) d
  else if port =? 0x1CF then set_bga (bga_index d) (<[Z.to_nat (bga_index d) := v]> (bga d)) d
  else if port =? 0x3C4 then outb 0x3C5 (Z.shiftr v 8) (outb 0x3C4 (Z.land v 0xFF) d)
  else if port =? 0x3CE then outb 0x3CF (Z.shiftr v 8) (outb 0x3CE (Z.land v 0xFF) d)
  else d.

(** Reading the status port makes the attribute controller expect an index. *)
Definition inb_status (d : adapter) : adapter := set_ac false (ac_index d) (ac d) (video d) d.

(** The window at 0xA0000 shows linear planes, and writes reach plane 2. *)
Definition font_writable (d : adapter) : bool :=
  (Z.land (reg (gc d) 6) 0x0C =? 4) && Z.testbit (reg (seq d) 4) 2 && Z.testbit (reg (seq d) 2) 2 && (Z.land (reg (gc d) 5) 3 =? 0).

Definition vram_put (i v : Z) (d : adapter) : adapter :=
  if font_writable d then set_font (<[Z.to_nat i := v]> (font d)) d else d.

Definition font_readable (d : adapter) : bool :=
  (Z.land (reg (gc d) 6) 0x0C =? 4) && Z.testbit (reg (seq d) 4) 2 && (Z.land (reg (gc d) 4) 3 =? 2).

Definition vram_get (i : Z) (d : adapter) : Z := if font_readable d then reg (font d) i else 0.

(** ** The driver *)

Definition VBE_DISPI_IOPORT_INDEX : Z := 0x01CE.
Definition VBE_DISPI_IOPORT_DATA : Z := 0x01CF.
Definition VBE_DISPI_INDEX_ID : Z := 0.
Definition VBE_DISPI_INDEX_XRES : Z := 1.
Definition VBE_DISPI_INDEX_YRES : Z := 2.
Definition VBE_DISPI_INDEX_BPP : Z := 3.
Definition VBE_DISPI_INDEX_ENABLE : Z := 4.
Definition VBE_DISPI_DISABLED : Z := 0x00.
Definition VBE_DISPI_ENABLED : Z := 0x01.
Definition VBE_DISPI_LFB_ENABLED : Z := 0x40.

Definition FB_WIDTH : Z := 1024.
Definition FB_HEIGHT : Z := 768.
Definition FB_BPP : Z := 32.

Definition text_misc : Z := 0x67.
Definition text_seq : list Z := [0x03; 0x00; 0x03; 0x00; 0x02].
Definition text_crtc : list Z :=
  [0x5F; 0x4F; 0x50; 0x82; 0x55; 0x81; 0xBF; 0x1F; 0x00; 0x4F; 0x0D; 0x0E;
   0x00; 0x00; 0x00; 0x50; 0x9C; 0x0E; 0x8F; 0x28; 0x1F; 0x96; 0xB9; 0xA3; 0xFF].
Definition text_gc : list Z := [0x00; 0x00; 0x00; 0x00; 0x00; 0x10; 0x0E; 0x00; 0xFF].
Definition text_ac : list Z :=
  [0x00; 0x01; 0x02; 0x03; 0x04; 0x05; 0x14; 0x07; 0x38; 0x39; 0x3A; 0x3B;
   0x3C; 0x3D; 0x3E; 0x3F; 0x0C; 0x00; 0x0F; 0x08; 0x00].

Definition bga_read (index : Z) (d : adapter) : Z * adapter :=
  let d := outw VBE_DISPI_IOPORT_INDEX index d in (reg (bga d) (bga_index d), d).

Definition bga_write (index value : Z) (d : adapter) : adapter :=
  outw VBE_DISPI_IOPORT_DATA value (outw VBE_DISPI_IOPORT_INDEX index d).

Definition vga_font_access_begin (d : adapter) : adapter :=
  let d := outw 0x3C4 0x0402 d in
  let d := outw 0x3C4 0x0604 d in
  let d := outw 0x3CE 0x0204 d in
  let d := outw 0x3CE 0x0005 d in
  outw 0x3CE 0x0406 d.

Definition vga_font_access_end (d : adapter) : adapter :=
  let d := outw 0x3C4 0x0302 d in
  let d := outw 0x3C4 0x0204 d in
  let d := outw 0x3CE 0x0004 d in
  let d := outw 0x3CE 0x1005 d in
  outw 0x3CE 0x0E06 d.

Definition FONT_BYTES : Z := 256 * 32.

Definition vga_save_font (d : adapter) : list Z * adapter :=
  let d := vga_font_access_begin d in
  let l := (λ i, vram_get i d) <$> seqZ 0 FONT_BYTES in
  (l, vga_font_access_end d).

(** Index and data of the registers from [i] on. *)
Fixpoint write_table (pi pd i : Z) (l : list Z) (d : adapter) : adapter :=
  match l with
  | [] => d
  | v :: l' => write_table pi pd (i + 1) l' (outb pd v (outb pi i d))
  end.

Fixpoint store_font (i : Z) (l : list Z) (d : adapter) : adapter :=
  match l with
  | [] => d
  | v :: l' => store_font (i + 1) l' (vram_put i v d)
  end.

(** The registers of the text mode, before the font. *)
Definition text_registers (d : adapter) : adapter :=
  let d := outb 0x3C2 text_misc d in
  let d := write_table 0x3C4 0x3C5 0 text_seq d in
  let d := outb 0x3D5 (Z.land (reg text_crtc 0x11) 0x7F) (outb 0x3D4 0x11 d) in
  let d := write_table 0x3D4 0x3D5 0 text_crtc d in
  let d := write_table 0x3CE 0x3CF 0 text_gc d in
  let d := inb_status d in
  let d := write_table 0x3C0 0x3C0 0 text_ac d in
  outb 0x3C0 0x20 d.

Definition vga_restore_text_mode (saved : option (list Z)) (d : adapter) : adapter :=
  let d := text_registers d in
  match saved with
  | Some f => vga_font_access_end (store_font 0 f (vga_font_access_begin d))
  | None => d
  end.

(** [saved_font]: once it is saved. [fb_owner]: -1 when free. [screen]: the
    text console. *)
Record fb := mk_fb {
  present : bool; phys : Z; saved_font : option (list Z); fb_owner : Z; screen : Vga.vga; hw : adapter;
}.

Definition set_owner (v : Z) (s : fb) : fb := mk_fb (present s) (phys s) (saved_font s) v (screen s) (hw s).
Definition set_hw (d : adapter) (s : fb) : fb := mk_fb (present s) (phys s) (saved_font s) (fb_owner s) (screen s) d.
Definition set_screen (v : Vga.vga) (s : fb) : fb := mk_fb (present s) (phys s) (saved_font s) (fb_owner s) v (hw s).

(** [bar]: the base address register of the display, if PCI finds it. *)
Definition fb_init (bar : option Z) (s : fb) : fb :=
  match bar with
  | None => s
  | Some v =>
      let '(id, d) := bga_read VBE_DISPI_INDEX_ID (hw s) in
      if negb (Z.land id 0xFFF0 =? 0xB0C0) then set_hw d s else
      let '(f, d) := vga_save_font d in
      mk_fb true (Z.land v 0xFFFFFFF0) (Some f) (fb_owner s) (screen s) d
  end.

Definition fb_claim (task_id : Z) (s : fb) : Z * fb :=
  if negb (fb_owner s =? -1) && negb (fb_owner s =? task_id) then (-1, s) else (0, set_owner task_id s).

Definition fb_owned_by (task_id : Z) (s : fb) : bool := fb_owner s =? task_id.

Definition fb_release (task_id : Z) (s : fb) : fb := if fb_owner s =? task_id then set_owner (-1) s else s.

Definition fb_enable (s : fb) : Z * fb :=
  if negb (present s) then (-1, s) else
  let d := bga_write VBE_DISPI_INDEX_ENABLE VBE_DISPI_DISABLED (hw s) in
  let d := bga_write VBE_DISPI_INDEX_XRES FB_WIDTH d in
  let d := bga_write VBE_DISPI_INDEX_YRES FB_HEIGHT d in
  let d := bga_write VBE_DISPI_INDEX_BPP FB_BPP d in
  let d := bga_write VBE_DISPI_INDEX_ENABLE (Z.lor VBE_DISPI_ENABLED VBE_DISPI_LFB_ENABLED) d in
  (0, set_hw d s).

Definition fb_disable (s : fb) : fb :=
  if negb (present s) then s else
  set_hw (vga_restore_text_mode (saved_font s) (bga_write VBE_DISPI_INDEX_ENABLE VBE_DISPI_DISABLED (hw s))) s.

Definition fb_task_exit (task_id : Z) (s : fb) : fb :=
  if negb (fb_owner s =? task_id) then s else
  let s := fb_disable (set_owner (-1) s) in
  set_screen (Vga.vga_clear (screen s)) s.

Definition fb_font_data (s : fb) : option (list Z) := saved_font s.

(** The parts of SYS_FBMAP and SYS_FBOFF that concern the display. *)
Definition fb_map (task_id : Z) (s : fb) : Z * fb :=
  if negb (present s) then (-1, s) else
  let '(r, s) := fb_claim task_id s in
  if r <? 0 then (-1, s) else
  let '(r, s) := fb_enable s in
  if r <? 0 then (-1, fb_release task_id s) else (0, s).

Definition fb_off (task_id : Z) (s : fb) : Z * fb :=
  if negb (fb_owned_by task_id s) then (-1, s) else
  let s := fb_disable (fb_release task_id s) in
  (0, set_screen (Vga.vga_clear (screen s)) s).

(** ** Modes *)

(** The number of registers of each file. *)
Record hw_ok (d : adapter) : Prop := {
  ho_bga : length (bga d) = 5%nat;
  ho_seq : length (seq d) = 5%nat;
  ho_crtc : length (crtc d) = 25%nat;
  ho_gc : length (gc d) = 9%nat;
  ho_ac : length (ac d) = 21%nat;
  ho_font : zlength (font d) = FONT_BYTES;
}.

(** The adapter draws the framebuffer. *)
Definition graphics (d : adapter) : bool := Z.testbit (reg (bga d) VBE_DISPI_INDEX_ENABLE) 0.

(** The registers are those of the 80x25 text mode. *)
Record text_mode (d : adapter) : Prop := {
  tm_off : graphics d = false;
  tm_misc : misc d = text_misc;
  tm_seq : seq d = text_seq;
  tm_crtc : crtc d = text_crtc;
  tm_gc : gc d = text_gc;
  tm_ac : ac d = text_ac;
  tm_video : video d = true;
}.

(** A list of known length as its elements. *)
Ltac explode l H := repeat (destruct l as [|? l]; [discriminate H|]); destruct l as [|]; [clear H|discriminate H].

Lemma store_font_spec l i d :
  font_writable d = true → 0 ≤ i → (Z.to_nat i + length l ≤ length (font d))%nat →
  store_font i l d = set_font (take (Z.to_nat i) (font d) ++ l ++ drop (Z.to_nat i + length l) (font d)) d.
Proof.
  revert i d. induction l as [|v l IH]; intros i d Hw Hi Hl; cbn [store_font].
  - destruct d. unfold set_font. cbn. rewrite Nat.add_0_r, take_drop. done.
  - unfold vram_put. rewrite Hw. cbn [length] in Hl. rewrite IH; [|done|lia|cbn; rewrite length_insert; lia].
    destruct d. unfold set_font. cbn [font bga_index bga misc seq_index seq crtc_index crtc gc_index gc ac_data ac_index ac video]. cbn in Hl. f_equal.
    replace (Z.to_nat (i + 1)) with (S (Z.to_nat i)) by lia. rewrite (take_S_r _ _ v) by (apply list_lookup_insert_eq; lia).
    rewrite take_insert_ge by lia. rewrite drop_insert_lt by lia. rewrite <- app_assoc. cbn. do 4 f_equal. lia.
Qed.

Lemma text_registers_ok d : hw_ok d → graphics d = false → text_mode (text_registers d) ∧ font (text_registers d) = font d.
Proof.
  intros [] Hg. clear ho_font0 ho_bga0. destruct d as [bi b m si s ci c gi g ad ai a v f].
  cbn [seq crtc gc ac graphics bga] in *. explode s ho_seq0. explode c ho_crtc0. explode g ho_gc0. explode a ho_ac0. split; [|reflexivity].
  split; try reflexivity. exact Hg.
Qed.

(** Whatever mode the adapter is in and whatever drawing did to the font,
    leaving graphics mode restores every register of the text mode and the
    font that was saved. *)
Lemma restore_spec d f :
  hw_ok d → graphics d = false → zlength f = FONT_BYTES →
  text_mode (vga_restore_text_mode (Some f) d) ∧ font (vga_restore_text_mode (Some f) d) = f.
Proof.
  intros Hok Hg Hf. destruct (text_registers_ok d Hok Hg) as [[T1 T2 T3 T4 T5 T6 T7] Ef].
  unfold vga_restore_text_mode.
  pose proof (ho_font _ Hok) as Hl. rewrite <- Ef in Hl. destruct (text_registers d) as [bi b m si s ci c gi g ad ai a v fo].
  cbn [misc seq crtc gc ac video font] in *. subst m s c g a v.
  set (d1 := vga_font_access_begin _).
  assert (font_writable d1 = true) as Hw by reflexivity. assert (font d1 = fo) as Ef1 by reflexivity.
  assert (length f = length fo) as El by (unfold zlength in *; lia).
  rewrite (store_font_spec f 0 d1 Hw) by (rewrite ?Ef1; lia). rewrite Ef1. rewrite take_0, drop_ge, app_nil_r by lia. unfold d1.
  split; [by constructor|reflexivity].
Qed.

Lemma bga_write_spec i v d :
  (Z.to_nat i < length (bga d))%nat → 0 ≤ i → reg (bga (bga_write i v d)) i = v ∧ bga_write i v d = set_bga i (<[Z.to_nat i := v]> (bga d)) d.
Proof. intros Hi H0. unfold reg. cbn. rewrite list_lookup_insert_eq by done. split; [done|]. by destruct d. Qed.

Lemma hw_ok_bga d i l : hw_ok d → length l = 5%nat → hw_ok (set_bga i l d).
Proof. intros [] Hl. by constructor. Qed.

(** The text mode keeps the size of the register files. *)
Lemma text_mode_ok d : text_mode d → length (bga d) = 5%nat → zlength (font d) = FONT_BYTES → hw_ok d.
Proof. intros [] Hb Hf. constructor; [done|by rewrite tm_seq0|by rewrite tm_crtc0|by rewrite tm_gc0|by rewrite tm_ac0|done]. Qed.

Lemma outb_bga p v d : bga (outb p v d) = bga d.
Proof. unfold outb. repeat case_match; done. Qed.

Lemma outw_bga p v d : (p =? 0x1CE) || (p =? 0x1CF) = false → bga (outw p v d) = bga d.
Proof. unfold outw. intros [-> ->]%orb_false_iff. case_match; [by rewrite !outb_bga|]. case_match; [by rewrite !outb_bga|done]. Qed.

Lemma write_table_bga pi pd i l d : bga (write_table pi pd i l d) = bga d.
Proof. revert i d. induction l as [|v l IH]; intros i d; [done|]. cbn. by rewrite IH, !outb_bga. Qed.

Lemma store_font_bga i l d : bga (store_font i l d) = bga d.
Proof. revert i d. induction l as [|v l IH]; intros i d; [done|]. cbn [store_font]. rewrite IH. unfold vram_put. by case_match. Qed.

Lemma inb_status_bga d : bga (inb_status d) = bga d.
Proof. done. Qed.

Lemma restore_bga f d : bga (vga_restore_text_mode f d) = bga d.
Proof.
  unfold vga_restore_text_mode. assert (bga (text_registers d) = bga d) as E.
  { unfold text_registers. rewrite outb_bga, write_table_bga, inb_status_bga, !write_table_bga, !outb_bga, !write_table_bga. apply outb_bga. }
  destruct f as [f|]; [|done]. unfold vga_font_access_end, vga_font_access_begin. rewrite !outw_bga by done.
  rewrite store_font_bga, !outw_bga by done. exact E.
Qed.

(** ** The screen follows its owner *)

(** What holds of a display once it is initialised. *)
Record fb_ok (s : fb) : Prop := {
  fo_hw : hw_ok (hw s);
  fo_font : ∃ f, saved_font s = Some f ∧ zlength f = FONT_BYTES;
  fo_owner : -1 ≤ fb_owner s;
  fo_mode : graphics (hw s) = true ↔ 0 ≤ fb_owner s;
}.

Lemma disable_spec s :
  hw_ok (hw s) → (∃ f, saved_font s = Some f ∧ zlength f = FONT_BYTES) → present s = true →
  let s' := fb_disable s in
  text_mode (hw s') ∧ hw_ok (hw s') ∧ Some (font (hw s')) = saved_font s ∧ fb_owner s' = fb_owner s ∧ saved_font s' = saved_font s ∧ present s' = present s.
Proof.
  intros Hok (f & Ef & Hf) Hp s'. unfold s', fb_disable. rewrite Hp, Ef. cbn [negb hw set_hw fb_owner saved_font present].
  pose proof (ho_bga _ Hok) as Hb. destruct (bga_write_spec VBE_DISPI_INDEX_ENABLE VBE_DISPI_DISABLED (hw s)) as [E1 E2]; [rewrite Hb; by vm_compute|done|].
  assert (hw_ok (bga_write VBE_DISPI_INDEX_ENABLE VBE_DISPI_DISABLED (hw s))) as Hok' by (rewrite E2; apply hw_ok_bga; [done|by rewrite length_insert]).
  assert (graphics (bga_write VBE_DISPI_INDEX_ENABLE VBE_DISPI_DISABLED (hw s)) = false) as Hg by (unfold graphics; by rewrite E1).
  destruct (restore_spec _ f Hok' Hg Hf) as [Ht Hfo]. split_and!; [done| |by rewrite Hfo|done|done|done].
  apply text_mode_ok; [done|rewrite restore_bga; by apply Hok'|by rewrite Hfo].
Qed.

Lemma enable_spec s :
  hw_ok (hw s) → present s = true →
  ∃ s', fb_enable s = (0, s') ∧ graphics (hw s') = true ∧ hw_ok (hw s') ∧ fb_owner s' = fb_owner s ∧ saved_font s' = saved_font s ∧ present s' = true ∧
    drop 1 (bga (hw s')) = [FB_WIDTH; FB_HEIGHT; FB_BPP; 0x41].
Proof.
  intros Hok Hp. unfold fb_enable. rewrite Hp. cbn [negb]. eexists. split; [reflexivity|]. cbn [hw set_hw fb_owner saved_font present].
  pose proof Hok as []. destruct (hw s) as [bi b m si q ci c gi g ad ai a v fo]. cbn [bga] in ho_bga0. explode b ho_bga0.
  split_and!; done.
Qed.

(** The calls of tasks on the display. *)
Inductive step : fb → fb → Prop :=
| step_map t s : 0 ≤ t → step s (fb_map t s).2
| step_off t s : 0 ≤ t → step s (fb_off t s).2
| step_exit t s : 0 ≤ t → step s (fb_task_exit t s)
| step_draw s d' : hw_ok d' → bga d' = bga (hw s) → step s (set_hw d' s).

Lemma display_step_ok s s' : present s = true → fb_ok s → step s s' → fb_ok s' ∧ present s' = true.
Proof.
  intros Hp [Hok Hf Ho Hm] Hs. assert (∀ s1, hw_ok (hw s1) → saved_font s1 = saved_font s → fb_owner s1 = -1 → present s1 = true →
    fb_ok (set_screen (Vga.vga_clear (screen (fb_disable s1))) (fb_disable s1)) ∧ present (set_screen (Vga.vga_clear (screen (fb_disable s1))) (fb_disable s1)) = true) as Hoff.
  { intros s1 H1 H2 H3 H4. destruct (disable_spec s1 H1) as ([T1 _ _ _ _ _ _] & D2 & D3 & D4 & D5 & D6); [by rewrite H2|done|].
    split; [|exact (eq_trans D6 H4)]. constructor; cbn [hw saved_font fb_owner set_screen]; [done|by rewrite D5, H2|rewrite D4, H3; done|].
    rewrite T1, D4, H3. split; [done|lia]. }
  destruct Hs as [t s Ht|t s Ht|t s Ht|s d' Hd Eb].
  - unfold fb_map, fb_claim. rewrite Hp. cbn [negb]. destruct (negb (fb_owner s =? -1) && negb (fb_owner s =? t)); [by split|]. cbn.
    destruct (enable_spec (set_owner t s)) as (s1 & E & G & K1 & K2 & K3 & K4 & _); [done|done|]. rewrite E. cbn. split; [|done].
    constructor; [done|by rewrite K3|rewrite K2; cbn; lia|]. rewrite G, K2. done.
  - unfold fb_off. destruct (fb_owned_by t s) eqn:Eo; cbn [negb]; [|by split]. apply Hoff; unfold fb_release; unfold fb_owned_by in Eo; by rewrite Eo.
  - unfold fb_task_exit. destruct (Z.eqb_spec (fb_owner s) t); cbn [negb]; [|by split]. by apply Hoff.
  - split; [|done]. constructor; cbn; try done. unfold graphics. by rewrite Eb.
Qed.

(** From an initialised display on, whatever tasks map, release, draw and
    die: the adapter shows the framebuffer exactly while a task owns it; one
    task at a time can map it; when the owner dies the adapter is back in the
    text mode with every register and the whole font restored, and nobody
    owns it. *)
Theorem display_follows_owner s s' :
  present s = true → fb_ok s → rtc step s s' →
  (graphics (hw s') = true ↔ 0 ≤ fb_owner s') ∧
  (∀ t, 0 ≤ t → (fb_map t s').1 = 0 ↔ fb_owner s' = -1 ∨ fb_owner s' = t) ∧
  (∀ t, 0 ≤ t → fb_owner s' = t →
    let d := hw (fb_task_exit t s') in text_mode d ∧ Some (font d) = saved_font s' ∧ fb_owner (fb_task_exit t s') = -1).
Proof.
  intros Hp Hok Hst. assert (fb_ok s' ∧ present s' = true) as [[Ho Hf How Hm] Hp'].
  { revert Hp Hok. induction Hst as [s|s1 s2 s3 Hs _ IH]; [done|]. intros Hp Hok. destruct (display_step_ok _ _ Hp Hok Hs). by apply IH. }
  split_and!; [done| |].
  - intros t Ht. unfold fb_map, fb_claim. rewrite Hp'. cbn [negb].
    destruct (Z.eqb_spec (fb_owner s') (-1)), (Z.eqb_spec (fb_owner s') t); cbn [negb andb].
    4:{ split; [done|]. intros [?|?]; done. }
    all: destruct (enable_spec (set_owner t s')) as (s1 & E & _); [done|done|]; cbn; rewrite E; cbn; split; auto.
  - intros t Ht Et d. unfold d, fb_task_exit. rewrite Et, Z.eqb_refl. cbn [negb].
    destruct (disable_spec (set_owner (-1) s')) as (T & _ & D3 & D4 & _); [done|done|done|]. cbn [hw fb_owner set_screen]. split_and!; done.
Qed.

Definition demo_hw : adapter :=
  mk_hw 0 [0xB0C5; 0; 0; 0; 0] text_misc 0 text_seq 0 text_crtc 0 text_gc false 0 text_ac true (replicate (Z.to_nat FONT_BYTES) 7).
Definition demo_fb : fb :=
  fb_init (Some 0xFD000008) (mk_fb false 0 None (-1) (Vga.mk_vga (replicate 2000 0) 0 0 15 0 0) demo_hw).

Lemma display_follows_owner_witness (s' := (fb_map 4 demo_fb).2) :
  graphics (hw s') = true ∧ (fb_map 5 s').1 ≠ 0 ∧ text_mode (hw (fb_task_exit 4 s')).
Proof.
  assert (present demo_fb = true) as Hp by (vm_compute; reflexivity).
  assert (fb_ok demo_fb) as Hok.
  { constructor; [constructor; vm_compute; reflexivity|eexists; split; vm_compute; reflexivity|by vm_compute|by vm_compute]. }
  destruct (display_follows_owner demo_fb s' Hp Hok) as (H1 & H2 & H3).
  - apply rtc_once. by apply (step_map 4).
  - assert (fb_owner s' = 4) as Eo by (vm_compute; reflexivity). split_and!.
    + apply H1. rewrite Eo. lia.
    + intros E. apply H2 in E; [|lia]. rewrite Eo in E. lia.
    + by apply H3.
Defined.
End Fb.
