(* ===== verification/Task.v ===== *)
(** * Tasks (kernel/task.c, include/task.h)

    Task structures live at kernel pointers and are linked through [next] and
    [reap_next]; the model keeps the store and the links.  Sections that run
    with interrupts masked are single operations.  [None] is a panic, or the
    use of a pointer that points nowhere. *)

From S2P Require Import Prelude Pipe Net Tcp Paging Wsurf Fb.

Module Task.

(** ** Open files *)

Definition FD_NONE : Z := 0.
Definition FD_CONSOLE : Z := 1.
Definition FD_CHANNEL : Z := 2.
Definition FD_FILE : Z := 3.
Definition FD_PIPE_R : Z := 4.
Definition FD_PIPE_W : Z := 5.
Definition FD_SOCKET : Z := 6.

Definition FD_WRITABLE : Z := 0x100.
Definition FD_WRITEONLY : Z := 0x200.
Definition FD_TYPE (t : Z) : Z := Z.land t 0xFF.

Definition TASK_MAX_FILES : Z := 8.
Definition EXIT_RECORDS : Z := 32.

Definition USER_HEAP_BASE : Z := 0x60000000.

(** What this component needs of the sockets: references to a handle. *)
Class Sockets (N : Type) := {
  sock_addref : Z → N → N;
  sock_release : Z → N → N;
}.

#[global] Instance tcp_sockets {D} `{Net.Nic D} : Sockets (Net.net D) := {
  sock_addref h s := (Tcp.tcp_addref h s).2;
  sock_release h s := (Tcp.tcp_release h s).2;
}.

Section task.
(** [P]: pointers to file nodes; [N]: the state of the network. *)
Context {P N : Type} `{Sockets N}.

(** struct file. *)
Record file := mk_file {
  f_type : Z;
  f_node : option P;
  f_offset : Z;
  f_cid : Z;
  f_pipe : Z;
  f_sock : Z;
}.

Definition file0 : file := mk_file 0 None 0 0 0 0.

(** struct task. *)
Record task := mk_task {
  id : Z;
  name : list Z;
  esp : Z;
  stack_mem : Z;
  kstack_top : Z;
  page_directory : Z;
  owns_dir : bool;
  brk : Z;
  files : list file;
  next : Z;
  reap_next : Z;
}.

Definition set_esp (v : Z) (t : task) : task :=
  mk_task (id t) (name t) v (stack_mem t) (kstack_top t) (page_directory t) (owns_dir t) (brk t) (files t) (next t) (reap_next t).
Definition set_files (v : list file) (t : task) : task :=
  mk_task (id t) (name t) (esp t) (stack_mem t) (kstack_top t) (page_directory t) (owns_dir t) (brk t) v (next t) (reap_next t).
Definition set_next (v : Z) (t : task) : task :=
  mk_task (id t) (name t) (esp t) (stack_mem t) (kstack_top t) (page_directory t) (owns_dir t) (brk t) (files t) v (reap_next t).
Definition set_reap_next (v : Z) (t : task) : task :=
  mk_task (id t) (name t) (esp t) (stack_mem t) (kstack_top t) (page_directory t) (owns_dir t) (brk t) (files t) (next t) v.

(** The objects behind file descriptors. *)
Record objects := mk_objects { pipes : gmap Z Pipe.pipe; net_state : N }.

(** The state of the component and of those it calls at a task's death;
    [heap] has the addresses the next calls of kmalloc return, [kmem] the
    words of the kernel stacks. *)
Record ts := mk_ts {
  tasks : gmap Z task;
  current_task : Z;
  ready_queue : Z;
  zombie_queue : Z;
  next_pid : Z;
  exit_records : list (Z * Z);
  exit_record_next : Z;
  esp0 : Z;
  objs : objects;
  display : Fb.fb;
  surfaces : Wsurf.ws;
  kmem : gmap Z Z;
  heap : list Z;
}.

Definition set_tasks (v : gmap Z task) (s : ts) : ts :=
  mk_ts v (current_task s) (ready_queue s) (zombie_queue s) (next_pid s) (exit_records s) (exit_record_next s) (esp0 s) (objs s) (display s) (surfaces s) (kmem s) (heap s).
Definition set_current (v : Z) (s : ts) : ts :=
  mk_ts (tasks s) v (ready_queue s) (zombie_queue s) (next_pid s) (exit_records s) (exit_record_next s) (esp0 s) (objs s) (display s) (surfaces s) (kmem s) (heap s).
Definition set_ready (v : Z) (s : ts) : ts :=
  mk_ts (tasks s) (current_task s) v (zombie_queue s) (next_pid s) (exit_records s) (exit_record_next s) (esp0 s) (objs s) (display s) (surfaces s) (kmem s) (heap s).
Definition set_zombies (v : Z) (s : ts) : ts :=
  mk_ts (tasks s) (current_task s) (ready_queue s) v (next_pid s) (exit_records s) (exit_record_next s) (esp0 s) (objs s) (display s) (surfaces s) (kmem s) (heap s).
Definition set_next_pid (v : Z) (s : ts) : ts :=
  mk_ts (tasks s) (current_task s) (ready_queue s) (zombie_queue s) v (exit_records s) (exit_record_next s) (esp0 s) (objs s) (display s) (surfaces s) (kmem s) (heap s).
Definition set_records (v : list (Z * Z)) (n : Z) (s : ts) : ts :=
  mk_ts (tasks s) (current_task s) (ready_queue s) (zombie_queue s) (next_pid s) v n (esp0 s) (objs s) (display s) (surfaces s) (kmem s) (heap s).
Definition set_esp0 (v : Z) (s : ts) : ts :=
  mk_ts (tasks s) (current_task s) (ready_queue s) (zombie_queue s) (next_pid s) (exit_records s) (exit_record_next s) v (objs s) (display s) (surfaces s) (kmem s) (heap s).
Definition set_objs (v : objects) (s : ts) : ts :=
  mk_ts (tasks s) (current_task s) (ready_queue s) (zombie_queue s) (next_pid s) (exit_records s) (exit_record_next s) (esp0 s) v (display s) (surfaces s) (kmem s) (heap s).
Definition set_display (v : Fb.fb) (s : ts) : ts :=
  mk_ts (tasks s) (current_task s) (ready_queue s) (zombie_queue s) (next_pid s) (exit_records s) (exit_record_next s) (esp0 s) (objs s) v (surfaces s) (kmem s) (heap s).
Definition set_surfaces (v : Wsurf.ws) (s : ts) : ts :=
  mk_ts (tasks s) (current_task s) (ready_queue s) (zombie_queue s) (next_pid s) (exit_records s) (exit_record_next s) (esp0 s) (objs s) (display s) v (kmem s) (heap s).
Definition set_kmem (v : gmap Z Z) (s : ts) : ts :=
  mk_ts (tasks s) (current_task s) (ready_queue s) (zombie_queue s) (next_pid s) (exit_records s) (exit_record_next s) (esp0 s) (objs s) (display s) (surfaces s) v (heap s).
Definition set_heap (v : list Z) (s : ts) : ts :=
  mk_ts (tasks s) (current_task s) (ready_queue s) (zombie_queue s) (next_pid s) (exit_records s) (exit_record_next s) (esp0 s) (objs s) (display s) (surfaces s) (kmem s) v.

(** The address spaces. *)
Definition mem (s : ts) : Paging.vm := Wsurf.wvm (surfaces s).
Definition set_mem (v : Paging.vm) (s : ts) : ts := set_surfaces (Wsurf.mk_ws (Wsurf.surfs (surfaces s)) v) s.

Definition T (A : Type) : Type := ts → option (A * ts).
#[local] Instance T_ret : MRet T := λ A x s, Some (x, s).
#[local] Instance T_bind : MBind T := λ A C f c s, match c s with Some (a, s') => f a s' | None => None end.

Definition fail {A} : T A := λ _, None.
Definition get {A} (f : ts → A) : T A := λ s, Some (f s, s).
Definition upd (f : ts → ts) : T unit := λ s, Some (tt, f s).
Definition task_at (p : Z) : T task := λ s, match tasks s !! p with Some t => Some (t, s) | None => None end.
Definition put_task (p : Z) (t : task) : T unit := upd (λ s, set_tasks (<[p := t]> (tasks s)) s).
Definition kmalloc : T Z := λ s, match heap s with [] => None | p :: l => Some (p, set_heap l s) end.

(** ** References *)

Definition is_pipe (f : file) : bool := (FD_TYPE (f_type f) =? FD_PIPE_R) || (FD_TYPE (f_type f) =? FD_PIPE_W).
Definition is_writer (f : file) : bool := FD_TYPE (f_type f) =? FD_PIPE_W.
Definition is_socket (f : file) : bool := FD_TYPE (f_type f) =? FD_SOCKET.

Definition file_addref (f : file) (o : objects) : option objects :=
  if is_pipe f then
    p ← pipes o !! f_pipe f;
    Some (mk_objects (<[f_pipe f := Pipe.pipe_addref p (is_writer f)]> (pipes o)) (net_state o))
  else if is_socket f then Some (mk_objects (pipes o) (sock_addref (f_sock f) (net_state o)))
  else Some o.

(** A released pipe without references is freed. *)
Definition file_release (f : file) (o : objects) : option objects :=
  if is_pipe f then
    p ← pipes o !! f_pipe f;
    let '(p', dead) := Pipe.pipe_release p (is_writer f) in
    Some (mk_objects (if dead : bool then delete (f_pipe f) (pipes o) else <[f_pipe f := p']> (pipes o)) (net_state o))
  else if is_socket f then Some (mk_objects (pipes o) (sock_release (f_sock f) (net_state o)))
  else Some o.

(** The closed descriptor keeps its offset and channel. *)
Definition closed (f : file) : file := mk_file FD_NONE None (f_offset f) (f_cid f) 0 0.

Definition file_close (f : file) (o : objects) : option (file * objects) :=
  o ← file_release f o; Some (closed f, o).

Fixpoint close_files (l : list file) (o : objects) : option (list file * objects) :=
  match l with
  | [] => Some ([], o)
  | f :: l' =>
      '(f, o) ← (if negb (f_type f =? FD_NONE) then file_close f o else Some (f, o));
      '(l', o) ← close_files l' o;
      Some (f :: l', o)
  end.

(** close_all_files of the task at [p]. *)
Definition close_all_files (p : Z) : T unit :=
  t ← task_at p;
  o ← get objs;
  match close_files (files t) o with
  | None => fail
  | Some (l, o) => _ ← upd (set_objs o); put_task p (set_files l t)
  end.

(** ** Scheduling *)

(** The page directory of the incoming task, loaded when it differs. *)
Definition load_dir (t : task) : T unit :=
  cur ← get (λ s, Paging.current_directory (mem s));
  if negb (page_directory t =? 0) && negb (page_directory t =? cur)
  then upd (λ s, set_mem (Paging.set_current (page_directory t) (mem s)) s) else mret tt.

(** The stack pointer to resume at. *)
Definition schedule (sp : Z) : T Z :=
  cur ← get current_task;
  if cur =? 0 then mret sp else
  t ← task_at cur;
  _ ← put_task cur (set_esp sp t);
  rq ← get ready_queue;
  let nxt := if negb (next t =? 0) then next t else rq in
  _ ← upd (set_current nxt);
  t ← task_at nxt;
  _ ← load_dir t;
  _ ← (if negb (kstack_top t =? 0) then upd (set_esp0 (kstack_top t)) else mret tt);
  mret (esp t).

(** Names as byte strings without the NUL. *)
Definition kernel_task : list Z := [107; 101; 114; 110; 101; 108; 95; 116; 97; 115; 107].

Definition console_files : list file :=
  replicate 3 (mk_file FD_CONSOLE None 0 0 0 0) ++ replicate 5 file0.

Definition tasking_init : T unit :=
  p ← kmalloc;
  pid ← get next_pid;
  dir ← get (λ s, Paging.current_directory (mem s));
  _ ← upd (set_next_pid (u32 (pid + 1)));
  _ ← upd (set_current p);
  _ ← upd (set_ready p);
  put_task p (mk_task (s32 pid) kernel_task 0 0 0 dir false 0 console_files 0 0).

(** ** A new task *)

Definition STACK_SIZE : Z := 0x4000.

(** [*--sp = w] for the words [l] in turn. *)
Fixpoint push_words (sp : Z) (l : list Z) (m : gmap Z Z) : Z * gmap Z Z :=
  match l with
  | [] => (sp, m)
  | w :: l' => let sp := u32 (sp - 4) in push_words sp l' (<[sp := w]> m)
  end.

(** The words of the trap frame in the order they are pushed. *)
Definition trap_frame (entry user_esp : Z) : list Z :=
  let cs := if negb (user_esp =? 0) then 0x1B else 0x08 in
  let seg := if negb (user_esp =? 0) then 0x23 else 0x10 in
  (if negb (user_esp =? 0) then [seg; user_esp] else []) ++
  [0x202; cs; entry; 0; 0; 0; 0; 0; 0; 0; 0; seg; seg; seg; seg].

Fixpoint addref_files (l : list file) (o : objects) : option objects :=
  match l with
  | [] => Some o
  | f :: l' => o ← file_addref f o; addref_files l' o
  end.

(** The descriptors of a new task: the first three from [stdio]. *)
Definition new_files (stdio : option (list file)) : list file :=
  match stdio with
  | Some l => take 3 l ++ replicate 5 file0
  | None => console_files
  end.

(** The last task of the queue from [p] on. *)
Fixpoint find_tail (n : nat) (m : gmap Z task) (p : Z) : option Z :=
  match n with
  | O => None
  | S n' => t ← m !! p; if next t =? 0 then Some p else find_tail n' m (next t)
  end.

(** The queue has at most as many tasks as there are structures. *)
Definition queue_tail (s : ts) : option Z := find_tail (size (tasks s)) (tasks s) (ready_queue s).

Definition spawn_task (nm : list Z) (entry dir user_esp : Z) (stdio : option (list file)) : T Z :=
  p ← kmalloc;
  pid ← get next_pid;
  _ ← upd (set_next_pid (u32 (pid + 1)));
  cur ← get (λ s, Paging.current_directory (mem s));
  stk ← kmalloc;
  o ← get objs;
  match match stdio with Some l => addref_files (take 3 l) o | None => Some o end with
  | None => fail
  | Some o =>
      _ ← upd (set_objs o);
      m ← get kmem;
      let top := u32 (stk + STACK_SIZE) in
      let '(sp, m) := push_words top (trap_frame entry user_esp) m in
      _ ← upd (set_kmem m);
      tl ← get queue_tail;
      match tl with
      | None => fail
      | Some tl =>
          t ← task_at tl;
          _ ← put_task tl (set_next p t);
          _ ← put_task p
                (mk_task (s32 pid) nm sp stk (if negb (user_esp =? 0) then top else 0)
                   (if negb (dir =? 0) then dir else cur) (negb (dir =? 0) && negb (dir =? cur))
                   (if negb (user_esp =? 0) then USER_HEAP_BASE else 0) (new_files stdio) 0 0);
          mret (s32 pid)
      end
  end.

(** ** Death *)

Definition record_exit (pid code : Z) (s : ts) : ts :=
  set_records (<[Z.to_nat (exit_record_next s) := (pid, code)]> (exit_records s))
    ((exit_record_next s + 1) mod EXIT_RECORDS) s.

(** Close the files, give the display back, unmap the surfaces, record the
    status. *)
Definition release_task (p code : Z) : T unit :=
  _ ← close_all_files p;
  t ← task_at p;
  _ ← upd (λ s, set_display (Fb.fb_task_exit (id t) (display s)) s);
  w ← get surfaces;
  match Wsurf.wsurf_task_exit (id t) (page_directory t) w with
  | None => fail
  | Some w => _ ← upd (set_surfaces w); upd (record_exit (id t) code)
  end.

(** The task whose [next] is [p], from [q] on. *)
Fixpoint find_prev (n : nat) (m : gmap Z task) (q p : Z) : option Z :=
  match n with
  | O => None
  | S n' => t ← m !! q; if next t =? p then Some q else find_prev n' m (next t) p
  end.

Definition make_zombie (p : Z) : T unit :=
  t ← task_at p;
  z ← get zombie_queue;
  _ ← put_task p (set_reap_next z t);
  upd (set_zombies p).

(** exit up to the final task_switch. *)
Definition exit (code : Z) : T unit :=
  cur ← get current_task;
  rq ← get ready_queue;
  t ← task_at cur;
  if (cur =? rq) && (next t =? 0) then fail else
  _ ← release_task cur code;
  t ← task_at cur;
  _ ← (if cur =? rq then upd (set_ready (next t)) else
       prev ← get (λ s, find_prev (size (tasks s)) (tasks s) rq cur);
       match prev with
       | None => fail
       | Some q => tq ← task_at q; put_task q (set_next (next t) tq)
       end);
  make_zombie cur.

(** Walk to the task with the pid: the one before it and the task itself
    (0: none). *)
Fixpoint find_pid (n : nat) (m : gmap Z task) (prev p pid : Z) : option (Z * Z) :=
  match n with
  | O => None
  | S n' =>
      if p =? 0 then Some (prev, 0) else
      t ← m !! p;
      if id t =? pid then Some (prev, p) else find_pid n' m p (next t) pid
  end.

(** [None]: the caller kills itself with exit(-9). *)
Definition task_kill (pid : Z) : T (option Z) :=
  cur ← get current_task;
  me ← (if cur =? 0 then mret false else t ← task_at cur; mret (id t =? pid));
  if me : bool then _ ← exit (-9); mret None else
  r ← get (λ s, find_pid (S (size (tasks s))) (tasks s) 0 (ready_queue s) pid);
  rq ← get ready_queue;
  match r with
  | None => fail
  | Some (prev, p) =>
      if (p =? 0) || (p =? rq) then mret (Some (-1)) else
      t ← task_at p;
      tp ← task_at prev;
      _ ← put_task prev (set_next (next t) tp);
      _ ← release_task p (-9);
      _ ← make_zombie p;
      mret (Some 0)
  end.

(** The zombies, taken off their queue with interrupts masked. *)
Definition reap_begin : T Z :=
  z ← get zombie_queue;
  _ ← upd (set_zombies 0);
  mret z.

(** One round of the loop of reap_tasks: free the task at [z]; the next. *)
Definition reap_one (z : Z) : T Z :=
  t ← task_at z;
  _ ← (if owns_dir t && negb (page_directory t =? 0) then
         m ← get mem;
         match Paging.free_directory (page_directory t) m with
         | Some (_, m) => upd (set_mem m)
         | None => fail
         end
       else mret tt);
  _ ← upd (λ s, set_tasks (delete z (tasks s)) s);
  mret (reap_next t).

Fixpoint reap_list (n : nat) (z : Z) : T unit :=
  if z =? 0 then mret tt else
  match n with
  | O => fail
  | S n' => z ← reap_one z; reap_list n' z
  end.

Definition reap_tasks : T unit :=
  z ← reap_begin;
  n ← get (λ s, size (tasks s));
  reap_list n z.

(** ** Queries *)

Definition task_alive (pid : Z) : T bool :=
  r ← get (λ s, find_pid (S (size (tasks s))) (tasks s) 0 (ready_queue s) pid);
  match r with Some (_, p) => mret (negb (p =? 0)) | None => fail end.

Fixpoint find_record (l : list (Z * Z)) (pid : Z) : Z :=
  match l with
  | [] => 0
  | (p, c) :: l' => if p =? pid then c else find_record l' pid
  end.

Definition task_exit_code (pid : Z) : T Z := get (λ s, find_record (exit_records s) pid).

Definition getpid : T Z :=
  cur ← get current_task;
  if cur =? 0 then mret (-1) else t ← task_at cur; mret (id t).
End task.

Arguments file : clear implicits.
Arguments task : clear implicits.
Arguments ts : clear implicits.
Arguments objects : clear implicits.
End Task.

(** * The queues of tasks as lists

    The linked structures of kernel/task.c represent lists of task pointers;
    every walk and every relinking is the list operation it stands for. *)

Module TaskQueue.
Import Task.

Section queue.
Context {P N : Type} `{Sockets N}.
Abbreviation task := (task P).
Abbreviation ts := (ts P N).
Implicit Types (m : gmap Z task) (l : list Z) (t : task).

(** The tasks [l] are linked by [f] from [h] on, the last to NULL. *)
Fixpoint chain (f : task → Z) m (h : Z) l : Prop :=
  match l with
  | [] => h = 0
  | p :: l' => h = p ∧ p ≠ 0 ∧ ∃ t, m !! p = Some t ∧ chain f m (f t) l'
  end.

Lemma chain_in f m h l p : chain f m h l → p ∈ l → p ≠ 0 ∧ is_Some (m !! p).
Proof.
  revert h. induction l as [|q l IH]; intros h; [by intros _ ?%elem_of_nil|].
  intros (_ & H0 & t & Ht & Hc) [->|Hp]%elem_of_cons; [by split|]. by eapply IH.
Qed.

Lemma chain_other f m h l p t : p ∉ l → chain f (<[p := t]> m) h l ↔ chain f m h l.
Proof.
  revert h. induction l as [|q l IH]; intros h Hp; cbn; [done|]. apply not_elem_of_cons in Hp as [Hq Hp].
  rewrite lookup_insert_ne by done. by setoid_rewrite IH.
Qed.

Lemma chain_delete f m h l p : p ∉ l → chain f m h l → chain f (delete p m) h l.
Proof.
  revert h. induction l as [|q l IH]; intros h Hp; cbn; [done|]. apply not_elem_of_cons in Hp as [Hq Hp].
  intros (? & ? & t & ? & ?). split_and!; [done|done|]. exists t. rewrite lookup_delete_ne by done. split; [done|]. by apply IH.
Qed.

(** A change that keeps the links. *)
Lemma chain_same f m h l p t t' : m !! p = Some t → f t' = f t → chain f m h l → chain f (<[p := t']> m) h l.
Proof.
  intros Hp Hf. revert h. induction l as [|q l IH]; intros h; cbn; [done|]. intros (? & ? & tq & Hq & Hc).
  split_and!; [done|done|]. destruct (decide (q = p)) as [->|].
  - exists t'. rewrite lookup_insert_eq. split; [done|]. rewrite Hf. assert (tq = t) as -> by congruence. by apply IH.
  - exists tq. rewrite lookup_insert_ne by done. split; [done|]. by apply IH.
Qed.

Lemma chain_head f m h l : chain f m h l → h = default 0 (head l).
Proof. destruct l; [done|]. by intros (-> & _). Qed.

Lemma chain_lookup f m h l i p : chain f m h l → l !! i = Some p → ∃ t, m !! p = Some t ∧ f t = default 0 (l !! S i) ∧ p ≠ 0.
Proof.
  revert h i. induction l as [|q l IH]; intros h [|i]; cbn; try done.
  - intros (-> & H0 & t & Ht & Hc) [= <-]. exists t. split_and!; [done|by rewrite (chain_head _ _ _ _ Hc); destruct l|done].
  - intros (_ & _ & t & _ & Hc). by eapply IH.
Qed.

(** Structures on a list without repetition are at most as many as there
    are. *)
Lemma chain_size f m h l : chain f m h l → NoDup l → (length l ≤ size m)%nat.
Proof.
  intros Hc Hn. rewrite <- (size_list_to_set (C := gset Z) l) by done. rewrite <- (size_dom (D := gset Z) m).
  apply subseteq_size. intros p Hp%elem_of_list_to_set. apply elem_of_dom. by eapply chain_in.
Qed.

(** ** Walks *)

Lemma find_tail_spec n m h l q : chain next m h (l ++ [q]) → (length l < n)%nat → find_tail n m h = Some q.
Proof.
  revert h l. induction n as [|n IH]; intros h l Hc Hl; [lia|]. cbn [find_tail]. destruct l as [|p l]; cbn in Hc.
  - destruct Hc as (-> & _ & t & -> & Hz). cbn. by rewrite Hz.
  - destruct Hc as (-> & _ & t & -> & Hc). cbn. assert (next t ≠ 0) as Hn.
    { rewrite (chain_head _ _ _ _ Hc). intros E. destruct (chain_in _ _ _ _ (default 0 (head (l ++ [q]))) Hc) as [? _]; [|done].
      destruct l; cbn; by left. }
    destruct (Z.eqb_spec (next t) 0); [done|]. apply (IH _ l); [done|]. cbn in Hl. lia.
Qed.

Lemma find_prev_spec n m h l1 a p l2 :
  chain next m h (l1 ++ a :: p :: l2) → p ∉ l1 → p ≠ a → (length l1 < n)%nat → find_prev n m h p = Some a.
Proof.
  revert h l1. induction n as [|n IH]; intros h l1 Hc Hp Hne Hl; [lia|]. cbn [find_prev]. destruct l1 as [|x l1]; cbn in Hc.
  - destruct Hc as (-> & _ & t & Ht & Hn & _). rewrite Ht. cbn. by rewrite Hn, Z.eqb_refl.
  - destruct Hc as (-> & _ & t & -> & Hc). cbn. apply not_elem_of_cons in Hp as [Hpx Hp].
    destruct (Z.eqb_spec (next t) p) as [E|].
    + exfalso. rewrite (chain_head _ _ _ _ Hc) in E. destruct l1; cbn in E; [done|]. subst. apply Hp. by left.
    + apply (IH _ l1); [done|done|done|]. cbn in Hl. lia.
Qed.

(** The first task with a pid. *)
Definition has_pid m (pid p : Z) : Prop := ∃ t, m !! p = Some t ∧ id t = pid.

Lemma find_pid_none n m h l prev pid :
  chain next m h l → (∀ p, p ∈ l → ¬ has_pid m pid p) → (length l < n)%nat → ∃ q, find_pid n m prev h pid = Some (q, 0).
Proof.
  revert h l prev. induction n as [|n IH]; intros h l prev Hc Hno Hl; [lia|]. cbn [find_pid]. destruct l as [|p l]; cbn in Hc.
  - subst. by exists prev.
  - destruct Hc as (-> & H0 & t & Ht & Hc). destruct (Z.eqb_spec p 0); [done|]. rewrite Ht. cbn. destruct (Z.eqb_spec (id t) pid).
    + exfalso. apply (Hno p); [by left|]. by exists t.
    + apply (IH _ l); [done| |cbn in Hl; lia]. intros q Hq. apply Hno. by right.
Qed.

Lemma find_pid_found n m h l1 p l2 prev pid :
  chain next m h (l1 ++ p :: l2) → (∀ q, q ∈ l1 → ¬ has_pid m pid q) → has_pid m pid p → (length l1 < n)%nat →
  find_pid n m prev h pid = Some (default prev (list.last l1), p).
Proof.
  revert h l1 prev. induction n as [|n IH]; intros h l1 prev Hc Hno (tp & Htp & Hid) Hl; [lia|]. cbn [find_pid].
  destruct l1 as [|x l1]; cbn in Hc.
  - destruct Hc as (-> & H0 & t & Ht & Hc). destruct (Z.eqb_spec p 0); [done|]. rewrite Ht. cbn.
    assert (t = tp) as -> by congruence. rewrite Hid, Z.eqb_refl. done.
  - destruct Hc as (-> & H0 & t & Ht & Hc). destruct (Z.eqb_spec x 0); [done|]. rewrite Ht. cbn. destruct (Z.eqb_spec (id t) pid).
    + exfalso. apply (Hno x); [by left|]. by exists t.
    + rewrite (IH _ l1); [|done| |by exists tp|cbn in Hl; lia].
      * destruct l1 as [|y l1]; [done|]. cbn [list.last]. change (list.last (x :: y :: l1)) with (list.last (y :: l1)).
        destruct (list.last (y :: l1)) eqn:E; [done|]. by apply last_None in E.
      * intros q Hq. apply Hno. by right.
Qed.

Lemma pid_split m pid l :
  (∀ p, p ∈ l → ¬ has_pid m pid p) ∨ ∃ l1 p l2, l = l1 ++ p :: l2 ∧ has_pid m pid p ∧ ∀ q, q ∈ l1 → ¬ has_pid m pid q.
Proof.
  induction l as [|x l [IH|(l1 & p & l2 & -> & Hp & Hl)]]; [left; by intros p ?%elem_of_nil| |].
  all: assert (has_pid m pid x ∨ ¬ has_pid m pid x) as [Hx|Hx] by
    (unfold has_pid; destruct (m !! x) as [t|]; [destruct (decide (id t = pid)); [left; by exists t|right; by intros (? & [= <-] & ?)]|right; by intros (? & ? & _)]).
  - right. exists [], x, l. split_and!; [done|done|]. by intros q ?%elem_of_nil.
  - left. intros p [->|Hp]%elem_of_cons; [done|by apply IH].
  - right. exists [], x, (l1 ++ p :: l2). split_and!; [done|done|]. by intros q ?%elem_of_nil.
  - right. exists (x :: l1), p, l2. split_and!; [done|done|]. intros q [->|Hq]%elem_of_cons; [done|by apply Hl].
Qed.

(** The walk of task_kill and task_alive finds the task with the pid. *)
Lemma find_pid_cases n m h l prev pid :
  chain next m h l → (length l < n)%nat →
  (∃ q, find_pid n m prev h pid = Some (q, 0) ∧ ∀ p, p ∈ l → ¬ has_pid m pid p) ∨
  (∃ l1 p l2, l = l1 ++ p :: l2 ∧ has_pid m pid p ∧ p ≠ 0 ∧ find_pid n m prev h pid = Some (default prev (list.last l1), p)).
Proof.
  intros Hc Hn. destruct (pid_split m pid l) as [Hno|(l1 & p & l2 & -> & Hp & Hl)].
  - left. destruct (find_pid_none n m h l prev pid Hc Hno Hn) as [q E]. by exists q.
  - right. exists l1, p, l2. split_and!; [done|done| |].
    + eapply (chain_in _ _ _ _ p Hc), elem_of_app. right. by left.
    + eapply find_pid_found; [done|done|done|]. rewrite length_app in Hn. lia.
Qed.

(** ** Relinking *)

Lemma chain_append m h l q r tq tr :
  chain next m h (l ++ [q]) → NoDup (l ++ [q]) → r ≠ 0 → r ∉ l ++ [q] → m !! q = Some tq → next tr = 0 →
  chain next (<[r := tr]> (<[q := set_next r tq]> m)) h (l ++ [q; r]).
Proof.
  revert h. induction l as [|p l IH]; intros h Hc Hnd Hr0 Hr Hq Htr; cbn in *.
  - destruct Hc as (-> & H0 & t & Ht & Hz). split_and!; [done|done|]. apply not_elem_of_cons in Hr as [Hrq _].
    exists (set_next r tq). rewrite lookup_insert_ne, lookup_insert_eq by done. split_and!; [done|done|done|].
    exists tr. by rewrite lookup_insert_eq.
  - destruct Hc as (-> & H0 & t & Ht & Hc). apply NoDup_cons in Hnd as [Hp Hnd]. apply not_elem_of_cons in Hr as [Hrp Hr].
    split_and!; [done|done|]. exists t. assert (p ≠ q) by (intros ->; apply Hp, elem_of_app; right; by left).
    rewrite !lookup_insert_ne by done. split; [done|]. by apply IH.
Qed.

Lemma chain_unlink m h l1 a p l2 ta tp :
  chain next m h (l1 ++ a :: p :: l2) → NoDup (l1 ++ a :: p :: l2) → m !! a = Some ta → m !! p = Some tp →
  chain next (<[a := set_next (next tp) ta]> m) h (l1 ++ a :: l2).
Proof.
  revert h. induction l1 as [|x l1 IH]; intros h Hc Hnd Ha Hp; cbn in *.
  - destruct Hc as (-> & H0 & t & Ht & Hz & _ & tp' & Htp & Hc). assert (tp' = tp) as -> by congruence.
    apply NoDup_cons in Hnd as [Hna Hnd]. split_and!; [done|done|]. exists (set_next (next tp) ta). rewrite lookup_insert_eq.
    split; [done|]. apply chain_other; [|done]. intros Hin. apply Hna. by right.
  - destruct Hc as (-> & H0 & t & Ht & Hc). apply NoDup_cons in Hnd as [Hx Hnd]. split_and!; [done|done|]. exists t.
    assert (x ≠ a) by (intros ->; apply Hx, elem_of_app; right; by left). rewrite lookup_insert_ne by done.
    split; [done|]. by apply IH.
Qed.
End queue.
End TaskQueue.

(** * The life of tasks

    Every operation keeps the queues well formed; the scheduler is round
    robin, a task resumes where it stopped, and its exit status can be asked
    for after its death. *)

Module TaskSpec.
Import Task TaskQueue.

Section spec.
Context {P N : Type} `{Sockets N}.
Abbreviation task := (task P).
Abbreviation ts := (ts P N).
Implicit Types (s : ts) (t u : task) (rq zq : list Z).

(** In the store [m] the ready queue from [r] on is [rq], the zombies from
    [zh] on are [zq], and the reaper still has [dq] to free, from [z] on. *)
Record links (m : gmap Z task) (r zh z : Z) rq zq dq : Prop := {
  li_ready : chain next m r rq;
  li_zombies : chain reap_next m zh zq;
  li_detached : chain reap_next m z dq;
  li_nodup : NoDup (rq ++ zq ++ dq);
  li_dom p : is_Some (m !! p) → p ∈ rq ++ zq ++ dq;
}.

Lemma links_same m r zh z rq zq dq p t t' :
  links m r zh z rq zq dq → m !! p = Some t → next t' = next t → reap_next t' = reap_next t →
  links (<[p := t']> m) r zh z rq zq dq.
Proof.
  intros [] Hp E1 E2. constructor; try done; try by eapply chain_same.
  intros q. rewrite lookup_insert_is_Some'. intros [<-|Hq]; [|by apply li_dom0]. by apply li_dom0.
Qed.

(** A new task at the end of the ready queue. *)
Lemma links_append m r zh z l q zq dq p tq tp :
  links m r zh z (l ++ [q]) zq dq → m !! q = Some tq → m !! p = None → p ≠ 0 → next tp = 0 →
  links (<[p := tp]> (<[q := set_next p tq]> m)) r zh z (l ++ [q; p]) zq dq.
Proof.
  intros [] Hq Hp Hp0 Hn. pose proof li_nodup0 as Hnd. apply NoDup_app in Hnd as (Hnd & Hd1 & Hnd2).
  assert (∀ x, x ∈ (l ++ [q]) ++ zq ++ dq → x ≠ p) as Hfresh.
  { intros x Hx ->. rewrite !elem_of_app in Hx.
    assert (is_Some (m !! p)) as [? ?]; [|congruence]. rewrite <- elem_of_app in Hx.
    destruct Hx as [Hx|[Hx|Hx]]; [by apply (chain_in _ _ _ _ p li_ready0)|by apply (chain_in _ _ _ _ p li_zombies0)|by apply (chain_in _ _ _ _ p li_detached0)]. }
  assert (∀ x, x ∈ zq ++ dq → x ≠ q) as Hq2 by (intros x Hx ->; apply (Hd1 q); [apply elem_of_app; right; by left|done]).
  assert (∀ h l', (∀ x, x ∈ l' → x ∈ zq ++ dq) → chain reap_next m h l' → chain reap_next (<[p := tp]> (<[q := set_next p tq]> m)) h l') as Hc.
  { intros h l' Hl Hc. apply chain_other; [intros Hx; eapply Hfresh; [|done]; apply elem_of_app; right; by apply Hl|].
    apply chain_other; [intros Hx; by apply (Hq2 q); [apply Hl|]|done]. }
  constructor.
  - apply chain_append; try done. intros Hx. eapply Hfresh; [|done]. apply elem_of_app. by left.
  - apply Hc; [|done]. intros x Hx. apply elem_of_app. by left.
  - apply Hc; [|done]. intros x Hx. apply elem_of_app. by right.
  - replace (l ++ [q; p]) with ((l ++ [q]) ++ [p]) by by rewrite <- app_assoc. rewrite <- app_assoc.
    rewrite (Permutation_app_comm [p]), (app_assoc (l ++ [q])), Permutation_app_comm. cbn. apply NoDup_cons. split; [|done].
    intros Hx. by eapply Hfresh.
  - intros x. rewrite !lookup_insert_is_Some'. rewrite !elem_of_app, !elem_of_cons. intros [<-|[<-|Hx]]; [tauto|tauto|].
    apply li_dom0 in Hx. rewrite !elem_of_app, !elem_of_cons in Hx. tauto.
Qed.

(** A task that died goes from the ready queue to the zombies, whatever the
    store has become that relinks the ready queue. *)
Lemma links_bury m m' r r' zh z l1 p l2 zq dq tp :
  links m r zh z (l1 ++ p :: l2) zq dq → chain next m' r' (l1 ++ l2) → dom m' = dom m →
  (∀ x t, x ≠ p → m !! x = Some t → ∃ t', m' !! x = Some t' ∧ reap_next t' = reap_next t) → m' !! p = Some tp →
  links (<[p := set_reap_next zh tp]> m') r' p z (l1 ++ l2) (p :: zq) dq.
Proof.
  intros [] Hr Hdom Hrest Hp.
  assert (Permutation ((l1 ++ p :: l2) ++ zq ++ dq) (p :: (l1 ++ l2) ++ zq ++ dq)) as Hperm by by rewrite <- Permutation_middle.
  rewrite Hperm in li_nodup0. apply NoDup_cons in li_nodup0 as [Hnp Hnd]. rewrite !elem_of_app in Hnp.
  assert (p ≠ 0) as H0 by (eapply (chain_in _ _ _ _ p li_ready0), elem_of_app; right; by left).
  assert (∀ l' h, p ∉ l' → chain reap_next m h l' → chain reap_next (<[p := set_reap_next zh tp]> m') h l') as Hc.
  { induction l' as [|x l' IH]; intros h Hx; [done|]. intros (-> & Hx0 & t & Ht & Hc). apply not_elem_of_cons in Hx as [Hx1 Hx2].
    destruct (Hrest x t) as (t' & Ht' & E); [done|done|]. split_and!; [done|done|]. exists t'.
    rewrite lookup_insert_ne by done. split; [done|]. rewrite E. by apply IH. }
  constructor.
  - apply chain_other; [|done]. rewrite elem_of_app. tauto.
  - split_and!; [done|done|]. eexists. rewrite lookup_insert_eq. split; [done|]. apply Hc; [tauto|done].
  - apply Hc; [tauto|done].
  - change ((p :: zq) ++ dq) with (p :: zq ++ dq). rewrite <- Permutation_middle. apply NoDup_cons. split; [|done]. rewrite !elem_of_app. tauto.
  - change ((p :: zq) ++ dq) with (p :: zq ++ dq). intros x. rewrite lookup_insert_is_Some'. rewrite <- Permutation_middle. intros [<-|Hx]; [by left|].
    rewrite <- Hperm. apply li_dom0. apply elem_of_dom. rewrite <- Hdom. by apply elem_of_dom.
Qed.

Lemma links_reap m r zh z rq zq dq t :
  links m r zh z rq zq (z :: dq) → m !! z = Some t → links (delete z m) r zh (reap_next t) rq zq dq.
Proof.
  intros [] Ht. destruct li_detached0 as (_ & H0 & t' & Ht' & Hd). assert (t' = t) as -> by congruence.
  assert (Permutation (rq ++ zq ++ z :: dq) (z :: rq ++ zq ++ dq)) as Hperm by by rewrite !app_assoc, <- Permutation_middle.
  rewrite Hperm in li_nodup0. apply NoDup_cons in li_nodup0 as [Hnz Hnd]. rewrite !elem_of_app in Hnz.
  constructor; try (apply chain_delete; [tauto|done]); [done|].
  intros x [u [Hx Hu]%lookup_delete_Some]. assert (x ∈ rq ++ zq ++ z :: dq) as Hin by by apply li_dom0.
  rewrite Hperm in Hin. apply elem_of_cons in Hin as [->|]; done.
Qed.

Lemma links_swap m r zh rq zq : links m r zh 0 rq zq [] → links m r 0 zh rq [] zq.
Proof. intros []. constructor; try done. - by rewrite app_nil_r in li_nodup0. - intros p Hp. specialize (li_dom0 p Hp). by rewrite app_nil_r in li_dom0. Qed.

(** The pids of the tasks are distinct numbers below [n]. *)
Definition pids (m : gmap Z task) (n : Z) : Prop :=
  (∀ p t, m !! p = Some t → 0 ≤ id t < n) ∧
  (∀ p q t u, m !! p = Some t → m !! q = Some u → id t = id u → p = q).

Lemma pids_same m n p t t' : pids m n → m !! p = Some t → id t' = id t → pids (<[p := t']> m) n.
Proof.
  intros [H1 H2] Hp E. assert (∀ q u, <[p := t']> m !! q = Some u → ∃ u0, m !! q = Some u0 ∧ id u = id u0) as Hold.
  { intros q u. destruct (decide (q = p)) as [->|]; [rewrite lookup_insert_eq; intros [= <-]; by exists t|].
    rewrite lookup_insert_ne by done. intros Hq. by exists u. }
  split.
  - intros q u Hq. destruct (Hold q u Hq) as (u0 & Hu & ->). by eapply H1.
  - intros q q' u v Hq Hr Ei. destruct (Hold q u Hq) as (u0 & Hu & Eu), (Hold q' v Hr) as (v0 & Hv & Ev).
    apply (H2 q q' u0 v0); congruence.
Qed.

Lemma pids_new m n p t : pids m n → 0 ≤ n → id t = n → pids (<[p := t]> m) (n + 1).
Proof.
  intros [H1 H2] Hn E. split.
  - intros q u [[-> <-]|[Hne Hq]]%lookup_insert_Some; [lia|]. apply H1 in Hq. lia.
  - intros q q' u v [[-> <-]|[Hne Hq]]%lookup_insert_Some [[<- <-]|[Hne' Hr]]%lookup_insert_Some Ei; [done| | |].
    + apply H1 in Hr. lia.
    + apply H1 in Hq. lia.
    + by eapply H2.
Qed.

Lemma pids_delete m n p : pids m n → pids (delete p m) n.
Proof.
  intros [H1 H2]. split.
  - intros q u [_ Hq]%lookup_delete_Some. by eapply H1.
  - intros q q' u v [_ Hq]%lookup_delete_Some [_ Hr]%lookup_delete_Some. by eapply H2.
Qed.

(** What holds between the operations; [z] is where the reaper is. *)
Record queues s (z : Z) rq zq dq : Prop := {
  qu_links : links (tasks s) (ready_queue s) (zombie_queue s) z rq zq dq;
  qu_pids : pids (tasks s) (next_pid s);
  qu_next : 0 ≤ next_pid s;
  qu_heap : NoDup (heap s) ∧ Forall (λ p, p ≠ 0 ∧ tasks s !! p = None ∧ pipes (objs s) !! p = None) (heap s);
  qu_records : length (exit_records s) = 32%nat ∧ 0 ≤ exit_record_next s < EXIT_RECORDS;
}.

(** ** Scheduling *)

(** The state after a switch from [cur] to [q], which is [u]. *)
Record switched s s' (cur q sp : Z) t u : Prop := {
  sw_tasks : tasks s' = <[cur := set_esp sp t]> (tasks s);
  sw_current : current_task s' = q;
  sw_dir : page_directory u ≠ 0 → Paging.current_directory (mem s') = page_directory u;
  sw_esp0 : kstack_top u ≠ 0 → esp0 s' = kstack_top u;
  sw_ready : ready_queue s' = ready_queue s;
  sw_zombies : zombie_queue s' = zombie_queue s;
  sw_pid : next_pid s' = next_pid s;
  sw_heap : heap s' = heap s;
  sw_records : exit_records s' = exit_records s ∧ exit_record_next s' = exit_record_next s;
  sw_objs : objs s' = objs s;
}.

Lemma load_dir_spec t s :
  ∃ s', load_dir t s = Some (tt, s') ∧ (page_directory t ≠ 0 → Paging.current_directory (mem s') = page_directory t) ∧
    tasks s' = tasks s ∧ current_task s' = current_task s ∧ ready_queue s' = ready_queue s ∧ zombie_queue s' = zombie_queue s ∧
    next_pid s' = next_pid s ∧ heap s' = heap s ∧ exit_records s' = exit_records s ∧ exit_record_next s' = exit_record_next s ∧
    objs s' = objs s ∧ esp0 s' = esp0 s.
Proof.
  unfold load_dir, mbind, T_bind, get, upd, mret, T_ret.
  destruct (Z.eqb_spec (page_directory t) 0) as [Hz|Hz]; cbn [negb andb]; [eexists; split_and!; done|].
  destruct (Z.eqb_spec (page_directory t) (Paging.current_directory (mem s))) as [He|He]; cbn [negb]; eexists; split_and!; done.
Qed.

(** schedule goes to [next], or to the head of the queue at its end. *)
Lemma schedule_to s cur t sp :
  current_task s = cur → cur ≠ 0 → tasks s !! cur = Some t →
  let q := if negb (next t =? 0) then next t else ready_queue s in
  is_Some (tasks s !! q) →
  ∃ u s', <[cur := set_esp sp t]> (tasks s) !! q = Some u ∧ schedule sp s = Some (esp u, s') ∧ switched s s' cur q sp t u.
Proof.
  intros Hc Hc0 Ht q Hq. unfold schedule. unfold mbind at 1, T_bind at 1, get at 1. rewrite Hc. destruct (Z.eqb_spec cur 0); [done|].
  unfold mbind at 1, T_bind at 1, task_at at 1. rewrite Ht. unfold mbind at 1, T_bind at 1, put_task at 1, upd at 1.
  unfold mbind at 1, T_bind at 1, get at 1. cbn [ready_queue set_tasks]. fold q. unfold mbind at 1, T_bind at 1, upd at 1.
  assert (is_Some (<[cur := set_esp sp t]> (tasks s) !! q)) as [u Hu].
  { destruct (decide (q = cur)) as [->|]; [by rewrite lookup_insert_eq|by rewrite lookup_insert_ne]. }
  unfold mbind at 1, T_bind at 1, task_at at 1. cbn [tasks set_current set_tasks]. rewrite Hu.
  set (s1 := set_current q (set_tasks (<[cur := set_esp sp t]> (tasks s)) s)).
  destruct (load_dir_spec u s1) as (s2 & E2 & D1 & D2 & D3 & D4 & D5 & D6 & D7 & D8 & D9 & D10 & D11).
  unfold mbind at 1, T_bind at 1. rewrite E2. exists u.
  destruct (Z.eqb_spec (kstack_top u) 0) as [Hk|Hk]; cbn [negb]; eexists; (split; [done|]); (split; [done|]);
    constructor; cbn; rewrite ?D2, ?D3, ?D4, ?D5, ?D6, ?D7, ?D8, ?D9, ?D10; try done.
Qed.

(** Position [i] after position [j] on a ring of [n]. *)
Lemma ring_successor {A} (l : list A) i x : l !! i = Some x → default 0%nat (Some (S i mod length l)%nat) = (if decide (S i < length l)%nat then S i else 0%nat).
Proof.
  intros Hi. apply lookup_lt_Some in Hi. cbn. case_decide; [by apply Nat.mod_small|].
  replace (S i) with (length l) by lia. apply Nat.Div0.mod_same.
Qed.

(** A switch keeps the queues. *)
Lemma queues_switched s s' z rq zq dq cur q sp t u :
  queues s z rq zq dq → tasks s !! cur = Some t → switched s s' cur q sp t u → queues s' z rq zq dq.
Proof.
  intros [] Ht [S1 S2 S3 S4 S5 S6 S7 S8 [S9 S10] S11]. constructor; rewrite ?S1, ?S5, ?S6, ?S7, ?S8, ?S9, ?S10, ?S11; try done.
  - by eapply links_same.
  - by eapply pids_same.
  - destruct qu_heap0 as [Hn Hf]. split; [done|]. eapply Forall_impl; [exact Hf|]. intros p (H0 & Hp & Hpp). split_and!; [done| |done].
    rewrite lookup_insert_ne; [done|]. intros <-. congruence.
Qed.

(** The task at position [i] of the ready queue is followed by the one at
    position [i + 1], around the end. *)
Lemma schedule_spec s z rq zq dq i cur sp :
  queues s z rq zq dq → current_task s = cur → rq !! i = Some cur →
  ∃ q t u s', rq !! (S i mod length rq)%nat = Some q ∧ tasks s !! cur = Some t ∧
    <[cur := set_esp sp t]> (tasks s) !! q = Some u ∧ schedule sp s = Some (esp u, s') ∧ switched s s' cur q sp t u ∧
    queues s' z rq zq dq.
Proof.
  intros Hq Hc Hi. pose proof (li_ready _ _ _ _ _ _ _ (qu_links _ _ _ _ _ Hq)) as Hr.
  destruct (chain_lookup _ _ _ _ _ _ Hr Hi) as (t & Ht & Hn & H0).
  pose proof (ring_successor rq i cur Hi) as Hmod. cbn in Hmod. rewrite Hmod.
  set (q := if negb (next t =? 0) then next t else ready_queue s).
  assert (rq !! (if decide (S i < length rq)%nat then S i else 0%nat) = Some q) as Hrq.
  { unfold q. rewrite Hn. case_decide as E.
    - destruct (lookup_lt_is_Some_2 rq (S i) E) as [x Hx]. rewrite Hx. cbn.
      destruct (chain_lookup _ _ _ _ _ _ Hr Hx) as (_ & _ & _ & Hx0). destruct (Z.eqb_spec x 0); done.
    - rewrite (lookup_ge_None_2 rq (S i)) by lia. cbn. rewrite (chain_head _ _ _ _ Hr). destruct rq; [done|done]. }
  assert (is_Some (tasks s !! q)) as Hqs by (eapply (chain_in _ _ _ _ q Hr), list_elem_of_lookup_2, Hrq).
  destruct (schedule_to s cur t sp Hc H0 Ht Hqs) as (u & s' & Hu & E & Hsw). fold q in Hu, Hsw.
  exists q, t, u, s'. split_and!; try done. by eapply queues_switched.
Qed.
End spec.
End TaskSpec.
