(* ===== verification/TaskOps.v ===== *)
(** * What the operations on tasks do

    Creation, death and reaping, each as the list operation it performs on
    the queues.  The operations are followed through whatever the components
    they call return. *)

From S2P Require Import Prelude Pipe Paging Wsurf Fb Task.

Module TaskOps.
Import Task TaskQueue TaskSpec.

Section ops.
Context {P N : Type} `{Sockets N}.
Abbreviation task := (task P).
Abbreviation ts := (ts P N).
Implicit Types (s : ts) (t u : task) (rq zq dq : list Z).

Lemma bind_inv {A C} (c : T A) (f : A → T C) (s : ts) r :
  @mbind (@T P N) T_bind A C f c s = Some r → ∃ a s1, c s = Some (a, s1) ∧ f a s1 = Some r.
Proof. unfold mbind, T_bind. destruct (c s) as [[a s1]|]; [|done]. intros E. by exists a, s1. Qed.

Lemma task_at_inv p s t s1 : task_at p s = Some (t, s1) → s1 = s ∧ tasks s !! p = Some t.
Proof. unfold task_at. destruct (tasks s !! p) as [u|] eqn:E; [|done]. by intros [= <- <-]. Qed.

Lemma get_inv {A} (f : ts → A) s a s1 : get f s = Some (a, s1) → a = f s ∧ s1 = s.
Proof. unfold get. by intros [= <- <-]. Qed.

Lemma kmalloc_inv s p s1 : kmalloc s = Some (p, s1) → ∃ l, heap s = p :: l ∧ s1 = set_heap l s.
Proof. unfold kmalloc. destruct (heap s) as [|q l]; [done|]. intros [= <- <-]. by exists l. Qed.

(** ** Release of what a task holds *)

(** The task at [p] is [t], its descriptors are now [l], the objects [o]. *)
Record released s s' (p code : Z) t (l : list (file P)) (o : objects N) : Prop := {
  re_task : tasks s !! p = Some t;
  re_files : close_files (files t) (objs s) = Some (l, o);
  re_tasks : tasks s' = <[p := set_files l t]> (tasks s);
  re_objs : objs s' = o;
  re_current : current_task s' = current_task s;
  re_ready : ready_queue s' = ready_queue s;
  re_zombies : zombie_queue s' = zombie_queue s;
  re_pid : next_pid s' = next_pid s;
  re_heap : heap s' = heap s;
  re_records : exit_records s' = <[Z.to_nat (exit_record_next s) := (id t, code)]> (exit_records s);
  re_record : exit_record_next s' = (exit_record_next s + 1) mod EXIT_RECORDS;
  re_display : display s' = Fb.fb_task_exit (id t) (display s);
  re_surfaces : Wsurf.wsurf_task_exit (id t) (page_directory t) (surfaces s) = Some (surfaces s');
}.

Lemma release_task_inv p code s s' : release_task p code s = Some (tt, s') → ∃ t l o, released s s' p code t l o.
Proof.
  unfold release_task. intros ([] & s1 & E1 & E)%bind_inv. unfold close_all_files in E1.
  apply bind_inv in E1 as (t & s0 & [-> Ht]%task_at_inv & E1). apply bind_inv in E1 as (o0 & s0 & [= <- <-] & E1).
  destruct (close_files (files t) (objs s)) as [[l o]|] eqn:Ec; [|discriminate E1].
  apply bind_inv in E1 as ([] & s0 & [= <-] & [= <-]). apply bind_inv in E as (t1 & s0 & [-> Ht1]%task_at_inv & E).
  cbn in Ht1. rewrite lookup_insert_eq in Ht1. injection Ht1 as <-.
  apply bind_inv in E as ([] & s0 & [= <-] & E). apply bind_inv in E as (w & s0 & [= <- <-] & E). cbn in E.
  destruct (Wsurf.wsurf_task_exit (id t) (page_directory t) (surfaces s)) as [w|] eqn:Ew; [|discriminate E].
  apply bind_inv in E as ([] & s0 & [= <-] & [= <-]). exists t, l, o. by constructor.
Qed.

Lemma heap_same s s' p t' :
  is_Some (tasks s !! p) → tasks s' = <[p := t']> (tasks s) → heap s' = heap s → (∀ q, pipes (objs s) !! q = None → pipes (objs s') !! q = None) →
  NoDup (heap s) ∧ Forall (λ q, q ≠ 0 ∧ tasks s !! q = None ∧ pipes (objs s) !! q = None) (heap s) →
  NoDup (heap s') ∧ Forall (λ q, q ≠ 0 ∧ tasks s' !! q = None ∧ pipes (objs s') !! q = None) (heap s').
Proof.
  intros [t Ht] E1 E2 Hp [Hn Hf]. rewrite E2. split; [done|]. eapply Forall_impl; [exact Hf|]. intros q (H0 & Hq & Hqp). split_and!; [done| |by apply Hp].
  rewrite E1, lookup_insert_ne; [done|]. intros <-. congruence.
Qed.

Lemma insert_links (m : gmap Z task) p t u :
  m !! p = Some t → reap_next u = reap_next t →
  dom (<[p := u]> m) = dom m ∧ ∀ x v, m !! x = Some v → ∃ v', <[p := u]> m !! x = Some v' ∧ reap_next v' = reap_next v.
Proof.
  intros Hp E. split; [apply dom_insert_lookup_L; by exists t|]. intros x v Hx. destruct (decide (x = p)) as [->|].
  - exists u. rewrite lookup_insert_eq. split; [done|]. congruence.
  - exists v. by rewrite lookup_insert_ne.
Qed.

(** A task at the head of the ready queue, or behind the task [a], dies. *)
Lemma bury_head (m : gmap Z task) r zh z p l2 zq dq t l :
  links m r zh z (p :: l2) zq dq → m !! p = Some t →
  links (<[p := set_reap_next zh (set_files l t)]> (<[p := set_files l t]> m)) (next t) p z l2 (p :: zq) dq.
Proof.
  intros Hl Hp. destruct (insert_links m p t (set_files l t) Hp eq_refl) as [Hd Hr].
  apply (links_bury m _ r (next t) zh z [] p l2); [done| |done|intros x v _; apply Hr|by rewrite lookup_insert_eq].
  pose proof (li_ready _ _ _ _ _ _ _ Hl) as (_ & _ & t' & Ht' & Hc). assert (t' = t) as -> by congruence. by eapply chain_same.
Qed.

Lemma bury_behind (m : gmap Z task) r zh z l1 a p l2 zq dq t ta l :
  links m r zh z (l1 ++ a :: p :: l2) zq dq → m !! p = Some t → m !! a = Some ta →
  links (<[p := set_reap_next zh (set_files l t)]> (<[a := set_next (next t) ta]> (<[p := set_files l t]> m)))
    r p z (l1 ++ a :: l2) (p :: zq) dq.
Proof.
  intros Hl Hp Ha. pose proof (li_nodup _ _ _ _ _ _ _ Hl) as Hnd. apply NoDup_app in Hnd as (Hnd & _).
  assert (a ≠ p) as Hne by (intros ->; apply NoDup_app in Hnd as (_ & _ & Hnd); apply NoDup_cons in Hnd as [Hn _]; apply Hn; by left).
  assert (<[p := set_files l t]> m !! a = Some ta) as Ha' by by rewrite lookup_insert_ne.
  destruct (insert_links m p t (set_files l t) Hp eq_refl) as [Hd Hr].
  destruct (insert_links (<[p := set_files l t]> m) a ta (set_next (next t) ta) Ha' eq_refl) as [Hd' Hr'].
  replace (l1 ++ a :: l2) with ((l1 ++ [a]) ++ l2) by by rewrite <- app_assoc.
  apply (links_bury m _ r r zh z (l1 ++ [a]) p l2).
  - by rewrite <- app_assoc.
  - rewrite <- app_assoc. cbn [app].
    apply (chain_unlink (<[p := set_files l t]> m) r l1 a p l2 ta (set_files l t)); [|done|done|by rewrite lookup_insert_eq].
    eapply chain_same; [done|done|]. exact (li_ready _ _ _ _ _ _ _ Hl).
  - by rewrite Hd', Hd.
  - intros x v _ Hx. destruct (Hr x v Hx) as (v1 & H1 & E1). destruct (Hr' x v1 H1) as (v2 & H2 & E2). exists v2. by rewrite E2.
  - by rewrite lookup_insert_ne, lookup_insert_eq.
Qed.

(** Closing creates no pipe. *)
Lemma close_files_none (l l' : list (file P)) (o o' : objects N) q :
  close_files l o = Some (l', o') → pipes o !! q = None → pipes o' !! q = None.
Proof.
  revert l' o. induction l as [|f l IH]; intros l' o; cbn [close_files]; [by intros [= <- <-]|].
  assert (∀ o1, file_release f o = Some o1 → pipes o !! q = None → pipes o1 !! q = None) as Hf.
  { intros o1. unfold file_release. destruct (is_pipe f).
    - destruct (pipes o !! f_pipe f) as [pp|] eqn:Ep; cbn; [|done]. intros [= <-] Hq.
      destruct ((_ =? 0) && (_ =? 0)); cbn; [by apply lookup_delete_None; right|].
      rewrite lookup_insert_ne; [done|]. intros <-. congruence.
    - destruct (is_socket f); by intros [= <-]. }
  destruct (negb (f_type f =? FD_NONE)); cbn.
  - unfold file_close. destruct (file_release f o) as [o1|] eqn:E; cbn; [|done].
    destruct (close_files l o1) as [[l1 o2]|] eqn:E1; cbn; [|done]. intros [= <- <-] Hq. eapply IH; [done|]. by apply Hf.
  - destruct (close_files l o) as [[l1 o2]|] eqn:E1; cbn; [|done]. intros [= <- <-] Hq. by eapply IH.
Qed.

(** ** Death *)

(** The task [t] at [p] has died with [code]: it is the first of the zombies,
    its descriptors are [l] and the objects are [o]. *)
Record died s s' (z p code : Z) t (l : list (file P)) (o : objects N) rq zq dq : Prop := {
  di_task : tasks s !! p = Some t;
  di_close : close_files (files t) (objs s) = Some (l, o);
  di_queues : queues s' z rq (p :: zq) dq;
  di_files : files <$> tasks s' = <[p := l]> (files <$> tasks s);
  di_ids : id <$> tasks s' = id <$> tasks s;
  di_self : ∃ t', tasks s' !! p = Some t' ∧ next t' = next t;
  di_objs : objs s' = o;
  di_current : current_task s' = current_task s;
  di_pid : next_pid s' = next_pid s;
  di_heap : heap s' = heap s;
  di_records : exit_records s' = <[Z.to_nat (exit_record_next s) := (id t, code)]> (exit_records s);
  di_record : exit_record_next s' = (exit_record_next s + 1) mod EXIT_RECORDS;
  di_display : display s' = Fb.fb_task_exit (id t) (display s);
  di_surfaces : Wsurf.wsurf_task_exit (id t) (page_directory t) (surfaces s) = Some (surfaces s');
}.

(** The store after a death: the links of some tasks have changed, and the
    descriptors of the dead one. *)
Record buried (m m' : gmap Z task) (p : Z) t l : Prop := {
  bu_files : files <$> m' = <[p := l]> (files <$> m);
  bu_ids : id <$> m' = id <$> m;
  bu_self : ∃ t', m' !! p = Some t' ∧ next t' = next t;
}.

Lemma buried_head (m : gmap Z task) p t l zh :
  m !! p = Some t → buried m (<[p := set_reap_next zh (set_files l t)]> (<[p := set_files l t]> m)) p t l.
Proof.
  intros Hp. rewrite insert_insert_eq. constructor.
  - by rewrite fmap_insert.
  - rewrite fmap_insert. apply insert_id. by rewrite lookup_fmap, Hp.
  - eexists. by rewrite lookup_insert_eq.
Qed.

Lemma buried_behind (m : gmap Z task) p t l zh a ta :
  m !! p = Some t → m !! a = Some ta → a ≠ p →
  buried m (<[p := set_reap_next zh (set_files l t)]> (<[a := set_next (next t) ta]> (<[p := set_files l t]> m))) p t l.
Proof.
  intros Hp Ha Hne. constructor.
  - rewrite !fmap_insert. cbn [files set_reap_next set_files set_next]. rewrite insert_insert_ne by done. rewrite insert_insert_eq.
    rewrite insert_insert_ne by done. f_equal. apply insert_id. by rewrite lookup_fmap, Ha.
  - rewrite !fmap_insert. cbn [id set_reap_next set_files set_next]. rewrite insert_insert_ne by done. rewrite insert_insert_eq.
    rewrite insert_insert_ne by done. rewrite (insert_id _ a), insert_id; [done|by rewrite lookup_fmap, Hp|by rewrite lookup_fmap, Ha].
  - eexists. by rewrite lookup_insert_eq.
Qed.

Lemma pids_ids (m m' : gmap Z task) n : id <$> m' = id <$> m → pids m n → pids m' n.
Proof.
  intros E [H1 H2].
  assert (∀ p t, m' !! p = Some t → ∃ u, m !! p = Some u ∧ id u = id t) as Hold.
  { intros p t Hp. assert ((id <$> m) !! p = Some (id t)) as Hi by by rewrite <- E, lookup_fmap, Hp.
    rewrite lookup_fmap in Hi. apply fmap_Some in Hi as (u & ? & ?). by exists u. }
  split.
  - intros p t Hp. destruct (Hold p t Hp) as (u & Hu & <-). by eapply H1.
  - intros p q t u Hp Hq Ei. destruct (Hold p t Hp) as (t0 & Ht & Et), (Hold q u Hq) as (u0 & Hu & Eu).
    apply (H2 p q t0 u0); congruence.
Qed.

Lemma buried_none (m m' : gmap Z task) p t l q : buried m m' p t l → m !! q = None → m' !! q = None.
Proof.
  intros [_ E _] Hq. assert ((id <$> m') !! q = None) as Hi by by rewrite E, lookup_fmap, Hq.
  rewrite lookup_fmap in Hi. by apply fmap_None in Hi.
Qed.

(** The last step of a death: from the released state with the store
    relinked to the zombie. *)
Lemma died_intro s s1 s' (z p code : Z) t l o rq0 rq zq dq :
  queues s z rq0 zq dq → released s s1 p code t l o → buried (tasks s) (tasks s') p t l →
  links (tasks s') (ready_queue s') p z rq (p :: zq) dq →
  zombie_queue s' = p → objs s' = objs s1 → current_task s' = current_task s1 → next_pid s' = next_pid s1 → heap s' = heap s1 →
  exit_records s' = exit_records s1 → exit_record_next s' = exit_record_next s1 → display s' = display s1 → surfaces s' = surfaces s1 →
  died s s' z p code t l o rq zq dq.
Proof.
  intros [Ql Qp Qn [Qh1 Qh2] [Qr1 Qr2]] [R1 R2 R3 R4 R5 R6 R7 R8 R9 R10 R11 R12 R13] Hb Hl Ez Eo Ec En Eh Er1 Er2 Ed Es.
  pose proof Hb as []. constructor; try done; try congruence.
  constructor.
  - by rewrite Ez.
  - rewrite En, R8. by eapply pids_ids.
  - by rewrite En, R8.
  - rewrite Eh, R9. split; [done|]. eapply Forall_impl; [exact Qh2|]. intros q (H0 & Hq & Hqp). split_and!; [done|by eapply buried_none|].
    rewrite Eo, R4. by eapply close_files_none.
  - rewrite Er1, Er2, R10, R11, length_insert. split; [done|]. apply Z.mod_pos_bound. done.
Qed.

(** The ready queue around the dying task. *)
Lemma chain_head_split (m : gmap Z task) l1 p l2 : chain next m p (l1 ++ p :: l2) → NoDup (l1 ++ p :: l2) → l1 = [].
Proof.
  destruct l1 as [|x l1]; [done|]. intros (<- & _) Hnd. apply NoDup_cons in Hnd as [Hn _]. exfalso. apply Hn, elem_of_app. right. by left.
Qed.

Lemma make_zombie_inv p s s' : make_zombie p s = Some (tt, s') →
  ∃ t, tasks s !! p = Some t ∧ s' = set_zombies p (set_tasks (<[p := set_reap_next (zombie_queue s) t]> (tasks s)) s).
Proof.
  unfold make_zombie. intros (t & s0 & [-> Ht]%task_at_inv & E)%bind_inv. apply bind_inv in E as (zh & s0 & [= <- <-] & E).
  apply bind_inv in E as ([] & s0 & [= <-] & [= <-]). by exists t.
Qed.

Lemma NoDup_behind (l1 l2 : list Z) a p : NoDup (l1 ++ a :: p :: l2) → (p ∉ l1) ∧ (a ≠ p).
Proof.
  intros (_ & H1 & H2)%NoDup_app. split; [intros Hp; apply (H1 p Hp); right; by left|].
  intros ->. apply NoDup_cons in H2 as [H2 _]. apply H2. by left.
Qed.

Lemma exit_inv code s s' z l1 cur l2 zq dq :
  queues s z (l1 ++ cur :: l2) zq dq → current_task s = cur → exit code s = Some (tt, s') →
  ∃ t l o, died s s' z cur code t l o (l1 ++ l2) zq dq ∧ next t = default 0 (head l2) ∧ l1 ++ l2 ≠ [].
Proof.
  intros Hq Hc E. pose proof (qu_links _ _ _ _ _ Hq) as Hl. pose proof (li_ready _ _ _ _ _ _ _ Hl) as Hr.
  pose proof (li_nodup _ _ _ _ _ _ _ Hl) as Hnd. apply NoDup_app in Hnd as (Hnd & _).
  unfold exit in E. apply bind_inv in E as (c & s0 & [= <- <-] & E). apply bind_inv in E as (r & s0 & [= <- <-] & E).
  apply bind_inv in E as (t0 & s0 & [-> Ht0]%task_at_inv & E). rewrite Hc in *.
  destruct ((cur =? ready_queue s) && (next t0 =? 0)) eqn:Elast; [discriminate E|].
  apply bind_inv in E as ([] & s1 & (t & l & o & Hrel)%release_task_inv & E). pose proof Hrel as [R1 R2 R3 R4 R5 R6 R7 R8 R9 R10 R11 R12 R13].
  assert (t0 = t) as -> by congruence. clear Ht0.
  assert (next t = default 0 (head l2)) as Hn.
  { assert ((l1 ++ cur :: l2) !! length l1 = Some cur) as Hi by by apply list_lookup_middle.
    destruct (chain_lookup _ _ _ _ _ _ Hr Hi) as (t' & Ht' & Hn & _). assert (t' = t) as -> by congruence. rewrite Hn.
    rewrite lookup_app_r by lia. replace (S (length l1) - length l1)%nat with 1%nat by lia. by destruct l2. }
  apply bind_inv in E as (t1 & s0 & [-> Ht1]%task_at_inv & E). rewrite R3, lookup_insert_eq in Ht1. injection Ht1 as <-.
  exists t, l, o. cut (died s s' z cur code t l o (l1 ++ l2) zq dq ∧ (l1 ++ l2 ≠ [])); [by intros [? ?]|].
  apply bind_inv in E as ([] & s2 & E2 & (tz & Htz & ->)%make_zombie_inv). destruct (Z.eqb_spec cur (ready_queue s)) as [Eh|Eh].
  - injection E2 as <-. cbn in Htz. rewrite R3, lookup_insert_eq in Htz. injection Htz as <-. cbn [andb] in Elast.
    rewrite <- Eh in Hr. pose proof (chain_head_split _ _ _ _ Hr Hnd) as ->. cbn [app] in *. split.
    + eapply died_intro; try done; cbn; rewrite R3, R7; [by apply buried_head|by apply (bury_head (tasks s) (ready_queue s))].
    + intros ->. cbn in Hn. by rewrite Hn in Elast.
  - assert (∃ l0 a, l1 = l0 ++ [a]) as (l0 & a & ->).
    { destruct l1 as [|x l1] using rev_ind; [|by eauto]. exfalso. apply Eh. by rewrite (chain_head _ _ _ _ Hr). }
    rewrite <- app_assoc in Hr, Hnd, Hl. cbn [app] in Hr, Hnd, Hl. destruct (NoDup_behind _ _ _ _ Hnd) as [Hp1 Hap].
    apply bind_inv in E2 as (pv & s0 & [= <- <-] & E2).
    assert (chain next (tasks s1) (ready_queue s) (l0 ++ a :: cur :: l2)) as Hr1 by (rewrite R3; by eapply chain_same).
    rewrite (find_prev_spec _ _ _ l0 a cur l2 Hr1) in E2; [|done|done|].
    2:{ pose proof (chain_size _ _ _ _ Hr1 Hnd) as Hs. rewrite length_app in Hs. cbn in Hs. lia. }
    apply bind_inv in E2 as (ta & s0 & [-> Hta]%task_at_inv & [= <-]). cbn in Htz. rewrite lookup_insert_ne in Htz by done.
    rewrite R3, lookup_insert_eq in Htz. injection Htz as <-. rewrite R3, lookup_insert_ne in Hta by done. split.
    + rewrite <- app_assoc. cbn [app]. eapply died_intro; try done; cbn; rewrite R3, R7; [by apply buried_behind|].
      rewrite R6. by apply (bury_behind (tasks s)).
    + by destruct l0.
Qed.

Lemma queue_fits s z rq zq dq : queues s z rq zq dq → (length rq ≤ size (tasks s))%nat.
Proof.
  intros Hq. pose proof (qu_links _ _ _ _ _ Hq) as []. eapply chain_size; [done|]. by apply NoDup_app in li_nodup0 as (? & _).
Qed.

(** task_kill either makes the caller exit, or finds no victim, or buries
    it. *)
Lemma kill_inv pid s r s' z rq zq dq i cur :
  queues s z rq zq dq → current_task s = cur → rq !! i = Some cur → task_kill pid s = Some (r, s') →
  (r = None ∧ has_pid (tasks s) pid cur ∧ exit (-9) s = Some (tt, s')) ∨
  (r = Some (-1) ∧ s' = s ∧ ∀ p, p ∈ rq → has_pid (tasks s) pid p → head rq = Some p) ∨
  (r = Some 0 ∧ ∃ l1 p l2 t l o, rq = l1 ++ p :: l2 ∧ l1 ≠ [] ∧ p ≠ cur ∧ id t = pid ∧ died s s' z p (-9) t l o (l1 ++ l2) zq dq).
Proof.
  intros Hq Hc Hi E. pose proof (queue_fits _ _ _ _ _ Hq) as Hsz.
  pose proof (qu_links _ _ _ _ _ Hq) as Hl. pose proof (li_ready _ _ _ _ _ _ _ Hl) as Hr.
  destruct (chain_lookup _ _ _ _ _ _ Hr Hi) as (tc & Htc & _ & Hc0).
  unfold task_kill in E. apply bind_inv in E as (c & s0 & [= <- <-] & E). rewrite Hc in E. destruct (Z.eqb_spec cur 0); [done|].
  apply bind_inv in E as (me & s0 & Eme & E). apply bind_inv in Eme as (t0 & s1 & [-> Ht0]%task_at_inv & [= <- <-]).
  assert (t0 = tc) as -> by congruence. destruct (Z.eqb_spec (id tc) pid) as [Eid|Eid].
  { left. apply bind_inv in E as ([] & s1 & Ex & [= <- <-]). split_and!; [done|by exists tc|done]. }
  right. apply bind_inv in E as (f & s0 & [-> ->]%get_inv & E). apply bind_inv in E as (q & s0 & [= <- <-] & E). cbv beta in E.
  destruct (find_pid_cases (S (size (tasks s))) (tasks s) (ready_queue s) rq 0 pid Hr) as [(q & Ef & Hno)|(l1 & p & l2 & -> & Hp & Hp0 & Ef)]; [lia| |].
  { rewrite Ef in E. injection E as <- <-. left. split_and!; [done|done|]. intros p Hin Hp. by destruct (Hno p Hin). }
  rewrite Ef in E. destruct (Z.eqb_spec p 0); [done|]. cbn [orb] in E.
  pose proof (li_nodup _ _ _ _ _ _ _ Hl) as Hnd. apply NoDup_app in Hnd as (Hnd & _).
  destruct (Z.eqb_spec p (ready_queue s)) as [Eh|Eh].
  { injection E as <- <-. left. rewrite <- Eh in Hr. pose proof (chain_head_split _ _ _ _ Hr Hnd) as ->.
    split_and!; [done|done|]. intros q Hin (tq & Htq & Eq). destruct Hp as (tp & Htp & Ep). cbn. f_equal.
    destruct (qu_pids _ _ _ _ _ Hq) as [_ Hinj]. by apply (Hinj p q tp tq); [| |congruence]. }
  right. assert (∃ l0 a, l1 = l0 ++ [a]) as (l0 & a & ->).
  { destruct l1 as [|x l1] using rev_ind; [|by eauto]. exfalso. apply Eh. by rewrite (chain_head _ _ _ _ Hr). }
  rewrite last_snoc in E. cbn [default] in E. apply bind_inv in E as (t & s0 & [-> Ht]%task_at_inv & E).
  apply bind_inv in E as (ta & s0 & [-> Hta]%task_at_inv & E). apply bind_inv in E as ([] & su & [= <-] & E).
  apply bind_inv in E as ([] & s1 & (t1 & l & o & Hrel)%release_task_inv & E).
  apply bind_inv in E as ([] & s2 & (tz & Htz & ->)%make_zombie_inv & [= <- <-]).
  rewrite <- app_assoc in Hr, Hnd, Hl. cbn [app] in Hr, Hnd, Hl. destruct (NoDup_behind _ _ _ _ Hnd) as [Hp1 Hap].
  destruct Hrel as [R1 R2 R3 R4 R5 R6 R7 R8 R9 R10 R11 R12 R13]. cbn in *. rewrite lookup_insert_ne in R1 by done. assert (t1 = t) as -> by congruence. clear Ht.
  rewrite R3, lookup_insert_eq in Htz. injection Htz as <-.
  assert (id t = pid) as Hid by (destruct Hp as (? & ? & ?); congruence).
  split; [done|]. exists (l0 ++ [a]), p, l2, t, l, o. split_and!; [done|by destruct l0|congruence|done|].
  rewrite <- app_assoc. cbn [app].
  eapply (died_intro s (set_tasks (<[p := set_files l t]> (tasks s)) s1)); try done; cbn.
  - rewrite R3, R7. rewrite (insert_insert_ne _ p a) by done. by apply buried_behind.
  - rewrite R3, R6, R7. rewrite (insert_insert_ne _ p a) by done. by apply (bury_behind (tasks s)).
Qed.

(** The switch that ends an exit goes to the task behind the dead one, or
    around to the head. *)
Lemma schedule_after_exit s s1 z cur code t l o l1 l2 zq dq sp :
  died s s1 z cur code t l o (l1 ++ l2) zq dq → current_task s = cur → cur ≠ 0 → next t = default 0 (head l2) → l1 ++ l2 ≠ [] →
  ∃ q t1 u s2, (l1 ++ l2) !! (length l1 mod length (l1 ++ l2))%nat = Some q ∧ tasks s1 !! cur = Some t1 ∧
    schedule sp s1 = Some (esp u, s2) ∧ switched s1 s2 cur q sp t1 u ∧ queues s2 z (l1 ++ l2) (cur :: zq) dq.
Proof.
  intros [] Hc Hc0 Hn Hne. destruct di_self0 as (t1 & Ht1 & En).
  pose proof (li_ready _ _ _ _ _ _ _ (qu_links _ _ _ _ _ di_queues0)) as Hr.
  set (q := if negb (next t1 =? 0) then next t1 else ready_queue s1).
  assert ((l1 ++ l2) !! (length l1 mod length (l1 ++ l2))%nat = Some q) as Hq.
  { unfold q. rewrite En, Hn. destruct l2 as [|x l2].
    - rewrite app_nil_r, Nat.Div0.mod_same in *. rewrite (chain_head _ _ _ _ Hr). by destruct l1.
    - rewrite Nat.mod_small by (rewrite length_app; cbn; lia). rewrite list_lookup_middle by done.
      destruct (chain_in _ _ _ _ x Hr) as [Hx _]; [apply elem_of_app; right; by left|]. change (default 0 (head (x :: l2))) with x. destruct (Z.eqb_spec x 0); done. }
  assert (is_Some (tasks s1 !! q)) as Hqs by (eapply (chain_in _ _ _ _ q Hr), list_elem_of_lookup_2, Hq).
  rewrite <- di_current0 in Hc. destruct (schedule_to s1 cur t1 sp Hc Hc0 Ht1 Hqs) as (u & s2 & Hu & E & Hsw).
  exists q, t1, u, s2. split_and!; try done. by eapply queues_switched.
Qed.

(** ** Reaping *)

Lemma reap_begin_spec s rq zq :
  queues s 0 rq zq [] → ∃ s', reap_begin s = Some (zombie_queue s, s') ∧ queues s' (zombie_queue s) rq [] zq ∧
    tasks s' = tasks s ∧ objs s' = objs s ∧ current_task s' = current_task s ∧ exit_records s' = exit_records s ∧
    exit_record_next s' = exit_record_next s ∧ next_pid s' = next_pid s ∧ heap s' = heap s.
Proof. intros []. eexists. split; [done|]. split; [|done]. constructor; try done. by apply links_swap. Qed.

Lemma reap_one_inv s z r s' rq zq dq :
  queues s z rq zq dq → z ≠ 0 → reap_one z s = Some (r, s') →
  ∃ dq', dq = z :: dq' ∧ queues s' r rq zq dq' ∧ tasks s' = delete z (tasks s) ∧ objs s' = objs s ∧ current_task s' = current_task s ∧
    exit_records s' = exit_records s ∧ exit_record_next s' = exit_record_next s ∧ next_pid s' = next_pid s ∧ heap s' = heap s.
Proof.
  intros Hq Hz E. unfold reap_one in E. apply bind_inv in E as (t & s0 & [-> Ht]%task_at_inv & E).
  apply bind_inv in E as ([] & s1 & E1 & E). apply bind_inv in E as ([] & s2 & [= <-] & [= <- <-]).
  assert (tasks s1 = tasks s ∧ objs s1 = objs s ∧ current_task s1 = current_task s ∧ exit_records s1 = exit_records s ∧
    exit_record_next s1 = exit_record_next s ∧ next_pid s1 = next_pid s ∧ heap s1 = heap s ∧ ready_queue s1 = ready_queue s ∧
    zombie_queue s1 = zombie_queue s) as (F1 & F2 & F3 & F4 & F5 & F6 & F7 & F8 & F9).
  { destruct (owns_dir t && negb (page_directory t =? 0)); [|by injection E1 as <-].
    apply bind_inv in E1 as (v & s3 & [-> ->]%get_inv & E1).
    destruct (Paging.free_directory (page_directory t) (mem s)) as [[[] v]|]; [|discriminate E1]. by injection E1 as <-. }
  destruct Hq as [Ql Qp Qn [Qh1 Qh2] Qr]. pose proof (li_detached _ _ _ _ _ _ _ Ql) as Hd.
  destruct dq as [|z' dq']; [done|]. destruct Hd as (<- & _). exists dq'. cbn [tasks set_tasks objs]. rewrite F1. split_and!; try done.
  constructor; cbn; rewrite ?F1, ?F2, ?F4, ?F5, ?F6, ?F7, ?F8, ?F9; try done.
  - by apply links_reap.
  - by apply pids_delete.
  - split; [done|]. eapply Forall_impl; [exact Qh2|]. intros q (H0 & Hq & Hqp). split_and!; [done| |done].
    apply lookup_delete_None. by right.
Qed.

(** ** Creation *)

(** What a new task is. *)
Record spawned s s' (p pid : Z) (entry dir user_esp : Z) (stdio : option (list (file P))) t : Prop := {
  sp_task : tasks s' !! p = Some t;
  sp_pid : id t = pid ∧ pid = next_pid s;
  sp_heap : stack_mem t ∈ heap s;
  sp_stack : user_esp ≠ 0 → kstack_top t = u32 (stack_mem t + STACK_SIZE);
  sp_frame : push_words (u32 (stack_mem t + STACK_SIZE)) (trap_frame entry user_esp) (kmem s) = (esp t, kmem s');
  sp_dir : page_directory t = (if decide (dir = 0) then Paging.current_directory (mem s) else dir);
  sp_files : files <$> tasks s' = <[p := new_files stdio]> (files <$> tasks s);
  sp_objs : match stdio with Some l => addref_files (take 3 l) (objs s) | None => Some (objs s) end = Some (objs s');
  sp_old q u : tasks s !! q = Some u → ∃ u', tasks s' !! q = Some u' ∧ id u' = id u;
  sp_fresh : p ≠ 0 ∧ tasks s !! p = None;
  sp_current : current_task s' = current_task s;
  sp_next : next_pid s' = next_pid s + 1;
  sp_records : exit_records s' = exit_records s ∧ exit_record_next s' = exit_record_next s;
}.

(** Taking references creates no pipe. *)
Lemma addref_files_none (l : list (file P)) (o o' : objects N) q :
  addref_files l o = Some o' → pipes o !! q = None → pipes o' !! q = None.
Proof.
  revert o. induction l as [|f l IH]; intros o; cbn [addref_files]; [by intros [= <-]|].
  destruct (file_addref f o) as [o1|] eqn:E; cbn; [|done]. intros E1 Hq. eapply IH; [exact E1|].
  unfold file_addref in E. destruct (is_pipe f).
  - destruct (pipes o !! f_pipe f) eqn:Ep; cbn in E; [|done]. injection E as <-. cbn.
    rewrite lookup_insert_ne; [done|]. intros <-. congruence.
  - destruct (is_socket f); by injection E as <-.
Qed.

Lemma spawn_inv nm entry dir user_esp stdio s pid s' z rq zq dq :
  queues s z rq zq dq → rq ≠ [] → next_pid s < 2147483647 → spawn_task nm entry dir user_esp stdio s = Some (pid, s') →
  ∃ p t, spawned s s' p pid entry dir user_esp stdio t ∧ queues s' z (rq ++ [p]) zq dq.
Proof.
  intros Hq Hne Hpid E. pose proof (queue_fits _ _ _ _ _ Hq) as Hsz. pose proof Hq as [Ql Qp Qn [Qh1 Qh2] Qr].
  unfold spawn_task in E. apply bind_inv in E as (p & s1 & (h1 & Eh1 & ->)%kmalloc_inv & E).
  apply bind_inv in E as (n & s2 & [= <- <-] & E). apply bind_inv in E as ([] & s3 & [= <-] & E).
  apply bind_inv in E as (cd & s3 & [= <- <-] & E). apply bind_inv in E as (stk & s4 & (h2 & Eh2 & ->)%kmalloc_inv & E). cbn in Eh2.
  apply bind_inv in E as (o0 & s4 & [= <- <-] & E). cbn [objs set_heap set_next_pid] in E.
  destruct (match stdio with Some l => addref_files (take 3 l) (objs s) | None => Some (objs s) end) as [o|] eqn:Eo; [|discriminate E].
  apply bind_inv in E as ([] & s5 & [= <-] & E). apply bind_inv in E as (km & s5 & [= <- <-] & E). cbn [kmem set_objs set_heap set_next_pid] in E.
  destruct (push_words (u32 (stk + STACK_SIZE)) (trap_frame entry user_esp) (kmem s)) as [sp km] eqn:Ek.
  apply bind_inv in E as ([] & s6 & [= <-] & E). apply bind_inv in E as (tl & s6 & [-> ->]%get_inv & E).
  destruct rq as [|q l _] using rev_ind; [done|]. pose proof (li_ready _ _ _ _ _ _ _ Ql) as Hr.
  unfold queue_tail in E. cbn [tasks ready_queue set_kmem set_objs set_heap set_next_pid] in E.
  rewrite (find_tail_spec _ _ _ l q Hr) in E by (rewrite length_app in Hsz; cbn in Hsz; lia).
  apply bind_inv in E as (tq & s7 & [-> Htq]%task_at_inv & E). apply bind_inv in E as ([] & s7 & [= <-] & E).
  apply bind_inv in E as ([] & s8 & [= <-] & [= <- <-]). cbn in *.
  rewrite Eh1, Eh2 in Qh1, Qh2. apply Forall_cons in Qh2 as [(Hp0 & Hp & Hpp) Qh2]. apply Forall_cons in Qh2 as [_ Qh2].
  apply NoDup_cons in Qh1 as [Hpn Qh1]. pose proof Qh1 as Qh3. apply NoDup_cons in Qh1 as [_ Qh1].
  assert (q ≠ p) as Hqp by (intros ->; congruence).
  assert (s32 (next_pid s) = next_pid s) as Es by (apply s32_id; lia).
  assert (u32 (next_pid s + 1) = next_pid s + 1) as Eu by (apply u32_small; lia).
  eexists p, _. split.
  - constructor; cbn; try done.
    + by rewrite lookup_insert_eq.
    + cbn. done.
    + cbn. rewrite Eh1, Eh2. right. by left.
    + cbn. intros Hu. destruct (Z.eqb_spec user_esp 0); done.
    + exact Ek.
    + cbn. by destruct (Z.eqb_spec dir 0), (decide (dir = 0)).
    + rewrite !fmap_insert. cbn. f_equal. apply insert_id. by rewrite lookup_fmap, Htq.
    + intros x u Hx. destruct (decide (x = p)) as [->|]; [congruence|]. rewrite lookup_insert_ne by done.
      destruct (decide (x = q)) as [->|]; [rewrite lookup_insert_eq; eexists; split; [done|]; cbn; congruence|].
      rewrite lookup_insert_ne by done. by exists u.
  - rewrite <- app_assoc. constructor; cbn; rewrite ?Eu; try done; [by apply links_append| |lia|].
    + apply pids_new; [by eapply pids_same|done|done].
    + split; [done|]. apply Forall_forall. intros x Hx. rewrite Forall_forall in Qh2. destruct (Qh2 x Hx) as (H0 & H1 & H2). split_and!; [done| |].
      * rewrite !lookup_insert_ne; [done| |]; [intros <-; congruence|]. intros <-. apply Hpn. by right.
      * destruct stdio; [by eapply addref_files_none|]. by injection Eo as <-.
Qed.
End ops.
End TaskOps.

(** * References from descriptors to pipes

    A pipe counts its readers and writers; the counts are the numbers of
    descriptors of all tasks that refer to its ends.  Duplicating, closing
    and dying keep the accounts. *)

Module TaskRefs.
Import Pipe Task.

Section refs.
Context {P N : Type} `{Sockets N}.
Abbreviation file := (file P).
Abbreviation objects := (objects N).
Implicit Types (f : file) (l : list file) (o : objects) (fm : gmap Z (list file)) (c : Z → bool → Z).

(** Whether [f] is an end of the pipe at [q]: the writing one for [w]. *)
Definition uses (q : Z) (w : bool) f : Z :=
  if is_pipe f && (f_pipe f =? q) && eqb (is_writer f) w then 1 else 0.

Definition fsum (q : Z) (w : bool) l : Z := foldr (λ f a, uses q w f + a) 0 l.

(** The ends of [q] that all tasks hold. *)
Definition total (q : Z) (w : bool) fm : Z := map_fold (λ _ l a, fsum q w l + a) 0 fm.

(** The pipes that exist are those somebody refers to, and each has the
    right counts. *)
Definition accounted c o : Prop :=
  ∀ q, match pipes o !! q with
       | Some p => readers p = c q false ∧ writers p = c q true ∧ 0 < c q false + c q true
       | None => c q false = 0 ∧ c q true = 0
       end.

Lemma uses_range q w f : 0 ≤ uses q w f ≤ 1.
Proof. unfold uses. case_match; lia. Qed.

Lemma fsum_range q w l : 0 ≤ fsum q w l ≤ zlength l.
Proof.
  unfold zlength. induction l as [|f l IH]; cbn; [lia|]. pose proof (uses_range q w f). unfold fsum in IH. lia.
Qed.

Lemma fsum_app q w l l' : fsum q w (l ++ l') = fsum q w l + fsum q w l'.
Proof. unfold fsum. induction l as [|f l IH]; cbn; lia. Qed.

Lemma fsum_in q w l f : f ∈ l → uses q w f ≤ fsum q w l.
Proof.
  unfold fsum. induction 1 as [f l|f g l _ IH]; cbn; [pose proof (fsum_range q w l)|pose proof (uses_range q w g)]; unfold fsum in *; lia.
Qed.

Lemma fsum_cons q w f l : fsum q w (f :: l) = uses q w f + fsum q w l.
Proof. done. Qed.

Lemma fsum_insert q w l i f f' : l !! i = Some f → fsum q w (<[i := f']> l) = fsum q w l - uses q w f + uses q w f'.
Proof.
  revert i. induction l as [|g l IH]; intros [|i] Hi; [done|done| |].
  - injection Hi as ->. change (<[0%nat := f']> (f :: l)) with (f' :: l). rewrite !fsum_cons. lia.
  - change (<[S i := f']> (g :: l)) with (g :: <[i := f']> l). rewrite !fsum_cons, (IH i Hi). lia.
Qed.

Lemma uses_none q w f : is_pipe f = false → uses q w f = 0.
Proof. unfold uses. by intros ->. Qed.

Lemma fsum_none q w l : Forall (λ f, is_pipe f = false) l → fsum q w l = 0.
Proof. unfold fsum. induction 1 as [|f l Hf _ IH]; cbn; [done|]. rewrite uses_none by done. lia. Qed.

Lemma total_insert q w fm p l : fm !! p = None → total q w (<[p := l]> fm) = fsum q w l + total q w fm.
Proof. intros Hp. unfold total. rewrite map_fold_insert_L; [done|intros; lia|done]. Qed.

Lemma total_update q w fm p l l' : fm !! p = Some l → total q w (<[p := l']> fm) = total q w fm - fsum q w l + fsum q w l'.
Proof.
  intros Hp. rewrite <- (insert_delete_eq fm p l'). rewrite total_insert by apply lookup_delete_eq.
  rewrite <- (insert_delete_id fm p l Hp) at 2. rewrite total_insert by apply lookup_delete_eq. lia.
Qed.

Lemma total_delete q w fm p l : fm !! p = Some l → total q w (delete p fm) = total q w fm - fsum q w l.
Proof. intros Hp. rewrite <- (insert_delete_id fm p l Hp) at 2. rewrite total_insert by apply lookup_delete_eq. lia. Qed.

(** With [n] descriptors each, at most [n] for each task. *)
Lemma total_range q w fm n :
  map_Forall (λ _ l, length l = n) fm → 0 ≤ total q w fm ≤ Z.of_nat n * Z.of_nat (size fm).
Proof.
  induction fm as [|p l fm Hp IH] using map_ind; intros Hl; [unfold total; rewrite map_fold_empty, map_size_empty; lia|].
  apply map_Forall_insert in Hl as [Hl1 Hl]; [|done]. specialize (IH Hl). rewrite total_insert, map_size_insert_None by done.
  pose proof (fsum_range q w l). unfold zlength in *. lia.
Qed.

(** ** Operations keep the accounts *)

Lemma accounted_ext c c' o : (∀ q w, c q w = c' q w) → accounted c o → accounted c' o.
Proof. intros E Ha q. specialize (Ha q). by rewrite <- !E. Qed.

Definition small c : Prop := ∀ q w, 0 ≤ c q w < 2147483647.

Lemma uses_other q w f : q ≠ f_pipe f → uses q w f = 0.
Proof. intros Hq. unfold uses. destruct (Z.eqb_spec (f_pipe f) q); [congruence|]. by rewrite andb_false_r. Qed.

Lemma uses_pipe w f : is_pipe f = true → uses (f_pipe f) w f = if eqb (is_writer f) w then 1 else 0.
Proof. intros Hf. unfold uses. by rewrite Hf, Z.eqb_refl. Qed.

Lemma file_addref_accounted f c o :
  accounted c o → small c → (is_pipe f = true → 0 < c (f_pipe f) (is_writer f)) →
  ∃ o', file_addref f o = Some o' ∧ accounted (λ q w, uses q w f + c q w) o'.
Proof.
  intros Ha Hs Hf. unfold file_addref. destruct (is_pipe f) eqn:Ef.
  - pose proof (Ha (f_pipe f)) as Hp. specialize (Hf eq_refl). destruct (pipes o !! f_pipe f) as [p|] eqn:Ep.
    2:{ destruct Hp as [H1 H2]. destruct (is_writer f); lia. }
    eexists. split; [done|]. intros q. cbn [pipes]. destruct (decide (q = f_pipe f)) as [->|Hq].
    + rewrite lookup_insert_eq. destruct Hp as (H1 & H2 & H3). rewrite !uses_pipe by done.
      pose proof (Hs (f_pipe f) true). pose proof (Hs (f_pipe f) false).
      unfold Pipe.pipe_addref. destruct (is_writer f); cbn; rewrite s32_id by lia; lia.
    + rewrite lookup_insert_ne by done. rewrite !uses_other by done. apply Ha.
  - destruct (is_socket f); eexists; (split; [done|]); (eapply accounted_ext; [|exact Ha]); intros q w; by rewrite uses_none.
Qed.

Lemma file_release_accounted f c o :
  accounted (λ q w, uses q w f + c q w) o → small c →
  ∃ o', file_release f o = Some o' ∧ accounted c o'.
Proof.
  intros Ha Hs. unfold file_release. destruct (is_pipe f) eqn:Ef.
  - pose proof (Ha (f_pipe f)) as Hp. cbv beta in Hp. rewrite !uses_pipe in Hp by done. pose proof (Hs (f_pipe f) true). pose proof (Hs (f_pipe f) false).
    destruct (pipes o !! f_pipe f) as [p|] eqn:Ep; [|destruct (is_writer f); cbn in Hp; lia].
    cbn [mbind option_bind]. destruct (Pipe.pipe_release p (is_writer f)) as [p' dead] eqn:Er. eexists. split; [done|].
    assert (readers p' = c (f_pipe f) false ∧ writers p' = c (f_pipe f) true) as [Hr Hw].
    { unfold Pipe.pipe_release in Er. destruct (is_writer f); injection Er as <- <-; cbn in *; rewrite s32_id by lia; lia. }
    assert (dead = (readers p' =? 0) && (writers p' =? 0)) as -> by (unfold Pipe.pipe_release in Er; by injection Er as <- <-).
    rewrite Hr, Hw. intros q. cbn [pipes]. destruct (decide (q = f_pipe f)) as [->|Hq].
    + destruct ((c (f_pipe f) false =? 0) && (c (f_pipe f) true =? 0)) eqn:Ed; boolp.
      * rewrite lookup_delete_eq. lia.
      * rewrite lookup_insert_eq. lia.
    + specialize (Ha q). cbv beta in Ha. rewrite !uses_other in Ha by done. cbn in Ha.
      destruct ((c (f_pipe f) false =? 0) && (c (f_pipe f) true =? 0));
        [rewrite lookup_delete_ne by done|rewrite lookup_insert_ne by done]; exact Ha.
  - assert (accounted c o) as Ha' by (eapply accounted_ext; [|exact Ha]; intros q w; cbn; by rewrite uses_none).
    destruct (is_socket f); by eexists.
Qed.

Lemma closed_type f : f_type (closed f) = FD_NONE.
Proof. done. Qed.

Lemma not_pipe f : f_type f = FD_NONE → is_pipe f = false.
Proof. intros E. unfold is_pipe. by rewrite E. Qed.

(** Closing every descriptor of a table always succeeds. *)
Lemma close_files_accounted l c o :
  accounted (λ q w, fsum q w l + c q w) o → small (λ q w, fsum q w l + c q w) → small c →
  ∃ l' o', close_files l o = Some (l', o') ∧ accounted c o' ∧ length l' = length l ∧ Forall (λ f, f_type f = FD_NONE) l'.
Proof.
  revert o. induction l as [|f l IH]; intros o Ha Hs Hc; cbn [close_files]; [by eexists [], o|].
  assert (small (λ q w, fsum q w l + c q w)) as Hs'.
  { intros q w. specialize (Hs q w). cbn in Hs. unfold fsum in *. cbn in Hs. pose proof (uses_range q w f).
    pose proof (fsum_range q w l). specialize (Hc q w). unfold fsum in *. lia. }
  assert (∀ o1 f1, accounted (λ q w, fsum q w l + c q w) o1 → f_type f1 = FD_NONE →
    ∃ l' o', ('(l', o0) ← close_files l o1; Some (f1 :: l', o0)) = Some (l', o') ∧ accounted c o' ∧
      length l' = length (f :: l) ∧ Forall (λ f, f_type f = FD_NONE) l') as Hrest.
  { intros o1 f1 Ha1 Hf1. destruct (IH o1 Ha1 Hs' Hc) as (l' & o' & E & A1 & A2 & A3). rewrite E. cbn.
    exists (f1 :: l'), o'. split_and!; [done|done|by cbn; rewrite A2|by constructor]. }
  destruct (Z.eqb_spec (f_type f) FD_NONE) as [Ez|Ez]; cbn [negb].
  - apply (Hrest o f); [|done]. eapply accounted_ext; [|exact Ha]. intros q w. cbn. rewrite uses_none by by apply not_pipe. done.
  - destruct (file_release_accounted f (λ q w, fsum q w l + c q w) o) as (o1 & E1 & Ha1); [|done|].
    { eapply accounted_ext; [|exact Ha]. intros q w. unfold fsum. cbn. lia. }
    unfold file_close. rewrite E1. cbn. by apply Hrest.
Qed.

(** Duplicating descriptors somebody holds always succeeds. *)
Lemma addref_files_accounted l c o :
  accounted c o → small (λ q w, fsum q w l + c q w) → small c →
  (∀ f, f ∈ l → is_pipe f = true → 0 < c (f_pipe f) (is_writer f)) →
  ∃ o', addref_files l o = Some o' ∧ accounted (λ q w, fsum q w l + c q w) o'.
Proof.
  revert c o. induction l as [|f l IH]; intros c o Ha Hs Hc Hl; cbn [addref_files]; [by exists o|].
  destruct (file_addref_accounted f c o Ha Hc) as (o1 & E1 & Ha1); [apply Hl; by left|]. rewrite E1. cbn.
  destruct (IH (λ q w, uses q w f + c q w) o1 Ha1) as (o' & E & A).
  - intros q w. specialize (Hs q w). unfold fsum in *. cbn in *. lia.
  - intros q w. specialize (Hs q w). specialize (Hc q w). pose proof (fsum_range q w l). pose proof (uses_range q w f).
    unfold fsum in *. cbn in *. lia.
  - intros g Hg Eg. pose proof (uses_range (f_pipe g) (is_writer g) f).
    assert (0 < c (f_pipe g) (is_writer g)) by (apply Hl; [by right|done]). lia.
  - exists o'. split; [done|]. eapply accounted_ext; [|exact A]. intros q w. unfold fsum. cbn. lia.
Qed.
End refs.
End TaskRefs.
