(* ===== verification/Fd.v ===== *)
(** * Descriptors (kernel/syscall.c)

    The calls on the descriptor table of the running task: looking one up,
    closing it, installing a file, a socket or the ends of a new pipe, and
    choosing the descriptors a child starts with. *)

From S2P Require Import Prelude Bytes Paging VMem Wsurf Fb Pipe Task.

Module Fd.
Import Task.

Section fd.
Context {P N : Type} `{Sockets N}.
#[local] Existing Instance T_ret.
#[local] Existing Instance T_bind.
Abbreviation file := (file P).
Abbreviation T := (@T P N).

(** The file object behind a descriptor of the caller. *)
Definition fd_get (fd : Z) : T (option file) :=
  cur ← get current_task;
  if cur =? 0 then mret None else
  t ← task_at cur;
  if (fd <? 0) || (fd >=? TASK_MAX_FILES) then mret None
  else mret (files t !! Z.to_nat fd).

Definition put_file (fd : Z) (f : file) : T unit :=
  cur ← get current_task;
  t ← task_at cur;
  put_task cur (set_files (<[Z.to_nat fd := f]> (files t)) t).

Definition sys_close (fd : Z) : T Z :=
  r ← fd_get fd;
  match r with
  | None => mret (-1)
  | Some f =>
      if f_type f =? FD_NONE then mret (-1) else
      o ← get objs;
      match file_close f o with
      | None => fail
      | Some (f, o) => _ ← upd (set_objs o); _ ← put_file fd f; mret 0
      end
  end.

(** ** Free slots *)

Definition file_at (l : list file) (i : Z) : file := default file0 (l !! Z.to_nat i).

(** The first free slot among [n] from [i] on; -1: none. *)
Fixpoint find_free (n : nat) (l : list file) (i : Z) : Z :=
  match n with
  | O => -1
  | S n' => if f_type (file_at l i) =? FD_NONE then i else find_free n' l (i + 1)
  end.

(** Descriptors 0 to 2 are never given out. *)
Definition free_fd : T Z :=
  cur ← get current_task;
  t ← task_at cur;
  mret (find_free 5 (files t) 3).

Definition as_file (ty : Z) (node : P) (f : file) : file := mk_file ty (Some node) 0 (f_cid f) (f_pipe f) (f_sock f).
Definition as_pipe (ty p : Z) (f : file) : file := mk_file ty (f_node f) (f_offset f) (f_cid f) p (f_sock f).
Definition as_socket (s : Z) (f : file) : file := mk_file FD_SOCKET (f_node f) (f_offset f) (f_cid f) (f_pipe f) s.

(** Change the slot [fd]. *)
Definition install (fd : Z) (g : file → file) : T unit :=
  cur ← get current_task;
  t ← task_at cur;
  put_task cur (set_files (<[Z.to_nat fd := g (file_at (files t) fd)]> (files t)) t).

(** The end of sys_open: the node of the path is known. *)
Definition open_node (node : P) : T Z :=
  fd ← free_fd;
  if fd <? 0 then mret (-1) else _ ← install fd (as_file FD_FILE node); mret fd.

(** ** Pipes *)

(** The loop of sys_pipe over the slots. *)
Fixpoint find_two (n : nat) (l : list file) (i rfd wfd : Z) : Z * Z :=
  match n with
  | O => (rfd, wfd)
  | S n' =>
      if negb (wfd <? 0) then (rfd, wfd)
      else if f_type (file_at l i) =? FD_NONE then
        if rfd <? 0 then find_two n' l (i + 1) i wfd else find_two n' l (i + 1) rfd i
      else find_two n' l (i + 1) rfd wfd
  end.

(** An operation on memory. *)
Definition run_mem {A} (c : Paging.K A) : T A := λ s,
  match c (mem s) with Some (a, m) => Some (a, set_mem m s) | None => None end.

(** [*a = v] for an int at a user address. *)
Definition put_user32 (a v : Z) : T unit :=
  d ← get (λ s, Paging.current_directory (mem s));
  run_mem (VMem.vput32 d a v).

(** [buf]: what the fresh buffer of the pipe happens to hold. *)
Definition sys_pipe (buf : list Z) (fds : Z) : T Z :=
  ok ← get (λ s, Paging.user_ok (mem s) fds 8 true);
  if negb ok then mret (-1) else
  cur ← get current_task;
  t ← task_at cur;
  let '(rfd, wfd) := find_two 5 (files t) 3 (-1) (-1) in
  if wfd <? 0 then mret (-1) else
  p ← kmalloc;
  _ ← upd (λ s, set_objs (mk_objects (<[p := Pipe.pipe_create buf]> (pipes (objs s))) (net_state (objs s))) s);
  _ ← install rfd (as_pipe FD_PIPE_R p);
  _ ← install wfd (as_pipe FD_PIPE_W p);
  _ ← put_user32 fds rfd;
  _ ← put_user32 (u32 (fds + 4)) wfd;
  mret 0.

(** ** The descriptors of a child *)

(** The loop of sys_exec2: the caller's descriptors [fds], its own where
    negative; [None] is the return of -1. *)
Fixpoint exec2_stdio (own : list file) (fds : list Z) : T (option (list file)) :=
  match own, fds with
  | f :: own', fd :: fds' =>
      r ← (if fd <? 0 then mret (Some f) else
           r ← fd_get fd;
           mret (match r with Some g => if f_type g =? FD_NONE then None else Some g | None => None end));
      match r with
      | None => mret None
      | Some g => l ← exec2_stdio own' fds'; mret (match l with Some l => Some (g :: l) | None => None end)
      end
  | _, _ => mret (Some [])
  end.

(** [fds]: the three numbers at the user's pointer, [None] for NULL. *)
Definition sys_exec2_stdio (fds : option (list Z)) : T (option (list file)) :=
  cur ← get current_task;
  t ← task_at cur;
  exec2_stdio (take 3 (files t)) (default (replicate 3 (-1)) fds).
End fd.
End Fd.
