(* ===== verification/TaskLife.v ===== *)
(** * The system of tasks as a state machine

    Tasks switch, spawn, exit, kill, reap and change their descriptors in
    any order.  Whatever they do, the queues stay well formed, pipes count
    their ends, and the exit records are the last 32 deaths. *)

From S2P Require Import Prelude Bytes Paging VMem Wsurf Fb Pipe Task TaskOps Fd.

Module TaskLife.
Import Task TaskQueue TaskSpec TaskOps TaskRefs Fd.

Section life.
Context {P N : Type} `{Sockets N}.
Abbreviation task := (task P).
Abbreviation file := (file P).
Abbreviation ts := (ts P N).
Implicit Types (s : ts) (t u : task) (rq zq dq : list Z).

(** The descriptor tables. *)
Definition tables s : gmap Z (list file) := files <$> tasks s.

Definition held s (q : Z) (w : bool) : Z := total q w (tables s).

(** A task of the ready queue has the pid. *)
Definition ready_pid s rq (pid : Z) : Prop := ∃ p, p ∈ rq ∧ has_pid (tasks s) pid p.

(** ** Steps *)

(** The descriptors a child gets are the caller's, where they need
    counting. *)
Definition inherited s (stdio : option (list file)) : Prop :=
  match stdio with
  | None => True
  | Some l => (3 ≤ length l)%nat ∧ ∃ t, tasks s !! current_task s = Some t ∧ ∀ f, f ∈ take 3 l → is_pipe f = true → f ∈ files t
  end.

(** Other components ran: the data in pipes, the display, memory and the
    network may have changed. *)
Record elsewhere s s' : Prop := {
  el_tasks : tasks s' = tasks s;
  el_current : current_task s' = current_task s;
  el_ready : ready_queue s' = ready_queue s;
  el_zombies : zombie_queue s' = zombie_queue s;
  el_pid : next_pid s' = next_pid s;
  el_records : exit_records s' = exit_records s;
  el_record : exit_record_next s' = exit_record_next s;
  el_pipes : (λ p, (Pipe.readers p, Pipe.writers p)) <$> pipes (objs s') = (λ p, (Pipe.readers p, Pipe.writers p)) <$> pipes (objs s);
  el_heap : NoDup (heap s') ∧ Forall (λ p, p ≠ 0 ∧ tasks s' !! p = None ∧ pipes (objs s') !! p = None) (heap s');
}.

(** The state and the task the reaper is at; a step may be a death. *)
Inductive step : option (Z * Z) → ts * Z → ts * Z → Prop :=
| step_switch s z sp r s' :
    schedule sp s = Some (r, s') → step None (s, z) (s', z)
| step_spawn s z nm entry dir user_esp stdio pid s' :
    Z.of_nat (size (tasks s)) < 2 ^ 27 → next_pid s < 2 ^ 31 - 1 → inherited s stdio →
    spawn_task nm entry dir user_esp stdio s = Some (pid, s') → step None (s, z) (s', z)
| step_exit s z pid code s1 sp r s2 :
    getpid s = Some (pid, s) → exit code s = Some (tt, s1) → schedule sp s1 = Some (r, s2) →
    step (Some (pid, code)) (s, z) (s2, z)
| step_kill s z pid s' :
    task_kill pid s = Some (Some 0, s') → step (Some (pid, -9)) (s, z) (s', z)
| step_kill_nobody s z pid s' :
    task_kill pid s = Some (Some (-1), s') → step None (s, z) (s', z)
| step_kill_self s z pid s1 sp r s2 :
    task_kill pid s = Some (None, s1) → schedule sp s1 = Some (r, s2) → step (Some (pid, -9)) (s, z) (s2, z)
| step_reap s r s' :
    reap_begin s = Some (r, s') → step None (s, 0) (s', r)
| step_reap_one s z r s' :
    z ≠ 0 → reap_one z s = Some (r, s') → step None (s, z) (s', r)
| step_close s z fd r s' :
    sys_close fd s = Some (r, s') → step None (s, z) (s', z)
| step_pipe s z buf fds r s' :
    sys_pipe buf fds s = Some (r, s') → step None (s, z) (s', z)
| step_install s z fd (g : file → file) s' :
    free_fd s = Some (fd, s) → 0 ≤ fd → (∀ f, is_pipe (g f) = false) →
    install fd g s = Some (tt, s') → step None (s, z) (s', z)
| step_elsewhere s z s' :
    elsewhere s s' → step None (s, z) (s', z).

(** A run, with its deaths in order. *)
Inductive run : list (Z * Z) → ts * Z → ts * Z → Prop :=
| run_refl w : run [] w w
| run_step tr w1 w2 w3 e : run tr w1 w2 → step e w2 w3 → run (tr ++ option_list e) w1 w3.

(** ** The invariant *)

(** What the steps keep; [rq], [zq] and [dq] as in [queues]. *)
Record life s (z : Z) rq zq dq : Prop := {
  lf_queues : queues s z rq zq dq;
  lf_current : current_task s ∈ rq;
  lf_tables : map_Forall (λ _ l, length l = 8%nat) (tables s);
  lf_dead p l : p ∈ zq ++ dq → tables s !! p = Some l → Forall (λ f, f_type f = FD_NONE) l;
  lf_refs : accounted (held s) (objs s);
  lf_size : Z.of_nat (size (tasks s)) ≤ 2 ^ 27;
}.

(** What a step does to the records and the pids. *)
Record evolves s rq (e : option (Z * Z)) s' rq' : Prop := {
  ev_records : match e with
    | None => exit_records s' = exit_records s ∧ exit_record_next s' = exit_record_next s
    | Some d => exit_records s' = <[Z.to_nat (exit_record_next s) := d]> (exit_records s) ∧
                exit_record_next s' = (exit_record_next s + 1) mod EXIT_RECORDS ∧
                ready_pid s rq d.1 ∧ ¬ ready_pid s' rq' d.1
    end;
  ev_next : next_pid s ≤ next_pid s';
  ev_pids pid : ready_pid s' rq' pid → ready_pid s rq pid ∨ next_pid s ≤ pid;
  ev_keep pid : ready_pid s rq pid ∨ next_pid s ≤ pid < next_pid s' → ready_pid s' rq' pid ∨ fst <$> e = Some pid;
}.

Lemma tables_small s : map_Forall (λ _ l, length l = 8%nat) (tables s) → Z.of_nat (size (tasks s)) ≤ 2 ^ 27 → small (held s).
Proof.
  intros Ht Hs q w. pose proof (total_range q w (tables s) 8 Ht) as Hr. unfold held. unfold tables in Hr at 3. rewrite map_size_fmap in Hr. lia.
Qed.

Lemma held_same s s' q w : tables s' = tables s → held s' q w = held s q w.
Proof. unfold held. by intros ->. Qed.

(** Steps that change neither descriptors nor objects. *)
Lemma life_quiet s s' z z' rq rq' zq zq' dq dq' :
  life s z rq zq dq → queues s' z' rq' zq' dq' → current_task s' ∈ rq' → tables s' = tables s → objs s' = objs s →
  size (tasks s') = size (tasks s) → (∀ p, p ∈ zq' ++ dq' → p ∈ zq ++ dq) → life s' z' rq' zq' dq'.
Proof.
  intros [] Hq Hc Et Eo Es Hd. constructor; try done.
  - by rewrite Et.
  - intros p l Hp. rewrite Et. apply lf_dead0. by apply Hd.
  - rewrite Eo. eapply accounted_ext; [|done]. intros q w. symmetry. by apply held_same.
  - by rewrite Es.
Qed.

Lemma ids_pid s s' pid p : id <$> tasks s' = id <$> tasks s → has_pid (tasks s') pid p → has_pid (tasks s) pid p.
Proof.
  intros E (t & Ht & <-). assert ((id <$> tasks s) !! p = Some (id t)) as Hx by by rewrite <- E, lookup_fmap, Ht.
  rewrite lookup_fmap in Hx. apply fmap_Some in Hx as (u & Hu & ->). by exists u.
Qed.

Lemma evolves_quiet s s' rq :
  exit_records s' = exit_records s → exit_record_next s' = exit_record_next s → next_pid s' = next_pid s →
  id <$> tasks s' = id <$> tasks s → evolves s rq None s' rq.
Proof.
  intros E1 E2 E3 E4. constructor; [done|lia| |].
  - intros pid (p & Hp & Hx). left. exists p. split; [done|]. by eapply ids_pid.
  - intros pid [(p & Hp & Hx)|Hr]; [left|lia]. exists p. split; [done|]. by eapply ids_pid.
Qed.

(** *** Switching *)

Lemma switched_tables s s' cur q sp t u :
  tasks s !! cur = Some t → switched s s' cur q sp t u →
  tables s' = tables s ∧ id <$> tasks s' = id <$> tasks s ∧ size (tasks s') = size (tasks s).
Proof.
  intros Ht []. unfold tables. rewrite sw_tasks0, !fmap_insert. split_and!.
  - apply insert_id. by rewrite lookup_fmap, Ht.
  - apply insert_id. by rewrite lookup_fmap, Ht.
  - apply map_size_insert_Some. by exists t.
Qed.

Lemma life_switched s s' z rq zq dq cur q sp t u :
  life s z rq zq dq → tasks s !! cur = Some t → switched s s' cur q sp t u → q ∈ rq →
  life s' z rq zq dq ∧ evolves s rq None s' rq.
Proof.
  intros Hl Ht Hsw Hq. destruct (switched_tables _ _ _ _ _ _ _ Ht Hsw) as (E1 & E2 & E3). pose proof Hsw as []. split.
  - eapply life_quiet; try done; [eapply queues_switched; try done; apply Hl|by rewrite sw_current0].
  - by apply evolves_quiet; try done; apply sw_records0.
Qed.

Lemma life_schedule s z rq zq dq sp r s' :
  life s z rq zq dq → schedule sp s = Some (r, s') → life s' z rq zq dq ∧ evolves s rq None s' rq.
Proof.
  intros Hl E. destruct (proj1 (list_elem_of_lookup _ _) (lf_current _ _ _ _ _ Hl)) as [i Hi].
  destruct (schedule_spec s z rq zq dq i _ sp (lf_queues _ _ _ _ _ Hl) eq_refl Hi) as (q & t & u & s1 & Hq & Ht & _ & E1 & Hsw & _).
  rewrite E in E1. injection E1 as -> ->. eapply life_switched; try done. by eapply list_elem_of_lookup_2.
Qed.

(** *** Death *)

Lemma died_tables s s' z p code t l o rq zq dq :
  died s s' z p code t l o rq zq dq → tables s' = <[p := l]> (tables s) ∧ tables s !! p = Some (files t).
Proof. intros []. split; [done|]. unfold tables. by rewrite lookup_fmap, di_task0. Qed.

Lemma ids_size s s' : id <$> tasks s' = id <$> tasks s → size (tasks s') = size (tasks s).
Proof. intros E. by rewrite <- (map_size_fmap id (tasks s')), E, map_size_fmap. Qed.

(** A death keeps everything but that the current task may be the dead
    one. *)
Lemma life_died s s' z p code t l o l1 l2 zq dq :
  life s z (l1 ++ p :: l2) zq dq → died s s' z p code t l o (l1 ++ l2) zq dq →
  (current_task s' ∈ l1 ++ l2 → life s' z (l1 ++ l2) (p :: zq) dq) ∧
  (∀ s2 cur q sp t1 u, tasks s' !! cur = Some t1 → switched s' s2 cur q sp t1 u → q ∈ l1 ++ l2 → life s2 z (l1 ++ l2) (p :: zq) dq) ∧
  evolves s (l1 ++ p :: l2) (Some (id t, code)) s' (l1 ++ l2).
Proof.
  intros Hl Hd. destruct (died_tables _ _ _ _ _ _ _ _ _ _ _ Hd) as [Et Hp]. pose proof Hl as [Lq Lc Lt Ld Lr Ls].
  pose proof (li_nodup _ _ _ _ _ _ _ (qu_links _ _ _ _ _ Lq)) as Hnd. apply NoDup_app in Hnd as (Hnd & Hnd2 & _).
  assert (p ∉ l1 ++ l2) as Hnp.
  { rewrite <- Permutation_middle in Hnd. by apply NoDup_cons in Hnd as [? _]. }
  assert (accounted (held s') o ∧ length l = length (files t) ∧ Forall (λ f, f_type f = FD_NONE) l) as (Hacc & Hlen & Hnone).
  { assert (∀ q w, held s q w = fsum q w (files t) + (held s q w - fsum q w (files t))) as Esum by (intros; lia).
    assert (small (λ q w, held s q w - fsum q w (files t))) as Hsm.
    { intros q w. pose proof (tables_small s Lt Ls q w). pose proof (total_delete q w (tables s) p (files t) Hp).
      pose proof (fsum_range q w (files t)). pose proof (total_range q w (delete p (tables s)) 8 (map_Forall_delete _ _ _ Lt)). unfold held in *. lia. }
    destruct (close_files_accounted (files t) (λ q w, held s q w - fsum q w (files t)) (objs s)) as (l' & o' & E & A1 & A2 & A3).
    - eapply accounted_ext; [|exact Lr]. exact Esum.
    - intros q w. rewrite <- Esum. by apply tables_small.
    - exact Hsm.
    - rewrite (di_close _ _ _ _ _ _ _ _ _ _ _ Hd) in E. injection E as <- <-. split_and!; [|done|done].
      eapply accounted_ext; [|exact A1]. intros q w. unfold held. rewrite Et, (total_update q w (tables s) p (files t)) by done.
      rewrite (fsum_none q w l); [lia|]. eapply Forall_impl; [exact A3|]. intros f Hf. by apply not_pipe. }
  pose proof Hd as [D1 D2 D3 D4 D5 D6 D7 D8 D9 D10 D11 D12 D13 D14].
  assert (current_task s' ∈ l1 ++ l2 → life s' z (l1 ++ l2) (p :: zq) dq) as Hlife.
  { intros Hc. constructor; [done|done| | | |].
    - rewrite Et. apply map_Forall_insert_2; [|done]. rewrite Hlen. by apply (Lt p).
    - intros q lq Hq. rewrite Et. destruct (decide (q = p)) as [->|Hne]; [rewrite lookup_insert_eq; by intros [= <-]|].
      rewrite lookup_insert_ne by done. apply Ld. apply elem_of_cons in Hq as [|]; done.
    - by rewrite D7.
    - by rewrite (ids_size s s'). }
  split_and!.
  - exact Hlife.
  - intros s2 cur q sp t1 u Ht1 Hsw Hq. destruct (switched_tables _ _ _ _ _ _ _ Ht1 Hsw) as (E1 & E2 & E3). pose proof Hsw as [].
    assert (held s2 = held s') as Eh by (unfold held; by rewrite E1).
    constructor; [by eapply queues_switched|by rewrite sw_current0| | |by rewrite Eh, sw_objs0, D7|by rewrite E3, (ids_size s s')].
    + rewrite E1, Et. apply map_Forall_insert_2; [|done]. rewrite Hlen. by apply (Lt p).
    + intros x lx Hx. rewrite E1, Et. destruct (decide (x = p)) as [->|Hne]; [rewrite lookup_insert_eq; by intros [= <-]|].
      rewrite lookup_insert_ne by done. apply Ld. apply elem_of_cons in Hx as [|]; done.
  - constructor; [|lia| |].
    + split_and!; [done|done|exists p; split; [apply elem_of_app; right; by left|by exists t]|].
      cbn. intros (x & Hx & (u & Hu & Eu)%(ids_pid s s')); [|done].
      destruct (qu_pids _ _ _ _ _ Lq) as [_ Hinj]. assert (x = p) as -> by by apply (Hinj x p u t). done.
    + intros pid (x & Hx & Hpx%(ids_pid s s')); [|done]. left. exists x. split; [|done]. rewrite elem_of_app in Hx. rewrite elem_of_app, elem_of_cons. tauto.
    + intros pid [(x & Hx & Hpx)|Hr]; [|lia]. destruct (decide (x = p)) as [->|Hxp].
      * right. destruct Hpx as (u & Hu & <-). assert (u = t) as -> by congruence. done.
      * left. exists x. split; [|by eapply ids_pid]. rewrite elem_of_app, elem_of_cons in Hx. rewrite elem_of_app. tauto.
Qed.

Lemma evolves_ids s rq e s1 s2 rq1 :
  evolves s rq e s1 rq1 → exit_records s2 = exit_records s1 → exit_record_next s2 = exit_record_next s1 → next_pid s2 = next_pid s1 →
  id <$> tasks s2 = id <$> tasks s1 → evolves s rq e s2 rq1.
Proof.
  intros [E1 E2 E3 E4] F1 F2 F3 F4. assert (∀ pid, ready_pid s2 rq1 pid → ready_pid s1 rq1 pid) as Hr.
  { intros pid (p & Hp & Hx). exists p. split; [done|]. by eapply ids_pid. }
  constructor; [|by rewrite F3|intros pid Hx; by apply E3, Hr|].
  - rewrite F1, F2. destruct e as [d|]; [|done].
    destruct E1 as (? & ? & ? & Hno). split_and!; try done. intros Hx. by apply Hno, Hr.
  - intros pid. rewrite F3. intros [(p & Hp & Hx)|]%E4; [left|by right]. exists p. split; [done|]. by eapply ids_pid.
Qed.

Lemma split_at {A} (l : list A) x : x ∈ l → ∃ l1 l2, l = l1 ++ x :: l2.
Proof. apply list_elem_of_split. Qed.

Lemma life_exit s z rq zq dq code s1 sp r s2 :
  life s z rq zq dq → exit code s = Some (tt, s1) → schedule sp s1 = Some (r, s2) →
  ∃ t rq' zq', tasks s !! current_task s = Some t ∧ life s2 z rq' zq' dq ∧ evolves s rq (Some (id t, code)) s2 rq'.
Proof.
  intros Hl E E2. destruct (split_at rq (current_task s) (lf_current _ _ _ _ _ Hl)) as (l1 & l2 & ->).
  destruct (exit_inv code s s1 z l1 _ l2 zq dq (lf_queues _ _ _ _ _ Hl) eq_refl E) as (t & l & o & Hd & Hn & Hne).
  assert (current_task s ≠ 0) as Hc0.
  { eapply (chain_in _ _ _ _ (current_task s) (li_ready _ _ _ _ _ _ _ (qu_links _ _ _ _ _ (lf_queues _ _ _ _ _ Hl)))).
    apply elem_of_app. right. by left. }
  destruct (schedule_after_exit s s1 z (current_task s) code t l o l1 l2 zq dq sp Hd eq_refl Hc0 Hn Hne)
    as (q & t1 & u & s2' & Hq & Ht1 & E2' & Hsw & _).
  rewrite E2 in E2'. injection E2' as -> <-.
  destruct (life_died _ _ _ _ _ _ _ _ _ _ _ _ Hl Hd) as (_ & Hlife & Hev). exists t, (l1 ++ l2), (current_task s :: zq).
  split; [apply Hd|]. split; [eapply Hlife; try done; by eapply list_elem_of_lookup_2|].
  destruct (switched_tables _ _ _ _ _ _ _ Ht1 Hsw) as (_ & Ei & _). pose proof Hsw as [].
  eapply evolves_ids; try done; apply sw_records0.
Qed.

Lemma life_kill s z rq zq dq pid s' :
  life s z rq zq dq → task_kill pid s = Some (Some 0, s') →
  ∃ rq' zq', life s' z rq' zq' dq ∧ evolves s rq (Some (pid, -9)) s' rq'.
Proof.
  intros Hl E. destruct (proj1 (list_elem_of_lookup _ _) (lf_current _ _ _ _ _ Hl)) as [i Hi].
  destruct (kill_inv pid s _ s' z rq zq dq i _ (lf_queues _ _ _ _ _ Hl) eq_refl Hi E)
    as [(E0 & _)|[(E0 & _)|(_ & l1 & p & l2 & t & l & o & -> & _ & Hp & <- & Hd)]]; [discriminate E0|discriminate E0|].
  destruct (life_died _ _ _ _ _ _ _ _ _ _ _ _ Hl Hd) as (Hlife & _ & Hev). exists (l1 ++ l2), (p :: zq). split; [|done].
  apply Hlife. pose proof (lf_current _ _ _ _ _ Hl) as Hc. rewrite (di_current _ _ _ _ _ _ _ _ _ _ _ Hd).
  rewrite elem_of_app, elem_of_cons in Hc. rewrite elem_of_app. destruct Hc as [|[Ec|]]; auto. by rewrite Ec in Hp.
Qed.

Lemma life_kill_self s z rq zq dq pid s1 sp r s2 :
  life s z rq zq dq → task_kill pid s = Some (None, s1) → schedule sp s1 = Some (r, s2) →
  ∃ rq' zq', life s2 z rq' zq' dq ∧ evolves s rq (Some (pid, -9)) s2 rq'.
Proof.
  intros Hl E E2. destruct (proj1 (list_elem_of_lookup _ _) (lf_current _ _ _ _ _ Hl)) as [i Hi].
  destruct (kill_inv pid s _ s1 z rq zq dq i _ (lf_queues _ _ _ _ _ Hl) eq_refl Hi E)
    as [(_ & Hp & Ex)|[(E0 & _)|(E0 & _)]]; [|discriminate E0|discriminate E0].
  destruct (life_exit _ _ _ _ _ _ _ _ _ _ Hl Ex E2) as (t & rq' & zq' & Ht & H1 & H2). exists rq', zq'. split; [done|].
  destruct Hp as (t' & Ht' & <-). assert (t' = t) as -> by congruence. done.
Qed.

(** *** Birth *)

Lemma new_files_length (stdio : option (list file)) :
  match stdio with Some l => (3 ≤ length l)%nat | None => True end → length (new_files stdio) = 8%nat.
Proof. destruct stdio as [l|]; [|done]. intros Hl. cbn [new_files]. rewrite length_app, length_take, length_replicate. lia. Qed.

Lemma new_files_sum q w (stdio : option (list file)) :
  fsum q w (new_files stdio) = match stdio with Some l => fsum q w (take 3 l) | None => 0 end.
Proof.
  assert (∀ n, fsum q w (replicate n (file0 : file)) = 0) as H0 by (intros n; apply fsum_none; by apply Forall_replicate).
  destruct stdio as [l|]; cbn [new_files]; rewrite ?fsum_app, ?H0; [lia|]. unfold console_files. rewrite fsum_app, H0.
  rewrite fsum_none; [done|]. by apply Forall_replicate.
Qed.

Lemma life_spawn s z rq zq dq nm entry dir user_esp stdio pid s' :
  life s z rq zq dq → Z.of_nat (size (tasks s)) < 2 ^ 27 → next_pid s < 2 ^ 31 - 1 → inherited s stdio →
  spawn_task nm entry dir user_esp stdio s = Some (pid, s') →
  ∃ p, life s' z (rq ++ [p]) zq dq ∧ evolves s rq None s' (rq ++ [p]).
Proof.
  intros Hl Hsz Hpid Hin E. pose proof Hl as [Lq Lc Lt Ld Lr Ls].
  assert (rq ≠ []) as Hne by (intros ->; by apply elem_of_nil in Lc).
  destruct (spawn_inv nm entry dir user_esp stdio s pid s' z rq zq dq Lq Hne Hpid E) as (p & t & Hsp & Hq').
  exists p. pose proof Hsp as [S1 [S2 S2'] S0 S3 S4 S5 S6 S7 S8 [S9 S9'] S10 S11 [S12 S13]].
  assert (length (new_files stdio) = 8%nat) as Hlen by (apply new_files_length; by destruct stdio as [l|]; [destruct Hin|]).
  assert (tables s !! p = None) as Hp by (unfold tables; by rewrite lookup_fmap, S9').
  assert (size (tasks s') = S (size (tasks s))) as Esz.
  { rewrite <- (map_size_fmap files (tasks s')), S6, map_size_insert_None by done. unfold tables. by rewrite map_size_fmap. }
  assert (map_Forall (λ _ l, length l = 8%nat) (tables s')) as Ht' by (unfold tables; rewrite S6; by apply map_Forall_insert_2).
  assert (Z.of_nat (size (tasks s')) ≤ 2 ^ 27) as Hs' by lia.
  split.
  - constructor; try done.
    + rewrite S10, elem_of_app. by left.
    + intros x l Hx. unfold tables. rewrite S6. rewrite lookup_insert_ne; [by apply Ld|]. intros <-.
      pose proof (qu_links _ _ _ _ _ Lq) as []. rewrite elem_of_app in Hx.
      assert (is_Some (tasks s !! p)) as [? ?]; [|congruence].
      destruct Hx as [Hx|Hx]; [by apply (chain_in _ _ _ _ p li_zombies0)|by apply (chain_in _ _ _ _ p li_detached0)].
    + assert (∀ q w, held s' q w = fsum q w (new_files stdio) + held s q w) as Eh.
      { intros q w. unfold held, tables. rewrite S6. by rewrite total_insert. }
      destruct stdio as [l|].
      2:{ injection S7 as <-. eapply accounted_ext; [|exact Lr]. intros q w. by rewrite Eh, new_files_sum. }
      destruct Hin as (_ & tc & Htc & Hf). destruct (addref_files_accounted (take 3 l) (held s) (objs s) Lr) as (o' & E' & A).
      * intros q w. rewrite <- (new_files_sum q w (Some l)), <- Eh. by apply tables_small.
      * by apply tables_small.
      * intros f Hfl Hfp. specialize (Hf f Hfl Hfp). assert (tables s !! current_task s = Some (files tc)) as Htab
          by (unfold tables; by rewrite lookup_fmap, Htc).
        pose proof (fsum_in (f_pipe f) (is_writer f) (files tc) f Hf) as Hge. rewrite uses_pipe, eqb_reflx in Hge by done.
        pose proof (total_delete (f_pipe f) (is_writer f) (tables s) _ _ Htab).
        pose proof (total_range (f_pipe f) (is_writer f) (delete (current_task s) (tables s)) 8 (map_Forall_delete _ _ _ Lt)). unfold held. lia.
      * rewrite S7 in E'. injection E' as <-. eapply accounted_ext; [|exact A]. intros q w. by rewrite Eh, new_files_sum.
  - constructor; [done|lia| |].
    2:{ intros i [(x & Hx & v & Hv & <-)|Hr]; left.
        - destruct (S8 x v Hv) as (v' & Hv' & Ei). exists x. split; [apply elem_of_app; by left|]. by exists v'.
        - exists p. split; [apply elem_of_app; right; by left|]. exists t. split; [done|lia]. }
    intros i (x & Hx & u & Hu & <-). destruct (decide (x = p)) as [->|Hxp].
    + right. assert (u = t) as -> by congruence. lia.
    + left. exists x. split; [apply elem_of_app in Hx as [|Hx%list_elem_of_singleton]; done|].
      assert (is_Some (tables s !! x)) as [l Hlx].
      { assert (tables s' !! x = Some (files u)) as Hx' by (unfold tables; by rewrite lookup_fmap, Hu).
        unfold tables in Hx'. rewrite S6, lookup_insert_ne in Hx' by done. by eexists. }
      unfold tables in Hlx. rewrite lookup_fmap in Hlx. apply fmap_Some in Hlx as (v & Hv & _).
      destruct (S8 x v Hv) as (v' & Hv' & Ei). exists v. split; [done|]. congruence.
Qed.

(** *** Reaping *)

Lemma life_reap s rq zq dq r s' :
  life s 0 rq zq dq → reap_begin s = Some (r, s') → ∃ dq', life s' r rq [] dq' ∧ evolves s rq None s' rq.
Proof.
  intros Hl E. assert (dq = []) as ->.
  { pose proof (li_detached _ _ _ _ _ _ _ (qu_links _ _ _ _ _ (lf_queues _ _ _ _ _ Hl))) as Hd. destruct dq; [done|]. by destruct Hd as (<- & ? & _). }
  destruct (reap_begin_spec s rq zq (lf_queues _ _ _ _ _ Hl)) as (s1 & E1 & Hq & F1 & F2 & F3 & F4 & F5 & F6 & F7).
  rewrite E in E1. injection E1 as -> <-. exists zq. split; [|apply evolves_quiet; congruence].
  eapply life_quiet; [exact Hl|done|rewrite F3; apply Hl|unfold tables; by rewrite F1|done|by rewrite F1|].
  intros p Hp. by rewrite app_nil_r.
Qed.

Lemma life_reap_one s z rq zq dq r s' :
  life s z rq zq dq → z ≠ 0 → reap_one z s = Some (r, s') → ∃ dq', life s' r rq zq dq' ∧ evolves s rq None s' rq.
Proof.
  intros Hl Hz E. pose proof Hl as [Lq Lc Lt Ld Lr Ls].
  destruct (reap_one_inv s z r s' rq zq dq Lq Hz E) as (dq' & -> & Hq & F1 & F2 & F3 & F4 & F5 & F6 & F7).
  assert (is_Some (tasks s !! z)) as [t Ht].
  { eapply (chain_in _ _ _ _ z (li_detached _ _ _ _ _ _ _ (qu_links _ _ _ _ _ Lq))). by left. }
  assert (tables s !! z = Some (files t)) as Htz by (unfold tables; by rewrite lookup_fmap, Ht).
  assert (tables s' = delete z (tables s)) as Et by (unfold tables; by rewrite F1, fmap_delete).
  exists dq'. split.
  - constructor; [done|by rewrite F3| | | |].
    + rewrite Et. by apply map_Forall_delete.
    + intros p l Hp. rewrite Et. intros [_ Hpl]%lookup_delete_Some. apply (Ld p); [|done]. rewrite elem_of_app in Hp.
      rewrite elem_of_app, elem_of_cons. tauto.
    + rewrite F2. eapply accounted_ext; [|exact Lr]. intros q w. unfold held. rewrite Et, (total_delete q w (tables s) z (files t)) by done.
      rewrite (fsum_none q w (files t)); [lia|]. eapply Forall_impl; [eapply (Ld z); [|done]; apply elem_of_app; right; by left|].
      intros f Hf. by apply not_pipe.
    + rewrite F1, map_size_delete_Some by by exists t. lia.
  - constructor; [by rewrite F4, F5|lia| |].
    + intros pid (p & Hp & u & Hu & Ei). left. exists p. split; [done|].
      rewrite F1 in Hu. apply lookup_delete_Some in Hu as [_ Hu]. by exists u.
    + intros pid [(p & Hp & u & Hu & Ei)|Hr]; [left|lia]. exists p. split; [done|]. exists u. rewrite F1, lookup_delete_ne; [done|].
      intros <-. pose proof (li_nodup _ _ _ _ _ _ _ (qu_links _ _ _ _ _ Lq)) as (_ & Hnd & _)%NoDup_app. apply (Hnd z Hp), elem_of_app.
      right. by left.
Qed.

(** *** Descriptors *)

(** The running task's table becomes [l]. *)
Lemma life_refiled s s' z rq zq dq t l :
  life s z rq zq dq → tasks s !! current_task s = Some t → tasks s' = <[current_task s := set_files l t]> (tasks s) →
  length l = 8%nat → accounted (λ q w, held s q w - fsum q w (files t) + fsum q w l) (objs s') →
  current_task s' = current_task s → ready_queue s' = ready_queue s → zombie_queue s' = zombie_queue s → next_pid s' = next_pid s →
  exit_records s' = exit_records s → exit_record_next s' = exit_record_next s →
  NoDup (heap s') → Forall (λ p, p ≠ 0 ∧ tasks s !! p = None ∧ pipes (objs s') !! p = None) (heap s') →
  life s' z rq zq dq ∧ evolves s rq None s' rq.
Proof.
  intros Hl Ht Es Hlen Ha E1 E2 E3 E4 E5 E6 H1 H2. pose proof Hl as [Lq Lc Lt Ld Lr Ls]. pose proof Lq as [Ql Qp Qn Qh Qr].
  assert (tables s' = <[current_task s := l]> (tables s)) as Et by (unfold tables; by rewrite Es, fmap_insert).
  assert (tables s !! current_task s = Some (files t)) as Htc by (unfold tables; by rewrite lookup_fmap, Ht).
  split.
  - constructor; [constructor| | | | |]; rewrite ?E1, ?E2, ?E3, ?E4, ?E5, ?E6; try done.
    + rewrite Es. by eapply links_same.
    + rewrite Es. by eapply pids_same.
    + split; [done|]. eapply Forall_impl; [exact H2|]. intros p (P0 & P1 & P2). split_and!; [done| |done].
      rewrite Es, lookup_insert_ne; [done|]. intros <-. congruence.
    + rewrite Et. by apply map_Forall_insert_2.
    + intros p lp Hp. rewrite Et, lookup_insert_ne; [by apply Ld|]. intros <-.
      pose proof (li_nodup _ _ _ _ _ _ _ Ql) as (_ & Hnd & _)%NoDup_app. by apply (Hnd (current_task s)).
    + eapply accounted_ext; [|exact Ha]. intros q w. unfold held. by rewrite Et, (total_update q w (tables s) _ (files t)).
    + rewrite Es. rewrite map_size_insert_Some; [done|by exists t].
  - apply evolves_quiet; try done. rewrite Es, fmap_insert. apply insert_id. by rewrite lookup_fmap, Ht.
Qed.

(** A free slot of the table. *)
Lemma find_free_spec n (l : list file) i fd :
  find_free n l i = fd → 0 ≤ fd → 0 ≤ i → i ≤ fd < i + Z.of_nat n ∧ f_type (file_at l fd) = FD_NONE.
Proof.
  revert i. induction n as [|n IH]; intros i; cbn [find_free]; [lia|]. destruct (Z.eqb_spec (f_type (file_at l i)) FD_NONE) as [Hf|Hf].
  - intros <- _ _. split; [lia|done].
  - intros E Hfd Hi. destruct (IH (i + 1) E Hfd ltac:(lia)) as [Hr Ht]. split; [lia|done].
Qed.

Lemma file_at_lookup (l : list file) i : 0 ≤ i < zlength l → l !! Z.to_nat i = Some (file_at l i).
Proof.
  intros Hi. unfold file_at. destruct (l !! Z.to_nat i) eqn:E; [done|]. apply lookup_ge_None_1 in E. unfold zlength in Hi. lia.
Qed.

(** Replacing the slot [fd] of [l]. *)
Lemma fsum_slot q w (l : list file) fd f :
  0 ≤ fd < zlength l → fsum q w (<[Z.to_nat fd := f]> l) = fsum q w l - uses q w (file_at l fd) + uses q w f.
Proof. intros Hi. by apply fsum_insert, file_at_lookup. Qed.

Lemma install_inv fd (g : file → file) s s' :
  install fd g s = Some (tt, s') → ∃ t, tasks s !! current_task s = Some t ∧
    s' = set_tasks (<[current_task s := set_files (<[Z.to_nat fd := g (file_at (files t) fd)]> (files t)) t]> (tasks s)) s.
Proof.
  unfold install. intros (c & s0 & [= <- <-] & E)%bind_inv. apply bind_inv in E as (t & s0 & [-> Ht]%task_at_inv & [= <-]). by exists t.
Qed.

Lemma table_length s z rq zq dq t : life s z rq zq dq → tasks s !! current_task s = Some t → zlength (files t) = 8.
Proof.
  intros Hl Ht. assert (tables s !! current_task s = Some (files t)) as Htc by (unfold tables; by rewrite lookup_fmap, Ht).
  pose proof (lf_tables _ _ _ _ _ Hl _ _ Htc) as Hlen. cbn in Hlen. unfold zlength. by rewrite Hlen.
Qed.

Lemma life_install s z rq zq dq fd (g : file → file) s' :
  life s z rq zq dq → free_fd s = Some (fd, s) → 0 ≤ fd → (∀ f, is_pipe (g f) = false) → install fd g s = Some (tt, s') →
  life s' z rq zq dq ∧ evolves s rq None s' rq.
Proof.
  intros Hl Ef Hfd Hg (t & Ht & ->)%install_inv. unfold free_fd in Ef. apply bind_inv in Ef as (c & s0 & [= <- <-] & Ef).
  apply bind_inv in Ef as (t' & s0 & [-> Ht']%task_at_inv & [= Ef]). assert (t' = t) as -> by congruence.
  pose proof (table_length _ _ _ _ _ _ Hl Ht) as Hlen. destruct (find_free_spec 5 (files t) 3 fd Ef Hfd) as [Hr Hty]; [lia|].
  pose proof (qu_heap _ _ _ _ _ (lf_queues _ _ _ _ _ Hl)) as [Hh1 Hh2].
  eapply (life_refiled s); try done.
  - rewrite length_insert. unfold zlength in Hlen. lia.
  - eapply accounted_ext; [|exact (lf_refs _ _ _ _ _ Hl)]. intros q w. rewrite fsum_slot by lia.
    rewrite (uses_none _ _ (file_at _ _)) by by apply not_pipe. rewrite uses_none by done. lia.
Qed.

Lemma fd_get_inv fd s r s' : fd_get fd s = Some (r, s') → s' = s ∧
  match r with Some f => ∃ t, tasks s !! current_task s = Some t ∧ files t !! Z.to_nat fd = Some f ∧ 0 ≤ fd < 8 | None => True end.
Proof.
  unfold fd_get. intros (c & s0 & [= <- <-] & E)%bind_inv. destruct (Z.eqb_spec (current_task s) 0); [by injection E as <- <-|].
  apply bind_inv in E as (t & s0 & [-> Ht]%task_at_inv & E). destruct ((fd <? 0) || (fd >=? TASK_MAX_FILES)) eqn:Eb; [by injection E as <- <-|].
  injection E as <- <-. split; [done|]. destruct (files t !! Z.to_nat fd) eqn:Ef; [|done]. exists t. unfold TASK_MAX_FILES in Eb. boolp. split_and!; [done|done|lia|lia].
Qed.

Lemma life_close s z rq zq dq fd r s' :
  life s z rq zq dq → sys_close fd s = Some (r, s') → life s' z rq zq dq ∧ evolves s rq None s' rq.
Proof.
  intros Hl E. unfold sys_close in E. apply bind_inv in E as (fo & s0 & [-> Hf]%fd_get_inv & E).
  destruct fo as [f|]; [|injection E as <- <-; split; [done|by apply evolves_quiet]]. destruct Hf as (t & Ht & Hf & Hfd).
  destruct (Z.eqb_spec (f_type f) FD_NONE); [injection E as <- <-; split; [done|by apply evolves_quiet]|].
  apply bind_inv in E as (o0 & s0 & [= <- <-] & E). unfold file_close in E.
  destruct (file_release f (objs s)) as [o|] eqn:Er; cbn in E; [|discriminate E].
  apply bind_inv in E as ([] & s1 & [= <-] & E). unfold put_file in E. apply bind_inv in E as ([] & s2 & E2 & [= <- <-]).
  apply bind_inv in E2 as (c & s0 & [= <- <-] & E2). apply bind_inv in E2 as (t' & s0 & [-> Ht']%task_at_inv & [= <-]).
  cbn in Ht'. assert (t' = t) as -> by congruence. pose proof (table_length _ _ _ _ _ _ Hl Ht) as Hlen.
  pose proof Hl as [Lq Lc Lt Ld Lr Ls]. pose proof (qu_heap _ _ _ _ _ Lq) as [Hh1 Hh2].
  assert (file_at (files t) fd = f) as Efa by (unfold file_at; by rewrite Hf).
  assert (∀ q w, uses q w (closed f) = 0) as Hcl by (intros; apply uses_none, not_pipe, closed_type).
  assert (tables s !! current_task s = Some (files t)) as Htc by (unfold tables; by rewrite lookup_fmap, Ht).
  assert (accounted (λ q w, held s q w - uses q w f) o) as Hacc.
  { destruct (file_release_accounted f (λ q w, held s q w - uses q w f) (objs s)) as (o' & E' & A).
    - eapply accounted_ext; [|exact Lr]. intros; lia.
    - intros q w. pose proof (tables_small s Lt Ls q w). pose proof (uses_range q w f).
      pose proof (total_delete q w (tables s) _ _ Htc). pose proof (fsum_in q w (files t) f ltac:(by eapply list_elem_of_lookup_2)).
      pose proof (total_range q w (delete (current_task s) (tables s)) 8 (map_Forall_delete _ _ _ Lt)). unfold held in *. lia.
    - rewrite Er in E'. by injection E' as <-. }
  eapply (life_refiled s); try done; cbn.
  - rewrite length_insert. unfold zlength in Hlen. lia.
  - eapply accounted_ext; [|exact Hacc]. intros q w. cbn. rewrite fsum_slot, Efa, Hcl by lia. lia.
  - eapply Forall_impl; [exact Hh2|]. intros p (P0 & P1 & P2). split_and!; [done|done|].
    eapply (close_files_none [f] [closed f] (objs s) o); [|done]. cbn. destruct (Z.eqb_spec (f_type f) FD_NONE); [done|]. cbn.
    unfold file_close. by rewrite Er.
Qed.

Lemma find_two_spec n (l : list file) i rfd wfd r w :
  find_two n l i rfd wfd = (r, w) → 0 ≤ w → 3 ≤ i → wfd = -1 →
  (rfd = -1 ∨ 3 ≤ rfd < i ∧ f_type (file_at l rfd) = FD_NONE) →
  3 ≤ r < w ∧ w < i + Z.of_nat n ∧ f_type (file_at l r) = FD_NONE ∧ f_type (file_at l w) = FD_NONE.
Proof.
  revert i rfd wfd. induction n as [|n IH]; intros i rfd wfd; cbn [find_two].
  { intros [= <- <-]. lia. }
  intros E Hw Hi -> Hr. cbn in E. destruct (Z.eqb_spec (f_type (file_at l i)) FD_NONE) as [Hf|Hf].
  - destruct (Z.ltb_spec rfd 0) as [Hn|Hn].
    + apply IH in E as (? & ? & ? & ?); [split_and!; try done; lia|done|lia|done|]. right. split; [lia|done].
    + destruct Hr as [->|[Hr Hrt]]; [lia|]. destruct n as [|n]; cbn [find_two] in E.
      * injection E as <- <-. split_and!; try done; lia.
      * destruct (Z.ltb_spec i 0); [lia|]. injection E as <- <-. split_and!; try done; lia.
  - apply IH in E as (? & ? & ? & ?); [split_and!; try done; lia|done|lia|done|]. destruct Hr as [->|[Hr Hrt]]; [by left|right; split; [lia|done]].
Qed.

(** Stores to user memory change nothing of the tasks. *)
Lemma put_user32_inv a v s s' : put_user32 a v s = Some (tt, s') → ∃ m, s' = set_mem m s.
Proof.
  unfold put_user32. intros (d & s0 & [= <- <-] & E)%bind_inv. unfold run_mem in E.
  destruct (VMem.vput32 _ a v (mem s)) as [[[] m]|]; [|discriminate E]. injection E as <-. by exists m.
Qed.

Lemma life_pipe s z rq zq dq buf fds r s' :
  life s z rq zq dq → sys_pipe buf fds s = Some (r, s') → life s' z rq zq dq ∧ evolves s rq None s' rq.
Proof.
  intros Hl E. unfold sys_pipe in E. apply bind_inv in E as (ok & s0 & [-> ->]%get_inv & E).
  destruct (negb (Paging.user_ok (mem s) fds 8 true)); [injection E as <- <-; split; [done|by apply evolves_quiet]|].
  apply bind_inv in E as (c & s0 & [= <- <-] & E). apply bind_inv in E as (t & s0 & [-> Ht]%task_at_inv & E).
  destruct (find_two 5 (files t) 3 (-1) (-1)) as [rfd wfd] eqn:Ef.
  destruct (Z.ltb_spec wfd 0) as [Hneg|Hw]; [injection E as <- <-; split; [done|by apply evolves_quiet]|].
  destruct (find_two_spec 5 (files t) 3 (-1) (-1) rfd wfd Ef) as (Hrw & Hlt & Hr & Hwt); [done|lia|done|by left|].
  pose proof (table_length _ _ _ _ _ _ Hl Ht) as Hlen. pose proof Hl as [Lq Lc Lt Ld Lr Ls]. pose proof (qu_heap _ _ _ _ _ Lq) as [Hh1 Hh2].
  apply bind_inv in E as (p & s1 & (h & Eh & ->)%kmalloc_inv & E). apply bind_inv in E as ([] & s2 & [= <-] & E).
  apply bind_inv in E as ([] & s3 & (t1 & Ht1 & ->)%install_inv & E). apply bind_inv in E as ([] & s4 & (t2 & Ht2 & ->)%install_inv & E).
  apply bind_inv in E as ([] & s5 & (m1 & ->)%put_user32_inv & E). apply bind_inv in E as ([] & s6 & (m2 & ->)%put_user32_inv & [= <- <-]).
  cbn in Ht1, Ht2. assert (t1 = t) as -> by congruence. rewrite lookup_insert_eq in Ht2. injection Ht2 as <-. cbn.
  rewrite Eh in Hh1, Hh2. apply Forall_cons in Hh2 as [(Hp0 & Hp1 & Hp2) Hh2]. apply NoDup_cons in Hh1 as [Hpn Hh1].
  set (l1 := <[Z.to_nat rfd := as_pipe FD_PIPE_R p (file_at (files t) rfd)]> (files t)).
  assert (zlength l1 = 8) as Hl1 by (unfold l1, zlength; rewrite length_insert; exact Hlen).
  assert (file_at l1 wfd = file_at (files t) wfd) as Ew by (unfold l1, file_at; by rewrite list_lookup_insert_ne by lia).
  eapply (life_refiled s _ z rq zq dq t (<[Z.to_nat wfd := as_pipe FD_PIPE_W p (file_at l1 wfd)]> l1)); try done; cbn.
  - by rewrite insert_insert_eq.
  - rewrite length_insert. unfold zlength in Hl1. lia.
  - assert (∀ q w ty f, ty = FD_PIPE_R ∨ ty = FD_PIPE_W → uses q w (as_pipe ty p f : file) =
      if decide (q = p) then (if eqb (ty =? FD_PIPE_W) w then 1 else 0) else 0) as Hu.
    { intros q w ty f Hty. unfold uses, is_pipe, is_writer. cbn. case_decide as Eq.
      - subst q. rewrite Z.eqb_refl. destruct Hty as [-> | ->]; by destruct w.
      - destruct (Z.eqb_spec p q); [congruence|]. by rewrite andb_false_r. }
    assert (∀ q w, held s q w - fsum q w (files t) + fsum q w (<[Z.to_nat wfd := as_pipe FD_PIPE_W p (file_at l1 wfd)]> l1) =
      held s q w + if decide (q = p) then 1 else 0) as Esum.
    { intros q w. rewrite fsum_slot, Ew by lia. unfold l1. rewrite fsum_slot by lia.
      rewrite !(uses_none _ _ (file_at _ _)) by by apply not_pipe. rewrite !Hu by auto. case_decide; [destruct w; cbn; lia|lia]. }
    intros q. rewrite !Esum. specialize (Lr q). cbn [objs set_mem set_surfaces set_tasks set_objs set_heap pipes]. destruct (decide (q = p)) as [->|Hq].
    + rewrite lookup_insert_eq. rewrite Hp2 in Lr. cbn. lia.
    + rewrite lookup_insert_ne by done. rewrite !Z.add_0_r. exact Lr.
  - apply Forall_forall. intros x Hx. rewrite Forall_forall in Hh2. destruct (Hh2 x Hx) as (? & ? & ?). split_and!; [done|done|].
    rewrite lookup_insert_ne; [done|]. intros <-. done.
Qed.

Lemma life_elsewhere s z rq zq dq s' :
  life s z rq zq dq → elsewhere s s' → life s' z rq zq dq ∧ evolves s rq None s' rq.
Proof.
  intros [[Ql Qp Qn Qh Qr] Lc Lt Ld Lr Ls] []. split; [|apply evolves_quiet; congruence].
  assert (tables s' = tables s) as Et by (unfold tables; by rewrite el_tasks0).
  constructor; [constructor| | | | |]; rewrite ?Et, ?el_tasks0, ?el_current0, ?el_ready0, ?el_zombies0, ?el_pid0, ?el_records0, ?el_record0; try done.
  - split; [by destruct el_heap0|]. destruct el_heap0 as [_ Hf]. by rewrite el_tasks0 in Hf.
  - intros q. specialize (Lr q). assert ((λ p, (Pipe.readers p, Pipe.writers p)) <$> pipes (objs s') !! q = (λ p, (Pipe.readers p, Pipe.writers p)) <$> pipes (objs s) !! q) as E
      by by rewrite <- !lookup_fmap, el_pipes0.
    unfold held in *. rewrite Et. destruct (pipes (objs s') !! q) as [p'|], (pipes (objs s) !! q) as [p|]; cbn in E; try done.
    injection E as -> ->. exact Lr.
Qed.

(** Every step keeps the invariant. *)
Lemma life_step e w w' rq zq dq :
  life w.1 w.2 rq zq dq → step e w w' → ∃ rq' zq' dq', life w'.1 w'.2 rq' zq' dq' ∧ evolves w.1 rq e w'.1 rq'.
Proof.
  intros Hl Hs. destruct Hs as [s z sp r s' E|s z nm en dir ue stdio pid s' H1 H2 H3 E|s z pid code s1 sp r s2 Eg E1 E2|s z pid s' E|s z pid s' E|
    s z pid s1 sp r s2 E1 E2|s r s' E|s z r s' Hz E|s z fd r s' E|s z buf fds r s' E|s z fd g s' H1 H2 H3 E|s z s' He]; cbn in *.
  - exists rq, zq, dq. by eapply life_schedule.
  - destruct (life_spawn _ _ _ _ _ _ _ _ _ _ _ _ Hl H1 H2 H3 E) as (p & ?). by exists (rq ++ [p]), zq, dq.
  - destruct (life_exit _ _ _ _ _ _ _ _ _ _ Hl E1 E2) as (t & rq' & zq' & Ht & ? & Hev). exists rq', zq', dq. split; [done|].
    unfold getpid in Eg. apply bind_inv in Eg as (c & s0 & [= <- <-] & Eg).
    destruct (Z.eqb_spec (current_task s) 0) as [E0|_].
    + exfalso. pose proof (li_ready _ _ _ _ _ _ _ (qu_links _ _ _ _ _ (lf_queues _ _ _ _ _ Hl))) as Hr.
      destruct (chain_in _ _ _ _ _ Hr (lf_current _ _ _ _ _ Hl)) as [? _]. done.
    + apply bind_inv in Eg as (t' & s0 & [-> Ht']%task_at_inv & [= <-]). assert (t' = t) as -> by congruence. done.
  - destruct (life_kill _ _ _ _ _ _ _ Hl E) as (rq' & zq' & ?). by exists rq', zq', dq.
  - exists rq, zq, dq. destruct (proj1 (list_elem_of_lookup _ _) (lf_current _ _ _ _ _ Hl)) as [i Hi].
    destruct (kill_inv pid s _ s' z rq zq dq i _ (lf_queues _ _ _ _ _ Hl) eq_refl Hi E) as [(E0 & _)|[(_ & -> & _)|(E0 & _)]];
      [discriminate E0| |discriminate E0]. split; [done|by apply evolves_quiet].
  - destruct (life_kill_self _ _ _ _ _ _ _ _ _ _ Hl E1 E2) as (rq' & zq' & ?). by exists rq', zq', dq.
  - destruct (life_reap _ _ _ _ _ _ Hl E) as (dq' & ?). by exists rq, [], dq'.
  - destruct (life_reap_one _ _ _ _ _ _ _ Hl Hz E) as (dq' & ?). by exists rq, zq, dq'.
  - exists rq, zq, dq. by eapply life_close.
  - exists rq, zq, dq. by eapply life_pipe.
  - exists rq, zq, dq. by eapply life_install.
  - exists rq, zq, dq. by eapply life_elsewhere.
Qed.

(** ** From boot *)

(** The state tasking_init finds. *)
Record before_tasks s : Prop := {
  bt_tasks : tasks s = ∅;
  bt_zombies : zombie_queue s = 0;
  bt_pid : next_pid s = 0;
  bt_records : exit_records s = replicate 32 (0, 0);
  bt_record : exit_record_next s = 0;
  bt_pipes : pipes (objs s) = ∅;
  bt_heap : NoDup (heap s) ∧ Forall (λ p, p ≠ 0) (heap s);
}.

Lemma life_boot s s' : before_tasks s → tasking_init s = Some (tt, s') → ∃ p, life s' 0 [p] [] [] ∧
  exit_records s' = replicate 32 (0, 0) ∧ exit_record_next s' = 0 ∧ next_pid s' = 1.
Proof.
  intros [B1 B2 B3 B4 B5 B6 [B7 B8]] E. unfold tasking_init in E. apply bind_inv in E as (p & s1 & (h & Eh & ->)%kmalloc_inv & E).
  apply bind_inv in E as (n & s2 & [= <- <-] & E). apply bind_inv in E as (d & s2 & [= <- <-] & E).
  apply bind_inv in E as ([] & s2 & [= <-] & E). apply bind_inv in E as ([] & s3 & [= <-] & E).
  apply bind_inv in E as ([] & s4 & [= <-] & [= <-]). cbn. rewrite B1, B3. cbn.
  rewrite Eh in B7, B8. apply Forall_cons in B8 as [Hp0 B8]. apply NoDup_cons in B7 as [Hpn B7].
  exists p. split; [|by rewrite B4, B5]. constructor; cbn.
  - constructor; cbn; rewrite ?B1, ?B3; try done.
    + constructor; cbn; try done; [|by apply NoDup_singleton|].
      * split_and!; [done|done|]. eexists. by rewrite lookup_insert_eq.
      * intros x [u Hu]. apply lookup_insert_Some in Hu as [[<- _]|[_ Hu]]; [by left|by rewrite lookup_empty in Hu].
    + split.
      * intros x u Hu. apply lookup_insert_Some in Hu as [[_ <-]|[_ Hu]]; [cbn; done|by rewrite lookup_empty in Hu].
      * intros x y u v Hu Hv _. apply lookup_insert_Some in Hu as [[<- _]|[_ Hu]]; [|by rewrite lookup_empty in Hu].
        apply lookup_insert_Some in Hv as [[<- _]|[_ Hv]]; [done|by rewrite lookup_empty in Hv].
    + split; [done|]. apply Forall_forall. intros x Hx. rewrite Forall_forall in B8. split_and!; [by apply B8| |by rewrite B6].
      rewrite lookup_insert_ne; [done|]. intros <-. done.
    + rewrite B4, B5. done.
  - by left.
  - unfold tables. cbn. rewrite ?B1, fmap_insert, fmap_empty. apply map_Forall_insert_2; [done|apply map_Forall_empty].
  - intros x l Hx. by apply elem_of_nil in Hx.
  - intros q. rewrite B6, lookup_empty. unfold held, tables. cbn. rewrite ?B1, fmap_insert, fmap_empty. cbn.
    rewrite !total_insert by apply lookup_empty. unfold total. rewrite !map_fold_empty.
    by split.
  - rewrite ?B1. rewrite map_size_insert_None by apply lookup_empty. rewrite map_size_empty. lia.
Qed.
End life.
End TaskLife.
