(* ===== verification/Trap.v ===== *)
(** * Entry and exit of the kernel (kernel/interrupt.S, kernel/isr.c)

    The processor and SAVE_REGS push the interrupted context on the kernel
    stack; RESTORE_REGS and iret pop it.  spawn_task builds the same frame by
    hand. *)

From S2P Require Import Prelude Task.

Module Trap.
Import Task.

(** The context of a task.  [stack]: the stack pointer and its segment, which
    the processor saves only when it leaves ring 3. *)
Record cpu := mk_cpu {
  eax : Z; ecx : Z; edx : Z; ebx : Z; ebp : Z; esi : Z; edi : Z;
  ds : Z; es : Z; fs : Z; gs : Z;
  eip : Z; cs : Z; eflags : Z;
  stack : option (Z * Z);
}.

(** The ring of a code selector. *)
Definition ring3 (sel : Z) : bool := negb (Z.land sel 3 =? 0).

(** What the processor pushes, then SAVE_REGS; [dummy] is the stack pointer
    pushad saves and popad ignores. *)
Definition frame (c : cpu) (dummy : Z) : list Z :=
  match stack c with Some (sp, ss) => [ss; sp] | None => [] end ++
  [eflags c; cs c; eip c] ++
  [eax c; ecx c; edx c; ebx c; dummy; ebp c; esi c; edi c] ++
  [ds c; es c; fs c; gs c].

Definition SAVE_REGS (c : cpu) (dummy sp : Z) (m : gmap Z Z) : Z * gmap Z Z := push_words sp (frame c dummy) m.

Fixpoint pop_words (n : nat) (sp : Z) (m : gmap Z Z) : option (list Z * Z) :=
  match n with
  | O => Some ([], sp)
  | S n' => w ← m !! sp; '(l, sp) ← pop_words n' (u32 (sp + 4)) m; Some (w :: l, sp)
  end.

(** RESTORE_REGS and iret: the context and the stack pointer after it. *)
Definition RESTORE_REGS (sp : Z) (m : gmap Z Z) : option (cpu * Z) :=
  '(l, sp) ← pop_words 15 sp m;
  match l with
  | [gs; fs; es; ds; edi; esi; ebp; _; ebx; edx; ecx; eax; eip; cs; eflags] =>
      if ring3 cs then
        '(l, sp) ← pop_words 2 sp m;
        match l with
        | [esp; ss] => Some (mk_cpu eax ecx edx ebx ebp esi edi ds es fs gs eip cs eflags (Some (esp, ss)), sp)
        | _ => None
        end
      else Some (mk_cpu eax ecx edx ebx ebp esi edi ds es fs gs eip cs eflags None, sp)
  | _ => None
  end.

(** Only a context of ring 3 has a stack of its own. *)
Definition cpu_ok (c : cpu) : Prop := ring3 (cs c) = match stack c with Some _ => true | None => false end.

(** ** Pushing and popping *)

Lemma push_words_app sp l l' m :
  push_words sp (l ++ l') m = let '(sp1, m1) := push_words sp l m in push_words sp1 l' m1.
Proof. revert sp m. induction l as [|w l IH]; intros sp m; [done|]. cbn [app push_words]. by rewrite IH. Qed.

Lemma push_words_sp sp l m : 4 * zlength l ≤ sp < 4294967296 → (push_words sp l m).1 = sp - 4 * zlength l.
Proof.
  unfold zlength. revert sp m. induction l as [|w l IH]; intros sp m; cbn [push_words length]; [cbn; lia|]. intros Hsp.
  rewrite (u32_small (sp - 4)) by lia. rewrite IH by lia. lia.
Qed.

(** Words below the stack pointer are written, those above kept. *)
Lemma push_words_keep sp l m a : 4 * zlength l ≤ sp < 4294967296 → sp ≤ a → (push_words sp l m).2 !! a = m !! a.
Proof.
  unfold zlength. revert sp m. induction l as [|w l IH]; intros sp m; cbn [push_words length]; [done|]. intros Hsp Ha.
  rewrite (u32_small (sp - 4)) by lia. rewrite IH by lia. rewrite lookup_insert_ne; [done|lia].
Qed.

Lemma pop_words_app n k sp m :
  pop_words (n + k) sp m = '(l, sp) ← pop_words n sp m; '(l', sp) ← pop_words k sp m; Some (l ++ l', sp).
Proof.
  revert sp. induction n as [|n IH]; intros sp; cbn [pop_words Nat.add].
  - cbn. by destruct (pop_words k sp m) as [[l' sp']|].
  - destruct (m !! sp) as [w|]; cbn; [|done]. rewrite IH. destruct (pop_words n (u32 (sp + 4)) m) as [[l sp1]|]; cbn; [|done].
    by destruct (pop_words k sp1 m) as [[l' sp2]|].
Qed.

Lemma pop_words_ext n sp m m' :
  0 ≤ sp → sp + 4 * Z.of_nat n < 4294967296 → (∀ a, sp ≤ a → m' !! a = m !! a) → pop_words n sp m' = pop_words n sp m.
Proof.
  revert sp. induction n as [|n IH]; intros sp Hsp Hn He; [done|]. cbn [pop_words]. rewrite He by lia.
  rewrite (u32_small (sp + 4)) by lia. rewrite IH; [done|lia|lia|]. intros a Ha. apply He. lia.
Qed.

(** Popping returns what was pushed, in reverse. *)
Lemma push_pop l sp m :
  4 * zlength l ≤ sp < 4294967296 →
  pop_words (length l) (push_words sp l m).1 (push_words sp l m).2 = Some (rev l, sp).
Proof.
  revert sp m. induction l as [|w l IH]; intros sp m; [done|]. intros Hsp. unfold zlength in Hsp. cbn [length] in Hsp.
  cbn [push_words]. rewrite (u32_small (sp - 4)) by lia. cbn [length]. rewrite <- Nat.add_1_r, pop_words_app.
  rewrite IH by (unfold zlength; lia). cbn [mbind option_bind]. cbn [pop_words].
  rewrite push_words_keep, lookup_insert_eq by (unfold zlength; lia). cbn [mbind option_bind].
  rewrite u32_small by lia. by replace (sp - 4 + 4) with sp by lia.
Qed.

Lemma frame_length c dummy : length (frame c dummy) = if match stack c with Some _ => true | None => false end then 17%nat else 15%nat.
Proof. unfold frame. by destruct (stack c) as [[]|]. Qed.

(** A context that is saved on a kernel stack with room for it is the
    context that is restored, whatever popad ignores. *)
Lemma save_restore c dummy sp m :
  cpu_ok c → 68 ≤ sp < 4294967296 →
  RESTORE_REGS (SAVE_REGS c dummy sp m).1 (SAVE_REGS c dummy sp m).2 = Some (c, sp).
Proof.
  intros Hok Hsp. unfold SAVE_REGS, RESTORE_REGS. pose proof (frame_length c dummy) as Hlen. unfold cpu_ok in Hok.
  assert (4 * zlength (frame c dummy) ≤ sp < 4294967296) as Hr by (unfold zlength; rewrite Hlen; destruct (stack c); lia).
  pose proof (push_pop (frame c dummy) sp m Hr) as Hpop. destruct (push_words sp (frame c dummy) m) as [sp1 m1]. cbn [fst snd] in *.
  rewrite Hlen in Hpop. destruct c as [a0 a1 a2 a3 a4 a5 a6 s0 s1 s2 s3 ip cs0 fl st]. cbn [stack cs] in *.
  destruct st as [[sp0 ss]|].
  - change 17%nat with (15 + 2)%nat in Hpop. rewrite pop_words_app in Hpop.
    destruct (pop_words 15 sp1 m1) as [[l sp2]|] eqn:E1; [|done]. cbn [mbind option_bind] in *.
    destruct (pop_words 2 sp2 m1) as [[l2 sp3]|] eqn:E2; [|done]. cbn [mbind option_bind] in *.
    injection Hpop as Hl ->. assert (length l = 15%nat) as Hl15.
    { clear -E1. revert l sp1 sp2 E1. generalize 15%nat as n. induction n as [|n IH]; intros l sp1 sp2; cbn; [by intros [= <- _]|].
      destruct (m1 !! sp1); cbn; [|done]. destruct (pop_words n (u32 (sp1 + 4)) m1) as [[l' sp']|] eqn:E; cbn; [|done].
      intros [= <- _]. cbn. by rewrite (IH _ _ _ E). }
    do 15 (destruct l as [|? l]; [discriminate Hl15|]). destruct l; [|discriminate Hl15]. cbn in Hl.
    injection Hl as -> -> -> -> -> -> -> -> -> -> -> -> -> -> -> ->. by rewrite Hok.
  - rewrite Hpop. cbn. by rewrite Hok.
Qed.

(** ** The first run of a task *)

(** The context spawn_task prepares. *)
Definition initial (entry user_esp : Z) : cpu :=
  let user := negb (user_esp =? 0) in
  let seg := if user then 0x23 else 0x10 in
  mk_cpu 0 0 0 0 0 0 0 seg seg seg seg entry (if user then 0x1B else 0x08) 0x202
    (if user then Some (user_esp, seg) else None).

Lemma initial_frame entry user_esp : trap_frame entry user_esp = frame (initial entry user_esp) 0.
Proof. unfold trap_frame, frame, initial. by destruct (user_esp =? 0). Qed.

Lemma initial_ok entry user_esp : cpu_ok (initial entry user_esp).
Proof. unfold cpu_ok, initial. by destruct (user_esp =? 0). Qed.
End Trap.
