(* ===== verification/Idt.v ===== *)
(** * Descriptor tables and faults (kernel/gdt.c, kernel/idt.c, kernel/isr.c)

    Segment descriptors and interrupt gates as the kernel writes them and as
    the processor reads them, and what the fault handlers do.  The addresses
    of the assembly entry points are the linker's. *)

From S2P Require Import Prelude.

Module Idt.

(** ** Segments *)

Record gdt_entry := mk_gdt {
  limit_low : Z; base_low : Z; base_middle : Z; access : Z; granularity : Z; base_high : Z;
}.

Definition gdt_set_gate (base limit acc gran : Z) : gdt_entry :=
  mk_gdt (Z.land limit 0xFFFF) (Z.land base 0xFFFF) (Z.land (Z.shiftr base 16) 0xFF) acc
    (Z.lor (Z.land (Z.shiftr limit 16) 0x0F) (Z.land gran 0xF0)) (Z.land (Z.shiftr base 24) 0xFF).

Definition sizeof_tss : Z := 104.

(** The table gdt_init builds; [tss]: the address of the task state segment. *)
Definition gdt_entries (tss : Z) : list gdt_entry :=
  [gdt_set_gate 0 0 0 0; gdt_set_gate 0 0xFFFFFFFF 0x9A 0xCF; gdt_set_gate 0 0xFFFFFFFF 0x92 0xCF;
   gdt_set_gate 0 0xFFFFFFFF 0xFA 0xCF; gdt_set_gate 0 0xFFFFFFFF 0xF2 0xCF; gdt_set_gate tss (sizeof_tss - 1) 0x89 0x00].

(** A descriptor as the processor decodes it: the last byte of the segment,
    with 4 KB units where the granularity bit says so. *)
Record segment := mk_segment { seg_base : Z; seg_last : Z; seg_dpl : Z; seg_present : bool; seg_code : bool }.

Definition seg_limit (e : gdt_entry) : Z :=
  let l := Z.lor (limit_low e) (Z.shiftl (Z.land (granularity e) 0x0F) 16) in
  if Z.testbit (granularity e) 7 then Z.lor (Z.shiftl l 12) 0xFFF else l.

Definition decode_segment (e : gdt_entry) : segment :=
  mk_segment (Z.lor (base_low e) (Z.lor (Z.shiftl (base_middle e) 16) (Z.shiftl (base_high e) 24))) (seg_limit e)
    (Z.land (Z.shiftr (access e) 5) 3) (Z.testbit (access e) 7) (Z.testbit (access e) 3).

(** The descriptor a selector names. *)
Definition select (tss sel : Z) : option segment := decode_segment <$> gdt_entries tss !! Z.to_nat (sel / 8).

(** ** Interrupt gates *)

(** The entry points of interrupt.S. *)
Inductive stub :=
| default_int | reserved_int | exc_DIV0 | exc_DEBUG | exc_NMI | exc_BP | exc_OVRFLW | exc_BOUNDS | exc_OPCODE | exc_NOMATH
| exc_DOUBLEF | exc_MF | exc_TSS | exc_SWAP | exc_STACKF | exc_GP | exc_PF | exc_AC | exc_MC | exc_XM
| irq_0 | irq_1 | irq_7 | irq_12 | irq_net | asm_syscall.

#[global] Instance stub_eq_dec : EqDecision stub.
Proof. solve_decision. Defined.

Record idt_entry := mk_gate { base_lo : Z; sel : Z; always0 : Z; flags : Z; base_hi : Z }.

Definition gate0 : idt_entry := mk_gate 0 0 0 0 0.

Section idt.
Variable addr : stub → Z.

Definition idt_set_gate (num base sel flags : Z) (t : list idt_entry) : list idt_entry :=
  <[Z.to_nat num := mk_gate (Z.land base 0xFFFF) sel 0 flags (Z.land (Z.shiftr base 16) 0xFFFF)]> t.

(** The gates [n] from [i] on. *)
Fixpoint set_gates (n : nat) (i : Z) (s : stub) (t : list idt_entry) : list idt_entry :=
  match n with
  | O => t
  | S n' => set_gates n' (i + 1) s (idt_set_gate i (addr s) 0x8 0x8E t)
  end.

Definition set_default_handlers (t : list idt_entry) : list idt_entry :=
  set_gates 224 32 default_int (set_gates 32 0 reserved_int t).

Definition exceptions : list (Z * stub) :=
  [(0, exc_DIV0); (1, exc_DEBUG); (2, exc_NMI); (3, exc_BP); (4, exc_OVRFLW); (5, exc_BOUNDS); (6, exc_OPCODE); (7, exc_NOMATH);
   (8, exc_DOUBLEF); (9, exc_MF); (10, exc_TSS); (11, exc_SWAP); (12, exc_STACKF); (13, exc_GP); (14, exc_PF);
   (16, exc_MF); (17, exc_AC); (18, exc_MC); (19, exc_XM); (32, irq_0); (33, irq_1); (39, irq_7); (0x74, irq_12)].

Definition idt_init : list idt_entry :=
  foldl (λ t g, idt_set_gate g.1 (addr g.2) 0x8 0x8E t) (set_default_handlers (replicate 256 gate0)) exceptions.

Definition idt_install_handler (num base : Z) (t : list idt_entry) : list idt_entry := idt_set_gate num base 0x8 0x8E t.

(** syscall_init: the gate of int 0x80. *)
Definition syscall_init (t : list idt_entry) : list idt_entry := idt_set_gate 0x80 (addr asm_syscall) 0x08 0xEF t.

(** The table once the network card's interrupt [irq] is installed. *)
Definition idt_running (vector : Z) : list idt_entry :=
  syscall_init (idt_install_handler vector (addr irq_net) idt_init).

(** A gate as the processor decodes it. *)
Definition gate_offset (g : idt_entry) : Z := Z.lor (base_lo g) (Z.shiftl (base_hi g) 16).
Definition gate_dpl (g : idt_entry) : Z := Z.land (Z.shiftr (flags g) 5) 3.
Definition gate_present (g : idt_entry) : bool := Z.testbit (flags g) 7.

(** The handler [int n] reaches from ring [cpl]: a gate whose level is below
    the ring is a general protection fault. *)
Definition soft_int (t : list idt_entry) (cpl n : Z) : option Z :=
  g ← t !! Z.to_nat n;
  if negb (gate_present g) then None
  else if gate_dpl g <? cpl then gate_offset <$> t !! 13%nat
  else Some (gate_offset g).
End idt.

(** ** Faults *)

Inductive outcome := Exit (code : Z) | Panic | Resume | Other.

(** The C handlers of the exceptions, for the code selector in the frame. *)
Definition handle (s : stub) (cs : Z) : outcome :=
  match s with
  | exc_DIV0 | exc_OPCODE | exc_GP | exc_PF => if negb (Z.land cs 3 =? 0) then Exit (-1) else Panic
  | default_int | exc_DEBUG => Resume
  | reserved_int | exc_BP | exc_NOMATH | exc_MF | exc_TSS | exc_SWAP | exc_AC | exc_MC | exc_XM | exc_NMI | exc_OVRFLW | exc_BOUNDS
  | exc_DOUBLEF | exc_STACKF => Panic
  | irq_0 | irq_1 | irq_7 | irq_12 | irq_net | asm_syscall => Other
  end.

(** ** What the processor reads *)

Lemma land_ones_mod a n : 0 ≤ n → Z.land a (2 ^ n - 1) = a mod 2 ^ n.
Proof. intros Hn. rewrite <- Z.land_ones by done. f_equal. rewrite Z.ones_equiv. lia. Qed.

Lemma lor_shift lo hi n : 0 ≤ n → 0 ≤ lo < 2 ^ n → Z.lor lo (Z.shiftl hi n) = lo + hi * 2 ^ n.
Proof. intros Hn Hlo. rewrite Z.shiftl_mul_pow2, Z.lor_comm, lor_add by done. lia. Qed.

(** The base of a descriptor survives its scattering over three fields. *)
Lemma segment_base base limit acc gran :
  0 ≤ base < 4294967296 → seg_base (decode_segment (gdt_set_gate base limit acc gran)) = base.
Proof.
  intros Hb. cbn. change 0xFFFF with (2 ^ 16 - 1). change 0xFF with (2 ^ 8 - 1). rewrite !land_ones_mod, !Z.shiftr_div_pow2 by lia.
  rewrite (Z.lor_comm (Z.shiftl _ 16)). rewrite (Z.lor_comm (base mod 2 ^ 16)).
  rewrite !Z.shiftl_mul_pow2 by lia. change (2 ^ 16) with 65536. change (2 ^ 24) with 16777216. change (2 ^ 8) with 256.
  pose proof (lor_add ((base / 16777216) mod 256) (((base / 65536) mod 256) * 65536) 24 ltac:(lia) ltac:(zdm)) as E1.
  change (2 ^ 24) with 16777216 in E1. rewrite E1.
  replace ((base / 16777216) mod 256 * 16777216 + (base / 65536) mod 256 * 65536) with ((base / 65536) * 2 ^ 16) by (change (2 ^ 16) with 65536; zdm).
  rewrite lor_add by (change (2 ^ 16) with 65536; zdm). change (2 ^ 16) with 65536. zdm.
Qed.

Lemma gate_address base sel fl : 0 ≤ base < 4294967296 → gate_offset (mk_gate (Z.land base 0xFFFF) sel 0 fl (Z.land (Z.shiftr base 16) 0xFFFF)) = base.
Proof.
  intros Hb. unfold gate_offset. cbn [base_lo base_hi]. change 0xFFFF with (2 ^ 16 - 1). rewrite !land_ones_mod, Z.shiftr_div_pow2 by lia.
  rewrite lor_shift by (change (2 ^ 16) with 65536; zdm). change (2 ^ 16) with 65536. zdm.
Qed.

(** The kernel and user segments are flat; the user ones are open to ring 3,
    and the task register finds the task state segment. *)
Theorem segments_flat tss :
  0 ≤ tss < 4294967296 →
  select tss 0x08 = Some (mk_segment 0 0xFFFFFFFF 0 true true) ∧ select tss 0x10 = Some (mk_segment 0 0xFFFFFFFF 0 true false) ∧
  select tss 0x1B = Some (mk_segment 0 0xFFFFFFFF 3 true true) ∧ select tss 0x23 = Some (mk_segment 0 0xFFFFFFFF 3 true false) ∧
  (∃ g, select tss 0x28 = Some g ∧ seg_base g = tss ∧ seg_last g = sizeof_tss - 1 ∧ seg_dpl g = 0).
Proof.
  intros Ht. split_and!; try reflexivity. eexists. split; [reflexivity|]. split; [by apply segment_base|]. by split.
Qed.

Lemma segments_flat_witness : select 0x123456 0x28 = Some (mk_segment 0x123456 103 0 true true) ∧ 0 ≤ 0x123456 < 4294967296.
Proof.
  destruct (segments_flat 0x123456) as (_ & _ & _ & _ & g & Hg & Hb & Hl & Hd); [lia|].
  split; [|lia]. reflexivity.
Defined.

Section running.
Context (addr : stub → Z) (Haddr : ∀ s, 0 ≤ addr s < 4294967296).

(** The table of idt_init by the entry point of each vector. *)
Definition entry_of (o : option stub) : idt_entry :=
  match o with
  | Some s => mk_gate (Z.land (addr s) 0xFFFF) 0x8 0 0x8E (Z.land (Z.shiftr (addr s) 16) 0xFFFF)
  | None => gate0
  end.

Fixpoint set_stubs (n : nat) (i : Z) (s : stub) (t : list (option stub)) : list (option stub) :=
  match n with O => t | S n' => set_stubs n' (i + 1) s (<[Z.to_nat i := Some s]> t) end.

Definition init_stubs : list (option stub) :=
  foldl (λ t g, <[Z.to_nat g.1 := Some g.2]> t) (set_stubs 224 32 default_int (set_stubs 32 0 reserved_int (replicate 256 None))) exceptions.

Lemma set_gates_stubs n i s l : set_gates addr n i s (entry_of <$> l) = entry_of <$> set_stubs n i s l.
Proof.
  revert i l. induction n as [|n IH]; intros i l; [done|]. cbn [set_gates set_stubs]. rewrite <- IH. f_equal.
  unfold idt_set_gate. by rewrite list_fmap_insert.
Qed.

Lemma init_table : idt_init addr = entry_of <$> init_stubs.
Proof.
  unfold idt_init, init_stubs, set_default_handlers. replace (replicate 256 gate0) with (entry_of <$> replicate 256 None) by by rewrite fmap_replicate.
  rewrite !set_gates_stubs. generalize exceptions as l. generalize (set_stubs 224 32 default_int (set_stubs 32 0 reserved_int (replicate 256 None))) as t.
  intros t l. revert t. induction l as [|[n s] l IH]; intros t; [done|]. cbn [foldl]. rewrite <- IH. f_equal.
  unfold idt_set_gate. by rewrite list_fmap_insert.
Qed.

(** Every gate of idt_init is for ring 0. *)
Lemma init_full : Forall is_Some init_stubs ∧ length init_stubs = 256%nat.
Proof. split; [apply (bool_decide_unpack _); vm_compute; exact I|by vm_compute]. Qed.

Lemma init_flags : flags <$> idt_init addr = replicate 256 0x8E.
Proof.
  rewrite init_table. destruct init_full as [Hs Hl]. rewrite <- Hl. clear Hl. induction Hs as [|o l [s ->] _ IH]; [done|].
  rewrite !fmap_cons, IH. done.
Qed.

Lemma init_vector n s : init_stubs !! n = Some (Some s) → idt_init addr !! n = Some (entry_of (Some s)).
Proof. intros Hn. by rewrite init_table, list_lookup_fmap, Hn. Qed.

Lemma running_gate vector n :
  0 ≤ n < 256 → n ≠ 0x80 → ∃ g, idt_running addr vector !! Z.to_nat n = Some g ∧ flags g = 0x8E.
Proof.
  intros Hn Hs. unfold idt_running, syscall_init, idt_install_handler, idt_set_gate. rewrite list_lookup_insert_ne by lia.
  assert (∀ i, (i < 256)%nat → ∃ g, idt_init addr !! i = Some g ∧ flags g = 0x8E) as Hi.
  { intros i Hi. assert ((flags <$> idt_init addr) !! i = Some 0x8E) as E by (rewrite init_flags; by apply lookup_replicate_2).
    rewrite list_lookup_fmap in E. apply fmap_Some in E as (g & ? & ?). by exists g. }
  assert (length (idt_init addr) = 256%nat) as Hl by (rewrite <- (length_fmap flags), init_flags; apply length_replicate).
  destruct (decide (Z.to_nat vector = Z.to_nat n)) as [E|E].
  - rewrite E, list_lookup_insert_eq by lia. eexists. by split; [exact eq_refl|].
  - rewrite list_lookup_insert_ne by done. apply Hi. lia.
Qed.

(** A program in ring 3 that executes [int n] reaches the system calls for
    0x80; every other vector is a general protection fault, which ends the
    program and nothing else. *)
Theorem int_from_user vector n :
  0 ≤ vector < 256 → vector ≠ 13 → vector ≠ 0x80 → 0 ≤ n < 256 →
  soft_int (idt_running addr vector) 3 n = Some (addr (if decide (n = 0x80) then asm_syscall else exc_GP)) ∧
  handle exc_GP 0x1B = Exit (-1).
Proof.
  intros Hv Hv1 Hv2 Hn. split; [|done]. unfold soft_int. case_decide as E.
  - subst n. unfold idt_running, syscall_init, idt_install_handler, idt_set_gate. rewrite list_lookup_insert_eq.
    + cbn -[gate_offset]. by rewrite gate_address.
    + rewrite length_insert. rewrite <- (length_fmap flags), init_flags, length_replicate. lia.
  - destruct (running_gate vector n Hn E) as (g & Hg & Hf). rewrite Hg. cbn [mbind option_bind]. unfold gate_present, gate_dpl. rewrite Hf. cbn -[gate_offset idt_running].
    unfold idt_running, syscall_init, idt_install_handler, idt_set_gate. rewrite !list_lookup_insert_ne by lia.
    rewrite (init_vector 13 exc_GP) by by vm_compute. cbn [fmap option_fmap option_map]. unfold entry_of. by rewrite gate_address.
Qed.
End running.

Lemma int_from_user_witness (a : stub → Z := λ s, if decide (s = exc_GP) then 0x101000 else 0x102000) :
  soft_int (idt_running a 0x2B) 3 3 = Some 0x101000 ∧ soft_int (idt_running a 0x2B) 3 0x80 = Some 0x102000.
Proof.
  assert (∀ s, 0 ≤ a s < 4294967296) as Ha by (intros s; unfold a; case_decide; lia).
  split.
  - destruct (int_from_user a Ha 0x2B 3) as [E _]; [lia|lia|lia|lia|]. exact E.
  - destruct (int_from_user a Ha 0x2B 0x80) as [E _]; [lia|lia|lia|lia|]. exact E.
Defined.

(** The bound instruction raises vector 5 in any ring; its handler does not
    look at the ring and stops the machine. *)
Theorem bound_stops_machine (addr : stub → Z) :
  (∀ s, 0 ≤ addr s < 4294967296) → gate_offset <$> idt_init addr !! 5%nat = Some (addr exc_BOUNDS) ∧ handle exc_BOUNDS 0x1B = Panic.
Proof.
  intros Ha. split; [|done].
  rewrite (init_vector addr 5 exc_BOUNDS) by by vm_compute. cbn [fmap option_fmap option_map]. unfold entry_of. by rewrite gate_address.
Qed.
End Idt.
