(* ===== verification/TaskTheorems.v ===== *)
(** * What holds of the system of tasks *)

From S2P Require Import Prelude Bytes Paging VMem Elf Wsurf Vga Fb Pipe Net Rtl8139 Task TaskOps Fd TaskLife Trap.

Module TaskTheorems.
Import Task TaskQueue TaskSpec TaskOps TaskRefs Fd TaskLife Trap.

Section theorems.
Context {P N : Type} `{Sockets N}.
Abbreviation task := (task P).
Abbreviation file := (file P).
Abbreviation ts := (ts P N).
Implicit Types (s : ts) (t u : task) (rq zq dq : list Z) (tr : list (Z * Z)).

(** A state of a running system: boot, then any steps with the deaths
    [tr]. *)
Definition reachable tr s (z : Z) : Prop :=
  ∃ s0 s1, before_tasks s0 ∧ tasking_init s0 = Some (tt, s1) ∧ run tr (s1, 0) (s, z).

(** ** Exit records *)

(** The records are the last 32 of the deaths. *)
Record recorded tr s rq : Prop := {
  rc_length : length (exit_records s) = 32%nat;
  rc_next : exit_record_next s = Z.of_nat (length tr mod 32);
  rc_kept j d : tr !! j = Some d → (length tr ≤ j + 32)%nat → exit_records s !! (j mod 32)%nat = Some d;
  rc_only k d : exit_records s !! k = Some d → d = (0, 0) ∨ ∃ j, tr !! j = Some d ∧ k = (j mod 32)%nat ∧ (length tr ≤ j + 32)%nat;
  rc_nodup : NoDup tr.*1;
  rc_dead pid : pid ∈ tr.*1 → pid < next_pid s ∧ ¬ ready_pid s rq pid;
  rc_alive pid : 0 ≤ pid < next_pid s → ready_pid s rq pid ∨ pid ∈ tr.*1;
}.

Lemma ready_below s z rq zq dq pid : life s z rq zq dq → ready_pid s rq pid → pid < next_pid s.
Proof. intros Hl (p & _ & t & Ht & <-). pose proof (qu_pids _ _ _ _ _ (lf_queues _ _ _ _ _ Hl)) as [Hr _]. apply Hr in Ht. lia. Qed.

Lemma recorded_step tr s z rq zq dq e s' rq' :
  life s z rq zq dq → recorded tr s rq → evolves s rq e s' rq' → recorded (tr ++ option_list e) s' rq'.
Proof.
  intros Hl [R1 R2 R3 R4 R5 R6 R7] [E1 E2 E3 E4].
  assert (∀ pid, pid ∈ tr.*1 → pid < next_pid s' ∧ ¬ ready_pid s' rq' pid) as Hdead.
  { intros pid Hp. destruct (R6 pid Hp) as [Hlt Hno]. split; [lia|]. intros [Hr|Hge]%E3; [done|lia]. }
  assert (∀ pid, 0 ≤ pid < next_pid s' → ready_pid s' rq' pid ∨ pid ∈ (tr ++ option_list e).*1) as Halive.
  { intros pid Hp. rewrite fmap_app, elem_of_app. destruct (decide (pid < next_pid s)) as [Hlt|Hge].
    - destruct (R7 pid) as [Hr|Hd]; [lia| |auto]. destruct (E4 pid) as [?|He]; [by left|by left|].
      right. right. destruct e as [d|]; [|done]. injection He as <-. by left.
    - destruct (E4 pid) as [?|He]; [right; lia|by left|]. right. right. destruct e as [d|]; [|done]. injection He as <-. by left. }
  destruct e as [d|]; cbn [option_list] in *.
  2:{ rewrite app_nil_r in *. destruct E1 as [E1 E1']. constructor; try done; rewrite ?E1, ?E1'; done. }
  destruct E1 as (F1 & F2 & F3 & F4). rewrite R2, Nat2Z.id in F1.
  assert (length tr mod 32 < 32)%nat as Hm by (apply Nat.mod_upper_bound; lia).
  constructor.
  - by rewrite F1, length_insert.
  - rewrite F2, R2, length_app. cbn [length]. unfold EXIT_RECORDS. change 32 with (Z.of_nat 32). rewrite <- (Nat2Z.inj_add _ 1), <- Nat2Z.inj_mod. f_equal.
    rewrite Nat.Div0.add_mod_idemp_l. done.
  - intros j x Hj Hr. rewrite length_app in Hr. cbn in Hr. rewrite F1. apply lookup_app_Some in Hj as [Hj|[Hge Hj]].
    + apply lookup_lt_Some in Hj as Hlt. rewrite list_lookup_insert_ne; [apply R3; [done|lia]|]. intros E.
      assert (∃ k, length tr = j + 32 * k ∧ 0 < k)%nat as (k & Ek & Hk); [|lia].
      exists (length tr / 32 - j / 32)%nat. pose proof (Nat.div_mod (length tr) 32 ltac:(lia)). pose proof (Nat.div_mod j 32 ltac:(lia)).
      pose proof (Nat.Div0.div_le_mono j (length tr) 32 ltac:(lia)). lia.
    + assert (j = length tr) as -> by (destruct (j - length tr)%nat eqn:Ej; [lia|cbn in Hj; discriminate Hj]).
      rewrite Nat.sub_diag in Hj. injection Hj as <-. rewrite list_lookup_insert_eq by lia. done.
  - intros k x. rewrite F1. intros Hk. destruct (decide (k = length tr mod 32)%nat) as [->|Hne].
    + rewrite list_lookup_insert_eq in Hk by lia. injection Hk as <-. right. exists (length tr). rewrite length_app. cbn. split_and!; [|done|lia].
      rewrite lookup_app_r, Nat.sub_diag by lia. done.
    + rewrite list_lookup_insert_ne in Hk by done. destruct (R4 k x Hk) as [->|(j & Hj & -> & Hr)]; [by left|].
      right. exists j. split_and!; [by apply lookup_app_l_Some|done|]. rewrite length_app. cbn. destruct (decide (length tr = j + 32)%nat) as [E|]; [|lia].
      exfalso. apply Hne. rewrite E. replace (j + 32)%nat with (j + 1 * 32)%nat by lia. by rewrite Nat.Div0.mod_add.
  - rewrite fmap_app. apply NoDup_app. split_and!; [done| |by apply NoDup_singleton].
    intros pid Hp ->%list_elem_of_singleton. by apply (R6 d.1).
  - intros pid. rewrite fmap_app, elem_of_app. intros [Hp|Hp]; [by apply Hdead|]. apply list_elem_of_singleton in Hp as ->.
    split; [|done]. pose proof (ready_below _ _ _ _ _ _ Hl F3). lia.
  - exact Halive.
Qed.

Lemma run_life tr w w' rq zq dq :
  run tr w w' → life w.1 w.2 rq zq dq → recorded [] w.1 rq → ∃ rq' zq' dq', life w'.1 w'.2 rq' zq' dq' ∧ recorded tr w'.1 rq'.
Proof.
  intros Hr Hl Hb. induction Hr as [w|tr w1 w2 w3 e Hr IH Hs]; [by exists rq, zq, dq|].
  destruct (IH Hl Hb) as (rq1 & zq1 & dq1 & Hl1 & Hc1). destruct (life_step _ _ _ _ _ _ Hl1 Hs) as (rq2 & zq2 & dq2 & Hl2 & He).
  exists rq2, zq2, dq2. split; [done|]. exact (recorded_step _ _ _ _ _ _ _ _ _ Hl1 Hc1 He).
Qed.

Lemma reachable_life tr s z : reachable tr s z → ∃ rq zq dq, life s z rq zq dq ∧ recorded tr s rq.
Proof.
  intros (s0 & s1 & Hb & Hi & Hr). destruct (life_boot s0 s1 Hb Hi) as (p & Hl & E1 & E2 & E3).
  destruct (run_life _ _ _ _ _ _ Hr Hl) as (rq & zq & dq & ? & ?); [|by exists rq, zq, dq].
  constructor; cbn; try done; [by rewrite E1| |by apply NoDup_nil| |].
  - intros k d. rewrite E1. intros [-> _]%lookup_replicate. by left.
  - intros pid Hp. by apply elem_of_nil in Hp.
  - intros pid. rewrite E3. intros Hpid. left. assert (pid = 0) as -> by lia. exists p. split; [by left|].
    pose proof (lf_current _ _ _ _ _ Hl) as Hc. apply list_elem_of_singleton in Hc.
    destruct (chain_in _ _ _ _ p (li_ready _ _ _ _ _ _ _ (qu_links _ _ _ _ _ (lf_queues _ _ _ _ _ Hl)))) as (_ & t & Ht); [by left|].
    exists t. split; [done|]. destruct (qu_pids _ _ _ _ _ (lf_queues _ _ _ _ _ Hl)) as [Hid _]. apply Hid in Ht. lia.
Qed.

(** The last 32 deaths. *)
Definition recent tr : list (Z * Z) := drop (length tr - 32) tr.

Lemma find_record_found (l : list (Z * Z)) pid code :
  (pid, code) ∈ l → (∀ c, (pid, c) ∈ l → c = code) → find_record l pid = code.
Proof.
  induction l as [|[q c] l IH]; [by intros ?%elem_of_nil|]. intros Hin Hu. cbn. destruct (Z.eqb_spec q pid) as [->|Hne].
  - apply Hu. by left.
  - apply elem_of_cons in Hin as [[= -> _]|Hin]; [done|]. apply IH; [done|]. intros c' Hc. apply Hu. by right.
Qed.

Lemma find_record_none (l : list (Z * Z)) pid : (∀ c, (pid, c) ∉ l) → find_record l pid = 0.
Proof.
  induction l as [|[q c] l IH]; [done|]. intros Hn. cbn. destruct (Z.eqb_spec q pid) as [->|Hne].
  - exfalso. apply (Hn c). by left.
  - apply IH. intros c' Hc. apply (Hn c'). by right.
Qed.

Lemma recent_lookup tr d : d ∈ recent tr ↔ ∃ j, tr !! j = Some d ∧ (length tr ≤ j + 32)%nat.
Proof.
  unfold recent. rewrite list_elem_of_lookup. split.
  - intros [i Hi]. rewrite lookup_drop in Hi. eexists. split; [done|lia].
  - intros (j & Hj & Hr). exists (j - (length tr - 32))%nat. rewrite lookup_drop.
    replace (length tr - 32 + (j - (length tr - 32)))%nat with j by lia. done.
Qed.

(** In any state of the running system and for any pid but the kernel
    task's: the status SYS_WAIT reports is the one the task died with, for
    the last 32 tasks that died; for every other pid it is 0. *)
Theorem exit_status_of_recent_deaths tr s z pid :
  reachable tr s z → pid ≠ 0 →
  (∀ code, (pid, code) ∈ recent tr → task_exit_code pid s = Some (code, s)) ∧
  ((∀ code, (pid, code) ∉ recent tr) → task_exit_code pid s = Some (0, s)).
Proof.
  intros (rq & zq & dq & Hl & [])%reachable_life Hp. unfold task_exit_code, get. split.
  - intros code (j & Hj & Hr)%recent_lookup. do 2 f_equal. apply find_record_found.
    + eapply list_elem_of_lookup_2, rc_kept0; done.
    + intros c [k Hk]%list_elem_of_lookup. destruct (rc_only0 k _ Hk) as [[=]|(j' & Hj' & _)]; [done|].
      assert (j' = j) as ->; [|congruence]. apply (NoDup_lookup _ j' j pid rc_nodup0); by rewrite list_lookup_fmap, ?Hj, ?Hj'.
  - intros Hn. do 2 f_equal. apply find_record_none. intros c [k Hk]%list_elem_of_lookup.
    destruct (rc_only0 k _ Hk) as [[=]|(j & Hj & _ & Hr)]; [done|]. apply (Hn c), recent_lookup. by exists j.
Qed.

(** ** Which tasks are alive *)

Lemma alive_spec s z rq zq dq pid :
  queues s z rq zq dq → ∃ b, task_alive pid s = Some (b, s) ∧ (b = true ↔ ready_pid s rq pid).
Proof.
  intros Hq. pose proof (queue_fits _ _ _ _ _ Hq) as Hsz.
  pose proof (li_ready _ _ _ _ _ _ _ (qu_links _ _ _ _ _ Hq)) as Hr. unfold task_alive, mbind, T_bind, get.
  destruct (find_pid_cases (S (size (tasks s))) (tasks s) (ready_queue s) rq 0 pid Hr) as [(q & E & Hno)|(l1 & p & l2 & -> & Hp & Hp0 & E)]; [lia| |].
  - rewrite E. eexists. split; [done|]. cbn. split; [done|]. intros (p & Hp & Hx). by destruct (Hno p).
  - rewrite E. eexists. split; [done|]. destruct (Z.eqb_spec p 0); [done|]. split; [|done]. intros _. exists p. split; [|done].
    apply elem_of_app. right. by left.
Qed.

(** C15: In any state of the running system, the tasks that task_alive reports are
    exactly those that were created and have not died; the caller is one of
    them. *)
Theorem alive_from_birth_to_death tr s z pid :
  reachable tr s z →
  ∃ b, task_alive pid s = Some (b, s) ∧ (b = true ↔ 0 ≤ pid < next_pid s ∧ (pid ∉ tr.*1)) ∧
    (getpid s = Some (pid, s) → b = true).
Proof.
  intros (rq & zq & dq & Hl & Hrec)%reachable_life. destruct (alive_spec s z rq zq dq pid (lf_queues _ _ _ _ _ Hl)) as (b & E & Hb). exists b. split_and!; [done| |].
  - rewrite Hb. split.
    + intros Hr. split.
      * pose proof (ready_below _ _ _ _ _ _ Hl Hr). destruct Hr as (p & _ & t & Ht & <-).
        destruct (qu_pids _ _ _ _ _ (lf_queues _ _ _ _ _ Hl)) as [Hid _]. by apply Hid in Ht.
      * intros Hd. by destruct (rc_dead _ _ _ Hrec pid Hd).
    + intros [Hr Hn]. by destruct (rc_alive _ _ _ Hrec pid Hr).
  - intros Eg. apply Hb. exists (current_task s). split; [apply Hl|]. unfold getpid in Eg. apply bind_inv in Eg as (c & s0 & [= <- <-] & Eg).
    destruct (Z.eqb_spec (current_task s) 0) as [E0|_].
    + exfalso. destruct (chain_in _ _ _ _ _ (li_ready _ _ _ _ _ _ _ (qu_links _ _ _ _ _ (lf_queues _ _ _ _ _ Hl))) (lf_current _ _ _ _ _ Hl)). done.
    + apply bind_inv in Eg as (t & s0 & [-> Ht]%task_at_inv & [= <-]). by exists t.
Qed.

(** ** Round robin *)

(** Successive switches, each saving the next stack pointer of the list; the
    task that runs after each and the stack pointer it resumes at. *)
Fixpoint switches (sps : list Z) (s : ts) : option (list (Z * Z) * ts) :=
  match sps with
  | [] => Some ([], s)
  | sp :: sps' =>
      '(r, s1) ← schedule sp s;
      '(l, s2) ← switches sps' s1;
      Some ((current_task s1, r) :: l, s2)
  end.

Definition esp_of s (p : Z) : option Z := esp <$> tasks s !! p.

Lemma mod_next (i k n : nat) : n ≠ 0%nat → ((S i mod n + k) mod n = (i + S k) mod n)%nat.
Proof. intros Hn. rewrite Nat.Div0.add_mod_idemp_l. f_equal. lia. Qed.

(** Position [i] of the queue runs; the [k]-th switch after it goes to the
    [k]-th position behind. *)
Lemma switches_spec sps s z rq zq dq i :
  queues s z rq zq dq → rq !! i = Some (current_task s) →
  ∃ l s', switches sps s = Some (l, s') ∧ length l = length sps ∧ queues s' z rq zq dq ∧
    ∀ k q r, l !! k = Some (q, r) → rq !! ((i + S k) mod length rq)%nat = Some q ∧
      (if decide (S k < length rq)%nat then esp_of s q = Some r else sps !! (S k - length rq)%nat = Some r).
Proof.
  revert s i. induction sps as [|sp sps IH]; intros s i Hq Hi; [by exists [], s|].
  destruct (schedule_spec s z rq zq dq i _ sp Hq eq_refl Hi) as (q1 & t & u & s1 & Hq1 & Ht & Hu & E & Hsw & Hqs). pose proof Hsw as [].
  apply lookup_lt_Some in Hi as Hlt. assert (length rq ≠ 0%nat) as Hn0 by lia.
  pose proof (li_nodup _ _ _ _ _ _ _ (qu_links _ _ _ _ _ Hq)) as (Hnd & _)%NoDup_app.
  destruct (IH s1 (S i mod length rq)%nat Hqs) as (l & s' & El & Hlen & Hqs' & Hall); [by rewrite sw_current0|].
  exists ((q1, esp u) :: l), s'. cbn [switches]. rewrite E. cbn [mbind option_bind]. rewrite El. cbn. rewrite sw_current0.
  split_and!; [done|by rewrite Hlen|done|].
  assert (∀ q x, <[current_task s := set_esp sp t]> (tasks s) !! q = Some x → q ≠ current_task s → esp_of s q = Some (esp x)) as Hother.
  { intros q x Hx Hne. rewrite lookup_insert_ne in Hx by done. unfold esp_of. by rewrite Hx. }
  intros [|k] q r; cbn.
  - intros [= <- <-]. replace (i + 1)%nat with (S i) by lia. split; [done|]. case_decide as Hk.
    + apply Hother; [done|]. intros ->. assert (S i mod length rq = i)%nat as Em by (eapply NoDup_lookup; done).
      destruct (decide (S i < length rq)%nat) as [H1|H1]; [rewrite Nat.mod_small in Em by done; lia|].
      replace (S i) with (length rq) in Em by lia. rewrite Nat.Div0.mod_same in Em. lia.
    + assert (length rq = 1)%nat as H1 by lia. assert (S i mod length rq = i)%nat as Em by (rewrite H1, Nat.mod_1_r; lia).
      rewrite Em, Hi in Hq1. injection Hq1 as <-. rewrite lookup_insert_eq in Hu. injection Hu as <-. rewrite H1. done.
  - intros Hk. destruct (Hall k q r Hk) as [Hpos Hesp]. rewrite mod_next in Hpos by done. split; [done|].
    case_decide as Hk1; case_decide as Hk2; try lia.
    + unfold esp_of in *. rewrite sw_tasks0 in Hesp. rewrite lookup_insert_ne in Hesp; [done|]. intros <-.
      assert ((i + S (S k)) mod length rq = i)%nat as Em by (eapply NoDup_lookup; done).
      pose proof (Nat.div_mod (i + S (S k)) (length rq) Hn0) as Hd. rewrite Em in Hd.
      destruct ((i + S (S k)) / length rq)%nat as [|[|d]]; [lia|lia|]. nia.
    + assert (S (S k) = length rq) as Ek by lia. rewrite Ek, Nat.sub_diag. cbn.
      replace (i + S (S k))%nat with (i + 1 * length rq)%nat in Hpos by lia. rewrite Nat.Div0.mod_add, Nat.mod_small, Hi in Hpos by lia.
      injection Hpos as <-. unfold esp_of in Hesp. rewrite sw_tasks0, lookup_insert_eq in Hesp. cbn in Hesp. congruence.
    + replace (S (S k) - length rq)%nat with (S (S k - length rq)) by lia. done.
Qed.

(** C14: In any state of the running system, scheduling never fails and is round
    robin: there is a cyclic order of the ready tasks such that every
    sequence of switches follows it, so each task runs once in every round;
    a task resumes at the stack pointer saved when it was last switched
    out. *)
Theorem round_robin tr s z :
  reachable tr s z →
  ∃ rq i, chain next (tasks s) (ready_queue s) rq ∧ rq !! i = Some (current_task s) ∧
    (∀ sps, ∃ l s', switches sps s = Some (l, s') ∧ length l = length sps ∧
      ∀ k q r, l !! k = Some (q, r) → rq !! ((i + S k) mod length rq)%nat = Some q ∧
        (if decide (S k < length rq)%nat then esp_of s q = Some r else sps !! (S k - length rq)%nat = Some r)) ∧
    (∀ p, p ∈ rq → ∃ k, (k < length rq)%nat ∧ rq !! ((i + S k) mod length rq)%nat = Some p).
Proof.
  intros (rq & zq & dq & Hl & _)%reachable_life. pose proof (lf_queues _ _ _ _ _ Hl) as Hq.
  destruct (proj1 (list_elem_of_lookup _ _) (lf_current _ _ _ _ _ Hl)) as [i Hi]. exists rq, i. split_and!; [apply Hq|done| |].
  - intros sps. destruct (switches_spec sps s z rq zq dq i Hq Hi) as (l & s' & ? & ? & _ & ?). by exists l, s'.
  - intros p [j Hj]%list_elem_of_lookup. apply lookup_lt_Some in Hi as Hlt. apply lookup_lt_Some in Hj as Hjlt.
    destruct (decide (i < j)%nat) as [Hij|Hij].
    + exists (j - i - 1)%nat. split; [lia|]. replace (i + S (j - i - 1))%nat with j by lia. by rewrite Nat.mod_small.
    + exists (length rq + j - i - 1)%nat. split; [lia|]. replace (i + S (length rq + j - i - 1))%nat with (j + 1 * length rq)%nat by lia.
      by rewrite Nat.Div0.mod_add, Nat.mod_small.
Qed.

(** ** Pipes *)

Lemma fsum_zero q w (l : list file) : fsum q w l = 0 ↔ ∀ f, f ∈ l → uses q w f = 0.
Proof.
  split.
  - intros E f Hf. pose proof (fsum_in q w l f Hf). pose proof (uses_range q w f). lia.
  - induction l as [|f l IH]; [done|]. intros Hu. rewrite fsum_cons, (Hu f) by by left. rewrite IH; [done|]. intros g Hg. apply Hu. by right.
Qed.

Lemma total_zero q w (fm : gmap Z (list file)) : total q w fm = 0 ↔ ∀ p l, fm !! p = Some l → fsum q w l = 0.
Proof.
  induction fm as [|p l fm Hp IH] using map_ind.
  - unfold total. rewrite map_fold_empty. split; [|done]. intros _ p l Hx. by rewrite lookup_empty in Hx.
  - rewrite total_insert by done. pose proof (fsum_range q w l) as Hr.
    assert (0 ≤ total q w fm) as Ht.
    { clear IH Hp. induction fm as [|p' l' fm Hp' IH] using map_ind; [unfold total; by rewrite map_fold_empty|].
      rewrite total_insert by done. pose proof (fsum_range q w l'). lia. }
    split.
    + intros E x lx [[-> <-]|[Hne Hx]]%lookup_insert_Some; [lia|]. assert (total q w fm = 0) as E0 by lia. by apply (proj1 IH E0 x).
    + intros Hall. rewrite (Hall p l) by by rewrite lookup_insert_eq. rewrite (proj2 IH); [done|]. intros x lx Hx. apply (Hall x).
      rewrite lookup_insert_ne; [done|]. intros <-. congruence.
Qed.

(** The descriptor [f] of some task is the end [w] of the pipe at [q]. *)
Definition holds s (q : Z) (w : bool) : Prop :=
  ∃ p t f, tasks s !! p = Some t ∧ f ∈ files t ∧ is_pipe f = true ∧ f_pipe f = q ∧ is_writer f = w.

Lemma held_holds s q w : held s q w ≠ 0 ↔ holds s q w.
Proof.
  unfold held. split.
  - intros Hne. destruct (decide (map_Exists (λ _ l, fsum q w l ≠ 0) (tables s))) as [(p & l & Hp & Hl)|Hno].
    + unfold tables in Hp. rewrite lookup_fmap in Hp. apply fmap_Some in Hp as (t & Ht & ->). clear Hne.
      assert (∃ f, f ∈ files t ∧ uses q w f ≠ 0) as (f & Hf & Hu).
      { destruct (decide (Exists (λ f, uses q w f ≠ 0) (files t))) as [Hx|Hx]; [by apply Exists_exists in Hx as (f & ? & ?); exists f|].
        exfalso. apply Hl, fsum_zero. intros f Hf. destruct (decide (uses q w f = 0)) as [|Hn]; [done|]. exfalso. apply Hx, Exists_exists. by exists f. }
      exists p, t, f. unfold uses in Hu. destruct (is_pipe f); [|done]. destruct (Z.eqb_spec (f_pipe f) q); [|done].
      destruct (is_writer f), w; done.
    + exfalso. apply Hne, total_zero. intros p l Hp. destruct (decide (fsum q w l = 0)) as [|Hn]; [done|]. exfalso. apply Hno. by exists p, l.
  - intros (p & t & f & Ht & Hf & Hp & <- & <-) E. rewrite total_zero in E.
    assert (tables s !! p = Some (files t)) as Htab by (unfold tables; by rewrite lookup_fmap, Ht).
    specialize (E p _ Htab). rewrite fsum_zero in E. specialize (E f Hf). rewrite uses_pipe, eqb_reflx in E by done. done.
Qed.


(** ** The first run *)

Lemma spawn_starts s z rq zq dq nm entry dir user_esp stdio pid s' :
  life s z rq zq dq → next_pid s < 2 ^ 31 - 1 →
  Forall (λ a, 0 ≤ a ∧ a + STACK_SIZE < 2 ^ 32) (heap s) →
  spawn_task nm entry dir user_esp stdio s = Some (pid, s') →
  task_alive pid s' = Some (true, s') ∧
  ∃ p t, spawned s s' p pid entry dir user_esp stdio t ∧
    RESTORE_REGS (esp t) (kmem s') = Some (initial entry user_esp, stack_mem t + STACK_SIZE) ∧
    (user_esp ≠ 0 → kstack_top t = stack_mem t + STACK_SIZE).
Proof.
  intros Hl Hpid Hheap E. pose proof Hl as [Lq Lc _ _ _ _].
  assert (rq ≠ []) as Hne by (intros ->; by apply elem_of_nil in Lc).
  destruct (spawn_inv nm entry dir user_esp stdio s pid s' z rq zq dq Lq Hne Hpid E) as (p & t & Hsp & Hq'). pose proof Hsp as [].
  rewrite Forall_forall in Hheap. destruct (Hheap _ sp_heap0) as [Hs1 Hs2].
  assert (u32 (stack_mem t + STACK_SIZE) = stack_mem t + STACK_SIZE) as Eu by (apply u32_small; unfold STACK_SIZE in *; lia).
  rewrite Eu in *. split.
  - destruct (alive_spec s' z _ zq dq pid Hq') as (b & Ea & Hb). rewrite Ea. do 2 f_equal. apply Hb. exists p.
    split; [apply elem_of_app; right; by left|]. exists t. split; [done|by destruct sp_pid0].
  - exists p, t. split_and!; [done| |done].
    pose proof (save_restore (initial entry user_esp) 0 (stack_mem t + STACK_SIZE) (kmem s) (initial_ok _ _)) as Hsr.
    unfold SAVE_REGS in Hsr. rewrite <- initial_frame, sp_frame0 in Hsr. apply Hsr. unfold STACK_SIZE in *. lia.
Qed.

(** A task created in any state of the running system starts at its entry
    point: when the scheduler first resumes it, the frame on its stack is
    restored to a context with the entry point, the selectors of its ring
    and cleared registers, leaving its kernel stack empty. *)
Theorem spawned_task_starts tr s z nm entry dir user_esp stdio pid s' :
  reachable tr s z → next_pid s < 2 ^ 31 - 1 →
  Forall (λ a, 0 ≤ a ∧ a + STACK_SIZE < 2 ^ 32) (heap s) →
  spawn_task nm entry dir user_esp stdio s = Some (pid, s') →
  task_alive pid s' = Some (true, s') ∧
  ∃ p t, tasks s' !! p = Some t ∧ id t = pid ∧ tasks s !! p = None ∧
    RESTORE_REGS (esp t) (kmem s') = Some (initial entry user_esp, stack_mem t + STACK_SIZE) ∧
    (user_esp ≠ 0 → kstack_top t = stack_mem t + STACK_SIZE).
Proof.
  intros (rq & zq & dq & Hl & _)%reachable_life Hpid Hheap E.
  destruct (spawn_starts _ _ _ _ _ _ _ _ _ _ _ _ Hl Hpid Hheap E) as (Ha & p & t & [] & Hr & Hk). split; [done|].
  exists p, t. split_and!; [done|by destruct sp_pid0|by destruct sp_fresh0|done|done].
Qed.
End theorems.

(** ** A session *)

(** The kernel task opens a pipe and starts a task with its writing end,
    which runs and exits with status 7. *)
Abbreviation kts := (ts unit (Net.net Rtl8139.rtl)).

Definition demo0 : kts :=
  mk_ts ∅ 0 0 0 0 (replicate 32 (0, 0)) 0 0 (mk_objects ∅ (Net.set_socks [] Rtl8139.demo_net)) (Fb.mk_fb false 0 None (-1) (Vga.mk_vga [] 0 0 15 0 0) (Fb.mk_hw 0 [] 0 0 [] 0 [] 0 [] false 0 [] true []))
    (Wsurf.mk_ws [] ElfTheorems.demo_caller) ∅ [0x1000; 0x2000; 0x3000; 0x8000].

Definition after {A} (r : option (A * kts)) : kts := default demo0 (snd <$> r).

Definition demo1 : kts := after (tasking_init demo0).
Definition demo2 : kts := after (sys_pipe [] 0x40000000 demo1).
Definition demo_stdio : list (file unit) := take 2 console_files ++ [as_pipe FD_PIPE_W 0x2000 file0].
Definition demo3 : kts := after (spawn_task [104] 0x40000000 0 0x50000000 (Some demo_stdio) demo2).
Definition demo4 : kts := after (schedule 0x7000 demo3).
Definition demo5 : kts := after (exit 7 demo4).
Definition demo6 : kts := after (schedule 0x6000 demo5).

Lemma demo_before : before_tasks demo0.
Proof. constructor; try reflexivity. split; [|by repeat constructor]. apply (bool_decide_unpack _). by vm_compute. Qed.

Lemma demo_ran : ∃ r1 r2 r3 r4,
  tasking_init demo0 = Some (tt, demo1) ∧ sys_pipe [] 0x40000000 demo1 = Some (r1, demo2) ∧
  spawn_task [104] 0x40000000 0 0x50000000 (Some demo_stdio) demo2 = Some (r2, demo3) ∧
  schedule 0x7000 demo3 = Some (r3, demo4) ∧ exit 7 demo4 = Some (tt, demo5) ∧ schedule 0x6000 demo5 = Some (r4, demo6).
Proof. eexists _, _, _, _. split_and!; vm_compute; reflexivity. Qed.

Lemma demo_reach2 : reachable [] demo2 0.
Proof.
  destruct demo_ran as (r1 & r2 & r3 & r4 & E1 & E2 & E3 & E4 & E5 & E6). exists demo0, demo1. split_and!; [exact demo_before|exact E1|].
  apply (run_step [] _ (demo1, 0) _ None); [constructor|]. eapply step_pipe; exact E2.
Qed.

Lemma demo_reach6 : reachable [(1, 7)] demo6 0.
Proof.
  destruct demo_ran as (r1 & r2 & r3 & r4 & E1 & E2 & E3 & E4 & E5 & E6). exists demo0, demo1. split_and!; [exact demo_before|exact E1|].
  apply (run_step [] _ (demo4, 0) _ (Some (1, 7))); [|eapply step_exit; [by vm_compute|exact E5|exact E6]].
  apply (run_step [] _ (demo3, 0) _ None); [|eapply step_switch; exact E4].
  apply (run_step [] _ (demo2, 0) _ None); [|eapply step_spawn; [by vm_compute|by vm_compute| |exact E3]].
  - apply (run_step [] _ (demo1, 0) _ None); [constructor|]. eapply step_pipe; exact E2.
  - cbn. split; [lia|]. eexists. split; [by vm_compute|]. intros f Hf Hp. clear E1 E2 E3 E4 E5 E6.
    apply elem_of_cons in Hf as [->|Hf]; [discriminate Hp|]. apply elem_of_cons in Hf as [->|Hf]; [discriminate Hp|].
    apply list_elem_of_singleton in Hf as ->. apply (list_elem_of_lookup_2 _ 4). vm_compute. reflexivity.
Qed.

Lemma exit_status_of_recent_deaths_witness : task_exit_code 1 demo6 = Some (7, demo6) ∧ task_exit_code 2 demo6 = Some (0, demo6).
Proof.
  split.
  - destruct (exit_status_of_recent_deaths [(1, 7)] demo6 0 1 demo_reach6) as [H1 _]; [lia|]. apply H1. by left.
  - destruct (exit_status_of_recent_deaths [(1, 7)] demo6 0 2 demo_reach6) as [_ H2]; [lia|]. apply H2.
    intros code Hc. apply list_elem_of_singleton in Hc. discriminate Hc.
Defined.

Lemma alive_from_birth_to_death_witness :
  (∃ b, task_alive 1 demo6 = Some (b, demo6) ∧ (b = true ↔ 0 ≤ 1 < next_pid demo6 ∧ (1 ∉ [1]))) ∧ next_pid demo6 = 2.
Proof.
  split; [|by vm_compute]. destruct (alive_from_birth_to_death [(1, 7)] demo6 0 1 demo_reach6) as (b & H1 & H2 & _). exists b. split; [exact H1|exact H2].
Defined.

Lemma round_robin_witness : ∃ rq, chain next (tasks demo2) (ready_queue demo2) rq ∧ ready_queue demo2 = 0x1000.
Proof.
  destruct (round_robin [] demo2 0 demo_reach2) as (rq & i & H1 & _). exists rq. split; [exact H1|by vm_compute].
Defined.


Lemma spawned_task_starts_witness :
  task_alive 1 demo3 = Some (true, demo3) ∧ ∃ sp, RESTORE_REGS sp (kmem demo3) = Some (initial 0x40000000 0x50000000, 0xC000).
Proof.
  assert (spawn_task [104] 0x40000000 0 0x50000000 (Some demo_stdio) demo2 = Some (1, demo3)) as E by (vm_compute; reflexivity).
  assert (Forall (λ a, 0 ≤ a ∧ a + STACK_SIZE < 2 ^ 32) (heap demo2)) as Hh by (apply (bool_decide_unpack _); vm_compute; exact I).
  destruct (spawned_task_starts [] demo2 0 [104] 0x40000000 0 0x50000000 (Some demo_stdio) 1 demo3 demo_reach2 ltac:(by vm_compute) Hh E)
    as (H1 & p & t & Ht & _ & Hf & H2 & _).
  split; [exact H1|]. exists (esp t). rewrite H2. do 2 f_equal. clear E Hh H1 H2.
  assert (map_Forall (λ p t, p = 0x1000 ∨ stack_mem t = 0x8000) (tasks demo3)) as Hall by (apply (bool_decide_unpack _); vm_compute; exact I).
  destruct (Hall p t Ht) as [->| ->]; [|reflexivity]. exfalso.
  assert (tasks demo2 !! 0x1000 ≠ None) as Hn by (vm_compute; discriminate). exact (Hn Hf).
Defined.
End TaskTheorems.
