(* ===== verification/Syscall.v ===== *)
(** * System calls (kernel/syscall.c)

    The handlers over the state of the whole kernel: tasks with their
    descriptors and memory, the name space, consoles, keyboard, mouse, serial
    line and network.  A handler that blocks is a loop around passes that do
    not; what interrupts and other tasks do between two passes is one turn of
    a schedule.  Log messages are left out. *)

From S2P Require Import Prelude Bytes Block Ext2Types Ext2Core Vfs Initrd Namespace.
From S2P Require Import Paging VMem Elf Ring Pipe Console Keyboard Mouse Rtc Wsurf Vga Fb.
From S2P Require Import Net Tcp NetRx Task Fd.

Module Syscall.
Import Task Fd.
Import (hints) NetRx.

Section syscall.
Context {D E : Type} `{Net.Nic D} `{BlockEnvOk E}.

#[local] Existing Instance T_ret.
#[local] Existing Instance T_bind.

Abbreviation ts := (Task.ts Namespace.nptr (Net.net D)).
Abbreviation file := (Task.file Namespace.nptr).
Abbreviation T := (@Task.T Namespace.nptr (Net.net D)).
Abbreviation fsk := (@Namespace.kernel E).

(** [uart]: the bytes sent on the serial line; [boot_unix]: the time at
    boot, from the clock chip. *)
Record sys := mk_sys {
  core : ts;
  fs : fsk;
  chans : list Console.console;
  keys : Keyboard.kbd;
  mice : Mouse.mouse;
  uart : list Z;
  boot_unix : Z;
}.

Definition set_core (v : ts) (s : sys) : sys := mk_sys v (fs s) (chans s) (keys s) (mice s) (uart s) (boot_unix s).
Definition set_fs (v : fsk) (s : sys) : sys := mk_sys (core s) v (chans s) (keys s) (mice s) (uart s) (boot_unix s).
Definition set_chans (v : list Console.console) (s : sys) : sys := mk_sys (core s) (fs s) v (keys s) (mice s) (uart s) (boot_unix s).
Definition set_keys (v : Keyboard.kbd) (s : sys) : sys := mk_sys (core s) (fs s) (chans s) v (mice s) (uart s) (boot_unix s).
Definition set_uart (v : list Z) (s : sys) : sys := mk_sys (core s) (fs s) (chans s) (keys s) (mice s) v (boot_unix s).

Definition vmem (s : sys) : Paging.vm := mem (core s).
Definition net_of (s : sys) : Net.net D := net_state (objs (core s)).
Definition set_net (n : Net.net D) (s : sys) : sys :=
  set_core (set_objs (mk_objects (pipes (objs (core s))) n) (core s)) s.
Definition timer_ticks (s : sys) : Z := Net.timer_ticks (net_of s).

(** ** Passes *)

(** [None]: the kernel faults or panics. *)
Definition I (A : Type) : Type := sys → option (A * sys).
#[local] Instance I_ret : MRet I := λ A x s, Some (x, s).
#[local] Instance I_bind : MBind I := λ A C f c s, match c s with Some (a, s') => f a s' | None => None end.

Definition fault {A} : I A := λ _, None.
Definition ask {A} (f : sys → A) : I A := λ s, Some (f s, s).
Definition put (f : sys → sys) : I unit := λ s, Some (tt, f s).

(** Operations of the components. *)
Definition core_op {A} (c : T A) : I A := λ s,
  match c (core s) with Some (a, v) => Some (a, set_core v s) | None => None end.
Definition fs_op {A} (c : ST fsk A) : I A := λ s, let '(a, v) := c (fs s) in Some (a, set_fs v s).
Definition chan_op {A} (c : list Console.console → A * list Console.console) : I A := λ s,
  let '(a, v) := c (chans s) in Some (a, set_chans v s).
Definition screen_op (f : Vga.vga → Vga.vga) : I unit :=
  put (λ s, set_core (set_display (Fb.set_screen (f (Fb.screen (display (core s)))) (display (core s))) (core s)) s).

(** The running task. *)
Definition task_current : I (task Namespace.nptr) := core_op (p ← get current_task; task_at p).

(** ** Waiting *)

(** What happens while the caller is switched out: what the other tasks do,
    and what arrives from the network and the clock. *)
Record turn := mk_turn { t_net : NetRx.event; t_others : sys → sys }.

Definition take_turn (e : turn) (s : sys) : sys :=
  let s' := t_others e s in set_net (NetRx.happen (t_net e) (net_of s')) s'.

(** A call under a schedule: it returns, it still waits when the schedule
    ends, or the kernel faults. *)
Inductive res (A : Type) := Done (x : A) (s : sys) (l : list turn) | Waiting | Fault.
Arguments Done {A}.
Arguments Waiting {A}.
Arguments Fault {A}.

Definition Y (A : Type) : Type := sys → list turn → res A.
#[local] Instance Y_ret : MRet Y := λ A x s l, Done x s l.
#[local] Instance Y_bind : MBind Y := λ A C f c s l,
  match c s l with Done a s' l' => f a s' l' | Waiting => Waiting | Fault => Fault end.

Definition now {A} (c : I A) : Y A := λ s l, match c s with Some (a, s') => Done a s' l | None => Fault end.

(** [for (;;) { body; task_switch(); }]: a pass returns, or goes on with the
    new value of its variables. *)
Fixpoint loop_from {A C} (body : C → I (A + C)) (l : list turn) (c : C) (s : sys) : res A :=
  match body c s with
  | None => Fault
  | Some (inl a, s') => Done a s' l
  | Some (inr c', s') =>
      match l with
      | [] => Waiting
      | e :: l' => loop_from body l' c' (take_turn e s')
      end
  end.

Definition loop {A C} (body : C → I (A + C)) (c : C) : Y A := λ s l, loop_from body l c s.

(** A blocking call of the network; the others go on meanwhile, the network
    being the caller's until it returns. *)
Definition net_op {A} (c : NetRx.B A) : Y A := λ s l,
  match c (net_of s) (t_net <$> l) with
  | Some (a, n, ev) =>
      let k := (length l - length ev)%nat in
      Done a (set_net n (foldl (λ s e, t_others e s) s (take k l))) (drop k l)
  | None => Waiting
  end.

(** ** User memory *)

Definition user_ok (a len : Z) (write : bool) : I bool := ask (λ s, Paging.user_ok (vmem s) a len write).

Definition uget (a : Z) : I Z := λ s,
  match VMem.vget (vmem s) (Paging.current_directory (vmem s)) a with Some b => Some (b, s) | None => None end.

(** The [n] bytes at [a]. *)
Fixpoint uread (n : nat) (a : Z) : I (list Z) :=
  match n with
  | O => mret []
  | S n' => b ← uget a; l ← uread n' (u32 (a + 1)); mret (b :: l)
  end.

(** The string at [a], at most [n] bytes of it. *)
Fixpoint ustring (n : nat) (a : Z) : I (list Z) :=
  match n with
  | O => mret []
  | S n' => b ← uget a; if b =? 0 then mret [] else l ← ustring n' (u32 (a + 1)); mret (b :: l)
  end.

Definition uwrite (a : Z) (l : list Z) : I unit :=
  d ← ask (λ s, Paging.current_directory (vmem s));
  core_op (run_mem (VMem.vwrite d a l)).

Definition user_str_ok (a max : Z) : I bool := ask (λ s, Paging.user_str_ok (vmem s) (Elf.umem (vmem s)) a max).

Definition user_path_ok (path : Z) : I bool := if path =? 0 then mret false else user_str_ok path 128.

(** What [strncpy(s, src, n)] stores at [s]. *)
Definition strncpy_bytes (n : Z) (src : list Z) : list Z :=
  let l := take (Z.to_nat n) src in l ++ replicate (Z.to_nat n - length l) 0.

(** ** The console *)

Definition serial_write (l : list Z) : I unit := put (λ s, set_uart (uart s ++ l) s).

Definition console_write (buf : list Z) : I unit :=
  _ ← screen_op (Vga.vga_print buf);
  serial_write buf.

(** One byte from an interactive descriptor; -1: none. *)
Definition fd_trygetc (f : file) : I Z :=
  if f_type f =? FD_CONSOLE then
    k ← ask keys;
    let '(c, k) := Keyboard.kbd_getc k in
    _ ← put (set_keys k);
    mret (if negb (c =? 0) then u8 c else -1)
  else if f_type f =? FD_CHANNEL then chan_op (λ cs, Console.console_in_getc cs (f_cid f))
  else mret (-1).

(** The file object behind a pointer that fd_get gave out. *)
Definition fd_file (fd : Z) : I file :=
  r ← core_op (fd_get fd);
  match r with Some f => mret f | None => fault end.

(** One pass of [while ((c = fd_trygetc(f)) < 0) task_switch();]. *)
Definition getc_pass (fd : Z) (_ : unit) : I (Z + unit) :=
  f ← fd_file fd;
  c ← fd_trygetc f;
  mret (if c >=? 0 then inl c else inr tt).

Definition sys_getc : Y Z :=
  r ← now (core_op (fd_get 0));
  match r with
  | None => mret (-1)
  | Some f =>
      if negb (f_type f =? FD_CONSOLE) && negb (f_type f =? FD_CHANNEL) then mret (-1)
      else loop (getc_pass 0) tt
  end.

Definition sys_pollc : I Z :=
  r ← core_op (fd_get 0);
  match r with None => mret (-1) | Some f => fd_trygetc f end.

(** ** Pipes *)

Definition pipe_at (p : Z) : I Pipe.pipe := λ s,
  match pipes (objs (core s)) !! p with Some x => Some (x, s) | None => None end.
Definition put_pipe (p : Z) (x : Pipe.pipe) : I unit :=
  put (λ s, set_core (set_objs (mk_objects (<[p := x]> (pipes (objs (core s)))) (net_of s)) (core s)) s).

(** One pass of pipe_write with [done] bytes written. *)
Definition pipe_write_pass (p buf len done : Z) : I (Z + Z) :=
  l ← uread (Z.to_nat (len - done)) (u32 (buf + done));
  x ← pipe_at p;
  let '(r, x, rest) := Pipe.pipe_write x l in
  _ ← put_pipe p x;
  mret (match r with
        | Pipe.Return true => inl (s32 len)
        | Pipe.Return false => inl (-1)
        | Pipe.Wait => inr (len - zlength rest)
        end).

Definition pipe_read_pass (p buf len : Z) (_ : unit) : I (Z + unit) :=
  x ← pipe_at p;
  let '(r, x) := Pipe.pipe_read x len in
  _ ← put_pipe p x;
  match r with
  | Pipe.Return l => _ ← uwrite buf l; mret (inl (s32 (zlength l)))
  | Pipe.Wait => mret (inr tt)
  end.

(** ** Reading and writing *)

Definition node_at (p : Namespace.nptr) : I Vfs.fs_node := ask (λ s, Namespace.node_at (fs s) p).

Definition set_offset (v : Z) (f : file) : file := mk_file (f_type f) (f_node f) v (f_cid f) (f_pipe f) (f_sock f).
Definition advance (fd n : Z) (f : file) : I unit := core_op (put_file fd (set_offset (u32 (f_offset f + n)) f)).

Definition write_file (fd : Z) (f : file) (buf len : Z) : I Z :=
  if Z.land (f_type f) FD_WRITABLE =? 0 then mret (-1) else
  match f_node f with
  | None => mret (-1)
  | Some p =>
      n ← node_at p;
      match Vfs.write n with
      | None => mret (-1)
      | Some _ =>
          l ← uread (Z.to_nat len) buf;
          wrote ← fs_op (Vfs.vfs_write Namespace.node_at p (f_offset f) len l);
          _ ← advance fd wrote f;
          mret (s32 wrote)
      end
  end.

Definition sys_write (fd buf len : Z) : Y Z :=
  r ← now (core_op (fd_get fd));
  ok ← now (user_ok buf len false);
  match r with
  | None => mret (-1)
  | Some f =>
      if negb ok then mret (-1) else
      let ty := FD_TYPE (f_type f) in
      if ty =? FD_CONSOLE then now (l ← uread (Z.to_nat len) buf; _ ← console_write l; mret (s32 len))
      else if ty =? FD_PIPE_W then loop (pipe_write_pass (f_pipe f) buf len) 0
      else if ty =? FD_CHANNEL then
        now (l ← uread (Z.to_nat len) buf;
             _ ← chan_op (λ cs, Console.console_out_write cs (f_cid f) l);
             _ ← serial_write l;
             mret (s32 len))
      else if ty =? FD_FILE then now (write_file fd f buf len)
      else if ty =? FD_SOCKET then
        l ← now (uread (Z.to_nat len) buf); net_op (NetRx.tcp_send (f_sock f) l)
      else mret (-1)
  end.

Definition read_file (fd : Z) (f : file) (buf len : Z) : I Z :=
  if negb (Z.land (f_type f) FD_WRITEONLY =? 0) then mret (-1) else
  match f_node f with
  | None => fault
  | Some p =>
      l ← fs_op (Vfs.vfs_read Namespace.node_at p (f_offset f) len);
      _ ← uwrite buf l;
      _ ← advance fd (zlength l) f;
      mret (s32 (zlength l))
  end.

Definition sys_read (fd buf len : Z) : Y Z :=
  r ← now (core_op (fd_get fd));
  ok ← now (user_ok buf len true);
  match r with
  | None => mret (-1)
  | Some f =>
      if negb ok then mret (-1) else
      let ty := FD_TYPE (f_type f) in
      if (ty =? FD_CONSOLE) || (ty =? FD_CHANNEL) then
        if len =? 0 then mret 0 else
        c ← loop (getc_pass fd) tt;
        _ ← now (uwrite buf [u8 c]);
        mret 1
      else if ty =? FD_FILE then now (read_file fd f buf len)
      else if ty =? FD_PIPE_R then loop (pipe_read_pass (f_pipe f) buf len) tt
      else if ty =? FD_SOCKET then
        r ← net_op (NetRx.tcp_recv (f_sock f) len); _ ← now (uwrite buf r.2); mret r.1
      else mret (-1)
  end.

(** ** Names *)

Definition resolve (path : list Z) : I (option Namespace.nptr) := fs_op (Namespace.resolve path).

Definition fs_root : Namespace.nptr := Namespace.NInit Initrd.IRoot.

(** Copy the name of the entry out. *)
Definition put_name (out len : Z) (name : list Z) : I unit :=
  _ ← uwrite out (strncpy_bytes (len - 1) name);
  uwrite (u32 (out + (len - 1))) [0].

Definition sys_readdir (index name_out len : Z) : I Z :=
  if len =? 0 then mret (-1) else
  ok ← user_ok name_out len true;
  if negb ok then mret (-1) else
  r ← fs_op (Vfs.vfs_readdir Namespace.node_at fs_root index);
  match r with
  | None => mret (-1)
  | Some de => _ ← put_name name_out len (Vfs.d_name de); mret 0
  end.

Definition sys_open (path : Z) : I Z :=
  ok ← user_path_ok path;
  if negb ok then mret (-1) else
  l ← ustring 128 path;
  r ← resolve l;
  match r with
  | None => mret (-1)
  | Some node => core_op (open_node node)
  end.

Definition sys_listdir (path index name : Z) : I Z :=
  ok ← user_path_ok path;
  if negb ok then mret (-1) else
  ok ← user_ok name 128 true;
  if negb ok then mret (-1) else
  l ← ustring 128 path;
  r ← resolve l;
  match r with
  | None => mret (-1)
  | Some node =>
      r ← fs_op (Vfs.vfs_readdir Namespace.node_at node index);
      match r with
      | None => mret (-1)
      | Some de => _ ← put_name name 128 (Vfs.d_name de); mret 0
      end
  end.

(** The index of the last slash; -1: none. *)
Fixpoint last_slash (l : list Z) (i last : Z) : Z :=
  match l with [] => last | c :: l' => last_slash l' (i + 1) (if c =? 47 then i else last) end.

(** The directory a new name goes to, and the name; [None] is -1. *)
Definition parent_and_leaf (kpath : list Z) : I (option (Namespace.nptr * list Z)) :=
  let last := last_slash kpath 0 (-1) in
  if last <? 0 then mret (Some (fs_root, kpath)) else
  let leaf := drop (Z.to_nat (last + 1)) kpath in
  if match leaf with [] => true | c :: _ => c =? 47 end then mret None else
  let dir := take (Z.to_nat last) kpath in
  p ← (match dir with [] => mret (Some fs_root) | _ => resolve dir end);
  mret (match p with Some p => Some (p, leaf) | None => None end).

Definition is_dir (p : Namespace.nptr) : I bool :=
  n ← node_at p; mret (Z.land (Vfs.flags n) 0x7 =? Vfs.FS_DIRECTORY).

Definition sys_mkdir (path : Z) : I Z :=
  ok ← user_path_ok path;
  if negb ok then mret (-1) else
  kpath ← ustring 127 path;
  if match kpath with [] => true | _ => false end then mret (-1) else
  r ← parent_and_leaf kpath;
  match r with
  | None => mret (-1)
  | Some (parent, leaf) =>
      d ← is_dir parent;
      if negb d then mret (-1) else
      r ← fs_op (Vfs.vfs_mkdir Namespace.node_at (Some parent) leaf);
      mret (if r <? 0 then -1 else 0)
  end.

Definition O_RDONLY : Z := 0.
Definition O_WRONLY : Z := 1.
Definition O_RDWR : Z := 2.
Definition O_CREATE : Z := 4.
Definition O_TRUNC : Z := 8.

Definition has (flags f : Z) : bool := negb (Z.land flags f =? 0).

(** The checks of the flags. *)
Definition flags_ok (flags : Z) : bool :=
  let acc := Z.land flags (Z.lor O_RDONLY (Z.lor O_WRONLY O_RDWR)) in
  negb (has flags (Z.lnot (Z.lor O_RDONLY (Z.lor O_WRONLY (Z.lor O_RDWR (Z.lor O_CREATE O_TRUNC)))))) &&
  negb (has flags O_TRUNC && negb (has acc (Z.lor O_WRONLY O_RDWR))) &&
  ((acc =? O_RDONLY) || (acc =? O_WRONLY) || (acc =? O_RDWR)).

(** The node of the path, created if need be. *)
Definition open_or_create (kpath : list Z) (flags : Z) : I (option Namespace.nptr) :=
  r ← resolve kpath;
  match r with
  | Some node => mret (Some node)
  | None =>
      if negb (has flags O_CREATE) then mret None else
      r ← parent_and_leaf kpath;
      match r with
      | None => mret None
      | Some (parent, leaf) =>
          d ← is_dir parent;
          if negb d then mret None else fs_op (Vfs.vfs_create Namespace.node_at (Some parent) leaf)
      end
  end.

(** The type of the new descriptor. *)
Definition open_type (flags : Z) : Z :=
  Z.lor FD_FILE (Z.lor (if has flags (Z.lor O_WRONLY O_RDWR) then FD_WRITABLE else 0)
                       (if has flags O_WRONLY then FD_WRITEONLY else 0)).

Definition sys_openmode (path flags : Z) : I Z :=
  ok ← user_path_ok path;
  if negb ok then mret (-1) else
  if negb (flags_ok flags) then mret (-1) else
  kpath ← ustring 127 path;
  if match kpath with [] => true | _ => false end then mret (-1) else
  fd ← core_op free_fd;
  if fd <? 0 then mret (-1) else
  r ← open_or_create kpath flags;
  match r with
  | None => mret (-1)
  | Some node =>
      n ← node_at node;
      if negb (Z.land (Vfs.flags n) 0x7 =? Vfs.FS_FILE) then mret (-1) else
      t ← (if has flags O_TRUNC then fs_op (Vfs.vfs_truncate Namespace.node_at (Some node)) else mret 0);
      if t <? 0 then mret (-1) else
      _ ← core_op (install fd (as_file (open_type flags) node));
      mret fd
  end.
End syscall.

Arguments Done {D E A}.
Arguments Waiting {D E A}.
Arguments Fault {D E A}.
End Syscall.
