(* ===== verification/SysCalls.v ===== *)
(** * System calls: programs, memory, display and the dispatcher
    (kernel/syscall.c, kernel/elf.c)

    The rest of the handlers, and syscall_dispatch over the registers of the
    caller. *)

From S2P Require Import Prelude Bytes Block Ext2Types Ext2Core Vfs Initrd Namespace.
From S2P Require Import Paging VMem Elf Ring Pipe Console Keyboard Mouse Rtc Wsurf Vga Fb.
From S2P Require Import Net Tcp NetRx Task Fd Syscall.

Module SysCalls.
Import Task Fd Syscall.

Section calls.
Context {D E : Type} `{Net.Nic D} `{BlockEnvOk E}.
#[local] Existing Instances T_ret T_bind I_ret I_bind Y_ret Y_bind.

Abbreviation file := (Task.file Namespace.nptr).
Abbreviation sys := (@Syscall.sys D E).
Abbreviation I := (@Syscall.I D E).
Abbreviation Y := (@Syscall.Y D E).

(** ** Programs *)

Definition node_length (k : @Namespace.kernel E) (p : Namespace.nptr) : Z :=
  match p with
  | Namespace.NInit (Initrd.IFile i) =>
      match Initrd.root_nodes (Namespace.ramdisk k) !! Z.to_nat i with Some n => Initrd.f_length n | None => 0 end
  | Namespace.NExt ino =>
      match m_node_cache (mnt (Namespace.volume k)) !! ino with Some n => n_length n | None => 0 end
  | _ => 0
  end.

(** [path]: the string at the caller's pointer. *)
Definition elf_exec (path : list Z) (argv : Z) (stdio : option (list file)) : I Z :=
  let kpath := take 127 path in
  args ← ask (λ s, Elf.collect_args (vmem s) argv);
  r ← resolve kpath;
  match r with
  | None => mret (-1)
  | Some node =>
      len ← ask (λ s, node_length (fs s) node);
      buf ← fs_op (Vfs.vfs_read Namespace.node_at node 0 len);
      img ← core_op (run_mem (Elf.elf_load buf args));
      match img with
      | None => mret (-1)
      | Some img => core_op (spawn_task kpath (Elf.im_entry img) (Elf.im_dir img) (Elf.im_esp img) stdio)
      end
  end.

Definition sys_exec (path argv : Z) : I Z :=
  ok ← user_path_ok path;
  if negb ok then mret (-1) else
  l ← ustring 128 path;
  t ← task_current;
  elf_exec l argv (Some (files t)).

(** The three ints at [fds]. *)
Definition read_fds (fds : Z) : I (list Z) :=
  a ← uread 4 fds;
  b ← uread 4 (u32 (fds + 4));
  c ← uread 4 (u32 (fds + 8));
  mret [s32 (le_dec a); s32 (le_dec b); s32 (le_dec c)].

Definition sys_exec2 (path argv fds : Z) : I Z :=
  ok ← user_path_ok path;
  if negb ok then mret (-1) else
  ok ← (if fds =? 0 then mret true else user_ok fds 12 false);
  if negb ok then mret (-1) else
  l ← (if fds =? 0 then mret None else l ← read_fds fds; mret (Some l));
  stdio ← core_op (sys_exec2_stdio l);
  match stdio with
  | None => mret (-1)
  | Some stdio => l ← ustring 128 path; elf_exec l argv (Some stdio)
  end.

(** A descriptor of the channel; the pipe and socket fields of the caller's
    stack hold [x] and [y]. *)
Definition channel_file (cid x y : Z) : file := mk_file FD_CHANNEL None 0 cid x y.

Definition sys_execc (x y path argv : Z) : I Z :=
  ok ← user_path_ok path;
  if negb ok then mret (-1) else
  cid ← chan_op Console.console_alloc;
  if cid <? 0 then mret (-1) else
  l ← ustring 128 path;
  pid ← elf_exec l argv (Some (replicate 3 (channel_file cid x y)));
  if pid <? 0 then _ ← chan_op (λ cs, (tt, Console.console_free cs cid)); mret (-1) else
  _ ← chan_op (λ cs, (tt, Console.console_set_pid cs cid pid));
  mret cid.

(** One pass of [while (task_alive(pid)) task_switch();]. *)
Definition wait_pass (pid : Z) (_ : unit) : I (Z + unit) :=
  b ← core_op (task_alive pid);
  if b : bool then mret (inr tt) else c ← core_op (task_exit_code pid); mret (inl c).

Definition sys_wait (pid : Z) : Y Z := loop (wait_pass pid) tt.

(** ** Memory *)

Definition USER_HEAP_MAX : Z := 0x70000000.

(** The loop over the new pages; [cur] is the active directory. *)
Fixpoint sbrk_loop (n : nat) (dirp cur a new_brk : Z) : Paging.K unit :=
  match n with
  | O => Paging.panic
  | S n' =>
      if negb (a <? new_brk) then mret tt else
      p ← Paging.get_page_make a dirp;
      pg ← Paging.load p;
      _ ← (if Paging.frame pg =? 0 then
             _ ← Paging.alloc_frame p false true;
             VMem.vfill (Z.to_nat 0x1000) cur a 0
           else mret tt);
      sbrk_loop n' dirp cur (u32 (a + 0x1000)) new_brk
  end.

Definition set_brk (v : Z) (t : task Namespace.nptr) : task Namespace.nptr :=
  mk_task (id t) (name t) (esp t) (stack_mem t) (kstack_top t) (page_directory t) (owns_dir t) v (files t) (next t) (reap_next t).

Definition sys_sbrk (incr : Z) : I Z :=
  t ← task_current;
  if brk t =? 0 then mret (-1) else
  let old := brk t in
  if incr <=? 0 then mret (s32 old) else
  let new_brk := u32 (old + u32 incr) in
  if (new_brk <? old) || (new_brk >? USER_HEAP_MAX) then mret (-1) else
  cur ← ask (λ s, Paging.current_directory (vmem s));
  _ ← core_op (run_mem (sbrk_loop (Z.to_nat ((new_brk - old) / 0x1000 + 3)) (page_directory t) cur (Elf.page_base old) new_brk));
  _ ← core_op (p ← get current_task; put_task p (set_brk new_brk t));
  mret (s32 old).

(** ** The display *)

Definition FB_PITCH : Z := Fb.FB_WIDTH * (Fb.FB_BPP / 8).
Definition FB_SIZE : Z := FB_PITCH * Fb.FB_HEIGHT.
Definition USER_FB_BASE : Z := 0x78000000.

Definition words (l : list Z) : list Z := concat (le_enc 4 <$> l).

Definition sys_fbinfo (out : Z) : I Z :=
  ok ← user_ok out 16 true;
  pr ← ask (λ s, Fb.present (display (core s)));
  if negb ok || negb pr then mret (-1) else
  _ ← uwrite out (words [Fb.FB_WIDTH; Fb.FB_HEIGHT; FB_PITCH; Fb.FB_BPP]);
  mret 0.

(** The loop over the [n] pages left from [off] on. *)
Fixpoint map_fb (n : nat) (dirp phys off : Z) : Paging.K unit :=
  match n with
  | O => mret tt
  | S n' =>
      p ← Paging.get_page_make (u32 (USER_FB_BASE + off)) dirp;
      pg ← Paging.load p;
      _ ← Paging.store p (Paging.mk_page true true true (Paging.accessed pg) (Paging.dirty pg) (u32 (phys + off) / 0x1000));
      map_fb n' dirp phys (off + 0x1000)
  end.

Definition sys_fbmap : I Z :=
  t ← task_current;
  if brk t =? 0 then mret (-1) else
  r ← core_op (λ c, let '(r, d) := Fb.fb_map (id t) (display c) in Some (r, set_display d c));
  if r <? 0 then mret (-1) else
  phys ← ask (λ s, Fb.phys (display (core s)));
  _ ← core_op (run_mem (map_fb (Z.to_nat (FB_SIZE / 0x1000)) (page_directory t) phys 0));
  mret (s32 USER_FB_BASE).

Definition sys_fboff : I Z :=
  t ← task_current;
  core_op (λ c, let '(r, d) := Fb.fb_off (id t) (display c) in Some (r, set_display d c)).

Definition sys_font (buf : Z) : I Z :=
  ok ← user_ok buf Fb.FONT_BYTES true;
  font ← ask (λ s, Fb.fb_font_data (display (core s)));
  if negb ok then mret (-1) else
  match font with
  | None => mret (-1)
  | Some l => _ ← uwrite buf (take (Z.to_nat Fb.FONT_BYTES) l); mret 0
  end.

Definition sys_clear : I Z :=
  r ← core_op (fd_get 1);
  _ ← (if match r with Some f => f_type f =? FD_CHANNEL | None => false end
       then _ ← chan_op (λ cs, Console.console_out_write cs (match r with Some f => f_cid f | None => 0 end) [12]); mret tt
       else screen_op Vga.vga_clear);
  mret 0.

(** ** Time and input *)

Definition PIT_HZ : Z := 200.

Definition sleep_ticks (ms : Z) : Z := u32 (u32 (ms * PIT_HZ) + 999) / 1000.

Definition sleep_pass (start ticks : Z) (_ : unit) : I (Z + unit) :=
  now ← ask timer_ticks;
  mret (if u32 (now - start) <? ticks then inr tt else inl 0).

Definition sys_sleep (ms : Z) : Y Z :=
  let ticks := sleep_ticks ms in
  start ← now (ask timer_ticks);
  loop (sleep_pass start ticks) tt.

Definition sys_uptime : I Z := t ← ask timer_ticks; mret (u32 (t * (1000 / PIT_HZ))).

Definition sys_mouse (out : Z) : I Z :=
  ok ← user_ok out 12 true;
  if negb ok then mret (-1) else
  m ← ask mice;
  let '(x, y, b) := Mouse.mouse_state m in
  _ ← uwrite out (words [u32 x; u32 y; u32 b]);
  mret 0.

(** ** Channels *)

Definition sys_cread (cid buf len : Z) : I Z :=
  ok ← user_ok buf len true;
  if negb ok then mret (-1) else
  r ← chan_op (λ cs, Console.console_out_read cs cid len);
  _ ← uwrite buf r.2;
  mret r.1.

Definition sys_cwrite (cid buf len : Z) : I Z :=
  ok ← user_ok buf len false;
  if negb ok then mret (-1) else
  l ← uread (Z.to_nat len) buf;
  chan_op (λ cs, Console.console_in_write cs cid l).

Definition sys_cstat (cid : Z) : I Z :=
  pid ← ask (λ s, Console.console_pid (chans s) cid);
  b ← core_op (task_alive pid);
  mret (if b : bool then pid else 0).

Definition sys_cclose (cid : Z) : I Z := _ ← chan_op (λ cs, (tt, Console.console_free cs cid)); mret 0.

(** ** The network *)

(** [stk]: what the stack buffer of the query happens to hold. *)
Definition sys_resolve (stk : list Z) (name ip_out : Z) : Y Z :=
  ok ← now (user_str_ok name 128);
  if negb ok then mret (-1) else
  ok ← now (user_ok ip_out 4 true);
  if negb ok then mret (-1) else
  l ← now (ustring 128 name);
  r ← net_op (NetRx.dns_resolve stk l);
  match r with
  | None => now fault
  | Some (r, None) => mret r
  | Some (r, Some ip) => _ ← now (uwrite ip_out (le_enc 4 ip)); mret r
  end.

Definition sys_connect (ip port : Z) : Y Z :=
  fd ← now (core_op free_fd);
  if fd <? 0 then mret (-1) else
  h ← net_op (NetRx.tcp_connect ip port);
  if h <? 0 then mret (-1) else
  _ ← now (core_op (install fd (as_socket h)));
  mret fd.

(** ** Windows *)

Section windows.
(** Where the surfaces are. *)
Context (pool : Z).

Definition client (t : task Namespace.nptr) : Wsurf.client :=
  Wsurf.mk_client (id t) (brk t) (name t) (page_directory t).

Definition wsurf_op {A} (c : Wsurf.ws → option (A * Wsurf.ws)) : I A :=
  core_op (λ s, match c (surfaces s) with Some (a, w) => Some (a, set_surfaces w s) | None => None end).

Definition sys_wcreate (w h : Z) : I Z := t ← task_current; wsurf_op (Wsurf.wsurf_create pool (client t) w h).

Definition wev_bytes (e : Wsurf.wev) : list Z :=
  words [u32 (Wsurf.ev_type e); u32 (Wsurf.ev_a e); u32 (Wsurf.ev_b e); u32 (Wsurf.ev_c e)].

Definition sys_wevent (out : Z) : I Z :=
  ok ← user_ok out 16 true;
  if negb ok then mret (-1) else
  t ← task_current;
  r ← wsurf_op (λ w, Some (Wsurf.wsurf_event (client t) w));
  match r with None => mret (-1) | Some e => _ ← uwrite out (wev_bytes e); mret 0 end.

Definition info_bytes (x : Wsurf.wsurf_info) : list Z :=
  words [if Wsurf.i_alive x then 1 else 0; u32 (Wsurf.i_w x); u32 (Wsurf.i_h x); u32 (Wsurf.i_owner x)] ++ take 16 (Wsurf.i_name x).

Definition sys_wstat (slot out : Z) : I Z :=
  ok ← user_ok out 32 true;
  if negb ok then mret (-1) else
  r ← ask (λ s, Wsurf.wsurf_stat slot (surfaces (core s)));
  match r with None => mret (-1) | Some x => _ ← uwrite out (info_bytes x); mret 0 end.

Definition sys_wmap (slot : Z) : I Z := t ← task_current; wsurf_op (Wsurf.wsurf_map pool (client t) slot).

(** The event at a user address. *)
Definition read_wev (a : Z) : I Wsurf.wev :=
  w ← uread 4 a;
  x ← uread 4 (u32 (a + 4));
  y ← uread 4 (u32 (a + 8));
  z ← uread 4 (u32 (a + 12));
  mret (Wsurf.mk_wev (s32 (le_dec w)) (s32 (le_dec x)) (s32 (le_dec y)) (s32 (le_dec z))).

Definition sys_wsend (slot ev : Z) : I Z :=
  ok ← user_ok ev 16 false;
  if negb ok then mret (-1) else
  t ← task_current;
  e ← read_wev ev;
  wsurf_op (λ w, Some (Wsurf.wsurf_send (client t) slot e w)).

Definition sys_wunmap (slot : Z) : I Z := t ← task_current; wsurf_op (Wsurf.wsurf_unmap (client t) slot).

(** ** The dispatcher *)

(** struct regs: the registers that carry the call. *)
Record regs := mk_regs { eax : Z; ebx : Z; ecx : Z; edx : Z }.

(** A call that returns a value, and one that may not return. *)
Definition ret (c : I Z) : Y (option Z) := r ← now c; mret (Some r).
Definition retb (c : Y Z) : Y (option Z) := r ← c; mret (Some r).

(** The value for eax; [None]: the caller exited.  [junk] is what buffers on
    the stack and heap happen to hold. *)
Definition call (junk : list Z) (r : regs) : Y (option Z) :=
  let fd := s32 (ebx r) in
  match eax r with
  | 0 => _ ← now (core_op (exit (s32 (ebx r)))); mret None
  | 1 => retb (sys_write fd (ecx r) (edx r))
  | 2 => retb sys_getc
  | 3 => ret (sys_readdir (ebx r) (ecx r) (edx r))
  | 4 => ret sys_clear
  | 5 => ret (sys_exec (ebx r) (ecx r))
  | 6 => retb (sys_wait (s32 (ebx r)))
  | 7 => ret (sys_open (ebx r))
  | 8 => retb (sys_read fd (ecx r) (edx r))
  | 9 => ret (core_op (sys_close fd))
  | 10 => ret (sys_sbrk (s32 (ebx r)))
  | 11 => ret (sys_fbinfo (ebx r))
  | 12 => ret sys_fbmap
  | 13 => ret sys_fboff
  | 14 => retb (sys_sleep (ebx r))
  | 15 => ret (sys_mouse (ebx r))
  | 16 => ret sys_pollc
  | 17 => ret (sys_font (ebx r))
  | 18 => ret sys_uptime
  | 19 => ret (sys_execc (bget junk 0) (bget junk 1) (ebx r) (ecx r))
  | 20 => ret (sys_cread (s32 (ebx r)) (ecx r) (edx r))
  | 21 => ret (sys_cwrite (s32 (ebx r)) (ecx r) (edx r))
  | 22 => ret (sys_cstat (s32 (ebx r)))
  | 23 => ret (sys_cclose (s32 (ebx r)))
  | 24 => now (core_op (task_kill (s32 (ebx r))))
  | 25 => ret (core_op (sys_pipe junk (ebx r)))
  | 26 => ret (sys_exec2 (ebx r) (ecx r) (edx r))
  | 27 => retb (sys_resolve junk (ebx r) (ecx r))
  | 28 => retb (sys_connect (ebx r) (u16 (ecx r)))
  | 29 => ret (ask (λ s, Rtc.rtc_unix_time (boot_unix s) (timer_ticks s)))
  | 30 => ret (sys_wcreate (s32 (ebx r)) (s32 (ecx r)))
  | 31 => ret (sys_wevent (ebx r))
  | 32 => ret (sys_wstat (s32 (ebx r)) (ecx r))
  | 33 => ret (sys_wmap (s32 (ebx r)))
  | 34 => ret (sys_wsend (s32 (ebx r)) (ecx r))
  | 35 => ret (sys_wunmap (s32 (ebx r)))
  | 36 => ret (sys_openmode (ebx r) (s32 (ecx r)))
  | 37 => ret (sys_listdir (ebx r) (ecx r) (edx r))
  | 38 => ret (sys_mkdir (ebx r))
  | _ => mret (Some (-1))
  end.

Definition syscall_dispatch (junk : list Z) (r : regs) : Y (option regs) :=
  v ← call junk r;
  mret (match v with Some v => Some (mk_regs (u32 v) (ebx r) (ecx r) (edx r)) | None => None end).
End windows.
End calls.
End SysCalls.
