(* ===== verification/SysMem.v ===== *)
(** * What a handler may touch

    The invariant of the caller's view of the kernel: its descriptors, the
    pages user mode may access and the frames behind them.  After the checks
    of a handler succeed, reading and writing the caller's buffers cannot
    fault. *)

From S2P Require Import Prelude Bytes Block Ext2Core Namespace Paging VMem Elf Wsurf Pipe Net NetRx.
From S2P Require Import Task TaskOps Fd TaskLife Syscall.

Module SysMem.
Import Task Fd TaskSpec TaskOps TaskRefs TaskLife Syscall.

(** ** Pages *)

Lemma page_ok_translate m w a :
  Paging.page_ok m w a = true → ∃ k, VMem.translate m (Paging.current_directory m) a = Some (k, a mod 0x1000).
Proof.
  unfold Paging.page_ok, Paging.lookup_page. rewrite Paging.get_page_lookup. unfold VMem.translate.
  destruct (Paging.dirs m !! _) as [d|]; [|done]. cbn. unfold PagingFrames.pm. destruct (Z.eqb_spec (Paging.dir_table d (a / 0x1000 / 1024)) 0) as [E|E]; cbn [negb]; [done|].
  unfold Paging.load, Paging.deref, mbind, Paging.K_bind. cbn [fst snd].
  destruct (Paging.tabs m !! _) as [tab|] eqn:Et; [|done]. cbn. unfold PagingFrames.entry. cbn. rewrite Et. cbn. unfold Paging.page_at.
  destruct (tab !! _) as [pg|]; cbn; [|done]. intros Hp. destruct (Paging.present pg); [by eexists|done].
Qed.

Lemma page_ok_read m w a : Paging.page_ok m w a = true → Paging.page_ok m false a = true.
Proof.
  unfold Paging.page_ok. destruct (Paging.lookup_page m a) as [pg|]; [|done]. destruct (Paging.present pg), (Paging.user pg); cbn; done.
Qed.

(** The caller may access the [n] bytes at [a]. *)
Definition can (pt : bool → Z → bool) (w : bool) (a n : Z) : Prop :=
  ∀ x, a ≤ x < a + n → pt w x = true ∧ Paging.USER_VADDR_MIN ≤ x < Paging.USER_VADDR_MAX.

Lemma can_user_ok m a n w :
  0 ≤ a < 4294967296 → 0 ≤ n < 4294967296 → Paging.user_ok m a n w = true → can (Paging.page_ok m) w a n.
Proof.
  intros Ha Hn Hu x Hx. apply Paging.user_ok_exact in Hu as (H1 & H2 & H3); [|lia|lia]. split; [by apply H3|lia].
Qed.

Lemma can_part pt w a n b k : can pt w a n → a ≤ b → b + k ≤ a + n → can pt w b k.
Proof. intros Hc H1 H2 x Hx. apply Hc. lia. Qed.

Lemma can_next pt w a n : can pt w a (1 + n) → 0 < n → u32 (a + 1) = a + 1.
Proof.
  intros Hc Hn. destruct (Hc (a + 1) ltac:(lia)) as [_ Hr]. unfold Paging.USER_VADDR_MIN, Paging.USER_VADDR_MAX in Hr. apply u32_small. lia.
Qed.

(** Same mappings, frames still present. *)
Record same_map (m m' : Paging.vm) : Prop := {
  sm_tabs : Paging.tabs m' = Paging.tabs m;
  sm_dirs : Paging.dirs m' = Paging.dirs m;
  sm_current : Paging.current_directory m' = Paging.current_directory m;
  sm_ram k l : Paging.ram m !! k = Some l → ∃ l', Paging.ram m' !! k = Some l' ∧ length l' = length l;
}.

Lemma same_map_refl m : same_map m m.
Proof. constructor; try done. intros k l Hl. by exists l. Qed.

Lemma same_map_trans m1 m2 m3 : same_map m1 m2 → same_map m2 m3 → same_map m1 m3.
Proof.
  intros [A1 A2 A3 A4] [B1 B2 B3 B4]. constructor; try congruence.
  intros k l Hl. destruct (A4 k l Hl) as (l2 & H2 & E2). destruct (B4 k l2 H2) as (l3 & H3 & E3). exists l3. split; [done|congruence].
Qed.

Lemma page_ok_same m m' w a : same_map m m' → Paging.page_ok m' w a = Paging.page_ok m w a.
Proof.
  intros [A1 A2 A3 _]. unfold Paging.page_ok, Paging.lookup_page. rewrite !Paging.get_page_lookup, A2, A3.
  destruct (Paging.dirs m !! _); [|done]. destruct (negb _); [|done]. unfold Paging.load, Paging.deref, mbind, Paging.K_bind.
  rewrite A1. by destruct (Paging.tabs m !! _).
Qed.

Lemma translate_same m m' d a : same_map m m' → VMem.translate m' d a = VMem.translate m d a.
Proof. intros [A1 A2 A3 _]. unfold VMem.translate, PagingFrames.pm, PagingFrames.entry. by rewrite A2, A1. Qed.

Definition frame_full (m : Paging.vm) (a : Z) : Prop :=
  ∀ k off, VMem.translate m (Paging.current_directory m) a = Some (k, off) → ∃ l, Paging.ram m !! k = Some l ∧ length l = 4096%nat.

Lemma frame_full_same m m' a : same_map m m' → frame_full m a → frame_full m' a.
Proof.
  intros Hs Hf k off. rewrite (translate_same m m'), (sm_current _ _ Hs) by done. intros E. destruct (Hf k off E) as (l & Hl & Hn).
  destruct (sm_ram _ _ Hs k l Hl) as (l' & ? & ?). exists l'. split; [done|congruence].
Qed.

Lemma vget_some m w a : Paging.page_ok m w a = true → frame_full m a → is_Some (VMem.vget m (Paging.current_directory m) a).
Proof.
  intros Hp Hf. destruct (page_ok_translate m w a Hp) as [k Hk]. destruct (Hf _ _ Hk) as (l & Hl & Hn).
  unfold VMem.vget. rewrite Hk. cbn. rewrite Hl. cbn. apply lookup_lt_is_Some. rewrite Hn. zdm.
Qed.

Lemma vput_some m w a b :
  Paging.page_ok m w a = true → frame_full m a →
  ∃ m', VMem.vput (Paging.current_directory m) a b m = Some (tt, m') ∧ same_map m m'.
Proof.
  intros Hp Hf. destruct (page_ok_translate m w a Hp) as [k Hk]. destruct (Hf _ _ Hk) as (l & Hl & Hn).
  unfold VMem.vput. rewrite Hk. cbn. rewrite Hl. eexists. split; [done|]. constructor; try done. cbn.
  intros j lj Hj. destruct (decide (j = k)) as [->|]; [|rewrite lookup_insert_ne by done; by exists lj].
  rewrite lookup_insert_eq. eexists. split; [done|]. rewrite length_insert. congruence.
Qed.

Lemma vwrite_some l m w a :
  can (Paging.page_ok m) w a (zlength l) → (∀ x, a ≤ x < a + zlength l → frame_full m x) →
  ∃ m', VMem.vwrite (Paging.current_directory m) a l m = Some (tt, m') ∧ same_map m m'.
Proof.
  revert m a. induction l as [|b l IH]; intros m a Hc Hf; cbn [VMem.vwrite]; [exists m; split; [done|apply same_map_refl]|].
  rewrite zlength_cons in Hc, Hf. pose proof (zlength_nonneg l).
  destruct (vput_some m w a b) as (m1 & E1 & S1); [apply Hc; lia|apply Hf; lia|].
  unfold mbind, Paging.K_bind. rewrite E1. rewrite <- (sm_current _ _ S1).
  destruct l as [|c l]; [exists m1; split; [done|done]|]. rewrite zlength_cons in *. pose proof (zlength_nonneg l).
  rewrite (can_next _ _ _ _ Hc) by lia. destruct (IH m1 (a + 1)) as (m2 & E2 & S2).
  - intros x Hx. rewrite (page_ok_same m m1) by done. apply Hc. lia.
  - intros x Hx. apply (frame_full_same m m1); [done|]. apply Hf. lia.
  - exists m2. split; [exact E2|by eapply same_map_trans].
Qed.

(** ** Passes that do not fault *)

Section runs.
Context {D E : Type} `{Net.Nic D} `{BlockEnvOk E}.
#[local] Existing Instances T_ret T_bind I_ret I_bind Y_ret Y_bind.
Abbreviation sys := (@Syscall.sys D E).
Abbreviation I := (@Syscall.I D E).
Abbreviation T := (@Task.T Namespace.nptr (Net.net D)).
Abbreviation file := (Task.file Namespace.nptr).
Abbreviation ts := (Task.ts Namespace.nptr (Net.net D)).
Implicit Types (s : sys) (fl : list file) (pt : bool → Z → bool).

Definition runs {A} (c : I A) s (Q : A → sys → Prop) : Prop :=
  match c s with Some (a, s') => Q a s' | None => False end.

Lemma runs_bind {A C} (c : I A) (f : A → I C) s Q : runs c s (λ a s', runs (f a) s' Q) → runs (c ≫= f) s Q.
Proof. unfold runs, mbind, I_bind. by destruct (c s) as [[a s']|]. Qed.

Lemma runs_mono {A} (c : I A) s (Q R : A → sys → Prop) : runs c s Q → (∀ a s', Q a s' → R a s') → runs c s R.
Proof. unfold runs. destruct (c s) as [[a s']|]; [|done]. intros HQ HR. by apply HR. Qed.

Lemma runs_core {A} (c : T A) s a v Q : c (core s) = Some (a, v) → Q a (set_core v s) → runs (core_op c) s Q.
Proof. unfold runs, core_op. by intros ->. Qed.

(** An open file has a node; offsets are unsigned. *)
Definition file_ok (f : file) : Prop := (FD_TYPE (f_type f) = FD_FILE → f_node f ≠ None) ∧ 0 ≤ f_offset f.

(** What holds while a call runs: the running task has the descriptors
    [fl], and user mode may access the pages [pt]. *)
Record inv pt fl s : Prop := {
  iv_life : ∃ z rq zq dq, life (core s) z rq zq dq;
  iv_task : ∃ t, tasks (core s) !! current_task (core s) = Some t ∧ files t = fl;
  iv_files : Forall file_ok fl;
  iv_pages w a : Paging.page_ok (vmem s) w a = pt w a;
  iv_ram a : pt false a = true → frame_full (vmem s) a;
}.

Lemma inv_core pt fl s s' : core s' = core s → inv pt fl s → inv pt fl s'.
Proof. intros E0 []. constructor; unfold vmem in *; by rewrite ?E0. Qed.

Lemma inv_elsewhere pt fl s s' :
  elsewhere (core s) (core s') → same_map (vmem s) (vmem s') → inv pt fl s → inv pt fl s'.
Proof.
  intros He Hm [(z & rq & zq & dq & Hl) Ht Hn Hp Hr]. constructor; [| |done| |].
  - exists z, rq, zq, dq. by eapply life_elsewhere.
  - by rewrite (el_tasks _ _ He), (el_current _ _ He).
  - intros w a. by rewrite (page_ok_same (vmem s)).
  - intros a Ha. apply (frame_full_same (vmem s)); auto.
Qed.

Lemma inv_current pt fl s : inv pt fl s → current_task (core s) ≠ 0.
Proof.
  intros [(z & rq & zq & dq & Hl) _ _ _ _].
  by apply (TaskQueue.chain_in _ _ _ _ _ (li_ready _ _ _ _ _ _ _ (qu_links _ _ _ _ _ (lf_queues _ _ _ _ _ Hl))) (lf_current _ _ _ _ _ Hl)).
Qed.

Lemma inv_length pt fl s : inv pt fl s → zlength fl = 8.
Proof. intros [(z & rq & zq & dq & Hl) (t & Ht & <-) _ _ _]. by eapply table_length. Qed.

(** The parts of the core no call of this file touches. *)
Lemma elsewhere_objs (c : ts) o :
  (∃ z rq zq dq, life c z rq zq dq) →
  (λ p, (Pipe.readers p, Pipe.writers p)) <$> pipes o = (λ p, (Pipe.readers p, Pipe.writers p)) <$> pipes (objs c) →
  elsewhere c (set_objs o c).
Proof.
  intros (z & rq & zq & dq & [Lq _ _ _ _ _]) Ho. destruct (qu_heap _ _ _ _ _ Lq) as [N1 N2]. constructor; try done. split; [done|].
  eapply Forall_impl; [exact N2|]. intros p (P0 & P1 & P2). split_and!; [done|done|]. cbn.
  assert (((λ x, (Pipe.readers x, Pipe.writers x)) <$> pipes o) !! p = None) as Hn by by rewrite Ho, lookup_fmap, P2.
  rewrite lookup_fmap in Hn. by destruct (pipes o !! p).
Qed.

Lemma elsewhere_same (c c' : ts) :
  (∃ z rq zq dq, life c z rq zq dq) → tasks c' = tasks c → current_task c' = current_task c → ready_queue c' = ready_queue c →
  zombie_queue c' = zombie_queue c → next_pid c' = next_pid c → exit_records c' = exit_records c →
  exit_record_next c' = exit_record_next c → objs c' = objs c → heap c' = heap c → elsewhere c c'.
Proof.
  intros (z & rq & zq & dq & [Lq _ _ _ _ _]) E1 E2 E3 E4 E5 E6 E7 E8 E9. destruct (qu_heap _ _ _ _ _ Lq) as [N1 N2].
  constructor; try done; rewrite ?E8, ?E9, ?E1; done.
Qed.

(** The network state is not part of the invariant. *)
Lemma inv_net pt fl s n : inv pt fl (set_net n s) ↔ inv pt fl s.
Proof.
  assert (∀ n s, inv pt fl s → inv pt fl (set_net n s)) as Hd.
  { clear n s. intros n s Hi. eapply (inv_elsewhere _ _ s); [|apply same_map_refl|exact Hi]. apply elsewhere_objs; [apply Hi|done]. }
  split; [|apply Hd]. intros Hi. eapply (inv_elsewhere _ _ (set_net n s)); [|apply (same_map_refl (vmem (set_net n s)))|exact Hi].
  destruct (iv_life _ _ _ Hi) as (z & rq & zq & dq & [Lq _ _ _ _ _]). destruct (qu_heap _ _ _ _ _ Lq) as [N1 N2]. by constructor.
Qed.

(** ** User memory *)

Lemma runs_uget pt fl s a w (Q : Z → sys → Prop) :
  inv pt fl s → pt w a = true →
  (∀ b, VMem.vget (vmem s) (Paging.current_directory (vmem s)) a = Some b → Q b s) → runs (uget a) s Q.
Proof.
  intros Hi Hp HQ. unfold runs, uget. assert (pt false a = true) as Hr.
  { rewrite <- (iv_pages _ _ _ Hi) in Hp |- *. by eapply page_ok_read. }
  destruct (vget_some (vmem s) false a) as [b Hb]; [by rewrite (iv_pages _ _ _ Hi)|by apply (iv_ram _ _ _ Hi)|].
  rewrite Hb. by apply HQ.
Qed.

(** The bytes at [a]. *)
Definition at_user s (a : Z) (l : list Z) : Prop :=
  ∀ i, 0 ≤ i < zlength l → VMem.vget (vmem s) (Paging.current_directory (vmem s)) (a + i) = l !! Z.to_nat i.

Lemma runs_uread n pt fl s a w (Q : list Z → sys → Prop) :
  inv pt fl s → can pt w a (Z.of_nat n) → (∀ l, length l = n → at_user s a l → Q l s) → runs (uread n a) s Q.
Proof.
  revert a Q. induction n as [|n IH]; intros a Q Hi Hc HQ; cbn [uread].
  { apply (HQ []); [done|]. intros i Hr. unfold zlength in Hr. cbn in Hr. lia. }
  apply runs_bind. eapply runs_uget; [done|apply (Hc a); lia|]. intros b Hb.
  assert (n = 0%nat ∨ u32 (a + 1) = a + 1) as [->|Hu].
  { destruct n as [|n]; [by left|right]. eapply (can_next pt w a (Z.of_nat (S n))); [|lia]. by replace (1 + Z.of_nat (S n)) with (Z.of_nat (S (S n))) by lia. }
  - apply runs_bind, (HQ [b]); [done|]. intros i Hr. unfold zlength in Hr. cbn in Hr. replace i with 0 by lia. by rewrite Z.add_0_r.
  - rewrite Hu. apply runs_bind, IH; [done|intros x Hx; apply Hc; lia|]. intros l Hl Hat. apply (HQ (b :: l)); [cbn; by rewrite Hl|].
    intros i Hr. rewrite zlength_cons in Hr. destruct (decide (i = 0)) as [->|]; [by rewrite Z.add_0_r|].
    replace (a + i) with (a + 1 + (i - 1)) by lia. rewrite Hat by lia. by replace (Z.to_nat i) with (S (Z.to_nat (i - 1))) by lia.
Qed.

Lemma runs_ustring n k pt fl s a (Q : list Z → sys → Prop) :
  inv pt fl s → can pt false a (k + 1) → Elf.umem (vmem s) (a + k) = 0 → 0 ≤ k → (∀ l, (length l ≤ n)%nat → Q l s) → runs (ustring n a) s Q.
Proof.
  revert a k Q. induction n as [|n IH]; intros a k Q Hi Hc Hz Hk HQ; cbn [ustring]; [by apply (HQ [])|].
  apply runs_bind. eapply runs_uget; [done|apply (Hc a); lia|]. intros b Hb. destruct (Z.eqb_spec b 0) as [->|Hne]; [apply (HQ []); cbn; lia|].
  destruct (decide (k = 0)) as [->|]; [rewrite Z.add_0_r in Hz; unfold Elf.umem in Hz; rewrite Hb in Hz; by cbn in Hz|].
  rewrite (can_next pt false a k) by (try lia; by replace (1 + k) with (k + 1) by lia).
  apply runs_bind. apply (IH (a + 1) (k - 1)); [done|intros x Hx; apply Hc; lia|by replace (a + 1 + (k - 1)) with (a + k) by lia|lia|].
  intros l Hl. apply (HQ (b :: l)). cbn. lia.
Qed.

(** What a store leaves alone. *)
Record only_ram s s' : Prop := {
  or_core : ∃ m, core s' = set_mem m (core s) ∧ same_map (vmem s) m;
  or_fs : fs s' = fs s;
  or_chans : chans s' = chans s;
  or_keys : keys s' = keys s;
  or_uart : uart s' = uart s;
}.

Lemma inv_only_ram pt fl s s' : only_ram s s' → inv pt fl s → inv pt fl s'.
Proof.
  intros [(m & Em & Hm) _ _ _ _] Hi. eapply inv_elsewhere; [| |exact Hi]; rewrite ?Em.
  - by apply elsewhere_same; [apply Hi|..].
  - unfold vmem. by rewrite Em.
Qed.

Lemma runs_uwrite pt fl s a l w (Q : unit → sys → Prop) :
  inv pt fl s → can pt w a (zlength l) → (∀ s', only_ram s s' → inv pt fl s' → Q tt s') → runs (uwrite a l) s Q.
Proof.
  intros Hi Hc HQ. unfold uwrite. apply runs_bind. unfold runs at 1, ask.
  destruct (vwrite_some l (vmem s) w a) as (m & E1 & Hm).
  - intros x Hx. destruct (Hc x Hx). split; [|done]. by rewrite (iv_pages _ _ _ Hi).
  - intros x Hx. apply (iv_ram _ _ _ Hi). destruct (Hc x Hx) as [Hp _]. rewrite <- (iv_pages _ _ _ Hi) in Hp |- *. by eapply page_ok_read.
  - assert (only_ram s (set_core (set_mem m (core s)) s)) as Ho by (constructor; [by exists m|done..]).
    apply (runs_core _ _ tt (set_mem m (core s))); [unfold run_mem, vmem in *; by rewrite E1|]. apply HQ; [done|by eapply inv_only_ram].
Qed.
End runs.
End SysMem.
