(* ===== verification/SysSafe.v ===== *)
(** * The calls that take pointers do not fault

    Whatever a program puts in its registers, the handlers that read or write
    the caller's memory access only pages that user mode may access, and keep
    the invariant, under any schedule of the other tasks that keeps it. *)

From S2P Require Import Prelude Bytes Block Ext2Types Ext2Core Ext2File Vfs Initrd Namespace.
From S2P Require Import Paging VMem Elf Ring Pipe Console Keyboard Mouse Rtc Wsurf Vga Fb Net Tcp NetRx.
From S2P Require Import Task TaskOps Fd TaskLife Syscall SysCalls SysMem.

Module SysSafe.
Import Task Fd TaskSpec TaskOps TaskRefs TaskLife Syscall SysCalls SysMem.

(** ** How much a read returns *)

Definition returns {S A} (c : ST S A) (P : A → Prop) : Prop := ∀ s, P (c s).1.

Lemma returns_bind {S A C} (c : ST S A) (f : A → ST S C) P : (∀ a, returns (f a) P) → returns (c ≫= f) P.
Proof. intros Hf s. unfold mbind, ST_bind. destruct (c s) as [a s']. apply Hf. Qed.

Lemma returns_bind_with {S A C} (c : ST S A) (f : A → ST S C) R P :
  returns c R → (∀ a, R a → returns (f a) P) → returns (c ≫= f) P.
Proof. intros Hc Hf s. unfold mbind, ST_bind. pose proof (Hc s) as Ha. destruct (c s) as [a s']. by apply Hf. Qed.

Lemma ring_drain_length sz n r : (length (ring_drain sz n r).1 ≤ n)%nat.
Proof.
  revert r. induction n as [|n IH]; intros r; cbn; [lia|]. destruct (ring_pop sz r) as [[x r']|]; cbn; [|lia].
  specialize (IH r'). destruct (ring_drain sz n r'). cbn in *. lia.
Qed.

Section sizes.
Context {E : Type} `{BlockEnvOk E}.

Lemma read_loop_length fuel n offset size ind out :
  zlength out ≤ size → returns (read_loop (E := E) fuel n offset size ind out) (λ l, zlength l ≤ size).
Proof.
  revert ind out. induction fuel as [|fuel IH]; intros ind out Ho; cbn [read_loop]; [by intros s|].
  destruct (Z.ltb_spec (zlength out) size); [|by intros s]. apply returns_bind. intros m. apply returns_bind. intros [[phys ind']|]; [|by intros s].
  assert (∀ k, zlength k ≤ Z.max 0 (u32 (size - zlength out)) → zlength (out ++ k) ≤ size) as Hk.
  { intros k Hk. rewrite zlength_app. pose proof (Z.mod_le (size - zlength out) 4294967296 ltac:(lia) ltac:(lia)). unfold u32 in Hk. lia. }
  destruct (phys =? 0).
  - apply IH, Hk. unfold zlength, memset_buf. rewrite length_replicate. lia.
  - destruct (negb _); [by intros s|]. apply returns_bind. intros [blk|]; [|by intros s]. apply IH, Hk.
    unfold zlength, slice. rewrite length_take. lia.
Qed.

Lemma ext2_read_length node offset size :
  0 ≤ size → returns (ext2_read_file (E := E) node offset size) (λ l, zlength l ≤ size).
Proof.
  intros Hs. assert (zlength (@nil Z) ≤ size) as Hnil by done.
  unfold ext2_read_file. do 2 (apply returns_bind; intros ?). case_match; [|apply returns_bind; by intros ? s].
  apply returns_bind. intros m. destruct (negb _); [apply returns_bind; by intros ? s|].
  apply (returns_bind_with _ _ (λ l, zlength l ≤ size)); [|intros l Hl; apply returns_bind; by intros ? s].
  unfold ext2_read_data. destruct (offset >=? _); [by intros s|]. do 2 (apply returns_bind; intros ?). destruct (negb _); [by intros s|].
  set (sz := if size >? _ then _ else size). assert (0 ≤ sz ≤ size) as Hsz.
  { unfold sz. destruct (Z.gtb_spec size (u32 (i_size e - offset))); [|lia]. pose proof (u32_range (i_size e - offset)). lia. }
  intros s. pose proof (read_loop_length (Z.to_nat (sz / m_block_size a1 + 2)) e offset sz None [] ltac:(apply Hsz) s) as Hl. cbv beta in Hl. lia.
Qed.

Lemma vfs_read_length p offset size :
  0 ≤ offset → 0 ≤ size → returns (Vfs.vfs_read (Namespace.node_at (E := E)) p offset size) (λ l, zlength l ≤ size).
Proof.
  intros Ho Hs s. assert (zlength (@nil Z) ≤ size) as Hnil by done.
  assert (returns (Namespace.ptr_read (E := E) p offset size) (λ l, zlength l ≤ size)) as Hp.
  { clear s. destruct p as [[| |i|]|ino|]; try (intros s; exact Hnil).
    - intros s. cbn. unfold Initrd.initrd_read. destruct (Initrd.initrd_get_node_by_inode _ _) as [h|]; cbn; [|done].
      destruct (Z.gtb_spec offset (Initrd.h_size h)); cbn; [done|]. unfold zlength, slice. rewrite length_take.
      destruct (Z.gtb_spec (u32 (offset + size)) (Initrd.h_size h)) as [Hg|]; [|lia].
      pose proof (Z.mod_le (offset + size) 4294967296 ltac:(lia) ltac:(lia)). pose proof (Z.mod_le (Initrd.h_size h - offset) 4294967296 ltac:(lia) ltac:(lia)).
      unfold u32 in *. lia.
    - intros s. cbn. unfold Namespace.on_volume. pose proof (ext2_read_length ino offset size Hs (Namespace.volume s)) as Hl.
      by destruct (ext2_read_file ino offset size (Namespace.volume s)). }
  unfold Vfs.vfs_read, mbind, ST_bind, Vfs.node, gets. destruct (Vfs.read (Namespace.node_at s p)) as [f|] eqn:Ef; [|done].
  assert (f = Namespace.ptr_read) as -> by (destruct p as [[| |i|]|ino|]; cbn in Ef; repeat case_match; cbn in Ef; congruence).
  apply Hp.
Qed.
End sizes.

Section safe.
Context {D E : Type} `{Net.Nic D} `{BlockEnvOk E}.
#[local] Existing Instances T_ret T_bind I_ret I_bind Y_ret Y_bind.
Abbreviation sys := (@Syscall.sys D E).
Abbreviation I := (@Syscall.I D E).
Abbreviation Y := (@Syscall.Y D E).
Abbreviation turn := (@Syscall.turn D E).
Abbreviation file := (Task.file Namespace.nptr).
Abbreviation T := (@Task.T Namespace.nptr (Net.net D)).
Implicit Types (s : sys) (fl : list file) (f : file) (pt : bool → Z → bool) (l : list turn).

(** ** Calls that do not fault *)

Definition serves {A} (c : Y A) s l (Q : A → sys → list turn → Prop) : Prop :=
  match c s l with Done a s' l' => Q a s' l' | Waiting => True | Fault => False end.

(** The other tasks keep the invariant: they change neither the caller's
    descriptors nor its pages. *)
Definition steady pt l : Prop := Forall (λ e, ∀ fl s, inv pt fl s → inv pt fl (take_turn e s)) l.

Lemma serves_bind {A C} (c : Y A) (k : A → Y C) s l Q : serves c s l (λ a s' l', serves (k a) s' l' Q) → serves (c ≫= k) s l Q.
Proof. unfold serves, mbind, Y_bind. by destruct (c s l). Qed.

Lemma serves_now {A} (c : I A) s l Q : runs c s (λ a s', Q a s' l) → serves (now c) s l Q.
Proof. unfold runs, serves, now. by destruct (c s) as [[a s']|]. Qed.

Lemma serves_loop {A C} (body : C → I (A + C)) pt fl (J : C → Prop) (P : A → Prop) c s l :
  (∀ c s, inv pt fl s → J c → runs (body c) s (λ r s', inv pt fl s' ∧ match r with inl a => P a | inr c' => J c' end)) →
  inv pt fl s → J c → steady pt l → serves (loop body c) s l (λ a s' l', inv pt fl s' ∧ steady pt l' ∧ P a).
Proof.
  intros Hb. unfold loop, serves. revert c s. induction l as [|e l IH]; intros c s Hi Hj Hl; cbn [loop_from];
    pose proof (Hb c s Hi Hj) as Hr; unfold runs in Hr; destruct (body c s) as [[[a|c'] s']|]; try done; destruct Hr as [Hi' Hr]; try done.
  apply Forall_cons in Hl as [He Hl]. apply IH; [by apply He|done|done].
Qed.

Lemma inv_others pt fl s e : (∀ fl s, inv pt fl s → inv pt fl (take_turn e s)) → inv pt fl s → inv pt fl (t_others e s).
Proof. intros He Hi. apply He in Hi. exact (proj1 (inv_net _ _ _ _) Hi). Qed.

Lemma serves_net {A} (c : NetRx.B A) pt fl (P : A → Prop) s l :
  (∀ n ev a n' ev', c n ev = Some (a, n', ev') → P a) →
  inv pt fl s → steady pt l → serves (net_op c) s l (λ a s' l', inv pt fl s' ∧ steady pt l' ∧ P a).
Proof.
  intros HP Hi Hl. unfold serves, net_op. destruct (c (net_of s) (t_net <$> l)) as [[[a n] ev]|] eqn:Ec; [|done].
  split_and!; [|by apply Forall_drop|by eapply HP]. apply inv_net. clear Ec. apply (Forall_take _ (length l - length ev)%nat) in Hl.
  revert s Hi Hl. generalize (take (length l - length ev) l). intros k. induction k as [|e k IH]; intros s Hi Hk; cbn; [done|].
  apply Forall_cons in Hk as [He Hk]. apply IH; [by apply inv_others|done].
Qed.

(** ** Descriptors *)

Lemma set_core_id s : set_core (core s) s = s.
Proof. by destruct s. Qed.

Lemma runs_fd_get pt fl s fd (Q : option file → sys → Prop) :
  inv pt fl s → Q None s → (∀ f, 0 ≤ fd < 8 → fl !! Z.to_nat fd = Some f → f ∈ fl → Q (Some f) s) → runs (core_op (fd_get fd)) s Q.
Proof.
  intros Hi Hn Hf. destruct (iv_task _ _ _ Hi) as (t & Ht & Efl).
  unfold runs, core_op, fd_get, mbind, T_bind, get. destruct (Z.eqb_spec (current_task (core s)) 0) as [E0|_].
  { by destruct (inv_current _ _ _ Hi). }
  unfold task_at. rewrite Ht. unfold TASK_MAX_FILES. destruct ((fd <? 0) || (fd >=? 8)) eqn:Eb; unfold mret, T_ret; rewrite set_core_id; [done|].
  rewrite Efl. boolp. pose proof (inv_length _ _ _ Hi) as Hl. destruct (fl !! Z.to_nat fd) as [f|] eqn:El.
  - apply Hf; [lia|done|by eapply list_elem_of_lookup_2].
  - apply lookup_ge_None_1 in El. unfold zlength in Hl. lia.
Qed.

Lemma fd_get_eq pt fl s fd f :
  inv pt fl s → 0 ≤ fd < 8 → fl !! Z.to_nat fd = Some f → fd_get fd (core s) = Some (Some f, core s).
Proof.
  intros Hi Hfd Hf. destruct (iv_task _ _ _ Hi) as (t & Ht & Efl).
  unfold fd_get, mbind, T_bind, get, task_at. destruct (Z.eqb_spec (current_task (core s)) 0) as [E0|_]; [by destruct (inv_current _ _ _ Hi)|].
  rewrite Ht. unfold TASK_MAX_FILES. destruct (Z.ltb_spec fd 0), (Z.geb_spec fd 8); try lia. cbn. by rewrite Efl, Hf.
Qed.

Lemma inv_pipe pt fl s f : inv pt fl s → f ∈ fl → is_pipe f = true → is_Some (pipes (objs (core s)) !! f_pipe f).
Proof.
  intros [(z & rq & zq & dq & [Lq Lc Lt Ld Lr Ls]) (t & Ht & <-) _ _ _] Hf Hp. specialize (Lr (f_pipe f)).
  destruct (pipes _ !! _) eqn:Ep; [by eexists|]. destruct Lr as [L0 L1].
  assert (tables (core s) !! current_task (core s) = Some (files t)) as Htc by (unfold tables; by rewrite lookup_fmap, Ht).
  assert (0 < held (core s) (f_pipe f) (is_writer f)) as Hh; [|destruct (is_writer f); lia].
  pose proof (fsum_in (f_pipe f) (is_writer f) (files t) f Hf) as Hge. rewrite uses_pipe, eqb_reflx in Hge by done.
  pose proof (total_delete (f_pipe f) (is_writer f) (tables (core s)) _ _ Htc).
  pose proof (total_range (f_pipe f) (is_writer f) (delete (current_task (core s)) (tables (core s))) 8 (map_Forall_delete _ _ _ Lt)). unfold held. lia.
Qed.

(** The caller's table becomes [fl']. *)
Lemma inv_refiled pt fl fl' s c' t :
  inv pt fl s → tasks (core s) !! current_task (core s) = Some t → c' = set_tasks (<[current_task (core s) := set_files fl' t]> (tasks (core s))) (core s) →
  length fl' = length fl → Forall file_ok fl' → (∀ q w, fsum q w fl' = fsum q w fl) → inv pt fl' (set_core c' s).
Proof.
  intros Hi Ht -> Hlen Hok Hsum. pose proof (inv_length _ _ _ Hi) as H8. destruct Hi as [(z & rq & zq & dq & Hl) (t' & Ht' & <-) _ Hp Hr].
  assert (t' = t) as -> by congruence. pose proof (qu_heap _ _ _ _ _ (lf_queues _ _ _ _ _ Hl)) as [Hh1 Hh2]. constructor; try done.
  - exists z, rq, zq, dq. eapply (life_refiled (core s)); try done; [unfold zlength in H8; lia|].
    eapply accounted_ext; [|exact (lf_refs _ _ _ _ _ Hl)]. intros q w. rewrite Hsum. lia.
  - cbn. rewrite lookup_insert_eq. by eexists.
Qed.

Lemma put_file_eq fd f (c : Task.ts Namespace.nptr (Net.net D)) t :
  tasks c !! current_task c = Some t →
  put_file fd f c = Some (tt, set_tasks (<[current_task c := set_files (<[Z.to_nat fd := f]> (files t)) t]> (tasks c)) c).
Proof. intros Ht. unfold put_file, mbind, T_bind, get, task_at. by rewrite Ht. Qed.

Lemma runs_advance pt fl s fd n f (Q : unit → sys → Prop) :
  inv pt fl s → 0 ≤ fd < 8 → fl !! Z.to_nat fd = Some f → (∀ fl' s', inv pt fl' s' → Q tt s') → runs (advance fd n f) s Q.
Proof.
  intros Hi Hfd Hf HQ. destruct (iv_task _ _ _ Hi) as (t & Ht & Efl). set (f' := set_offset (u32 (f_offset f + n)) f).
  apply (runs_core _ _ tt (set_tasks (<[current_task (core s) := set_files (<[Z.to_nat fd := f']> fl) t]> (tasks (core s))) (core s))).
  { rewrite (put_file_eq _ _ _ t) by done. by rewrite Efl. }
  apply (HQ (<[Z.to_nat fd := f']> fl)). eapply inv_refiled; try done; [by rewrite length_insert| |].
  - pose proof (iv_files _ _ _ Hi) as Hok. apply Forall_insert; [done|]. rewrite Forall_lookup in Hok. destruct (Hok _ _ Hf).
    split; [done|]. cbn. pose proof (u32_range (f_offset f + n)). lia.
  - intros q w. rewrite (fsum_insert q w fl _ f) by done. assert (uses q w f' = uses q w f) as -> by done. lia.
Qed.

Lemma runs_free_fd pt fl s (Q : Z → sys → Prop) :
  inv pt fl s → (∀ fd, fd < 0 ∨ 3 ≤ fd < 8 ∧ f_type (file_at fl fd) = FD_NONE → Q fd s) → runs (core_op free_fd) s Q.
Proof.
  intros Hi HQ. destruct (iv_task _ _ _ Hi) as (t & Ht & Efl).
  apply (runs_core _ _ (find_free 5 fl 3) (core s)); [unfold free_fd, mbind, T_bind, get, task_at; by rewrite Ht, Efl|].
  rewrite set_core_id. apply HQ. destruct (decide (find_free 5 fl 3 < 0)); [by left|right].
  destruct (find_free_spec 5 fl 3 _ eq_refl) as [? ?]; [lia|lia|]. split; [lia|done].
Qed.

Lemma runs_install pt fl s fd (g : file → file) (Q : unit → sys → Prop) :
  inv pt fl s → 3 ≤ fd < 8 → f_type (file_at fl fd) = FD_NONE → (∀ f, is_pipe (g f) = false) →
  (∀ f, 0 ≤ f_offset f → file_ok (g f)) →
  (∀ s', inv pt (<[Z.to_nat fd := g (file_at fl fd)]> fl) s' → fs s' = fs s → Q tt s') → runs (core_op (install fd g)) s Q.
Proof.
  intros Hi Hfd Hty Hg Hok HQ. destruct (iv_task _ _ _ Hi) as (t & Ht & Efl). set (f' := g (file_at fl fd)).
  apply (runs_core _ _ tt (set_tasks (<[current_task (core s) := set_files (<[Z.to_nat fd := f']> fl) t]> (tasks (core s))) (core s))).
  { unfold install, mbind, T_bind, get, task_at. rewrite Ht. by rewrite Efl. }
  pose proof (inv_length _ _ _ Hi) as H8. pose proof (file_at_lookup fl fd ltac:(lia)) as Hl.
  apply HQ; [|done]. eapply inv_refiled; try done; [by rewrite length_insert| |].
  - pose proof (iv_files _ _ _ Hi) as Hfs. apply Forall_insert; [done|]. apply Hok. rewrite Forall_lookup in Hfs. by destruct (Hfs _ _ Hl).
  - intros q w. rewrite fsum_slot by lia. rewrite (uses_none _ _ (file_at _ _)) by by apply not_pipe. rewrite uses_none by apply Hg. lia.
Qed.

(** ** Passes *)

(** What every handler leaves behind. *)
Definition kept pt {A} (_ : A) s : Prop := ∃ fl, inv pt fl s.

Lemma inv_kept pt fl {A} (a : A) s : inv pt fl s → kept pt a s.
Proof. by exists fl. Qed.

Lemma runs_fs {A} (c : ST (@Namespace.kernel E) A) P pt fl s (Q : A → sys → Prop) :
  returns c P → inv pt fl s → (∀ a s', vmem s' = vmem s → inv pt fl s' → P a → Q a s') → runs (fs_op c) s Q.
Proof.
  intros HP Hi HQ. unfold runs, fs_op. pose proof (HP (fs s)) as Ha. destruct (c (fs s)) as [a v]. apply HQ; [done| |done]. by apply (inv_core pt fl s).
Qed.

Lemma runs_chan {A} (c : list Console.console → A * list Console.console) P pt fl s (Q : A → sys → Prop) :
  (∀ cs, P (c cs).1) → inv pt fl s → (∀ a s', vmem s' = vmem s → inv pt fl s' → P a → Q a s') → runs (chan_op c) s Q.
Proof.
  intros HP Hi HQ. unfold runs, chan_op. pose proof (HP (chans s)) as Ha. destruct (c (chans s)) as [a v]. apply HQ; [done| |done]. by apply (inv_core pt fl s).
Qed.

Lemma inv_screen pt fl s g : inv pt fl s → inv pt fl (set_core (set_display g (core s)) s).
Proof.
  intros Hi. eapply (inv_elsewhere _ _ s); [|apply same_map_refl|exact Hi]. by apply elsewhere_same; [apply Hi|..].
Qed.

Lemma runs_console pt fl s buf (Q : unit → sys → Prop) :
  inv pt fl s → (∀ s', inv pt fl s' → Q tt s') → runs (console_write buf) s Q.
Proof.
  intros Hi HQ. apply HQ. eapply (inv_core _ _ (set_core (set_display _ (core s)) s)); [done|]. by apply inv_screen.
Qed.

Lemma runs_trygetc pt fl s f (Q : Z → sys → Prop) : inv pt fl s → (∀ c s', inv pt fl s' → Q c s') → runs (fd_trygetc f) s Q.
Proof.
  intros Hi HQ. unfold fd_trygetc. destruct (f_type f =? FD_CONSOLE).
  - apply runs_bind. unfold runs at 1, ask. destruct (Keyboard.kbd_getc (keys s)) as [c k]. apply runs_bind. unfold runs at 1, put.
    apply HQ. by apply (inv_core pt fl s).
  - destruct (f_type f =? FD_CHANNEL); [|by apply HQ]. eapply (runs_chan _ (λ _, True)); [done|done|]. intros c s' _ Hi' _. by apply HQ.
Qed.

Lemma runs_getc pt fl s fd : inv pt fl s → 0 ≤ fd < 8 → runs (getc_pass fd tt) s (λ r s', inv pt fl s').
Proof.
  intros Hi Hfd. unfold getc_pass, fd_file. apply runs_bind, runs_bind. pose proof (inv_length _ _ _ Hi) as H8.
  assert (∃ f, fl !! Z.to_nat fd = Some f) as [f Hf] by (apply lookup_lt_is_Some; unfold zlength in H8; lia).
  apply (runs_core _ _ (Some f) (core s)); [by apply (fd_get_eq pt fl)|].
  rewrite set_core_id. apply runs_bind. eapply runs_trygetc; [done|]. by intros c s' Hi'.
Qed.

Lemma runs_put_pipe pt fl s p x y (Q : unit → sys → Prop) :
  inv pt fl s → pipes (objs (core s)) !! p = Some x → Pipe.readers y = Pipe.readers x → Pipe.writers y = Pipe.writers x →
  (∀ s', inv pt fl s' → Q tt s') → runs (put_pipe p y) s Q.
Proof.
  intros Hi Hx E1 E2 HQ. apply HQ. eapply (inv_elsewhere _ _ s); [|apply same_map_refl|exact Hi]. apply elsewhere_objs; [apply Hi|]. cbn.
  rewrite fmap_insert. apply insert_id. rewrite lookup_fmap, Hx. cbn. by rewrite E1, E2.
Qed.

Lemma runs_pipe_at pt fl s f (Q : Pipe.pipe → sys → Prop) :
  inv pt fl s → f ∈ fl → is_pipe f = true → (∀ x, pipes (objs (core s)) !! f_pipe f = Some x → Q x s) → runs (pipe_at (f_pipe f)) s Q.
Proof. intros Hi Hf Hp HQ. destruct (inv_pipe _ _ _ _ Hi Hf Hp) as [x Hx]. unfold runs, pipe_at. rewrite Hx. by apply HQ. Qed.

Lemma runs_pipe_write pt fl s f buf len done :
  inv pt fl s → f ∈ fl → is_pipe f = true → can pt false buf len → 0 ≤ done ≤ len →
  runs (pipe_write_pass (f_pipe f) buf len done) s (λ r s', inv pt fl s' ∧ match r with inl _ => True | inr d => 0 ≤ d ≤ len end).
Proof.
  intros Hi Hf Hp Hc Hd. unfold pipe_write_pass. apply runs_bind.
  assert (u32 (buf + done) = buf + done ∨ done = len) as Hu.
  { destruct (decide (done = len)); [by right|left]. destruct (Hc (buf + done) ltac:(lia)) as [_ Hr].
    unfold Paging.USER_VADDR_MIN, Paging.USER_VADDR_MAX in Hr. apply u32_small. lia. }
  eapply (runs_uread _ pt fl s _ false); [done| |].
  { destruct Hu as [->| ->]; [apply (can_part pt false buf len); [done|lia|lia]|]. intros x Hx. lia. }
  intros l Hl _. apply runs_bind. eapply runs_pipe_at; [done|done|done|]. intros x Hx.
  destruct (Pipe.pipe_write x l) as [[r y] rest] eqn:Ew. apply runs_bind.
  assert (Pipe.readers y = Pipe.readers x ∧ Pipe.writers y = Pipe.writers x ∧ (length rest ≤ length l)%nat) as (E1 & E2 & E3).
  { unfold Pipe.pipe_write in Ew. destruct l as [|b l]; [injection Ew as <- <- <-; by cbn|].
    destruct (Pipe.readers x =? 0); [injection Ew as <- <- <-; split_and!; done|].
    destruct (ring_fill Pipe.PIPE_SZ (Pipe.p_ring x) (b :: l)) as [r' rest'] eqn:Er.
    assert ((length (ring_fill Pipe.PIPE_SZ (Pipe.p_ring x) (b :: l)).2 ≤ length (b :: l))%nat) as Hle.
    { generalize (Pipe.p_ring x), (b :: l). clear. intros r l. revert r. induction l as [|c l IH]; intros r; cbn; [done|].
      destruct (ring_push _ _ _); [|done]. etransitivity; [apply IH|lia]. }
    destruct rest'; injection Ew as <- <- <-; split_and!; try done; rewrite Er in Hle; exact Hle. }
  eapply runs_put_pipe; [done|done|done|done|]. intros s' Hi'. split; [done|].
  destruct r as [[]|]; [done|done|]. unfold zlength in *. lia.
Qed.

Lemma runs_pipe_read pt fl s f buf len :
  inv pt fl s → f ∈ fl → is_pipe f = true → can pt true buf len → 0 ≤ len →
  runs (pipe_read_pass (f_pipe f) buf len tt) s (λ r s', inv pt fl s').
Proof.
  intros Hi Hf Hp Hc Hlen. unfold pipe_read_pass. apply runs_bind. eapply runs_pipe_at; [done|done|done|]. intros x Hx.
  destruct (Pipe.pipe_read x len) as [r y] eqn:Er. apply runs_bind.
  assert (Pipe.readers y = Pipe.readers x ∧ Pipe.writers y = Pipe.writers x ∧ match r with Pipe.Return l => zlength l ≤ len | Pipe.Wait => True end) as (E1 & E2 & E3).
  { unfold Pipe.pipe_read in Er. destruct (len =? 0); [injection Er as <- <-; by cbn|].
    pose proof (ring_drain_length Pipe.PIPE_SZ (Z.to_nat len) (Pipe.p_ring x)) as Hd. destruct (ring_drain _ _ _) as [l r']. cbn in Hd.
    destruct (0 <? zlength l); [injection Er as <- <-; split_and!; [done|done|unfold zlength; lia]|].
    destruct (Pipe.writers x =? 0); injection Er as <- <-; by cbn. }
  eapply runs_put_pipe; [done|done|done|done|]. intros s' Hi'. destruct r as [l|]; [|done]. apply runs_bind.
  eapply (runs_uwrite pt fl s' buf l true); [done|by apply (can_part pt true buf len); [done|lia|lia]|]. by intros s2 _ Hi2.
Qed.
End safe.
End SysSafe.
