(* ===== verification/SysNoFault.v ===== *)
(** * No register contents make the kernel fault

    The handlers one by one, and the dispatcher over them. *)

From S2P Require Import Prelude Bytes Block Ext2Types Ext2Core Vfs Initrd Namespace.
From S2P Require Import Paging VMem Elf Ring Pipe Console Keyboard Mouse Rtc Wsurf Vga Fb Net Tcp NetRx.
From S2P Require Import Task TaskOps Fd TaskLife TaskTheorems Syscall SysCalls SysMem SysSafe.

Module SysNoFault.
Import Task Fd TaskSpec TaskOps TaskRefs TaskLife Syscall SysCalls SysMem SysSafe.

Section nofault.
Context {D E : Type} `{Net.Nic D} `{BlockEnvOk E}.
#[local] Existing Instances T_ret T_bind I_ret I_bind Y_ret Y_bind.
Abbreviation sys := (@Syscall.sys D E).
Abbreviation I := (@Syscall.I D E).
Abbreviation Y := (@Syscall.Y D E).
Abbreviation turn := (@Syscall.turn D E).
Abbreviation file := (Task.file Namespace.nptr).
Implicit Types (s : sys) (fl : list file) (f : file) (pt : bool → Z → bool) (l : list turn).

Definition reg_ok (x : Z) : Prop := 0 ≤ x < 4294967296.

(** ** Checks *)

Lemma runs_user_ok pt fl s a n w (Q : bool → sys → Prop) :
  inv pt fl s → reg_ok a → reg_ok n → Q false s → (can pt w a n → Q true s) → runs (user_ok a n w) s Q.
Proof.
  intros Hi Ha Hn Hf Ht. unfold runs, user_ok, ask. destruct (Paging.user_ok (vmem s) a n w) eqn:Eu; [|done]. apply Ht.
  intros x Hx. destruct (can_user_ok _ _ _ _ Ha Hn Eu x Hx) as [Hp Hr]. by rewrite (iv_pages _ _ _ Hi) in Hp.
Qed.

(** A readable string at [a]. *)
Definition string_ok pt s (a : Z) : Prop := ∃ k, 0 ≤ k ∧ can pt false a (k + 1) ∧ Elf.umem (vmem s) (a + k) = 0.

Lemma runs_path_ok pt fl s a (Q : bool → sys → Prop) :
  inv pt fl s → reg_ok a → Q false s → (string_ok pt s a → Q true s) → runs (user_path_ok a) s Q.
Proof.
  intros Hi Ha Hf Ht. unfold user_path_ok. destruct (a =? 0); [done|]. unfold runs, user_str_ok, ask.
  destruct (Paging.user_str_ok (vmem s) _ a 128) eqn:Eu; [|done]. apply Ht.
  apply Paging.user_str_ok_exact in Eu as (k & Hk & Hz & Hr); [|done|done]. exists k. split_and!; [lia| |done].
  intros x Hx. destruct (Hr (x - a) ltac:(lia)) as [Hw Hp]. replace (a + (x - a)) with x in Hw, Hp by lia.
  rewrite (iv_pages _ _ _ Hi) in Hp. done.
Qed.

Lemma runs_string n pt fl s s' a (Q : list Z → sys → Prop) :
  string_ok pt s a → vmem s' = vmem s → inv pt fl s' → (∀ k, (length k ≤ n)%nat → Q k s') → runs (ustring n a) s' Q.
Proof. intros (k & Hk & Hc & Hz) Ev Hi HQ. eapply (runs_ustring n k); try done. by rewrite Ev. Qed.

Lemma runs_resolve pt fl s path (Q : option Namespace.nptr → sys → Prop) :
  inv pt fl s → (∀ r s', vmem s' = vmem s → inv pt fl s' → Q r s') → runs (resolve path) s Q.
Proof. intros Hi HQ. eapply (runs_fs _ (λ _, True)); [done|done|]. intros. by apply HQ. Qed.

Lemma strncpy_length n src : 0 ≤ n → zlength (strncpy_bytes n src) = n.
Proof. intros Hn. unfold zlength, strncpy_bytes. rewrite length_app, length_replicate, length_take. lia. Qed.

Lemma runs_put_name pt fl s out len nm :
  inv pt fl s → can pt true out len → 0 < len → runs (put_name out len nm) s (λ _ s', inv pt fl s').
Proof.
  intros Hi Hc Hl. unfold put_name. apply runs_bind.
  eapply (runs_uwrite pt fl s out _ true); [done|rewrite strncpy_length by lia; apply (can_part pt true out len); [done|lia|lia]|].
  intros s1 _ H1'. destruct (Hc (out + (len - 1)) ltac:(lia)) as [_ Hr]. unfold Paging.USER_VADDR_MIN, Paging.USER_VADDR_MAX in Hr.
  rewrite u32_small by lia. eapply (runs_uwrite pt fl s1 _ [0] true); [done| |by intros s2 _ H2'].
  change (zlength [0]) with 1. apply (can_part pt true out len); [done|lia|lia].
Qed.

(** ** Handlers that do not block *)

Lemma safe_readdir pt fl s i a n : inv pt fl s → reg_ok a → reg_ok n → runs (sys_readdir i a n) s (kept pt).
Proof.
  intros Hi Ha Hn. unfold sys_readdir. destruct (Z.eqb_spec n 0); [by eapply inv_kept|]. apply runs_bind.
  eapply (runs_user_ok pt fl s a n true); [done|done|done|by eapply inv_kept|]. intros Hc. cbn [negb]. apply runs_bind.
  eapply (runs_fs _ (λ _, True)); [done|done|]. intros [de|] s' _ Hi' _; [|by eapply inv_kept]. apply runs_bind.
  eapply runs_mono; [eapply runs_put_name; [done|done|unfold reg_ok in Hn; lia]|]. intros x s2 H2'. by exists fl.
Qed.

Lemma safe_clear pt fl s : inv pt fl s → runs sys_clear s (kept pt).
Proof.
  intros Hi. unfold sys_clear. apply runs_bind.
  assert (∀ r : option file, runs (_ ← (if match r with Some f => f_type f =? FD_CHANNEL | None => false end
       then _ ← chan_op (λ cs, Console.console_out_write cs (match r with Some f => f_cid f | None => 0 end) [12]); mret tt
       else screen_op Vga.vga_clear); mret 0) s (kept pt)) as Hr.
  { intros r. apply runs_bind. destruct (match r with Some f => f_type f =? FD_CHANNEL | None => false end).
    - apply runs_bind. eapply (runs_chan _ (λ _, True)); [done|done|]. intros a s' _ Hi' _. by eapply (inv_kept pt fl).
    - exists fl. by apply inv_screen. }
  eapply runs_fd_get; [done|exact (Hr None)|]. intros f _ _ _. exact (Hr (Some f)).
Qed.

Lemma runs_open_node pt fl s node : inv pt fl s → runs (core_op (open_node node)) s (kept pt).
Proof.
  intros Hi. assert (core_op (open_node node) s = (fd ← core_op free_fd; if fd <? 0 then mret (-1) else _ ← core_op (install fd (as_file FD_FILE node)); mret fd) s) as Eq.
  { unfold core_op, open_node, mbind, I_bind, T_bind. destruct (free_fd (core s)) as [[fd c]|]; [|done]. destruct (fd <? 0); [done|].
    cbn. by destruct (install fd _ c) as [[[] c']|]. }
  unfold runs. rewrite Eq. fold (runs (fd ← core_op free_fd; if fd <? 0 then mret (-1) else _ ← core_op (install fd (as_file FD_FILE node)); mret fd) s (kept pt)).
  apply runs_bind. eapply runs_free_fd; [done|]. intros fd Hfd. destruct (Z.ltb_spec fd 0); [by eapply inv_kept|]. destruct Hfd as [|[Hr Hty]]; [lia|].
  apply runs_bind. eapply (runs_install pt fl); [done|lia|done|done|done|]. intros s' Hi' _. by eapply inv_kept.
Qed.

Lemma safe_open pt fl s a : inv pt fl s → reg_ok a → runs (sys_open a) s (kept pt).
Proof.
  intros Hi Ha. unfold sys_open. apply runs_bind. eapply runs_path_ok; [done|done|by eapply inv_kept|]. intros Hp. cbn [negb]. apply runs_bind.
  eapply runs_string; [done|done|done|]. intros k _. apply runs_bind. eapply runs_resolve; [done|]. intros [node|] s' _ Hi'; [|by eapply inv_kept].
  by eapply runs_open_node.
Qed.

Lemma safe_listdir pt fl s a i out : inv pt fl s → reg_ok a → reg_ok out → runs (sys_listdir a i out) s (kept pt).
Proof.
  intros Hi Ha Ho. unfold sys_listdir. apply runs_bind. eapply runs_path_ok; [done|done|by eapply inv_kept|]. intros Hp. cbn [negb]. apply runs_bind.
  eapply (runs_user_ok pt fl s out 128 true); [done|done|done|by eapply inv_kept|]. intros Hc. cbn [negb]. apply runs_bind.
  eapply runs_string; [done|done|done|]. intros k _. apply runs_bind. eapply runs_resolve; [done|]. intros [node|] s' _ Hi'; [|by eapply inv_kept].
  apply runs_bind. eapply (runs_fs _ (λ _, True)); [done|done|]. intros [de|] s2 _ Hi2 _; [|by eapply inv_kept]. apply runs_bind.
  eapply runs_mono; [by eapply runs_put_name|]. intros x s3 H3'. by exists fl.
Qed.

Lemma runs_parent pt fl s kpath (Q : option (Namespace.nptr * list Z) → sys → Prop) :
  inv pt fl s → (∀ r s', inv pt fl s' → Q r s') → runs (parent_and_leaf kpath) s Q.
Proof.
  intros Hi HQ. unfold parent_and_leaf. destruct (_ <? 0); [by apply HQ|]. destruct (match drop _ _ with [] => true | _ => _ end); [by apply HQ|].
  apply runs_bind. destruct (take _ _); [by apply HQ|]. eapply runs_resolve; [done|]. intros r s' _ Hi'. by apply HQ.
Qed.

Lemma safe_mkdir pt fl s a : inv pt fl s → reg_ok a → runs (sys_mkdir a) s (kept pt).
Proof.
  intros Hi Ha. unfold sys_mkdir. apply runs_bind. eapply runs_path_ok; [done|done|by eapply inv_kept|]. intros Hp. cbn [negb]. apply runs_bind.
  eapply runs_string; [done|done|done|]. intros k _. destruct (match k with [] => true | _ => false end); [by eapply inv_kept|].
  apply runs_bind. eapply runs_parent; [done|]. intros [[p leaf]|] s' Hi'; [|by eapply inv_kept]. apply runs_bind.
  unfold is_dir. apply runs_bind. unfold runs at 1, node_at, ask. unfold runs at 1, mret, I_ret.
  destruct (negb _); [by eapply inv_kept|]. apply runs_bind. eapply (runs_fs _ (λ _, True)); [done|done|]. intros r s2 _ Hi2 _. by eapply inv_kept.
Qed.

Lemma runs_open_or_create pt fl s kpath flags (Q : option Namespace.nptr → sys → Prop) :
  inv pt fl s → (∀ r s', inv pt fl s' → Q r s') → runs (open_or_create kpath flags) s Q.
Proof.
  intros Hi HQ. unfold open_or_create. apply runs_bind. eapply runs_resolve; [done|]. intros [node|] s' _ Hi'; [by apply HQ|].
  destruct (negb _); [by apply HQ|]. apply runs_bind. eapply runs_parent; [done|]. intros [[p leaf]|] s2 Hi2; [|by apply HQ].
  apply runs_bind. unfold is_dir. apply runs_bind. unfold runs at 1, node_at, ask. unfold runs at 1, mret, I_ret.
  destruct (negb _); [by apply HQ|]. eapply (runs_fs _ (λ _, True)); [done|done|]. intros r s3 _ Hi3 _. by apply HQ.
Qed.

Lemma open_type_file flags : FD_TYPE (open_type flags) = FD_FILE.
Proof. unfold open_type. by destruct (has flags (Z.lor O_WRONLY O_RDWR)), (has flags O_WRONLY). Qed.

Lemma open_type_pipe flags (node : Namespace.nptr) f : is_pipe (as_file (open_type flags) node f) = false.
Proof. unfold is_pipe, as_file. cbn [f_type]. by rewrite open_type_file. Qed.

Lemma safe_openmode pt fl s a flags : inv pt fl s → reg_ok a → runs (sys_openmode a flags) s (kept pt).
Proof.
  intros Hi Ha. unfold sys_openmode. apply runs_bind. eapply runs_path_ok; [done|done|by eapply inv_kept|]. intros Hp. cbn [negb].
  destruct (negb (flags_ok flags)); [by eapply inv_kept|]. apply runs_bind.
  eapply runs_string; [done|done|done|]. intros k _. destruct (match k with [] => true | _ => false end); [by eapply inv_kept|].
  apply runs_bind. eapply runs_free_fd; [done|]. intros fd Hfd. destruct (Z.ltb_spec fd 0); [by eapply inv_kept|]. destruct Hfd as [|[Hr Hty]]; [lia|].
  apply runs_bind. eapply runs_open_or_create; [done|]. intros [node|] s' Hi'; [|by eapply inv_kept].
  apply runs_bind. unfold runs at 1, node_at, ask. destruct (negb _); [by eapply inv_kept|]. apply runs_bind.
  assert (∀ t s2, inv pt fl s2 → runs (if t <? 0 then mret (-1) else _ ← core_op (install fd (as_file (open_type flags) node)); mret fd) s2 (kept pt)) as Hend.
  { intros t s2 Hi2. destruct (t <? 0); [by eapply inv_kept|]. apply runs_bind.
    eapply (runs_install pt fl); [done|lia|done|intros; apply open_type_pipe|done|]. intros s3 Hi3 _. by eapply inv_kept. }
  destruct (has flags O_TRUNC); [|by apply Hend]. eapply (runs_fs _ (λ _, True)); [done|done|]. intros t s2 _ Hi2 _. by apply Hend.
Qed.

Lemma closed_ok f : 0 ≤ f_offset f → file_ok (closed f).
Proof. intros Ho. split; [|done]. by cbn. Qed.

Lemma safe_close pt fl s fd : inv pt fl s → runs (core_op (sys_close fd)) s (kept pt).
Proof.
  intros Hi. destruct (iv_task _ _ _ Hi) as (t & Ht & Efl). pose proof (inv_length _ _ _ Hi) as H8.
  assert (∃ r c, sys_close fd (core s) = Some (r, c) ∧ (c = core s ∨ ∃ f o, 0 ≤ fd < 8 ∧ fl !! Z.to_nat fd = Some f ∧
    c = set_tasks (<[current_task (core s) := set_files (<[Z.to_nat fd := closed f]> fl) t]> (tasks (core s))) (set_objs o (core s)))) as (r & c & Ec & Hc).
  { unfold sys_close. unfold mbind at 1, T_bind at 1. unfold fd_get, mbind at 1, T_bind at 1, get at 1.
    destruct (Z.eqb_spec (current_task (core s)) 0) as [E0|_]; [by destruct (inv_current _ _ _ Hi)|].
    unfold mbind at 1, T_bind at 1, task_at. rewrite Ht. unfold TASK_MAX_FILES.
    destruct ((fd <? 0) || (fd >=? 8)) eqn:Eb; cbn; [eexists _, _; split; [done|by left]|]. rewrite Efl. boolp.
    destruct (fl !! Z.to_nat fd) as [f|] eqn:El; [|eexists _, _; split; [done|by left]].
    destruct (f_type f =? FD_NONE); [eexists _, _; split; [done|by left]|].
    destruct (iv_life _ _ _ Hi) as (z & rq & zq & dq & [Lq Lc Lt Ld Lr Ls]).
    assert (tables (core s) !! current_task (core s) = Some fl) as Htc by (unfold tables; by rewrite lookup_fmap, Ht, <- Efl).
    destruct (file_release_accounted f (λ q w, held (core s) q w - uses q w f) (objs (core s))) as (o & Eo & _).
    - eapply accounted_ext; [|exact Lr]. intros; lia.
    - intros q w. pose proof (tables_small (core s) Lt Ls q w). pose proof (uses_range q w f).
      pose proof (total_delete q w (tables (core s)) _ _ Htc). pose proof (fsum_in q w fl f ltac:(by eapply list_elem_of_lookup_2)).
      pose proof (total_range q w (delete (current_task (core s)) (tables (core s))) 8 (map_Forall_delete _ _ _ Lt)). unfold held in *. lia.
    - unfold mbind at 1, T_bind at 1, get, file_close. rewrite Eo. cbn. unfold mbind, T_bind, upd.
      rewrite (put_file_eq fd (closed f) (set_objs o (core s)) t Ht). rewrite Efl.
      eexists _, _. split; [done|]. right. exists f, o. split; [lia|done]. }
  apply (runs_core _ _ r c _ Ec). destruct Hc as [->|(f & o & Hfd & Hf & Ecc)]; [rewrite set_core_id; by eapply inv_kept|].
  exists (<[Z.to_nat fd := closed f]> fl). pose proof Hi as [(z & rq & zq & dq & Hl) _ Hok Hp Hr]. constructor.
  - exists z, rq, zq, dq. by eapply life_close.
  - cbn. rewrite Ecc. cbn. rewrite lookup_insert_eq. by eexists.
  - apply Forall_insert; [done|]. apply closed_ok. rewrite Forall_lookup in Hok. by destruct (Hok _ _ Hf).
  - unfold vmem. cbn. rewrite Ecc. exact Hp.
  - unfold vmem. cbn. rewrite Ecc. exact Hr.
Qed.

(** A store after a check. *)
Lemma runs_store pt fl s a n bytes (k : I Z) :
  inv pt fl s → can pt true a n → zlength bytes ≤ n → (∀ s', inv pt fl s' → runs k s' (kept pt)) → runs (_ ← uwrite a bytes; k) s (kept pt).
Proof.
  intros Hi Hc Hl Hk. apply runs_bind. eapply (runs_uwrite pt fl s a bytes true); [done|by apply (can_part pt true a n); [done|lia|lia]|].
  intros s' _ Hi'. by apply Hk.
Qed.

Lemma safe_fbinfo pt fl s a : inv pt fl s → reg_ok a → runs (sys_fbinfo a) s (kept pt).
Proof.
  intros Hi Ha. unfold sys_fbinfo. apply runs_bind. eapply (runs_user_ok pt fl s a 16 true); [done|done|done| |]; [|intros Hc];
    apply runs_bind; unfold runs at 1, ask; cbn [negb orb]; [by eapply inv_kept|].
  destruct (negb _); [by eapply inv_kept|]. eapply runs_store; [done|done|done|]. intros s' Hi'. by eapply inv_kept.
Qed.

Lemma runs_current pt fl s (Q : task Namespace.nptr → sys → Prop) : inv pt fl s → (∀ t, Q t s) → runs task_current s Q.
Proof.
  intros Hi HQ. destruct (iv_task _ _ _ Hi) as (t & Ht & _). apply (runs_core _ _ t (core s)); [unfold mbind, T_bind, get, task_at; by rewrite Ht|].
  rewrite set_core_id. apply HQ.
Qed.

Lemma safe_fboff pt fl s : inv pt fl s → runs sys_fboff s (kept pt).
Proof.
  intros Hi. unfold sys_fboff. apply runs_bind. eapply runs_current; [done|]. intros t.
  destruct (Fb.fb_off (id t) (display (core s))) as [r d] eqn:Ed. apply (runs_core _ _ r (set_display d (core s))); [by rewrite Ed|].
  exists fl. by apply inv_screen.
Qed.

Lemma safe_mouse pt fl s a : inv pt fl s → reg_ok a → runs (sys_mouse a) s (kept pt).
Proof.
  intros Hi Ha. unfold sys_mouse. apply runs_bind. eapply (runs_user_ok pt fl s a 12 true); [done|done|done|by eapply inv_kept|]. intros Hc. cbn [negb].
  apply runs_bind. unfold runs at 1, ask. destruct (Mouse.mouse_state (mice s)) as [[x y] b]. eapply runs_store; [done|done|done|]. intros s' Hi'. by eapply inv_kept.
Qed.

Lemma safe_font pt fl s a : inv pt fl s → reg_ok a → runs (sys_font a) s (kept pt).
Proof.
  intros Hi Ha. unfold sys_font. apply runs_bind. eapply (runs_user_ok pt fl s a Fb.FONT_BYTES true); [done|done|done| |]; [|intros Hc];
    apply runs_bind; unfold runs at 1, ask; cbn [negb]; [by eapply inv_kept|].
  destruct (Fb.fb_font_data _) as [k|]; [|by eapply inv_kept]. eapply runs_store; [done|done| |intros s' Hi'; by eapply inv_kept].
  unfold zlength. rewrite length_take. unfold Fb.FONT_BYTES. lia.
Qed.

Lemma safe_pollc pt fl s : inv pt fl s → runs sys_pollc s (kept pt).
Proof.
  intros Hi. unfold sys_pollc. apply runs_bind. eapply runs_fd_get; [done|by eapply inv_kept|]. intros f _ _ _.
  eapply runs_trygetc; [done|]. intros c s' Hi'. by eapply inv_kept.
Qed.

Lemma safe_cread pt fl s cid a n : inv pt fl s → reg_ok a → reg_ok n → runs (sys_cread cid a n) s (kept pt).
Proof.
  intros Hi Ha Hn. unfold sys_cread. apply runs_bind. eapply (runs_user_ok pt fl s a n true); [done|done|done|by eapply inv_kept|]. intros Hc. cbn [negb].
  apply runs_bind. eapply (runs_chan _ (λ r, zlength r.2 ≤ n)); [|done|].
  - intros cs. unfold Console.console_out_read. unfold reg_ok in Hn. destruct (negb _); [cbn; unfold zlength; cbn; lia|].
    pose proof (ring_drain_length Console.OUT_SZ (Z.to_nat n) (Console.out (Console.cons_at cs cid))) as Hd.
    destruct (ring_drain _ _ _) as [k r]. cbn in Hd |- *. unfold zlength. lia.
  - intros r s' _ Hi' Hr. eapply runs_store; [done|done|done|]. intros s2 Hi2. by eapply inv_kept.
Qed.

Lemma safe_cwrite pt fl s cid a n : inv pt fl s → reg_ok a → reg_ok n → runs (sys_cwrite cid a n) s (kept pt).
Proof.
  intros Hi Ha Hn. unfold sys_cwrite. apply runs_bind. eapply (runs_user_ok pt fl s a n false); [done|done|done|by eapply inv_kept|]. intros Hc. cbn [negb].
  apply runs_bind. eapply (runs_uread _ pt fl s a false); [done|unfold reg_ok in Hn; by rewrite Z2Nat.id by lia|]. intros k _ _.
  eapply (runs_chan _ (λ _, True)); [done|done|]. intros r s' _ Hi' _. by eapply inv_kept.
Qed.

Lemma runs_alive pt fl s pid (Q : bool → sys → Prop) : inv pt fl s → (∀ b, Q b s) → runs (core_op (task_alive pid)) s Q.
Proof.
  intros Hi HQ. destruct (iv_life _ _ _ Hi) as (z & rq & zq & dq & [Lq _ _ _ _ _]).
  destruct (TaskTheorems.alive_spec (core s) z rq zq dq pid Lq) as (b & Eb & _). apply (runs_core _ _ b (core s) _ Eb). rewrite set_core_id. apply HQ.
Qed.

Lemma safe_cstat pt fl s cid : inv pt fl s → runs (sys_cstat cid) s (kept pt).
Proof.
  intros Hi. unfold sys_cstat. apply runs_bind. unfold runs at 1, ask. apply runs_bind. eapply runs_alive; [done|]. intros b. by eapply inv_kept.
Qed.

Lemma safe_cclose pt fl s cid : inv pt fl s → runs (sys_cclose cid) s (kept pt).
Proof.
  intros Hi. unfold sys_cclose. apply runs_bind. eapply (runs_chan _ (λ _, True)); [done|done|]. intros r s' _ Hi' _. by eapply inv_kept.
Qed.

(** Window calls that leave the mappings alone. *)
Lemma runs_wsurf {A} (c : Wsurf.ws → A * Wsurf.ws) pt fl s (Q : A → sys → Prop) :
  (∀ w, Wsurf.wvm (c w).2 = Wsurf.wvm w) → inv pt fl s → (∀ a s', inv pt fl s' → Q a s') → runs (wsurf_op (λ w, Some (c w))) s Q.
Proof.
  intros Hw Hi HQ. unfold wsurf_op. destruct (c (surfaces (core s))) as [a w] eqn:Ec.
  apply (runs_core _ _ a (set_surfaces w (core s))); [by rewrite Ec|]. apply HQ. eapply (inv_elsewhere _ _ s); [| |exact Hi].
  - by apply elsewhere_same; [apply Hi|..].
  - specialize (Hw (surfaces (core s))). rewrite Ec in Hw. unfold vmem, mem in *. cbn in Hw |- *. rewrite Hw. apply same_map_refl.
Qed.

Lemma event_scan_vm n me i w : Wsurf.wvm (Wsurf.event_scan n me i w).2 = Wsurf.wvm w.
Proof.
  revert i. induction n as [|n IH]; intros i; cbn [Wsurf.event_scan]; [done|]. destruct (_ || _ || _); [apply IH|]. by destruct (_ =? _).
Qed.

Lemma safe_wevent pt fl s a : inv pt fl s → reg_ok a → runs (sys_wevent a) s (kept pt).
Proof.
  intros Hi Ha. unfold sys_wevent. apply runs_bind. eapply (runs_user_ok pt fl s a 16 true); [done|done|done|by eapply inv_kept|]. intros Hc. cbn [negb].
  apply runs_bind. eapply runs_current; [done|]. intros t. apply runs_bind. eapply runs_wsurf; [intros w; apply event_scan_vm|done|].
  intros [e|] s' Hi'; [|by eapply inv_kept]. eapply runs_store; [done|done|done|]. intros s2 Hi2. by eapply inv_kept.
Qed.

Lemma safe_wstat pt fl s slot a : inv pt fl s → reg_ok a → runs (sys_wstat slot a) s (kept pt).
Proof.
  intros Hi Ha. unfold sys_wstat. apply runs_bind. eapply (runs_user_ok pt fl s a 32 true); [done|done|done|by eapply inv_kept|]. intros Hc. cbn [negb].
  apply runs_bind. unfold runs at 1, ask. destruct (Wsurf.wsurf_stat _ _) as [x|]; [|by eapply inv_kept].
  eapply runs_store; [done|done| |intros s2 Hi2; by eapply inv_kept]. unfold info_bytes. rewrite zlength_app. unfold zlength at 2. rewrite length_take.
  change (zlength (words _)) with 16. lia.
Qed.

Lemma safe_wsend pt fl s slot a : inv pt fl s → reg_ok a → runs (sys_wsend slot a) s (kept pt).
Proof.
  intros Hi Ha. unfold sys_wsend. apply runs_bind. eapply (runs_user_ok pt fl s a 16 false); [done|done|done|by eapply inv_kept|]. intros Hc. cbn [negb].
  apply runs_bind. eapply runs_current; [done|]. intros t. apply runs_bind. unfold read_wev.
  destruct (Hc (a + 12) ltac:(lia)) as [_ Hr]. unfold Paging.USER_VADDR_MIN, Paging.USER_VADDR_MAX, reg_ok in *. rewrite !u32_small by lia.
  do 4 (apply runs_bind; eapply (runs_uread 4 pt fl s _ false); [done|apply (can_part pt false a 16); [done|lia|lia]|]; intros ? _ _).
  unfold runs at 1, mret, I_ret. eapply runs_wsurf; [|done|intros r s' Hi'; by eapply inv_kept].
  intros w. unfold Wsurf.wsurf_send. by destruct (_ || _ || _).
Qed.
End nofault.
End SysNoFault.
