(* ===== verification/SysTheorems.v ===== *)
(** * A running system for the examples

    The kernel task of a freshly booted machine with a mounted disk; user
    mode may write the page at 0x40000000, which holds the path "disk/f" and
    the text "hello". *)

From S2P Require Import Prelude Bytes Block Ext2Types Ext2Core Ext2Mount Ext2Theorems Ring Pipe Console Keyboard Mouse Rtc Vfs Initrd Namespace Net Tcp NetRx Rtl8139 Paging VMem Elf Wsurf Vga Fb Task TaskOps Fd TaskLife TaskTheorems Syscall SysCalls SysMem SysSafe SysNoFault.

Module SysDemo.
Import Task Fd TaskLife Syscall SysMem SysSafe.

Abbreviation dts := (ts Namespace.nptr (Net.net Rtl8139.rtl)).
Abbreviation dsys := (@Syscall.sys Rtl8139.rtl RamDisk.ramdisk).

Definition demo_page : list Z := [100; 105; 115; 107; 47; 102; 0; 0; 104; 101; 108; 108; 111] ++ replicate 4083 7.

Definition demo_mem : Paging.vm := Paging.set_ram {[5 := demo_page; 6 := replicate (Z.to_nat 4096) 9]} Paging.demo_vm.

Definition demo_core0 : dts :=
  mk_ts ∅ 0 0 0 0 (replicate 32 (0, 0)) 0 0 (mk_objects ∅ (Net.set_socks [] Rtl8139.demo_net)) Fb.demo_fb
    (Wsurf.mk_ws [] demo_mem) ∅ [0x1000; 0x2000; 0x3000; 0x8000].

Definition demo_core : dts := default demo_core0 (snd <$> tasking_init demo_core0).

Definition demo_sys : dsys :=
  mk_sys demo_core Namespace.demo_kernel
    (replicate 8 (Console.mk_console 0 0 (mk_ring (replicate (Z.to_nat 4096) 0) 0 0) (mk_ring (replicate (Z.to_nat 256) 0) 0 0)))
    Keyboard.boot Mouse.boot [] 1700000000.

#[global] Strategy 100 [demo_page demo_mem demo_core0 demo_core demo_sys].

Definition demo_pt : bool → Z → bool := Paging.page_ok demo_mem.

(** Frames are full when those of all tables are. *)
Lemma tables_full m a :
  map_Forall (λ _ tab, Forall (λ pg, Paging.present pg = true → length <$> Paging.ram m !! Paging.frame pg = Some 4096%nat) tab) (Paging.tabs m) →
  frame_full m a.
Proof.
  intros Hall k off. unfold VMem.translate. destruct (Paging.dirs m !! _) as [d|]; [|done]. cbn. unfold PagingFrames.pm.
  destruct (_ =? 0); [done|]. unfold PagingFrames.entry. cbn. destruct (Paging.tabs m !! _) as [tab|] eqn:Et; cbn; [|done].
  unfold Paging.page_at. destruct (tab !! Z.to_nat _) as [pg|] eqn:Ep; cbn; [|done]. destruct (Paging.present pg) eqn:Epr; [|done]. intros [= <- _].
  specialize (Hall _ _ Et). cbn in Hall. rewrite Forall_lookup in Hall. specialize (Hall _ _ Ep Epr).
  destruct (Paging.ram m !! _) as [l|]; [|done]. cbn in Hall. injection Hall as Hl. by exists l.
Qed.

Lemma demo_full a : frame_full demo_mem a.
Proof. apply tables_full. apply (bool_decide_unpack _). vm_compute. exact Logic.I. Qed.

Lemma demo_started : tasking_init demo_core0 = Some (tt, demo_core).
Proof. vm_compute. reflexivity. Qed.

Lemma demo_vmem : vmem demo_sys = demo_mem.
Proof. vm_compute. reflexivity. Qed.

Lemma demo_inv : inv demo_pt console_files demo_sys.
Proof.
  constructor.
  - destruct (life_boot demo_core0 demo_core) as (p & Hl & _); [|exact demo_started|by exists 0, [p], [], []].
    constructor; try (vm_compute; reflexivity). split; [apply (bool_decide_unpack _); vm_compute; exact Logic.I|].
    apply (bool_decide_unpack _). vm_compute. exact Logic.I.
  - assert (tasks demo_core !! current_task demo_core = Some (mk_task 0 kernel_task 0 0 0 20 false 0 console_files 0 0)) as E by (vm_compute; reflexivity).
    by eexists.
  - apply Forall_app. split; apply Forall_replicate; by split.
  - intros w a. by rewrite demo_vmem.
  - intros a _. rewrite demo_vmem. apply demo_full.
Qed.

(** A tick passes and nobody else runs. *)
Definition idle : turn := mk_turn (NetRx.mk_event [] 1) (λ s : dsys, s).

Lemma steady_idle n : steady demo_pt (replicate n idle).
Proof. apply Forall_replicate. intros fl s Hi. unfold take_turn. by apply inv_net. Qed.

(** The same with the file "f" open as 3 for writing and as 4 for
    reading. *)
Definition demo_files : list (file Namespace.nptr) :=
  replicate 3 (mk_file FD_CONSOLE None 0 0 0 0) ++
  [mk_file (Z.lor FD_FILE FD_WRITABLE) (Some (Namespace.NExt 11)) 0 0 0 0; mk_file FD_FILE (Some (Namespace.NExt 11)) 0 0 0 0] ++
  replicate 3 file0.

Definition demo_task : task Namespace.nptr := mk_task 0 kernel_task 0 0 0 20 false 0 demo_files 0 0.

Definition demo_open : dsys := set_core (set_tasks (<[current_task demo_core := demo_task]> (tasks demo_core)) demo_core) demo_sys.

#[global] Strategy 100 [demo_task demo_open].

Lemma demo_open_inv : inv demo_pt demo_files demo_open.
Proof.
  assert (tasks demo_core !! current_task demo_core = Some (mk_task 0 kernel_task 0 0 0 20 false 0 console_files 0 0)) as E by (vm_compute; reflexivity).
  eapply (inv_refiled demo_pt console_files demo_files demo_sys _ _ demo_inv E); [reflexivity|reflexivity| |].
  - repeat (apply Forall_cons; split; [by split|]). apply Forall_nil. exact Logic.I.
  - intros q w. rewrite !TaskRefs.fsum_none; [done|..].
    + apply Forall_app. split; by apply Forall_replicate.
    + repeat (apply Forall_cons; split; [reflexivity|]). apply Forall_nil. exact Logic.I.
Qed.
End SysDemo.

(** * System calls: the theorems

    The handlers that block, and what the calls guarantee. *)

Module SysTheorems.
Import Task Fd TaskSpec TaskOps TaskRefs TaskLife Syscall SysCalls SysMem SysSafe SysNoFault.

Section serve.
Context {D E : Type} `{Net.Nic D} `{BlockEnvOk E}.
#[local] Existing Instances T_ret T_bind I_ret I_bind Y_ret Y_bind.
Abbreviation sys := (@Syscall.sys D E).
Abbreviation I := (@Syscall.I D E).
Abbreviation Y := (@Syscall.Y D E).
Abbreviation turn := (@Syscall.turn D E).
Abbreviation file := (Task.file Namespace.nptr).
Implicit Types (s : sys) (fl : list file) (f : file) (pt : bool → Z → bool) (l : list turn).

(** ** Handlers that block *)

Definition fine pt {A} (a : A) s l : Prop := kept pt a s ∧ steady pt l.

Lemma fine_inv pt fl {A} (a : A) s l : inv pt fl s → steady pt l → fine pt a s l.
Proof. intros Hi Hl. split; [by exists fl|done]. Qed.

Lemma serves_runs {A} (c : I A) pt s l : steady pt l → runs c s (kept pt) → serves (now c) s l (fine pt).
Proof. intros Hl Hr. apply serves_now. eapply runs_mono; [exact Hr|]. by intros a s' Hk. Qed.

Lemma serves_mono {A} (c : Y A) s l (Q R : A → sys → list turn → Prop) :
  serves c s l Q → (∀ a s' l', Q a s' l' → R a s' l') → serves c s l R.
Proof. unfold serves. destruct (c s l); [|done|done]. intros HQ HR. by apply HR. Qed.

Lemma is_pipe_r f : FD_TYPE (f_type f) = FD_PIPE_R → is_pipe f = true.
Proof. unfold is_pipe. by intros ->. Qed.

Lemma is_pipe_w f : FD_TYPE (f_type f) = FD_PIPE_W → is_pipe f = true.
Proof. unfold is_pipe. by intros ->. Qed.

Lemma safe_write_file pt fl s fd f buf len :
  inv pt fl s → 0 ≤ fd < 8 → fl !! Z.to_nat fd = Some f → can pt false buf len → 0 ≤ len → runs (write_file fd f buf len) s (kept pt).
Proof.
  intros Hi Hfd Hf Hc Hl. unfold write_file. destruct (_ =? 0); [by eapply inv_kept|]. destruct (f_node f) as [p|]; [|by eapply inv_kept].
  apply runs_bind. unfold runs at 1, node_at, ask. destruct (Vfs.write _); [|by eapply inv_kept].
  apply runs_bind. eapply (runs_uread _ pt fl s buf false); [done|by rewrite Z2Nat.id by lia|]. intros k _ _.
  apply runs_bind. eapply (runs_fs _ (λ _, True)); [done|done|]. intros w s' _ Hi' _. apply runs_bind.
  eapply runs_advance; [done|done|done|]. intros fl' s2 Hi2. by eapply inv_kept.
Qed.

Lemma safe_read_file pt fl s fd f buf len :
  inv pt fl s → 0 ≤ fd < 8 → fl !! Z.to_nat fd = Some f → FD_TYPE (f_type f) = FD_FILE → can pt true buf len → 0 ≤ len →
  runs (read_file fd f buf len) s (kept pt).
Proof.
  intros Hi Hfd Hf Hty Hc Hl. pose proof (iv_files _ _ _ Hi) as Hok. rewrite Forall_lookup in Hok. destruct (Hok _ _ Hf) as [Hn Ho].
  unfold read_file. destruct (negb _); [by eapply inv_kept|]. destruct (f_node f) as [p|]; [|by destruct (Hn Hty)].
  apply runs_bind. eapply (runs_fs _ (λ k, zlength k ≤ len)); [by apply vfs_read_length|done|]. intros k s' _ Hi' Hk.
  eapply runs_store; [done|done|done|]. intros s2 Hi2. apply runs_bind. eapply runs_advance; [done|done|done|]. intros fl' s3 Hi3. by eapply inv_kept.
Qed.

Lemma serves_getc pt fl s l fd : inv pt fl s → 0 ≤ fd < 8 → steady pt l → serves (loop (getc_pass fd) tt) s l (λ a s' l', inv pt fl s' ∧ steady pt l').
Proof.
  intros Hi Hfd Hl. eapply serves_mono; [eapply (serves_loop _ pt fl (λ _, True) (λ _, True)); [|done|done|done]|].
  - intros [] s' Hi' _. eapply runs_mono; [by apply runs_getc|]. intros [c|u] s2 Hi2; done.
  - by intros a s' l' (? & ? & _).
Qed.

Lemma recv_pass_length i len :
  0 ≤ len → returns (Tcp.tcp_recv_pass (D := D) i len) (λ r, match r with Some r => zlength r.2 ≤ len | None => True end).
Proof.
  intros Hlen. unfold Tcp.tcp_recv_pass. apply returns_bind. intros k.
  pose proof (ring_drain_length Tcp.TCP_RXBUF (Z.to_nat len) (Net.rx (Tcp.sock_at k i))) as Hd. destruct (ring_drain _ _ _) as [got q]. cbn in Hd.
  apply returns_bind. intros _. destruct (0 <? zlength got); [apply returns_bind; intros _ s; cbn; unfold zlength; lia|].
  destruct (Net.peer_fin _); [intros s; by cbn|]. destruct (_ || _); intros s; by cbn.
Qed.

Lemma tcp_recv_length (h len : Z) (n : Net.net D) ev a n' ev' :
  0 ≤ len → NetRx.tcp_recv h len n ev = Some (a, n', ev') → zlength a.2 ≤ len.
Proof.
  intros Hlen. unfold NetRx.tcp_recv, mbind, NetRx.B_bind, NetRx.now. destruct (Tcp.sock_get h n) as [[i|] n0]; [|intros [= <- _ _]; by cbn].
  destruct (len =? 0); [intros [= <- _ _]; by cbn|]. unfold NetRx.recv_blocking. revert n0. induction ev as [|e ev IH]; intros n0; cbn [NetRx.recv_loop];
    pose proof (recv_pass_length i len Hlen n0) as Hp; destruct (Tcp.tcp_recv_pass i len n0) as [[r|] n1]; first [intros [= <- _ _]; exact Hp|apply IH|intros [=]].
Qed.

Lemma safe_write pt fl s l fd buf len : inv pt fl s → steady pt l → reg_ok buf → reg_ok len → serves (sys_write fd buf len) s l (fine pt).
Proof.
  intros Hi Hl Hb Hn. assert (0 ≤ len) as Hn0 by (unfold reg_ok in Hn; lia). unfold sys_write. apply serves_bind, serves_now. eapply runs_fd_get; [done| |].
  { apply serves_bind, serves_now. unfold runs, user_ok, ask. by eapply fine_inv. }
  intros f Hfd Hf Hin. apply serves_bind, serves_now. eapply (runs_user_ok pt fl s buf len false); [done|done|done|by eapply fine_inv|]. intros Hc. cbn [negb].
  assert (can pt false buf (Z.of_nat (Z.to_nat len))) as Hc' by by rewrite Z2Nat.id by lia.
  destruct (Z.eqb_spec (FD_TYPE (f_type f)) FD_CONSOLE).
  { apply serves_runs; [done|]. apply runs_bind. eapply (runs_uread _ pt fl s buf false); [done|done|]. intros k _ _. apply runs_bind.
    eapply runs_console; [done|]. intros s' Hi'. by eapply inv_kept. }
  destruct (Z.eqb_spec (FD_TYPE (f_type f)) FD_PIPE_W) as [Ew|].
  { eapply serves_mono; [eapply (serves_loop _ pt fl (λ d, 0 ≤ d ≤ len) (λ _, True)); [|done|lia|done]|].
    - intros d s' Hi' Hd. eapply runs_mono; [by eapply runs_pipe_write; [| |by apply is_pipe_w| |]|]. by intros [r|r] s2 [? ?].
    - intros a s' l' (? & ? & _). by eapply fine_inv. }
  destruct (Z.eqb_spec (FD_TYPE (f_type f)) FD_CHANNEL).
  { apply serves_runs; [done|]. apply runs_bind. eapply (runs_uread _ pt fl s buf false); [done|done|]. intros k _ _. apply runs_bind.
    eapply (runs_chan _ (λ _, True)); [done|done|]. intros r s' _ Hi' _. apply runs_bind. unfold runs at 1, serial_write, put. exists fl. by apply (inv_core pt fl s'). }
  destruct (Z.eqb_spec (FD_TYPE (f_type f)) FD_FILE).
  { apply serves_runs; [done|]. by eapply safe_write_file. }
  destruct (FD_TYPE (f_type f) =? FD_SOCKET); [|by eapply fine_inv].
  apply serves_bind, serves_now. eapply (runs_uread _ pt fl s buf false); [done|done|]. intros k _ _.
  eapply serves_mono; [by eapply (serves_net _ pt fl (λ _, True))|]. intros a s' l' (? & ? & _). by eapply fine_inv.
Qed.

Lemma safe_read pt fl s l fd buf len : inv pt fl s → steady pt l → reg_ok buf → reg_ok len → serves (sys_read fd buf len) s l (fine pt).
Proof.
  intros Hi Hl Hb Hn. assert (0 ≤ len) as Hn0 by (unfold reg_ok in Hn; lia). unfold sys_read. apply serves_bind, serves_now. eapply runs_fd_get; [done| |].
  { apply serves_bind, serves_now. unfold runs, user_ok, ask. by eapply fine_inv. }
  intros f Hfd Hf Hin. apply serves_bind, serves_now. eapply (runs_user_ok pt fl s buf len true); [done|done|done|by eapply fine_inv|]. intros Hc. cbn [negb].
  destruct (_ || _).
  { destruct (Z.eqb_spec len 0); [by eapply fine_inv|]. apply serves_bind. eapply serves_mono; [by eapply serves_getc|]. intros c s' l' [Hi' Hl'].
    apply serves_bind, serves_now. eapply (runs_uwrite pt fl s' buf _ true); [done| |].
    - apply (can_part pt true buf len); [done|lia|]. change (zlength [u8 c]) with 1. lia.
    - intros s2 _ Hi2. by eapply fine_inv. }
  destruct (Z.eqb_spec (FD_TYPE (f_type f)) FD_FILE); [apply serves_runs; [done|]; by eapply safe_read_file|].
  destruct (Z.eqb_spec (FD_TYPE (f_type f)) FD_PIPE_R) as [Er|].
  { eapply serves_mono; [eapply (serves_loop _ pt fl (λ _, True) (λ _, True)); [|done|done|done]|].
    - intros [] s' Hi' _. eapply runs_mono; [by eapply runs_pipe_read; [| |by apply is_pipe_r| |]|]. by intros [r|r] s2 ?.
    - intros a s' l' (? & ? & _). by eapply fine_inv. }
  destruct (FD_TYPE (f_type f) =? FD_SOCKET); [|by eapply fine_inv].
  apply serves_bind. eapply serves_mono; [eapply (serves_net _ pt fl (λ r, zlength r.2 ≤ len)); [|done|done]|].
  { intros x ev a n' ev'. by apply tcp_recv_length. }
  intros r s' l' (Hi' & Hl' & Hr). apply serves_bind, serves_now. eapply (runs_uwrite pt fl s' buf _ true); [done|by apply (can_part pt true buf len); [done|lia|lia]|].
  intros s2 _ Hi2. by eapply fine_inv.
Qed.

Lemma safe_getc pt fl s l : inv pt fl s → steady pt l → serves sys_getc s l (fine pt).
Proof.
  intros Hi Hl. unfold sys_getc. apply serves_bind, serves_now. eapply runs_fd_get; [done|by eapply fine_inv|]. intros f Hfd _ _.
  destruct (_ && _); [by eapply fine_inv|]. eapply serves_mono; [by eapply serves_getc|]. intros c s' l' [? ?]. by eapply fine_inv.
Qed.

Lemma safe_wait pt fl s l pid : inv pt fl s → steady pt l → serves (sys_wait pid) s l (fine pt).
Proof.
  intros Hi Hl. unfold sys_wait. eapply serves_mono; [eapply (serves_loop _ pt fl (λ _, True) (λ _, True)); [|done|done|done]|].
  - intros [] s' Hi' _. unfold wait_pass. apply runs_bind. eapply runs_alive; [done|]. intros [|]; [by split|]. apply runs_bind.
    apply (runs_core _ _ _ (core s') _ eq_refl). rewrite set_core_id. by split.
  - intros a s' l' (? & ? & _). by eapply fine_inv.
Qed.

Lemma safe_sleep pt fl s l ms : inv pt fl s → steady pt l → serves (sys_sleep ms) s l (fine pt).
Proof.
  intros Hi Hl. unfold sys_sleep. apply serves_bind, serves_now. unfold runs, ask.
  eapply serves_mono; [eapply (serves_loop _ pt fl (λ _, True) (λ _, True)); [|done|done|done]|].
  - intros [] s' Hi' _. unfold sleep_pass. apply runs_bind. unfold runs, ask, mret, I_ret. split; [done|]. by destruct (_ <? _).
  - intros a s' l' (? & ? & _). by eapply fine_inv.
Qed.

Lemma safe_connect pt fl s l ip port : inv pt fl s → steady pt l → serves (sys_connect ip port) s l (fine pt).
Proof.
  intros Hi Hl. unfold sys_connect. apply serves_bind, serves_now. eapply runs_free_fd; [done|]. intros fd Hfd.
  destruct (Z.ltb_spec fd 0); [by eapply fine_inv|]. destruct Hfd as [|[Hr Hty]]; [lia|].
  apply serves_bind. eapply serves_mono; [by eapply (serves_net _ pt fl (λ _, True))|]. intros h s' l' (Hi' & Hl' & _).
  destruct (h <? 0); [by eapply fine_inv|]. apply serves_bind, serves_now. eapply (runs_install pt fl); [done|lia|done|done| |].
  - intros f Ho. by split.
  - intros s2 Hi2 _. by eapply fine_inv.
Qed.

(** ** The dispatcher *)

(** The calls that create or end tasks, give out memory, or make queries of
    the network. *)
Definition allocating : list Z := [0; 5; 10; 12; 19; 24; 25; 26; 27; 30; 33; 35].

Record regs_ok (r : regs) : Prop := {
  ro_eax : reg_ok (eax r);
  ro_ebx : reg_ok (ebx r);
  ro_ecx : reg_ok (ecx r);
  ro_edx : reg_ok (edx r);
}.

Definition replied pt (v : option Z) s l : Prop := is_Some v ∧ fine pt v s l.

Lemma serves_ret pt s l (c : I Z) : steady pt l → runs c s (kept pt) → serves (ret c) s l (replied pt).
Proof.
  intros Hl Hr. unfold ret. apply serves_bind, serves_now. eapply runs_mono; [exact Hr|]. intros a s' [fl Hi]. split; [by eexists|]. by eapply fine_inv.
Qed.

Lemma serves_retb pt s l (c : Y Z) : serves c s l (fine pt) → serves (retb c) s l (replied pt).
Proof.
  intros Hc. unfold retb. apply serves_bind. eapply serves_mono; [exact Hc|]. intros a s' l' [[fl Hi] Hl]. split; [by eexists|]. by eapply fine_inv.
Qed.

Ltac handler pt fl :=
  lazymatch goal with
  | |- serves (sys_write _ _ _) _ _ _ => by apply (safe_write pt fl)
  | |- serves (sys_read _ _ _) _ _ _ => by apply (safe_read pt fl)
  | |- serves sys_getc _ _ _ => by apply (safe_getc pt fl)
  | |- serves (sys_wait _) _ _ _ => by apply (safe_wait pt fl)
  | |- serves (sys_sleep _) _ _ _ => by apply (safe_sleep pt fl)
  | |- serves (sys_connect _ _) _ _ _ => by apply (safe_connect pt fl)
  | |- runs (sys_readdir _ _ _) _ _ => by apply (safe_readdir pt fl)
  | |- runs sys_clear _ _ => by apply (safe_clear pt fl)
  | |- runs (sys_open _) _ _ => by apply (safe_open pt fl)
  | |- runs (core_op (sys_close _)) _ _ => by apply (safe_close pt fl)
  | |- runs (sys_fbinfo _) _ _ => by apply (safe_fbinfo pt fl)
  | |- runs sys_fboff _ _ => by apply (safe_fboff pt fl)
  | |- runs (sys_mouse _) _ _ => by apply (safe_mouse pt fl)
  | |- runs sys_pollc _ _ => by apply (safe_pollc pt fl)
  | |- runs (sys_font _) _ _ => by apply (safe_font pt fl)
  | |- runs sys_uptime _ _ => by apply (inv_kept pt fl)
  | |- runs (sys_cread _ _ _) _ _ => by apply (safe_cread pt fl)
  | |- runs (sys_cwrite _ _ _) _ _ => by apply (safe_cwrite pt fl)
  | |- runs (sys_cstat _) _ _ => by apply (safe_cstat pt fl)
  | |- runs (sys_cclose _) _ _ => by apply (safe_cclose pt fl)
  | |- runs (ask _) _ _ => by apply (inv_kept pt fl)
  | |- runs (sys_wevent _) _ _ => by apply (safe_wevent pt fl)
  | |- runs (sys_wstat _ _) _ _ => by apply (safe_wstat pt fl)
  | |- runs (sys_wsend _ _) _ _ => by apply (safe_wsend pt fl)
  | |- runs (sys_openmode _ _) _ _ => by apply (safe_openmode pt fl)
  | |- runs (sys_listdir _ _ _) _ _ => by apply (safe_listdir pt fl)
  | |- runs (sys_mkdir _) _ _ => by apply (safe_mkdir pt fl)
  end.

Lemma call_safe pool junk r pt fl s l :
  inv pt fl s → steady pt l → regs_ok r → eax r ∉ allocating → serves (call pool junk r) s l (replied pt).
Proof.
  intros Hi Hl [_ Hb Hc Hd] Hn. assert (serves (mret (Some (-1)) : Y (option Z)) s l (replied pt)) as Hdef by (split; [by eexists|by eapply fine_inv]).
  destruct r as [n b c d]. cbn in Hn, Hb, Hc, Hd |- *. unfold call. cbn [eax ebx ecx edx].
  assert (∀ m, n = m → m ∈ allocating → False) as Hex by (intros m ->; exact Hn).
  repeat match goal with
  | |- serves (match ?x with _ => _ end) _ _ _ => is_var x; destruct x
  end;
  lazymatch goal with
  | |- serves (mret _) _ _ _ => exact Hdef
  | |- serves (ret _) _ _ _ => apply serves_ret; [exact Hl|]
  | |- serves (retb _) _ _ _ => apply serves_retb
  | |- _ => idtac
  end;
  first [exfalso; eapply Hex; [reflexivity|apply (bool_decide_unpack _); exact Logic.I]|handler pt fl].
Qed.

End serve.

End SysTheorems.
