(* ===== verification/SysFiles.v ===== *)
(** * System calls on files

    Reading and writing a file of the disk through descriptors, from and to
    the memory of the program; opening with flags. *)

From S2P Require Import Prelude Bytes Block Ext2Types Ext2Core Ext2Alloc Ext2File Ext2WriteSpec Ext2Conf Ext2Theorems Vfs Initrd Namespace.
From S2P Require Import Paging VMem Elf Pipe Net NetRx Ext2Theorems.
From S2P Require Import Task TaskOps Fd TaskLife Syscall SysCalls SysMem SysSafe SysNoFault SysTheorems.

Module SysFiles.
Import Task Fd TaskSpec TaskOps TaskRefs TaskLife Syscall SysCalls SysMem SysSafe SysNoFault.

(** ** Writing data leaves the cached nodes alone *)

Section cache.
Context {E : Type} `{BlockEnvOk E}.
Abbreviation M := (ST (fsys E)).

Definition same_cache {A} (c : M A) : Prop := ∀ s, m_node_cache (mnt (c s).2) = m_node_cache (mnt s).

Lemma sc_ret {A} (x : A) : same_cache (mret x).
Proof. by intros s. Qed.

Lemma sc_bind {A C} (c : M A) (f : A → M C) : same_cache c → (∀ a, same_cache (f a)) → same_cache (c ≫= f).
Proof. intros Hc Hf s. unfold mbind, ST_bind. specialize (Hc s). destruct (c s) as [a s']. cbn in Hc. by rewrite Hf. Qed.

Lemma sc_gets {A} (g : fsys E → A) : same_cache (gets g).
Proof. by intros s. Qed.

Lemma sc_env {A} (c : ST E A) : same_cache (on_env c).
Proof. intros s. unfold on_env. by destruct (c (env s)). Qed.

Lemma sc_mnt (g : ext2_mount → ext2_mount) : (∀ m, m_node_cache (g m) = m_node_cache m) → same_cache (on_mnt g).
Proof. intros Hg s. cbn. apply Hg. Qed.

Ltac sc_step :=
  lazymatch goal with
  | |- same_cache (mret _) => apply sc_ret
  | |- same_cache (gets _) => apply sc_gets
  | |- same_cache (on_env _) => apply sc_env
  | |- same_cache (_ ≫= _) => apply sc_bind; [|intros ?]
  | |- same_cache (match ?x with _ => _ end) => destruct x
  | |- same_cache (if ?x then _ else _) => destruct x
  | |- same_cache (let '(_, _) := ?x in _) => destruct x
  end.

Lemma sc_read_block b : same_cache (ext2_read_block b).
Proof. unfold ext2_read_block. repeat sc_step. Qed.
Lemma sc_write_block b l : same_cache (ext2_write_block b l).
Proof. unfold ext2_write_block. repeat sc_step. Qed.
Lemma sc_kmalloc n : same_cache (Ext2Core.kmalloc n).
Proof. apply sc_env. Qed.

Ltac sc := repeat first [sc_step|apply sc_read_block|apply sc_write_block|apply sc_kmalloc].

Lemma sc_write_superblock : same_cache ext2_write_superblock.
Proof. unfold ext2_write_superblock. sc. Qed.
Lemma sc_write_group_desc : same_cache ext2_write_group_desc.
Proof. unfold ext2_write_group_desc. sc. Qed.
Lemma sc_add_free d : same_cache (add_free_blocks d).
Proof. by apply sc_mnt. Qed.
Lemma sc_alloc : same_cache ext2_alloc_block.
Proof.
  unfold ext2_alloc_block, alloc_block_commit, flush_counts.
  repeat first [sc_step|apply sc_read_block|apply sc_write_block|apply sc_kmalloc|apply sc_add_free|apply sc_write_superblock|apply sc_write_group_desc].
Qed.
Lemma sc_read_inode i : same_cache (ext2_read_inode i).
Proof. unfold ext2_read_inode. sc. Qed.
Lemma sc_write_inode i n : same_cache (ext2_write_inode i n).
Proof. unfold ext2_write_inode. sc. Qed.
Lemma sc_write_phys bi w : same_cache (write_phys bi w).
Proof. unfold write_phys, write_indirect. repeat first [sc_step|apply sc_read_block|apply sc_kmalloc|apply sc_alloc]. Qed.
Lemma sc_write_loop fuel offset size buf w : same_cache (write_loop fuel offset size buf w).
Proof.
  revert w. induction fuel as [|fuel IH]; intros w; cbn [write_loop]; [apply sc_ret|].
  repeat first [sc_step|apply sc_write_phys|apply sc_read_block|apply sc_write_block|apply IH].
Qed.
Lemma sc_write_data ino n offset size buf : same_cache (ext2_write_data ino n offset size buf).
Proof. unfold ext2_write_data. repeat first [sc_step|apply sc_write_loop|apply sc_kmalloc|apply sc_write_block|apply sc_write_inode]. Qed.

(** What kind of node the cache has. *)
Definition node_kind (s : fsys E) (ino : Z) : option Z := n_flags <$> m_node_cache (mnt s) !! ino.

Lemma set_length_kind ino len s j : node_kind (set_node_length (E := E) ino len s).2 j = node_kind s j.
Proof.
  unfold node_kind, set_node_length, on_mnt, modify. cbn [snd mnt m_node_cache set_m_node_cache].
  destruct (decide (j = ino)) as [->|]; [rewrite lookup_alter_eq|by rewrite lookup_alter_ne]. by destruct (m_node_cache (mnt s) !! ino).
Qed.

Lemma write_file_kind ino offset size buf s j : node_kind (ext2_write_file (E := E) ino offset size buf s).2 j = node_kind s j.
Proof.
  assert (∀ A (c : M A), same_cache c → ∀ s, node_kind (c s).2 j = node_kind s j) as Hk by (intros A c Hc s'; unfold node_kind; by rewrite Hc).
  unfold ext2_write_file, mbind at 1, ST_bind at 1. unfold mutex_lock, on_mnt, modify. unfold mbind at 1, ST_bind at 1.
  set (s1 := mk_fsys (set_m_locked true (mnt s)) (env s)). change (node_kind s j) with (node_kind s1 j).
  rewrite <- (Hk _ _ (sc_read_inode ino) s1). destruct (ext2_read_inode ino s1) as [[n|] s2]; [|done].
  unfold mbind at 1, ST_bind at 1, gets. destruct (negb _); [done|]. unfold mbind at 1, ST_bind at 1.
  cbn [snd]. rewrite <- (Hk _ _ (sc_write_data ino n offset size buf) s2). destruct (ext2_write_data ino n offset size buf s2) as [[w n'] s3].
  cbn [snd]. rewrite <- (set_length_kind ino (i_size n') s3 j). done.
Qed.
End cache.

(** ** What a store leaves in memory *)

Definition here (m : Paging.vm) (a : Z) : option (Z * Z) := VMem.translate m (Paging.current_directory m) a.

(** No two addresses of the range share a byte. *)
Definition unaliased (m : Paging.vm) (a n : Z) : Prop :=
  ∀ x y, a ≤ x < a + n → a ≤ y < a + n → here m x = here m y → x = y.

Lemma here_range m a k off : here m a = Some (k, off) → 0 ≤ off < 4096.
Proof.
  unfold here, VMem.translate. destruct (Paging.dirs m !! _); [|done]. cbn. destruct (Paging.present _); [|done]. intros [= _ <-]. zdm.
Qed.

Lemma vget_here m a : VMem.vget m (Paging.current_directory m) a = '(k, off) ← here m a; l ← Paging.ram m !! k; l !! Z.to_nat off.
Proof. done. Qed.

Lemma vput_get m w a b :
  Paging.page_ok m w a = true → frame_full m a →
  ∃ m', VMem.vput (Paging.current_directory m) a b m = Some (tt, m') ∧ same_map m m' ∧
    ∀ x, VMem.vget m' (Paging.current_directory m') x = if decide (here m x = here m a) then Some b else VMem.vget m (Paging.current_directory m) x.
Proof.
  intros Hp Hf. destruct (vput_some m w a b Hp Hf) as (m' & E1 & Hs). exists m'. split_and!; [done|done|]. intros x.
  destruct (page_ok_translate m w a Hp) as [k Hk]. destruct (Hf _ _ Hk) as (l & Hl & Hn).
  unfold VMem.vput in E1. rewrite Hk in E1. cbn in E1. rewrite Hl in E1. injection E1 as <-.
  assert (here m a = Some (k, a mod 0x1000)) as Ha by exact Hk. rewrite !vget_here, Ha. unfold here at 1. rewrite (translate_same m) by done.
  change (VMem.translate m _ x) with (here m x).
  destruct (here m x) as [[k' off']|] eqn:Ex; [|by rewrite decide_False]. pose proof (here_range _ _ _ _ Ex) as Hr. cbn.
  destruct (decide (k' = k)) as [->|Hne].
  - rewrite lookup_insert_eq, Hl. cbn. destruct (decide (off' = a mod 0x1000)) as [->|Ho].
    + rewrite decide_True by done. apply list_lookup_insert_eq. rewrite Hn. zdm.
    + rewrite decide_False by congruence. apply list_lookup_insert_ne. zdm.
  - rewrite lookup_insert_ne by done. by rewrite decide_False by congruence.
Qed.

Lemma vwrite_get l m w a :
  can (Paging.page_ok m) w a (zlength l) → (∀ x, a ≤ x < a + zlength l → frame_full m x) → unaliased m a (zlength l) →
  ∃ m', VMem.vwrite (Paging.current_directory m) a l m = Some (tt, m') ∧ same_map m m' ∧
    (∀ i, 0 ≤ i < zlength l → VMem.vget m' (Paging.current_directory m') (a + i) = l !! Z.to_nat i) ∧
    (∀ x, (∀ y, a ≤ y < a + zlength l → here m x ≠ here m y) → VMem.vget m' (Paging.current_directory m') x = VMem.vget m (Paging.current_directory m) x).
Proof.
  revert m a. induction l as [|b l IH]; intros m a Hc Hf Hu; cbn [VMem.vwrite].
  { exists m. split_and!; [done|apply same_map_refl|intros i Hi; unfold zlength in Hi; cbn in Hi; lia|done]. }
  rewrite zlength_cons in Hc, Hf, Hu |- *. pose proof (zlength_nonneg l).
  destruct (vput_get m w a b) as (m1 & E1 & S1 & G1); [apply Hc; lia|apply Hf; lia|].
  assert (∀ x, here m1 x = here m x) as Hh by (intros x; unfold here; rewrite (sm_current _ _ S1); by apply translate_same).
  unfold mbind, Paging.K_bind. rewrite E1. rewrite <- (sm_current _ _ S1).
  assert (l = [] ∨ u32 (a + 1) = a + 1) as Hnext.
  { destruct l as [|c l]; [by left|right]. rewrite zlength_cons in *. pose proof (zlength_nonneg l). eapply can_next; [exact Hc|lia]. }
  assert (∃ m2, VMem.vwrite (Paging.current_directory m1) (u32 (a + 1)) l m1 = Some (tt, m2) ∧ same_map m1 m2 ∧
    (∀ i, 0 ≤ i < zlength l → VMem.vget m2 (Paging.current_directory m2) (a + 1 + i) = l !! Z.to_nat i) ∧
    (∀ x, (∀ y, a + 1 ≤ y < a + 1 + zlength l → here m1 x ≠ here m1 y) → VMem.vget m2 (Paging.current_directory m2) x = VMem.vget m1 (Paging.current_directory m1) x)) as (m2 & E2 & S2 & G2 & K2).
  { destruct Hnext as [->| ->]; [exists m1; split_and!; [done|apply same_map_refl|intros i Hi; unfold zlength in Hi; cbn in Hi; lia|done]|].
    apply IH.
    - intros x Hx. rewrite (page_ok_same m m1) by done. apply Hc. lia.
    - intros x Hx. apply (frame_full_same m m1); [done|]. apply Hf. lia.
    - intros x y Hx Hy. rewrite !Hh. apply Hu; lia. }
  exists m2. split_and!; [exact E2|by eapply same_map_trans| |].
  - intros i Hi. destruct (decide (i = 0)) as [->|].
    + rewrite Z.add_0_r, K2; [by rewrite G1, decide_True|]. intros y Hy. rewrite !Hh. intros Eq. apply Hu in Eq; lia.
    + replace (a + i) with (a + 1 + (i - 1)) by lia. rewrite G2 by lia. by replace (Z.to_nat i) with (S (Z.to_nat (i - 1))) by lia.
  - intros x Hx. rewrite K2 by (intros y Hy; rewrite !Hh; apply Hx; lia). rewrite G1, decide_False; [by rewrite (sm_current _ _ S1)|]. apply Hx. lia.
Qed.

Lemma user_ok_prefix m a n k w : 0 ≤ a < 4294967296 → 0 ≤ k ≤ n → n < 4294967296 → Paging.user_ok m a n w = true → Paging.user_ok m a k w = true.
Proof.
  intros Ha Hk Hn Hu. destruct (decide (n = k)) as [<-|]; [done|]. apply Paging.user_ok_exact in Hu as (U1 & U2 & U3); [|done|lia].
  destruct (decide (k = 0)) as [->|]; [|apply Paging.user_ok_exact; [done|lia|]; split_and!; [done|lia|intros x Hx; apply U3; lia]].
  unfold Paging.user_ok, Paging.USER_VADDR_MIN, Paging.USER_VADDR_MAX in *. destruct (Z.ltb_spec a 0x40000000); [lia|].
  destruct (Z.geb_spec a 0x80000000); [lia|]. cbn [orb]. destruct (Z.gtb_spec 0 (u32 (0x80000000 - a))); [pose proof (u32_range (0x80000000 - a)); lia|].
  assert (Z.land a (u32 (Z.lnot 0xFFF)) = 4096 * (a / 4096)) as Hb by (apply (ElfSpec.page_base_down a Ha)).
  rewrite Hb, Z.add_0_r, u32_small by lia. apply Paging.user_pages_spec; [zdm|lia|zdm|]. intros j Hj Hlt.
  assert (j = 0) as -> by zdm. rewrite Z.mul_0_r, Z.add_0_r. rewrite (Paging.page_ok_page m w _ a); [apply U3; lia|zdm].
Qed.

(** ** Saving and loading *)

Section files.
Context {D E : Type} `{Net.Nic D} `{BlockEnvOk E}.
#[local] Existing Instances T_ret T_bind I_ret I_bind Y_ret Y_bind.
Abbreviation sys := (@Syscall.sys D E).
Abbreviation file := (Task.file Namespace.nptr).
Abbreviation turn := (@Syscall.turn D E).
Implicit Types (s : sys) (fl : list file) (f : file) (pt : bool → Z → bool) (l : list turn).

Lemma uread_eq pt fl s w a data :
  inv pt fl s → can pt w a (zlength data) → at_user s a data → uread (length data) a s = Some (data, s).
Proof.
  intros Hi Hc Hat. assert (runs (uread (length data) a) s (λ k s', k = data ∧ s' = s)) as Hr.
  { eapply (runs_uread _ pt fl s a w); [done|done|]. intros k Hl Hk. split; [|done]. apply list_eq. intros i.
    destruct (decide (i < length data)%nat) as [Hlt|Hge]; [|rewrite !lookup_ge_None_2 by lia; done].
    specialize (Hat (Z.of_nat i)). specialize (Hk (Z.of_nat i)). unfold zlength in *. rewrite Nat2Z.id in *. rewrite <- Hat, <- Hk by lia. done. }
  unfold runs in Hr. destruct (uread (length data) a s) as [[k s']|]; [|done]. by destruct Hr as [-> ->].
Qed.

Lemma uwrite_eq pt fl s a data :
  inv pt fl s → can pt true a (zlength data) → unaliased (vmem s) a (zlength data) →
  ∃ s', uwrite a data s = Some (tt, s') ∧ only_ram s s' ∧ at_user s' a data.
Proof.
  intros Hi Hc Hu. destruct (vwrite_get data (vmem s) true a) as (m & E1 & Hm & Hg & _).
  - intros x Hx. destruct (Hc x Hx). split; [|done]. by rewrite (iv_pages _ _ _ Hi).
  - intros x Hx. apply (iv_ram _ _ _ Hi). destruct (Hc x Hx) as [Hp _]. rewrite <- (iv_pages _ _ _ Hi) in Hp |- *. by eapply page_ok_read.
  - done.
  - exists (set_core (set_mem m (core s)) s). split_and!; [|constructor; [by exists m|done..]|exact Hg].
    unfold uwrite, mbind, I_bind, ask, core_op, run_mem. unfold vmem in E1 |- *. by rewrite E1.
Qed.

(** A descriptor of the file [ino] at offset [off]. *)
Record opened fl (fd ino off : Z) f : Prop := {
  od_fd : 0 ≤ fd < 8;
  od_at : fl !! Z.to_nat fd = Some f;
  od_type : FD_TYPE (f_type f) = FD_FILE;
  od_node : f_node f = Some (Namespace.NExt ino);
  od_off : f_offset f = off;
}.

(** A regular file of a disk that works. *)
Record sound_file s (ino : Z) : Prop := {
  sf_fs : fs_ok (Namespace.volume (fs s));
  sf_rel : reliable (env (Namespace.volume (fs s)));
  sf_ino : valid_ino (geom_of (mnt (Namespace.volume (fs s)))) ino;
  sf_file : Ext2WriteSpec.file_ok (Namespace.volume (fs s)) (disk_inode (Namespace.volume (fs s)) ino);
  sf_kind : node_kind (Namespace.volume (fs s)) ino = Some Vfs.FS_FILE;
}.

Lemma node_at_file (k : @Namespace.kernel E) ino :
  node_kind (Namespace.volume k) ino = Some Vfs.FS_FILE → Namespace.node_at k (Namespace.NExt ino) = Namespace.ext2_file.
Proof.
  unfold node_kind. cbn. destruct (m_node_cache _ !! ino) as [n|]; [|done]. cbn. by intros [= ->].
Qed.

(** The state after a write of [n] bytes through descriptor [fd]. *)
Record saved s fl fd f ino data (n : Z) s' : Prop := {
  sv_write : fs s' = Namespace.mk_kernel (Namespace.ramdisk (fs s)) (ext2_write_file ino (f_offset f) (zlength data) data (Namespace.volume (fs s))).2;
  sv_post : wrote_file (Namespace.volume (fs s)) ino (f_offset f) (zlength data) data n (Namespace.volume (fs s'));
  sv_mem : vmem s' = vmem s;
  sv_task : ∃ t, tasks (core s) !! current_task (core s) = Some t ∧
    core s' = set_tasks (<[current_task (core s) := set_files (<[Z.to_nat fd := set_offset (u32 (f_offset f + n)) f]> fl) t]> (tasks (core s))) (core s);
}.

Lemma sys_write_saves pt fl s l fd f ino buf data :
  inv pt fl s → opened fl fd ino (f_offset f) f → Z.land (f_type f) FD_WRITABLE ≠ 0 → sound_file s ino →
  reg_ok buf → Paging.user_ok (vmem s) buf (zlength data) false = true → at_user s buf data → bytes_ok data →
  f_offset f + zlength data ≤ 274432 →
  ∃ n s', sys_write fd buf (zlength data) s l = Done n s' l ∧ saved s fl fd f ino data n s'.
Proof.
  intros Hi [Hfd Hf Hty Hno _] Hw [F1 F2 F3 F4 F5] Hb Hu Hat Hby Hsz. pose proof (zlength_nonneg data).
  pose proof (iv_files _ _ _ Hi) as Hok. rewrite Forall_lookup in Hok. destruct (Hok _ _ Hf) as [_ Hoff].
  assert (can pt false buf (zlength data)) as Hc.
  { intros x Hx. destruct (can_user_ok (vmem s) buf (zlength data) false Hb ltac:(lia) Hu x Hx) as [Hp ?]. by rewrite (iv_pages _ _ _ Hi) in Hp. }
  pose proof (wp_write_file ino (f_offset f) (zlength data) data _ F1 F2 F3 F4 Hoff ltac:(lia) Hsz ltac:(lia) Hby) as W. unfold wp in W.
  destruct (ext2_write_file ino (f_offset f) (zlength data) data (Namespace.volume (fs s))) as [n v] eqn:Ew. cbn [fst snd] in W.
  destruct (iv_task _ _ _ Hi) as (t & Ht & Efl).
  set (s1 := set_fs (Namespace.mk_kernel (Namespace.ramdisk (fs s)) v) s).
  exists n, (set_core (set_tasks (<[current_task (core s) := set_files (<[Z.to_nat fd := set_offset (u32 (f_offset f + n)) f]> fl) t]> (tasks (core s))) (core s)) s1).
  split; [|constructor; [cbn; by rewrite Ew|exact W|done|by exists t]].
  assert (write_file fd f buf (zlength data) s = Some (s32 n, set_core (set_tasks (<[current_task (core s) := set_files (<[Z.to_nat fd := set_offset (u32 (f_offset f + n)) f]> fl) t]> (tasks (core s))) (core s)) s1)) as Hwf.
  { unfold write_file. destruct (Z.eqb_spec (Z.land (f_type f) FD_WRITABLE) 0); [done|]. rewrite Hno. unfold mbind at 1, I_bind at 1, node_at, ask.
    rewrite node_at_file by done. cbn [Namespace.ext2_file Vfs.write]. unfold mbind at 1, I_bind at 1.
    replace (Z.to_nat (zlength data)) with (length data) by (unfold zlength; lia). rewrite (uread_eq pt fl s false) by done.
    unfold mbind at 1, I_bind at 1, fs_op, Vfs.vfs_write, mbind at 1, ST_bind at 1, Vfs.node, gets. rewrite node_at_file by done.
    cbn [Namespace.ext2_file Vfs.write]. unfold Namespace.ptr_write, Namespace.on_volume. rewrite Ew.
    unfold mbind, I_bind, advance, core_op. by rewrite (put_file_eq fd _ (core s1) t Ht), Efl. }
  unfold sys_write, mbind at 1, Y_bind at 1, now at 1, core_op at 1. rewrite (fd_get_eq pt fl s fd f) by done. rewrite set_core_id.
  unfold mbind at 1, Y_bind at 1, now at 1, user_ok, ask. rewrite Hu. cbn [negb]. rewrite Hty.
  change (FD_FILE =? FD_CONSOLE) with false. change (FD_FILE =? FD_PIPE_W) with false. change (FD_FILE =? FD_CHANNEL) with false.
  change (FD_FILE =? FD_FILE) with true. cbv iota. unfold now. rewrite Hwf. destruct W as [_ Wc _ _ _ _ _ _]. by rewrite (s32_id n) by lia.
Qed.

Lemma inv_saved pt fl s fd f ino data n s' :
  inv pt fl s → 0 ≤ fd < 8 → fl !! Z.to_nat fd = Some f → saved s fl fd f ino data n s' →
  inv pt (<[Z.to_nat fd := set_offset (u32 (f_offset f + n)) f]> fl) s'.
Proof.
  intros Hi Hfd Hf [_ _ _ (t & Ht & Ec)]. eapply inv_core; [|eapply (inv_refiled pt fl _ s (core s') t); try done]; [done|by rewrite length_insert| |].
  - pose proof (iv_files _ _ _ Hi) as Hok. apply Forall_insert; [done|]. rewrite Forall_lookup in Hok. destruct (Hok _ _ Hf) as [H1' _].
    split; [done|]. cbn. pose proof (u32_range (f_offset f + n)). lia.
  - intros q w. rewrite (fsum_insert q w fl _ f) by done. assert (uses q w (set_offset (u32 (f_offset f + n)) f) = uses q w f) as -> by done. lia.
Qed.

Lemma sys_read_loads pt fl s l fd f ino buf n :
  inv pt fl s → opened fl fd ino (f_offset f) f → Z.land (f_type f) FD_WRITEONLY = 0 → node_kind (Namespace.volume (fs s)) ino = Some Vfs.FS_FILE →
  reg_ok buf → 0 ≤ n < 2147483648 → Paging.user_ok (vmem s) buf n true = true → unaliased (vmem s) buf n →
  let data := (ext2_read_file ino (f_offset f) n (Namespace.volume (fs s))).1 in
  ∃ s', sys_read fd buf n s l = Done (zlength data) s' l ∧ at_user s' buf data.
Proof.
  intros Hi [Hfd Hf Hty Hno _] Hw Hk Hb Hn Hu Hal data.
  assert (can pt true buf n) as Hc.
  { intros x Hx. destruct (can_user_ok (vmem s) buf n true Hb ltac:(lia) Hu x Hx) as [Hp ?]. by rewrite (iv_pages _ _ _ Hi) in Hp. }
  assert (0 ≤ zlength data ≤ n) as Hl by (split; [apply zlength_nonneg|apply (ext2_read_length ino (f_offset f) n ltac:(lia) (Namespace.volume (fs s)))]).
  destruct (ext2_read_file ino (f_offset f) n (Namespace.volume (fs s))) as [d v] eqn:Er. subst data. cbn [fst] in Hl |- *. rename d into data.
  set (s1 := set_fs (Namespace.mk_kernel (Namespace.ramdisk (fs s)) v) s). assert (inv pt fl s1) as Hi1 by by apply (inv_core pt fl s).
  destruct (uwrite_eq pt fl s1 buf data Hi1) as (s2 & E2 & Ho & Hat); [apply (can_part pt true buf n); [done|lia|lia]|intros x y Hx Hy; apply Hal; lia|].
  pose proof (inv_only_ram _ _ _ _ Ho Hi1) as Hi2. destruct (iv_task _ _ _ Hi2) as (t & Ht & Efl).
  eexists. split; [|shelve].
  assert (read_file fd f buf n s = Some (zlength data, set_core (set_tasks (<[current_task (core s2) := set_files (<[Z.to_nat fd := set_offset (u32 (f_offset f + zlength data)) f]> fl) t]> (tasks (core s2))) (core s2)) s2)) as Hrf.
  { unfold read_file. rewrite Hw. cbn [negb Z.eqb]. change (0 =? 0) with true. cbn [negb]. rewrite Hno.
    unfold mbind at 1, I_bind at 1, fs_op, Vfs.vfs_read, mbind at 1, ST_bind at 1, Vfs.node, gets. rewrite node_at_file by done.
    cbn [Namespace.ext2_file Vfs.read]. unfold Namespace.ptr_read, Namespace.on_volume. rewrite Er. fold s1. unfold mbind at 1, I_bind at 1. rewrite E2.
    unfold mbind, I_bind, advance, core_op. rewrite (put_file_eq fd _ (core s2) t Ht), Efl. rewrite s32_id by lia. done. }
  unfold sys_read, mbind at 1, Y_bind at 1, now at 1, core_op at 1. rewrite (fd_get_eq pt fl s fd f) by done. rewrite set_core_id.
  unfold mbind at 1, Y_bind at 1, now at 1, user_ok, ask. rewrite Hu. cbn [negb]. rewrite Hty.
  change (FD_FILE =? FD_CONSOLE) with false. change (FD_FILE =? FD_CHANNEL) with false. change (FD_FILE =? FD_FILE) with true. cbn [orb].
  unfold now. rewrite Hrf. reflexivity.
  Unshelve. exact Hat.
Qed.

(** C9: What a program saves it can load again.  Writing a buffer of user memory
    to a file through a descriptor open for writing stores its first [n]
    bytes, all of them unless the disk is full; reading [n] bytes at the
    same place through any other descriptor of the file puts those bytes
    into the program's other buffer, wherever the two buffers are. *)
Theorem saved_is_loaded pt fl s l wfd rfd fw fr ino off buf buf2 data :
  inv pt fl s → opened fl wfd ino off fw → opened fl rfd ino off fr → wfd ≠ rfd →
  Z.land (f_type fw) FD_WRITABLE ≠ 0 → Z.land (f_type fr) FD_WRITEONLY = 0 → sound_file s ino →
  reg_ok buf → reg_ok buf2 → Paging.user_ok (vmem s) buf (zlength data) false = true →
  Paging.user_ok (vmem s) buf2 (zlength data) true = true → unaliased (vmem s) buf2 (zlength data) →
  at_user s buf data → bytes_ok data → off + zlength data ≤ 274432 →
  ∃ n s1 s2, sys_write wfd buf (zlength data) s l = Done n s1 l ∧ sys_read rfd buf2 n s1 l = Done n s2 l ∧
    0 ≤ n ≤ zlength data ∧ (n < zlength data → no_free_block (Namespace.volume (fs s1))) ∧ at_user s2 buf2 (take (Z.to_nat n) data).
Proof.
  intros Hi Hw Hr Hne Hwr Hrd Hs Hb Hb2 Hu Hu2 Hal Hat Hby Hsz. pose proof Hw as [W1 W2 W3 W4 Woff]. pose proof Hr as [R1 R2 R3 R4 Roff]. subst off.
  destruct (sys_write_saves pt fl s l wfd fw ino buf data Hi Hw Hwr Hs Hb Hu Hat Hby Hsz) as (n & s1 & E1 & Hsv).
  pose proof (inv_saved _ _ _ _ _ _ _ _ _ Hi W1 W2 Hsv) as Hi1. destruct Hsv as [Sw [[P1 [P2 [_ P0]]] Pc Pf Pfile Psz Pk _ _] Sm _].
  pose proof (iv_files _ _ _ Hi) as Hok. rewrite Forall_lookup in Hok. destruct (Hok _ _ W2) as [_ Hoff].
  pose proof (wp_read_file ino (f_offset fw) n (Namespace.volume (fs s1)) P1 ltac:(lia) ltac:(lia)) as R. cbv zeta in R. unfold wp in R.
  destruct R as (Rd & _ & Rl). rewrite P2 in Rl. specialize (Rl P0 (sf_ino _ _ Hs) Pfile).
  destruct (sys_read_loads pt _ s1 l rfd fr ino buf2 n Hi1) as (s2 & E2 & Hat2).
  { constructor; try done. by rewrite list_lookup_insert_ne by lia. }
  { done. }
  { rewrite Sw. cbn. rewrite write_file_kind. apply Hs. }
  { done. }
  { lia. }
  { rewrite Sm. by apply (user_ok_prefix _ _ (zlength data)); [|lia|lia|]. }
  { rewrite Sm. intros x y Hx Hy. apply Hal; lia. }
  rewrite Roff in E2, Hat2. set (r := (ext2_read_file ino (f_offset fw) n (Namespace.volume (fs s1))).1) in *.
  assert (zlength r = n) as Hlen.
  { rewrite Rl, Psz. case_decide; [lia|]. lia. }
  rewrite Hlen in E2, Rd. exists n, s1, s2. split_and!; [done|done|lia|lia|done|].
  assert (take (Z.to_nat n) data = r) as ->; [|done]. rewrite Rd. apply list_eq. intros i. unfold fbytes. rewrite list_lookup_fmap.
  destruct (decide (i < Z.to_nat n)%nat) as [Hi0|Hi0].
  - rewrite lookup_seqZ_lt by lia. cbn. rewrite lookup_take_lt by lia. rewrite Pk by lia. unfold written. rewrite decide_True by lia.
    replace (f_offset fw + Z.of_nat i - f_offset fw) with (Z.of_nat i) by lia. unfold bget. rewrite Nat2Z.id.
    destruct (data !! i) eqn:Ed; [done|]. apply lookup_ge_None_1 in Ed. unfold zlength in *. lia.
  - rewrite lookup_take_ge by lia. rewrite lookup_seqZ_ge by lia. done.
Qed.
End files.

(** The text "hello" goes to the file and comes back at 0x40000100. *)
Lemma saved_is_loaded_witness :
  ∃ n s1 s2, sys_write 3 0x40000008 5 SysDemo.demo_open [] = Done n s1 [] ∧ sys_read 4 0x40000100 n s1 [] = Done n s2 [] ∧
    0 ≤ n ≤ 5 ∧ (n < 5 → no_free_block (Namespace.volume (fs s1))) ∧ at_user s2 0x40000100 (take (Z.to_nat n) [104; 101; 108; 108; 111]).
Proof.
  assert (vmem SysDemo.demo_open = SysDemo.demo_mem) as Em by (vm_compute; reflexivity).
  apply (saved_is_loaded SysDemo.demo_pt SysDemo.demo_files SysDemo.demo_open [] 3 4 (mk_file (Z.lor FD_FILE FD_WRITABLE) (Some (Namespace.NExt 11)) 0 0 0 0)
    (mk_file FD_FILE (Some (Namespace.NExt 11)) 0 0 0 0) 11 0 0x40000008 0x40000100 [104; 101; 108; 108; 111]).
  - exact SysDemo.demo_open_inv.
  - constructor; (reflexivity || lia).
  - constructor; (reflexivity || lia).
  - lia.
  - discriminate.
  - reflexivity.
  - destruct Ext2Theorems.img_file_ok as (Hs & _ & Hr). constructor; [exact Hs|exact Hr|exact Ext2Theorems.img_valid|exact Ext2Theorems.img_file_ok11|vm_compute; reflexivity].
  - unfold reg_ok. lia.
  - unfold reg_ok. lia.
  - vm_compute. reflexivity.
  - vm_compute. reflexivity.
  - rewrite Em. intros x y Hx Hy. change (zlength [104; 101; 108; 108; 111]) with 5 in *.
    assert (∀ z, 0x40000100 ≤ z < 0x40000100 + 5 → here SysDemo.demo_mem z = Some (5, z mod 0x1000)) as Hh.
    { intros z Hz. unfold here, VMem.translate. change (z / 0x1000) with (z / 4096). replace (z / 4096) with 0x40000 by zdm. vm_compute. reflexivity. }
    rewrite !Hh by done. intros [= Eq]. zdm.
  - intros i Hi. change (zlength [104; 101; 108; 108; 111]) with 5 in Hi. assert (i = 0 ∨ i = 1 ∨ i = 2 ∨ i = 3 ∨ i = 4) as Hc by lia.
    destruct Hc as [->|[->|[->|[->| ->]]]]; vm_compute; reflexivity.
  - repeat constructor; lia.
  - vm_compute. discriminate.
Defined.
End SysFiles.
