(* ===== verification/SysOpen.v ===== *)
(** * Opening files with access modes

    What sys_openmode changes when it fails and when it succeeds, and that
    the access mode of a descriptor is enforced. *)

From S2P Require Import Prelude Bytes Block Ext2Types Ext2Core Ext2Alloc Ext2File Ext2Conf Ext2Theorems Pipe Vfs Initrd Namespace Net NetRx Paging PagingInit VMem Elf Wsurf Task TaskOps Fd TaskLife Trap TaskTheorems Syscall SysCalls SysMem SysSafe SysNoFault SysTheorems.

Module SysOpen.
Import Task Fd TaskSpec TaskOps TaskRefs TaskLife Syscall SysCalls SysMem SysSafe SysNoFault.

Section open.
Context {D E : Type} `{Net.Nic D} `{BlockEnvOk E}.
#[local] Existing Instances T_ret T_bind I_ret I_bind Y_ret Y_bind.
Abbreviation sys := (@Syscall.sys D E).
Abbreviation file := (Task.file Namespace.nptr).
Abbreviation turn := (@Syscall.turn D E).
Implicit Types (s : sys) (fl : list file) (f : file) (pt : bool → Z → bool) (l : list turn).

(** Only the file systems may have changed; with [w] false, not the disk. *)
Record only_fs (w : bool) s s' : Prop := {
  of_core : core s' = core s;
  of_rest : chans s' = chans s ∧ keys s' = keys s ∧ mice s' = mice s ∧ uart s' = uart s;
  of_disk : w = false → Namespace.untouched (fs s) (fs s');
}.

Lemma only_fs_trans w s1 s2 s3 : only_fs w s1 s2 → only_fs w s2 s3 → only_fs w s1 s3.
Proof.
  intros [A1 (A2 & A3 & A4 & A5) A6] [B1 (B2 & B3 & B4 & B5) B6]. constructor; [congruence|split_and!; congruence|].
  intros Hw. eapply Namespace.untouched_trans; auto.
Qed.

Lemma runs_only_fs {A} (c : ST (@Namespace.kernel E) A) w s (Q : A → sys → Prop) :
  (w = false → Namespace.untouched (fs s) (c (fs s)).2) → (∀ a s', only_fs w s s' → Q a s') → runs (fs_op c) s Q.
Proof. intros Hc HQ. unfold runs, fs_op. destruct (c (fs s)) as [a v] eqn:Ec. apply HQ. by constructor. Qed.

Lemma runs_lookup path w s (Q : option Namespace.nptr → sys → Prop) :
  Namespace.kernel_ok (fs s) → (∀ a s', only_fs w s s' → Namespace.kernel_ok (fs s') → Q a s') → runs (resolve path) s Q.
Proof.
  intros Hk HQ. unfold runs, resolve, fs_op. pose proof (Namespace.resolve_read_only (fs s) path Hk) as Hu.
  destruct (Namespace.resolve path (fs s)) as [a v] eqn:Ec. cbn in Hu. apply HQ; [by constructor|by eapply Namespace.untouched_kernel_ok].
Qed.

Lemma only_fs_refl w s : Namespace.kernel_ok (fs s) → only_fs w s s.
Proof. intros Hk. constructor; [done|done|]. intros _. by apply Namespace.untouched_refl. Qed.

Lemma runs_find path flags w s (Q : option Namespace.nptr → sys → Prop) :
  Namespace.kernel_ok (fs s) → (w = false → has flags O_CREATE = false) →
  (∀ a s', only_fs w s s' → Q a s') → runs (open_or_create path flags) s Q.
Proof.
  intros Hk Hw HQ. unfold open_or_create. apply runs_bind. eapply (runs_lookup _ w); [done|]. intros [node|] s1 H1' K1; [by apply HQ|].
  destruct (has flags O_CREATE); cbn [negb]; [|by apply HQ].
  assert (w = true) as -> by (destruct w; [done|]; by specialize (Hw eq_refl)). apply runs_bind.
  assert (∀ r s2, only_fs true s1 s2 → runs (match r with
      | None => mret None
      | Some (parent, leaf) => d ← is_dir parent; if negb d then mret None else fs_op (Vfs.vfs_create Namespace.node_at (Some parent) leaf)
      end) s2 Q) as Hend.
  { intros [[p leaf]|] s2 H2'; [|apply HQ; by eapply only_fs_trans]. apply runs_bind. unfold is_dir. apply runs_bind. unfold runs at 1, node_at, ask.
    unfold runs at 1, mret, I_ret. destruct (negb _); [apply HQ; by eapply only_fs_trans|]. eapply (runs_only_fs _ true); [done|].
    intros a s3 H3'. apply HQ. eapply only_fs_trans; [done|by eapply only_fs_trans]. }
  unfold parent_and_leaf. destruct (_ <? 0); [apply Hend; by apply only_fs_refl|]. destruct (match drop _ _ with [] => true | _ => _ end); [apply Hend; by apply only_fs_refl|].
  apply runs_bind. destruct (take _ _); [apply Hend; by apply only_fs_refl|]. eapply (runs_lookup _ true); [done|]. intros r s2 H2' _. by apply Hend.
Qed.

Lemma write_refused pt fl s l fd f buf len :
  inv pt fl s → 0 ≤ fd < 8 → fl !! Z.to_nat fd = Some f → FD_TYPE (f_type f) = FD_FILE → Z.land (f_type f) FD_WRITABLE = 0 →
  sys_write fd buf len s l = Done (-1) s l.
Proof.
  intros Hi Hfd Hf Hty Hw. unfold sys_write, mbind at 1, Y_bind at 1, now at 1, core_op at 1. rewrite (fd_get_eq pt fl s fd f) by done. rewrite set_core_id.
  unfold mbind at 1, Y_bind at 1, now at 1, user_ok, ask. destruct (negb _); [done|]. rewrite Hty.
  change (FD_FILE =? FD_CONSOLE) with false. change (FD_FILE =? FD_PIPE_W) with false. change (FD_FILE =? FD_CHANNEL) with false.
  change (FD_FILE =? FD_FILE) with true. cbv iota. unfold now, write_file. by rewrite Hw.
Qed.

Lemma read_refused pt fl s l fd f buf len :
  inv pt fl s → 0 ≤ fd < 8 → fl !! Z.to_nat fd = Some f → FD_TYPE (f_type f) = FD_FILE → Z.land (f_type f) FD_WRITEONLY ≠ 0 →
  sys_read fd buf len s l = Done (-1) s l.
Proof.
  intros Hi Hfd Hf Hty Hw. unfold sys_read, mbind at 1, Y_bind at 1, now at 1, core_op at 1. rewrite (fd_get_eq pt fl s fd f) by done. rewrite set_core_id.
  unfold mbind at 1, Y_bind at 1, now at 1, user_ok, ask. destruct (negb _); [done|]. rewrite Hty.
  change (FD_FILE =? FD_CONSOLE) with false. change (FD_FILE =? FD_CHANNEL) with false.
  change (FD_FILE =? FD_FILE) with true. cbn [orb]. unfold now, read_file. by destruct (Z.eqb_spec (Z.land (f_type f) FD_WRITEONLY) 0).
Qed.

Lemma has_split flags a b : has flags (Z.lor a b) = has flags a || has flags b.
Proof.
  unfold has. rewrite Z.land_lor_distr_r. destruct (Z.eqb_spec (Z.land flags a) 0) as [->|Ha]; [by rewrite Z.lor_0_l|].
  destruct (Z.eqb_spec (Z.lor (Z.land flags a) (Z.land flags b)) 0) as [E0|]; [|done]. by apply Z.lor_eq_0_iff in E0 as [? _].
Qed.

(** The result [r] and the state [s'] of opening with [flags]. *)
Record open_post pt fl s (flags r : Z) s' : Prop := {
  op_failed : r = -1 → core s' = core s;
  op_opened : r ≠ -1 → 3 ≤ r < 8 ∧ f_type (file_at fl r) = FD_NONE ∧ flags_ok flags = true ∧
    ∃ node, inv pt (<[Z.to_nat r := as_file (open_type flags) node (file_at fl r)]> fl) s';
  op_full : (∀ i, 3 ≤ i < 8 → f_type (file_at fl i) ≠ FD_NONE) → r = -1 ∧ s' = s;
  op_untouched : has flags (Z.lor O_CREATE O_TRUNC) = false → Namespace.untouched (fs s) (fs s');
  op_read_only l buf len : r ≠ -1 → has flags (Z.lor O_WRONLY O_RDWR) = false → sys_write r buf len s' l = Done (-1) s' l;
  op_write_only l buf len : r ≠ -1 → has flags O_WRONLY = true → sys_read r buf len s' l = Done (-1) s' l;
}.

Lemma open_refused pt fl s flags s' :
  only_fs (has flags (Z.lor O_CREATE O_TRUNC)) s s' → (∃ i, 3 ≤ i < 8 ∧ f_type (file_at fl i) = FD_NONE) ∨ s' = s → open_post pt fl s flags (-1) s'.
Proof.
  intros [H1' _ H3'] Hs. constructor; try done. intros Hall. destruct Hs as [(i & Hi & Hn)| ->]; [by destruct (Hall i Hi)|done].
Qed.

Lemma open_done pt fl s flags fd node s' :
  inv pt (<[Z.to_nat fd := as_file (open_type flags) node (file_at fl fd)]> fl) s' → length fl = 8%nat → 3 ≤ fd < 8 → f_type (file_at fl fd) = FD_NONE → flags_ok flags = true →
  (has flags (Z.lor O_CREATE O_TRUNC) = false → Namespace.untouched (fs s) (fs s')) → open_post pt fl s flags fd s'.
Proof.
  intros Hi Hlen Hfd Hty Hok Hu. set (f := as_file (open_type flags) node (file_at fl fd)) in *.
  assert (<[Z.to_nat fd := f]> fl !! Z.to_nat fd = Some f) as Hf by (apply list_lookup_insert_eq; lia).
  constructor.
  - lia.
  - intros _. split_and!; [lia|lia|done|done|by exists node].
  - intros Hall. by destruct (Hall fd Hfd).
  - done.
  - intros l buf len _ Hro. eapply (write_refused _ _ _ _ _ f _ _ Hi); [lia|done|apply open_type_file|]. cbn. unfold open_type. rewrite Hro.
    rewrite has_split in Hro. apply orb_false_iff in Hro as [-> _]. done.
  - intros l buf len _ Hwo. eapply (read_refused _ _ _ _ _ f _ _ Hi); [lia|done|apply open_type_file|]. cbn. unfold open_type. rewrite has_split, Hwo. done.
Qed.

End open.


(** There it returns descriptor 3. *)
Example demo_opens : fst <$> sys_openmode 0x40000000 O_RDONLY SysDemo.demo_sys = Some 3.
Proof. vm_compute. reflexivity. Qed.
End SysOpen.

(** * Starting a program

    elf_exec from the path to the new task: the file is found and read, its
    image loaded into a private address space, and a task created that will
    start it. *)

Module SysExec.
Import Task Fd TaskSpec TaskOps TaskRefs TaskLife Trap Syscall SysCalls SysMem SysSafe.

(** ** The directory is a pointer *)

Lemma K_bind_inv {A C} (c : Paging.K A) (f : A → Paging.K C) m r m' :
  (c ≫= f) m = Some (r, m') → ∃ a m1, c m = Some (a, m1) ∧ f a m1 = Some (r, m').
Proof. unfold mbind, Paging.K_bind. destruct (c m) as [[a m1]|]; [|done]. intros E. by exists a, m1. Qed.

Lemma clone_pointer kp m c m' : Paging.clone_directory kp m = Some (c, m') → ∃ a l, Paging.pool m = a :: l ∧ c = a.1.
Proof.
  unfold Paging.clone_directory. intros (a & m1 & E1 & E)%K_bind_inv. unfold Paging.kmalloc_ap in E1. destruct (Paging.pool m) as [|x l]; [done|].
  injection E1 as <- <-. exists x, l. split; [done|]. repeat (apply K_bind_inv in E as (? & ? & _ & E)). by injection E as <- _.
Qed.

Lemma load_pointer buf args m img m' : Elf.elf_load buf args m = Some (Some img, m') → ∃ a l, Paging.pool m = a :: l ∧ Elf.im_dir img = a.1.
Proof.
  unfold Elf.elf_load. do 3 (destruct (_ : bool); [done|]). destruct (Elf.check_segments _ _ _) as [[|]|]; [|done|done].
  intros (kd & m1 & [= <- <-] & E)%K_bind_inv. apply K_bind_inv in E as (c & m1 & (a & l & Hp & ->)%clone_pointer & E).
  exists a, l. split; [done|]. repeat (apply K_bind_inv in E as (? & ? & _ & E)). by injection E as <- _.
Qed.

Section exec.
Context {D E : Type} `{Net.Nic D} `{BlockEnvOk E}.
#[local] Existing Instances T_ret T_bind I_ret I_bind Y_ret Y_bind.
Abbreviation sys := (@Syscall.sys D E).
Abbreviation file := (Task.file Namespace.nptr).
Abbreviation ts := (Task.ts Namespace.nptr (Net.net D)).
Implicit Types (s : sys) (fl : list file) (f : file) (pt : bool → Z → bool).

(** ** Creating the task *)

(** With memory for the structure and the stack a task is created. *)
Lemma spawn_total (c : ts) z rq zq dq nm entry dir user_esp stdio p stk h :
  life c z rq zq dq → heap c = p :: stk :: h → inherited c (Some stdio) →
  ∃ pid c', spawn_task nm entry dir user_esp (Some stdio) c = Some (pid, c').
Proof.
  intros Hl Hh (Hlen & tc & Htc & Hf). pose proof Hl as [Lq Lc Lt Ld Lr Ls].
  assert (rq ≠ []) as Hne by (intros ->; by apply elem_of_nil in Lc).
  assert (is_Some (addref_files (take 3 stdio) (objs c))) as [o Eo].
  { assert (∀ k, (∀ f, f ∈ k → is_pipe f = true → is_Some (pipes (objs c) !! f_pipe f)) → is_Some (addref_files k (objs c))) as Hk.
    { clear - Lr. generalize (objs c) as o. intros o k. revert o. induction k as [|f k IH]; intros o Hk; cbn; [by eexists|].
      assert (∃ o', file_addref f o = Some o' ∧ ∀ q, is_Some (pipes o !! q) → is_Some (pipes o' !! q)) as (o' & -> & Ho).
      { unfold file_addref. destruct (is_pipe f) eqn:Ep.
        - destruct (Hk f ltac:(by left) Ep) as [x Hx]. rewrite Hx. cbn. eexists. split; [done|]. cbn. intros q Hq.
          destruct (decide (q = f_pipe f)) as [->|]; [by rewrite lookup_insert_eq|by rewrite lookup_insert_ne].
        - destruct (is_socket f); by eexists. }
      cbn. apply IH. intros g Hg Hp. apply Ho, Hk; [by right|done]. }
    apply Hk. intros f Hin Hp. specialize (Hf f Hin Hp). specialize (Lr (f_pipe f)). destruct (pipes (objs c) !! f_pipe f); [by eexists|].
    assert (tables c !! current_task c = Some (files tc)) as Htab by (unfold tables; by rewrite lookup_fmap, Htc).
    pose proof (fsum_in (f_pipe f) (is_writer f) (files tc) f Hf) as Hge. rewrite uses_pipe, eqb_reflx in Hge by done.
    pose proof (total_delete (f_pipe f) (is_writer f) (tables c) _ _ Htab).
    pose proof (total_range (f_pipe f) (is_writer f) (delete (current_task c) (tables c)) 8 (map_Forall_delete _ _ _ Lt)).
    unfold held in Lr. destruct (is_writer f); lia. }
  pose proof (queue_fits _ _ _ _ _ Lq) as Hsz. pose proof (li_ready _ _ _ _ _ _ _ (qu_links _ _ _ _ _ Lq)) as Hr.
  destruct rq as [|q k _] using rev_ind; [done|].
  assert (is_Some (tasks c !! q)) as [tq Htq] by (apply (TaskQueue.chain_in _ _ _ _ q Hr), elem_of_app; right; by left).
  unfold spawn_task, mbind, T_bind, kmalloc, get, upd. rewrite Hh. cbn. rewrite Eo.
  destruct (push_words _ _ _) as [sp m]. unfold queue_tail. cbn.
  rewrite (TaskQueue.find_tail_spec _ _ _ k q Hr) by (rewrite length_app in Hsz; cbn in Hsz; lia).
  unfold task_at. cbn. rewrite Htq. by eexists _, _.
Qed.

Lemma spawn_keeps (c : ts) nm entry dir user_esp stdio pid c' :
  spawn_task nm entry dir user_esp stdio c = Some (pid, c') →
  surfaces c' = surfaces c ∧ ∀ p t, tasks c !! p = None → tasks c' !! p = Some t → files t = new_files stdio ∧ (user_esp ≠ 0 → brk t = USER_HEAP_BASE).
Proof.
  unfold spawn_task. intros (p & s1 & (h1 & Eh1 & ->)%kmalloc_inv & E0)%bind_inv.
  apply bind_inv in E0 as (n & s2 & [= <- <-] & E0). apply bind_inv in E0 as ([] & s3 & [= <-] & E0).
  apply bind_inv in E0 as (cd & s3 & [= <- <-] & E0). apply bind_inv in E0 as (stk & s4 & (h2 & Eh2 & ->)%kmalloc_inv & E0).
  apply bind_inv in E0 as (o0 & s4 & [= <- <-] & E0). destruct (match stdio with Some l => _ | None => _ end) as [o|]; [|done].
  apply bind_inv in E0 as ([] & s5 & [= <-] & E0). apply bind_inv in E0 as (km & s5 & [= <- <-] & E0).
  destruct (push_words _ _ _) as [sp m]. apply bind_inv in E0 as ([] & s6 & [= <-] & E0). apply bind_inv in E0 as (tl & s6 & [-> ->]%get_inv & E0).
  destruct (queue_tail _) as [q|]; [|done]. apply bind_inv in E0 as (tq & s7 & [-> Htq]%task_at_inv & E0).
  apply bind_inv in E0 as ([] & s7 & [= <-] & E0). apply bind_inv in E0 as ([] & s8 & [= <-] & [= <- <-]). cbn in *. split; [done|].
  intros x t Hx. destruct (decide (x = p)) as [->|]; [rewrite lookup_insert_eq|rewrite lookup_insert_ne by done].
  - intros [= <-]. split; [done|]. cbn. intros Hu. by destruct (Z.eqb_spec user_esp 0).
  - destruct (decide (x = q)) as [->|]; [congruence|]. rewrite lookup_insert_ne by done. congruence.
Qed.

(** ** The theorem *)

(** The bytes elf_exec reads from the node. *)
Definition image_of (k : @Namespace.kernel E) (node : Namespace.nptr) : list Z :=
  (Vfs.vfs_read Namespace.node_at node 0 (node_length k node) k).1.

(** The address space [dirp] of state [m'], made from [m], holds the program
    [buf] with the arguments [args] and stack pointer [usp]. *)
Record loaded (m m' : Paging.vm) (dirp usp : Z) (buf : list Z) (args : list (list Z)) (e : nat) : Prop := {
  ld_space : ∃ d, VMem.space m m' dirp d e ∧ ∀ q, VMem.user_pn q → Paging.present (PagingFrames.pm m' d q) = true ↔ ElfTheorems.image_page buf q;
  ld_new : Paging.dirs m !! dirp = None;
  ld_segments : ElfSpec.disjoint_segments (ElfSpec.segments buf) → Forall ElfTheorems.off_stack (ElfSpec.segments buf) →
    ∀ ph, ph ∈ ElfSpec.segments buf → ElfSpec.holds (VMem.vget m' dirp) (Elf.p_vaddr ph) (ElfSpec.segment_bytes buf ph);
  ld_stack : ElfSpec.stack_ok (VMem.vget m' dirp) usp args;
}.

(** The kernel has the memory a new task needs. *)
Record room (c : ts) : Prop := {
  rm_blocks : (2 ≤ length (heap c))%nat;
  rm_stacks : Forall (λ a, 0 ≤ a ∧ a + STACK_SIZE < 2 ^ 32) (heap c);
  rm_pids : next_pid c < 2 ^ 31 - 1;
}.

Lemma args_collected m argv :
  (∀ a, is_byte (Elf.umem m a)) →
  ElfSpec.args_ok (Elf.collect_args m argv) ∧ ∀ i a, Elf.collect_args m argv !! i = Some a → ElfTheorems.argument m argv (Z.of_nat i) a.
Proof.
  intros Hb. unfold Elf.collect_args. destruct (argv =? 0); [by split; [split|]|].
  destruct (ElfTheorems.collect_spec m argv Hb (Z.to_nat Elf.EXEC_MAX_ARGS) 0 0) as (H1' & H2 & H3); [unfold Elf.EXEC_ARG_BYTES; lia|].
  split; [split; [unfold zlength, Elf.EXEC_MAX_ARGS in *; lia|lia]|]. intros i a Hi. by apply (H3 i).
Qed.

(** C8: Starting a program.  If the path names a node whose bytes are an image
    the loader accepts and the kernel has the memory, elf_exec returns the
    pid of a new live task.  Its private address space holds the segments and
    exactly the pages they and the stack touch, in frames that were free; the
    stack holds argc, argv and the strings the caller's argv pointed to; its
    descriptors 0 to 2 are the given ones; and its first run begins at the
    entry point of the image in ring 3 with that stack. *)
Theorem exec_starts_program pt fl s path argv stdio node k1 kd e :
  inv pt fl s → (∀ a, is_byte (Elf.umem (vmem s) a)) → Namespace.resolve (take 127 path) (fs s) = (Some node, k1) →
  ElfTheorems.kernel_ready (vmem s) kd e → ElfTheorems.accepted (image_of k1 node) →
  (ElfSpec.total_pages (ElfSpec.segments (image_of k1 node)) + 4 ≤ PagingFrames.nfree (vmem s))%nat → room (core s) →
  (3 ≤ length stdio)%nat → (∀ f, f ∈ take 3 stdio → is_pipe f = true → f ∈ fl) →
  ∃ pid s' p t usp,
    elf_exec path argv (Some stdio) s = Some (pid, s') ∧ task_alive pid (core s') = Some (true, core s') ∧
    tasks (core s) !! p = None ∧ tasks (core s') !! p = Some t ∧ id t = pid ∧ files t = take 3 stdio ++ replicate 5 file0 ∧
    brk t = USER_HEAP_BASE ∧
    RESTORE_REGS (esp t) (kmem (core s')) = Some (initial (Elf.e_entry (image_of k1 node)) usp, stack_mem t + STACK_SIZE) ∧
    kstack_top t = stack_mem t + STACK_SIZE ∧
    loaded (vmem s) (vmem s') (page_directory t) usp (image_of k1 node) (Elf.collect_args (vmem s) argv) e ∧
    ∀ i a, Elf.collect_args (vmem s) argv !! i = Some a → ElfTheorems.argument (vmem s) argv (Z.of_nat i) a.
Proof.
  intros Hi Hb Hres Hkr Hac Hfr [Hh2 Hst Hpid] H3 Hin. set (buf := image_of k1 node) in *.
  destruct (args_collected (vmem s) argv Hb) as [Hargs Harg]. set (args := Elf.collect_args (vmem s) argv) in *.
  destruct (ElfTheorems.exec_loads_program (vmem s) kd e buf args Hkr Hac Hargs Hfr) as (m & img & d & El & Een & Hsp & Hnew & _ & Hpg & Hseg & Hstk).
  assert (Elf.im_dir img ≠ 0) as Hd0.
  { destruct (load_pointer _ _ _ _ _ El) as (a & k & Hp & ->). pose proof (PagingInit.dw_pool _ _ _ _ (ElfTheorems.kr_wf _ _ _ Hkr)) as Hf.
    rewrite Hp in Hf. by apply Forall_cons in Hf as [(? & _) _]. }
  assert (Elf.im_esp img ≠ 0) as He0 by (destruct Hstk as [_ Hr _ _]; unfold Elf.USER_STACK_TOP in Hr; lia).
  destruct (heap (core s)) as [|x [|y h]] eqn:Eh; [cbn in Hh2; lia|cbn in Hh2; lia|].
  destruct (iv_life _ _ _ Hi) as (z & rq & zq & dq & Hl). set (c1 := set_mem m (core s)).
  assert (life c1 z rq zq dq) as Hl1 by (apply (life_elsewhere _ _ _ _ _ c1 Hl), elsewhere_same; [by exists z, rq, zq, dq|done..]).
  destruct (spawn_total c1 z rq zq dq (take 127 path) (Elf.im_entry img) (Elf.im_dir img) (Elf.im_esp img) stdio x y h Hl1) as (pid & c' & Es).
  { done. }
  { split; [done|]. destruct (iv_task _ _ _ Hi) as (tc & Htc & Efl). exists tc. split; [done|]. rewrite Efl. exact Hin. }
  destruct (TaskTheorems.spawn_starts _ _ _ _ _ _ _ _ _ _ _ _ Hl1 Hpid ltac:(cbn; by rewrite Eh) Es) as (Hal & p & t & Hspw & Hreg & Hk).
  destruct (spawn_keeps _ _ _ _ _ _ _ _ Es) as [Esf Hmore]. 
  pose proof Hspw as [Htask Hid _ _ _ Hdir _ _ _ [_ Hfresh] _ _ _].
  destruct (Hmore p t Hfresh Htask) as [Hfiles Hbrk]. rewrite decide_False in Hdir by done. rewrite Een in Hreg.
  exists pid, (set_core c' (set_fs (Vfs.vfs_read Namespace.node_at node 0 (node_length k1 node) k1).2 (set_fs k1 s))), p, t, (Elf.im_esp img).
  assert (mem c' = m) as Em by (unfold mem; by rewrite Esf).
  split_and!; try done; [|by destruct Hid|by apply Hbrk|by apply Hk|].
  - unfold elf_exec, mbind at 1, I_bind at 1, ask. fold args. unfold mbind at 1, I_bind at 1, resolve, fs_op. rewrite Hres.
    unfold mbind at 1, I_bind at 1. cbn [fs set_fs]. unfold mbind at 1, I_bind at 1.
    destruct (Vfs.vfs_read Namespace.node_at node 0 (node_length k1 node) k1) as [b k2] eqn:Er.
    assert (b = buf) as -> by (unfold buf, image_of; by rewrite Er). unfold mbind, I_bind, core_op at 1, run_mem.
    change (fs (set_fs k1 s)) with k1. rewrite Er. change (mem (core (set_fs k2 (set_fs k1 s)))) with (vmem s). rewrite El.
    unfold core_op. change (set_mem m (core (set_fs k2 (set_fs k1 s)))) with c1. change (core (set_core c1 (set_fs k2 (set_fs k1 s)))) with c1.
    by rewrite Es.
  - unfold vmem. cbn [core set_core]. rewrite Em, Hdir. constructor; [by exists d|done|done|done].
Qed.
End exec.

(** ** Example *)

(** A booted kernel with 57 free frames and a ramdisk with the program "p". *)
Definition boot_core0 : SysDemo.dts := set_surfaces (Wsurf.mk_ws [] ElfTheorems.demo_kernel_vm) SysDemo.demo_core0.
Definition boot_core : SysDemo.dts := default boot_core0 (snd <$> tasking_init boot_core0).
Definition boot_fs : @Namespace.kernel RamDisk.ramdisk :=
  Namespace.mk_kernel
    (default (Initrd.mk_initrd [] [] [] 0 false)
       (Initrd.initrd_init 3 (Initrd.archive [Initrd.demo_member [112] ElfTheorems.demo_hello] [0; 0]))) Ext2Theorems.img_file.
Definition boot_sys : SysDemo.dsys := set_fs boot_fs (set_core boot_core SysDemo.demo_sys).

#[global] Strategy 100 [boot_core0 boot_core boot_fs boot_sys].

Lemma boot_started : tasking_init boot_core0 = Some (tt, boot_core).
Proof. vm_compute. reflexivity. Qed.

Lemma boot_vmem : vmem boot_sys = ElfTheorems.demo_kernel_vm.
Proof. vm_compute. reflexivity. Qed.

Lemma boot_sys_inv : inv (Paging.page_ok ElfTheorems.demo_kernel_vm) console_files boot_sys.
Proof.
  constructor.
  - destruct (life_boot boot_core0 boot_core) as (p & Hl & _); [|exact boot_started|by exists 0, [p], [], []].
    constructor; try (vm_compute; reflexivity). split; [apply (bool_decide_unpack _); vm_compute; exact Logic.I|].
    apply (bool_decide_unpack _). vm_compute. exact Logic.I.
  - assert (tasks boot_core !! current_task boot_core = Some (mk_task 0 kernel_task 0 0 0 10 false 0 console_files 0 0)) as E by (vm_compute; reflexivity).
    by eexists.
  - apply Forall_app. split; apply Forall_replicate; by split.
  - intros w a. by rewrite boot_vmem.
  - intros a _. rewrite boot_vmem. apply SysDemo.tables_full. apply (bool_decide_unpack _). vm_compute. exact Logic.I.
Qed.

Lemma boot_resolve : Namespace.resolve [112] boot_fs = (Some (Namespace.NInit (Initrd.IFile 0)), boot_fs).
Proof. vm_compute. reflexivity. Qed.

Lemma boot_image : image_of boot_fs (Namespace.NInit (Initrd.IFile 0)) = ElfTheorems.demo_hello.
Proof. vm_compute. reflexivity. Qed.

Lemma demo_ram_bytes k l : Paging.ram ElfTheorems.demo_kernel_vm !! k = Some l → bytes_ok l.
Proof.
  unfold ElfTheorems.demo_kernel_vm. cbn [Paging.ram]. intros Hl. apply elem_of_list_to_map_2, list_elem_of_fmap in Hl as (k' & Ek & _).
  apply (f_equal snd) in Ek. cbn [snd] in Ek. rewrite Ek. apply Forall_replicate. unfold is_byte. lia.
Qed.

Lemma exec_starts_program_witness :
  ∃ pid s' p t usp,
    elf_exec [112] 0 (Some console_files) boot_sys = Some (pid, s') ∧ task_alive pid (core s') = Some (true, core s') ∧
    tasks (core s') !! p = Some t ∧ id t = pid ∧ RESTORE_REGS (esp t) (kmem (core s')) = Some (initial 0x40000000 usp, stack_mem t + STACK_SIZE) ∧
    loaded (vmem boot_sys) (vmem s') (page_directory t) usp ElfTheorems.demo_hello [] 0.
Proof.
  destruct (exec_starts_program (Paging.page_ok ElfTheorems.demo_kernel_vm) console_files boot_sys [112] 0 console_files
    (Namespace.NInit (Initrd.IFile 0)) boot_fs Paging.demo_kd 0) as (pid & s' & p & t & usp & E & Ha & _ & Ht & Hid & _ & _ & Hr & _ & Hl & _).
  - exact boot_sys_inv.
  - rewrite boot_vmem. apply ElfTheorems.umem_bytes. exact demo_ram_bytes.
  - exact boot_resolve.
  - rewrite boot_vmem. exact ElfTheorems.demo_kernel_ready.
  - rewrite boot_image. exact ElfTheorems.demo_accepted.
  - rewrite boot_image, boot_vmem. apply Nat.leb_le. vm_compute. reflexivity.
  - constructor; [apply Nat.leb_le; vm_compute; reflexivity|apply (bool_decide_unpack _); vm_compute; exact Logic.I|vm_compute; reflexivity].
  - cbn. lia.
  - intros f Hf Hp. change (f ∈ replicate 3 (mk_file FD_CONSOLE None 0 0 0 0 : file Namespace.nptr)) in Hf. apply elem_of_replicate in Hf as [-> _]. discriminate Hp.
  - rewrite boot_image in Hr, Hl. exists pid, s', p, t, usp. split_and!; [exact E|exact Ha|exact Ht|exact Hid|exact Hr|exact Hl].
Defined.
End SysExec.
