(* ===== verification/SysHeap.v ===== *)
(** * Growing a program's memory

    sys_sbrk maps the pages up to the new break, fresh ones as zeros, and
    changes nothing else of the caller's address space. *)

From S2P Require Import Prelude Bytes Block Ext2Types Ext2Core Vfs Initrd Namespace Net NetRx NetWait Paging PagingInit VMem Elf Wsurf Task TaskOps Fd TaskLife TaskTheorems Syscall SysCalls SysMem SysSafe SysTheorems SysOpen.

Module SysHeap.
Import Paging PagingFrames PagingInit VMem.

(** ** One page *)

(** [s'] and [d'] have the pages of [s] and [d] and those of [P], the new
    ones filled with zeros. *)
Record extends (s : vm) (d : page_directory) (s' : vm) (d' : page_directory) (dirp : Z) (P : Z → Prop) : Prop := {
  ex_keep q : user_pn q → pm s d q ≠ zero_page → pm s' d' q = pm s d q;
  ex_only q : user_pn q → ¬ P q → pm s' d' q = pm s d q;
  ex_new q : user_pn q → P q → pm s' d' q ≠ zero_page;
  ex_old a : user_va a → pm s d (a / 4096) ≠ zero_page → vget s' dirp a = vget s dirp a;
  ex_zero a : user_va a → P (a / 4096) → pm s d (a / 4096) = zero_page → vget s' dirp a = Some 0;
}.

Lemma extends_refl s d dirp (P : Z → Prop) : (∀ q, user_pn q → ¬ P q) → extends s d s d dirp P.
Proof. intros HP. constructor; try done; [intros q Hq Hp|intros a Ha Hp]; exfalso; eapply HP; [|done| |done]; [done|by apply user_va_pn]. Qed.

Lemma extends_trans s1 d1 s2 d2 s3 d3 dirp P Q :
  (∀ q, P q → ¬ Q q) → extends s1 d1 s2 d2 dirp P → extends s2 d2 s3 d3 dirp Q → extends s1 d1 s3 d3 dirp (λ q, P q ∨ Q q).
Proof.
  intros Hd [K1 O1 N1 V1 Z1] [K2 O2 N2 V2 Z2]. constructor.
  - intros q Hq Hne. rewrite K2, K1; try done. by rewrite K1.
  - intros q Hq Hn. rewrite O2, O1; auto.
  - intros q Hq [Hp|Hp]; [|by auto]. rewrite O2; auto.
  - intros a Ha Hne. rewrite V2, V1; try done. by rewrite K1 by (done || by apply user_va_pn).
  - intros a Ha Hp Hz. pose proof (user_va_pn a Ha) as Hq. destruct Hp as [Hp|Hp]; [rewrite V2; auto|].
    apply Z2; [done|done|]. rewrite O1; [done|done|]. intros HP. by apply (Hd _ HP).
Qed.

Lemma extends_iff s d s' d' dirp P Q : (∀ q, P q ↔ Q q) → extends s d s' d' dirp P → extends s d s' d' dirp Q.
Proof. intros Hpq []. constructor; try done; intros q Hq; rewrite <- Hpq; auto. Qed.

(** The page at [a] and the zeros. *)
Definition sbrk_page (dirp cur a : Z) : K unit :=
  p ← get_page_make a dirp; pg ← load p;
  if frame pg =? 0 then _ ← alloc_frame p false true; vfill (Z.to_nat 0x1000) cur a 0 else mret tt.

Lemma vget_remap s d s' d' dirp P a :
  dirs s !! dirp = Some d → dirs s' !! dirp = Some d' → remap s d s' d' P → user_va a →
  pm s d (a / 4096) ≠ zero_page ∨ ¬ P (a / 4096) → vget s' dirp a = vget s dirp a.
Proof.
  intros Hd Hd' [K _ O R _] Ha Hp. rewrite (vget_page _ _ _ _ Hd), (vget_page _ _ _ _ Hd'), R.
  assert (pm s' d' (a / 4096) = pm s d (a / 4096)) as -> by (destruct Hp; [apply K|apply O]; done || by apply user_va_pn). done.
Qed.

Lemma sbrk_page_spec s0 s dirp d e q :
  space s0 s dirp d e → user_pn q → (0 < nfree s)%nat →
  ∃ s' d', sbrk_page dirp dirp (4096 * q) s = Some (tt, s') ∧ space s0 s' dirp d' e ∧
    extends s d s' d' dirp (λ q', q' = q) ∧ (nfree s ≤ S (nfree s'))%nat.
Proof.
  intros Hs Hq Hn. assert (user_va (4096 * q)) as Ha by (unfold user_pn, user_va, USER_VADDR_MIN, USER_VADDR_MAX in *; lia).
  assert (4096 * q / 4096 = q) as Eq by zdm. assert (0 ≤ 4096 * q < 4294967296) as Hr by (unfold user_pn in Hq; lia).
  destruct (get_make_spec s dirp d e (4096 * q) (vs_wf _ _ _ _ _ Hs) Hr) as (p & s1 & d1 & E1 & Hw1 & Hp & Hne & Hg & _ & _).
  destruct (map_user_page_spec s0 s dirp d e (4096 * q) Hs Ha Hn) as (s2 & d2 & E2 & Hs2 & Hm & Hf).
  change 0x1000 with 4096 in Hp, Hne. rewrite Eq in Hp, Hne, Hm. unfold user_pn in Hq. destruct (pm_entry s1 dirp d1 e q Hw1 ltac:(lia) Hne) as [He _]. rewrite <- Hp in He.
  rewrite (gr_pm _ _ _ _ _ Hg) in He by lia. unfold map_user_page, mbind, K_bind in E2. rewrite E1 in E2.
  pose proof (dw_dir _ _ _ _ (vs_wf _ _ _ _ _ Hs)) as Hd. pose proof (dw_dir _ _ _ _ (vs_wf _ _ _ _ _ Hs2)) as Hd2.
  assert (∀ a, user_va a → pm s d (a / 4096) ≠ zero_page ∨ a / 4096 ≠ q → vget s2 dirp a = vget s dirp a) as Hv
    by (intros a Hx Hc; by eapply vget_remap).
  unfold sbrk_page, mbind, K_bind. rewrite E1, (load_spec s1 p _ He). destruct (vs_page _ _ _ _ _ Hs q Hq) as [Hz|Hu].
  - rewrite Hz. cbn [frame zero_page Z.eqb]. rewrite E2, vfill_write.
    destruct (vwrite_spec (replicate (Z.to_nat 0x1000) 0) s0 s2 dirp d2 e (4096 * q) Hs2) as (s3 & E3 & Hs3 & Hw & Hg3).
    { split_and!; [apply Ha|unfold zlength; rewrite length_replicate; unfold USER_VADDR_MAX; lia|]. intros a Hx.
      unfold zlength in Hx. rewrite length_replicate in Hx. apply (rm_new _ _ _ _ _ Hm); [unfold user_pn; zdm|zdm]. }
    unfold zlength in Hg3. rewrite length_replicate in Hg3. exists s3, d2. split_and!; [done|done| |unfold nfree, free_frames, limit in *; by rewrite (wr_frames _ _ Hw), (wr_n _ _ Hw)].
    destruct Hm as [K N O R L]. constructor; intros x Hx; rewrite ?(wrote_pm s2 s3) by done; auto.
    + intros Hnz. rewrite Hg3, decide_False by (done || intros ?; apply Hnz; by replace (x / 4096) with q by zdm). auto.
    + intros Hxq _. rewrite Hg3, decide_True by (done || zdm). apply lookup_replicate_2. zdm.
  - destruct (Z.eqb_spec (frame (pm s d q)) 0) as [E0|_]; [destruct Hu; lia|].
    rewrite (alloc_frame_mapped s1 p _ _ _ He) in E2 by (destruct Hu; lia). injection E2 as ->. exists s2, d2.
    split_and!; [done|done| |done]. destruct Hm as [K N O R L]. constructor; try done; [by auto|]. intros a _ -> Hz. by apply user_page_not_zero in Hu.
Qed.

(** ** The loop *)

Lemma sbrk_loop_step n dirp cur a new_brk s s1 :
  a < new_brk → sbrk_page dirp cur a s = Some (tt, s1) →
  SysCalls.sbrk_loop (S n) dirp cur a new_brk s = SysCalls.sbrk_loop n dirp cur (u32 (a + 0x1000)) new_brk s1.
Proof.
  intros Hlt E1. cbn [SysCalls.sbrk_loop]. rewrite (proj2 (Z.ltb_lt _ _)) by done. cbn [negb].
  unfold sbrk_page, mbind, K_bind in E1 |- *. destruct (get_page_make a dirp s) as [[p m]|]; [|done].
  destruct (load p m) as [[pg m']|]; [|done]. destruct (frame pg =? 0); [|by injection E1 as ->].
  destruct (alloc_frame p false true m') as [[[] m2]|]; [|done]. by rewrite E1.
Qed.

(** Pages from [q] on that begin below the break. *)
Definition heap_page (q new_brk q' : Z) : Prop := q ≤ q' ∧ 4096 * q' < new_brk.

Lemma sbrk_loop_spec n s0 s dirp d e q new_brk :
  space s0 s dirp d e → 262144 ≤ q → new_brk ≤ USER_VADDR_MAX → new_brk ≤ 4096 * (q + Z.of_nat n) →
  (Z.to_nat ((new_brk - 4096 * q + 4095) / 4096) ≤ nfree s)%nat →
  ∃ s' d', SysCalls.sbrk_loop (S n) dirp dirp (4096 * q) new_brk s = Some (tt, s') ∧ space s0 s' dirp d' e ∧
    extends s d s' d' dirp (heap_page q new_brk).
Proof.
  revert q s d. unfold USER_VADDR_MAX, heap_page. induction n as [|n IH]; intros q s d Hs Hq He Hn Hf; destruct (Z.ltb_spec (4096 * q) new_brk) as [Hlt|Hge].
  1: lia. 1, 3: exists s, d; split_and!; [cbn [SysCalls.sbrk_loop]; by rewrite (proj2 (Z.ltb_ge _ _)) by done|done|apply extends_refl; lia].
  destruct (sbrk_page_spec s0 s dirp d e q Hs) as (s1 & d1 & E1 & Hs1 & Hx1 & Hf1); [unfold user_pn; lia|zdm|].
  destruct (IH (q + 1) s1 d1 Hs1 ltac:(lia) He ltac:(lia)) as (s2 & d2 & E2 & Hs2 & Hx2); [zdm|].
  exists s2, d2. split_and!; [|done|].
  - rewrite (sbrk_loop_step _ _ _ _ _ _ s1 Hlt E1), u32_small by lia. by replace (4096 * q + 0x1000) with (4096 * (q + 1)) by lia.
  - eapply extends_iff; [|eapply extends_trans; [|exact Hx1|exact Hx2]]; intros q'; cbv beta; [split; [intros [->|?]; lia|intros ?; destruct (decide (q' = q)); [by left|right; lia]]|lia].
Qed.

(** ** The call *)

Lemma user_page_ok s0 s d e w a :
  space s0 s (current_directory s) d e → user_va a → pm s d (a / 4096) ≠ zero_page → page_ok s w a = true.
Proof.
  intros Hs Ha Hne. pose proof (user_va_pn a Ha) as Hq. destruct (vs_page _ _ _ _ _ Hs _ Hq) as [|[U1 U2 U3 _ _ _]]; [done|].
  assert (dir_table d (a / 4096 / 1024) ≠ 0) as Hn0 by (intros E0; apply Hne; unfold pm; by rewrite E0).
  unfold user_pn in Hq. assert (0 ≤ a / 4096 < 1048576) as Hpn by lia.
  destruct (pm_entry _ _ _ _ _ (vs_wf _ _ _ _ _ Hs) Hpn Hn0) as [He _].
  pose proof (dw_dir _ _ _ _ (vs_wf _ _ _ _ _ Hs)) as Hd. unfold page_ok, lookup_page. rewrite get_page_lookup, Hd. cbn.
  change 0x1000 with 4096. destruct (Z.eqb_spec (dir_table d (a / 4096 / 1024)) 0) as [|_]; [done|]. cbn [negb].
  rewrite (load_spec s _ _ He), U1, U2, U3. by destruct w.
Qed.
Import Task Fd TaskLife Syscall SysCalls SysMem SysSafe.

Section heap.
Context {D E : Type} `{Net.Nic D} `{BlockEnvOk E}.
#[local] Existing Instances T_ret T_bind I_ret I_bind Y_ret Y_bind.
Abbreviation sys := (@Syscall.sys D E).
Implicit Types (s : sys) (t : task Namespace.nptr).

(** The pages from the one of the old break to the new break. *)
Definition new_pages (old incr : Z) : nat := Z.to_nat ((old + incr - 4096 * (old / 4096) + 4095) / 4096).

(** C17: sbrk.  For a program with its own address space and enough free frames
    sys_sbrk returns the old break and moves it up; the bytes up to the new
    break are then writable by the program, those on pages it did not have
    are zero, and every byte it had is unchanged; the address space stays
    private, its pages in frames nobody else used. *)
Theorem sbrk_grows s t m0 d e incr :
  tasks (core s) !! current_task (core s) = Some t → page_directory t = current_directory (vmem s) →
  space m0 (vmem s) (current_directory (vmem s)) d e → USER_HEAP_BASE ≤ brk t → 0 < incr → brk t + incr ≤ USER_HEAP_MAX →
  (new_pages (brk t) incr ≤ nfree (vmem s))%nat →
  ∃ s' d', sys_sbrk incr s = Some (brk t, s') ∧ space m0 (vmem s') (current_directory (vmem s)) d' e ∧
    tasks (core s') = <[current_task (core s) := set_brk (brk t + incr) t]> (tasks (core s)) ∧
    Paging.user_ok (vmem s') (brk t) incr true = true ∧
    ∀ a, user_va a →
      (page_ok (vmem s) false a = true → vget (vmem s') (page_directory t) a = vget (vmem s) (page_directory t) a) ∧
      (page_ok (vmem s) false a = false → brk t ≤ a < brk t + incr → vget (vmem s') (page_directory t) a = Some 0).
Proof.
  unfold USER_HEAP_BASE, USER_HEAP_MAX, new_pages. intros Ht Hdir Hs Hlo Hinc Hhi Hf. set (q := brk t / 4096).
  destruct (sbrk_loop_spec (Z.to_nat (incr / 0x1000 + 2)) m0 (vmem s) _ d e q (brk t + incr) Hs) as (m & d' & El & Hs' & [K O N V Z0]);
    [unfold q; zdm|unfold USER_VADDR_MAX; lia|unfold q; zdm|done|].
  assert (∀ a, user_va a → page_ok (vmem s) false a = false → pm (vmem s) d (a / 4096) = zero_page) as Hno.
  { intros a Ha Hp. destruct (vs_page _ _ _ _ _ Hs _ (user_va_pn a Ha)) as [|Hu]; [done|].
    rewrite (user_page_ok m0 _ d e false a Hs Ha) in Hp; [done|]. by eapply user_page_not_zero. }
  exists (set_core (set_tasks (<[current_task (core s) := set_brk (brk t + incr) t]> (tasks (core s))) (set_mem m (core s))) s), d'.
  split_and!; [|exact Hs'|done| |].
  - unfold sys_sbrk, mbind at 1, I_bind at 1, task_current, core_op at 1. unfold mbind at 1, T_bind at 1, get, task_at. rewrite Ht.
    destruct (Z.eqb_spec (brk t) 0); [lia|]. destruct (Z.leb_spec incr 0); [lia|]. rewrite (u32_small incr), (u32_small (brk t + incr)) by lia.
    destruct (Z.ltb_spec (brk t + incr) (brk t)); [lia|]. unfold USER_HEAP_MAX. destruct (Z.gtb_spec (brk t + incr) 0x70000000); [lia|]. cbn [orb].
    unfold mbind at 1, I_bind at 1, ask. rewrite set_core_id, Hdir. unfold mbind at 1, I_bind at 1, core_op at 1, run_mem.
    change (mem (core s)) with (vmem s). replace (Z.to_nat ((brk t + incr - brk t) / 0x1000 + 3)) with (S (Z.to_nat (incr / 0x1000 + 2)))
      by (replace (brk t + incr - brk t) with incr by lia; zdm).
    rewrite ElfSpec.page_base_down by lia. fold q. rewrite El. by rewrite s32_id by lia.
  - apply user_ok_exact; [lia|lia|]. unfold USER_VADDR_MIN, USER_VADDR_MAX. split_and!; [lia|lia|]. intros a Ha.
    assert (user_va a) as Hva by (unfold user_va, USER_VADDR_MIN, USER_VADDR_MAX; lia).
    eapply (user_page_ok m0 _ d' e true a); [|done|apply N; [by apply user_va_pn|unfold heap_page, q; zdm]].
    unfold vmem. cbn. rewrite (vs_current _ _ _ _ _ Hs'), <- (vs_current _ _ _ _ _ Hs). exact Hs'.
  - intros a Ha. rewrite Hdir. split.
    + intros Hp. apply V; [done|]. intros Hz. destruct (page_ok_translate _ _ _ Hp) as [k Hk]. unfold translate in Hk.
      rewrite (dw_dir _ _ _ _ (vs_wf _ _ _ _ _ Hs)) in Hk. cbn in Hk. change 0x1000 with 4096 in Hk. by rewrite Hz in Hk.
    + intros Hp Hr. apply Z0; [done|unfold heap_page, q; zdm|by apply Hno].
Qed.
End heap.

(** ** Example *)

(** A directory whose user window is empty. *)
Lemma space_start m kd e : ElfTheorems.kernel_ready m kd e → space m m (kernel_directory m) kd (S e).
Proof.
  intros [Hw Hok Hz Hwin Hram]. assert (∀ q, user_pn q → pm m kd q = zero_page) as Hpm.
  { intros q Hq. unfold user_pn in Hq. unfold pm. by rewrite Hwin by zdm. }
  constructor; try done.
  - intros q Hq. left. by apply Hpm.
  - intros q q' Hq Hq' _. by rewrite Hpm.
  - intros j Hj. by rewrite Hwin.
Qed.

(** The booted kernel whose task has the break 0x60000ff0. *)
Definition grown_task : task Namespace.nptr := mk_task 0 kernel_task 0 0 0 10 false 0x60000ff0 console_files 0 0.
Definition grown_sys : SysDemo.dsys :=
  set_core (set_tasks (<[current_task SysExec.boot_core := grown_task]> (tasks SysExec.boot_core)) SysExec.boot_core) SysExec.boot_sys.

#[global] Strategy 100 [grown_task grown_sys].

Lemma grown_vmem : vmem grown_sys = ElfTheorems.demo_kernel_vm.
Proof. exact SysExec.boot_vmem. Qed.

Lemma sbrk_grows_witness :
  ∃ s', sys_sbrk 0x20 grown_sys = Some (0x60000ff0, s') ∧ Paging.user_ok (vmem s') 0x60000ff0 0x20 true = true ∧
    vget (vmem s') 10 0x6000100f = Some 0.
Proof.
  destruct (sbrk_grows grown_sys grown_task ElfTheorems.demo_kernel_vm demo_kd 1 0x20) as (s' & d' & E & _ & _ & Hok & Hv).
  - reflexivity.
  - rewrite grown_vmem. reflexivity.
  - rewrite grown_vmem. exact (space_start _ _ _ ElfTheorems.demo_kernel_ready).
  - vm_compute. discriminate.
  - reflexivity.
  - vm_compute. discriminate.
  - rewrite grown_vmem. apply Nat.leb_le. vm_compute. reflexivity.
  - exists s'. split_and!; [exact E|exact Hok|]. apply (Hv 0x6000100f); [split; vm_compute; congruence|rewrite grown_vmem; vm_compute; reflexivity|].
    split; vm_compute; congruence.
Defined.
End SysHeap.

(** * Sleeping and waiting

    How long the calls that only wait do so: sys_sleep until the time has
    passed, sys_wait until the task has died. *)

Module SysSleep.
Import Task Syscall SysCalls.

Section sleep.
Context {D E : Type} `{Net.Nic D} `{BlockEnvOk E}.
#[local] Existing Instances T_ret T_bind I_ret I_bind Y_ret Y_bind.
Abbreviation sys := (@Syscall.sys D E).
Abbreviation I := (@Syscall.I D E).
Abbreviation turn := (@Syscall.turn D E).
Implicit Types (s : sys) (l : list turn) (e : turn).

(** The state after the turns [l]. *)
Definition after l s : sys := foldl (λ s e, take_turn e s) s l.

(** ** Loops that wait *)

(** A loop whose passes change nothing returns at the first state in which
    [p] holds, with the result of that pass. *)
Lemma loop_polls {A} (body : unit → I (A + unit)) (p : sys → option A) s l :
  (∀ j, (j ≤ length l)%nat → body tt (after (take j l) s) =
     Some (match p (after (take j l) s) with Some a => inl a | None => inr tt end, after (take j l) s)) →
  match loop body tt s l with
  | Done a s' l' => ∃ k, (k ≤ length l)%nat ∧ s' = after (take k l) s ∧ l' = drop k l ∧ p s' = Some a ∧
      ∀ j, (j < k)%nat → p (after (take j l) s) = None
  | Waiting => ∀ j, (j ≤ length l)%nat → p (after (take j l) s) = None
  | Fault => False
  end.
Proof.
  unfold loop. revert s. induction l as [|e l IH]; intros s Hb; pose proof (Hb 0%nat ltac:(lia)) as H0'; cbn in H0'; cbn [loop_from]; rewrite H0';
    destruct (p s) as [a|] eqn:Ep; try (exists 0%nat; by split_and!; [lia|done|done|done|lia]).
  { intros j Hj. by rewrite take_nil. }
  specialize (IH (take_turn e s)). destruct (loop_from body l tt (take_turn e s)) as [a s' l'| |]; [| |apply IH].
  - destruct IH as (k & Hk & -> & -> & Hp & Hno); [intros j Hj; apply (Hb (S j)); cbn; lia|]. exists (S k). split_and!; [cbn; lia|done|done|done|].
    intros [|j] Hj; [done|]. apply Hno. lia.
  - intros [|j] Hj; [done|]. apply IH; [|cbn in Hj; lia]. intros i Hi. apply (Hb (S i)). cbn. lia.
  - intros j Hj. apply (Hb (S j)). cbn. lia.
Qed.

(** ** Sleeping *)

(** The ticks of the timer during [l]. *)
Definition passed l : Z := foldr (λ e n, NetRx.elapsed (t_net e) + n) 0 l.

(** The other tasks do not set the clock; fewer than 2^31 ticks at a time. *)
Definition ticking l : Prop :=
  Forall (λ e, (∀ s, timer_ticks (t_others e s) = timer_ticks s) ∧ 0 ≤ NetRx.elapsed (t_net e) < 2147483648) l.

Lemma turn_ticks e s : (∀ s, timer_ticks (t_others e s) = timer_ticks s) → timer_ticks (take_turn e s) = u32 (timer_ticks s + NetRx.elapsed (t_net e)).
Proof.
  intros He. change (Net.timer_ticks (NetRx.happen (t_net e) (net_of (t_others e s))) = u32 (timer_ticks s + NetRx.elapsed (t_net e))).
  rewrite NetWait.happen_ticks. by rewrite <- (He s).
Qed.

Lemma after_ticks l s : ticking l → u32 (timer_ticks (after l s) - timer_ticks s) = u32 (passed l).
Proof.
  revert s. induction l as [|e l IH]; intros s Hl; [cbn; by rewrite Z.sub_diag|]. apply Forall_cons in Hl as [[He _] Hl].
  specialize (IH (take_turn e s) Hl). rewrite (turn_ticks e s He) in IH. change (after (e :: l) s) with (after l (take_turn e s)).
  change (passed (e :: l)) with (NetRx.elapsed (t_net e) + passed l). unfold u32 in *.
  rewrite Zminus_mod_idemp_r in IH. rewrite <- Z.add_mod_idemp_r, <- IH, Z.add_mod_idemp_r by lia. f_equal. lia.
Qed.

(** Whether the pass at [s] returns. *)
Definition awake (start ticks : Z) s : option Z := if u32 (timer_ticks s - start) <? ticks then None else Some 0.

Lemma awake_spec ticks s l : ticking l → 0 ≤ passed l < 4294967296 →
  awake (timer_ticks s) ticks (after l s) = if passed l <? ticks then None else Some 0.
Proof. intros Hl Hp. unfold awake. by rewrite (after_ticks l s Hl), u32_small. Qed.

Lemma passed_take_S l j e : l !! j = Some e → passed (take (S j) l) = passed (take j l) + NetRx.elapsed (t_net e).
Proof.
  revert j. induction l as [|e' l IH]; intros [|j] Hj; [done|done|cbn in *; injection Hj as ->; destruct l; cbn; lia|].
  specialize (IH j Hj). cbn [take] in *. unfold passed in *. cbn [foldr]. rewrite IH. lia.
Qed.

Lemma passed_nonneg l : ticking l → 0 ≤ passed l.
Proof. induction 1 as [|e l [_ He] _ IH]; [done|]. unfold passed in *. cbn. lia. Qed.

(** A task that has not woken up by turn [j] has not slept long enough; at
    the next turn the clock has not come round. *)
Lemma still_asleep ticks s l j :
  ticking l → 0 < ticks < 2147483648 →
  (∀ i, (i ≤ j)%nat → awake (timer_ticks s) ticks (after (take i l) s) = None) → passed (take j l) < ticks.
Proof.
  intros Hl Ht. induction j as [|j IH]; intros Ha; [rewrite take_0; unfold passed; cbn; lia|].
  assert (passed (take j l) < ticks) as Hj by (apply IH; intros i Hi; apply Ha; lia).
  destruct (l !! j) as [e|] eqn:Ej; [|apply lookup_ge_None in Ej; rewrite take_ge in Hj |- * by lia; done].
  pose proof (passed_nonneg _ (Forall_take _ j _ Hl)). pose proof (passed_take_S _ _ _ Ej) as Ep. pose proof Hl as Hl'. unfold ticking in Hl'; rewrite Forall_lookup in Hl'.
  destruct (Hl' _ _ Ej) as [_ He]. specialize (Ha (S j) ltac:(lia)). rewrite awake_spec in Ha; [|by apply Forall_take|lia].
  by destruct (Z.ltb_spec (passed (take (S j) l)) ticks).
Qed.

(** C22: Sleeping.  Under any schedule in which the clock ticks on,
    sys_sleep(ms) for up to 21474831 ms (six hours) returns at the first turn
    at which ms milliseconds of timer ticks (5 ms each) have passed, and
    still waits as long as they have not; it changes nothing itself. *)
Theorem sleep_wakes ms s l :
  0 < ms ≤ 21474831 → ticking l →
  match sys_sleep ms s l with
  | Done a s' l' => ∃ k, a = 0 ∧ s' = after (take k l) s ∧ l' = drop k l ∧ ms ≤ 5 * passed (take k l) ∧
      ∀ j, (j < k)%nat → 5 * passed (take j l) < ms
  | Waiting => 5 * passed l < ms
  | Fault => False
  end.
Proof.
  intros Hms Hl. set (ticks := sleep_ticks ms). assert (0 < ticks < 2147483648 ∧ 5 * (ticks - 1) < ms ≤ 5 * ticks) as [Ht Hm].
  { unfold ticks, sleep_ticks, PIT_HZ. rewrite (u32_small (ms * 200)), u32_small by lia. zdm. }
  change (sys_sleep ms s l) with (loop (sleep_pass (timer_ticks s) ticks) tt s l).
  pose proof (loop_polls (sleep_pass (timer_ticks s) ticks) (awake (timer_ticks s) ticks) s l) as Hp.
  destruct (loop _ tt s l) as [a s' l'| |]; [| |apply Hp].
  - destruct Hp as (k & Hk & -> & -> & Ha & Hno).
    { intros j _. unfold sleep_pass, awake, mbind, I_bind, ask. by destruct (_ <? ticks). }
    assert (∀ j, (j < k)%nat → 5 * passed (take j l) < ms) as Hbefore.
    { intros j Hj. enough (passed (take j l) < ticks) by lia. apply (still_asleep ticks s l j Hl Ht). intros i Hi. apply Hno. lia. }
    exists k. split_and!; [|done|done| |done].
    + unfold awake in Ha. destruct (_ <? ticks); [done|]. by injection Ha.
    + assert (0 ≤ passed (take k l) < 4294967296) as Hpk.
      { split; [by apply passed_nonneg, Forall_take|]. destruct k as [|k]; [rewrite take_0; unfold passed; cbn; lia|]. destruct (lookup_lt_is_Some_2 l k ltac:(lia)) as [e He].
        rewrite (passed_take_S _ _ _ He). specialize (Hbefore k ltac:(lia)). unfold ticking in Hl. rewrite Forall_lookup in Hl. destruct (Hl _ _ He) as [_ ?]. lia. }
      rewrite awake_spec in Ha by (done || by apply Forall_take). destruct (Z.ltb_spec (passed (take k l)) ticks); [done|lia].
  - rewrite <- (firstn_all l) at 1. pose proof (still_asleep ticks s l (length l) Hl Ht) as Hs.
    rewrite firstn_all in Hs |- *. lapply Hs; [lia|]. apply Hp. intros j _. unfold sleep_pass, awake, mbind, I_bind, ask. by destruct (_ <? ticks).
  - intros j _. unfold sleep_pass, awake, mbind, I_bind, ask. by destruct (_ <? ticks).
Qed.

(** More than 21474831 ms: the product with the tick rate wraps in 32 bits,
    and the call returns after the next tick. *)
Theorem long_sleep_wraps s e l : 0 ≤ timer_ticks s < 4294967295 → timer_ticks (take_turn e s) = timer_ticks s + 1 → sys_sleep 21474837 s (e :: l) = Done 0 (take_turn e s) l.
Proof.
  intros Hr He. change (loop (sleep_pass (timer_ticks s) 1) tt s (e :: l) = Done 0 (take_turn e s) l). unfold loop. cbn [loop_from].
  unfold sleep_pass at 1, mbind, I_bind, ask. rewrite Z.sub_diag. cbn -[loop_from]. destruct l as [|e' l]; cbn [loop_from]; unfold sleep_pass, mbind, I_bind, ask;
    rewrite He; replace (timer_ticks s + 1 - timer_ticks s) with 1 by lia; done.
Qed.

(** ** Waiting *)

Import TaskLife TaskOps SysMem SysSafe.

Lemma steady_after pt fl s l : inv pt fl s → steady pt l → inv pt fl (after l s).
Proof. revert s. induction l as [|e l IH]; intros s Hi Hl; [done|]. apply Forall_cons in Hl as [He Hl]. apply IH; [by apply He|done]. Qed.

Lemma alive_total pt fl s pid : inv pt fl s → ∃ b : bool, task_alive pid (core s) = Some (b, core s).
Proof. intros Hi. destruct (iv_life _ _ _ Hi) as (z & rq & zq & dq & Hl). destruct (TaskTheorems.alive_spec _ _ _ _ _ pid (lf_queues _ _ _ _ _ Hl)) as (b & Hb & _). by exists b. Qed.

(** Whether the pass of sys_wait at [s] returns, and with what. *)
Definition status_at (pid : Z) s : option Z :=
  match task_alive pid (core s) with
  | Some (false, _) => fst <$> task_exit_code pid (core s)
  | _ => None
  end.

(** Waiting for a task.  sys_wait returns at the first turn at which the
    task is no longer alive, at once for one that is dead or never was, with
    the status recorded for it then; it waits as long as the task lives, and
    it changes nothing itself. *)
Theorem wait_until_death pt fl s l pid :
  inv pt fl s → steady pt l →
  match sys_wait pid s l with
  | Done code s' l' => ∃ k, s' = after (take k l) s ∧ l' = drop k l ∧ task_alive pid (core s') = Some (false, core s') ∧
      task_exit_code pid (core s') = Some (code, core s') ∧
      ∀ j, (j < k)%nat → task_alive pid (core (after (take j l) s)) = Some (true, core (after (take j l) s))
  | Waiting => ∀ j, task_alive pid (core (after (take j l) s)) = Some (true, core (after (take j l) s))
  | Fault => False
  end.
Proof.
  intros Hi Hl. assert (∀ j, inv pt fl (after (take j l) s)) as Hin by (intros j; apply steady_after; [done|by apply Forall_take]).
  assert (∀ j, status_at pid (after (take j l) s) = None → task_alive pid (core (after (take j l) s)) = Some (true, core (after (take j l) s))) as Hlive.
  { intros j. unfold status_at. destruct (alive_total pt fl _ pid (Hin j)) as [[|] ->]; done. }
  pose proof (loop_polls (wait_pass pid) (status_at pid) s l) as Hp. change (sys_wait pid s l) with (loop (wait_pass pid) tt s l).
  lapply Hp; clear Hp.
  2: { intros j _. destruct (alive_total pt fl _ pid (Hin j)) as [b Hb]. unfold wait_pass, status_at, mbind, I_bind, core_op.
       rewrite Hb, set_core_id. destruct b; [done|]. unfold task_exit_code, get. cbn. by rewrite set_core_id. }
  destruct (loop _ tt s l) as [a s' l'| |]; [|intros Hp|done].
  - intros (k & Hk & -> & -> & Ha & Hno). exists k. unfold status_at in Ha.
    destruct (alive_total pt fl _ pid (Hin k)) as [[|] Hb]; rewrite Hb in Ha; [done|]. split_and!; [done|done|done| |by auto].
    unfold task_exit_code, get in *. cbn in Ha. by injection Ha as ->.
  - intros j. destruct (decide (j ≤ length l)%nat); [by auto|]. rewrite take_ge by lia. rewrite <- (firstn_all l). auto.
Qed.
End sleep.

(** ** Examples *)

Lemma idle_ticking n : ticking (replicate n SysDemo.idle).
Proof. apply Forall_replicate. split; [done|]. cbn. lia. Qed.

(** 12 ms are three ticks. *)
Lemma sleep_wakes_witness : ∃ s' l', sys_sleep 12 SysDemo.demo_sys (replicate 5 SysDemo.idle) = Done 0 s' l' ∧ length l' = 2%nat.
Proof.
  pose proof (sleep_wakes 12 SysDemo.demo_sys (replicate 5 SysDemo.idle) ltac:(lia) (idle_ticking 5)) as Hs.
  destruct (sys_sleep 12 SysDemo.demo_sys (replicate 5 SysDemo.idle)) as [a s' l'| |]; [|cbn in Hs; lia|destruct Hs].
  destruct Hs as (k & -> & _ & -> & Hge & Hlt). exists s', (drop k (replicate 5 SysDemo.idle)). split; [reflexivity|].
  rewrite length_drop, length_replicate. destruct k as [|[|[|[|k]]]]; [exfalso; cbn in Hge; lia..|lia|].
  specialize (Hlt 3%nat ltac:(lia)). exfalso. cbn in Hlt. lia.
Defined.

Lemma demo_no_task : fst <$> task_alive 5 (core SysDemo.demo_sys) = Some false.
Proof. vm_compute. reflexivity. Qed.

Lemma demo_no_status : fst <$> task_exit_code 5 (core SysDemo.demo_sys) = Some 0.
Proof. vm_compute. reflexivity. Qed.

(** Pid 5 does not exist. *)
Lemma wait_until_death_witness : ∃ s' l', sys_wait 5 SysDemo.demo_sys (replicate 3 SysDemo.idle) = Done 0 s' l'.
Proof.
  pose proof (wait_until_death SysDemo.demo_pt console_files SysDemo.demo_sys (replicate 3 SysDemo.idle) 5 SysDemo.demo_inv (SysDemo.steady_idle 3)) as Hw.
  pose proof demo_no_task as Ha. pose proof demo_no_status as Hc.
  destruct (sys_wait 5 SysDemo.demo_sys (replicate 3 SysDemo.idle)) as [a s' l'| |]; [| |destruct Hw].
  - destruct Hw as ([|k] & -> & -> & _ & Hx & Hlive).
    + change (after _ _) with SysDemo.demo_sys in Hx. rewrite Hx in Hc. injection Hc as ->. eexists _, _. reflexivity.
    + specialize (Hlive 0%nat ltac:(lia)). change (after _ _) with SysDemo.demo_sys in Hlive. rewrite Hlive in Ha. discriminate Ha.
  - specialize (Hw 0%nat). change (after _ _) with SysDemo.demo_sys in Hw. rewrite Hw in Ha. discriminate Ha.
Defined.
End SysSleep.
