(* ===== verification/Stdio.v ===== *)
(** * Formatted output of user programs (user/libc/stdio.c)

    One formatter over two kinds of sink.  Strings are arrays of bytes, and a
    read past the end of one, like an argument of the wrong kind, gives
    [None]; the system calls made are recorded in their order. *)

From S2P Require Import Prelude.

Module Stdio.

(** ** Sinks *)

(** [pend] is the first [npend] bytes of the array of the same name. *)
Record sink := mk_sink { fd : Z; buf : Z; cap : Z; pend : list Z; total : Z }.

(** The memory of the program and the calls of write() so far, newest first. *)
Record world := mk_world { mem : Z → Z; calls : list (Z * list Z) }.

Definition store (a v : Z) (w : world) : world := mk_world (λ x, if decide (x = a) then v else mem w x) (calls w).
Definition write (fd : Z) (bytes : list Z) (w : world) : world := mk_world (mem w) ((fd, bytes) :: calls w).

Definition PEND : Z := 128.

Definition sink_flush (o : sink * world) : sink * world :=
  let '(o, w) := o in
  if negb (zlength (pend o) =? 0)
  then (mk_sink (fd o) (buf o) (cap o) [] (total o), write (fd o) (pend o) w)
  else (o, w).

Definition count (o : sink * world) : sink * world :=
  let '(o, w) := o in (mk_sink (fd o) (buf o) (cap o) (pend o) (u32 (total o + 1)), w).

Definition emit (o : sink * world) (c : Z) : sink * world :=
  count
    (if fd o.1 >=? 0 then
       let o1 := mk_sink (fd o.1) (buf o.1) (cap o.1) (pend o.1 ++ [c]) (total o.1) in
       if zlength (pend o1) =? PEND then sink_flush (o1, o.2) else (o1, o.2)
     else if u32 (total o.1 + 1) <? cap o.1 then (o.1, store (buf o.1 + total o.1) c o.2)
     else o).

(** [for (int i = 0; i < n; i++) emit(o, c);]. *)
Definition emit_n (n c : Z) (o : sink * world) : sink * world := foldl emit o (replicate (Z.to_nat n) c).

(** ** Conversions *)

Definition lower : list Z := [48; 49; 50; 51; 52; 53; 54; 55; 56; 57; 97; 98; 99; 100; 101; 102].
Definition upper : list Z := [48; 49; 50; 51; 52; 53; 54; 55; 56; 57; 65; 66; 67; 68; 69; 70].

(** The [do ... while (v)] loop: least significant digit first. *)
Fixpoint rev_digits (fuel : nat) (dig : list Z) (v base : Z) : list Z :=
  match fuel with
  | O => []
  | S n => bget dig (v mod base) :: (if v / base =? 0 then [] else rev_digits n dig (v / base) base)
  end.

(** The array [rev] has eleven places. *)
Definition fmt_num (v base : Z) (caps : bool) : list Z := rev (rev_digits 11 (if caps then upper else lower) v base).

(** Integers and pointers; strings as arrays; the null string. *)
Inductive arg := AInt (z : Z) | AStr (s : list Z) | ANull.

Definition va_int (ap : list arg) : option (Z * list arg) :=
  match ap with AInt z :: l => Some (s32 z, l) | _ => None end.

Fixpoint parse_flags (f : list Z) (left' zero : bool) : bool * bool * list Z :=
  match f with
  | c :: f' => if c =? 45 then parse_flags f' true zero else if c =? 48 then parse_flags f' left' true else (left', zero, f)
  | [] => (left', zero, f)
  end.

(** [while (f[0] >= '0' && f[0] <= '9') n = n * 10 + (f++[0] - '0');]. *)
Fixpoint parse_number (f : list Z) (n : Z) : Z * list Z :=
  match f with
  | c :: f' => if (c >=? 48) && (c <=? 57) then parse_number f' (s32 (n * 10 + (c - 48))) else (n, f)
  | [] => (n, f)
  end.

Definition head_is (c : Z) (f : list Z) : bool := match f with d :: _ => d =? c | [] => false end.

Definition parse_width (f : list Z) (left' : bool) (ap : list arg) : option (Z * bool * list Z * list arg) :=
  if head_is 42 f then
    '(width, ap) ← va_int ap;
    Some (if width <? 0 then (s32 (- width), true, tail f, ap) else (width, left', tail f, ap))
  else let '(width, f) := parse_number f 0 in Some (width, left', f, ap).

Definition parse_prec (f : list Z) (ap : list arg) : option (Z * list Z * list arg) :=
  if head_is 46 f then
    let f := tail f in
    if head_is 42 f then '(prec, ap) ← va_int ap; Some (prec, tail f, ap)
    else let '(prec, f) := parse_number f 0 in Some (prec, f, ap)
  else Some (-1, f, ap).

Fixpoint skip_lh (f : list Z) : list Z :=
  match f with c :: f' => if (c =? 108) || (c =? 104) then skip_lh f' else f | [] => [] end.

Definition null_text : list Z := [40; 110; 117; 108; 108; 41; 0].

(** [while (s[len] && (prec < 0 || len < prec)) len++;]: the characters. *)
Fixpoint scan (s : list Z) (len prec : Z) : option (list Z) :=
  match s with
  | [] => None
  | c :: s' => if negb (c =? 0) && ((prec <? 0) || (len <? prec)) then cons c <$> scan s' (len + 1) prec else Some []
  end.

(** What the switch sets up: the characters of the body, whether a sign goes
    before them, whether they are a number. *)
Record body := mk_body { text : list Z; sign : bool; numeric : bool }.

Inductive converted := Unknown | Converted (b : body) (ap : list arg).

Definition hex_or_dec (base : Z) (caps : bool) (ap : list arg) : option converted :=
  '(v, ap) ← va_int ap; Some (Converted (mk_body (fmt_num (u32 v) base caps) false true) ap).

Definition conversion (c prec : Z) (ap : list arg) : option converted :=
  if (c =? 100) || (c =? 105) then
    '(v, ap) ← va_int ap;
    Some (Converted (mk_body (fmt_num (if v <? 0 then u32 (- v) else v) 10 false) (v <? 0) true) ap)
  else if c =? 117 then hex_or_dec 10 false ap
  else if c =? 120 then hex_or_dec 16 false ap
  else if c =? 88 then hex_or_dec 16 true ap
  else if c =? 112 then
    '(v, ap) ← va_int ap; Some (Converted (mk_body (48 :: 120 :: fmt_num (u32 v) 16 false) false true) ap)
  else if c =? 99 then '(v, ap) ← va_int ap; Some (Converted (mk_body [u8 v] false false) ap)
  else if c =? 115 then
    match ap with
    | AStr s :: ap => s ← scan s 0 prec; Some (Converted (mk_body s false false) ap)
    | ANull :: ap => s ← scan null_text 0 prec; Some (Converted (mk_body s false false) ap)
    | _ => None
    end
  else Some Unknown.

Definition field (left' zero : bool) (width prec : Z) (b : body) (o : sink * world) : sink * world :=
  let len := zlength (text b) in
  let sgn := if sign b then 1 else 0 in
  let zeros := if numeric b && (prec >? len) then prec - len
               else if numeric b && zero && negb left' && (prec <? 0) && (width >? len + sgn) then width - len - sgn
               else 0 in
  let body := s32 (sgn + zeros + len) in
  let o := if negb left' then emit_n (width - body) 32 o else o in
  let o := if sign b then emit o 45 else o in
  let o := emit_n zeros 48 o in
  let o := foldl emit o (text b) in
  if left' then emit_n (width - body) 32 o else o.

(** The loop over the format, with fuel for its characters. *)
Fixpoint format_loop (fuel : nat) (f : list Z) (ap : list arg) (o : sink * world) : option (sink * world) :=
  match fuel with
  | O => None
  | S n =>
      match f with
      | [] => Some o
      | c :: f =>
          if negb (c =? 37) then format_loop n f ap (emit o c) else
          let '(left', zero, f) := parse_flags f false false in
          '(width, left', f, ap) ← parse_width f left' ap;
          '(prec, f, ap) ← parse_prec f ap;
          match skip_lh f with
          | [] => Some (emit o 37)
          | c :: f =>
              if c =? 37 then format_loop n f ap (emit o 37) else
              r ← conversion c prec ap;
              match r with
              | Unknown => format_loop n f ap (emit (emit o 37) c)
              | Converted b ap => format_loop n f ap (field left' zero width prec b o)
              end
          end
      end
  end.

Definition format (o : sink * world) (f : list Z) (ap : list arg) : option (sink * world) :=
  format_loop (S (length f)) f ap o.

Definition vsnprintf (buf cap : Z) (fmt : list Z) (ap : list arg) (w : world) : option (Z * world) :=
  '(o, w) ← format (mk_sink (-1) buf cap [] 0, w) fmt ap;
  let w := if negb (cap =? 0) then store (buf + (if total o <? cap then total o else cap - 1)) 0 w else w in
  Some (s32 (total o), w).

Definition snprintf := vsnprintf.

Definition vdprintf (fd : Z) (fmt : list Z) (ap : list arg) (w : world) : option (Z * world) :=
  '(o, w) ← format (mk_sink fd 0 0 [] 0, w) fmt ap;
  let '(o, w) := sink_flush (o, w) in
  Some (s32 (total o), w).

Definition vprintf (fmt : list Z) (ap : list arg) (w : world) : option (Z * world) := vdprintf 1 fmt ap w.
Definition dprintf := vdprintf.
Definition printf (fmt : list Z) (ap : list arg) (w : world) : option (Z * world) := vdprintf 1 fmt ap w.

Definition putchar (c : Z) (w : world) : Z * world := (u8 c, write 1 [u8 c] w).

(** [s] without its NUL. *)
Definition puts (s : list Z) (w : world) : Z * world := (0, write 1 [10] (write 1 s w)).
End Stdio.

(** * What formatted output of user programs does

    What a format stands for, and what each kind of sink makes of it. *)

Module StdioSpec.
Import Stdio.

(** ** Output does not depend on the sink *)

(** [f] with the arguments [ap] puts out the characters [out]. *)
Definition formats (f : list Z) (ap : list arg) (out : list Z) : Prop :=
  ∀ o, format o f ap = Some (foldl emit o out).

(** The characters of a field. *)
Definition field_chars (lj zero : bool) (width prec : Z) (b : body) : list Z :=
  let len := zlength (text b) in
  let sgn := if sign b then 1 else 0 in
  let zeros := if numeric b && (prec >? len) then prec - len
               else if numeric b && zero && negb lj && (prec <? 0) && (width >? len + sgn) then width - len - sgn
               else 0 in
  let pad := replicate (Z.to_nat (width - s32 (sgn + zeros + len))) 32 in
  (if lj then [] else pad) ++ (if sign b then [45] else []) ++ replicate (Z.to_nat zeros) 48 ++ text b ++ (if lj then pad else []).

Lemma field_emits lj zero width prec b o : field lj zero width prec b o = foldl emit o (field_chars lj zero width prec b).
Proof. unfold field, field_chars, emit_n. rewrite !foldl_app. by destruct lj, (sign b). Qed.

Lemma parse_flags_length f lj zero : (length (parse_flags f lj zero).2 ≤ length f)%nat.
Proof. revert lj zero. induction f as [|c f IH]; intros lj zero; cbn; [done|]. repeat case_if; cbn; [etrans; [apply IH|lia]|etrans; [apply IH|lia]|lia]. Qed.

Lemma parse_number_length f n : (length (parse_number f n).2 ≤ length f)%nat.
Proof. revert n. induction f as [|c f IH]; intros n; cbn; [done|]. case_if; cbn; [etrans; [apply IH|lia]|lia]. Qed.

Lemma tail_length {A} (l : list A) : (length (tail l) ≤ length l)%nat.
Proof. destruct l; cbn; lia. Qed.

Lemma parse_width_length f lj ap w lj' f' ap' : parse_width f lj ap = Some (w, lj', f', ap') → (length f' ≤ length f)%nat.
Proof.
  unfold parse_width. destruct (head_is 42 f).
  - destruct (va_int ap) as [[z l]|]; cbn; [|done]. pose proof (tail_length f). case_if; intros [= <- <- <- <-]; done.
  - pose proof (parse_number_length f 0). destruct (parse_number f 0) as [n k]. by intros [= <- <- <- <-].
Qed.

Lemma parse_prec_length f ap p f' ap' : parse_prec f ap = Some (p, f', ap') → (length f' ≤ length f)%nat.
Proof.
  unfold parse_prec. pose proof (tail_length f). pose proof (tail_length (tail f)). destruct (head_is 46 f); [|by intros [= <- <- <-]].
  destruct (head_is 42 (tail f)).
  - destruct (va_int ap) as [[z l]|]; cbn; [|done]. intros [= <- <- <-]. lia.
  - pose proof (parse_number_length (tail f) 0). destruct (parse_number (tail f) 0) as [n k]. cbn in *. intros [= <- <- <-]. lia.
Qed.

Lemma skip_lh_length f : (length (skip_lh f) ≤ length f)%nat.
Proof. induction f as [|c f IH]; cbn; [done|]. case_if; cbn; lia. Qed.

(** The rest of a directive: what is put out before it, the format and the
    arguments left; [None] at the end of the output. *)
Definition directive (f : list Z) (ap : list arg) : option (list Z * option (list Z * list arg)) :=
  let '(lj, zero, f) := parse_flags f false false in
  '(width, lj, f, ap) ← parse_width f lj ap;
  '(prec, f, ap) ← parse_prec f ap;
  match skip_lh f with
  | [] => Some ([37], None)
  | c :: f =>
      if c =? 37 then Some ([37], Some (f, ap)) else
      r ← conversion c prec ap;
      match r with
      | Unknown => Some ([37; c], Some (f, ap))
      | Converted b ap => Some (field_chars lj zero width prec b, Some (f, ap))
      end
  end.

Lemma format_loop_step n c f ap o :
  format_loop (S n) (c :: f) ap o =
  if negb (c =? 37) then format_loop n f ap (emit o c) else
  '(out, k) ← directive f ap;
  match k with None => Some (foldl emit o out) | Some (f, ap) => format_loop n f ap (foldl emit o out) end.
Proof.
  cbn [format_loop]. destruct (negb (c =? 37)); [done|]. unfold directive. destruct (parse_flags f false false) as [[lj zero] f1].
  destruct (parse_width f1 lj ap) as [[[[w lj2] f2] ap2]|]; cbn; [|done]. destruct (parse_prec f2 ap2) as [[[p f3] ap3]|]; cbn; [|done].
  destruct (skip_lh f3) as [|d f4]; [done|]. destruct (d =? 37); [done|]. destruct (conversion d p ap3) as [[|b ap4]|]; cbn; [done| |done].
  by rewrite field_emits.
Qed.

Lemma directive_length f ap out f' ap' : directive f ap = Some (out, Some (f', ap')) → (length f' < length f)%nat.
Proof.
  unfold directive. pose proof (parse_flags_length f false false). destruct (parse_flags f false false) as [[lj zero] f1]. cbn in H.
  destruct (parse_width f1 lj ap) as [[[[w lj2] f2] ap2]|] eqn:E1; cbn; [|done]. apply parse_width_length in E1.
  destruct (parse_prec f2 ap2) as [[[p f3] ap3]|] eqn:E2; cbn; [|done]. apply parse_prec_length in E2. pose proof (skip_lh_length f3) as E3.
  destruct (skip_lh f3) as [|d f4]; [done|]. cbn in E3. destruct (d =? 37); [intros [= <- <- <-]; lia|].
  destruct (conversion d p ap3) as [[|b ap4]|]; cbn; [| |done]; intros [= <- <- <-]; lia.
Qed.

(** Fuel for the characters of the format is enough. *)
Lemma format_loop_fuel n m f ap o : (length f < n)%nat → (length f < m)%nat → format_loop n f ap o = format_loop m f ap o.
Proof.
  revert m f ap o. induction n as [|n IH]; intros m f ap o Hn Hm; [lia|]. destruct m as [|m]; [lia|]. destruct f as [|c f]; [done|].
  cbn [length] in *. rewrite !format_loop_step. case_if; [apply IH; lia|].
  destruct (directive f ap) as [[out [[f' ap']|]]|] eqn:Ed; cbn; [|done|done]. apply directive_length in Ed. apply IH; lia.
Qed.

Lemma formats_nil ap : formats [] ap [].
Proof. done. Qed.

Lemma formats_char c f ap out : c ≠ 37 → formats f ap out → formats (c :: f) ap (c :: out).
Proof.
  intros Hc Hf o. unfold format. rewrite format_loop_step. rewrite (proj2 (Z.eqb_neq c 37) Hc). cbn [negb foldl].
  rewrite (format_loop_fuel _ (S (length f))) by (cbn; lia). apply Hf.
Qed.

Lemma formats_directive f ap out f' ap' out' :
  directive f ap = Some (out, Some (f', ap')) → formats f' ap' out' → formats (37 :: f) ap (out ++ out').
Proof.
  intros Hd Hf o. unfold format. rewrite format_loop_step. cbn [Z.eqb negb Pos.eqb]. rewrite Hd. cbn [mbind option_bind length]. rewrite foldl_app.
  apply directive_length in Hd. rewrite (format_loop_fuel _ (S (length f'))) by (cbn; lia). apply Hf.
Qed.

(** Either the arguments do not fit the format, or the output is the same
    for every sink. *)
Lemma formats_or_not f ap : (∃ out, formats f ap out) ∨ ∀ o, format o f ap = None.
Proof.
  unfold formats, format. remember (S (length f)) as n eqn:Hn. assert (length f < n)%nat as Hf by lia. clear Hn. revert f ap Hf.
  induction n as [|n IH]; intros f ap Hf; [lia|]. destruct f as [|c f]; [left; by exists []|]. cbn [length] in Hf. destruct (decide (c = 37)) as [->|Hc].
  - destruct (directive f ap) as [[out [[f' ap']|]]|] eqn:Ed.
    + pose proof (directive_length _ _ _ _ _ Ed). destruct (IH f' ap' ltac:(lia)) as [[out' Ho]|Ho].
      * left. exists (out ++ out'). intros o. rewrite format_loop_step. cbn. rewrite Ed. cbn. by rewrite Ho, foldl_app.
      * right. intros o. rewrite format_loop_step. cbn. rewrite Ed. cbn. apply Ho.
    + left. exists out. intros o. rewrite format_loop_step. cbn. by rewrite Ed.
    + right. intros o. rewrite format_loop_step. cbn. by rewrite Ed.
  - destruct (IH f ap ltac:(lia)) as [[out Ho]|Ho].
    + left. exists (c :: out). intros o. rewrite format_loop_step. rewrite (proj2 (Z.eqb_neq c 37) Hc). cbn. apply Ho.
    + right. intros o. rewrite format_loop_step. rewrite (proj2 (Z.eqb_neq c 37) Hc). cbn. apply Ho.
Qed.

Lemma format_formats o f ap o' : format o f ap = Some o' → ∃ out, formats f ap out.
Proof. intros H. destruct (formats_or_not f ap) as [?|Hn]; [done|]. by rewrite Hn in H. Qed.

(** ** The bounded buffer *)

Definition filled (out : list Z) (a n : Z) (m m' : Z → Z) : Prop :=
  ∀ x, m' x = if (a <=? x) && (x <? a + n) then bget out (x - a) else m x.

Lemma buffer_sink b cp out t w :
  0 ≤ t → t + zlength out < 4294967296 →
  ∃ w', foldl emit (mk_sink (-1) b cp [] t, w) out = (mk_sink (-1) b cp [] (t + zlength out), w') ∧
    calls w' = calls w ∧ filled out (b + t) (Z.min (zlength out) (cp - 1 - t)) (mem w) (mem w').
Proof.
  revert t w. induction out as [|c out IH]; intros t w Ht Hl.
  - exists w. cbn. rewrite Z.add_0_r. split_and!; [done|done|]. intros x. destruct (_ && _) eqn:E; boolp; [|done]. unfold zlength in *; cbn in *; lia.
  - rewrite zlength_cons in *. pose proof (zlength_nonneg out). cbn [foldl]. unfold emit at 2. cbn [fst snd fd pend cap total buf count Z.geb Z.compare].
    rewrite (u32_small (t + 1)) by lia.
    assert (∀ w1, count (mk_sink (-1) b cp [] t, w1) = (mk_sink (-1) b cp [] (t + 1), w1)) as Hc.
    { intros w1. unfold count. cbn [fd buf cap pend total]. rewrite u32_small by lia. done. }
    destruct (Z.ltb_spec (t + 1) cp) as [Hcp|Hcp].
    + rewrite Hc. destruct (IH (t + 1) (store (b + t) c w) ltac:(lia) ltac:(lia)) as (w' & -> & Hcalls & Hm). exists w'. rewrite Z.add_assoc.
      split_and!; [done|done|]. intros x. rewrite (Hm x). cbn [store mem]. unfold bget. destruct (decide (x = b + t)) as [->|Hx].
      * rewrite (proj2 (Z.leb_gt (b + (t + 1)) (b + t))) by lia. cbn [andb]. rewrite (proj2 (Z.leb_le (b + t) (b + t))) by lia.
        rewrite (proj2 (Z.ltb_lt (b + t) _)) by lia. by replace (b + t - (b + t)) with 0 by lia.
      * destruct (_ && (x <? b + (t + 1) + _)) eqn:E1; boolp.
        -- rewrite (proj2 (Z.leb_le (b + t) x)), (proj2 (Z.ltb_lt x _)) by lia. cbn [andb]. replace (Z.to_nat (x - (b + t))) with (S (Z.to_nat (x - (b + (t + 1))))) by lia. done.
        -- destruct (_ && (x <? b + t + _)) eqn:E2; boolp; [|done]. apply andb_false_iff in E1 as [E1|E1]; boolp; lia.
    + rewrite Hc. destruct (IH (t + 1) w ltac:(lia) ltac:(lia)) as (w' & -> & Hcalls & Hm). exists w'. rewrite Z.add_assoc.
      split_and!; [done|done|]. intros x. rewrite (Hm x). destruct (_ && (x <? b + (t + 1) + _)) eqn:E1; boolp; [lia|].
      destruct (_ && (x <? b + t + _)) eqn:E2; boolp; [lia|done].
Qed.

(** C18: vsnprintf never writes outside the [cap] bytes it is given, whatever
    the format and the arguments put out (short of 4 GiB): the buffer gets
    the output cut to [cap - 1] characters with a NUL behind it, the bytes
    after that and all other memory keep their values, no system call is made
    and the return value is the length of the whole output. *)
Theorem vsnprintf_bounded b cp f ap out w :
  formats f ap out → 0 ≤ cp → zlength out < 4294967296 →
  ∃ w', vsnprintf b cp f ap w = Some (s32 (zlength out), w') ∧ calls w' = calls w ∧
    (∀ x, ¬ (b ≤ x < b + cp) → mem w' x = mem w x) ∧
    (0 < cp → let n := Z.min (zlength out) (cp - 1) in
       (∀ i, 0 ≤ i < n → mem w' (b + i) = bget out i) ∧ mem w' (b + n) = 0 ∧ (∀ i, n < i < cp → mem w' (b + i) = mem w (b + i))).
Proof.
  intros Hf Hcp Hl. unfold vsnprintf. rewrite Hf. destruct (buffer_sink b cp out 0 w ltac:(lia) ltac:(lia)) as (w1 & -> & Hc & Hm).
  cbn [mbind option_bind total]. rewrite Z.add_0_l. pose proof (zlength_nonneg out). eexists. split; [done|].
  assert (∀ x, mem w1 x = if (b <=? x) && (x <? b + Z.min (zlength out) (cp - 1)) then bget out (x - b) else mem w x) as Hm'.
  { intros x. rewrite (Hm x). by rewrite Z.add_0_r, Z.sub_0_r. } clear Hm.
  destruct (Z.eqb_spec cp 0) as [->|Hz]; cbn [negb].
  - split_and!; [done| |lia]. intros x Hx. rewrite Hm'. destruct (_ && _) eqn:E; boolp; [lia|done].
  - replace (if zlength out <? cp then zlength out else cp - 1) with (Z.min (zlength out) (cp - 1)) by (case_if; lia).
    cbn [store mem calls]. split_and!; [done| |].
    + intros x Hx. rewrite decide_False by lia. rewrite Hm'. destruct (_ && _) eqn:E; boolp; [lia|done].
    + intros _. split_and!; [|by rewrite decide_True by lia|].
      * intros i Hi. rewrite decide_False by lia. rewrite Hm', (proj2 (Z.leb_le b _)), (proj2 (Z.ltb_lt (b + i) _)) by lia. cbn [andb]. f_equal. lia.
      * intros i Hi. rewrite decide_False by lia. rewrite Hm'. destruct (_ && _) eqn:E; boolp; [lia|done].
Qed.

(** ** Descriptors *)

Definition sent (fd : Z) (chunks : list (list Z)) : list (Z * list Z) := reverse (pair fd <$> chunks).

Lemma fd_sink d b cp out p t w :
  0 ≤ d → zlength p < PEND → 0 ≤ t → t + zlength out < 4294967296 →
  ∃ p' chunks, foldl emit (mk_sink d b cp p t, w) out = (mk_sink d b cp p' (t + zlength out), mk_world (mem w) (sent d chunks ++ calls w)) ∧
    concat chunks ++ p' = p ++ out ∧ zlength p' < PEND ∧ Forall (λ c, zlength c = PEND) chunks.
Proof.
  intros Hd. revert p t w. induction out as [|c out IH]; intros p t w Hp Ht Hl.
  - exists p, []. cbn. rewrite Z.add_0_r, app_nil_r. by destruct w.
  - rewrite zlength_cons in *. pose proof (zlength_nonneg out). cbn [foldl]. unfold emit at 2. cbn [fst snd fd pend buf cap total].
    rewrite (proj2 (Z.geb_le d 0)) by lia. rewrite zlength_app. change (zlength [c]) with 1.
    destruct (Z.eqb_spec (zlength p + 1) PEND) as [He|He].
    + unfold sink_flush. cbn [pend fd buf cap total]. rewrite zlength_app. change (zlength [c]) with 1. rewrite He. cbn [PEND Z.eqb Pos.eqb negb count fd buf cap pend total].
      rewrite u32_small by lia. destruct (IH [] (t + 1) (write d (p ++ [c]) w)) as (p' & ch & -> & Hcat & Hp' & Hch); [done|lia|lia|].
      exists p', ((p ++ [c]) :: ch). rewrite Z.add_assoc. split_and!; [|cbn; rewrite <- app_assoc, Hcat; by rewrite <- app_assoc|done|].
      * unfold sent, write. cbn [fmap list_fmap mem calls]. rewrite reverse_cons, <- app_assoc. done.
      * constructor; [|done]. rewrite zlength_app. apply He.
    + cbn [count fd buf cap pend total]. rewrite u32_small by lia. destruct (IH (p ++ [c]) (t + 1) w) as (p' & ch & -> & Hcat & Hp' & Hch); [|lia|lia|].
      { rewrite zlength_app. change (zlength [c]) with 1. pose proof (zlength_nonneg p). lia. }
      exists p', ch. rewrite Z.add_assoc. split_and!; [done| |done|done]. by rewrite Hcat, <- app_assoc.
Qed.

(** On a descriptor the output goes out in full and in order, in chunks of
    one to 128 bytes, none of it left behind; no memory changes and the
    return value is the same length. *)
Theorem vdprintf_writes d f ap out w :
  formats f ap out → 0 ≤ d → zlength out < 4294967296 →
  ∃ chunks, vdprintf d f ap w = Some (s32 (zlength out), mk_world (mem w) (sent d chunks ++ calls w)) ∧
    concat chunks = out ∧ Forall (λ c, 0 < zlength c ≤ PEND) chunks.
Proof.
  intros Hf Hd Hl. unfold vdprintf. rewrite Hf. destruct (fd_sink d 0 0 out [] 0 w Hd) as (p & ch & -> & Hcat & Hp & Hch); [done|lia|lia|].
  cbn [mbind option_bind sink_flush pend fd buf cap total]. rewrite app_nil_l in Hcat. rewrite Z.add_0_l.
  assert (Forall (λ c, 0 < zlength c ≤ PEND) ch) as Hch' by (eapply Forall_impl; [done|]; cbv beta; unfold PEND; lia).
  destruct (Z.eqb_spec (zlength p) 0) as [Hz|Hz]; cbn [negb].
  - exists ch. split_and!; [done| |done]. destruct p; [by rewrite app_nil_r in Hcat|]. rewrite zlength_cons in Hz. pose proof (zlength_nonneg p). lia.
  - exists (ch ++ [p]). pose proof (zlength_nonneg p). split_and!.
    + unfold sent, write. cbn [mem calls]. by rewrite fmap_app, reverse_app.
    + rewrite concat_app. cbn [concat]. by rewrite app_nil_r.
    + apply Forall_app. split; [done|]. apply Forall_singleton. lia.
Qed.

(** *** An example: [%4d!] *)

Definition sample : list Z := [37; 52; 100; 33].

Lemma sample_formats : formats sample [AInt (-42)] [32; 45; 52; 50; 33].
Proof. apply (formats_directive _ _ [32; 45; 52; 50] [33] [] [33]); [done|]. apply formats_char; [done|]. apply formats_nil. Qed.

(** Five characters into four bytes. *)
Lemma vsnprintf_bounded_witness :
  ∃ w', vsnprintf 100 4 sample [AInt (-42)] (mk_world (λ _, 7) []) = Some (s32 5, w') ∧ calls w' = [] ∧
    (∀ x, ¬ (100 ≤ x < 100 + 4) → mem w' x = 7) ∧
    (0 < 4 → let n := Z.min 5 (4 - 1) in
       (∀ i, 0 ≤ i < n → mem w' (100 + i) = bget [32; 45; 52; 50; 33] i) ∧ mem w' (100 + n) = 0 ∧ (∀ i, n < i < 4 → mem w' (100 + i) = 7)).
Proof. apply (vsnprintf_bounded 100 4 sample [AInt (-42)] [32; 45; 52; 50; 33] (mk_world (λ _, 7) []) sample_formats); [lia|reflexivity]. Defined.

Lemma vdprintf_writes_witness :
  ∃ chunks, vdprintf 1 sample [AInt (-42)] (mk_world (λ _, 7) []) = Some (s32 5, mk_world (λ _, 7) (sent 1 chunks ++ [])) ∧
    concat chunks = [32; 45; 52; 50; 33] ∧ Forall (λ c, 0 < zlength c ≤ PEND) chunks.
Proof. apply (vdprintf_writes 1 sample [AInt (-42)] [32; 45; 52; 50; 33] (mk_world (λ _, 7) []) sample_formats); [lia|reflexivity]. Defined.

(** *** Limits *)

(** The count of characters is a 32-bit number: at 4294967295 the test
    [total + 1 < cap] holds again and the character is stored far outside the
    buffer. *)
Theorem emit_wraps b cp c w :
  0 < cp → mem (emit (mk_sink (-1) b cp [] 4294967295, w) c).2 (b + 4294967295) = c.
Proof.
  intros Hcp. unfold emit. cbn [fst snd fd pend cap total buf Z.geb Z.compare]. change (u32 (4294967295 + 1)) with 0.
  rewrite (proj2 (Z.ltb_lt 0 cp) Hcp). cbn. by rewrite decide_True.
Qed.

(** A precision does not bound the reads of a string: with exactly as many
    characters as the precision asks for and no NUL, the byte behind the
    string is read. *)
Theorem scan_overreads s : Forall (λ c, c ≠ 0) s → scan s 0 (zlength s) = None.
Proof.
  intros Hs. enough (∀ len, scan s len (len + zlength s) = None) as H by apply (H 0). induction Hs as [|c s Hc _ IH]; intros len; cbn [scan]; [done|].
  rewrite (proj2 (Z.eqb_neq c 0) Hc), zlength_cons. pose proof (zlength_nonneg s). rewrite (proj2 (Z.ltb_lt len _)) by lia. rewrite orb_true_r. cbn [negb andb].
  specialize (IH (len + 1)). replace (len + (1 + zlength s)) with (len + 1 + zlength s) by lia. by rewrite IH.
Qed.
End StdioSpec.

(** * The language of formats

    Formats are written as lists of items; the formatter gives each item its
    text, in order. *)

Module StdioText.
Import Stdio StdioSpec.

(** A field width or precision: digits in the format, or an argument. *)
Inductive num := Digits (ds : list Z) | Star (z : Z).

(** A character; a percent sign; a conversion with its flags, width,
    precision, length modifiers and argument. *)
Inductive item :=
  | Lit (c : Z)
  | Percent
  | Conv (flags : list Z) (w : num) (p : option num) (mods : list Z) (c : Z) (a : arg).

Definition is_digit (c : Z) : bool := (48 <=? c) && (c <=? 57).

Definition show_num (n : num) : list Z := match n with Digits ds => ds | Star _ => [42] end.
Definition num_args (n : num) : list arg := match n with Digits _ => [] | Star z => [AInt z] end.
Definition decimal (n : Z) (ds : list Z) : Z := foldl (λ n c, n * 10 + (c - 48)) n ds.
Definition num_value (n : num) : Z := match n with Digits ds => decimal 0 ds | Star z => z end.

Definition show_prec (p : option num) : list Z := match p with None => [] | Some n => 46 :: show_num n end.
Definition prec_args (p : option num) : list arg := match p with None => [] | Some n => num_args n end.
Definition prec_value (p : option num) : Z := match p with None => -1 | Some n => num_value n end.

Definition show (it : item) : list Z :=
  match it with
  | Lit c => [c]
  | Percent => [37; 37]
  | Conv flags w p mods c _ => 37 :: flags ++ show_num w ++ show_prec p ++ mods ++ [c]
  end.

Definition args (it : item) : list arg :=
  match it with Conv _ w p _ _ a => num_args w ++ prec_args p ++ [a] | _ => [] end.

(** A negative width is a flag and a width. *)
Definition item_text (it : item) : list Z :=
  match it with
  | Lit c => [c]
  | Percent => [37]
  | Conv flags w p _ c a =>
      let width := num_value w in
      match conversion c (prec_value p) [a] with
      | Some (Converted b _) =>
          field_chars (bool_decide (45 ∈ flags) || (width <? 0)) (bool_decide (48 ∈ flags))
            (if width <? 0 then s32 (- width) else width) (prec_value p) b
      | _ => []
      end
  end.

Definition num_ok (n : num) : Prop :=
  match n with
  | Digits ds => Forall (λ c, is_digit c = true) ds ∧ decimal 0 ds < 2147483648
  | Star z => -2147483648 ≤ z < 2147483648
  end.

(** The first digit of a width is not a zero, which would be a flag. *)
Definition width_ok (n : num) : Prop :=
  num_ok n ∧ match n with Digits (c :: _) => c ≠ 48 | _ => True end.

Definition conversions : list Z := [100; 105; 117; 120; 88; 112; 99; 115].

Definition item_ok (it : item) : Prop :=
  match it with
  | Lit c => c ≠ 37
  | Percent => True
  | Conv flags w p mods c a =>
      Forall (λ c, c = 45 ∨ c = 48) flags ∧ width_ok w ∧ (match p with None => True | Some n => num_ok n end) ∧
      Forall (λ c, c = 108 ∨ c = 104) mods ∧ c ∈ conversions ∧ ∃ b, conversion c (prec_value p) [a] = Some (Converted b [])
  end.

(** ** Reading a directive *)

Lemma parse_flags_app flags f lj zero :
  Forall (λ c, c = 45 ∨ c = 48) flags → head_is 45 f = false → head_is 48 f = false →
  parse_flags (flags ++ f) lj zero = (bool_decide (45 ∈ flags) || lj, bool_decide (48 ∈ flags) || zero, f).
Proof.
  intros Hf H1 H2. revert lj zero. induction Hf as [|c flags Hc _ IH]; intros lj zero; cbn [app].
  - rewrite !bool_decide_false by set_solver. cbn [orb]. destruct f as [|c f]; [done|]. cbn in *. by rewrite H1, H2.
  - cbn [parse_flags]. destruct Hc as [->| ->]; cbn; rewrite IH; f_equal; [f_equal|f_equal].
    + rewrite (bool_decide_true (45 ∈ 45 :: flags)) by set_solver. by rewrite orb_true_r.
    + destruct (decide (48 ∈ flags)); [rewrite !bool_decide_true by set_solver|rewrite !bool_decide_false by set_solver]; done.
    + destruct (decide (45 ∈ flags)); [rewrite !bool_decide_true by set_solver|rewrite !bool_decide_false by set_solver]; done.
    + rewrite (bool_decide_true (48 ∈ 48 :: flags)) by set_solver. by rewrite orb_true_r.
Qed.

Definition starts_digit (f : list Z) : bool := match f with c :: _ => is_digit c | [] => false end.

Lemma decimal_ge ds n : Forall (λ c, is_digit c = true) ds → 0 ≤ n → n ≤ decimal n ds.
Proof.
  intros Hd. revert n. induction Hd as [|c ds Hc _ IH]; intros n Hn; cbn; [lia|]. unfold is_digit in Hc. boolp.
  etrans; [|apply IH; lia]. lia.
Qed.

Lemma parse_number_app ds f n :
  Forall (λ c, is_digit c = true) ds → starts_digit f = false → 0 ≤ n → decimal n ds < 2147483648 →
  parse_number (ds ++ f) n = (decimal n ds, f).
Proof.
  intros Hd Hf. revert n. induction Hd as [|c ds Hc Hd IH]; intros n Hn Hl; cbn [app].
  - destruct f as [|c f]; [done|]. cbn in *. unfold is_digit in Hf. rewrite Z.geb_leb. by rewrite Hf.
  - cbn [parse_number decimal foldl] in *. change (decimal (n * 10 + (c - 48)) ds < 2147483648) in Hl. unfold is_digit in Hc.
    rewrite Z.geb_leb, Hc. boolp. pose proof (decimal_ge ds (n * 10 + (c - 48)) Hd ltac:(lia)). rewrite s32_id by lia. apply IH; lia.
Qed.

(** A number, in a width or a precision. *)
Lemma num_parse {B} n f ap (k : Z → list Z → list arg → option B) :
  num_ok n → starts_digit f = false → head_is 42 f = false →
  (if head_is 42 (show_num n ++ f) then '(z, ap) ← va_int (num_args n ++ ap); k z (tail (show_num n ++ f)) ap
   else let '(z, f) := parse_number (show_num n ++ f) 0 in k z f (num_args n ++ ap)) = k (num_value n) f ap.
Proof.
  intros Hn Hd Hs. destruct n as [ds|z]; cbn in *.
  - destruct Hn as [Hn Hl]. assert (head_is 42 (ds ++ f) = false) as ->.
    { destruct Hn as [|c ds Hc _]; [done|]. cbn. unfold is_digit in Hc. boolp. apply Z.eqb_neq. lia. }
    by rewrite parse_number_app.
  - by rewrite s32_id.
Qed.

Lemma width_parse n f lj ap :
  num_ok n → starts_digit f = false → head_is 42 f = false →
  parse_width (show_num n ++ f) lj (num_args n ++ ap) =
  Some (if num_value n <? 0 then s32 (- num_value n) else num_value n, lj || (num_value n <? 0), f, ap).
Proof.
  intros Hn Hd Hs. unfold parse_width. destruct n as [ds|z]; cbn in *.
  - destruct Hn as [Hn Hl]. assert (head_is 42 (ds ++ f) = false) as ->.
    { destruct Hn as [|c ds Hc _]; [done|]. cbn. unfold is_digit in Hc. boolp. apply Z.eqb_neq. lia. }
    rewrite parse_number_app by done || lia. pose proof (decimal_ge ds 0 Hn ltac:(lia)). rewrite (proj2 (Z.ltb_ge _ _)) by lia. by rewrite orb_false_r.
  - rewrite s32_id by done. destruct (z <? 0); [by rewrite orb_true_r|by rewrite orb_false_r].
Qed.

Lemma prec_parse p f ap :
  (match p with None => True | Some n => num_ok n end) → starts_digit f = false → head_is 42 f = false → head_is 46 f = false →
  parse_prec (show_prec p ++ f) (prec_args p ++ ap) = Some (prec_value p, f, ap).
Proof.
  intros Hp Hd Hs Hf. unfold parse_prec. destruct p as [n|]; cbn [show_prec app prec_args prec_value].
  - cbn [head_is tail Z.eqb Pos.eqb]. by apply (num_parse n f ap (λ z f ap, Some (z, f, ap))).
  - by rewrite Hf.
Qed.

Lemma skip_lh_app mods f : Forall (λ c, c = 108 ∨ c = 104) mods → head_is 108 f = false → head_is 104 f = false → skip_lh (mods ++ f) = f.
Proof.
  intros Hm H1 H2. induction Hm as [|c mods Hc _ IH]; cbn [app].
  - destruct f as [|c f]; [done|]. cbn in *. by rewrite H1, H2.
  - cbn. by destruct Hc as [->| ->].
Qed.

(** The argument list is only looked at as far as the conversion takes it. *)
Lemma conversion_app c prec a b ap :
  conversion c prec [a] = Some (Converted b []) → conversion c prec (a :: ap) = Some (Converted b ap).
Proof.
  unfold conversion, hex_or_dec, va_int. repeat case_if; destruct a; cbn [mbind option_bind]; try done;
    ((intros [= <-]; done) || (destruct (scan _ _ _); cbn [mbind option_bind]; [intros [= <-]|]; done)).
Qed.

(** What follows the width: a precision, length modifiers or the conversion. *)
Definition inert (f : list Z) : Prop :=
  starts_digit f = false ∧ head_is 42 f = false ∧ head_is 45 f = false ∧ head_is 48 f = false.

Lemma tail_inert p mods c f : Forall (λ c, c = 108 ∨ c = 104) mods → c ∈ conversions → inert (show_prec p ++ mods ++ c :: f).
Proof.
  intros Hm Hc. unfold inert. destruct p as [n|]; [done|]. destruct Hm as [|d mods Hd _]; cbn.
  - unfold conversions in Hc. repeat (apply elem_of_cons in Hc as [->|Hc]; [done|]). by apply elem_of_nil in Hc.
  - by destruct Hd as [->| ->].
Qed.

Lemma mods_plain mods c f :
  Forall (λ c, c = 108 ∨ c = 104) mods → c ∈ conversions →
  head_is 46 (mods ++ c :: f) = false ∧ skip_lh (mods ++ c :: f) = c :: f ∧ c ≠ 37.
Proof.
  intros Hm Hc. assert (head_is 46 (c :: f) = false ∧ head_is 108 (c :: f) = false ∧ head_is 104 (c :: f) = false ∧ c ≠ 37) as (H1 & H2 & H3 & H4).
  { unfold conversions in Hc. repeat (apply elem_of_cons in Hc as [->|Hc]; [done|]). by apply elem_of_nil in Hc. }
  split_and!; [|by apply skip_lh_app|done]. destruct Hm as [|d mods Hd _]; [done|]. by destruct Hd as [->| ->].
Qed.

Lemma directive_item flags w p mods c a f ap :
  item_ok (Conv flags w p mods c a) →
  directive (flags ++ show_num w ++ show_prec p ++ mods ++ c :: f) (num_args w ++ prec_args p ++ a :: ap) =
  Some (item_text (Conv flags w p mods c a), Some (f, ap)).
Proof.
  intros (Hfl & [Hw Hw0] & Hp & Hm & Hc & b & Hb). unfold directive. pose proof (tail_inert p mods c f Hm Hc) as (T1 & T2 & T3 & T4).
  pose proof (tail_inert None mods c f Hm Hc) as (T5 & T6 & _ & _). destruct (mods_plain mods c f Hm Hc) as (T7 & T8 & T9).
  rewrite parse_flags_app; [|done| |].
  2-3: destruct w as [[|d ds]|z]; [done| |done]; destruct Hw as [Hw _]; apply Forall_cons in Hw as [Hd _]; cbn in *; unfold is_digit in Hd; boolp; apply Z.eqb_neq; lia.
  rewrite width_parse by done. cbn [mbind option_bind]. rewrite prec_parse by done. cbn [mbind option_bind]. rewrite T8, (proj2 (Z.eqb_neq c 37) T9).
  rewrite (conversion_app _ _ _ _ _ Hb). cbn [mbind option_bind item_text]. rewrite Hb. by rewrite !orb_false_r.
Qed.

(** What a format means.  A format written as a list of characters,
    percent signs and conversions, with any flags, width, precision and
    length modifiers the formatter knows, puts out the texts of its items in
    order, each conversion taking its width, its precision and its value from
    the arguments in that order. *)
Theorem format_language items :
  Forall item_ok items → formats (concat (show <$> items)) (concat (args <$> items)) (concat (item_text <$> items)).
Proof.
  induction 1 as [|it items Hit _ IH]; [apply formats_nil|]. cbn [fmap list_fmap concat]. destruct it as [c| |flags w p mods c a].
  - by apply formats_char.
  - by apply (formats_directive _ _ [37] (concat (show <$> items)) (concat (args <$> items))).
  - cbn [show args app]. rewrite <- !app_assoc. cbn [app]. eapply formats_directive; [|exact IH]. by apply directive_item.
Qed.

(** [x=%-6.3ld|%*s%%] *)
Definition sample_items : list item :=
  [Lit 120; Lit 61; Conv [45] (Digits [54]) (Some (Digits [51])) [108] 100 (AInt (-5)); Lit 124;
   Conv [] (Star 4) None [] 115 (AStr [111; 107; 0]); Percent].

Lemma format_language_witness :
  formats [120; 61; 37; 45; 54; 46; 51; 108; 100; 124; 37; 42; 115; 37; 37] [AInt (-5); AInt 4; AStr [111; 107; 0]]
          [120; 61; 45; 48; 48; 53; 32; 32; 124; 32; 32; 111; 107; 37].
Proof.
  apply (format_language sample_items). repeat apply Forall_cons_2; [done|done| |done| |done|constructor].
  - cbn. split_and!; try done; [by repeat constructor; left|by repeat constructor|by repeat constructor|by repeat constructor; left|set_solver|eauto].
  - cbn. split_and!; try done; try lia; [set_solver|eauto].
Defined.
End StdioText.
