(* ===== verification/UStrtol.v ===== *)
(** * Numbers from strings in user programs (user/libc/stdlib.c: strtol, atoi)

    Strings are lists of characters without the NUL; the position left
    behind in [*end] is the rest of the string. *)

From S2P Require Import Prelude Stdio.

Module UStrtol.

Definition LONG_MAX : Z := 2147483647.
Definition LONG_MIN : Z := -2147483648.

Definition digval (c : Z) : Z :=
  if (c >=? 48) && (c <=? 57) then c - 48
  else if (c >=? 97) && (c <=? 122) then c - 97 + 10
  else if (c >=? 65) && (c <=? 90) then c - 65 + 10
  else 99.

Definition is_space (c : Z) : bool := (c =? 32) || ((c >=? 9) && (c <=? 13)).

Fixpoint skip_space (p : list Z) : list Z :=
  match p with c :: p' => if is_space c then skip_space p' else p | [] => [] end.

(** The loop over the digits: [acc], [any], [over] and the rest. *)
Fixpoint accumulate (p : list Z) (base cut acc : Z) (any over : bool) : Z * bool * bool * list Z :=
  match p with
  | [] => (acc, any, over, p)
  | c :: p' =>
      if digval c <? base then
        let d := digval c in
        if acc >? u32 (cut - d) / u32 base then accumulate p' base cut acc true true
        else accumulate p' base cut (u32 (acc * u32 base + d)) true over
      else (acc, any, over, p)
  end.

Definition hex_prefix (p : list Z) : bool :=
  (bget p 0 =? 48) && ((bget p 1 =? 120) || (bget p 1 =? 88)) && (digval (bget p 2) <? 16).

Definition strtol (s : list Z) (base : Z) : Z * list Z :=
  let p := skip_space s in
  let '(neg, p) := if (bget p 0 =? 43) || (bget p 0 =? 45) then (bget p 0 =? 45, tail p) else (false, p) in
  let '(base, p) := if ((base =? 0) || (base =? 16)) && hex_prefix p then (16, drop 2 p)
                    else if base =? 0 then (if bget p 0 =? 48 then 8 else 10, p) else (base, p) in
  let cut := if neg then LONG_MAX + 1 else LONG_MAX in
  let '(acc, any, over, p) := accumulate p base cut 0 false false in
  (if over : bool then if neg then LONG_MIN else LONG_MAX
   else if neg then if acc >? LONG_MAX then LONG_MIN else - acc else acc,
   if any : bool then p else s).

Definition atoi (s : list Z) : Z := (strtol s 10).1.

(** ** The value *)

Section digits.
Context (base : Z) (Hbase : 2 ≤ base ≤ 36).

Definition value (acc : Z) (ds : list Z) : Z := foldl (λ a c, a * base + digval c) acc ds.

Lemma digval_range c : 0 ≤ digval c ≤ 99.
Proof. unfold digval. repeat case_if; lia. Qed.

Lemma value_mono ds acc : 0 ≤ acc → acc ≤ value acc ds.
Proof.
  revert acc. induction ds as [|c ds IH]; intros acc Ha; cbn; [lia|]. pose proof (digval_range c). etrans; [|apply IH]; nia.
Qed.

Definition ends (rest : list Z) : Prop := match rest with c :: _ => base ≤ digval c | [] => True end.

Lemma accumulate_sticky ds rest cut acc any over' :
  Forall (λ c, digval c < base) ds → ends rest → over' = true →
  ∃ acc' any', accumulate (ds ++ rest) base cut acc any over' = (acc', any', true, rest) ∧ (any = true → any' = true).
Proof.
  intros Hd He ->. revert acc any. induction Hd as [|c ds Hc _ IH]; intros acc any; cbn [app accumulate].
  - exists acc, any. destruct rest as [|c rest]; [done|]. cbn in *. by rewrite (proj2 (Z.ltb_ge _ _)).
  - rewrite (proj2 (Z.ltb_lt _ _) Hc).
    assert (∀ a, ∃ acc' any', accumulate (ds ++ rest) base cut a true true = (acc', any', true, rest) ∧ (any = true → any' = true)) as Hg.
    { intros a. destruct (IH a true) as (acc' & any' & -> & H). exists acc', any'. auto. }
    case_if; apply Hg.
Qed.

(** The value when it is at most [cut], and the overflow otherwise. *)
Lemma accumulate_value ds rest cut acc any :
  Forall (λ c, digval c < base) ds → ends rest → 0 ≤ acc ≤ cut → 100 ≤ cut ≤ 2147483648 →
  ∃ acc', accumulate (ds ++ rest) base cut acc any false =
            (acc', any || negb (bool_decide (ds = [])), bool_decide (cut < value acc ds), rest) ∧ (value acc ds ≤ cut → acc' = value acc ds).
Proof.
  intros Hd He Hacc Hcut. revert acc any Hacc. induction Hd as [|c ds Hc Hd IH]; intros acc any Hacc; cbn [app accumulate].
  - exists acc. cbn [value foldl]. rewrite (bool_decide_false (cut < acc)) by lia. rewrite (bool_decide_true ([] = [])), orb_false_r by done. split; [|done].
    destruct rest as [|c rest]; [done|]. cbn in *. by rewrite (proj2 (Z.ltb_ge _ _)).
  - rewrite (proj2 (Z.ltb_lt _ _) Hc). pose proof (digval_range c) as Hr. rewrite (bool_decide_false (c :: ds = [])) by done. rewrite orb_true_r.
    rewrite (u32_small (cut - digval c)), (u32_small base) by lia. cbn [value foldl]. fold (value (acc * base + digval c) ds).
    assert (0 ≤ acc * base + digval c) as H0 by nia. pose proof (value_mono ds (acc * base + digval c) H0) as Hv.
    destruct (acc >? (cut - digval c) / base) eqn:E; boolp.
    + assert (cut < acc * base + digval c) as Hover.
      { assert ((cut - digval c) / base + 1 ≤ acc) by lia. pose proof (Z.mul_succ_div_gt (cut - digval c) base ltac:(lia)). nia. }
      destruct (accumulate_sticky ds rest cut acc true true Hd He eq_refl) as (acc' & any' & -> & Ha). rewrite (Ha eq_refl).
      rewrite bool_decide_true by lia. exists acc'. split; [done|lia].
    + assert (acc * base + digval c ≤ cut) as Hle.
      { pose proof (Z.mul_div_le (cut - digval c) base ltac:(lia)). nia. }
      rewrite u32_small by lia. destruct (IH (acc * base + digval c) true ltac:(lia)) as (acc' & -> & Ha). exists acc'. done.
Qed.
End digits.

Lemma skip_space_app ws p : Forall (λ c, is_space c = true) ws → (match p with c :: _ => is_space c = false | [] => True end) → skip_space (ws ++ p) = p.
Proof.
  intros Hw Hp. induction Hw as [|c ws Hc _ IH]; cbn [app skip_space]; [|by rewrite Hc].
  destruct p as [|c p]; [done|]. cbn. by rewrite Hp.
Qed.

(** The base that a prefix of the digits selects. *)
Definition selects (base base' : Z) (pre digits : list Z) : Prop :=
  base' = 16 ∧ (base = 0 ∨ base = 16) ∧ (pre = [48; 120] ∨ pre = [48; 88]) ∧ digval (bget digits 0) < 16 ∨
  pre = [] ∧ ((base = 0 ∨ base = 16) → hex_prefix digits = false) ∧
    (base = 0 ∧ base' = (if bget digits 0 =? 48 then 8 else 10) ∨ base' = base ∧ base ≠ 0).

(** The limits of a long. *)
Definition clamp (v : Z) : Z := Z.max LONG_MIN (Z.min LONG_MAX v).

Lemma digit_first ds rest base c : Forall (λ c, digval c < base) (c :: ds) → base ≤ 36 → is_space c = false ∧ c ≠ 43 ∧ c ≠ 45 ∧ bget (c :: ds ++ rest) 0 = c.
Proof.
  intros Hd Hb. apply Forall_cons in Hd as [Hc _]. unfold digval in Hc. unfold is_space.
  split_and!; [|intros ->; cbn in Hc; lia|intros ->; cbn in Hc; lia|done].
  destruct ((c =? 32) || ((c >=? 9) && (c <=? 13))) eqn:E; [|done]. exfalso. apply orb_prop in E as [E|E]; boolp.
  - subst c. cbn in Hc. lia.
  - assert (c = 9 ∨ c = 10 ∨ c = 11 ∨ c = 12 ∨ c = 13) as [->|[->|[->|[->| ->]]]] by lia; cbn in Hc; lia.
Qed.

(** strtol reads the number that C's grammar finds: blanks, a sign, the
    prefix of a hexadecimal number where the base allows it, and the longest
    run of digits of the base.  The result is the number, or the limit of a
    long on its side of zero when it does not fit, and the end position is
    the first character behind the digits. *)
Theorem strtol_clamps ws sgn pre ds rest base base' :
  Forall (λ c, is_space c = true) ws → sgn = [] ∨ sgn = [43] ∨ sgn = [45] → selects base base' pre (ds ++ rest) →
  2 ≤ base' ≤ 36 → ds ≠ [] → Forall (λ c, digval c < base') ds → ends base' rest →
  strtol (ws ++ sgn ++ pre ++ ds ++ rest) base = (clamp (if bool_decide (sgn = [45]) then - value base' 0 ds else value base' 0 ds), rest).
Proof.
  intros Hws Hsgn Hsel Hb Hds Hd He. set (p := pre ++ ds ++ rest). destruct ds as [|c ds]; [done|].
  destruct (digit_first ds rest base' c Hd ltac:(lia)) as (C1 & C2 & C3 & C4).
  assert (is_space (bget p 0) = false ∧ bget p 0 ≠ 43 ∧ bget p 0 ≠ 45 ∧ ∃ x q, p = x :: q) as (P1 & P2 & P3 & x & q & Hp).
  { subst p. destruct Hsel as [(_ & _ & [->| ->] & _)|(-> & _)]; [split_and!; try done; eauto..|]. cbn [app]. rewrite C4. split_and!; try done. eauto. }
  assert (strtol (ws ++ sgn ++ p) base =
    let neg := bool_decide (sgn = [45]) in
    let '(base, p) := if ((base =? 0) || (base =? 16)) && hex_prefix p then (16, drop 2 p)
                      else if base =? 0 then (if bget p 0 =? 48 then 8 else 10, p) else (base, p) in
    let cut := if neg then LONG_MAX + 1 else LONG_MAX in
    let '(acc, any, over, p) := accumulate p base cut 0 false false in
    (if over : bool then if neg then LONG_MIN else LONG_MAX
     else if neg then if acc >? LONG_MAX then LONG_MIN else - acc else acc,
     if any : bool then p else ws ++ sgn ++ x :: q)) as ->.
  { unfold strtol. rewrite skip_space_app; [|done|rewrite Hp in *; by destruct Hsgn as [->|[->| ->]]].
    destruct Hsgn as [->|[->| ->]]; cbn [app].
    - rewrite (proj2 (Z.eqb_neq _ _) P2), (proj2 (Z.eqb_neq _ _) P3). cbn [orb]. by rewrite Hp.
    - cbn [bget lookup list_lookup Z.to_nat default Z.eqb Pos.eqb orb tail]. by rewrite Hp.
    - cbn [bget lookup list_lookup Z.to_nat default Z.eqb Pos.eqb orb tail]. by rewrite Hp. }
  cbv zeta.
  assert ((if ((base =? 0) || (base =? 16)) && hex_prefix p then (16, drop 2 p)
           else if base =? 0 then (if bget p 0 =? 48 then 8 else 10, p) else (base, p)) = (base', (c :: ds) ++ rest)) as ->.
  { subst p. destruct Hsel as [(-> & Hb0 & Hpre & Hdig)|(-> & Hnp & Hsel)].
    - assert (((base =? 0) || (base =? 16)) = true) as -> by (apply orb_true_iff; rewrite !Z.eqb_eq; lia).
      assert (hex_prefix (pre ++ (c :: ds) ++ rest) = true) as ->.
      { unfold hex_prefix. apply Z.ltb_lt in Hdig. by destruct Hpre as [->| ->]. }
      by destruct Hpre as [->| ->].
    - cbn [app] in *. assert (((base =? 0) || (base =? 16)) && hex_prefix (c :: ds ++ rest) = false) as ->.
      { destruct ((base =? 0) || (base =? 16)) eqn:E; [|done]. rewrite Hnp; [done|]. apply orb_true_iff in E. rewrite !Z.eqb_eq in E. done. }
      destruct Hsel as [[-> ->]|[-> Hz]]; [done|]. by rewrite (proj2 (Z.eqb_neq base 0) Hz). }
  set (neg := bool_decide (sgn = [45])). set (cut := if neg then LONG_MAX + 1 else LONG_MAX).
  assert (100 ≤ cut ≤ 2147483648) as Hcut by (unfold cut, LONG_MAX; destruct neg; lia).
  destruct (accumulate_value base' Hb (c :: ds) rest cut 0 false Hd He ltac:(lia) Hcut) as (acc & -> & Hacc).
  rewrite (bool_decide_false (c :: ds = [])) by done. cbn [orb negb]. f_equal.
  pose proof (value_mono base' Hb (c :: ds) 0 ltac:(lia)). set (v := value base' 0 (c :: ds)) in *. unfold clamp, cut, LONG_MAX, LONG_MIN in *.
  destruct neg; case_bool_decide.
  - lia.
  - rewrite Hacc by lia. case_if; lia.
  - lia.
  - rewrite Hacc by lia. lia.
Qed.

(** ** Printing and reading back *)

Lemma lower_digval d base : 0 ≤ d < base → base ≤ 16 → digval (bget Stdio.lower d) = d.
Proof.
  intros Hd Hb. assert (d ∈ seqZ 0 16) as Hin by (apply elem_of_seqZ; lia). revert Hin. clear.
  cbn. intros Hin. repeat (apply elem_of_cons in Hin as [->|Hin]; [done|]). by apply elem_of_nil in Hin.
Qed.

Lemma rev_digits_value fuel v base :
  2 ≤ base ≤ 16 → 0 ≤ v < base ^ Z.of_nat fuel → fuel ≠ O →
  let l := Stdio.rev_digits fuel Stdio.lower v base in
  value base 0 (rev l) = v ∧ Forall (λ c, digval c < base) l ∧ l ≠ [].
Proof.
  intros Hb. revert v. induction fuel as [|n IH]; intros v Hv Hf; [done|]. cbn [Stdio.rev_digits].
  pose proof (Z.mod_pos_bound v base ltac:(lia)) as Hm. pose proof (lower_digval (v mod base) base Hm ltac:(lia)) as Hd.
  destruct (Z.eqb_spec (v / base) 0) as [Hz|Hz].
  - cbn. rewrite Hd. split_and!; [|constructor; [rewrite Hd; lia|done]|done]. pose proof (Z.div_mod v base ltac:(lia)). nia.
  - assert (n ≠ O) as Hn. { intros ->. change (Z.of_nat 1) with 1 in Hv. rewrite Z.pow_1_r in Hv. apply Hz, Z.div_small. lia. }
    destruct (IH (v / base)) as (I1 & I2 & I3); [|done|].
    { split; [apply Z.div_pos; lia|]. apply Z.div_lt_upper_bound; [lia|]. rewrite Nat2Z.inj_succ, Z.pow_succ_r in Hv by lia. lia. }
    cbn. split_and!; [|constructor; [rewrite Hd; lia|done]|done]. unfold value in *. rewrite foldl_app, I1. cbn. rewrite Hd.
    pose proof (Z.div_mod v base ltac:(lia)). lia.
Qed.

Lemma fmt_num_value v base :
  2 ≤ base ≤ 16 → 0 ≤ v < base ^ 11 →
  value base 0 (Stdio.fmt_num v base false) = v ∧ Forall (λ c, digval c < base) (Stdio.fmt_num v base false) ∧ Stdio.fmt_num v base false ≠ [].
Proof.
  intros Hb Hv. unfold Stdio.fmt_num. destruct (rev_digits_value 11 v base Hb Hv ltac:(done)) as (H1 & H2 & H3). split_and!; [done| |].
  - by apply Forall_rev.
  - intros E. apply H3. rewrite <- (rev_involutive (Stdio.rev_digits _ _ _ _)), E. done.
Qed.

Lemma length_rev_digits fuel dig v base : (length (Stdio.rev_digits fuel dig v base) ≤ fuel)%nat.
Proof. revert v. induction fuel as [|n IH]; intros v; cbn; [done|]. case_if; cbn; [lia|]. specialize (IH (v / base)). lia. Qed.

(** A field without width and precision. *)
Lemma field_plain b :
  zlength (Stdio.text b) < 2147483647 → StdioSpec.field_chars false false 0 (-1) b = (if Stdio.sign b then [45] else []) ++ Stdio.text b.
Proof.
  intros Hl. unfold StdioSpec.field_chars. pose proof (zlength_nonneg (Stdio.text b)). rewrite Z.gtb_ltb, (proj2 (Z.ltb_ge _ _)) by lia.
  rewrite !andb_false_r. cbn [andb]. rewrite s32_id by (destruct (Stdio.sign b); lia). rewrite Z.sub_0_l, Z2Nat.nonpos by (destruct (Stdio.sign b); lia).
  cbn [replicate app]. by rewrite app_nil_r.
Qed.

(** The text of [%d]. *)
Definition decimal_item (n : Z) : StdioText.item := StdioText.Conv [] (StdioText.Digits []) None [] 100 (Stdio.AInt n).

Lemma decimal_conversion n :
  -2147483648 ≤ n < 2147483648 →
  Stdio.conversion 100 (-1) [Stdio.AInt n] = Some (Stdio.Converted (Stdio.mk_body (Stdio.fmt_num (Z.abs n) 10 false) (n <? 0) true) []).
Proof.
  intros Hn. unfold Stdio.conversion, Stdio.va_int. cbn [Z.eqb Pos.eqb orb mbind option_bind]. rewrite s32_id by done. do 4 f_equal.
  case_if; [rewrite u32_small|]; lia.
Qed.

Lemma decimal_text n :
  -2147483648 ≤ n < 2147483648 →
  StdioText.item_text (decimal_item n) = (if n <? 0 then [45] else []) ++ Stdio.fmt_num (Z.abs n) 10 false.
Proof.
  intros Hn. unfold decimal_item, StdioText.item_text. cbn [StdioText.prec_value]. rewrite decimal_conversion by done. apply field_plain.
  cbn [Stdio.text]. unfold Stdio.fmt_num, zlength. rewrite length_rev. pose proof (length_rev_digits 11 Stdio.lower (Z.abs n) 10). lia.
Qed.

(** C39: Printing a number and reading it back: the format [%d] puts out, for
    any int and into any sink, a text that strtol reads as that int, to its
    end, and that any characters but digits may follow. *)
Theorem printf_strtol n rest :
  -2147483648 ≤ n < 2147483648 → ends 10 rest →
  ∃ out, StdioSpec.formats [37; 100] [Stdio.AInt n] out ∧ strtol (out ++ rest) 10 = (n, rest).
Proof.
  intros Hn Hr. exists (StdioText.item_text (decimal_item n)). split.
  - rewrite <- (app_nil_r (StdioText.item_text _)). apply (StdioSpec.formats_directive _ _ _ [] []); [|apply StdioSpec.formats_nil].
    apply (StdioText.directive_item [] (StdioText.Digits []) None [] 100 (Stdio.AInt n) [] []). cbn.
    split_and!; try done; [set_solver|]. eexists. by apply decimal_conversion.
  - rewrite decimal_text by done. destruct (fmt_num_value (Z.abs n) 10 ltac:(lia) ltac:(lia)) as (H1 & H2 & H3). rewrite <- app_assoc.
    etrans; [apply (strtol_clamps [] (if n <? 0 then [45] else []) [] _ rest 10 10); try done; [|right; split_and!; [done|lia|right; done]]|].
    1: case_if; auto.
    rewrite H1. f_equal. unfold clamp, LONG_MAX, LONG_MIN.
    destruct (n <? 0) eqn:E; boolp; [rewrite bool_decide_true by done|rewrite bool_decide_false by done]; lia.
Qed.

Lemma printf_strtol_witness :
  ∃ out, StdioSpec.formats [37; 100] [Stdio.AInt (-2147483648)] out ∧ strtol (out ++ [32; 55]) 10 = (-2147483648, [32; 55]).
Proof. apply (printf_strtol (-2147483648) [32; 55]); [lia|cbn; lia]. Defined.
End UStrtol.
