(* ===== verification/Malloc.v ===== *)
(** * The allocator of user programs (user/libc/stdlib.c: malloc and free)

    One circular free list ordered by address whose headers live in the
    memory itself: memory is bytes, and the headers are read and written
    through it.  Loops take fuel. *)

From S2P Require Import Prelude.

Module Malloc.

(** ** Memory *)

Definition memory := Z → Z.

Definition get32 (m : memory) (a : Z) : Z := m a + 256 * m (a + 1) + 65536 * m (a + 2) + 16777216 * m (a + 3).

Definition set8 (m : memory) (a v : Z) : memory := λ x, if decide (x = a) then v else m x.

Definition set32 (m : memory) (a v : Z) : memory :=
  set8 (set8 (set8 (set8 m a (v mod 256)) (a + 1) (v / 256 mod 256)) (a + 2) (v / 65536 mod 256)) (a + 3) (v / 16777216 mod 256).

(** ** Headers *)

Definition HEADER : Z := 8.
Definition NALLOC : Z := 1024.
Definition USER_HEAP_BASE : Z := 0x60000000.
Definition USER_HEAP_MAX : Z := 0x70000000.

Definition s_next (m : memory) (p : Z) : Z := get32 m p.
Definition s_units (m : memory) (p : Z) : Z := get32 m (p + 4).

(** [p + n] of header pointers. *)
Definition plus (p n : Z) : Z := u32 (p + n * HEADER).

(** The memory of the program; where the static [base] is; the pointer
    [freep]; the break of the task; and what comes of the next calls of
    sbrk(): [None] when the kernel refuses, [Some gap] when other code of the
    program has moved the break up by [gap], within the window the kernel
    allows, since the last call. *)
Record heap := mk_heap { mem : memory; base : Z; freep : Z; brk : Z; others : list (option Z) }.

Definition set_mem (m : memory) (h : heap) : heap := mk_heap m (base h) (freep h) (brk h) (others h).
Definition set_freep (p : Z) (h : heap) : heap := mk_heap (mem h) (base h) p (brk h) (others h).

(** The system call as sys_sbrk() answers it. *)
Definition sbrk (incr : Z) (h : heap) : Z * heap :=
  let '(g, rest) := match others h with [] => (Some 0, []) | g :: rest => (g, rest) end in
  match g with
  | None => (-1, mk_heap (mem h) (base h) (freep h) (brk h) rest)
  | Some gap =>
      let old := Z.min (brk h + gap) USER_HEAP_MAX in
      if old + incr >? USER_HEAP_MAX then (-1, mk_heap (mem h) (base h) (freep h) old rest)
      else (old, mk_heap (mem h) (base h) (freep h) (old + incr) rest)
  end.

Definition list_init (h : heap) : heap :=
  if freep h =? 0
  then mk_heap (set32 (set32 (mem h) (base h) (base h)) (base h + 4) 0) (base h) (base h) (brk h) (others h)
  else h.

(** The search for the place of [bp]. *)
Fixpoint find_place (fuel : nat) (m : memory) (bp p : Z) : option Z :=
  match fuel with
  | O => None
  | S n =>
      if (bp >? p) && (bp <? s_next m p) then Some p
      else if (p >=? s_next m p) && ((bp >? p) || (bp <? s_next m p)) then Some p
      else find_place n m bp (s_next m p)
  end.

(** Joining with the block above, and with the block below. *)
Definition join_above (bp p : Z) (m : memory) : memory :=
  if plus bp (s_units m bp) =? s_next m p
  then let m := set32 m (bp + 4) (s_units m bp + s_units m (s_next m p)) in set32 m bp (s_next m (s_next m p))
  else set32 m bp (s_next m p).

Definition join_below (bp p : Z) (m : memory) : memory :=
  if plus p (s_units m p) =? bp
  then let m := set32 m (p + 4) (s_units m p + s_units m bp) in set32 m p (s_next m bp)
  else set32 m p bp.

Definition free (fuel : nat) (ap : Z) (h : heap) : option heap :=
  if ap =? 0 then Some h else
  let h := list_init h in
  let bp := plus ap (-1) in
  p ← find_place fuel (mem h) bp (freep h);
  Some (set_freep p (set_mem (join_below bp p (join_above bp p (mem h))) h)).

(** [0] when the kernel gives no memory. *)
Definition morecore (fuel : nat) (nunits : Z) (h : heap) : option (Z * heap) :=
  let nunits := if nunits <? NALLOC then NALLOC else nunits in
  let '(p, h) := sbrk (s32 (u32 (nunits * HEADER))) h in
  if p =? -1 then Some (0, h) else
  let h := set_mem (set32 (mem h) (p + 4) nunits) h in
  h ← free fuel (plus p 1) h;
  Some (freep h, h).

(** The block at [p] fits: all of it, or its tail, is handed out. *)
Definition hand_out (prevp p nunits : Z) (h : heap) : Z * heap :=
  let m := mem h in
  let '(p, m) :=
    if s_units m p =? nunits then (p, set32 m prevp (s_next m p))
    else let m := set32 m (p + 4) (s_units m p - nunits) in
         let p := plus p (s_units m p) in
         (p, set32 m (p + 4) nunits) in
  (plus p 1, set_freep prevp (set_mem m h)).

Fixpoint malloc_loop (fuel : nat) (prevp p nunits : Z) (h : heap) : option (Z * heap) :=
  match fuel with
  | O => None
  | S n =>
      if s_units (mem h) p >=? nunits then Some (hand_out prevp p nunits h)
      else if p =? freep h then
        '(p, h) ← morecore n nunits h;
        if p =? 0 then Some (0, h) else malloc_loop n p (s_next (mem h) p) nunits h
      else malloc_loop n p (s_next (mem h) p) nunits h
  end.

Definition malloc (fuel : nat) (nbytes : Z) (h : heap) : option (Z * heap) :=
  if (nbytes =? 0) || (nbytes >=? 0x08000000) then Some (0, h) else
  let nunits := u32 (nbytes + HEADER - 1) / HEADER + 1 in
  let h := list_init h in
  malloc_loop fuel (freep h) (s_next (mem h) (freep h)) nunits h.

(** [memset(p, 0, n)] and [memcpy(q, p, n)]. *)
Definition zero_bytes (m : memory) (p n : Z) : memory := λ x, if decide (p ≤ x < p + n) then 0 else m x.
Definition copy_bytes (m : memory) (q p n : Z) : memory := λ x, if decide (q ≤ x < q + n) then m (p + (x - q)) else m x.

Definition calloc (fuel : nat) (nmemb size : Z) (h : heap) : option (Z * heap) :=
  if negb (size =? 0) && (nmemb >? 4294967295 / size) then Some (0, h) else
  let n := u32 (nmemb * size) in
  '(p, h) ← malloc fuel n h;
  Some (if negb (p =? 0) then (p, set_mem (zero_bytes (mem h) p n) h) else (p, h)).

Definition realloc (fuel : nat) (ap nbytes : Z) (h : heap) : option (Z * heap) :=
  if ap =? 0 then malloc fuel nbytes h else
  if nbytes =? 0 then h ← free fuel ap h; Some (0, h) else
  let bp := plus ap (-1) in
  let old := u32 ((s_units (mem h) bp - 1) * HEADER) in
  if old >=? nbytes then Some (ap, h) else
  '(np, h) ← malloc fuel nbytes h;
  if np =? 0 then Some (0, h) else
  let h := set_mem (copy_bytes (mem h) np ap old) h in
  h ← free fuel ap h;
  Some (np, h).

(** ** Reading and writing *)

Lemma set32_out m a v x : x < a ∨ a + 4 ≤ x → set32 m a v x = m x.
Proof. intros Hx. unfold set32, set8. repeat (rewrite decide_False by lia). done. Qed.

Lemma get32_set32 m a v : 0 ≤ v < 4294967296 → get32 (set32 m a v) a = v.
Proof.
  intros Hv. unfold get32, set32, set8. repeat (first [rewrite decide_True by lia|rewrite decide_False by lia]). zdm.
Qed.

Lemma set32_same m m' a v x : m' x = m x → set32 m' a v x = set32 m a v x.
Proof. intros H. unfold set32, set8. by repeat case_decide. Qed.

Lemma get32_ext m m' a : (∀ x, a ≤ x < a + 4 → m' x = m x) → get32 m' a = get32 m a.
Proof. intros H. unfold get32. by rewrite !H by lia. Qed.

Lemma get32_set32_ne m a b v : a + 4 ≤ b ∨ b + 4 ≤ a → get32 (set32 m b v) a = get32 m a.
Proof. intros H. apply get32_ext. intros x Hx. apply set32_out. lia. Qed.

Example first_block :
  let h := mk_heap (λ _, 0) 0x40002000 0 USER_HEAP_BASE [] in
  (λ '(p, h), (p, freep h, brk h)) <$> malloc 4 100 h = Some (0x60002000 - 104, 0x40002000, 0x60002000).
Proof. vm_compute. reflexivity. Qed.
End Malloc.

(** * The allocator's free list

    The list as a links of blocks in memory, and the steps of malloc() and
    free() on it. *)

Module MallocSpec.
Import Malloc.

(** A block: its address and its size in units. *)
Notation block := (Z * Z)%type.
Definition bend (b : block) : Z := b.1 + 8 * b.2.

(** [links m p F e]: the next pointers lead from [p] through the blocks [F]
    to [e]. *)
Fixpoint links (m : memory) (p : Z) (F : list block) (e : Z) : Prop :=
  match F with
  | [] => s_next m p = e
  | (a, u) :: F' => s_next m p = a ∧ s_units m a = u ∧ links m a F' e
  end.

Definition lastp (p : Z) (F : list block) : Z := match last F with Some b => b.1 | None => p end.

Lemma lastp_cons p b F : lastp p (b :: F) = lastp b.1 F.
Proof. unfold lastp. rewrite last_cons. by destruct (last F). Qed.

Lemma lastp_snoc p F b : lastp p (F ++ [b]) = b.1.
Proof. unfold lastp. by rewrite last_snoc. Qed.

Lemma lastp_in p F : lastp p F ∈ p :: F.*1.
Proof.
  revert p. induction F as [|b F IH]; intros p; [set_solver|]. rewrite lastp_cons. specialize (IH b.1). cbn. set_solver.
Qed.

Lemma links_app m p F1 a u F2 e : links m p (F1 ++ (a, u) :: F2) e ↔ links m p F1 a ∧ s_units m a = u ∧ links m a F2 e.
Proof.
  revert p. induction F1 as [|[b v] F1 IH]; intros p; cbn [app links]; [done|]. rewrite IH. tauto.
Qed.

Lemma links_last m p F e : links m p F e → s_next m (lastp p F) = e.
Proof. revert p. induction F as [|[a u] F IH]; intros p; cbn [links]; [done|]. intros (_ & _ & H). rewrite lastp_cons. by apply IH. Qed.

(** The blocks lie above [lo] in order, with a gap between any two. *)
Fixpoint sep (lo : Z) (F : list block) : Prop :=
  match F with [] => True | b :: F' => lo < b.1 ∧ 1 ≤ b.2 ∧ sep (bend b) F' end.

Lemma sep_weaken lo lo' F : sep lo F → lo' ≤ lo → sep lo' F.
Proof. destruct F as [|b F]; cbn; [done|]. intros (? & ? & ?) ?. split_and!; [lia|done|done]. Qed.

Lemma sep_in lo F b : sep lo F → b ∈ F → lo < b.1 ∧ 1 ≤ b.2.
Proof.
  revert lo. induction F as [|c F IH]; intros lo Hs Hb; [by apply elem_of_nil in Hb|]. destruct Hs as (H1 & H2 & H3).
  apply elem_of_cons in Hb as [->|Hb]; [done|]. specialize (IH _ H3 Hb). unfold bend in IH. lia.
Qed.

(** The place where the blocks after [F] begin. *)
Definition top (lo : Z) (F : list block) : Z := match last F with Some b => bend b | None => lo end.

Lemma top_cons lo b F : top lo (b :: F) = top (bend b) F.
Proof. unfold top. rewrite last_cons. by destruct (last F). Qed.

Lemma top_snoc lo F b : top lo (F ++ [b]) = bend b.
Proof. unfold top. by rewrite last_snoc. Qed.

Lemma sep_app lo F1 F2 : sep lo (F1 ++ F2) ↔ sep lo F1 ∧ sep (top lo F1) F2.
Proof.
  revert lo. induction F1 as [|b F1 IH]; intros lo; [cbn; tauto|]. cbn [app sep]. rewrite IH, top_cons. tauto.
Qed.

Lemma sep_top lo F : sep lo F → lo ≤ top lo F.
Proof.
  revert lo. induction F as [|b F IH]; intros lo Hs; [cbn; lia|]. destruct Hs as (H1 & H2 & H3). rewrite top_cons. specialize (IH _ H3).
  unfold bend in *. lia.
Qed.

Lemma sep_below lo F b : sep lo F → b ∈ F → bend b ≤ top lo F.
Proof.
  revert lo. induction F as [|c F IH]; intros lo Hs Hb; [by apply elem_of_nil in Hb|]. destruct Hs as (H1 & H2 & H3). rewrite top_cons.
  apply elem_of_cons in Hb as [->|Hb]; [by apply sep_top|by apply IH].
Qed.

(** Blocks of the list are apart. *)
Lemma sep_disjoint lo F1 b F2 c : sep lo (F1 ++ b :: F2) → c ∈ F1 ++ F2 → bend b < c.1 ∨ bend c < b.1.
Proof.
  rewrite sep_app. intros (H1 & H2 & H3 & H4) Hc. apply elem_of_app in Hc as [Hc|Hc].
  - right. pose proof (sep_below _ _ _ H1 Hc). lia.
  - left. by destruct (sep_in _ _ _ H4 Hc).
Qed.

(** ** Memory outside a list of headers *)

(** The bytes of a header. *)
Definition in_header (p x : Z) : Prop := p ≤ x < p + 8.

Lemma links_frame m m' p F e :
  (∀ q x, q = p ∨ q ∈ F.*1 → in_header q x → m' x = m x) → links m p F e → links m' p F e.
Proof.
  revert p. induction F as [|[a u] F IH]; intros p Hm; cbn [links fmap list_fmap fst].
  - intros <-. apply get32_ext. intros x Hx. apply (Hm p); [by left|]. unfold in_header. lia.
  - intros (H1 & H2 & H3). split_and!.
    + rewrite <- H1. apply get32_ext. intros x Hx. apply (Hm p); [by left|]. unfold in_header. lia.
    + rewrite <- H2. apply get32_ext. intros x Hx. apply (Hm a); [right; set_solver|]. unfold in_header. lia.
    + apply IH; [|done]. intros q x Hq. apply Hm. right. set_solver.
Qed.

(** The same blocks from another node. *)
Lemma links_from m m' p q F e :
  links m p F e → s_next m' q = s_next m p → (∀ a x, a ∈ F.*1 → in_header a x → m' x = m x) → links m' q F e.
Proof.
  destruct F as [|[a u] F]; cbn [links fmap list_fmap fst]; [by intros -> ->|]. intros (-> & H2 & H3) Hn Hf. split_and!; [done| |].
  - rewrite <- H2. apply get32_ext. intros x Hx. apply (Hf a); [set_solver|]. unfold in_header. lia.
  - apply (links_frame m); [|done]. intros q' x Hq. apply Hf. set_solver.
Qed.

Lemma next_set m p v : 0 ≤ v < 4294967296 → s_next (set32 m p v) p = v.
Proof. apply get32_set32. Qed.
Lemma units_set m p v : 0 ≤ v < 4294967296 → s_units (set32 m (p + 4) v) p = v.
Proof. apply get32_set32. Qed.
Lemma next_set_units m p q v : p = q ∨ q + 8 ≤ p ∨ p + 8 ≤ q → s_next (set32 m (q + 4) v) p = s_next m p.
Proof. intros H. apply get32_set32_ne. lia. Qed.
Lemma units_set_next m p q v : p = q ∨ q + 8 ≤ p ∨ p + 8 ≤ q → s_units (set32 m q v) p = s_units m p.
Proof. intros H. apply get32_set32_ne. lia. Qed.
Lemma next_set_ne m p q v : q + 8 ≤ p ∨ p + 8 ≤ q → s_next (set32 m q v) p = s_next m p.
Proof. intros H. apply get32_set32_ne. lia. Qed.
Lemma units_set_ne m p q v : q + 8 ≤ p ∨ p + 8 ≤ q → s_units (set32 m (q + 4) v) p = s_units m p.
Proof. intros H. apply get32_set32_ne. lia. Qed.

(** Redirecting the last next pointer of a links. *)
Lemma links_redirect m p F e e' lo :
  links m p F e → p + 8 ≤ lo → sep (lo - 1) F → 0 ≤ e' < 4294967296 → links (set32 m (lastp p F) e') p F e'.
Proof.
  revert p lo. induction F as [|[a u] F IH]; intros p lo Hc Hlo Hs He; [cbn; by apply next_set|].
  cbn [links] in Hc. destruct Hc as (H1 & H2 & H3). rewrite lastp_cons. destruct Hs as (S1 & S2 & S3). cbn [fst snd] in *.
  assert (a ≤ lastp a F) as Hl.
  { pose proof (lastp_in a F) as Hin. apply elem_of_cons in Hin as [->|Hin]; [lia|]. apply list_elem_of_fmap in Hin as (b & -> & Hb).
    destruct (sep_in _ _ _ S3 Hb). unfold bend in *. cbn in *. lia. }
  cbn [links fst]. split_and!.
  - rewrite next_set_ne by lia. done.
  - rewrite units_set_next; [done|]. destruct F as [|b F]; [by left|]. rewrite lastp_cons. right. right.
    pose proof (lastp_in b.1 F) as Hin. destruct S3 as (S3 & S4 & S5). unfold bend in S3. cbn in S3.
    apply elem_of_cons in Hin as [->|Hin]; [lia|]. apply list_elem_of_fmap in Hin as (c & -> & Hb).
    destruct (sep_in _ _ _ S5 Hb). unfold bend in *. cbn in *. lia.
  - apply (IH a (a + 8 * u)); [done|lia| |done]. unfold bend in S3. cbn in S3. apply sep_weaken with (a + 8 * u); [done|lia].
Qed.

(** ** Joining *)

Definition inb (b : block) (x : Z) : Prop := b.1 ≤ x < bend b.
Definition covered (F : list block) (x : Z) : Prop := ∃ b, b ∈ F ∧ inb b x.

Lemma covered_nil x : ¬ covered [] x.
Proof. intros (b & Hb & _). by apply elem_of_nil in Hb. Qed.
Lemma covered_cons b F x : covered (b :: F) x ↔ inb b x ∨ covered F x.
Proof. unfold covered. setoid_rewrite elem_of_cons. naive_solver. Qed.
Lemma covered_app F1 F2 x : covered (F1 ++ F2) x ↔ covered F1 x ∨ covered F2 x.
Proof. unfold covered. setoid_rewrite elem_of_app. naive_solver. Qed.

Definition HB := USER_HEAP_BASE.
Definition HM := USER_HEAP_MAX.

(** The blocks lie in the window of the heap. *)
Definition inside (F : list block) : Prop := ∀ b, b ∈ F → bend b ≤ HM.

Lemma plus_small p n : 0 ≤ p + 8 * n < 4294967296 → plus p n = p + 8 * n.
Proof. intros H. unfold plus, HEADER. rewrite u32_small by lia. lia. Qed.

(** Arithmetic on block bounds. *)
Ltac blk := unfold HB, HM, USER_HEAP_BASE, USER_HEAP_MAX, bend in *; cbn [fst snd] in *; lia.

Section join.
Context (B bp u : Z) (HB0 : 0 < B) (HB8 : B + 8 ≤ HB) (Hu : 1 ≤ u) (Hbp : HB ≤ bp) (Hend : bp + 8 * u ≤ HM).

Lemma join_above_spec m p F2 :
  p + 8 ≤ bp → s_next m p = (match F2 with b :: _ => b.1 | [] => B end) → s_units m bp = u → links m p F2 B → sep (bp + 8 * u - 1) F2 → inside F2 →
  let m1 := join_above bp p m in
  ∃ u' F2', links m1 bp F2' B ∧ s_units m1 bp = u' ∧ (∀ x, ¬ in_header bp x → m1 x = m x) ∧ u ≤ u' ∧ bp + 8 * u' ≤ HM ∧
    sep (bp + 8 * u') F2' ∧ inside F2' ∧ (length F2' ≤ length F2)%nat ∧
    ∀ x, covered F2' x ∨ inb (bp, u') x ↔ covered F2 x ∨ inb (bp, u) x.
Proof.
  unfold HB, HM, USER_HEAP_BASE, USER_HEAP_MAX in *. intros Hp Hn Hub Hl Hs Hi. cbv zeta. unfold join_above. rewrite Hub, Hn, plus_small by lia.
  assert (∀ a v x, ¬ in_header bp x → a = bp ∨ a = bp + 4 → set32 m a v x = m x) as Hout.
  { intros a v x Hx Ha. apply set32_out. unfold in_header in Hx. lia. }
  destruct F2 as [|[a2 u2] F2].
  - rewrite (proj2 (Z.eqb_neq _ _)) by lia. exists u, []. cbn [links].
    rewrite next_set, units_set_next by lia. split_and!; try done; try lia. intros x Hx. apply Hout; auto.
  - cbn [fst] in *. cbn [links] in Hl. destruct Hl as (_ & L2 & L3). cbn [sep fst snd] in Hs. destruct Hs as (S1 & S2 & S3).
    unfold bend in S3. cbn in S3. assert (a2 + 8 * u2 ≤ 0x70000000) as Ha2 by (pose proof (Hi (a2, u2) ltac:(set_solver)); blk).
    assert (inside F2) as Hi2 by (intros b Hb; apply Hi; set_solver).
    assert (∀ m', (∀ x, ¬ in_header bp x → m' x = m x) → links m' a2 F2 B) as Hfr.
    { intros m' Hm'. apply (links_frame m); [|done]. intros q x Hq Hx. apply Hm'. unfold in_header in *. destruct Hq as [->|Hq]; [lia|].
      apply list_elem_of_fmap in Hq as (b & -> & Hb). destruct (sep_in _ _ _ S3 Hb). lia. }
    destruct (Z.eqb_spec (bp + 8 * u) a2) as [He|He].
    + exists (u + u2), F2. rewrite L2. rewrite (next_set_units m p bp) by lia. rewrite Hn, (next_set_units m a2 bp) by lia. set (m1 := set32 m (bp + 4) (u + u2)).
      assert (∀ x, ¬ in_header bp x → set32 m1 bp (s_next m a2) x = m x) as Hm1.
      { intros x Hx. rewrite set32_out by (unfold in_header in Hx; lia). apply Hout; auto. }
      assert (0 ≤ s_next m a2 < 4294967296) as Hr.
      { destruct F2 as [|[a3 u3] F2]; cbn [links] in L3; [rewrite L3; lia|]. destruct L3 as (-> & _). cbn [sep fst snd] in S3.
        pose proof (Hi2 (a3, u3) ltac:(set_solver)). blk. }
      split_and!.
      * assert (links (set32 m1 bp (s_next m a2)) a2 F2 B) as Hc by (by apply Hfr).
        destruct F2 as [|[a3 u3] F2]; cbn [links] in *.
        -- rewrite next_set by done. done.
        -- destruct Hc as (C1 & C2 & C3). rewrite next_set by done. destruct L3 as (L3 & _). split_and!; done.
      * rewrite units_set_next by lia. apply units_set. lia.
      * done.
      * lia.
      * lia.
      * by replace (bp + 8 * (u + u2)) with (a2 + 8 * u2) by lia.
      * done.
      * cbn. lia.
      * intros x. rewrite covered_cons. unfold inb, bend. cbn [fst snd]. intuition lia.
    + exists u, ((a2, u2) :: F2). split_and!; try done.
      * cbn [links]. rewrite next_set by lia. split_and!; [done| |].
        -- rewrite units_set_next by lia. done.
        -- apply Hfr. auto.
      * rewrite units_set_next by lia. done.
      * auto.
      * cbn [sep fst snd]. split_and!; [lia|lia|done].
Qed.

Lemma join_below_spec m F1 e u' F2 :
  links m B F1 e → s_units m B = 0 → sep (HB - 1) F1 → inside F1 → top HB F1 ≤ bp → s_units m bp = u' → links m bp F2 B →
  u ≤ u' → bp + 8 * u' ≤ HM → sep (bp + 8 * u') F2 → inside F2 →
  let p := lastp B F1 in let m' := join_below bp p m in
  ∃ F', links m' B F' B ∧ s_units m' B = 0 ∧ sep (HB - 1) F' ∧ inside F' ∧ p ∈ B :: F'.*1 ∧ (∃ b, b ∈ F' ∧ u ≤ b.2) ∧
    (∀ x, covered F' x ↔ covered F1 x ∨ inb (bp, u') x ∨ covered F2 x) ∧ (∀ x, ¬ in_header B x → ¬ covered F' x → m' x = m x) ∧
    (length F' ≤ S (length F1 + length F2))%nat.
Proof.
  intros Hl HuB Hs Hi Ht Hub Hl2 Hu' Hend' Hs2 Hi2. cbv zeta. unfold join_below.
  assert (∀ c, c ∈ F2.*1 → bp + 8 < c) as Hf2.
  { intros c Hc. apply list_elem_of_fmap in Hc as (b & -> & Hb). destruct (sep_in _ _ _ Hs2 Hb). blk. }
  assert (0 ≤ s_next m bp < 4294967296) as Hr.
  { destruct F2 as [|[a3 u3] F2]; cbn [links] in Hl2; [rewrite Hl2; blk|]. destruct Hl2 as (-> & _). destruct Hs2 as (S1 & S2 & _).
    pose proof (Hi2 (a3, u3) ltac:(set_solver)). blk. }
  destruct F1 as [|[a v] F1 _] using rev_ind.
  - cbn [lastp last]. rewrite HuB, plus_small by blk. rewrite (proj2 (Z.eqb_neq _ _)) by blk. exists ((bp, u') :: F2). split_and!.
    + cbn [links]. rewrite next_set by blk. split_and!; [done|rewrite units_set_next by blk; done|].
      apply (links_frame m); [|done]. intros q x Hq Hx. apply set32_out. unfold in_header in Hx. destruct Hq as [->|Hq]; [blk|]. specialize (Hf2 q Hq). blk.
    + rewrite units_set_next by lia. done.
    + cbn [sep fst snd]. split_and!; [blk|lia|done].
    + intros b Hb. apply elem_of_cons in Hb as [->|Hb]; [blk|by apply Hi2].
    + set_solver.
    + exists (bp, u'). split; [set_solver|cbn; lia].
    + intros x. rewrite covered_cons. pose proof (covered_nil x). tauto.
    + intros x Hx _. apply set32_out. unfold in_header in Hx. lia.
    + cbn. lia.
  - rewrite lastp_snoc. cbn [fst]. apply links_app in Hl as (L1 & L2 & L3). apply sep_app in Hs as (S1 & S2 & S3 & _). cbn [fst snd] in *.
    rewrite top_snoc in Ht. pose proof (Hi (a, v) ltac:(set_solver)) as Hav. pose proof (sep_top _ _ S1) as Htop. rewrite L2, plus_small by blk.
    assert (∀ q, q ∈ F1.*1 → q + 8 ≤ a) as Hf1.
    { intros q Hq. apply list_elem_of_fmap in Hq as (b & -> & Hb). pose proof (sep_below _ _ _ S1 Hb). destruct (sep_in _ _ _ S1 Hb). blk. }
    assert (B + 8 ≤ a) as HBa by blk.
    destruct (Z.eqb_spec (a + 8 * v) bp) as [He|He].
    + exists (F1 ++ (a, v + u') :: F2). rewrite Hub. rewrite next_set_units by lia. set (m1 := set32 m (a + 4) (v + u')).
      assert (∀ x, ¬ in_header a x → set32 m1 a (s_next m bp) x = m x) as Hm.
      { intros x Hx. unfold m1. rewrite !set32_out by (unfold in_header in Hx; lia). done. }
      split_and!.
      * apply links_app. split_and!.
        -- apply (links_frame m); [|done]. intros q x Hq Hx. apply Hm. unfold in_header in *. destruct Hq as [->|Hq]; [lia|]. specialize (Hf1 q Hq). lia.
        -- rewrite units_set_next by lia. apply units_set. blk.
        -- apply (links_from m _ bp); [done|by apply next_set|]. intros q x Hq Hx. apply Hm. unfold in_header in *. specialize (Hf2 q Hq). blk.
      * unfold s_units. rewrite <- HuB. apply get32_ext. intros x Hx. apply Hm. unfold in_header. lia.
      * apply sep_app. split; [done|]. cbn [sep fst snd]. split_and!; [done|lia|]. replace (bend (a, v + u')) with (bp + 8 * u') by blk. done.
      * intros b Hb. apply elem_of_app in Hb as [Hb|Hb]; [apply Hi; set_solver|]. apply elem_of_cons in Hb as [->|Hb]; [blk|by apply Hi2].
      * rewrite fmap_app. set_solver.
      * exists (a, v + u'). split; [set_solver|cbn; lia].
      * intros x. rewrite !covered_app, !covered_cons. pose proof (covered_nil x). unfold inb. cbn [fst snd]. unfold bend in *. cbn [fst snd] in *. intuition lia.
      * intros x _ Hx. apply Hm. intros Hh. apply Hx. rewrite covered_app, covered_cons. right. left. unfold inb, in_header in *. blk.
      * rewrite !length_app. cbn. lia.
    + exists ((F1 ++ [(a, v)]) ++ (bp, u') :: F2). split_and!.
      * apply links_app. split_and!.
        -- rewrite <- (lastp_snoc B F1 (a, v)) at 1. apply (links_redirect m B _ e _ HB); [|blk| |blk].
           ++ apply links_app. done.
           ++ apply sep_app. split; [done|]. cbn [sep fst snd]. done.
        -- rewrite units_set_next by blk. done.
        -- apply (links_frame m); [|done]. intros q x Hq Hx. apply set32_out. unfold in_header in Hx. destruct Hq as [->|Hq]; [blk|].
           specialize (Hf2 q Hq). blk.
      * rewrite units_set_next by lia. done.
      * apply sep_app. split; [apply sep_app; split; [done|by cbn]|]. rewrite top_snoc. cbn [sep fst snd]. split_and!; [blk|lia|done].
      * intros b Hb. apply elem_of_app in Hb as [Hb|Hb]; [by apply Hi|]. apply elem_of_cons in Hb as [->|Hb]; [blk|by apply Hi2].
      * rewrite !fmap_app. set_solver.
      * exists (bp, u'). split; [set_solver|cbn; lia].
      * intros x. rewrite !covered_app, !covered_cons. tauto.
      * intros x _ Hx. apply set32_out. assert (¬ inb (a, v) x) as Hn.
        { intros Hn. apply Hx. rewrite !covered_app, !covered_cons. tauto. } unfold inb in Hn. blk.
      * rewrite !length_app. cbn. lia.
Qed.
End join.
End MallocSpec.

(** * The allocator's invariant

    What holds of the memory of a program between two calls, and that free()
    and malloc() keep it. *)

Module MallocInv.
Import Malloc MallocSpec.

(** ** The search of free() *)

Definition stop (m : memory) (bp p : Z) : bool :=
  (bp >? p) && (bp <? s_next m p) || (p >=? s_next m p) && ((bp >? p) || (bp <? s_next m p)).

Lemma find_place_step n m bp p : find_place (S n) m bp p = if stop m bp p then Some p else find_place n m bp (s_next m p).
Proof. cbn [find_place]. unfold stop. destruct (_ && (bp <? s_next m p)); [done|]. by destruct (_ && _). Qed.

Lemma find_walk m bp p G e k :
  links m p G e → (∀ q, q ∈ p :: G.*1 → stop m bp q = false) → find_place (S (length G) + k) m bp p = find_place k m bp e.
Proof.
  revert p. induction G as [|[a u] G IH]; intros p; cbn [links length Nat.add].
  - intros <- Hs. rewrite find_place_step, Hs; [done|set_solver].
  - intros (H1 & H2 & H3) Hs. rewrite find_place_step, Hs by set_solver. rewrite H1. apply IH; [done|]. intros q Hq. apply Hs. cbn. set_solver.
Qed.

Lemma find_to_last m bp p G e k :
  links m p G e → (∀ q, q ∈ p :: G.*1 → stop m bp q = bool_decide (q = lastp p G)) → (length G < k)%nat →
  find_place k m bp p = Some (lastp p G).
Proof.
  revert p k. induction G as [|[a u] G IH]; intros p k; cbn [links length]; (destruct k as [|k]; [lia|]); rewrite find_place_step.
  - intros _ Hs _. rewrite Hs by set_solver. cbn [lastp last]. by rewrite bool_decide_true.
  - intros (H1 & H2 & H3) Hs Hk. rewrite Hs by set_solver. case_bool_decide as Hp; [by rewrite Hp at 1|]. rewrite H1, lastp_cons. cbn [fst].
    apply IH; [done| |lia]. intros q Hq. rewrite Hs by (cbn; set_solver). by rewrite lastp_cons.
Qed.

(** The nodes of the list: the static one and the free blocks. *)
Lemma nodes_split (F : list (Z * Z)) p : p ∈ F.*1 → ∃ F1 u F2, F = F1 ++ (p, u) :: F2.
Proof. intros Hp. apply list_elem_of_fmap in Hp as ([a u] & -> & Hb). apply list_elem_of_split in Hb as (F1 & F2 & ->). by exists F1, u, F2. Qed.

(** Where the search stops: at the last node below the block. *)
Lemma stops m B F1 F2 bp u :
  links m B (F1 ++ F2) B → 0 < B → B + 8 ≤ HB → sep (HB - 1) (F1 ++ F2) → top HB F1 ≤ bp → 1 ≤ u → sep (bp + 8 * u - 1) F2 → HB ≤ bp →
  ∀ q, q ∈ B :: (F1 ++ F2).*1 → stop m bp q = bool_decide (q = lastp B F1).
Proof.
  intros Hl HB0 HB8 Hs Ht Hu Hs2 Hbp q Hq. unfold stop.
  assert (∀ c, c ∈ F2 → bp < c.1) as Hhi by (intros c Hc; destruct (sep_in _ _ _ Hs2 Hc); blk).
  pose proof (proj1 (sep_app _ _ _) Hs) as [Hs1 _]. pose proof (sep_top _ _ Hs1) as Htop.
  assert (∀ c, c ∈ F1 → HB ≤ c.1 ∧ c.1 < bp) as Hlo.
  { intros c Hc. destruct (sep_in _ _ _ Hs1 Hc). pose proof (sep_below _ _ _ Hs1 Hc) as Hb. unfold top in *. destruct (last F1) eqn:El; [blk|].
    apply last_None in El as ->. by apply elem_of_nil in Hc. }
  assert (lastp B F1 < bp ∧ B ≤ lastp B F1) as [Hp Hp'].
  { pose proof (lastp_in B F1) as Hin. apply elem_of_cons in Hin as [->|Hin]; [blk|]. apply list_elem_of_fmap in Hin as (b & -> & Hb). destruct (Hlo b Hb). blk. }
  (* the next pointer of a node *)
  assert (∀ G1 a v G2 p, links m p (G1 ++ (a, v) :: G2) B → s_next m (lastp p G1) = a) as Hnext.
  { intros G1 a v G2 p Hg. apply links_app in Hg as (Hg & _). by apply links_last in Hg. }
  destruct (decide (q = lastp B F1)) as [->|Hne].
  - rewrite bool_decide_true by done. destruct F2 as [|[a2 u2] F2].
    + rewrite app_nil_r in Hl. rewrite (links_last _ _ _ _ Hl). rewrite (proj2 (Z.geb_le _ _)), (proj2 (Z.gtb_lt _ _)) by lia. cbn. apply orb_true_r.
    + rewrite (Hnext _ _ _ _ _ Hl). pose proof (Hhi (a2, u2) ltac:(set_solver)) as Ha. cbn in Ha.
      rewrite (proj2 (Z.gtb_lt _ _)), (proj2 (Z.ltb_lt _ _)) by lia. done.
  - rewrite bool_decide_false by done.
    assert ((q < s_next m q ∧ s_next m q ≤ bp) ∨ (bp < q ∧ (q < s_next m q ∨ s_next m q = B))) as Hcase.
    { assert (∀ F G1 p v G2 a w G3, F1 = F → F = G1 ++ (p, v) :: G2 → G2 = (a, w) :: G3 → s_next m p = a ∧ p < a ∧ a ≤ bp) as Hmid.
      { intros F G1 p v G2 a w G3 -> -> ->. rewrite <- app_assoc in Hl. cbn [app] in Hl. apply links_app in Hl as (_ & _ & Hl'). cbn [links] in Hl'.
        split_and!; [apply Hl'| |].
        - apply sep_app in Hs1 as (_ & _ & S2 & S3 & _). blk.
        - destruct (Hlo (a, w) ltac:(set_solver)). cbn in *. lia. }
      rewrite fmap_app in Hq. apply elem_of_cons in Hq as [->|Hq].
      - left. destruct F1 as [|[a v] F1]; [done|]. cbn [app links] in Hl. destruct (Hlo (a, v) ltac:(set_solver)). cbn in *. destruct Hl as (-> & _). blk.
      - apply elem_of_app in Hq as [Hq|Hq]; apply nodes_split in Hq as (G1 & v & G2 & Eg).
        + left. destruct G2 as [|[a w] G3].
          * exfalso. apply Hne. by rewrite Eg, lastp_snoc.
          * destruct (Hmid _ _ _ _ _ _ _ _ eq_refl Eg eq_refl) as (-> & ? & ?). lia.
        + right. pose proof (Hhi (q, v) ltac:(rewrite Eg; set_solver)) as Hq. cbn in Hq. split; [done|]. rewrite Eg, app_assoc in Hl.
          apply links_app in Hl as (_ & _ & Hl'). destruct G2 as [|[a w] G3]; cbn [links] in Hl'; [by right|]. destruct Hl' as (-> & _). left.
          rewrite Eg in Hs2. apply sep_app in Hs2 as (_ & _ & S2 & S3 & _). blk. }
    destruct Hcase as [[H1 H2]|[H1 H2]].
    + rewrite (proj2 (Z.ltb_ge bp _)) by lia. rewrite Z.geb_leb, (proj2 (Z.leb_gt _ q)) by lia. by rewrite andb_false_r.
    + rewrite Z.gtb_ltb, (proj2 (Z.ltb_ge q _)) by lia. cbn [andb orb]. destruct H2 as [H2|H2].
      * by rewrite Z.geb_leb, (proj2 (Z.leb_gt _ q)) by lia.
      * rewrite (proj2 (Z.ltb_ge bp _)) by lia. apply andb_false_r.
Qed.

Lemma find_place_at m B F1 F2 bp p fuel :
  links m B (F1 ++ F2) B → (∀ q, q ∈ B :: (F1 ++ F2).*1 → stop m bp q = bool_decide (q = lastp B F1)) →
  p ∈ B :: (F1 ++ F2).*1 → (length (F1 ++ F2) + 2 ≤ fuel)%nat → sep (HB - 1) (F1 ++ F2) → B + 8 ≤ HB →
  find_place fuel m bp p = Some (lastp B F1).
Proof.
  intros Hl Hs Hp Hf Hsep HB8. rewrite length_app in Hf.
  assert (∃ e, links m B F1 e) as [e Hl1]. { destruct F2 as [|[a u] F2]; [rewrite app_nil_r in Hl; by exists B|]. apply links_app in Hl as [Hl _]. by exists a. }
  assert (∀ k, (length F1 < k)%nat → find_place k m bp B = Some (lastp B F1)) as HfB.
  { intros k Hk. eapply find_to_last; [done| |done]. intros q Hq. apply Hs. rewrite fmap_app. set_solver. }
  apply elem_of_cons in Hp as [->|Hp]; [apply HfB; lia|]. rewrite fmap_app in Hp. apply elem_of_app in Hp as [Hp|Hp]; apply nodes_split in Hp as (G1 & v & G2 & Eg).
  - subst F1. apply links_app in Hl1 as (_ & _ & Hl1). replace (lastp B (G1 ++ (p, v) :: G2)) with (lastp p G2) in *.
    + eapply find_to_last; [done| |rewrite length_app in Hf; cbn in Hf; lia]. intros q Hq. apply Hs. rewrite !fmap_app. set_solver.
    + unfold lastp. rewrite last_app, last_cons. by destruct (last G2).
  - subst F2. rewrite app_assoc in Hl. apply links_app in Hl as (_ & _ & Hl2). rewrite length_app in Hf. cbn in Hf.
    replace fuel with (S (length G2) + (fuel - S (length G2)))%nat by lia. rewrite (find_walk m bp p G2 B); [apply HfB; lia|done|].
    intros q Hq. rewrite Hs by (rewrite !fmap_app; set_solver). rewrite bool_decide_false; [done|]. intros ->.
    pose proof (proj1 (sep_app _ _ _) Hsep) as [S1 S2]. pose proof (sep_top _ _ S1) as St.
    assert (HB - 1 < lastp B F1 ∧ top (HB - 1) F1 < lastp B F1) as [H1 H2].
    { assert (lastp B F1 ∈ (G1 ++ (p, v) :: G2).*1) as Hin by (rewrite fmap_app; set_solver).
      apply list_elem_of_fmap in Hin as (b & -> & Hb). destruct (sep_in _ _ _ S2 Hb). lia. }
    pose proof (lastp_in B F1) as Hin. apply elem_of_cons in Hin as [Hin|Hin]; [lia|].
    apply list_elem_of_fmap in Hin as (b & Eb & Hb). pose proof (sep_below _ _ _ S1 Hb). destruct (sep_in _ _ _ S1 Hb). blk.
Qed.

(** The place of a block among blocks it does not overlap. *)
Lemma place_split bp u lo t F :
  sep lo F → t ≤ bp → 1 ≤ u → (∀ x, inb (bp, u) x → ¬ covered F x) → ∃ F1 F2, F = F1 ++ F2 ∧ top t F1 ≤ bp ∧ sep (bp + 8 * u - 1) F2.
Proof.
  intros Hs Ht Hu. revert lo t Hs Ht. induction F as [|b F IH]; intros lo t Hs Ht Hd; [by exists [], []|]. destruct Hs as (S1 & S2 & S3).
  assert (bend b ≤ bp ∨ bp + 8 * u ≤ b.1) as [Hb|Hb].
  { destruct (decide (bend b ≤ bp)); [by left|]. right. destruct (decide (bp + 8 * u ≤ b.1)); [done|]. exfalso.
    apply (Hd (Z.max bp b.1)); [unfold inb; blk|]. apply covered_cons. left. unfold inb. blk. }
  - destruct (IH (bend b) (bend b) S3 Hb) as (F1 & F2 & -> & H1 & H2). { intros x Hx Hc. apply (Hd x Hx). apply covered_cons. by right. }
    exists (b :: F1), F2. split_and!; [done|by rewrite top_cons|done].
  - exists [], (b :: F). split_and!; [done|done|]. cbn [sep]. split_and!; [lia|done|done].
Qed.

(** ** The invariant *)

Definition gap_ok (g : option Z) : Prop := match g with Some gap => 0 ≤ gap | None => True end.

Fixpoint apart (L : list (Z * Z)) : Prop :=
  match L with [] => True | b :: L' => (∀ x, inb b x → ¬ covered L' x) ∧ apart L' end.

(** [F] are the free blocks and [L] the blocks in use: the headers of the
    free ones form the list; the blocks lie below the break and do not
    overlap. *)
Record wf (h : heap) (F L : list (Z * Z)) : Prop := {
  wf_base : 0 < base h ∧ base h + 8 ≤ HB;
  wf_brk : HB ≤ brk h ≤ HM;
  wf_links : links (mem h) (base h) F (base h);
  wf_units : s_units (mem h) (base h) = 0;
  wf_sep : sep (HB - 1) F;
  wf_in b : b ∈ F → bend b ≤ brk h;
  wf_freep : freep h ∈ base h :: F.*1;
  wf_live b : b ∈ L → 2 ≤ b.2 ∧ HB ≤ b.1 ∧ bend b ≤ brk h ∧ s_units (mem h) b.1 = b.2;
  wf_apart x : covered F x → ¬ covered L x;
  wf_disj : apart L;
  wf_others : Forall gap_ok (others h);
}.

Lemma apart_middle L1 b L2 : apart (L1 ++ b :: L2) ↔ (∀ x, inb b x → ¬ covered (L1 ++ L2) x) ∧ apart (L1 ++ L2).
Proof.
  induction L1 as [|c L1 IH]; cbn [app apart]; [done|]. rewrite IH. split.
  - intros (H1 & H2 & H3). split_and!; [|intros x Hx Hc; apply (H1 x Hx); rewrite covered_app, covered_cons; apply covered_app in Hc; tauto|done].
    intros x Hx Hc. apply covered_cons in Hc as [Hc|Hc]; [|by apply (H2 x)]. apply (H1 x Hc). rewrite covered_app, covered_cons. tauto.
  - intros (H1 & H2 & H3). split_and!; [|intros x Hx Hc; apply (H1 x Hx), covered_cons; by right|done].
    intros x Hx Hc. rewrite covered_app, covered_cons in Hc. destruct Hc as [Hc|[Hc|Hc]].
    + apply (H2 x Hx). apply covered_app. by left.
    + apply (H1 x Hc), covered_cons. by left.
    + apply (H2 x Hx). apply covered_app. by right.
Qed.

Lemma wf_nonnull h F L : wf h F L → freep h ≠ 0.
Proof.
  intros [Hb _ _ _ Hs _ Hf _ _ _ _]. apply elem_of_cons in Hf as [->|Hf]; [lia|]. apply list_elem_of_fmap in Hf as (b & -> & Hb').
  destruct (sep_in _ _ _ Hs Hb'). blk.
Qed.

(** What a call leaves alone: memory outside the free blocks and the header
    of the list, and so the blocks in use. *)
Lemma live_kept h m' F' L :
  (∀ x, ¬ in_header (base h) x → ¬ covered F' x → m' x = mem h x) → base h + 8 ≤ HB → (∀ x, covered F' x → ¬ covered L x) →
  (∀ b, b ∈ L → 2 ≤ b.2 ∧ HB ≤ b.1) →
  (∀ x, covered L x → m' x = mem h x) ∧ ∀ b, b ∈ L → s_units m' b.1 = s_units (mem h) b.1.
Proof.
  intros Hm HB8 Ha HL. assert (∀ x, covered L x → m' x = mem h x) as Hx.
  { intros x (b & Hb & Hx). apply Hm; [|intros Hc; apply (Ha x Hc); by exists b]. destruct (HL b Hb). unfold in_header, inb in *. blk. }
  split; [done|]. intros b Hb. apply get32_ext. intros x Hr. apply Hx. exists b. split; [done|]. destruct (HL b Hb). unfold inb. blk.
Qed.

(** ** free *)

Definition same_env (h h' : heap) : Prop := base h' = base h ∧ brk h' = brk h ∧ others h' = others h.

(** Returning a block that is neither free nor in use, which is what free()
    does with a block taken from the ones in use and morecore() with memory
    from the kernel. *)
Lemma free_core fuel h F L bp u :
  wf h F L → 1 ≤ u → HB ≤ bp → bp + 8 * u ≤ brk h → s_units (mem h) bp = u → (∀ x, inb (bp, u) x → ¬ covered F x ∧ ¬ covered L x) →
  (length F + 2 ≤ fuel)%nat →
  ∃ h' F', free fuel (bp + 8) h = Some h' ∧ wf h' F' L ∧ same_env h h' ∧ (∃ b, b ∈ F' ∧ u ≤ b.2) ∧ (length F' ≤ S (length F))%nat ∧
    (∀ x, covered F' x ↔ covered F x ∨ inb (bp, u) x) ∧ (∀ x, covered L x → mem h' x = mem h x).
Proof.
  intros Hw Hu Hbp Hend Hub Hd Hfuel. pose proof (wf_nonnull _ _ _ Hw) as Hnn. destruct Hw as [[HB0 HB8] Hbrk Hl HuB Hs Hin Hfp Hlive Hap Hdj Hoth].
  destruct (place_split bp u (HB - 1) HB F Hs Hbp Hu ltac:(intros x Hx; by apply Hd)) as (F1 & F2 & -> & Ht & Hs2).
  pose proof (stops _ _ _ _ _ _ Hl HB0 HB8 Hs Ht Hu Hs2 Hbp) as Hst.
  assert (inside (F1 ++ F2)) as Hins by (intros b Hb; pose proof (Hin b Hb); blk).
  unfold free. rewrite (proj2 (Z.eqb_neq _ _)) by blk. unfold list_init. rewrite (proj2 (Z.eqb_neq _ _) Hnn).
  rewrite plus_small by blk. replace (bp + 8 + 8 * -1) with bp by lia.
  rewrite (find_place_at _ _ _ _ _ _ _ Hl Hst Hfp Hfuel Hs HB8). cbn [mbind option_bind].
  set (p := lastp (base h) F1). pose proof (proj1 (sep_app _ _ _) Hs) as [Hs1 Hs12].
  assert (p + 8 ≤ bp) as Hp.
  { unfold p. pose proof (lastp_in (base h) F1) as Hi. apply elem_of_cons in Hi as [->|Hi]; [blk|]. apply list_elem_of_fmap in Hi as (b & -> & Hb).
    destruct (sep_in _ _ _ Hs1 Hb). pose proof (sep_below _ _ _ Hs1 Hb) as Hbl. unfold top in *. destruct (last F1) eqn:El; [blk|].
    apply last_None in El as ->. by apply elem_of_nil in Hb. }
  assert (∃ e, links (mem h) (base h) F1 e ∧ s_next (mem h) p = match F2 with b :: _ => b.1 | [] => base h end ∧ links (mem h) p F2 (base h)) as (e & Hl1 & Hnp & Hl2).
  { destruct F2 as [|[a v] F2].
    - rewrite app_nil_r in Hl. exists (base h). split; [done|]. apply links_last in Hl. done.
    - apply links_app in Hl as (H1 & H2 & H3). exists a. pose proof (links_last _ _ _ _ H1) as Hn. split_and!; done. }
  destruct (join_above_spec (base h) bp u HB0 HB8 Hu Hbp ltac:(blk) (mem h) p F2 Hp Hnp Hub Hl2 Hs2) as (u' & F2' & A1 & A2 & A3 & A4 & A5 & A6 & A7 & A8 & A9).
  { intros b Hb. apply Hins. set_solver. }
  set (m1 := join_above bp p (mem h)) in *.
  destruct (join_below_spec (base h) bp u HB0 HB8 Hu Hbp ltac:(blk) m1 F1 e u' F2') as (F' & J1 & J2 & J3 & J4 & J5 & J6 & J7 & J8 & J9); try done.
  - apply (links_frame (mem h)); [|done]. intros q x Hq Hx. apply A3. unfold in_header in *. destruct Hq as [->|Hq]; [blk|].
    apply list_elem_of_fmap in Hq as (b & -> & Hb). destruct (sep_in _ _ _ Hs1 Hb). pose proof (sep_below _ _ _ Hs1 Hb) as Hbl.
    unfold top in *. destruct (last F1) eqn:El; [blk|]. apply last_None in El as ->. by apply elem_of_nil in Hb.
  - rewrite <- HuB. apply get32_ext. intros x Hx. apply A3. unfold in_header. blk.
  - intros b Hb. apply Hins. set_solver.
  - fold p in J5, J8 |- *. set (m2 := join_below bp p m1) in *. exists (set_freep p (set_mem m2 h)), F'.
    assert (∀ x, covered F' x ↔ covered (F1 ++ F2) x ∨ inb (bp, u) x) as Hcov.
    { intros x. rewrite J7, covered_app. specialize (A9 x). tauto. }
    assert (∀ x, covered F' x → ¬ covered L x) as Hap'.
    { intros x Hx. apply Hcov in Hx as [Hx|Hx]; [by apply Hap|by apply Hd]. }
    assert (∀ x, ¬ in_header (base h) x → ¬ covered F' x → m2 x = mem h x) as Hm2.
    { intros x Hx Hc. rewrite J8 by done. apply A3. intros Hh. apply Hc, Hcov. right. unfold inb, in_header in *. blk. }
    destruct (live_kept h m2 F' L Hm2 HB8 Hap' ltac:(intros b Hb; by destruct (Hlive b Hb) as (? & ? & _))) as [Hk1 Hk2].
    split_and!; try done.
    + constructor; try done.
      * intros b Hb. cbn [brk set_freep set_mem]. assert (b.1 < bend b) as Hpos by (destruct (sep_in _ _ _ J3 Hb); blk).
        assert (covered F' (bend b - 1)) as Hc by (exists b; split; [done|unfold inb; lia]).
        apply Hcov in Hc as [(c & Hc & Hx)|Hx]; [specialize (Hin c Hc); unfold inb in Hx; lia|unfold inb in Hx; blk].
      * intros b Hb. cbn [mem brk set_freep set_mem]. rewrite Hk2 by done. by apply Hlive.
    + rewrite length_app. lia.
Qed.
End MallocInv.
