(* ===== verification/MallocTheorems.v ===== *)
(** * Allocation

    The search of malloc() around the free list, handing out a block, and
    growing the heap. *)

From Stdlib Require Import Permutation.
From S2P Require Import Prelude Malloc.

Module MallocAlloc.
Import Malloc MallocSpec MallocInv.

(** ** The search *)

(** The list as malloc() sees it: from [freep] round to [freep]. *)
Lemma ring h F L :
  wf h F L → ∃ G uf, links (mem h) (freep h) G (freep h) ∧ s_units (mem h) (freep h) = uf ∧ G ++ [(freep h, uf)] ≡ₚ (base h, 0) :: F.
Proof.
  intros Hw. pose proof (wf_links _ _ _ Hw) as Hl. pose proof (wf_units _ _ _ Hw) as Hu. pose proof (wf_freep _ _ _ Hw) as Hf.
  apply elem_of_cons in Hf as [Hf|Hf].
  - exists F, 0. rewrite Hf. split_and!; [done|done|]. by rewrite Permutation_app_comm.
  - apply nodes_split in Hf as (F1 & u & F2 & ->). apply links_app in Hl as (L1 & L2 & L3). exists (F2 ++ (base h, 0) :: F1), u. split_and!; [|done|].
    + apply links_app. done.
    + rewrite <- app_assoc. cbn [app]. rewrite <- Permutation_middle. constructor. rewrite app_assoc, Permutation_app_comm. cbn [app].
      rewrite <- Permutation_middle. constructor. apply Permutation_app_comm.
Qed.

Lemma loop_walk k prev G e n h :
  links (mem h) prev G e → (∀ b, b ∈ G → b.2 < n ∧ b.1 ≠ freep h) →
  malloc_loop (length G + k) prev (s_next (mem h) prev) n h = malloc_loop k (lastp prev G) e n h.
Proof.
  revert prev. induction G as [|[a u] G IH]; intros prev; cbn [links length Nat.add].
  - by intros ->.
  - intros (H1 & H2 & H3) Hb. rewrite H1. cbn [malloc_loop]. destruct (Hb (a, u) ltac:(set_solver)) as [B1 B2]. cbn in B1, B2.
    rewrite H2, Z.geb_leb, (proj2 (Z.leb_gt _ _)) by lia. rewrite (proj2 (Z.eqb_neq _ _) B2). rewrite IH; [by rewrite lastp_cons|done|].
    intros b Hin. apply Hb. set_solver.
Qed.

Lemma nodes_distinct h F L : wf h F L → NoDup ((base h, 0) :: F).*1.
Proof.
  intros Hw. pose proof (wf_sep _ _ _ Hw) as Hs. destruct (wf_base _ _ _ Hw) as [_ HB8]. cbn. apply NoDup_cons. split.
  - intros Hin. apply list_elem_of_fmap in Hin as (b & Eb & Hb). destruct (sep_in _ _ _ Hs Hb). blk.
  - clear Hw HB8. revert Hs. generalize (HB - 1). induction F as [|b F IH]; intros lo Hs; cbn; [constructor|]. destruct Hs as (S1 & S2 & S3).
    apply NoDup_cons. split; [|by eapply IH]. intros Hin. apply list_elem_of_fmap in Hin as (c & Ec & Hc). destruct (sep_in _ _ _ S3 Hc). blk.
Qed.

(** The first block that fits. *)
Lemma first_fit (n : Z) (G : list (Z * Z)) : (∀ b, b ∈ G → b.2 < n) ∨ ∃ G1 b G2, G = G1 ++ b :: G2 ∧ (∀ c, c ∈ G1 → c.2 < n) ∧ n ≤ b.2.
Proof.
  induction G as [|b G IH]; [left; intros b Hb; by apply elem_of_nil in Hb|]. destruct (decide (n ≤ b.2)) as [Hn|Hn].
  - right. exists [], b, G. split_and!; [done| |done]. intros c Hc. by apply elem_of_nil in Hc.
  - destruct IH as [IH|(G1 & c & G2 & -> & H1 & H2)].
    + left. intros c Hc. apply elem_of_cons in Hc as [->|Hc]; [lia|auto].
    + right. exists (b :: G1), c, G2. split_and!; [done| |done]. intros d Hd. apply elem_of_cons in Hd as [->|Hd]; [lia|auto].
Qed.

(** The search ends at a block that fits when there is one. *)
Lemma search_fit h F L n k :
  wf h F L → 1 ≤ n → (∃ b, b ∈ F ∧ n ≤ b.2) → (length F < k)%nat →
  ∃ q a u, malloc_loop k (freep h) (s_next (mem h) (freep h)) n h = Some (hand_out q a n h) ∧
    q ∈ base h :: F.*1 ∧ (a, u) ∈ F ∧ n ≤ u ∧ s_next (mem h) q = a.
Proof.
  intros Hw Hn (b & Hb & Hbn) Hk. destruct (ring h F L Hw) as (G & uf & Hl & Huf & Hp). pose proof (nodes_distinct _ _ _ Hw) as Hnd.
  assert (length G = length F) as Hlen by (apply Permutation_length in Hp; rewrite length_app in Hp; cbn in Hp; lia).
  destruct (first_fit n (G ++ [(freep h, uf)])) as [Hno|(G1 & [a u] & G2 & Eg & Hlt & Hau)].
  { exfalso. assert (b ∈ G ++ [(freep h, uf)]) as Hin by (rewrite Hp; set_solver). specialize (Hno b Hin). lia. }
  cbn [snd] in Hau. assert (NoDup (G ++ [(freep h, uf)]).*1) as Hnd' by (by rewrite Hp).
  assert (links (mem h) (freep h) G1 a ∧ s_units (mem h) a = u ∧ (∀ c, c ∈ G1 → c ∈ G)) as (Hl1 & Hua & Hsub).
  { destruct G2 as [|y G2 _] using rev_ind.
    - apply app_inj_tail in Eg as [<- [= <- <-]]. done.
    - rewrite app_comm_cons, app_assoc in Eg. apply app_inj_tail in Eg as [-> <-]. apply links_app in Hl as (H1 & H2 & H3).
      split_and!; [done|done|]. intros c Hc. set_solver. }
  rewrite fmap_app in Hnd'. apply NoDup_app in Hnd' as (_ & Hd & _).
  assert (∀ c, c ∈ G ++ [(freep h, uf)] → c.1 ∈ base h :: F.*1) as Hnode.
  { intros c Hc. rewrite Hp in Hc. change (base h :: F.*1) with (((base h, 0) :: F).*1). by apply list_elem_of_fmap_2. }
  exists (lastp (freep h) G1), a, u. split_and!.
  - assert (length G1 ≤ length G)%nat as HlG.
    { apply (f_equal length) in Eg. rewrite !length_app in Eg. cbn in Eg. lia. }
    replace k with (length G1 + S (k - S (length G1)))%nat by lia. rewrite (loop_walk _ _ G1 a); [|done|].
    + cbn [malloc_loop]. rewrite Hua, Z.geb_leb, (proj2 (Z.leb_le _ _)) by lia. done.
    + intros c Hc. split; [by apply Hlt|]. intros Efp. apply (Hd c.1); [by apply list_elem_of_fmap_2, Hsub|cbn; set_solver].
  - pose proof (lastp_in (freep h) G1) as Hi. apply elem_of_cons in Hi as [->|Hi]; [apply Hw|]. apply list_elem_of_fmap in Hi as (c & -> & Hc).
    apply Hnode, elem_of_app. left. by apply Hsub.
  - assert ((a, u) ∈ (base h, 0) :: F) as Hin by (rewrite <- Hp, Eg; set_solver). apply elem_of_cons in Hin as [[= -> ->]|Hin]; [lia|done].
  - done.
  - by apply links_last in Hl1.
Qed.

(** And comes back to [freep] when there is none. *)
Lemma search_full h F L n k :
  wf h F L → 1 ≤ n → (∀ b, b ∈ F → b.2 < n) →
  malloc_loop (length F + S k) (freep h) (s_next (mem h) (freep h)) n h =
  '(p, h) ← morecore k n h; if p =? 0 then Some (0, h) else malloc_loop k p (s_next (mem h) p) n h.
Proof.
  intros Hw Hn Hno. destruct (ring h F L Hw) as (G & uf & Hl & Huf & Hp). pose proof (nodes_distinct _ _ _ Hw) as Hnd.
  assert (length G = length F) as Hlen by (apply Permutation_length in Hp; rewrite length_app in Hp; cbn in Hp; lia).
  assert (NoDup (G ++ [(freep h, uf)]).*1) as Hnd' by (by rewrite Hp). rewrite fmap_app in Hnd'. apply NoDup_app in Hnd' as (_ & Hd & _).
  assert (∀ c, c ∈ G ++ [(freep h, uf)] → c.2 < n) as Hlt.
  { intros c Hc. rewrite Hp in Hc. apply elem_of_cons in Hc as [->|Hc]; [cbn; lia|by apply Hno]. }
  rewrite <- Hlen. rewrite (loop_walk _ _ G (freep h)); [|done|].
  - pose proof (Hlt (freep h, uf) ltac:(set_solver)) as Hfu. cbn in Hfu. cbn [malloc_loop].
    rewrite Huf, Z.geb_leb, (proj2 (Z.leb_gt _ _)) by lia. by rewrite Z.eqb_refl.
  - intros c Hc. split; [apply Hlt; set_solver|]. intros Efp. apply (Hd c.1); [by apply list_elem_of_fmap_2|cbn; set_solver].
Qed.

(** ** Handing out a block *)

(** A node is the predecessor of one block only. *)
Lemma predecessor m B Fa a u Fb q :
  links m B (Fa ++ (a, u) :: Fb) B → sep (HB - 1) (Fa ++ (a, u) :: Fb) → 0 < B → B + 8 ≤ HB →
  q ∈ B :: (Fa ++ (a, u) :: Fb).*1 → s_next m q = a → q = lastp B Fa.
Proof.
  intros Hl Hs HB0 HB8 Hq Hn. pose proof (proj1 (sep_app _ _ _) Hs) as (S1 & S2 & S3 & S4). cbn [fst snd] in *.
  apply links_app in Hl as (L1 & L2 & L3). pose proof (sep_top _ _ S1) as St.
  assert (∀ c, c ∈ Fa → c.1 < a) as Hlo by (intros c Hc; destruct (sep_in _ _ _ S1 Hc); pose proof (sep_below _ _ _ S1 Hc); blk).
  assert (∀ c, c ∈ Fb → a < c.1) as Hhi by (intros c Hc; destruct (sep_in _ _ _ S4 Hc); blk).
  assert (∀ p G1 G2, links m p (G1 ++ G2) a → (∀ c, c ∈ G2 → c.1 < a) → s_next m (lastp p G1) = a → G2 = []) as Hend.
  { intros p G1 [|[b v] G2] Hg Hlt Hx; [done|]. apply links_app in Hg as (Hg & _). apply links_last in Hg. specialize (Hlt (b, v) ltac:(set_solver)). cbn in Hlt. lia. }
  assert (∀ p G1 G2, links m p (G1 ++ G2) B → (∀ c, c ∈ G2 → a < c.1) → s_next m (lastp p G1) = a → False) as Hafter.
  { intros p G1 [|[b v] G2] Hg Hlt Hx.
    - rewrite app_nil_r in Hg. apply links_last in Hg. blk.
    - apply links_app in Hg as (Hg & _). apply links_last in Hg. specialize (Hlt (b, v) ltac:(set_solver)). cbn in Hlt. lia. }
  rewrite fmap_app in Hq. apply elem_of_cons in Hq as [->|Hq].
  - by rewrite (Hend B [] Fa L1 Hlo Hn).
  - apply elem_of_app in Hq as [Hq|Hq].
    + apply nodes_split in Hq as (G1 & v & G2 & ->). rewrite cons_middle, app_assoc in *.
      rewrite (Hend B (G1 ++ [(q, v)]) G2 L1); [by rewrite app_nil_r, lastp_snoc|intros c Hc; apply Hlo; set_solver|by rewrite lastp_snoc].
    + exfalso. cbn [fmap list_fmap fst] in Hq. apply elem_of_cons in Hq as [->|Hq]; [by apply (Hafter a [] Fb)|].
      apply nodes_split in Hq as (G1 & v & G2 & ->). rewrite cons_middle, app_assoc in *.
      apply (Hafter a (G1 ++ [(q, v)]) G2 L3); [intros c Hc; apply Hhi; set_solver|by rewrite lastp_snoc].
Qed.

(** The block [(p, n)] leaves the free blocks for the ones in use. *)
Definition handed (h h' : heap) (F F' L : list (Z * Z)) (p n : Z) : Prop :=
  wf h' F' ((p, n) :: L) ∧ same_env h h' ∧ (∀ x, covered F x ↔ covered F' x ∨ inb (p, n) x) ∧ (∀ x, covered L x → mem h' x = mem h x) ∧
  (length F' ≤ length F)%nat.

(** The invariant after a step that changes memory, [freep] and the lists. *)
Lemma handed_wf h m' q F F' L p n :
  wf h F L → 2 ≤ n → links m' (base h) F' (base h) → s_units m' (base h) = 0 → sep (HB - 1) F' → q ∈ base h :: F'.*1 → s_units m' p = n →
  (∀ x, covered F x ↔ covered F' x ∨ inb (p, n) x) → (∀ x, inb (p, n) x → ¬ covered F' x) →
  (∀ x, ¬ in_header (base h) x → ¬ covered F x → m' x = mem h x) → (length F' ≤ length F)%nat →
  handed h (set_freep q (set_mem m' h)) F F' L p n.
Proof.
  intros Hw Hn Hl Hu Hs Hq Hp Hcov Hdis Hm Hlen. destruct Hw as [[HB0 HB8] Hbrk _ _ Hs0 Hin _ Hlive Hap Hdj Hoth].
  destruct (live_kept h m' F L Hm HB8 Hap ltac:(intros b Hb; by destruct (Hlive b Hb) as (? & ? & _))) as [Hk1 Hk2].
  assert (∀ x, covered F x → HB ≤ x < brk h) as Hrange.
  { intros x (b & Hb & Hx). destruct (sep_in _ _ _ Hs0 Hb). specialize (Hin b Hb). unfold inb in Hx. lia. }
  assert (HB ≤ p ∧ bend (p, n) ≤ brk h) as [Hp1 Hp2].
  { split; [apply (Hrange p), Hcov; right; unfold inb; blk|]. pose proof (Hrange (bend (p, n) - 1)) as Hr. enough (bend (p, n) - 1 < brk h) by lia.
    apply Hr, Hcov. right. unfold inb. blk. }
  unfold handed. split_and!; [|done|done|done|done]. constructor; try done; cbn [mem base brk freep others set_freep set_mem].
  - intros b Hb. destruct (sep_in _ _ _ Hs Hb). enough (bend b - 1 < brk h) by lia. apply Hrange, Hcov. left. exists b. split; [done|unfold inb; blk].
  - intros b Hb. apply elem_of_cons in Hb as [->|Hb]; [split_and!; done|]. rewrite Hk2 by done. by apply Hlive.
  - intros x Hx Hc. apply covered_cons in Hc as [Hc|Hc]; [by apply (Hdis x)|]. apply (Hap x); [|done]. apply Hcov. by left.
  - cbn [apart]. split; [|done]. intros x Hx. apply Hap, Hcov. by right.
Qed.

Lemma hand_out_spec h F L n q a u :
  wf h F L → 2 ≤ n → q ∈ base h :: F.*1 → (a, u) ∈ F → n ≤ u → s_next (mem h) q = a →
  ∃ p h' F', hand_out q a n h = (p + 8, h') ∧ handed h h' F F' L p n.
Proof.
  intros Hw Hn Hq Ha Hnu Hnext. pose proof (wf_links _ _ _ Hw) as Hl. pose proof (wf_sep _ _ _ Hw) as Hs. destruct (wf_base _ _ _ Hw) as [HB0 HB8].
  pose proof (wf_in _ _ _ Hw (a, u) Ha) as Hau. pose proof (wf_brk _ _ _ Hw) as Hbrk. pose proof (wf_units _ _ _ Hw) as HuB.
  apply list_elem_of_split in Ha as (Fa & Fb & EF). rewrite EF in Hl, Hs, Hq.
  pose proof (predecessor _ _ _ _ _ _ _ Hl Hs HB0 HB8 Hq Hnext) as Eq. apply links_app in Hl as (L1 & L2 & L3).
  pose proof (proj1 (sep_app _ _ _) Hs) as (S1 & S2 & S3 & S4). cbn [fst snd] in *. pose proof (sep_top _ _ S1) as St.
  assert (∀ c, c ∈ Fa → c.1 + 8 ≤ a ∧ HB ≤ c.1 ∧ bend c ≤ a) as Hlo.
  { intros c Hc. destruct (sep_in _ _ _ S1 Hc). pose proof (sep_below _ _ _ S1 Hc). blk. }
  assert (∀ c, c ∈ Fb → a + 8 * u < c.1) as Hhi by (intros c Hc; destruct (sep_in _ _ _ S4 Hc); blk).
  assert (∀ r, r ∈ Fb.*1 → a + 8 * u < r) as Hhi1 by (intros r Hr; apply list_elem_of_fmap in Hr as (c & -> & Hc); by apply Hhi).
  assert (∀ x v, 1 ≤ v → v ≤ u → inb (a + 8 * (u - v), v) x → ¬ covered (Fa ++ Fb) x) as Hdis.
  { intros x v Hv1 Hv2 Hx Hc. apply covered_app in Hc as [(c & Hc & Hx2)|(c & Hc & Hx2)]; unfold inb in *; [destruct (Hlo c Hc) as (? & ? & ?)|pose proof (Hhi c Hc)]; blk. }
  assert (∀ r, r ∈ base h :: Fa.*1 → r + 8 ≤ a) as Hlo1.
  { intros r Hr. apply elem_of_cons in Hr as [->|Hr]; [blk|]. apply list_elem_of_fmap in Hr as (c & -> & Hc). by destruct (Hlo c Hc) as (? & _). }
  unfold hand_out. rewrite L2. destruct (Z.eqb_spec u n) as [->|Hne].
  - exists a, (set_freep q (set_mem (set32 (mem h) q (s_next (mem h) a)) h)), (Fa ++ Fb). split; [by rewrite plus_small by blk; f_equal; lia|].
    pose proof (lastp_in (base h) Fa) as Hqin. rewrite <- Eq in Hqin. pose proof (Hlo1 q Hqin) as Hqa.
    assert (0 ≤ s_next (mem h) a < 4294967296) as Hr.
    { destruct Fb as [|[c w] Fb]; cbn [links] in L3; [rewrite L3; blk|]. destruct L3 as (-> & _).
      pose proof (wf_in _ _ _ Hw (c, w) ltac:(rewrite EF; set_solver)). pose proof (Hhi (c, w) ltac:(set_solver)). cbn [sep fst snd] in S4. blk. }
    apply handed_wf; try done.
    + assert (links (set32 (mem h) q (s_next (mem h) a)) (base h) Fa (s_next (mem h) a)) as Hla.
      { rewrite Eq. apply (links_redirect _ _ _ a _ HB); done. }
      destruct Fb as [|[c w] Fb]; cbn [links] in L3; [rewrite app_nil_r; rewrite L3 in *; done|]. destruct L3 as (L3 & L4 & L5).
      pose proof (Hhi1 c ltac:(set_solver)). apply links_app. split_and!; [by rewrite L3 in *|rewrite units_set_next by lia; done|].
      apply (links_frame (mem h)); [|done]. intros r x Hr2 Hx. apply set32_out. unfold in_header in Hx.
      assert (a + 8 * n < r) by (destruct Hr2 as [->|Hr2]; [done|apply Hhi1; set_solver]). lia.
    + rewrite units_set_next; [done|]. apply elem_of_cons in Hqin as [->|Hqin]; [by left|]. apply list_elem_of_fmap in Hqin as (c & -> & Hc).
      destruct (Hlo c Hc) as (_ & ? & _). lia.
    + apply sep_app. split; [done|]. apply sep_weaken with (bend (a, n)); [done|]. blk.
    + rewrite fmap_app. set_solver.
    + rewrite units_set_next by lia. done.
    + intros x. rewrite EF, !covered_app, covered_cons. tauto.
    + intros x Hx. apply (Hdis x n); [lia|lia|]. by replace (a + 8 * (n - n)) with a by lia.
    + intros x Hx Hc. apply set32_out. rewrite EF in Hc. unfold in_header in Hx. apply elem_of_cons in Hqin as [->|Hqin]; [lia|].
      apply list_elem_of_fmap in Hqin as (c & -> & Hc'). assert (¬ inb c x) as Hcx by (intros Hcx; apply Hc; exists c; split; [set_solver|done]).
      destruct (sep_in _ _ _ S1 Hc'). unfold inb in Hcx. blk.
    + rewrite EF, !length_app. cbn. lia.
  - rewrite units_set by blk. set (m1 := set32 (mem h) (a + 4) (u - n)). rewrite (plus_small a (u - n)) by blk. set (p := a + 8 * (u - n)).
    exists p, (set_freep q (set_mem (set32 m1 (p + 4) n) h)), (Fa ++ (a, u - n) :: Fb). split; [by rewrite plus_small by (unfold p; blk); f_equal; lia|].
    assert (∀ x, x < a + 4 ∨ a + 8 * u ≤ x → set32 m1 (p + 4) n x = mem h x) as Hm.
    { intros x Hx. unfold m1, p. rewrite !set32_out by lia. done. }
    apply handed_wf; try done.
    + apply links_app. split_and!.
      * apply (links_frame (mem h)); [|done]. intros r x Hr Hx. apply Hm. unfold in_header in Hx. left.
        pose proof (Hlo1 r ltac:(destruct Hr as [->|Hr]; set_solver)). lia.
      * rewrite units_set_ne by (unfold p; lia). apply units_set. blk.
      * apply (links_from (mem h) _ a); [done| |].
        -- apply get32_ext. intros x Hx. apply Hm. lia.
        -- intros r x Hr Hx. apply Hm. unfold in_header in Hx. pose proof (Hhi1 r Hr). lia.
    + rewrite <- HuB. apply get32_ext. intros x Hx. apply Hm. pose proof (Hlo1 (base h) ltac:(set_solver)). lia.
    + apply sep_app. split; [done|]. cbn [sep fst snd]. split_and!; [done|lia|]. apply sep_weaken with (bend (a, u)); [done|]. blk.
    + rewrite fmap_app in *. cbn [fmap list_fmap fst] in *. done.
    + apply units_set. blk.
    + intros x. rewrite EF, !covered_app, !covered_cons. unfold inb, bend, p. cbn [fst snd]. intuition lia.
    + intros x Hx Hc. rewrite covered_app, covered_cons in Hc. assert (covered (Fa ++ Fb) x ∨ inb (a, u - n) x) as [Hc'|Hc'] by (rewrite covered_app; tauto).
      * by apply (Hdis x n ltac:(lia) Hnu Hx).
      * unfold inb, p in *. blk.
    + intros x Hx Hc. apply Hm. assert (¬ inb (a, u) x) as Hax by (intros Hax; apply Hc; rewrite EF, covered_app, covered_cons; tauto).
      unfold inb in Hax. blk.
    + rewrite EF, !length_app. cbn. lia.
Qed.
End MallocAlloc.

(** * malloc, free, calloc and realloc

    The operations on a program's heap and the invariant over all the calls a
    program can make. *)

Module MallocTheorems.
Import Malloc MallocSpec MallocInv MallocAlloc.

(** A heap whose list, once set up, is [F], with the blocks [L] in use. *)
Definition valid (h : heap) (F L : list (Z * Z)) : Prop := wf (list_init h) F L.

Lemma list_init_wf h F L : wf h F L → list_init h = h.
Proof. intros Hw. unfold list_init. by rewrite (proj2 (Z.eqb_neq _ _) (wf_nonnull _ _ _ Hw)). Qed.

Lemma valid_wf h F L : wf h F L → valid h F L.
Proof. intros Hw. unfold valid. by rewrite (list_init_wf _ _ _ Hw). Qed.

(** A program that has not used the allocator yet. *)
Definition fresh (h : heap) : Prop :=
  freep h = 0 ∧ 0 < base h ∧ base h + 8 ≤ HB ∧ HB ≤ brk h ≤ HM ∧ Forall gap_ok (others h).

Lemma fresh_valid h : fresh h → valid h [] [].
Proof.
  intros (Hf & HB0 & HB8 & Hbrk & Ho). unfold valid, list_init. rewrite Hf. cbn [Z.eqb]. constructor; cbn [mem base freep brk others]; try done.
  - cbn [links]. rewrite next_set_units by lia. apply next_set. blk.
  - apply units_set. lia.
  - intros b Hb. by apply elem_of_nil in Hb.
  - set_solver.
  - intros b Hb. by apply elem_of_nil in Hb.
  - intros x Hx. by apply covered_nil in Hx.
Qed.

(** List set-up changes the header of the list only. *)
Lemma list_init_mem h F L : valid h F L → ∀ x, covered L x → mem (list_init h) x = mem h x.
Proof.
  intros Hw x (b & Hb & Hx). destruct (wf_base _ _ _ Hw) as [HB0 HB8]. destruct (wf_live _ _ _ Hw b Hb) as (_ & H2 & _).
  unfold list_init in *. destruct (freep h =? 0); [|done]. cbn [mem base] in *. rewrite !set32_out; [done|unfold inb in Hx; lia..].
Qed.

(** ** free *)

Lemma free_spec fuel h F L1 a u L2 :
  valid h F (L1 ++ (a, u) :: L2) → (length F + 2 ≤ fuel)%nat →
  ∃ h' F', free fuel (a + 8) h = Some h' ∧ wf h' F' (L1 ++ L2) ∧ (length F' ≤ S (length F))%nat ∧
    (∀ x, covered F' x ↔ covered F x ∨ inb (a, u) x) ∧ (∀ x, covered (L1 ++ L2) x → mem h' x = mem h x).
Proof.
  intros Hv Hfuel. pose proof Hv as [Hbase Hbrk Hl HuB Hs Hin Hfp Hlive Hap Hdj Hoth].
  apply apart_middle in Hdj as [Hd1 Hd2]. destruct (Hlive (a, u) ltac:(set_solver)) as (H1 & H2 & H3 & H4). cbn [fst snd] in *.
  assert (∀ x, covered (L1 ++ L2) x → covered (L1 ++ (a, u) :: L2) x) as Hsub by (intros x; rewrite !covered_app, covered_cons; tauto).
  assert (wf (list_init h) F (L1 ++ L2)) as Hw.
  { constructor; try done; [intros b Hb; apply Hlive; set_solver|intros x Hx Hc; apply (Hap x Hx), Hsub, Hc]. }
  destruct (free_core fuel (list_init h) F (L1 ++ L2) a u Hw) as (h' & F' & E & W & _ & _ & Hlen & Hcov & Hm); try done; [lia| |].
  { intros x Hx. split; [|by apply Hd1]. intros Hc. apply (Hap x Hc). rewrite covered_app, covered_cons. tauto. }
  exists h', F'. split_and!; try done.
  - unfold free in *. rewrite (proj2 (Z.eqb_neq (a + 8) 0)) in * by blk. by rewrite (list_init_wf _ _ _ Hw) in E.
  - intros x Hx. rewrite Hm by done. by apply (list_init_mem h F _ Hv), Hsub.
Qed.

(** ** malloc *)

Definition units_for (nbytes : Z) : Z := (nbytes + 7) / 8 + 1.

Lemma units_for_range nbytes : 0 < nbytes < 0x08000000 → 2 ≤ units_for nbytes ≤ 0x1000001 ∧ nbytes + 8 ≤ 8 * units_for nbytes < nbytes + 16.
Proof. unfold units_for. intros H. split; zdm. Qed.

(** The kernel's answer to morecore(). *)
Definition refused (n : Z) (h : heap) : Prop := (sbrk (Z.max n NALLOC * 8) h).1 = -1.

Lemma morecore_spec fuel n h F L :
  wf h F L → 2 ≤ n ≤ 0x1000001 → (length F + 2 ≤ fuel)%nat →
  ∃ p h', morecore fuel n h = Some (p, h') ∧ (∀ x, covered L x → mem h' x = mem h x) ∧
    ((p = 0 ∧ wf h' F L ∧ refused n h) ∨
     (p ≠ 0 ∧ p = freep h' ∧ ∃ F', wf h' F' L ∧ (length F' ≤ S (length F))%nat ∧ ∃ b, b ∈ F' ∧ n ≤ b.2)).
Proof.
  intros Hw Hn Hfuel. unfold morecore, HEADER, refused.
  replace (if n <? NALLOC then NALLOC else n) with (Z.max n NALLOC) by (unfold NALLOC; case_if; lia).
  set (N := Z.max n NALLOC). assert (1024 ≤ N ≤ 0x1000001 ∧ n ≤ N) as [HN HnN] by (unfold N, NALLOC; lia).
  rewrite (u32_small (N * 8)), (s32_id (N * 8)) by lia. pose proof Hw as [[HB0 HB8] Hbrk Hl HuB Hs Hin Hfp Hlive Hap Hdj Hoth].
  unfold sbrk. destruct (match others h with [] => (Some 0, []) | g :: rest => (g, rest) end) as [g rest] eqn:Eo.
  assert (gap_ok g ∧ Forall gap_ok rest) as [Hg Hrest].
  { destruct (others h) as [|g0 r0]; injection Eo as <- <-; [done|]. by apply Forall_cons in Hoth. }
  assert (∀ b, HB ≤ b → brk h ≤ b → b ≤ HM → wf (mk_heap (mem h) (base h) (freep h) b rest) F L) as Hgrow.
  { intros b Hb1 Hb2 Hb3. constructor; cbn [mem base freep brk others]; try done.
    - intros c Hc. specialize (Hin c Hc). lia.
    - intros c Hc. destruct (Hlive c Hc) as (? & ? & ? & ?). split_and!; try done. lia. }
  destruct g as [gap|].
  - cbn in Hg. set (old := Z.min (brk h + gap) USER_HEAP_MAX). assert (brk h ≤ old ≤ HM) as Hold by (unfold old; blk).
    destruct (old + N * 8 >? USER_HEAP_MAX) eqn:E; boolp.
    + cbn [Z.eqb Pos.eqb fst]. eexists 0, _. split; [done|]. split; [done|]. left. split_and!; [done|apply Hgrow; lia|done].
    + assert (old ≠ -1) as Hne by blk. rewrite (proj2 (Z.eqb_neq _ _) Hne). unfold set_mem at 1. cbn [mem base freep brk others].
      set (h1 := mk_heap (set32 (mem h) (old + 4) N) (base h) (freep h) (old + N * 8) rest).
      assert (∀ x, x < brk h → mem h1 x = mem h x) as Hm1 by (intros x Hx; apply set32_out; lia).
      assert (wf h1 F L) as Hw1.
      { destruct (Hgrow (old + N * 8) ltac:(lia) ltac:(lia) ltac:(blk)) as [? ? ? ? ? ? ? ? ? ? ?]. constructor; try done.
        - apply (links_frame (mem h)); [|done]. intros r x Hr Hx. apply Hm1. unfold in_header in Hx. destruct Hr as [->|Hr]; [cbn in Hx; lia|].
          apply list_elem_of_fmap in Hr as (b & -> & Hb). specialize (Hin b Hb). destruct (sep_in _ _ _ Hs Hb). blk.
        - rewrite <- HuB. apply get32_ext. intros x Hx. apply Hm1. cbn in Hx. lia.
        - intros b Hb. destruct (Hlive b Hb) as (B1 & B2 & B3 & B4). split_and!; [done|done|cbn; lia|]. rewrite <- B4. apply get32_ext.
          intros x Hx. apply Hm1. blk. }
      rewrite plus_small by blk. replace (old + 8 * 1) with (old + 8) by lia.
      destruct (free_core fuel h1 F L old N Hw1) as (h' & F' & -> & W & _ & (b & Hb & HbN) & Hlen & _ & Hm); try done; [lia|lia|cbn; lia|apply units_set; lia| |].
      { intros x Hx. unfold inb in Hx. split; intros (c & Hc & Hcx); unfold inb in Hcx; [specialize (Hin c Hc)|destruct (Hlive c Hc) as (_ & _ & ? & _)]; blk. }
      exists (freep h'), h'. split; [done|]. split.
      * intros x Hx. rewrite Hm by done. apply Hm1. destruct Hx as (c & Hc & Hx). destruct (Hlive c Hc) as (_ & _ & ? & _). unfold inb in Hx. lia.
      * right. split_and!; [by eapply wf_nonnull|done|]. exists F'. split_and!; try done. exists b. split; [done|lia].
  - cbn [Z.eqb Pos.eqb]. eexists 0, _. split; [done|]. split; [done|]. left. split_and!; [done|apply Hgrow; lia|done].
Qed.

(** The outcome of an allocation of [nbytes]: a block of its own, or none
    when no free block is big enough and the kernel gives no memory. *)
Definition allocated (nbytes : Z) (h : heap) (F L : list (Z * Z)) (p : Z) (h' : heap) : Prop :=
  let n := units_for nbytes in
  (∀ x, covered L x → mem h' x = mem h x) ∧
  ((p = 0 ∧ (∃ F', wf h' F' L) ∧ (∀ b, b ∈ F → b.2 < n) ∧ refused n (list_init h)) ∨
   (p ≠ 0 ∧ ∃ F', wf h' F' ((p - 8, n) :: L) ∧ (length F' ≤ S (length F))%nat)).

Lemma malloc_spec fuel nbytes h F L :
  valid h F L → 0 < nbytes < 0x08000000 → (2 * length F + 4 ≤ fuel)%nat →
  ∃ p h', malloc fuel nbytes h = Some (p, h') ∧ allocated nbytes h F L p h'.
Proof.
  intros Hv Hn Hfuel. destruct (units_for_range nbytes Hn) as [HU _]. unfold malloc. rewrite (proj2 (Z.eqb_neq _ _)) by lia.
  rewrite Z.geb_leb, (proj2 (Z.leb_gt _ _)) by lia. cbn [orb]. unfold HEADER. rewrite u32_small by lia.
  replace ((nbytes + 8 - 1) / 8 + 1) with (units_for nbytes) by (unfold units_for; do 2 f_equal; lia).
  pose proof (list_init_mem h F L Hv) as Hm0. unfold allocated, valid in *. set (n := units_for nbytes) in *. set (h0 := list_init h) in *. clearbody h0.
  assert (∀ h1 F1 k, wf h1 F1 L → (∃ b, b ∈ F1 ∧ n ≤ b.2) → (length F1 < k)%nat → (∀ x, covered L x → mem h1 x = mem h x) →
    ∃ p h', malloc_loop k (freep h1) (s_next (mem h1) (freep h1)) n h1 = Some (p, h') ∧
      (∀ x, covered L x → mem h' x = mem h x) ∧ p ≠ 0 ∧ ∃ F', wf h' F' ((p - 8, n) :: L) ∧ (length F' ≤ length F1)%nat) as Hfit.
  { intros h1 F1 k Hw1 Hfit Hk Hm1. destruct (search_fit h1 F1 L n k Hw1 ltac:(lia) Hfit Hk) as (q & a & u & -> & Hq & Ha & Hnu & Hnx).
    destruct (hand_out_spec h1 F1 L n q a u Hw1 ltac:(lia) Hq Ha Hnu Hnx) as (p & h' & F' & -> & W & _ & _ & Hm & Hl').
    exists (p + 8), h'. destruct (wf_live _ _ _ W (p, n) ltac:(set_solver)) as (_ & Hp & _). split_and!; [done| |blk|].
    - intros x Hx. rewrite Hm by done. by apply Hm1.
    - exists F'. by replace (p + 8 - 8) with p by lia. }
  destruct (first_fit n F) as [Hno|(F1 & b & F2 & EF & _ & Hb)].
  - replace fuel with (length F + S (fuel - S (length F)))%nat by lia. rewrite (search_full h0 F L) by (done || lia).
    destruct (morecore_spec (fuel - S (length F)) n h0 F L Hv HU ltac:(lia)) as (p & h1 & -> & Hm & Hcase). cbn [mbind option_bind].
    destruct Hcase as [(-> & W & Href)|(Hp & -> & F' & W & Hlen & Hbig)].
    + exists 0, h1. split; [done|]. split; [intros x Hx; rewrite Hm by done; by apply Hm0|]. left. split_and!; try done. by exists F.
    + rewrite (proj2 (Z.eqb_neq _ _) Hp). destruct (Hfit h1 F' (fuel - S (length F))%nat W Hbig ltac:(lia)) as (p & h' & -> & H1 & H2 & H3).
      { intros x Hx. rewrite Hm by done. by apply Hm0. }
      exists p, h'. split; [done|]. split; [done|]. right. split; [done|]. destruct H3 as (F2 & H3 & H4). exists F2. split; [done|lia].
  - destruct (Hfit h0 F fuel Hv) as (p & h' & -> & H1 & H2 & H3); [exists b; rewrite EF; split; [set_solver|done]|lia|done|].
    exists p, h'. split; [done|]. split; [done|]. right. split; [done|]. destruct H3 as (F3 & H3 & H4). exists F3. split; [done|lia].
Qed.

(** ** Payloads *)

(** The bytes of a block that belong to the program. *)
Definition payload (b : Z * Z) (x : Z) : Prop := b.1 + 8 ≤ x < bend b.

Lemma apart_eq L b c x : apart L → b ∈ L → c ∈ L → inb b x → inb c x → b = c.
Proof.
  induction L as [|d L IH]; intros Ha Hb Hc Hbx Hcx; [by apply elem_of_nil in Hb|]. destruct Ha as [Ha1 Ha2].
  apply elem_of_cons in Hb as [->|Hb]; apply elem_of_cons in Hc as [->|Hc]; [done| | |by apply IH].
  - exfalso. apply (Ha1 x Hbx). by exists c.
  - exfalso. apply (Ha1 x Hcx). by exists b.
Qed.

(** The program may write what it likes into its payloads. *)
Lemma payload_write h F L m' :
  wf h F L → (∀ x, (∀ b, b ∈ L → ¬ payload b x) → m' x = mem h x) → wf (set_mem m' h) F L.
Proof.
  intros [[HB0 HB8] Hbrk Hl HuB Hs Hin Hfp Hlive Hap Hdj Hoth] Hm.
  assert (∀ b x, b ∈ L → payload b x → inb b x ∧ HB ≤ x) as Hpay.
  { intros b x Hb Hx. destruct (Hlive b Hb) as (_ & ? & _). unfold payload, inb in *. blk. }
  assert (∀ x, x < HB → m' x = mem h x) as Hlow by (intros x Hx; apply Hm; intros b Hb Hp; destruct (Hpay b x Hb Hp); lia).
  constructor; cbn [mem base freep brk others set_mem]; try done.
  - apply (links_frame (mem h)); [|done]. intros r x Hr Hx. unfold in_header in Hx. destruct Hr as [->|Hr]; [apply Hlow; blk|].
    apply list_elem_of_fmap in Hr as (c & -> & Hc). apply Hm. intros b Hb Hp. apply (Hap x); [|exists b; split; [done|by apply Hpay]].
    exists c. split; [done|]. destruct (sep_in _ _ _ Hs Hc). unfold inb. blk.
  - rewrite <- HuB. apply get32_ext. intros x Hx. apply Hlow. blk.
  - intros b Hb. destruct (Hlive b Hb) as (B1 & B2 & B3 & B4). split_and!; try done. rewrite <- B4. apply get32_ext. intros x Hx. apply Hm. intros c Hc Hp.
    assert (b = c) as <-. { apply (apart_eq L _ _ x); try done; [unfold inb; blk|by apply Hpay]. } unfold payload in Hp. lia.
Qed.

(** ** calloc and realloc *)

Lemma malloc_reject fuel nbytes h : nbytes = 0 ∨ 0x08000000 ≤ nbytes → malloc fuel nbytes h = Some (0, h).
Proof.
  intros H. unfold malloc. destruct H as [->|H]; [done|]. rewrite Z.geb_leb, (proj2 (Z.leb_le _ _)) by lia. by rewrite orb_true_r.
Qed.

(** calloc gives memory for [nmemb * size] bytes, all of them zero, or a
    null pointer; the product is never cut to 32 bits, so that the memory is
    as large as was asked for. *)
Theorem calloc_zeroes fuel nmemb size h F L :
  valid h F L → 0 ≤ nmemb < 4294967296 → 0 ≤ size < 4294967296 → (2 * length F + 4 ≤ fuel)%nat →
  ∃ p h', calloc fuel nmemb size h = Some (p, h') ∧ (∀ x, covered L x → mem h' x = mem h x) ∧
    (p = 0 ∨ ∃ F', wf h' F' ((p - 8, units_for (nmemb * size)) :: L) ∧ ∀ i, 0 ≤ i < nmemb * size → mem h' (p + i) = 0).
Proof.
  intros Hv Hm Hs Hf. unfold calloc. destruct (negb (size =? 0) && (nmemb >? 4294967295 / size)) eqn:E; [exists 0, h; auto|].
  assert (nmemb * size < 4294967296) as Hlt.
  { apply andb_false_iff in E as [E|E]; boolp; [subst size; lia|]. destruct (decide (size = 0)) as [->|Hz]; [lia|].
    pose proof (Z.mul_div_le 4294967295 size ltac:(lia)). nia. }
  rewrite u32_small by nia. set (n := nmemb * size) in *. assert (0 ≤ n) as Hn0 by (unfold n; nia). clearbody n.
  destruct (decide (n = 0 ∨ 0x08000000 ≤ n)) as [Hrej|Hok].
  { rewrite malloc_reject by done. exists 0, h. cbn. auto. }
  destruct (malloc_spec fuel n h F L Hv ltac:(lia) Hf) as (p & h1 & -> & Hm1 & Hcase). cbn [mbind option_bind].
  destruct Hcase as [(-> & _)|(Hp & F' & W & _)]; [exists 0, h1; auto|]. rewrite (proj2 (Z.eqb_neq _ _) Hp). cbn [negb].
  destruct (units_for_range n ltac:(lia)) as [_ HU].
  eexists p, _. split; [done|]. cbn [mem set_mem]. split.
  - intros x Hx. rewrite <- Hm1 by done. unfold zero_bytes. apply decide_False. intros Hr. pose proof (wf_disj _ _ _ W) as [Hd _].
    apply (Hd x); [|done]. unfold inb. blk.
  - right. exists F'. split; [|intros i Hi; unfold zero_bytes; apply decide_True; lia]. apply payload_write; [done|]. intros x Hx.
    unfold zero_bytes. apply decide_False. intros Hr. apply (Hx (p - 8, units_for n)); [set_solver|]. unfold payload. blk.
Qed.

(** realloc of a block in use keeps its contents.  It gives back the same
    block when that is large enough; otherwise a new block with the old bytes
    at its beginning, the old one being free again; or a null pointer, and
    then the old block is still in use with its bytes.  All other blocks keep
    theirs. *)
Theorem realloc_keeps fuel nbytes h F L1 a u L2 :
  valid h F (L1 ++ (a, u) :: L2) → 0 < nbytes < 0x08000000 → (2 * length F + 8 ≤ fuel)%nat →
  ∃ p h', realloc fuel (a + 8) nbytes h = Some (p, h') ∧ (∀ x, covered (L1 ++ L2) x → mem h' x = mem h x) ∧
    ((p = a + 8 ∧ h' = h ∧ nbytes ≤ 8 * (u - 1)) ∨
     (p = 0 ∧ (∃ F', wf h' F' (L1 ++ (a, u) :: L2)) ∧ ∀ x, inb (a, u) x → mem h' x = mem h x) ∨
     (p ≠ 0 ∧ (∃ F', wf h' F' ((p - 8, units_for nbytes) :: L1 ++ L2)) ∧ ∀ i, 0 ≤ i < 8 * (u - 1) → mem h' (p + i) = mem h (a + 8 + i))).
Proof.
  intros Hv Hn Hf. destruct (wf_live _ _ _ Hv (a, u) ltac:(set_solver)) as (U1 & U2 & U3 & U4). cbn [fst snd] in *.
  pose proof (wf_brk _ _ _ Hv) as Hbrk. pose proof (list_init_mem h F _ Hv) as Hm0.
  assert (∀ x, inb (a, u) x → covered (L1 ++ (a, u) :: L2) x) as Hau by (intros x Hx; rewrite covered_app, covered_cons; tauto).
  assert (∀ x, covered (L1 ++ L2) x → covered (L1 ++ (a, u) :: L2) x) as Hsub by (intros x; rewrite !covered_app, covered_cons; tauto).
  assert (s_units (mem h) a = u) as Hua.
  { rewrite <- U4. symmetry. apply get32_ext. intros x Hx. apply Hm0, Hau. unfold inb. blk. }
  unfold realloc. rewrite (proj2 (Z.eqb_neq _ _)) by blk. rewrite (proj2 (Z.eqb_neq nbytes 0)) by lia. rewrite plus_small by blk.
  replace (a + 8 + 8 * -1) with a by lia. rewrite Hua. unfold HEADER. rewrite u32_small by blk.
  destruct (Z.geb_spec ((u - 1) * 8) nbytes) as [Hge|Hlt]; [exists (a + 8), h; split; [done|]; split; [done|]; left; lia || (split_and!; done || lia)|].
  destruct (malloc_spec fuel nbytes h F _ Hv Hn ltac:(lia)) as (p & h1 & -> & Hm1 & Hcase). cbn [mbind option_bind].
  destruct Hcase as [(-> & HF & _)|(Hp & F1 & W & HF1)].
  - exists 0, h1. split; [done|]. split; [intros x Hx; apply Hm1; auto|]. right. left. split_and!; [done|done|]. intros x Hx. apply Hm1. auto.
  - rewrite (proj2 (Z.eqb_neq _ _) Hp). destruct (units_for_range nbytes Hn) as [_ HU]. set (n := units_for nbytes) in *.
    pose proof (wf_disj _ _ _ W) as [Hd _].
    assert (∀ x, covered (L1 ++ (a, u) :: L2) x → copy_bytes (mem h1) p (a + 8) ((u - 1) * 8) x = mem h1 x) as Hcp.
    { intros x Hx. unfold copy_bytes. apply decide_False. intros Hr. apply (Hd x); [|done]. unfold inb. blk. }
    set (h2 := set_mem (copy_bytes (mem h1) p (a + 8) ((u - 1) * 8)) h1).
    assert (wf h2 F1 (((p - 8, n) :: L1) ++ (a, u) :: L2)) as W2.
    { apply payload_write; [done|]. intros x Hx. unfold copy_bytes. apply decide_False. intros Hr. apply (Hx (p - 8, n)); [set_solver|]. unfold payload. blk. }
    destruct (free_spec fuel h2 F1 ((p - 8, n) :: L1) a u L2 (valid_wf _ _ _ W2) ltac:(lia)) as (h3 & F3 & -> & W3 & _ & _ & Hm3).
    exists p, h3. split; [done|]. cbn [app] in *. split.
    + intros x Hx. rewrite Hm3 by (apply covered_cons; by right). cbn [mem h2 set_mem]. rewrite Hcp, Hm1; auto.
    + right. right. split_and!; [done|by exists F3|]. intros i Hi. rewrite Hm3; [|apply covered_cons; left; unfold inb; blk].
      cbn [mem h2 set_mem]. unfold copy_bytes. rewrite decide_True by lia. replace (a + 8 + (p + i - p)) with (a + 8 + i) by lia. apply Hm1, Hau. unfold inb. blk.
Qed.

(** ** All the calls of a program *)

Lemma find_place_mono k k' m bp p r : find_place k m bp p = Some r → (k ≤ k')%nat → find_place k' m bp p = Some r.
Proof.
  revert k' p. induction k as [|k IH]; intros k' p; [done|]. destruct k' as [|k']; [lia|]. rewrite !find_place_step. destruct (stop m bp p); [done|].
  intros H Hk. apply IH; [done|lia].
Qed.

Lemma free_mono k k' ap h r : free k ap h = Some r → (k ≤ k')%nat → free k' ap h = Some r.
Proof.
  unfold free. destruct (ap =? 0); [done|]. destruct (find_place k _ _ _) as [p|] eqn:E; [|done]. intros H Hk.
  by rewrite (find_place_mono _ _ _ _ _ _ E Hk).
Qed.

Lemma morecore_mono k k' n h r : morecore k n h = Some r → (k ≤ k')%nat → morecore k' n h = Some r.
Proof.
  unfold morecore. destruct (sbrk _ h) as [p h1]. destruct (p =? -1); [done|]. destruct (free k _ _) as [h2|] eqn:E; [|done]. intros H Hk.
  by rewrite (free_mono _ _ _ _ _ E Hk).
Qed.

Lemma malloc_loop_mono k k' q p n h r : malloc_loop k q p n h = Some r → (k ≤ k')%nat → malloc_loop k' q p n h = Some r.
Proof.
  revert k' q p h. induction k as [|k IH]; intros k' q p h; [done|]. destruct k' as [|k']; [lia|]. cbn [malloc_loop]. destruct (_ >=? n); [done|].
  intros H Hk. destruct (p =? freep h); [|apply IH; [done|lia]]. destruct (morecore k n h) as [[p1 h1]|] eqn:E; [|done].
  rewrite (morecore_mono _ k' _ _ _ E) by lia. cbn [mbind option_bind] in *. destruct (p1 =? 0); [done|]. apply IH; [done|lia].
Qed.

Lemma malloc_mono k k' n h r : malloc k n h = Some r → (k ≤ k')%nat → malloc k' n h = Some r.
Proof. unfold malloc. destruct (_ || _); [done|]. intros H Hk. by eapply malloc_loop_mono. Qed.

(** The heaps a program can get to: by malloc, by free of a block in use, and
    by writing into the payloads of its blocks; [L] are the blocks in use. *)
Inductive reach : heap → list (Z * Z) → Prop :=
  | r_start h : fresh h → reach h []
  | r_malloc fuel n h L p h' :
      reach h L → 0 < n < 0x08000000 → malloc fuel n h = Some (p, h') →
      reach h' (if p =? 0 then L else (p - 8, units_for n) :: L)
  | r_free fuel h L1 a u L2 h' :
      reach h (L1 ++ (a, u) :: L2) → free fuel (a + 8) h = Some h' → reach h' (L1 ++ L2)
  | r_write h L b x v : reach h L → b ∈ L → payload b x → reach (set_mem (set8 (mem h) x v) h) L.

Lemma reach_valid h L : reach h L → ∃ F, valid h F L.
Proof.
  induction 1 as [h Hf|fuel n h L p h' _ [F Hv] Hn Hm|fuel h L1 a u L2 h' _ [F Hv] Hf|h L b x v _ [F Hv] Hb Hx].
  - exists []. by apply fresh_valid.
  - destruct (malloc_spec (Nat.max fuel (2 * length F + 4)) n h F L Hv Hn ltac:(lia)) as (p1 & h1 & E & _ & Hcase).
    rewrite (malloc_mono _ _ _ _ _ Hm) in E by lia. injection E as <- <-. destruct Hcase as [(-> & [F' W] & _)|(Hp & F' & W & _)].
    + exists F'. by apply valid_wf.
    + rewrite (proj2 (Z.eqb_neq _ _) Hp). exists F'. by apply valid_wf.
  - destruct (free_spec (Nat.max fuel (length F + 2)) h F L1 a u L2 Hv ltac:(lia)) as (h1 & F' & E & W & _).
    rewrite (free_mono _ _ _ _ _ Hf) in E by lia. injection E as <-. exists F'. by apply valid_wf.
  - exists F. assert (∀ m y, y ≠ x → set8 m x v y = m y) as Hs8 by (intros m y Hy; unfold set8; by apply decide_False).
    assert (∀ y, (∀ c, c ∈ L → ¬ payload c y) → y ≠ x) as Hout by (intros y Hy ->; by apply (Hy b)).
    unfold valid, list_init in *. cbn [freep set_mem]. destruct (freep h =? 0) eqn:E0.
    + eapply (payload_write _ _ _ (set32 (set32 (set8 (mem h) x v) (base h) (base h)) (base h + 4) 0)) in Hv; [exact Hv|].
      intros y Hy. cbn [mem]. apply set32_same, set32_same. auto.
    + apply payload_write; auto.
Qed.


(** C12: malloc on any heap a program can get to ends; it returns a block with
    room for the request that overlaps no block in use, whose bytes all stay
    as they are, and it fails only when no free block is large enough and
    the kernel refuses to extend the heap. *)
Theorem malloc_correct h L n :
  reach h L → 0 < n < 0x08000000 →
  ∃ F N, valid h F L ∧ ∀ fuel, (N ≤ fuel)%nat →
    ∃ p h', malloc fuel n h = Some (p, h') ∧ (∀ x, covered L x → mem h' x = mem h x) ∧
      (p = 0 → (∀ b, b ∈ F → b.2 < units_for n) ∧ refused (units_for n) (list_init h)) ∧
      (p ≠ 0 → ∀ x, p - 8 ≤ x < p + n → HB ≤ x < brk h' ∧ ¬ covered L x).
Proof.
  intros Hr Hn. destruct (reach_valid h L Hr) as [F Hv]. exists F, (2 * length F + 4)%nat. split; [done|]. intros fuel Hf.
  destruct (malloc_spec fuel n h F L Hv Hn Hf) as (p & h' & E & Hm & Hcase). exists p, h'. split_and!; [done|done| |].
  - intros ->. by destruct Hcase as [(_ & _ & H1 & H2)|[H _]].
  - intros Hp x Hx. destruct Hcase as [[H _]|(_ & F' & W & _)]; [done|]. destruct (units_for_range n Hn) as [_ HU].
    destruct (wf_live _ _ _ W (p - 8, units_for n) ltac:(set_solver)) as (_ & H2 & H3 & _). destruct (wf_disj _ _ _ W) as [Hd _].
    split; [blk|]. apply Hd. unfold inb. blk.
Qed.

(** *** A program's first calls *)

Definition first_heap : heap := mk_heap (λ _, 0) 0x40002000 0 USER_HEAP_BASE [].

Lemma first_fresh : fresh first_heap.
Proof. unfold fresh, first_heap, HB, HM, USER_HEAP_BASE, USER_HEAP_MAX. cbn. split_and!; done || lia. Qed.

Lemma malloc_correct_witness :
  ∃ F N, valid first_heap F [] ∧ ∀ fuel, (N ≤ fuel)%nat →
    ∃ p h', malloc fuel 100 first_heap = Some (p, h') ∧ (∀ x, covered [] x → mem h' x = 0) ∧
      (p = 0 → (∀ b, b ∈ F → b.2 < units_for 100) ∧ refused (units_for 100) (list_init first_heap)) ∧
      (p ≠ 0 → ∀ x, p - 8 ≤ x < p + 100 → HB ≤ x < brk h' ∧ ¬ covered [] x).
Proof. apply (malloc_correct first_heap [] 100 (r_start _ first_fresh)). lia. Defined.

(** The heap after a first call of malloc. *)
Definition second_heap : heap := match malloc 4 100 first_heap with Some (_, h) => h | None => first_heap end.

Lemma second_reach : reach second_heap [(0x60002000 - 112, 14)].
Proof.
  assert (fst <$> malloc 4 100 first_heap = Some (0x60002000 - 104)) as Ep by (vm_compute; reflexivity). unfold second_heap.
  destruct (malloc 4 100 first_heap) as [[p h]|] eqn:E; [|discriminate Ep]. injection Ep as ->.
  exact (r_malloc 4 100 first_heap [] (0x60002000 - 104) h (r_start _ first_fresh) ltac:(lia) E).
Qed.


Lemma realloc_keeps_witness :
  ∃ fuel p h', realloc fuel (0x60002000 - 112 + 8) 500 second_heap = Some (p, h') ∧
    (∀ x, covered [] x → mem h' x = mem second_heap x) ∧
    ((p = 0x60002000 - 112 + 8 ∧ h' = second_heap ∧ 500 ≤ 8 * (14 - 1)) ∨
     (p = 0 ∧ (∃ F', wf h' F' [(0x60002000 - 112, 14)]) ∧ ∀ x, inb (0x60002000 - 112, 14) x → mem h' x = mem second_heap x) ∨
     (p ≠ 0 ∧ (∃ F', wf h' F' [(p - 8, units_for 500)]) ∧
      ∀ i, 0 ≤ i < 8 * (14 - 1) → mem h' (p + i) = mem second_heap (0x60002000 - 112 + 8 + i))).
Proof.
  destruct (reach_valid second_heap _ second_reach) as [F Hv]. exists (2 * length F + 8)%nat.
  apply (realloc_keeps (2 * length F + 8) 500 second_heap F [] (0x60002000 - 112) 14 [] Hv); lia.
Defined.
End MallocTheorems.
