(* ===== verification/ULibc.v ===== *)
(** * Strings and memory of user programs (user/libc/libc.c)

    Memory is a function from addresses to bytes.  The loops over terminated
    strings take fuel. *)

From S2P Require Import Prelude Malloc MallocTheorems.

Module ULibc.
Import Malloc MallocSpec MallocInv MallocTheorems.
Implicit Types m : memory.

(** ** Operations *)

Fixpoint memcpy (n : nat) m (d s : Z) : memory :=
  match n with O => m | S n' => memcpy n' (set8 m d (m s)) (d + 1) (s + 1) end.

(** [while (n--) *--d = *--s;]. *)
Fixpoint copy_down (n : nat) m (d s : Z) : memory :=
  match n with O => m | S n' => copy_down n' (set8 m (d - 1) (m (s - 1))) (d - 1) (s - 1) end.

Definition memmove (n : nat) m (dst src : Z) : memory :=
  if dst <? src then memcpy n m dst src else copy_down n m (dst + Z.of_nat n) (src + Z.of_nat n).

Fixpoint memset (n : nat) m (d c : Z) : memory :=
  match n with O => m | S n' => memset n' (set8 m d (u8 c)) (d + 1) c end.

Fixpoint memcmp (n : nat) m (x y : Z) : Z :=
  match n with
  | O => 0
  | S n' => if negb (m x =? m y) then (if m x <? m y then -1 else 1) else memcmp n' m (x + 1) (y + 1)
  end.

Fixpoint strlen_loop (fuel : nat) m (s n : Z) : option Z :=
  match fuel with
  | O => None
  | S k => if negb (m (s + n) =? 0) then strlen_loop k m s (u32 (n + 1)) else Some n
  end.
Definition strlen (fuel : nat) m (s : Z) : option Z := strlen_loop fuel m s 0.

Fixpoint strcpy (fuel : nat) m (d src : Z) : option memory :=
  match fuel with
  | O => None
  | S k => let m' := set8 m d (m src) in if m src =? 0 then Some m' else strcpy k m' (d + 1) (src + 1)
  end.

(** The copying loop of strncpy and strncat: memory, [d] and [n] after it. *)
Fixpoint copy_some (n : nat) m (d src : Z) : memory * Z * nat :=
  match n with
  | O => (m, d, O)
  | S n' => if m src =? 0 then (m, d, n) else copy_some n' (set8 m d (m src)) (d + 1) (src + 1)
  end.

Definition strncpy (n : nat) m (dst src : Z) : memory :=
  let '(m, d, n) := copy_some n m dst src in memset n m d 0.

Definition strcat (fuel : nat) m (dst src : Z) : option memory :=
  n ← strlen fuel m dst; strcpy fuel m (dst + n) src.

Definition strncat (fuel : nat) m (dst src : Z) (n : nat) : option memory :=
  len ← strlen fuel m dst;
  let '(m, d, _) := copy_some n m (dst + len) src in Some (set8 m d 0).

Fixpoint strcmp (fuel : nat) m (x y : Z) : option Z :=
  match fuel with
  | O => None
  | S k => if negb (m x =? 0) && (m x =? m y) then strcmp k m (x + 1) (y + 1) else Some (m x - m y)
  end.

Fixpoint strncmp (n : nat) m (x y : Z) : Z :=
  match n with
  | O => 0
  | S n' => if negb (m x =? m y) || (m x =? 0) then m x - m y else strncmp n' m (x + 1) (y + 1)
  end.

(** [0] is the null pointer. *)
Fixpoint strchr (fuel : nat) m (s c : Z) : option Z :=
  match fuel with
  | O => None
  | S k => if m s =? u8 c then Some s else if m s =? 0 then Some 0 else strchr k m (s + 1) c
  end.

Fixpoint strrchr_loop (fuel : nat) m (s c last : Z) : option Z :=
  match fuel with
  | O => None
  | S k => let last := if m s =? u8 c then s else last in
           if m s =? 0 then Some last else strrchr_loop k m (s + 1) c last
  end.
Definition strrchr (fuel : nat) m (s c : Z) : option Z := strrchr_loop fuel m s c 0.

Fixpoint strstr_loop (fuel : nat) m (hay needle : Z) (n : nat) : option Z :=
  match fuel with
  | O => None
  | S k => if m hay =? 0 then Some 0
           else if (m hay =? m needle) && (memcmp n m hay needle =? 0) then Some hay
           else strstr_loop k m (hay + 1) needle n
  end.

Definition strstr (fuel : nat) m (hay needle : Z) : option Z :=
  n ← strlen fuel m needle;
  if n =? 0 then Some hay else strstr_loop fuel m hay needle (Z.to_nat n).

Definition strdup (fuel : nat) (s : Z) (h : heap) : option (Z * heap) :=
  n ← strlen fuel (mem h) s;
  let n := u32 (n + 1) in
  '(d, h) ← malloc fuel n h;
  Some (if negb (d =? 0) then (d, set_mem (memcpy (Z.to_nat n) (mem h) d s) h) else (d, h)).

(** ** Copying *)

(** [m'] is [m] with the [n] bytes from [s] on copied, as they were, to [d]. *)
Definition copied m m' (d s n : Z) : Prop := ∀ x, m' x = if decide (d ≤ x < d + n) then m (s + (x - d)) else m x.

(** Upwards is right when the destination is below or apart. *)
Lemma memcpy_copied n m d s : d < s ∨ s + Z.of_nat n ≤ d ∨ d = s → copied m (memcpy n m d s) d s (Z.of_nat n).
Proof.
  revert m d s. induction n as [|n IH]; intros m d s Hds x; cbn [memcpy]; [by rewrite decide_False by lia|].
  rewrite IH by lia. unfold set8. destruct (decide (d + 1 ≤ x < d + 1 + Z.of_nat n)) as [Hx|Hx].
  - rewrite (decide_True (P := d ≤ x < d + Z.of_nat (S n))) by lia. replace (s + 1 + (x - (d + 1))) with (s + (x - d)) by lia.
    destruct (decide (s + (x - d) = d)) as [Ed|]; [|done]. destruct Hds as [H|[H|H]]; [lia|lia|]. subst s. lia.
  - destruct (decide (x = d)) as [->|Hne].
    + rewrite (decide_True (P := d ≤ d < d + Z.of_nat (S n))) by lia. f_equal. lia.
    + by rewrite (decide_False (P := d ≤ x < d + Z.of_nat (S n))) by lia.
Qed.

(** Downwards when it is above. *)
Lemma copy_down_copied n m d s :
  s ≤ d → copied m (copy_down n m (d + Z.of_nat n) (s + Z.of_nat n)) d s (Z.of_nat n).
Proof.
  intros Hds. revert m. induction n as [|n IH]; intros m x; cbn [copy_down]; [by rewrite decide_False by lia|].
  replace (d + Z.of_nat (S n) - 1) with (d + Z.of_nat n) by lia. replace (s + Z.of_nat (S n) - 1) with (s + Z.of_nat n) by lia. rewrite IH. unfold set8.
  destruct (decide (d ≤ x < d + Z.of_nat n)) as [Hx|Hx].
  - rewrite (decide_True (P := d ≤ x < d + Z.of_nat (S n))) by lia. by rewrite decide_False by lia.
  - destruct (decide (x = d + Z.of_nat n)) as [->|Hne].
    + rewrite (decide_True (P := d ≤ _ < d + Z.of_nat (S n))) by lia. f_equal. lia.
    + by rewrite (decide_False (P := d ≤ x < d + Z.of_nat (S n))) by lia.
Qed.

(** memmove copies correctly however the two areas overlap: the
    destination gets the bytes the source had before the call, and nothing
    else changes. *)
Theorem memmove_copied n m dst src : copied m (memmove n m dst src) dst src (Z.of_nat n).
Proof. unfold memmove. case_if; [apply memcpy_copied; lia|apply copy_down_copied; lia]. Qed.

(** ** Strings *)

(** The string [l] at [p]: no NUL inside, one behind it. *)
Fixpoint str m (p : Z) (l : list Z) : Prop :=
  match l with [] => m p = 0 | c :: l' => c ≠ 0 ∧ m p = c ∧ str m (p + 1) l' end.

Lemma str_ext m m' p l : str m p l → (∀ x, p ≤ x ≤ p + zlength l → m' x = m x) → str m' p l.
Proof.
  revert p. induction l as [|c l IH]; intros p; cbn [str]; [intros H E; rewrite E; [done|unfold zlength; cbn; lia]|].
  rewrite zlength_cons. pose proof (zlength_nonneg l). intros (H1 & H2 & H3) E. split_and!; [done|rewrite E; [done|lia]|].
  apply IH; [done|]. intros x Hx. apply E. lia.
Qed.

Lemma strlen_loop_spec m s l n fuel :
  str m (s + n) l → 0 ≤ n → n + zlength l < 4294967296 → (length l < fuel)%nat → strlen_loop fuel m s n = Some (n + zlength l).
Proof.
  revert n fuel. induction l as [|c l IH]; intros n fuel Hs Hn Hl Hf; (destruct fuel as [|fuel]; [lia|]); cbn [strlen_loop str] in *.
  - rewrite Hs. cbn. unfold zlength. cbn. by rewrite Z.add_0_r.
  - destruct Hs as (H1 & H2 & H3). rewrite zlength_cons in *. pose proof (zlength_nonneg l). rewrite H2, (proj2 (Z.eqb_neq _ _) H1). cbn [negb].
    rewrite u32_small by lia. rewrite IH; [f_equal; lia|by rewrite Z.add_assoc|lia|lia|cbn in Hf; lia].
Qed.

Lemma strlen_spec m s l fuel : str m s l → zlength l < 4294967296 → (length l < fuel)%nat → strlen fuel m s = Some (zlength l).
Proof. intros. unfold strlen. rewrite (strlen_loop_spec m s l 0) by (rewrite ?Z.add_0_r; done || lia). done. Qed.

Lemma str_copied m m' d s l : str m s l → copied m m' d s (zlength l + 1) → str m' d l.
Proof.
  revert d s. assert (∀ d0 s0 d s, copied m m' d0 s0 (zlength l + 1 + (d - d0)) → d - d0 = s - s0 → d0 ≤ d → str m s l → str m' d l) as H.
  { induction l as [|c l IH]; intros d0 s0 d s Hc Hd Hle; cbn [str].
    - intros E. rewrite Hc, decide_True by (unfold zlength; cbn; lia). rewrite <- E. f_equal. lia.
    - rewrite zlength_cons in Hc. pose proof (zlength_nonneg l). intros (H1 & H2 & H3). split_and!; [done| |].
      + rewrite Hc, decide_True by lia. rewrite <- H2. f_equal. lia.
      + apply (IH d0 s0 (d + 1) (s + 1)); [|lia|lia|done]. by replace (zlength l + 1 + (d + 1 - d0)) with (1 + zlength l + 1 + (d - d0)) by lia. }
  intros d s Hs Hc. apply (H d s d s); [|lia|lia|done]. by replace (zlength l + 1 + (d - d)) with (zlength l + 1) by lia.
Qed.

(** The comparison functions agree with the order of the strings as lists of
    unsigned characters. *)
Fixpoint compare (l1 l2 : list Z) : Z :=
  match l1, l2 with
  | [], [] => 0
  | [], c :: _ => - c
  | c :: _, [] => c
  | c :: l1', d :: l2' => if c =? d then compare l1' l2' else c - d
  end.

Lemma strcmp_spec m x y l1 l2 fuel : str m x l1 → str m y l2 → (length l1 < fuel)%nat → strcmp fuel m x y = Some (compare l1 l2).
Proof.
  revert x y l2 fuel. induction l1 as [|c l1 IH]; intros x y l2 fuel H1 H2 Hf; (destruct fuel as [|fuel]; [lia|]); cbn [strcmp str length] in *.
  - rewrite H1. cbn. destruct l2 as [|d l2]; cbn [str] in H2; [by rewrite H2|]. by destruct H2 as (_ & -> & _).
  - destruct H1 as (C1 & C2 & C3). rewrite C2, (proj2 (Z.eqb_neq _ _) C1). cbn [negb andb]. destruct l2 as [|d l2]; cbn [str] in H2.
    + rewrite H2, (proj2 (Z.eqb_neq _ _) C1). cbn. f_equal. lia.
    + destruct H2 as (D1 & D2 & D3). rewrite D2. cbn [compare]. destruct (c =? d); [|done]. apply IH; [done|done|lia].
Qed.

(** *** Searching *)

(** Bytes are compared until they differ, so that a haystack shorter than the
    needle is never read past its NUL. *)
Lemma memcmp_prefix m x y hay needle :
  str m x hay → str m y needle → memcmp (length needle) m x y = 0 ↔ needle `prefix_of` hay.
Proof.
  revert x y hay. induction needle as [|c needle IH]; intros x y hay Hx Hy; cbn [memcmp length str] in *.
  - split; [intros _; apply prefix_nil|done].
  - destruct Hy as (C1 & C2 & C3). rewrite C2. destruct hay as [|d hay]; cbn [str] in Hx.
    + rewrite Hx, (proj2 (Z.eqb_neq 0 c)) by lia. cbn [negb]. split; [case_if; lia|]. intros [k Hk]. done.
    + destruct Hx as (D1 & D2 & D3). rewrite D2. destruct (Z.eqb_spec d c) as [->|Hne]; cbn [negb].
      * rewrite (IH _ _ _ D3 C3). split; [apply prefix_cons|apply prefix_cons_inv_2].
      * split; [case_if; lia|]. intros Hp. apply prefix_cons_inv_1 in Hp. congruence.
Qed.

(** The first suffix that has the needle as a prefix. *)
Fixpoint occurs (hay needle : list Z) : option nat :=
  if decide (needle `prefix_of` hay) then Some O
  else match hay with [] => None | _ :: hay' => S <$> occurs hay' needle end.

Lemma strstr_loop_spec m p q hay needle fuel :
  str m p hay → str m q needle → needle ≠ [] → (length hay < fuel)%nat →
  strstr_loop fuel m p q (length needle) = Some (match occurs hay needle with Some i => p + Z.of_nat i | None => 0 end).
Proof.
  intros Hp Hq Hne. revert p fuel Hp. induction hay as [|c hay IH]; intros p fuel Hp Hf; (destruct fuel as [|fuel]; [cbn in Hf; lia|]); cbn [strstr_loop].
  - cbn [str] in Hp. rewrite Hp. cbn. rewrite decide_False; [done|]. intros H. by apply prefix_nil_inv in H.
  - pose proof (memcmp_prefix m p q (c :: hay) needle Hp Hq) as Hc. cbn [str] in Hp. destruct Hp as (C1 & C2 & C3). rewrite C2 at 1.
    rewrite (proj2 (Z.eqb_neq _ _) C1). cbn [occurs]. destruct (decide (needle `prefix_of` c :: hay)) as [Hpre|Hpre].
    + assert (m p = m q) as Epq.
      { destruct needle as [|d needle]; [done|]. cbn [str] in Hq. destruct Hq as (_ & -> & _). apply prefix_cons_inv_1 in Hpre. congruence. }
      rewrite Epq, Z.eqb_refl, (proj2 (Z.eqb_eq _ _) (proj2 Hc Hpre)). cbn. f_equal. lia.
    + assert (memcmp (length needle) m p q ≠ 0) as Hn by (intros E; by apply Hpre, Hc). rewrite (proj2 (Z.eqb_neq _ _) Hn), andb_false_r.
      rewrite IH by (done || cbn in Hf; lia). f_equal. destruct (occurs hay needle); cbn; lia.
Qed.

(** strstr finds the first occurrence: its result is the address of the
    first suffix of the haystack that starts with the needle, the haystack
    itself when the needle is empty, and null when there is none. *)
Theorem strstr_first m p q hay needle fuel :
  str m p hay → str m q needle → zlength needle < 4294967296 → (length hay < fuel)%nat → (length needle < fuel)%nat →
  strstr fuel m p q = Some (match occurs hay needle with Some i => p + Z.of_nat i | None => 0 end).
Proof.
  intros Hp Hq Hl Hf1 Hf2. unfold strstr. rewrite (strlen_spec m q needle) by done. cbn [mbind option_bind]. destruct needle as [|c needle].
  - cbn. destruct hay; cbn; (rewrite decide_True by apply prefix_nil); f_equal; lia.
  - rewrite (proj2 (Z.eqb_neq _ _)) by (rewrite zlength_cons; pose proof (zlength_nonneg needle); lia).
    unfold zlength. rewrite Nat2Z.id. by apply strstr_loop_spec.
Qed.

(** ** strdup *)

(** strdup gives a copy in a block of its own: a string in the memory of
    the program that lies outside the free blocks is copied with its NUL, the
    original and all blocks in use keep their bytes, and the result is null
    only when malloc's is. *)
Theorem strdup_copies fuel s l h F L :
  valid h F L → str (mem h) s l → zlength l + 1 < 0x08000000 → (∀ x, s ≤ x ≤ s + zlength l → covered L x) →
  (2 * length F + 4 ≤ fuel)%nat → (length l < fuel)%nat →
  ∃ d h', strdup fuel s h = Some (d, h') ∧ (∀ x, covered L x → mem h' x = mem h x) ∧
    (d = 0 ∨ ∃ F', wf h' F' ((d - 8, units_for (zlength l + 1)) :: L) ∧ str (mem h') d l).
Proof.
  intros Hv Hs Hl Hin Hf1 Hf2. pose proof (zlength_nonneg l) as Hl0. unfold strdup. rewrite (strlen_spec _ _ _ _ Hs) by (done || lia).
  cbn [mbind option_bind]. rewrite u32_small by lia. set (n := zlength l + 1) in *.
  destruct (malloc_spec fuel n h F L Hv ltac:(lia) Hf1) as (d & h1 & -> & Hm & Hcase). cbn [mbind option_bind].
  destruct Hcase as [(-> & _)|(Hd & F' & W & _)]; [exists 0, h1; auto|]. rewrite (proj2 (Z.eqb_neq _ _) Hd). cbn [negb].
  destruct (units_for_range n ltac:(lia)) as [_ HU]. destruct (wf_disj _ _ _ W) as [Hdis _].
  assert (copied (mem h1) (memcpy (Z.to_nat n) (mem h1) d s) d s n) as Hc.
  { rewrite <- (Z2Nat.id n) at 2 by lia. apply memcpy_copied. rewrite Z2Nat.id by lia.
    destruct (decide (d < s ∨ s + n ≤ d)); [tauto|]. exfalso. apply (Hdis d); [unfold inb; blk|]. apply Hin. lia. }
  eexists d, _. split; [done|]. cbn [mem set_mem]. split.
  - intros x Hx. rewrite <- Hm by done. rewrite Hc. apply decide_False. intros Hr. apply (Hdis x); [unfold inb; blk|done].
  - right. exists F'. split.
    + apply payload_write; [done|]. intros x Hx. rewrite Hc. apply decide_False. intros Hr. apply (Hx (d - 8, units_for n)); [set_solver|]. unfold payload. blk.
    + apply (str_copied (mem h1) _ d s l); [|done]. apply (str_ext (mem h)); [done|]. intros x Hx. by apply Hm, Hin.
Qed.
End ULibc.
