(* ===== verification/Shell.v ===== *)
(** * The shell (user/sh.c)

    Command lines, pipelines and the descriptors they use.  The kernel is
    behind the class [Kernel]: the system calls, and what they do to the
    shell's descriptors.  What the shell does is also recorded as a list of
    events. *)

From Stdlib Require Import String Ascii.
From Stdlib Require Import String.
From S2P Require Import Prelude.

Module Shell.

Definition MAX_ARGS : Z := 8.
Definition MAX_STAGES : Z := 4.

(** Strings as lists of characters. *)
Notation text := (list Z).
Definition txt (s : string) : text := (λ a, Z.of_nat (nat_of_ascii a)) <$> list_ascii_of_string s.

(** ** Words *)

Fixpoint streq (a b : text) : bool :=
  match a, b with
  | c :: a', d :: b' => if negb (c =? d) then false else streq a' b'
  | [], [] => true
  | _, _ => false
  end.

Fixpoint skip_blanks (s : text) : text :=
  match s with c :: s' => if c =? 32 then skip_blanks s' else s | [] => [] end.

(** A word and what is behind it, from the blank on. *)
Fixpoint word (s : text) : text * text :=
  match s with
  | [] => ([], [])
  | c :: s' => if c =? 32 then ([], s) else let '(w, r) := word s' in (c :: w, r)
  end.

(** At most [n] words.  A blank behind a word is only overwritten when the
    next word is looked for: the last of [n] words keeps the rest of the
    line. *)
Fixpoint split_words (n : nat) (s : text) : list text :=
  match n with
  | O => []
  | S n' =>
      match skip_blanks s with
      | [] => []
      | s => match n' with O => [s] | _ => let '(w, r) := word s in w :: split_words n' r end
      end
  end.

Definition lt_sign : text := [60].
Definition gt_sign : text := [62].

(** The arguments and the two redirections, or an error code. *)
Record stage := mk_stage { argv : list text; infile : option text; outfile : option text }.

Definition operator (w : option text) : bool :=
  match w with None => true | Some w => streq w lt_sign || streq w gt_sign end.

Fixpoint parse_words (words : list text) (st : stage) : stage + Z :=
  match words with
  | [] => inl st
  | w :: ws =>
      if streq w lt_sign then
        match ws with
        | f :: ws' => if operator (Some f) then inr (-1) else parse_words ws' (mk_stage (argv st) (Some f) (outfile st))
        | [] => inr (-1)
        end
      else if streq w gt_sign then
        match ws with
        | f :: ws' =>
            if operator (Some f) then inr (-2)
            else if outfile st is Some _ then inr (-3)
            else parse_words ws' (mk_stage (argv st) (infile st) (Some f))
        | [] => inr (-2)
        end
      else if zlength (argv st) <? MAX_ARGS then parse_words ws (mk_stage (argv st ++ [w]) (infile st) (outfile st))
      else parse_words ws st
  end.

Definition parse_stage (s : text) : stage + Z := parse_words (split_words 12 s) (mk_stage [] None None).

(** The line cut at each bar; [None] when there are too many. *)
Fixpoint split_stages (nstages : Z) (cur line : text) : option (list text) :=
  match line with
  | [] => Some [cur]
  | c :: line' =>
      if c =? 124 then
        if nstages =? MAX_STAGES then None else cons cur <$> split_stages (nstages + 1) [] line'
      else split_stages nstages (cur ++ [c]) line'
  end.

(** ** The kernel *)

Definition O_CREATE : Z := 4.
Definition O_TRUNC : Z := 8.
Definition O_WRONLY : Z := 1.

Class Kernel (K : Type) := {
  sys_open : text → ST K Z;
  sys_openmode : text → Z → ST K Z;
  sys_close : Z → ST K Z;
  (** the result and the two descriptors *)
  sys_pipe : ST K (Z * Z * Z);
  sys_exec2 : text → list text → Z → Z → Z → ST K Z;
  sys_wait : Z → ST K Z;
  sys_readdir : Z → ST K (option text);
  sys_clear : ST K unit;
  (** the descriptors of the shell that are open *)
  fds : K → gset Z;
}.

Inductive event := Put (t : text) | Spawn (st : list text) (fd_in fd_out pid : Z) | Waited (pid status : Z).

Record sh (K : Type) := mk_sh { kern : K; trace : list event }.
Arguments mk_sh {K}.
Arguments kern {K}.
Arguments trace {K}.

Section shell.
Context {K : Type} `{Kernel K}.

Definition sys {A} (c : ST K A) : ST (sh K) A := λ s, let '(a, k) := c (kern s) in (a, mk_sh k (trace s)).
Definition note (e : event) : ST (sh K) unit := λ s, (tt, mk_sh (kern s) (trace s ++ [e])).
Definition put (t : text) : ST (sh K) unit := note (Put t).

(** [if (fd >= 0) close(fd);]. *)
Definition close_if (fd : Z) : ST (sh K) unit :=
  if fd >=? 0 then _ ← sys (sys_close fd); mret tt else mret tt.

Definition put_line (a b : text) : ST (sh K) unit := _ ← put a; _ ← put b; put [10].

(** What an error code of parse_stage(), or an argument count of 0, says. *)
Definition complaint (argc : Z) : text :=
  (if argc =? 0 then txt "nsh: empty pipeline stage"
   else if argc =? -1 then txt "nsh: '<' needs a filename"
   else if argc =? -2 then txt "nsh: '>' needs a filename"
   else txt "nsh: duplicate '>'") ++ [10].

(** The outcome of a stage: the loop ends, or goes on with a new process;
    and [prevr] after it. *)
Inductive outcome := Broken (prevr : Z) | Spawned (pid prevr : Z).

(** The standard input: a file wins over the pipe. *)
Definition stage_input (inf : option text) (in_ : Z) : ST (sh K) (option Z) :=
  match inf with
  | None => mret (Some in_)
  | Some f =>
      ffd ← sys (sys_open f);
      if ffd <? 0 then _ ← put_line (txt "nsh: cannot open ") f; _ ← close_if in_; mret None
      else _ ← close_if in_; mret (Some ffd)
  end.

(** The pipe to the next stage: its two ends, -1 when this is the last. *)
Definition stage_pipe (last : bool) (in_ : Z) : ST (sh K) (option (Z * Z)) :=
  if last then mret (Some (-1, -1)) else
  '(r, p0, p1) ← sys sys_pipe;
  if r <? 0 then _ ← put (txt "nsh: out of fds" ++ [10]); _ ← close_if in_; mret None else mret (Some (p0, p1)).

Definition stage_output (outf : option text) (in_ p0 p1 : Z) : ST (sh K) (option Z) :=
  match outf with
  | None => mret (Some (if p1 >=? 0 then p1 else -1))
  | Some f =>
      out ← sys (sys_openmode f (Z.lor (Z.lor O_CREATE O_TRUNC) O_WRONLY));
      if out <? 0 then
        _ ← put_line (txt "nsh: cannot create ") f;
        _ ← close_if in_; _ ← close_if p0; _ ← close_if p1; mret None
      else mret (Some out)
  end.

(** One round of the loop over the stages. *)
Definition run_stage (last : bool) (prevr : Z) (s : text) : ST (sh K) outcome :=
  match parse_stage s with
  | inr code => _ ← put (complaint code); mret (Broken prevr)
  | inl st =>
      match argv st with
      | [] => _ ← put (complaint 0); mret (Broken prevr)
      | cmd :: _ =>
          in_ ← stage_input (infile st) prevr;
          match in_ with None => mret (Broken (-1)) | Some in_ =>
          p ← stage_pipe last in_;
          match p with None => mret (Broken (-1)) | Some (p0, p1) =>
          out ← stage_output (outfile st) in_ p0 p1;
          match out with None => mret (Broken (-1)) | Some out =>
          pid ← sys (sys_exec2 cmd (argv st) in_ out (-1));
          _ ← note (Spawn (argv st) in_ out pid);
          _ ← close_if in_;
          _ ← (if (out >=? 0) && negb (out =? p1) then close_if out else mret tt);
          _ ← close_if p1;
          if pid <? 0 then _ ← put_line (txt "unknown command: ") cmd; mret (Broken p0)
          else mret (Spawned pid p0)
          end end end
      end
  end.

(** The loop: the processes started, in order, and [prevr]. *)
Fixpoint run_stages (stages : list text) (prevr : Z) : ST (sh K) (list Z * Z) :=
  match stages with
  | [] => mret ([], prevr)
  | s :: rest =>
      o ← run_stage (match rest with [] => true | _ => false end) prevr s;
      match o with
      | Broken prevr => mret ([], prevr)
      | Spawned pid prevr => '(pids, prevr) ← run_stages rest prevr; mret (pid :: pids, prevr)
      end
  end.

(** The digits of [u], most significant first. *)
Fixpoint digits (fuel : nat) (u : Z) (tmp : list Z) : list Z :=
  match fuel with
  | O => tmp
  | S n => let tmp := (48 + u mod 10) :: tmp in if u / 10 =? 0 then tmp else digits n (u / 10) tmp
  end.

Fixpoint putch_all (l : list Z) : ST (sh K) unit :=
  match l with [] => mret tt | c :: l' => _ ← put [c]; putch_all l' end.

Definition puti (v : Z) : ST (sh K) unit :=
  putch_all ((if v <? 0 then [45] else []) ++ digits 12 (if v <? 0 then u32 (- v) else v) []).

Fixpoint wait_all (pids : list Z) : ST (sh K) unit :=
  match pids with
  | [] => mret tt
  | pid :: rest =>
      status ← sys (sys_wait pid);
      _ ← note (Waited pid status);
      _ ← (if negb (status =? 0) then _ ← put (txt "[exit status "); _ ← puti status; put (txt "]" ++ [10]) else mret tt);
      wait_all rest
  end.

Definition run_pipeline (line : text) : ST (sh K) unit :=
  match split_stages 1 [] line with
  | None => put (txt "nsh: too many pipeline stages" ++ [10])
  | Some stages =>
      '(pids, prevr) ← run_stages stages (-1);
      _ ← close_if prevr;
      wait_all pids
  end.

(** ** Command lines *)

(** Is the first word of the line exactly [w]? *)
Fixpoint firstword (line w : text) : bool :=
  match w, line with
  | [], [] => true
  | [], c :: _ => c =? 32
  | d :: w', c :: line' => if c =? d then firstword line' w' else false
  | _ :: _, [] => false
  end.

(** The listing, while the kernel has names. *)
Fixpoint cmd_ls (fuel : nat) (i : Z) : ST (sh K) unit :=
  match fuel with
  | O => mret tt
  | S n =>
      name ← sys (sys_readdir i);
      match name with
      | None => mret tt
      | Some name => _ ← put name; _ ← put [10]; cmd_ls n (i + 1)
      end
  end.

(** [true] when the shell exits. *)
Definition run (fuel : nat) (line : text) : ST (sh K) bool :=
  let line := skip_blanks line in
  match line with
  | [] => mret false
  | _ =>
      if firstword line (txt "help") then
        _ ← put (txt "builtins: help  ls  clear  exit" ++ [10]);
        _ ← put (txt "anything else runs initrd programs, with | < > plumbing" ++ [10]);
        _ ← put (txt "(try: cat symtable | upper, or echo hi > disk/out)" ++ [10]);
        mret false
      else if firstword line (txt "ls") then _ ← cmd_ls fuel 0; mret false
      else if firstword line (txt "clear") then _ ← sys sys_clear; mret false
      else if firstword line (txt "exit") then _ ← put (txt "bye!" ++ [10]); mret true
      else _ ← run_pipeline line; mret false
  end.

(** The line editor: a character of input and the text in [buf] so far;
    [inr] is the finished line. *)
Definition LINE : Z := 128.

Definition edit (buf : text) (c : Z) : ST (sh K) (text + text) :=
  if c =? 10 then _ ← put [10]; mret (inr buf)
  else if c =? 8 then
    if zlength buf >? 0 then _ ← put [8; 32; 8]; mret (inl (take (length buf - 1) buf)) else mret (inl buf)
  else if zlength buf <? LINE - 1 then _ ← put [u8 c]; mret (inl (buf ++ [u8 c]))
  else mret (inl buf).

(** The shell on the characters [input]; [true] when it has exited. *)
Fixpoint session (fuel : nat) (input : list Z) (buf : text) : ST (sh K) bool :=
  match input with
  | [] => mret false
  | c :: input' =>
      r ← edit buf c;
      match r with
      | inl buf => session fuel input' buf
      | inr line =>
          done ← run fuel line;
          if done : bool then mret true else _ ← put (10 :: txt "nsh$ "); session fuel input' []
      end
  end.

Definition main (fuel : nat) (input : list Z) : ST (sh K) bool :=
  _ ← put (txt "nsh - NOS userspace shell (ring 3). Type 'help'." ++ [10]);
  _ ← put (10 :: txt "nsh$ ");
  session fuel input [].
End shell.

(** ** What the kernel promises *)

(** Descriptors that may be handed to a call: [-1] or an open one. *)
Definition usable (fs : gset Z) (fd : Z) : Prop := fd = -1 ∨ fd ∈ fs.

(** What the kernel's descriptor calls do: a call that opens gives fresh
    descriptors or an error; a call is only bound by this when the
    descriptors it is given are open ones. *)
Class KernelOk (K : Type) `{Kernel K} := {
  opens (c : ST K Z) : Prop := ∀ k, let '(r, k') := c k in
    (r < 0 ∧ fds k' = fds k) ∨ (0 ≤ r ∧ r ∉ fds k ∧ fds k' = {[r]} ∪ fds k);
  open_law f : opens (sys_open f);
  openmode_law f fl : opens (sys_openmode f fl);
  close_law fd k : fd ∈ fds k → fds (sys_close fd k).2 = fds k ∖ {[fd]};
  pipe_law k : let '(r, p0, p1, k') := sys_pipe k in
    (r < 0 ∧ fds k' = fds k) ∨
    (0 ≤ r ∧ 0 ≤ p0 ∧ 0 ≤ p1 ∧ p0 ≠ p1 ∧ p0 ∉ fds k ∧ p1 ∉ fds k ∧ fds k' = {[p0; p1]} ∪ fds k);
  exec2_law f args i o e k : usable (fds k) i → usable (fds k) o → usable (fds k) e → fds (sys_exec2 f args i o e k).2 = fds k;
  wait_law pid k : fds (sys_wait pid k).2 = fds k;
  readdir_law i k : fds (sys_readdir i k).2 = fds k;
  clear_law k : fds (sys_clear k).2 = fds k;
}.
End Shell.

(** * What the shell does with its descriptors and its children

    A pipeline leaves the descriptors of the shell as they were, on every
    path, and waits for every process it has started. *)

Module ShellSpec.
Import Shell.

Definition spawned (t : list event) : list Z := omap (λ e, match e with Spawn _ _ _ pid => if pid <? 0 then None else Some pid | _ => None end) t.
Definition waited (t : list event) : list Z := omap (λ e, match e with Waited pid _ => Some pid | _ => None end) t.

Section spec.
Context {K : Type} `{KernelOk K}.
Implicit Types (s : sh K) (B : gset Z) (l : list Z).

(** The descriptors among [l]; -1 stands for none. *)
Definition real l : list Z := filter (λ x, 0 ≤ x) l.

(** The shell's descriptors are those of [B] and, apart from them, those of
    [l]. *)
Record owns B l (k : K) : Prop := {
  ow_fds : fds k = list_to_set (real l) ∪ B;
  ow_nodup : NoDup (real l);
  ow_new x : x ∈ real l → x ∉ B;
  ow_min x : x ∈ l → -1 ≤ x;
}.

Lemma real_cons x l : real (x :: l) = if decide (0 ≤ x) then x :: real l else real l.
Proof. apply filter_cons. Qed.

Lemma owns_neg B x l k : x = -1 → owns B (x :: l) k ↔ owns B l k.
Proof.
  intros ->. split; intros [H1 H2 H3 H4]; rewrite ?real_cons, ?decide_False in * by lia; constructor; rewrite ?real_cons, ?decide_False by lia; try done; set_solver.
Qed.

Lemma owns_perm B l l' k : l ≡ₚ l' → owns B l k → owns B l' k.
Proof.
  intros Hp [H1 H2 H3 H4]. assert (real l ≡ₚ real l') as Hr by (unfold real; by rewrite Hp). constructor.
  - rewrite H1. f_equal. by apply leibniz_equiv, list_to_set_perm.
  - by rewrite <- Hr.
  - intros x Hx. apply H3. by rewrite Hr.
  - intros x Hx. apply H4. by rewrite Hp.
Qed.

Lemma owns_usable B x l k : owns B (x :: l) k → usable (fds k) x.
Proof.
  intros Ho. destruct (decide (0 ≤ x)) as [Hx|Hx].
  - right. rewrite (ow_fds _ _ _ Ho), real_cons, decide_True by done. set_solver.
  - left. pose proof (ow_min _ _ _ Ho x ltac:(set_solver)). lia.
Qed.

Lemma owns_open B l k r k' : owns B l k → 0 ≤ r → r ∉ fds k → fds k' = {[r]} ∪ fds k → owns B (r :: l) k'.
Proof.
  intros [H1 H2 H3 H4] Hr Hn E. rewrite H1 in *. constructor; rewrite ?real_cons, ?decide_True by done.
  - rewrite E. cbn. set_solver.
  - constructor; [set_solver|done].
  - set_solver.
  - intros x Hx. apply elem_of_cons in Hx as [->|Hx]; [lia|auto].
Qed.

Lemma owns_close B x l k k' : owns B (x :: l) k → 0 ≤ x → fds k' = fds k ∖ {[x]} → owns B l k'.
Proof.
  intros [H1 H2 H3 H4] Hx E. rewrite real_cons, decide_True in * by done. apply NoDup_cons in H2 as [H2 H2']. constructor; [|done|set_solver|set_solver].
  rewrite E, H1. specialize (H3 x ltac:(set_solver)). cbn. set_solver.
Qed.

Lemma owns_same B l k k' : owns B l k → fds k' = fds k → owns B l k'.
Proof. intros [] E. constructor; try done. by rewrite E. Qed.

(** Steps that only add output to the trace. *)
Definition quiet s s' : Prop := ∃ t, trace s' = trace s ++ t ∧ spawned t = [] ∧ waited t = [].

Lemma quiet_refl s s' : trace s' = trace s → quiet s s'.
Proof. intros E. exists []. by rewrite E, app_nil_r. Qed.

Lemma quiet_trans s1 s2 s3 : quiet s1 s2 → quiet s2 s3 → quiet s1 s3.
Proof.
  intros (t1 & E1 & S1 & W1) (t2 & E2 & S2 & W2). exists (t1 ++ t2). unfold spawned, waited in *. rewrite !omap_app, S1, S2, W1, W2, E2, E1. by rewrite app_assoc.
Qed.

Lemma wp_sys {A} (c : ST K A) s Q : (let '(a, k) := c (kern s) in Q a (mk_sh k (trace s))) → wp (sys c) s Q.
Proof. unfold wp, sys. by destruct (c (kern s)). Qed.

Lemma wp_put t s (Q : unit → sh K → Prop) : (∀ s', kern s' = kern s → quiet s s' → Q tt s') → wp (put t) s Q.
Proof. intros HQ. apply HQ; [done|]. by exists [Put t]. Qed.

Lemma wp_put_line a b s (Q : unit → sh K → Prop) : (∀ s', kern s' = kern s → quiet s s' → Q tt s') → wp (put_line a b) s Q.
Proof.
  intros HQ. unfold put_line. apply wp_bind, wp_put. intros s1 K1 T1. apply wp_bind, wp_put. intros s2 K2 T2. apply wp_put. intros s3 K3 T3.
  apply HQ; [congruence|]. eauto using quiet_trans.
Qed.

Lemma wp_close_if B x l s : owns B (x :: l) (kern s) → wp (close_if x) s (λ _ s', owns B l (kern s') ∧ quiet s s').
Proof.
  intros Ho. unfold close_if. destruct (Z.geb_spec x 0) as [Hx|Hx].
  - apply wp_bind, wp_sys. pose proof (close_law x (kern s)) as Hc. destruct (owns_usable _ _ _ _ Ho) as [->|Hin]; [lia|].
    specialize (Hc Hin). destruct (sys_close x (kern s)) as [r k]. apply wp_ret. split; [by eapply owns_close|by apply quiet_refl].
  - apply wp_ret. split; [|by apply quiet_refl]. apply (owns_neg B x l); [|done]. pose proof (ow_min _ _ _ Ho x ltac:(set_solver)). lia.
Qed.

Lemma wp_input B inf x s :
  owns B [x] (kern s) →
  wp (stage_input inf x) s (λ r s', quiet s s' ∧ match r with Some y => owns B [y] (kern s') | None => owns B [] (kern s') end).
Proof.
  intros Ho. unfold stage_input. destruct inf as [f|]; [|apply wp_ret; split; [by apply quiet_refl|done]].
  apply wp_bind, wp_sys. pose proof (open_law f (kern s)) as Hop. destruct (sys_open f (kern s)) as [r k]. destruct Hop as [[Hr E]|(Hr & Hn & E)].
  - rewrite (proj2 (Z.ltb_lt _ _) Hr). apply wp_bind, wp_put_line. intros s1 K1 T1. apply wp_bind. eapply wp_mono; [apply (wp_close_if B x [])|].
    { rewrite K1. by apply (owns_same _ _ (kern s)). } cbv beta. intros _ s2 [O2 T2]. apply wp_ret. split; [|done]. eapply quiet_trans; [exact T1|done].
  - rewrite (proj2 (Z.ltb_ge _ _)) by lia. apply wp_bind. eapply wp_mono; [apply (wp_close_if B x [r])|].
    { apply (owns_perm B [r; x]); [apply Permutation_swap|]. by eapply owns_open. } cbv beta. intros _ s2 [O2 T2]. apply wp_ret. done.
Qed.

Lemma wp_pipe B last x s :
  owns B [x] (kern s) →
  wp (stage_pipe last x) s (λ r s', quiet s s' ∧
    match r with Some (p0, p1) => owns B [x; p0; p1] (kern s') | None => owns B [] (kern s') end).
Proof.
  intros Ho. unfold stage_pipe. destruct last.
  - apply wp_ret. split; [by apply quiet_refl|]. apply (owns_perm B [-1; -1; x]); [apply (Permutation_app_comm [-1; -1] [x])|]. do 2 (apply (owns_neg B (-1)); [done|]). done.
  - apply wp_bind, wp_sys. pose proof (pipe_law (kern s)) as Hp. destruct (sys_pipe (kern s)) as [[[r p0] p1] k].
    destruct Hp as [[Hr E]|(Hr & Hp0 & Hp1 & Hne & N0 & N1 & E)].
    + rewrite (proj2 (Z.ltb_lt _ _) Hr). apply wp_bind, wp_put. intros s1 K1 T1. apply wp_bind. eapply wp_mono; [apply (wp_close_if B x [])|].
      { rewrite K1. by apply (owns_same _ _ (kern s)). } cbv beta. intros _ s2 [O2 T2]. apply wp_ret. split; [|done]. eapply quiet_trans; [exact T1|done].
    + rewrite (proj2 (Z.ltb_ge _ _)) by lia. apply wp_ret. split; [by apply quiet_refl|]. cbn [kern].
      apply (owns_perm B [p0; p1; x]); [apply (Permutation_app_comm [p0; p1] [x])|]. destruct Ho as [O1 O2 O3 O4]. rewrite O1 in *.
      constructor; rewrite ?real_cons, ?(decide_True (P := 0 ≤ p0)), ?(decide_True (P := 0 ≤ p1)) in * by done.
      * rewrite E. rewrite ?real_cons. cbn. set_solver.
      * constructor; [set_solver|]. constructor; [set_solver|done].
      * set_solver.
      * intros y Hy. rewrite !elem_of_cons in Hy. destruct Hy as [->|[->|[->|Hy]]]; [lia|lia|apply O4; set_solver|set_solver].
Qed.

(** [o] is the redirection file, -1 when there is none. *)
Lemma wp_output B outf x p0 p1 s :
  owns B [x; p0; p1] (kern s) →
  wp (stage_output outf x p0 p1) s (λ r s', quiet s s' ∧
    match r with
    | Some out => ∃ o, owns B [o; x; p0; p1] (kern s') ∧ (out = o ∧ 0 ≤ o ∨ o = -1 ∧ (out = p1 ∨ out = -1))
    | None => owns B [] (kern s')
    end).
Proof.
  intros Ho. unfold stage_output. destruct outf as [f|].
  - apply wp_bind, wp_sys. pose proof (openmode_law f (Z.lor (Z.lor O_CREATE O_TRUNC) O_WRONLY) (kern s)) as Hop.
    destruct (sys_openmode f _ (kern s)) as [r k]. destruct Hop as [[Hr E]|(Hr & Hn & E)].
    + rewrite (proj2 (Z.ltb_lt _ _) Hr). apply wp_bind, wp_put_line. intros s1 K1 T1. apply wp_bind. eapply wp_mono; [apply (wp_close_if B x [p0; p1])|].
      { rewrite K1. by apply (owns_same _ _ (kern s)). } cbv beta. intros _ s2 [O2 T2]. apply wp_bind. eapply wp_mono; [by apply (wp_close_if B p0 [p1])|].
      cbv beta. intros _ s3 [O3 T3]. apply wp_bind. eapply wp_mono; [by apply (wp_close_if B p1 [])|]. cbv beta. intros _ s4 [O4 T4]. apply wp_ret.
      split; [|done]. eapply quiet_trans; [exact T1|]. eauto using quiet_trans.
    + rewrite (proj2 (Z.ltb_ge _ _)) by lia. apply wp_ret. split; [by apply quiet_refl|]. exists r. split; [by eapply owns_open|]. left. auto.
  - apply wp_ret. split; [by apply quiet_refl|]. exists (-1). split; [by apply owns_neg|]. right. split; [done|]. destruct (Z.geb_spec p1 0); auto.
Qed.

Lemma wp_stage B last x str s :
  owns B [x] (kern s) →
  wp (run_stage last x str) s (λ o s', ∃ t, trace s' = trace s ++ t ∧ waited t = [] ∧
    match o with Broken y => owns B [y] (kern s') ∧ spawned t = [] | Spawned pid y => owns B [y] (kern s') ∧ spawned t = [pid] end).
Proof.
  intros Ho. assert (∀ s' y, quiet s s' → owns B [y] (kern s') → ∃ t, trace s' = trace s ++ t ∧ waited t = [] ∧ owns B [y] (kern s') ∧ spawned t = []) as Hq.
  { intros s' y (t & E & S & W) Oy. by exists t. }
  assert (∀ s', quiet s s' → owns B [] (kern s') → ∃ t, trace s' = trace s ++ t ∧ waited t = [] ∧ owns B [-1] (kern s') ∧ spawned t = []) as Hq0.
  { intros s' Q' O'. apply Hq; [done|]. by apply owns_neg. }
  unfold run_stage. destruct (parse_stage str) as [st|code].
  2: { apply wp_bind, wp_put. intros s1 K1 T1. apply wp_ret, Hq; [done|by rewrite K1]. }
  destruct (argv st) as [|cmd rest] eqn:Ea.
  { apply wp_bind, wp_put. intros s1 K1 T1. apply wp_ret, Hq; [done|by rewrite K1]. }
  apply wp_bind. eapply wp_mono; [by apply wp_input|]. cbv beta. intros [y|] s1 [T1 O1]; [|apply wp_ret, Hq0; done].
  apply wp_bind. eapply wp_mono; [by apply wp_pipe|]. cbv beta. intros [[p0 p1]|] s2 [T2 O2]; [|apply wp_ret, Hq0; [eauto using quiet_trans|done]].
  apply wp_bind. eapply wp_mono; [by apply wp_output|]. cbv beta. intros [out|] s3 [T3 O3]; [|apply wp_ret, Hq0; [eauto using quiet_trans|done]].
  destruct O3 as (o & O3 & Hout). assert (quiet s s3) as T13 by eauto using quiet_trans. clear T1 T2 T3.
  assert (owns B [y; p0; p1; o] (kern s3)) as O3' by (apply (owns_perm B [o; y; p0; p1]); [apply (Permutation_app_comm [o] [y; p0; p1])|done]).
  assert (usable (fds (kern s3)) out) as Hu.
  { destruct Hout as [[-> _]|[_ [->| ->]]]; [by eapply owns_usable| |by left].
    apply (owns_usable B p1 [o; y; p0]). apply (owns_perm B [o; y; p0; p1]); [apply (Permutation_app_comm [o; y; p0] [p1])|done]. }
  apply wp_bind, wp_sys. pose proof (exec2_law cmd (cmd :: rest) y out (-1) (kern s3) (owns_usable _ _ _ _ O3') Hu ltac:(by left)) as Hx.
  destruct (sys_exec2 cmd (cmd :: rest) y out (-1) (kern s3)) as [pid k]. cbn [snd] in Hx. apply wp_bind.
  unfold wp at 1. cbn [note fst snd kern trace]. set (e := Spawn (cmd :: rest) y out pid). set (s4 := mk_sh k (trace s3 ++ [e])).
  assert (owns B [y; o; p1; p0] (kern s4)) as O4.
  { apply (owns_perm B [y; p0; p1; o]); [|by eapply owns_same]. constructor. apply (Permutation_app_comm [p0; p1] [o]) || idtac.
    etrans; [apply (Permutation_app_comm [p0; p1] [o])|]. constructor. apply Permutation_swap. }
  apply wp_bind. eapply wp_mono; [by apply (wp_close_if B y [o; p1; p0])|]. cbv beta. intros _ s5 [O5 T5]. apply wp_bind.
  apply wp_mono with (λ _ s6, owns B [p1; p0] (kern s6) ∧ quiet s4 s6).
  { assert (wp (close_if o) s5 (λ _ s6, owns B [p1; p0] (kern s6) ∧ quiet s4 s6)) as Hc.
    { eapply wp_mono; [by apply (wp_close_if B o [p1; p0])|]. cbv beta. intros _ s6 [O6 T6]. split; [done|]. eauto using quiet_trans. }
    destruct Hout as [[-> Ho0]|[-> [->| ->]]].
    - assert (o ≠ p1) as Hne.
      { pose proof (ow_nodup _ _ _ O5) as Hnd. rewrite !real_cons, decide_True in Hnd by done. apply NoDup_cons in Hnd as [Hnd _]. intros ->.
        apply Hnd. rewrite decide_True by done. set_solver. }
      rewrite (proj2 (Z.geb_le _ _) Ho0), (proj2 (Z.eqb_neq _ _) Hne). done.
    - rewrite Z.eqb_refl, andb_false_r. apply wp_ret. split; [by apply (owns_neg B (-1) _ _ eq_refl)|done].
    - apply wp_ret. split; [by apply (owns_neg B (-1) _ _ eq_refl)|done]. }
  cbv beta. intros _ s6 [O6 T6]. apply wp_bind. eapply wp_mono; [by apply (wp_close_if B p1 [p0])|]. cbv beta. intros _ s7 [O7 T7].
  destruct T13 as (t1 & E1 & S1 & W1). destruct (quiet_trans _ _ _ T6 T7) as (t2 & E2 & S2 & W2). cbn [trace s4] in E2. rewrite E1 in E2.
  destruct (Z.ltb_spec pid 0) as [Hpid|Hpid].
  - apply wp_bind, wp_put_line. intros s8 K8 (t3 & E3 & S3 & W3). apply wp_ret. exists (t1 ++ [e] ++ t2 ++ t3). rewrite K8, E3, E2, <- !app_assoc.
    unfold spawned, waited in *. rewrite !omap_app, S1, S2, S3, W1, W2, W3. cbn. by rewrite (proj2 (Z.ltb_lt _ _) Hpid).
  - apply wp_ret. exists (t1 ++ [e] ++ t2). rewrite E2, <- !app_assoc. unfold spawned, waited in *. rewrite !omap_app, S1, S2, W1, W2. cbn.
    by rewrite (proj2 (Z.ltb_ge _ _) Hpid).
Qed.

Lemma wp_stages B stages x s :
  owns B [x] (kern s) →
  wp (run_stages stages x) s (λ '(pids, y) s', owns B [y] (kern s') ∧ ∃ t, trace s' = trace s ++ t ∧ waited t = [] ∧ spawned t = pids).
Proof.
  revert x s. induction stages as [|str rest IH]; intros x s Ho; cbn [run_stages].
  - apply wp_ret. split; [done|]. exists []. by rewrite app_nil_r.
  - apply wp_bind. eapply wp_mono; [by apply (wp_stage B)|]. cbv beta. intros [y|pid y] s1 (t1 & E1 & W1 & O1 & S1).
    + apply wp_ret. split; [done|]. by exists t1.
    + apply wp_bind. eapply wp_mono; [by apply IH|]. cbv beta. intros [pids z] s2 (O2 & t2 & E2 & W2 & S2). apply wp_ret. split; [done|].
      exists (t1 ++ t2). unfold spawned, waited in *. rewrite E2, E1, !omap_app, W1, W2, S1, S2. by rewrite app_assoc.
Qed.

Lemma wp_puti v s (Q : unit → sh K → Prop) : (∀ s', kern s' = kern s → quiet s s' → Q tt s') → wp (puti v) s Q.
Proof.
  unfold puti. generalize ((if v <? 0 then [45] else []) ++ digits 12 (if v <? 0 then u32 (- v) else v) []) as l. intros l. revert s Q.
  induction l as [|c l IH]; intros s Q HQ; cbn [putch_all]; [apply wp_ret, HQ; [done|by apply quiet_refl]|].
  apply wp_bind, wp_put. intros s1 K1 T1. apply IH. intros s2 K2 T2. apply HQ; [congruence|eauto using quiet_trans].
Qed.

Lemma wp_wait_all pids s :
  wp (wait_all pids) s (λ _ s', fds (kern s') = fds (kern s) ∧ ∃ t, trace s' = trace s ++ t ∧ waited t = pids ∧ spawned t = []).
Proof.
  revert s. induction pids as [|pid rest IH]; intros s; cbn [wait_all].
  - apply wp_ret. split; [done|]. exists []. by rewrite app_nil_r.
  - apply wp_bind, wp_sys. pose proof (wait_law pid (kern s)) as Hw. destruct (sys_wait pid (kern s)) as [st k]. apply wp_bind. unfold wp at 1.
    cbn [note fst snd kern trace]. apply wp_bind. set (s1 := mk_sh k (trace s ++ [Waited pid st])).
    apply wp_mono with (λ _ s2, kern s2 = k ∧ quiet s1 s2).
    { destruct (negb (st =? 0)); [|by apply wp_ret; split; [done|apply quiet_refl]].
      apply wp_bind, wp_put. intros s2 K2 T2. apply wp_bind, wp_puti. intros s3 K3 T3. apply wp_put. intros s4 K4 T4.
      split; [by rewrite K4, K3, K2|eauto using quiet_trans]. }
    cbv beta. intros _ s2 [K2 (t2 & E2 & S2 & W2)]. eapply wp_mono; [apply IH|]. cbv beta. intros _ s3 [F3 (t3 & E3 & W3 & S3)].
    split; [rewrite F3, K2; done|]. exists ([Waited pid st] ++ t2 ++ t3). rewrite E3, E2. cbn [trace s1]. rewrite <- !app_assoc.
    unfold spawned, waited in *. rewrite !omap_app, S2, S3, W2, W3. done.
Qed.

(** What a command does: no descriptor is left open or closed that was not
    opened for it, and the processes waited for are those started. *)
Definition tidy s s' : Prop := fds (kern s') = fds (kern s) ∧ ∃ t, trace s' = trace s ++ t ∧ waited t = spawned t.

Lemma tidy_trans s1 s2 s3 : tidy s1 s2 → tidy s2 s3 → tidy s1 s3.
Proof.
  intros (F1 & t1 & E1 & W1) (F2 & t2 & E2 & W2). split; [congruence|]. exists (t1 ++ t2). unfold spawned, waited in *. rewrite E2, E1, !omap_app, W1, W2.
  by rewrite app_assoc.
Qed.

Lemma tidy_quiet s s' : fds (kern s') = fds (kern s) → quiet s s' → tidy s s'.
Proof. intros F (t & E & S & W). split; [done|]. exists t. by rewrite S, W. Qed.

Lemma wp_pipeline line s : wp (run_pipeline line) s (λ _ s', tidy s s').
Proof.
  unfold run_pipeline. destruct (split_stages 1 [] line) as [stages|].
  - apply wp_bind. assert (owns (fds (kern s)) [-1] (kern s)) as Ho.
    { apply owns_neg; [done|]. constructor; cbn; [set_solver|constructor|set_solver|set_solver]. }
    eapply wp_mono; [by apply wp_stages|]. cbv beta. intros [pids y] s1 (O1 & t1 & E1 & W1 & S1). apply wp_bind.
    eapply wp_mono; [by apply (wp_close_if (fds (kern s)) y [])|]. cbv beta. intros _ s2 [O2 (t2 & E2 & S2 & W2)]. eapply wp_mono; [apply wp_wait_all|].
    cbv beta. intros _ s3 (F3 & t3 & E3 & W3 & S3). split.
    + rewrite F3, (ow_fds _ _ _ O2). cbn. set_solver.
    + exists (t1 ++ t2 ++ t3). unfold spawned, waited in *. rewrite E3, E2, E1, !omap_app, W1, W2, W3, S1, S2, S3, <- !app_assoc. cbn. by rewrite app_nil_r.
  - apply wp_put. intros s' K' T'. apply tidy_quiet; [by rewrite K'|done].
Qed.

Lemma wp_ls fuel i s : wp (cmd_ls fuel i) s (λ _ s', tidy s s').
Proof.
  revert i s. induction fuel as [|n IH]; intros i s; cbn [cmd_ls]; [apply wp_ret; apply tidy_quiet; [done|by apply quiet_refl]|].
  apply wp_bind, wp_sys. pose proof (readdir_law i (kern s)) as Hr. destruct (sys_readdir i (kern s)) as [[name|] k]; cbn [snd] in Hr.
  - apply wp_bind, wp_put. intros s1 K1 T1. apply wp_bind, wp_put. intros s2 K2 T2. eapply wp_mono; [apply IH|]. cbv beta. intros _ s3 T3.
    eapply tidy_trans; [|exact T3]. apply tidy_quiet; [by rewrite K2, K1|]. eapply quiet_trans; [|exact T2]. done.
  - apply wp_ret. apply tidy_quiet; [done|by apply quiet_refl].
Qed.

Lemma wp_command fuel line s : wp (run fuel line) s (λ _ s', tidy s s').
Proof.
  unfold run. destruct (skip_blanks line) as [|c rest]; [apply wp_ret, tidy_quiet; [done|by apply quiet_refl]|]. generalize (c :: rest) as l. intros l.
  destruct (firstword l (txt "help")).
  { apply wp_bind, wp_put. intros s1 K1 T1. apply wp_bind, wp_put. intros s2 K2 T2. apply wp_bind, wp_put. intros s3 K3 T3. apply wp_ret.
    apply tidy_quiet; [congruence|eauto using quiet_trans]. }
  destruct (firstword l (txt "ls")); [apply wp_bind; eapply wp_mono; [apply wp_ls|]; cbv beta; intros _ s1 T1; by apply wp_ret|].
  destruct (firstword l (txt "clear")).
  { apply wp_bind, wp_sys. pose proof (clear_law (kern s)) as Hc. destruct (sys_clear (kern s)) as [[] k]. apply wp_ret, tidy_quiet; [done|by apply quiet_refl]. }
  destruct (firstword l (txt "exit")).
  { apply wp_bind, wp_put. intros s1 K1 T1. apply wp_ret, tidy_quiet; [congruence|done]. }
  apply wp_bind. eapply wp_mono; [apply wp_pipeline|]. cbv beta. intros _ s1 T1. by apply wp_ret.
Qed.

(** The line in the buffer leaves room for its NUL. *)
Lemma wp_edit buf c s :
  zlength buf < LINE →
  wp (edit buf c) s (λ r s', tidy s s' ∧ match r with inl b | inr b => zlength b < LINE end).
Proof.
  intros Hb. unfold edit. repeat case_if.
  - apply wp_bind, wp_put. intros s1 K1 T1. apply wp_ret. split; [apply tidy_quiet; [congruence|done]|done].
  - apply wp_bind, wp_put. intros s1 K1 T1. apply wp_ret. split; [apply tidy_quiet; [congruence|done]|]. unfold zlength in *. rewrite length_take. lia.
  - apply wp_ret. split; [apply tidy_quiet; [done|by apply quiet_refl]|done].
  - apply wp_bind, wp_put. intros s1 K1 T1. apply wp_ret. split; [apply tidy_quiet; [congruence|done]|]. rewrite zlength_app. change (zlength [u8 c]) with 1. lia.
  - apply wp_ret. split; [apply tidy_quiet; [done|by apply quiet_refl]|done].
Qed.

Lemma wp_session fuel input buf s : zlength buf < LINE → wp (session fuel input buf) s (λ _ s', tidy s s').
Proof.
  revert buf s. induction input as [|c input IH]; intros buf s Hb; cbn [session]; [apply wp_ret, tidy_quiet; [done|by apply quiet_refl]|].
  apply wp_bind. eapply wp_mono; [by apply wp_edit|]. cbv beta. intros [b|line] s1 [T1 H1].
  - eapply wp_mono; [by apply IH|]. cbv beta. intros _ s2 T2. eauto using tidy_trans.
  - apply wp_bind. eapply wp_mono; [apply wp_command|]. cbv beta. intros [|] s2 T2; [apply wp_ret; eauto using tidy_trans|].
    apply wp_bind, wp_put. intros s3 K3 T3. eapply wp_mono; [by apply IH|]. cbv beta. intros _ s4 T4.
    eapply tidy_trans; [exact T1|]. eapply tidy_trans; [exact T2|]. eapply tidy_trans; [apply tidy_quiet; [by rewrite K3|exact T3]|done].
Qed.

(** C21: The shell leaks nothing.  Whatever is typed, with whatever success of
    the calls it makes (parse errors, files that do not open, no pipe, unknown
    commands), the shell closes exactly the descriptors it has opened, hands
    only open descriptors to its children, and waits once for each process
    it has started, in the order it started them. *)
Theorem shell_tidy fuel input s : wp (main fuel input) s (λ _ s', tidy s s').
Proof.
  unfold main. apply wp_bind, wp_put. intros s1 K1 T1. apply wp_bind, wp_put. intros s2 K2 T2. eapply wp_mono; [by apply wp_session|].
  cbv beta. intros _ s3 T3. eapply tidy_trans; [|exact T3]. apply tidy_quiet; [congruence|eauto using quiet_trans].
Qed.
End spec.

(** ** Parsing *)

(** The argument vector has room for its words and the null pointer. *)
Lemma parse_words_args words st st' :
  zlength (argv st) ≤ MAX_ARGS → parse_words words st = inl st' → zlength (argv st') ≤ MAX_ARGS.
Proof.
  remember (length words) as n eqn:Hn. assert (length words ≤ n)%nat as Hle by lia. clear Hn. revert words st Hle.
  induction n as [|n IH]; intros [|w ws] st Hle Ha; cbn [parse_words length] in *; [by intros [= <-]|lia|by intros [= <-]|].
  destruct (streq w lt_sign); [destruct ws as [|f ws]; [done|]; destruct (operator (Some f)); [done|]; cbn in Hle; apply IH; [lia|done]|].
  destruct (streq w gt_sign).
  { destruct ws as [|f ws]; [done|]. destruct (operator (Some f)); [done|]. destruct (outfile st); [done|]. cbn in Hle. apply IH; [lia|done]. }
  case_if; [|apply IH; [lia|done]]. apply IH; [lia|]. cbn [argv]. rewrite zlength_app. change (zlength [w]) with 1. lia.
Qed.

(** ** A small kernel *)

(** The descriptors open, whether the next calls that open fail, and the next
    process number. *)
Record toy := mk_toy { open_fds : list Z; bad : list bool; next_pid : Z }.

Definition top_fd (k : toy) : Z := foldr Z.max 2 (open_fds k) + 1.

Definition toy_fails (k : toy) : bool * list bool := match bad k with [] => (false, []) | b :: l => (b, l) end.

Definition toy_open : ST toy Z := λ k,
  let '(b, l) := toy_fails k in
  if b : bool then (-1, mk_toy (open_fds k) l (next_pid k)) else (top_fd k, mk_toy (top_fd k :: open_fds k) l (next_pid k)).

Definition toy_pipe : ST toy (Z * Z * Z) := λ k,
  let '(b, l) := toy_fails k in
  if b : bool then (-1, 0, 0, mk_toy (open_fds k) l (next_pid k))
  else (0, top_fd k, top_fd k + 1, mk_toy (top_fd k :: (top_fd k + 1) :: open_fds k) l (next_pid k)).

#[global] Instance toy_kernel : Kernel toy := {|
  sys_open := λ _, toy_open;
  sys_openmode := λ _ _, toy_open;
  sys_close := λ fd k, (0, mk_toy (filter (λ x, x ≠ fd) (open_fds k)) (bad k) (next_pid k));
  sys_pipe := toy_pipe;
  sys_exec2 := λ _ _ _ _ _ k, (next_pid k, mk_toy (open_fds k) (bad k) (next_pid k + 1));
  sys_wait := λ _ k, (0, k);
  sys_readdir := λ _ k, (None, k);
  sys_clear := λ k, (tt, k);
  fds := λ k, list_to_set (open_fds k);
|}.

Lemma top_fd_fresh k x : x ∈ open_fds k → x < top_fd k.
Proof. unfold top_fd. induction (open_fds k) as [|y l IH]; intros Hx; [by apply elem_of_nil in Hx|]. apply elem_of_cons in Hx as [->|Hx]; cbn; [lia|specialize (IH Hx); lia]. Qed.

Lemma top_fd_pos k : 0 ≤ top_fd k.
Proof. unfold top_fd. induction (open_fds k) as [|y l IH]; cbn; lia. Qed.

#[global] Program Instance toy_ok : KernelOk toy.
Next Obligation.
  intros f k. cbn. unfold toy_open, toy_fails. destruct (match bad k with [] => (false, []) | b :: l => (b, l) end) as [[|] l]; [left; split; [lia|done]|].
  right. split_and!; [apply top_fd_pos| |cbn; set_solver]. intros Hx. apply elem_of_list_to_set, top_fd_fresh in Hx. lia.
Qed.
Next Obligation. intros f fl. exact (toy_ok_obligation_1 f). Qed.
Next Obligation. intros fd k Hfd. cbn. apply leibniz_equiv. intros x. rewrite elem_of_difference, !elem_of_list_to_set, list_elem_of_filter. set_solver. Qed.
Next Obligation.
  intros k. cbn. unfold toy_pipe, toy_fails. destruct (match bad k with [] => (false, []) | b :: l => (b, l) end) as [[|] l]; [left; split; [lia|done]|].
  right. pose proof (top_fd_pos k). split_and!; [lia|lia|lia|lia| | |cbn; set_solver]; intros Hx; apply elem_of_list_to_set, top_fd_fresh in Hx; lia.
Qed.
Next Obligation. done. Qed.
Next Obligation. done. Qed.
Next Obligation. done. Qed.
Next Obligation. done. Qed.

Definition toy_shell : sh toy := mk_sh (mk_toy [0; 1; 2] [] 7) [].

(** [cat<in | upper | wc >out]: the processes and the descriptors they get. *)
Example three_stages :
  omap (λ e, match e with Spawn args i o pid => Some (hd [] args, i, o, pid) | _ => None end)
    (trace (run_pipeline (txt "cat < in | upper | wc > out") toy_shell).2) =
  [(txt "cat", 3, 5, 7); (txt "upper", 4, 6, 8); (txt "wc", 5, 6, 9)].
Proof. vm_compute. reflexivity. Qed.

Lemma shell_tidy_witness : wp (main 10 (txt "cat x | upper" ++ [10])) toy_shell (λ _ s', tidy toy_shell s').
Proof. apply (shell_tidy 10 (txt "cat x | upper" ++ [10]) toy_shell). Defined.
End ShellSpec.
