(* ===== verification/UTools.v ===== *)
(** * Filters (user/grep.c, user/wc.c, user/cat.c, user/upper.c)

    Programs that read a stream.  A read returns what has arrived, at most
    what was asked for: the stream is a list of chunks, and the theorems show
    that the chunks do not matter. *)

From S2P Require Import Prelude.

Module UTools.

(** ** Streams *)

(** The chunks to come, what read() returns behind them (0 at the end of the
    file, a negative number on an error), the output so far, and whether the
    next allocations fail. *)
Record io := mk_io { chunks : list (list Z); at_end : Z; out : list Z; nomem : list bool }.

Definition read (k : Z) : ST io (Z * list Z) := λ s,
  match chunks s with
  | [] => ((at_end s, []), s)
  | c :: cs =>
      if zlength c <=? k then ((zlength c, c), mk_io cs (at_end s) (out s) (nomem s))
      else ((k, take (Z.to_nat k) c), mk_io (drop (Z.to_nat k) c :: cs) (at_end s) (out s) (nomem s))
  end.

Definition write (l : list Z) : ST io unit := λ s, (tt, mk_io (chunks s) (at_end s) (out s ++ l) (nomem s)).

Definition alloc : ST io bool := λ s,
  match nomem s with
  | [] => (true, s)
  | b :: l => (negb b, mk_io (chunks s) (at_end s) (out s) l)
  end.

(** ** grep: patterns *)

(** The loop of matchstar() over the text, with [here] for the rest of the
    pattern. *)
Fixpoint matchstar (c : Z) (here : list Z → bool) (text : list Z) : bool :=
  if here text then true
  else match text with [] => false | t :: text' => if (t =? c) || (c =? 46) then matchstar c here text' else false end.

Fixpoint matchhere (re text : list Z) : bool :=
  match re with
  | [] => true
  | c :: re1 =>
      let plain :=
        if (c =? 36) && match re1 with [] => true | _ => false end
        then match text with [] => true | _ => false end
        else match text with [] => false | t :: text' => if (c =? 46) || (c =? t) then matchhere re1 text' else false end in
      match re1 with
      | d :: re2 => if d =? 42 then matchstar c (matchhere re2) text else plain
      | [] => plain
      end
  end.

Fixpoint match_anywhere (re text : list Z) : bool :=
  if matchhere re text then true else match text with [] => false | _ :: text' => match_anywhere re text' end.

Definition match_ (re text : list Z) : bool :=
  match re with
  | c :: re' => if c =? 94 then matchhere re' text else match_anywhere re text
  | [] => match_anywhere re text
  end.

(** ** grep: lines *)

Definition BUFSZ : Z := 1024.

(** A C string in a buffer ends at its first NUL. *)
Fixpoint until_nul (l : list Z) : list Z :=
  match l with [] => [] | c :: l' => if c =? 0 then [] else c :: until_nul l' end.

(** The loop over the buffer: [cur] are the bytes since [start]; the bytes
    left after the last newline. *)
Fixpoint scan_lines (pattern cur buf : list Z) : ST io (list Z) :=
  match buf with
  | [] => mret cur
  | c :: buf' =>
      if negb (c =? 10) then scan_lines pattern (cur ++ [c]) buf' else
      _ ← (if match_ pattern (until_nul cur) then write (cur ++ [10]) else mret tt);
      scan_lines pattern [] buf'
  end.

(** The loop of grep(): the bytes in the buffer and [n] when it ends;
    [None] when memory runs out. *)
Fixpoint grep_loop (fuel : nat) (pattern buf : list Z) (capacity : Z) : ST io (option (Z * list Z)) :=
  match fuel with
  | O => mret None
  | S k =>
      let used := zlength buf in
      ok ← (if used =? capacity - 1 then alloc else mret true);
      if negb ok then mret None else
      let capacity := if used =? capacity - 1 then capacity + BUFSZ else capacity in
      '(n, bytes) ← read (capacity - used - 1);
      if n <=? 0 then mret (Some (n, buf)) else
      buf ← scan_lines pattern [] (buf ++ bytes);
      grep_loop k pattern buf capacity
  end.

Definition grep (fuel : nat) (pattern : list Z) : ST io Z :=
  ok ← alloc;
  if negb ok then mret (-1) else
  r ← grep_loop fuel pattern [] BUFSZ;
  match r with
  | None => mret (-1)
  | Some (n, buf) =>
      _ ← (match buf with [] => mret tt | _ => if match_ pattern (until_nul buf) then write buf else mret tt end);
      mret n
  end.

(** ** wc *)

Definition whitespace (c : Z) : bool := (c =? 32) || (c =? 9) || (c =? 13) || (c =? 10) || (c =? 11).

Record counts := mk_counts { lines : Z; words : Z; chars : Z; inword : bool }.

Definition count_byte (a : counts) (c : Z) : counts :=
  let lines' := if c =? 10 then s32 (lines a + 1) else lines a in
  if whitespace c then mk_counts lines' (words a) (chars a) false
  else if negb (inword a) then mk_counts lines' (s32 (words a + 1)) (chars a) true
  else mk_counts lines' (words a) (chars a) (inword a).

(** The counts, or [None] on a read error. *)
Fixpoint count_loop (fuel : nat) (a : counts) : ST io (option counts) :=
  match fuel with
  | O => mret None
  | S k =>
      '(n, bytes) ← read 512;
      if n >? 0 then count_loop k (foldl count_byte (mk_counts (lines a) (words a) (s32 (chars a + n)) (inword a)) bytes)
      else if n <? 0 then mret None else mret (Some a)
  end.

Definition count (fuel : nat) : ST io (option counts) := count_loop fuel (mk_counts 0 0 0 false).

(** ** cat and upper *)

Definition CAT_BUFSZ : Z := 4096.

Fixpoint copy (fuel : nat) : ST io Z :=
  match fuel with
  | O => mret (-1)
  | S k => '(n, bytes) ← read CAT_BUFSZ; if n >? 0 then _ ← write bytes; copy k else mret n
  end.

Definition toupper (c : Z) : Z := if (c >=? 97) && (c <=? 122) then c - 32 else c.

Fixpoint upper (fuel : nat) : ST io unit :=
  match fuel with
  | O => mret tt
  | S k => '(n, bytes) ← read 512; if n >? 0 then _ ← write (toupper <$> bytes); upper k else mret tt
  end.

(** ** What patterns mean *)

(** The items of a pattern. *)
Inductive item := Char (c : Z) | Star (c : Z) | Eol.

Definition accepts (c t : Z) : Prop := c = 46 ∨ c = t.

Fixpoint items (re : list Z) : list item :=
  match re with
  | [] => []
  | c :: re1 =>
      let plain := if (c =? 36) && match re1 with [] => true | _ => false end then [Eol] else Char c :: items re1 in
      match re1 with d :: re2 => if d =? 42 then Star c :: items re2 else plain | [] => plain end
  end.

(** [matches p l]: the text [l] begins with a match of [p]. *)
Inductive matches : list item → list Z → Prop :=
  | m_nil l : matches [] l
  | m_char c t p l : accepts c t → matches p l → matches (Char c :: p) (t :: l)
  | m_star c s p l : Forall (accepts c) s → matches p l → matches (Star c :: p) (s ++ l)
  | m_eol : matches [Eol] [].

Lemma matchstar_spec c here text :
  matchstar c here text = true ↔ ∃ s l, text = s ++ l ∧ Forall (accepts c) s ∧ here l = true.
Proof.
  induction text as [|t text IH]; cbn [matchstar].
  - destruct (here []) eqn:E; split; [intros _; by exists [], []|done|done|].
    intros (s & l & Hs & _ & Hl). symmetry in Hs. apply app_nil in Hs as [-> ->]. congruence.
  - destruct (here (t :: text)) eqn:E; [split; [intros _; by exists [], (t :: text)|done]|]. split.
    + destruct ((t =? c) || (c =? 46)) eqn:Ec; [|done]. intros Hm. apply IH in Hm as (s & l & -> & Hs & Hl). exists (t :: s), l. split_and!; [done| |done].
      constructor; [|done]. apply orb_true_iff in Ec as [Ec|Ec]; boolp; [by right|by left].
    + intros ([|x s] & l & Hsl & Hs & Hl); [cbn in Hsl; congruence|]. injection Hsl as -> ->. apply Forall_cons in Hs as [Hx Hs].
      assert ((x =? c) || (c =? 46) = true) as ->. { apply orb_true_iff. rewrite !Z.eqb_eq. unfold accepts in Hx. intuition congruence. }
      apply IH. eauto.
Qed.

Lemma matchhere_spec re text : matchhere re text = true ↔ matches (items re) text.
Proof.
  remember (length re) as n eqn:Hn. assert (length re ≤ n)%nat as Hle by lia. clear Hn. revert re text Hle.
  induction n as [|n IH]; intros [|c re1] text Hle; cbn [length] in Hle; [cbn; split; [constructor|done]|lia|cbn; split; [constructor|done]|].
  assert ((if (c =? 36) && match re1 with [] => true | _ => false end
           then match text with [] => true | _ => false end
           else match text with [] => false | t :: text' => if (c =? 46) || (c =? t) then matchhere re1 text' else false end) = true ↔
          matches (if (c =? 36) && match re1 with [] => true | _ => false end then [Eol] else Char c :: items re1) text) as Hplain.
  { destruct ((c =? 36) && _) eqn:E.
    - destruct text; split; [constructor|done|done|intros Hm; inversion Hm].
    - destruct text as [|t text]; [split; [done|intros Hm; inversion Hm]|]. split.
      + destruct ((c =? 46) || (c =? t)) eqn:Ec; [|done]. intros Hm. constructor; [|apply IH; [lia|done]].
        apply orb_true_iff in Ec as [Ec|Ec]; boolp; [by left|by right].
      + intros Hm. inversion Hm as [|? ? ? ? Hc Hm'| |]; subst. assert ((c =? 46) || (c =? t) = true) as ->; [|apply IH; [lia|done]].
        apply orb_true_iff. rewrite !Z.eqb_eq. done. }
  cbn [matchhere items]. destruct re1 as [|d re2]; [exact Hplain|]. destruct (d =? 42); [|exact Hplain]. cbn [length] in Hle.
  rewrite matchstar_spec. split.
  - intros (s & l & -> & Hs & Hl). constructor; [done|]. apply IH; [lia|done].
  - intros Hm. inversion Hm; subst. eexists _, _. split_and!; [done|done|]. apply IH; [lia|done].
Qed.

Lemma match_anywhere_spec re text : match_anywhere re text = true ↔ ∃ pre suf, text = pre ++ suf ∧ matches (items re) suf.
Proof.
  induction text as [|t text IH]; cbn [match_anywhere].
  - destruct (matchhere re []) eqn:E; split; [intros _; exists [], []; split; [done|by apply matchhere_spec]|done|done|].
    intros (pre & suf & Hs & Hm). symmetry in Hs. apply app_nil in Hs as [-> ->]. apply matchhere_spec in Hm. congruence.
  - destruct (matchhere re (t :: text)) eqn:E; [split; [intros _; exists [], (t :: text); split; [done|by apply matchhere_spec]|done]|].
    rewrite IH. split.
    + intros (pre & suf & -> & Hm). by exists (t :: pre), suf.
    + intros ([|x pre] & suf & Hs & Hm); [cbn in Hs; subst suf; apply matchhere_spec in Hm; congruence|]. injection Hs as -> ->. eauto.
Qed.

(** C38: The matcher decides the language of the pattern: a text matches when
    some part of it, from its beginning if the pattern is anchored with [^]
    and up to its end if the pattern ends in [$], is made of the pattern's
    items in order, a starred character standing for any number of
    characters it accepts. *)
Theorem match_language re text :
  match_ re text = true ↔
  match re with
  | 94 :: re' => matches (items re') text
  | _ => ∃ pre suf, text = pre ++ suf ∧ matches (items re) suf
  end.
Proof.
  unfold match_. destruct re as [|c re]; [apply match_anywhere_spec|]. destruct (Z.eqb_spec c 94) as [->|Hc]; [apply matchhere_spec|].
  assert (∀ (P Q : Prop), match c with 94 => P | _ => Q end = Q) as ->; [|apply match_anywhere_spec].
  intros P Q. repeat (match goal with |- context [match ?x with _ => _ end] => destruct x end; try done).
Qed.

(** ** Streams in any chunks *)

Definition data (s : io) : list Z := concat (chunks s).

Record stream (s : io) : Prop := {
  st_chunks : Forall (λ c, c ≠ []) (chunks s);
  st_end : at_end s ≤ 0;
  st_mem : nomem s = [];
}.

(** A read takes a first part of the stream, not an empty one while there is
    data. *)
Lemma wp_read k s (Q : Z * list Z → io → Prop) :
  1 ≤ k → stream s →
  (data s = [] → Q (at_end s, []) s) →
  (∀ l rest s', data s = l ++ rest → l ≠ [] → zlength l ≤ k → data s' = rest → stream s' → out s' = out s → at_end s' = at_end s → Q (zlength l, l) s') →
  wp (read k) s Q.
Proof.
  intros Hk [Hc He Hm] Hend Hdata. unfold read, wp. destruct (chunks s) as [|c cs] eqn:Ec; cbn [fst snd].
  - apply Hend. unfold data. by rewrite Ec.
  - apply Forall_cons in Hc as [Hc Hcs]. destruct (Z.leb_spec (zlength c) k) as [Hle|Hgt]; cbn [fst snd].
    + apply (Hdata c (concat cs)); try done. unfold data. by rewrite Ec.
    + assert (length (take (Z.to_nat k) c) = Z.to_nat k) as Hlen by (rewrite length_take; unfold zlength in *; lia).
      replace k with (zlength (take (Z.to_nat k) c)) at 1 by (unfold zlength; lia). apply (Hdata _ (drop (Z.to_nat k) c ++ concat cs)); try done.
      * unfold data. rewrite Ec. cbn. by rewrite app_assoc, take_drop.
      * intros E. rewrite E in Hlen. cbn in Hlen. lia.
      * unfold zlength. lia.
      * constructor; [|done|done]. constructor; [|done]. intros E. apply (f_equal length) in E. rewrite length_drop in E. unfold zlength in *. cbn in E. lia.
Qed.

(** *** grep *)

(** The lines of a text, [cur] being the beginning of the first, and what is
    left behind the last newline. *)
Fixpoint split_lines (cur l : list Z) : list (list Z) * list Z :=
  match l with
  | [] => ([], cur)
  | c :: l' => if c =? 10 then let '(ls, r) := split_lines [] l' in (cur :: ls, r) else split_lines (cur ++ [c]) l'
  end.

Definition selected (pattern line : list Z) : list Z := if match_ pattern (until_nul line) then line ++ [10] else [].

(** What grep puts out for a text: the lines that match, and the last one,
    without a newline, if it is not terminated. *)
Definition grep_output (pattern text : list Z) : list Z :=
  let '(ls, r) := split_lines [] text in
  concat (selected pattern <$> ls) ++ match r with [] => [] | _ => if match_ pattern (until_nul r) then r else [] end.

Lemma split_lines_app cur l k :
  split_lines cur (l ++ k) = ((split_lines cur l).1 ++ (split_lines (split_lines cur l).2 k).1, (split_lines (split_lines cur l).2 k).2).
Proof.
  revert cur. induction l as [|c l IH]; intros cur; cbn [app split_lines fst snd]; [by destruct (split_lines cur k)|].
  destruct (c =? 10); [|apply IH]. rewrite IH. by destruct (split_lines [] l).
Qed.

(** What is left has no newline: scanning it again changes nothing. *)
Lemma split_lines_rest cur l : Forall (λ c, c ≠ 10) cur → Forall (λ c, c ≠ 10) (split_lines cur l).2.
Proof.
  revert cur. induction l as [|c l IH]; intros cur Hc; cbn [split_lines]; [done|]. destruct (Z.eqb_spec c 10).
  - specialize (IH [] ltac:(constructor)). by destruct (split_lines [] l).
  - apply IH. apply Forall_app. split; [done|by apply Forall_singleton].
Qed.

Lemma split_lines_none cur l : Forall (λ c, c ≠ 10) l → split_lines cur l = ([], cur ++ l).
Proof.
  intros Hl. revert cur. induction Hl as [|c l Hc _ IH]; intros cur; cbn [split_lines]; [by rewrite app_nil_r|].
  rewrite (proj2 (Z.eqb_neq _ _) Hc), IH, <- app_assoc. done.
Qed.

Lemma split_lines_length cur l : (length (split_lines cur l).2 ≤ length cur + length l)%nat.
Proof.
  revert cur. induction l as [|c l IH]; intros cur; cbn [split_lines]; [cbn; lia|]. destruct (c =? 10).
  - specialize (IH []). destruct (split_lines [] l). cbn in *. lia.
  - specialize (IH (cur ++ [c])). rewrite length_app in IH. cbn in *. lia.
Qed.

Lemma scan_lines_run pattern cur buf s :
  scan_lines pattern cur buf s =
  ((split_lines cur buf).2, mk_io (chunks s) (at_end s) (out s ++ concat (selected pattern <$> (split_lines cur buf).1)) (nomem s)).
Proof.
  revert cur s. induction buf as [|c buf IH]; intros cur s; cbn [scan_lines split_lines].
  - unfold mret, ST_ret. cbn. rewrite app_nil_r. by destruct s.
  - destruct (c =? 10); cbn [negb]; [|apply IH]. unfold mbind, ST_bind. destruct (match_ pattern (until_nul cur)) eqn:E.
    + assert (selected pattern cur = cur ++ [10]) as Hsel by (unfold selected; by rewrite E). cbn [write]. rewrite IH. cbn [chunks at_end out nomem].
      destruct (split_lines [] buf) as [ls r]. cbn [fst snd fmap list_fmap concat]. by rewrite Hsel, <- !app_assoc.
    + assert (selected pattern cur = []) as Hsel by (unfold selected; by rewrite E). unfold mret, ST_ret. rewrite IH.
      destruct (split_lines [] buf) as [ls r]. cbn [fst snd fmap list_fmap concat]. by rewrite Hsel.
Qed.

Lemma wp_grep_loop fuel pattern buf capacity s :
  stream s → zlength buf ≤ capacity - 1 → Forall (λ c, c ≠ 10) buf → (length (data s) < fuel)%nat →
  wp (grep_loop fuel pattern buf capacity) s (λ r s',
    r = Some (at_end s, (split_lines buf (data s)).2) ∧ out s' = out s ++ concat (selected pattern <$> (split_lines buf (data s)).1)).
Proof.
  revert buf capacity s. induction fuel as [|k IH]; intros buf capacity s Hs Hcap Hbuf Hf; [lia|]. cbn [grep_loop].
  pose proof (zlength_nonneg buf) as Hb0. destruct Hs as [Hch Hend Hmem] eqn:EHs. clear EHs.
  assert (∀ cap', zlength buf < cap' - 1 →
    wp ('(n, bytes) ← read (cap' - zlength buf - 1); if n <=? 0 then mret (Some (n, buf)) else buf ← scan_lines pattern [] (buf ++ bytes); grep_loop k pattern buf cap') s
      (λ r s', r = Some (at_end s, (split_lines buf (data s)).2) ∧ out s' = out s ++ concat (selected pattern <$> (split_lines buf (data s)).1))) as Hmain.
  { intros cap' Hcap'. apply wp_bind. apply wp_read; [lia|done| |].
    - intros Ed. rewrite (proj2 (Z.leb_le _ _)) by done. apply wp_ret. rewrite Ed. cbn. by rewrite app_nil_r.
    - intros l rest s' Ed Hl Hlk Ed' Hs' Eo Ee. assert (0 < zlength l) as Hl0 by (destruct l; [done|rewrite zlength_cons; pose proof (zlength_nonneg l); lia]).
      rewrite (proj2 (Z.leb_gt _ _)) by lia. apply wp_bind. unfold wp at 1. rewrite scan_lines_run. cbn [fst snd].
      rewrite split_lines_app, (split_lines_none [] buf Hbuf), app_nil_l. cbn [fst snd app].
      eapply wp_mono; [apply IH|].
      + destruct Hs'. by constructor.
      + pose proof (split_lines_length buf l). unfold zlength in *. lia.
      + by apply split_lines_rest.
      + unfold data at 1. cbn [chunks]. fold (data s'). rewrite Ed'. rewrite Ed, length_app in Hf. unfold zlength in Hl0. lia.
      + cbv beta. intros r s2 [-> ->]. unfold data. cbn [chunks at_end out]. fold (data s') (data s). rewrite Ed', Ed, Ee, Eo, split_lines_app. cbn [fst snd].
        by rewrite fmap_app, concat_app, app_assoc. }
  destruct (Z.eqb_spec (zlength buf) (capacity - 1)) as [He|He].
  - apply wp_bind. unfold wp at 1, alloc. rewrite Hmem. cbn [fst snd negb]. apply Hmain. unfold BUFSZ. lia.
  - apply wp_bind, wp_ret. cbn [negb]. apply Hmain. lia.
Qed.

(** grep prints exactly the lines that match, whatever pieces the data
    arrives in and however long its lines are: with memory for its buffer it
    reads to the end of the stream and its output is that of the whole text. *)
Theorem grep_stream fuel pattern s :
  stream s → (length (data s) < fuel)%nat →
  wp (grep fuel pattern) s (λ n s', n = at_end s ∧ out s' = out s ++ grep_output pattern (data s)).
Proof.
  intros Hs Hf. unfold grep. apply wp_bind. unfold wp at 1, alloc. rewrite (st_mem _ Hs). cbn [fst snd negb]. apply wp_bind.
  eapply wp_mono; [apply wp_grep_loop; [done|unfold BUFSZ, zlength; cbn; lia|constructor|done]|]. cbv beta. intros r s1 [-> E1]. unfold grep_output.
  destruct (split_lines [] (data s)) as [ls r]. cbn [fst snd] in *. apply wp_bind. destruct r as [|c r].
  - apply wp_ret, wp_ret. by rewrite app_nil_r.
  - destruct (match_ pattern (until_nul (c :: r))); [unfold wp; cbn; by rewrite E1, <- app_assoc|]. apply wp_ret, wp_ret. by rewrite app_nil_r.
Qed.

(** *** wc *)

(** The words of a text: the places where a character that is no white space
    follows white space or nothing. *)
Fixpoint word_starts (inside : bool) (l : list Z) : Z :=
  match l with
  | [] => 0
  | c :: l' => (if negb (whitespace c) && negb inside then 1 else 0) + word_starts (negb (whitespace c)) l'
  end.

Definition newlines (l : list Z) : Z := zlength (filter (λ c, c = 10) l).

Lemma newlines_cons c l : newlines (c :: l) = (if c =? 10 then 1 else 0) + newlines l.
Proof. unfold newlines. rewrite filter_cons. case_decide as Hc; [subst c; rewrite zlength_cons; cbn; lia|]. by rewrite (proj2 (Z.eqb_neq _ _) Hc). Qed.

Lemma newlines_range l : 0 ≤ newlines l ≤ zlength l.
Proof. unfold newlines, zlength. pose proof (length_filter (λ c, c = 10) l). lia. Qed.

Lemma word_starts_range b l : 0 ≤ word_starts b l ≤ zlength l.
Proof. revert b. induction l as [|c l IH]; intros b; cbn [word_starts]; [unfold zlength; cbn; lia|]. rewrite zlength_cons. specialize (IH (negb (whitespace c))). case_if; lia. Qed.

Lemma count_bytes l a :
  0 ≤ lines a → lines a + zlength l < 2147483648 → 0 ≤ words a → words a + zlength l < 2147483648 →
  ∃ b, foldl count_byte a l = mk_counts (lines a + newlines l) (words a + word_starts (inword a) l) (chars a) b ∧
    (∀ k, word_starts (inword a) (l ++ k) = word_starts (inword a) l + word_starts b k).
Proof.
  revert a. induction l as [|c l IH]; intros a Hl1 Hl2 Hw1 Hw2.
  - exists (inword a). cbn. rewrite !Z.add_0_r. by destruct a.
  - rewrite zlength_cons in *. pose proof (zlength_nonneg l). cbn [foldl]. rewrite newlines_cons.
    assert (∀ x y z w, count_byte a c = mk_counts x y z w → x = lines a + (if c =? 10 then 1 else 0) ∧
      y = words a + (if negb (whitespace c) && negb (inword a) then 1 else 0) ∧ z = chars a ∧ w = negb (whitespace c)) as Hb.
    { intros x y z w. unfold count_byte. destruct (whitespace c), (inword a); cbn [negb andb]; (destruct (c =? 10); rewrite ?s32_id by lia; intros [= <- <- <- <-]; split_and!; lia || done). }
    destruct (count_byte a c) as [x y z w]. destruct (Hb _ _ _ _ eq_refl) as (-> & -> & -> & ->). clear Hb.
    destruct (IH (mk_counts (lines a + (if c =? 10 then 1 else 0)) (words a + (if negb (whitespace c) && negb (inword a) then 1 else 0)) (chars a) (negb (whitespace c))))
      as (b & -> & Hb); cbn [lines words chars inword] in *; try (repeat case_if; lia).
    exists b. cbn [lines words chars inword] in *. split; [f_equal; cbn [word_starts]; lia|]. intros k. cbn [word_starts app]. rewrite Hb. lia.
Qed.

Lemma newlines_app l k : newlines (l ++ k) = newlines l + newlines k.
Proof. unfold newlines. by rewrite filter_app, zlength_app. Qed.

Lemma wp_count_loop fuel a s :
  stream s → (length (data s) < fuel)%nat → 0 ≤ lines a → lines a + zlength (data s) < 2147483648 → 0 ≤ words a →
  words a + zlength (data s) < 2147483648 → 0 ≤ chars a → chars a + zlength (data s) < 2147483648 →
  wp (count_loop fuel a) s (λ r _,
    if at_end s <? 0 then r = None else ∃ b, r = Some (mk_counts (lines a + newlines (data s)) (words a + word_starts (inword a) (data s)) (chars a + zlength (data s)) b)).
Proof.
  revert a s. induction fuel as [|k IH]; intros a s Hs Hf L1 L2 W1 W2 C1 C2; [lia|]. cbn [count_loop]. apply wp_bind. apply wp_read; [lia|done| |].
  - intros Ed. pose proof (st_end _ Hs). rewrite Z.gtb_ltb, (proj2 (Z.ltb_ge _ _)) by lia. rewrite Ed. destruct (at_end s <? 0); apply wp_ret; [done|].
    exists (inword a). cbn. unfold newlines, zlength. cbn. rewrite !Z.add_0_r. by destruct a.
  - intros l rest s' Ed Hl Hlk Ed' Hs' Eo Ee. rewrite Ed in *. rewrite zlength_app in *. rewrite length_app in Hf.
    pose proof (zlength_nonneg rest). assert (0 < zlength l) as Hl0 by (destruct l; [done|rewrite zlength_cons; pose proof (zlength_nonneg l); lia]).
    rewrite (proj2 (Z.gtb_lt _ _)) by lia. rewrite s32_id by lia.
    destruct (count_bytes l (mk_counts (lines a) (words a) (chars a + zlength l) (inword a))) as (b & -> & Hb); cbn [lines words chars inword] in *; try lia.
    pose proof (newlines_range l). pose proof (word_starts_range (inword a) l).
    eapply wp_mono; [apply IH|]; cbn [lines words chars inword]; rewrite ?Ed'; try lia; [done|unfold zlength in Hl0; lia|].
    cbv beta. intros r s2. rewrite ?Ee, ?Ed'. destruct (at_end s <? 0); [done|]. intros [b' ->]. exists b'. rewrite newlines_app, Hb. do 2 f_equal; lia.
Qed.

(** wc counts right on any stream of less than 2^31 bytes: the number of
    newlines, of words and of characters do not depend on the chunks, in
    particular not on a word that is split between two of them; a read error
    gives no counts. *)
Theorem wc_counts fuel s :
  stream s → (length (data s) < fuel)%nat → zlength (data s) < 2147483648 →
  wp (count fuel) s (λ r _,
    if at_end s <? 0 then r = None
    else ∃ b, r = Some (mk_counts (newlines (data s)) (word_starts false (data s)) (zlength (data s)) b)).
Proof. intros Hs Hf Hl. unfold count. by apply (wp_count_loop fuel (mk_counts 0 0 0 false)). Qed.

Lemma copy_stream fuel s :
  stream s → (length (data s) < fuel)%nat → wp (copy fuel) s (λ n s', n = at_end s ∧ out s' = out s ++ data s).
Proof.
  revert s. induction fuel as [|k IH]; intros s Hs Hf; [lia|]. cbn [copy]. apply wp_bind. apply wp_read; [unfold CAT_BUFSZ; lia|done| |].
  - intros Ed. pose proof (st_end _ Hs). rewrite Z.gtb_ltb, (proj2 (Z.ltb_ge _ _)) by lia. apply wp_ret. by rewrite Ed, app_nil_r.
  - intros l rest s' Ed Hl Hlk Ed' Hs' Eo Ee. assert (0 < zlength l) as Hl0 by (destruct l; [done|rewrite zlength_cons; pose proof (zlength_nonneg l); lia]).
    rewrite (proj2 (Z.gtb_lt _ _)) by lia. apply wp_bind. unfold wp at 1. cbn [write fst snd]. eapply wp_mono; [apply IH|].
    + destruct Hs'. by constructor.
    + unfold data at 1. cbn [chunks]. fold (data s'). rewrite Ed'. rewrite Ed, length_app in Hf. unfold zlength in Hl0. lia.
    + cbv beta. intros n s2 [-> ->]. unfold data. cbn [chunks at_end out]. fold (data s') (data s). by rewrite Ee, Eo, Ed', Ed, app_assoc.
Qed.

(** *** A stream in pieces *)

Definition pieces : io := mk_io [[97; 98]; [99; 10; 98]; [98; 32; 99; 10; 97]] 0 [] [].

Lemma pieces_stream : stream pieces.
Proof. constructor; [|cbn; lia|done]. by repeat constructor. Qed.

(** [grep b*c$] *)
Lemma grep_stream_witness :
  wp (grep 11 [98; 42; 99; 36]) pieces (λ n s', n = 0 ∧ out s' = [] ++ grep_output [98; 42; 99; 36] [97; 98; 99; 10; 98; 98; 32; 99; 10; 97]).
Proof. apply (grep_stream 11 [98; 42; 99; 36] pieces pieces_stream). cbn. lia. Defined.

Lemma wc_counts_witness :
  wp (count 11) pieces (λ r _,
    if 0 <? 0 then r = None
    else ∃ b, r = Some (mk_counts (newlines (data pieces)) (word_starts false (data pieces)) (zlength (data pieces)) b)).
Proof. apply (wc_counts 11 pieces pieces_stream); [cbn; lia|reflexivity]. Defined.
End UTools.
