(* ===== verification/Browser.v ===== *)
(** * Characters of a page (user/browser.c, charset decoding)

    UTF-8 with Latin-1 as the fallback, and the glyphs of the font.  Text is
    the list of the bytes from the current position to the end. *)

From Stdlib Require Import String.
From S2P Require Import Prelude Shell.

Module BrowserText.
Import Shell.

Definition lower (c : Z) : Z := if (c >=? 65) && (c <=? 90) then c + 32 else c.

Definition latin1_cp437 : list Z :=
  [0x20; 0xAD; 0x9B; 0x9C; 0x3F; 0x9D; 0x7C; 0x15; 0x22; 0x63; 0xA6; 0xAE;
   0xAA; 0; 0x72; 0x2D; 0xF8; 0xF1; 0xFD; 0x33; 0x27; 0xE6; 0x14; 0xFA;
   0x2C; 0x31; 0xA7; 0xAF; 0xAC; 0xAB; 0x3F; 0xA8; 0x41; 0x41; 0x41; 0x41;
   0x8E; 0x8F; 0x92; 0x80; 0x45; 0x90; 0x45; 0x45; 0x49; 0x49; 0x49; 0x49;
   0x44; 0xA5; 0x4F; 0x4F; 0x4F; 0x4F; 0x99; 0x78; 0x4F; 0x55; 0x55; 0x55;
   0x9A; 0x59; 0x3F; 0xE1; 0x85; 0xA0; 0x83; 0x61; 0x84; 0x86; 0x91; 0x87;
   0x8A; 0x82; 0x88; 0x89; 0x8D; 0xA1; 0x8C; 0x8B; 0x3F; 0xA4; 0x95; 0xA2;
   0x93; 0x6F; 0x94; 0xF6; 0x6F; 0x97; 0xA3; 0x96; 0x81; 0x79; 0x3F; 0x98].

(** The glyph of a code point; 0 is dropped. *)
Definition cp_to_char (cp : Z) : Z :=
  if cp <? 0x80 then cp
  else if (cp >=? 0xA0) && (cp <=? 0xFF) then bget latin1_cp437 (cp - 0xA0)
  else match cp with
  | 0x2018 | 0x2019 | 0x201A => 0x27
  | 0x201C | 0x201D | 0x201E => 0x22
  | 0x2010 | 0x2011 | 0x2013 | 0x2014 | 0x2212 => 0x2D
  | 0x2022 => 0x07
  | 0x00B7 => 0xFA
  | 0x2190 => 0x1B
  | 0x2191 => 0x18
  | 0x2192 => 0x1A
  | 0x2193 => 0x19
  | 0x20AC => 0x45
  | 0x200B | 0xFEFF => 0
  | _ => 0x3F
  end.

(** The [need] bytes behind the first: the code point, or [None]. *)
Fixpoint continuation (need : nat) (v : Z) (l : list Z) : option (Z * list Z) :=
  match need with
  | O => Some (v, l)
  | S k =>
      match l with
      | [] => None
      | b :: l' =>
          if negb (Z.land b 0xC0 =? 0x80) then None
          else continuation k (u32 (Z.lor (Z.shiftl v 6) (Z.land b 0x3F))) l'
      end
  end.

(** The code point at the head of the text, and the text behind it. *)
Definition utf8_decode (src : list Z) : Z * list Z :=
  match src with
  | [] => (0, [])
  | c :: rest =>
      if c <? 0x80 then (c, rest) else
      let sequence v need min :=
        match continuation need v rest with
        | Some (v, l) => if s32 v <? min then (c, rest) else (v, l)
        | None => (c, rest)
        end in
      if Z.land c 0xE0 =? 0xC0 then sequence (Z.land c 0x1F) 1%nat 0x80
      else if Z.land c 0xF0 =? 0xE0 then sequence (Z.land c 0x0F) 2%nat 0x800
      else if Z.land c 0xF8 =? 0xF0 then sequence (Z.land c 0x07) 3%nat 0x10000
      else (c, rest)
  end.

Definition entities : list (text * Z) :=
  [(txt "amp", 0x26); (txt "lt", 0x3C); (txt "gt", 0x3E); (txt "quot", 0x22); (txt "apos", 0x27); (txt "nbsp", 0xA0);
   (txt "copy", 0xA9); (txt "reg", 0xAE); (txt "deg", 0xB0); (txt "middot", 0xB7); (txt "laquo", 0xAB); (txt "raquo", 0xBB);
   (txt "szlig", 0xDF); (txt "auml", 0xE4); (txt "ouml", 0xF6); (txt "uuml", 0xFC); (txt "Auml", 0xC4); (txt "Ouml", 0xD6);
   (txt "Uuml", 0xDC); (txt "eacute", 0xE9); (txt "egrave", 0xE8); (txt "agrave", 0xE0); (txt "ccedil", 0xE7); (txt "ndash", 0x2013);
   (txt "mdash", 0x2014); (txt "lsquo", 0x2018); (txt "rsquo", 0x2019); (txt "ldquo", 0x201C); (txt "rdquo", 0x201D);
   (txt "hellip", 0x2026); (txt "bull", 0x2022); (txt "times", 0xD7); (txt "shy", 0xAD)].

Definition alnum (c : Z) : bool :=
  ((c >=? 97) && (c <=? 122)) || ((c >=? 65) && (c <=? 90)) || ((c >=? 48) && (c <=? 57)).

(** The name of an entity, at most [n] characters. *)
Fixpoint entity_name (n : nat) (l : list Z) : list Z * list Z :=
  match n, l with
  | S n', c :: l' => if alnum c || (c =? 35) then let '(e, r) := entity_name n' l' in (c :: e, r) else ([], l)
  | _, _ => ([], l)
  end.

Fixpoint hex_value (cp : Z) (l : list Z) : option Z :=
  match l with
  | [] => Some cp
  | c :: l' =>
      let c := lower c in
      let d := if (c >=? 48) && (c <=? 57) then c - 48 else if (c >=? 97) && (c <=? 102) then c - 97 + 10 else -1 in
      if d <? 0 then None else hex_value (u32 (cp * 16 + d)) l'
  end.

Fixpoint dec_value (cp : Z) (l : list Z) : option Z :=
  match l with
  | [] => Some cp
  | c :: l' => if (c <? 48) || (c >? 57) then None else dec_value (u32 (cp * 10 + (c - 48))) l'
  end.

Definition entity_value (ent : list Z) : option Z :=
  match ent with
  | 35 :: rest =>
      match rest with
      | c :: digits => if (c =? 120) || (c =? 88) then hex_value 0 digits else dec_value 0 rest
      | [] => dec_value 0 rest
      end
  | _ => snd <$> find (λ e, streq ent e.1) entities
  end.

(** The code point of the entity behind an ampersand and the text behind it;
    an ampersand by itself when there is none. *)
Definition parse_entity (rest : list Z) : Z * list Z :=
  let '(ent, l) := entity_name 11 rest in
  match l with
  | c :: l' =>
      if negb (c =? 59) || match ent with [] => true | _ => false end then (38, rest)
      else match entity_value ent with Some cp => (cp, l') | None => (38, rest) end
  | [] => (38, rest)
  end.

(** ** Round trip *)

(** UTF-8 as the standard has it, in its four lengths. *)
Definition utf8_encode (cp : Z) : list Z :=
  if cp <? 0x80 then [cp]
  else if cp <? 0x800 then [0xC0 + cp / 64; 0x80 + cp mod 64]
  else if cp <? 0x10000 then [0xE0 + cp / 4096; 0x80 + cp / 64 mod 64; 0x80 + cp mod 64]
  else [0xF0 + cp / 262144; 0x80 + cp / 4096 mod 64; 0x80 + cp / 64 mod 64; 0x80 + cp mod 64].

Lemma all_below n (P : Z → bool) : forallb P (seqZ 0 n) = true → ∀ x, 0 ≤ x < n → P x = true.
Proof. intros H x Hx. rewrite forallb_forall in H. apply H. apply list_elem_of_In, elem_of_seqZ. lia. Qed.

(** The bits of the first byte of each kind, and of the bytes behind it. *)
Lemma lead2 a : 0 ≤ a < 32 → Z.land (0xC0 + a) 0xE0 = 0xC0 ∧ Z.land (0xC0 + a) 0x1F = a.
Proof.
  intros Ha. pose proof (all_below 32 (λ a, (Z.land (0xC0 + a) 0xE0 =? 0xC0) && (Z.land (0xC0 + a) 0x1F =? a)) eq_refl a Ha) as H. cbv beta in H. by boolp.
Qed.
Lemma lead3 a : 0 ≤ a < 16 → Z.land (0xE0 + a) 0xE0 ≠ 0xC0 ∧ Z.land (0xE0 + a) 0xF0 = 0xE0 ∧ Z.land (0xE0 + a) 0x0F = a.
Proof.
  intros Ha. pose proof (all_below 16 (λ a, negb (Z.land (0xE0 + a) 0xE0 =? 0xC0) && (Z.land (0xE0 + a) 0xF0 =? 0xE0) && (Z.land (0xE0 + a) 0x0F =? a)) eq_refl a Ha) as H.
  cbv beta in H. by boolp.
Qed.
Lemma lead4 a :
  0 ≤ a < 8 → Z.land (0xF0 + a) 0xE0 ≠ 0xC0 ∧ Z.land (0xF0 + a) 0xF0 ≠ 0xE0 ∧ Z.land (0xF0 + a) 0xF8 = 0xF0 ∧ Z.land (0xF0 + a) 0x07 = a.
Proof.
  intros Ha. pose proof (all_below 8 (λ a, negb (Z.land (0xF0 + a) 0xE0 =? 0xC0) && negb (Z.land (0xF0 + a) 0xF0 =? 0xE0) &&
    (Z.land (0xF0 + a) 0xF8 =? 0xF0) && (Z.land (0xF0 + a) 0x07 =? a)) eq_refl a Ha) as H. cbv beta in H. by boolp.
Qed.
Lemma behind b : 0 ≤ b < 64 → Z.land (0x80 + b) 0xC0 = 0x80 ∧ Z.land (0x80 + b) 0x3F = b.
Proof.
  intros Hb. pose proof (all_below 64 (λ b, (Z.land (0x80 + b) 0xC0 =? 0x80) && (Z.land (0x80 + b) 0x3F =? b)) eq_refl b Hb) as H. cbv beta in H. by boolp.
Qed.

Lemma continuation_step k v b l :
  0 ≤ v < 0x8000 → 0 ≤ b < 64 → continuation (S k) v ((0x80 + b) :: l) = continuation k (v * 64 + b) l.
Proof.
  intros Hv Hb. destruct (behind b Hb) as [H1 H2]. cbn [continuation]. rewrite H1, H2. cbn [Z.eqb Pos.eqb negb].
  rewrite Z.shiftl_mul_pow2 by lia. rewrite lor_add by lia. change (2 ^ 6) with 64. rewrite u32_small by lia. done.
Qed.

(** Decoding undoes encoding: for every code point, of one to four bytes,
    the decoder reads its UTF-8 sequence back as that code point and stops
    right behind it, whatever follows. *)
Theorem utf8_roundtrip cp rest : 0 ≤ cp < 0x110000 → utf8_decode (utf8_encode cp ++ rest) = (cp, rest).
Proof.
  intros Hcp. unfold utf8_encode. repeat case_if; cbn [app utf8_decode].
  - by rewrite (proj2 (Z.ltb_lt _ _)).
  - destruct (lead2 (cp / 64) ltac:(zdm)) as [H1 H2]. rewrite (proj2 (Z.ltb_ge _ 0x80)) by zdm. rewrite H1, H2. cbn [Z.eqb Pos.eqb].
    rewrite continuation_step by zdm. cbn [continuation]. replace (cp / 64 * 64 + cp mod 64) with cp by zdm. rewrite s32_id by lia.
    by rewrite (proj2 (Z.ltb_ge _ _)) by lia.
  - destruct (lead3 (cp / 4096) ltac:(zdm)) as (H1 & H2 & H3). rewrite (proj2 (Z.ltb_ge _ 0x80)) by zdm.
    rewrite (proj2 (Z.eqb_neq _ _) H1), H2, H3. cbn [Z.eqb Pos.eqb]. rewrite !continuation_step by zdm. cbn [continuation].
    replace ((cp / 4096 * 64 + cp / 64 mod 64) * 64 + cp mod 64) with cp by zdm. rewrite s32_id by lia. by rewrite (proj2 (Z.ltb_ge _ _)) by lia.
  - destruct (lead4 (cp / 262144) ltac:(zdm)) as (H1 & H2 & H3 & H4). rewrite (proj2 (Z.ltb_ge _ 0x80)) by zdm.
    rewrite (proj2 (Z.eqb_neq _ _) H1), (proj2 (Z.eqb_neq _ _) H2), H3, H4. cbn [Z.eqb Pos.eqb]. rewrite !continuation_step by zdm. cbn [continuation].
    replace (((cp / 262144 * 64 + cp / 4096 mod 64) * 64 + cp / 64 mod 64) * 64 + cp mod 64) with cp by zdm. rewrite s32_id by lia.
    by rewrite (proj2 (Z.ltb_ge _ _)) by lia.
Qed.

(** ** Progress *)

Lemma continuation_length k v l v' l' : continuation k v l = Some (v', l') → (length l' ≤ length l)%nat.
Proof.
  revert v l. induction k as [|k IH]; intros v l; cbn [continuation]; [by intros [= <- <-]|]. destruct l as [|b l]; [done|]. case_if; [done|].
  intros Hc. apply IH in Hc. cbn. lia.
Qed.

Lemma utf8_decode_length c src : (length (utf8_decode (c :: src)).2 ≤ length src)%nat.
Proof.
  cbn [utf8_decode]. case_if; [done|].
  assert (∀ v need min, (length (match continuation need v src with Some (v, l) => if (s32 v <? min)%Z then (c, src) else (v, l) | None => (c, src) end).2 ≤ length src)%nat) as Hs.
  { intros v need min. destruct (continuation need v src) as [[v' l]|] eqn:Ec; [|done]. apply continuation_length in Ec. by destruct (s32 v' <? min). }
  repeat case_if; done || apply Hs.
Qed.

Lemma entity_name_length n l : (length (entity_name n l).2 ≤ length l)%nat.
Proof.
  revert l. induction n as [|n IH]; intros [|c l]; cbn [entity_name]; try done. case_if; [|done]. specialize (IH l). destruct (entity_name n l). cbn in *. lia.
Qed.

Lemma parse_entity_length rest : (length (parse_entity rest).2 ≤ length rest)%nat.
Proof.
  unfold parse_entity. pose proof (entity_name_length 11 rest) as Hl. destruct (entity_name 11 rest) as [ent [|c l]]; [done|]. cbn in Hl.
  case_if; [done|]. destruct (entity_value ent); cbn; lia.
Qed.

Lemma utf8_roundtrip_witness : utf8_decode (utf8_encode 0x1F600 ++ [65]) = (0x1F600, [65]).
Proof. apply (utf8_roundtrip 0x1F600 [65]). lia. Defined.
End BrowserText.

(** * The layout of a page (user/browser.c, layout)

    The tokenizer and the word wrapper: a page becomes spans of text in an
    arena, and links.  [textlen], [nspans], [nlinks], [tlen] and [runlen] are
    the lengths of the lists of their arrays. *)

Module Browser.
Import Shell BrowserText.

Definition URL_CAP : Z := 512.
Definition TEXT_CAP : Z := 256 * 1024.
Definition MAX_SPANS : Z := 16384.
Definition MAX_LINKS : Z := 256.
Definition MARGIN : Z := 8.
Definition CHAR_W : Z := 8.
Definition TITLE_CAP : Z := 128.
Definition RUN_CAP : Z := 160.

Definition COL_TEXT : Z := 0x101010.
Definition COL_LINK : Z := 0xEE.
Definition COL_LINKNUM : Z := 0xB04000.
Definition COL_HEAD : Z := 0x80.
Definition COL_RULE : Z := 0x808080.

Definition F_UL : Z := 1.
Definition F_BOLD : Z := 2.
Definition F_RULE : Z := 4.

Record span := mk_span { x : Z; line : Z; off : Z; len : Z; link : Z; color : Z; flags : Z }.

Record layout := mk_layout {
  arena : list Z;
  spans : list span;
  links : list text;
  cur_line : Z;
  cur_x : Z;
  indent : Z;
  pre_depth : Z;
  bold_depth : Z;
  heading : Z;
  link_cur : Z;
  pending_space : bool;
  did_emit : bool;
  layout_full : bool;
  want_break : bool;
  want_blank : bool;
  in_title : bool;
  title : list Z;
  title_pend : bool;
  run : list Z;
  skiptag : option text;
}.

Definition set_links (v : list text) (s : layout) : layout :=
  mk_layout (arena s) (spans s) v (cur_line s) (cur_x s) (indent s) (pre_depth s) (bold_depth s) (heading s) (link_cur s) (pending_space s) (did_emit s) (layout_full s) (want_break s) (want_blank s) (in_title s) (title s) (title_pend s) (run s) (skiptag s).
Definition set_cur_line (v : Z) (s : layout) : layout :=
  mk_layout (arena s) (spans s) (links s) v (cur_x s) (indent s) (pre_depth s) (bold_depth s) (heading s) (link_cur s) (pending_space s) (did_emit s) (layout_full s) (want_break s) (want_blank s) (in_title s) (title s) (title_pend s) (run s) (skiptag s).
Definition set_cur_x (v : Z) (s : layout) : layout :=
  mk_layout (arena s) (spans s) (links s) (cur_line s) v (indent s) (pre_depth s) (bold_depth s) (heading s) (link_cur s) (pending_space s) (did_emit s) (layout_full s) (want_break s) (want_blank s) (in_title s) (title s) (title_pend s) (run s) (skiptag s).
Definition set_indent (v : Z) (s : layout) : layout :=
  mk_layout (arena s) (spans s) (links s) (cur_line s) (cur_x s) v (pre_depth s) (bold_depth s) (heading s) (link_cur s) (pending_space s) (did_emit s) (layout_full s) (want_break s) (want_blank s) (in_title s) (title s) (title_pend s) (run s) (skiptag s).
Definition set_pre_depth (v : Z) (s : layout) : layout :=
  mk_layout (arena s) (spans s) (links s) (cur_line s) (cur_x s) (indent s) v (bold_depth s) (heading s) (link_cur s) (pending_space s) (did_emit s) (layout_full s) (want_break s) (want_blank s) (in_title s) (title s) (title_pend s) (run s) (skiptag s).
Definition set_bold_depth (v : Z) (s : layout) : layout :=
  mk_layout (arena s) (spans s) (links s) (cur_line s) (cur_x s) (indent s) (pre_depth s) v (heading s) (link_cur s) (pending_space s) (did_emit s) (layout_full s) (want_break s) (want_blank s) (in_title s) (title s) (title_pend s) (run s) (skiptag s).
Definition set_heading (v : Z) (s : layout) : layout :=
  mk_layout (arena s) (spans s) (links s) (cur_line s) (cur_x s) (indent s) (pre_depth s) (bold_depth s) v (link_cur s) (pending_space s) (did_emit s) (layout_full s) (want_break s) (want_blank s) (in_title s) (title s) (title_pend s) (run s) (skiptag s).
Definition set_link_cur (v : Z) (s : layout) : layout :=
  mk_layout (arena s) (spans s) (links s) (cur_line s) (cur_x s) (indent s) (pre_depth s) (bold_depth s) (heading s) v (pending_space s) (did_emit s) (layout_full s) (want_break s) (want_blank s) (in_title s) (title s) (title_pend s) (run s) (skiptag s).
Definition set_pending_space (v : bool) (s : layout) : layout :=
  mk_layout (arena s) (spans s) (links s) (cur_line s) (cur_x s) (indent s) (pre_depth s) (bold_depth s) (heading s) (link_cur s) v (did_emit s) (layout_full s) (want_break s) (want_blank s) (in_title s) (title s) (title_pend s) (run s) (skiptag s).
Definition set_did_emit (v : bool) (s : layout) : layout :=
  mk_layout (arena s) (spans s) (links s) (cur_line s) (cur_x s) (indent s) (pre_depth s) (bold_depth s) (heading s) (link_cur s) (pending_space s) v (layout_full s) (want_break s) (want_blank s) (in_title s) (title s) (title_pend s) (run s) (skiptag s).
Definition set_layout_full (v : bool) (s : layout) : layout :=
  mk_layout (arena s) (spans s) (links s) (cur_line s) (cur_x s) (indent s) (pre_depth s) (bold_depth s) (heading s) (link_cur s) (pending_space s) (did_emit s) v (want_break s) (want_blank s) (in_title s) (title s) (title_pend s) (run s) (skiptag s).
Definition set_want_break (v : bool) (s : layout) : layout :=
  mk_layout (arena s) (spans s) (links s) (cur_line s) (cur_x s) (indent s) (pre_depth s) (bold_depth s) (heading s) (link_cur s) (pending_space s) (did_emit s) (layout_full s) v (want_blank s) (in_title s) (title s) (title_pend s) (run s) (skiptag s).
Definition set_want_blank (v : bool) (s : layout) : layout :=
  mk_layout (arena s) (spans s) (links s) (cur_line s) (cur_x s) (indent s) (pre_depth s) (bold_depth s) (heading s) (link_cur s) (pending_space s) (did_emit s) (layout_full s) (want_break s) v (in_title s) (title s) (title_pend s) (run s) (skiptag s).
Definition set_in_title (v : bool) (s : layout) : layout :=
  mk_layout (arena s) (spans s) (links s) (cur_line s) (cur_x s) (indent s) (pre_depth s) (bold_depth s) (heading s) (link_cur s) (pending_space s) (did_emit s) (layout_full s) (want_break s) (want_blank s) v (title s) (title_pend s) (run s) (skiptag s).
Definition set_title (v : list Z) (s : layout) : layout :=
  mk_layout (arena s) (spans s) (links s) (cur_line s) (cur_x s) (indent s) (pre_depth s) (bold_depth s) (heading s) (link_cur s) (pending_space s) (did_emit s) (layout_full s) (want_break s) (want_blank s) (in_title s) v (title_pend s) (run s) (skiptag s).
Definition set_title_pend (v : bool) (s : layout) : layout :=
  mk_layout (arena s) (spans s) (links s) (cur_line s) (cur_x s) (indent s) (pre_depth s) (bold_depth s) (heading s) (link_cur s) (pending_space s) (did_emit s) (layout_full s) (want_break s) (want_blank s) (in_title s) (title s) v (run s) (skiptag s).
Definition set_run (v : list Z) (s : layout) : layout :=
  mk_layout (arena s) (spans s) (links s) (cur_line s) (cur_x s) (indent s) (pre_depth s) (bold_depth s) (heading s) (link_cur s) (pending_space s) (did_emit s) (layout_full s) (want_break s) (want_blank s) (in_title s) (title s) (title_pend s) v (skiptag s).
Definition set_skiptag (v : option text) (s : layout) : layout :=
  mk_layout (arena s) (spans s) (links s) (cur_line s) (cur_x s) (indent s) (pre_depth s) (bold_depth s) (heading s) (link_cur s) (pending_space s) (did_emit s) (layout_full s) (want_break s) (want_blank s) (in_title s) (title s) (title_pend s) (run s) v.


(** The C string at the head of a buffer. *)
Fixpoint c_string (l : text) : text := match l with c :: l' => if c =? 0 then [] else c :: c_string l' | [] => [] end.

(** A string copied into [cap] bytes. *)
Definition scopy (src : text) (cap : Z) : text := take (Z.to_nat (cap - 1)) (c_string src).

Section page.
(** The width of the text in pixels. *)
Context (content_w : Z).

Definition style_color (s : layout) : Z :=
  if link_cur s >=? 0 then COL_LINK else if negb (heading s =? 0) then COL_HEAD else COL_TEXT.

Definition style_flags (s : layout) : Z :=
  let f := if link_cur s >=? 0 then F_UL else 0 in
  if (bold_depth s >? 0) || negb (heading s =? 0) then Z.lor f F_BOLD else f.

Definition no_breaks (s : layout) : layout := set_want_blank false (set_want_break false s).

Definition apply_breaks (s : layout) : layout :=
  if negb (did_emit s) then set_cur_x (indent s) (no_breaks s) else
  let s := if want_blank s then set_cur_line (cur_line s + (if cur_x s >? indent s then 2 else 1)) s
           else if want_break s && (cur_x s >? indent s) then set_cur_line (cur_line s + 1) s else s in
  let s := if want_break s || want_blank s then set_pending_space false (set_cur_x (indent s) s) else s in
  no_breaks s.

(** A span at the current position for the characters [w]. *)
Definition add_span (w : list Z) (color flags : Z) (s : layout) : layout :=
  mk_layout (arena s ++ w) (spans s ++ [mk_span (cur_x s) (cur_line s) (zlength (arena s)) (zlength w) (link_cur s) color flags])
    (links s) (cur_line s) (cur_x s + zlength w * CHAR_W) (indent s) (pre_depth s) (bold_depth s) (heading s) (link_cur s)
    (pending_space s) (did_emit s) (layout_full s) (want_break s) (want_blank s) (in_title s) (title s) (title_pend s) (run s) (skiptag s).

Definition next_line (s : layout) : layout := set_cur_x (indent s) (set_cur_line (cur_line s + 1) s).

(** The loop of emit_word(); each round takes a character at least, so that
    the fuel of one per character is enough. *)
Fixpoint emit_loop (fuel : nat) (w : list Z) (first : bool) (color flags : Z) (s : layout) : layout :=
  match fuel, w with
  | S n, _ :: _ =>
      let len := zlength w in
      if (zlength (spans s) >=? MAX_SPANS) || (zlength (arena s) + len >? TEXT_CAP) then set_layout_full true s else
      let right := MARGIN + content_w in
      let s := if first && pending_space s && (cur_x s >? indent s) then set_cur_x (cur_x s + CHAR_W) s else s in
      let s := if (cur_x s + len * CHAR_W >? right) && (cur_x s >? indent s) then next_line s else s in
      let maxc := (right - cur_x s) / CHAR_W in
      let maxc := if maxc <? 1 then 1 else maxc in
      let k := if len <? maxc then len else maxc in
      let s := add_span (take (Z.to_nat k) w) color flags s in
      let rest := drop (Z.to_nat k) w in
      let s := match rest with [] => s | _ => next_line s end in
      emit_loop n rest false color flags s
  | _, _ => set_did_emit true (set_pending_space false s)
  end.

Definition emit_word (w : list Z) (color flags : Z) (s : layout) : layout :=
  if layout_full s || (zlength w <=? 0) then s else emit_loop (length w) w true color flags (apply_breaks s).

Definition flush_run (s : layout) : layout :=
  match run s with [] => s | _ => set_run [] (emit_word (run s) (style_color s) (style_flags s) s) end.

Definition newline_now (s : layout) : layout :=
  let s := apply_breaks (flush_run s) in
  let s := if did_emit s then set_cur_line (cur_line s + 1) s else s in
  set_did_emit true (set_pending_space false (set_cur_x (indent s) s)).

Definition emit_rule (s : layout) : layout :=
  let s := apply_breaks (flush_run s) in
  if zlength (spans s) >=? MAX_SPANS then set_layout_full true s else
  let s := mk_layout (arena s) (spans s ++ [mk_span (indent s) (cur_line s) 0 0 (-1) COL_RULE F_RULE]) (links s) (cur_line s) (cur_x s)
    (indent s) (pre_depth s) (bold_depth s) (heading s) (link_cur s) (pending_space s) (did_emit s) (layout_full s) (want_break s) (want_blank s)
    (in_title s) (title s) (title_pend s) (run s) (skiptag s) in
  set_did_emit true (next_line s).

(** A character for the run, which is put out when it is full. *)
Definition run_char (mc : Z) (s : layout) : layout :=
  let s := if zlength (run s) >=? RUN_CAP then flush_run s else s in set_run (run s ++ [mc]) s.

Definition title_char (mc : Z) (s : layout) : layout :=
  if mc =? 0 then s else
  if (mc =? 32) || (mc =? 10) || (mc =? 9) || (mc =? 13) then set_title_pend true s else
  let s := if title_pend s && negb (zlength (title s) =? 0) && (zlength (title s) <? TITLE_CAP - 1) then set_title (title s ++ [32]) s else s in
  let s := set_title_pend false s in
  if zlength (title s) <? TITLE_CAP - 1 then set_title (title s ++ [mc]) s else s.

Definition text_char (cp : Z) (s : layout) : layout :=
  if in_title s then title_char (cp_to_char cp) s
  else if layout_full s then s
  else if negb (pre_depth s =? 0) then
    if cp =? 10 then newline_now s
    else if cp =? 13 then s
    else let mc := if cp =? 9 then 32 else cp_to_char cp in
         if mc =? 0 then s
         else if cp =? 9 then run_char mc (run_char mc (run_char mc (run_char mc s))) else run_char mc s
  else if (cp =? 32) || (cp =? 10) || (cp =? 9) || (cp =? 13) || (cp =? 12) then set_pending_space true (flush_run s)
  else let mc := cp_to_char cp in if mc =? 0 then s else run_char mc s.

Definition text_str (t : text) (s : layout) : layout := foldl (λ s c, text_char c s) s t.

(** ** Tags *)

(** The number of a link. *)
Definition link_number (n : Z) : text := 91 :: digits 12 n [] ++ [93].

Definition tag_open_a (href : text) (s : layout) : layout :=
  if match href with [] => true | _ => false end || (zlength (links s) >=? MAX_LINKS) then s else
  let n := zlength (links s) in
  let s := set_link_cur n (set_links (links s ++ [scopy href URL_CAP]) s) in
  emit_word (link_number (n + 1)) COL_LINKNUM 0 s.

Definition clamp_indent (v : Z) : Z :=
  let v := if v <? MARGIN then MARGIN else v in
  if v >? MARGIN + content_w / 2 then MARGIN + content_w / 2 else v.

Definition names (name : text) (l : list string) : bool := existsb (λ n, streq name (txt n)) l.

Definition block_tags : list string :=
  ["div"; "tr"; "table"; "section"; "article"; "header"; "footer"; "nav"; "form"; "aside"; "main"]%string.

Definition dispatch_tag (name : text) (closing : bool) (href alt : text) (s : layout) : layout :=
  let step n := if closing then - n else n in
  if names name ["br"]%string then newline_now s
  else if names name ["p"]%string then set_want_blank true s
  else if names name block_tags then set_want_break true s
  else if (bget name 0 =? 104) && (bget name 1 >=? 49) && (bget name 1 <=? 54) && (bget name 2 =? 0)
  then set_heading (if closing then 0 else bget name 1 - 48) (set_want_blank true s)
  else if names name ["title"]%string then
    let s := set_in_title (negb closing) s in
    if negb closing then set_title_pend false (set_title [] s) else s
  else if names name ["a"]%string then if closing then set_link_cur (-1) s else tag_open_a href s
  else if names name ["b"; "strong"]%string then
    let d := bold_depth s + step 1 in set_bold_depth (if d <? 0 then 0 else d) s
  else if names name ["ul"; "ol"; "dl"]%string then set_indent (clamp_indent (indent s + step 16)) (set_want_break true s)
  else if names name ["li"]%string then
    if negb closing then set_pending_space true (emit_word [7] COL_TEXT 0 (set_want_break true s)) else set_want_break true s
  else if names name ["blockquote"]%string then set_indent (clamp_indent (indent s + step 24)) (set_want_blank true s)
  else if names name ["pre"]%string then
    let s := set_want_blank true (flush_run s) in
    let d := pre_depth s + step 1 in set_pre_depth (if d <? 0 then 0 else d) s
  else if names name ["hr"]%string then emit_rule s
  else if names name ["img"]%string then
    if negb closing && match alt with [] => false | _ => true end then text_char 93 (text_str alt (text_char 91 s)) else s
  else if names name ["td"; "th"]%string then if negb closing then set_pending_space true s else s
  else if names name ["script"; "style"]%string then
    if negb closing then set_skiptag (Some (if names name ["script"]%string then txt "script" else txt "style")) s else s
  else s.

(** The text behind [-->], and behind [>]; empty when there is none. *)
Fixpoint skip_comment (l : text) : text :=
  match l with
  | 45 :: ((45 :: 62 :: r) as l') => r
  | _ :: l' => skip_comment l'
  | [] => []
  end.

Fixpoint skip_gt (l : text) : text := match l with c :: l' => if c =? 62 then l' else skip_gt l' | [] => [] end.

(** The characters of a class at the head of the text, and the rest. *)
Fixpoint span_while (p : Z → bool) (l : text) : text * text :=
  match l with
  | c :: l' => if p c then let '(a, b) := span_while p l' in (c :: a, b) else ([], l)
  | [] => ([], [])
  end.

Definition is_ws (c : Z) : bool := (c =? 32) || (c =? 9) || (c =? 10) || (c =? 13).

(** The value behind an attribute's name, at most 511 characters of it. *)
Definition attr_value (l : text) : text * text :=
  let l := (span_while is_ws l).2 in
  match l with
  | c :: l1 =>
      if c =? 61 then
        let l := (span_while is_ws l1).2 in
        let plain :=
          let '(v, r) := span_while (λ c, negb ((c =? 62) || is_ws c)) l in (take 511 v, r) in
        match l with
        | q :: l2 =>
            if (q =? 34) || (q =? 39) then let '(v, r) := span_while (λ c, negb (c =? q)) l2 in (take 511 v, tail r) else plain
        | [] => plain
        end
      else ([], l)
  | [] => ([], l)
  end.

(** The attributes up to the [>]: the values of href and alt, and the rest
    from the [>] on. *)
Fixpoint parse_attrs (fuel : nat) (l href alt : text) : text * text * text :=
  match fuel with
  | O => (href, alt, l)
  | S n =>
      let l := (span_while (λ c, is_ws c || (c =? 47)) l).2 in
      match l with
      | [] => (href, alt, l)
      | c :: _ =>
          if c =? 62 then (href, alt, l) else
          let '(an, l) := span_while (λ c, negb ((c =? 61) || (c =? 62) || is_ws c || (c =? 47))) l in
          let an := c_string (lower <$> take 15 an) in
          let '(val, l) := attr_value l in
          if streq an (txt "href") then parse_attrs n l (scopy val 512) alt
          else if streq an (txt "alt") then parse_attrs n l href (scopy val 128)
          else parse_attrs n l href alt
      end
  end.

(** The tag behind a [<]: the layout and the text behind the tag. *)
Definition parse_tag (rest : text) (s : layout) : layout * text :=
  match rest with
  | 33 :: l => (s, match l with 45 :: 45 :: l' => skip_comment l' | _ => skip_gt rest end)
  | _ =>
      let '(closing, l) := match rest with 47 :: l => (true, l) | _ => (false, rest) end in
      let '(name, l) := span_while alnum l in
      match name with
      | [] => (text_char 60 s, rest)
      | _ =>
          let name := lower <$> take 11 name in
          let '(href, alt, l) := parse_attrs (S (length l)) l [] [] in
          (dispatch_tag name closing href alt (flush_run s), tail l)
      end
  end.

(** ** Pages *)

Definition layout_reset : layout :=
  mk_layout [] [] [] 0 MARGIN MARGIN 0 0 0 (-1) false false false false false false [] false [] None.

Fixpoint has_prefix (t : text) (l : text) : option text :=
  match t, l with
  | [], _ => Some l
  | d :: t', c :: l' => if lower c =? d then has_prefix t' l' else None
  | _ :: _, [] => None
  end.

(** One round of the loop of layout_html() on a text that is not empty. *)
Definition layout_step (c : Z) (rest : text) (s : layout) : layout * text :=
  match skiptag s with
  | Some tag =>
      match (if c =? 60 then match rest with 47 :: l => has_prefix tag l | _ => None end else None) with
      | Some l => (set_skiptag None s, skip_gt l)
      | None => (s, rest)
      end
  | None =>
      if c =? 60 then parse_tag rest s
      else if c =? 38 then let '(cp, l) := parse_entity rest in (text_char cp s, l)
      else let '(cp, l) := utf8_decode (c :: rest) in (text_char cp s, l)
  end.

Fixpoint layout_loop (fuel : nat) (src : text) (s : layout) : option layout :=
  match src with
  | [] => Some s
  | c :: rest =>
      match fuel with
      | O => None
      | S n => let '(s, l) := layout_step c rest s in layout_loop n l s
      end
  end.

(** The layout and the number of lines. *)
Definition layout_html (src : text) : option (layout * Z) :=
  s ← layout_loop (length src) src layout_reset;
  let s := flush_run s in Some (s, cur_line s + 1).

Definition layout_plain (src : text) : layout * Z :=
  let s := set_pre_depth 1 layout_reset in
  let s := set_pre_depth 0 (flush_run (foldl (λ s c, text_char c s) s src)) in (s, cur_line s + 1).
End page.
End Browser.
