(* ===== verification/BrowserTheorems.v ===== *)
(** * Layouts are sound

    Every page lays out within the arrays, the margins and the order of the
    text, and its layout ends. *)

From Stdlib Require Import String.
From S2P Require Import Prelude Shell Browser.

Module BrowserSpec.
Import Shell BrowserText Browser.

(** Evaluate the fields of an updated layout. *)
Ltac lay := cbn [arena spans links cur_line cur_x indent pre_depth bold_depth heading link_cur pending_space did_emit layout_full
  want_break want_blank in_title title title_pend run skiptag set_links set_cur_line set_cur_x set_indent set_pre_depth set_bold_depth
  set_heading set_link_cur set_pending_space set_did_emit set_layout_full set_want_break set_want_blank set_in_title set_title
  set_title_pend set_run set_skiptag no_breaks next_line add_span] in *.

Section page.
Context (cw : Z) (Hcw : 16 ≤ cw).

Definition right : Z := MARGIN + cw.

Definition is_text (a : span) : Prop := 0 < len a.
Definition aend (a : span) : Z := x a + CHAR_W * len a.

(** [a] is on an earlier line than [b], or left of it. *)
Definition before (a b : span) : Prop := is_text a → is_text b → line a < line b ∨ line a = line b ∧ aend a ≤ x b.

Fixpoint ordered (l : list span) : Prop :=
  match l with [] => True | a :: l' => (∀ b, b ∈ l' → before a b) ∧ ordered l' end.

Lemma ordered_snoc l b : ordered l → (∀ a, a ∈ l → before a b) → ordered (l ++ [b]).
Proof.
  induction l as [|a l IH]; cbn [ordered app]; intros Ho Hb.
  - split; [|done]. intros c Hc. by apply elem_of_nil in Hc.
  - destruct Ho as [Ho1 Ho2]. split; [|apply IH; [done|]; intros c Hc; apply Hb; set_solver].
    intros c Hc. apply elem_of_app in Hc as [Hc|Hc]; [auto|]. apply list_elem_of_singleton in Hc as ->. apply Hb. set_solver.
Qed.

(** A span names text of the arena, between the margins, on a line of the
    page, and a link that exists. *)
Record span_ok (narena nlinks lines : Z) (a : span) : Prop := {
  so_len : 0 ≤ len a;
  so_off : 0 ≤ off a ∧ off a + len a ≤ narena;
  so_left : MARGIN ≤ x a;
  so_right : aend a ≤ right;
  so_line : 0 ≤ line a ≤ lines;
  so_link : -1 ≤ link a < nlinks;
}.

Lemma span_ok_mono n1 k1 c1 n2 k2 c2 a : span_ok n1 k1 c1 a → n1 ≤ n2 → k1 ≤ k2 → c1 ≤ c2 → span_ok n2 k2 c2 a.
Proof. intros [] ? ? ?. constructor; lia. Qed.

(** Where the next span goes is behind the text. *)
Definition behind (s : layout) : Prop :=
  ∀ a, a ∈ spans s → is_text a → line a < cur_line s ∨ line a = cur_line s ∧ aend a ≤ cur_x s.

Record core (s : layout) : Prop := {
  ok_nspans : zlength (spans s) ≤ MAX_SPANS;
  ok_arena : zlength (arena s) ≤ TEXT_CAP;
  ok_nlinks : zlength (links s) ≤ MAX_LINKS;
  ok_hrefs : Forall (λ h, zlength h < URL_CAP) (links s);
  ok_run : zlength (run s) ≤ RUN_CAP;
  ok_title : zlength (title s) < TITLE_CAP;
  ok_link : -1 ≤ link_cur s < zlength (links s);
  ok_indent : MARGIN ≤ indent s ≤ MARGIN + cw / 2;
  ok_x : MARGIN ≤ cur_x s ≤ right;
  ok_line : 0 ≤ cur_line s;
  ok_spans a : a ∈ spans s → span_ok (zlength (arena s)) (zlength (links s)) (cur_line s) a;
  ok_ordered : ordered (spans s);
  ok_behind : layout_full s = false → behind s;
}.

(** Between two characters: before anything is put out there is no text, and
    a line begins at the indent. *)
Record ok (s : layout) : Prop := {
  ok_core : core s;
  ok_start : layout_full s = false → did_emit s = false → ∀ a, a ∈ spans s → ¬ is_text a;
  ok_at : want_break s = true ∨ want_blank s = true ∨ did_emit s = false ∨ indent s ≤ cur_x s;
}.

Lemma mid_right : MARGIN + cw / 2 ≤ right - CHAR_W.
Proof. unfold right, CHAR_W. zdm. Qed.

(** A new position on the same line or a later one. *)
Lemma move_core s n x' :
  core s → MARGIN ≤ x' ≤ right → 0 < n ∨ n = 0 ∧ (layout_full s = false → cur_x s ≤ x' ∨ ∀ a, a ∈ spans s → ¬ is_text a) →
  core (set_cur_x x' (set_cur_line (cur_line s + n) s)).
Proof.
  intros [? ? ? ? ? ? ? Hi Hx Hl Hsp Ho Hb] Hx' Hn. constructor; lay; try done; [lia| |].
  - intros a Ha. eapply span_ok_mono; [by apply Hsp|lia|lia|lia].
  - intros Hf a Ha Ht. lay. destruct Hn as [Hn|[-> Hn]]; [left; destruct (Hb Hf a Ha Ht) as [?|[? _]]; lia|].
    destruct (Hn Hf) as [Hn'|Hn']; [destruct (Hb Hf a Ha Ht) as [?|[? ?]]; lia|by destruct (Hn' a Ha)].
Qed.

(** Changes of the other fields. *)
Lemma same_core s s' :
  core s → spans s' = spans s → arena s' = arena s → links s' = links s → zlength (run s') ≤ RUN_CAP → zlength (title s') < TITLE_CAP →
  (link_cur s' = link_cur s ∨ link_cur s' = -1) → MARGIN ≤ indent s' ≤ MARGIN + cw / 2 → cur_x s' = cur_x s → cur_line s' = cur_line s →
  (layout_full s' = false → layout_full s = false) → core s'.
Proof.
  intros [? ? ? ? ? ? ? Hi Hx Hl Hsp Ho Hb] E1 E2 E3 E4 E5 E6 E7 E8 E9 E10. constructor; rewrite ?E1, ?E2, ?E3, ?E8, ?E9; try done.
  - pose proof (zlength_nonneg (links s)). destruct E6 as [->| ->]; lia.
  - intros Hf a. unfold behind in *. rewrite E1, E8, E9. apply Hb. auto.
Qed.

(** Breaks have been applied. *)
Record placed (s s' : layout) : Prop := {
  pl_core : core s';
  pl_at : indent s' ≤ cur_x s';
  pl_breaks : want_break s' = false ∧ want_blank s' = false;
  pl_same : spans s' = spans s ∧ arena s' = arena s ∧ links s' = links s ∧ link_cur s' = link_cur s ∧ run s' = run s ∧ indent s' = indent s;
  pl_flags : layout_full s' = layout_full s ∧ did_emit s' = did_emit s ∧ title s' = title s;
}.

Lemma apply_breaks_ok s : ok s → placed s (apply_breaks s).
Proof.
  intros [Hc Hst Hat]. pose proof mid_right as Hm. pose proof (ok_indent _ Hc) as Hi. unfold CHAR_W in *. unfold apply_breaks.
  assert (∀ s', core s' → spans s' = spans s → arena s' = arena s → links s' = links s → link_cur s' = link_cur s → run s' = run s → indent s' = indent s →
    layout_full s' = layout_full s → did_emit s' = did_emit s → title s' = title s → indent s' ≤ cur_x s' → placed s (no_breaks s')) as Hend.
  { intros s' H1 H2 H3 H4 H5 H6 H7 H8 H9 H10 H11. constructor; lay; try done. apply (same_core s'); lay; try done; [rewrite H6; apply Hc|rewrite H10; apply Hc|by left|by rewrite H7]. }
  destruct (did_emit s) eqn:Ed; cbn [negb].
  - assert (∀ n, 0 ≤ n → (n = 0 → cur_x s ≤ indent s) → placed s (no_breaks (set_pending_space false (set_cur_x (indent s) (set_cur_line (cur_line s + n) s))))) as Hmove.
    { intros n Hn Hx. apply Hend; lay; try done. apply (same_core (set_cur_x (indent s) (set_cur_line (cur_line s + n) s))); lay; try done; try apply Hc; [|by left].
      apply move_core; [done|unfold right in *; lia|]. destruct (decide (n = 0)) as [->|]; [right|left; lia]. split; [done|]. intros _. left. auto. }
    destruct (want_blank s) eqn:Ew.
    + cbn [want_break want_blank set_cur_line]. rewrite Ew, orb_true_r. apply Hmove; case_if; lia.
    + destruct (want_break s) eqn:Ewb; cbn [andb orb].
      * destruct (cur_x s >? indent s) eqn:Ex; boolp; cbn [want_break want_blank set_cur_line]; rewrite Ewb; cbn [orb]; [apply Hmove; lia|].
        pose proof (Hmove 0 ltac:(lia) ltac:(lia)) as Hp. rewrite Z.add_0_r in Hp. by destruct s.
      * rewrite Ewb, Ew. cbn [orb]. destruct Hat as [?|[?|[?|Hat]]]; try congruence. by apply Hend.
  - change (set_cur_x (indent s) (no_breaks s)) with (no_breaks (set_cur_x (indent s) s)). apply Hend; lay; try done.
    apply (same_core (set_cur_x (indent s) (set_cur_line (cur_line s + 0) s))); lay; try done; try apply Hc; [|by left|lia].
    apply move_core; [done|unfold right in *; lia|]. right. split; [done|]. intros Hf. right. by apply Hst.
Qed.

Lemma zlength_take {A} (l : list A) k : 0 ≤ k ≤ zlength l → zlength (take (Z.to_nat k) l) = k.
Proof. unfold zlength. intros Hk. rewrite length_take. lia. Qed.

(** A piece of a word at the current position. *)
Lemma add_span_core w col fl s :
  core s → layout_full s = false → 0 < zlength w → zlength (spans s) < MAX_SPANS → zlength (arena s) + zlength w ≤ TEXT_CAP →
  cur_x s + zlength w * CHAR_W ≤ right → core (add_span w col fl s).
Proof.
  intros [H1 H2 H3 H4 H5 H6 H7 Hi Hx Hl Hsp Ho Hb] Hf Hw Hn Ht Hr. unfold CHAR_W in Hr. constructor; lay; try done.
  - rewrite zlength_app. change (zlength [_]) with 1. lia.
  - rewrite zlength_app. lia.
  - unfold CHAR_W. lia.
  - rewrite zlength_app. intros a Ha. apply elem_of_app in Ha as [Ha|Ha]; [eapply span_ok_mono; [by apply Hsp|lia|lia|lia]|].
    apply list_elem_of_singleton in Ha as ->. pose proof (zlength_nonneg (arena s)). constructor; cbn; unfold aend, CHAR_W; cbn; lia.
  - apply ordered_snoc; [done|]. intros a Ha Hta Htb. cbn. destruct (Hb Hf a Ha Hta) as [?|[? ?]]; [by left|right; done].
  - intros _ a Ha Hta. lay. apply elem_of_app in Ha as [Ha|Ha]; [destruct (Hb Hf a Ha Hta) as [?|[? ?]]; unfold CHAR_W; [by left|right; lia]|].
    apply list_elem_of_singleton in Ha as ->. right. cbn. unfold aend. cbn. lia.
Qed.

(** What emit_word() leaves alone. *)
Definition keeps (s s' : layout) : Prop :=
  links s' = links s ∧ link_cur s' = link_cur s ∧ run s' = run s ∧ indent s' = indent s ∧ title s' = title s ∧ (layout_full s = true → layout_full s' = true).

Lemma emit_loop_ok fuel w first col fl s :
  core s → layout_full s = false → indent s ≤ cur_x s → (length w ≤ fuel)%nat → did_emit s = true ∨ w ≠ [] →
  let s' := emit_loop cw fuel w first col fl s in ok s' ∧ keeps s s'.
Proof.
  revert w first s. induction fuel as [|n IH]; intros w first s Hc Hf Hat Hlen Hd; destruct w as [|c w]; cbn [length] in Hlen; try lia.
  - cbn. split; [|by unfold keeps; lay; rewrite Hf]. constructor; lay; [|done|by right; right; right].
    apply (same_core s); lay; try done; try apply Hc. by left.
  - cbn. split; [|by unfold keeps; lay; rewrite Hf]. constructor; lay; [|done|by right; right; right].
    apply (same_core s); lay; try done; try apply Hc. by left.
  - cbv zeta. cbn [emit_loop]. set (W := c :: w) in *. assert (0 < zlength W) as HW by (unfold W; rewrite zlength_cons; pose proof (zlength_nonneg w); lia).
    destruct ((zlength (spans s) >=? MAX_SPANS) || (zlength (arena s) + zlength W >? TEXT_CAP)) eqn:Ecap.
    { split; [|by unfold keeps; lay]. constructor; lay; [|done|]. { apply (same_core s); lay; try done; try apply Hc. by left. } by right; right; right. }
    apply orb_false_elim in Ecap as [Ecap1 Ecap2]. boolp. pose proof mid_right as Hm. pose proof (ok_indent _ Hc) as Hi. pose proof (ok_x _ Hc) as Hx.
    change (MARGIN + cw) with right.
    assert (∃ s2, (let s := if first && pending_space s && (cur_x s >? indent s) then set_cur_x (cur_x s + CHAR_W) s else s in
       if (cur_x s + zlength W * CHAR_W >? right) && (cur_x s >? indent s) then next_line s else s) = s2 ∧
       core s2 ∧ layout_full s2 = false ∧ spans s2 = spans s ∧ arena s2 = arena s ∧ keeps s s2 ∧ indent s2 ≤ cur_x s2 ∧
       (cur_x s2 = indent s2 ∨ cur_x s2 + zlength W * CHAR_W ≤ right)) as (s2 & E2 & C2 & F2 & Sp2 & A2 & K2 & At2 & Fit).
    { eexists. split; [done|]. cbv zeta.
      set (s1 := if first && pending_space s && (cur_x s >? indent s) then set_cur_x (cur_x s + CHAR_W) s else s).
      assert (cur_line s1 = cur_line s ∧ indent s1 = indent s ∧ spans s1 = spans s ∧ arena s1 = arena s ∧ layout_full s1 = false ∧ keeps s s1 ∧
        cur_x s ≤ cur_x s1 ∧ (cur_x s1 = cur_x s ∨ indent s < cur_x s1)) as (L1 & I1 & Sp1 & A1 & F1 & K1 & X1 & X1').
      { unfold s1, keeps, CHAR_W. case_if; lay; split_and!; done || lia. }
      assert (∀ n x', MARGIN ≤ x' ≤ right → 0 < n ∨ n = 0 ∧ cur_x s ≤ x' → core (set_cur_x x' (set_cur_line (cur_line s + n) s))) as Hmv.
      { intros k x' Hx' Hk. apply move_core; [done|done|]. destruct Hk as [?|[-> ?]]; [by left|right]. split; [done|]. intros _. by left. }
      destruct ((cur_x s1 + zlength W * CHAR_W >? right) && (cur_x s1 >? indent s1)) eqn:Ew.
      - boolp. split_and!; lay; try done; [|by left].
        pose proof (Hmv 1 (indent s) ltac:(unfold CHAR_W in *; lia) ltac:(lia)) as Hc1.
        apply (same_core _ (set_cur_x (indent s1) (set_cur_line (cur_line s1 + 1) s1))) in Hc1; lay; try done; [|..].
        all: unfold s1; try (case_if; lay; done || lia || apply Hc); try (by case_if; left).
      - assert (core s1) as C1.
        { pose proof (Hmv 0 (cur_x s1)) as Hc1. destruct (decide (cur_x s1 ≤ right)) as [Hle|Hgt].
          - specialize (Hc1 ltac:(lia) ltac:(lia)). rewrite Z.add_0_r in Hc1. revert Hc1. unfold s1. case_if; lay; done || by destruct s.
          - exfalso. apply andb_false_iff in Ew as [Ew|Ew]; boolp; unfold CHAR_W in *; lia. }
        split_and!; try done; [lia|]. apply andb_false_iff in Ew as [Ew|Ew]; boolp; [by right|left; lia]. }
    cbv zeta in E2. rewrite E2. clear E2. set (maxc := if (right - cur_x s2) / CHAR_W <? 1 then 1 else (right - cur_x s2) / CHAR_W).
    pose proof (ok_indent _ C2) as Hi2. pose proof (ok_x _ C2) as Hx2. unfold CHAR_W in *.
    assert (1 ≤ maxc ∧ (cur_x s2 = indent s2 → cur_x s2 + maxc * 8 ≤ right)) as [Hmax1 Hmax2].
    { unfold maxc. case_if; [|split; [lia|zdm]]. split; [lia|]. intros Ex. assert (1 ≤ (right - cur_x s2) / 8) by (apply Z.div_le_lower_bound; lia). lia. }
    set (k := if zlength W <? maxc then zlength W else maxc). assert (1 ≤ k ≤ zlength W) as Hk by (unfold k; case_if; lia).
    assert (cur_x s2 + k * 8 ≤ right) as Hkr by (unfold k; destruct Fit as [Fit|Fit]; [specialize (Hmax2 Fit)|]; case_if; lia).
    pose proof (zlength_take W k ltac:(lia)) as Htk. set (piece := take (Z.to_nat k) W) in *.
    assert (core (add_span piece col fl s2)) as C3 by (apply add_span_core; try done; rewrite ?Sp2, ?A2, ?Htk; unfold CHAR_W; lia).
    destruct (drop (Z.to_nat k) W) as [|d rest] eqn:Erest.
    + assert (ok (set_did_emit true (set_pending_space false (add_span piece col fl s2)))) as Hok.
      { constructor; lay; [|done|right; right; right; unfold CHAR_W; lia]. apply (same_core (add_span piece col fl s2)); lay; try done; try apply C2. by left. }
      destruct n as [|n']; cbn [emit_loop]; (split; [done|unfold keeps in *; lay; intuition congruence]).
    + assert (length (drop (Z.to_nat k) W) = (length W - Z.to_nat k)%nat) as Hdl by apply length_drop. rewrite Erest in Hdl.
      pose proof (IH (d :: rest) false (next_line (add_span piece col fl s2))) as IH'. cbv zeta in IH'. destruct IH' as [I1 I2]; lay; try done; [|subst W; cbn [length] in *; lia|by right|].
      * apply (move_core (add_span piece col fl s2) 1 (indent s2) C3); [lia|left; lia].
      * split; [done|]. unfold keeps in *. lay. intuition congruence.
Qed.

Lemma same_ok s s' :
  ok s → spans s' = spans s → arena s' = arena s → links s' = links s → zlength (run s') ≤ RUN_CAP → zlength (title s') < TITLE_CAP →
  (link_cur s' = link_cur s ∨ link_cur s' = -1) → MARGIN ≤ indent s' ≤ MARGIN + cw / 2 → cur_x s' = cur_x s → cur_line s' = cur_line s →
  layout_full s' = layout_full s → did_emit s' = did_emit s →
  (indent s' = indent s ∧ (want_break s = true → want_break s' = true) ∧ (want_blank s = true → want_blank s' = true) ∨ want_break s' = true ∨ want_blank s' = true) →
  ok s'.
Proof.
  intros [Hc Hst Hat] E1 E2 E3 E4 E5 E6 E7 E8 E9 E10 E11 E12. constructor.
  - apply (same_core s); try done. by rewrite E10.
  - rewrite E1, E10, E11. done.
  - destruct E12 as [(-> & H1 & H2)|[H|H]]; [|by left|by right; left]. rewrite E8, E11. intuition.
Qed.

(** Solve [ok] of a layout with a few fields changed. *)
Ltac same := lay; try done; try (by left); try (by right); try (by left; split_and!).

Lemma emit_word_ok w col fl s : ok s → ok (emit_word cw w col fl s) ∧ keeps s (emit_word cw w col fl s).
Proof.
  intros Hs. unfold emit_word. destruct (layout_full s) eqn:Ef; cbn [orb]; [split; [done|by unfold keeps]|].
  destruct (Z.leb_spec (zlength w) 0) as [Hw|Hw]; [split; [done|by unfold keeps]|].
  destruct (apply_breaks_ok s Hs) as [Hc Hat _ (H1 & H2 & H3 & H4 & H5 & H6) (H7 & H8 & H9)].
  destruct (emit_loop_ok (length w) w true col fl (apply_breaks s) Hc) as [Ho Hk]; [congruence|done|done|right; intros ->; cbn in Hw; unfold zlength in Hw; cbn in Hw; lia|].
  split; [done|]. unfold keeps in *. intuition congruence.
Qed.

Lemma flush_run_ok s : ok s → ok (flush_run cw s) ∧ run (flush_run cw s) = [] ∧ links (flush_run cw s) = links s ∧ title (flush_run cw s) = title s.
Proof.
  intros Hs. unfold flush_run. destruct (run s) as [|c r] eqn:Er; [done|]. rewrite <- Er.
  destruct (emit_word_ok (run s) (style_color s) (style_flags s) s Hs) as [Ho (K1 & K2 & K3 & K4 & K5 & _)]. set (s' := emit_word _ _ _ _ s) in *. clearbody s'.
  split; [|lay; done]. apply (same_ok s'); same; [apply (ok_title _ (ok_core _ Ho))|apply (ok_indent _ (ok_core _ Ho))].
Qed.

(** The end of a line. *)
Lemma line_end s : core s → (did_emit s = false → layout_full s = false → ∀ a, a ∈ spans s → ¬ is_text a) →
  let s1 := if did_emit s then set_cur_line (cur_line s + 1) s else s in
  ok (set_did_emit true (set_pending_space false (set_cur_x (indent s1) s1))).
Proof.
  intros Hc Hst. pose proof mid_right as Hm. pose proof (ok_indent _ Hc) as Hi. unfold CHAR_W in *. cbv zeta.
  assert (∀ n, 0 < n ∨ n = 0 ∧ did_emit s = false → ok (set_did_emit true (set_pending_space false (set_cur_x (indent s) (set_cur_line (cur_line s + n) s))))) as Hmv.
  { intros n Hn. constructor; lay; [|done|right; right; right; lia].
    apply (same_core (set_cur_x (indent s) (set_cur_line (cur_line s + n) s))); same; try apply Hc.
    apply move_core; [done|lia|]. destruct Hn as [?|[-> Hd]]; [by left|right]. split; [done|]. intros Hf. right. auto. }
  destruct (did_emit s) eqn:Ed; [by apply Hmv; left|]. pose proof (Hmv 0 ltac:(auto)) as H0. rewrite Z.add_0_r in H0. destruct s. exact H0.
Qed.

Lemma newline_now_ok s : ok s → ok (newline_now cw s) ∧ run (newline_now cw s) = [].
Proof.
  intros Hs. unfold newline_now. destruct (flush_run_ok s Hs) as (Ho & Hr & _ & _). set (s1 := flush_run cw s) in *. clearbody s1.
  destruct (apply_breaks_ok s1 Ho) as [Hc Hat _ (H1 & H2 & H3 & H4 & H5 & H6) (H7 & H8 & H9)]. set (s2 := apply_breaks s1) in *. clearbody s2. split.
  - apply line_end; [done|]. intros Hd Hf. rewrite H1. apply (ok_start _ Ho); congruence.
  - destruct (did_emit s2); lay; congruence.
Qed.

Lemma emit_rule_ok s : ok s → ok (emit_rule cw s).
Proof.
  intros Hs. unfold emit_rule. destruct (flush_run_ok s Hs) as (Ho & Hr & _ & _). set (s1 := flush_run cw s) in *. clearbody s1.
  destruct (apply_breaks_ok s1 Ho) as [Hc Hat [Hb1 Hb2] (H1 & H2 & H3 & H4 & H5 & H6) (H7 & H8 & H9)]. set (s2 := apply_breaks s1) in *. clearbody s2.
  pose proof mid_right as Hm. pose proof (ok_indent _ Hc) as Hi. unfold CHAR_W in *. case_if.
  { constructor; lay; [|done|right; right; right; done]. apply (same_core s2); same; apply Hc. }
  set (sp := mk_span (indent s2) (cur_line s2) 0 0 (-1) COL_RULE F_RULE).
  set (s3 := mk_layout _ _ _ _ _ _ _ _ _ _ _ _ _ _ _ _ _ _ _ _).
  assert (core s3) as C3.
  { unfold s3. destruct Hc as [K1 K2 K3 K4 K5 K6 K7 K8 K9 K10 K11 K12 K13]. constructor; lay; try done.
    - rewrite zlength_app. change (zlength [sp]) with 1. lia.
    - intros a Ha. apply elem_of_app in Ha as [Ha|Ha]; [by apply K11|]. apply list_elem_of_singleton in Ha as ->. pose proof (zlength_nonneg (arena s2)). pose proof (zlength_nonneg (links s2)).
      constructor; cbn; unfold aend; cbn; lia.
    - apply ordered_snoc; [done|]. intros a Ha _ Ht. unfold is_text in Ht. cbn in Ht. lia.
    - intros Hf a Ha Ht. lay. apply elem_of_app in Ha as [Ha|Ha]; [by apply K13|]. apply list_elem_of_singleton in Ha as ->. unfold is_text in Ht. cbn in Ht. lia. }
  constructor; lay; [|done|right; right; right; lia]. apply (same_core (set_cur_x (indent s3) (set_cur_line (cur_line s3 + 1) s3))); same; try apply Hc.
  apply move_core; [done|unfold s3; lay; lia|left; lia].
Qed.

Lemma run_char_ok mc s : ok s → ok (run_char cw mc s).
Proof.
  intros Hs. unfold run_char.
  assert (∀ s', ok s' → zlength (run s') < RUN_CAP → ok (set_run (run s' ++ [mc]) s')) as Hadd.
  { intros s' Ho Hl. apply (same_ok s'); same; [rewrite zlength_app; change (zlength [mc]) with 1; lia|apply (ok_title _ (ok_core _ Ho))|apply (ok_indent _ (ok_core _ Ho))]. }
  case_if; [|by apply Hadd]. destruct (flush_run_ok s Hs) as (Ho & Hr & _). apply Hadd; [done|]. rewrite Hr. done.
Qed.

Lemma title_char_ok mc s : ok s → ok (title_char mc s).
Proof.
  intros Hs. unfold title_char. pose proof (ok_core _ Hs) as Hc. assert (∀ s', ok s' → zlength (title s') < TITLE_CAP - 1 → ∀ c, ok (set_title (title s' ++ [c]) s')) as Hadd.
  { intros s' Ho Hl c. apply (same_ok s'); same; [apply (ok_core _ Ho)|rewrite zlength_app; change (zlength [c]) with 1; lia|apply (ok_core _ Ho)]. }
  assert (∀ s' b, ok s' → ok (set_title_pend b s')) as Hp by (intros s' b Ho; apply (same_ok s'); same; apply (ok_core _ Ho)).
  destruct (mc =? 0); [done|]. destruct (_ || _); [by apply Hp|].
  set (s1 := if _ : bool then set_title (title s ++ [32]) s else s).
  assert (ok s1) as H1. { unfold s1. destruct (title_pend s && _ && _) eqn:E; [|done]. boolp. by apply Hadd. }
  clearbody s1. assert (ok (set_title_pend false s1)) as H2 by (by apply Hp). set (s2 := set_title_pend false s1) in *. clearbody s2.
  case_if; [|done]. by apply Hadd.
Qed.

Lemma pending_ok b s : ok s → ok (set_pending_space b s).
Proof. intros Ho. apply (same_ok s); same; apply (ok_core _ Ho). Qed.

Lemma text_char_ok cp s : ok s → ok (text_char cw cp s).
Proof.
  intros Hs. unfold text_char. destruct (in_title s); [by apply title_char_ok|]. destruct (layout_full s); [done|]. destruct (negb (pre_depth s =? 0)).
  - destruct (cp =? 10); [by apply newline_now_ok|]. destruct (cp =? 13); [done|]. destruct (_ =? 0); [done|]. destruct (cp =? 9); repeat apply run_char_ok; done.
  - destruct (_ || _); [by apply pending_ok, flush_run_ok|]. destruct (_ =? 0); [done|]. by apply run_char_ok.
Qed.

Lemma text_str_ok t s : ok s → ok (text_str cw t s).
Proof. unfold text_str. revert s. induction t as [|c t IH]; intros s Hs; cbn; [done|]. by apply IH, text_char_ok. Qed.

Lemma tag_open_a_ok href s : ok s → ok (tag_open_a cw href s).
Proof.
  intros Hs. unfold tag_open_a. destruct (_ || _) eqn:E; [done|]. apply orb_false_elim in E as [_ E]. boolp.
  apply emit_word_ok. pose proof Hs as [[K1 K2 K3 K4 K5 K6 K7 K8 K9 K10 K11 K12 K13] Hst Hat]. pose proof (zlength_nonneg (links s)).
  assert (zlength (links s ++ [scopy href URL_CAP]) = zlength (links s) + 1) as Hl by (rewrite zlength_app; done).
  constructor; [constructor|..]; lay; rewrite ?Hl; try done; [lia| |lia|].
  - apply Forall_app. split; [done|]. apply Forall_singleton. unfold scopy, zlength, URL_CAP. rewrite length_take. lia.
  - intros a Ha. eapply span_ok_mono; [by apply K11|lia|lia|lia].
Qed.

Lemma clamp_indent_range v : MARGIN ≤ clamp_indent cw v ≤ MARGIN + cw / 2.
Proof. unfold clamp_indent. assert (0 ≤ cw / 2) by zdm. repeat case_if; lia. Qed.

Lemma dispatch_tag_ok name closing href alt s : ok s → ok (dispatch_tag cw name closing href alt s).
Proof.
  intros Hs. pose proof (ok_core _ Hs) as Hc. unfold dispatch_tag.
  assert (∀ s', ok s' → ok (set_want_blank true s')) as Hblank by (intros s' Ho; apply (same_ok s'); same; apply (ok_core _ Ho)).
  assert (∀ s', ok s' → ok (set_want_break true s')) as Hbreak by (intros s' Ho; apply (same_ok s'); same; apply (ok_core _ Ho)).
  destruct (names name ["br"]%string); [by apply newline_now_ok|]. destruct (names name ["p"]%string); [by apply Hblank|].
  destruct (names name block_tags); [by apply Hbreak|].
  destruct ((bget name 0 =? 104) && _ && _ && _); [apply (same_ok (set_want_blank true s)); [by apply Hblank|same; apply Hc..]|].
  destruct (names name ["title"]%string).
  { destruct (negb closing); [apply (same_ok s); same; apply Hc|]. apply (same_ok s); same; apply Hc. }
  destruct (names name ["a"]%string); [destruct closing; [apply (same_ok s); same; apply Hc|by apply tag_open_a_ok]|].
  destruct (names name ["b"; "strong"]%string); [apply (same_ok s); same; apply Hc|].
  destruct (names name ["ul"; "ol"; "dl"]%string); [apply (same_ok s); same; try apply Hc; [apply clamp_indent_range|by right; left]|].
  destruct (names name ["li"]%string); [destruct (negb closing); [by apply pending_ok, emit_word_ok, Hbreak|by apply Hbreak]|].
  destruct (names name ["blockquote"]%string); [apply (same_ok s); same; try apply Hc; [apply clamp_indent_range|by right; right]|].
  destruct (names name ["pre"]%string).
  { destruct (flush_run_ok s Hs) as (Ho & _). apply (same_ok (set_want_blank true (flush_run cw s))); [by apply Hblank|same; apply (ok_core _ Ho)..]. }
  destruct (names name ["hr"]%string); [by apply emit_rule_ok|].
  destruct (names name ["img"]%string); [destruct (_ && _); [by apply text_char_ok, text_str_ok, text_char_ok|done]|].
  destruct (names name ["td"; "th"]%string); [destruct (negb closing); [by apply pending_ok|done]|].
  destruct (names name ["script"; "style"]%string); [|done]. destruct (negb closing); [|done]. apply (same_ok s); same; apply Hc.
Qed.

(** ** The tokenizer takes text *)

Lemma span_while_length p l : (length (span_while p l).2 ≤ length l)%nat.
Proof. induction l as [|c l IH]; cbn; [done|]. destruct (p c); [|done]. destruct (span_while p l). cbn in *. lia. Qed.

Lemma span_while_app p l : (span_while p l).1 ++ (span_while p l).2 = l.
Proof. induction l as [|c l IH]; cbn; [done|]. destruct (p c); [|done]. destruct (span_while p l). cbn in *. by rewrite IH. Qed.

(** What is behind the characters of the class begins with none. *)
Lemma span_while_head p l c r : (span_while p l).2 = c :: r → p c = false.
Proof. induction l as [|d l IH]; cbn; [done|]. destruct (p d) eqn:Ep; [destruct (span_while p l); cbn in *; auto|]. cbn. by intros [= <- _]. Qed.

Lemma skip_gt_length l : (length (skip_gt l) ≤ length l)%nat.
Proof. induction l as [|c l IH]; cbn; [done|]. case_if; lia. Qed.

Lemma skip_comment_length l : (length (skip_comment l) ≤ length l)%nat.
Proof.
  induction l as [|c l IH]; [done|].
  assert (skip_comment (c :: l) = skip_comment l ∨ ∃ a b r, l = a :: b :: r ∧ skip_comment (c :: l) = r) as [->|(a & b & r & -> & ->)]; [|cbn [length] in *; lia..].
  cbn. repeat (match goal with |- context [match ?t with _ => _ end] => is_var t; destruct t end; try by left). right. by eexists _, _, _.
Qed.

Lemma has_prefix_length t l r : has_prefix t l = Some r → (length r ≤ length l)%nat.
Proof.
  revert l. induction t as [|d t IH]; intros l; cbn; [by intros [= ->]|]. destruct l as [|c l]; [done|]. case_if; [|done]. intros H%IH. cbn. lia.
Qed.

Lemma rest_length (l : text) : (length (tail l) ≤ length l)%nat.
Proof. destruct l; cbn; lia. Qed.

Lemma attr_value_length l : (length (attr_value l).2 ≤ length l)%nat.
Proof.
  unfold attr_value. pose proof (span_while_length is_ws l) as H1. destruct (span_while is_ws l) as [w1 l1]. cbn [snd] in *. destruct l1 as [|c l1]; [done|]. case_if; [|done].
  pose proof (span_while_length is_ws l1) as H2. destruct (span_while is_ws l1) as [w2 l2]. cbn [snd length] in *.
  pose proof (span_while_length (λ c, negb ((c =? 62) || is_ws c)) l2) as H3. destruct (span_while (λ c, negb ((c =? 62) || is_ws c)) l2) as [v3 r3]. cbn [snd length] in *.
  destruct l2 as [|q l2]; [cbn in *; lia|]. case_if; [|cbn; lia].
  pose proof (span_while_length (λ c, negb (c =? q)) l2) as H4. destruct (span_while _ l2) as [v4 r4]. pose proof (rest_length r4). cbn [snd length] in *. lia.
Qed.

(** An attribute takes a character at least, so that the attributes end at the
    end of the tag. *)
Lemma attr_progress l c r an l1 :
  l = c :: r → c ≠ 62 → is_ws c || (c =? 47) = false → span_while (λ c, negb ((c =? 61) || (c =? 62) || is_ws c || (c =? 47))) l = (an, l1) →
  (length (attr_value l1).2 < length l)%nat.
Proof.
  intros -> Hc Hw E. apply orb_false_elim in Hw as [Hw1 Hw2]. cbn [span_while] in E. destruct (negb _) eqn:Ec.
  - destruct (span_while _ r) as [a b] eqn:Er. injection E as <- <-. pose proof (span_while_length (λ c, negb ((c =? 61) || (c =? 62) || is_ws c || (c =? 47))) r) as Hl. rewrite Er in Hl.
    pose proof (attr_value_length b). cbn [snd length] in *. lia.
  - injection E as <- <-. apply negb_false_iff in Ec. rewrite Hw1, Hw2, !orb_false_r in Ec. apply orb_true_iff in Ec as [Ec|Ec]; boolp; [|lia]. subst c.
    unfold attr_value. cbn [span_while is_ws]. change (is_ws 61) with false. cbn [snd]. change (61 =? 61) with true. cbn match.
    pose proof (span_while_length is_ws r) as H2. destruct (span_while is_ws r) as [w2 l2]. cbn [snd length] in *.
    pose proof (span_while_length (λ c, negb ((c =? 62) || is_ws c)) l2) as H3. destruct (span_while (λ c, negb ((c =? 62) || is_ws c)) l2) as [v3 r3]. cbn [snd length] in *.
    destruct l2 as [|q l2]; [cbn in *; lia|]. case_if; [|cbn; lia].
    pose proof (span_while_length (λ c, negb (c =? q)) l2) as H4. destruct (span_while _ l2) as [v4 r4]. pose proof (rest_length r4). cbn [snd length] in *. lia.
Qed.

Lemma parse_attrs_end fuel l href alt :
  (length l < fuel)%nat → let r := (parse_attrs fuel l href alt).2 in (length r ≤ length l)%nat ∧ match r with [] => True | c :: _ => c = 62 end.
Proof.
  revert l href alt. induction fuel as [|n IH]; intros l href alt Hl; [lia|]. cbn [parse_attrs].
  pose proof (span_while_length (λ c, is_ws c || (c =? 47)) l) as H1. pose proof (span_while_head (λ c, is_ws c || (c =? 47)) l) as Hh.
  destruct (span_while (λ c, is_ws c || (c =? 47)) l) as [w l1]. cbn [snd] in *. destruct l1 as [|c r]; [done|].
  destruct (c =? 62) eqn:E; [boolp; cbn; split; [done|lia]|]. boolp.
  destruct (span_while _ (c :: r)) as [an l2] eqn:Ean. pose proof (attr_progress _ c r an l2 eq_refl ltac:(lia) (Hh c r eq_refl) Ean) as Hp.
  destruct (attr_value l2) as [val l3]. cbn [snd] in Hp.
  repeat case_if; (match goal with |- context [parse_attrs n l3 ?h ?a] => destruct (IH l3 h a ltac:(lia)) as [I1 I2]; split; [lia|exact I2] end).
Qed.

Lemma parse_tag_ok rest s : ok s → ok (parse_tag cw rest s).1 ∧ (length (parse_tag cw rest s).2 ≤ length rest)%nat.
Proof.
  intros Hs. assert ((∃ l, rest = 33 :: l) ∨ ¬ ∃ l, rest = 33 :: l) as [[l ->]|Hn].
  { destruct rest as [|c l]; [by right; intros [? ?]|]. destruct (decide (c = 33)) as [->|Hc]; [left; by eexists|right]. by intros [l' [= ? ?]]. }
  - cbn. split; [done|]. pose proof (skip_gt_length (33 :: l)) as H1. cbn in H1.
    repeat (match goal with |- context [match ?t with _ => _ end] => is_var t; destruct t end; try exact H1).
    match goal with |- context [skip_comment ?l] => pose proof (skip_comment_length l) end. cbn. lia.
  - assert (parse_tag cw rest s = (let '(closing, l) := match rest with 47 :: l => (true, l) | _ => (false, rest) end in
      let '(name, l) := span_while alnum l in
      match name with
      | [] => (text_char cw 60 s, rest)
      | _ => let '(href, alt, l) := parse_attrs (S (length l)) l [] [] in (dispatch_tag cw (lower <$> take 11 name) closing href alt (flush_run cw s), tail l)
      end)) as ->.
    { unfold parse_tag. destruct rest as [|[|p|p] rest]; try reflexivity. repeat (destruct p as [p|p|]; try reflexivity). by destruct Hn; eexists. }
    assert (∃ closing l, match rest with 47 :: l => (true, l) | _ => (false, rest) end = (closing, l) ∧ (length l ≤ length rest)%nat) as (closing & l & -> & Hl).
    { repeat (match goal with |- context [match ?t with _ => _ end] => is_var t; destruct t end; try (by eexists _, _)). eexists _, _. split; [done|]. cbn. lia. }
    pose proof (span_while_length alnum l) as Hsp. destruct (span_while alnum l) as [name l1]. cbn [snd] in Hsp.
    destruct name as [|c name]; [split; [by apply text_char_ok|done]|].
    pose proof (parse_attrs_end (S (length l1)) l1 [] [] ltac:(lia)) as Ha. cbv zeta in Ha. destruct (parse_attrs _ l1 [] []) as [[href alt] r]. cbn [snd] in *.
    pose proof (rest_length r). split; [|lia]. by apply dispatch_tag_ok, flush_run_ok.
Qed.

Lemma layout_step_ok c rest s : ok s → ok (layout_step cw c rest s).1 ∧ (length (layout_step cw c rest s).2 ≤ length rest)%nat.
Proof.
  intros Hs. unfold layout_step. destruct (skiptag s) as [tag|].
  - destruct (if c =? 60 then _ else None) as [l|] eqn:El; [|done]. cbn [fst snd]. split; [apply (same_ok s); same; apply (ok_core _ Hs)|].
    pose proof (skip_gt_length l). destruct (c =? 60); [|done].
    revert El. repeat (match goal with |- context [match ?t with _ => _ end] => is_var t; destruct t end; try done). intros El%has_prefix_length. cbn. lia.
  - destruct (c =? 60); [by apply parse_tag_ok|]. destruct (c =? 38).
    + pose proof (parse_entity_length rest). destruct (parse_entity rest). split; [by apply text_char_ok|done].
    + pose proof (utf8_decode_length c rest). destruct (utf8_decode (c :: rest)). split; [by apply text_char_ok|done].
Qed.

Lemma layout_loop_ok fuel src s : ok s → (length src ≤ fuel)%nat → ∃ s', layout_loop cw fuel src s = Some s' ∧ ok s'.
Proof.
  revert src s. induction fuel as [|n IH]; intros [|c rest] s Hs Hl; cbn [layout_loop length] in *; try lia; [by eexists..|].
  destruct (layout_step_ok c rest s Hs) as [H1 H2]. destruct (layout_step cw c rest s) as [s1 l]. apply IH; [done|]. cbn in H2. lia.
Qed.
End page.
End BrowserSpec.

(** * What the layout of a page promises

    The bounds of every layout, the text of plain pages, and where block
    elements fail to start a line. *)

Module BrowserTheorems.
Import Shell BrowserText Browser BrowserSpec.

(** A layout of [n] lines in a page of width [cw] that can be drawn: it fits
    its arrays, its spans are in the arena, between the margins and on the
    lines, and no two texts overlap. *)
Record drawable (cw : Z) (s : layout) (n : Z) : Prop := {
  dr_arrays : zlength (spans s) ≤ MAX_SPANS ∧ zlength (arena s) ≤ TEXT_CAP ∧ zlength (links s) ≤ MAX_LINKS ∧ zlength (title s) < TITLE_CAP;
  dr_hrefs h : h ∈ links s → zlength h < URL_CAP;
  dr_text a : a ∈ spans s → 0 ≤ off a ∧ 0 ≤ len a ∧ off a + len a ≤ zlength (arena s);
  dr_place a : a ∈ spans s → MARGIN ≤ x a ∧ x a + len a * CHAR_W ≤ MARGIN + cw ∧ 0 ≤ line a < n;
  dr_link a : a ∈ spans s → -1 ≤ link a < zlength (links s);
  dr_apart i j a b : spans s !! i = Some a → spans s !! j = Some b → (i < j)%nat → 0 < len a → 0 < len b →
    line a < line b ∨ line a = line b ∧ x a + len a * CHAR_W ≤ x b;
}.

Lemma ordered_lookup l i j a b : ordered l → l !! i = Some a → l !! j = Some b → (i < j)%nat → before a b.
Proof.
  revert i j. induction l as [|c l IH]; intros [|i] [|j] Ho Hi Hj Hlt; cbn in *; try done; try lia.
  - injection Hi as ->. destruct Ho as [Ho _]. apply Ho. by apply list_elem_of_lookup_2 in Hj.
  - destruct Ho as [_ Ho]. apply (IH i j); done || lia.
Qed.

Lemma ok_drawable cw s : 16 ≤ cw → ok cw s → drawable cw s (cur_line s + 1).
Proof.
  intros Hcw [[K1 K2 K3 K4 K5 K6 K7 K8 K9 K10 K11 K12 K13] _ _]. constructor; [done| | | | |].
  - intros h Hh. rewrite Forall_forall in K4. auto.
  - intros a Ha. destruct (K11 a Ha). lia.
  - intros a Ha. destruct (K11 a Ha) as [? ? ? Hr ? ?]. unfold aend, right, CHAR_W in *. lia.
  - intros a Ha. by destruct (K11 a Ha).
  - intros i j a b Hi Hj Hlt Hla Hlb. pose proof (ordered_lookup _ _ _ _ _ K12 Hi Hj Hlt Hla Hlb) as Hb. unfold aend, CHAR_W in *. lia.
Qed.

Lemma reset_ok cw : 16 ≤ cw → ok cw layout_reset.
Proof.
  intros Hcw. constructor; [|by intros _ _ a Ha%elem_of_nil|by right; right; left].
  constructor; cbn; try done; [unfold MARGIN; zdm|unfold right, MARGIN; lia|by intros a Ha%elem_of_nil|by intros _ a Ha%elem_of_nil].
Qed.

Lemma pre_ok cw d s : ok cw s → ok cw (set_pre_depth d s).
Proof. intros Ho. apply (same_ok cw s); lay; try done; try (by left); try (by left; split_and!); apply (ok_core _ _ Ho). Qed.

Lemma chars_ok cw src s : 16 ≤ cw → ok cw s → ok cw (foldl (λ s c, text_char cw c s) s src).
Proof. intros Hcw. exact (text_str_ok cw Hcw src s). Qed.

(** C11: The layout of every page ends, whatever its bytes, and what it lays
    out can be drawn: spans, text, links, link addresses and the title stay in
    their arrays, each span names text of the arena and a link that exists,
    lies between the margins and on a line of the page, and no text covers
    another. *)
Theorem layout_fits cw src :
  16 ≤ cw →
  (∃ s n, layout_html cw src = Some (s, n) ∧ drawable cw s n) ∧
  (let '(s, n) := layout_plain cw src in drawable cw s n).
Proof.
  intros Hcw. split.
  - destruct (layout_loop_ok cw Hcw (length src) src layout_reset (reset_ok cw Hcw) ltac:(lia)) as (s & Hl & Ho).
    destruct (flush_run_ok cw Hcw s Ho) as (Hf & _). unfold layout_html. rewrite Hl. cbn. eexists _, _. split; [done|]. by apply ok_drawable.
  - unfold layout_plain. cbn zeta. apply ok_drawable; [done|]. apply pre_ok, flush_run_ok, chars_ok; try done. by apply pre_ok, reset_ok.
Qed.

Definition small_page : text := txt "<title>t</title><h1>A</h1><p>b <a href=x>c</a>".

(** The page on a window of the window manager. *)
Lemma layout_fits_witness : 16 ≤ 764 ∧
  ((∃ s n, layout_html 764 small_page = Some (s, n) ∧ drawable 764 s n) ∧ (let '(s, n) := layout_plain 764 small_page in drawable 764 s n)).
Proof. split; [lia|]. apply layout_fits. lia. Defined.

(** ** The text of a plain page *)

(** What the spans show, one after the other. *)
Definition shown (s : layout) : list Z := concat ((λ a, take (Z.to_nat (len a)) (drop (Z.to_nat (off a)) (arena s))) <$> spans s).

Record tiled (s : layout) : Prop := {
  ti_in : Forall (λ a, 0 ≤ off a ∧ 0 ≤ len a ∧ off a + len a ≤ zlength (arena s)) (spans s);
  ti_shown : shown s = arena s;
}.

Lemma tiled_same s s' : spans s' = spans s → arena s' = arena s → tiled s → tiled s'.
Proof. intros E1 E2 [H1 H2]. constructor; unfold shown in *; rewrite ?E1, ?E2; done. Qed.

Lemma add_span_tiled w col fl s : tiled s → tiled (add_span w col fl s).
Proof.
  intros [H1 H2]. pose proof (zlength_nonneg (arena s)). pose proof (zlength_nonneg w). constructor; lay; rewrite ?zlength_app.
  - apply Forall_app. split; [|apply Forall_singleton; cbn; lia]. eapply Forall_impl; [exact H1|]. cbn. intros a ?. lia.
  - unfold shown in *. lay. rewrite fmap_app, concat_app. cbn [fmap list_fmap concat]. cbn [off len]. f_equal.
    + etransitivity; [|exact H2]. f_equal. apply list_fmap_ext. intros i a Hi. rewrite Forall_lookup in H1. specialize (H1 i a Hi). unfold zlength in H1.
      rewrite drop_app_le by lia. rewrite take_app_le by (rewrite length_drop; lia). done.
    + unfold zlength. rewrite !Nat2Z.id, drop_app_length, app_nil_r. apply take_ge. lia.
Qed.

Lemma emit_loop_tiled cw fuel w first col fl s :
  tiled s → (length w ≤ fuel)%nat → let s' := emit_loop cw fuel w first col fl s in
  tiled s' ∧ (layout_full s' = false → arena s' = arena s ++ w) ∧ run s' = run s.
Proof.
  revert w first s. induction fuel as [|n IH]; intros w first s Ht Hl; destruct w as [|c w]; cbn [length] in Hl; try lia; cbv zeta.
  1, 2: cbn; rewrite app_nil_r; split; [by apply (tiled_same s)|done].
  cbn [emit_loop]. set (W := c :: w) in *. destruct (_ || _); [split; [by apply (tiled_same s)|done]|].
  set (s1 := if first && pending_space s && _ then _ else s). assert (spans s1 = spans s ∧ arena s1 = arena s ∧ run s1 = run s) as (A1 & A2 & A3) by (unfold s1; by case_if).
  set (s2 := if _ && (cur_x s1 >? indent s1) then next_line s1 else s1).
  assert (spans s2 = spans s ∧ arena s2 = arena s ∧ run s2 = run s) as (B1 & B2 & B3) by (unfold s2; by case_if).
  clearbody s2. clear s1 A1 A2 A3. set (maxc := if _ <? 1 then 1 else _). set (k := if zlength W <? maxc then zlength W else maxc).
  assert (1 ≤ k) as Hk by (unfold k, maxc, zlength, W; cbn [length]; repeat case_if; lia).
  pose proof (add_span_tiled (take (Z.to_nat k) W) col fl s2 (tiled_same s s2 B1 B2 Ht)) as Ht3.
  set (s3 := add_span _ _ _ s2) in *. assert (arena s3 = arena s ++ take (Z.to_nat k) W ∧ run s3 = run s) as (C2 & C3) by (unfold s3; lay; by rewrite B2). clearbody s3.
  set (s4 := match drop (Z.to_nat k) W with [] => s3 | _ => next_line s3 end). assert (spans s4 = spans s3 ∧ arena s4 = arena s3 ∧ run s4 = run s3) as (D1 & D2 & D3) by (unfold s4; by destruct (drop _ _)).
  clearbody s4. destruct (IH (drop (Z.to_nat k) W) false s4 (tiled_same _ _ D1 D2 Ht3)) as (I1 & I2 & I3); [rewrite length_drop; unfold W; cbn [length]; lia|].
  split; [done|]. split; [|congruence]. intros Hf. rewrite (I2 Hf), D2, C2, <- app_assoc, take_drop. done.
Qed.

Lemma apply_breaks_same s : spans (apply_breaks s) = spans s ∧ arena (apply_breaks s) = arena s ∧ run (apply_breaks s) = run s ∧
  layout_full (apply_breaks s) = layout_full s.
Proof. unfold apply_breaks. repeat case_if; by lay. Qed.

(** The text laid out and waiting is [t], unless the page is full. *)
Definition told (s : layout) (t : list Z) : Prop := tiled s ∧ (layout_full s = false → arena s ++ run s = t).

Lemma told_same s s' t : spans s' = spans s → arena s' = arena s → run s' = run s → layout_full s' = layout_full s → told s t → told s' t.
Proof. intros E1 E2 E3 E4 [H1 H2]. split; [by apply (tiled_same s)|]. rewrite E2, E3, E4. done. Qed.

Lemma told_breaks s t : told s t → told (apply_breaks s) t.
Proof. destruct (apply_breaks_same s) as (E1 & E2 & E3 & E4). by apply told_same. Qed.

Lemma flush_run_told cw s t : told s t → told (flush_run cw s) t ∧ run (flush_run cw s) = [].
Proof.
  intros [H1 H2]. unfold flush_run. destruct (run s) as [|c r] eqn:Er; [by rewrite <- Er in H2|]. rewrite <- Er in *. split; [|done].
  unfold emit_word. destruct (layout_full s) eqn:Ef; cbn [orb].
  { split; [by apply (tiled_same s)|]. lay. by rewrite Ef. }
  destruct (Z.leb_spec (zlength (run s)) 0) as [Hz|_]. { exfalso. rewrite Er in Hz. unfold zlength in Hz. cbn [length] in Hz. lia. }
  destruct (apply_breaks_same s) as (E1 & E2 & E3 & E4). destruct (emit_loop_tiled cw (length (run s)) (run s) true (style_color s) (style_flags s) (apply_breaks s) (tiled_same _ _ E1 E2 H1) ltac:(lia)) as (I1 & I2 & I3).
  split; [by apply (tiled_same (emit_loop cw (length (run s)) (run s) true (style_color s) (style_flags s) (apply_breaks s)))|]. lay. intros Hf. rewrite (I2 Hf), E2, app_nil_r. auto.
Qed.

Lemma run_char_told cw mc s t : told s t → told (run_char cw mc s) (t ++ [mc]).
Proof.
  intros Ht. unfold run_char. assert (∃ s', (if zlength (run s) >=? RUN_CAP then flush_run cw s else s) = s' ∧ told s' t) as (s' & -> & H1 & H2).
  { eexists. split; [done|]. case_if; [by apply flush_run_told|done]. }
  split; [by apply (tiled_same s')|]. lay. intros Hf. by rewrite app_assoc, (H2 Hf).
Qed.

(** What a character of a plain page shows. *)
Definition plain_shows (cp : Z) : list Z :=
  if (cp =? 10) || (cp =? 13) then [] else if cp =? 9 then [32; 32; 32; 32] else if cp_to_char cp =? 0 then [] else [cp_to_char cp].

Definition plain (s : layout) : Prop := in_title s = false ∧ pre_depth s = 1.

Lemma emit_loop_mode cw fuel w first col fl s : plain s → plain (emit_loop cw fuel w first col fl s).
Proof.
  revert w first s. induction fuel as [|n IH]; intros [|c w] first s Hp; try done. cbn [emit_loop]. destruct (_ || _); [done|].
  apply IH. destruct (drop _ _); unfold plain in *; repeat case_if; by lay.
Qed.

Lemma flush_run_mode cw s : plain s → plain (flush_run cw s).
Proof.
  intros Hp. unfold flush_run. destruct (run s); [done|]. unfold emit_word. destruct (_ || _); [done|]. apply (emit_loop_mode cw _ _ true) .
  unfold plain, apply_breaks in *. repeat case_if; by lay.
Qed.

Lemma run_char_mode cw mc s : plain s → plain (run_char cw mc s).
Proof. intros Hp. unfold run_char. case_if; [by apply (flush_run_mode cw) in Hp|done]. Qed.

Lemma newline_now_mode cw s : plain s → plain (newline_now cw s).
Proof. intros Hp%(flush_run_mode cw). unfold newline_now. revert Hp. generalize (flush_run cw s). intros s1 Hp. unfold plain, apply_breaks in *. repeat case_if; by lay. Qed.

Lemma text_char_told cw cp s t : plain s → told s t → plain (text_char cw cp s) ∧ told (text_char cw cp s) (t ++ plain_shows cp).
Proof.
  intros Hp Ht. unfold text_char. destruct Hp as [E1 E2]. rewrite E1, E2. assert (plain s) as Hp by done.
  destruct (layout_full s) eqn:Ef. { split; [done|]. split; [apply Ht|]. by rewrite Ef. }
  change (negb (1 =? 0)) with true. cbv match. unfold plain_shows. destruct (cp =? 10) eqn:E10; cbn [orb].
  - rewrite app_nil_r. split; [by apply newline_now_mode|]. destruct (flush_run_told cw s t Ht) as [Hf _]. apply told_breaks in Hf. unfold newline_now.
    set (s1 := apply_breaks _) in *. clearbody s1. apply (told_same s1); try done; by destruct (did_emit s1).
  - destruct (cp =? 13); [by rewrite app_nil_r|]. destruct (cp =? 9).
    + cbn match. split; [by repeat apply run_char_mode|]. change [32; 32; 32; 32] with ([32] ++ [32] ++ [32] ++ [32]). rewrite !app_assoc. by repeat apply run_char_told.
    + destruct (cp_to_char cp =? 0); [by rewrite app_nil_r|]. split; [by apply run_char_mode|by apply run_char_told].
Qed.

Lemma chars_told cw src s t : plain s → told s t → told (foldl (λ s c, text_char cw c s) s src) (t ++ concat (plain_shows <$> src)).
Proof.
  revert s t. induction src as [|c src IH]; intros s t Hp Ht; cbn; [by rewrite app_nil_r|].
  destruct (text_char_told cw c s t Hp Ht) as [H1 H2]. rewrite app_assoc. by apply IH.
Qed.

(** A plain page loses no text: unless the page is full, its spans, one
    after the other, show every character of it that has a glyph, with tabs as
    four blanks. *)
Theorem plain_shown cw src :
  let '(s, _) := layout_plain cw src in layout_full s = false → shown s = concat (plain_shows <$> src).
Proof.
  unfold layout_plain. cbn zeta.
  pose proof (chars_told cw src (set_pre_depth 1 layout_reset) []) as Ht. destruct (flush_run_told cw _ _ (Ht ltac:(done) ltac:(by split; [constructor|]))) as [[H1 H2] H3].
  intros Hf. lay. specialize (H2 Hf). rewrite H3, app_nil_r in H2. cbn [app] in H2. rewrite <- H2. apply H1.
Qed.

(** A page of two lines, a tab in the first. *)
Lemma plain_shown_witness : layout_full (layout_plain 764 [97; 9; 98; 10; 99]).1 = false ∧ shown (layout_plain 764 [97; 9; 98; 10; 99]).1 = [97; 32; 32; 32; 32; 98; 99].
Proof. split; [vm_compute; reflexivity|]. pose proof (plain_shown 764 [97; 9; 98; 10; 99]) as H. apply H. vm_compute. reflexivity. Defined.

(** ** Where a break is lost *)

Definition texts (r : option (layout * Z)) : list (list Z * Z * Z) :=
  match r with Some (s, _) => (λ a, (take (Z.to_nat (len a)) (drop (Z.to_nat (off a)) (arena s)), line a, x a)) <$> spans s | None => [] end.

(** A rule behind text goes through the text: emit_rule() starts no line. *)
Theorem rule_through_text : texts (layout_html 764 (txt "text<hr>")) = [(txt "text", 0, 8); ([], 0, 8)].
Proof. vm_compute. reflexivity. Qed.

(** A list behind a short text starts on the text's line: the indent grows
    before the break is applied, and the break is taken only when the text
    reaches past the new indent. *)
Theorem list_on_the_line : texts (layout_html 764 (txt "Hi<ul><li>x")) = [(txt "Hi", 0, 8); ([7], 0, 24); (txt "x", 0, 40)].
Proof. vm_compute. reflexivity. Qed.
End BrowserTheorems.
