(* ===== verification/Gfx.v ===== *)
(** * Drawing into a pixel buffer (user/gfx.h)

    A drawing operation is the list of the pixels it writes, in the order of
    its loops; [paint] writes them, and fails on a store outside the buffer.
    The theorems say which pixels change and that no store is outside. *)

From S2P Require Import Prelude.

Module Gfx.

Record gfx := mk_gfx { w : Z; h : Z; buf : list Z }.

(** A pixel and its colour. *)
Notation px := (Z * Z * Z)%type.

(** [g->buf[yy * g->w + xx] = color]. *)
Definition store (g : gfx) (p : px) : option gfx :=
  let '(xx, yy, color) := p in
  let i := yy * w g + xx in
  if (0 <=? i) && (i <? zlength (buf g)) then Some (mk_gfx (w g) (h g) (bset (buf g) i color)) else None.

Fixpoint paint (g : gfx) (l : list px) : option gfx :=
  match l with [] => Some g | p :: l' => g ← store g p; paint g l' end.

(** [for (i = a; i < b; i++)]. *)
Definition range (a b : Z) : list Z := seqZ a (b - a).

Definition gfx_fill (gw gh x y w h color : Z) : list px :=
  let x0 := if x <? 0 then 0 else x in
  let y0 := if y <? 0 then 0 else y in
  let x1 := if x + w >? gw then gw else x + w in
  let y1 := if y + h >? gh then gh else y + h in
  yy ← range y0 y1; xx ← range x0 x1; [(xx, yy, color)].

Definition gfx_frame (gw gh x y w h color : Z) : list px :=
  gfx_fill gw gh x y w 1 color ++ gfx_fill gw gh x (y + h - 1) w 1 color ++ gfx_fill gw gh x y 1 h color ++ gfx_fill gw gh (x + w - 1) y 1 h color.

(** Is the bit of the column set? *)
Definition column (bits col : Z) : bool := negb (Z.land bits (Z.shiftr 0x80 col) =? 0).

Section font.
(** 256 glyphs of 32 bytes, of which the first 16 are shown. *)
Context (font : list Z).

Definition gfx_char (gw gh x y ch fg : Z) : list px :=
  row ← range 0 16;
  let yy := y + row in
  if (yy <? 0) || (yy >=? gh) then [] else
  let bits := bget font (ch * 32 + row) in
  col ← range 0 8;
  if negb (column bits col) then [] else
  let xx := x + col in
  if (xx >=? 0) && (xx <? gw) then [(xx, yy, fg)] else [].

Fixpoint gfx_text (gw gh x y : Z) (s : list Z) (fg : Z) : list px :=
  match s with [] => [] | c :: s' => gfx_char gw gh x y c fg ++ gfx_text gw gh (x + 8) y s' fg end.
End font.

Definition arrow : list Z := [0x80; 0xC0; 0xE0; 0xF0; 0xF8; 0xFC; 0xFE; 0xFF; 0xF8; 0xD8; 0x8C; 0x0C; 0x06; 0x06].

Definition gfx_cursor (gw gh x y : Z) : list px :=
  pass ← range 0 2;
  let o := if pass =? 0 then 1 else 0 in
  let color := if pass =? 0 then 0 else 0xFFFFFF in
  row ← range 0 14; col ← range 0 8;
  if negb (column (bget arrow row) col) then [] else
  let xx := x + col + o in
  let yy := y + row + o in
  if (xx >=? 0) && (xx <? gw) && (yy >=? 0) && (yy <? gh) then [(xx, yy, color)] else [].

(** ** What is written *)

Definition wf (g : gfx) : Prop := 0 ≤ w g ∧ 0 ≤ h g ∧ zlength (buf g) = w g * h g.
Definition inside (gw gh : Z) (p : px) : Prop := 0 ≤ p.1.1 < gw ∧ 0 ≤ p.1.2 < gh.
Definition pixel (g : gfx) (x y : Z) : Z := bget (buf g) (y * w g + x).

Lemma elem_of_range i a b : i ∈ range a b ↔ a ≤ i < b.
Proof. unfold range. rewrite elem_of_seqZ. lia. Qed.

Lemma index_unique gw x y x' y' : 0 ≤ x < gw → 0 ≤ x' < gw → y * gw + x = y' * gw + x' → x = x' ∧ y = y'.
Proof. intros Hx Hx' E. assert (y = y') as ->; [|lia]. nia. Qed.

Lemma store_inside g p : wf g → inside (w g) (h g) p →
  ∃ g', store g p = Some g' ∧ wf g' ∧ w g' = w g ∧ h g' = h g ∧
    ∀ x y, 0 ≤ x < w g → 0 ≤ y < h g → pixel g' x y = if bool_decide (p.1 = (x, y)) then p.2 else pixel g x y.
Proof.
  intros (Hw & Hh & Hl) Hp. destruct p as [[xx yy] c]. destruct Hp as [Hx Hy]. cbn [fst snd] in Hx, Hy. unfold store. assert (0 ≤ yy * w g + xx < zlength (buf g)) as Hi.
  { rewrite Hl. assert (yy * w g ≤ (h g - 1) * w g) by (apply Z.mul_le_mono_nonneg_r; lia). assert (0 ≤ yy * w g) by (apply Z.mul_nonneg_nonneg; lia). lia. }
  rewrite (proj2 (Z.leb_le _ _)), (proj2 (Z.ltb_lt _ _)) by lia. cbn [andb]. eexists. split; [done|]. cbn [w h buf]. split_and!; try done.
  - split_and!; try done. cbn. unfold zlength, bset in *. by rewrite length_insert.
  - intros x y Hxx Hyy. unfold pixel. cbn [w buf fst snd]. unfold bget, bset. case_bool_decide as E.
    + injection E as -> ->. rewrite list_lookup_insert_eq; [done|]. unfold zlength in Hi. lia.
    + rewrite list_lookup_insert_ne; [done|]. intros Ei. apply E. assert (0 ≤ y * w g) by (apply Z.mul_nonneg_nonneg; lia).
      destruct (index_unique (w g) xx yy x y Hx Hxx ltac:(lia)) as [-> ->]. done.
Qed.

(** The colour a list leaves at a pixel. *)
Fixpoint painted (l : list px) (x y old : Z) : Z :=
  match l with [] => old | p :: l' => painted l' x y (if bool_decide (p.1 = (x, y)) then p.2 else old) end.

(** Writes inside the picture succeed. *)
Lemma paint_inside l g : wf g → Forall (inside (w g) (h g)) l →
  ∃ g', paint g l = Some g' ∧ wf g' ∧ w g' = w g ∧ h g' = h g ∧
    ∀ x y, 0 ≤ x < w g → 0 ≤ y < h g → pixel g' x y = painted l x y (pixel g x y).
Proof.
  revert g. induction l as [|p l IH]; intros g Hg Hl; cbn [paint]; [by exists g|]. apply Forall_cons in Hl as [Hp Hl].
  destruct (store_inside g p Hg Hp) as (g1 & -> & Hg1 & E1 & E2 & Hpx). cbn. destruct (IH g1 Hg1 ltac:(by rewrite E1, E2)) as (g2 & -> & Hg2 & F1 & F2 & Hpx2).
  exists g2. split_and!; try congruence || done. intros x y Hx Hy. rewrite Hpx2 by (rewrite ?E1, ?E2; done). cbn [painted]. by rewrite Hpx.
Qed.

Lemma painted_app l1 l2 x y old : painted (l1 ++ l2) x y old = painted l2 x y (painted l1 x y old).
Proof. revert old. induction l1 as [|p l1 IH]; intros old; cbn; [done|]. apply IH. Qed.

Lemma painted_out l x y old : (x, y) ∉ (fst <$> l) → painted l x y old = old.
Proof.
  revert old. induction l as [|p l IH]; intros o Hn; cbn; [done|]. cbn in Hn. apply not_elem_of_cons in Hn as [Hn1 Hn2]. rewrite bool_decide_false by congruence. by apply IH.
Qed.

(** A list of one colour. *)
Lemma painted_uniform c l x y old :
  Forall (λ p, p.2 = c) l → painted l x y old = if bool_decide ((x, y) ∈ (fst <$> l)) then c else old.
Proof.
  revert old. induction l as [|p l IH]; intros old Hf; [by rewrite bool_decide_false by apply not_elem_of_nil|]. apply Forall_cons in Hf as [Hp Hf]. cbn [painted].
  rewrite (IH _ Hf). cbn. destruct (decide ((x, y) ∈ (fst <$> l))) as [Hin|Hin].
  - rewrite !bool_decide_true; [done|by apply elem_of_cons; right|done].
  - rewrite (bool_decide_false ((x, y) ∈ (fst <$> l))) by done. destruct (decide (p.1 = (x, y))) as [E|E].
    + rewrite !bool_decide_true; [done|by apply elem_of_cons; left|done].
    + rewrite !bool_decide_false; [done| |done]. rewrite elem_of_cons. intros [?|?]; congruence || done.
Qed.

(** ** Each operation *)

(** Pixels of one colour, all inside the picture, that are those of [P]. *)
Definition covers (gw gh : Z) (l : list px) (c : Z) (P : Z → Z → Prop) : Prop :=
  Forall (inside gw gh) l ∧ Forall (λ p, p.2 = c) l ∧ ∀ x y, 0 ≤ x < gw → 0 ≤ y < gh → (x, y) ∈ (fst <$> l) ↔ P x y.

Lemma elem_of_fst_bind (l : list Z) (f : Z → list px) q : q ∈ (fst <$> (l ≫= f)) ↔ ∃ i, i ∈ l ∧ q ∈ (fst <$> f i).
Proof.
  rewrite list_elem_of_fmap. setoid_rewrite list_elem_of_bind. setoid_rewrite list_elem_of_fmap. split; [intros (p & -> & i & H1 & H2)|intros (i & H1 & p & -> & H2)]; eauto 10.
Qed.

Lemma Forall_range_bind (P : px → Prop) a b (f : Z → list px) : (∀ i, a ≤ i < b → Forall P (f i)) → Forall P (range a b ≫= f).
Proof. intros Hf. apply Forall_bind, Forall_forall. intros i Hi%elem_of_range. auto. Qed.

Lemma fill_covers gw gh x y w h c : covers gw gh (gfx_fill gw gh x y w h c) c (λ px py, x ≤ px < x + w ∧ y ≤ py < y + h).
Proof.
  unfold gfx_fill. split_and!.
  - apply Forall_range_bind. intros yy Hy. apply Forall_range_bind. intros xx Hx. apply Forall_singleton. unfold inside. cbn. revert Hy Hx. repeat case_if; lia.
  - apply Forall_range_bind. intros yy Hy. apply Forall_range_bind. intros xx Hx. by apply Forall_singleton.
  - intros px py Hpx Hpy. rewrite elem_of_fst_bind. setoid_rewrite elem_of_fst_bind. setoid_rewrite elem_of_range. split.
    + intros (yy & Hy & xx & Hx & Hin). cbn in Hin. apply list_elem_of_singleton in Hin as [= -> ->]. revert Hy Hx. repeat case_if; lia.
    + intros [Hx Hy]. exists py. split; [repeat case_if; lia|]. exists px. split; [repeat case_if; lia|]. cbn. by apply list_elem_of_singleton.
Qed.

Lemma char_covers font gw gh x y ch fg :
  covers gw gh (gfx_char font gw gh x y ch fg) fg (λ px py, 0 ≤ px - x < 8 ∧ 0 ≤ py - y < 16 ∧ column (bget font (ch * 32 + (py - y))) (px - x) = true).
Proof.
  unfold gfx_char. split_and!.
  - apply Forall_range_bind. intros row Hr. destruct (_ || _) eqn:E; [by apply Forall_nil|]. apply orb_false_elim in E as [E1 E2]. apply Forall_range_bind. intros col Hc.
    destruct (negb _); [by apply Forall_nil|]. destruct (_ && _) eqn:E; [|by apply Forall_nil]. apply Forall_singleton. unfold inside. cbn. boolp. lia.
  - apply Forall_range_bind. intros row Hr. destruct (_ || _); [by apply Forall_nil|]. apply Forall_range_bind. intros col Hc.
    destruct (negb _); [by apply Forall_nil|]. destruct (_ && _); [by apply Forall_singleton|by apply Forall_nil].
  - intros px py Hpx Hpy. rewrite elem_of_fst_bind. setoid_rewrite elem_of_range. split.
    + intros (row & Hr & Hin). destruct (_ || _); [by apply elem_of_nil in Hin|]. apply elem_of_fst_bind in Hin as (col & Hc & Hin). apply elem_of_range in Hc.
      destruct (column _ col) eqn:Eb; cbn [negb] in Hin; [|by apply elem_of_nil in Hin]. destruct (_ && _); [|by apply elem_of_nil in Hin]. cbn in Hin. apply list_elem_of_singleton in Hin as [= -> ->].
      replace (y + row - y) with row by lia. replace (x + col - x) with col by lia. split_and!; done || lia.
    + intros (Hx & Hy & Hb). exists (py - y). split; [lia|]. replace (y + (py - y)) with py by lia. destruct (_ || _) eqn:E; [boolp; lia|]. apply elem_of_fst_bind. exists (px - x). split; [by apply elem_of_range|].
      rewrite Hb. cbn [negb]. replace (x + (px - x)) with px by lia. rewrite (proj2 (Z.geb_ge _ _)), (proj2 (Z.ltb_lt _ _)) by lia. cbn. by apply list_elem_of_singleton.
Qed.

Lemma covers_paint g l c P x y : wf g → covers (w g) (h g) l c P → 0 ≤ x < w g → 0 ≤ y < h g →
  ∃ g', paint g l = Some g' ∧ w g' = w g ∧ h g' = h g ∧ (P x y → pixel g' x y = c) ∧ (¬ P x y → pixel g' x y = pixel g x y).
Proof.
  intros Hg (H1 & H2 & H3) Hx Hy. destruct (paint_inside l g Hg H1) as (g' & -> & _ & E1 & E2 & Hpx). exists g'. split_and!; try done; intros HP; rewrite (Hpx x y Hx Hy), (painted_uniform c) by done.
  - by rewrite bool_decide_true by (by apply H3).
  - by rewrite bool_decide_false by (by rewrite H3).
Qed.

(** Every operation stays inside the picture. *)
Lemma frame_inside gw gh x y w h c : Forall (inside gw gh) (gfx_frame gw gh x y w h c).
Proof. unfold gfx_frame. rewrite !Forall_app. split_and!; apply fill_covers. Qed.

Lemma text_inside font gw gh x y s fg : Forall (inside gw gh) (gfx_text font gw gh x y s fg).
Proof. revert x. induction s as [|c s IH]; intros x; cbn; [by apply Forall_nil|]. apply Forall_app. split; [apply char_covers|apply IH]. Qed.

Lemma cursor_inside gw gh x y : Forall (inside gw gh) (gfx_cursor gw gh x y).
Proof.
  unfold gfx_cursor. apply Forall_range_bind. intros pass _. apply Forall_range_bind. intros row _. apply Forall_range_bind. intros col _.
  destruct (negb _); [by apply Forall_nil|]. destruct (_ && _ && _ && _) eqn:E; [|by apply Forall_nil]. apply Forall_singleton. unfold inside. cbn. boolp. lia.
Qed.

(** All drawing clips against the picture: wherever a rectangle, a glyph,
    a text or the cursor is drawn, no store is outside the buffer; a rectangle
    and a glyph colour exactly the pixels of theirs that are inside, and leave
    the others. *)
Theorem drawing_clips font g x y px py :
  wf g → 0 ≤ px < w g → 0 ≤ py < h g →
  (∀ rw rh c, ∃ g', paint g (gfx_fill (w g) (h g) x y rw rh c) = Some g' ∧
    pixel g' px py = if bool_decide (x ≤ px < x + rw ∧ y ≤ py < y + rh) then c else pixel g px py) ∧
  (∀ ch fg, ∃ g', paint g (gfx_char font (w g) (h g) x y ch fg) = Some g' ∧
    pixel g' px py = if bool_decide (0 ≤ px - x < 8 ∧ 0 ≤ py - y < 16) && column (bget font (ch * 32 + (py - y))) (px - x) then fg else pixel g px py) ∧
  (∀ s fg, is_Some (paint g (gfx_text font (w g) (h g) x y s fg))) ∧ is_Some (paint g (gfx_cursor (w g) (h g) x y)).
Proof.
  intros Hg Hx Hy. split_and!.
  - intros rw rh c. destruct (covers_paint g _ c _ px py Hg (fill_covers (w g) (h g) x y rw rh c) Hx Hy) as (g' & -> & _ & _ & H1 & H2). exists g'. split; [done|]. case_bool_decide; auto.
  - intros ch fg. destruct (covers_paint g _ fg _ px py Hg (char_covers font (w g) (h g) x y ch fg) Hx Hy) as (g' & -> & _ & _ & H1 & H2). exists g'. split; [done|].
    case_bool_decide as E; cbn [andb]; [destruct (column _ _) eqn:Ec|]; [apply H1; tauto|apply H2|apply H2; tauto]. intros (_ & _ & ?). congruence.
  - intros s fg. destruct (paint_inside _ g Hg (text_inside font (w g) (h g) x y s fg)) as (g' & -> & _). done.
  - destruct (paint_inside _ g Hg (cursor_inside (w g) (h g) x y)) as (g' & -> & _). done.
Qed.

Definition small_picture : gfx := mk_gfx 4 3 (replicate 12 7).

(** A rectangle half outside. *)
Lemma drawing_clips_witness :
  ∃ g', paint small_picture (gfx_fill 4 3 (-1) 1 3 5 9) = Some g' ∧ pixel g' 1 2 = 9.
Proof.
  destruct (drawing_clips [] small_picture (-1) 1 1 2) as (Hf & _); [split_and!; vm_compute; done|cbn; lia|cbn; lia|].
  destruct (Hf 3 5 9) as (g' & H1 & H2). exists g'. split; [exact H1|]. rewrite H2. vm_compute. reflexivity.
Defined.
End Gfx.
