(* ===== verification/BrowserUrl.v ===== *)
(** * Addresses of pages (user/browser.c, small strings and URLs)

    C strings are lists of characters; what is behind the end reads as 0.
    Strings appended to a buffer are cut at its size. *)

From Stdlib Require Import String.
From S2P Require Import Prelude Shell Browser BrowserTheorems.

Module BrowserUrl.
Import Shell BrowserText Browser.

(** ** Small strings *)

Definition sadd (cap : Z) (dst src : text) : text := dst ++ take (Z.to_nat (cap - 1 - zlength dst)) src.

Definition saddi (cap : Z) (dst : text) (v : Z) : text :=
  let u := if v <? 0 then u32 (- v) else v in
  let dst := if v <? 0 then sadd cap dst (txt "-") else dst in
  foldl (λ d c, sadd cap d [c]) dst (digits 12 u []).

(** Does [s] start with [prefix], up to case? *)
Fixpoint ci_match (s prefix : text) {struct prefix} : bool :=
  match prefix with
  | [] => true
  | d :: prefix' => match s with [] => false | c :: s' => (lower c =? lower d) && ci_match s' prefix' end
  end.

Definition ci_prefix (s prefix : text) : Z := if ci_match s prefix then zlength prefix else 0.

Fixpoint ci_contains (s needle : text) : bool :=
  match s with [] => false | _ :: s' => ci_match s needle || ci_contains s' needle end.

(** ** URLs *)

Definition is_digit (c : Z) : bool := (c >=? 48) && (c <=? 57).

(** At most [n] digits: their value, their number and the rest. *)
Fixpoint octet (n : nat) (s : text) (v digits : Z) : Z * Z * text :=
  match n, s with
  | S n', c :: s' => if is_digit c then octet n' s' (v * 10 + (c - 48)) (digits + 1) else (v, digits, s)
  | _, _ => (v, digits, s)
  end.

(** The parts of an address from [part] on. *)
Fixpoint ip_parts (n : nat) (part : Z) (s : text) (ip : Z) : option (Z * text) :=
  match n with
  | O => Some (ip, s)
  | S n' =>
      let '(v, digits, s) := octet 3 s 0 0 in
      if (digits =? 0) || (v >? 255) then None else
      let ip := Z.lor ip (u32 (Z.shiftl v (part * 8))) in
      if part <? 3 then if bget s 0 =? 46 then ip_parts n' (part + 1) (tail s) ip else None
      else ip_parts n' (part + 1) s ip
  end.

Definition parse_ip (s : text) : option Z :=
  '(ip, s) ← ip_parts 4 0 s 0; match s with [] => Some ip | _ => None end.

Record url := mk_url { tls : bool; port : Z; host : text; path : text }.

(** Is there a [://] before the first slash? *)
Fixpoint has_scheme (s : text) : bool :=
  match s with
  | [] => false
  | c :: s' =>
      if c =? 47 then false
      else if (c =? 58) && (bget s' 0 =? 47) && (bget s' 1 =? 47) then true else has_scheme s'
  end.

(** At most [n] characters of a class, and the rest. *)
Fixpoint span_upto (n : nat) (p : Z → bool) (s : text) : text * text :=
  match n, s with
  | S n', c :: s' => if p c then let '(a, b) := span_upto n' p s' in (c :: a, b) else ([], s)
  | _, _ => ([], s)
  end.

(** The value of the digits; [None] when it is no port. *)
Fixpoint port_digits (s : text) (v : Z) : option (Z * text) :=
  match s with
  | c :: s' => if is_digit c then let v := v * 10 + (c - 48) in if v >? 65535 then None else port_digits s' v else Some (v, s)
  | [] => Some (v, [])
  end.

Definition host_char (c : Z) : bool := negb ((c =? 47) || (c =? 58) || (c =? 35)).

(** The scheme and what is behind it. *)
Definition parse_scheme (s : text) : option (bool * text) :=
  if negb (ci_prefix s (txt "https://") =? 0) then Some (true, drop 8 s)
  else if negb (ci_prefix s (txt "http://") =? 0) then Some (false, drop 7 s)
  else if has_scheme s then None else Some (false, s).

(** The path, up to the fragment. *)
Definition parse_path (s : text) : text :=
  let slash := if bget s 0 =? 47 then [] else [47] in
  slash ++ (span_upto (511 - length slash) (λ c, negb (c =? 35)) s).1.

Definition parse_url (s : text) : option url :=
  '(tls, s) ← parse_scheme s;
  let '(host, s) := span_upto 255 host_char s in
  match host with
  | [] => None
  | _ =>
      '(port, s) ← (if bget s 0 =? 58 then port_digits (tail s) 0 else Some (0, s));
      Some (mk_url tls (if port =? 0 then if tls then 443 else 80 else port) host (parse_path s))
  end.

(** *** Paths *)

Definition seg_end (c : Z) : bool := (c =? 47) || (c =? 0) || (c =? 63).

(** The path without its last segment and the slash before it. *)
Definition pop_segment (out : text) : text := rev (tail (span_while (λ c, negb (c =? 47)) (rev out)).2).

(** The loop of normalize_path(): the path and the query behind it.  Each
    round takes a character at least. *)
Fixpoint norm_loop (fuel : nat) (p out : text) : text * text :=
  match fuel, p with
  | S n, c :: p' =>
      if (c =? 0) || (c =? 63) then (out, p)
      else if (c =? 47) && (bget p 1 =? 46) && seg_end (bget p 2) then norm_loop n (drop 2 p) out
      else if (c =? 47) && (bget p 1 =? 46) && (bget p 2 =? 46) && seg_end (bget p 3) then norm_loop n (drop 3 p) (pop_segment out)
      else norm_loop n p' (if zlength out <? URL_CAP - 1 then out ++ [c] else out)
  | _, _ => (out, p)
  end.

Definition normalize_path (p : text) : text :=
  let '(out, query) := norm_loop (length p) p [] in
  let out := match out with [] => [47] | _ => out end in
  scopy (out ++ take (Z.to_nat (URL_CAP - 1 - zlength out)) (c_string query)) URL_CAP.

(** Is there a [:] before a slash, a query or a fragment? *)
Fixpoint other_scheme (s : text) : bool :=
  match s with
  | [] => false
  | c :: s' => if (c =? 47) || (c =? 63) || (c =? 35) then false else (c =? 58) || other_scheme s'
  end.

Definition no_query (p : text) : text := (span_while (λ c, negb (c =? 63)) p).1.

(** The directory of a path, with its slash. *)
Definition path_dir (p : text) : text := rev (span_while (λ c, negb (c =? 47)) (rev (no_query p))).2.

Definition resolve_url (base href : text) (cap : Z) : option text :=
  if match href with [] => true | c :: _ => c =? 35 end then None
  else if negb (ci_prefix href (txt "http://") =? 0) || negb (ci_prefix href (txt "https://") =? 0) then Some (scopy href cap)
  else if other_scheme href then None
  else
    b ← parse_url base;
    let out := sadd cap [] (if tls b then txt "https:" else txt "http:") in
    if (bget href 0 =? 47) && (bget href 1 =? 47) then Some (sadd cap out href)
    else
      let out := sadd cap (sadd cap out (txt "//")) (host b) in
      let out := if negb (port b =? (if tls b then 443 else 80)) then saddi cap (sadd cap out (txt ":")) (port b) else out in
      let path :=
        if bget href 0 =? 47 then scopy href URL_CAP
        else if bget href 0 =? 63 then let p := take 511 (no_query (path b)) in p ++ scopy href (URL_CAP - zlength p)
        else let p := take 511 (path_dir (path b)) in p ++ scopy href (URL_CAP - zlength p) in
      Some (sadd cap out (normalize_path path)).

Definition make_absolute (inp : text) (cap : Z) : text :=
  if has_scheme inp then scopy inp cap
  else
    let '(host, _) := span_upto 255 (λ c, negb ((c =? 47) || (c =? 58))) inp in
    sadd cap (sadd cap [] (match parse_ip host with Some _ => txt "http://" | None => txt "https://" end)) inp.

(** ** Responses *)

(** The first index from [i] on, up to [hlen], whose character is not in the
    class. *)
Fixpoint run_while (fuel : nat) (p : Z → bool) (page : text) (hlen i : Z) : Z :=
  match fuel with
  | O => i
  | S n => if (i <? hlen) && p (bget page i) then run_while n p page hlen (i + 1) else i
  end.

Fixpoint header_loop (fuel : nat) (page : text) (hlen : Z) (name : text) (cap i : Z) : option text :=
  match fuel with
  | O => None
  | S n =>
      if negb (i <? hlen) then None else
      let m := ci_prefix (drop (Z.to_nat i) page) name in
      if negb (m =? 0) then
        let i := run_while (S (Z.to_nat hlen)) (λ c, (c =? 32) || (c =? 9)) page hlen (i + m) in
        let e := run_while (Z.to_nat (cap - 1)) (λ c, negb ((c =? 13) || (c =? 10))) page hlen i in
        Some (take (Z.to_nat (e - i)) (drop (Z.to_nat i) page))
      else header_loop n page hlen name cap (run_while (S (Z.to_nat hlen)) (λ c, negb (c =? 10)) page hlen i + 1)
  end.

Definition header_find (page : text) (hlen : Z) (name : text) (cap : Z) : option text :=
  header_loop (S (Z.to_nat hlen)) page hlen name cap 0.

(** Where the headers end and where the body begins. *)
Fixpoint find_body (l : text) (i : Z) : option (Z * Z) :=
  match l with
  | c :: ((d :: l'') as l') =>
      if (c =? 10) && ((d =? 10) || (d =? 13) && (bget l'' 0 =? 10)) then Some (i + 1, i + (if d =? 10 then 2 else 3))
      else find_body l' (i + 1)
  | _ => None
  end.

(** The value of the digits from [i] on. *)
Fixpoint status_digits (fuel : nat) (page : text) (hlen i st : Z) : Z :=
  match fuel with
  | O => st
  | S n =>
      if (i <? hlen) && is_digit (bget page i) then status_digits n page hlen (i + 1) (s32 (st * 10 + (bget page i - 48))) else st
  end.

Record response := mk_response { status : Z; loc : text; is_html : bool; body : text }.

(** The response in the buffer, split into its parts. *)
Definition split_response (page : text) : response :=
  match find_body page 0 with
  | Some (hlen, start) =>
      if ci_prefix page (txt "http/") =? 0 then mk_response 200 [] false page else
      let i := run_while (S (Z.to_nat hlen)) (λ c, negb (c =? 32)) page hlen 0 in
      let st := status_digits (S (Z.to_nat hlen)) page hlen (i + 1) 0 in
      let loc := match header_find page hlen (txt "location:") URL_CAP with Some l => c_string l | None => [] end in
      let html :=
        match header_find page hlen (txt "content-type:") 128 with
        | Some ctype => ci_contains (c_string ctype) (txt "html")
        | None => true
        end in
      mk_response st loc html (drop (Z.to_nat start) page)
  | None => mk_response 200 [] false page
  end.
End BrowserUrl.

(** * Links lead where they say

    Relative links stay on the site of their page, and dots in paths are
    removed segment by segment. *)

Module BrowserUrlSpec.
Import Shell BrowserText Browser BrowserSpec BrowserUrl.

(** ** Numbers *)

Definition add_digit (v c : Z) : Z := v * 10 + (c - 48).

Lemma digits_value n u tmp :
  0 ≤ u < 10 ^ Z.of_nat n → (0 < n)%nat →
  ∃ ds, digits n u tmp = ds ++ tmp ∧ Forall (λ c, is_digit c = true) ds ∧ (∀ v, foldl add_digit v ds = v * 10 ^ zlength ds + u) ∧ (length ds ≤ n)%nat ∧
    (∀ m, 0 ≤ m → u < 10 ^ m → 0 < m → zlength ds ≤ m).
Proof.
  revert u tmp. induction n as [|n IH]; intros u tmp Hu Hn; [lia|]. cbn [digits].
  assert (is_digit (48 + u mod 10) = true) as Hd by (unfold is_digit; pose proof (Z.mod_pos_bound u 10 ltac:(lia)); rewrite !(proj2 (Z.geb_ge _ _)), (proj2 (Z.leb_le _ _)) by lia; done).
  destruct (Z.eqb_spec (u / 10) 0) as [E|E].
  - exists [48 + u mod 10]. split_and!; [done|by apply Forall_singleton| |cbn; lia|cbn; intros; change (zlength [_]) with 1; lia].
    intros v. cbn. unfold add_digit. change (zlength [_]) with 1. zdm.
  - destruct n as [|n]. { exfalso. change (10 ^ Z.of_nat 1) with 10 in Hu. apply E. apply Z.div_small. lia. }
    assert (0 ≤ u / 10 < 10 ^ Z.of_nat (S n)) as Hu'.
    { split; [apply Z.div_pos; lia|]. apply Z.div_lt_upper_bound; [lia|]. rewrite Nat2Z.inj_succ, Z.pow_succ_r in Hu by lia. lia. }
    destruct (IH (u / 10) ((48 + u mod 10) :: tmp) Hu' ltac:(lia)) as (ds & -> & Hf & Hv & Hl & Hs). exists (ds ++ [48 + u mod 10]). split_and!.
    + by rewrite <- app_assoc.
    + apply Forall_app. split; [done|by apply Forall_singleton].
    + intros v. rewrite foldl_app, Hv, zlength_app. change (zlength [_]) with 1. cbn [foldl]. unfold add_digit. rewrite Z.pow_add_r by (try apply zlength_nonneg; lia). change (10 ^ 1) with 10.
      pose proof (Z.div_mod u 10 ltac:(lia)). lia.
    + rewrite length_app. cbn. lia.
    + intros m Hm Hum H0. rewrite zlength_app. change (zlength [_]) with 1. destruct (decide (m = 1)) as [->|]; [exfalso; apply E, Z.div_small; cbn in Hum; lia|].
      assert (zlength ds ≤ m - 1); [|lia]. apply Hs; [lia| |lia]. apply Z.div_lt_upper_bound; [lia|]. replace m with (Z.succ (m - 1)) in Hum by lia. rewrite Z.pow_succ_r in Hum by lia. lia.
Qed.

Lemma port_digits_value ds v r :
  Forall (λ c, is_digit c = true) ds → 0 ≤ v → foldl add_digit v ds ≤ 65535 → port_digits (ds ++ 47 :: r) v = Some (foldl add_digit v ds, 47 :: r).
Proof.
  revert v. induction ds as [|c ds IH]; intros v Hf Hv Hle; [done|]. apply Forall_cons in Hf as [Hc Hf]. cbn [app port_digits foldl] in *. rewrite Hc.
  assert (0 ≤ add_digit v c) as Hp by (unfold add_digit, is_digit in *; boolp; lia).
  assert (∀ ds w, Forall (λ c, is_digit c = true) ds → 0 ≤ w → w ≤ foldl add_digit w ds) as Hmono.
  { clear. induction ds as [|c ds IH]; intros w Hf Hw; cbn; [lia|]. apply Forall_cons in Hf as [Hc Hf].
    assert (w ≤ add_digit w c) by (unfold add_digit, is_digit in *; boolp; lia). specialize (IH (add_digit w c) Hf ltac:(lia)). lia. }
  pose proof (Hmono ds (add_digit v c) Hf Hp). change (v * 10 + (c - 48)) with (add_digit v c). destruct (Z.gtb_spec (add_digit v c) 65535); [lia|]. by apply IH.
Qed.

Lemma port_digits_range s v p r : port_digits s v = Some (p, r) → 0 ≤ v ≤ 65535 → 0 ≤ p ≤ 65535.
Proof.
  revert v. induction s as [|c s IH]; intros v; cbn; [intros [= <- _]; done|]. destruct (is_digit c) eqn:Ec; [|intros [= <- _]; done].
  case_if; [done|]. intros H Hv. boolp. apply (IH _ H). unfold is_digit in Ec. boolp. lia.
Qed.

(** ** Hosts *)

Lemma span_upto_all n p a b :
  Forall (λ c, p c = true) a → (length a ≤ n)%nat → (match b with [] => True | c :: _ => p c = false end) → span_upto n p (a ++ b) = (a, b).
Proof.
  revert n. induction a as [|c a IH]; intros n Hf Hl Hb.
  - cbn [app]. destruct n as [|n], b as [|d b]; cbn; try done. by rewrite Hb.
  - apply Forall_cons in Hf as [Hc Hf]. destruct n as [|n]; cbn [length] in Hl; [lia|]. cbn. rewrite Hc, IH; done || lia.
Qed.

Lemma span_upto_class n p s : Forall (λ c, p c = true) (span_upto n p s).1 ∧ (length (span_upto n p s).1 ≤ n)%nat.
Proof.
  revert s. induction n as [|n IH]; intros [|c s]; cbn; try (split; [by apply Forall_nil|cbn; lia]). destruct (p c) eqn:E; [|split; [by apply Forall_nil|cbn; lia]].
  destruct (IH s) as [H1 H2]. destruct (span_upto n p s). cbn in *. split; [by apply Forall_cons|lia].
Qed.

Lemma bget_head s c : bget s 0 = c → c ≠ 0 → ∃ s', s = c :: s'.
Proof. destruct s as [|d s]; [by intros <-|]. change (bget (d :: s) 0) with d. intros -> _. by eexists. Qed.

(** The path behind its slash. *)
Lemma parse_path_slash s : parse_path (47 :: s) = 47 :: (span_upto 510 (λ c, negb (c =? 35)) s).1.
Proof.
  unfold parse_path. change (bget (47 :: s) 0 =? 47) with true. cbv zeta match. change (span_upto (511 - length []) ?p (47 :: s)) with (let '(a, b) := span_upto 510 p s in (47 :: a, b)).
  by destruct (span_upto 510 _ s).
Qed.

Lemma parse_path_ok s : ∃ p, parse_path s = 47 :: p ∧ zlength (parse_path s) < URL_CAP.
Proof.
  destruct (Z.eqb_spec (bget s 0) 47) as [E|E].
  - destruct (bget_head s 47 E ltac:(done)) as [s' ->]. rewrite parse_path_slash. eexists. split; [done|]. destruct (span_upto_class 510 (λ c, negb (c =? 35)) s') as [_ Hl].
    rewrite zlength_cons. unfold zlength, URL_CAP. lia.
  - unfold parse_path. rewrite (proj2 (Z.eqb_neq _ _) E). cbv zeta. destruct (span_upto_class (511 - length [47]) (λ c, negb (c =? 35)) s) as [_ Hl].
    set (q := (span_upto _ _ s).1) in *. clearbody q. exists q. split; [done|]. rewrite zlength_app. change (zlength [47]) with 1. cbn [length] in Hl. unfold zlength, URL_CAP. lia.
Qed.

Record url_ok (u : url) : Prop := {
  uo_host : host u ≠ [] ∧ Forall (λ c, host_char c = true) (host u) ∧ (length (host u) ≤ 255)%nat;
  uo_port : 1 ≤ port u ≤ 65535;
  uo_path : ∃ p, path u = 47 :: p ∧ zlength (path u) < URL_CAP;
}.

Lemma parse_url_ok s u : parse_url s = Some u → url_ok u.
Proof.
  unfold parse_url. destruct (parse_scheme s) as [[t s1]|]; cbn [mbind option_bind]; [|done].
  destruct (span_upto_class 255 host_char s1) as [Hh Hl]. destruct (span_upto 255 host_char s1) as [h s2]. cbn [fst] in *. destruct h as [|c h]; [done|].
  assert (∀ q s3, (if bget s2 0 =? 58 then port_digits (tail s2) 0 else Some (0, s2)) = Some (q, s3) → 0 ≤ q ≤ 65535) as Hq.
  { intros q s3. case_if; [intros H; by apply (port_digits_range _ _ _ _ H)|intros [= <- _]; lia]. }
  destruct (if bget s2 0 =? 58 then _ else _) as [[q s3]|]; cbn [mbind option_bind]; [|done]. specialize (Hq q s3 eq_refl).
  intros [= <-]. constructor; cbn [host port path]; [done|repeat case_if; lia|apply parse_path_ok].
Qed.

(** The address of a site, up to its path. *)
Definition site (u : url) : text :=
  (if tls u then txt "https://" else txt "http://") ++ host u ++
  (if port u =? (if tls u then 443 else 80) then [] else txt ":" ++ digits 12 (port u) []).

Lemma site_length u : url_ok u → zlength (site u) ≤ 269.
Proof.
  intros [(_ & _ & Hh) Hp _]. destruct (digits_value 12 (port u) [] ltac:(cbn; lia) ltac:(lia)) as (ds & Hds & _ & _ & _ & Hs). rewrite app_nil_r in Hds.
  pose proof (Hs 5 ltac:(lia) ltac:(cbn; lia) ltac:(lia)). unfold site. rewrite !zlength_app. assert (zlength (host u) ≤ 255) by (unfold zlength; lia).
  destruct (tls u); [change (zlength (txt "https://")) with 8|change (zlength (txt "http://")) with 7]; case_if; rewrite ?zlength_app, ?Hds; [change (zlength []) with 0|change (zlength (txt ":")) with 1|change (zlength []) with 0|change (zlength (txt ":")) with 1]; lia.
Qed.

Lemma site_scheme u r : parse_scheme ((if tls u then txt "https://" else txt "http://") ++ r) = Some (tls u, r).
Proof. destruct (tls u); reflexivity. Qed.

(** An address with a path names its site. *)
Lemma parse_site u p : url_ok u → parse_url (site u ++ 47 :: p) = Some (mk_url (tls u) (port u) (host u) (47 :: (span_upto 510 (λ c, negb (c =? 35)) p).1)).
Proof.
  intros [(Hne & Hh & Hl) Hp _]. unfold parse_url, site. rewrite <- !app_assoc, site_scheme. cbn [mbind option_bind].
  rewrite (span_upto_all 255 host_char (host u)); [|done|done|by case_if]. destruct (host u) as [|c h] eqn:Eh; [done|].
  destruct (Z.eqb_spec (port u) (if tls u then 443 else 80)) as [Ept|Ept].
  - change (bget ([] ++ 47 :: p) 0 =? 58) with false. cbn [app mbind option_bind]. rewrite parse_path_slash, Ept. done.
  - destruct (digits_value 12 (port u) [] ltac:(cbn; lia) ltac:(lia)) as (ds & -> & Hf & Hv & _). rewrite app_nil_r.
    change (bget ((txt ":" ++ ds) ++ 47 :: p) 0 =? 58) with true. cbv match. change (tail ((txt ":" ++ ds) ++ 47 :: p)) with (ds ++ 47 :: p).
    rewrite port_digits_value; [|done|lia|rewrite Hv; lia]. rewrite Hv. change (0 * _ + port u) with (port u). cbn [mbind option_bind]. rewrite parse_path_slash.
    destruct (Z.eqb_spec (port u) 0); [lia|done].
Qed.

(** ** Strings that fit *)

Lemma sadd_fits cap dst src : zlength dst + zlength src ≤ cap - 1 → sadd cap dst src = dst ++ src.
Proof. intros H. unfold sadd, zlength in *. rewrite take_ge; [done|lia]. Qed.

Lemma saddi_fits cap dst v : 0 ≤ v → zlength dst + zlength (digits 12 v []) ≤ cap - 1 → saddi cap dst v = dst ++ digits 12 v [].
Proof.
  intros Hv. unfold saddi. destruct (Z.ltb_spec v 0); [lia|]. generalize (digits 12 v []) as ds. intros ds. revert dst. induction ds as [|c ds IH]; intros dst Hl; cbn [foldl]; [by rewrite app_nil_r|].
  rewrite zlength_cons in Hl. pose proof (zlength_nonneg ds). rewrite sadd_fits by (change (zlength [c]) with 1; lia). rewrite IH by (rewrite zlength_app; change (zlength [c]) with 1; lia).
  by rewrite <- app_assoc.
Qed.

(** ** Paths *)

(** Nothing, or a slash and more. *)
Definition rooted (p : text) : Prop := match p with [] => True | c :: _ => c = 47 end.

Lemma rooted_app a b : rooted a → rooted b → rooted (a ++ b).
Proof. destruct a; done. Qed.

Lemma pop_segment_prefix out : ∃ r, out = pop_segment out ++ r.
Proof.
  unfold pop_segment. pose proof (span_while_app (λ c, negb (c =? 47)) (rev out)) as Ha. destruct (span_while _ (rev out)) as [a b]. cbn [fst snd] in *.
  exists (rev (a ++ take 1 b)). rewrite <- rev_app_distr. replace ((a ++ take 1 b) ++ tail b) with (a ++ b) by (rewrite <- app_assoc; by destruct b). rewrite Ha. by rewrite rev_involutive.
Qed.

Lemma rooted_prefix a b : rooted (a ++ b) → rooted a.
Proof. destruct a; done. Qed.

(** What is left of the path begins with a slash when nothing is out. *)
Lemma norm_loop_rooted fuel p out :
  rooted out → (out = [] → seg_end (bget p 0) = true) → rooted (norm_loop fuel p out).1.
Proof.
  revert p out. induction fuel as [|n IH]; intros [|c p] out Hr He; try done. cbn [norm_loop]. destruct ((c =? 0) || (c =? 63)) eqn:Hc; [done|].
  destruct ((c =? 47) && (bget (c :: p) 1 =? 46) && seg_end (bget (c :: p) 2)) eqn:E1.
  { apply IH; [done|]. intros _. apply andb_true_iff in E1 as [_ E1]. destruct p as [|? [|? ?]]; done. }
  destruct (_ && _ && _ && seg_end (bget (c :: p) 3)) eqn:E2.
  { apply IH. - destruct (pop_segment_prefix out) as [r Hpop]. rewrite Hpop in Hr. by apply rooted_prefix in Hr.
    - intros _. apply andb_true_iff in E2 as [_ E2]. destruct p as [|? [|? [|? ?]]]; done. }
  apply IH.
  - destruct out as [|d out]; [|case_if; done]. specialize (He eq_refl). change (bget (c :: p) 0) with c in He. unfold seg_end in He. apply orb_false_elim in Hc as [Hc1 Hc2].
    rewrite Hc1, Hc2, !orb_false_r in He. boolp. subst c. done.
  - intros Ho. exfalso. destruct out as [|d out]; [done|]. revert Ho. by case_if.
Qed.

Lemma normalize_rooted p : bget p 0 = 47 → ∃ q, normalize_path p = 47 :: q.
Proof.
  intros Hp. unfold normalize_path. pose proof (norm_loop_rooted (length p) p [] I ltac:(intros _; by rewrite Hp)) as Hr. destruct (norm_loop _ p []) as [out query]. cbn [fst] in Hr.
  assert (∃ o, (match out with [] => [47] | _ => out end) = 47 :: o) as [o ->] by (destruct out as [|c out]; [by eexists|cbn in Hr; subst c; by eexists]).
  cbn [app]. unfold scopy. cbn [c_string]. change (47 =? 0) with false. cbv match. change (Z.to_nat (URL_CAP - 1)) with 511%nat. by eexists.
Qed.

(** *** Segments *)

Definition join (segs : list text) : text := concat (cons 47 <$> segs).
Definition seg_ok (s : text) : Prop := Forall (λ c, seg_end c = false) s.

(** The segments without dots: one dot names the directory itself, two its
    parent. *)
Definition dots (stk segs : list text) : list text :=
  foldl (λ stk s, if bool_decide (s = [46]) then stk else if bool_decide (s = [46; 46]) then removelast stk else stk ++ [s]) stk segs.

Lemma join_cons s segs : join (s :: segs) = 47 :: s ++ join segs.
Proof. done. Qed.

Lemma join_snoc stk s : join (stk ++ [s]) = join stk ++ 47 :: s.
Proof. unfold join. rewrite fmap_app, concat_app. cbn. by rewrite app_nil_r. Qed.

Lemma span_while_stop p a b : Forall (λ c, p c = true) a → match b with [] => True | c :: _ => p c = false end → span_while p (a ++ b) = (a, b).
Proof.
  induction a as [|c a IH]; cbn; intros Hf Hb; [destruct b; cbn; [done|by rewrite Hb]|]. apply Forall_cons in Hf as [-> Hf]. by rewrite IH.
Qed.

Lemma pop_join stk s : seg_ok s → pop_segment (join (stk ++ [s])) = join stk.
Proof.
  intros Hs. unfold pop_segment. rewrite join_snoc, rev_app_distr. cbn [rev]. rewrite <- app_assoc. cbn [app]. rewrite span_while_stop; [|apply Forall_rev|done].
  - cbn. apply rev_involutive.
  - eapply Forall_impl; [exact Hs|]. intros c Hc. unfold seg_end in Hc. apply orb_false_elim in Hc as [Hc _]. apply orb_false_elim in Hc as [-> _]. done.
Qed.

Lemma pop_removelast stk : Forall seg_ok stk → pop_segment (join stk) = join (removelast stk).
Proof.
  destruct stk as [|s stk _] using rev_ind; intros Hf; [done|]. apply Forall_app in Hf as [_ Hf]. rewrite removelast_last. apply pop_join. by rewrite Forall_singleton in Hf.
Qed.

Lemma norm_plain n c p out :
  seg_end c = false → zlength out < URL_CAP - 1 → norm_loop (S n) (c :: p) out = norm_loop n p (out ++ [c]).
Proof.
  intros Hc Hl. unfold seg_end in Hc. apply orb_false_elim in Hc as [Hc1 Hc3]. apply orb_false_elim in Hc1 as [Hc1 Hc2]. cbn [norm_loop]. rewrite Hc1, Hc2, Hc3. cbn [orb andb].
  by rewrite (proj2 (Z.ltb_lt _ _) Hl).
Qed.

Lemma norm_seg s n r out : seg_ok s → zlength out + zlength s ≤ URL_CAP - 1 → norm_loop (length s + n) (s ++ r) out = norm_loop n r (out ++ s).
Proof.
  revert out. induction s as [|c s IH]; intros out Hs Hl; cbn [app length]; [by rewrite app_nil_r|]. apply Forall_cons in Hs as [Hc Hs]. rewrite zlength_cons in Hl. pose proof (zlength_nonneg s).
  change (S (length s) + n)%nat with (S (length s + n)). rewrite norm_plain by (done || lia). rewrite IH; [by rewrite <- app_assoc|done|rewrite zlength_app; change (zlength [c]) with 1; lia].
Qed.

(** A slash and a segment that is not dots. *)
Lemma norm_slash s n r out :
  seg_ok s → seg_end (bget r 0) = true → s ≠ [46] → s ≠ [46; 46] → zlength out + 1 + zlength s ≤ URL_CAP - 1 →
  norm_loop (S (length s + n)) (47 :: s ++ r) out = norm_loop n r (out ++ 47 :: s).
Proof.
  intros Hs Hr H1 H2 Hl. pose proof (zlength_nonneg s). cbn [norm_loop]. change ((47 =? 0) || (47 =? 63)) with false. change (47 =? 47) with true. cbv match. cbn [andb].
  assert ((bget (47 :: s ++ r) 1 =? 46) && seg_end (bget (47 :: s ++ r) 2) = false ∧
          (bget (47 :: s ++ r) 1 =? 46) && (bget (47 :: s ++ r) 2 =? 46) && seg_end (bget (47 :: s ++ r) 3) = false) as [-> ->].
  { change (bget (47 :: s ++ r) 1) with (bget (s ++ r) 0). change (bget (47 :: s ++ r) 2) with (bget (s ++ r) 1). change (bget (47 :: s ++ r) 3) with (bget (s ++ r) 2).
    destruct s as [|a [|b [|c s]]]; cbn [app].
    - destruct (Z.eqb_spec (bget r 0) 46) as [E|E]; [rewrite E in Hr; done|done].
    - change (bget (a :: r) 0) with a. destruct (Z.eqb_spec a 46) as [->|]; done.
    - change (bget (a :: b :: r) 0) with a. change (bget (a :: b :: r) 1) with b. apply Forall_cons in Hs as [_ Hs]. rewrite Forall_singleton in Hs. rewrite Hs, andb_false_r. split; [done|].
      destruct (Z.eqb_spec a 46) as [->|]; [|done]. destruct (Z.eqb_spec b 46) as [->|]; done.
    - change (bget (a :: b :: c :: s ++ r) 1) with b. change (bget (a :: b :: c :: s ++ r) 2) with c. apply Forall_cons in Hs as [_ Hs]. apply Forall_cons in Hs as [Hb Hs]. apply Forall_cons in Hs as [Hc _].
      by rewrite Hb, Hc, !andb_false_r. }
  rewrite (proj2 (Z.ltb_lt (zlength out) (URL_CAP - 1))) by lia. rewrite norm_seg; [by rewrite <- app_assoc|done|rewrite zlength_app; change (zlength [47]) with 1; lia].
Qed.

Lemma norm_segments segs : ∀ fuel stk q,
  (length (join segs ++ q) ≤ fuel)%nat → Forall seg_ok segs → Forall seg_ok stk → bget q 0 = 0 ∨ bget q 0 = 63 →
  zlength (join stk) + zlength (join segs) ≤ URL_CAP - 1 →
  norm_loop fuel (join segs ++ q) (join stk) = (join (dots stk segs), q).
Proof.
  induction segs as [|s segs IH]; intros fuel stk q Hfuel Hok Hstk Hq Hlen.
  - cbn. destruct fuel as [|n], q as [|c q]; try done. change (bget (c :: q) 0) with c in Hq. cbn. destruct Hq as [->| ->]; done.
  - apply Forall_cons in Hok as [Hs Hok]. rewrite join_cons in *. cbn [app] in *. rewrite <- app_assoc in *. rewrite zlength_cons, zlength_app in Hlen. cbn [dots foldl].
    assert (seg_end (bget (join segs ++ q) 0) = true) as He by (destruct segs; [by destruct Hq as [E|E]; cbn; rewrite E|done]).
    pose proof (zlength_nonneg (join segs)). pose proof (zlength_nonneg s). cbn [length] in Hfuel. rewrite length_app in Hfuel. destruct fuel as [|n]; [lia|].
    case_bool_decide as E1; [|case_bool_decide as E2].
    + subst s. cbn [app norm_loop]. change (bget (47 :: 46 :: ?r) 1) with 46. change (bget (47 :: 46 :: ?r) 2) with (bget r 0). rewrite He. change ((47 =? 0) || (47 =? 63)) with false. cbn [andb]. change (drop 2 (47 :: 46 :: ?r)) with r.
      change ((47 =? 47) && (46 =? 46) && true) with true. cbv match. cbn [length] in Hfuel. apply IH; done || lia.
    + subst s. cbn [app norm_loop]. change (bget (47 :: 46 :: 46 :: ?r) 1) with 46. change (bget (47 :: 46 :: 46 :: ?r) 2) with 46. change (bget (47 :: 46 :: 46 :: ?r) 3) with (bget r 0). rewrite He.
      change ((47 =? 0) || (47 =? 63)) with false. change (seg_end 46) with false. change ((47 =? 47) && (46 =? 46) && false) with false. change ((47 =? 47) && (46 =? 46) && (46 =? 46) && true) with true. cbv match.
      change (drop 3 (47 :: 46 :: 46 :: ?r)) with r. rewrite pop_removelast by done. cbn [length] in Hfuel.
      assert (zlength (join (removelast stk)) ≤ zlength (join stk) ∧ Forall seg_ok (removelast stk)) as [Hrl Hro].
      { destruct stk as [|s stk _] using rev_ind; [done|]. rewrite removelast_last, join_snoc, zlength_app. apply Forall_app in Hstk as [? _]. split; [|done]. pose proof (zlength_nonneg (47 :: s)). lia. }
      apply IH; done || lia.
    + replace n with (length s + (n - length s))%nat by lia. rewrite norm_slash by (done || lia). rewrite <- join_snoc. apply IH; try done; [lia| |].
      * apply Forall_app. split; [done|by apply Forall_singleton].
      * rewrite join_snoc, zlength_app, zlength_cons. lia.
Qed.

Lemma c_string_id l : Forall (λ c, c ≠ 0) l → c_string l = l.
Proof. induction l as [|c l IH]; intros Hf; [done|]. apply Forall_cons in Hf as [Hc Hf]. cbn. rewrite (proj2 (Z.eqb_neq _ _) Hc), IH; done. Qed.

Lemma seg_ok_nonzero s : seg_ok s → Forall (λ c, c ≠ 0) s.
Proof. intros Hs. eapply Forall_impl; [exact Hs|]. intros c Hc ->. done. Qed.

Lemma join_nonzero segs : Forall seg_ok segs → Forall (λ c, c ≠ 0) (join segs).
Proof.
  induction segs as [|s segs IH]; intros Hf; [by apply Forall_nil|]. apply Forall_cons in Hf as [Hs Hf]. rewrite join_cons. apply Forall_cons. split; [done|]. apply Forall_app. split; [by apply seg_ok_nonzero|by apply IH].
Qed.

Lemma dots_ok segs : ∀ stk, Forall seg_ok stk → Forall seg_ok segs → Forall seg_ok (dots stk segs) ∧ zlength (join (dots stk segs)) ≤ zlength (join stk) + zlength (join segs).
Proof.
  induction segs as [|s segs IH]; intros stk H1 H2; cbn [dots foldl]. { split; [done|]. change (zlength (join [])) with 0. lia. }
  apply Forall_cons in H2 as [Hs H2]. rewrite join_cons, zlength_cons, zlength_app. pose proof (zlength_nonneg s).
  assert (∃ st, (if bool_decide (s = [46]) then stk else if bool_decide (s = [46; 46]) then removelast stk else stk ++ [s]) = st ∧ Forall seg_ok st ∧ zlength (join st) ≤ zlength (join stk) + 1 + zlength s) as (st & -> & Ha & Hb).
  { eexists. split; [done|]. repeat case_bool_decide; [split; [done|lia]| |].
    - destruct stk as [|s0 stk _] using rev_ind; [split; [done|cbn; unfold zlength; lia]|]. rewrite removelast_last, join_snoc, zlength_app. apply Forall_app in H1 as [? _]. split; [done|]. pose proof (zlength_nonneg (47 :: s0)). lia.
    - rewrite join_snoc, zlength_app, zlength_cons. split; [apply Forall_app; split; [done|by apply Forall_singleton]|lia]. }
  destruct (IH st Ha H2) as [I1 I2]. split; [done|]. unfold dots in *. lia.
Qed.

(** normalize_path() removes dots by segments: a path of segments, with
    its query, becomes the path of the segments that are left when [.] names
    the directory itself and [..] its parent, with the same query. *)
Theorem normalize_dots segs q :
  segs ≠ [] → Forall seg_ok segs → q = [] ∨ bget q 0 = 63 → Forall (λ c, c ≠ 0) q → zlength (join segs ++ q) < URL_CAP →
  normalize_path (join segs ++ q) = (if bool_decide (dots [] segs = []) then [47] else join (dots [] segs)) ++ q.
Proof.
  intros Hne Hok Hq Hz Hl. rewrite zlength_app in Hl. pose proof (zlength_nonneg q). unfold normalize_path.
  rewrite (norm_segments segs _ [] q); [|lia|done|by apply Forall_nil|destruct Hq as [->|Hq]; [by left|by right]|change (zlength (join [])) with 0; unfold URL_CAP in *; lia].
  destruct (dots_ok segs [] ltac:(by apply Forall_nil) Hok) as [Hd1 Hd2]. change (zlength (join [])) with 0 in Hd2.
  assert (1 ≤ zlength (join segs)) as Hpos by (destruct segs as [|s segs]; [done|]; rewrite join_cons, zlength_cons; match goal with |- context [zlength ?x] => pose proof (zlength_nonneg x) end; lia).
  set (out := if bool_decide (dots [] segs = []) then [47] else join (dots [] segs)).
  assert ((match join (dots [] segs) with [] => [47] | _ => join (dots [] segs) end) = out ∧ zlength out ≤ zlength (join segs) ∧ Forall (λ c, c ≠ 0) out) as (-> & Ho & Hoz).
  { unfold out. clear out. case_bool_decide as E; [rewrite E; split_and!; [done|cbn; unfold zlength in *; cbn; lia|by apply Forall_singleton]|].
    split_and!; [destruct (dots [] segs); done|lia|by apply join_nonzero]. }
  clearbody out. rewrite (c_string_id q) by done. rewrite take_ge by (unfold zlength in *; lia). unfold scopy. rewrite c_string_id by (apply Forall_app; done).
  apply take_ge. rewrite length_app. unfold zlength, URL_CAP in *. lia.
Qed.

Lemma normalize_dots_witness :
  normalize_path (txt "/a/b/../c/./d?x=..") = txt "/a/c/d?x=..".
Proof.
  pose proof (normalize_dots [txt "a"; txt "b"; txt ".."; txt "c"; txt "."; txt "d"] (txt "?x=..")) as H. apply H.
  - done.
  - repeat (apply Forall_cons; split; [repeat (apply Forall_cons; split; [reflexivity|]); by apply Forall_nil|]). by apply Forall_nil.
  - right. reflexivity.
  - repeat (apply Forall_cons; split; [by vm_compute|]). by apply Forall_nil.
  - reflexivity.
Defined.

(** ** Links *)

(** A link that names no site of its own. *)
Definition relative (href : text) : bool :=
  negb (match href with [] => true | c :: _ => c =? 35 end) && (ci_prefix href (txt "http://") =? 0) && (ci_prefix href (txt "https://") =? 0) &&
  negb (other_scheme href) && negb ((bget href 0 =? 47) && (bget href 1 =? 47)).

Lemma path_dir_rooted p q : p = 47 :: q → bget (path_dir p) 0 = 47 ∧ zlength (path_dir p) ≤ zlength p.
Proof.
  intros ->. unfold path_dir, no_query. cbn [span_while]. change (negb (47 =? 63)) with true. cbv match.
  pose proof (span_while_app (λ c, negb (c =? 63)) q) as Ha. destruct (span_while (λ c, negb (c =? 63)) q) as [a b]. cbn [fst snd] in *. cbn [rev].
  assert (∀ l : text, ∃ m, (span_while (λ c, negb (c =? 47)) (l ++ [47])).2 = m ++ [47] ∧ (length m ≤ length l)%nat) as Hs.
  { induction l as [|c l [m [Hm Hl]]]; [by exists []|]. cbn [app span_while]. destruct (negb (c =? 47)); [|exists (c :: l); by split].
    destruct (span_while _ (l ++ [47])) as [x y]. cbn [snd] in *. exists m. cbn [length]. split; [done|lia]. }
  destruct (Hs (rev a)) as (m & -> & Hm). rewrite rev_app_distr. split; [done|]. rewrite length_rev in Hm. cbn [rev app]. rewrite !zlength_cons. subst q. rewrite zlength_app.
  unfold zlength. rewrite length_rev. lia.
Qed.

Lemma no_query_rooted p q : p = 47 :: q → bget (no_query p) 0 = 47 ∧ zlength (no_query p) ≤ zlength p.
Proof.
  intros ->. unfold no_query. pose proof (span_while_app (λ c, negb (c =? 63)) (47 :: q)) as Ha. cbn [span_while] in *. change (negb (47 =? 63)) with true in *. cbv match in *.
  destruct (span_while _ q) as [a b]. cbn [fst snd app] in *. split; [done|]. rewrite <- Ha. rewrite !zlength_cons, zlength_app. pose proof (zlength_nonneg b). lia.
Qed.

Lemma take_rooted (p : text) r : bget p 0 = 47 → bget (take 511 p ++ r) 0 = 47.
Proof. intros Hp. destruct (bget_head p 47 Hp ltac:(done)) as [q ->]. done. Qed.

(** C19: A relative link stays on its site: its address fits its buffer, and
    names the scheme, the host and the port of the page it is on. *)
Theorem relative_link base href b :
  parse_url base = Some b → relative href = true →
  ∃ out p, resolve_url base href URL_CAP = Some out ∧ zlength out < URL_CAP ∧ parse_url out = Some (mk_url (tls b) (port b) (host b) p).
Proof.
  intros Hb Hr. pose proof (parse_url_ok _ _ Hb) as Ho. unfold relative in Hr. apply andb_true_iff in Hr as [Hr H5]. apply andb_true_iff in Hr as [Hr H4].
  apply andb_true_iff in Hr as [Hr H3]. apply andb_true_iff in Hr as [H1 H2]. apply negb_true_iff in H1, H4, H5. unfold resolve_url. rewrite H1, H2, H3, H4, Hb. cbn [negb orb mbind option_bind].
  rewrite H5. set (pth := if bget href 0 =? 47 then _ else _).
  assert (bget pth 0 = 47) as Hp.
  { destruct (uo_path _ Ho) as (q & Hq & _). unfold pth. destruct (Z.eqb_spec (bget href 0) 47) as [E|_].
    - destruct (bget_head href 47 E ltac:(done)) as [h ->]. done.
    - destruct (bget href 0 =? 63); apply take_rooted; [by destruct (no_query_rooted _ _ Hq)|by destruct (path_dir_rooted _ _ Hq)]. }
  clearbody pth. destruct (normalize_rooted pth Hp) as [q Hq]. rewrite Hq. pose proof (site_length b Ho) as Hl.
  set (out := if negb (port b =? _) then _ else _). assert (out = site b) as ->.
  { unfold out, site in *. clear out. destruct Ho as [_ Hpt _]. pose proof (zlength_nonneg (host b)). rewrite !zlength_app in Hl.
    assert (sadd URL_CAP (sadd URL_CAP [] (if tls b then txt "https:" else txt "http:")) (txt "//") = if tls b then txt "https://" else txt "http://") as -> by (by destruct (tls b)).
    rewrite (sadd_fits _ _ (host b)) by (unfold URL_CAP; destruct (tls b); [change (zlength (txt "https://")) with 8 in *|change (zlength (txt "http://")) with 7 in *]; match type of Hl with _ + (_ + zlength ?x) ≤ _ => pose proof (zlength_nonneg x) end; lia).
    destruct (port b =? _) eqn:Ept; cbn [negb]; [by rewrite app_nil_r|]. rewrite zlength_app in Hl. change (zlength (txt ":")) with 1 in Hl. pose proof (zlength_nonneg (digits 12 (port b) [])).
    rewrite (sadd_fits _ _ (txt ":")) by (rewrite zlength_app; change (zlength (txt ":")) with 1; unfold URL_CAP; lia).
    rewrite saddi_fits by (rewrite ?zlength_app; change (zlength (txt ":")) with 1; unfold URL_CAP; lia). by rewrite <- !app_assoc. }
  unfold sadd. destruct (Z.to_nat (URL_CAP - 1 - zlength (site b))) as [|k] eqn:Ek; [unfold URL_CAP in Ek; lia|]. cbn [take].
  eexists _, _. split_and!; [done| |by apply parse_site]. rewrite zlength_app, zlength_cons. unfold zlength, URL_CAP in *. rewrite length_take. lia.
Qed.

(** A link of a page on a port of its own. *)
Lemma relative_link_witness :
  ∃ b, parse_url (txt "http://10.0.2.2:8080/a/b.html") = Some b ∧ relative (txt "../c.html") = true ∧
  ∃ out p, resolve_url (txt "http://10.0.2.2:8080/a/b.html") (txt "../c.html") URL_CAP = Some out ∧ zlength out < URL_CAP ∧ parse_url out = Some (mk_url (tls b) (port b) (host b) p).
Proof.
  eexists. split; [reflexivity|]. split; [reflexivity|]. apply (relative_link (txt "http://10.0.2.2:8080/a/b.html") (txt "../c.html")); reflexivity.
Defined.
End BrowserUrlSpec.
