(* ===== verification/BrowserNav.v ===== *)
(** * Fetching and navigation (user/browser.c, fetch, navigation and input)

    The browser between two events: the page laid out, the history and the
    input.  The sockets and the TLS engine are behind the class [Net]. *)

From Stdlib Require Import String.
From S2P Require Import Prelude Shell Browser BrowserTheorems BrowserUrl.

Module BrowserNav.
Import Shell BrowserText Browser BrowserUrl.

Definition PAGE_CAP : Z := 256 * 1024.
Definition MAX_HIST : Z := 16.
Definition MAX_HOPS : Z := 5.
Definition TOPBAR_H : Z := 24.
Definition STATUS_H : Z := 20.
Definition LINE_H : Z := 16.
Definition GERR_CAP : Z := 96.
Definition STATUS_CAP : Z := 128.
Definition NUM_CAP : Z := 8.

(** The system calls on sockets, and the engine of BearSSL with its error
    codes. *)
Class Net (N : Type) := {
  net_resolve : text → ST N (option Z);
  net_connect : Z → Z → ST N Z;
  net_write : Z → text → ST N Z;
  net_read : Z → Z → ST N (Z * text);
  net_close : Z → ST N unit;
  (** the engine set up for a host, and its descriptor *)
  tls_start : Z → text → ST N unit;
  tls_write_all : text → ST N Z;
  tls_flush : ST N Z;
  tls_read : Z → ST N (Z * text);
  tls_last_error : ST N Z;
  BR_ERR_OK : Z;
  BR_ERR_IO : Z;
  BR_ERR_X509_NOT_TRUSTED : Z;
  BR_ERR_X509_EXPIRED : Z;
  BR_ERR_X509_BAD_SERVER_NAME : Z;
  BR_ERR_BAD_SIGNATURE : Z;
  BR_ERR_UNSUPPORTED_VERSION : Z;
  (** the connections that are open *)
  conns : N → gset Z;
}.

Section net.
Context {N : Type} `{Net N}.

Definition tls_strerror (err : Z) : text :=
  if err =? BR_ERR_X509_NOT_TRUSTED then txt "certificate not trusted"
  else if err =? BR_ERR_X509_EXPIRED then txt "certificate expired / not yet valid"
  else if err =? BR_ERR_X509_BAD_SERVER_NAME then txt "certificate name mismatch"
  else if err =? BR_ERR_BAD_SIGNATURE then txt "bad signature"
  else if err =? BR_ERR_UNSUPPORTED_VERSION then txt "unsupported TLS version"
  else txt "TLS error".

(** The loop that reads the response: what the last read returned, and the
    buffer.  A read that goes on returns a byte at least. *)
Fixpoint recv_loop (fuel : nat) (rd : Z → ST N (Z * text)) (page : text) : ST N (Z * text) :=
  match fuel with
  | O => mret (1, page)
  | S n =>
      if zlength page <? PAGE_CAP - 1 then
        '(got, bytes) ← rd (PAGE_CAP - 1 - zlength page);
        if got >? 0 then recv_loop n rd (page ++ bytes) else mret (got, page)
      else mret (1, page)
  end.

Definition request (u : url) : text :=
  let add := sadd 1024 in
  add (add (add (add (add [] (txt "GET ")) (path u)) (txt " HTTP/1.0" ++ [13; 10] ++ txt "Host: ")) (host u))
    ([13; 10] ++ txt "User-Agent: NOS-browser/0.1" ++ [13; 10] ++ txt "Connection: close" ++ [13; 10; 13; 10]).

Definition failed {A} (msg : text) : ST N (A + text) := mret (inr (sadd GERR_CAP [] msg)).

(** The exchange over TLS: the bytes received or the message. *)
Definition exchange_tls (fd : Z) (req : text) : ST N (text + text) :=
  w ← tls_write_all req;
  f ← (if w <? 0 then mret (-1) else tls_flush);
  if f <? 0 then
    err ← tls_last_error; _ ← net_close fd; failed (tls_strerror err)
  else
    '(_, page) ← recv_loop (Z.to_nat PAGE_CAP) tls_read [];
    err ← tls_last_error;
    _ ← net_close fd;
    if negb (err =? BR_ERR_OK) && negb (err =? BR_ERR_IO) && (zlength page =? 0) then failed (tls_strerror err) else mret (inl page).

Definition exchange_plain (fd : Z) (req : text) : ST N (text + text) :=
  w ← net_write fd req;
  if negb (w =? zlength req) then _ ← net_close fd; failed (txt "send failed")
  else
    '(got, page) ← recv_loop (Z.to_nat PAGE_CAP) (net_read fd) [];
    _ ← net_close fd;
    if (got <? 0) && (zlength page =? 0) then failed (txt "connection error") else mret (inl page).

(** fetch(): the flag for a page that was cut, and the response or the
    message. *)
Definition fetch (u : url) : ST N (bool * (response + text)) :=
  r ← (match parse_ip (host u) with Some ip => mret (Some ip) | None => net_resolve (host u) end);
  match r with
  | None => mret (false, inr (sadd GERR_CAP (sadd GERR_CAP [] (txt "cannot resolve ")) (host u)))
  | Some ip =>
      fd ← net_connect ip (port u);
      if fd <? 0 then mret (false, inr (sadd GERR_CAP [] (txt "connect failed"))) else
      _ ← (if tls u then tls_start fd (host u) else mret tt);
      let req := request u in
      if zlength req >=? 1023 then _ ← net_close fd; mret (false, inr (sadd GERR_CAP [] (txt "url too long"))) else
      x ← (if tls u then exchange_tls fd req else exchange_plain fd req);
      match x with
      | inr msg => mret (false, inr msg)
      | inl page =>
          let truncated := zlength page >=? PAGE_CAP - 1 in
          if zlength page =? 0 then mret (truncated, inr (sadd GERR_CAP [] (txt "empty reply")))
          else mret (truncated, inl (split_response page))
      end
  end.
End net.

(** ** The browser *)

Record browser (N : Type) := mk_browser {
  net : N;
  doc : layout;
  nlines : Z;
  cur_url : text;
  statusmsg : text;
  hist : list text;
  in_url : bool;
  urlbuf : text;
  numbuf : text;
  scroll_line : Z;
  dirty : bool;
  serial : list text;
  quitted : bool;
}.
Arguments mk_browser {N}.
Arguments net {N}. Arguments doc {N}. Arguments nlines {N}. Arguments cur_url {N}. Arguments statusmsg {N}. Arguments hist {N}.
Arguments in_url {N}. Arguments urlbuf {N}. Arguments numbuf {N}. Arguments scroll_line {N}. Arguments dirty {N}. Arguments serial {N}. Arguments quitted {N}.

Section browser.
Context {N : Type} `{Net N}.
(** The width of the text, the lines that are visible and the height of the
    window. *)
Context (content_w vis_lines win_h : Z).

Notation B := (browser N).

Definition set_net (n : N) (s : B) : B := mk_browser n (doc s) (nlines s) (cur_url s) (statusmsg s) (hist s) (in_url s) (urlbuf s) (numbuf s) (scroll_line s) (dirty s) (serial s) (quitted s).
Definition set_page (d : layout) (n : Z) (s : B) : B := mk_browser (net s) d n (cur_url s) (statusmsg s) (hist s) (in_url s) (urlbuf s) (numbuf s) (scroll_line s) (dirty s) (serial s) (quitted s).
Definition set_cur_url (u : text) (s : B) : B := mk_browser (net s) (doc s) (nlines s) u (statusmsg s) (hist s) (in_url s) (urlbuf s) (numbuf s) (scroll_line s) (dirty s) (serial s) (quitted s).
Definition set_status (m : text) (s : B) : B := mk_browser (net s) (doc s) (nlines s) (cur_url s) (scopy m STATUS_CAP) (hist s) (in_url s) (urlbuf s) (numbuf s) (scroll_line s) (dirty s) (serial s) (quitted s).
Definition set_hist (l : list text) (s : B) : B := mk_browser (net s) (doc s) (nlines s) (cur_url s) (statusmsg s) l (in_url s) (urlbuf s) (numbuf s) (scroll_line s) (dirty s) (serial s) (quitted s).
Definition set_url (m : bool) (u : text) (s : B) : B := mk_browser (net s) (doc s) (nlines s) (cur_url s) (statusmsg s) (hist s) m u (numbuf s) (scroll_line s) (dirty s) (serial s) (quitted s).
Definition set_num (n : text) (s : B) : B := mk_browser (net s) (doc s) (nlines s) (cur_url s) (statusmsg s) (hist s) (in_url s) (urlbuf s) n (scroll_line s) (dirty s) (serial s) (quitted s).
Definition set_scroll (v : Z) (s : B) : B := mk_browser (net s) (doc s) (nlines s) (cur_url s) (statusmsg s) (hist s) (in_url s) (urlbuf s) (numbuf s) v (dirty s) (serial s) (quitted s).
Definition set_dirty (v : bool) (s : B) : B := mk_browser (net s) (doc s) (nlines s) (cur_url s) (statusmsg s) (hist s) (in_url s) (urlbuf s) (numbuf s) (scroll_line s) v (serial s) (quitted s).
Definition say (l : list text) (s : B) : B := mk_browser (net s) (doc s) (nlines s) (cur_url s) (statusmsg s) (hist s) (in_url s) (urlbuf s) (numbuf s) (scroll_line s) (dirty s) (serial s ++ [concat l ++ [10]]) (quitted s).
Definition set_quitted (v : bool) (s : B) : B := mk_browser (net s) (doc s) (nlines s) (cur_url s) (statusmsg s) (hist s) (in_url s) (urlbuf s) (numbuf s) (scroll_line s) (dirty s) (serial s) v.

Definition max_scroll (s : B) : Z := if nlines s >? vis_lines then nlines s - vis_lines else 0.

Definition home_html : text :=
  txt "<title>NOS browser</title>" ++ txt "<h1>NOS browser</h1>" ++
  txt "<p>A tiny HTML browser: HTTP/1.0 + TLS, no CSS, no JavaScript.</p>" ++
  txt "<p><b>g</b> enter a url &middot; <b>j</b>/<b>k</b>/<b>space</b>/<b>u</b>" ++
  txt " scroll &middot; type a link number + <b>enter</b> (or click) to follow" ++
  txt " &middot; <b>b</b> back &middot; <b>r</b> reload &middot; <b>q</b> quit</p>" ++
  txt "<hr>" ++
  txt "<p>Try: <a href=" ++ [34] ++ txt "https://google.com/" ++ [34] ++ txt ">google.com</a></p>".

(** The layout of a document; layout_html() always ends. *)
Definition lay_out (html : bool) (src : text) : layout * Z :=
  if html then default (layout_reset, 1) (layout_html content_w src) else layout_plain content_w src.

(** The redirections from [url] on, [n] of them at most: the address and the
    response, unless an error was reported. *)
Fixpoint hop_loop (n : nat) (url : text) (s : B) : option (text * response * bool) * B :=
  match parse_url url with
  | None => (None, say [txt "browser: error bad url"] (set_status (txt "bad url") s))
  | Some u =>
      let '((truncated, r), k) := fetch u (net s) in
      let s := set_net k s in
      match r with
      | inr msg => (None, set_dirty true (say [txt "browser: error "; msg] (set_status msg s)))
      | inl resp =>
          if (status resp >=? 300) && (status resp <? 400) && match loc resp with [] => false | _ => true end then
            match n with
            | O => (Some (url, resp, truncated), s)
            | S n' =>
                match resolve_url url (loc resp) URL_CAP with
                | Some nu =>
                    let url := scopy nu URL_CAP in
                    let s := say [txt "browser: redirect "; url] s in
                    hop_loop n' url (set_status (sadd STATUS_CAP (sadd STATUS_CAP [] (txt "redirect: ")) url) s)
                | None => (Some (url, resp, truncated), s)
                end
            end
          else (Some (url, resp, truncated), s)
      end
  end.

(** The address shown goes into the history, which forgets its oldest. *)
Definition push_hist (s : B) : B :=
  match cur_url s with
  | [] => s
  | _ => let l := if zlength (hist s) =? MAX_HIST then tail (hist s) else hist s in set_hist (l ++ [scopy (cur_url s) URL_CAP]) s
  end.

(** The page [src] becomes the one shown. *)
Definition show_page (push : bool) (url : text) (html : bool) (src : text) (s : B) : B :=
  let s := if push then push_hist s else s in
  let s := set_cur_url (scopy url URL_CAP) s in
  let '(d, n) := lay_out html src in set_page d n s.

Definition loaded_msg (resp : response) (truncated : bool) (d : layout) : text :=
  let add := sadd STATUS_CAP in
  let m := saddi STATUS_CAP [] (status resp) in
  let m := saddi STATUS_CAP (add m (txt ", ")) (zlength (body resp)) in
  let m := saddi STATUS_CAP (add m (txt " bytes, ")) (zlength (links d)) in
  let m := add m (txt " links") in
  let m := if truncated then add m (txt " (truncated)") else m in
  if layout_full d then add m (txt " (partial layout)") else m.

Definition page_shown (s : B) : B := set_dirty true (set_num [] (set_scroll 0 s)).

(** A number as puti() writes it. *)
Definition num (v : Z) : text := if v <? 0 then 45 :: digits 12 (u32 (- v)) [] else digits 12 v [].

Definition navigate (absurl : text) (push : bool) (s : B) : B :=
  let url := scopy absurl URL_CAP in
  if streq url (txt "about:home") then
    page_shown (say [txt "browser: home"] (set_status (txt "welcome") (show_page push url true home_html s)))
  else
    let s := set_status (sadd STATUS_CAP (sadd STATUS_CAP (sadd STATUS_CAP [] (txt "loading ")) url) (txt " ...")) s in
    match hop_loop (Z.to_nat MAX_HOPS) url s with
    | (None, s) => s
    | (Some (url, resp, truncated), s) =>
        let s := show_page push url (is_html resp) (body resp) s in
        let s := set_status (loaded_msg resp truncated (doc s)) s in
        let s := say [txt "browser: loaded "; cur_url s; txt " status "; num (status resp); txt " len "; num (zlength (body resp))] s in
        let s := match title (doc s) with [] => s | t => say [txt "browser: title "; t] s end in
        page_shown s
    end.

Definition follow_link (idx : Z) (s : B) : B :=
  if (idx <? 0) || (idx >=? zlength (links (doc s))) then set_status (txt "no such link") s
  else match links (doc s) !! Z.to_nat idx with
       | None => s
       | Some href =>
           match resolve_url (cur_url s) href URL_CAP with
           | None => set_status (txt "link not followable") s
           | Some nu => navigate nu true s
           end
       end.

Definition go_back (s : B) : B :=
  match last (hist s) with
  | None => set_status (txt "no history") s
  | Some u => navigate (scopy u URL_CAP) false (set_hist (removelast (hist s)) s)
  end.

Definition quit (s : B) : B := set_quitted true (say [txt "browser: quit"] s).

(** ** Input *)

Definition scroll_by (delta : Z) (s : B) : B :=
  let v := scroll_line s + delta in
  let v := if v >? max_scroll s then max_scroll s else v in
  set_scroll (if v <? 0 then 0 else v) s.

Definition number (ds : text) : Z := foldl (λ v c, v * 10 + (c - 48)) 0 ds.

Definition handle_key (c : Z) (s : B) : B :=
  let s := set_dirty true s in
  if in_url s then
    if c =? 27 then set_url false (urlbuf s) s
    else if c =? 10 then
      let s := set_url false (urlbuf s) s in
      match urlbuf s with [] => s | u => navigate (make_absolute u URL_CAP) true s end
    else if c =? 8 then match urlbuf s with [] => s | u => set_url true (removelast u) s end
    else if (c >=? 32) && (c <? 127) && (zlength (urlbuf s) <? URL_CAP - 1) then set_url true (urlbuf s ++ [c]) s
    else s
  else if is_digit c then if zlength (numbuf s) <? NUM_CAP - 1 then set_num (numbuf s ++ [c]) s else s
  else if c =? 10 then
    match numbuf s with [] => s | ds => follow_link (number ds - 1) (set_num [] s) end
  else if (c =? 8) || (c =? 27) then set_num [] s
  else if c =? 113 then quit s
  else if c =? 106 then scroll_by 1 s
  else if c =? 107 then scroll_by (-1) s
  else if c =? 32 then scroll_by (vis_lines - 1) s
  else if c =? 117 then scroll_by (- (vis_lines - 1)) s
  else if c =? 98 then go_back s
  else if c =? 114 then navigate (cur_url s) false s
  else if c =? 103 then set_url true [] s
  else s.

(** The span of a link under the pointer. *)
Definition hit (ln px : Z) (a : span) : bool :=
  (line a =? ln) && (link a >=? 0) && (px >=? x a) && (px <? x a + len a * CHAR_W).

Definition handle_click (px py : Z) (s : B) : B :=
  let s := set_dirty true s in
  if py <? TOPBAR_H then set_url true [] s
  else if py >=? win_h - STATUS_H then s
  else
    let ln := scroll_line s + Z.quot (py - TOPBAR_H - 4) LINE_H in
    match List.find (hit ln px) (spans (doc s)) with Some a => follow_link (link a) s | None => s end.

(** ** Events *)

Inductive wev := WevKey (a : Z) | WevMouse (a b c : Z) | WevClose.

(** An event forwarded by the window manager; [lbtn] is the state of the left
    button. *)
Definition on_event (e : wev) (sl : B * bool) : B * bool :=
  let '(s, lbtn) := sl in
  match e with
  | WevKey a => (handle_key a s, lbtn)
  | WevMouse a b c =>
      let lb := Z.testbit c 0 in
      (if lb && negb lbtn then handle_click a b s else s, lb)
  | WevClose => (quit s, lbtn)
  end.

(** Events until the browser quits. *)
Fixpoint events (l : list wev) (sl : B * bool) : B * bool :=
  match l with
  | [] => sl
  | e :: l' => if quitted sl.1 then sl else events l' (on_event e sl)
  end.
End browser.
End BrowserNav.

(** * The browser keeps its state in order

    Whatever the user does and whatever the servers send, the page can be
    drawn, the buffers hold what is in them, and no connection is left open. *)

Module BrowserNavSpec.
Import Shell BrowserText Browser BrowserSpec BrowserTheorems BrowserUrl BrowserUrlSpec BrowserNav.

(** What the browser relies on: a connection is open from connect() to
    close(), and a read gives no more than was asked for. *)
Class NetOk (N : Type) `{Net N} := {
  ok_resolve h k : conns (net_resolve h k).2 = conns k;
  ok_connect ip p k :
    let '(fd, k') := net_connect ip p k in
    fd < 0 ∧ conns k' = conns k ∨ 0 ≤ fd ∧ fd ∉ conns k ∧ conns k' = {[fd]} ∪ conns k;
  ok_write fd b k : conns (net_write fd b k).2 = conns k;
  ok_read fd cap k : let '((r, bytes), k') := net_read fd cap k in conns k' = conns k ∧ (0 < r → r ≤ cap ∧ zlength bytes = r);
  ok_close fd k : conns (net_close fd k).2 = conns k ∖ {[fd]};
  ok_tls_start fd h k : conns (tls_start fd h k).2 = conns k;
  ok_tls_write b k : conns (tls_write_all b k).2 = conns k;
  ok_tls_flush k : conns (tls_flush k).2 = conns k;
  ok_tls_read cap k : let '((r, bytes), k') := tls_read cap k in conns k' = conns k ∧ (0 < r → r ≤ cap ∧ zlength bytes = r);
  ok_tls_error k : conns (tls_last_error k).2 = conns k;
}.

Lemma sadd_length cap dst src : 0 < cap → zlength dst < cap → zlength (sadd cap dst src) < cap.
Proof. intros H0 H. unfold sadd. rewrite zlength_app. unfold zlength in *. rewrite length_take. lia. Qed.

Lemma scopy_length src cap : 0 < cap → zlength (scopy src cap) < cap.
Proof. intros H. unfold scopy, zlength. rewrite length_take. lia. Qed.

Lemma saddi_length cap dst v : 0 < cap → zlength dst < cap → zlength (saddi cap dst v) < cap.
Proof.
  intros H0 Hd. unfold saddi. assert (∀ ds d, zlength d < cap → zlength (foldl (λ d c, sadd cap d [c]) d ds) < cap) as Hf.
  { induction ds as [|c ds IH]; intros d Hl; cbn; [done|]. by apply IH, sadd_length. }
  case_if; apply Hf; [by apply sadd_length|done].
Qed.

Section net.
Context {N : Type} `{NetOk N}.

(** ** Fetching *)

Definition reader (rd : Z → ST N (Z * text)) : Prop :=
  ∀ cap k, let '((r, bytes), k') := rd cap k in conns k' = conns k ∧ (0 < r → r ≤ cap ∧ zlength bytes = r).

(** The loop ends before its fuel does: the buffer is full, or there is no
    more. *)
Lemma recv_loop_ok rd : reader rd → ∀ fuel page k,
  PAGE_CAP - 1 - zlength page < Z.of_nat fuel → zlength page ≤ PAGE_CAP - 1 →
  wp (recv_loop fuel rd page) k (λ '(got, page') k',
    conns k' = conns k ∧ zlength page' ≤ PAGE_CAP - 1 ∧ (got ≤ 0 ∨ zlength page' = PAGE_CAP - 1)).
Proof.
  intros Hrd. induction fuel as [|n IH]; intros page k Hf Hp; [lia|]. cbn [recv_loop]. destruct (Z.ltb_spec (zlength page) (PAGE_CAP - 1)) as [Hlt|Hge].
  - apply wp_bind. apply run_wp. intros [got bytes] k' E. pose proof (Hrd (PAGE_CAP - 1 - zlength page) k) as Hr. rewrite E in Hr. destruct Hr as [Hc Hb].
    destruct (Z.gtb_spec got 0) as [Hg|Hg].
    + destruct (Hb Hg) as [Hb1 Hb2]. eapply wp_mono; [apply IH; rewrite zlength_app; lia|]. intros [g p'] k2 (H1 & H2 & H3). split_and!; congruence || done.
    + apply wp_ret. split_and!; [done|lia|by left].
  - apply wp_ret. split_and!; [done|lia|right; lia].
Qed.

Definition short_msg {A} (r : A + text) : Prop := match r with inl _ => True | inr msg => zlength msg < GERR_CAP end.

Lemma gerr_short msg : zlength (sadd GERR_CAP [] msg) < GERR_CAP.
Proof. by apply sadd_length. Qed.

(** After an exchange the connection is closed. *)
Definition exchanged (fd : Z) (k : N) (r : text + text) (k' : N) : Prop :=
  conns k' = conns k ∖ {[fd]} ∧ short_msg r ∧ (∀ page, r = inl page → zlength page ≤ PAGE_CAP - 1).

Lemma exchange_plain_ok fd req k : wp (exchange_plain fd req) k (exchanged fd k).
Proof.
  unfold exchange_plain. apply wp_bind, run_wp. intros w k1 E1. pose proof (ok_write fd req k) as C1. rewrite E1 in C1. cbn in C1. case_if.
  - apply wp_bind, run_wp. intros [] k2 E2. pose proof (ok_close fd k1) as C2. rewrite E2 in C2. cbn in C2. apply wp_ret. split_and!; [congruence|apply gerr_short|done].
  - apply wp_bind. eapply wp_mono; [apply recv_loop_ok; [intros cap k2; apply ok_read|unfold PAGE_CAP; change (zlength []) with 0; lia|done]|].
    intros [got page] k2 (C2 & L2 & _). apply wp_bind, run_wp. intros [] k3 E3. pose proof (ok_close fd k2) as C3. rewrite E3 in C3. cbn in C3.
    case_if; apply wp_ret; (split_and!; [congruence|done || apply gerr_short|]); [done|]. by intros p [= <-].
Qed.

Lemma exchange_tls_ok fd req k : wp (exchange_tls fd req) k (exchanged fd k).
Proof.
  unfold exchange_tls. apply wp_bind, run_wp. intros w k1 E1. pose proof (ok_tls_write req k) as C1. rewrite E1 in C1. cbn in C1.
  apply wp_bind, run_wp. intros f k2 E2. assert (conns k2 = conns k) as C2.
  { pose proof (ok_tls_flush k1) as Hf. destruct (w <? 0); [injection E2 as _ <-; done|]. rewrite E2 in Hf. cbn in Hf. congruence. }
  destruct (f <? 0).
  - apply wp_bind, run_wp. intros err k3 E3. pose proof (ok_tls_error k2) as C3. rewrite E3 in C3. cbn in C3.
    apply wp_bind, run_wp. intros [] k4 E4. pose proof (ok_close fd k3) as C4. rewrite E4 in C4. cbn in C4. apply wp_ret. split_and!; [congruence|apply gerr_short|done].
  - apply wp_bind. eapply wp_mono; [apply recv_loop_ok; [intros cap k3; apply ok_tls_read|unfold PAGE_CAP; change (zlength []) with 0; lia|done]|].
    intros [got page] k3 (C3 & L3 & _). apply wp_bind, run_wp. intros err k4 E4. pose proof (ok_tls_error k3) as C4. rewrite E4 in C4. cbn in C4.
    apply wp_bind, run_wp. intros [] k5 E5. pose proof (ok_close fd k4) as C5. rewrite E5 in C5. cbn in C5.
    case_if; apply wp_ret; (split_and!; [congruence|done || apply gerr_short|]); [done|]. by intros p [= <-].
Qed.

Lemma fetch_ok u k : wp (fetch u) k (λ '(_, r) k', conns k' = conns k ∧ short_msg r).
Proof.
  unfold fetch. apply wp_bind, run_wp. intros r k1 E1. assert (conns k1 = conns k) as C1.
  { pose proof (ok_resolve (host u) k) as Hr. destruct (parse_ip (host u)); [injection E1 as _ <-; done|]. by rewrite E1 in Hr. }
  destruct r as [ip|]; [|apply wp_ret; split; [done|]; by apply sadd_length, sadd_length].
  apply wp_bind, run_wp. intros fd k2 E2. pose proof (ok_connect ip (port u) k1) as C2. rewrite E2 in C2.
  destruct (Z.ltb_spec fd 0) as [Hfd|Hfd]; [apply wp_ret; destruct C2 as [[_ C2]|[? _]]; [|lia]; split; [congruence|apply gerr_short]|].
  destruct C2 as [[? _]|(_ & Hnew & C2)]; [lia|].
  assert (conns k2 ∖ {[fd]} = conns k) as Hback by (rewrite C2, <- C1; set_solver).
  apply wp_bind, run_wp. intros [] k3 E3. assert (conns k3 = conns k2) as C3.
  { pose proof (ok_tls_start fd (host u) k2) as Ht. destruct (tls u); [by rewrite E3 in Ht|injection E3 as <-; done]. }
  case_if.
  - apply wp_bind, run_wp. intros [] k4 E4. pose proof (ok_close fd k3) as C4. rewrite E4 in C4. cbn in C4. apply wp_ret. split; [congruence|apply gerr_short].
  - apply wp_bind. eapply (wp_mono _ _ (exchanged fd k3)); [destruct (tls u); [apply exchange_tls_ok|apply exchange_plain_ok]|].
    intros [page|msg] k4 (C4 & Hs & _); [|apply wp_ret; split; [congruence|done]]. case_if; apply wp_ret; (split; [congruence|]); [apply gerr_short|done].
Qed.

(** ** Navigation *)

Context (cw vis win_h : Z) (Hcw : 16 ≤ cw).
Implicit Types s : browser N.

Record browser_ok (s : browser N) : Prop := {
  bo_page : drawable cw (doc s) (nlines s);
  bo_scroll : 0 ≤ scroll_line s ≤ max_scroll vis s;
  bo_hist : zlength (hist s) ≤ MAX_HIST ∧ Forall (λ u, zlength u < URL_CAP) (hist s);
  bo_url : zlength (cur_url s) < URL_CAP;
  bo_urlbuf : zlength (urlbuf s) < URL_CAP;
  bo_numbuf : zlength (numbuf s) < NUM_CAP ∧ Forall (λ c, is_digit c = true) (numbuf s);
  bo_status : zlength (statusmsg s) < STATUS_CAP;
}.

(** [s'] is in order and has no connection more or less than [s]. *)
Definition in_order s s' : Prop := browser_ok s' ∧ conns (net s') = conns (net s).

Lemma in_order_trans s1 s2 s3 : in_order s1 s2 → in_order s2 s3 → in_order s1 s3.
Proof. intros [_ H1] [H2 H3]. split; [done|congruence]. Qed.

Lemma status_ok m s : browser_ok s → browser_ok (set_status m s).
Proof. intros []. constructor; try done. by apply scopy_length. Qed.

Lemma say_ok l s : browser_ok s → browser_ok (say l s).
Proof. by intros []. Qed.

Lemma dirty_ok b s : browser_ok s → browser_ok (set_dirty b s).
Proof. by intros []. Qed.

Lemma net_ok k s : browser_ok s → browser_ok (set_net k s).
Proof. by intros []. Qed.

Lemma hop_loop_ok n url s :
  browser_ok s → zlength url < URL_CAP →
  let '(r, s') := hop_loop n url s in
  in_order s s' ∧ match r with Some (url', _, _) => zlength url' < URL_CAP | None => True end.
Proof.
  revert url s. induction n as [|n IH]; intros url s Hs Hu; cbn [hop_loop]; (destruct (parse_url url) as [u|]; [|split; [split; [by apply say_ok, status_ok|done]|done]]).
  all: pose proof (fetch_ok u (net s)) as Hf; unfold wp in Hf; destruct (fetch u (net s)) as [[tr [resp|msg]] k]; cbn [fst snd] in Hf; destruct Hf as [Hc _].
  1, 3: destruct (_ && _ && _); [|split; [split; [by apply net_ok|done]|done]].
  - split; [split; [by apply net_ok|done]|done].
  - destruct (resolve_url url (loc resp) URL_CAP) as [nu|]; [|split; [split; [by apply net_ok|done]|done]].
    match goal with |- context [hop_loop n ?u ?s2] => pose proof (IH u s2) as IH2; destruct (hop_loop n u s2) as [r s'] end.
    destruct IH2 as [[I1 I2] I3]; [by apply status_ok, say_ok, net_ok|by apply scopy_length|]. split; [split; [done|]|done]. rewrite I2. done.
  - split; [split; [by apply dirty_ok, say_ok, status_ok, net_ok|done]|done].
  - split; [split; [by apply dirty_ok, say_ok, status_ok, net_ok|done]|done].
Qed.

Lemma push_hist_ok s : browser_ok s → browser_ok (push_hist s).
Proof.
  intros [H1 H2 [H3 H3'] H4 H5 H6 H7]. unfold push_hist. destruct (cur_url s) as [|c u] eqn:E; [by constructor; rewrite ?E|]. rewrite <- E in *. constructor; try done. cbn [hist set_hist].
  split.
  - rewrite zlength_app. change (zlength [_]) with 1. destruct (Z.eqb_spec (zlength (hist s)) MAX_HIST); [|lia]. destruct (hist s) as [|h l]; [done|]. rewrite zlength_cons in *. cbn [tail]. lia.
  - apply Forall_app. split; [|apply Forall_singleton; by apply scopy_length]. case_if; [|done]. destruct (hist s); [done|]. by apply Forall_cons in H3' as [_ ?].
Qed.

Lemma lay_out_drawable html src : let '(d, n) := lay_out cw html src in drawable cw d n.
Proof.
  unfold lay_out. destruct html.
  - destruct (layout_loop_ok cw Hcw (length src) src layout_reset (reset_ok cw Hcw) ltac:(lia)) as (s & Hl & Ho). unfold layout_html. rewrite Hl. cbn. apply ok_drawable; [done|]. by apply flush_run_ok.
  - unfold layout_plain. apply ok_drawable; [done|]. apply pre_ok, flush_run_ok, chars_ok; try done. by apply pre_ok, reset_ok.
Qed.

(** A page that is shown is shown from its top. *)
Lemma show_page_ok push url html src s f :
  browser_ok s → (∀ s1, conns (net (f s1)) = conns (net s1) ∧ doc (f s1) = doc s1 ∧ nlines (f s1) = nlines s1 ∧ hist (f s1) = hist s1 ∧ cur_url (f s1) = cur_url s1 ∧ urlbuf (f s1) = urlbuf s1 ∧ zlength (statusmsg (f s1)) < STATUS_CAP) →
  in_order s (page_shown (f (show_page cw push url html src s))).
Proof.
  intros Hs Hf. unfold show_page. pose proof (lay_out_drawable html src) as Hd. destruct (lay_out cw html src) as [d n].
  set (s1 := if push then push_hist s else s). assert (browser_ok s1 ∧ conns (net s1) = conns (net s)) as [H1 Hc] by (unfold s1, push_hist; destruct push; [split; [by apply push_hist_ok|by destruct (cur_url s)]|done]).
  clearbody s1. specialize (Hf (set_page d n (set_cur_url (scopy url URL_CAP) s1))). destruct Hf as (F1 & F2 & F3 & F4 & F5 & F6 & F7). split; [|cbn in *; congruence].
  destruct H1. constructor; cbn; rewrite ?F2, ?F3, ?F4, ?F5, ?F6; try done; [|by apply scopy_length].
  unfold max_scroll. case_if; lia.
Qed.

Lemma navigate_ok absurl push s : browser_ok s → in_order s (navigate cw absurl push s).
Proof.
  intros Hs. unfold navigate. case_if.
  { apply (show_page_ok push _ true home_html s (λ s, say [txt "browser: home"] (set_status (txt "welcome") s))); [done|]. intros s1. split_and!; done. }
  match goal with |- context [hop_loop ?n ?u ?s2] => pose proof (hop_loop_ok n u s2) as Hh; destruct (hop_loop n u s2) as [[[[url resp] tr]|] s1] end;
    (destruct Hh as [[H1 H2] _]; [by apply status_ok|by apply scopy_length|]); [|by split].
  eapply in_order_trans; [split; [exact H1|exact H2]|].
  apply (show_page_ok push url (is_html resp) (body resp) s1 (λ s, let s := set_status (loaded_msg resp tr (doc s)) s in
    let s := say [txt "browser: loaded "; cur_url s; txt " status "; num (status resp); txt " len "; num (zlength (body resp))] s in
    match title (doc s) with [] => s | t => say [txt "browser: title "; t] s end)); [done|].
  intros s2. cbn zeta. cbn [doc set_status say]. destruct (title (doc s2)); split_and!; try done; by apply scopy_length.
Qed.

Lemma follow_link_ok idx s : browser_ok s → in_order s (follow_link cw idx s).
Proof.
  intros Hs. unfold follow_link. case_if; [split; [by apply status_ok|done]|]. destruct (_ !! _) as [href|]; [|done]. destruct (resolve_url _ _ _); [by apply navigate_ok|]. split; [by apply status_ok|done].
Qed.

Lemma go_back_ok s : browser_ok s → in_order s (go_back cw s).
Proof.
  intros Hs. unfold go_back. destruct (last (hist s)) as [u|]; [|split; [by apply status_ok|done]].
  assert (browser_ok (set_hist (removelast (hist s)) s)) as Hp.
  { destruct Hs as [H1 H2 [H3 H3'] H4 H5 H6 H7]. constructor; try done. cbn [hist set_hist]. destruct (hist s) as [|h l _] using rev_ind; [done|]. rewrite removelast_last.
    apply Forall_app in H3' as [? _]. rewrite zlength_app in H3. change (zlength [h]) with 1 in H3. split; [lia|done]. }
  by apply (in_order_trans _ (set_hist (removelast (hist s)) s)), navigate_ok.
Qed.

Lemma scroll_by_ok d s : browser_ok s → in_order s (scroll_by vis d s).
Proof.
  intros []. split; [|done]. constructor; try done. unfold scroll_by. cbn. assert (0 ≤ max_scroll vis s) by (unfold max_scroll; case_if; lia). change (max_scroll vis (set_scroll _ s)) with (max_scroll vis s).
  repeat case_if; lia.
Qed.

Lemma set_url_ok m u s : zlength u < URL_CAP → browser_ok s → in_order s (set_url m u s).
Proof. intros Hu []. by split. Qed.

Lemma set_num_ok ds s : zlength ds < NUM_CAP → Forall (λ c, is_digit c = true) ds → browser_ok s → in_order s (set_num ds s).
Proof. intros H1 H2 []. by split. Qed.

Lemma quit_ok s : browser_ok s → in_order s (quit s).
Proof. by intros []. Qed.

Lemma removelast_length (l : text) : zlength (removelast l) ≤ zlength l.
Proof. destruct l as [|c l _] using rev_ind; [done|]. rewrite removelast_last, zlength_app. pose proof (zlength_nonneg [c]). lia. Qed.

Lemma handle_key_ok c s : browser_ok s → in_order s (handle_key cw vis c s).
Proof.
  intros Hs. unfold handle_key. assert (browser_ok (set_dirty true s)) as Hd by (by apply dirty_ok). apply (in_order_trans _ (set_dirty true s)); [by split|].
  set (s1 := set_dirty true s) in *. clearbody s1. clear Hs s. pose proof (bo_urlbuf _ Hd) as Hu. pose proof (bo_numbuf _ Hd) as [Hn Hn'].
  assert (∀ b, in_order s1 (set_url b (urlbuf s1) s1)) as Hm by (intros b; by apply set_url_ok).
  destruct (in_url s1).
  - destruct (c =? 27); [by apply Hm|]. destruct (c =? 10).
    { cbn [urlbuf set_url]. destruct (urlbuf s1) as [|d u] eqn:E; [by apply Hm|]. eapply in_order_trans; [by apply (Hm false)|]. apply navigate_ok, Hm. }
    destruct (c =? 8). { destruct (urlbuf s1) as [|d u] eqn:E; [by split|]. apply set_url_ok; [|done]. pose proof (removelast_length (d :: u)). lia. }
    case_if; [|by split]. boolp. apply set_url_ok; [|done]. rewrite zlength_app. change (zlength [c]) with 1. lia.
  - destruct (is_digit c) eqn:Ec. { case_if; [|by split]. apply set_num_ok; [rewrite zlength_app; change (zlength [c]) with 1; lia|apply Forall_app; split; [done|by apply Forall_singleton]|done]. }
    assert (in_order s1 (set_num [] s1)) as Hz by (by apply set_num_ok).
    destruct (c =? 10). { destruct (numbuf s1) as [|d l]; [by split|]. eapply in_order_trans; [exact Hz|]. apply follow_link_ok, Hz. }
    repeat (case_if; [by apply Hz || by apply quit_ok || by apply scroll_by_ok || by apply go_back_ok || by apply navigate_ok || by apply set_url_ok|]). by split.
Qed.

Lemma handle_click_ok px py s : browser_ok s → in_order s (handle_click cw win_h px py s).
Proof.
  intros Hs. unfold handle_click. assert (browser_ok (set_dirty true s)) as Hd by (by apply dirty_ok). apply (in_order_trans _ (set_dirty true s)); [by split|].
  repeat case_if; [by apply set_url_ok|by split|]. destruct (List.find _ _); [by apply follow_link_ok|by split].
Qed.

Lemma events_ok l s lbtn : browser_ok s → in_order s (events cw vis win_h l (s, lbtn)).1.
Proof.
  revert s lbtn. induction l as [|e l IH]; intros s lbtn Hs; [by split|]. cbn [events fst]. destruct (quitted s); [by split|].
  assert (in_order s (on_event cw vis win_h e (s, lbtn)).1) as H1.
  { destruct e; cbn; [by apply handle_key_ok|case_if; [by apply handle_click_ok|by split]|by apply quit_ok]. }
  destruct (on_event cw vis win_h e (s, lbtn)) as [s1 b]. eapply in_order_trans; [exact H1|]. apply IH, H1.
Qed.

(** ** The program *)

(** The browser before its first page. *)
Definition fresh (k : N) : browser N := mk_browser k layout_reset 0 [] [] [] false [] [] 0 true [] false.

Lemma fresh_ok k : browser_ok (fresh k).
Proof.
  constructor; cbn; try done. - constructor; cbn; try done; by intros a Ha%elem_of_nil.
  - unfold max_scroll. cbn. case_if; lia.
Qed.

(** The pointer is on the span. *)
Definition points_at (s : browser N) (px py : Z) (a : span) : Prop :=
  x a ≤ px < x a + len a * CHAR_W ∧ scroll_line s ≤ line a ∧ py < win_h - STATUS_H ∧
  0 ≤ py - (TOPBAR_H + 4 + (line a - scroll_line s) * LINE_H) < LINE_H.

Lemma find_first {A} (f : A → bool) (l : list A) i a :
  l !! i = Some a → f a = true → ∃ j b, List.find f l = Some b ∧ l !! j = Some b ∧ f b = true.
Proof.
  revert i. induction l as [|c l IH]; intros i Hi Hf; [done|]. cbn. destruct (f c) eqn:E; [by exists O, c|].
  destruct i as [|i]; cbn in Hi; [injection Hi as ->; congruence|]. destruct (IH i Hi Hf) as (j & b & H1 & H2 & H3). by exists (S j), b.
Qed.

(** Clicks go to what is under the pointer: a click on the text of a link
    that is on the screen follows that link, which exists. *)
Theorem click_follows px py s i a :
  browser_ok s → spans (doc s) !! i = Some a → 0 ≤ link a → points_at s px py a →
  handle_click cw win_h px py s = follow_link cw (link a) (set_dirty true s) ∧ is_Some (links (doc s) !! Z.to_nat (link a)).
Proof.
  intros Hs Hi Hlk (Hx & Hln & Hpy & Hy). pose proof (bo_page _ Hs) as Hd. unfold TOPBAR_H, LINE_H, STATUS_H in *. split.
  - unfold handle_click, TOPBAR_H, STATUS_H, LINE_H. destruct (Z.ltb_spec py 24); [lia|]. destruct (Z.geb_spec py (win_h - 20)); [lia|]. cbn [scroll_line set_dirty doc].
    assert (scroll_line s + Z.quot (py - 24 - 4) 16 = line a) as ->.
    { rewrite Z.quot_div_nonneg by lia. assert ((py - 24 - 4) / 16 = line a - scroll_line s); [|lia]. symmetry. apply (Z.div_unique _ _ _ (py - (24 + 4 + (line a - scroll_line s) * 16))); lia. }
    assert (hit (line a) px a = true) as Ha by (unfold hit; rewrite Z.eqb_refl, !(proj2 (Z.geb_ge _ _)), (proj2 (Z.ltb_lt _ _)) by lia; done).
    destruct (find_first _ _ i a Hi Ha) as (j & b & -> & Hj & Hb). unfold hit in Hb. boolp. unfold CHAR_W in *.
    destruct (decide (i = j)) as [->|Hij]; [congruence|]. exfalso.
    destruct (decide (i < j)%nat); [destruct (dr_apart _ _ _ Hd i j a b) as [?|[? ?]]|destruct (dr_apart _ _ _ Hd j i b a) as [?|[? ?]]]; unfold CHAR_W in *; done || lia.
  - pose proof (dr_link _ _ _ Hd a ltac:(by apply list_elem_of_lookup_2 in Hi)) as Hk. apply lookup_lt_is_Some_2. unfold zlength in Hk. lia.
Qed.

(** C10: Whatever the user does and the servers send, between two events the
    page can be drawn, it is scrolled to a line it has, the history and the
    strings are in their arrays, and every connection that was opened has been
    closed. *)
Theorem browser_in_order arg l k :
  let s := (events cw vis win_h l (navigate cw arg false (fresh k), false)).1 in browser_ok s ∧ conns (net s) = conns k.
Proof.
  cbv zeta. destruct (navigate_ok arg false (fresh k) (fresh_ok k)) as [H1 H2]. destruct (events_ok l (navigate cw arg false (fresh k)) false H1) as [H3 H4]. split; [done|]. by rewrite H4, H2.
Qed.
End net.

(** ** A network *)

(** Every connection gets the same reply. *)
Record web := mk_web { open_conns : list Z; pending : text; reply : text }.

Definition top_conn (k : web) : Z := foldr (λ x m, Z.max (x + 1) m) 3 (open_conns k).

#[global] Instance web_net : Net web := {
  net_resolve := λ h k, (None, k);
  net_connect := λ ip p k, (top_conn k, mk_web (top_conn k :: open_conns k) (reply k) (reply k));
  net_write := λ fd b k, (zlength b, k);
  net_read := λ fd cap k, let b := take (Z.to_nat cap) (pending k) in ((zlength b, b), mk_web (open_conns k) (drop (Z.to_nat cap) (pending k)) (reply k));
  net_close := λ fd k, (tt, mk_web (filter (λ x, x ≠ fd) (open_conns k)) (pending k) (reply k));
  tls_start := λ fd h k, (tt, k);
  tls_write_all := λ b k, (-1, k);
  tls_flush := λ k, (-1, k);
  tls_read := λ cap k, ((-1, []), k);
  tls_last_error := λ k, (62, k);
  BR_ERR_OK := 0; BR_ERR_IO := 31; BR_ERR_X509_NOT_TRUSTED := 62; BR_ERR_X509_EXPIRED := 54; BR_ERR_X509_BAD_SERVER_NAME := 56;
  BR_ERR_BAD_SIGNATURE := 27; BR_ERR_UNSUPPORTED_VERSION := 5;
  conns := λ k, list_to_set (open_conns k);
}.

Lemma top_conn_fresh k y : y ∈ open_conns k → y < top_conn k.
Proof. unfold top_conn. induction (open_conns k) as [|z l IH]; intros Hy; [by apply elem_of_nil in Hy|]. cbn. apply elem_of_cons in Hy as [->|Hy]; [lia|]. specialize (IH Hy). lia. Qed.

Lemma top_conn_pos k : 0 ≤ top_conn k.
Proof. unfold top_conn. induction (open_conns k) as [|z l IH]; cbn; lia. Qed.

#[global] Program Instance web_ok : NetOk web.
Next Obligation. done. Qed.
Next Obligation. intros ip p k. cbn. right. split_and!; [apply top_conn_pos| |done]. intros Hx%elem_of_list_to_set%top_conn_fresh. lia. Qed.
Next Obligation. done. Qed.
Next Obligation. intros fd cap k. cbn. split; [done|]. intros H. split; [|done]. unfold zlength in *. rewrite length_take in *. lia. Qed.
Next Obligation. intros fd k. cbn. apply leibniz_equiv. intros x. rewrite elem_of_difference, !elem_of_list_to_set, list_elem_of_filter. set_solver. Qed.
Next Obligation. done. Qed.
Next Obligation. done. Qed.
Next Obligation. done. Qed.
Next Obligation. done. Qed.
Next Obligation. done. Qed.

Definition site_reply : text :=
  txt "HTTP/1.0 200 OK" ++ [13; 10] ++ txt "Content-Type: text/html" ++ [13; 10; 13; 10] ++ txt "<title>T</title>Hi <a href=/next>there</a>".

Definition online : web := mk_web [] [] site_reply.

(** A page is loaded and its link followed by its number. *)
Example follow_one :
  (let s := (events 764 30 540 [WevKey 49; WevKey 10] (navigate 764 (txt "http://10.0.2.2/") false (fresh online), false)).1 in
   (cur_url s, hist s, statusmsg s, texts (Some (doc s, nlines s)))) =
  (txt "http://10.0.2.2/next", [txt "http://10.0.2.2/"], txt "200, 42 bytes, 1 links",
   [(txt "Hi", 0, 8); (txt "[1]", 0, 32); (txt "there", 0, 56)]).
Proof. vm_compute. reflexivity. Qed.

Lemma browser_in_order_witness : 16 ≤ 764 ∧
  let s := (events 764 30 540 [WevKey 49; WevKey 10] (navigate 764 (txt "http://10.0.2.2/") false (fresh online), false)).1 in
  browser_ok 764 30 s ∧ conns (net s) = conns online.
Proof. split; [lia|]. apply browser_in_order. lia. Defined.

Lemma click_follows_witness :
  let s := navigate 764 (txt "http://10.0.2.2/") false (fresh online) in
  handle_click 764 540 60 30 s = follow_link 764 0 (set_dirty true s).
Proof.
  cbv zeta. set (s := navigate 764 (txt "http://10.0.2.2/") false (fresh online)).
  assert (browser_ok 764 30 s) as Hs by (apply (navigate_ok 764 30 ltac:(lia)), fresh_ok).
  assert (spans (doc s) !! 2%nat = Some (mk_span 56 0 5 5 0 COL_LINK F_UL)) as Hi by (vm_compute; reflexivity).
  assert (points_at 540 s 60 30 (mk_span 56 0 5 5 0 COL_LINK F_UL)) as Hp by (split_and!; vm_compute; done).
  exact (proj1 (click_follows 764 30 540 60 30 s 2 (mk_span 56 0 5 5 0 COL_LINK F_UL) Hs Hi ltac:(done) Hp)).
Defined.
End BrowserNavSpec.
