(* ===== verification/BrowserDraw.v ===== *)
(** * Drawing the browser (user/browser.c, rendering)

    The pixels of a frame, and where they are: the text of the page between
    the bars, and the thumb of the scroll bar on its track. *)

From Stdlib Require Import String.
From S2P Require Import Prelude Shell Browser BrowserTheorems Gfx BrowserUrl BrowserNav.

Module BrowserDraw.
Import Shell BrowserText Browser BrowserUrl BrowserNav BrowserSpec BrowserTheorems BrowserNavSpec.
Import Gfx.

Definition COL_PAPER : Z := 0xFFFFFF.
Definition COL_CHROME : Z := 0xC0C0C0.

Definition help : text := txt "g url  j/k/spc scroll  n+ret follow  b back  q quit".

Section draw.
Context {N : Type} `{Net N}.
Context (font : list Z) (w h : Z).

(** [content_w] and [vis_lines]. *)
Definition content_w : Z := w - 2 * MARGIN.
Definition vis_lines : Z := Z.quot (h - TOPBAR_H - STATUS_H - 8) LINE_H.

Definition chars_at (x y : Z) (t : text) (color : Z) (bold : bool) : list px :=
  k ← range 0 (zlength t);
  gfx_char font w h (x + k * CHAR_W) y (bget t k) color ++ (if bold then gfx_char font w h (x + k * CHAR_W + 1) y (bget t k) color else []).

Definition draw_span_text (arena : text) (s : span) (y : Z) : list px :=
  chars_at (x s) y (take (Z.to_nat (len s)) (drop (Z.to_nat (off s)) arena)) (color s) (negb (Z.land (flags s) F_BOLD =? 0)) ++
  (if negb (Z.land (flags s) F_UL =? 0) then gfx_fill w h (x s) (y + 14) (len s * CHAR_W) 1 (color s) else []).

Definition draw_text_clipped (x y : Z) (s : text) (maxchars color : Z) : list px :=
  chars_at x y (take (Z.to_nat maxchars) s) color false.

(** The text of the page. *)
Definition draw_page (s : browser N) : list px :=
  spans (doc s) ≫= λ a,
    if (line a <? scroll_line s) || (line a >=? scroll_line s + vis_lines) then []
    else
      let y := TOPBAR_H + 4 + (line a - scroll_line s) * LINE_H in
      if negb (Z.land (flags a) F_RULE =? 0) then gfx_fill w h MARGIN (y + LINE_H / 2) content_w 1 (color a)
      else draw_span_text (arena (doc s)) a y.

Definition track_h : Z := h - TOPBAR_H - STATUS_H.

Definition thumb_h (s : browser N) : Z :=
  let t := Z.quot (track_h * vis_lines) (nlines s) in if t <? 16 then 16 else t.

Definition thumb_y (s : browser N) : Z :=
  TOPBAR_H + Z.quot ((track_h - thumb_h s) * scroll_line s) (max_scroll vis_lines s).

Definition draw_scrollbar (s : browser N) : list px :=
  if nlines s >? vis_lines then
    gfx_fill w h (w - 5) TOPBAR_H 5 track_h 0xE0E0E0 ++ gfx_fill w h (w - 5) (thumb_y s) 5 (thumb_h s) 0x707070
  else [].

Definition draw_bars (s : browser N) : list px :=
  gfx_fill w h 0 0 w TOPBAR_H COL_CHROME ++
  gfx_fill w h 0 TOPBAR_H w (h - TOPBAR_H - STATUS_H) COL_PAPER ++
  gfx_fill w h 0 (h - STATUS_H) w STATUS_H COL_CHROME ++
  gfx_fill w h 0 (TOPBAR_H - 1) w 1 0x606060 ++
  gfx_fill w h 0 (h - STATUS_H) w 1 0x606060 ++
  let titlechars := zlength (title (doc s)) in
  if negb (titlechars =? 0) then
    let tx := w - MARGIN - titlechars * CHAR_W in
    let '(tx, titlechars) := if tx <? Z.quot w 2 then (Z.quot w 2, Z.quot (w - MARGIN - Z.quot w 2) CHAR_W) else (tx, titlechars) in
    draw_text_clipped tx 4 (title (doc s)) titlechars COL_HEAD ++
    draw_text_clipped MARGIN 4 (cur_url s) (Z.quot (tx - 2 * MARGIN) CHAR_W) COL_TEXT
  else draw_text_clipped MARGIN 4 (cur_url s) (Z.quot (w - 2 * MARGIN) CHAR_W) COL_TEXT.

Definition status_left (s : browser N) : text :=
  let add := sadd 160 in
  if in_url s then add (add (add [] (txt "url: ")) (urlbuf s)) (txt "_")
  else match numbuf s with
       | [] => add [] (statusmsg s)
       | n => add (add (add [] (txt "follow: ")) n) (txt "_")
       end.

Definition draw_status (s : browser N) : list px :=
  let hx := w - MARGIN - zlength help * CHAR_W in
  draw_text_clipped hx (h - STATUS_H + 2) help (zlength help) 0x404040 ++
  draw_text_clipped MARGIN (h - STATUS_H + 2) (status_left s) (Z.quot (hx - 2 * MARGIN) CHAR_W) COL_TEXT.

(** A frame; the pointer is drawn when the browser owns the screen. *)
Definition draw (pointer : option (Z * Z)) (s : browser N) : list px :=
  draw_bars s ++ draw_page s ++ draw_scrollbar s ++ draw_status s ++
  match pointer with Some (mx, my) => gfx_cursor w h mx my | None => [] end.

(** ** Where the pixels are *)

(** The rows between the bars, less four on either side. *)
Definition in_page (p : px) : Prop :=
  MARGIN ≤ p.1.1 ≤ MARGIN + content_w ∧ TOPBAR_H + 4 ≤ p.1.2 < h - STATUS_H - 4.

Lemma fill_area x y fw fh c : Forall (λ p, x ≤ p.1.1 < x + fw ∧ y ≤ p.1.2 < y + fh) (gfx_fill w h x y fw fh c).
Proof.
  destruct (fill_covers w h x y fw fh c) as (Hi & _ & Hc). apply Forall_forall. intros p Hp. rewrite Forall_forall in Hi. destruct (Hi p Hp) as [Hx Hy].
  assert ((p.1.1, p.1.2) ∈ (fst <$> gfx_fill w h x y fw fh c)) as Hin by (apply list_elem_of_fmap; exists p; split; [by destruct p as [[? ?] ?]|done]). by apply Hc in Hin.
Qed.

Lemma char_area x y ch fg : Forall (λ p, x ≤ p.1.1 < x + 8 ∧ y ≤ p.1.2 < y + 16) (gfx_char font w h x y ch fg).
Proof.
  destruct (char_covers font w h x y ch fg) as (Hi & _ & Hc). apply Forall_forall. intros p Hp. rewrite Forall_forall in Hi. destruct (Hi p Hp) as [Hx Hy].
  assert ((p.1.1, p.1.2) ∈ (fst <$> gfx_char font w h x y ch fg)) as Hin by (apply list_elem_of_fmap; exists p; split; [by destruct p as [[? ?] ?]|done]). apply Hc in Hin; lia.
Qed.

Lemma chars_area x y t c bold : Forall (λ p, x ≤ p.1.1 ≤ x + zlength t * 8 ∧ y ≤ p.1.2 < y + 16) (chars_at x y t c bold).
Proof.
  unfold chars_at, CHAR_W. apply Forall_range_bind. intros k Hk. apply Forall_app. split; [|destruct bold; [|by apply Forall_nil]]; (eapply Forall_impl; [apply char_area|]); intros p Hp; cbn in *; lia.
Qed.

Lemma frame_clips l : Forall (inside w h) l → ∀ g, wf g → Gfx.w g = w → Gfx.h g = h → is_Some (paint g l).
Proof. intros Hl g Hg <- <-. destruct (paint_inside l g Hg Hl) as (g' & -> & _). done. Qed.

Lemma chars_inside x y t c bold : Forall (inside w h) (chars_at x y t c bold).
Proof. apply Forall_range_bind. intros k _. apply Forall_app. split; [apply char_covers|destruct bold; [apply char_covers|by apply Forall_nil]]. Qed.

Lemma draw_inside pointer s : Forall (inside w h) (draw pointer s).
Proof.
  unfold draw. rewrite !Forall_app. split_and!.
  - unfold draw_bars. rewrite !Forall_app. split_and!; [apply fill_covers..|]. cbv zeta. destruct (negb _); [|apply chars_inside]. destruct (if _ <? _ then _ else _). apply Forall_app. split; apply chars_inside.
  - unfold draw_page. apply Forall_bind, Forall_forall. intros a _. unfold compose. case_if; [by apply Forall_nil|]. case_if; [apply fill_covers|]. apply Forall_app. split; [apply chars_inside|]. case_if; [apply fill_covers|by apply Forall_nil].
  - unfold draw_scrollbar. case_if; [apply Forall_app; split; apply fill_covers|by apply Forall_nil].
  - unfold draw_status. apply Forall_app. split; apply chars_inside.
  - destruct pointer as [[mx my]|]; [apply cursor_inside|by apply Forall_nil].
Qed.

Lemma page_inside s : 0 ≤ h - TOPBAR_H - STATUS_H - 8 → 0 ≤ content_w → browser_ok content_w vis_lines s → Forall in_page (draw_page s).
Proof.
  intros Hh Hw Hs. pose proof (bo_page _ _ _ Hs) as Hd. unfold draw_page. apply Forall_bind, Forall_forall. intros a Ha. unfold compose.
  destruct ((line a <? scroll_line s) || (line a >=? scroll_line s + vis_lines)) eqn:E; [by apply Forall_nil|]. apply orb_false_elim in E as [E1 E2]. boolp.
  destruct (dr_place _ _ _ Hd a Ha) as (Hx1 & Hx2 & _). destruct (dr_text _ _ _ Hd a Ha) as (Ho & Hl & Hol). unfold CHAR_W in *.
  assert (16 * vis_lines ≤ h - TOPBAR_H - STATUS_H - 8) as Hv by (unfold vis_lines, LINE_H; rewrite Z.quot_div_nonneg by lia; zdm).
  set (y := TOPBAR_H + 4 + (line a - scroll_line s) * LINE_H). assert (TOPBAR_H + 4 ≤ y ∧ y + 16 ≤ h - STATUS_H - 4) as [Hy1 Hy2] by (unfold y, LINE_H; lia). clearbody y.
  unfold in_page. case_if.
  - eapply Forall_impl; [apply fill_area|]. intros p Hp. change (LINE_H / 2) with 8 in Hp. cbn beta in Hp. lia.
  - unfold draw_span_text. apply Forall_app. split; [|case_if; [|by apply Forall_nil]].
    + eapply Forall_impl; [apply chars_area|]. intros p Hp. cbn beta in Hp.
      assert (zlength (take (Z.to_nat (len a)) (drop (Z.to_nat (off a)) (arena (doc s)))) ≤ len a) by (unfold zlength; rewrite length_take; lia). lia.
    + eapply Forall_impl; [apply fill_area|]. intros p Hp. cbn beta in Hp. unfold CHAR_W in Hp. lia.
Qed.

Lemma thumb_inside s : 16 ≤ track_h → 0 ≤ h - TOPBAR_H - STATUS_H - 8 → browser_ok content_w vis_lines s → nlines s > vis_lines →
  TOPBAR_H ≤ thumb_y s ∧ thumb_y s + thumb_h s ≤ TOPBAR_H + track_h ∧ 16 ≤ thumb_h s.
Proof.
  intros Ht Hh Hs Hn. pose proof (bo_scroll _ _ _ Hs) as Hsc. assert (0 ≤ vis_lines) as Hv by (unfold vis_lines, LINE_H; rewrite Z.quot_div_nonneg by lia; zdm).
  assert (16 ≤ thumb_h s ≤ track_h) as Hth.
  { unfold thumb_h. assert (Z.quot (track_h * vis_lines) (nlines s) ≤ track_h).
    { rewrite Z.quot_div_nonneg by (try apply Z.mul_nonneg_nonneg; lia). apply Z.div_le_upper_bound; [lia|]. rewrite Z.mul_comm. apply Z.mul_le_mono_nonneg_r; lia. }
    case_if; lia. }
  assert (0 < max_scroll vis_lines s) as Hm by (unfold max_scroll; case_if; lia).
  assert (0 ≤ Z.quot ((track_h - thumb_h s) * scroll_line s) (max_scroll vis_lines s) ≤ track_h - thumb_h s) as Hq.
  { rewrite Z.quot_div_nonneg by (try apply Z.mul_nonneg_nonneg; lia). split; [apply Z.div_pos; [apply Z.mul_nonneg_nonneg|]; lia|].
    apply Z.div_le_upper_bound; [lia|]. rewrite (Z.mul_comm (max_scroll _ _)). apply Z.mul_le_mono_nonneg_l; lia. }
  unfold thumb_y. lia.
Qed.
End draw.

(** A frame stays in its place: no store is outside the back buffer, the
    text of the page is between the margins and between the bars, and the
    thumb of the scroll bar is on its track. *)
Theorem frame_in_place {N} `{NetOk N} font w h pointer (s : browser N) :
  60 ≤ h → 32 ≤ w → browser_ok (content_w w) (vis_lines h) s →
  (∀ g, wf g → Gfx.w g = w → Gfx.h g = h → is_Some (paint g (draw font w h pointer s))) ∧
  Forall (in_page w h) (draw_page font w h s) ∧
  (nlines s > vis_lines h → TOPBAR_H ≤ thumb_y h s ∧ thumb_y h s + thumb_h h s ≤ h - STATUS_H ∧ 16 ≤ thumb_h h s).
Proof.
  intros Hh Hw Hs. split_and!.
  - apply frame_clips, draw_inside.
  - apply page_inside; [unfold TOPBAR_H, STATUS_H; lia|unfold content_w, MARGIN; lia|done].
  - intros Hn. pose proof (thumb_inside w h s) as Ht. destruct Ht as (H1 & H2 & H3); [unfold track_h, TOPBAR_H, STATUS_H; lia|unfold TOPBAR_H, STATUS_H; lia|done|done|]. unfold track_h in H2. split_and!; lia.
Qed.

Lemma frame_in_place_witness :
  let s := navigate 764 (txt "http://10.0.2.2/") false (fresh online) in
  60 ≤ 540 ∧ 32 ≤ 780 ∧ Forall (in_page 780 540) (draw_page [] 780 540 s).
Proof.
  split_and!; [lia..|]. assert (browser_ok (content_w 780) (vis_lines 540) (navigate 764 (txt "http://10.0.2.2/") false (fresh online))) as Hs by (apply (navigate_ok 764 (vis_lines 540) ltac:(lia)), fresh_ok).
  exact (proj1 (proj2 (frame_in_place [] 780 540 None _ ltac:(lia) ltac:(lia) Hs))).
Defined.
End BrowserDraw.
