(* ===== verification/Wm.v ===== *)
(** * The window manager (user/wm.c)

    The desktop: eight windows, their stacking order, dragging and resizing,
    terminals on console channels and windows for client surfaces.  The
    kernel is behind the class [Desk].  [tlen] and [nz] are the lengths of the
    lists of their arrays; a window is named by its index. *)

From Stdlib Require Import String.
From S2P Require Import Prelude Shell Browser Gfx BrowserUrl BrowserNav.

Module Wm.
Import Shell Gfx.
Notation scopy := Browser.scopy.

Definition TITLE_H : Z := 24.
Definition TASKBAR_H : Z := 32.
Definition BTN_SZ : Z := 18.
Definition GRIP_SZ : Z := 16.
Definition MIN_W : Z := 160.
Definition MIN_H : Z := 100.
Definition MENU_W : Z := 160.
Definition MENU_ITEM_H : Z := 24.
Definition MENU_ITEMS : Z := 4.
Definition MENU_H : Z := MENU_ITEMS * MENU_ITEM_H + 8.
Definition TCOLS : Z := 42.
Definition TROWS : Z := 12.
Definition START_W : Z := 64.
Definition ENTRY_X0 : Z := 72.
Definition ENTRY_W : Z := 152.
Definition ENTRY_STEP : Z := 160.
Definition MAXWIN : Z := 8.
Definition TITLE_CAP : Z := 24.
Definition TEXT_CAP : Z := 40.
Definition WSURF_SLOTS : Z := 3.

Record win := mk_win {
  alive : bool;
  min : bool;
  x : Z;
  y : Z;
  w : Z;
  h : Z;
  title : text;
  text_ : text;
  term : bool;
  cid : Z;
  grid : list text;
  trow : Z;
  tcol : Z;
  surf : Z;
  spix : bool;
  sw : Z;
  sh : Z;
  lastmx : Z;
  lastmy : Z;
  lastbtn : bool;
}.

Definition set_alive (v0 : bool) (a : win) : win :=
  mk_win v0 (min a) (x a) (y a) (w a) (h a) (title a) (text_ a) (term a) (cid a) (grid a) (trow a) (tcol a) (surf a) (spix a) (sw a) (sh a) (lastmx a) (lastmy a) (lastbtn a).
Definition set_min (v0 : bool) (a : win) : win :=
  mk_win (alive a) v0 (x a) (y a) (w a) (h a) (title a) (text_ a) (term a) (cid a) (grid a) (trow a) (tcol a) (surf a) (spix a) (sw a) (sh a) (lastmx a) (lastmy a) (lastbtn a).
Definition set_pos (v0 : Z) (v1 : Z) (a : win) : win :=
  mk_win (alive a) (min a) v0 v1 (w a) (h a) (title a) (text_ a) (term a) (cid a) (grid a) (trow a) (tcol a) (surf a) (spix a) (sw a) (sh a) (lastmx a) (lastmy a) (lastbtn a).
Definition set_size (v0 : Z) (v1 : Z) (a : win) : win :=
  mk_win (alive a) (min a) (x a) (y a) v0 v1 (title a) (text_ a) (term a) (cid a) (grid a) (trow a) (tcol a) (surf a) (spix a) (sw a) (sh a) (lastmx a) (lastmy a) (lastbtn a).
Definition set_text (v0 : text) (a : win) : win :=
  mk_win (alive a) (min a) (x a) (y a) (w a) (h a) (title a) v0 (term a) (cid a) (grid a) (trow a) (tcol a) (surf a) (spix a) (sw a) (sh a) (lastmx a) (lastmy a) (lastbtn a).
Definition set_cid (v0 : Z) (a : win) : win :=
  mk_win (alive a) (min a) (x a) (y a) (w a) (h a) (title a) (text_ a) (term a) v0 (grid a) (trow a) (tcol a) (surf a) (spix a) (sw a) (sh a) (lastmx a) (lastmy a) (lastbtn a).
Definition set_term (v0 : bool) (a : win) : win :=
  mk_win (alive a) (min a) (x a) (y a) (w a) (h a) (title a) (text_ a) v0 (cid a) (grid a) (trow a) (tcol a) (surf a) (spix a) (sw a) (sh a) (lastmx a) (lastmy a) (lastbtn a).
Definition set_grid (v0 : list text) (v1 : Z) (v2 : Z) (a : win) : win :=
  mk_win (alive a) (min a) (x a) (y a) (w a) (h a) (title a) (text_ a) (term a) (cid a) v0 v1 v2 (surf a) (spix a) (sw a) (sh a) (lastmx a) (lastmy a) (lastbtn a).
Definition set_spix (v0 : bool) (a : win) : win :=
  mk_win (alive a) (min a) (x a) (y a) (w a) (h a) (title a) (text_ a) (term a) (cid a) (grid a) (trow a) (tcol a) (surf a) v0 (sw a) (sh a) (lastmx a) (lastmy a) (lastbtn a).
Definition set_surface (v0 : Z) (v1 : Z) (v2 : Z) (v3 : Z) (v4 : Z) (v5 : Z) (v6 : Z) (v7 : Z) (v8 : Z) (v9 : bool) (a : win) : win :=
  mk_win (alive a) (min a) v5 v6 v3 v4 (title a) (text_ a) (term a) (cid a) (grid a) (trow a) (tcol a) v0 (spix a) v1 v2 v7 v8 v9.
Definition set_last (v0 : Z) (v1 : Z) (v2 : bool) (a : win) : win :=
  mk_win (alive a) (min a) (x a) (y a) (w a) (h a) (title a) (text_ a) (term a) (cid a) (grid a) (trow a) (tcol a) (surf a) (spix a) (sw a) (sh a) v0 v1 v2.

Inductive wev := WevKey (a : Z) | WevMouse (a b c : Z) | WevClose.
Record wsurf_info := mk_info { i_alive : bool; i_w : Z; i_h : Z; i_name : text }.
Record mouse_state := mk_mouse { mx : Z; my : Z; buttons : Z }.

(** The system calls of the window manager. *)
Class Desk (K : Type) := {
  exec : text → ST K Z;
  execc : text → ST K Z;
  cwrite : Z → text → ST K Z;
  cstat : Z → ST K Z;
  kill : Z → ST K Z;
  cclose : Z → ST K Z;
  (** what the reads of a channel return until one returns nothing *)
  cread : Z → ST K (list text);
  wstat : Z → ST K (option wsurf_info);
  wmap : Z → ST K bool;
  wunmap : Z → ST K Z;
  wsend : Z → wev → ST K Z;
  (** the channels that are open, and the surfaces that are mapped *)
  chans : K → gset Z;
  maps : K → gset Z;
}.

Record wm (K : Type) := mk_wm {
  wins : list win;
  zorder : list nat;
  next_no : Z;
  menu_open : bool;
  dragging : option nat;
  resizing : option nat;
  drag_ox : Z;
  drag_oy : Z;
  prev_btn : bool;
  serial : list text;
  kern : K;
}.
Arguments mk_wm {K}.
Arguments wins {K}. Arguments zorder {K}. Arguments next_no {K}. Arguments menu_open {K}. Arguments dragging {K}. Arguments resizing {K}. Arguments drag_ox {K}. Arguments drag_oy {K}. Arguments prev_btn {K}. Arguments serial {K}. Arguments kern {K}.

Section wm.
Context {K : Type} `{Desk K}.
(** The size of the screen. *)
Context (scr_w scr_h : Z).

Notation D := (wm K).

Definition set_wins (v0 : list win) (a : D) : D :=
  mk_wm v0 (zorder a) (next_no a) (menu_open a) (dragging a) (resizing a) (drag_ox a) (drag_oy a) (prev_btn a) (serial a) (kern a).
Definition set_zorder (v0 : list nat) (a : D) : D :=
  mk_wm (wins a) v0 (next_no a) (menu_open a) (dragging a) (resizing a) (drag_ox a) (drag_oy a) (prev_btn a) (serial a) (kern a).
Definition set_next_no (v0 : Z) (a : D) : D :=
  mk_wm (wins a) (zorder a) v0 (menu_open a) (dragging a) (resizing a) (drag_ox a) (drag_oy a) (prev_btn a) (serial a) (kern a).
Definition set_menu (v0 : bool) (a : D) : D :=
  mk_wm (wins a) (zorder a) (next_no a) v0 (dragging a) (resizing a) (drag_ox a) (drag_oy a) (prev_btn a) (serial a) (kern a).
Definition set_drag (v0 : option nat) (v1 : Z) (v2 : Z) (a : D) : D :=
  mk_wm (wins a) (zorder a) (next_no a) (menu_open a) v0 (resizing a) v1 v2 (prev_btn a) (serial a) (kern a).
Definition set_resize (v0 : option nat) (v1 : Z) (v2 : Z) (a : D) : D :=
  mk_wm (wins a) (zorder a) (next_no a) (menu_open a) (dragging a) v0 v1 v2 (prev_btn a) (serial a) (kern a).
Definition set_released (v0 : option nat) (v1 : option nat) (a : D) : D :=
  mk_wm (wins a) (zorder a) (next_no a) (menu_open a) v0 v1 (drag_ox a) (drag_oy a) (prev_btn a) (serial a) (kern a).
Definition set_prev (v0 : bool) (a : D) : D :=
  mk_wm (wins a) (zorder a) (next_no a) (menu_open a) (dragging a) (resizing a) (drag_ox a) (drag_oy a) v0 (serial a) (kern a).
Definition set_kern (v0 : K) (a : D) : D :=
  mk_wm (wins a) (zorder a) (next_no a) (menu_open a) (dragging a) (resizing a) (drag_ox a) (drag_oy a) (prev_btn a) (serial a) v0.
Definition set_serial (v0 : list text) (a : D) : D :=
  mk_wm (wins a) (zorder a) (next_no a) (menu_open a) (dragging a) (resizing a) (drag_ox a) (drag_oy a) (prev_btn a) v0 (kern a).
Definition put (t : list text) (s : D) : D := set_serial (serial s ++ [concat t ++ [10]]) s.

(** A system call. *)
Definition sys {A} (c : ST K A) (s : D) : A * D := let '(a, k) := c (kern s) in (a, set_kern k s).

Definition dead : win := mk_win false false 0 0 0 0 [] [] false 0 [] 0 0 0 false 0 0 0 0 false.
Definition win_at (s : D) (wi : nat) : win := default dead (wins s !! wi).
Definition update (wi : nat) (f : win → win) (s : D) : D := set_wins (<[wi := f (win_at s wi)]> (wins s)) s.

(** A number as fmt_int() writes it. *)
Definition fmt_int (v : Z) : text := if v <? 0 then 45 :: digits 12 (u32 (- v)) [] else digits 12 v [].

(** ** The stacking order *)

Definition zfind (wi : nat) (s : D) : option nat := fst <$> list_find (λ z, z = wi) (zorder s).

Definition raise_win (wi : nat) (s : D) : D :=
  match zfind wi s with
  | None => s
  | Some z => set_zorder (take z (zorder s) ++ drop (z + 1) (zorder s) ++ [wi]) s
  end.

Definition topmost (s : D) : option nat :=
  last (filter (λ z, min (win_at s z) = false) (zorder s)).

Definition close_win (wi : nat) (s : D) : D :=
  match zfind wi s with
  | None => s
  | Some z => update wi (set_alive false) (set_zorder (take z (zorder s) ++ drop (z + 1) (zorder s)) s)
  end.

Definition spawn (title : option text) (s : D) : option nat * D :=
  match list_find (λ a, alive a = false) (wins s) with
  | None => (None, s)
  | Some (slot, a) =>
      let '(t, n) := match title with
                     | Some t => (scopy t TITLE_CAP, next_no s)
                     | None => (txt "window " ++ fmt_int (next_no s), next_no s + 1)
                     end in
      let i := Z.of_nat slot in
      let a := mk_win true false (140 + 40 * i) (120 + 32 * i) 360 240 t [] false (-1) (grid a) (trow a) (tcol a) (-1) false (sw a) (sh a) (lastmx a) (lastmy a) (lastbtn a) in
      (Some slot, set_next_no n (set_zorder (zorder s ++ [slot]) (set_wins (<[slot := a]> (wins s)) s)))
  end.

(** ** Terminals *)

Definition blank_row : text := replicate (Z.to_nat TCOLS) 32.

Definition term_clear (a : win) : win := set_grid (replicate (Z.to_nat TROWS) blank_row) 0 0 a.
Definition term_scroll (a : win) : win := set_grid (tail (grid a) ++ [blank_row]) (TROWS - 1) 0 a.

(** The cursor on the next line. *)
Definition term_newline (a : win) : win :=
  let a := set_grid (grid a) (trow a + 1) 0 a in if trow a =? TROWS then term_scroll a else a.

(** The character in its cell. *)
Definition term_put (c : Z) (a : win) : win :=
  let r := Z.to_nat (trow a) in
  set_grid (<[r := bset (default [] (grid a !! r)) (tcol a) c]> (grid a)) (trow a) (tcol a) a.

Definition term_char (c : Z) (a : win) : win :=
  if c =? 10 then term_newline a
  else if c =? 13 then set_grid (grid a) (trow a) 0 a
  else if c =? 8 then if tcol a >? 0 then set_grid (grid a) (trow a) (tcol a - 1) a else a
  else if c =? 12 then term_clear a
  else if (c >=? 32) && (c <? 127) then
    let a := term_put c a in
    let a := set_grid (grid a) (trow a) (tcol a + 1) a in
    if tcol a =? TCOLS then term_newline a else a
  else a.

Definition term_feed (buf : text) (a : win) : win := foldl (λ a c, term_char c a) a buf.

Definition spawn_terminal (s : D) : D :=
  let '(slot, s) := spawn (Some (txt "terminal")) s in
  match slot with
  | None => s
  | Some slot =>
      let s := update slot term_clear s in
      let '(c, s) := sys (execc (txt "sh")) s in
      let s := update slot (set_cid c) s in
      if c <? 0 then close_win slot s else update slot (set_term true) s
  end.

Definition close_terminal (wi : nat) (s : D) : D :=
  let c := cid (win_at s wi) in
  if c <? 0 then s else
  let '(_, s) := sys (cwrite c (txt "exit" ++ [10])) s in
  let '(pid, s) := sys (cstat c) s in
  let s := if pid >? 0 then let '(_, s) := sys (kill pid) s in put [txt "wm: killed pid "; fmt_int pid] s else s in
  let '(_, s) := sys (cclose c) s in
  update wi (set_cid (-1)) s.

(** ** Surfaces *)

Definition has_surface (sl : Z) (a : win) : Prop := alive a = true ∧ surf a = sl.
#[local] Instance has_surface_dec sl a : Decision (has_surface sl a).
Proof. unfold has_surface. apply _. Defined.

Definition surface_at (sl : Z) (s : D) : option nat := fst <$> list_find (has_surface sl) (wins s).

(** A window for the surface. *)
Definition open_surface (sl : Z) (si : wsurf_info) (s : D) : D :=
  let '(slot, s) := spawn (Some (i_name si)) s in
  match slot with
  | None => s
  | Some slot =>
      let '(ok, s) := sys (wmap sl) s in
      if negb ok then close_win slot (update slot (set_spix false) s)
      else
        let s := update slot (λ a, set_surface sl (i_w si) (i_h si) (i_w si + 2) (i_h si + TITLE_H + 1) (60 + sl * 30) (40 + sl * 24) (-1) (-1) false (set_spix true a)) s in
        put [txt "wm: surface '"; title (win_at s slot); txt "' "; fmt_int (i_w si); txt "x"; fmt_int (i_h si)] s
  end.

Definition poll_slot (sl : Z) (s : D) : D :=
  let have := surface_at sl s in
  let '(si, s) := sys (wstat sl) s in
  let live := match si with Some si => i_alive si | None => false end in
  match have, live, si with
  | None, true, Some si => open_surface sl si s
  | Some wi, false, _ =>
      let '(_, s) := sys (wunmap sl) s in
      put [txt "wm: surface closed"] (close_win wi (update wi (set_spix false) s))
  | _, _, _ => s
  end.

Definition poll_surfaces (s : D) : D := foldl (λ s sl, poll_slot sl s) s (range 0 WSURF_SLOTS).

Definition spawn_about (s : D) : D :=
  let '(slot, s) := spawn (Some (txt "about")) s in
  match slot with
  | None => s
  | Some slot =>
      let t := scopy (txt "NOS ") TEXT_CAP ++ fmt_int scr_w ++ [120] ++ fmt_int scr_h in
      update slot (set_text (t ++ scopy (txt " 32bpp") (TEXT_CAP - zlength t))) s
  end.

(** ** Input *)

(** A key for the window that has the focus. *)
Definition key (c : Z) (s : D) : D :=
  match topmost s with
  | None => s
  | Some t =>
      let fw := win_at s t in
      if surf fw >=? 0 then (sys (wsend (surf fw) (WevKey c)) s).2
      else if term fw then (sys (cwrite (cid fw) [c]) s).2
      else if c =? 8 then match text_ fw with [] => s | u => update t (set_text (removelast u)) s end
      else if (c >=? 32) && (c <? 127) && (zlength (text_ fw) <? TEXT_CAP - 1) then update t (set_text (text_ fw ++ [c])) s
      else s
  end.

(** The keys before escape, and whether there was one. *)
Fixpoint keys (l : list Z) (s : D) : bool * D :=
  match l with [] => (false, s) | c :: l' => if c =? 27 then (true, s) else keys l' (key c s) end.

(** A press while the menu is open. *)
Definition press_menu (m : mouse_state) (s : D) : D :=
  let top := scr_h - TASKBAR_H - MENU_H in
  let s :=
    if (mx m >=? 4) && (mx m <? 4 + MENU_W) && (my m >=? top) && (my m <? top + MENU_H) then
      let item := Z.quot (my m - top - 4) MENU_ITEM_H in
      if item =? 0 then spawn_terminal s
      else if item =? 1 then (sys (exec (txt "browser")) s).2
      else if item =? 2 then (spawn None s).2
      else if item =? 3 then spawn_about s
      else s
    else s in
  set_menu false s.

Definition press_entry (wi : nat) (s : D) : D :=
  if min (win_at s wi) then raise_win wi (update wi (set_min false) s)
  else if bool_decide (topmost s = Some wi) then update wi (set_min true) s
  else raise_win wi s.

(** The entry under the pointer, from the window [i] on. *)
Fixpoint taskbar_entry (l : list win) (i : nat) (k : Z) (px : Z) : option nat :=
  match l with
  | [] => None
  | a :: l' =>
      if negb (alive a) then taskbar_entry l' (1 + i) k px
      else
        let ex := ENTRY_X0 + k * ENTRY_STEP in
        if (px >=? ex) && (px <? ex + ENTRY_W) then Some i else taskbar_entry l' (1 + i) (k + 1) px
  end.

Definition press_taskbar (m : mouse_state) (s : D) : D :=
  if mx m <? START_W + 4 then set_menu true s
  else match taskbar_entry (wins s) 0 0 (mx m) with Some wi => press_entry wi s | None => s end.

Definition under (m : mouse_state) (a : win) : Prop :=
  min a = false ∧ x a ≤ mx m < x a + w a ∧ y a ≤ my m < y a + h a.
#[local] Instance under_dec m a : Decision (under m a).
Proof. unfold under. apply _. Defined.

(** The topmost window under the pointer. *)
Definition window_under (m : mouse_state) (s : D) : option nat := last (filter (λ z, under m (win_at s z)) (zorder s)).

Definition press_window (m : mouse_state) (wi : nat) (s : D) : D :=
  let hw := win_at s wi in
  if my m <? y hw + TITLE_H then
    let by_ := y hw + 3 in
    let bxm := x hw + w hw - 2 * BTN_SZ - 5 in
    let bxc := x hw + w hw - BTN_SZ - 3 in
    let in_y := (my m >=? by_) && (my m <? by_ + BTN_SZ) in
    if in_y && (mx m >=? bxc) && (mx m <? bxc + BTN_SZ) then
      if surf hw >=? 0 then (sys (wsend (surf hw) WevClose) s).2
      else close_win wi (if term hw then close_terminal wi s else s)
    else if in_y && (mx m >=? bxm) && (mx m <? bxm + BTN_SZ) then raise_win wi (update wi (set_min true) s)
    else raise_win wi (set_drag (Some wi) (mx m - x hw) (my m - y hw) s)
  else if (surf hw <? 0) && (mx m >=? x hw + w hw - GRIP_SZ) && (my m >=? y hw + h hw - GRIP_SZ) then
    raise_win wi (set_resize (Some wi) (x hw + w hw - mx m) (y hw + h hw - my m) s)
  else raise_win wi s.

Definition press (m : mouse_state) (s : D) : D :=
  if menu_open s then press_menu m s
  else if my m >=? scr_h - TASKBAR_H then press_taskbar m s
  else match window_under m s with Some wi => press_window m wi s | None => s end.

Definition clamp_drag (m : mouse_state) (ox oy : Z) (a : win) : win :=
  let nx := mx m - ox in
  let ny := my m - oy in
  let nx := if nx <? 0 then 0 else nx in
  let ny := if ny <? 0 then 0 else ny in
  let nx := if nx >? scr_w - w a then scr_w - w a else nx in
  let ny := if ny >? scr_h - TASKBAR_H - h a then scr_h - TASKBAR_H - h a else ny in
  set_pos nx ny a.

Definition clamp_resize (m : mouse_state) (ox oy : Z) (a : win) : win :=
  let nw := mx m + ox - x a in
  let nh := my m + oy - y a in
  let nw := if nw <? MIN_W then MIN_W else nw in
  let nh := if nh <? MIN_H then MIN_H else nh in
  let nw := if x a + nw >? scr_w then scr_w - x a else nw in
  let nh := if y a + nh >? scr_h - TASKBAR_H then scr_h - TASKBAR_H - y a else nh in
  set_size nw nh a.

(** The update, when the window is one that is alive. *)
Definition update_alive (o : option nat) (f : win → win) (s : D) : D :=
  match o with Some wi => if alive (win_at s wi) then update wi f s else s | None => s end.

Definition drag (m : mouse_state) (s : D) : D :=
  let s := update_alive (dragging s) (clamp_drag m (drag_ox s) (drag_oy s)) s in
  update_alive (resizing s) (clamp_resize m (drag_ox s) (drag_oy s)) s.

(** The output of the process in a terminal. *)
Definition drain (wi : nat) (s : D) : D :=
  let a := win_at s wi in
  if alive a && term a && (cid a >=? 0) then
    let '(out, s) := sys (cread (cid a)) s in update wi (term_feed (concat out)) s
  else s.

Definition drain_all (s : D) : D := foldl (λ s wi, drain wi s) s (seq 0 (Z.to_nat MAXWIN)).

Definition forward_mouse (m : mouse_state) (s : D) : D :=
  match topmost s with
  | Some ts =>
      let tw := win_at s ts in
      if (surf tw >=? 0) && bool_decide (dragging s = None) then
        let bx := mx m - (x tw + 1) in
        let by_ := my m - (y tw + TITLE_H) in
        let btn := Z.testbit (buttons m) 0 in
        if (bx >=? 0) && (by_ >=? 0) && (bx <? sw tw) && (by_ <? sh tw) &&
           (negb (bx =? lastmx tw) || negb (by_ =? lastmy tw) || negb (Bool.eqb btn (lastbtn tw)))
        then update ts (set_last bx by_ btn) (sys (wsend (surf tw) (WevMouse bx by_ (buttons m))) s).2
        else s
      else s
  | None => s
  end.

(** One round of the loop; [true] when escape ends it. *)
Definition round (m : mouse_state) (l : list Z) (s : D) : bool * D :=
  let '(esc, s) := keys l s in
  if esc then (true, s) else
  let btn := Z.testbit (buttons m) 0 in
  let pressed := btn && negb (prev_btn s) in
  let released := negb btn && prev_btn s in
  let s := if pressed then press m s else s in
  let s := drag m s in
  let s := if released then set_released None None s else s in
  let s := drain_all s in
  let s := poll_surfaces s in
  let s := forward_mouse m s in
  (false, set_prev btn s).

Definition leave_window (wi : nat) (s : D) : D :=
  let a := win_at s wi in
  let s := if alive a && term a then close_terminal wi s else s in
  if alive a && (surf a >=? 0) then
    let '(_, s) := sys (wsend (surf a) WevClose) s in (sys (wunmap (surf a)) s).2
  else s.

Definition leave (s : D) : D :=
  put [txt "wm: exit"] (foldl (λ s wi, leave_window wi s) s (seq 0 (Z.to_nat MAXWIN))).

(** The desktop as it starts. *)
Definition start (k : K) (btn : bool) : D :=
  spawn_terminal (put [txt "wm: started"] (mk_wm (replicate (Z.to_nat MAXWIN) dead) [] 1 false None None 0 0 btn [] k)).

(** Rounds until escape, and the end. *)
Fixpoint session (l : list (mouse_state * list Z)) (s : D) : bool * D :=
  match l with
  | [] => (false, s)
  | (m, ks) :: l' => let '(esc, s) := round m ks s in if esc then (true, leave s) else session l' s
  end.
End wm.
End Wm.

(** * The desktop stays in order

    Whatever the user does and whatever the clients do: the stacking order
    lists the windows that are alive, windows are on the screen and surfaces
    have windows of their size, terminals write inside their grids, and the
    channels and mappings held are those of the windows. *)

Module WmSpec.
Import Shell Gfx Wm.

Definition WSURF_MAX_W : Z := 800.
Definition WSURF_MAX_H : Z := 600.

(** What the window manager relies on. *)
Class DeskOk (K : Type) `{Desk K} := {
  quiet_exec p k : chans (exec p k).2 = chans k ∧ maps (exec p k).2 = maps k;
  quiet_cwrite c b k : chans (cwrite c b k).2 = chans k ∧ maps (cwrite c b k).2 = maps k;
  quiet_cstat c k : chans (cstat c k).2 = chans k ∧ maps (cstat c k).2 = maps k;
  quiet_kill p k : chans (kill p k).2 = chans k ∧ maps (kill p k).2 = maps k;
  quiet_cread c k : chans (cread c k).2 = chans k ∧ maps (cread c k).2 = maps k;
  quiet_wsend c e k : chans (wsend c e k).2 = chans k ∧ maps (wsend c e k).2 = maps k;
  ok_wstat sl k :
    let '(o, k') := wstat sl k in
    chans k' = chans k ∧ maps k' = maps k ∧ match o with Some si => i_alive si = true → 1 ≤ i_w si ≤ WSURF_MAX_W ∧ 1 ≤ i_h si ≤ WSURF_MAX_H | None => True end;
  ok_execc p k :
    let '(c, k') := execc p k in
    maps k' = maps k ∧ (c < 0 ∧ chans k' = chans k ∨ 0 ≤ c ∧ c ∉ chans k ∧ chans k' = {[c]} ∪ chans k);
  ok_cclose c k : chans (cclose c k).2 = chans k ∖ {[c]} ∧ maps (cclose c k).2 = maps k;
  ok_wmap sl k : let '(b, k') := wmap sl k in chans k' = chans k ∧ maps k' = if b : bool then {[sl]} ∪ maps k else maps k;
  ok_wunmap sl k : chans (wunmap sl k).2 = chans k ∧ maps (wunmap sl k).2 = maps k ∖ {[sl]};
}.

(** ** Windows *)

Definition printable (c : Z) : Prop := 32 ≤ c < 127.

Record term_ok (a : win) : Prop := {
  to_rows : length (grid a) = Z.to_nat TROWS;
  to_cells : Forall (λ r, length r = Z.to_nat TCOLS ∧ Forall printable r) (grid a);
  to_row : 0 ≤ trow a < TROWS;
  to_col : 0 ≤ tcol a < TCOLS;
}.

Section wm.
Context {K : Type} `{DeskOk K}.
Context (scr_w scr_h : Z).
Context (base : gset Z).
Implicit Types (s : wm K) (a : win) (i j : nat).

Record win_ok (a : win) : Prop := {
  wo_x : 0 ≤ x a ∧ x a + w a ≤ scr_w;
  wo_y : 0 ≤ y a ∧ y a + h a ≤ scr_h - TASKBAR_H;
  wo_title : zlength (title a) < TITLE_CAP;
  wo_text : zlength (text_ a) < TEXT_CAP;
  wo_surf : -1 ≤ surf a;
  wo_plain : surf a < 0 → MIN_W ≤ w a ∧ MIN_H ≤ h a;
  wo_surface : 0 ≤ surf a → w a = sw a + 2 ∧ h a = sh a + TITLE_H + 1 ∧ 1 ≤ sw a ∧ 1 ≤ sh a ∧ term a = false;
  wo_term : term a = true → term_ok a;
}.

(** The channel and the surface of a window. *)
Definition chan_of (a : win) : option Z := if alive a && term a && (cid a >=? 0) then Some (cid a) else None.
Definition surf_of (a : win) : option Z := if alive a && (surf a >=? 0) then Some (surf a) else None.

(** The resources [R] are those of [B] and, apart from them, one for each
    window that has one. *)
Record account (R B : gset Z) (f : win → option Z) s : Prop := {
  ac_set c : c ∈ R ↔ c ∈ B ∨ ∃ i, f (win_at s i) = Some c;
  ac_inj i j c : f (win_at s i) = Some c → f (win_at s j) = Some c → i = j;
  ac_base i c : f (win_at s i) = Some c → c ∉ B;
}.

Record wm_ok s : Prop := {
  ok_wins : length (wins s) = Z.to_nat MAXWIN;
  ok_nodup : NoDup (zorder s);
  ok_zorder i : i ∈ zorder s ↔ alive (win_at s i) = true;
  ok_win i : alive (win_at s i) = true → win_ok (win_at s i);
  ok_resizing i : resizing s = Some i → alive (win_at s i) = true ∧ surf (win_at s i) < 0;
}.

Record inv' (R M : gset Z) s : Prop := {
  in_ok : wm_ok s;
  in_chans : account R base chan_of s;
  in_maps : account M ∅ surf_of s;
}.
Definition inv s : Prop := inv' (chans (kern s)) (maps (kern s)) s.

(** ** Windows by index *)

Lemma win_at_ge s i : (length (wins s) ≤ i)%nat → win_at s i = dead.
Proof. intros Hi. unfold win_at. by rewrite lookup_ge_None_2. Qed.

Lemma alive_lt s i : alive (win_at s i) = true → (i < length (wins s))%nat.
Proof. intros Ha. destruct (decide (i < length (wins s))%nat) as [|Hn]; [done|]. rewrite win_at_ge in Ha by lia. done. Qed.

Lemma win_at_insert s i a j : (i < length (wins s))%nat → win_at (set_wins (<[i := a]> (wins s)) s) j = if decide (i = j) then a else win_at s j.
Proof.
  intros Hi. unfold win_at. cbn [wins set_wins]. destruct (decide (i = j)) as [->|Hn]; [by rewrite list_lookup_insert_eq|by rewrite list_lookup_insert_ne].
Qed.

Lemma win_at_update s i f j : (i < length (wins s))%nat → win_at (update i f s) j = if decide (i = j) then f (win_at s i) else win_at s j.
Proof. apply win_at_insert. Qed.

(** Accounts of states whose windows agree. *)
Lemma account_ext R B f s s' : (∀ j, f (win_at s' j) = f (win_at s j)) → account R B f s → account R B f s'.
Proof.
  intros He [H1 H2 H3]. constructor.
  - intros c. rewrite H1. setoid_rewrite He. done.
  - intros i j c. rewrite !He. apply H2.
  - intros i c. rewrite He. apply H3.
Qed.

Lemma account_add R B f s s' i c :
  (∀ j, f (win_at s' j) = if decide (i = j) then Some c else f (win_at s j)) → f (win_at s i) = None → c ∉ R → account R B f s → account ({[c]} ∪ R) B f s'.
Proof.
  intros He Hi Hc [H1 H2 H3]. constructor.
  - intros d. rewrite elem_of_union, elem_of_singleton, H1. split.
    + intros [->|[Hb|[j Hj]]]; [right; exists i; by rewrite He, decide_True|by left|right; exists j]. rewrite He, decide_False; [done|]. congruence.
    + intros [Hb|[j Hj]]; [by right; left|]. rewrite He in Hj. destruct (decide (i = j)) as [->|]; [left; congruence|right; right; by exists j].
  - intros j k d. rewrite !He. destruct (decide (i = j)) as [->|], (decide (j = k)) as [->|]; try done.
    + intros [= <-] Hk. destruct Hc. rewrite H1. right. by exists k.
    + intros Hj Hk. destruct (decide (i = k)) as [->|] in Hk; [injection Hk as <-; destruct Hc; rewrite H1; right; by exists j|by apply (H2 j k d)].
  - intros j d. rewrite He. destruct (decide (i = j)) as [->|]; [|apply H3]. intros [= <-] Hb. apply Hc. rewrite H1. by left.
Qed.

Lemma account_remove R B f s s' i c :
  (∀ j, f (win_at s' j) = if decide (i = j) then None else f (win_at s j)) → f (win_at s i) = Some c → account R B f s → account (R ∖ {[c]}) B f s'.
Proof.
  intros He Hi [H1 H2 H3]. constructor.
  - intros d. rewrite elem_of_difference, elem_of_singleton, H1. split.
    + intros [[Hb|[j Hj]] Hd]; [by left|right; exists j]. rewrite He, decide_False; [done|]. intros ->. congruence.
    + intros [Hb|[j Hj]]; [split; [by left|]; intros ->; by apply (H3 i c)|]. rewrite He in Hj. destruct (decide (i = j)); [done|]. split; [right; by exists j|]. intros ->. by apply n, (H2 i j c).
  - intros j k d. rewrite !He. destruct (decide (i = j)), (decide (i = k)); try done. apply H2.
  - intros j d. rewrite He. destruct (decide (i = j)); [done|]. apply H3.
Qed.

(** ** Changes that keep the order *)

(** Changes outside the windows. *)
Lemma inv_same R M s s' : wins s' = wins s → zorder s' = zorder s → resizing s' = resizing s → inv' R M s → inv' R M s'.
Proof.
  intros E1 E2 E3 [[H1 H2 H3 H4 H5] HC HM]. assert (∀ i, win_at s' i = win_at s i) as He by (intros i; unfold win_at; by rewrite E1).
  constructor; [constructor; rewrite ?E1, ?E2, ?E3; try done|..].
  - intros i. rewrite He. apply H3.
  - intros i. rewrite He. apply H4.
  - intros i Hi. rewrite He. auto.
  - by apply (account_ext _ _ _ s); [intros j; rewrite He|].
  - by apply (account_ext _ _ _ s); [intros j; rewrite He|].
Qed.

(** A change to a window that is alive. *)
Lemma inv_update R M s i f :
  inv' R M s → alive (win_at s i) = true →
  (win_ok (win_at s i) → alive (f (win_at s i)) = true ∧ win_ok (f (win_at s i)) ∧
    chan_of (f (win_at s i)) = chan_of (win_at s i) ∧ surf (f (win_at s i)) = surf (win_at s i)) →
  inv' R M (update i f s).
Proof.
  intros [[H1 H2 H3 H4 H5] HC HM] Ha Hf. destruct (Hf (H4 i Ha)) as (F1 & F2 & F3 & F4). pose proof (alive_lt _ _ Ha) as Hi.
  assert (∀ j, alive (win_at (update i f s) j) = alive (win_at s j)) as Hal by (intros j; rewrite win_at_update by done; destruct (decide (i = j)) as [->|]; congruence).
  assert (∀ j, surf (win_at (update i f s) j) = surf (win_at s j)) as Hsf by (intros j; rewrite win_at_update by done; destruct (decide (i = j)) as [->|]; congruence).
  constructor; [constructor|..].
  - cbn. by rewrite length_insert.
  - done.
  - intros j. rewrite Hal. apply H3.
  - intros j Hj. rewrite Hal in Hj. rewrite win_at_update by done. destruct (decide (i = j)); [done|]. by apply H4.
  - intros j Hj. rewrite Hal, Hsf. by apply H5.
  - apply (account_ext _ _ _ s); [|done]. intros j. rewrite win_at_update by done. destruct (decide (i = j)) as [<-|]; done.
  - apply (account_ext _ _ _ s); [|done]. intros j. unfold surf_of. by rewrite Hal, Hsf.
Qed.

(** A quiet system call. *)
Lemma inv_sys {A} (c : ST K A) M s : (chans (c (kern s)).2 = chans (kern s) ∧ maps (c (kern s)).2 = maps (kern s)) → inv' (chans (kern s)) M s →
  inv' (chans (kern (sys c s).2)) M (sys c s).2 ∧ maps (kern (sys c s).2) = maps (kern s) ∧ wins (sys c s).2 = wins s.
Proof.
  intros [E1 E2] Hs. unfold sys. destruct (c (kern s)) as [r k]. cbn in *. split; [|done]. rewrite E1. by apply (inv_same _ _ s).
Qed.

Lemma zfind_alive s i : wm_ok s → alive (win_at s i) = true → ∃ z, zfind i s = Some z ∧ zorder s !! z = Some i ∧ zorder s = take z (zorder s) ++ i :: drop (z + 1) (zorder s).
Proof.
  intros Hs Ha. apply (ok_zorder _ Hs) in Ha. unfold zfind. destruct (list_find_elem_of (λ z, z = i) (zorder s) i Ha eq_refl) as [[z j] Hf]. rewrite Hf. exists z. split; [done|].
  apply list_find_Some in Hf as (Hz & -> & _). split; [done|]. rewrite Nat.add_1_r. symmetry. by apply take_drop_middle.
Qed.

Lemma raise_perm s i : wm_ok s → zorder (raise_win i s) ≡ₚ zorder s ∧ wins (raise_win i s) = wins s ∧ kern (raise_win i s) = kern s ∧ resizing (raise_win i s) = resizing s.
Proof.
  intros Hs. unfold raise_win. destruct (zfind i s) as [z|] eqn:E; [|done]. split_and!; try done. cbn. unfold zfind in E. destruct (list_find _ (zorder s)) as [[z' j]|] eqn:Ef; [|done]. injection E as ->.
  apply list_find_Some in Ef as (Hz & -> & _). transitivity (take z (zorder s) ++ i :: drop (z + 1) (zorder s)); [|rewrite Nat.add_1_r, take_drop_middle; done].
  apply Permutation_app_head. symmetry. apply Permutation_cons_append.
Qed.

Lemma inv_raise R M s i : inv' R M s → inv' R M (raise_win i s).
Proof.
  intros [Hok HC HM]. destruct (raise_perm s i Hok) as (Hp & Hw & Hk & Hr). destruct Hok as [H1 H2 H3 H4 H5].
  assert (∀ j, win_at (raise_win i s) j = win_at s j) as He by (intros j; unfold win_at; by rewrite Hw).
  constructor; [constructor|..].
  - by rewrite Hw.
  - by rewrite Hp.
  - intros j. rewrite Hp, He. apply H3.
  - intros j. rewrite He. apply H4.
  - intros j Hj. rewrite He. apply H5. congruence.
  - by apply (account_ext _ _ _ s); [intros j; rewrite He|].
  - by apply (account_ext _ _ _ s); [intros j; rewrite He|].
Qed.

(** Closing a window that holds a channel no more. *)
Lemma close_win_spec s i : wm_ok s → alive (win_at s i) = true →
  (∀ j, j ∈ zorder (close_win i s) ↔ j ∈ zorder s ∧ j ≠ i) ∧ NoDup (zorder (close_win i s)) ∧
  (∀ j, win_at (close_win i s) j = if decide (i = j) then set_alive false (win_at s i) else win_at s j) ∧
  length (wins (close_win i s)) = length (wins s) ∧ kern (close_win i s) = kern s ∧ resizing (close_win i s) = resizing s.
Proof.
  intros Hs Ha. destruct (zfind_alive s i Hs Ha) as (z & Hz & Hl & Hzo). unfold close_win. rewrite Hz. pose proof (ok_nodup _ Hs) as Hnd. rewrite Hzo in Hnd. cbn [zorder update set_wins set_zorder wins kern resizing].
  apply NoDup_app in Hnd as (N1 & N2 & N3). apply NoDup_cons in N3 as [N3 N4]. split_and!; try done.
  - intros j. rewrite Hzo at 3. rewrite !elem_of_app, elem_of_cons. split; [|set_solver]. intros [Hj|Hj].
    + split; [by left|]. intros ->. apply (N2 i Hj). by left.
    + split; [by right; right|]. intros ->. done.
  - apply NoDup_app. split_and!; try done. intros j Hj Hj'. apply (N2 j Hj). by right.
  - intros j. pose proof (alive_lt _ _ Ha). exact (win_at_insert (set_zorder (take z (zorder s) ++ drop (z + 1) (zorder s)) s) i (set_alive false (win_at s i)) j ltac:(done)).
  - cbn. by rewrite length_insert.
Qed.

Lemma wm_ok_close s i : wm_ok s → alive (win_at s i) = true → resizing s ≠ Some i → wm_ok (close_win i s).
Proof.
  intros Hs Ha Hr. destruct (close_win_spec s i Hs Ha) as (Z1 & Z2 & Z3 & Z4 & Z5 & Z6). pose proof Hs as [H1 H2 H3 H4 H5]. constructor.
  - congruence.
  - done.
  - intros j. rewrite Z1, Z3, H3. destruct (decide (i = j)) as [->|]; cbn; naive_solver.
  - intros j. rewrite Z3. destruct (decide (i = j)); [done|]. apply H4.
  - intros j Hj. rewrite Z6 in Hj. rewrite Z3, decide_False by congruence. by apply H5.
Qed.

(** The resource of the window that is closed goes with it. *)
Lemma account_close R B f s i : wm_ok s → alive (win_at s i) = true → f (set_alive false (win_at s i)) = None →
  account R B f s → account (match f (win_at s i) with Some c => R ∖ {[c]} | None => R end) B f (close_win i s).
Proof.
  intros Hs Ha Hf Hac. destruct (close_win_spec s i Hs Ha) as (_ & _ & Z3 & _). destruct (f (win_at s i)) as [c|] eqn:E.
  - apply (account_remove _ _ _ s _ i); [|done|done]. intros j. rewrite Z3. by destruct (decide (i = j)) as [->|].
  - apply (account_ext _ _ _ s); [|done]. intros j. rewrite Z3. destruct (decide (i = j)) as [->|]; congruence.
Qed.

Lemma inv_close R M s i : inv' R M s → alive (win_at s i) = true → resizing s ≠ Some i → chan_of (win_at s i) = None → surf (win_at s i) < 0 → inv' R M (close_win i s).
Proof.
  intros [Hok HC HM] Ha Hr Hc Hf. constructor; [by apply wm_ok_close|..].
  - pose proof (account_close R base chan_of s i Hok Ha eq_refl HC) as Hx. by rewrite Hc in Hx.
  - pose proof (account_close M ∅ surf_of s i Hok Ha eq_refl HM) as Hx. unfold surf_of in Hx at 1. destruct (Z.geb_spec (surf (win_at s i)) 0); [lia|]. by rewrite andb_false_r in Hx.
Qed.
End wm.
End WmSpec.

(** * Every operation keeps the desktop in order *)

Module WmInv.
Import Shell Gfx Wm WmSpec.

Lemma digits_length n u tmp : (length (digits n u tmp) ≤ n + length tmp)%nat.
Proof. revert u tmp. induction n as [|n IH]; intros u tmp; cbn; [done|]. case_if; [cbn; lia|]. specialize (IH (u / 10) ((48 + u mod 10) :: tmp)). cbn in IH. lia. Qed.

Lemma fmt_int_length v : zlength (fmt_int v) ≤ 13.
Proof. unfold fmt_int, zlength. pose proof (digits_length 12 (u32 (- v)) []). pose proof (digits_length 12 v []). cbn [length] in *. case_if; cbn [length]; lia. Qed.

(** ** Terminals *)

Lemma blank_row_ok : length blank_row = Z.to_nat TCOLS ∧ Forall printable blank_row.
Proof. split; [done|]. apply Forall_replicate. unfold printable. lia. Qed.

Lemma term_clear_ok a : term_ok (term_clear a).
Proof. constructor; cbn [grid trow tcol term_clear set_grid]; [done|apply Forall_replicate, blank_row_ok|unfold TROWS; lia|unfold TCOLS; lia]. Qed.

Lemma term_newline_ok a : length (grid a) = Z.to_nat TROWS → Forall (λ r, length r = Z.to_nat TCOLS ∧ Forall printable r) (grid a) → 0 ≤ trow a < TROWS → term_ok (term_newline a).
Proof.
  intros H1 H2 H3. unfold term_newline. cbv zeta. cbn [trow set_grid grid]. destruct (Z.eqb_spec (trow a + 1) TROWS) as [E|E].
  - unfold term_scroll. constructor; cbn [grid trow tcol set_grid]; [|..|unfold TROWS; lia|unfold TCOLS; lia].
    + destruct (grid a) as [|r l]; [done|]. cbn [tail length] in *. rewrite length_app. cbn. lia.
    + apply Forall_app. split; [|by apply Forall_singleton, blank_row_ok]. destruct (grid a); [done|]. by apply Forall_cons in H2 as [_ ?].
  - constructor; cbn [grid trow tcol set_grid]; try done; unfold TCOLS; lia.
Qed.

Lemma term_char_ok c a : term_ok a → term_ok (term_char c a).
Proof.
  intros [H1 H2 H3 H4]. unfold term_char. destruct (c =? 10); [by apply term_newline_ok|]. destruct (c =? 13); [constructor; try done; cbn; unfold TCOLS; lia|].
  destruct (c =? 8); [case_if; constructor; try done; cbn; unfold TCOLS in *; lia|]. destruct (c =? 12); [apply term_clear_ok|].
  destruct ((c >=? 32) && (c <? 127)) eqn:Ec; [|done]. boolp. cbv zeta. cbn [tcol set_grid term_put grid trow].
  set (g := <[Z.to_nat (trow a) := _]> (grid a)). assert (length g = Z.to_nat TROWS ∧ Forall (λ r, length r = Z.to_nat TCOLS ∧ Forall printable r) g) as [G1 G2].
  { unfold g. rewrite length_insert. split; [done|]. apply Forall_insert; [done|]. destruct (lookup_lt_is_Some_2 (grid a) (Z.to_nat (trow a))) as [r Hr]; [unfold TROWS in *; lia|]. rewrite Hr. cbn.
    rewrite Forall_lookup in H2. destruct (H2 _ _ Hr) as [R1 R2]. unfold bset. rewrite length_insert. split; [done|]. apply Forall_insert; [done|]. unfold printable. lia. }
  clearbody g. destruct (Z.eqb_spec (tcol a + 1) TCOLS).
  - by apply (term_newline_ok (set_grid g (trow a) (tcol a + 1) (set_grid g (trow a) (tcol a) a))).
  - constructor; cbn; try done. lia.
Qed.

(** What term_char() leaves alone. *)
Definition same_frame (a b : win) : Prop :=
  alive b = alive a ∧ min b = min a ∧ x b = x a ∧ y b = y a ∧ w b = w a ∧ h b = h a ∧ title b = title a ∧ text_ b = text_ a ∧
  term b = term a ∧ cid b = cid a ∧ surf b = surf a ∧ spix b = spix a ∧ sw b = sw a ∧ sh b = sh a.

Lemma term_char_frame c a : same_frame a (term_char c a).
Proof. unfold term_char, term_newline, term_scroll. repeat case_if; done. Qed.

Lemma term_feed_ok buf a : same_frame a (term_feed buf a) ∧ (term_ok a → term_ok (term_feed buf a)).
Proof.
  unfold term_feed. revert a. induction buf as [|c buf IH]; intros a; cbn; [done|]. destruct (IH (term_char c a)) as [I1 I2]. pose proof (term_char_frame c a) as If. split.
  - unfold same_frame in *. intuition congruence.
  - intros Ht. by apply I2, term_char_ok.
Qed.

Section wm.
Context {K : Type} `{DeskOk K}.
Context (scr_w scr_h : Z) (Hscr_w : 1024 ≤ scr_w) (Hscr_h : 768 ≤ scr_h).
Context (base : gset Z).
Implicit Types (s : wm K) (a : win) (i j : nat).
Notation win_ok := (win_ok scr_w scr_h).
Notation inv' := (inv' scr_w scr_h base).
Notation inv := (inv scr_w scr_h base).
Notation wm_ok := (wm_ok scr_w scr_h).

(** A window with the same frame. *)
Lemma same_frame_ok a b : same_frame a b → (term_ok a → term_ok b) → win_ok a → win_ok b ∧ chan_of b = chan_of a.
Proof.
  intros (E1 & E2 & E3 & E4 & E5 & E6 & E7 & E8 & E9 & E10 & E11 & E12 & E13 & E14) Ht [W1 W2 W3 W4 W5 W6 W7 W8]. split; [|unfold chan_of; by rewrite E1, E9, E10].
  constructor; rewrite ?E3, ?E4, ?E5, ?E6, ?E7, ?E8, ?E9, ?E11, ?E12, ?E13, ?E14; auto.
Qed.

(** What is not about windows. *)
Definition keeps s s' : Prop := resizing s' = resizing s ∧ prev_btn s' = prev_btn s.

Lemma keeps_refl s : keeps s s.
Proof. done. Qed.

Lemma keeps_trans s1 s2 s3 : keeps s1 s2 → keeps s2 s3 → keeps s1 s3.
Proof. unfold keeps. intuition congruence. Qed.

Lemma sys_keeps {A} (c : ST K A) s : keeps s (sys c s).2 ∧ wins (sys c s).2 = wins s.
Proof. unfold sys. by destruct (c (kern s)). Qed.

Lemma raise_keeps i s : keeps s (raise_win i s).
Proof. unfold raise_win. by destruct (zfind i s). Qed.

Lemma close_keeps i s : keeps s (close_win i s).
Proof. unfold close_win. by destruct (zfind i s). Qed.

Lemma win_at_wins s s' i : wins s' = wins s → win_at s' i = win_at s i.
Proof. intros E. unfold win_at. by rewrite E. Qed.

(** ** New windows *)

Record spawned R M s (slot : nat) s' : Prop := {
  sp_inv : inv' R M s';
  sp_alive : alive (win_at s' slot) = true;
  sp_term : term (win_at s' slot) = false;
  sp_surf : surf (win_at s' slot) = -1;
  sp_kern : kern s' = kern s;
  sp_keeps : keeps s s';
  sp_new : resizing s' ≠ Some slot;
  sp_other j : j ≠ slot → win_at s' j = win_at s j;
}.

Lemma spawn_ok R M t s : inv' R M s → let '(o, s') := spawn t s in match o with Some slot => spawned R M s slot s' | None => s' = s end.
Proof.
  intros [Hok HC HM]. unfold spawn. destruct (list_find _ (wins s)) as [[slot a]|] eqn:Ef; [|done]. apply list_find_Some in Ef as (Hl & Ha & _).
  destruct (match t with Some t => _ | None => _ end) as [tt n] eqn:Et. cbv zeta.
  set (b := mk_win true false _ _ _ _ _ _ _ _ _ _ _ _ _ _ _ _ _ _). pose proof (lookup_lt_Some _ _ _ Hl) as Hlt. pose proof Hok as [H1 H2 H3 H4 H5]. rewrite H1 in Hlt.
  assert (win_at s slot = a) as Hat by (unfold win_at; by rewrite Hl).
  set (s' := set_next_no n _). assert (∀ j, win_at s' j = if decide (slot = j) then b else win_at s j) as Hw.
  { intros j. apply (win_at_insert s slot b j). rewrite H1. done. }
  assert (zlength tt < TITLE_CAP) as Htt.
  { destruct t as [t|]; [assert (tt = scopy t TITLE_CAP) as -> by congruence; by apply BrowserNavSpec.scopy_length|].
    assert (tt = txt "window " ++ fmt_int (next_no s)) as -> by congruence. rewrite zlength_app. change (zlength (txt "window ")) with 7. pose proof (fmt_int_length (next_no s)). unfold TITLE_CAP. lia. }
  assert (slot ∉ zorder s) as Hnz by (rewrite H3, Hat, Ha; done).
  assert (win_ok b) as Hb.
  { unfold MAXWIN in Hlt. assert (0 ≤ Z.of_nat slot < 8) as Hi by lia. constructor; cbn; try done; unfold TASKBAR_H, MIN_W, MIN_H; try lia. }
  assert (resizing s' ≠ Some slot) as Hnr by (intros Hr; destruct (H5 slot Hr) as [Hr' _]; rewrite Hat, Ha in Hr'; done).
  constructor; rewrite ?Hw, ?decide_True by done; try done; [|intros j Hj; by rewrite Hw, decide_False by done].
  constructor; [constructor|..].
  - cbn. by rewrite length_insert.
  - cbn. apply NoDup_app. split_and!; [done| |apply NoDup_singleton]. intros j Hj Hj'%list_elem_of_singleton. by subst.
  - intros j. cbn [zorder s' set_next_no set_zorder]. rewrite elem_of_app, list_elem_of_singleton, H3, Hw. destruct (decide (slot = j)) as [->|]; [split; [done|by right]|]. split; [intros [?|?]; [done|congruence]|by left].
  - intros j. rewrite Hw. destruct (decide (slot = j)); [done|]. apply H4.
  - intros j Hj. rewrite Hw. destruct (decide (slot = j)) as [->|]; [done|]. by apply H5.
  - apply (account_ext _ _ _ s); [|done]. intros j. rewrite Hw. destruct (decide (slot = j)) as [<-|]; [|done]. rewrite Hat. unfold chan_of. by rewrite Ha.
  - apply (account_ext _ _ _ s); [|done]. intros j. rewrite Hw. destruct (decide (slot = j)) as [<-|]; [|done]. rewrite Hat. unfold surf_of. by rewrite Ha.
Qed.

(** [set_spix] and the like on a window without a surface. *)
Lemma inv_frame R M s i f : inv' R M s → alive (win_at s i) = true → (same_frame (win_at s i) (f (win_at s i)) ∧ (term_ok (win_at s i) → term_ok (f (win_at s i)))) → inv' R M (update i f s).
Proof.
  intros Hs Ha [Hf Ht]. apply inv_update; [done|done|]. intros Hw. destruct (same_frame_ok _ _ Hf Ht Hw) as [F1 F2]. unfold same_frame in Hf. intuition congruence.
Qed.

Lemma update_keeps i f s : keeps s (update i f s).
Proof. done. Qed.

Lemma spawn_terminal_ok s : inv s → inv (spawn_terminal s) ∧ keeps s (spawn_terminal s).
Proof.
  intros Hs. unfold spawn_terminal. pose proof (spawn_ok _ _ (Some (txt "terminal")) s Hs) as Hsp. destruct (spawn (Some (txt "terminal")) s) as [[slot|] s1]; [|by subst s1].
  destruct Hsp as [S1 S2 S3 S4 S5 S6 S7 S8]. set (s2 := update slot term_clear s1).
  assert (inv' (chans (kern s)) (maps (kern s)) s2) as I2.
  { apply inv_update; [done|done|]. intros [W1 W2 W3 W4 W5 W6 W7 W8]. split_and!; try done. constructor; try done. intros _. apply term_clear_ok. }
  pose proof (alive_lt _ _ S2) as Hlt. assert (win_at s2 slot = term_clear (win_at s1 slot)) as Hat2 by (unfold s2; by rewrite win_at_update, decide_True by done).
  unfold sys. pose proof (ok_execc (txt "sh") (kern s2)) as Hx. destruct (execc (txt "sh") (kern s2)) as [c k]. destruct Hx as [Hm Hx].
  change (kern s2) with (kern s1) in *. rewrite S5 in Hx, Hm.
  set (s3 := update slot (set_cid c) (set_kern k s2)). assert (inv' (chans (kern s)) (maps (kern s)) (set_kern k s2)) as I2' by (by apply (inv_same _ _ _ _ _ s2)).
  assert (alive (win_at (set_kern k s2) slot) = true) as Ha2 by (change (win_at (set_kern k s2) slot) with (win_at s2 slot); by rewrite Hat2).
  assert (win_at (set_kern k s2) slot = term_clear (win_at s1 slot)) as Hat2' by exact Hat2.
  assert (inv' (chans (kern s)) (maps (kern s)) s3) as I3.
  { apply inv_update; [done|done|]. rewrite Hat2'. intros [W1 W2 W3 W4 W5 W6 W7 W8]. split_and!; [done|constructor; try done; intros Ht; by destruct (W8 Ht)| |done].
    unfold chan_of. cbn. by rewrite S3, !andb_false_r. }
  pose proof (alive_lt _ _ Ha2) as Hlt2. assert (win_at s3 slot = set_cid c (term_clear (win_at s1 slot))) as Hat3 by (unfold s3; rewrite win_at_update, decide_True by done; by rewrite Hat2').
  assert (keeps s s3) as Hk3 by (eapply keeps_trans; [exact S6|done]).
  assert (alive (win_at s3 slot) = true) as Ha3 by (by rewrite Hat3). destruct (Z.ltb_spec c 0) as [Hc|Hc].
  - destruct Hx as [[_ Hx]|[? _]]; [|lia]. split; [|eapply keeps_trans; [exact Hk3|apply close_keeps]].
    unfold WmSpec.inv. destruct (close_win_spec scr_w scr_h s3 slot (in_ok _ _ _ _ _ _ I3) Ha3) as (_ & _ & _ & _ & Z5 & _). rewrite Z5. change (kern s3) with k. rewrite Hx, Hm. apply inv_close; [done|done| | |].
    + change (resizing s3) with (resizing s1). done.
    + rewrite Hat3. unfold chan_of. cbn. by rewrite S3, andb_false_r.
    + rewrite Hat3. cbn. lia.
  - destruct Hx as [[? _]|(_ & Hnew & Hx)]; [lia|]. split; [|done]. unfold WmSpec.inv. change (kern (update slot (set_term true) s3)) with k. rewrite Hx, Hm.
    pose proof (alive_lt _ _ Ha3) as Hlt3. assert (∀ j, win_at (update slot (set_term true) s3) j = if decide (slot = j) then set_term true (win_at s3 slot) else win_at s3 j) as Hw by (intros j; by apply win_at_update).
    destruct I3 as [[H1 H2 H3 H4 H5] HC HM]. constructor; [constructor|..].
    + cbn. by rewrite length_insert.
    + done.
    + intros j. rewrite Hw. destruct (decide (slot = j)) as [<-|]; [|apply H3]. change (zorder (update slot (set_term true) s3)) with (zorder s3). rewrite H3, Ha3. done.
    + intros j. rewrite Hw. destruct (decide (slot = j)) as [<-|]; [|apply H4]. intros _. destruct (H4 slot Ha3) as [W1 W2 W3 W4 W5 W6 W7 W8]. constructor; try done; [rewrite Hat3; cbn; lia|]. intros _. rewrite Hat3. destruct (term_clear_ok (win_at s1 slot)). done.
    + intros j Hj. rewrite Hw. destruct (decide (slot = j)) as [<-|]; [|by apply H5]. destruct (H5 slot Hj) as [? ?]. done.
    + apply (account_add _ _ _ s3 _ slot).
      * intros j. rewrite Hw. destruct (decide (slot = j)) as [<-|]; [|done]. rewrite Hat3. unfold chan_of. cbn. rewrite S2, (proj2 (Z.geb_ge _ _)) by lia. done.
      * rewrite Hat3. unfold chan_of. cbn. by rewrite S3, andb_false_r.
      * done.
      * done.
    + apply (account_ext _ _ _ s3); [|done]. intros j. rewrite Hw. by destruct (decide (slot = j)) as [<-|].
Qed.

Lemma put_ok t s : inv s → inv (put t s) ∧ keeps s (put t s).
Proof. intros Hs. split; [|done]. by apply (inv_same _ _ _ _ _ s). Qed.

Lemma close_terminal_ok i M s : inv' (chans (kern s)) M s → alive (win_at s i) = true → term (win_at s i) = true →
  inv' (chans (kern (close_terminal i s))) M (close_terminal i s) ∧ maps (kern (close_terminal i s)) = maps (kern s) ∧
  keeps s (close_terminal i s) ∧ alive (win_at (close_terminal i s) i) = true ∧ chan_of (win_at (close_terminal i s) i) = None ∧
  surf (win_at (close_terminal i s) i) = surf (win_at s i) ∧ (∀ j, j ≠ i → win_at (close_terminal i s) j = win_at s j).
Proof.
  intros Hs Ha Ht. unfold close_terminal. destruct (Z.ltb_spec (cid (win_at s i)) 0) as [Hc|Hc].
  { split_and!; try done. unfold chan_of. destruct (Z.geb_spec (cid (win_at s i)) 0); [lia|]. by rewrite andb_false_r. }
  set (c := cid (win_at s i)) in *.
  pose proof (inv_sys scr_w scr_h base (cwrite c (txt "exit" ++ [10])) M s (quiet_cwrite _ _ _) Hs) as Q1. pose proof (sys_keeps (cwrite c (txt "exit" ++ [10])) s) as K1.
  destruct (sys (cwrite c (txt "exit" ++ [10])) s) as [r1 s1]. cbn [snd] in Q1, K1. destruct Q1 as (I1 & M1 & W1), K1 as [K1 _].
  pose proof (inv_sys scr_w scr_h base (cstat c) M s1 (quiet_cstat _ _) I1) as Q2. pose proof (sys_keeps (cstat c) s1) as K2.
  destruct (sys (cstat c) s1) as [pid s2]. cbn [snd] in Q2, K2. destruct Q2 as (I2 & M2 & W2), K2 as [K2 _].
  assert (∃ s3, (if pid >? 0 then let '(_, s) := sys (kill pid) s2 in put [txt "wm: killed pid "; fmt_int pid] s else s2) = s3 ∧
    inv' (chans (kern s3)) M s3 ∧ maps (kern s3) = maps (kern s) ∧ wins s3 = wins s ∧ keeps s s3) as (s3 & -> & I3 & M3 & W3 & K3).
  { eexists. split; [done|]. case_if; [|split_and!; [done|congruence|congruence|eapply keeps_trans; done]].
    pose proof (inv_sys scr_w scr_h base (kill pid) M s2 (quiet_kill _ _) I2) as Q3. pose proof (sys_keeps (kill pid) s2) as K3. destruct (sys (kill pid) s2) as [r3 s3]. cbn [snd] in Q3, K3. destruct Q3 as (I3 & M3 & W3), K3 as [K3 _].
    split_and!; [by apply (inv_same _ _ _ _ _ s3)|cbn; congruence|cbn; congruence|]. eapply keeps_trans; [exact K1|]. eapply keeps_trans; [exact K2|exact K3]. }
  unfold sys. pose proof (ok_cclose c (kern s3)) as [C1 C2]. destruct (cclose c (kern s3)) as [r4 k]. cbn [snd] in C1, C2.
  set (s4 := set_kern k s3). assert (∀ j, win_at s4 j = win_at s j) as Hw4 by (intros j; by apply win_at_wins).
  assert (alive (win_at s4 i) = true) as Ha4 by (by rewrite Hw4). pose proof (alive_lt _ _ Ha4) as Hlt.
  set (s5 := update i (set_cid (-1)) s4). assert (∀ j, win_at s5 j = if decide (i = j) then set_cid (-1) (win_at s4 i) else win_at s4 j) as Hw by (intros j; by apply win_at_update).
  assert (chan_of (win_at s5 i) = None) as Hn by (rewrite Hw, decide_True by done; unfold chan_of; cbn; by rewrite andb_false_r).
  split_and!; try done.
  - change (kern s5) with k. rewrite C1. destruct I3 as [[H1 H2 H3 H4 H5] HC HM].
    assert (∀ j, win_at s3 j = win_at s j) as Hw3 by (intros j; by apply win_at_wins). assert (∀ j, win_at s4 j = win_at s3 j) as Hw43 by (intros j; by rewrite Hw4, Hw3).
    constructor; [constructor|..].
    + cbn. by rewrite length_insert.
    + done.
    + intros j. change (zorder s5) with (zorder s3). rewrite H3, Hw. destruct (decide (i = j)) as [<-|]; by rewrite Hw43.
    + intros j. rewrite Hw. destruct (decide (i = j)) as [<-|]; rewrite Hw43; [|apply H4]. cbn. intros Hj. destruct (H4 i Hj) as [V1 V2 V3 V4 V5 V6 V7 V8]. constructor; try done. intros Htt. by destruct (V8 Htt).
    + intros j Hj. rewrite Hw. destruct (decide (i = j)) as [<-|]; rewrite Hw43; [cbn|]; by apply H5.
    + apply (account_remove _ _ _ s3 _ i).
      * intros j. rewrite Hw. destruct (decide (i = j)) as [<-|]; [unfold chan_of; cbn; by rewrite andb_false_r|by rewrite Hw43].
      * rewrite Hw3. unfold chan_of. rewrite Ha, Ht, (proj2 (Z.geb_ge _ _)) by lia. done.
      * done.
    + apply (account_ext _ _ _ s3); [|done]. intros j. rewrite Hw. destruct (decide (i = j)) as [<-|]; by rewrite Hw43.
  - change (kern s5) with k. congruence.
  - rewrite Hw, decide_True by done. done.
  - rewrite Hw, decide_True by done. cbn. by rewrite Hw4.
  - intros j Hj. rewrite Hw, decide_False by done. apply Hw4.
Qed.
End wm.
End WmInv.
