(* ===== verification/WmTheorems.v ===== *)
(** * Rounds of the window manager *)

From Stdlib Require Import String.
From S2P Require Import Prelude Shell Browser Gfx BrowserUrl BrowserNav Wm.

Module WmTheorems.
Import Shell Gfx Wm WmSpec WmInv.

Section wm.
Context {K : Type} `{DeskOk K}.
Context (scr_w scr_h : Z) (Hscr_w : 1024 ≤ scr_w) (Hscr_h : 768 ≤ scr_h).
Context (base : gset Z).
Implicit Types (s : wm K) (a : win) (i j : nat) (m : mouse_state).
Notation win_ok := (win_ok scr_w scr_h).
Notation inv' := (inv' scr_w scr_h base).
Notation inv := (inv scr_w scr_h base).
Notation wm_ok := (wm_ok scr_w scr_h).

(** In order, and with the same window being resized. *)
Definition good s s' : Prop := inv s' ∧ keeps s s'.

Lemma good_trans s1 s2 s3 : good s1 s2 → good s2 s3 → good s1 s3.
Proof. intros [_ H1] [H2 H3]. split; [done|]. by eapply keeps_trans. Qed.

Lemma good_sys {A} (c : ST K A) s : (chans (c (kern s)).2 = chans (kern s) ∧ maps (c (kern s)).2 = maps (kern s)) → inv s → good s (sys c s).2 ∧ wins (sys c s).2 = wins s.
Proof.
  intros Hq Hs. destruct (inv_sys scr_w scr_h base c (maps (kern s)) s Hq Hs) as (I1 & M1 & W1). destruct (sys_keeps c s) as [K1 _]. split; [|done]. split; [|done].
  unfold WmSpec.inv. by rewrite M1.
Qed.

Lemma good_update s i f : inv s → alive (win_at s i) = true →
  (win_ok (win_at s i) → alive (f (win_at s i)) = true ∧ win_ok (f (win_at s i)) ∧ chan_of (f (win_at s i)) = chan_of (win_at s i) ∧ surf (f (win_at s i)) = surf (win_at s i)) →
  good s (update i f s).
Proof. intros Hs Ha Hf. split; [|done]. by apply inv_update. Qed.

Lemma good_frame s i f : inv s → alive (win_at s i) = true → same_frame (win_at s i) (f (win_at s i)) → (term_ok (win_at s i) → term_ok (f (win_at s i))) → good s (update i f s).
Proof. intros Hs Ha Hf Ht. split; [|done]. by apply inv_frame. Qed.

Lemma good_raise s i : inv s → good s (raise_win i s).
Proof.
  intros Hs. split; [|apply raise_keeps]. unfold WmSpec.inv. destruct (raise_perm scr_w scr_h s i (in_ok _ _ _ _ _ _ Hs)) as (_ & _ & -> & _). by apply inv_raise.
Qed.

Lemma set_min_good b s i : inv s → alive (win_at s i) = true → good s (update i (set_min b) s).
Proof. intros Hs Ha. apply good_update; [done|done|]. intros [W1 W2 W3 W4 W5 W6 W7 W8]. split_and!; try done. constructor; try done. intros Ht. by destruct (W8 Ht). Qed.

Lemma set_text_good t s i : zlength t < TEXT_CAP → inv s → alive (win_at s i) = true → good s (update i (set_text t) s).
Proof. intros Hl Hs Ha. apply good_update; [done|done|]. intros [W1 W2 W3 W4 W5 W6 W7 W8]. split_and!; try done. constructor; try done. intros Ht. by destruct (W8 Ht). Qed.

Lemma good_put t s s' : good s s' → good s (put t s').
Proof. intros [H1 H2]. destruct (put_ok scr_w scr_h base t s' H1) as [P1 P2]. split; [done|]. by eapply keeps_trans. Qed.

(** The windows found are alive. *)
Lemma last_filter_in {P : nat → Prop} `{∀ i, Decision (P i)} l i : last (filter P l) = Some i → i ∈ l ∧ P i.
Proof. intros Hl. apply last_Some_elem_of, list_elem_of_filter in Hl as [? ?]. done. Qed.

Lemma topmost_alive s t : inv s → topmost s = Some t → alive (win_at s t) = true.
Proof. intros Hs Ht. apply last_filter_in in Ht as [Ht _]. by apply (ok_zorder _ _ _ (in_ok _ _ _ _ _ _ Hs)). Qed.

Lemma key_good c s : inv s → good s (key c s).
Proof.
  intros Hs. unfold key. destruct (topmost s) as [t|] eqn:Et; [|done]. pose proof (topmost_alive s t Hs Et) as Ha. pose proof (ok_win _ _ _ (in_ok _ _ _ _ _ _ Hs) t Ha) as Hw.
  case_if; [apply good_sys; [apply quiet_wsend|done]|]. destruct (term (win_at s t)); [apply good_sys; [apply quiet_cwrite|done]|].
  pose proof (wo_text _ _ _ Hw) as Hl. case_if.
  - destruct (text_ (win_at s t)) as [|d u] eqn:Eu; [done|]. apply set_text_good; [|done|done]. pose proof (BrowserNavSpec.removelast_length (d :: u)). lia.
  - case_if; [|done]. apply set_text_good; [|done|done]. rewrite zlength_app. change (zlength [c]) with 1. lia.
Qed.

Lemma keys_good l s : inv s → good s (keys l s).2.
Proof.
  revert s. induction l as [|c l IH]; intros s Hs; cbn; [done|]. case_if; [done|]. pose proof (key_good c s Hs) as [I1 K1]. eapply good_trans; [split; done|]. by apply IH.
Qed.

Lemma spawn_good t s : inv s → good s (spawn t s).2.
Proof.
  intros Hs. pose proof (spawn_ok scr_w scr_h Hscr_w Hscr_h base _ _ t s Hs) as Hsp. destruct (spawn t s) as [[slot|] s']; cbn; [|by subst s'].
  destruct Hsp as [S1 S2 S3 S4 S5 S6 S7 S8]. split; [|done]. unfold WmSpec.inv. by rewrite S5.
Qed.

Lemma spawn_about_good s : inv s → good s (spawn_about scr_w scr_h s).
Proof.
  intros Hs. unfold spawn_about. pose proof (spawn_ok scr_w scr_h Hscr_w Hscr_h base _ _ (Some (txt "about")) s Hs) as Hsp. destruct (spawn (Some (txt "about")) s) as [[slot|] s']; [|by subst s']. cbv zeta.
  destruct Hsp as [S1 S2 S3 S4 S5 S6 S7 S8]. apply (good_trans _ s'); [split; [|done]; unfold WmSpec.inv; by rewrite S5|]. apply set_text_good; [|unfold WmSpec.inv; by rewrite S5|done].
  change (scopy (txt "NOS ") TEXT_CAP) with (txt "NOS "). set (t := txt "NOS " ++ fmt_int scr_w ++ [120] ++ fmt_int scr_h).
  assert (zlength t ≤ 31) as Ht. { unfold t. rewrite !zlength_app. change (zlength (txt "NOS ")) with 4. change (zlength [120]) with 1. pose proof (fmt_int_length scr_w). pose proof (fmt_int_length scr_h). lia. }
  clearbody t. rewrite zlength_app. unfold TEXT_CAP. pose proof (BrowserNavSpec.scopy_length (txt " 32bpp") (40 - zlength t) ltac:(lia)). lia.
Qed.

Lemma set_menu_good b s : inv s → good s (set_menu b s).
Proof. intros Hs. split; [|done]. by apply (inv_same _ _ _ _ _ s). Qed.

Lemma press_menu_good m s : inv s → good s (press_menu scr_w scr_h m s).
Proof.
  intros Hs. unfold press_menu. cbv zeta. set (s1 := if _ : bool then _ else s). assert (good s s1) as [H1 H2].
  { unfold s1. repeat case_if; try done; [by apply spawn_terminal_ok|apply good_sys; [apply quiet_exec|done]|by apply spawn_good|by apply spawn_about_good]. }
  eapply good_trans; [split; done|]. by apply set_menu_good.
Qed.

Lemma taskbar_entry_alive l i k px wi : taskbar_entry l i k px = Some wi → ∃ a, l !! (wi - i)%nat = Some a ∧ alive a = true ∧ (i ≤ wi)%nat.
Proof.
  revert i k. induction l as [|a l IH]; intros i k; cbn; [done|]. destruct (alive a) eqn:E; cbn [negb].
  - case_if; [intros [= <-]; exists a; rewrite Nat.sub_diag; done|]. intros (b & H1 & H2 & H3)%IH. exists b. replace (wi - i)%nat with (S (wi - S i))%nat by lia. split_and!; [done|done|lia].
  - intros (b & H1 & H2 & H3)%IH. exists b. replace (wi - i)%nat with (S (wi - S i))%nat by lia. split_and!; [done|done|lia].
Qed.

Lemma press_taskbar_good m s : inv s → good s (press_taskbar m s).
Proof.
  intros Hs. unfold press_taskbar. case_if; [by apply set_menu_good|]. destruct (taskbar_entry _ _ _ _) as [wi|] eqn:Et; [|done].
  apply taskbar_entry_alive in Et as (a & Hl & Ha & _). rewrite Nat.sub_0_r in Hl. assert (alive (win_at s wi) = true) as Hal by (unfold win_at; by rewrite Hl).
  unfold press_entry. destruct (min (win_at s wi)).
  - pose proof (set_min_good false s wi Hs Hal) as [H1 H2]. eapply good_trans; [split; done|]. by apply good_raise.
  - case_bool_decide; [by apply set_min_good|by apply good_raise].
Qed.

(** In order after a press, with the button as it was. *)
Definition pressed s s' : Prop := inv s' ∧ prev_btn s' = prev_btn s.

Lemma good_pressed s s' : good s s' → pressed s s'.
Proof. by intros [H1 [_ H2]]. Qed.

Lemma press_window_ok m wi s : inv s → alive (win_at s wi) = true → resizing s = None → pressed s (press_window m wi s).
Proof.
  intros Hs Ha Hr. unfold press_window. cbv zeta. repeat case_if.
  - apply good_pressed, good_sys; [apply quiet_wsend|done].
  - assert (surf (win_at s wi) < 0) as Hf by lia. assert (term (win_at s wi) = true) as Et by done.
    destruct (close_terminal_ok scr_w scr_h base wi _ s Hs Ha Et) as (C1 & C2 & C3 & C4 & C5 & C6 & C7). set (s1 := close_terminal wi s) in *. clearbody s1. destruct C3 as [C3 C3'].
      split; [|by destruct (close_keeps wi s1) as [_ ->]]. unfold WmSpec.inv. destruct (close_win_spec scr_w scr_h s1 wi (in_ok _ _ _ _ _ _ C1) C4) as (_ & _ & _ & _ & -> & _). rewrite C2. apply inv_close; try done; [congruence|lia].
  - assert (surf (win_at s wi) < 0) as Hf by lia. assert (term (win_at s wi) = false) as Et by done.
    split; [|by destruct (close_keeps wi s) as [_ ->]]. unfold WmSpec.inv. destruct (close_win_spec scr_w scr_h s wi (in_ok _ _ _ _ _ _ Hs) Ha) as (_ & _ & _ & _ & -> & _). apply inv_close; try done; [congruence|]. unfold chan_of. by rewrite Et, andb_false_r.
  - apply good_pressed. pose proof (set_min_good true s wi Hs Ha) as [J1 J2]. eapply good_trans; [split; done|]. by apply good_raise.
  - assert (inv (set_drag (Some wi) (mx m - x (win_at s wi)) (my m - y (win_at s wi)) s)) as J1 by (by apply (inv_same _ _ _ _ _ s)). exact (good_pressed _ _ (good_raise _ wi J1)).
  - assert (inv (set_resize (Some wi) (x (win_at s wi) + w (win_at s wi) - mx m) (y (win_at s wi) + h (win_at s wi) - my m) s)) as J1.
    { destruct Hs as [[J1 J2 J3 J4 J5] HC HM]. constructor; [constructor; try done|by apply (account_ext _ _ _ s)|by apply (account_ext _ _ _ s)]. cbn [resizing set_resize]. intros i Hi. injection Hi as <-. split; [exact Ha|]. change (surf (win_at s wi) < 0). lia. }
    exact (good_pressed _ _ (good_raise _ wi J1)).
  - by apply good_pressed, good_raise.
Qed.

Lemma press_ok m s : inv s → resizing s = None → pressed s (press scr_w scr_h m s).
Proof.
  intros Hs Hr. unfold press. destruct (menu_open s); [by apply good_pressed, press_menu_good|]. case_if; [by apply good_pressed, press_taskbar_good|].
  destruct (window_under m s) as [wi|] eqn:Eu; [|done]. apply last_filter_in in Eu as [Eu _]. apply press_window_ok; [done|by apply (ok_zorder _ _ _ (in_ok _ _ _ _ _ _ Hs))|done].
Qed.

Lemma clamp_drag_ok m ox oy a : win_ok a → win_ok (clamp_drag scr_w scr_h m ox oy a).
Proof.
  intros [W1 W2 W3 W4 W5 W6 W7 W8]. unfold clamp_drag. constructor; cbn; try done; [repeat case_if; lia|repeat case_if; lia|]. intros Ht. by destruct (W8 Ht).
Qed.

Lemma clamp_resize_ok m ox oy a : surf a < 0 → win_ok a → win_ok (clamp_resize scr_w scr_h m ox oy a).
Proof.
  intros Hf [W1 W2 W3 W4 W5 W6 W7 W8]. destruct (W6 Hf) as [M1 M2]. unfold clamp_resize. constructor; cbn; try done.
  - repeat case_if; lia.
  - repeat case_if; lia.
  - intros _. repeat case_if; lia.
  - lia.
  - intros Ht. by destruct (W8 Ht).
Qed.

Lemma drag_good m s : inv s → good s (drag scr_w scr_h m s).
Proof.
  intros Hs. unfold drag. set (s1 := update_alive (dragging s) _ s). assert (good s s1) as [H1 H2].
  { unfold s1, update_alive. destruct (dragging s) as [wi|]; [|done]. destruct (alive (win_at s wi)) eqn:Ha; [|done]. apply good_update; [done|done|]. intros Hw. split_and!; try done. by apply clamp_drag_ok. }
  eapply good_trans; [split; done|]. unfold update_alive. destruct (resizing s1) as [wi|] eqn:Er; [|done]. destruct (ok_resizing _ _ _ (in_ok _ _ _ _ _ _ H1) wi Er) as [Ha Hf]. rewrite Ha.
  apply good_update; [done|done|]. intros Hw. split_and!; try done. by apply clamp_resize_ok.
Qed.

Lemma drain_good i s : inv s → good s (drain i s).
Proof.
  intros Hs. unfold drain. destruct (alive (win_at s i) && term (win_at s i) && (cid (win_at s i) >=? 0)) eqn:E; [|done]. apply andb_true_iff in E as [E _]. apply andb_true_iff in E as [Ha Ht].
  pose proof (good_sys (cread (cid (win_at s i))) s (quiet_cread _ _) Hs) as Q. destruct (sys (cread (cid (win_at s i))) s) as [out s1]. cbn [snd] in Q. destruct Q as [[I1 K1] W1].
  eapply good_trans; [split; done|]. destruct (term_feed_ok (concat out) (win_at s1 i)) as [F1 F2]. apply good_frame; try done. by rewrite (win_at_wins s s1).
Qed.

Lemma foldl_good {A} (f : wm K → A → wm K) l s : (∀ s x, inv s → good s (f s x)) → inv s → good s (foldl f s l).
Proof.
  intros Hf. revert s. induction l as [|x l IH]; intros s Hs; cbn; [done|]. pose proof (Hf s x Hs) as [H1 H2]. eapply good_trans; [split; done|]. by apply IH.
Qed.

Lemma foldl_good_in {A} (f : wm K → A → wm K) l s : (∀ s x, x ∈ l → inv s → good s (f s x)) → inv s → good s (foldl f s l).
Proof.
  revert s. induction l as [|x l IH]; intros s Hf Hs; cbn; [done|]. destruct (Hf s x ltac:(by left) Hs) as [H1 H2]. eapply good_trans; [split; done|]. apply IH; [|done]. intros s' x' Hx. apply Hf. by right.
Qed.

(** ** Surfaces *)

Lemma open_surface_good sl si s : 0 ≤ sl < WSURF_SLOTS → 1 ≤ i_w si ≤ WSURF_MAX_W → 1 ≤ i_h si ≤ WSURF_MAX_H → surface_at sl s = None → inv s → good s (open_surface sl si s).
Proof.
  intros Hsl Hw Hh Hno Hs. unfold open_surface. pose proof (spawn_ok scr_w scr_h Hscr_w Hscr_h base _ _ (Some (i_name si)) s Hs) as Hsp.
  destruct (spawn (Some (i_name si)) s) as [[slot|] s1]; [|by subst s1]. destruct Hsp as [S1 S2 S3 S4 S5 S6 S7 S8].
  assert (sl ∉ maps (kern s)) as Hfree.
  { rewrite (ac_set _ _ _ _ (in_maps _ _ _ _ _ _ Hs)). intros [Hb|[j Hj]]; [by apply elem_of_empty in Hb|]. unfold surf_of in Hj. destruct (alive (win_at s j) && (surf (win_at s j) >=? 0)) eqn:E; [|done]. injection Hj as Hj.
    apply andb_true_iff in E as [E _]. unfold surface_at in Hno. apply fmap_None in Hno. rewrite list_find_None in Hno.
    pose proof (alive_lt _ _ E) as Hlt. apply lookup_lt_is_Some_2 in Hlt as [a Hl]. rewrite Forall_lookup in Hno. apply (Hno j a Hl). unfold win_at in E, Hj. rewrite Hl in E, Hj. done. }
  unfold sys. pose proof (ok_wmap sl (kern s1)) as Hx. destruct (wmap sl (kern s1)) as [b k]. destruct Hx as [Hc Hm]. rewrite S5 in Hc, Hm. set (s2 := set_kern k s1).
  assert (inv' (chans (kern s)) (maps (kern s)) s2) as I2 by (by apply (inv_same _ _ _ _ _ s1)). assert (alive (win_at s2 slot) = true) as Ha2 by exact S2. pose proof (alive_lt _ _ Ha2) as Hlt.
  destruct b; cbn [negb].
  - set (f := λ a, set_surface sl (i_w si) (i_h si) (i_w si + 2) (i_h si + TITLE_H + 1) (60 + sl * 30) (40 + sl * 24) (-1) (-1) false (set_spix true a)).
    assert (∀ j, win_at (update slot f s2) j = if decide (slot = j) then f (win_at s1 slot) else win_at s1 j) as Hwa by (intros j; by apply (win_at_update s2)).
    apply good_put. split; [|eapply keeps_trans; [exact S6|done]].
    unfold WmSpec.inv. change (kern (update slot f s2)) with k. rewrite Hc, Hm. destruct I2 as [[H1 H2 H3 H4 H5] HC HM]. constructor; [constructor|..].
    + cbn. by rewrite length_insert.
    + done.
    + intros j. change (zorder (update slot f s2)) with (zorder s2). rewrite H3, Hwa. destruct (decide (slot = j)) as [<-|]; done.
    + intros j. rewrite Hwa. destruct (decide (slot = j)) as [<-|]; [|apply H4]. intros _. destruct (H4 slot Ha2) as [V1 V2 V3 V4 V5 V6 V7 V8].
      unfold WSURF_SLOTS, WSURF_MAX_W, WSURF_MAX_H in *. constructor; cbn; try done; unfold TITLE_H, TASKBAR_H; try lia; [|by rewrite S3]. intros _. split_and!; lia || exact S3.
    + intros j Hj. rewrite Hwa. destruct (decide (slot = j)) as [<-|]; [done|by apply H5].
    + apply (account_ext _ _ _ s2); [|done]. intros j. rewrite Hwa. destruct (decide (slot = j)) as [<-|]; done.
    + apply (account_add _ _ _ s2 _ slot).
      * intros j. rewrite Hwa. destruct (decide (slot = j)) as [<-|]; [|done]. unfold surf_of. cbn. rewrite S2, (proj2 (Z.geb_ge _ _)) by lia. done.
      * change (win_at s2 slot) with (win_at s1 slot). unfold surf_of. by rewrite S4, andb_false_r.
      * done.
      * done.
  - assert (inv' (chans (kern s)) (maps (kern s)) (update slot (set_spix false) s2)) as I3.
    { apply inv_update; [done|done|]. change (win_at s2 slot) with (win_at s1 slot). intros [V1 V2 V3 V4 V5 V6 V7 V8]. split_and!; try done. constructor; try done. intros Ht. by destruct (V8 Ht). }
    assert (win_at (update slot (set_spix false) s2) slot = set_spix false (win_at s1 slot)) as Hwa by (rewrite win_at_update, decide_True by done; done).
    assert (alive (win_at (update slot (set_spix false) s2) slot) = true) as Ha3 by (by rewrite Hwa).
    split; [|eapply keeps_trans; [exact S6|]; eapply keeps_trans; [|apply close_keeps]; done]. unfold WmSpec.inv.
    destruct (close_win_spec scr_w scr_h _ slot (in_ok _ _ _ _ _ _ I3) Ha3) as (_ & _ & _ & _ & -> & _). change (kern (update slot (set_spix false) s2)) with k. rewrite Hc, Hm.
    apply inv_close; [done|done|done| |]; rewrite Hwa; [unfold chan_of; cbn; by rewrite S3, andb_false_r|cbn; lia].
Qed.

Lemma poll_slot_good sl s : 0 ≤ sl < WSURF_SLOTS → inv s → good s (poll_slot sl s).
Proof.
  intros Hsl Hs. unfold poll_slot. pose proof (ok_wstat sl (kern s)) as Hx. unfold sys. destruct (wstat sl (kern s)) as [si k] eqn:Ek. destruct Hx as (Hc & Hm & Hi).
  set (s1 := set_kern k s). assert (inv s1) as I1 by (unfold WmSpec.inv; cbn; rewrite Hc, Hm; by apply (inv_same _ _ _ _ _ s)). assert (good s s1) as G1 by done.
  destruct (surface_at sl s) as [wi|] eqn:Eh.
  - destruct (match si with Some si => i_alive si | None => false end) eqn:El; [done|].
    unfold surface_at in Eh. destruct (list_find _ (wins s)) as [[wi' a]|] eqn:Ef; [|done]. injection Eh as ->. apply list_find_Some in Ef as (Hl & [Ha Hf] & _).
    assert (win_at s wi = a) as Hat by (unfold win_at; by rewrite Hl). pose proof (ok_wunmap sl (kern s1)) as [U1 U2]. destruct (wunmap sl (kern s1)) as [r k2]. cbn [snd] in U1, U2. change (kern s1) with k in *.
    set (s2 := set_kern k2 s1). assert (alive (win_at s2 wi) = true) as Ha2 by (change (win_at s2 wi) with (win_at s wi); by rewrite Hat). pose proof (alive_lt _ _ Ha2) as Hlt.
    pose proof Hs as [[H1 H2 H3 H4 H5] HC HM]. assert (win_ok a) as Hwa by (rewrite <- Hat; apply H4; by rewrite Hat). destruct (wo_surface _ _ _ Hwa ltac:(lia)) as (_ & _ & _ & _ & Htm).
    set (s3 := update wi (set_spix false) s2). assert (win_at s3 wi = set_spix false a) as Hw3 by (unfold s3; rewrite win_at_update, decide_True by done; change (win_at s2 wi) with (win_at s wi); by rewrite Hat).
    assert (inv' (chans (kern s)) (maps (kern s)) s3) as I3.
    { apply inv_update; [by apply (inv_same _ _ _ _ _ s)|done|]. change (win_at s2 wi) with (win_at s wi). rewrite Hat. intros [V1 V2 V3 V4 V5 V6 V7 V8]. split_and!; try done. constructor; try done. intros Ht. by destruct (V8 Ht). }
    assert (alive (win_at s3 wi) = true) as Ha3 by (by rewrite Hw3). pose proof (in_ok _ _ _ _ _ _ I3) as Hok3.
    destruct (close_win_spec scr_w scr_h s3 wi Hok3 Ha3) as (_ & _ & _ & _ & Hk & _).
    apply good_put. split; [|eapply keeps_trans; [|apply close_keeps]; done]. unfold WmSpec.inv. rewrite Hk. change (kern s3) with k2. rewrite U1, U2, Hc, Hm.
    constructor; [apply wm_ok_close; [done|done|]; change (resizing s3) with (resizing s); intros Hr; destruct (H5 wi Hr) as [_ Hr']; rewrite Hat in Hr'; lia|..].
    + pose proof (account_close scr_w scr_h (chans (kern s)) base chan_of s3 wi Hok3 Ha3 eq_refl (in_chans _ _ _ _ _ _ I3)) as Hx. rewrite Hw3 in Hx. unfold chan_of in Hx at 1. cbn [alive term set_spix] in Hx. rewrite Htm, andb_false_r in Hx. exact Hx.
    + pose proof (account_close scr_w scr_h (maps (kern s)) ∅ surf_of s3 wi Hok3 Ha3 eq_refl (in_maps _ _ _ _ _ _ I3)) as Hx. rewrite Hw3 in Hx. unfold surf_of in Hx at 1. cbn [alive surf set_spix] in Hx.
      rewrite Ha, Hf, (proj2 (Z.geb_ge _ _)) in Hx by lia. exact Hx.
  - destruct si as [si|]; [|done]. destruct (i_alive si) eqn:El; [|done]. destruct (Hi eq_refl) as [Hi1 Hi2]. apply (good_trans _ s1); [done|]. by apply open_surface_good.
Qed.

Lemma poll_surfaces_good s : inv s → good s (poll_surfaces s).
Proof. apply foldl_good_in. intros s' sl Hsl%elem_of_range. by apply poll_slot_good. Qed.

Lemma forward_mouse_good m s : inv s → good s (forward_mouse m s).
Proof.
  intros Hs. unfold forward_mouse. destruct (topmost s) as [ts|] eqn:Et; [|done]. pose proof (topmost_alive s ts Hs Et) as Ha. cbv zeta. case_if; [|done]. case_if; [|done].
  pose proof (good_sys (wsend (surf (win_at s ts)) (WevMouse (mx m - (x (win_at s ts) + 1)) (my m - (y (win_at s ts) + TITLE_H)) (buttons m))) s (quiet_wsend _ _ _) Hs) as [[I1 K1] W1].
  eapply good_trans; [split; done|]. assert (alive (win_at (sys (wsend (surf (win_at s ts)) (WevMouse (mx m - (x (win_at s ts) + 1)) (my m - (y (win_at s ts) + TITLE_H)) (buttons m))) s).2 ts) = true) as Ha' by (by rewrite (win_at_wins s)).
  apply good_frame; try done. intros [T1 T2 T3 T4]. done.
Qed.

(** Between two rounds: a window is being resized only while the button is
    down. *)
Definition desk_ok s : Prop := inv s ∧ (prev_btn s = false → resizing s = None).

Lemma round_ok m l s : desk_ok s → let '(esc, s') := round scr_w scr_h m l s in inv s' ∧ (esc = false → desk_ok s').
Proof.
  intros [Hs Hr]. unfold round. pose proof (keys_good l s Hs) as Hk. destruct (keys l s) as [esc s1]. cbn [snd] in Hk. destruct Hk as [I1 [K1 K1']]. destruct esc; [done|].
  set (btn := Z.testbit (buttons m) 0). cbv zeta. set (s2 := if btn && negb (prev_btn s1) then press scr_w scr_h m s1 else s1).
  assert (inv s2 ∧ prev_btn s2 = prev_btn s1 ∧ (btn = false → resizing s2 = resizing s1)) as (I2 & P2 & R2).
  { unfold s2. destruct (btn && negb (prev_btn s1)) eqn:E; [|done]. apply andb_true_iff in E as [E1 E2]. apply negb_true_iff in E2. destruct (press_ok m s1 I1) as [J1 J2]; [rewrite K1; apply Hr; congruence|]. split_and!; [done|done|congruence]. }
  clearbody s2. destruct (drag_good m s2 I2) as [I3 [R3 P3]]. set (s3 := drag scr_w scr_h m s2) in *. clearbody s3.
  set (s4 := if negb btn && prev_btn s1 then set_released None None s3 else s3).
  assert (inv s4 ∧ (btn = false → resizing s4 = None)) as (I4 & R4).
  { unfold s4. destruct btn; cbn [negb andb]; [done|]. destruct (prev_btn s1) eqn:E.
    - split; [|done]. destruct I3 as [[H1 H2 H3 H4 H5] HC HM]. constructor; [constructor; try done|by apply (account_ext _ _ _ s3)|by apply (account_ext _ _ _ s3)].
    - split; [done|]. intros _. rewrite R3, R2 by done. rewrite K1. apply Hr. congruence. }
  clearbody s4. destruct (foldl_good (λ s wi, drain wi s) (seq 0 (Z.to_nat MAXWIN)) s4 ltac:(intros; by apply drain_good) I4) as [I5 [R5 _]]. fold (drain_all s4) in I5, R5. set (s5 := drain_all s4) in *. clearbody s5.
  destruct (poll_surfaces_good s5 I5) as [I6 [R6 _]]. set (s6 := poll_surfaces s5) in *. clearbody s6.
  destruct (forward_mouse_good m s6 I6) as [I7 [R7 _]]. set (s7 := forward_mouse m s6) in *. clearbody s7.
  assert (inv (set_prev btn s7)) as I8 by (by apply (inv_same _ _ _ _ _ s7)). split; [done|]. intros _. split; [done|]. cbn. intros Hb. rewrite R7, R6, R5. auto.
Qed.

(** ** Leaving *)

(** The first [n] windows have been left. *)
Record left_to (n : nat) s t : Prop := {
  lt_inv : inv' (chans (kern t)) (maps (kern s)) t;
  lt_surf i : surf_of (win_at t i) = surf_of (win_at s i);
  lt_chan i : (i < n)%nat → chan_of (win_at t i) = None;
  lt_maps c : c ∈ maps (kern t) ↔ c ∈ maps (kern s) ∧ ∀ i, (i < n)%nat → surf_of (win_at s i) ≠ Some c;
}.

(** The channel of a window is closed. *)
Lemma leave_terminal n s t : left_to n s t → ∃ t1, (if alive (win_at t n) && term (win_at t n) then close_terminal n t else t) = t1 ∧
  left_to n s t1 ∧ chan_of (win_at t1 n) = None.
Proof.
  intros [L1 L2 L3 L4]. eexists. split; [done|]. destruct (alive (win_at t n) && term (win_at t n)) eqn:E.
  - apply andb_true_iff in E as [Ha Ht]. destruct (close_terminal_ok scr_w scr_h base n _ t L1 Ha Ht) as (C1 & C2 & C3 & C4 & C5 & C6 & C7). split; [|done]. constructor; [done| | |].
    + intros i. destruct (decide (i = n)) as [->|Hn]; [|rewrite C7 by done; apply L2]. rewrite <- L2. unfold surf_of. by rewrite C4, C6, Ha.
    + intros i Hi. rewrite C7 by lia. auto.
    + intros c. rewrite C2. apply L4.
  - split; [done|]. unfold chan_of. by rewrite E.
Qed.

Lemma leave_window_ok n s t : left_to n s t → left_to (S n) s (leave_window n t).
Proof.
  intros Hl. unfold leave_window. destruct (leave_terminal n s t Hl) as (t1 & -> & [L1 L2 L3 L4] & Hc).
  assert (∀ i, (i < S n)%nat → chan_of (win_at t1 i) = None) as L3' by (intros i Hi; destruct (decide (i = n)) as [->|]; [done|apply L3; lia]).
  assert (surf_of (win_at t n) = surf_of (win_at s n)) as Hsf by apply Hl. unfold surf_of in Hsf at 1. destruct (alive (win_at t n) && (surf (win_at t n) >=? 0)).
  - set (sl := surf (win_at t n)) in *. pose proof (inv_sys scr_w scr_h base (wsend sl WevClose) _ t1 (quiet_wsend _ _ _) L1) as Q. destruct (sys (wsend sl WevClose) t1) as [r t2]. cbn [snd] in Q. destruct Q as (I2 & M2 & W2).
    assert (∀ i, win_at t2 i = win_at t1 i) as Hw by (intros i; by apply win_at_wins). unfold sys. pose proof (ok_wunmap sl (kern t2)) as [U1 U2]. destruct (wunmap sl (kern t2)) as [r2 k]. cbn [snd] in U1, U2 |- *.
    constructor.
    + cbn [kern set_kern]. rewrite U1. by apply (inv_same _ _ _ _ _ t2).
    + intros i. change (win_at (set_kern k t2) i) with (win_at t2 i). by rewrite Hw.
    + intros i Hi. change (win_at (set_kern k t2) i) with (win_at t2 i). rewrite Hw. auto.
    + intros c. cbn [kern set_kern]. rewrite U2, M2, elem_of_difference, elem_of_singleton, L4. split.
      * intros [[Hm Hn] Hne]. split; [done|]. intros i Hi. destruct (decide (i = n)) as [->|]; [congruence|apply Hn; lia].
      * intros [Hm Hn]. split; [split; [done|]; intros i Hi; apply Hn; lia|]. intros ->. apply (Hn n); [lia|done].
  - constructor; try done. intros c. rewrite L4. split; intros [Hm Hn]; (split; [done|]); intros i Hi; [|apply Hn; lia]. destruct (decide (i = n)) as [->|]; [congruence|apply Hn; lia].
Qed.

Lemma leave_first n s : inv s → left_to n s (foldl (λ s wi, leave_window wi s) s (seq 0 n)).
Proof.
  intros Hs. induction n as [|n IH].
  - constructor; [exact Hs|done|lia|]. intros c. split; [intros ?; split; [done|lia]|by intros [? _]].
  - rewrite seq_S, foldl_app. cbn [foldl Nat.add]. by apply leave_window_ok.
Qed.

Lemma left_all s t : inv s → left_to (length (wins s)) s t → length (wins t) = length (wins s) → chans (kern t) = base ∧ maps (kern t) = ∅.
Proof.
  intros Hs [L1 L2 L3 L4] Hlen. split; apply set_eq; intros c.
  - rewrite (ac_set _ _ _ _ (in_chans _ _ _ _ _ _ L1)). split; [|by left]. intros [?|[i Hi]]; [done|]. exfalso.
    destruct (decide (i < length (wins s))%nat) as [Hlt|Hge]; [rewrite L3 in Hi by done; done|]. rewrite win_at_ge in Hi by lia. discriminate Hi.
  - rewrite L4. split; [|by intros ?%elem_of_empty]. intros [Hm Hn]. exfalso. apply (ac_set _ _ _ _ (in_maps _ _ _ _ _ _ Hs)) in Hm as [Hm|[i Hi]]; [by apply elem_of_empty in Hm|].
    apply (Hn i); [|done]. apply alive_lt. unfold surf_of in Hi. by destruct (alive (win_at s i)).
Qed.

Lemma leave_ok s : inv s → chans (kern (leave s)) = base ∧ maps (kern (leave s)) = ∅.
Proof.
  intros Hs. pose proof (leave_first (Z.to_nat MAXWIN) s Hs) as Hl. pose proof (ok_wins _ _ _ (in_ok _ _ _ _ _ _ Hs)) as H1. pose proof (ok_wins _ _ _ (in_ok _ _ _ _ _ _ (lt_inv _ _ _ Hl))) as H2.
  rewrite <- H1 in Hl, H2. unfold leave. rewrite <- H1. exact (left_all s _ Hs Hl H2).
Qed.
End wm.

Section desktop.
Context {K : Type} `{DeskOk K}.
Context (scr_w scr_h : Z) (Hscr_w : 1024 ≤ scr_w) (Hscr_h : 768 ≤ scr_h).

Lemma start_ok k btn : maps k = ∅ → desk_ok scr_w scr_h (chans k) (start k btn).
Proof.
  intros Hm. set (s0 := put [txt "wm: started"] (mk_wm (replicate (Z.to_nat MAXWIN) dead) [] 1 false None None 0 0 btn [] k)).
  assert (∀ i, win_at s0 i = dead) as Hd. { intros i. unfold win_at. cbn [wins s0 put set_serial]. destruct (replicate _ dead !! i) as [a|] eqn:E; [|done]. apply lookup_replicate in E as [-> _]. done. }
  assert (inv scr_w scr_h (chans k) s0) as I0.
  { constructor; [constructor|..].
    - done.
    - apply NoDup_nil_2.
    - intros i. rewrite Hd. split; [by intros ?%elem_of_nil|done].
    - intros i. by rewrite Hd.
    - done.
    - constructor; [|intros i j c; by rewrite Hd|intros i c; by rewrite Hd]. intros c. split; [by left|]. intros [?|[i Hi]]; [done|]. by rewrite Hd in Hi.
    - change (kern s0) with k. rewrite Hm. constructor; [|intros i j c; by rewrite Hd|intros i c; by rewrite Hd]. intros c. split; [by left|]. intros [?|[i Hi]]; [done|]. by rewrite Hd in Hi. }
  destruct (spawn_terminal_ok scr_w scr_h Hscr_w Hscr_h (chans k) s0 I0) as [I1 [K1 _]]. split; [done|]. intros _. exact K1.
Qed.

Lemma session_ok k btn l :
  maps k = ∅ →
  let '(esc, s) := session scr_w scr_h l (start k btn) in
  if esc : bool then chans (kern s) = chans k ∧ maps (kern s) = ∅ else desk_ok scr_w scr_h (chans k) s.
Proof.
  intros Hm. pose proof (start_ok k btn Hm) as Hs. generalize dependent (start k btn). induction l as [|[m ks] l IH]; intros s Hs; cbn [session]; [done|].
  pose proof (round_ok scr_w scr_h Hscr_w Hscr_h (chans k) m ks s Hs) as Hr. destruct (round scr_w scr_h m ks s) as [[|] s1]; destruct Hr as [I1 D1]; [by apply (leave_ok scr_w scr_h)|]. by apply IH, D1.
Qed.

(** C7: The desktop stays in order: while the window manager runs, whatever
    the mouse and the keyboard do, whatever the programs in terminals write and
    the clients of surfaces do, the stacking order lists each window that is
    alive once, every such window is on the screen, a surface has the size of
    its window, terminals keep their cursor in their grid, and the channels
    and surfaces held are exactly those of the windows; after escape none is
    held. *)
Theorem desktop_in_order k btn l :
  maps k = ∅ →
  let '(esc, s) := session scr_w scr_h l (start k btn) in
  if esc : bool then chans (kern s) = chans k ∧ maps (kern s) = ∅
  else wm_ok scr_w scr_h s ∧ account (chans (kern s)) (chans k) chan_of s ∧ account (maps (kern s)) ∅ surf_of s.
Proof.
  intros Hm. pose proof (session_ok k btn l Hm) as Hs. destruct (session scr_w scr_h l (start k btn)) as [[|] s]; [done|]. by destruct Hs as [[] _].
Qed.
End desktop.
End WmTheorems.

(** * Drawing the desktop (user/wm.c, draw_window and draw_all)

    The pixels of a frame.  The pixels of a client's surface are copied
    without clipping: that they stay in the back buffer is what the order of
    the desktop is for. *)

Module WmDraw.
Import Shell Gfx Wm WmSpec WmInv WmTheorems.

Definition COL_DESKTOP : Z := 0x008080.
Definition COL_TASKBAR : Z := 0xC0C0C0.
Definition COL_TITLE : Z := 0x000080.
Definition COL_TITLE_BG : Z := 0x808080.
Definition COL_BODY : Z := 0xFFFFFF.
Definition COL_TEXT : Z := 0.
Definition COL_BORDER : Z := 0.
Definition COL_MENU : Z := 0xE8E8E8.
Definition COL_BTN : Z := 0xC0C0C0.
Definition COL_TERM_BG : Z := 0.
Definition COL_TERM_FG : Z := 0xE0E0E0.

Definition menu_items : list text := [txt "terminal"; txt "browser"; txt "new window"; txt "about"].

Section draw.
Context {K : Type} `{Desk K}.
(** The font, the screen, and the pixels that the clients have written. *)
Context (font : list Z) (bw bh : Z) (pixels : Z → Z → Z).

Definition composite (a : win) : list px :=
  r ← range 0 (sh a); c ← range 0 (sw a); [(x a + 1 + c, y a + TITLE_H + r, pixels (surf a) (r * sw a + c))].

Definition draw_term (a : win) : list px :=
  gfx_fill bw bh (x a + 1) (y a + TITLE_H) (w a - 2) (h a - TITLE_H - 1) COL_TERM_BG ++
  (r ← range 0 TROWS; gfx_text font bw bh (x a + 8) (y a + TITLE_H + 6 + r * 16) (default [] (grid a !! Z.to_nat r)) COL_TERM_FG).

Definition draw_plain (a : win) : list px :=
  gfx_text font bw bh (x a + 12) (y a + TITLE_H + 12) (txt "NOS window") COL_TEXT ++
  gfx_text font bw bh (x a + 12) (y a + TITLE_H + 36) (txt "type: ") COL_TEXT ++
  gfx_text font bw bh (x a + 12 + 6 * 8) (y a + TITLE_H + 36) (text_ a) COL_TEXT.

Definition draw_button (bx by_ ch dy : Z) : list px :=
  gfx_fill bw bh bx by_ BTN_SZ BTN_SZ COL_BTN ++ gfx_frame bw bh bx by_ BTN_SZ BTN_SZ COL_BORDER ++ gfx_char font bw bh (bx + 5) (by_ + dy) ch COL_TEXT.

Definition draw_window (a : win) (focused : bool) : list px :=
  gfx_fill bw bh (x a) (y a) (w a) (h a) COL_BODY ++
  gfx_fill bw bh (x a) (y a) (w a) TITLE_H (if focused then COL_TITLE else COL_TITLE_BG) ++
  gfx_frame bw bh (x a) (y a) (w a) (h a) COL_BORDER ++
  gfx_text font bw bh (x a + 8) (y a + 4) (title a) 0xFFFFFF ++
  draw_button (x a + w a - 2 * BTN_SZ - 5) (y a + 3) 95 (-1) ++
  draw_button (x a + w a - BTN_SZ - 3) (y a + 3) 120 1 ++
  (if (surf a >=? 0) && spix a then composite a else if term a then draw_term a else draw_plain a) ++
  (if surf a <? 0 then i ← range 0 3; gfx_fill bw bh (x a + w a - 5 - i * 4) (y a + h a - 5) 2 2 COL_BORDER else []).

(** The taskbar's entries, from the window [i] on. *)
Fixpoint draw_entries (l : list win) (i : nat) (k : Z) (top : option nat) : list px :=
  match l with
  | [] => []
  | a :: l' =>
      if negb (alive a) then draw_entries l' (1 + i) k top
      else
        let ex := ENTRY_X0 + k * ENTRY_STEP in
        let ty := bh - TASKBAR_H in
        let bg := if min a then 0x909090 else if bool_decide (top = Some i) then 0xE0E0E0 else 0xA0A0A0 in
        gfx_fill bw bh ex (ty + 4) ENTRY_W (TASKBAR_H - 8) bg ++ gfx_frame bw bh ex (ty + 4) ENTRY_W (TASKBAR_H - 8) COL_BORDER ++
        gfx_text font bw bh (ex + 8) (ty + 8) (title a) COL_TEXT ++ draw_entries l' (1 + i) (k + 1) top
  end.

Definition uptime_text (ms : Z) : text :=
  let t := scopy (txt "up ") 32 ++ fmt_int (Z.quot ms 1000) in t ++ scopy (txt "s  esc quits") (32 - zlength t).

Definition draw_menu : list px :=
  let my_ := bh - TASKBAR_H - MENU_H in
  gfx_fill bw bh 4 my_ MENU_W MENU_H COL_MENU ++ gfx_frame bw bh 4 my_ MENU_W MENU_H COL_BORDER ++
  (i ← range 0 MENU_ITEMS; gfx_text font bw bh 16 (my_ + 8 + i * MENU_ITEM_H) (default [] (menu_items !! Z.to_nat i)) COL_TEXT).

Definition draw_taskbar (ms : Z) (s : wm K) : list px :=
  let ty := bh - TASKBAR_H in
  gfx_fill bw bh 0 ty bw TASKBAR_H COL_TASKBAR ++ gfx_fill bw bh 0 ty bw 1 0xFFFFFF ++
  gfx_fill bw bh 4 (ty + 4) (START_W - 8) (TASKBAR_H - 8) (if menu_open s then 0xE0E0E0 else 0xD0D0D0) ++
  gfx_frame bw bh 4 (ty + 4) (START_W - 8) (TASKBAR_H - 8) COL_BORDER ++ gfx_text font bw bh 12 (ty + 8) (txt "NOS") COL_TEXT ++
  draw_entries (wins s) 0 0 (topmost s) ++ gfx_text font bw bh (bw - 8 * 20) (ty + 8) (uptime_text ms) COL_TEXT.

Definition draw_all (cx cy ms : Z) (s : wm K) : list px :=
  gfx_fill bw bh 0 0 bw bh COL_DESKTOP ++
  (z ← zorder s; if min (win_at s z) then [] else draw_window (win_at s z) (bool_decide (topmost s = Some z))) ++
  draw_taskbar ms s ++ (if menu_open s then draw_menu else []) ++ gfx_cursor bw bh cx cy.

(** ** Every store is inside *)

Lemma composite_inside a : win_ok bw bh a → 0 ≤ surf a → Forall (inside bw bh) (composite a).
Proof.
  intros [W1 W2 _ _ _ _ W7 _] Hf. destruct (W7 Hf) as (E1 & E2 & E3 & E4 & _). unfold TASKBAR_H, TITLE_H in *.
  apply Forall_range_bind. intros r Hr. apply Forall_range_bind. intros c Hc. apply Forall_singleton. unfold inside. cbn [fst snd]. unfold TITLE_H. lia.
Qed.

Lemma button_inside bx by_ ch dy : Forall (inside bw bh) (draw_button bx by_ ch dy).
Proof. unfold draw_button. rewrite !Forall_app. split_and!; [apply fill_covers|apply frame_inside|apply char_covers]. Qed.

Lemma window_inside a focused : win_ok bw bh a → Forall (inside bw bh) (draw_window a focused).
Proof.
  intros Hw. unfold draw_window. rewrite !Forall_app. split_and!; [apply fill_covers|apply fill_covers|apply frame_inside|apply text_inside|apply button_inside|apply button_inside| |].
  - destruct ((surf a >=? 0) && spix a) eqn:E; [apply composite_inside; [done|]; boolp; lia|]. destruct (term a).
    + unfold draw_term. apply Forall_app. split; [apply fill_covers|]. apply Forall_range_bind. intros r _. apply text_inside.
    + unfold draw_plain. rewrite !Forall_app. split_and!; apply text_inside.
  - case_if; [|by apply Forall_nil]. apply Forall_range_bind. intros i _. apply fill_covers.
Qed.

Lemma entries_inside l i k top : Forall (inside bw bh) (draw_entries l i k top).
Proof.
  revert i k. induction l as [|a l IH]; intros i k; cbn [draw_entries]; [by apply Forall_nil|]. case_if; [apply IH|]. cbv zeta. rewrite !Forall_app. split_and!; [apply fill_covers|apply frame_inside|apply text_inside|apply IH].
Qed.

Lemma draw_all_inside cx cy ms s : wm_ok bw bh s → Forall (inside bw bh) (draw_all cx cy ms s).
Proof.
  intros Hs. unfold draw_all, draw_taskbar. cbv zeta. rewrite !Forall_app. split_and!; try apply fill_covers; try apply frame_inside; try apply text_inside; [|apply entries_inside| |apply cursor_inside].
  - apply Forall_bind, Forall_forall. intros z Hz. unfold compose. destruct (min (win_at s z)); [by apply Forall_nil|]. apply window_inside, (ok_win _ _ _ Hs). by apply (ok_zorder _ _ _ Hs).
  - case_if; [|by apply Forall_nil]. unfold draw_menu. cbv zeta. rewrite !Forall_app. split_and!; [apply fill_covers|apply frame_inside|]. apply Forall_range_bind. intros i _. apply text_inside.
Qed.
End draw.

(** C20: Every frame of the desktop is drawn inside the back buffer, the
    surfaces of the clients included, whatever the events before it. *)
Theorem desktop_drawn {K} `{DeskOk K} font pixels bw bh k btn l cx cy ms g :
  1024 ≤ bw → 768 ≤ bh → maps k = ∅ → wf g → Gfx.w g = bw → Gfx.h g = bh →
  let '(esc, s) := session bw bh l (start k btn) in
  if esc : bool then True else is_Some (paint g (draw_all font bw bh pixels cx cy ms s)).
Proof.
  intros Hw Hh Hm Hg Ew Eh. pose proof (session_ok bw bh Hw Hh k btn l Hm) as Hs. destruct (session bw bh l (start k btn)) as [[|] s]; [done|]. destruct Hs as [[Hs _ _] _].
  destruct (paint_inside (draw_all font bw bh pixels cx cy ms s) g Hg) as (g' & -> & _); [|done]. rewrite Ew, Eh. by apply draw_all_inside.
Qed.

(** ** Focus *)

Lemma raise_last {K} `{DeskOk K} bw bh (s : wm K) wi : wm_ok bw bh s → alive (win_at s wi) = true → last (zorder (raise_win wi s)) = Some wi.
Proof.
  intros Hs Ha. destruct (zfind_alive bw bh s wi Hs Ha) as (z & Hz & _). unfold raise_win. rewrite Hz. cbn [zorder set_zorder]. by rewrite app_assoc, last_snoc.
Qed.

(** A click on the body of a window gives it the focus, and leaves the
    other windows in their order. *)
Theorem click_focuses {K} `{DeskOk K} bw bh m (s : wm K) wi :
  wm_ok bw bh s → menu_open s = false → my m < bh - TASKBAR_H → window_under m s = Some wi →
  y (win_at s wi) + TITLE_H ≤ my m → mx m < x (win_at s wi) + w (win_at s wi) - GRIP_SZ →
  topmost (press bw bh m s) = Some wi ∧ filter (λ z, z ≠ wi) (zorder (press bw bh m s)) = filter (λ z, z ≠ wi) (zorder s).
Proof.
  intros Hs Hm Hy Hu Hb Hg. pose proof (last_filter_in _ _ Hu) as [Hin [Hmin _]]. apply (ok_zorder _ _ _ Hs) in Hin as Ha.
  assert (press bw bh m s = raise_win wi s) as ->.
  { unfold press. rewrite Hm, Hu. destruct (Z.geb_spec (my m) (bh - TASKBAR_H)); [lia|]. unfold press_window. cbv zeta. destruct (Z.ltb_spec (my m) (y (win_at s wi) + TITLE_H)); [lia|].
    destruct (Z.geb_spec (mx m) (x (win_at s wi) + w (win_at s wi) - GRIP_SZ)); [lia|]. by rewrite andb_false_r. }
  destruct (raise_perm bw bh s wi Hs) as (_ & Hw & _). destruct (zfind_alive bw bh s wi Hs Ha) as (z & Hz & _ & Hzo). split.
  - unfold topmost, raise_win. rewrite Hz. cbn [zorder set_zorder]. rewrite app_assoc, filter_app, filter_cons, decide_True, filter_nil, last_snoc; [done|exact Hmin].
  - unfold raise_win. rewrite Hz. cbn [zorder set_zorder]. rewrite Hzo at 3. rewrite !filter_app, !filter_cons, !decide_False by (intros E; by apply E). by rewrite filter_nil, app_nil_r.
Qed.

(** ** A small kernel *)

(** The channels and the mappings, and the size of the surface of one
    client. *)
Record toy := mk_toy { t_chans : list Z; t_maps : list Z; t_client : option (Z * Z) }.

Definition top_chan (k : toy) : Z := foldr (λ c m, Z.max (c + 1) m) 0 (t_chans k).

Definition toy_wstat (sl : Z) (k : toy) : option wsurf_info :=
  match t_client k with
  | Some (cw, ch) => if (sl =? 0) && (1 <=? cw) && (cw <=? WSURF_MAX_W) && (1 <=? ch) && (ch <=? WSURF_MAX_H) then Some (mk_info true cw ch (txt "browser")) else None
  | None => None
  end.

#[global] Instance toy_desk : Desk toy := {
  exec := λ _ k, (0, k);
  execc := λ _ k, (top_chan k, mk_toy (top_chan k :: t_chans k) (t_maps k) (t_client k));
  cwrite := λ _ b k, (zlength b, k);
  cstat := λ _ k, (0, k);
  kill := λ _ k, (0, k);
  cclose := λ c k, (0, mk_toy (filter (λ d, d ≠ c) (t_chans k)) (t_maps k) (t_client k));
  cread := λ _ k, ([txt "$ "], k);
  wstat := λ sl k, (toy_wstat sl k, k);
  wmap := λ sl k, (true, mk_toy (t_chans k) (sl :: t_maps k) (t_client k));
  wunmap := λ sl k, (0, mk_toy (t_chans k) (filter (λ d, d ≠ sl) (t_maps k)) (t_client k));
  wsend := λ _ _ k, (0, k);
  chans := λ k, list_to_set (t_chans k);
  maps := λ k, list_to_set (t_maps k);
}.

Lemma top_chan_fresh k c : c ∈ t_chans k → c < top_chan k.
Proof. unfold top_chan. induction (t_chans k) as [|d l IH]; intros Hc; [by apply elem_of_nil in Hc|]. cbn. apply elem_of_cons in Hc as [->|Hc]; [lia|]. specialize (IH Hc). lia. Qed.

Lemma top_chan_pos k : 0 ≤ top_chan k.
Proof. unfold top_chan. induction (t_chans k) as [|d l IH]; cbn; lia. Qed.

Lemma list_to_set_filter_ne (l : list Z) c : (list_to_set (filter (λ d, d ≠ c) l) : gset Z) = list_to_set l ∖ {[c]}.
Proof. apply set_eq. intros d. rewrite elem_of_difference, !elem_of_list_to_set, list_elem_of_filter, elem_of_singleton. tauto. Qed.

#[global] Program Instance toy_desk_ok : DeskOk toy.
Next Obligation. done. Qed.
Next Obligation. done. Qed.
Next Obligation. done. Qed.
Next Obligation. done. Qed.
Next Obligation. done. Qed.
Next Obligation. done. Qed.
Next Obligation.
  intros sl k. cbn. split_and!; [done|done|]. unfold toy_wstat. destruct (t_client k) as [[cw ch]|]; [|done]. case_if; [|done]. cbn. lia.
Qed.
Next Obligation. intros p k. cbn. split; [done|]. right. split_and!; [apply top_chan_pos| |done]. intros Hc%elem_of_list_to_set%top_chan_fresh. lia. Qed.
Next Obligation. intros c k. cbn. split; [apply list_to_set_filter_ne|done]. Qed.
Next Obligation. done. Qed.
Next Obligation. intros sl k. cbn. split; [done|apply list_to_set_filter_ne]. Qed.

(** A client's window is dragged by its title to the corner, the start menu
    is opened, a terminal started and its window's body clicked. *)
Definition some_rounds : list (mouse_state * list Z) :=
  [(mk_mouse 500 500 0, [104]); (mk_mouse 100 50 1, []); (mk_mouse 5000 5000 1, []); (mk_mouse 5000 5000 0, []);
   (mk_mouse 20 750 1, []); (mk_mouse 20 750 0, []); (mk_mouse 20 640 1, []); (mk_mouse 20 640 0, []); (mk_mouse 240 300 1, [])].

Definition client_desk : toy := mk_toy [] [] (Some (780, 540)).

Example some_windows :
  let s := (session 1024 768 some_rounds (start client_desk false)).2 in
  (zorder s, (λ i, (x (win_at s i), y (win_at s i), w (win_at s i), h (win_at s i))) <$> zorder s, t_chans (kern s), t_maps (kern s)) =
  ([0; 1; 2]%nat, [(140, 120, 360, 240); (242, 171, 782, 565); (220, 184, 360, 240)], [1; 0], [0]).
Proof. vm_compute. reflexivity. Qed.

Lemma desktop_in_order_witness : maps client_desk = ∅ ∧
  let '(esc, s) := session 1024 768 some_rounds (start client_desk false) in
  if esc : bool then chans (kern s) = chans client_desk ∧ maps (kern s) = ∅
  else wm_ok 1024 768 s ∧ account (chans (kern s)) (chans client_desk) chan_of s ∧ account (maps (kern s)) ∅ surf_of s.
Proof. split; [reflexivity|]. apply desktop_in_order; [lia|lia|reflexivity]. Defined.

Lemma desktop_drawn_witness : maps client_desk = ∅ ∧
  let '(esc, s) := session 1024 768 some_rounds (start client_desk false) in
  if esc : bool then True else is_Some (paint (mk_gfx 1024 768 (replicate (Z.to_nat (1024 * 768)) 0)) (draw_all [] 1024 768 (λ _ _, 0) 500 500 0 s)).
Proof.
  split; [reflexivity|]. apply desktop_drawn; try reflexivity; try lia. split_and!; cbn [Gfx.w Gfx.h buf]; [lia|lia|]. unfold zlength. rewrite length_replicate. lia.
Defined.

Lemma click_focuses_witness :
  let s := (session 1024 768 some_rounds (start client_desk false)).2 in
  topmost (press 1024 768 (mk_mouse 600 600 1) s) = Some 1%nat.
Proof.
  cbv zeta. set (r := session 1024 768 some_rounds (start client_desk false)).
  assert (wm_ok 1024 768 r.2) as Hs.
  { pose proof (session_ok 1024 768 ltac:(lia) ltac:(lia) client_desk false some_rounds eq_refl) as Hok. fold r in Hok. assert (r.1 = false) as E by (vm_compute; reflexivity). destruct r as [esc s]. cbn in E. subst esc. cbn. by destruct Hok as [[Hok _ _] _]. }
  apply (click_focuses 1024 768 (mk_mouse 600 600 1) r.2 1); [exact Hs|vm_compute; reflexivity|vm_compute; reflexivity|vm_compute; reflexivity|vm_compute; discriminate|vm_compute; reflexivity].
Defined.
End WmDraw.
