(* ===== verification/Sym.v ===== *)
(** * The kernel's symbol table (kernel/kernel.c)

    The output of nm is parsed into a list sorted by address; a return address
    is resolved to the last symbol at or below it.  The buffer is the list of
    its characters up to its end, behind which there are zeroes. *)

From Stdlib Require Import String.
From S2P Require Import Prelude Shell.

Module Sym.
Import Shell.

(** ** The code *)

Record sym := mk_sym { addr : Z; type_ : Z; name : text }.

Definition NAME_CAP : Z := 64.

Definition sym_is_hex (c : Z) : bool :=
  (c >=? 48) && (c <=? 57) || (c >=? 97) && (c <=? 102) || (c >=? 65) && (c <=? 70).

Definition hex_digit (c : Z) : Z := if c <=? 57 then c - 48 else if c <=? 70 then c - 65 + 10 else c - 97 + 10.

(** The value of at most [n] digits. *)
Fixpoint hex_loop (n : nat) (s : text) (v : Z) : Z :=
  match n, s with
  | S n', c :: s' => if sym_is_hex c then hex_loop n' s' (Z.lor (u32 (Z.shiftl v 4)) (hex_digit c)) else v
  | _, _ => v
  end.

Definition sym_parse_hex8 (s : text) : Z := hex_loop 8 s 0.

(** The list from the node [cur] on, with [x] behind the nodes at or below
    its address. *)
Fixpoint insert_behind (x cur : sym) (rest : list sym) : list sym :=
  match rest with
  | n :: rest' => if addr n <=? addr x then cur :: insert_behind x n rest' else cur :: x :: rest
  | [] => [cur; x]
  end.

Definition sym_insert (a t : Z) (n : text) (map : list sym) : list sym :=
  let x := mk_sym a t (take (Z.to_nat (NAME_CAP - 1)) n) in
  match map with
  | [] => [x]
  | s :: rest => if a <? addr s then x :: map else insert_behind x s rest
  end.

(** The C string at the head of the buffer. *)
Fixpoint c_str (l : text) : text := match l with c :: l' => if c =? 0 then [] else c :: c_str l' | [] => [] end.

(** The line up to its newline or the end of the text, and what is behind
    it. *)
Fixpoint split_line (l : text) : text * text :=
  match l with
  | [] => ([], [])
  | c :: l' => if c =? 0 then ([], []) else if c =? 10 then ([], l') else let '(a, b) := split_line l' in (c :: a, b)
  end.

Definition parse_line (line rest : text) (map : list sym) : list sym :=
  if sym_is_hex (bget line 0) then
    let a := sym_parse_hex8 line in
    let q := skip_blanks (drop 8 (line ++ 0 :: rest)) in
    let t := bget q 0 in
    if negb (t =? 0) then
      let q := skip_blanks (tail q) in
      if negb (bget q 0 =? 0) && ((t =? 116) || (t =? 84)) then sym_insert a t (c_str q) map else map
    else map
  else map.

(** Each round takes a character at least. *)
Fixpoint parse_loop (fuel : nat) (p : text) (map : list sym) : list sym :=
  match fuel with
  | O => map
  | S n => if bget p 0 =? 0 then map else let '(line, rest) := split_line p in parse_loop n rest (parse_line line rest map)
  end.

Definition sym_parse_symtable (buffer : text) : list sym := parse_loop (length buffer) buffer [].

Definition unknown : text := txt "unknown".

Fixpoint get_loop (l : list sym) (a : Z) (n : text) : text :=
  match l with s :: l' => if addr s <=? a then get_loop l' a (name s) else n | [] => n end.

Definition sym_get (map : list sym) (a : Z) : text := get_loop map a unknown.

(** ** The output of nm *)

Record entry := mk_entry { e_addr : Z; e_type : Z; e_name : text }.

Fixpoint hex_text (n : nat) (v : Z) : text :=
  match n with
  | O => []
  | S k => let d := v / 16 ^ Z.of_nat k mod 16 in (if d <? 10 then 48 + d else 87 + d) :: hex_text k v
  end.

(** [AAAAAAAA T name]. *)
Definition nm_line (e : entry) : text := hex_text 8 (e_addr e) ++ 32 :: e_type e :: 32 :: e_name e ++ [10].
Definition nm (l : list entry) : text := concat (nm_line <$> l).

Record entry_ok (e : entry) : Prop := {
  eo_addr : 0 ≤ e_addr e < 2 ^ 32;
  eo_type : e_type e ≠ 0 ∧ e_type e ≠ 10 ∧ e_type e ≠ 32;
  eo_first : e_name e ≠ [] ∧ bget (e_name e) 0 ≠ 32;
  eo_name : Forall (λ c, c ≠ 0 ∧ c ≠ 10) (e_name e);
  eo_len : zlength (e_name e) < NAME_CAP;
}.

Definition is_code (e : entry) : bool := (e_type e =? 116) || (e_type e =? 84).

(** The name of the code symbol with the greatest address up to [a]; of
    several at that address the last. *)
Definition best (a : Z) (b : option entry) (e : entry) : option entry :=
  if is_code e && (e_addr e <=? a) then
    match b with Some b' => if e_addr b' <=? e_addr e then Some e else b | None => Some e end
  else b.

Definition enclosing (l : list entry) (a : Z) : text :=
  match foldl (best a) None l with Some e => e_name e | None => unknown end.

(** *** Digits *)

Lemma hex_text_spec n v r acc :
  0 ≤ v < 2 ^ 32 → (n ≤ 8)%nat → acc = v / 16 ^ Z.of_nat n →
  hex_loop n (hex_text n v ++ r) acc = v.
Proof.
  revert acc. induction n as [|n IH]; intros acc Hv Hn ->; [cbn; by rewrite Z.div_1_r|].
  cbn [hex_text app hex_loop]. set (d := v / 16 ^ Z.of_nat n mod 16). pose proof (Z.mod_pos_bound (v / 16 ^ Z.of_nat n) 16 ltac:(lia)) as Hd. fold d in Hd.
  assert (sym_is_hex (if d <? 10 then 48 + d else 87 + d) = true ∧ hex_digit (if d <? 10 then 48 + d else 87 + d) = d) as [-> ->].
  { assert (d ∈ seqZ 0 16) as Hin by (apply elem_of_seqZ; lia). clearbody d. clear -Hin. assert (Forall (λ d, sym_is_hex (if d <? 10 then 48 + d else 87 + d) = true ∧ hex_digit (if d <? 10 then 48 + d else 87 + d) = d) (seqZ 0 16)) as Hf.
    { apply Forall_forall. intros x Hx%elem_of_seqZ. assert (x = 0 ∨ x = 1 ∨ x = 2 ∨ x = 3 ∨ x = 4 ∨ x = 5 ∨ x = 6 ∨ x = 7 ∨ x = 8 ∨ x = 9 ∨ x = 10 ∨ x = 11 ∨ x = 12 ∨ x = 13 ∨ x = 14 ∨ x = 15) as Hc by lia. repeat (destruct Hc as [->|Hc]; [done|]). by subst x. }
    rewrite Forall_forall in Hf. by apply Hf. }
  apply IH; [done|lia|].
  assert (v / 16 ^ Z.of_nat n = v / 16 ^ Z.of_nat (S n) * 16 + d) as Hq.
  { rewrite Nat2Z.inj_succ, Z.pow_succ_r by lia. rewrite (Z.mul_comm 16), <- Z.div_div by lia. unfold d. pose proof (Z.div_mod (v / 16 ^ Z.of_nat n) 16 ltac:(lia)). lia. }
  rewrite Hq. set (u := v / 16 ^ Z.of_nat (S n)) in *.
  assert (0 ≤ u ∧ u * 16 < 2 ^ 32) as [Hu1 Hu2].
  { split; [apply Z.div_pos; lia|]. assert (v / 16 ^ Z.of_nat n ≤ v) by (apply Z.div_le_upper_bound; [lia|]; assert (1 ≤ 16 ^ Z.of_nat n) by lia; nia). lia. }
  rewrite Z.shiftl_mul_pow2 by lia. change (2 ^ 4) with 16. rewrite u32_small by lia. exact (lor_add u d 4 ltac:(lia) ltac:(lia)).
Qed.

Lemma hex_text_chars n v : Forall (λ c, c ≠ 0 ∧ c ≠ 10 ∧ c ≠ 32) (hex_text n v) ∧ length (hex_text n v) = n.
Proof.
  induction n as [|n [IH1 IH2]]; cbn; [done|]. split; [|by rewrite IH2]. apply Forall_cons. split; [|done]. pose proof (Z.mod_pos_bound (v / 16 ^ Z.of_nat n) 16 ltac:(lia)). case_if; lia.
Qed.

Lemma hex_text_head v r : sym_is_hex (bget (hex_text 8 v ++ r) 0) = true.
Proof.
  cbn [hex_text app]. match goal with |- sym_is_hex (bget (?c :: ?l) 0) = true => change (bget (c :: l) 0) with c end.
  pose proof (Z.mod_pos_bound (v / 16 ^ Z.of_nat 7) 16 ltac:(lia)) as Hd. set (d := v / 16 ^ Z.of_nat 7 mod 16) in *. clearbody d. unfold sym_is_hex.
  destruct (Z.ltb_spec d 10); [rewrite (proj2 (Z.geb_ge (48 + d) 48)), (proj2 (Z.leb_le (48 + d) 57)) by lia; done|].
  rewrite (proj2 (Z.geb_ge (87 + d) 97)), (proj2 (Z.leb_le (87 + d) 102)) by lia. by rewrite orb_true_r.
Qed.

(** *** Lines *)

Lemma split_line_at l r : Forall (λ c, c ≠ 0 ∧ c ≠ 10) l → split_line (l ++ 10 :: r) = (l, r).
Proof.
  induction l as [|c l IH]; intros Hf; [done|]. apply Forall_cons in Hf as [[H1 H2] Hf]. cbn. rewrite (proj2 (Z.eqb_neq _ _) H1), (proj2 (Z.eqb_neq _ _) H2), (IH Hf). done.
Qed.

Lemma c_str_at l r : Forall (λ c, c ≠ 0) l → c_str (l ++ 0 :: r) = l.
Proof. induction l as [|c l IH]; intros Hf; [done|]. apply Forall_cons in Hf as [H1 Hf]. cbn. rewrite (proj2 (Z.eqb_neq _ _) H1), (IH Hf). done. Qed.

Lemma skip_blanks_at c l : c ≠ 32 → skip_blanks (c :: l) = c :: l.
Proof. intros Hc. cbn. by rewrite (proj2 (Z.eqb_neq _ _) Hc). Qed.

Definition add_entry (map : list sym) (e : entry) : list sym :=
  if is_code e then sym_insert (e_addr e) (e_type e) (e_name e) map else map.

Lemma parse_line_entry e rest map : entry_ok e → parse_line (hex_text 8 (e_addr e) ++ 32 :: e_type e :: 32 :: e_name e) rest map = add_entry map e.
Proof.
  intros [Ha (Ht0 & _ & Ht) [Hn Hf] Hc Hl]. unfold parse_line. rewrite hex_text_head. unfold sym_parse_hex8. rewrite hex_text_spec; [|done|lia|by rewrite Z.div_small by (cbn in *; lia)].
  destruct (hex_text_chars 8 (e_addr e)) as [_ Hlen]. rewrite <- app_assoc, drop_app_length' by done. cbn [app].
  change (skip_blanks (32 :: ?l)) with (skip_blanks l). rewrite skip_blanks_at by done. change (bget (e_type e :: ?l) 0) with (e_type e). rewrite (proj2 (Z.eqb_neq _ _) Ht0). cbn [negb tail].
  change (skip_blanks (32 :: ?l)) with (skip_blanks l). destruct (e_name e) as [|c n] eqn:En; [done|]. change (bget (c :: n) 0) with c in Hf. cbn [app]. rewrite skip_blanks_at by done.
  change (bget (c :: ?l) 0) with c. pose proof Hc as Hc'. apply Forall_cons in Hc' as [[Hc0 _] _]. rewrite (proj2 (Z.eqb_neq _ _) Hc0). cbn [negb andb]. unfold add_entry, is_code. rewrite En.
  change (c :: n ++ 0 :: rest) with ((c :: n) ++ 0 :: rest). rewrite c_str_at; [done|]. eapply Forall_impl; [exact Hc|]. by intros d [? _].
Qed.

Lemma nm_line_split e r : entry_ok e → split_line (nm_line e ++ r) = (hex_text 8 (e_addr e) ++ 32 :: e_type e :: 32 :: e_name e, r) ∧ bget (nm_line e ++ r) 0 ≠ 0.
Proof.
  intros [Ha (Ht0 & Ht1 & Ht) [Hn Hf] Hc Hl]. unfold nm_line. destruct (hex_text_chars 8 (e_addr e)) as [Hh _]. split.
  - replace ((hex_text 8 (e_addr e) ++ 32 :: e_type e :: 32 :: e_name e ++ [10]) ++ r) with ((hex_text 8 (e_addr e) ++ 32 :: e_type e :: 32 :: e_name e) ++ 10 :: r).
    + apply split_line_at. apply Forall_app. split; [eapply Forall_impl; [exact Hh|]; intros c (? & ? & ?); done|]. repeat (apply Forall_cons; split; [done|]). done.
    + rewrite <- !app_assoc. cbn [app]. by rewrite <- app_assoc.
  - cbn [hex_text app] in *. apply Forall_cons in Hh as [[H0 _] _]. exact H0.
Qed.

Lemma parse_loop_nm l : ∀ fuel map, Forall entry_ok l → (length l < fuel)%nat → parse_loop fuel (nm l) map = foldl add_entry map l.
Proof.
  induction l as [|e l IH]; intros fuel map Hf Hl; destruct fuel as [|n]; cbn [length] in Hl; try lia; [done|]. apply Forall_cons in Hf as [He Hf]. cbn [parse_loop foldl].
  change (nm (e :: l)) with (nm_line e ++ nm l). destruct (nm_line_split e (nm l) He) as [Hs Hb]. rewrite (proj2 (Z.eqb_neq _ _) Hb), Hs, parse_line_entry by done. apply IH; [done|lia].
Qed.

Lemma nm_length l : (length l ≤ length (nm l))%nat ∧ (l ≠ [] → (length l < length (nm l))%nat).
Proof.
  induction l as [|e l [IH1 IH2]]; [done|]. change (nm (e :: l)) with (nm_line e ++ nm l). unfold nm_line. rewrite !length_app. cbn [length]. destruct (hex_text_chars 8 (e_addr e)) as [_ ->]. lia.
Qed.

(** *** The sorted list *)

Fixpoint ins (x : sym) (m : list sym) : list sym :=
  match m with [] => [x] | y :: m' => if addr x <? addr y then x :: m else y :: ins x m' end.

Lemma insert_behind_ins x cur rest : insert_behind x cur rest = cur :: ins x rest.
Proof.
  revert cur. induction rest as [|n rest IH]; intros cur; cbn; [done|]. rewrite IH. destruct (Z.leb_spec (addr n) (addr x)), (Z.ltb_spec (addr x) (addr n)); try lia; done.
Qed.

Lemma sym_insert_ins a t n map : zlength n < NAME_CAP → sym_insert a t n map = ins (mk_sym a t n) map.
Proof.
  intros Hn. unfold sym_insert. rewrite take_ge by (unfold zlength, NAME_CAP in *; lia). destruct map as [|s rest]; [done|]. cbn. case_if; [done|]. apply insert_behind_ins.
Qed.

(** Ascending addresses. *)
Fixpoint asc (m : list sym) : Prop := match m with [] => True | y :: m' => (∀ z, z ∈ m' → addr y ≤ addr z) ∧ asc m' end.

Lemma elem_of_ins z x m : z ∈ ins x m ↔ z = x ∨ z ∈ m.
Proof. induction m as [|y m IH]; cbn; [set_solver|]. case_if; set_solver. Qed.

Lemma asc_ins x m : asc m → asc (ins x m).
Proof.
  induction m as [|y m IH]; cbn; [by intros _; split; [intros z Hz%elem_of_nil|]|]. intros [H1 H2]. case_if; cbn.
  - split; [|done]. intros z [->|Hz]%elem_of_cons; [lia|]. specialize (H1 z Hz). lia.
  - split; [|by apply IH]. intros z [->|Hz]%elem_of_ins; [lia|by apply H1].
Qed.

Fixpoint get_opt (m : list sym) (a : Z) : option sym :=
  match m with y :: m' => if addr y <=? a then match get_opt m' a with Some r => Some r | None => Some y end else None | [] => None end.

Lemma get_loop_opt m a n : get_loop m a n = match get_opt m a with Some s => name s | None => n end.
Proof. revert n. induction m as [|y m IH]; intros n; cbn; [done|]. case_if; [|done]. rewrite IH. by destruct (get_opt m a). Qed.

Lemma get_opt_elem m a s : get_opt m a = Some s → s ∈ m ∧ addr s ≤ a.
Proof.
  induction m as [|y m IH]; cbn; [done|]. destruct (addr y <=? a) eqn:E; [|done]. destruct (get_opt m a) as [r|].
  - intros [= ->]. destruct (IH eq_refl). split; [by right|done].
  - intros [= <-]. boolp. split; [by left|done].
Qed.

Lemma get_ins x m a : asc m → get_opt (ins x m) a =
  if addr x <=? a then match get_opt m a with Some s => if addr s <=? addr x then Some x else Some s | None => Some x end else get_opt m a.
Proof.
  induction m as [|y m IH]; cbn [ins asc]; [intros _; cbn; by case_if|]. intros [H1 H2]. destruct (Z.ltb_spec (addr x) (addr y)) as [Hxy|Hxy].
  - cbn [get_opt]. destruct (Z.leb_spec (addr x) a) as [Hxa|Hxa]; [|destruct (Z.leb_spec (addr y) a); [lia|done]].
    destruct (Z.leb_spec (addr y) a) as [Hya|Hya]; [|done]. destruct (get_opt m a) as [r|] eqn:Eg.
    + destruct (get_opt_elem _ _ _ Eg) as [Hr _]. specialize (H1 r Hr). destruct (Z.leb_spec (addr r) (addr x)); [lia|done].
    + destruct (Z.leb_spec (addr y) (addr x)); [lia|done].
  - cbn [get_opt]. rewrite (IH H2). destruct (Z.leb_spec (addr y) a) as [Hya|Hya]; [|destruct (Z.leb_spec (addr x) a); [lia|done]].
    destruct (Z.leb_spec (addr x) a) as [Hxa|Hxa]; [|done]. destruct (get_opt m a) as [r|]; [by case_if|]. destruct (Z.leb_spec (addr y) (addr x)); [done|lia].
Qed.

(** The list and the entries so far agree. *)
Lemma entries_agree a l : ∀ map b, asc map → Forall entry_ok l →
  (match get_opt map a, b with Some s, Some e => addr s = e_addr e ∧ name s = e_name e | None, None => True | _, _ => False end) →
  match get_opt (foldl add_entry map l) a, foldl (best a) b l with Some s, Some e => name s = e_name e | None, None => True | _, _ => False end.
Proof.
  induction l as [|e l IH]; intros map b Hm Hf Hb; cbn [foldl]; [destruct (get_opt map a), b; tauto|]. apply Forall_cons in Hf as [He Hf]. 
  assert (asc (add_entry map e) ∧ match get_opt (add_entry map e) a, best a b e with Some s, Some e => addr s = e_addr e ∧ name s = e_name e | None, None => True | _, _ => False end) as [H1 H2]; [|by apply IH].
  unfold add_entry, best. destruct (is_code e); cbn [andb]; [|done]. rewrite sym_insert_ins by apply He. split; [by apply asc_ins|]. rewrite get_ins by done. cbn [addr]. destruct (e_addr e <=? a); [|done].
  destruct (get_opt map a) as [s|], b as [e'|]; try done. destruct Hb as [Ha Hb]. rewrite Ha. by case_if.
Qed.

(** Return addresses are resolved to the function they are in: on the
    output of nm the kernel finds for every address the name of the code symbol
    with the greatest address up to it, whatever the order of the lines, and
    nothing when there is none. *)
Theorem symbols_resolve l a : Forall entry_ok l → sym_get (sym_parse_symtable (nm l)) a = enclosing l a.
Proof.
  intros Hf. unfold sym_parse_symtable. destruct l as [|e l]; [done|]. rewrite parse_loop_nm; [|done|apply nm_length; done].
  unfold sym_get, enclosing. rewrite get_loop_opt. pose proof (entries_agree a (e :: l) [] None ltac:(done) Hf ltac:(done)) as H.
  destruct (get_opt _ a) as [s|], (foldl (best a) None (e :: l)) as [b|]; done.
Qed.

Definition two_functions : list entry := [mk_entry 0x100200 84 (txt "kmain"); mk_entry 0x100000 84 (txt "start"); mk_entry 0x100300 68 (txt "data")].

Lemma symbols_resolve_witness : Forall entry_ok two_functions ∧ sym_get (sym_parse_symtable (nm two_functions)) 0x100345 = txt "kmain".
Proof.
  assert (Forall entry_ok two_functions) as Hf.
  { repeat (apply Forall_cons; split; [constructor; [cbn; lia|cbn; lia|split; [done|by vm_compute]|repeat (apply Forall_cons; split; [by vm_compute|]); by apply Forall_nil|reflexivity]|]). by apply Forall_nil. }
  split; [exact Hf|]. rewrite (symbols_resolve two_functions 0x100345 Hf). reflexivity.
Defined.
End Sym.
