(* ===== verification/Hw.v ===== *)
(** * Interrupt controllers, timer, PCI and the start of the network card
    (kernel/pic.c, kernel/pit.c, kernel/pci.c, drivers/rtl8139.c)

    The code is written against ports; [pc] is a machine that has at them two
    8259 controllers, counter 0 of an 8254 and the PCI configuration
    mechanism, as their data sheets describe them.  Every other device,
    the registers of the network card among them, is arbitrary. *)

From S2P Require Import Prelude Ata Kmalloc Rtl8139 Idt.

Module Hw.
Import Ata Idt.

Class Ports32 (P : Type) `{Ports P} := {
  inl : Z → ST P Z;
  outl : Z → Z → ST P unit;
}.

(** ** The code *)

Definition ICW1_ICW4 : Z := 0x01.
Definition ICW1_INIT : Z := 0x10.
Definition ICW4_8086 : Z := 0x01.
Definition PIC1_COMMAND : Z := 0x20.
Definition PIC1_DATA : Z := 0x21.
Definition PIC2_COMMAND : Z := 0xA0.
Definition PIC2_DATA : Z := 0xA1.
Definition PIT_REG_COMMAND : Z := 0x43.
Definition PCI_CONFIG_ADDRESS : Z := 0xCF8.
Definition PCI_CONFIG_DATA : Z := 0xCFC.

Section code.
Context {P : Type} `{Ports32 P}.

Definition pic_init : ST P unit :=
  _ ← outb PIC1_COMMAND (ICW1_INIT + ICW1_ICW4);
  _ ← outb PIC2_COMMAND (ICW1_INIT + ICW1_ICW4);
  _ ← outb PIC1_DATA 0x20;
  _ ← outb PIC2_DATA 0x70;
  _ ← outb PIC1_DATA 4;
  _ ← outb PIC2_DATA 2;
  _ ← outb 0x21 ICW4_8086;
  _ ← outb 0xA1 ICW4_8086;
  _ ← outb 0x21 0xF8;
  outb 0xA1 0xEF.

Definition pic_unmask (irq : Z) : ST P unit :=
  if irq >? 15 then mret tt else
  let port := if irq <? 8 then PIC1_DATA else PIC2_DATA in
  let bit := Z.land irq 7 in
  v ← inb port;
  outb port (u8 (Z.land v (Z.lnot (Z.shiftl 1 bit)))).

(** The divisor; [None]: a division by zero. *)
Definition pit_divisor (freq : Z) : option Z := if u16 freq =? 0 then None else Some (u16 (1193181 / u16 freq)).

(** [false]: the processor faults. *)
Definition pit_init_timer (freq : Z) : ST P bool :=
  if freq =? 0 then mret true else
  match pit_divisor freq with
  | None => mret false
  | Some divisor =>
      _ ← outb PIT_REG_COMMAND 0x36;
      let l := Z.land divisor 0xFF in
      let h := Z.land (Z.shiftr divisor 8) 0xFF in
      _ ← outb 0x40 l;
      _ ← outb 0x40 h;
      mret true
  end.

Definition pci_address (bus dev fn offset : Z) : Z :=
  Z.lor (Z.lor (Z.lor (Z.lor 0x80000000 (Z.shiftl bus 16)) (Z.shiftl dev 11)) (Z.shiftl fn 8)) (Z.land offset 0xFC).

Definition pci_config_read (bus dev fn offset : Z) : ST P Z :=
  _ ← outl PCI_CONFIG_ADDRESS (pci_address bus dev fn offset);
  inl PCI_CONFIG_DATA.

Definition pci_config_write (bus dev fn offset value : Z) : ST P unit :=
  _ ← outl PCI_CONFIG_ADDRESS (pci_address bus dev fn offset);
  outl PCI_CONFIG_DATA value.

(** The inner loop from [dev] on, [n] devices left, and the outer one. *)
Fixpoint find_dev (n : nat) (vendor device bus dev : Z) : ST P (option (Z * Z)) :=
  match n with
  | O => mret None
  | S n' =>
      id ← pci_config_read bus dev 0 0;
      if Z.land id 0xFFFF =? 0xFFFF then find_dev n' vendor device bus (dev + 1)
      else if (Z.land id 0xFFFF =? vendor) && (Z.shiftr id 16 =? device) then mret (Some (u8 bus, u8 dev))
      else find_dev n' vendor device bus (dev + 1)
  end.

Fixpoint find_bus (n : nat) (vendor device bus : Z) : ST P (option (Z * Z)) :=
  match n with
  | O => mret None
  | S n' =>
      r ← find_dev 32 vendor device bus 0;
      match r with Some _ => mret r | None => find_bus n' vendor device (bus + 1) end
  end.

Definition pci_find_device (vendor device : Z) : ST P (option (Z * Z)) := find_bus 8 vendor device 0.
End code.

(** ** The start of the network card *)

Definition RTL_VENDOR : Z := 0x10EC.
Definition RTL_DEVICE : Z := 0x8139.
Definition REG_IDR0 : Z := 0x00.
Definition REG_RBSTART : Z := 0x30.
Definition REG_CR : Z := 0x37.
Definition REG_IMR : Z := 0x3C.
Definition REG_TCR : Z := 0x40.
Definition REG_RCR : Z := 0x44.
Definition REG_CONFIG1 : Z := 0x52.
Definition CR_TE : Z := 0x04.
Definition CR_RE : Z := 0x08.
Definition CR_RST : Z := 0x10.
Definition ISR_ROK : Z := 0x0001.
Definition ISR_RER : Z := 0x0002.
Definition ISR_TOK : Z := 0x0004.
Definition ISR_TER : Z := 0x0008.
Definition ISR_RXOVW : Z := 0x0010.
Definition ISR_FOVW : Z := 0x0040.
Definition IMR_BITS : Z := Z.lor (Z.lor (Z.lor (Z.lor (Z.lor ISR_ROK ISR_RER) ISR_TOK) ISR_TER) ISR_RXOVW) ISR_FOVW.
Definition RCR_CONFIG : Z := 0x0000078E.
Definition TCR_CONFIG : Z := 0x03000700.

(** The driver's variables, the interrupt table and the heap. *)
Record board (P : Type) := mk_board {
  ports : P;
  io_base : Z;
  nic_present : bool;
  mac : list Z;
  rx_buf : Z;
  rx_off : Z;
  table : list idt_entry;
  kernel_heap : Kmalloc.kheap;
}.
Arguments mk_board {P}.
Arguments ports {P}.
Arguments io_base {P}.
Arguments nic_present {P}.
Arguments mac {P}.
Arguments rx_buf {P}.
Arguments rx_off {P}.
Arguments table {P}.
Arguments kernel_heap {P}.

Section init.
Context {P : Type} `{Ports32 P}.

Definition on_ports {A} (c : ST P A) : ST (board P) A := λ b,
  let '(x, p) := c (ports b) in
  (x, mk_board p (io_base b) (nic_present b) (mac b) (rx_buf b) (rx_off b) (table b) (kernel_heap b)).

(** The poll for the end of the reset. *)
Fixpoint reset_loop (n : nat) (io : Z) : ST P unit :=
  match n with
  | O => mret tt
  | S n' => v ← inb (io + REG_CR); if Z.land v CR_RST =? 0 then mret tt else reset_loop n' io
  end.

(** The bytes of the address from [i] on. *)
Fixpoint read_mac (n : nat) (io i : Z) : ST P (list Z) :=
  match n with
  | O => mret []
  | S n' => b ← inb (io + REG_IDR0 + i); bs ← read_mac n' io (i + 1); mret (b :: bs)
  end.

Definition irq_vector (irq_line : Z) : Z := if irq_line <? 8 then 0x20 + irq_line else 0x70 + (irq_line - 8).

(** The chip is powered on and reset, and its address is read. *)
Definition power_on (io : Z) : ST P (list Z) :=
  _ ← outb (io + REG_CONFIG1) 0x00;
  _ ← outb (io + REG_CR) CR_RST;
  _ ← reset_loop (Z.to_nat Rtl8139.TX_POLL_LIMIT) io;
  read_mac 6 io 0.

(** The registers of the chip once its buffer is allocated. *)
Definition start_engine (io buf : Z) : ST P unit :=
  _ ← outl (io + REG_RBSTART) buf;
  _ ← outw (io + REG_IMR) IMR_BITS;
  _ ← outb (io + REG_CR) (Z.lor CR_RE CR_TE);
  _ ← outl (io + REG_RCR) RCR_CONFIG;
  outl (io + REG_TCR) TCR_CONFIG.

(** [None]: the allocator panics.  [irq_net]: the address of _asm_irq_net. *)
Definition rtl8139_init (irq_net : Z) : ST (board P) (option Z) :=
  r ← on_ports (pci_find_device RTL_VENDOR RTL_DEVICE);
  match r with
  | None => mret (Some (-1))
  | Some (bus, dev) =>
      cmd ← on_ports (pci_config_read bus dev 0 0x04);
      _ ← on_ports (pci_config_write bus dev 0 0x04 (Z.lor cmd 0x5));
      bar ← on_ports (pci_config_read bus dev 0 0x10);
      let io := u16 (Z.land bar (u32 (Z.lnot 0x3))) in
      _ ← modify (λ b, mk_board (ports b) io (nic_present b) (mac b) (rx_buf b) (rx_off b) (table b) (kernel_heap b));
      line ← on_ports (pci_config_read bus dev 0 0x3C);
      let irq_line := u8 (Z.land line 0xFF) in
      if irq_line >? 15 then mret (Some (-1)) else
      m ← on_ports (power_on io);
      _ ← modify (λ b, mk_board (ports b) (io_base b) (nic_present b) m (rx_buf b) (rx_off b) (table b) (kernel_heap b));
      h ← gets kernel_heap;
      match Kmalloc.kmalloc_a h Rtl8139.RX_BUF_SIZE with
      | Kmalloc.Found buf h' =>
          _ ← modify (λ b, mk_board (ports b) (io_base b) (nic_present b) (mac b) buf 0 (table b) h');
          _ ← on_ports (start_engine io buf);
          _ ← modify (λ b, mk_board (ports b) (io_base b) (nic_present b) (mac b) (rx_buf b) (rx_off b)
                (idt_install_handler (irq_vector irq_line) irq_net (table b)) (kernel_heap b));
          _ ← on_ports (pic_unmask irq_line);
          _ ← modify (λ b, mk_board (ports b) (io_base b) true (mac b) (rx_buf b) (rx_off b) (table b) (kernel_heap b));
          mret (Some 0)
      | _ => mret None
      end
  end.
End init.

(** ** The chips *)

(** An 8259: the initialisation word it expects next, or 0 when the data port
    is the mask; its vector base, cascade word, mode and mask. *)
Record pic := mk_pic { expects : Z; vector_base : Z; cascade : Z; mode : Z; imr : Z }.

Definition pic_command (v : Z) (c : pic) : pic :=
  if Z.testbit v 4 then mk_pic 2 (vector_base c) (cascade c) (mode c) 0 else c.

(** With ICW4 announced and in cascade, as ICW1 = 0x11 says. *)
Definition pic_data (v : Z) (c : pic) : pic :=
  if expects c =? 2 then mk_pic 3 (Z.land v 0xF8) (cascade c) (mode c) (imr c)
  else if expects c =? 3 then mk_pic 4 (vector_base c) v (mode c) (imr c)
  else if expects c =? 4 then mk_pic 0 (vector_base c) (cascade c) v (imr c)
  else mk_pic 0 (vector_base c) (cascade c) (mode c) v.

(** Counter 0: the control word, the low byte if it is awaiting the high one,
    and the count. *)
Record counter := mk_counter { control : Z; low_byte : option Z; reload : Z }.

Definition counter_command (v : Z) (c : counter) : counter :=
  if Z.land v 0xC0 =? 0 then mk_counter v None (reload c) else c.

Definition counter_data (v : Z) (c : counter) : counter :=
  match low_byte c with
  | None => mk_counter (control c) (Some v) (reload c)
  | Some l => mk_counter (control c) None (if l + 256 * v =? 0 then 65536 else l + 256 * v)
  end.

(** The other devices, by port and width, and how configuration registers
    take a value: the bits that can be written are the device's. *)
Class Devices (D : Type) := {
  dev_in : Z → Z → ST D Z;
  dev_out : Z → Z → Z → ST D unit;
  cfg_store : Z → Z → Z → Z;
}.

Record pc (D : Type) := mk_pc {
  master : pic; slave : pic; timer : counter; latch : Z; config : Z → Z; others : D;
}.
Arguments mk_pc {D}.
Arguments master {D}.
Arguments slave {D}.
Arguments timer {D}.
Arguments latch {D}.
Arguments config {D}.
Arguments others {D}.

Section pc.
Context {D : Type} `{Devices D}.

Definition other_in (w p : Z) : ST (pc D) Z := λ m,
  let '(v, d) := dev_in w p (others m) in (v, mk_pc (master m) (slave m) (timer m) (latch m) (config m) d).
Definition other_out (w p v : Z) : ST (pc D) unit := λ m,
  (tt, mk_pc (master m) (slave m) (timer m) (latch m) (config m) (dev_out w p v (others m)).2).

#[export] Instance pc_ports : Ports (pc D) := {
  inb p := λ m,
    if p =? 0x21 then (imr (master m), m) else if p =? 0xA1 then (imr (slave m), m) else other_in 1 p m;
  outb p v := λ m,
    if p =? 0x20 then (tt, mk_pc (pic_command v (master m)) (slave m) (timer m) (latch m) (config m) (others m))
    else if p =? 0x21 then (tt, mk_pc (pic_data v (master m)) (slave m) (timer m) (latch m) (config m) (others m))
    else if p =? 0xA0 then (tt, mk_pc (master m) (pic_command v (slave m)) (timer m) (latch m) (config m) (others m))
    else if p =? 0xA1 then (tt, mk_pc (master m) (pic_data v (slave m)) (timer m) (latch m) (config m) (others m))
    else if p =? 0x43 then (tt, mk_pc (master m) (slave m) (counter_command v (timer m)) (latch m) (config m) (others m))
    else if p =? 0x40 then (tt, mk_pc (master m) (slave m) (counter_data v (timer m)) (latch m) (config m) (others m))
    else other_out 1 p v m;
  inw p := other_in 2 p;
  outw p v := other_out 2 p v;
}.

#[export] Instance pc_ports32 : Ports32 (pc D) := {
  inl p := λ m, if p =? 0xCFC then (config m (latch m), m) else other_in 4 p m;
  outl p v := λ m,
    if p =? 0xCF8 then (tt, mk_pc (master m) (slave m) (timer m) v (config m) (others m))
    else if p =? 0xCFC then
      (tt, mk_pc (master m) (slave m) (timer m) (latch m)
             (λ a, if a =? latch m then cfg_store a (config m a) v else config m a) (others m))
    else other_out 4 p v m;
}.

(** The vector an interrupt line raises, and whether it gets through: the
    slave's lines need line 2 of the master. *)
Definition line_vector (m : pc D) (irq : Z) : Z :=
  if irq <? 8 then vector_base (master m) + irq else vector_base (slave m) + (irq - 8).

Definition line_enabled (m : pc D) (irq : Z) : bool :=
  if irq <? 8 then negb (Z.testbit (imr (master m)) irq)
  else negb (Z.testbit (imr (slave m)) (irq - 8)) && negb (Z.testbit (imr (master m)) 2).
End pc.
End Hw.

(** * The interrupt lines (kernel/pic.c, kernel/pit.c, kernel/pci.c,
    drivers/rtl8139.c)

    What the chips of [Hw.pc] do after the code has programmed them: the
    vectors the lines raise are the ones whose gates idt_init and the network
    card install, and the mask lets through what was asked for. *)

Module HwSpec.
Import Ata Idt Hw.

Section spec.
Context {D : Type} `{Devices D}.
Implicit Types m : pc D.

(** ** The interrupt controllers *)

(** Both controllers programmed, and the mask of the sixteen lines. *)
Record pic_ready m : Prop := {
  pr_expects : expects (master m) = 0 ∧ expects (slave m) = 0;
  pr_base : vector_base (master m) = 0x20 ∧ vector_base (slave m) = 0x70;
  pr_cascade : cascade (master m) = 4 ∧ cascade (slave m) = 2;
  pr_mode : mode (master m) = ICW4_8086 ∧ mode (slave m) = ICW4_8086;
  pr_imr : is_byte (imr (master m)) ∧ is_byte (imr (slave m));
}.

(** The mask register itself, without the cascade. *)
Definition masked m (irq : Z) : bool := if irq <? 8 then Z.testbit (imr (master m)) irq else Z.testbit (imr (slave m)) (irq - 8).

Lemma pic_init_ready m : pic_ready (pic_init m).2 ∧ imr (master (pic_init m).2) = 0xF8 ∧ imr (slave (pic_init m).2) = 0xEF.
Proof. split; [|done]. by split. Qed.

Lemma bit_byte v : is_byte v → ∀ i, 8 ≤ i → Z.testbit v i = false.
Proof.
  intros Hv i Hi. destruct (decide (v = 0)) as [->|Hz]; [apply Z.testbit_0_l|]. unfold is_byte in Hv.
  apply Z.bits_above_log2; [lia|]. assert (Z.log2 v < 8) by (apply Z.log2_lt_pow2; lia). lia.
Qed.

Lemma clear_bit v n i : is_byte v → 0 ≤ n < 8 → 0 ≤ i →
  let w := u8 (Z.land v (Z.lnot (Z.shiftl 1 n))) in is_byte w ∧ Z.testbit w i = Z.testbit v i && negb (i =? n).
Proof.
  intros Hv Hn Hi w. unfold w, u8. change 256 with (2 ^ 8). split; [unfold is_byte; change 256 with (2 ^ 8); apply Z.mod_pos_bound; lia|].
  destruct (decide (i < 8)).
  - rewrite Z.mod_pow2_bits_low by lia. rewrite <- Z.ldiff_land. change (Z.ldiff v (Z.shiftl 1 n)) with (Z.clearbit v n).
    by rewrite Z.clearbit_eqb, (Z.eqb_sym n i) by lia.
  - rewrite Z.mod_pow2_bits_high by lia. by rewrite bit_byte by (done || lia).
Qed.

Lemma land7 irq : 0 ≤ irq ≤ 15 → Z.land irq 7 = if irq <? 8 then irq else irq - 8.
Proof. intros Hi. change 7 with (Z.ones 3). rewrite Z.land_ones by lia. change (2 ^ 3) with 8. case_if; zdm. Qed.

Definition cleared (v bit : Z) : Z := u8 (Z.land v (Z.lnot (Z.shiftl 1 bit))).

Lemma unmask_low irq m : irq <= 15 → irq < 8 →
  pic_unmask irq m = (tt, mk_pc (pic_data (cleared (imr (master m)) (Z.land irq 7)) (master m)) (slave m) (timer m) (latch m) (config m) (others m)).
Proof. intros H1 H2. unfold pic_unmask. rewrite Z.gtb_ltb, (proj2 (Z.ltb_ge 15 irq)), (proj2 (Z.ltb_lt irq 8)) by lia. done. Qed.

Lemma unmask_high irq m : irq <= 15 → 8 ≤ irq →
  pic_unmask irq m = (tt, mk_pc (master m) (pic_data (cleared (imr (slave m)) (Z.land irq 7)) (slave m)) (timer m) (latch m) (config m) (others m)).
Proof. intros H1 H2. unfold pic_unmask. rewrite Z.gtb_ltb, (proj2 (Z.ltb_ge 15 irq)), (proj2 (Z.ltb_ge irq 8)) by lia. done. Qed.

(** One line is unmasked, the others and every other chip are as before. *)
Lemma pic_unmask_spec irq m : pic_ready m → 0 ≤ irq →
  let m' := (pic_unmask irq m).2 in
  pic_ready m' ∧ timer m' = timer m ∧ latch m' = latch m ∧ config m' = config m ∧ others m' = others m ∧
  ∀ i, 0 ≤ i < 16 → masked m' i = masked m i && negb (i =? irq).
Proof.
  intros [He Hb Hc Hm [Hi1 Hi2]] Hirq m'. unfold m'. destruct (decide (15 < irq)).
  { unfold pic_unmask. rewrite (proj2 (Z.gtb_lt irq 15)) by done. split_and!; try done. intros i Hi. by rewrite (proj2 (Z.eqb_neq i irq)), andb_true_r by lia. }
  destruct He as [He1 He2]. destruct (decide (irq < 8)) as [Hl|Hl].
  - rewrite unmask_low by lia. rewrite land7, (proj2 (Z.ltb_lt irq 8)) by lia. unfold pic_data, cleared. rewrite He1. cbn [Z.eqb snd].
    split_and!; try done. { destruct (clear_bit (imr (master m)) irq 0) as [? _]; [done|lia|lia|]. by split. }
    intros i Hi. unfold masked. cbn [master slave imr]. destruct (Z.ltb_spec i 8).
    + by destruct (clear_bit (imr (master m)) irq i) as [_ ->]; [done|lia|lia|].
    + by rewrite (proj2 (Z.eqb_neq i irq)), andb_true_r by lia.
  - rewrite unmask_high by lia. rewrite land7, (proj2 (Z.ltb_ge irq 8)) by lia. unfold pic_data, cleared. rewrite He2. cbn [Z.eqb snd].
    split_and!; try done. { destruct (clear_bit (imr (slave m)) (irq - 8) 0) as [? _]; [done|lia|lia|]. by split. }
    intros i Hi. unfold masked. cbn [master slave imr]. destruct (Z.ltb_spec i 8).
    + by rewrite (proj2 (Z.eqb_neq i irq)), andb_true_r by lia.
    + destruct (clear_bit (imr (slave m)) (irq - 8) (i - 8)) as [_ ->]; [done|lia|lia|]. f_equal. f_equal.
      destruct (Z.eqb_spec i irq); [by rewrite (proj2 (Z.eqb_eq _ _)) by lia|by rewrite (proj2 (Z.eqb_neq _ _)) by lia].
Qed.

(** A sequence of calls of pic_unmask. *)
Fixpoint unmask_all (irqs : list Z) : ST (pc D) unit :=
  match irqs with [] => mret tt | irq :: irqs' => _ ← pic_unmask irq; unmask_all irqs' end.

Lemma unmask_all_spec irqs m : pic_ready m → Forall (λ i, 0 ≤ i) irqs →
  let m' := (unmask_all irqs m).2 in pic_ready m' ∧ ∀ i, 0 ≤ i < 16 → masked m' i = masked m i && bool_decide (i ∉ irqs).
Proof.
  intros Hr Hf. revert m Hr. induction Hf as [|irq irqs Hirq Hf IH]; intros m Hr.
  { split; [done|]. intros i Hi. rewrite bool_decide_true by apply not_elem_of_nil. by rewrite andb_true_r. }
  cbn [unmask_all]. unfold mbind, ST_bind. destruct (pic_unmask_spec irq m Hr Hirq) as (Hr' & _ & _ & _ & _ & Hm).
  destruct (pic_unmask irq m) as [[] m1]. cbn [snd] in *. destruct (IH m1 Hr') as [Hr2 Hm2]. split; [done|].
  intros i Hi. rewrite Hm2, Hm by done. rewrite <- andb_assoc. f_equal.
  destruct (Z.eqb_spec i irq) as [->|Hne]; cbn; [by rewrite bool_decide_false by set_solver|]. apply bool_decide_ext. set_solver.
Qed.

Lemma enabled_masked m i : 0 ≤ i → line_enabled m i = negb (masked m i) && (if i <? 8 then true else negb (masked m 2)).
Proof. intros Hi. unfold line_enabled, masked. by destruct (i <? 8); rewrite ?andb_true_r. Qed.

Definition boot_lines : list Z := [0; 1; 2; 12].
Definition line_stub (irq : Z) : option stub := if irq =? 0 then Some irq_0 else if irq =? 1 then Some irq_1 else if irq =? 12 then Some irq_12 else None.

(** Whatever state the chips were left in, after pic_init and any calls of
    pic_unmask a line gets through exactly when it is one of the boot lines or
    was asked for; the lines raise the vectors 0x20 to 0x27 and 0x70 to 0x77,
    clear of the exceptions; and the gates idt_init installs at the vectors
    of the timer, the keyboard and the mouse are their handlers. *)
Theorem lines_routed (addr : stub → Z) m irqs :
  (∀ s, 0 ≤ addr s < 4294967296) → Forall (λ i, 0 ≤ i < 256) irqs →
  let m' := (_ ← pic_init; unmask_all irqs) m in
  ∀ irq, 0 ≤ irq < 16 →
    (line_enabled m'.2 irq = true ↔ irq ∈ boot_lines ∨ irq ∈ irqs) ∧
    32 ≤ line_vector m'.2 irq < 256 ∧
    (∀ irq2, 0 ≤ irq2 < 16 → line_vector m'.2 irq = line_vector m'.2 irq2 → irq = irq2) ∧
    ∀ s, line_stub irq = Some s → gate_offset <$> idt_init addr !! Z.to_nat (line_vector m'.2 irq) = Some (addr s).
Proof.
  intros Ha Hf m' irq Hirq. unfold m', mbind, ST_bind. destruct (pic_init_ready m) as (Hr & Hi1 & Hi2).
  destruct (pic_init m) as [[] m1]. cbn [snd] in *.
  destruct (unmask_all_spec irqs m1 Hr) as [Hr2 Hm]; [eapply Forall_impl; [exact Hf|]; cbn; lia|].
  destruct (unmask_all irqs m1) as [[] m2]. cbn [snd] in *. destruct Hr2 as [_ [Hb1 Hb2] _ _ _].
  assert (∀ i, 0 ≤ i < 16 → masked m1 i = bool_decide (i ∉ boot_lines)) as Hm1.
  { intros i Hi. unfold masked. rewrite Hi1, Hi2. clear -Hi.
    assert (Forall (λ i, (if i <? 8 then Z.testbit 248 i else Z.testbit 239 (i - 8)) = bool_decide (i ∉ boot_lines)) (seqZ 0 16)) as Hall by (apply (bool_decide_unpack _); vm_compute; exact I).
    rewrite Forall_forall in Hall. apply Hall, elem_of_seqZ. lia. }
  split_and!.
  - assert (2 ∈ boot_lines) as H2 by set_solver. rewrite enabled_masked by lia. rewrite !Hm, !Hm1 by lia. rewrite (bool_decide_false (2 ∉ boot_lines)) by (intros X; by apply X).
    cbn [andb negb]. replace (if irq <? 8 then true else true) with true by by destruct (irq <? 8). rewrite andb_true_r, negb_true_iff, andb_false_iff, !bool_decide_eq_false.
    split; [intros [X|X]; [left|right]; by apply dec_stable|intros [X|X]; [left|right]; by intros Y].
  - unfold line_vector. rewrite Hb1, Hb2. case_if; lia.
  - unfold line_vector. rewrite Hb1, Hb2. case_if; lia.
  - intros irq2 Hirq2. unfold line_vector. rewrite Hb1, Hb2. do 2 case_if; lia.
  - intros s Hs. unfold line_vector. rewrite Hb1, Hb2.
    assert (init_stubs !! Z.to_nat (if irq <? 8 then 32 + irq else 112 + (irq - 8)) = Some (Some s)) as Hv.
    { unfold line_stub in Hs. destruct (Z.eqb_spec irq 0) as [->|]; [|destruct (Z.eqb_spec irq 1) as [->|]; [|destruct (Z.eqb_spec irq 12) as [->|]; [|done]]];
      injection Hs as <-; by vm_compute. }
    rewrite (init_vector addr _ _ Hv). cbn [fmap option_fmap option_map]. unfold entry_of. by rewrite gate_address.
Qed.

(** ** Configuration space *)

Definition set_latch (a : Z) m : pc D := mk_pc (master m) (slave m) (timer m) a (config m) (others m).

Lemma config_read bus dev fn off m :
  pci_config_read bus dev fn off m = (config m (pci_address bus dev fn off), set_latch (pci_address bus dev fn off) m).
Proof. done. Qed.

Definition stored (a v : Z) (cfg : Z → Z) : Z → Z := λ x, if x =? a then cfg_store x (cfg x) v else cfg x.

Lemma config_write bus dev fn off v m :
  pci_config_write bus dev fn off v m =
    (tt, let a := pci_address bus dev fn off in mk_pc (master m) (slave m) (timer m) a (stored a v (config m)) (others m)).
Proof. done. Qed.

(** Does the device in a slot have the identification? *)
Definition is_device (cfg : Z → Z) (vendor device : Z) (slot : Z * Z) : bool :=
  let id := cfg (pci_address slot.1 slot.2 0 0) in
  negb (Z.land id 0xFFFF =? 0xFFFF) && (Z.land id 0xFFFF =? vendor) && (Z.shiftr id 16 =? device).

(** Slots in the order of the scan: the devices of a bus from [dev] on, and
    the buses from [bus] on. *)
Definition devices (bus dev : Z) (n : nat) : list (Z * Z) := (λ d, (bus, d)) <$> seqZ dev (Z.of_nat n).
Definition slots (bus : Z) (n : nat) : list (Z * Z) := concat ((λ b, devices b 0 32) <$> seqZ bus (Z.of_nat n)).

Lemma seqZ_S a n : seqZ a (Z.of_nat (S n)) = a :: seqZ (a + 1) (Z.of_nat n).
Proof. rewrite seqZ_cons by lia. f_equal. f_equal; lia. Qed.

Definition first_device (cfg : Z → Z) (vendor device : Z) (l : list (Z * Z)) : option (Z * Z) := head (filter (λ s, is_device cfg vendor device s = true) l).

Lemma first_cons cfg v d s l : first_device cfg v d (s :: l) = if is_device cfg v d s then Some s else first_device cfg v d l.
Proof. unfold first_device. destruct (is_device cfg v d s) eqn:E; [by rewrite filter_cons_True|by rewrite filter_cons_False by by rewrite E]. Qed.

Lemma first_app cfg v d l1 l2 : first_device cfg v d (l1 ++ l2) = match first_device cfg v d l1 with Some s => Some s | None => first_device cfg v d l2 end.
Proof. induction l1 as [|s l1 IH]; [done|]. cbn [app]. rewrite !first_cons, IH. by destruct (is_device cfg v d s). Qed.

Lemma find_dev_spec n vendor device bus dev m : 0 ≤ bus < 256 → 0 ≤ dev → dev + Z.of_nat n ≤ 256 →
  ∃ a, find_dev n vendor device bus dev m = (first_device (config m) vendor device (devices bus dev n), set_latch a m).
Proof.
  intros Hb. revert dev m. induction n as [|n IH]; intros dev m Hd Hn; [by exists (latch m); destruct m|].
  cbn [find_dev]. unfold mbind, ST_bind. rewrite config_read. set (a := pci_address bus dev 0 0).
  unfold devices. rewrite seqZ_S, fmap_cons, first_cons. fold (devices bus (dev + 1) n). unfold is_device. cbn [fst snd]. fold a.
  destruct (IH (dev + 1) (set_latch a m)) as [a' Ha']; [lia|lia|]. cbn [config set_latch] in Ha'.
  destruct (Z.eqb_spec (Z.land (config m a) 0xFFFF) 0xFFFF) as [E|E]; cbn [negb andb]; [by exists a'; rewrite Ha'|].
  destruct (_ && _); [|by exists a'; rewrite Ha']. exists a. unfold u8. by rewrite !Z.mod_small by lia.
Qed.

(** The scan finds the first slot that holds the device. *)
Lemma find_bus_spec n vendor device bus m : 0 ≤ bus → bus + Z.of_nat n ≤ 256 →
  ∃ a, find_bus n vendor device bus m = (first_device (config m) vendor device (slots bus n), set_latch a m).
Proof.
  revert bus m. induction n as [|n IH]; intros bus m Hb Hn; [by exists (latch m); destruct m|].
  cbn [find_bus]. unfold mbind, ST_bind. destruct (find_dev_spec 32 vendor device bus 0 m) as [a Ha]; [lia|lia|lia|]. rewrite Ha.
  unfold slots. rewrite seqZ_S, fmap_cons. cbn [concat]. rewrite first_app. fold (slots (bus + 1) n).
  destruct (first_device (config m) vendor device (devices bus 0 32)); [by exists a|].
  destruct (IH (bus + 1) (set_latch a m)) as [a' Ha']; [lia|lia|]. exists a'. by rewrite Ha'.
Qed.

(** ** Registers of other devices *)

(** The chips are left alone. *)
Record keeps m m' : Prop := {
  k_master : master m' = master m; k_slave : slave m' = slave m; k_timer : timer m' = timer m; k_config : config m' = config m;
}.

Definition quietly {A} (c : ST (pc D) A) : Prop := ∀ m, keeps m (c m).2.

Lemma quiet_ret {A} (x : A) : quietly (mret x).
Proof. by intros m. Qed.

Lemma quiet_bind {A B} (c : ST (pc D) A) (k : A → ST (pc D) B) : quietly c → (∀ x, quietly (k x)) → quietly (c ≫= k).
Proof.
  intros Hc Hk m. unfold mbind, ST_bind. specialize (Hc m). destruct (c m) as [x m1]. cbn [snd] in Hc. specialize (Hk x m1).
  destruct Hc, Hk. split; congruence.
Qed.

Definition device_port (p : Z) : Prop := 0x1000 ≤ p.

Lemma quiet_in w p : quietly (other_in w p).
Proof. intros m. unfold other_in. by destruct (dev_in w p (others m)). Qed.

Lemma quiet_inb p : device_port p → quietly (inb p).
Proof. intros Hp m. cbn. unfold device_port in Hp. rewrite !(proj2 (Z.eqb_neq p _)) by lia. apply quiet_in. Qed.

Lemma quiet_outb p v : device_port p → quietly (outb p v).
Proof. intros Hp m. cbn. unfold device_port in Hp. by rewrite !(proj2 (Z.eqb_neq p _)) by lia. Qed.

Lemma quiet_outl p v : device_port p → quietly (outl p v).
Proof. intros Hp m. cbn. unfold device_port in Hp. by rewrite !(proj2 (Z.eqb_neq p _)) by lia. Qed.

Lemma quiet_outw p v : quietly (outw p v).
Proof. by intros m. Qed.
End spec.

Section nic.
Context {D : Type} `{Devices D}.
Implicit Types m : pc D.

Lemma quiet_reset n io : device_port io → quietly (reset_loop n io : ST (pc D) unit).
Proof.
  intros Hi. assert (device_port (io + REG_CR)) by (unfold device_port, REG_CR in *; lia).
  induction n as [|n IH]; [apply quiet_ret|]. cbn [reset_loop]. apply quiet_bind; [by apply quiet_inb|]. intros x. case_if; [apply quiet_ret|done].
Qed.

Lemma quiet_mac n io i : device_port io → 0 ≤ i → quietly (read_mac n io i : ST (pc D) _).
Proof.
  intros Hi. revert i. induction n as [|n IH]; intros i H0; [apply quiet_ret|]. cbn [read_mac].
  apply quiet_bind; [apply quiet_inb; unfold device_port, REG_IDR0 in *; lia|]. intros x. apply quiet_bind; [apply IH; lia|intros y; apply quiet_ret].
Qed.

Lemma quiet_start io buf : device_port io → quietly (start_engine io buf : ST (pc D) unit).
Proof.
  intros Hi. unfold start_engine, device_port in *. cbv [REG_RBSTART REG_IMR REG_CR REG_RCR REG_TCR].
  apply quiet_bind; [apply quiet_outl; unfold device_port; lia|intros _].
  apply quiet_bind; [apply quiet_outw|intros _].
  apply quiet_bind; [apply quiet_outb; unfold device_port; lia|intros _].
  apply quiet_bind; [apply quiet_outl; unfold device_port; lia|intros _].
  apply quiet_outl; unfold device_port; lia.
Qed.

(** Registers of a function are at different addresses. *)
Lemma shifted_low x k : 8 ≤ k → Z.land (Z.shiftl x k) 0xFF = 0.
Proof.
  intros Hk. change 0xFF with (Z.ones 8). rewrite Z.land_ones, Z.shiftl_mul_pow2 by lia. replace (2 ^ k) with (2 ^ (k - 8) * 2 ^ 8) by (rewrite <- Z.pow_add_r by lia; f_equal; lia).
  rewrite Z.mul_assoc. apply Z.mod_mul. lia.
Qed.

Lemma address_register bus dev fn off : Z.land (pci_address bus dev fn off) 0xFF = Z.land off 0xFC.
Proof.
  unfold pci_address. rewrite !Z.land_lor_distr_l, !shifted_low by lia. cbn [Z.land Z.lor]. rewrite !Z.lor_0_l, <- Z.land_assoc. done.
Qed.

Lemma other_register bus dev off off' v (cfg : Z → Z) :
  Z.land off 0xFC ≠ Z.land off' 0xFC →
  stored (pci_address bus dev 0 off) v cfg (pci_address bus dev 0 off') = cfg (pci_address bus dev 0 off').
Proof.
  intros Hne. unfold stored. rewrite (proj2 (Z.eqb_neq _ _)); [done|]. intros E. apply Hne. by rewrite <- !(address_register bus dev 0), E.
Qed.

Definition bar_port (cfg : Z → Z) (bus dev : Z) : Z := u16 (Z.land (cfg (pci_address bus dev 0 0x10)) (u32 (Z.lnot 0x3))).
Definition line_register (cfg : Z → Z) (bus dev : Z) : Z := u8 (Z.land (cfg (pci_address bus dev 0 0x3C)) 0xFF).

(** What a start that fails leaves alone. *)
Record untouched (b b' : board (pc D)) : Prop := {
  un_nic : nic_present b' = nic_present b;
  un_table : table b' = table b;
  un_heap : kernel_heap b' = kernel_heap b;
  un_pics : master (ports b') = master (ports b) ∧ slave (ports b') = slave (ports b);
  un_others : others (ports b') = others (ports b);
}.

(** What a start that succeeds changes: the vector of the card's line is its
    handler's and the line gets through; the other lines and gates stay. *)
Record started (irq_net irq buf : Z) (h' : Kmalloc.kheap) (b b' : board (pc D)) : Prop := {
  st_nic : nic_present b' = true ∧ rx_buf b' = buf ∧ rx_off b' = 0 ∧ kernel_heap b' = h';
  st_gate : gate_offset <$> table b' !! Z.to_nat (line_vector (ports b') irq) = Some irq_net;
  st_line : line_enabled (ports b') irq = true;
  st_gates n : n ≠ Z.to_nat (line_vector (ports b') irq) → table b' !! n = table b !! n;
  st_lines i : 0 ≤ i < 16 → i ≠ irq → line_enabled (ports b') i = line_enabled (ports b) i;
}.

Lemma on_ports_eq {A} (c : ST (pc D) A) (b : board (pc D)) x m :
  c (ports b) = (x, m) →
  on_ports c b = (x, mk_board m (io_base b) (nic_present b) (mac b) (rx_buf b) (rx_off b) (table b) (kernel_heap b)).
Proof. intros E. unfold on_ports. by rewrite E. Qed.

(** The controllers are the same. *)
Definition same_pics m m' : Prop := master m' = master m ∧ slave m' = slave m.

Lemma ready_keeps m m' : same_pics m m' → pic_ready m → pic_ready m'.
Proof. intros [E1 E2] [He Hb Hc Hm Hi]. split; by rewrite E1, E2. Qed.

Lemma masked_keeps m m' i : same_pics m m' → masked m' i = masked m i.
Proof. intros [E1 E2]. unfold masked. by rewrite E1, E2. Qed.

Lemma ready_vector m irq : pic_ready m → line_vector m irq = irq_vector irq.
Proof. intros [_ [E1 E2] _ _ _]. unfold line_vector, irq_vector. by rewrite E1, E2. Qed.

(** The end of the start, from the machine [m1] on whose chips are those of
    the machine before. *)
Lemma unmasked_started irq_net irq buf h' m1 io mc (b : board (pc D)) :
  pic_ready (ports b) → masked (ports b) 2 = false → length (table b) = 256%nat → 0 ≤ irq_net < 4294967296 → 0 ≤ irq ≤ 15 →
  same_pics (ports b) m1 →
  started irq_net irq buf h' b
    (mk_board (pic_unmask irq m1).2 io true mc buf 0 (idt_install_handler (irq_vector irq) irq_net (table b)) h').
Proof.
  intros Hr H2 Hl Hn Hirq Hk. destruct (pic_unmask_spec irq m1) as (Hr' & _ & _ & _ & _ & Hm); [by eapply ready_keeps|lia|].
  assert (0 ≤ irq_vector irq < 256) as Hv by (unfold irq_vector; case_if; lia).
  assert (∀ i, 0 ≤ i < 16 → line_enabled (pic_unmask irq m1).2 i = (if decide (i = irq) then true else line_enabled (ports b) i)) as He.
  { intros i Hi. rewrite !enabled_masked, !Hm, !(masked_keeps (ports b) m1), H2 by (done || lia). cbn [andb negb].
    case_decide as E; [subst i; rewrite Z.eqb_refl, andb_false_r; by destruct (irq <? 8)|]. by rewrite (proj2 (Z.eqb_neq i irq)), andb_true_r by done. }
  split; cbn [ports table nic_present rx_buf rx_off kernel_heap]; rewrite ?(ready_vector _ _ Hr').
  - done.
  - unfold idt_install_handler, idt_set_gate. rewrite list_lookup_insert_eq by lia. cbn [fmap option_fmap option_map]. by rewrite gate_address.
  - rewrite He by lia. by rewrite decide_True.
  - intros n Hne. unfold idt_install_handler, idt_set_gate. by rewrite list_lookup_insert_ne by done.
  - intros i Hi Hne. rewrite He by done. by rewrite decide_False.
Qed.

(** The state after the device is found and its registers are read. *)
Definition found (bus dev : Z) (b : board (pc D)) : board (pc D) :=
  let m := ports b in
  let a := pci_address bus dev 0 0x04 in
  mk_board (mk_pc (master m) (slave m) (timer m) (pci_address bus dev 0 0x3C) (stored a (Z.lor (config m a) 0x5) (config m)) (others m))
    (bar_port (config m) bus dev) (nic_present b) (mac b) (rx_buf b) (rx_off b) (table b) (kernel_heap b).

(** The start from there. *)
Definition bring_up (irq_net irq : Z) : ST (board (pc D)) (option Z) := λ b,
  let io := io_base b in
  if irq >? 15 then (Some (-1), b) else
  let m := power_on io (ports b) in
  match Kmalloc.kmalloc_a (kernel_heap b) Rtl8139.RX_BUF_SIZE with
  | Kmalloc.Found buf h' =>
      let m2 := (start_engine io buf m.2).2 in
      (Some 0, mk_board (pic_unmask irq m2).2 io true m.1 buf 0 (idt_install_handler (irq_vector irq) irq_net (table b)) h')
  | _ => (None, mk_board m.2 io (nic_present b) m.1 (rx_buf b) (rx_off b) (table b) (kernel_heap b))
  end.

Lemma init_steps irq_net (b : board (pc D)) :
  rtl8139_init irq_net b =
    let '(r, m) := pci_find_device RTL_VENDOR RTL_DEVICE (ports b) in
    let b1 := mk_board m (io_base b) (nic_present b) (mac b) (rx_buf b) (rx_off b) (table b) (kernel_heap b) in
    match r with
    | None => (Some (-1), b1)
    | Some (bus, dev) => bring_up irq_net (line_register (config m) bus dev) (found bus dev b1)
    end.
Proof.
  unfold rtl8139_init. destruct (pci_find_device RTL_VENDOR RTL_DEVICE (ports b)) as [r m] eqn:E. unfold mbind at 1, ST_bind at 1.
  rewrite (on_ports_eq _ _ _ _ E). destruct r as [[bus dev]|]; [|done].
  set (b1 := mk_board m _ _ _ _ _ _ _). set (a := pci_address bus dev 0 0x04).
  unfold mbind, ST_bind, on_ports, modify, gets. cbn [ports io_base nic_present mac rx_buf rx_off table kernel_heap b1].
  rewrite !config_read, config_write, !config_read. fold a. unfold set_latch. cbn [ports config master slave timer latch others].
  unfold a. rewrite !other_register by done. fold (bar_port (config m) bus dev). fold (line_register (config m) bus dev).
  unfold bring_up, found. cbn [ports io_base nic_present mac rx_buf rx_off table kernel_heap b1 master slave timer config others]. subst a.
  destruct (line_register (config m) bus dev >? 15); [done|].
  destruct (power_on _ _) as [mc m1]. cbn [ports io_base nic_present mac rx_buf rx_off table kernel_heap fst snd].
  destruct (Kmalloc.kmalloc_a (kernel_heap b) Rtl8139.RX_BUF_SIZE) as [buf h'| |]; [|done|done].
  destruct (start_engine _ _ _) as [[] m2]. cbn [ports io_base nic_present mac rx_buf rx_off table kernel_heap fst snd].
  by destruct (pic_unmask _ _) as [[] m3].
Qed.

Lemma quiet_power io : device_port io → quietly (power_on io : ST (pc D) _).
Proof.
  intros Hi. unfold power_on. apply quiet_bind; [apply quiet_outb; unfold device_port, REG_CONFIG1 in *; lia|intros _].
  apply quiet_bind; [apply quiet_outb; unfold device_port, REG_CR in *; lia|intros _].
  apply quiet_bind; [by apply quiet_reset|intros _]. by apply quiet_mac.
Qed.

(** C30: The start of the network card, for any devices on the bus: without the
    card, or with one that has no line of the controllers, nothing but the
    command register of the card changes and the result is -1; otherwise, if
    there is memory for the ring, the result is 0, the vector the
    controllers raise for the card's line has the card's gate, the line gets
    through, and no other line or gate changes. *)
Theorem nic_line_delivered irq_net (b : board (pc D)) :
  pic_ready (ports b) → masked (ports b) 2 = false → length (table b) = 256%nat → 0 ≤ irq_net < 4294967296 →
  (∀ bus dev, first_device (config (ports b)) RTL_VENDOR RTL_DEVICE (slots 0 8) = Some (bus, dev) → device_port (bar_port (config (ports b)) bus dev)) →
  let cfg := config (ports b) in
  let '(r, b') := rtl8139_init irq_net b in
  match first_device cfg RTL_VENDOR RTL_DEVICE (slots 0 8) with
  | None => r = Some (-1) ∧ untouched b b' ∧ config (ports b') = cfg
  | Some (bus, dev) =>
      let a := pci_address bus dev 0 0x04 in
      let irq := line_register cfg bus dev in
      config (ports b') = stored a (Z.lor (cfg a) 0x5) cfg ∧
      if decide (irq > 15) then r = Some (-1) ∧ untouched b b'
      else match Kmalloc.kmalloc_a (kernel_heap b) Rtl8139.RX_BUF_SIZE with
           | Kmalloc.Found buf h' => r = Some 0 ∧ started irq_net irq buf h' b b'
           | _ => r = None
           end
  end.
Proof.
  intros Hr H2 Hl Hn Hp cfg. rewrite init_steps. unfold pci_find_device. destruct (find_bus_spec 8 RTL_VENDOR RTL_DEVICE 0 (ports b)) as [l ->]; [lia|lia|]. fold cfg.
  destruct (first_device cfg RTL_VENDOR RTL_DEVICE (slots 0 8)) as [[bus dev]|] eqn:Hd; [|by split_and!].
  cbn [set_latch config]. fold cfg. set (irq := line_register cfg bus dev). set (b1 := mk_board _ _ _ _ _ _ _ _).
  assert (0 ≤ irq) as H0 by (unfold irq, line_register, u8; apply Z.mod_pos_bound; lia). specialize (Hp bus dev Hd). fold cfg in Hp.
  unfold bring_up. destruct (Z.gtb_spec irq 15) as [Hi|Hi].
  { rewrite decide_True by lia. split; [done|]. split; [done|]. by split. }
  destruct (decide (irq > 15)); [lia|]. change (kernel_heap (found bus dev b1)) with (kernel_heap b). change (io_base (found bus dev b1)) with (bar_port cfg bus dev).
  pose proof (quiet_power _ Hp (ports (found bus dev b1))) as Hk1. destruct (power_on _ _) as [mc m1]. cbn [fst snd] in *.
  destruct (Kmalloc.kmalloc_a (kernel_heap b) Rtl8139.RX_BUF_SIZE) as [buf h'| |]; [|split; [|done]; exact (k_config _ _ Hk1)..].
  pose proof (quiet_start (bar_port cfg bus dev) buf Hp m1) as Hk2. destruct (start_engine _ _ _) as [[] m2]. cbn [fst snd] in *.
  destruct Hk1 as [K1 K2 K3 K4], Hk2 as [L1 L2 L3 L4].
  assert (same_pics (ports b) m2) as Hs by (split; [rewrite L1, K1|rewrite L2, K2]; done). pose proof (ready_keeps _ _ Hs Hr) as Hr2.
  split; [|split; [done|]].
  - cbn [ports]. destruct (pic_unmask_spec irq m2 Hr2 H0) as (_ & _ & _ & -> & _). rewrite L4, K4. done.
  - exact (unmasked_started irq_net irq buf h' m2 _ _ b Hr H2 Hl Hn (conj H0 Hi) Hs).
Qed.

Lemma timer_loaded l h m :
  (_ ← outb PIT_REG_COMMAND 0x36; _ ← outb 0x40 l; _ ← outb 0x40 h; mret true) m =
    (true, mk_pc (master m) (slave m) (mk_counter 0x36 None (if l + 256 * h =? 0 then 65536 else l + 256 * h)) (latch m) (config m) (others m)).
Proof. reflexivity. Qed.

(** The timer counts down from the divisor: at the rates a 16-bit divisor
    allows, a tick is [freq]th of a second up to one count of the clock. *)
Theorem timer_programmed freq m :
  19 ≤ freq < 65536 →
  let '(ok, m') := pit_init_timer freq m in
  ok = true ∧ control (timer m') = 0x36 ∧ low_byte (timer m') = None ∧
  1 ≤ reload (timer m') < 65536 ∧ reload (timer m') * freq ≤ 1193181 < (reload (timer m') + 1) * freq ∧
  master m' = master m ∧ slave m' = slave m.
Proof.
  intros Hf. unfold pit_init_timer, pit_divisor. rewrite (proj2 (Z.eqb_neq freq 0)) by lia. rewrite (u16_small freq) by lia. rewrite (proj2 (Z.eqb_neq freq 0)) by lia.
  assert (1 ≤ 1193181 / freq < 65536) as Hd by (split; [apply Z.div_le_lower_bound|apply Z.div_lt_upper_bound]; lia).
  rewrite (u16_small (1193181 / freq)) by lia. set (d := 1193181 / freq) in *.
  assert (Z.land d 0xFF + 256 * Z.land (Z.shiftr d 8) 0xFF = d) as Hs.
  { change 0xFF with (2 ^ 8 - 1). rewrite !land_ones_mod, Z.shiftr_div_pow2 by lia. change (2 ^ 8) with 256. zdm. }
  rewrite timer_loaded, Hs, (proj2 (Z.eqb_neq d 0)) by lia. cbn [timer control low_byte reload master slave].
  split_and!; try done; try lia; unfold d; zdm.
Qed.

(** The frequency is cut to 16 bits after it was compared with zero: a
    multiple of 65536 divides by zero. *)
Theorem timer_divides_by_zero (m : pc D) : pit_init_timer 65536 m = (false, m).
Proof. done. Qed.
End nic.

(** ** A machine *)

#[export] Instance no_devices : Devices unit := {| dev_in _ _ u := (0, u); dev_out _ _ _ u := (tt, u); cfg_store _ _ v := v |}.

(** A card in slot 3 of bus 0, with its registers at 0xC000 and line 11. *)
Definition toy_config (a : Z) : Z :=
  if a =? pci_address 0 3 0 0 then 0x813910EC
  else if a =? pci_address 0 3 0 0x10 then 0xC001
  else if a =? pci_address 0 3 0 0x3C then 0x10B
  else if a =? pci_address 0 3 0 0x04 then 0 else 0xFFFFFFFF.

Definition toy_pc : pc unit := (pic_init (mk_pc (mk_pic 1 2 3 4 5) (mk_pic 5 4 3 2 1) (mk_counter 0 None 0) 0 toy_config tt)).2.
Definition toy_stubs (s : stub) : Z := if decide (s = irq_12) then 0x101000 else 0x102000.
Definition toy_board : board (pc unit) := mk_board toy_pc 0 false [] 0 0 (idt_init toy_stubs) Kmalloc.small_heap.

Lemma timer_programmed_witness : reload (timer (pit_init_timer 200 toy_pc).2) = 5965 ∧ 19 ≤ 200 < 65536.
Proof. split; [|lia]. pose proof (timer_programmed 200 toy_pc ltac:(lia)) as (_ & _ & _ & _ & E & _). vm_compute. reflexivity. Defined.

Lemma lines_routed_witness :
  let m := ((_ ← pic_init; unmask_all [11]) toy_pc).2 in
  line_enabled m 11 = true ∧ line_enabled m 10 = false ∧ gate_offset <$> idt_init toy_stubs !! Z.to_nat (line_vector m 12) = Some 0x101000.
Proof.
  assert (∀ s, 0 ≤ toy_stubs s < 4294967296) as Ha by (intros s; unfold toy_stubs; case_decide; lia).
  pose proof (lines_routed toy_stubs toy_pc [11] Ha ltac:(repeat constructor; lia)) as H. cbv zeta in *. split_and!.
  - apply (H 11); [lia|]. right. set_solver.
  - apply not_true_is_false. intros E. apply (H 10) in E; [|lia]. unfold boot_lines in E. set_solver.
  - destruct (H 12 ltac:(lia)) as (_ & _ & _ & G). rewrite (G irq_12 eq_refl). reflexivity.
Defined.

Lemma nic_line_delivered_witness :
  let '(r, b') := rtl8139_init 0x104000 toy_board in
  r = Some 0 ∧ gate_offset <$> table b' !! Z.to_nat (line_vector (ports b') 11) = Some 0x104000 ∧ line_enabled (ports b') 11 = true ∧
  config (ports b') (pci_address 0 3 0 0x04) = 5.
Proof.
  assert (first_device (config (ports toy_board)) RTL_VENDOR RTL_DEVICE (slots 0 8) = Some (0, 3)) as Hd by (vm_compute; reflexivity).
  pose proof (nic_line_delivered 0x104000 toy_board) as H. cbv zeta in H. rewrite Hd in H.
  destruct (rtl8139_init 0x104000 toy_board) as [r b']. cbv beta iota in H.
  assert (line_register (config (ports toy_board)) 0 3 = 11) as Hl by (vm_compute; reflexivity). rewrite Hl in H.
  destruct H as (Hc & H).
  - apply pic_init_ready.
  - vm_compute. reflexivity.
  - vm_compute. reflexivity.
  - lia.
  - intros bus dev [= <- <-]. unfold device_port. vm_compute. discriminate.
  - rewrite decide_False in H by lia. destruct (Kmalloc.kmalloc_a (kernel_heap toy_board) Rtl8139.RX_BUF_SIZE) as [buf h'| |] eqn:E; [|vm_compute in E; discriminate..].
    destruct H as [-> [_ Hg Hli _ _]]. split_and!; [done|exact Hg|exact Hli|]. rewrite Hc. vm_compute. reflexivity.
Defined.
End HwSpec.
